(* ===== verification/_CoqProject ===== *)
-Q . S2P
Prelude.v
ErrState.v
Heap.v
Memmap.v
GCMemcardData.v
GCMemcard.v
GCMemcardSpec.v
PPCCache.v
CacheCoherence.v
CacheSpec.v
CoreTiming.v
CoreTimingSpec.v
PPCState.v
PPCExceptions.v
PPCInteger.v
PPCBranch.v
PPCSystem.v
PPCFloat.v
PPCOpcodes.v
PPCTables.v
PPCInterpreter.v
PPCAnalyst.v
PPCTypes.v
PPCFootprint.v
PPCShapes.v
PPCDeclared.v
PPCReorder.v
PPCBlocks.v
PPCArith.v
PPCSpec.v
PPCAnalystSpec.v
PPCPageTable.v
PPCPageSlots.v
PPCPageUpdate.v
PPCPageTableSpec.v
PPCMachine.v
GatherPipe.v
PPCMmu.v
PPCAccess.v
PPCBat.v
PPCBatSpec.v
GatherPipeSpec.v
PPCHostPages.v
PPCLoadStore.v
PPCSpr.v
PPCCpu.v
PPCMemory.v
PPCMemorySpec.v
ARDecrypt.v
ARDecryptSpec.v
ActionReplay.v
ActionReplaySpec.v
DSPTypes.v
DSPState.v
DSPCore.v
DSPTables.v
DSPAccelerator.v
DSPAnalyzer.v
DSPHWInterface.v
DSPInterpreter.v
DSPIntArithmetic.v
DSPIntMultiplier.v
DSPIntLoadStore.v
DSPIntMisc.v
DSPIntBranch.v
DSPIntExtOps.v
DSPIntTables.v
DSPBreakpoints.v
DSPStep.v
DSPLLE.v
GameCubeHost.v
DSPAddressing.v
DSPAlu.v
DSPControlFlow.v
DSPDecode.v
DSPMachine.v
DSPAnalysis.v
DSPMailbox.v
DSPSamples.v
DSPDma.v
