(* ===== verification/Prelude.v ===== *)
(** * Verification library for Dolphin

    Dolphin emulates the GameCube and the Wii.  This library models parts of it
    with the most intricate behaviour and a contract of their own: the
    interpreter of the PowerPC CPU with its caches, its memory management unit
    and the memory manager, the block analysis the recompilers are built on, the
    event scheduler, the low-level emulation of the audio DSP with the CPU's
    view of it, the file system of memory cards and the interpreter of Action
    Replay codes.

    ** The program's parts and how they meet

    The CPU core executes instructions one at a time (interpreter) or block by
    block (recompilers).  Every block is first analyzed: the analysis lists what
    each instruction reads and writes, reorders instructions, finds idle loops
    and says which registers are dead.  An access to memory is translated by
    the block registers or by the page table the guest keeps in memory, behind a
    look-aside buffer; the physical address is one of the emulated memories,
    reached through two set-associative caches, or the gather pipe, the frame
    buffer or a device.  So that translated code needs no walk, the host shows
    blocks and pages at their effective addresses, and these mappings follow
    every change of the page table and the registers.  Everything that is not the CPU happens
    in events: the scheduler runs those that are due when the CPU's slice of
    cycles is used up.

    The DSP is a processor of 16-bit words: an instruction memory (RAM and ROM),
    a data memory (RAM, coefficient ROM and hardware registers), 32 registers
    with two 40-bit accumulators and a product register in four pieces, four
    hardware stacks, circular addressing, hardware loops, exceptions, an
    accelerator that reads samples from the auxiliary memory, two mailboxes and
    a DMA engine.  The CPU reaches it through a control register and the
    mailboxes and gives it time slices; the interpreter executes them one
    instruction at a time, after a static analyzer has marked instruction
    starts, loop ends and idle loops in the code.

    A memory card is an image of blocks of 8 KiB: a header, two copies of the
    directory, two of the table that chains the blocks of a file, and the files.
    The card manager opens an image, checks and repairs it, and imports, exports
    and removes single files, which it reads and writes in three formats.

    Action Replay codes are lines of two words, encrypted or not, kept in the
    settings of a game.  Once a frame the active ones run on the CPU's thread: they
    write to the memory of the machine through the host's accesses of the memory
    management unit, under conditions on its contents.

    ** Files that model the code

    Common ground:

    - [Prelude]: machine integers as [Z] with [u16], [s32] and the like for the
      conversions, bit notations, the arithmetic tactics and generic lemmas.
    - [ErrState]: the monad of the stateful components.  An operation maps a
      state to a result and a state, or to a fault; a fault is what C++ leaves
      undefined (an index outside an array, a DMA outside the on-chip memories,
      the null pointer), the call of [std::exit], or the end of the fuel.
    - [Heap]: the binary heap of the C++ library, through the laws of the class
      [HeapOps].  Fixed arrays are in [ErrState].

    Memory and time ([Core], [Core/HW], [Core/PowerPC]):

    - [Memmap] ([HW/Memmap.cpp], [HW/Memmap.h]): the emulated memories, address
      ranges, copies, typed accesses.
    - [PPCCache] ([PowerPC/PPCCache.cpp]): the instruction and the data cache
      over the memory manager.
    - [CoreTiming] ([CoreTiming.cpp]): the scheduler, over any state of the rest
      of the machine and any callbacks (class [Machine]).

    Memory cards ([HW/GCMemcard]):

    - [GCMemcardData] ([GCMemcard.h] and the members of [Header], [Directory] and
      [BlockAlloc] in [GCMemcard.cpp]): how the structures lie in their bytes,
      put together from layouts of the fields with their laws, checksums, checks
      and the walks over the block table.
    - [GCMemcard] ([GCMemcard.cpp], [GCMemcardUtils.cpp]): the card: [Open],
      [Save], [Format], [ImportFile], [ExportFile], [RemoveFile] and the formats
      of single files.

    The CPU ([Core/PowerPC]):

    - [PPCState] ([Gekko.h], [PowerPC.h], [ConditionRegister.cpp]): instruction
      fields, registers, the optimized condition register; [PPCExceptions]
      ([PowerPC.cpp]): requests and entry of exceptions.
    - [PPCInteger], [PPCBranch], [PPCSystem], [PPCFloat] (the files
      [Interpreter_*.cpp]): one definition per instruction, with its name.
    - [PPCOpcodes] ([Interpreter_Tables.cpp]), [PPCTables] ([PPCTables.cpp]): the
      tables of functions and of instruction information, entry by entry, and
      their construction.
    - [PPCInterpreter] ([Interpreter.cpp]): [SingleStepInner] over a class
      [Fetch] of the instruction memory; [cpu_run] is any interleaving of its
      steps with exception requests from outside.
    - [PPCPageTable] ([PageTableUpdated] and what it calls in [MMU.cpp], the
      host mappings of [Memmap.cpp]): the incremental update of the mappings.
    - [PPCMachine] ([PowerPC.h], [MMU.h]): the state of the CPU with everything
      its instructions reach, and the class [Devices] of the rest.
    - [GatherPipe] ([HW/ProcessorInterface.cpp], [HW/GPFifo.cpp]): the processor
      interface and the pipe that feeds the graphics processor's ring.
    - [PPCMmu], [PPCAccess], [PPCBat] ([MMU.cpp]): physical reads, the look-aside
      buffer, the page walk; reads and writes, cache lines and the DMA of the
      locked cache; the block registers with the host's mappings of blocks.
    - [PPCLoadStore] ([Interpreter_LoadStore.cpp]), [PPCSpr] ([mfspr], [mftb]
      and [mtspr] of [Interpreter_SystemRegisters.cpp]), [PPCCpu]
      ([Interpreter.cpp], [Interpreter_Tables.cpp], [PowerPC.cpp]): memory
      instructions, special registers, one step of the interpreter and resets
      over that machine.
    - [PPCAnalyst] ([PPCAnalyst.cpp]): [Analyze] and everything it calls, over a
      class [AnalystEnv] of the guest memory and the debugger.

    Action Replay codes ([Core/ActionReplay.cpp], [Core/ARDecrypt.cpp]):

    - [ARDecrypt] ([ARDecrypt.cpp]): the cipher with its tables and key schedule,
      the letters of encrypted lines, the check sum and the verification code;
      [None] is what C++ leaves undefined.
    - [ActionReplay] ([ActionReplay.cpp], [CheatCodes.h], [ApplyMemoryPatch] of
      [PPCDebugInterface.cpp], lines of sections in [Common/IniFile.cpp], strings
      in [Common/StringUtil.cpp]): [RunOps] is the loop of [RunCodeLocked] over
      the lines of a code, with its variables in [RunState], on the machine of
      [PPCMachine]; the lists of codes; [LoadCodes] and [SaveCodes].

    The DSP ([Core/DSP], [HW/DSPLLE]):

    - [DSPTypes] ([DSPCore.h], [DSPAccelerator.h], [DSPHost.h]): the state
      [SDSP], the registers [DSP_Regs], the constants, and the class [DSPHost]
      of what the rest of the emulator provides.
    - [DSPTypes] also holds the invariant [wf]; [DSPState]: the accessors, and the predicate
      [dsafe] (an operation keeps [wf] and can only fail in a DMA) with its
      tactics and hint database, through which every operation is shown safe
      where it is defined.
    - [DSPCore] ([DSPStacks.cpp], [DSPCore.cpp]): stacks, exceptions, reset,
      register access of the debugger, the initial state.
    - [DSPTables] ([DSPTables.cpp], [DSPTables.h]): the opcode templates.
    - [DSPAccelerator] ([DSPAccelerator.cpp]), over the class [AccelEnv] of what
      a subclass provides; [DSPHWInterface] gives the subclass of [DSPCore.cpp].
    - [DSPAnalyzer] ([DSPAnalyzer.cpp] and the instruction half of
      [DSPMemoryMap.cpp]).
    - [DSPHWInterface] ([DSPHWInterface.cpp], the data half of
      [DSPMemoryMap.cpp], [HW/DSPLLE/DSPHost.cpp]): hardware registers,
      mailboxes, DMA, loading of code.
    - [DSPInterpreter] ([DSPInterpreter.cpp] without the run loops) and one file
      per opcode group with the same name as the C++ file: [DSPIntArithmetic],
      [DSPIntMultiplier], [DSPIntLoadStore], [DSPIntMisc], [DSPIntBranch],
      [DSPIntExtOps]; every opcode function is a definition of the same name.
    - [DSPIntTables] ([DSPIntTables.cpp]): the dispatch from words to functions.
    - [DSPBreakpoints] ([DSPBreakpoints.h]).
    - [DSPStep]: [ExecuteInstruction], [Step] and the run loops [RunCycles],
      [RunCyclesDebug], [RunCyclesThread] of [DSPInterpreter.cpp].
    - [DSPLLE] ([HW/DSPLLE/DSPLLE.cpp]): the CPU's operations; [run_events] is
      any interleaving of them with the DSP's instructions.
    - [GameCubeHost] ([HW/DSP.cpp] over [Memmap]): an instance of [DSPHost] for a
      GameCube.

    ** Files that hold the theorems

    - [CacheCoherence], [CacheSpec]: the caches refine two flat memories (what
      the program sees and what is behind it); a program that invalidates only
      lines it has not written since it stored or flushed them cannot tell
      them from the memory.
    - [CoreTimingSpec]: [Advance] runs the earliest due event each time, callbacks
      that schedule into the past included, and ends when they do not; over every
      run without overclocking the clock is exact and events are on time.
    - [PPCTypes]: the types of the registers, kept by every instruction; the runs
      from reset are in [PPCSpec].
    - [PPCPageSlots], [PPCPageUpdate], [PPCPageTableSpec]: the order in which a
      walk meets the entries of a page, the invariant of the two passes of the
      update, and that the incremental update gives what a full one gives.
    - [PPCHostPages]: a translation finds the entry the walk defines, in each of
      its cases; the states that updates of the mappings and translations reach
      ([paged]) show on the host exactly the pages of the table in memory, and
      translating them gives the page shown.  [PPCBatSpec]: the same of blocks,
      the fake memory included.
    - [GatherPipeSpec]: the gather pipe is a stream of bytes cut into blocks, which
      are found in the ring in memory, around its end.
    - [PPCMemory], [PPCMemorySpec]: memory as the CPU sees it
      through its cache, and the round trips of all integer loads and stores (the
      tables [stores] and [loads]), of several registers and of strings; reservations.
    - [PPCFootprint], [PPCShapes], [PPCDeclared]: a logic of which registers an
      operation reads and writes; each instruction's function satisfies what the
      tables declare of it, but for the summary overflow that [mcrxr] clears.
    - [PPCReorder], [PPCBlocks], [PPCAnalystSpec]: the analysis terminates, its
      reordering keeps the meaning of a block of modelled instructions without
      [mcrxr] (with it, it does not), the registers it discards are dead, and the
      decoders agree.
    - [PPCArith], [PPCSpec]: what instruction sequences compute: long addition,
      comparison and branch, division by shifts, system calls, counted loops.
    - [GCMemcardSpec]: the card is a store of files over every sequence of
      operations, the chains of the files and the free blocks being the blocks of
      the card, each once; a damaged copy is recovered; bytes and formats of a
      file; and what the checks let through.
    - [ARDecryptSpec]: the decryption is the Data Encryption Standard, written out
      from its text in the Module [DES], with one key; every code can be encrypted
      so that its lines decrypt to it.
    - [ActionReplaySpec]: codes run as the structure of conditions and blocks says
      that their lines were made from; fills; saving and loading, which keeps every
      code but those of the user without entries.
    - [DSPMachine]: the invariant over every interleaving from power-on; the run
      loops refine bounded runs of [Step]; breakpoints stop the debug loop; a
      two-instruction program shows that a DMA can leave the data memory.
    - [DSPControlFlow]: stacks are last-in first-out; which exception is taken
      and what entry does; RTI undoes it; a hardware loop runs its body exactly
      as often as it says; registers read back what was written.
    - [DSPMailbox]: over all interleavings of the single loads and stores of
      both sides, messages arrive in order, once, unmixed; no deadlock.
    - [DSPAddressing]: circular addressing is arithmetic modulo the buffer's
      length inside the buffer and for steps up to that length, and one correction
      by the length otherwise.
    - [DSPAlu]: exact values and flags of the arithmetic.
    - [DSPAnalysis], [DSPDecode]: the analyzer's marks are closed under
      "next instruction", they are the boundaries the interpreter sees, and the
      two opcode tables agree and are unambiguous.
    - [DSPLLE], [DSPDma], [DSPSamples], [DSPBreakpoints]: read-only memories,
      DMA and booting, the passes of the accelerator over a buffer, the
      breakpoint set.
    - [GameCubeHost] ends with concrete machines, on which the conditional
      theorems about the DSP are applied once; the other witnesses stand beside
      their theorems.

    ** Bounds and fuel

    - [RunCycles_fuel n] is [n + 1]: a turn of the run loop's outer [while] uses
      up 208 cycles or returns.  [AnalyzeRange] gives its loop one unit per
      address of the range, and every turn moves forward by at least one.  The
      exception loop, the back log and the idle-loop search have the constant
      bounds of the code.  That the fuel is enough is part of
      [machine_invariant]: no run from power-on ends in [OutOfFuel].
    - [reorder_fuel] bounds the passes of the reordering; that it suffices is
      part of [analysis_keeps_the_program].
    - A single-precision denormal is normalized in at most 23 turns
      ([PPCArith.normalize_ends]).
    - The page table has at most 4 MiB in the theorems about its mappings (the
      hash of larger ones is computed wrongly, see the findings), and its entries
      are in main memory with the data cache not emulated where a translation
      reads them.  Host pages have 4 KiB.  The theorems about loads and stores
      hold with the data cache on or off, for addresses that are not translated
      or translated by a block to cached memory.
    - [UpdateGatherPipe_loop] has one unit of fuel per byte in the pipe and uses
      one per 32; [gather_pipe_is_a_stream] says that nothing is left over.
    - [chain_blocks] may follow one block more than the table has entries: a longer
      chain is a cycle, in which the loop of the code does not end.  [copy_blocks]
      has one unit per block that the range can touch.  The theorems about cards
      hold for at most 0x7FFF changes, before the 16-bit update counters wrap.
    - [run_block] takes its fuel as an argument: guest code can loop for ever.
    - [Advance] takes its fuel as an argument: callbacks can schedule events for
      ever.  [Advance_ends] gives the fuel that suffices when they do not.

    ** What is a parameter

    [DSPHost] stands for main memory, the auxiliary memory, interrupts to the CPU
    and the time base.  The theorems about the core hold for every host whose
    reads return bytes and words (the laws of the class); [GameCubeHost]
    discharges the laws.  [Machine] gives the scheduler's callbacks and the
    clock factors, [HeapOps] the heap functions of the C++ library with their
    documented laws, [Fetch] the instruction memory, [AnalystEnv] the code to
    analyze.  [Devices] gives the registers behind MMIO, the frame buffer, the
    command processor, the memory checks of the debugger, the recompiler's cache,
    the timers and the functions replaced by host code; they may change anything
    in the machine.  The theorems that need more say so: [BurstsLeavePipe] (the
    command processor leaves the pipe alone), [NoMemchecks] (no memory checks).

    ** What is not modelled

    Logging, the capture logger, [Symbols::AutoDisassembly] and the profilers
    have no effect on the state and are left out, and so is [DoState]
    (savestates).  The DSP thread is not modelled: with the interpreter
    [DSPLLE::Initialize] turns it off.  [DSPCore::RunCycles] is modelled in its
    running state (the stepping state waits for the debugger's user).  Of the
    host mappings of the emulated memories ("fastmem") the maps are modelled, not
    the system calls that make them.  Floating-point arithmetic and the quantized
    accesses compute with the host's floating-point unit and are not modelled,
    nor is the outer loop of [Interpreter::Run], in which the devices, through
    the scheduler, and the CPU call each other in both directions.
    Of Action Replay the log of a run is left out, and so are the keys of the
    settings and their files; which codes the achievements allow, the addition of
    floating-point codes and the library's formatting of words are arguments.
    Of memory cards the comments, banners and icons, the folders of single files
    and the device on the serial bus are left out; files of the host are lists of
    bytes, and writing them succeeds.
    Recompilers are code generators and are not modelled, nor are the graphics,
    the sound output, the input devices, the operating system of the Wii and the
    user interfaces. *)
From Stdlib Require Export ZArith Lia Bool.
From stdpp Require Export base list gmap.

#[global] Open Scope Z_scope.

(** ** Bit notations, in the C++ spelling order *)

Declare Scope bits_scope.
Delimit Scope bits_scope with bits.
Notation "a .& b" := (Z.land a b) (at level 46, left associativity) : bits_scope.
Notation "a .| b" := (Z.lor a b) (at level 48, left associativity) : bits_scope.
Notation "a .^ b" := (Z.lxor a b) (at level 47, left associativity) : bits_scope.
Notation "a .<< b" := (Z.shiftl a b) (at level 45, left associativity) : bits_scope.
Notation "a .>> b" := (Z.shiftr a b) (at level 45, left associativity) : bits_scope.
Notation ".~ a" := (Z.lnot a) (at level 35, right associativity) : bits_scope.
#[global] Open Scope bits_scope.

(** ** Machine integers

    A w-bit C++ integer is a [Z]; the conversions below are the C++ integral
    conversions ([static_cast<u16>(x)] is [u16 x]), total on [Z]. *)

Definition u8 (z : Z) : Z := z mod 0x100.
Definition u16 (z : Z) : Z := z mod 0x10000.
Definition u32 (z : Z) : Z := z mod 0x100000000.
Definition u64 (z : Z) : Z := z mod 0x10000000000000000.
Definition s8 (z : Z) : Z := (z + 0x80) mod 0x100 - 0x80.
Definition s16 (z : Z) : Z := (z + 0x8000) mod 0x10000 - 0x8000.
Definition s32 (z : Z) : Z := (z + 0x80000000) mod 0x100000000 - 0x80000000.
Definition s64 (z : Z) : Z :=
  (z + 0x8000000000000000) mod 0x10000000000000000 - 0x8000000000000000.

Definition is_u8 (z : Z) : Prop := 0 <= z < 0x100.
Definition is_u16 (z : Z) : Prop := 0 <= z < 0x10000.
Definition is_u32 (z : Z) : Prop := 0 <= z < 0x100000000.
Definition is_u64 (z : Z) : Prop := 0 <= z < 0x10000000000000000.
Definition is_s16 (z : Z) : Prop := -0x8000 <= z < 0x8000.
Definition is_s32 (z : Z) : Prop := -0x80000000 <= z < 0x80000000.
(** A value of the DSP's 40-bit accumulators, sign-extended. *)
Definition is_s40 (z : Z) : Prop := -0x8000000000 <= z < 0x8000000000.

#[global] Instance is_u16_dec z : Decision (is_u16 z).
Proof. unfold is_u16. apply _. Defined.

Create HintDb ints.

Ltac unfold_ints :=
  unfold u8, u16, u32, u64, s8, s16, s32, s64,
    is_u8, is_u16, is_u32, is_u64, is_s16, is_s32, is_s40 in *.

(** Linear arithmetic with the conversions unfolded: [/] and [mod] by
    constants become equations. *)
Ltac zlia := unfold_ints; Z.div_mod_to_equations; lia.

(** ** Ranges of bit operations *)

Lemma land_mask_range x m : 0 <= m -> 0 <= x .& m <= m.
Proof.
  intros Hm. split; [apply Z.land_nonneg; auto|].
  destruct (Z.eq_dec (x .& m) 0) as [->|Hne]; [done|].
  assert (0 <= x .& m) by (apply Z.land_nonneg; auto).
  apply Z.ldiff_le; [lia|].
  apply Z.bits_inj'. intros n Hn.
  rewrite Z.ldiff_spec, Z.land_spec, Z.bits_0.
  destruct (Z.testbit x n), (Z.testbit m n); done.
Qed.

(** The range of the values below [2^n], as a statement on their bits. *)
Lemma bits_above_pow2 a n : 0 <= n -> 0 <= a < 2 ^ n <-> (0 <= a /\ forall i, n <= i -> Z.testbit a i = false).
Proof.
  intros Hn. split.
  - intros [Ha Hlt]. split; [done|]. intros i Hi.
    destruct (Z.eq_dec a 0) as [->|Hne]; [apply Z.bits_0|].
    apply Z.bits_above_log2; [done|]. apply Z.log2_lt_pow2 in Hlt; lia.
  - intros [Ha Hb]. split; [done|].
    destruct (Z.eq_dec a 0) as [->|Hne]; [apply Z.pow_pos_nonneg; lia|].
    apply Z.log2_lt_pow2; [lia|].
    destruct (Z.lt_ge_cases (Z.log2 a) n) as [|Hge]; [done|].
    specialize (Hb _ Hge). rewrite Z.bit_log2 in Hb; [done|lia].
Qed.

Lemma lor_range_pow2 n a b :
  0 <= n -> 0 <= a < 2 ^ n -> 0 <= b < 2 ^ n -> 0 <= a .| b < 2 ^ n.
Proof.
  intros Hn Ha Hb. apply (bits_above_pow2 a n Hn) in Ha as [Ha Ha'].
  apply (bits_above_pow2 b n Hn) in Hb as [Hb Hb'].
  apply (bits_above_pow2 _ n Hn). split; [apply Z.lor_nonneg; auto|].
  intros i Hi. rewrite Z.lor_spec, Ha', Hb'; done.
Qed.

Lemma lxor_range_pow2 n a b :
  0 <= n -> 0 <= a < 2 ^ n -> 0 <= b < 2 ^ n -> 0 <= a .^ b < 2 ^ n.
Proof.
  intros Hn Ha Hb. apply (bits_above_pow2 a n Hn) in Ha as [Ha Ha'].
  apply (bits_above_pow2 b n Hn) in Hb as [Hb Hb'].
  apply (bits_above_pow2 _ n Hn). split; [apply Z.lxor_nonneg; lia|].
  intros i Hi. rewrite Z.lxor_spec, Ha', Hb'; done.
Qed.

Lemma land_range_l n a b : 0 <= n -> 0 <= a < 2 ^ n -> 0 <= a .& b < 2 ^ n.
Proof. intros Hn Ha. pose proof (land_mask_range b a). rewrite Z.land_comm. lia. Qed.

Lemma is_u16_lor a b : is_u16 a -> is_u16 b -> is_u16 (a .| b).
Proof. exact (lor_range_pow2 16 a b ltac:(lia)). Qed.

Lemma is_u16_lxor a b : is_u16 a -> is_u16 b -> is_u16 (a .^ b).
Proof. exact (lxor_range_pow2 16 a b ltac:(lia)). Qed.

Lemma is_u16_land a b : is_u16 a -> is_u16 (a .& b).
Proof. exact (land_range_l 16 a b ltac:(lia)). Qed.

Lemma is_u16_land_r a b : is_u16 b -> is_u16 (a .& b).
Proof. rewrite Z.land_comm. apply is_u16_land. Qed.

Lemma is_u8_land a b : is_u8 a -> is_u8 (a .& b).
Proof. exact (land_range_l 8 a b ltac:(lia)). Qed.

Lemma is_u8_land_r a b : is_u8 b -> is_u8 (a .& b).
Proof. rewrite Z.land_comm. apply is_u8_land. Qed.

Lemma is_u16_u16 a : is_u16 (u16 a).
Proof. zlia. Qed.

Lemma is_u16_if (b : bool) x y : is_u16 x -> is_u16 y -> is_u16 (if b then x else y).
Proof. by destruct b. Qed.

Lemma is_u32_lor a b : is_u32 a -> is_u32 b -> is_u32 (a .| b).
Proof. exact (lor_range_pow2 32 a b ltac:(lia)). Qed.

Lemma is_u32_land a b : is_u32 a -> is_u32 (a .& b).
Proof. exact (land_range_l 32 a b ltac:(lia)). Qed.

Lemma is_u32_u32 a : is_u32 (u32 a).
Proof. zlia. Qed.

Lemma is_u8_u8 a : is_u8 (u8 a).
Proof. zlia. Qed.

Lemma u16_id a : is_u16 a -> u16 a = a.
Proof. intros. zlia. Qed.

Lemma u32_id a : is_u32 a -> u32 a = a.
Proof. intros. zlia. Qed.

Lemma u16_s16 a : u16 (s16 a) = u16 a.
Proof. zlia. Qed.

Lemma s16_u16 a : s16 (u16 a) = s16 a.
Proof. zlia. Qed.

Lemma s32_id a : is_s32 a -> s32 a = a.
Proof. intros. zlia. Qed.

Lemma s16_range a : is_s16 (s16 a).
Proof. zlia. Qed.

#[export] Hint Resolve is_u16_lor is_u16_lxor is_u16_land is_u16_u16 is_u16_if is_u32_lor is_u32_land
  is_u32_u32 is_u8_u8 is_u8_land : ints.
#[export] Hint Resolve is_u16_land_r is_u8_land_r | 5 : ints.
(** Closed constants. *)
#[export] Hint Extern 1 (is_u8 _) => (split; [discriminate|reflexivity]) : ints.
#[export] Hint Extern 1 (is_u16 _) => (split; [discriminate|reflexivity]) : ints.
#[export] Hint Extern 1 (is_u32 _) => (split; [discriminate|reflexivity]) : ints.

(** Facts about every masked subterm of the goal and the hypotheses, for [lia]. *)
Ltac mask_facts :=
  repeat match goal with
  | |- context [?x .& Zpos ?m] =>
      lazymatch goal with
      | _ : 0 <= x .& Zpos m <= Zpos m |- _ => fail
      | _ => pose proof (land_mask_range x (Zpos m) ltac:(lia))
      end
  | _ : context [?x .& Zpos ?m] |- _ =>
      lazymatch goal with
      | _ : 0 <= x .& Zpos m <= Zpos m |- _ => fail
      | _ => pose proof (land_mask_range x (Zpos m) ltac:(lia))
      end
  end.

(** Side conditions: index ranges and machine-integer ranges. *)
Ltac rng := solve [eauto 6 with ints | mask_facts; zlia].

(** ** Bits against arithmetic *)

Lemma land_ones_mod n x m : 0 <= n -> m = 2 ^ n - 1 -> x .& m = x mod 2 ^ n.
Proof. intros Hn ->. rewrite <- Z.land_ones by done. f_equal. rewrite Z.ones_equiv. lia. Qed.

Lemma land_0xffff x : x .& 0xffff = x mod 0x10000.
Proof. exact (land_ones_mod 16 x 0xffff ltac:(lia) eq_refl). Qed.

Lemma land_0xff x : x .& 0xff = x mod 0x100.
Proof. exact (land_ones_mod 8 x 0xff ltac:(lia) eq_refl). Qed.

Lemma lor_disjoint_add a b : a .& b = 0 -> a .| b = a + b.
Proof. intros H. rewrite <- Z.lxor_lor by done. symmetry. by apply Z.add_nocarry_lxor. Qed.

(** A word assembled from a high part shifted by [n] and an [n]-bit low part. *)
Lemma lor_shiftl_add n h l : 0 <= n -> 0 <= l < 2 ^ n -> (h .<< n) .| l = h * 2 ^ n + l.
Proof.
  intros Hn Hl. rewrite lor_disjoint_add; [by rewrite Z.shiftl_mul_pow2|].
  apply (bits_above_pow2 l n Hn) in Hl as [Hl0 Hl].
  apply Z.bits_inj'. intros i Hi. rewrite Z.land_spec, Z.bits_0, Z.shiftl_spec by done.
  destruct (Z.lt_ge_cases i n).
  - by rewrite Z.testbit_neg_r by lia.
  - by rewrite Hl, andb_false_r.
Qed.

Lemma testbit_u32 x n : 0 <= n < 32 -> Z.testbit (u32 x) n = Z.testbit x n.
Proof. intros. unfold u32. change 0x100000000 with (2 ^ 32). by rewrite Z.mod_pow2_bits_low by lia. Qed.

(** Bit [n] of a number is the parity of its quotient by [2^n]. *)
Lemma testbit_odd_div a n : 0 <= n -> Z.testbit a n = Z.odd (a / 2 ^ n).
Proof. intros Hn. by rewrite Z.testbit_odd, Z.shiftr_div_pow2. Qed.

(** The carry into bit [n] of an addition, read off the exclusive or of the
    operands and the sum: the idiom of the address-register wrap checks. *)
Lemma carry_into_bit a b n :
  0 <= n ->
  Z.testbit ((a + b) .^ a .^ b) n = (2 ^ n <=? a mod 2 ^ n + b mod 2 ^ n).
Proof.
  intros Hn. rewrite !Z.lxor_spec, !testbit_odd_div by done.
  assert (Hp : 0 < 2 ^ n) by (apply Z.pow_pos_nonneg; lia).
  pose proof (Z.div_mod a (2 ^ n) ltac:(lia)) as Ea.
  pose proof (Z.div_mod b (2 ^ n) ltac:(lia)) as Eb.
  pose proof (Z.mod_pos_bound a (2 ^ n) Hp) as Ba.
  pose proof (Z.mod_pos_bound b (2 ^ n) Hp) as Bb.
  set (P := 2 ^ n) in *. set (qa := a / P) in *. set (qb := b / P) in *.
  set (ra := a mod P) in *. set (rb := b mod P) in *.
  destruct (Z.leb_spec P (ra + rb)) as [Hc|Hc].
  - replace ((a + b) / P) with (qa + qb + 1)
      by (apply Z.div_unique with (ra + rb - P); lia).
    rewrite !Z.odd_add. by destruct (Z.odd qa), (Z.odd qb).
  - replace ((a + b) / P) with (qa + qb) by (apply Z.div_unique with (ra + rb); lia).
    rewrite !Z.odd_add. by destruct (Z.odd qa), (Z.odd qb).
Qed.

(** A flag test, as a test of a bit. *)
Lemma flag_testbit sr i : 0 <= i -> negb (sr .& 2 ^ i =? 0) = Z.testbit sr i.
Proof.
  intros Hi. destruct (Z.testbit sr i) eqn:E.
  - apply negb_true_iff, Z.eqb_neq. intros H0.
    assert (Hb : Z.testbit (sr .& 2 ^ i) i = true) by (by rewrite Z.land_spec, E, Z.pow2_bits_true).
    rewrite H0, Z.bits_0 in Hb. done.
  - apply negb_false_iff, Z.eqb_eq. apply Z.bits_inj'. intros n Hn.
    rewrite Z.land_spec, Z.bits_0, Z.pow2_bits_eqb by done.
    destruct (Z.eqb_spec i n) as [<-|]; [by rewrite E|by rewrite andb_false_r].
Qed.
