(* ===== verification/ErrState.v ===== *)
(** * The state-and-fault monad

    Every operation of the emulator is a function from the machine state to
    either a result and the next state, or a fault.  A fault stands for what
    C++ leaves undefined or what ends the process: an index outside an array,
    a DMA that runs outside the on-chip memories, a null pointer, the call of
    [std::exit], or (in the model only) a loop that ran out of fuel. *)
From S2P Require Export Prelude.

Inductive fault :=
  | ArrayBounds    (** an index outside a C++ array *)
  | DmaBounds      (** a DMA beyond the end of IRAM or DRAM *)
  | NullPointer    (** use of the null pointer [GetPointerForRange] returned *)
  | ProcessExit    (** [std::exit] *)
  | OutOfFuel.     (** the model's bound on a loop was reached *)

#[global] Instance fault_eq_dec : EqDecision fault.
Proof. solve_decision. Defined.

Inductive outcome (S A : Type) :=
  | Done (a : A) (s : S)
  | Fault (f : fault).
Arguments Done {_ _} _ _.
Arguments Fault {_ _} _.

Definition M (S A : Type) : Type := S -> outcome S A.

Definition mret {S A} (a : A) : M S A := fun s => Done a s.
Definition mbind {S A B} (m : M S A) (k : A -> M S B) : M S B :=
  fun s => match m s with Done a s' => k a s' | Fault f => Fault f end.
Definition mget {S A} (f : S -> A) : M S A := fun s => Done (f s) s.
Definition mmodify {S} (f : S -> S) : M S unit := fun s => Done tt (f s).
Definition mfail {S A} (f : fault) : M S A := fun _ => Fault f.
(** An array access: [None] is an index out of range. *)
Definition mopt {S A} (f : fault) (o : option A) : M S A :=
  match o with Some a => mret a | None => mfail f end.
Definition mwhen {S} (b : bool) (m : M S unit) : M S unit := if b then m else mret tt.

Declare Scope err_scope.
Delimit Scope err_scope with err.
Notation "x <- m ;; k" := (mbind m (fun x => k))
  (at level 100, m at next level, right associativity) : err_scope.
Notation "m ;;; k" := (mbind m (fun _ => k))
  (at level 100, right associativity) : err_scope.
#[global] Open Scope err_scope.

(** ** Equality of computations

    Two computations are equal when they agree on every state; the sequencing
    operators respect it, so programs can be rewritten under [setoid_rewrite]. *)

Definition meq {S A} (m1 m2 : M S A) : Prop := forall s, m1 s = m2 s.
Infix "=M=" := meq (at level 70, no associativity) : err_scope.

#[export] Instance meq_equivalence S A : Equivalence (@meq S A).
Proof.
  split.
  - by intros m s.
  - intros m1 m2 H s. by rewrite H.
  - intros m1 m2 m3 H1 H2 s. by rewrite H1, H2.
Qed.

#[export] Instance mbind_proper S A B :
  Proper (meq ==> pointwise_relation A meq ==> meq) (@mbind S A B).
Proof.
  intros m1 m2 Hm k1 k2 Hk s. unfold mbind. rewrite Hm.
  destruct (m2 s); [apply Hk|done].
Qed.

Lemma mbind_ret_l {S A B} (a : A) (k : A -> M S B) : (x <- mret a ;; k x) =M= k a.
Proof. by intros s. Qed.

Lemma mbind_ret_r {S A} (m : M S A) : (x <- m ;; mret x) =M= m.
Proof. intros s. unfold mbind. by destruct (m s). Qed.

Lemma mbind_assoc {S A B C} (m : M S A) (f : A -> M S B) (g : B -> M S C) :
  (y <- (x <- m ;; f x) ;; g y) =M= (x <- m ;; (y <- f x ;; g y)).
Proof. intros s. unfold mbind. by destruct (m s). Qed.

(** A step of evaluation: what a bind does once its first part is known. *)
Lemma mbind_done {S A B} (m : M S A) (k : A -> M S B) s a s' :
  m s = Done a s' -> mbind m k s = k a s'.
Proof. intros H. unfold mbind. by rewrite H. Qed.

Lemma mbind_inv {S A B} (m : M S A) (k : A -> M S B) s b s'' :
  mbind m k s = Done b s'' -> exists a s', m s = Done a s' /\ k a s' = Done b s''.
Proof. unfold mbind. destruct (m s); naive_solver. Qed.

(** ** Total-correctness triples

    [safe I F m R]: from every state that satisfies the invariant [I], the
    computation [m] either returns a value that satisfies [R] in a state that
    satisfies [I] again, or stops with one of the faults [F] allows. *)

Section Safe.
Context {S : Type} (I : S -> Prop) (F : fault -> Prop).

Definition safe {A} (m : M S A) (R : A -> Prop) : Prop :=
  forall s, I s ->
  match m s with Done a s' => I s' /\ R a | Fault f => F f end.

Lemma safe_mret {A} (a : A) (R : A -> Prop) : R a -> safe (mret a) R.
Proof. intros H s Hs. by split. Qed.

Lemma safe_bind {A B} (m : M S A) (k : A -> M S B) (Q : A -> Prop) (R : B -> Prop) :
  safe m Q -> (forall a, Q a -> safe (k a) R) -> safe (mbind m k) R.
Proof.
  intros Hm Hk s Hs. unfold mbind. specialize (Hm s Hs).
  destruct (m s) as [a s'|f]; [|done]. destruct Hm as [Hs' Ha]. by apply (Hk a Ha s').
Qed.

Lemma safe_weaken {A} (m : M S A) (Q R : A -> Prop) :
  safe m Q -> (forall a, Q a -> R a) -> safe m R.
Proof.
  intros Hm HQ s Hs. specialize (Hm s Hs). destruct (m s) as [a s'|f]; [|done].
  destruct Hm. auto.
Qed.

Lemma safe_get {A} (f : S -> A) (R : A -> Prop) :
  (forall s, I s -> R (f s)) -> safe (mget f) R.
Proof. intros H s Hs. split; auto. Qed.

Lemma safe_modify (f : S -> S) : (forall s, I s -> I (f s)) -> safe (mmodify f) (fun _ => True).
Proof. intros H s Hs. split; auto. Qed.

Lemma safe_fail {A} f (R : A -> Prop) : F f -> safe (mfail f) R.
Proof. by intros H s Hs. Qed.

Lemma safe_opt {A} f (o : option A) (R : A -> Prop) :
  (exists a, o = Some a /\ R a) -> safe (mopt f o) R.
Proof. intros (a & -> & H). by apply safe_mret. Qed.

Lemma safe_if {A} (b : bool) (m1 m2 : M S A) R :
  (b = true -> safe m1 R) -> (b = false -> safe m2 R) -> safe (if b then m1 else m2) R.
Proof. destruct b; auto. Qed.

Lemma safe_when (b : bool) (m : M S unit) :
  (b = true -> safe m (fun _ => True)) -> safe (mwhen b m) (fun _ => True).
Proof. destruct b; intros H; [by apply H|by apply safe_mret]. Qed.
End Safe.

Create HintDb safe discriminated.
#[export] Hint Constants Opaque : safe.
#[export] Hint Variables Opaque : safe.

(** * Arrays

    The C++ arrays and vectors of the models: lists indexed by integers, and
    large memories that are stored sparsely; an index outside is [None]. *)

(** ** Arrays with C++ bounds *)

Definition zget {A} (l : list A) (i : Z) : option A :=
  if 0 <=? i then l !! Z.to_nat i else None.
Definition zset {A} (l : list A) (i : Z) (x : A) : option (list A) :=
  if (0 <=? i) && (i <? Z.of_nat (length l)) then Some (<[Z.to_nat i := x]> l) else None.

(** A large memory: [mem_size] cells, [mem_fill] where nothing was stored. *)
Record Mem := mkMem { mem_size : Z; mem_fill : Z; mem_data : gmap Z Z }.
Definition mem_in (m : Mem) (i : Z) : bool := (0 <=? i) && (i <? mem_size m).
Definition mem_get (m : Mem) (i : Z) : option Z :=
  if mem_in m i then Some (default (mem_fill m) (mem_data m !! i)) else None.
Definition mem_set (m : Mem) (i v : Z) : option Mem :=
  if mem_in m i then Some (mkMem (mem_size m) (mem_fill m) (<[i := v]> (mem_data m))) else None.

(** An array of [n] cells, each satisfying [P]. *)
Definition arr_wf {A} (n : Z) (P : A -> Prop) (l : list A) : Prop :=
  Z.of_nat (length l) = n /\ Forall P l.

(** ** Lemmas *)

Lemma zget_arr {A} n P (l : list A) i :
  arr_wf n P l -> 0 <= i < n -> exists a, zget l i = Some a /\ P a.
Proof.
  intros [Hn HP] Hi. unfold zget. rewrite (proj2 (Z.leb_le 0 i)) by lia.
  destruct (lookup_lt_is_Some_2 l (Z.to_nat i) ltac:(lia)) as [a Ha].
  exists a. split; [done|]. by eapply Forall_lookup_1.
Qed.

Lemma zset_arr {A} n P (l : list A) i x :
  arr_wf n P l -> 0 <= i < n -> P x -> exists l', zset l i x = Some l' /\ arr_wf n P l'.
Proof.
  intros [Hn HP] Hi Hx. unfold zset.
  rewrite (proj2 (Z.leb_le 0 i)), (proj2 (Z.ltb_lt i _)) by lia. simpl.
  eexists. split; [done|]. split; [by rewrite length_insert|]. by apply Forall_insert.
Qed.

Lemma zget_zset_eq {A} (l l' : list A) i x : zset l i x = Some l' -> zget l' i = Some x.
Proof.
  unfold zset, zget. destruct (Z.leb_spec 0 i); [|done]. simpl.
  destruct (Z.ltb_spec i (Z.of_nat (length l))); [|done].
  intros [= <-]. apply list_lookup_insert_eq. lia.
Qed.

Lemma zget_zset_ne {A} (l l' : list A) i j x : zset l i x = Some l' -> i <> j -> zget l' j = zget l j.
Proof.
  unfold zset, zget. destruct (Z.leb_spec 0 i); [|done]. simpl.
  destruct (Z.ltb_spec i (Z.of_nat (length l))); [|done].
  intros [= <-] Hij. destruct (Z.leb_spec 0 j); [|done].
  apply list_lookup_insert_ne. lia.
Qed.

Lemma zset_lookup {A} (l l' : list A) i x : zset l i x = Some l' -> l' = <[Z.to_nat i := x]> l.
Proof. unfold zset. destruct (_ && _); [|done]. by intros [= <-]. Qed.

Lemma mem_get_set_eq m m' i v : mem_set m i v = Some m' -> mem_get m' i = Some v.
Proof.
  unfold mem_set, mem_get, mem_in. destruct (_ && _) eqn:E; [|done]. intros [= <-]. simpl.
  by rewrite E, lookup_insert_eq.
Qed.

Lemma mem_get_set_ne m m' i j v : mem_set m i v = Some m' -> i <> j -> mem_get m' j = mem_get m j.
Proof.
  unfold mem_set, mem_get, mem_in. destruct (_ && _) eqn:E; [|done]. intros [= <-] Hij. simpl.
  by rewrite lookup_insert_ne.
Qed.
