(* ===== verification/Heap.v ===== *)
(** * Heaps in a vector: [push_heap], [pop_heap] and [make_heap]

    The algorithms of the C++ standard library the event queue is built on.  The
    class [HeapOps] states their contract, against which the queue is verified;
    the instance is a binary heap that sifts elements up and down.  The order is
    the comparison the C++ code passes ([greater], so that the least element is
    in front). *)
From S2P Require Export Prelude.

(** ** The contract *)

(** A comparison that ranks like a total preorder. *)
Class WeakOrder {A : Type} (ltb : A -> A -> bool) := {
  ltb_asym : forall a b, ltb a b = true -> ltb b a = false;
  ltb_trans : forall a b c, ltb b a = false -> ltb c b = false -> ltb c a = false
}.

Section Heap.
Context {A : Type} (ltb : A -> A -> bool).

Definition le (a b : A) : Prop := ltb b a = false.
(** [c] is a child of [p]. *)
Definition child (p c : nat) : Prop := (c = 2 * p + 1 \/ c = 2 * p + 2)%nat.
Definition edge (l : list A) (p c : nat) : Prop := forall a b, l !! p = Some a -> l !! c = Some b -> le a b.
Definition is_heap (l : list A) : Prop := forall p c, child p c -> edge l p c.

Class HeapOps := {
  push_heap : list A -> list A;
  pop_heap : list A -> list A;
  make_heap : list A -> list A;
  push_heap_ok : forall l x, is_heap l -> is_heap (push_heap (l ++ [x])) /\ push_heap (l ++ [x]) ≡ₚ x :: l;
  pop_heap_ok : forall x l, is_heap (x :: l) ->
    exists l', pop_heap (x :: l) = l' ++ [x] /\ is_heap l' /\ l' ≡ₚ l;
  make_heap_ok : forall l, is_heap (make_heap l) /\ make_heap l ≡ₚ l
}.
End Heap.
Arguments HeapOps {_} _.
Arguments push_heap {_ _ _} _.
Arguments pop_heap {_ _ _} _.
Arguments make_heap {_ _ _} _.

(** ** A binary heap *)

Section BinaryHeap.
Context {A : Type} (ltb : A -> A -> bool) `{!WeakOrder ltb}.
#[local] Abbreviation le := (le ltb).
#[local] Abbreviation edge := (edge ltb).
#[local] Abbreviation is_heap := (is_heap ltb).
#[local] Open Scope nat_scope.

Definition swap (l : list A) (i j : nat) (a b : A) : list A := <[j := a]> (<[i := b]> l).

(** The element at [i] moves up while it is less than its parent. *)
Fixpoint sift_up (fuel : nat) (l : list A) (i : nat) : list A :=
  match fuel with
  | O => l
  | S fuel' =>
      if i =? 0 then l
      else let p := (i - 1) / 2 in
           match l !! p, l !! i with
           | Some a, Some b => if ltb b a then sift_up fuel' (swap l p i a b) p else l
           | _, _ => l
           end
  end.

(** The least child of [i], if it has one. *)
Definition least_child (l : list A) (i : nat) : option (nat * A) :=
  match l !! (2 * i + 1), l !! (2 * i + 2) with
  | Some b, Some c => if ltb c b then Some (2 * i + 2, c) else Some (2 * i + 1, b)
  | Some b, None => Some (2 * i + 1, b)
  | _, _ => None
  end.
(** The element at [i] moves down while a child is less. *)
Fixpoint sift_down (fuel : nat) (l : list A) (i : nat) : list A :=
  match fuel with
  | O => l
  | S fuel' =>
      match l !! i, least_child l i with
      | Some a, Some (c, b) => if ltb b a then sift_down fuel' (swap l i c a b) c else l
      | _, _ => l
      end
  end.

Definition bin_push (l : list A) : list A := sift_up (length l) l (length l - 1).
Definition bin_pop (l : list A) : list A :=
  match l with
  | [] => []
  | x :: rest => match last rest with
                 | None => [x]
                 | Some y => sift_down (length rest) (y :: removelast rest) 0 ++ [x]
                 end
  end.
Fixpoint sift_all (l : list A) (n : nat) : list A :=
  match n with O => l | S n' => sift_all (sift_down (length l) l n') n' end.
Definition bin_make (l : list A) : list A := sift_all l (length l / 2).

(** *** Lemmas *)

Lemma le_refl a : le a a.
Proof. unfold Heap.le. destruct (ltb a a) eqn:E; [|done]. by rewrite (ltb_asym _ _ E) in E. Qed.
Lemma le_trans a b c : le a b -> le b c -> le a c.
Proof. apply ltb_trans. Qed.
Lemma lt_le a b : ltb a b = true -> le a b.
Proof. apply ltb_asym. Qed.

Lemma parent_child i : i <> 0 -> child ((i - 1) / 2) i.
Proof. intros Hi. unfold child. pose proof (Nat.div_mod (i - 1) 2). pose proof (Nat.mod_upper_bound (i - 1) 2). lia. Qed.
Lemma child_parent p q c : child p c -> child q c -> p = q.
Proof. unfold child. lia. Qed.
Lemma child_lt p c : child p c -> p < c.
Proof. unfold child. lia. Qed.

Lemma swap_perm l i j a b : l !! i = Some a -> l !! j = Some b -> swap l i j a b ≡ₚ l.
Proof. intros. by apply Permutation_insert_swap. Qed.
Lemma length_swap l i j a b : length (swap l i j a b) = length l.
Proof. unfold swap. by rewrite !length_insert. Qed.
Lemma lookup_swap l i j a b k : l !! i = Some a -> l !! j = Some b -> i <> j ->
  swap l i j a b !! k = if k =? j then Some a else if k =? i then Some b else l !! k.
Proof.
  intros Hi Hj Hne. pose proof (lookup_lt_Some _ _ _ Hi). pose proof (lookup_lt_Some _ _ _ Hj). unfold swap.
  destruct (Nat.eqb_spec k j) as [->|]; [rewrite list_lookup_insert_eq by (rewrite length_insert; lia); done|].
  rewrite list_lookup_insert_ne by done.
  destruct (Nat.eqb_spec k i) as [->|]; [by rewrite list_lookup_insert_eq|by rewrite list_lookup_insert_ne].
Qed.

(** A heap but for the edge above [i]. *)
Definition heap_above (l : list A) (i : nat) : Prop :=
  (forall p c, child p c -> c <> i -> edge l p c) /\
  (forall p c, child p i -> child i c -> edge l p c).

Lemma sift_up_ok fuel : forall l i, i < fuel -> i < length l -> heap_above l i ->
  is_heap (sift_up fuel l i) /\ sift_up fuel l i ≡ₚ l.
Proof.
  induction fuel as [|fuel IH]; intros l i Hf Hi [H1 H2]; [lia|]. cbn [sift_up].
  destruct (Nat.eqb_spec i 0) as [->|Hne].
  { split; [|done]. intros p c Hc. apply H1; [done|]. apply child_lt in Hc. lia. }
  pose proof (parent_child i Hne) as Hp. set (p := (i - 1) / 2) in *. clearbody p. pose proof (child_lt _ _ Hp).
  destruct (lookup_lt_is_Some_2 l p ltac:(lia)) as [a Ea]. destruct (lookup_lt_is_Some_2 l i Hi) as [b Eb].
  rewrite Ea, Eb. destruct (ltb b a) eqn:Hlt.
  - assert (Hlk : forall k, swap l p i a b !! k = if k =? i then Some a else if k =? p then Some b else l !! k)
      by (intros; by apply lookup_swap; [..|lia]).
    destruct (IH (swap l p i a b) p) as [Hh Hperm]; [lia|rewrite length_swap; lia| |].
    2: { split; [done|]. rewrite Hperm. by apply swap_perm. }
    split.
    + intros q c Hc Hcp u v. rewrite !Hlk. pose proof (child_lt _ _ Hc).
      destruct (Nat.eqb_spec c i) as [->|].
      { pose proof (child_parent _ _ _ Hp Hc) as <-. rewrite (proj2 (Nat.eqb_neq p i)), Nat.eqb_refl by lia.
        intros [= <-] [= <-]. by apply lt_le. }
      rewrite (proj2 (Nat.eqb_neq c p)) by done. destruct (Nat.eqb_spec q i) as [->|].
      { intros [= <-] Hv. by apply (H2 p c Hp Hc a v Ea). }
      destruct (Nat.eqb_spec q p) as [->|]; [|by apply H1].
      intros [= <-] Hv. apply le_trans with a; [by apply lt_le|]. by apply (H1 p c Hc ltac:(done) a v Ea).
    + intros q c Hq Hc u v. rewrite !Hlk. pose proof (child_lt _ _ Hq). pose proof (child_lt _ _ Hc).
      rewrite (proj2 (Nat.eqb_neq q i)), (proj2 (Nat.eqb_neq q p)), (proj2 (Nat.eqb_neq c p)) by lia.
      intros Hu. destruct (Nat.eqb_spec c i) as [->|]; [intros [= <-]; by apply (H1 q p Hq ltac:(lia) u a)|].
      intros Hv. apply le_trans with a; [by apply (H1 q p Hq ltac:(lia) u a)|by apply (H1 p c Hc ltac:(done) a v)].
  - split; [|done]. intros q c Hc. destruct (decide (c = i)) as [->|]; [|by apply H1].
    pose proof (child_parent _ _ _ Hp Hc) as <-. intros u v Hu Hv. rewrite Ea in Hu. rewrite Eb in Hv.
    injection Hu as <-. by injection Hv as <-.
Qed.

Lemma least_child_ok l i :
  match least_child l i with
  | Some (c, b) => child i c /\ l !! c = Some b /\ forall d v, child i d -> l !! d = Some v -> le b v
  | None => forall d, child i d -> l !! d = None
  end.
Proof.
  unfold least_child. destruct (l !! (2 * i + 1)) as [b|] eqn:Eb.
  - destruct (l !! (2 * i + 2)) as [c|] eqn:Ec; [destruct (ltb c b) eqn:Hlt|].
    + split; [by right|]. split; [done|]. intros d v [->| ->] Hv; [rewrite Eb in Hv|rewrite Ec in Hv];
        injection Hv as <-; [by apply lt_le|apply le_refl].
    + split; [by left|]. split; [done|]. intros d v [->| ->] Hv; [rewrite Eb in Hv|rewrite Ec in Hv];
        injection Hv as <-; [apply le_refl|done].
    + split; [by left|]. split; [done|]. intros d v [->| ->] Hv; [rewrite Eb in Hv|congruence].
      injection Hv as <-. apply le_refl.
  - intros d [->| ->]; [done|]. apply lookup_ge_None. apply lookup_ge_None in Eb. lia.
Qed.

(** The edges from [k] on hold, but for those below [i]. *)
Definition heap_below (k : nat) (l : list A) (i : nat) : Prop :=
  (forall p c, child p c -> k <= p -> p <> i -> edge l p c) /\
  (forall p c, child p i -> k <= p -> child i c -> edge l p c).

Lemma sift_down_ok fuel : forall k l i, k <= i -> length l < i + fuel + 1 -> heap_below k l i ->
  (forall p c, child p c -> k <= p -> edge (sift_down fuel l i) p c) /\ sift_down fuel l i ≡ₚ l.
Proof.
  assert (Hstop : forall k l i, heap_below k l i -> (forall c, child i c -> edge l i c) ->
    forall p c, child p c -> k <= p -> edge l p c).
  { intros k l i [H1 _] Hi p c Hc Hp. destruct (decide (p = i)) as [->|]; [by apply Hi|by apply H1]. }
  induction fuel as [|fuel IH]; intros k l i Hk Hf Hb; cbn [sift_down].
  { split; [|done]. apply (Hstop k l i Hb). intros c Hc u v Hu. pose proof (lookup_lt_Some _ _ _ Hu). lia. }
  destruct (l !! i) as [a|] eqn:Ea; [|split; [|done]; apply (Hstop k l i Hb); intros c Hc u v Hu; congruence].
  pose proof (least_child_ok l i) as Hc. destruct (least_child l i) as [[c b]|];
    [|split; [|done]; apply (Hstop k l i Hb); intros d Hd u v _; by rewrite Hc].
  destruct Hc as (Hc & Eb & Hmin). pose proof (child_lt _ _ Hc).
  destruct (ltb b a) eqn:Hlt.
  2: { split; [|done]. apply (Hstop k l i Hb). intros d Hd u v Hu Hv. rewrite Ea in Hu. injection Hu as <-.
       apply le_trans with b; [done|]. by apply (Hmin d). }
  destruct Hb as [H1 H2].
  assert (Hlk : forall j, swap l i c a b !! j = if j =? c then Some a else if j =? i then Some b else l !! j)
    by (intros; by apply lookup_swap; [..|lia]).
  destruct (IH k (swap l i c a b) c) as [Hh Hperm]; [lia|rewrite length_swap; lia| |].
  2: { split; [done|]. rewrite Hperm. by apply swap_perm. }
  split.
  - intros p d Hd Hp Hpc u v. rewrite !Hlk. pose proof (child_lt _ _ Hd). rewrite (proj2 (Nat.eqb_neq p c)) by done.
    destruct (Nat.eqb_spec p i) as [->|].
    + intros [= <-]. destruct (Nat.eqb_spec d c); [intros [= <-]; by apply lt_le|].
      rewrite (proj2 (Nat.eqb_neq d i)) by lia. by apply Hmin.
    + destruct (Nat.eqb_spec d c) as [->|]; [by pose proof (child_parent _ _ _ Hc Hd)|].
      destruct (Nat.eqb_spec d i) as [->|]; [|by apply H1].
      intros Hu [= <-]. by apply (H2 p c Hd Hp Hc u b).
  - intros p d Hpc Hp Hd u v. pose proof (child_parent _ _ _ Hc Hpc) as <-. rewrite !Hlk. pose proof (child_lt _ _ Hd).
    rewrite (proj2 (Nat.eqb_neq i c)), Nat.eqb_refl, (proj2 (Nat.eqb_neq d c)), (proj2 (Nat.eqb_neq d i)) by lia.
    intros [= <-] Hv. by apply (H1 c d Hd ltac:(lia) ltac:(lia) b v).
Qed.

Lemma sift_all_ok n : forall l, (forall p c, child p c -> n <= p -> edge l p c) ->
  is_heap (sift_all l n) /\ sift_all l n ≡ₚ l.
Proof.
  induction n as [|n IH]; intros l Hl; cbn [sift_all].
  - split; [|done]. intros p c Hc. apply Hl; [done|lia].
  - destruct (sift_down_ok (length l) n l n ltac:(lia) ltac:(lia)) as [H1 H2].
    + split; [intros p c Hc Hp Hne; apply Hl; [done|lia]|intros p c Hp Hk Hc; apply child_lt in Hp; lia].
    + destruct (IH _ H1) as [H3 H4]. split; [done|]. by rewrite H4.
Qed.

Lemma is_heap_app l x p c : is_heap l -> child p c -> c <> length l -> edge (l ++ [x]) p c.
Proof.
  intros Hh Hc Hne u v Hu Hv. pose proof (lookup_lt_Some _ _ _ Hv) as Hl. rewrite length_app in Hl. simpl in Hl.
  pose proof (child_lt _ _ Hc). rewrite lookup_app_l in Hu, Hv by lia. by apply (Hh p c Hc).
Qed.

Lemma is_heap_front l l' : is_heap (l ++ l') -> is_heap l.
Proof.
  intros Hh p c Hc u v Hu Hv. apply (Hh p c Hc); by apply lookup_app_l_Some.
Qed.

#[export] Program Instance binary_heap : HeapOps ltb := {
  push_heap := bin_push; pop_heap := bin_pop; make_heap := bin_make
}.
Next Obligation.
  intros l x Hh. unfold bin_push. rewrite length_app. simpl.
  replace (length l + 1 - 1) with (length l) by lia.
  destruct (sift_up_ok (length l + 1) (l ++ [x]) (length l)) as [H1 H2]; [lia|rewrite length_app; simpl; lia| |].
  - split; [intros p c Hc Hne; by apply is_heap_app|].
    intros p c Hp Hc u v _ Hv. pose proof (lookup_lt_Some _ _ _ Hv) as Hl. rewrite length_app in Hl. simpl in Hl.
    apply child_lt in Hc. lia.
  - split; [done|]. rewrite H2. by rewrite Permutation_app_comm.
Qed.
Next Obligation.
  intros x l Hh. unfold bin_pop. destruct l as [|z l0] using rev_ind.
  { exists []. split; [done|]. split; [|done]. intros p c _ u v. by rewrite lookup_nil. }
  clear IHl0. rewrite last_snoc, removelast_last.
  destruct (sift_down_ok (length (l0 ++ [z])) 0 (z :: l0) 0) as [H1 H2]; [lia|rewrite length_app; simpl; lia| |].
  - split; [|intros p c Hp; apply child_lt in Hp; lia]. intros p c Hc _ Hp u v Hu Hv. pose proof (child_lt _ _ Hc).
    destruct p as [|p], c as [|c]; try lia. apply (Hh (S p) (S c) Hc); simpl in *; by apply lookup_app_l_Some.
  - eexists. split; [reflexivity|]. split; [intros p c Hc; apply H1; [done|lia]|].
    rewrite H2. by rewrite Permutation_app_comm.
Qed.
Next Obligation.
  intros l. unfold bin_make. apply sift_all_ok. intros p c Hc Hp u v _ Hv. pose proof (lookup_lt_Some _ _ _ Hv).
  pose proof (Nat.div_mod (length l) 2). pose proof (Nat.mod_upper_bound (length l) 2). unfold child in Hc. lia.
Qed.

(** The front of a heap is least. *)
Lemma heap_front x l : is_heap (x :: l) -> Forall (le x) (x :: l).
Proof.
  intros Hh. apply Forall_forall. intros y (i & Hi)%list_elem_of_lookup. revert y Hi.
  induction i as [i IH] using lt_wf_ind. intros y Hi. destruct (decide (i = 0)) as [->|Hne].
  { injection Hi as <-. apply le_refl. }
  pose proof (parent_child i Hne) as Hc. pose proof (child_lt _ _ Hc). pose proof (lookup_lt_Some _ _ _ Hi).
  destruct (lookup_lt_is_Some_2 (x :: l) ((i - 1) / 2) ltac:(lia)) as [a Ea].
  apply le_trans with a; [by apply (IH ((i - 1) / 2))|]. by apply (Hh _ _ Hc).
Qed.
End BinaryHeap.
