(* ===== verification/Memmap.v ===== *)
(** * Main memory (HW/Memmap.cpp, HW/Memmap.h)

    The physical memory of the emulated machine as [MemoryManager] serves it to
    the hardware outside the CPU: main memory and, on a Wii, the second memory.
    An address outside both is reported and then ignored; the report is left
    out. *)
From stdpp Require Export list_numbers.
From S2P Require Export ErrState.
#[global] Open Scope Z_scope.

(** ** Sizes *)

Definition MEM1_SIZE_RETAIL : Z := 0x01800000.
Definition MEM1_SIZE_MAX : Z := 0x04000000.
Definition MEM2_SIZE_RETAIL : Z := 0x04000000.

(** [MathUtil::NextPowerOf2] *)
Definition NextPowerOf2 (value : Z) : Z :=
  let value := u32 (value - 1) in
  let value := value .| (value .>> 1) in
  let value := value .| (value .>> 2) in
  let value := value .| (value .>> 4) in
  let value := value .| (value .>> 8) in
  let value := value .| (value .>> 16) in
  u32 (value + 1).

(** ** State *)

(** Bytes of the two memories; [m_exram] is null on a GameCube.  The two larger
    sizes are those of the address spaces, powers of two. *)
Record MemoryManager := mkMemory {
  m_ram : gmap Z Z;
  m_exram : option (gmap Z Z);
  m_ram_size_real : Z;
  m_ram_size : Z;
  m_ram_mask : Z;
  m_fakevmem_size : Z;
  m_fakevmem_mask : Z;
  m_exram_size_real : Z;
  m_exram_size : Z;
  m_exram_mask : Z
}.

(** The memory sizes [Init] chooses without an override in the configuration. *)
Definition get_mem1_size (simulated_memory_size : Z) : Z :=
  Z.max MEM1_SIZE_RETAIL (Z.min simulated_memory_size MEM1_SIZE_MAX).
Definition get_mem2_size : Z := MEM2_SIZE_RETAIL.

(** [Init] with the given memory sizes: all memory is zero. *)
Definition Init (mem1_size mem2_size : Z) (wii : bool) : MemoryManager :=
  let ram_size := NextPowerOf2 mem1_size in
  let exram_size := NextPowerOf2 mem2_size in
  mkMemory ∅ (if wii then Some ∅ else None)
    mem1_size ram_size (u32 (ram_size - 1))
    0x02000000 (u32 (0x02000000 - 1))
    mem2_size exram_size (u32 (exram_size - 1)).

(** A host pointer into one of the two memories. *)
Inductive pointer := RamPtr (offset : Z) | ExRamPtr (offset : Z).

Definition byte_at (m : gmap Z Z) (a : Z) : Z := u8 (default 0 (m !! a)).
Fixpoint read_bytes (m : gmap Z Z) (a : Z) (n : nat) : list Z :=
  match n with O => [] | S n' => byte_at m a :: read_bytes m (a + 1) n' end.
Fixpoint write_bytes (m : gmap Z Z) (a : Z) (bs : list Z) : gmap Z Z :=
  match bs with [] => m | b :: bs' => write_bytes (<[a := b]> m) (a + 1) bs' end.

(** [memcpy] from and to such a pointer. *)
Definition load (m : MemoryManager) (p : pointer) (n : nat) : list Z :=
  match p with
  | RamPtr o => read_bytes (m_ram m) o n
  | ExRamPtr o => read_bytes (default ∅ (m_exram m)) o n
  end.
Definition store (m : MemoryManager) (p : pointer) (bs : list Z) : MemoryManager :=
  let '(mkMemory ram exram rsr rs rm fs fm xsr xs xm) := m in
  match p with
  | RamPtr o => mkMemory (write_bytes ram o bs) exram rsr rs rm fs fm xsr xs xm
  | ExRamPtr o =>
      mkMemory ram (match exram with Some x => Some (write_bytes x o bs) | None => None end)
        rsr rs rm fs fm xsr xs xm
  end.

(** ** Operations *)

(** The host pointer of an address and the bytes left behind it in its memory. *)
Definition GetSpanForAddress (m : MemoryManager) (address : Z) : option (pointer * Z) :=
  let address := address .& 0x3FFFFFFF in
  if address <? m_ram_size_real m then Some (RamPtr address, m_ram_size_real m - address)
  else match m_exram m with
       | Some _ =>
           if (address .>> 28 =? 0x1) && (address .& 0x0fffffff <? m_exram_size_real m) then
             Some (ExRamPtr (address .& m_exram_mask m), m_exram_size_real m - (address .& m_exram_mask m))
           else None
       | None => None
       end.

Definition GetPointerForRange (m : MemoryManager) (address size : Z) : option pointer :=
  match GetSpanForAddress m address with
  | Some (p, len) => if len <? size then None else Some p
  | None => None
  end.

(** [data] is the buffer before the copy, which stays as it is when there is no memory. *)
Definition CopyFromEmu (m : MemoryManager) (data : list Z) (address : Z) : list Z :=
  if (length data =? 0)%nat then data
  else match GetPointerForRange m address (Z.of_nat (length data)) with
       | Some p => load m p (length data)
       | None => data
       end.
Definition CopyToEmu (m : MemoryManager) (address : Z) (data : list Z) : MemoryManager :=
  if (length data =? 0)%nat then m
  else match GetPointerForRange m address (Z.of_nat (length data)) with
       | Some p => store m p data
       | None => m
       end.
Definition Memset (m : MemoryManager) (address value size : Z) : MemoryManager :=
  if size =? 0 then m
  else match GetPointerForRange m address size with
       | Some p => store m p (replicate (Z.to_nat size) value)
       | None => m
       end.

(** A big-endian integer and its bytes; [Common::swap32] and the like turn the
    host's little-endian integers into these. *)
Definition from_be (bs : list Z) : Z := fold_left (fun v b => v * 0x100 + b) bs 0.
Fixpoint to_be (n : nat) (v : Z) : list Z :=
  match n with O => [] | S n' => to_be n' (v / 0x100) ++ [u8 v] end.

(** [Common::swap16] and the like. *)
Definition swap32 (x : Z) : Z := from_be (rev (to_be 4 x)).
Definition swap16 (x : Z) : Z := from_be (rev (to_be 2 x)).
Definition swap64 (x : Z) : Z := from_be (rev (to_be 8 x)).

Definition Read_U8 (m : MemoryManager) (address : Z) : Z := from_be (CopyFromEmu m (replicate 1 0) address).
Definition Read_U16 (m : MemoryManager) (address : Z) : Z := from_be (CopyFromEmu m (replicate 2 0) address).
Definition Read_U32 (m : MemoryManager) (address : Z) : Z := from_be (CopyFromEmu m (replicate 4 0) address).
Definition Read_U64 (m : MemoryManager) (address : Z) : Z := from_be (CopyFromEmu m (replicate 8 0) address).
Definition Write_U8 (m : MemoryManager) (value address : Z) : MemoryManager := CopyToEmu m address (to_be 1 value).
Definition Write_U16 (m : MemoryManager) (value address : Z) : MemoryManager := CopyToEmu m address (to_be 2 value).
Definition Write_U32 (m : MemoryManager) (value address : Z) : MemoryManager := CopyToEmu m address (to_be 4 value).
Definition Write_U64 (m : MemoryManager) (value address : Z) : MemoryManager := CopyToEmu m address (to_be 8 value).
(** The [_Swap] accesses leave the value in the host's byte order. *)
Definition Read_U32_Swap (m : MemoryManager) (address : Z) : Z :=
  from_be (rev (CopyFromEmu m (replicate 4 0) address)).
Definition Write_U32_Swap (m : MemoryManager) (value address : Z) : MemoryManager :=
  CopyToEmu m address (rev (to_be 4 value)).
Definition Write_U64_Swap (m : MemoryManager) (value address : Z) : MemoryManager :=
  CopyToEmu m address (rev (to_be 8 value)).

(** The word-wise copies, for 16-bit words. *)
Fixpoint words_of (bs : list Z) : list Z :=
  match bs with
  | hi :: lo :: bs' => hi * 0x100 + lo :: words_of bs'
  | _ => []
  end.
Definition bytes_of (ws : list Z) : list Z := flat_map (to_be 2) ws.
Definition CopyFromEmuSwapped (m : MemoryManager) (data : list Z) (address size : Z) : list Z :=
  match GetPointerForRange m address size with
  | Some p => words_of (load m p (2 * Z.to_nat (size / 2)))
  | None => data
  end.
Definition CopyToEmuSwapped (m : MemoryManager) (address : Z) (data : list Z) (size : Z) : MemoryManager :=
  match GetPointerForRange m address size with
  | Some p => store m p (bytes_of (take (Z.to_nat (size / 2)) data))
  | None => m
  end.
Definition Clear (m : MemoryManager) : MemoryManager :=
  mkMemory ∅ (match m_exram m with Some _ => Some ∅ | None => None end) (m_ram_size_real m) (m_ram_size m)
    (m_ram_mask m) (m_fakevmem_size m) (m_fakevmem_mask m) (m_exram_size_real m) (m_exram_size m)
    (m_exram_mask m).

(** ** Byte memories *)

Lemma byte_at_u8 m a : is_u8 (byte_at m a).
Proof. apply is_u8_u8. Qed.

Lemma length_read_bytes m a n : length (read_bytes m a n) = n.
Proof. revert a. induction n as [|n IH]; simpl; intros a; [done|by rewrite IH]. Qed.

Lemma read_bytes_u8 m a n : Forall is_u8 (read_bytes m a n).
Proof. revert a. induction n; simpl; intros a; constructor; [apply byte_at_u8|done]. Qed.

Lemma lookup_read_bytes m a n i : (i < n)%nat -> read_bytes m a n !! i = Some (byte_at m (a + Z.of_nat i)).
Proof.
  revert a i. induction n as [|n IH]; intros a i Hi; [lia|]. destruct i as [|i]; simpl.
  - by rewrite Z.add_0_r.
  - rewrite IH by lia. do 2 f_equal. lia.
Qed.

Lemma write_bytes_ne bs m a b :
  b < a \/ a + Z.of_nat (length bs) <= b -> write_bytes m a bs !! b = m !! b.
Proof.
  revert m a. induction bs as [|x bs IH]; simpl; intros m a Hb; [done|].
  rewrite IH by lia. by rewrite lookup_insert_ne by lia.
Qed.

Lemma lookup_write_bytes bs m a i x :
  bs !! i = Some x -> write_bytes m a bs !! (a + Z.of_nat i) = Some x.
Proof.
  revert m a i. induction bs as [|b bs IH]; simpl; intros m a i; [done|]. destruct i as [|i]; simpl.
  - intros [= ->]. rewrite write_bytes_ne by lia. by rewrite Z.add_0_r, lookup_insert_eq.
  - intros Hi. rewrite <- (IH (<[a := b]> m) (a + 1) i Hi). f_equal. lia.
Qed.

(** ** The physical address space as one memory

    [mem_byte m a] is what the hardware sees at [a]; a block is in order when it
    lies in one of the two memories. *)

Definition mem_byte (m : MemoryManager) (a : Z) : Z :=
  match GetSpanForAddress m a with
  | Some (RamPtr o, _) => byte_at (m_ram m) o
  | Some (ExRamPtr o, _) => byte_at (default ∅ (m_exram m)) o
  | None => 0
  end.

Record mem_wf (m : MemoryManager) : Prop := {
  mem_ram_pow : exists k, 5 <= k <= 28 /\ m_ram_size m = 2 ^ k;
  mem_ram_mask_eq : m_ram_mask m = m_ram_size m - 1;
  mem_ram_real : 0 <= m_ram_size_real m <= m_ram_size m;
  mem_ram_lines : m_ram_size_real m mod 32 = 0;
  mem_exram_pow : exists k, 5 <= k <= 28 /\ m_exram_size m = 2 ^ k;
  mem_exram_mask_eq : m_exram_mask m = m_exram_size m - 1;
  mem_exram_real : 0 <= m_exram_size_real m <= m_exram_size m;
  mem_exram_lines : m_exram_size_real m mod 32 = 0
}.

Definition in_ram (m : MemoryManager) (a n : Z) : Prop := 0 <= a /\ a + n <= m_ram_size_real m.
Definition in_exram (m : MemoryManager) (a n : Z) : Prop :=
  m_exram m <> None /\ 0x10000000 <= a /\ a + n <= 0x10000000 + m_exram_size_real m.
Definition block_ok (m : MemoryManager) (a n : Z) : Prop := in_ram m a n \/ in_exram m a n.

Lemma block_ok_sub m a n b k : block_ok m a n -> a <= b -> b + k <= a + n -> block_ok m b k.
Proof. unfold block_ok, in_ram, in_exram. intros [?|(? & ? & ?)] ??; [left; lia|right; repeat split; (done || lia)]. Qed.

(** The offset of an address in its memory. *)
Lemma size_bound k : 5 <= k <= 28 -> 32 <= 2 ^ k <= 0x10000000.
Proof.
  intros Hk. pose proof (Z.pow_le_mono_r 2 5 k ltac:(lia) ltac:(lia)).
  pose proof (Z.pow_le_mono_r 2 k 28 ltac:(lia) ltac:(lia)). lia.
Qed.

Lemma land_3fffffff a : 0 <= a < 0x40000000 -> a .& 0x3FFFFFFF = a.
Proof. intros Ha. rewrite (land_ones_mod 30) by lia. apply Z.mod_small. lia. Qed.

Lemma span_ram m a n : mem_wf m -> in_ram m a n -> 0 < n ->
  GetSpanForAddress m a = Some (RamPtr a, m_ram_size_real m - a).
Proof.
  intros Hm [Ha Hn] Hp. destruct (mem_ram_pow m Hm) as (k & Hk & Ek). pose proof (size_bound k Hk).
  pose proof (mem_ram_real m Hm). unfold GetSpanForAddress.
  rewrite land_3fffffff by lia. by rewrite (proj2 (Z.ltb_lt a _)) by lia.
Qed.

Lemma exram_offset m a : mem_wf m -> 0x10000000 <= a < 0x10000000 + m_exram_size m ->
  a .& m_exram_mask m = a - 0x10000000.
Proof.
  intros Hm Ha. destruct (mem_exram_pow m Hm) as (k & Hk & Ek). rewrite (mem_exram_mask_eq m Hm).
  rewrite (land_ones_mod k) by lia. rewrite <- Ek. replace a with (a - 0x10000000 + 0x10000000) at 1 by lia.
  assert (Hd : 0x10000000 = 2 ^ (28 - k) * m_exram_size m).
  { rewrite Ek, <- Z.pow_add_r by lia. by replace (28 - k + k) with 28 by lia. }
  rewrite Hd at 2. rewrite Z.mod_add by lia. apply Z.mod_small. lia.
Qed.

Lemma span_exram m a n : mem_wf m -> in_exram m a n -> 0 < n ->
  GetSpanForAddress m a = Some (ExRamPtr (a - 0x10000000), m_exram_size_real m - (a - 0x10000000)).
Proof.
  intros Hm (Hx & Ha & Hn) Hp. destruct (mem_ram_pow m Hm) as (k & Hk & Ek). pose proof (size_bound k Hk).
  destruct (mem_exram_pow m Hm) as (j & Hj & Ej). pose proof (size_bound j Hj).
  pose proof (mem_ram_real m Hm). pose proof (mem_exram_real m Hm). unfold GetSpanForAddress.
  rewrite land_3fffffff by lia. rewrite (proj2 (Z.ltb_ge a _)) by lia.
  destruct (m_exram m) as [x|]; [|done].
  rewrite Z.shiftr_div_pow2, (land_ones_mod 28) by lia. change (2 ^ 28) with 0x10000000.
  rewrite (Z.div_unique a 0x10000000 1 (a - 0x10000000)) by lia.
  rewrite <- (Z.mod_unique a 0x10000000 1 (a - 0x10000000)) by lia.
  rewrite (proj2 (Z.ltb_lt (a - 0x10000000) _)), Z.eqb_refl by lia. cbn [andb].
  rewrite exram_offset; [done|done|lia].
Qed.

Lemma pointer_ok m a n : mem_wf m -> block_ok m a n -> 0 < n ->
  exists p, GetPointerForRange m a n = Some p /\
    (forall b, a <= b < a + n -> mem_byte m b = match p with
       | RamPtr o => byte_at (m_ram m) (o + (b - a))
       | ExRamPtr o => byte_at (default ∅ (m_exram m)) (o + (b - a)) end) /\
    match p with RamPtr o => in_ram m a n /\ o = a | ExRamPtr o => in_exram m a n /\ o = a - 0x10000000 end.
Proof.
  intros Hm Hb Hn. unfold GetPointerForRange. destruct Hb as [Hr|Hx].
  - rewrite (span_ram m a n Hm Hr Hn). pose proof Hr as [? ?].
    rewrite (proj2 (Z.ltb_ge _ n)) by lia. exists (RamPtr a). split; [done|]. split; [|done].
    intros b Hab. unfold mem_byte. rewrite (span_ram m b 1 Hm) by (unfold in_ram; lia). f_equal. lia.
  - rewrite (span_exram m a n Hm Hx Hn). pose proof Hx as (? & ? & ?).
    rewrite (proj2 (Z.ltb_ge _ n)) by lia. exists (ExRamPtr (a - 0x10000000)). split; [done|]. split; [|done].
    intros b Hab. unfold mem_byte. rewrite (span_exram m b 1 Hm); [f_equal; lia| |lia].
    repeat split; [done|lia..].
Qed.

(** ** Copies between the host and the memory *)

Definition bytes_from (f : Z -> Z) (a : Z) (n : nat) : list Z := map (fun i => f (a + Z.of_nat i)) (seq 0 n).

Lemma length_bytes_from f a n : length (bytes_from f a n) = n.
Proof. unfold bytes_from. by rewrite length_map, length_seq. Qed.

Lemma lookup_bytes_from f a n i : (i < n)%nat -> bytes_from f a n !! i = Some (f (a + Z.of_nat i)).
Proof. intros Hi. unfold bytes_from. rewrite list_lookup_fmap, lookup_seq_lt by done. done. Qed.

Lemma bytes_from_ext f g a n : (forall b, a <= b < a + Z.of_nat n -> f b = g b) -> bytes_from f a n = bytes_from g a n.
Proof.
  intros H. apply list_eq_same_length with n; [by rewrite length_bytes_from..|].
  intros i x y Hi. rewrite !lookup_bytes_from by done. rewrite H by lia. congruence.
Qed.

Lemma bytes_from_app f a n k : bytes_from f a (n + k) = bytes_from f a n ++ bytes_from f (a + Z.of_nat n) k.
Proof.
  apply list_eq. intros i. destruct (decide (i < n)%nat) as [Hi|Hi].
  - rewrite lookup_app_l by (rewrite length_bytes_from; done). by rewrite !lookup_bytes_from by lia.
  - rewrite lookup_app_r by (rewrite length_bytes_from; lia). rewrite length_bytes_from.
    destruct (decide (i < n + k)%nat).
    + rewrite !lookup_bytes_from by lia. do 2 f_equal. lia.
    + rewrite !lookup_ge_None_2 by (rewrite length_bytes_from; lia). done.
Qed.

Lemma CopyFromEmu_eval m data a : mem_wf m -> block_ok m a (Z.of_nat (length data)) ->
  CopyFromEmu m data a = bytes_from (mem_byte m) a (length data).
Proof.
  intros Hm Hb. unfold CopyFromEmu. destruct (Nat.eqb_spec (length data) 0) as [E|Hne].
  { rewrite E. by apply nil_length_inv in E. }
  destruct (pointer_ok m a _ Hm Hb ltac:(lia)) as (p & -> & Hp & _).
  apply list_eq_same_length with (length data); [by rewrite length_bytes_from| |].
  { destruct p; apply length_read_bytes. }
  intros i x y Hi. rewrite lookup_bytes_from by done. rewrite Hp by lia.
  destruct p; simpl; rewrite lookup_read_bytes by done; intros [= <-] [= <-]; f_equal; lia.
Qed.

Lemma CopyToEmu_sizes m a data :
  m_ram_size_real (CopyToEmu m a data) = m_ram_size_real m /\
  m_ram_size (CopyToEmu m a data) = m_ram_size m /\
  m_ram_mask (CopyToEmu m a data) = m_ram_mask m /\
  m_fakevmem_mask (CopyToEmu m a data) = m_fakevmem_mask m /\
  m_fakevmem_size (CopyToEmu m a data) = m_fakevmem_size m /\
  m_exram_size_real (CopyToEmu m a data) = m_exram_size_real m /\
  m_exram_size (CopyToEmu m a data) = m_exram_size m /\
  m_exram_mask (CopyToEmu m a data) = m_exram_mask m /\
  (m_exram (CopyToEmu m a data) = None <-> m_exram m = None).
Proof.
  unfold CopyToEmu. destruct (length data =? 0)%nat; [done|].
  destruct (GetPointerForRange m a _) as [p|]; [|done].
  destruct m as [ram exram], p; simpl; repeat split; try done; destruct exram; done.
Qed.

Lemma CopyToEmu_wf m a data : mem_wf m -> mem_wf (CopyToEmu m a data).
Proof.
  intros []. destruct (CopyToEmu_sizes m a data) as (E1 & E2 & E3 & E4 & E5 & E6 & E7 & E8 & _).
  constructor; rewrite ?E1, ?E2, ?E3, ?E6, ?E7, ?E8; done.
Qed.
Lemma CopyToEmu_block m a data x n : block_ok (CopyToEmu m a data) x n <-> block_ok m x n.
Proof.
  destruct (CopyToEmu_sizes m a data) as (E1 & _ & _ & _ & _ & E6 & _ & _ & E9).
  unfold block_ok, in_ram, in_exram. by rewrite E1, E6, E9.
Qed.

(** A memory with the block at [a] replaced. *)
Definition patch (f : Z -> Z) (a : Z) (data : list Z) (x : Z) : Z :=
  if (a <=? x) && (x <? a + Z.of_nat (length data)) then nth (Z.to_nat (x - a)) data 0 else f x.

Lemma patch_in f a data x v : data !! Z.to_nat (x - a) = Some v -> a <= x -> patch f a data x = v.
Proof.
  intros Hv Ha. pose proof (lookup_lt_Some _ _ _ Hv). unfold patch.
  rewrite (proj2 (Z.leb_le a x)), (proj2 (Z.ltb_lt x _)) by lia. simpl. by apply nth_lookup_Some.
Qed.
Lemma patch_out f a data x : ~ a <= x < a + Z.of_nat (length data) -> patch f a data x = f x.
Proof. intros H. unfold patch. destruct (Z.leb_spec a x), (Z.ltb_spec x (a + Z.of_nat (length data))); try done. lia. Qed.

Lemma byte_at_write m o data a x : Forall is_u8 data ->
  byte_at (write_bytes m o data) (o + (x - a)) = patch (fun y => byte_at m (o + (y - a))) a data x.
Proof.
  intros Hd. destruct (decide (a <= x < a + Z.of_nat (length data))) as [Hx|Hx].
  - destruct (lookup_lt_is_Some_2 data (Z.to_nat (x - a)) ltac:(lia)) as [v Hv].
    rewrite (patch_in _ _ _ _ _ Hv) by lia. unfold byte_at.
    replace (o + (x - a)) with (o + Z.of_nat (Z.to_nat (x - a))) by lia.
    rewrite (lookup_write_bytes _ _ _ _ _ Hv). simpl. apply Z.mod_small.
    by apply (Forall_lookup_1 _ _ _ _ Hd Hv).
  - rewrite patch_out by done. unfold byte_at. by rewrite write_bytes_ne by lia.
Qed.

(** What a byte of a good address is made of. *)
Lemma mem_byte_ram m x : mem_wf m -> in_ram m x 1 -> mem_byte m x = byte_at (m_ram m) x.
Proof. intros Hm Hx. unfold mem_byte. by rewrite (span_ram m x 1 Hm Hx). Qed.
Lemma mem_byte_exram m x : mem_wf m -> in_exram m x 1 ->
  mem_byte m x = byte_at (default ∅ (m_exram m)) (x - 0x10000000).
Proof. intros Hm Hx. unfold mem_byte. by rewrite (span_exram m x 1 Hm Hx). Qed.

Lemma ram_below_exram m : mem_wf m -> m_ram_size_real m <= 0x10000000.
Proof.
  intros Hm. destruct (mem_ram_pow m Hm) as (k & Hk & Ek). pose proof (size_bound k Hk).
  pose proof (mem_ram_real m Hm). lia.
Qed.

Lemma mem_byte_CopyToEmu m a data x :
  mem_wf m -> block_ok m a (Z.of_nat (length data)) -> Forall is_u8 data -> block_ok m x 1 ->
  mem_byte (CopyToEmu m a data) x = patch (mem_byte m) a data x.
Proof.
  intros Hm Ha Hd Hx. pose proof (CopyToEmu_wf m a data Hm) as Hm'. pose proof (ram_below_exram m Hm) as Hlt.
  destruct (decide (length data = 0)%nat) as [E|Hne].
  { apply nil_length_inv in E as ->. rewrite patch_out by (simpl; lia). done. }
  destruct (pointer_ok m a _ Hm Ha ltac:(lia)) as (p & Ep & _ & Hp).
  assert (Hs : CopyToEmu m a data = store m p data).
  { unfold CopyToEmu. rewrite Ep. by destruct (Nat.eqb_spec (length data) 0). }
  assert (Hx' : block_ok (CopyToEmu m a data) x 1) by by apply CopyToEmu_block.
  rewrite Hs in *. destruct Hx' as [Hx'|Hx'].
  - rewrite (mem_byte_ram _ _ Hm' Hx'). destruct Hx as [Hx|(_ & ? & _)].
    2: { destruct Hx' as [_ Hx']. revert Hx'. destruct p, m; simpl in *; lia. }
    destruct p as [o|o], Hp as [Hp ->].
    + transitivity (byte_at (write_bytes (m_ram m) a data) (a + (x - a))); [destruct m; simpl; f_equal; lia|].
      rewrite byte_at_write by done. unfold patch. destruct (_ && _); [done|].
      rewrite (mem_byte_ram m x Hm Hx). f_equal. lia.
    + destruct Hp as (_ & ? & ?), Hx as [? ?].
      rewrite patch_out by lia. rewrite (mem_byte_ram m x) by done. by destruct m.
  - rewrite (mem_byte_exram _ _ Hm' Hx'). destruct Hx as [Hx|Hx].
    { destruct Hx', Hx. lia. }
    destruct p as [o|o], Hp as [Hp ->].
    + destruct Hp as [? ?], Hx as (? & ? & ?). rewrite patch_out by lia.
      rewrite (mem_byte_exram m x) by done. by destruct m.
    + pose proof Hp as (Hsome & _ & _).
      transitivity (byte_at (write_bytes (default ∅ (m_exram m)) (a - 0x10000000) data) (a - 0x10000000 + (x - a))).
      { destruct m as [ram [ex|]]; simpl in *; [f_equal; lia|done]. }
      rewrite byte_at_write by done. unfold patch. destruct (_ && _); [done|].
      rewrite (mem_byte_exram m x Hm Hx). f_equal. lia.
Qed.

(** ** Integers in memory *)

Lemma length_to_be n v : length (to_be n v) = n.
Proof. revert v. induction n as [|n IH]; simpl; intros v; [done|]. rewrite length_app, IH. simpl. lia. Qed.
Lemma to_be_u8 n v : Forall is_u8 (to_be n v).
Proof.
  revert v. induction n as [|n IH]; simpl; intros v; [by constructor|].
  apply Forall_app; split; [apply IH|]. constructor; [apply is_u8_u8|constructor].
Qed.
Lemma from_be_app bs b : from_be (bs ++ [b]) = from_be bs * 0x100 + b.
Proof. unfold from_be. by rewrite fold_left_app. Qed.
Lemma from_to_be n v : from_be (to_be n v) = v mod 2 ^ (8 * Z.of_nat n).
Proof.
  revert v. induction n as [|n IH]; intros v; [by rewrite Z.mod_1_r|]. cbn [to_be].
  rewrite from_be_app, IH. unfold u8.
  replace (2 ^ (8 * Z.of_nat (S n))) with (0x100 * 2 ^ (8 * Z.of_nat n))
    by (change 0x100 with (2 ^ 8); rewrite <- Z.pow_add_r by lia; f_equal; lia).
  rewrite Z.rem_mul_r by lia. lia.
Qed.

Lemma from_be_lt bs : Forall is_u8 bs -> 0 <= from_be bs < 2 ^ (8 * Z.of_nat (length bs)).
Proof.
  induction bs as [|b bs IH] using rev_ind; intros H; [done|].
  apply Forall_app in H as [H1 H2]. apply Forall_cons_1 in H2 as [H2 _]. rewrite from_be_app, length_app.
  replace (2 ^ (8 * Z.of_nat (length bs + length [b]))) with (2 ^ (8 * Z.of_nat (length bs)) * 0x100)
    by (change 0x100 with (2 ^ 8); rewrite <- Z.pow_add_r by lia; f_equal; simpl; lia).
  specialize (IH H1). unfold is_u8 in H2. lia.
Qed.

Lemma Read_after_write m a n v : mem_wf m -> block_ok m a (Z.of_nat n) -> forall d, length d = n ->
  from_be (CopyFromEmu (CopyToEmu m a (to_be n v)) d a) = v mod 2 ^ (8 * Z.of_nat n).
Proof.
  intros Hm Hb d Hd. rewrite CopyFromEmu_eval;
    [|by apply CopyToEmu_wf|rewrite CopyToEmu_block, Hd; done].
  rewrite <- from_to_be. f_equal. apply list_eq_same_length with n;
    [by rewrite length_to_be|by rewrite length_bytes_from|].
  intros i x y Hi. rewrite lookup_bytes_from by lia. intros [= <-] Hy.
  rewrite mem_byte_CopyToEmu; try done;
    [|by rewrite length_to_be|apply to_be_u8|eapply block_ok_sub; [exact Hb|lia..]].
  apply patch_in; [|lia]. by replace (Z.to_nat _) with i by lia.
Qed.

(** ** The sizes [Init] computes *)

(** The bits from the highest one down, [k] of them, are set. *)
Definition filled (x k : Z) : Prop := 0 < x /\ forall i, 0 <= i -> Z.log2 x - k < i <= Z.log2 x -> Z.testbit x i = true.

Lemma filled_step x k : 0 <= k -> filled x k -> filled (x .| (x .>> k)) (2 * k) /\
  Z.log2 (x .| (x .>> k)) = Z.log2 x.
Proof.
  intros Hk [Hx Hf].
  assert (Hs : 0 <= x .>> k) by (apply Z.shiftr_nonneg; lia).
  assert (Hl : Z.log2 (x .| (x .>> k)) = Z.log2 x).
  { rewrite Z.log2_lor by lia. rewrite Z.max_l; [done|].
    destruct (Z.eq_dec (x .>> k) 0) as [->|]; [apply Z.log2_nonneg|].
    rewrite Z.shiftr_div_pow2 by lia. apply Z.log2_le_mono.
    apply Z.div_le_upper_bound; [apply Z.pow_pos_nonneg; lia|].
    assert (0 < 2 ^ k) by (apply Z.pow_pos_nonneg; lia). nia. }
  split; [|done]. split.
  - assert (0 <= x .| (x .>> k)) by (apply Z.lor_nonneg; lia).
    destruct (Z.eq_dec (x .| (x .>> k)) 0) as [E|]; [|lia]. apply Z.lor_eq_0_iff in E. lia.
  - rewrite Hl. intros i Hi Hr. rewrite Z.lor_spec, Z.shiftr_spec by lia.
    destruct (Z.lt_ge_cases (Z.log2 x - k) i); [by rewrite Hf by lia|].
    rewrite (Hf (i + k)) by lia. apply orb_true_r.
Qed.

Lemma filled_all x : filled x (Z.log2 x + 1) -> x = 2 ^ (Z.log2 x + 1) - 1.
Proof.
  intros [Hx Hf]. pose proof (Z.log2_nonneg x).
  transitivity (Z.ones (Z.log2 x + 1)); [|rewrite Z.ones_equiv; lia]. apply Z.bits_inj'. intros i Hi. destruct (Z.le_gt_cases i (Z.log2 x)).
  - rewrite Hf by lia. by rewrite Z.ones_spec_low by lia.
  - rewrite Z.bits_above_log2 by lia. by rewrite Z.ones_spec_high by lia.
Qed.
Lemma filled_more x k j : j <= k -> filled x k -> filled x j.
Proof. intros Hj [Hx Hf]. split; [done|]. intros i ??. apply Hf; lia. Qed.

(** The least power of two that is not less. *)
Lemma NextPowerOf2_spec v : 0 < v <= 2 ^ 31 -> NextPowerOf2 v = 2 ^ Z.log2_up v.
Proof.
  intros Hv. unfold NextPowerOf2. cbv zeta. rewrite (u32_id (v - 1)) by (unfold is_u32; lia).
  destruct (Z.eq_dec v 1) as [->|Hne]; [done|]. set (x := v - 1).
  assert (Hx : 0 < x < 2 ^ 31) by lia.
  assert (H1 : filled x 1).
  { split; [lia|]. intros i _ Hi. replace i with (Z.log2 x) by lia. apply Z.bit_log2. lia. }
  destruct (filled_step x 1 ltac:(lia) H1) as [H2 E2]. set (x2 := x .| (x .>> 1)) in *. change (2 * 1) with 2 in H2.
  destruct (filled_step x2 2 ltac:(lia) H2) as [H4 E4]. set (x4 := x2 .| (x2 .>> 2)) in *.
  destruct (filled_step x4 4 ltac:(lia) H4) as [H8 E8]. set (x8 := x4 .| (x4 .>> 4)) in *.
  destruct (filled_step x8 8 ltac:(lia) H8) as [H16 E16]. set (x16 := x8 .| (x8 .>> 8)) in *.
  destruct (filled_step x16 16 ltac:(lia) H16) as [H32 E32]. set (x32 := x16 .| (x16 .>> 16)) in *.
  assert (El : Z.log2 x32 = Z.log2 x) by congruence.
  assert (Hlog : Z.log2 x < 31) by (apply Z.log2_lt_pow2; lia).
  assert (Hall : x32 = 2 ^ (Z.log2 x32 + 1) - 1).
  { apply filled_all. eapply filled_more; [|exact H32]. lia. }
  rewrite El in Hall. clearbody x32. pose proof (Z.log2_nonneg x) as Hnn.
  pose proof (Z.pow_le_mono_r 2 (Z.log2 x + 1) 31 ltac:(lia) ltac:(lia)) as Hle.
  pose proof (Z.pow_pos_nonneg 2 (Z.log2 x + 1) ltac:(lia) ltac:(lia)) as Hpos.
  change (2 ^ 31) with 0x80000000 in Hle.
  rewrite Hall, Z.sub_add. unfold u32. rewrite Z.mod_small by (split; [lia|];
    apply Z.le_lt_trans with 0x80000000; [exact Hle|reflexivity]).
  f_equal. rewrite Z.log2_up_eqn by lia. unfold x. by rewrite Z.sub_1_r.
Qed.

Lemma next_pow_size v : 0 < v <= 2 ^ 28 -> v mod 32 = 0 ->
  (exists k, 5 <= k <= 28 /\ NextPowerOf2 v = 2 ^ k) /\ 0 <= v <= NextPowerOf2 v /\
  u32 (NextPowerOf2 v - 1) = NextPowerOf2 v - 1.
Proof.
  intros Hv Hm. assert (32 <= v) by (Z.div_mod_to_equations; lia).
  rewrite NextPowerOf2_spec by (change (2 ^ 31) with 0x80000000; change (2 ^ 28) with 0x10000000 in Hv; lia).
  assert (H5 : 5 <= Z.log2_up v) by (change 5 with (Z.log2_up 32); apply Z.log2_up_le_mono; lia).
  assert (H28 : Z.log2_up v <= 28) by (rewrite <- (Z.log2_up_pow2 28) by lia; apply Z.log2_up_le_mono; lia).
  pose proof (size_bound _ (conj H5 H28)).
  assert (v <= 2 ^ Z.log2_up v) by (apply Z.log2_log2_up_spec; lia).
  split; [by eexists|]. split; [lia|]. apply u32_id. unfold is_u32. lia.
Qed.

Lemma Init_wf mem1 mem2 wii :
  0 < mem1 <= 2 ^ 28 -> mem1 mod 32 = 0 -> 0 < mem2 <= 2 ^ 28 -> mem2 mod 32 = 0 ->
  mem_wf (Init mem1 mem2 wii).
Proof.
  intros H1 H1' H2 H2'. destruct (next_pow_size mem1 H1 H1') as (? & ? & ?).
  destruct (next_pow_size mem2 H2 H2') as (? & ? & ?). by constructor.
Qed.

(** ** The word-wise copies *)

Lemma read_write_bytes bs m a : Forall is_u8 bs -> read_bytes (write_bytes m a bs) a (length bs) = bs.
Proof.
  intros Hb. apply list_eq_same_length with (length bs); [done|apply length_read_bytes|].
  intros i x y Hi. rewrite lookup_read_bytes by done. intros [= <-] Hy. unfold byte_at.
  rewrite (lookup_write_bytes _ _ _ _ _ Hy). apply Z.mod_small. by apply (Forall_lookup_1 _ _ _ _ Hb Hy).
Qed.

(** A pointer into a memory the machine has. *)
Definition pointer_in (m : MemoryManager) (p : pointer) : Prop :=
  match p with RamPtr _ => True | ExRamPtr _ => m_exram m <> None end.

Lemma GetPointerForRange_in m a n p : GetPointerForRange m a n = Some p -> pointer_in m p.
Proof.
  unfold GetPointerForRange, GetSpanForAddress, pointer_in.
  destruct (_ <? m_ram_size_real m); [case_match; [done|by intros [= <-]]|].
  destruct (m_exram m) as [x|] eqn:E; [|done]. destruct (_ && _); [|done].
  case_match; [done|]. by intros [= <-].
Qed.

Lemma load_store m p bs : pointer_in m p -> Forall is_u8 bs -> load (store m p bs) p (length bs) = bs.
Proof.
  intros Hp Hb. destruct m as [ram [ex|]], p; simpl in *; try done; by apply read_write_bytes.
Qed.
Lemma GetSpanForAddress_store m p bs a : GetSpanForAddress (store m p bs) a = GetSpanForAddress m a.
Proof. by destruct m as [ram [ex|]], p. Qed.

(** A shorter block starts at the same place. *)
Lemma GetPointerForRange_shorter m a n k p : GetPointerForRange m a n = Some p -> k <= n ->
  GetPointerForRange m a k = Some p.
Proof.
  unfold GetPointerForRange. intros Hv Hm. destruct (GetSpanForAddress m a) as [[q len]|]; [|done].
  destruct (Z.ltb_spec len n), (Z.ltb_spec len k); try done. lia.
Qed.

Lemma to_be_word w : to_be 2 w = [u8 (w / 0x100); u8 w].
Proof. reflexivity. Qed.
Lemma words_of_bytes ws : Forall is_u16 ws -> words_of (bytes_of ws) = ws.
Proof.
  unfold bytes_of. induction 1 as [|w ws Hw _ IH]; [done|]. cbn [flat_map]. rewrite to_be_word. simpl.
  f_equal; [|exact IH]. unfold is_u16, u8 in *. Z.div_mod_to_equations; lia.
Qed.
Lemma length_bytes_of ws : length (bytes_of ws) = (2 * length ws)%nat.
Proof. unfold bytes_of. induction ws as [|w ws IH]; [done|]. cbn [flat_map]. rewrite length_app, IH, length_to_be. simpl. lia. Qed.
Lemma bytes_of_u8 ws : Forall is_u8 (bytes_of ws).
Proof. unfold bytes_of. induction ws; [constructor|]. apply Forall_app; split; [apply to_be_u8|done]. Qed.

Lemma length_words_of n bs : length bs = (2 * n)%nat -> length (words_of bs) = n.
Proof.
  revert bs. induction n as [|n IH]; intros bs Hl; [by apply nil_length_inv in Hl as ->|].
  destruct bs as [|b [|b' bs]]; simpl in Hl; [lia|lia|]. simpl. f_equal. apply IH. lia.
Qed.
Lemma words_of_u16 bs : Forall is_u8 bs -> Forall is_u16 (words_of bs).
Proof.
  enough (H : forall n bs, (length bs < n)%nat -> Forall is_u8 bs -> Forall is_u16 (words_of bs)) by (eapply H, Nat.lt_succ_diag_r).
  induction n as [|n IH]; [lia|]. intros [|b [|b' l]] Hl Hb; simpl; [constructor..|].
  inversion Hb as [|? ? H1 Hb']; inversion Hb' as [|? ? H2 Hb'']; subst. constructor; [|apply IH; [simpl in Hl; lia|done]].
  unfold is_u8, is_u16 in *. lia.
Qed.

Lemma length_load m p n : length (load m p n) = n.
Proof. destruct p; apply length_read_bytes. Qed.
Lemma load_u8 m p n : Forall is_u8 (load m p n).
Proof. destruct p; apply read_bytes_u8. Qed.

Lemma CopyFromEmuSwapped_words m d a n : Forall is_u16 d -> Forall is_u16 (CopyFromEmuSwapped m d a n).
Proof. intros Hd. unfold CopyFromEmuSwapped. case_match; [apply words_of_u16, load_u8|done]. Qed.
Lemma length_CopyFromEmuSwapped m d a n : length d = Z.to_nat (n / 2) -> length (CopyFromEmuSwapped m d a n) = Z.to_nat (n / 2).
Proof. intros Hd. unfold CopyFromEmuSwapped. case_match; [apply length_words_of, length_load|done]. Qed.

(** Words written to memory are read back. *)
Lemma CopyFromEmuSwapped_after m a ws d n : Forall is_u16 ws -> length ws = Z.to_nat (n / 2) -> 0 <= n ->
  GetPointerForRange m a n <> None ->
  CopyFromEmuSwapped (CopyToEmuSwapped m a ws (2 * Z.of_nat (length ws))) d a n = ws.
Proof.
  intros Hws Hl Hn Hp. destruct (GetPointerForRange m a n) as [p|] eqn:Ep; [|done].
  assert (Hle : 2 * Z.of_nat (length ws) <= n) by (rewrite Hl; Z.div_mod_to_equations; lia).
  unfold CopyToEmuSwapped. rewrite (GetPointerForRange_shorter _ _ _ _ _ Ep Hle).
  replace (2 * Z.of_nat (length ws) / 2) with (Z.of_nat (length ws)) by (rewrite Z.mul_comm, Z.div_mul; lia).
  rewrite Nat2Z.id, firstn_all. unfold CopyFromEmuSwapped, GetPointerForRange. rewrite GetSpanForAddress_store.
  unfold GetPointerForRange in Ep. rewrite Ep, <- Hl, <- length_bytes_of, load_store.
  - by apply words_of_bytes.
  - by apply (GetPointerForRange_in m a n).
  - apply bytes_of_u8.
Qed.
