(* ===== verification/GCMemcardData.v ===== *)
(** * The blocks of a memory card (HW/GCMemcard/GCMemcard.h)

    How the structures of a card lie in its bytes, and their checksums.  A
    [Layout] says which bytes a value has; the structures are declared field by
    field, in the order of the C++ declarations, and the laws are put together
    from those of the fields. *)
From S2P Require Export Memmap.

Definition BLOCK_SIZE : Z := 0x2000.
Definition MBIT_TO_BLOCKS : Z := (1024 * 1024) / (BLOCK_SIZE * 8).
Definition MC_FST_BLOCKS : Z := 0x05.
Definition DIRLEN : Z := 0x7F.
Definition DENTRY_STRLEN : Z := 0x20.
Definition DENTRY_SIZE : Z := 0x40.
Definition BAT_SIZE : Z := 0xFFB.
Definition MBIT_SIZE_MEMORY_CARD_59 : Z := 0x04.
Definition MBIT_SIZE_MEMORY_CARD_123 : Z := 0x08.
Definition MBIT_SIZE_MEMORY_CARD_251 : Z := 0x10.
Definition MBIT_SIZE_MEMORY_CARD_507 : Z := 0x20.
Definition MBIT_SIZE_MEMORY_CARD_1019 : Z := 0x40.
Definition MBIT_SIZE_MEMORY_CARD_2043 : Z := 0x80.
Definition MbitToFreeBlocks (size_mb : Z) : Z := u32 (size_mb * MBIT_TO_BLOCKS - MC_FST_BLOCKS).

(** ** Layouts *)

Record layout (A : Type) := mkLayout {
  width : nat;
  to_bytes : A -> list Z;
  of_bytes : list Z -> A;
  fits : A -> Prop
}.
Arguments mkLayout {A}. Arguments width {A}. Arguments to_bytes {A}. Arguments of_bytes {A}. Arguments fits {A}.

(** What a value of the type keeps when it is written and read back. *)
Record lawful {A} (L : layout A) : Prop := mkLawful {
  lw_width a : fits L a -> length (to_bytes L a) = width L;
  lw_bytes a : fits L a -> Forall is_u8 (to_bytes L a);
  lw_read a : fits L a -> of_bytes L (to_bytes L a) = a
}.

Definition bytes (n : Z) : layout (list Z) :=
  mkLayout (Z.to_nat n) id id (fun l => length l = Z.to_nat n /\ Forall is_u8 l).
Definition byte : layout Z := mkLayout 1 (fun v => [v]) (fun l => default 0 (head l)) is_u8.
(** [BigEndianValue] and plain integers of the (little-endian) host. *)
Definition big_endian_value (n : nat) : layout Z :=
  mkLayout n (to_be n) from_be (fun v => 0 <= v < 2 ^ (8 * Z.of_nat n)).
Definition be_s16 : layout Z := mkLayout 2 (to_be 2) (fun l => s16 (from_be l)) is_s16.
Definition host_value (n : nat) : layout Z :=
  mkLayout n (fun v => rev (to_be n v)) (fun l => from_be (rev l)) (fun v => 0 <= v < 2 ^ (8 * Z.of_nat n)).
Definition field_pair {A B} (L : layout A) (R : layout B) : layout (A * B) :=
  mkLayout (width L + width R) (fun '(a, b) => to_bytes L a ++ to_bytes R b)
    (fun l => (of_bytes L (take (width L) l), of_bytes R (drop (width L) l)))
    (fun '(a, b) => fits L a /\ fits R b).
Notation "L 'then_' R" := (field_pair L R) (at level 61, left associativity).
(** A structure: its fields in a row. *)
Definition struct {A B} (L : layout A) (make : A -> B) (fields : B -> A) : layout B :=
  mkLayout (width L) (fun b => to_bytes L (fields b)) (fun l => make (of_bytes L l)) (fun b => fits L (fields b)).
(** An array of [n] elements. *)
Fixpoint split_array {A} (L : layout A) (n : nat) (l : list Z) : list A :=
  match n with
  | O => []
  | S n' => of_bytes L (take (width L) l) :: split_array L n' (drop (width L) l)
  end.
Definition array {A} (n : Z) (L : layout A) : layout (list A) :=
  mkLayout (Z.to_nat n * width L) (flat_map (to_bytes L)) (split_array L (Z.to_nat n))
    (fun l => length l = Z.to_nat n /\ Forall (fits L) l).

(** *** Their laws *)

Create HintDb layouts.

Lemma bytes_lawful n : lawful (bytes n).
Proof. split; intros a [Hl Ha]; done. Qed.
Lemma byte_lawful : lawful byte.
Proof. split; intros a Ha; [done|by apply Forall_singleton|done]. Qed.
Lemma big_endian_value_lawful n : lawful (big_endian_value n).
Proof.
  split; intros a Ha; simpl in *.
  - apply length_to_be.
  - apply to_be_u8.
  - rewrite from_to_be. by apply Z.mod_small.
Qed.
Lemma be_s16_lawful : lawful be_s16.
Proof.
  split; intros a Ha; cbn -[to_be from_be] in *; [apply length_to_be|apply to_be_u8|].
  rewrite from_to_be. change (2 ^ (8 * Z.of_nat 2)) with 0x10000. zlia.
Qed.
Lemma host_value_lawful n : lawful (host_value n).
Proof.
  split; intros a Ha; simpl in *.
  - by rewrite length_rev, length_to_be.
  - apply Forall_rev, to_be_u8.
  - rewrite rev_involutive, from_to_be. by apply Z.mod_small.
Qed.
Lemma field_pair_lawful {A B} (L : layout A) (R : layout B) : lawful L -> lawful R -> lawful (L then_ R).
Proof.
  intros HL HR. split; intros [a b] [Ha Hb]; simpl.
  - rewrite length_app. by rewrite (lw_width _ HL a Ha), (lw_width _ HR b Hb).
  - apply Forall_app. split; [by apply lw_bytes|by apply lw_bytes].
  - rewrite take_app_length', drop_app_length' by (symmetry; by apply lw_width).
    by rewrite (lw_read _ HL a Ha), (lw_read _ HR b Hb).
Qed.
Lemma struct_lawful {A B} (L : layout A) (make : A -> B) fields :
  lawful L -> (forall b, make (fields b) = b) -> lawful (struct L make fields).
Proof.
  intros HL H. split; intros b Hb; simpl in *; [by apply lw_width|by apply lw_bytes|]. by rewrite (lw_read _ HL _ Hb).
Qed.
Lemma length_flat_bytes {A} (L : layout A) l : lawful L -> Forall (fits L) l ->
  length (flat_map (to_bytes L) l) = (length l * width L)%nat.
Proof.
  intros HL. induction 1 as [|a l Ha _ IH]; [done|]. simpl. by rewrite length_app, IH, (lw_width _ HL a Ha).
Qed.
Lemma split_flat {A} (L : layout A) l : lawful L -> Forall (fits L) l ->
  split_array L (length l) (flat_map (to_bytes L) l) = l.
Proof.
  intros HL. induction 1 as [|a l Ha _ IH]; [done|]. simpl.
  rewrite take_app_length', drop_app_length' by (symmetry; by apply lw_width). by rewrite (lw_read _ HL a Ha), IH.
Qed.
Lemma flat_bytes_u8 {A} (L : layout A) l : lawful L -> Forall (fits L) l -> Forall is_u8 (flat_map (to_bytes L) l).
Proof. intros HL. induction 1 as [|a l Ha _ IH]; [done|]. simpl. apply Forall_app. split; [by apply lw_bytes|done]. Qed.
Lemma array_lawful {A} n (L : layout A) : lawful L -> lawful (array n L).
Proof.
  intros HL. split; intros l [Hl Hf]; simpl.
  - rewrite (length_flat_bytes L l HL Hf). by rewrite Hl.
  - by apply flat_bytes_u8.
  - rewrite <- Hl. by apply split_flat.
Qed.
#[export] Hint Resolve bytes_lawful byte_lawful big_endian_value_lawful be_s16_lawful host_value_lawful
  field_pair_lawful array_lawful : layouts.
Ltac lawful := apply struct_lawful; [eauto 40 with layouts|by intros []].

(** ** The structures *)

Record DEntry := mkDEntry {
  m_gamecode : list Z;
  m_makercode : list Z;
  de_unused_1 : Z;
  m_banner_and_icon_flags : Z;
  m_filename : list Z;
  m_modification_time : Z;
  m_image_offset : Z;
  m_icon_format : Z;
  m_animation_speed : Z;
  m_file_permissions : Z;
  m_copy_counter : Z;
  m_first_block : Z;
  m_block_count : Z;
  de_unused_2 : list Z;
  m_comments_address : Z
}.
Definition DEntry_layout : layout DEntry :=
  struct (bytes 4 then_ bytes 2 then_ byte then_ byte then_ bytes DENTRY_STRLEN then_ big_endian_value 4
      then_ big_endian_value 4 then_ big_endian_value 2 then_ big_endian_value 2 then_ byte then_ byte
      then_ big_endian_value 2 then_ big_endian_value 2 then_ bytes 2 then_ big_endian_value 4)
    (fun '(gamecode, makercode, u1, flags, filename, time, image, icon, speed, perm, copies, first, count, u2, comments) =>
       mkDEntry gamecode makercode u1 flags filename time image icon speed perm copies first count u2 comments)
    (fun e => (m_gamecode e, m_makercode e, de_unused_1 e, m_banner_and_icon_flags e, m_filename e,
       m_modification_time e, m_image_offset e, m_icon_format e, m_animation_speed e, m_file_permissions e,
       m_copy_counter e, m_first_block e, m_block_count e, de_unused_2 e, m_comments_address e)).
Lemma DEntry_lawful : lawful DEntry_layout.
Proof. lawful. Qed.
Definition UNINITIALIZED_GAMECODE : list Z := [0xFF; 0xFF; 0xFF; 0xFF].
(** The constructor: [memset(this, 0xFF, DENTRY_SIZE)]. *)
Definition empty_DEntry : DEntry := of_bytes DEntry_layout (replicate (Z.to_nat DENTRY_SIZE) 0xFF).
Definition set_first_block v e := mkDEntry (m_gamecode e) (m_makercode e) (de_unused_1 e) (m_banner_and_icon_flags e)
  (m_filename e) (m_modification_time e) (m_image_offset e) (m_icon_format e) (m_animation_speed e)
  (m_file_permissions e) (m_copy_counter e) v (m_block_count e) (de_unused_2 e) (m_comments_address e).
Definition set_copy_counter v e := mkDEntry (m_gamecode e) (m_makercode e) (de_unused_1 e) (m_banner_and_icon_flags e)
  (m_filename e) (m_modification_time e) (m_image_offset e) (m_icon_format e) (m_animation_speed e)
  (m_file_permissions e) v (m_first_block e) (m_block_count e) (de_unused_2 e) (m_comments_address e).
Definition set_block_count v e := mkDEntry (m_gamecode e) (m_makercode e) (de_unused_1 e) (m_banner_and_icon_flags e)
  (m_filename e) (m_modification_time e) (m_image_offset e) (m_icon_format e) (m_animation_speed e)
  (m_file_permissions e) (m_copy_counter e) (m_first_block e) v (de_unused_2 e) (m_comments_address e).

Record HeaderData := mkHeaderData {
  m_serial : list Z;
  m_format_time : Z;
  m_sram_bias : Z;
  m_sram_language : Z;
  m_dtv_status : Z;
  m_device_id : Z;
  hd_size_mb : Z;
  m_encoding : Z
}.
Definition HeaderData_layout : layout HeaderData :=
  struct (bytes 12 then_ big_endian_value 8 then_ host_value 4 then_ big_endian_value 4 then_ host_value 4
      then_ big_endian_value 2 then_ big_endian_value 2 then_ big_endian_value 2)
    (fun '(serial, time, bias, lang, dtv, dev, size, enc) => mkHeaderData serial time bias lang dtv dev size enc)
    (fun d => (m_serial d, m_format_time d, m_sram_bias d, m_sram_language d, m_dtv_status d, m_device_id d,
       hd_size_mb d, m_encoding d)).
Lemma HeaderData_lawful : lawful HeaderData_layout.
Proof. lawful. Qed.
#[export] Hint Resolve DEntry_lawful HeaderData_lawful : layouts.

Record Header := mkHeader {
  m_data : HeaderData;
  h_unused_1 : list Z;
  h_update_counter : Z;
  h_checksum : Z;
  h_checksum_inv : Z;
  h_unused_2 : list Z
}.
Definition Header_layout : layout Header :=
  struct (HeaderData_layout then_ bytes 468 then_ host_value 2 then_ host_value 2 then_ host_value 2 then_ bytes 7680)
    (fun '(data, u1, counter, sum, inv, u2) => mkHeader data u1 counter sum inv u2)
    (fun h => (m_data h, h_unused_1 h, h_update_counter h, h_checksum h, h_checksum_inv h, h_unused_2 h)).
Lemma Header_lawful : lawful Header_layout.
Proof. lawful. Qed.

Record Directory := mkDirectory {
  m_dir_entries : list DEntry;
  m_padding : list Z;
  d_update_counter : Z;
  d_checksum : Z;
  d_checksum_inv : Z
}.
Definition Directory_layout : layout Directory :=
  struct (array DIRLEN DEntry_layout then_ bytes 0x3a then_ be_s16 then_ host_value 2 then_ host_value 2)
    (fun '(entries, padding, counter, sum, inv) => mkDirectory entries padding counter sum inv)
    (fun d => (m_dir_entries d, m_padding d, d_update_counter d, d_checksum d, d_checksum_inv d)).
Lemma Directory_lawful : lawful Directory_layout.
Proof. lawful. Qed.
Definition set_dir_entries v d := mkDirectory v (m_padding d) (d_update_counter d) (d_checksum d) (d_checksum_inv d).
Definition set_dir_counter v d := mkDirectory (m_dir_entries d) (m_padding d) v (d_checksum d) (d_checksum_inv d).

Record BlockAlloc := mkBlockAlloc {
  b_checksum : Z;
  b_checksum_inv : Z;
  b_update_counter : Z;
  m_free_blocks : Z;
  m_last_allocated_block : Z;
  m_map : list Z
}.
Definition BlockAlloc_layout : layout BlockAlloc :=
  struct (host_value 2 then_ host_value 2 then_ be_s16 then_ big_endian_value 2 then_ big_endian_value 2
      then_ array BAT_SIZE (big_endian_value 2))
    (fun '(sum, inv, counter, free, last, map) => mkBlockAlloc sum inv counter free last map)
    (fun b => (b_checksum b, b_checksum_inv b, b_update_counter b, m_free_blocks b, m_last_allocated_block b, m_map b)).
Lemma BlockAlloc_lawful : lawful BlockAlloc_layout.
Proof. lawful. Qed.
#[export] Hint Resolve Header_lawful Directory_lawful BlockAlloc_lawful : layouts.
Definition set_bat_counter v b := mkBlockAlloc (b_checksum b) (b_checksum_inv b) v (m_free_blocks b) (m_last_allocated_block b) (m_map b).
Definition set_free_blocks v b := mkBlockAlloc (b_checksum b) (b_checksum_inv b) (b_update_counter b) v (m_last_allocated_block b) (m_map b).
Definition set_last_allocated v b := mkBlockAlloc (b_checksum b) (b_checksum_inv b) (b_update_counter b) (m_free_blocks b) v (m_map b).
Definition set_map v b := mkBlockAlloc (b_checksum b) (b_checksum_inv b) (b_update_counter b) (m_free_blocks b) (m_last_allocated_block b) v.

(** ** Errors *)

Inductive GCMemcardValidityIssues :=
  | FAILED_TO_OPEN
  | IO_ERROR
  | INVALID_CARD_SIZE
  | INVALID_CHECKSUM
  | MISMATCHED_CARD_SIZE
  | FREE_BLOCK_MISMATCH
  | DIR_BAT_INCONSISTENT
  | DATA_IN_UNUSED_AREA.
Definition issue_index (code : GCMemcardValidityIssues) : Z :=
  match code with
  | FAILED_TO_OPEN => 0 | IO_ERROR => 1 | INVALID_CARD_SIZE => 2 | INVALID_CHECKSUM => 3
  | MISMATCHED_CARD_SIZE => 4 | FREE_BLOCK_MISMATCH => 5 | DIR_BAT_INCONSISTENT => 6 | DATA_IN_UNUSED_AREA => 7
  end.
(** A [std::bitset]; [operator|=] is [.|]. *)
Definition GCMemcardErrorCode : Type := Z.
Definition Test (e : GCMemcardErrorCode) (code : GCMemcardValidityIssues) : bool := Z.testbit e (issue_index code).
Definition Set_ (code : GCMemcardValidityIssues) (e : GCMemcardErrorCode) : GCMemcardErrorCode := Z.setbit e (issue_index code).
Definition Set_if (b : bool) (code : GCMemcardValidityIssues) (e : GCMemcardErrorCode) : GCMemcardErrorCode :=
  if b then Set_ code e else e.
Definition HasCriticalErrors (e : GCMemcardErrorCode) : bool :=
  Test e FAILED_TO_OPEN || Test e IO_ERROR || Test e INVALID_CARD_SIZE || Test e INVALID_CHECKSUM ||
  Test e MISMATCHED_CARD_SIZE || Test e FREE_BLOCK_MISMATCH || Test e DIR_BAT_INCONSISTENT.

(** ** Checksums *)

Fixpoint checksum_loop (data : list Z) (csum inv_csum : Z) : Z * Z :=
  match data with
  | a :: b :: rest =>
      let d := from_be [a; b] in
      checksum_loop rest (u16 (csum + d)) (u16 (inv_csum + (d .^ 0xffff)))
  | _ => (csum, inv_csum)
  end.
Definition CalculateMemcardChecksums (data : list Z) : Z * Z :=
  let '(csum, inv_csum) := checksum_loop data 0 0 in
  let csum := swap16 csum in
  let inv_csum := swap16 inv_csum in
  (if csum =? 0xffff then 0 else csum, if inv_csum =? 0xffff then 0 else inv_csum).

(** ** The header (GCMemcard.cpp) *)

Definition Header_CalculateChecksums (h : Header) : Z * Z :=
  CalculateMemcardChecksums (take (Z.to_nat 0x1fc) (to_bytes Header_layout h)).
Definition Header_FixChecksums (h : Header) : Header :=
  let '(sum, inv) := Header_CalculateChecksums h in
  mkHeader (m_data h) (h_unused_1 h) (h_update_counter h) sum inv (h_unused_2 h).
Definition Header_CheckForErrors (card_size_mbits : Z) (h : Header) : GCMemcardErrorCode :=
  let e := Set_if (negb (hd_size_mb (m_data h) =? card_size_mbits)) MISMATCHED_CARD_SIZE 0 in
  let e := Set_if (existsb (fun val => negb (val =? 0xFF)) (h_unused_1 h) ||
                   existsb (fun val => negb (val =? 0xFF)) (h_unused_2 h)) DATA_IN_UNUSED_AREA e in
  let '(checksum_sum, checksum_inv) := Header_CalculateChecksums h in
  Set_if (negb (checksum_sum =? h_checksum h) || negb (checksum_inv =? h_checksum_inv h)) INVALID_CHECKSUM e.
Definition IsShiftJIS (h : Header) : bool := negb (m_encoding (m_data h) =? 0).
(** The two serial numbers: every other word of the first 32 bytes, combined. *)
Fixpoint xor_words (n : nat) (raw : list Z) : Z :=
  match n with O => 0 | S n' => from_be (rev (take 4 raw)) .^ xor_words n' (drop 8 raw) end.
Definition CalculateSerial (h : Header) : Z * Z :=
  let raw := take 32 (to_bytes Header_layout h) in
  (xor_words 4 raw, xor_words 4 (drop 4 raw)).

(** The format algorithm. *)
Fixpoint format_serial (flash_id : list Z) (rand : Z) : list Z :=
  match flash_id with
  | [] => []
  | f :: rest =>
      let rand := u64 (u64 (rand * 0x41c64e6d) + 0x3039) .>> 16 in
      u8 (u32 (f + u32 rand)) :: format_serial rest ((u64 (u64 (rand * 0x41c64e6d) + 0x3039) .>> 16) .& 0x7fff)
  end.
Definition InitializeHeaderData (flash_id : list Z) (size_mbits : Z) (shift_jis : bool) (rtc_bias sram_language format_time : Z) :
    HeaderData :=
  mkHeaderData (format_serial flash_id format_time) format_time rtc_bias sram_language 0 0 size_mbits (Z.b2z shift_jis).
Definition Header_of (data : HeaderData) : Header :=
  Header_FixChecksums (mkHeader data (replicate (Z.to_nat 468) 0xFF) 0xFFFF 0xFFFF 0xFFFF (replicate (Z.to_nat 7680) 0xFF)).

(** ** The block allocation table *)

Definition BlockAlloc_CalculateChecksums (b : BlockAlloc) : Z * Z :=
  CalculateMemcardChecksums (drop 4 (to_bytes BlockAlloc_layout b)).
Definition BlockAlloc_FixChecksums (b : BlockAlloc) : BlockAlloc :=
  let '(sum, inv) := BlockAlloc_CalculateChecksums b in
  mkBlockAlloc sum inv (b_update_counter b) (m_free_blocks b) (m_last_allocated_block b) (m_map b).
Definition BlockAlloc_of (size_mbits : Z) : BlockAlloc :=
  BlockAlloc_FixChecksums (mkBlockAlloc 0 0 0 (u16 (MbitToFreeBlocks size_mbits)) 4 (replicate (Z.to_nat BAT_SIZE) 0)).

(** [m_map[block - MC_FST_BLOCKS]]; every caller keeps the index inside. *)
Definition map_at (b : BlockAlloc) (block : Z) : Z := default 0 (zget (m_map b) (block - MC_FST_BLOCKS)).
Definition GetNextBlock (b : BlockAlloc) (block : Z) : Z :=
  if (block <? MC_FST_BLOCKS) || (4091 <? block) then 0 else map_at b block.
(** [for (u16 i = first; ...)] over [n] blocks. *)
Fixpoint find_free (b : BlockAlloc) (first : Z) (n : nat) : option Z :=
  match n with
  | O => None
  | S n' => if map_at b first =? 0 then Some first else find_free b (first + 1) n'
  end.
Definition clamp_block (block : Z) : Z := Z.min (Z.max block MC_FST_BLOCKS) (BAT_SIZE + MC_FST_BLOCKS).
Definition NextFreeBlock (max_block starting_block : Z) (b : BlockAlloc) : Z :=
  if 0 <? m_free_blocks b then
    let starting_block := clamp_block starting_block in
    let max_block := clamp_block max_block in
    match find_free b starting_block (Z.to_nat (max_block - starting_block)) with
    | Some i => i
    | None => default 0xFFFF (find_free b MC_FST_BLOCKS (Z.to_nat (starting_block - MC_FST_BLOCKS)))
    end
  else 0xFFFF.

(** The loop of [ClearBlocks]: the blocks and the end of the chain, or [None]
    when the fuel is used up. *)
Fixpoint chain_blocks (b : BlockAlloc) (fuel : nat) (block : Z) : option (list Z * Z) :=
  if negb (block =? 0xFFFF) && negb (block =? 0) then
    match fuel with
    | O => None
    | S fuel' => prod_map (cons block) id <$> chain_blocks b fuel' (GetNextBlock b block)
    end
  else Some ([], block).
Definition clear_block (m : list Z) (block : Z) : list Z := <[Z.to_nat (block - MC_FST_BLOCKS) := 0]> m.
(** No chain of different blocks is longer than the table. *)
Definition ClearBlocks (starting_block block_count : Z) (b : BlockAlloc) : option (bool * BlockAlloc) :=
  match chain_blocks b (Datatypes.S (Z.to_nat BAT_SIZE)) starting_block with
  | None => None
  | Some (blocks, last) =>
      if (0 <? last) && (Z.of_nat (length blocks) =? block_count) then
        Some (true, set_free_blocks (u16 (m_free_blocks b + block_count)) (set_map (fold_left clear_block blocks (m_map b)) b))
      else Some (false, b)
  end.
(** [None] is an index outside the table. *)
Fixpoint assign_contiguous (n : nat) (current : Z) (m : list Z) : option (list Z) :=
  match n with
  | O => zset m (current - 5) 0xFFFF
  | S n' => m ← zset m (current - 5) (u16 (current + 1)); assign_contiguous n' (current + 1) m
  end.
Definition AssignBlocksContiguous (length : Z) (b : BlockAlloc) : option (Z * BlockAlloc) :=
  let starting := u16 (m_last_allocated_block b + 1) in
  if m_free_blocks b <? length then Some (0xFFFF, b)
  else
    let n := Z.to_nat (length - 1) in
    m ← assign_contiguous n starting (m_map b);
    Some (starting, BlockAlloc_FixChecksums (set_free_blocks (m_free_blocks b - length)
      (set_last_allocated (starting + Z.of_nat n) (set_map m b)))).

Definition BlockAlloc_CheckForErrors (size_mbits : Z) (b : BlockAlloc) : GCMemcardErrorCode :=
  let '(checksum_sum, checksum_inv) := BlockAlloc_CalculateChecksums b in
  let e := Set_if (negb (checksum_sum =? b_checksum b) || negb (checksum_inv =? b_checksum_inv b)) INVALID_CHECKSUM 0 in
  if (0 <? size_mbits) && (size_mbits <=? 256) then
    let total_available_blocks := size_mbits * MBIT_TO_BLOCKS - MC_FST_BLOCKS in
    let blocks_in_use := Z.of_nat (length (List.filter (fun v => negb (v =? 0)) (take (Z.to_nat total_available_blocks) (m_map b)))) in
    let free_blocks := total_available_blocks - blocks_in_use in
    let e := Set_if (negb (free_blocks =? m_free_blocks b)) FREE_BLOCK_MISMATCH e in
    Set_if (existsb (fun v => negb (v =? 0)) (drop (Z.to_nat total_available_blocks) (m_map b))) DATA_IN_UNUSED_AREA e
  else Set_ INVALID_CARD_SIZE e.

(** ** The directory *)

Definition Directory_CalculateChecksums (d : Directory) : Z * Z :=
  CalculateMemcardChecksums (take (Z.to_nat 0x1ffc) (to_bytes Directory_layout d)).
Definition Directory_FixChecksums (d : Directory) : Directory :=
  let '(sum, inv) := Directory_CalculateChecksums d in
  mkDirectory (m_dir_entries d) (m_padding d) (d_update_counter d) sum inv.
Definition empty_Directory : Directory :=
  mkDirectory (replicate (Z.to_nat DIRLEN) empty_DEntry) (replicate (Z.to_nat 0x3a) 0xFF) 0 (swap16 0xF003) 0.
Definition Replace (entry : DEntry) (index : Z) (d : Directory) : bool * Directory :=
  if Z.of_nat (length (m_dir_entries d)) <=? index then (false, d)
  else (true, Directory_FixChecksums (set_dir_entries (<[Z.to_nat index := entry]> (m_dir_entries d)) d)).
Definition Directory_CheckForErrors (d : Directory) : GCMemcardErrorCode :=
  let '(checksum_sum, checksum_inv) := Directory_CalculateChecksums d in
  let e := Set_if (negb (checksum_sum =? d_checksum d) || negb (checksum_inv =? d_checksum_inv d)) INVALID_CHECKSUM 0 in
  Set_if (existsb (fun val => negb (val =? 0xFF)) (m_padding d)) DATA_IN_UNUSED_AREA e.

Definition used (entry : DEntry) : bool := negb (bool_decide (m_gamecode entry = UNINITIALIZED_GAMECODE)).
(** The walk over a file's blocks; every turn uses one up, so [n] turns of them suffice. *)
Fixpoint bat_block_count_matches (bat : BlockAlloc) (n : nat) (current_block : Z) : bool :=
  match n with
  | O => false
  | S remaining_blocks =>
      let next_block := GetNextBlock bat current_block in
      if next_block =? 0 then false
      else if next_block =? 0xFFFF then (remaining_blocks =? 0)%nat
      else bat_block_count_matches bat remaining_blocks next_block
  end.
Definition entry_matches (bat : BlockAlloc) (entry : DEntry) : bool :=
  negb (used entry) || bat_block_count_matches bat (Z.to_nat (m_block_count entry)) (m_first_block entry).
Definition CheckForErrorsWithBat (bat : BlockAlloc) (d : Directory) : GCMemcardErrorCode :=
  Set_if (negb (forallb (entry_matches bat) (m_dir_entries d))) DIR_BAT_INCONSISTENT 0.

(** ** Identity of files (GCMemcardUtils.cpp) *)

Fixpoint same_filename (a b : list Z) : bool :=
  match a, b with
  | x :: a', y :: b' => if x =? 0 then y =? 0 else (x =? y) && same_filename a' b'
  | _, _ => true
  end.
Definition HasSameIdentity (lhs rhs : DEntry) : bool :=
  bool_decide (m_gamecode lhs = m_gamecode rhs) && bool_decide (m_makercode lhs = m_makercode rhs) &&
  same_filename (m_filename lhs) (m_filename rhs).
