(* ===== verification/GCMemcard.v ===== *)
(** * Memory cards (HW/GCMemcard/GCMemcard.cpp, GCMemcardUtils.cpp)

    A card holds two copies of its directory and of its block allocation table;
    a change overwrites the copy that is not in use.  The operations of
    [GCMemcard] on the card in memory, the image of a card in a file and the
    three formats of single files.  Comments, banners and icons are left out. *)
From S2P Require Export GCMemcardData.

(** [m_filename], which only names the file on the host, is left out. *)
Record GCMemcard := mkCard {
  m_valid : bool;
  m_size_blocks : Z;
  m_size_mb : Z;
  m_header_block : Header;
  m_directory_blocks : Directory * Directory;
  m_bat_blocks : BlockAlloc * BlockAlloc;
  m_data_blocks : list (list Z);
  m_active_directory : Z;
  m_active_bat : Z
}.
(** A file outside of a card. *)
Record Savefile := mkSavefile { dir_entry : DEntry; blocks : list (list Z) }.

Definition with_directories d active c := mkCard (m_valid c) (m_size_blocks c) (m_size_mb c) (m_header_block c) d
  (m_bat_blocks c) (m_data_blocks c) active (m_active_bat c).
Definition with_bats b active c := mkCard (m_valid c) (m_size_blocks c) (m_size_mb c) (m_header_block c)
  (m_directory_blocks c) b (m_data_blocks c) (m_active_directory c) active.
Definition with_data d c := mkCard (m_valid c) (m_size_blocks c) (m_size_mb c) (m_header_block c)
  (m_directory_blocks c) (m_bat_blocks c) d (m_active_directory c) (m_active_bat c).
Definition with_header h c := mkCard (m_valid c) (m_size_blocks c) (m_size_mb c) h (m_directory_blocks c)
  (m_bat_blocks c) (m_data_blocks c) (m_active_directory c) (m_active_bat c).

Definition copy_of {A} (index : Z) (p : A * A) : A := if index =? 0 then fst p else snd p.
Definition put_copy {A} (index : Z) (a : A) (p : A * A) : A * A := if index =? 0 then (a, snd p) else (fst p, a).
Definition GetActiveDirectory (c : GCMemcard) : Directory := copy_of (m_active_directory c) (m_directory_blocks c).
Definition GetActiveBat (c : GCMemcard) : BlockAlloc := copy_of (m_active_bat c) (m_bat_blocks c).
Definition UpdateDirectory (directory : Directory) (c : GCMemcard) : GCMemcard :=
  let new_directory_index := if m_active_directory c =? 0 then 1 else 0 in
  with_directories (put_copy new_directory_index directory (m_directory_blocks c)) new_directory_index c.
Definition UpdateBat (bat : BlockAlloc) (c : GCMemcard) : GCMemcard :=
  let new_bat_index := if m_active_bat c =? 0 then 1 else 0 in
  with_bats (put_copy new_bat_index bat (m_bat_blocks c)) new_bat_index c.
Definition FixChecksums (c : GCMemcard) : bool * GCMemcard :=
  if negb (m_valid c) then (false, c)
  else (true, mkCard (m_valid c) (m_size_blocks c) (m_size_mb c) (Header_FixChecksums (m_header_block c))
    (prod_map Directory_FixChecksums Directory_FixChecksums (m_directory_blocks c))
    (prod_map BlockAlloc_FixChecksums BlockAlloc_FixChecksums (m_bat_blocks c))
    (m_data_blocks c) (m_active_directory c) (m_active_bat c)).

(** ** The image of a card *)

Definition Save (c : GCMemcard) : list Z :=
  to_bytes Header_layout (m_header_block c) ++
  to_bytes Directory_layout (fst (m_directory_blocks c)) ++ to_bytes Directory_layout (snd (m_directory_blocks c)) ++
  to_bytes BlockAlloc_layout (fst (m_bat_blocks c)) ++ to_bytes BlockAlloc_layout (snd (m_bat_blocks c)) ++
  concat (take (Z.to_nat (m_size_blocks c - MC_FST_BLOCKS)) (m_data_blocks c)).

Definition BytesToMegabits (bytes : Z) : option Z :=
  let factor := (1024 * 1024) / 8 in
  if negb (bytes mod factor =? 0) then None else Some (bytes / factor).
Definition valid_megabits : list Z :=
  [MBIT_SIZE_MEMORY_CARD_59; MBIT_SIZE_MEMORY_CARD_123; MBIT_SIZE_MEMORY_CARD_251; MBIT_SIZE_MEMORY_CARD_507;
   MBIT_SIZE_MEMORY_CARD_1019; MBIT_SIZE_MEMORY_CARD_2043].

(** [File::IOFile::ReadBytes]: the bytes and the rest of the file. *)
Definition ReadBytes (n : Z) (file : list Z) : option (list Z * list Z) :=
  if (Z.of_nat (length file) <? n) then None else Some (take (Z.to_nat n) file, drop (Z.to_nat n) file).
Fixpoint ReadBlocks (n : nat) (file : list Z) : option (list (list Z)) :=
  match n with
  | O => Some []
  | S n' => '(block, file) ← ReadBytes BLOCK_SIZE file; bs ← ReadBlocks n' file; Some (block :: bs)
  end.

(** The card as it is read, before the checks. *)
Definition read_card (card_size_mbits : Z) (file : list Z) : option GCMemcard :=
  '(header, file) ← ReadBytes BLOCK_SIZE file;
  '(dir0, file) ← ReadBytes BLOCK_SIZE file;
  '(dir1, file) ← ReadBytes BLOCK_SIZE file;
  '(bat0, file) ← ReadBytes BLOCK_SIZE file;
  '(bat1, file) ← ReadBytes BLOCK_SIZE file;
  let card_size_blocks := card_size_mbits * MBIT_TO_BLOCKS in
  data ← ReadBlocks (Z.to_nat (card_size_blocks - MC_FST_BLOCKS)) file;
  Some (mkCard false card_size_blocks card_size_mbits (of_bytes Header_layout header)
    (of_bytes Directory_layout dir0, of_bytes Directory_layout dir1)
    (of_bytes BlockAlloc_layout bat0, of_bytes BlockAlloc_layout bat1) data 0 0).

(** A copy from the other block of its kind. *)
Definition recovered_dir (d : Directory) : Directory := Directory_FixChecksums (set_dir_counter (s16 (d_update_counter d + 1)) d).
Definition recovered_bat (b : BlockAlloc) : BlockAlloc := BlockAlloc_FixChecksums (set_bat_counter (s16 (b_update_counter b + 1)) b).
(** When exactly one block is corrupted, the first that is not valid is replaced. *)
Definition recover (dir0 dir1 bat0 bat1 : bool) (c : GCMemcard) : GCMemcard :=
  let '(d0, d1) := m_directory_blocks c in
  let '(b0, b1) := m_bat_blocks c in
  if negb dir0 then with_directories (recovered_dir d1, d1) (m_active_directory c) c
  else if negb dir1 then with_directories (d0, recovered_dir d0) (m_active_directory c) c
  else if negb bat0 then with_bats (recovered_bat b1, b1) (m_active_bat c) c
  else if negb bat1 then with_bats (b0, recovered_bat b0) (m_active_bat c) c
  else c.
(** The copies in use: the first one unless the second has the higher counter. *)
Definition select_active (c : GCMemcard) : GCMemcard :=
  let active_directory :=
    if d_update_counter (snd (m_directory_blocks c)) <=? d_update_counter (fst (m_directory_blocks c)) then 0 else 1 in
  let active_bat := if b_update_counter (snd (m_bat_blocks c)) <=? b_update_counter (fst (m_bat_blocks c)) then 0 else 1 in
  with_bats (m_bat_blocks c) active_bat (with_directories (m_directory_blocks c) active_directory c).
Definition validated (c : GCMemcard) : GCMemcard :=
  mkCard true (m_size_blocks c) (m_size_mb c) (m_header_block c) (m_directory_blocks c) (m_bat_blocks c)
    (m_data_blocks c) (m_active_directory c) (m_active_bat c).
(** The errors of the four blocks. *)
Definition block_errors (card_size_mbits : Z) (c : GCMemcard) : Z * Z * Z * Z :=
  (Directory_CheckForErrors (fst (m_directory_blocks c)), Directory_CheckForErrors (snd (m_directory_blocks c)),
   BlockAlloc_CheckForErrors card_size_mbits (fst (m_bat_blocks c)),
   BlockAlloc_CheckForErrors card_size_mbits (snd (m_bat_blocks c))).
Definition all_errors (e : GCMemcardErrorCode) (p : Z * Z * Z * Z) : GCMemcardErrorCode :=
  let '(d0, d1, b0, b1) := p in e .| d0 .| d1 .| b0 .| b1.
Definition check_card (card_size_mbits : Z) (card : GCMemcard) : GCMemcardErrorCode * option GCMemcard :=
  let error_code := Header_CheckForErrors card_size_mbits (m_header_block card) in
  if HasCriticalErrors error_code then (error_code, None)
  else
    let errors := block_errors card_size_mbits card in
    let '(d0, d1, b0, b1) := errors in
    let dir0 := negb (HasCriticalErrors d0) in let dir1 := negb (HasCriticalErrors d1) in
    let bat0 := negb (HasCriticalErrors b0) in let bat1 := negb (HasCriticalErrors b1) in
    let number_of_corrupted_dir_bat_blocks := length (List.filter negb [dir0; dir1; bat0; bat1]) in
    if (1 <? number_of_corrupted_dir_bat_blocks)%nat then (all_errors error_code errors, None)
    else
      let card := if (number_of_corrupted_dir_bat_blocks =? 1)%nat then recover dir0 dir1 bat0 bat1 card else card in
      let error_code := all_errors error_code (block_errors card_size_mbits card) in
      let card := select_active card in
      let error_code := error_code .| CheckForErrorsWithBat (GetActiveBat card) (GetActiveDirectory card) in
      if HasCriticalErrors error_code then (error_code, None) else (error_code, Some (validated card)).
(** [None] is a file that cannot be opened. *)
Definition Open (file : option (list Z)) : GCMemcardErrorCode * option GCMemcard :=
  match file with
  | None => (Set_ FAILED_TO_OPEN 0, None)
  | Some file =>
      let filesize_megabits := default 0 (BytesToMegabits (Z.of_nat (length file))) in
      if negb (existsb (Z.eqb filesize_megabits) valid_megabits) then (Set_ INVALID_CARD_SIZE 0, None)
      else
        match read_card (u16 filesize_megabits) file with
        | None => (Set_ IO_ERROR 0, None)
        | Some card => check_card (u16 filesize_megabits) card
        end
  end.

Definition erased_block : list Z := replicate (Z.to_nat BLOCK_SIZE) 0xFF.
(** [Format] without the write to the file. *)
Definition Format (flash_id : list Z) (size_mbits : Z) (shift_jis : bool) (rtc_bias sram_language format_time : Z) : GCMemcard :=
  let size_blocks := u32 (size_mbits * MBIT_TO_BLOCKS) in
  mkCard true size_blocks size_mbits
    (Header_of (InitializeHeaderData flash_id size_mbits shift_jis rtc_bias sram_language format_time))
    (empty_Directory, empty_Directory) (BlockAlloc_of size_mbits, BlockAlloc_of size_mbits)
    (replicate (Z.to_nat (size_blocks - MC_FST_BLOCKS)) erased_block) 0 0.

(** ** Looking at the files of a card *)

Definition entries (c : GCMemcard) : list DEntry := m_dir_entries (GetActiveDirectory c).
Definition GetNumFiles (c : GCMemcard) : Z :=
  if negb (m_valid c) then 0 else Z.of_nat (length (List.filter used (entries c))).
(** The index of the entry that has [fileNumber] used ones before it. *)
Fixpoint nth_used (i fileNumber : Z) (l : list DEntry) : Z :=
  match l with
  | [] => 0xFF
  | e :: l' =>
      if used e then if fileNumber =? 0 then i else nth_used (i + 1) (fileNumber - 1) l'
      else nth_used (i + 1) fileNumber l'
  end.
Definition GetFileIndex (fileNumber : Z) (c : GCMemcard) : Z :=
  if m_valid c then nth_used 0 fileNumber (entries c) else 0xFF.
Definition GetFreeBlocks (c : GCMemcard) : Z := if negb (m_valid c) then 0 else m_free_blocks (GetActiveBat c).
(** The first entry that satisfies [f]. *)
Fixpoint find_entry (f : DEntry -> bool) (i : Z) (l : list DEntry) : option Z :=
  match l with [] => None | e :: l' => if f e then Some i else find_entry f (i + 1) l' end.
Definition TitlePresent (d : DEntry) (c : GCMemcard) : option Z :=
  if negb (m_valid c) then None else find_entry (fun e => HasSameIdentity e d) 0 (entries c).
(** An entry by its index, which is a [u8]. *)
Definition GetDEntry (index : Z) (c : GCMemcard) : option DEntry :=
  if negb (m_valid c) || (DIRLEN <=? index) then None else entries c !! Z.to_nat index.
Definition DEntry_IsPingPong (index : Z) (c : GCMemcard) : bool :=
  match GetDEntry index c with Some e => negb (m_banner_and_icon_flags e .& 0x4 =? 0) | None => false end.
Definition DEntry_FirstBlock (index : Z) (c : GCMemcard) : Z :=
  match GetDEntry index c with
  | Some e => if u16 (m_size_blocks c) <? m_first_block e then 0xFFFF else m_first_block e
  | None => 0xFFFF
  end.
Definition DEntry_BlockCount (index : Z) (c : GCMemcard) : Z :=
  match GetDEntry index c with
  | Some e => if u16 (m_size_blocks c) <? m_block_count e then 0xFFFF else m_block_count e
  | None => 0xFFFF
  end.

Inductive GCMemcardGetSaveDataRetVal := SaveData_SUCCESS | SaveData_FAIL | SaveData_NOMEMCARD.
Inductive GCMemcardImportFileRetVal :=
  | Import_SUCCESS
  | Import_NOMEMCARD
  | Import_OUTOFDIRENTRIES
  | Import_OUTOFBLOCKS
  | Import_TITLEPRESENT.
Inductive GCMemcardRemoveFileRetVal := Remove_SUCCESS | Remove_NOMEMCARD | Remove_DELETE_FAIL.

(** [m_data_blocks[block - MC_FST_BLOCKS]] *)
Definition data_block (c : GCMemcard) (block : Z) : option (list Z) := zget (m_data_blocks c) (block - MC_FST_BLOCKS).

(** The loop of [GetSaveData]: a block outside the card is an index outside the
    vector. *)
Fixpoint save_blocks (c : GCMemcard) (n : nat) (nextBlock : Z) (Blocks : list (list Z)) :
    outcome unit (GCMemcardGetSaveDataRetVal * list (list Z)) :=
  match n with
  | O => Done (SaveData_SUCCESS, Blocks) tt
  | S n' =>
      if (nextBlock =? 0) || (nextBlock =? 0xFFFF) then Done (SaveData_FAIL, Blocks) tt
      else
        match data_block c nextBlock with
        | None => Fault ArrayBounds
        | Some b => save_blocks c n' (GetNextBlock (GetActiveBat c) nextBlock) (Blocks ++ [b])
        end
  end.
Definition GetSaveData (index : Z) (c : GCMemcard) : outcome unit (GCMemcardGetSaveDataRetVal * list (list Z)) :=
  if negb (m_valid c) then Done (SaveData_NOMEMCARD, []) tt
  else
    let block := DEntry_FirstBlock index c in
    let BlockCount := DEntry_BlockCount index c in
    if (block =? 0xFFFF) || (BlockCount =? 0xFFFF) then Done (SaveData_FAIL, []) tt
    else save_blocks c (Z.to_nat BlockCount) block [].
Definition ExportFile (index : Z) (c : GCMemcard) : outcome unit (option Savefile) :=
  match GetDEntry index c with
  | None => Done None tt
  | Some e =>
      if negb (used e) then Done None tt
      else
        match GetSaveData index c with
        | Done (SaveData_SUCCESS, blocks) _ => Done (Some (mkSavefile e blocks)) tt
        | Done _ _ => Done None tt
        | Fault f => Fault f
        end
  end.

(** *** Bytes of a file *)

Definition in_data_area (c : GCMemcard) (block : Z) : bool :=
  (MC_FST_BLOCKS <=? block) && (block <? MC_FST_BLOCKS + Z.of_nat (length (m_data_blocks c))).
(** [n] blocks are skipped. *)
Fixpoint skip_blocks (c : GCMemcard) (n : nat) (current_block : Z) : option Z :=
  match n with
  | O => Some current_block
  | S n' =>
      let current_block := GetNextBlock (GetActiveBat c) current_block in
      if in_data_area c current_block then skip_blocks c n' current_block else None
  end.
(** The copying loop; every turn but the first takes a whole block or ends it. *)
Fixpoint copy_blocks (c : GCMemcard) (fuel : nat) (current_block offset_in_current_block bytes_remaining : Z)
    (result : list Z) : option (list Z) :=
  match fuel with
  | O => None
  | S fuel' =>
      let block := default [] (data_block c current_block) in
      let to_copy := Z.min bytes_remaining (BLOCK_SIZE - offset_in_current_block) in
      let result := result ++ take (Z.to_nat to_copy) (drop (Z.to_nat offset_in_current_block) block) in
      let bytes_remaining := bytes_remaining - to_copy in
      if bytes_remaining =? 0 then Some result
      else
        let current_block := GetNextBlock (GetActiveBat c) current_block in
        if in_data_area c current_block then copy_blocks c fuel' current_block 0 bytes_remaining result else None
  end.
Definition GetSaveDataBytes (save_index offset length : Z) (c : GCMemcard) : option (list Z) :=
  match GetDEntry save_index c with
  | None => None
  | Some entry =>
      let block_count := m_block_count entry in
      let first_block := m_first_block entry in
      if (block_count =? 0xFFFF) || negb (in_data_area c first_block) then None
      else
        let file_size := u32 (block_count * BLOCK_SIZE) in
        if file_size <=? offset then None
        else
          let bytes_to_copy := Z.min length (file_size - offset) in
          match skip_blocks c (Z.to_nat (offset / BLOCK_SIZE)) first_block with
          | None => None
          | Some current_block =>
              copy_blocks c (S (Z.to_nat (bytes_to_copy / BLOCK_SIZE) + 1)) current_block (offset mod BLOCK_SIZE) bytes_to_copy []
          end
  end.

(** ** Files that are bound to their card *)

(** [strcmp(s, literal) == 0]: the comparison ends at the literal's terminator. *)
Definition strcmp_eq (s literal : list Z) : bool :=
  bool_decide (take (S (length literal)) s = literal ++ [0]).
Definition f_zero_dat : list Z := [0x66; 0x5f; 0x7a; 0x65; 0x72; 0x6f; 0x2e; 0x64; 0x61; 0x74].
Definition PSO_SYSTEM : list Z := [0x50; 0x53; 0x4f; 0x5f; 0x53; 0x59; 0x53; 0x54; 0x45; 0x4d].
Definition PSO3_SYSTEM : list Z := [0x50; 0x53; 0x4f; 0x33; 0x5f; 0x53; 0x59; 0x53; 0x54; 0x45; 0x4d].
(** What [strcmp] reads of an entry from its file name on. *)
Definition name_bytes (e : DEntry) : list Z := drop 8 (to_bytes DEntry_layout e).

(** Bytes stored into one of the blocks; [None] is a missing block. *)
Definition put_bytes (block offset : Z) (v : list Z) (FileBuffer : list (list Z)) : option (list (list Z)) :=
  b ← zget FileBuffer block;
  zset FileBuffer block (take (Z.to_nat offset) b ++ v ++ drop (Z.to_nat offset + length v) b).
(** A step of a cyclic redundancy check with a reflected polynomial. *)
Fixpoint crc_steps (n : nat) (poly chksum : Z) : Z :=
  match n with
  | O => chksum
  | S n' => crc_steps n' poly (if Z.odd chksum then (chksum .>> 1) .^ poly else chksum .>> 1)
  end.
Definition fzero_checksum (data : list Z) : Z :=
  fold_left (fun chksum b => crc_steps 8 0x8408 (chksum .^ (b .& 0xFF))) data 0xFFFF.
Definition FZEROGX_MakeSaveGameValid (cardheader : Header) (direntry : DEntry) (FileBuffer : list (list Z)) :
    option (list (list Z)) :=
  if negb (strcmp_eq (name_bytes direntry) f_zero_dat) then Some FileBuffer
  else if negb (length FileBuffer =? 4)%nat then Some FileBuffer
  else
    let '(serial1, serial2) := CalculateSerial cardheader in
    fb ← put_bytes 1 0x0066 (to_be 2 (u16 (swap32 serial1 .>> 16))) FileBuffer;
    fb ← put_bytes 3 0x1580 (to_be 2 (u16 (swap32 serial2 .>> 16))) fb;
    fb ← put_bytes 1 0x0060 (to_be 2 (u16 (swap32 serial1 .& 0xFFFF))) fb;
    fb ← put_bytes 1 0x0200 (to_be 2 (u16 (swap32 serial2 .& 0xFFFF))) fb;
    put_bytes 0 0 (to_be 2 (u16 (.~ fzero_checksum (drop 2 (concat fb))))) fb.
Definition pso_checksum (data : list Z) : Z :=
  fold_left (fun chksum b => ((chksum .>> 8) .& 0xFFFFFF) .^ crc_steps 8 0xEDB88320 ((chksum .^ b) .& 0xFF)) data 0xDEBB20E3.
Definition PSO_MakeSaveGameValid (cardheader : Header) (direntry : DEntry) (FileBuffer : list (list Z)) :
    option (list (list Z)) :=
  let pso := strcmp_eq (name_bytes direntry) PSO_SYSTEM in
  let pso3 := strcmp_eq (name_bytes direntry) PSO3_SYSTEM in
  if negb pso && negb pso3 then Some FileBuffer
  else
    let pso3offset := if pso then 0 else 0x10 in
    let '(serial1, serial2) := CalculateSerial cardheader in
    fb ← put_bytes 1 0x0158 (rev (to_be 4 serial1)) FileBuffer;
    fb ← put_bytes 1 0x015C (rev (to_be 4 serial2)) fb;
    b ← zget fb 1;
    let chksum := pso_checksum (take (Z.to_nat (0x0164 + pso3offset - 0x004C)) (drop (Z.to_nat 0x004C) b)) in
    put_bytes 1 0x0048 (to_be 4 (chksum .^ 0xFFFFFFFF)) fb.

(** ** Changing a card *)

(** The directory with the new file in its first free entry. *)
Definition add_entry (direntry : DEntry) (firstBlock : Z) (d : Directory) : Directory :=
  let d :=
    match find_entry (fun e => negb (used e)) 0 (m_dir_entries d) with
    | Some i =>
        let e := set_first_block firstBlock direntry in
        set_dir_entries (<[Z.to_nat i := set_copy_counter (u8 (m_copy_counter e + 1)) e]> (m_dir_entries d)) d
    | None => d
    end in
  set_dir_counter (s16 (d_update_counter d + 1)) d.
(** The copying loop, over the blocks of the file: the data and the table. *)
Fixpoint import_blocks (max_block : Z) (n : nat) (file_blocks : list (list Z)) (firstBlock : Z)
    (data : list (list Z)) (bat : BlockAlloc) : option (list (list Z) * BlockAlloc) :=
  match n with
  | O => Some (data, bat)
  | S n' =>
      b ← head file_blocks;
      data ← zset data (firstBlock - MC_FST_BLOCKS) b;
      let nextBlock := if (n' =? 0)%nat then 0xFFFF else NextFreeBlock max_block (u16 (firstBlock + 1)) bat in
      m ← zset (m_map bat) (firstBlock - MC_FST_BLOCKS) nextBlock;
      import_blocks max_block n' (tail file_blocks) nextBlock data (set_last_allocated firstBlock (set_map m bat))
  end.
Definition ImportFile (savefile : Savefile) : M GCMemcard GCMemcardImportFileRetVal := fun c =>
  let direntry := dir_entry savefile in
  if negb (m_valid c) then Done Import_NOMEMCARD c
  else if DIRLEN <=? GetNumFiles c then Done Import_OUTOFDIRENTRIES c
  else if m_free_blocks (GetActiveBat c) <? m_block_count direntry then Done Import_OUTOFBLOCKS c
  else
    match TitlePresent direntry c with
    | Some _ => Done Import_TITLEPRESENT c
    | None =>
        let firstBlock := NextFreeBlock (m_size_blocks c) (m_last_allocated_block (GetActiveBat c)) (GetActiveBat c) in
        if firstBlock =? 0xFFFF then Done Import_OUTOFBLOCKS c
        else
          let c := UpdateDirectory (add_entry direntry firstBlock (GetActiveDirectory c)) c in
          let fileBlocks := Z.to_nat (m_block_count direntry) in
          match
            blocks ← FZEROGX_MakeSaveGameValid (m_header_block c) direntry (blocks savefile);
            blocks ← PSO_MakeSaveGameValid (m_header_block c) direntry blocks;
            import_blocks (m_size_blocks c) fileBlocks blocks firstBlock (m_data_blocks c) (GetActiveBat c)
          with
          | None => Fault ArrayBounds
          | Some (data, UpdatedBat) =>
              let UpdatedBat := set_free_blocks (u16 (m_free_blocks UpdatedBat - m_block_count direntry)) UpdatedBat in
              let UpdatedBat := set_bat_counter (s16 (b_update_counter UpdatedBat + 1)) UpdatedBat in
              Done Import_SUCCESS (snd (FixChecksums (UpdateBat UpdatedBat (with_data data c))))
          end
    end.
(** [OutOfFuel]: the file's chain of blocks has no end. *)
Definition RemoveFile (index : Z) : M GCMemcard GCMemcardRemoveFileRetVal := fun c =>
  if negb (m_valid c) then Done Remove_NOMEMCARD c
  else
    match GetDEntry index c with
    | None => Done Remove_DELETE_FAIL c
    | Some e =>
        match ClearBlocks (m_first_block e) (m_block_count e) (GetActiveBat c) with
        | None => Fault OutOfFuel
        | Some (false, _) => Done Remove_DELETE_FAIL c
        | Some (true, UpdatedBat) =>
            let c := UpdateBat (set_bat_counter (s16 (b_update_counter UpdatedBat + 1)) UpdatedBat) c in
            let UpdatedDir := GetActiveDirectory c in
            let UpdatedDir := set_dir_entries (<[Z.to_nat index := empty_DEntry]> (m_dir_entries UpdatedDir)) UpdatedDir in
            let UpdatedDir := set_dir_counter (s16 (d_update_counter UpdatedDir + 1)) UpdatedDir in
            Done Remove_SUCCESS (snd (FixChecksums (UpdateDirectory UpdatedDir c)))
        end
    end.

(** ** Files outside of a card (GCMemcardUtils.cpp) *)

Definition HasDuplicateIdentity (savefiles : list Savefile) : bool :=
  (fix go (l : list Savefile) :=
     match l with
     | [] => false
     | s :: l' => existsb (fun t => HasSameIdentity (dir_entry s) (dir_entry t)) l' || go l'
     end) savefiles.
Definition GetBlockCount (savefiles : list Savefile) : nat := sum_list_with (fun s => length (blocks s)) savefiles.
(** No files when one of them cannot be read. *)
Fixpoint GetSavefiles (c : GCMemcard) (file_indices : list Z) : outcome unit (list Savefile) :=
  match file_indices with
  | [] => Done [] tt
  | index :: rest =>
      match ExportFile index c with
      | Done (Some file) _ =>
          match GetSavefiles c rest with
          | Done files _ => Done (if (length files =? length rest)%nat then file :: files else []) tt
          | Fault f => Fault f
          end
      | Done None _ => Done [] tt
      | Fault f => Fault f
      end
  end.

Inductive ReadSavefileErrorCode := OpenFileFail | IOError | DataCorrupted.
Inductive SavefileFormat := GCI | GCS | SAV.
Definition GCI_HEADER_SIZE : Z := DENTRY_SIZE.
Definition SAV_MAGIC : list Z := [0x44; 0x41; 0x54; 0x45; 0x4C; 0x47; 0x43; 0x5F; 0x53; 0x41; 0x56; 0x45].
Definition SAV_HEADER_SIZE : Z := 0xC0.
Definition SAV_DENTRY_OFFSET : Z := 0x80.
Definition GCS_FILE_MAGIC : list Z := [0x47; 0x43; 0x53; 0x41; 0x56; 0x45].
Definition GCS_HEADER_SIZE : Z := 0x150.
Definition GCS_DENTRY_OFFSET : Z := 0x110.

(** [std::swap(entry[p], entry[p + 1])] *)
Definition swap_bytes (entry : list Z) (p : nat) : list Z :=
  match entry !! p, entry !! S p with
  | Some a, Some b => <[p := b]> (<[S p := a]> entry)
  | _, _ => entry
  end.
Definition ByteswapDEntrySavHeader (entry : list Z) : list Z :=
  fold_left swap_bytes [0x06; 0x2C; 0x2E; 0x30; 0x32; 0x34; 0x36; 0x38; 0x3A; 0x3C; 0x3E]%nat entry.
Definition entry_bytes_at (offset : Z) (header : list Z) : list Z :=
  take (Z.to_nat DENTRY_SIZE) (drop (Z.to_nat offset) header).
Definition ExtractDEntryFromSavHeader (sav_header : list Z) : DEntry :=
  of_bytes DEntry_layout (ByteswapDEntrySavHeader (entry_bytes_at SAV_DENTRY_OFFSET sav_header)).
(** [std::memcpy] into a header. *)
Definition put_at (offset : Z) (v header : list Z) : list Z :=
  take (Z.to_nat offset) header ++ v ++ drop (Z.to_nat offset + length v) header.
Definition InjectDEntryToSavHeader (sav_header : list Z) (e : DEntry) : list Z :=
  put_at SAV_DENTRY_OFFSET (ByteswapDEntrySavHeader (to_bytes DEntry_layout e)) sav_header.

Definition has_magic (magic header : list Z) : bool := bool_decide (take (length magic) header = magic).
Definition read_blocks_of (e : DEntry) (block_count : Z) (file : list Z) : ReadSavefileErrorCode + Savefile :=
  match ReadBlocks (Z.to_nat block_count) file with
  | Some blocks => inr (mkSavefile e blocks)
  | None => inl IOError
  end.
Definition ReadSavefileInternalGCI (file : list Z) (filesize : Z) : ReadSavefileErrorCode + Savefile :=
  match ReadBytes DENTRY_SIZE file with
  | None => inl IOError
  | Some (header, file) =>
      let e := of_bytes DEntry_layout header in
      if negb (DENTRY_SIZE + m_block_count e * BLOCK_SIZE =? filesize) then inl DataCorrupted
      else read_blocks_of e (m_block_count e) file
  end.
Definition ReadSavefileInternalGCS (file : list Z) (filesize : Z) : ReadSavefileErrorCode + Savefile :=
  match ReadBytes GCS_HEADER_SIZE file with
  | None => inl IOError
  | Some (gcs_header, file) =>
      if negb (has_magic GCS_FILE_MAGIC gcs_header) then inl DataCorrupted
      else
        let e := of_bytes DEntry_layout (entry_bytes_at GCS_DENTRY_OFFSET gcs_header) in
        let total_block_size := u64 (filesize - GCS_HEADER_SIZE) in
        if negb (total_block_size mod BLOCK_SIZE =? 0) then inl DataCorrupted
        else
          let block_count := total_block_size / BLOCK_SIZE in
          read_blocks_of (set_block_count (u16 block_count) e) block_count file
  end.
Definition ReadSavefileInternalSAV (file : list Z) (filesize : Z) : ReadSavefileErrorCode + Savefile :=
  match ReadBytes SAV_HEADER_SIZE file with
  | None => inl IOError
  | Some (sav_header, file) =>
      if negb (has_magic SAV_MAGIC sav_header) then inl DataCorrupted
      else
        let e := ExtractDEntryFromSavHeader sav_header in
        if negb (SAV_HEADER_SIZE + m_block_count e * BLOCK_SIZE =? filesize) then inl DataCorrupted
        else read_blocks_of e (m_block_count e) file
  end.
(** The size of the header tells the formats apart; [None] is a file that cannot be opened. *)
Definition ReadSavefile (file : option (list Z)) : ReadSavefileErrorCode + Savefile :=
  match file with
  | None => inl OpenFileFail
  | Some file =>
      let filesize := Z.of_nat (length file) in
      let header_size := filesize mod BLOCK_SIZE in
      if header_size =? GCI_HEADER_SIZE then ReadSavefileInternalGCI file filesize
      else if header_size =? GCS_HEADER_SIZE then ReadSavefileInternalGCS file filesize
      else if header_size =? SAV_HEADER_SIZE then ReadSavefileInternalSAV file filesize
      else inl DataCorrupted
  end.

Definition WriteSavefileInternalGCI (s : Savefile) : list Z := to_bytes DEntry_layout (dir_entry s) ++ concat (blocks s).
Definition WriteSavefileInternalGCS (s : Savefile) : list Z :=
  let header := put_at 0 GCS_FILE_MAGIC (replicate (Z.to_nat GCS_HEADER_SIZE) 0) in
  put_at GCS_DENTRY_OFFSET (to_bytes DEntry_layout (set_block_count 1 (dir_entry s))) header ++ concat (blocks s).
Definition WriteSavefileInternalSAV (s : Savefile) : list Z :=
  let header := put_at 0 SAV_MAGIC (replicate (Z.to_nat SAV_HEADER_SIZE) 0) in
  InjectDEntryToSavHeader header (dir_entry s) ++ concat (blocks s).
(** The contents of the file written. *)
Definition WriteSavefile (s : Savefile) (format : SavefileFormat) : list Z :=
  match format with
  | GCI => WriteSavefileInternalGCI s
  | GCS => WriteSavefileInternalGCS s
  | SAV => WriteSavefileInternalSAV s
  end.
