(* ===== verification/GCMemcardSpec.v ===== *)
(** * What a memory card promises

    A card is a store of files in 127 slots: whatever is imported, removed, saved
    and opened again, it answers like the store, and no file disturbs another.
    The invariant is that the chains of blocks of the files and the free blocks
    together are the blocks of the card, each once. *)
From Stdlib Require Import Permutation.
From S2P Require Export GCMemcard.

(** ** Lists *)

Lemma filter_split_one `{EqDecision A} (p q : A -> bool) x l : NoDup l -> x ∈ l -> p x = true -> q x = false ->
  (forall y, y <> x -> p y = q y) -> Permutation (List.filter p l) (x :: List.filter q l).
Proof.
  intros Hl Hx Hp Hq Hpq. induction l as [|y l IH]; [by apply not_elem_of_nil in Hx|].
  apply NoDup_cons in Hl as [Hy Hl]. simpl. destruct (decide (y = x)) as [->|Hne].
  - rewrite Hp, Hq. apply perm_skip. erewrite filter_ext_in; [done|].
    intros z Hz. apply Hpq. intros ->. apply Hy. by apply list_elem_of_In.
  - apply elem_of_cons in Hx as [->|Hx]; [done|]. rewrite <- (Hpq y Hne). specialize (IH Hl Hx).
    destruct (p y); [|done]. rewrite IH. apply perm_swap.
Qed.

Lemma concat_insert_perm {A} (L : list (list A)) i x old : L !! i = Some old ->
  Permutation (old ++ concat (<[i := x]> L)) (x ++ concat L).
Proof.
  revert i. induction L as [|a L IH]; intros [|i] Hi; simplify_eq/=; [apply Permutation_app_swap_app|].
  rewrite Permutation_app_swap_app, (IH i Hi). apply Permutation_app_swap_app.
Qed.

(** ** The block allocation table *)

(** The blocks of the data area of a card with [size] blocks. *)
Definition data_area (size : Z) : list Z := map Z.of_nat (seq 5 (Z.to_nat (size - 5))).
Definition free_list (b : BlockAlloc) (size : Z) : list Z := List.filter (fun x => map_at b x =? 0) (data_area size).
(** The blocks of a chain, following the table [n] times. *)
Fixpoint chain (b : BlockAlloc) (n : nat) (block : Z) : list Z :=
  match n with O => [] | S n' => block :: chain b n' (map_at b block) end.
(** [l] is a whole chain of blocks of the card. *)
Fixpoint linked (b : BlockAlloc) (size block : Z) (l : list Z) : Prop :=
  match l with
  | [] => False
  | x :: l' => x = block /\ x ∈ data_area size /\
      match l' with [] => map_at b x = 0xFFFF | _ => linked b size (map_at b x) l' end
  end.

Lemma data_area_spec size x : x ∈ data_area size <-> 5 <= x < size.
Proof.
  unfold data_area. rewrite list_elem_of_fmap. setoid_rewrite elem_of_seq. split.
  - intros (k & -> & Hk). lia.
  - intros Hx. exists (Z.to_nat x). split; [lia|]. lia.
Qed.
Lemma data_area_NoDup size : NoDup (data_area size).
Proof. apply NoDup_fmap_2; [intros ???; lia|]. apply NoDup_seq. Qed.

Lemma map_at_insert b x v y : length (m_map b) = Z.to_nat BAT_SIZE -> 5 <= x < 4096 -> 5 <= y ->
  map_at (set_map (<[Z.to_nat (x - 5) := v]> (m_map b)) b) y = if y =? x then v else map_at b y.
Proof.
  intros Hl Hx Hy. unfold map_at, MC_FST_BLOCKS. cbn [set_map m_map]. unfold zget. replace (0 <=? y - 5) with true by (symmetry; apply Z.leb_le; lia).
  destruct (Z.eqb_spec y x) as [->|Hne].
  - rewrite list_lookup_insert_eq; [done|]. rewrite Hl. unfold BAT_SIZE. lia.
  - rewrite list_lookup_insert_ne by lia. done.
Qed.

(** Two tables that differ at one block, free in the first only. *)
Lemma free_list_take b b' size x : x ∈ data_area size -> map_at b x = 0 -> map_at b' x <> 0 ->
  (forall y, y ∈ data_area size -> y <> x -> map_at b' y = map_at b y) ->
  Permutation (free_list b size) (x :: free_list b' size).
Proof.
  intros Hx H0 H1 H. unfold free_list.
  rewrite (filter_ext_in (fun y => map_at b' y =? 0) (fun y => negb (y =? x) && (map_at b y =? 0)) (data_area size)).
  - apply filter_split_one; [apply data_area_NoDup|done|by apply Z.eqb_eq|by rewrite Z.eqb_refl|].
    intros y Hy. by rewrite (proj2 (Z.eqb_neq y x) Hy).
  - intros y Hy%list_elem_of_In. destruct (Z.eqb_spec y x) as [->|Hne]; simpl; [by apply Z.eqb_neq|]. by rewrite H.
Qed.
Lemma elem_of_free_list b size x : x ∈ free_list b size <-> x ∈ data_area size /\ map_at b x = 0.
Proof.
  unfold free_list. rewrite list_elem_of_In, filter_In, <- list_elem_of_In, Z.eqb_eq. done.
Qed.
Lemma free_list_NoDup b size : NoDup (free_list b size).
Proof. apply NoDup_ListNoDup, List.NoDup_filter, NoDup_ListNoDup, data_area_NoDup. Qed.

Lemma linked_chain b size l : forall block, linked b size block l -> l = chain b (length l) block.
Proof.
  induction l as [|x l IH]; intros block H; [done|]. destruct H as (-> & _ & H). simpl. f_equal.
  destruct l; [done|]. by apply IH.
Qed.
Lemma linked_in_area b size l : forall block, linked b size block l -> Forall (fun x => x ∈ data_area size) l.
Proof.
  induction l as [|x l IH]; intros block H; [done|]. destruct H as (-> & Hx & H). constructor; [done|].
  destruct l; [constructor|]. by apply (IH (map_at b block)).
Qed.
Lemma linked_ext b b' size l : (forall y, y ∈ l -> map_at b' y = map_at b y) ->
  forall block, linked b size block l -> linked b' size block l.
Proof.
  induction l as [|x l IH]; intros Hm block H; [done|]. destruct H as (-> & Hx & H). split; [done|]. split; [done|].
  rewrite Hm by by left. destruct l; [done|]. apply IH; [|done]. intros y Hy. apply Hm. by right.
Qed.
(** Every block of a chain has a successor or ends it: none is free. *)
Lemma linked_taken b size l : forall block, linked b size block l -> Forall (fun x => map_at b x <> 0) l.
Proof.
  induction l as [|x l IH]; intros block H; [done|]. destruct H as (-> & Hx & H). destruct l as [|y l].
  - constructor; [by rewrite H|constructor].
  - constructor; [|by apply (IH (map_at b block))]. destruct H as (<- & Hy & _). apply data_area_spec in Hy. lia.
Qed.

(** *** The search for a free block *)

Lemma find_free_spec b n : forall first, match find_free b first n with
  | Some r => first <= r < first + Z.of_nat n /\ map_at b r = 0 /\ forall x, first <= x < r -> map_at b x <> 0
  | None => forall x, first <= x < first + Z.of_nat n -> map_at b x <> 0
  end.
Proof.
  induction n as [|n IH]; intros first; cbn [find_free]; [intros; lia|].
  destruct (Z.eqb_spec (map_at b first) 0) as [E|E]; [split; [lia|]; split; [done|intros; lia]|].
  specialize (IH (first + 1)). destruct (find_free b (first + 1) n) as [r|].
  - destruct IH as (Hr & H0 & H). split; [lia|]. split; [done|]. intros x Hx.
    destruct (decide (x = first)) as [->|]; [done|]. apply H. lia.
  - intros x Hx. destruct (decide (x = first)) as [->|]; [done|]. apply IH. lia.
Qed.
(** A free block is found; and when another block is free, the search from behind a
    block does not come back to it. *)
Lemma NextFreeBlock_spec size start b z : 5 <= size <= 4096 -> 0 < m_free_blocks b -> z ∈ free_list b size ->
  let r := NextFreeBlock size start b in
  r ∈ free_list b size /\ (z <> start - 1 -> 5 <= start <= 4096 -> r <> start - 1).
Proof.
  intros Hs Hf [Hz Hz0]%elem_of_free_list. apply data_area_spec in Hz. cbv zeta. rewrite elem_of_free_list, data_area_spec.
  unfold NextFreeBlock. rewrite (proj2 (Z.ltb_lt _ _) Hf).
  assert (Hc : clamp_block size = size) by (unfold clamp_block, MC_FST_BLOCKS, BAT_SIZE; lia). rewrite Hc.
  assert (Hs' : 5 <= clamp_block start <= 4096) by (unfold clamp_block, MC_FST_BLOCKS, BAT_SIZE; lia).
  assert (Hs2 : 5 <= start <= 4096 -> clamp_block start = start) by (unfold clamp_block, MC_FST_BLOCKS, BAT_SIZE; lia).
  pose proof (find_free_spec b (Z.to_nat (size - clamp_block start)) (clamp_block start)) as H1.
  destruct (find_free b (clamp_block start) _) as [r|].
  - destruct H1 as (Hr & H0 & _). split; [split; [lia|done]|]. intros _ Hst. rewrite Hs2 in Hr by done. lia.
  - assert (z < clamp_block start) by (destruct (Z_lt_le_dec z (clamp_block start)); [done|]; exfalso; apply (H1 z); [lia|done]).
    pose proof (find_free_spec b (Z.to_nat (clamp_block start - MC_FST_BLOCKS)) MC_FST_BLOCKS) as H2.
    change MC_FST_BLOCKS with 5 in *.
    destruct (find_free b 5 _) as [r|]; [|exfalso; apply (H2 z); [lia|done]].
    destruct H2 as (Hr & H0 & Hmin). assert (r <= z) by (destruct (Z_lt_le_dec z r); [|done]; exfalso; apply (Hmin z); [lia|done]).
    change (default 0xFFFF (Some r)) with r. split; [split; [lia|done]|]. intros Hne Hst. specialize (Hs2 Hst). lia.
Qed.

(** *** Writing a file *)

Definition block_at (data : list (list Z)) (block : Z) : list Z := default [] (zget data (block - MC_FST_BLOCKS)).
Definition words (m : list Z) : Prop := length m = Z.to_nat BAT_SIZE /\ Forall (fun v => 0 <= v < 2 ^ (8 * Z.of_nat 2)) m.

Lemma words_insert m i v : words m -> 0 <= v < 65536 -> words (<[i := v]> m).
Proof. intros [Hl Hm] Hv. split; [by rewrite length_insert|]. by apply Forall_insert. Qed.
Lemma zset_block {A} (l : list A) size x v : Z.of_nat (length l) = size - 5 -> x ∈ data_area size ->
  zset l (x - MC_FST_BLOCKS) v = Some (<[Z.to_nat (x - 5) := v]> l).
Proof.
  intros Hl Hx%data_area_spec. unfold zset, MC_FST_BLOCKS. replace (0 <=? x - 5) with true by (symmetry; apply Z.leb_le; lia).
  by replace (x - 5 <? Z.of_nat (length l)) with true by (symmetry; apply Z.ltb_lt; lia).
Qed.
Lemma zset_map m size x v : words m -> size <= 4096 -> x ∈ data_area size ->
  zset m (x - MC_FST_BLOCKS) v = Some (<[Z.to_nat (x - 5) := v]> m).
Proof.
  intros [Hl _] Hs Hx%data_area_spec. apply (zset_block m 4096); [rewrite Hl; unfold BAT_SIZE; lia|]. apply data_area_spec. lia.
Qed.
Lemma block_at_insert data size x v y : Z.of_nat (length data) = size - 5 -> x ∈ data_area size -> 5 <= y ->
  block_at (<[Z.to_nat (x - 5) := v]> data) y = if y =? x then v else block_at data y.
Proof.
  intros Hl Hx%data_area_spec Hy. unfold block_at, zget, MC_FST_BLOCKS. replace (0 <=? y - 5) with true by (symmetry; apply Z.leb_le; lia).
  destruct (Z.eqb_spec y x) as [->|Hne].
  - rewrite list_lookup_insert_eq by lia. done.
  - by rewrite list_lookup_insert_ne by lia.
Qed.

(** A block that is taken, with any successor. *)
Lemma take_block b size x v : words (m_map b) -> size <= 4096 -> x ∈ free_list b size -> v <> 0 ->
  let b' := set_map (<[Z.to_nat (x - 5) := v]> (m_map b)) b in
  map_at b' x = v /\ (forall y, 5 <= y -> y <> x -> map_at b' y = map_at b y) /\
  Permutation (free_list b size) (x :: free_list b' size).
Proof.
  intros [Hl _] Hs [Hx H0]%elem_of_free_list Hv b'. pose proof (proj1 (data_area_spec _ _) Hx) as Hx'.
  assert (Hat : forall y, 5 <= y -> map_at b' y = if y =? x then v else map_at b y) by (intros y Hy; apply map_at_insert; [done|lia|done]).
  assert (Hxx : map_at b' x = v) by (by rewrite Hat, Z.eqb_refl by lia).
  assert (Hxy : forall y, 5 <= y -> y <> x -> map_at b' y = map_at b y) by (intros y Hy Hne; by rewrite Hat, (proj2 (Z.eqb_neq y x) Hne)).
  split; [done|]. split; [done|]. apply free_list_take; [done|done|congruence|].
  intros y Hy Hne. apply Hxy; [|done]. apply data_area_spec in Hy. lia.
Qed.

(** What the copying loop leaves: [l] is the chain of the new file. *)
Record imported (size first : Z) (fb : list (list Z)) (data data' : list (list Z)) (bat bat' : BlockAlloc) (l : list Z) : Prop := {
  im_linked : linked bat' size first l;
  im_free : Permutation (free_list bat size) (l ++ free_list bat' size);
  im_map y : 5 <= y -> y ∉ l -> map_at bat' y = map_at bat y;
  im_words : words (m_map bat');
  im_unused : drop (Z.to_nat (size - 5)) (m_map bat') = drop (Z.to_nat (size - 5)) (m_map bat);
  im_counter : b_update_counter bat' = b_update_counter bat;
  im_free_blocks : m_free_blocks bat' = m_free_blocks bat;
  im_sums : b_checksum bat' = b_checksum bat /\ b_checksum_inv bat' = b_checksum_inv bat;
  im_last : m_last_allocated_block bat' ∈ data_area size;
  im_length : length data' = length data;
  im_blocks : map (block_at data') l = fb;
  im_data y : 5 <= y -> y ∉ l -> block_at data' y = block_at data y
}.

Lemma import_blocks_spec size n : 5 <= size <= 4096 -> forall fb first data bat,
  words (m_map bat) -> 0 < m_free_blocks bat -> first ∈ free_list bat size ->
  (S n <= length (free_list bat size))%nat -> Z.of_nat (length data) = size - 5 -> (S n <= length fb)%nat ->
  exists data' bat' l, import_blocks size (S n) fb first data bat = Some (data', bat') /\
    imported size first (take (S n) fb) data data' bat bat' l.
Proof.
  intros Hs. induction n as [|n IH]; intros fb first data bat Hw Hf Hfirst Hn Hd Hfb;
    (destruct fb as [|b fb]; [simpl in Hfb; lia|]); pose proof (proj1 (proj1 (elem_of_free_list _ _ _) Hfirst)) as Ha;
    cbn [import_blocks head]; cbn [base.mbind option_bind]; rewrite (zset_block data size first b Hd Ha); cbn [base.mbind option_bind].
  - rewrite (zset_map (m_map bat) size first) by (done || lia). cbn [base.mbind option_bind Nat.eqb].
    destruct (take_block bat size first 0xFFFF Hw ltac:(lia) Hfirst ltac:(done)) as (H1 & H2 & H3).
    eexists _, _, [first]. split; [reflexivity|]. split; cbn [m_map set_map set_last_allocated m_last_allocated_block]; try done.
    + intros y Hy Hne. apply H2; [done|]. intros ->. apply Hne. by left.
    + by apply words_insert.
    + apply data_area_spec in Ha. by rewrite drop_insert_lt by lia.
    + by rewrite length_insert.
    + simpl. by rewrite (block_at_insert data size first), Z.eqb_refl by (done || apply data_area_spec in Ha; lia).
    + intros y Hy Hne. rewrite (block_at_insert data size first) by done. rewrite (proj2 (Z.eqb_neq y first)); [done|].
      intros ->. apply Hne. by left.
  - (* another block is free for the next turn *)
    destruct (take_block bat size first 0xFFFF Hw ltac:(lia) Hfirst ltac:(done)) as (H1 & _ & H3).
    destruct (free_list (set_map _ bat) size) as [|z zs] eqn:Ez; [apply Permutation_length in H3; simpl in *; lia|].
    assert (Hz : z ∈ free_list bat size) by (rewrite H3; right; left).
    assert (Hzf : z <> first).
    { intros ->. assert (Hz' : first ∈ first :: zs) by left. rewrite <- Ez in Hz'. apply elem_of_free_list in Hz' as [_ Hz']. congruence. }
    pose proof (proj1 (data_area_spec _ _) Ha) as Ha'.
    replace (u16 (first + 1)) with (first + 1) by zlia.
    destruct (NextFreeBlock_spec size (first + 1) bat z Hs Hf Hz) as [Hnext Hne]. specialize (Hne ltac:(lia) ltac:(lia)).
    cbn [Nat.eqb]. set (next := NextFreeBlock size (first + 1) bat) in *.
    pose proof (proj1 (data_area_spec _ _) (proj1 (proj1 (elem_of_free_list _ _ _) Hnext))) as Hn'.
    rewrite (zset_map (m_map bat) size first) by (done || lia). cbn [base.mbind option_bind tail].
    destruct (take_block bat size first next Hw ltac:(lia) Hfirst ltac:(lia)) as (G1 & G2 & G3).
    set (bat1 := set_last_allocated first (set_map (<[Z.to_nat (first - 5) := next]> (m_map bat)) bat)).
    change (map_at (set_map (<[Z.to_nat (first - 5) := next]> (m_map bat)) bat)) with (map_at bat1) in G1, G2.
    change (free_list (set_map (<[Z.to_nat (first - 5) := next]> (m_map bat)) bat)) with (free_list bat1) in G3.
    destruct (IH fb next (<[Z.to_nat (first - 5) := b]> data) bat1) as (data' & bat' & l & E & [I1 I2 I3 I4 I5 I6 I7 I7b I8 I9 I10 I11]).
    + by apply words_insert; [|lia].
    + done.
    + apply elem_of_free_list in Hnext as [? Hnext0]. apply elem_of_free_list. split; [done|]. by rewrite G2 by lia.
    + apply Permutation_length in G3. simpl in G3. lia.
    + by rewrite length_insert.
    + simpl in Hfb. lia.
    + assert (Hnl : first ∉ l).
      { intros Hin. assert (Hin' : first ∈ free_list bat1 size) by (rewrite I2; apply elem_of_app; by left).
        apply elem_of_free_list in Hin' as [_ Hin']. lia. }
      exists data', bat', (first :: l). split; [exact E|]. split; try done.
      * cbn [linked]. split; [done|]. split; [done|]. rewrite I3, G1 by (done || lia).
        destruct l as [|x l]; [done|]. by destruct I1 as [-> I1'] || exact I1.
      * rewrite G3, I2. done.
      * intros y Hy [Hy1 Hy2]%not_elem_of_cons. rewrite I3 by done. by apply G2.
      * rewrite I5. cbn [bat1 m_map set_map set_last_allocated]. by rewrite drop_insert_lt by lia.
      * by rewrite I9, length_insert.
      * cbn [map take]. rewrite I11, (block_at_insert data size first), Z.eqb_refl by (done || lia). f_equal.
        rewrite <- I10. done.
      * intros y Hy [Hy1 Hy2]%not_elem_of_cons. rewrite I11, (block_at_insert data size first) by done.
        by rewrite (proj2 (Z.eqb_neq y first)).
Qed.

(** *** Giving blocks back *)

Lemma chain_blocks_linked b size l : 5 <= size <= 4091 -> forall fuel block, (length l <= fuel)%nat ->
  linked b size block l -> chain_blocks b fuel block = Some (l, 0xFFFF).
Proof.
  intros Hs. induction l as [|x l IH]; intros fuel block Hf H; [done|]. destruct H as (-> & Hx & H).
  apply data_area_spec in Hx. destruct fuel as [|fuel]; [simpl in Hf; lia|]. cbn [chain_blocks].
  rewrite (proj2 (Z.eqb_neq block 0xFFFF)), (proj2 (Z.eqb_neq block 0)) by lia. cbn [negb andb].
  assert (E : GetNextBlock b block = map_at b block).
  { unfold GetNextBlock, MC_FST_BLOCKS. by rewrite (proj2 (Z.ltb_ge block 5)), (proj2 (Z.ltb_ge 4091 block)) by lia. }
  rewrite E. destruct l as [|y l].
  - rewrite H. by destruct fuel.
  - rewrite (IH fuel (map_at b block)); [done|simpl in *; lia|done].
Qed.

(** The table with the blocks of [l] set free. *)
Lemma clear_blocks_spec size l : size <= 4096 -> forall b, words (m_map b) -> NoDup l ->
  Forall (fun x => x ∈ data_area size /\ map_at b x <> 0) l ->
  let b' := set_map (fold_left clear_block l (m_map b)) b in
  words (m_map b') /\ Permutation (free_list b' size) (l ++ free_list b size) /\
  (forall y, 5 <= y -> y ∉ l -> map_at b' y = map_at b y) /\
  drop (Z.to_nat (size - 5)) (m_map b') = drop (Z.to_nat (size - 5)) (m_map b).
Proof.
  intros Hs. induction l as [|x l IH]; intros b Hw Hnd HF.
  - cbn [fold_left]. destruct b. done.
  - apply NoDup_cons in Hnd as [Hx Hnd]. apply Forall_cons in HF as [[Hxa Hx0] HF].
    pose proof (proj1 (data_area_spec _ _) Hxa) as Hx'. cbn [fold_left].
    set (b1 := set_map (clear_block (m_map b) x) b).
    assert (Hat : forall y, 5 <= y -> map_at b1 y = if y =? x then 0 else map_at b y).
    { intros y Hy. apply map_at_insert; [apply Hw|lia|done]. }
    assert (Hat1 : map_at b1 x = 0) by (by rewrite Hat, Z.eqb_refl by lia).
    assert (Hat2 : forall y, 5 <= y -> y <> x -> map_at b1 y = map_at b y).
    { intros y Hy Hne. by rewrite Hat, (proj2 (Z.eqb_neq y x)) by done. }
    destruct (IH b1) as (H1 & H2 & H3 & H4).
    + by apply words_insert.
    + done.
    + apply Forall_forall. intros y Hy. rewrite Forall_forall in HF. destruct (HF y Hy) as [Hya Hy0].
      pose proof (proj1 (data_area_spec _ _) Hya). split; [done|]. rewrite Hat2; [done|lia|]. by intros ->.
    + change (set_map (fold_left clear_block l (m_map b1)) b1) with (set_map (fold_left clear_block l (clear_block (m_map b) x)) b) in *.
      split; [done|]. split; [|split].
      * rewrite H2. rewrite (free_list_take b1 b size x); [symmetry; apply Permutation_middle|done|done|done|].
        intros y Hy Hne. apply data_area_spec in Hy. symmetry. apply Hat2; [lia|done].
      * intros y Hy [Hy1 Hy2]%not_elem_of_cons. rewrite H3 by done. by apply Hat2.
      * rewrite H4. cbn [b1 m_map set_map]. unfold clear_block, MC_FST_BLOCKS. by rewrite drop_insert_lt by lia.
Qed.

(** ** Cards *)

(** The blocks of an entry's file, and of all files. *)
Definition file_chain (b : BlockAlloc) (e : DEntry) : list Z :=
  if used e then chain b (Z.to_nat (m_block_count e)) (m_first_block e) else [].
Definition occupied (b : BlockAlloc) (es : list DEntry) : list Z := concat (map (file_chain b) es).

(** The files of a directory and the free blocks share the data area out. *)
Record consistent (size : Z) (es : list DEntry) (b : BlockAlloc) : Prop := {
  cs_unused : Forall (fun e => used e = false -> e = empty_DEntry) es;
  cs_linked : Forall (fun e => used e = true -> linked b size (m_first_block e) (file_chain b e)) es;
  cs_shared : Permutation (occupied b es ++ free_list b size) (data_area size)
}.

(** The blocks a card is made of, free of errors. *)
Record header_ok (mb : Z) (h : Header) : Prop := {
  ho_fits : fits Header_layout h;
  ho_size : hd_size_mb (m_data h) = mb;
  ho_unused_1 : Forall (eq 0xFF) (h_unused_1 h);
  ho_unused_2 : Forall (eq 0xFF) (h_unused_2 h);
  ho_checksum : Header_FixChecksums h = h
}.
Record dir_ok (d : Directory) : Prop := {
  do_fits : fits Directory_layout d;
  do_padding : Forall (eq 0xFF) (m_padding d);
  do_checksum : Directory_FixChecksums d = d
}.
Record bat_ok (mb : Z) (b : BlockAlloc) : Prop := {
  bo_fits : fits BlockAlloc_layout b;
  bo_free : m_free_blocks b = Z.of_nat (length (free_list b (mb * 16)));
  bo_unused : Forall (eq 0) (drop (Z.to_nat (mb * 16 - 5)) (m_map b));
  bo_checksum : BlockAlloc_FixChecksums b = b
}.

(** A card whose update counters have not passed [k]. *)
Record card_ok (k : Z) (c : GCMemcard) : Prop := mk_card_ok {
  co_valid : m_valid c = true;
  co_size_mb : m_size_mb c ∈ valid_megabits;
  co_size_blocks : m_size_blocks c = m_size_mb c * 16;
  co_header : header_ok (m_size_mb c) (m_header_block c);
  co_dir0 : dir_ok (fst (m_directory_blocks c));
  co_dir1 : dir_ok (snd (m_directory_blocks c));
  co_bat0 : bat_ok (m_size_mb c) (fst (m_bat_blocks c));
  co_bat1 : bat_ok (m_size_mb c) (snd (m_bat_blocks c));
  co_length : Z.of_nat (length (m_data_blocks c)) = m_size_mb c * 16 - 5;
  co_data : Forall (fits (bytes BLOCK_SIZE)) (m_data_blocks c);
  co_active_dir : m_active_directory c =
    if d_update_counter (snd (m_directory_blocks c)) <=? d_update_counter (fst (m_directory_blocks c)) then 0 else 1;
  co_active_bat : m_active_bat c =
    if b_update_counter (snd (m_bat_blocks c)) <=? b_update_counter (fst (m_bat_blocks c)) then 0 else 1;
  co_consistent : consistent (m_size_mb c * 16) (entries c) (GetActiveBat c);
  co_dir_counter : d_update_counter (GetActiveDirectory c) <= k;
  co_bat_counter : b_update_counter (GetActiveBat c) <= k
}.

Lemma valid_size mb : mb ∈ valid_megabits -> 4 <= mb <= 128.
Proof. unfold valid_megabits. rewrite !elem_of_cons, elem_of_nil. intros [->|[->|[->|[->|[->|[->|[]]]]]]]; lia || (split; discriminate). Qed.

(** *** The checks pass *)

Lemma all_equal v l : Forall (eq v) l -> existsb (fun val => negb (val =? v)) l = false.
Proof. induction 1 as [|x l <- _ IH]; [done|]. simpl. by rewrite Z.eqb_refl. Qed.

Lemma header_no_errors mb h : header_ok mb h -> Header_CheckForErrors mb h = 0.
Proof.
  intros [_ H1 H2 H3 H4]. unfold Header_CheckForErrors. rewrite (all_equal _ _ H2), (all_equal _ _ H3), H1, Z.eqb_refl.
  unfold Header_FixChecksums in H4. destruct (Header_CalculateChecksums h) as [s i]. destruct h; simplify_eq/=.
  by rewrite !Z.eqb_refl.
Qed.
Lemma dir_no_errors d : dir_ok d -> Directory_CheckForErrors d = 0.
Proof.
  intros [_ H1 H2]. unfold Directory_CheckForErrors. rewrite (all_equal _ _ H1).
  unfold Directory_FixChecksums in H2. destruct (Directory_CalculateChecksums d) as [s i]. destruct d; simplify_eq/=.
  by rewrite !Z.eqb_refl.
Qed.

Lemma words_of_fits b : fits BlockAlloc_layout b -> words (m_map b).
Proof. intros [_ H]. exact H. Qed.
Lemma map_at_data_area b size : words (m_map b) -> 5 <= size <= 4096 ->
  map (map_at b) (data_area size) = take (Z.to_nat (size - 5)) (m_map b).
Proof.
  intros [Hl _] Hs. apply list_eq. intros i. rewrite list_lookup_fmap. unfold data_area. rewrite list_lookup_fmap.
  destruct (decide (i < Z.to_nat (size - 5))%nat) as [Hi|Hi].
  - rewrite lookup_seq_lt by done. rewrite lookup_take_lt by done. cbn [fmap option_fmap option_map].
    unfold map_at, zget, MC_FST_BLOCKS. replace (0 <=? Z.of_nat (5 + i) - 5) with true by (symmetry; apply Z.leb_le; lia).
    replace (Z.to_nat (Z.of_nat (5 + i) - 5)) with i by lia.
    destruct (lookup_lt_is_Some_2 (m_map b) i) as [v ->]; [rewrite Hl; unfold BAT_SIZE; lia|done].
  - rewrite lookup_seq_ge by lia. by rewrite lookup_take_ge by lia.
Qed.
Lemma count_zeros (l : list Z) :
  (length (List.filter (fun v => negb (v =? 0)%Z) l) + length (List.filter (fun v => (v =? 0)%Z) l))%nat = length l.
Proof. induction l as [|v l IH]; [done|]. simpl. destruct (v =? 0); simpl; lia. Qed.
Lemma length_filter_map {A} (f : A -> Z) p l : length (List.filter p (map f l)) = length (List.filter (fun x => p (f x)) l).
Proof. induction l as [|x l IH]; [done|]. simpl. destruct (p (f x)); simpl; lia. Qed.
Lemma bat_no_errors mb b : mb ∈ valid_megabits -> bat_ok mb b -> BlockAlloc_CheckForErrors mb b = 0.
Proof.
  intros Hmb%valid_size [H0 H1 H2 H3]. unfold BlockAlloc_CheckForErrors.
  assert (Hsum : BlockAlloc_CalculateChecksums b = (b_checksum b, b_checksum_inv b)).
  { unfold BlockAlloc_FixChecksums in H3. destruct (BlockAlloc_CalculateChecksums b). destruct b; simplify_eq/=. done. }
  rewrite Hsum, !Z.eqb_refl. cbn [negb orb Set_if].
  rewrite (proj2 (Z.ltb_lt 0 mb)), (proj2 (Z.leb_le mb 256)) by lia. cbn [andb].
  change MBIT_TO_BLOCKS with 16. change MC_FST_BLOCKS with 5. rewrite (all_equal _ _ ltac:(exact H2)).
  assert (Hc : m_free_blocks b = mb * 16 - 5 - Z.of_nat (length (List.filter (fun v => negb (v =? 0)) (take (Z.to_nat (mb * 16 - 5)) (m_map b))))).
  { rewrite H1. pose proof (words_of_fits b H0) as Hw.
    pose proof (count_zeros (take (Z.to_nat (mb * 16 - 5)) (m_map b))) as Hz.
    rewrite length_take, (proj1 Hw) in Hz. rewrite <- (map_at_data_area b (mb * 16) Hw) in * by lia.
    rewrite (length_filter_map _ (fun v => v =? 0)) in Hz. fold (free_list b (mb * 16)) in Hz. unfold BAT_SIZE in Hz. lia. }
  rewrite <- Hc, Z.eqb_refl. done.
Qed.

Lemma linked_matches b size l : 5 <= size <= 4091 -> forall block, linked b size block l -> bat_block_count_matches b (length l) block = true.
Proof.
  intros Hs. induction l as [|x l IH]; intros block H; [done|]. destruct H as (-> & Hx & H). apply data_area_spec in Hx. cbn [length bat_block_count_matches].
  assert (E : GetNextBlock b block = map_at b block).
  { unfold GetNextBlock, MC_FST_BLOCKS. by rewrite (proj2 (Z.ltb_ge block 5)), (proj2 (Z.ltb_ge 4091 block)) by lia. }
  rewrite E. destruct l as [|y l]; [by rewrite H|].
  pose proof H as H'. destruct H as (Ey & Hy & _). rewrite <- Ey in *. apply data_area_spec in Hy.
  rewrite (proj2 (Z.eqb_neq y 0)), (proj2 (Z.eqb_neq y 0xFFFF)) by lia. by apply IH.
Qed.

Lemma consistent_no_errors size d b : 5 <= size <= 4091 -> consistent size (m_dir_entries d) b -> CheckForErrorsWithBat b d = 0.
Proof.
  intros Hs [_ H _]. unfold CheckForErrorsWithBat. replace (forallb _ _) with true; [done|]. symmetry. apply forallb_forall.
  intros e He%list_elem_of_In. rewrite Forall_forall in H. specialize (H e He). unfold entry_matches, file_chain in *.
  destruct (used e) eqn:Eu; [|done]. simpl. specialize (H eq_refl).
  pose proof (linked_matches b size _ Hs _ H) as Hm. rewrite <- Hm. f_equal.
  clear. generalize (m_first_block e). induction (Z.to_nat (m_block_count e)) as [|n IH]; intros x; [done|]. simpl. f_equal. apply IH.
Qed.

(** *** What is saved is what is opened *)

Lemma ReadBytes_app n x file : length x = Z.to_nat n -> ReadBytes n (x ++ file) = Some (x, file).
Proof.
  intros Hx. unfold ReadBytes. rewrite length_app. rewrite (proj2 (Z.ltb_ge _ n)) by lia.
  by rewrite <- Hx, take_app_length, drop_app_length.
Qed.
Lemma ReadBlocks_concat l : Forall (fits (bytes BLOCK_SIZE)) l -> ReadBlocks (length l) (concat l) = Some l.
Proof.
  induction 1 as [|b l [Hb _] _ IH]; [done|]. cbn [length ReadBlocks concat]. rewrite ReadBytes_app by done.
  cbn [base.mbind option_bind]. by rewrite IH.
Qed.
Lemma length_concat_blocks l : Forall (fits (bytes BLOCK_SIZE)) l -> Z.of_nat (length (concat l)) = 0x2000 * Z.of_nat (length l).
Proof.
  induction 1 as [|b l [Hb _] _ IH]; [done|]. cbn [length concat]. rewrite length_app, Nat2Z.inj_add, IH, Hb.
  change (Z.of_nat (Z.to_nat BLOCK_SIZE)) with 0x2000. lia.
Qed.
Lemma header_width h : fits Header_layout h -> length (to_bytes Header_layout h) = Z.to_nat BLOCK_SIZE.
Proof. intros H. rewrite (lw_width _ Header_lawful h H). vm_compute. reflexivity. Qed.
Lemma dir_width d : fits Directory_layout d -> length (to_bytes Directory_layout d) = Z.to_nat BLOCK_SIZE.
Proof. intros H. rewrite (lw_width _ Directory_lawful d H). vm_compute. reflexivity. Qed.
Lemma bat_width b : fits BlockAlloc_layout b -> length (to_bytes BlockAlloc_layout b) = Z.to_nat BLOCK_SIZE.
Proof. intros H. rewrite (lw_width _ BlockAlloc_lawful b H). vm_compute. reflexivity. Qed.

Lemma saved_data k c : card_ok k c -> take (Z.to_nat (m_size_blocks c - MC_FST_BLOCKS)) (m_data_blocks c) = m_data_blocks c.
Proof. intros [? ? Hb ? ? ? ? ? Hl]. apply take_ge. rewrite Hb. unfold MC_FST_BLOCKS. lia. Qed.
(** Reading back what was written, for the five blocks of the file system. *)
Lemma read_header h : fits Header_layout h -> of_bytes Header_layout (to_bytes Header_layout h) = h.
Proof. exact (lw_read _ Header_lawful h). Qed.
Lemma read_dir d : fits Directory_layout d -> of_bytes Directory_layout (to_bytes Directory_layout d) = d.
Proof. exact (lw_read _ Directory_lawful d). Qed.
Lemma read_bat b : fits BlockAlloc_layout b -> of_bytes BlockAlloc_layout (to_bytes BlockAlloc_layout b) = b.
Proof. exact (lw_read _ BlockAlloc_lawful b). Qed.

(** The card as it is before the checks: nothing is active yet. *)
Definition raw_card (c : GCMemcard) : GCMemcard :=
  mkCard false (m_size_blocks c) (m_size_mb c) (m_header_block c) (m_directory_blocks c) (m_bat_blocks c) (m_data_blocks c) 0 0.
Lemma read_card_blocks mb h d0 d1 b0 b1 data : Forall (fun x => length x = Z.to_nat BLOCK_SIZE) [h; d0; d1; b0; b1] ->
  Forall (fits (bytes BLOCK_SIZE)) data -> Z.of_nat (length data) = mb * 16 - 5 ->
  read_card mb (h ++ d0 ++ d1 ++ b0 ++ b1 ++ concat data) =
  Some (mkCard false (mb * 16) mb (of_bytes Header_layout h) (of_bytes Directory_layout d0, of_bytes Directory_layout d1)
    (of_bytes BlockAlloc_layout b0, of_bytes BlockAlloc_layout b1) data 0 0).
Proof.
  rewrite !Forall_cons. intros (H1 & H2 & H3 & H4 & H5 & _) Hd Hl. unfold read_card.
  do 5 (rewrite ReadBytes_app by done; cbn [base.mbind option_bind]).
  change MBIT_TO_BLOCKS with 16. change MC_FST_BLOCKS with 5. replace (Z.to_nat (mb * 16 - 5)) with (length data) by lia.
  by rewrite (ReadBlocks_concat _ Hd).
Qed.
(** The image with other bytes for the copies of the directory and the table. *)
Definition image (c : GCMemcard) (d0 d1 b0 b1 : list Z) : list Z :=
  to_bytes Header_layout (m_header_block c) ++ d0 ++ d1 ++ b0 ++ b1 ++ concat (m_data_blocks c).
Lemma Open_image k c d0 d1 b0 b1 : card_ok k c -> Forall (fun x => length x = Z.to_nat BLOCK_SIZE) [d0; d1; b0; b1] ->
  Open (Some (image c d0 d1 b0 b1)) = check_card (m_size_mb c)
    (mkCard false (m_size_blocks c) (m_size_mb c) (m_header_block c) (of_bytes Directory_layout d0, of_bytes Directory_layout d1)
       (of_bytes BlockAlloc_layout b0, of_bytes BlockAlloc_layout b1) (m_data_blocks c) 0 0).
Proof.
  intros Hc HF. pose proof (valid_size _ (co_size_mb _ _ Hc)) as Hmb. unfold Open.
  pose proof (ho_fits _ _ (co_header _ _ Hc)) as Hh. pose proof (co_data _ _ Hc) as Hd. pose proof (co_length _ _ Hc) as Hl.
  assert (E : BytesToMegabits (Z.of_nat (length (image c d0 d1 b0 b1))) = Some (m_size_mb c)).
  { pose proof HF as HF'. rewrite !Forall_cons in HF'. destruct HF' as (H1 & H2 & H3 & H4 & _). unfold image.
    rewrite !length_app, header_width, H1, H2, H3, H4, !Nat2Z.inj_add, length_concat_blocks by done.
    change (Z.of_nat (Z.to_nat BLOCK_SIZE)) with 0x2000. unfold BytesToMegabits. change (1024 * 1024 / 8) with 0x20000.
    replace (_ + _) with (m_size_mb c * 0x20000) by lia. by rewrite Z.mod_mul, Z.div_mul. }
  rewrite E. unfold default, id, from_option. replace (existsb (Z.eqb (m_size_mb c)) valid_megabits) with true.
  2: { symmetry. apply existsb_exists. exists (m_size_mb c). rewrite <- list_elem_of_In. split; [apply Hc|apply Z.eqb_refl]. }
  cbn [negb]. replace (u16 (m_size_mb c)) with (m_size_mb c) by zlia. unfold image.
  rewrite read_card_blocks by first [exact Hd|exact Hl|constructor; [by apply header_width|exact HF]]. by rewrite (read_header _ Hh), <- (co_size_blocks _ _ Hc).
Qed.
Lemma Save_image k c : card_ok k c -> Save c = image c
  (to_bytes Directory_layout (fst (m_directory_blocks c))) (to_bytes Directory_layout (snd (m_directory_blocks c)))
  (to_bytes BlockAlloc_layout (fst (m_bat_blocks c))) (to_bytes BlockAlloc_layout (snd (m_bat_blocks c))).
Proof. intros Hc. unfold Save. by rewrite (saved_data k c Hc). Qed.
Lemma check_card_ok k c : card_ok k c -> check_card (m_size_mb c) (raw_card c) = (0, Some c).
Proof.
  intros Hc. pose proof (valid_size _ (co_size_mb _ _ Hc)) as Hmb.
  unfold check_card, block_errors, validated, raw_card. cbn [m_header_block m_directory_blocks m_bat_blocks].
  pose proof (dir_no_errors _ (co_dir0 _ _ Hc)) as D0. pose proof (dir_no_errors _ (co_dir1 _ _ Hc)) as D1.
  pose proof (bat_no_errors _ _ (co_size_mb _ _ Hc) (co_bat0 _ _ Hc)) as B0.
  pose proof (bat_no_errors _ _ (co_size_mb _ _ Hc) (co_bat1 _ _ Hc)) as B1.
  rewrite (header_no_errors _ _ (co_header _ _ Hc)), D0, D1, B0, B1.
  cbn -[CheckForErrorsWithBat Z.leb GetActiveBat GetActiveDirectory HasCriticalErrors all_errors].
  change (HasCriticalErrors 0) with false. cbn -[CheckForErrorsWithBat Z.leb GetActiveBat GetActiveDirectory HasCriticalErrors]. rewrite ?D0, ?D1, ?B0, ?B1.
  unfold select_active, with_bats, with_directories. cbn -[CheckForErrorsWithBat Z.leb GetActiveBat GetActiveDirectory HasCriticalErrors].
  rewrite <- (co_active_dir _ _ Hc), <- (co_active_bat _ _ Hc).
  change (GetActiveBat (mkCard _ _ _ _ _ _ _ _ _)) with (GetActiveBat c).
  change (GetActiveDirectory (mkCard _ _ _ _ _ _ _ _ _)) with (GetActiveDirectory c).
  rewrite (consistent_no_errors (m_size_mb c * 16)) by (lia || apply Hc).
  cbn. do 2 f_equal. pose proof (co_valid _ _ Hc). destruct c; simplify_eq/=. done.
Qed.
Lemma copies_width k c : card_ok k c -> Forall (fun x => length x = Z.to_nat BLOCK_SIZE)
  [to_bytes Directory_layout (fst (m_directory_blocks c)); to_bytes Directory_layout (snd (m_directory_blocks c));
   to_bytes BlockAlloc_layout (fst (m_bat_blocks c)); to_bytes BlockAlloc_layout (snd (m_bat_blocks c))].
Proof.
  intros Hc. pose proof (do_fits _ (co_dir0 _ _ Hc)). pose proof (do_fits _ (co_dir1 _ _ Hc)).
  pose proof (bo_fits _ _ (co_bat0 _ _ Hc)). pose proof (bo_fits _ _ (co_bat1 _ _ Hc)).
  rewrite !Forall_cons. by rewrite !dir_width, !bat_width by done.
Qed.
Lemma Open_Save k c : card_ok k c -> Open (Some (Save c)) = (0, Some c).
Proof.
  intros Hc. rewrite (Save_image k c Hc), (Open_image k) by (done || exact (copies_width k c Hc)).
  rewrite !read_dir by apply Hc. rewrite !read_bat by apply Hc. rewrite <- !surjective_pairing. exact (check_card_ok k c Hc).
Qed.

(** *** Checksums *)

Lemma swap16_range v : 0 <= swap16 v < 2 ^ (8 * Z.of_nat 2).
Proof. apply (from_be_lt (rev (to_be 2 v))). apply Forall_rev, to_be_u8. Qed.
Lemma checksums_fit data : let '(sum, inv) := CalculateMemcardChecksums data in
  0 <= sum < 2 ^ (8 * Z.of_nat 2) /\ 0 <= inv < 2 ^ (8 * Z.of_nat 2).
Proof.
  unfold CalculateMemcardChecksums. destruct (checksum_loop data 0 0) as [s i].
  assert (H : forall v, 0 <= (if swap16 v =? 0xffff then 0 else swap16 v) < 2 ^ (8 * Z.of_nat 2)).
  { intros v. destruct (swap16 v =? 0xffff); [split; [done|reflexivity]|apply swap16_range]. }
  split; apply H.
Qed.

(** The checksums are not part of what they are computed from. *)
Lemma dir_checksum_area d sum inv : fits Directory_layout d ->
  Directory_CalculateChecksums (mkDirectory (m_dir_entries d) (m_padding d) (d_update_counter d) sum inv) =
  Directory_CalculateChecksums d.
Proof.
  intros [[[[HA HP] HC] _] _]. unfold Directory_CalculateChecksums. f_equal. cbn [Directory_layout to_bytes struct field_pair].
  cbn [m_dir_entries m_padding d_update_counter d_checksum d_checksum_inv]. rewrite <- !app_assoc.
  assert (Ht : forall v, take (Z.to_nat 0x1ffc) (to_bytes (array DIRLEN DEntry_layout) (m_dir_entries d) ++
      to_bytes (bytes 0x3a) (m_padding d) ++ to_bytes be_s16 (d_update_counter d) ++ v) =
    to_bytes (array DIRLEN DEntry_layout) (m_dir_entries d) ++ to_bytes (bytes 0x3a) (m_padding d) ++
      to_bytes be_s16 (d_update_counter d)).
  { intros v. rewrite (app_assoc (to_bytes (bytes _) _)), (app_assoc (to_bytes (array _ _) _)). apply take_app_length'. symmetry.
    rewrite !length_app, (lw_width _ (array_lawful DIRLEN _ DEntry_lawful) _ HA),
      (lw_width _ (bytes_lawful 0x3a) _ HP), (lw_width _ be_s16_lawful _ HC). vm_compute. reflexivity. }
  by rewrite !Ht.
Qed.
Lemma dir_fixed d : fits Directory_layout d -> Forall (eq 0xFF) (m_padding d) -> dir_ok (Directory_FixChecksums d).
Proof.
  intros Hf Hp. unfold Directory_FixChecksums at 1. pose proof (checksums_fit (take (Z.to_nat 0x1ffc) (to_bytes Directory_layout d))) as Hs.
  fold (Directory_CalculateChecksums d) in Hs. destruct (Directory_CalculateChecksums d) as [sum inv] eqn:E.
  constructor; [|done|].
  - destruct Hf as [[[[HA HP] HC] _] _]. destruct Hs as [H1 H2].
    exact (conj (conj (conj (conj HA HP) HC) H1) H2).
  - unfold Directory_FixChecksums. rewrite (dir_checksum_area d sum inv Hf), E. done.
Qed.
Lemma BlockAlloc_fits sum inv counter free last m : is_u16 sum -> is_u16 inv -> is_s16 counter -> is_u16 free -> is_u16 last ->
  words m -> fits BlockAlloc_layout (mkBlockAlloc sum inv counter free last m).
Proof. intros H1 H2 H3 H4 H5 H6. exact (conj (conj (conj (conj (conj H1 H2) H3) H4) H5) H6). Qed.
Lemma bat_fixed mb b : fits BlockAlloc_layout b -> m_free_blocks b = Z.of_nat (length (free_list b (mb * 16))) ->
  Forall (eq 0) (drop (Z.to_nat (mb * 16 - 5)) (m_map b)) -> bat_ok mb (BlockAlloc_FixChecksums b).
Proof.
  intros Hf H1 H2. unfold BlockAlloc_FixChecksums at 1. pose proof (checksums_fit (drop 4 (to_bytes BlockAlloc_layout b))) as Hs.
  fold (BlockAlloc_CalculateChecksums b) in Hs. destruct (BlockAlloc_CalculateChecksums b) as [sum inv] eqn:E.
  constructor; [|done|done|].
  - destruct Hf as [[[[[_ _] HC] HF] HL] HM]. destruct Hs as [S1 S2].
    exact (conj (conj (conj (conj (conj S1 S2) HC) HF) HL) HM).
  - unfold BlockAlloc_FixChecksums, BlockAlloc_CalculateChecksums in *. cbn [BlockAlloc_layout to_bytes struct field_pair] in *.
    cbn [b_checksum b_checksum_inv b_update_counter m_free_blocks m_last_allocated_block m_map] in *. rewrite <- !app_assoc in *.
    rewrite !drop_app in *. cbn [host_value to_bytes] in *. rewrite !length_rev, !length_to_be in *.
    rewrite !(drop_ge (rev (to_be 2 _)) _) in * by (rewrite length_rev, length_to_be; lia). by rewrite E.
Qed.
Lemma header_fixed mb h : fits Header_layout h -> hd_size_mb (m_data h) = mb -> Forall (eq 0xFF) (h_unused_1 h) ->
  Forall (eq 0xFF) (h_unused_2 h) -> header_ok mb (Header_FixChecksums h).
Proof.
  intros Hf H1 H2 H3. unfold Header_FixChecksums at 1. pose proof (checksums_fit (take (Z.to_nat 0x1fc) (to_bytes Header_layout h))) as Hs.
  fold (Header_CalculateChecksums h) in Hs. destruct (Header_CalculateChecksums h) as [sum inv] eqn:E.
  destruct Hf as [[[[[HD HU] HC] _] _] HV]. constructor; [|done|done|done|].
  - destruct Hs as [S1 S2]. exact (conj (conj (conj (conj (conj HD HU) HC) S1) S2) HV).
  - unfold Header_FixChecksums, Header_CalculateChecksums in *. cbn [Header_layout to_bytes struct field_pair] in *.
    cbn [m_data h_unused_1 h_update_counter h_checksum h_checksum_inv h_unused_2] in *. rewrite <- !app_assoc in *.
    assert (Ht : forall v, take (Z.to_nat 0x1fc) (to_bytes HeaderData_layout (m_data h) ++ to_bytes (bytes 468) (h_unused_1 h) ++
        to_bytes (host_value 2) (h_update_counter h) ++ v) = to_bytes HeaderData_layout (m_data h) ++
        to_bytes (bytes 468) (h_unused_1 h) ++ to_bytes (host_value 2) (h_update_counter h)).
    { intros v. rewrite (app_assoc (to_bytes (bytes _) _)), (app_assoc (to_bytes HeaderData_layout _)). apply take_app_length'. symmetry.
      rewrite !length_app, (lw_width _ HeaderData_lawful _ HD), (lw_width _ (bytes_lawful 468) _ HU),
        (lw_width _ (host_value_lawful 2) _ HC). vm_compute. reflexivity. }
    rewrite Ht in *. by rewrite E.
Qed.

(** ** The card after a change *)

Lemma counters_bound k c : card_ok k c ->
  d_update_counter (fst (m_directory_blocks c)) <= d_update_counter (GetActiveDirectory c) /\
  d_update_counter (snd (m_directory_blocks c)) <= d_update_counter (GetActiveDirectory c) /\
  b_update_counter (fst (m_bat_blocks c)) <= b_update_counter (GetActiveBat c) /\
  b_update_counter (snd (m_bat_blocks c)) <= b_update_counter (GetActiveBat c).
Proof.
  intros Hc. unfold GetActiveDirectory, GetActiveBat, copy_of. rewrite (co_active_dir _ _ Hc), (co_active_bat _ _ Hc).
  destruct (Z.leb_spec (d_update_counter (snd (m_directory_blocks c))) (d_update_counter (fst (m_directory_blocks c))));
    destruct (Z.leb_spec (b_update_counter (snd (m_bat_blocks c))) (b_update_counter (fst (m_bat_blocks c)))); cbn [Z.eqb]; lia.
Qed.

(** Only the links of a table matter. *)
Lemma map_at_ext b b' : m_map b' = m_map b -> forall x, map_at b' x = map_at b x.
Proof. intros H x. unfold map_at. by rewrite H. Qed.
Lemma chain_ext b b' n : m_map b' = m_map b -> forall x, chain b' n x = chain b n x.
Proof. intros H. induction n as [|n IH]; intros x; [done|]. simpl. by rewrite (map_at_ext b b' H), IH. Qed.
Lemma file_chain_ext b b' e : m_map b' = m_map b -> file_chain b' e = file_chain b e.
Proof. intros H. unfold file_chain. by rewrite (chain_ext b b'). Qed.
Lemma free_list_ext b b' size : m_map b' = m_map b -> free_list b' size = free_list b size.
Proof. intros H. apply filter_ext. intros x. by rewrite (map_at_ext b b' H). Qed.
Lemma consistent_ext size es b b' : m_map b' = m_map b -> consistent size es b -> consistent size es b'.
Proof.
  intros H [H1 H2 H3]. constructor; [done| |].
  - eapply Forall_impl; [exact H2|]. intros e He Hu. rewrite (file_chain_ext b b' e H).
    apply (linked_ext b b'); [|by apply He]. intros y _. by apply map_at_ext.
  - rewrite (free_list_ext b b' size H). unfold occupied. rewrite (map_ext _ (file_chain b)); [done|].
    intros e. by apply file_chain_ext.
Qed.

(** A directory and a table that are right but for their checksums. *)
Record dir_new (c : GCMemcard) (d : Directory) : Prop := {
  dn_fits : fits Directory_layout d;
  dn_padding : Forall (eq 0xFF) (m_padding d);
  dn_counter : d_update_counter d = d_update_counter (GetActiveDirectory c) + 1
}.
Record bat_new (c : GCMemcard) (b : BlockAlloc) : Prop := {
  bn_fits : fits BlockAlloc_layout b;
  bn_free : m_free_blocks b = Z.of_nat (length (free_list b (m_size_mb c * 16)));
  bn_unused : Forall (eq 0) (drop (Z.to_nat (m_size_mb c * 16 - 5)) (m_map b));
  bn_counter : b_update_counter b = b_update_counter (GetActiveBat c) + 1
}.
Definition updated (d : Directory) (b : BlockAlloc) (data : list (list Z)) (c : GCMemcard) : GCMemcard :=
  snd (FixChecksums (UpdateBat b (UpdateDirectory d (with_data data c)))).

Lemma Directory_FixChecksums_proj d : m_dir_entries (Directory_FixChecksums d) = m_dir_entries d /\
  d_update_counter (Directory_FixChecksums d) = d_update_counter d.
Proof. unfold Directory_FixChecksums. by destruct (Directory_CalculateChecksums d). Qed.
Lemma BlockAlloc_FixChecksums_proj b : m_map (BlockAlloc_FixChecksums b) = m_map b /\
  b_update_counter (BlockAlloc_FixChecksums b) = b_update_counter b /\
  m_free_blocks (BlockAlloc_FixChecksums b) = m_free_blocks b /\
  m_last_allocated_block (BlockAlloc_FixChecksums b) = m_last_allocated_block b.
Proof. unfold BlockAlloc_FixChecksums. by destruct (BlockAlloc_CalculateChecksums b). Qed.

(** The copies that were not in use are replaced. *)
Lemma updated_eq k d b data c : card_ok k c ->
  updated d b data c = mkCard true (m_size_blocks c) (m_size_mb c) (m_header_block c)
    (if m_active_directory c =? 0 then (GetActiveDirectory c, Directory_FixChecksums d)
     else (Directory_FixChecksums d, GetActiveDirectory c))
    (if m_active_bat c =? 0 then (GetActiveBat c, BlockAlloc_FixChecksums b) else (BlockAlloc_FixChecksums b, GetActiveBat c))
    data (if m_active_directory c =? 0 then 1 else 0) (if m_active_bat c =? 0 then 1 else 0).
Proof.
  intros Hc. pose proof (co_valid _ _ Hc) as Hv. pose proof (ho_checksum _ _ (co_header _ _ Hc)) as Hh.
  pose proof (do_checksum _ (co_dir0 _ _ Hc)) as D0. pose proof (do_checksum _ (co_dir1 _ _ Hc)) as D1.
  pose proof (bo_checksum _ _ (co_bat0 _ _ Hc)) as B0. pose proof (bo_checksum _ _ (co_bat1 _ _ Hc)) as B1. clear Hc.
  destruct c as [v sb mb h [d0 d1] [b0 b1] dat ad ab]. cbn [m_valid m_header_block m_directory_blocks m_bat_blocks fst snd] in *. subst v.
  unfold updated, FixChecksums, UpdateBat, UpdateDirectory, GetActiveDirectory, GetActiveBat, with_data, with_bats, with_directories.
  cbn [negb snd m_valid m_size_blocks m_size_mb m_data_blocks m_header_block m_active_directory m_active_bat m_directory_blocks m_bat_blocks].
  rewrite Hh. unfold copy_of. destruct (ad =? 0), (ab =? 0); cbn [Z.eqb put_copy fst snd prod_map]; congruence.
Qed.
Lemma updated_proj k d b data c : card_ok k c ->
  let c' := updated d b data c in
  GetActiveDirectory c' = Directory_FixChecksums d /\ GetActiveBat c' = BlockAlloc_FixChecksums b /\
  m_data_blocks c' = data /\ m_header_block c' = m_header_block c /\ m_size_mb c' = m_size_mb c.
Proof.
  intros Hc. cbv zeta. rewrite (updated_eq k d b data c Hc). unfold GetActiveDirectory, GetActiveBat, copy_of.
  cbn [m_size_mb m_data_blocks m_header_block m_active_directory m_active_bat m_directory_blocks m_bat_blocks].
  repeat split; [by destruct (m_active_directory c =? 0)|by destruct (m_active_bat c =? 0)].
Qed.

Lemma active_dir_ok k c : card_ok k c -> dir_ok (GetActiveDirectory c).
Proof. intros Hc. unfold GetActiveDirectory, copy_of. destruct (_ =? 0); apply Hc. Qed.
Lemma active_bat_ok k c : card_ok k c -> bat_ok (m_size_mb c) (GetActiveBat c).
Proof. intros Hc. unfold GetActiveBat, copy_of. destruct (_ =? 0); apply Hc. Qed.

Lemma updated_ok k d b data c : card_ok k c -> k < 0x7FFF -> dir_new c d -> bat_new c b ->
  length data = length (m_data_blocks c) -> Forall (fits (bytes BLOCK_SIZE)) data ->
  consistent (m_size_mb c * 16) (m_dir_entries d) b -> card_ok (k + 1) (updated d b data c).
Proof.
  intros Hc Hk [D1 D2 D3] [B1 B2 B3 B4] Hl Hd Hcon.
  pose proof (updated_proj k d b data c Hc) as (P1 & P2 & P3 & P4 & P5). pose proof (updated_eq k d b data c Hc) as E.
  pose proof (dir_fixed d D1 D2) as Hdir. pose proof (bat_fixed (m_size_mb c) b B1 B2 B3) as Hbat.
  pose proof (active_dir_ok k c Hc) as Hdir0. pose proof (active_bat_ok k c Hc) as Hbat0.
  pose proof (Directory_FixChecksums_proj d) as [Q1 Q2]. pose proof (BlockAlloc_FixChecksums_proj b) as (R1 & R2 & R3 & R4).
  pose proof (co_dir_counter _ _ Hc). pose proof (co_bat_counter _ _ Hc). pose proof (co_size_blocks _ _ Hc). pose proof (co_length _ _ Hc).
  assert (Hcon' : consistent (m_size_mb c * 16) (m_dir_entries (Directory_FixChecksums d)) (BlockAlloc_FixChecksums b)).
  { rewrite Q1. by apply (consistent_ext _ _ b). }
  constructor; rewrite ?P1, ?P2, ?P3, ?P4, ?P5; unfold entries; rewrite ?P1; try lia; try done; try apply Hc; rewrite E;
    cbn [m_valid m_size_blocks m_active_directory m_active_bat m_directory_blocks m_bat_blocks]; try done;
    try (by destruct (m_active_directory c =? 0)); try (by destruct (m_active_bat c =? 0)).
  - destruct (m_active_directory c =? 0); cbn [fst snd]; rewrite Q2, D3; symmetry; [rewrite (proj2 (Z.leb_gt _ _))|rewrite (proj2 (Z.leb_le _ _))]; done || lia.
  - destruct (m_active_bat c =? 0); cbn [fst snd]; rewrite R2, B4; symmetry; [rewrite (proj2 (Z.leb_gt _ _))|rewrite (proj2 (Z.leb_le _ _))]; done || lia.
Qed.

(** *** A formatted card *)

(** What the program formats a card with: the serial number and the settings of
    the console, and the time. *)
Record format_args_ok (flash_id : list Z) (size_mbits rtc_bias sram_language format_time : Z) : Prop := {
  fa_flash : length flash_id = 12%nat;
  fa_size : size_mbits ∈ valid_megabits;
  fa_bias : is_u32 rtc_bias;
  fa_language : is_u32 sram_language;
  fa_time : is_u64 format_time
}.

Lemma format_serial_fits flash rand : length (format_serial flash rand) = length flash /\ Forall is_u8 (format_serial flash rand).
Proof.
  revert rand. induction flash as [|f flash IH]; intros rand; [by split; [|constructor]|]. cbn [format_serial].
  destruct (IH ((u64 (u64 ((u64 (u64 (rand * 0x41c64e6d) + 0x3039) .>> 16) * 0x41c64e6d) + 0x3039) .>> 16) .& 0x7fff)) as [H1 H2].
  split; [by cbn [length]; rewrite H1|]. constructor; [apply is_u8_u8|done].
Qed.
Lemma Forall_replicate_eq {A} n (x : A) : Forall (eq x) (replicate n x).
Proof. by apply Forall_replicate. Qed.
Lemma Header_of_ok flash mb shift_jis bias language time : format_args_ok flash mb bias language time ->
  header_ok mb (Header_of (InitializeHeaderData flash mb shift_jis bias language time)).
Proof.
  intros [H1 H2%valid_size H3 H4 H5]. apply header_fixed; [|done|apply Forall_replicate_eq|apply Forall_replicate_eq].
  destruct (format_serial_fits flash time) as [S1 S2]. unfold is_u32, is_u64 in *.
  assert (Hd : fits HeaderData_layout (InitializeHeaderData flash mb shift_jis bias language time)).
  { cbn. rewrite S1, H1. repeat match goal with |- _ /\ _ => split end; try done; try lia; by destruct shift_jis. }
  assert (Hu : forall n, fits (bytes n) (replicate (Z.to_nat n) 0xFF)).
  { intros n. split; [apply length_replicate|]. by apply Forall_replicate. }
  refine (conj (conj (conj (conj (conj Hd (Hu 468)) _) _) _) (Hu 7680)); by cbn.
Qed.
Lemma used_empty : used empty_DEntry = false.
Proof. vm_compute. reflexivity. Qed.
Lemma empty_DEntry_fits : fits DEntry_layout empty_DEntry.
Proof. vm_compute. repeat constructor; discriminate. Qed.
Lemma empty_Directory_ok : dir_ok empty_Directory.
Proof.
  constructor.
  - assert (Ha : fits (array DIRLEN DEntry_layout) (replicate (Z.to_nat DIRLEN) empty_DEntry)).
    { split; [apply length_replicate|]. apply Forall_replicate, empty_DEntry_fits. }
    assert (Hp : fits (bytes 0x3a) (replicate (Z.to_nat 0x3a) 0xFF)).
    { split; [apply length_replicate|]. by apply Forall_replicate. }
    refine (conj (conj (conj (conj Ha Hp) _) _) _); by vm_compute.
  - apply Forall_replicate_eq.
  - vm_compute. reflexivity.
Qed.
Lemma empty_table b size : m_map b = replicate (Z.to_nat BAT_SIZE) 0 -> free_list b size = data_area size.
Proof.
  intros Hm. unfold free_list. rewrite (filter_ext_in _ (fun _ => true)); [by induction (data_area size) as [|x l IH]; [|simpl; rewrite IH]|].
  intros x _. unfold map_at, zget. rewrite Hm. destruct (0 <=? _); [|done].
  destruct (decide (Z.to_nat (x - MC_FST_BLOCKS) < Z.to_nat BAT_SIZE)%nat).
  - by rewrite lookup_replicate_2.
  - by rewrite lookup_ge_None_2 by (rewrite length_replicate; lia).
Qed.
Lemma length_data_area size : length (data_area size) = Z.to_nat (size - 5).
Proof. unfold data_area. by rewrite length_map, length_seq. Qed.
Lemma BlockAlloc_of_ok mb : mb ∈ valid_megabits -> bat_ok mb (BlockAlloc_of mb).
Proof.
  intros Hmb%valid_size. unfold BlockAlloc_of. apply bat_fixed; cbn [m_free_blocks m_map].
  - apply BlockAlloc_fits; unfold is_u16, is_s16; try lia; [by apply Z.mod_pos_bound|].
    split; [apply length_replicate|]. by apply Forall_replicate.
  - rewrite empty_table by done. rewrite length_data_area. unfold MbitToFreeBlocks. change MBIT_TO_BLOCKS with 16. change MC_FST_BLOCKS with 5. zlia.
  - cbn [m_map]. apply Forall_drop, Forall_replicate_eq.
Qed.
Lemma concat_nils {A} (L : list (list A)) : Forall (eq []) L -> concat L = [].
Proof. by induction 1 as [|x L <- _ IH]. Qed.

Lemma Format_ok flash mb shift_jis bias language time : format_args_ok flash mb bias language time ->
  card_ok 0 (Format flash mb shift_jis bias language time).
Proof.
  intros H. pose proof (fa_size _ _ _ _ _ H) as Hmb. pose proof (valid_size _ Hmb) as Hmb'.
  assert (Hs : u32 (mb * MBIT_TO_BLOCKS) = mb * 16) by (change MBIT_TO_BLOCKS with 16; zlia).
  apply mk_card_ok; unfold Format; cbn [m_valid m_size_mb m_size_blocks m_header_block m_directory_blocks m_bat_blocks fst snd
    m_data_blocks m_active_directory m_active_bat].
  - reflexivity.
  - exact Hmb.
  - exact Hs.
  - by apply Header_of_ok.
  - exact empty_Directory_ok.
  - exact empty_Directory_ok.
  - by apply BlockAlloc_of_ok.
  - by apply BlockAlloc_of_ok.
  - rewrite length_replicate, Hs. unfold MC_FST_BLOCKS. lia.
  - apply Forall_replicate. split; [apply length_replicate|]. by apply Forall_replicate.
  - by rewrite Z.leb_refl.
  - by rewrite Z.leb_refl.
  - change (consistent (mb * 16) (replicate (Z.to_nat DIRLEN) empty_DEntry) (BlockAlloc_of mb)). constructor.
    + apply Forall_replicate. reflexivity.
    + apply Forall_replicate. rewrite used_empty. discriminate.
    + rewrite empty_table by apply BlockAlloc_FixChecksums_proj. unfold occupied.
      rewrite concat_nils; [reflexivity|]. apply Forall_fmap, Forall_replicate. unfold compose, file_chain. by rewrite used_empty.
  - by vm_compute.
  - change (b_update_counter (BlockAlloc_of mb) <= 0). unfold BlockAlloc_of. by rewrite (proj1 (proj2 (BlockAlloc_FixChecksums_proj _))).
Qed.

(** ** What the chains of the files become *)

Lemma length_chain b n x : length (chain b n x) = n.
Proof. revert x. induction n as [|n IH]; intros x; [done|]. simpl. by rewrite IH. Qed.
Lemma unused_chain b e : used e = false -> file_chain b e = [].
Proof. intros H. unfold file_chain. by rewrite H. Qed.
(** A chain that does not meet the changed blocks stays. *)
Lemma linked_kept b b' size e : used e = true -> linked b size (m_first_block e) (file_chain b e) ->
  (forall y, y ∈ file_chain b e -> map_at b' y = map_at b y) ->
  file_chain b' e = file_chain b e /\ linked b' size (m_first_block e) (file_chain b' e).
Proof.
  intros Hu Hl Hm. pose proof (linked_ext b b' size _ Hm _ Hl) as Hl'. pose proof (linked_chain b' size _ _ Hl') as E.
  assert (E' : file_chain b' e = file_chain b e).
  { rewrite E. unfold file_chain. rewrite Hu. by rewrite length_chain. }
  split; [done|]. by rewrite E'.
Qed.
Lemma chain_taken size es b e : consistent size es b -> e ∈ es ->
  Forall (fun x => x ∈ data_area size /\ map_at b x <> 0) (file_chain b e).
Proof.
  intros [_ H _] He. rewrite Forall_forall in H. specialize (H e He). destruct (used e) eqn:Hu.
  - specialize (H eq_refl). apply Forall_and. split; [by apply (linked_in_area b size _ (m_first_block e))|by apply (linked_taken b size _ (m_first_block e))].
  - rewrite unused_chain by done. constructor.
Qed.
Lemma occupied_insert b es i e e' : es !! i = Some e ->
  Permutation (file_chain b e ++ occupied b (<[i := e']> es)) (file_chain b e' ++ occupied b es).
Proof.
  intros Hi. unfold occupied. change (map (file_chain b) (<[i := e']> es)) with (file_chain b <$> <[i := e']> es).
  rewrite list_fmap_insert. apply concat_insert_perm. change (map ?f es) with (f <$> es). by rewrite list_lookup_fmap, Hi.
Qed.

(** *** A file is added *)

Lemma consistent_import size first fb data data' b b' l es i e0 e :
  consistent size es b -> imported size first fb data data' b b' l ->
  es !! i = Some e0 -> used e0 = false -> used e = true -> m_first_block e = first -> Z.to_nat (m_block_count e) = length l ->
  consistent size (<[i := e]> es) b' /\ file_chain b' e = l /\
  Forall (fun e => file_chain b' e = file_chain b e /\ Forall (fun x => 5 <= x /\ x ∉ l) (file_chain b e)) es.
Proof.
  intros Hc Him Hi Hu0 Hu Hf Hn. pose proof Hc as [C1 C2 C3]. pose proof Him as [I1 I2 I3 I4 I5 I6 I7 I7b I8 I9 I10 I11].
  assert (El : file_chain b' e = l).
  { unfold file_chain. rewrite Hu, Hf, Hn. symmetry. by apply (linked_chain b' size). }
  assert (Hfar : forall e, e ∈ es -> Forall (fun x => 5 <= x /\ x ∉ l) (file_chain b e)).
  { intros e1 He1. eapply Forall_impl; [by apply (chain_taken size es)|]. intros x [Hx Hx0]. split; [apply data_area_spec in Hx; lia|].
    intros Hxl. apply Hx0. assert (Hxf : x ∈ free_list b size) by (rewrite I2; apply elem_of_app; by left). by apply elem_of_free_list in Hxf as [_ ?]. }
  assert (Hkeep : forall e, e ∈ es -> used e = true -> file_chain b' e = file_chain b e /\ linked b' size (m_first_block e) (file_chain b' e)).
  { intros e1 He1 Hu1. apply linked_kept; [done|rewrite Forall_forall in C2; by apply C2|]. intros y Hy.
    specialize (Hfar e1 He1). rewrite Forall_forall in Hfar. apply I3; by apply Hfar. }
  assert (Hsame : Forall (fun e => file_chain b' e = file_chain b e) es).
  { apply Forall_forall. intros e1 He1. destruct (used e1) eqn:Hu1; [by apply Hkeep|]. by rewrite !unused_chain. }
  split; [|split; [done|]].
  - constructor.
    + apply Forall_insert; [done|]. rewrite Hu. discriminate.
    + apply Forall_insert; [|intros _; by rewrite El, Hf]. apply Forall_forall. intros e1 He1 Hu1. by apply Hkeep.
    + pose proof (occupied_insert b' es i e0 e Hi) as Hp. rewrite (unused_chain b' e0 Hu0), El in Hp. cbn [app] in Hp.
      rewrite Hp. unfold occupied at 1. rewrite (map_ext_Forall _ (file_chain b)) by done. fold (occupied b es).
      rewrite <- C3, I2. rewrite <- app_assoc. apply Permutation_app_swap_app.
  - apply Forall_and. split; [done|]. apply Forall_forall. intros e1 He1. by apply Hfar.
Qed.

(** *** A file is removed *)

Lemma consistent_remove size b es i e : size <= 4096 -> words (m_map b) -> consistent size es b -> es !! i = Some e -> used e = true ->
  let b' := set_map (fold_left clear_block (file_chain b e) (m_map b)) b in
  words (m_map b') /\ drop (Z.to_nat (size - 5)) (m_map b') = drop (Z.to_nat (size - 5)) (m_map b) /\
  Permutation (free_list b' size) (file_chain b e ++ free_list b size) /\
  consistent size (<[i := empty_DEntry]> es) b' /\
  Forall (fun e => file_chain b' e = file_chain b e) (<[i := empty_DEntry]> es).
Proof.
  intros Hs Hw Hc Hi Hu b'. pose proof Hc as [C1 C2 C3]. set (l := file_chain b e) in *.
  assert (He : e ∈ es) by (by apply (list_elem_of_lookup_2 _ i)).
  pose proof (occupied_insert b es i e empty_DEntry Hi) as Hp. rewrite (unused_chain b empty_DEntry used_empty) in Hp. cbn [app] in Hp. fold l in Hp.
  assert (Hnd : NoDup (l ++ occupied b (<[i := empty_DEntry]> es))).
  { rewrite Hp. pose proof (data_area_NoDup size) as Hnd. rewrite <- C3 in Hnd. by apply NoDup_app in Hnd as [? _]. }
  apply NoDup_app in Hnd as (Hnd & Hdis & _).
  pose proof (chain_taken size es b e Hc He) as Ht. fold l in Ht.
  destruct (clear_blocks_spec size l Hs b Hw Hnd Ht) as (K1 & K2 & K3 & K4). fold b' in K1, K2, K3, K4.
  assert (Hes : forall e1, e1 ∈ <[i := empty_DEntry]> es -> used e1 = true -> e1 ∈ es /\ forall y, y ∈ file_chain b e1 -> 5 <= y /\ y ∉ l).
  { intros e1 He1 Hu1. apply list_elem_of_lookup in He1 as [j Hj]. destruct (decide (i = j)) as [<-|Hne].
    { rewrite list_lookup_insert_eq in Hj by (by eapply lookup_lt_Some). injection Hj as <-. by rewrite used_empty in Hu1. }
    assert (Hj' := Hj). rewrite list_lookup_insert_ne in Hj by done. assert (He1 : e1 ∈ es) by (by apply (list_elem_of_lookup_2 _ j)). split; [done|].
    intros y Hy. pose proof (chain_taken size es b e1 Hc He1) as Ht1. rewrite Forall_forall in Ht1. destruct (Ht1 y Hy) as [Hy5%data_area_spec _].
    split; [lia|]. intros Hyl. apply (Hdis y Hyl). unfold occupied. apply list_elem_of_In, in_concat. exists (file_chain b e1).
    split; [|by apply list_elem_of_In]. apply in_map, list_elem_of_In, (list_elem_of_lookup_2 _ j). exact Hj'. }
  assert (Hkeep : forall e1, e1 ∈ <[i := empty_DEntry]> es -> used e1 = true ->
    file_chain b' e1 = file_chain b e1 /\ linked b' size (m_first_block e1) (file_chain b' e1)).
  { intros e1 He1 Hu1. destruct (Hes e1 He1 Hu1) as [He1' Hd]. apply linked_kept; [done|rewrite Forall_forall in C2; by apply C2|].
    intros y Hy. apply K3; by apply Hd. }
  assert (Hsame : Forall (fun e => file_chain b' e = file_chain b e) (<[i := empty_DEntry]> es)).
  { apply Forall_forall. intros e1 He1. destruct (used e1) eqn:Hu1; [by apply Hkeep|]. by rewrite !unused_chain. }
  split; [done|]. split; [done|]. split; [done|]. split; [|done]. constructor.
  - apply Forall_insert; done.
  - apply Forall_forall. intros e1 He1 Hu1. by apply Hkeep.
  - unfold occupied. rewrite (map_ext_Forall _ (file_chain b)) by done. fold (occupied b (<[i := empty_DEntry]> es)).
    rewrite K2, <- C3, <- Hp, <- app_assoc. apply Permutation_app_swap_app.
Qed.

(** ** The store of files *)

(** Binding a file to its card: the two games that do. *)
Definition bind_to_card (h : Header) (f : Savefile) : option (list (list Z)) :=
  blocks ← FZEROGX_MakeSaveGameValid h (dir_entry f) (blocks f);
  PSO_MakeSaveGameValid h (dir_entry f) blocks.

(** A file that can be on a card. *)
Record savefile_ok (f : Savefile) : Prop := {
  so_fits : fits DEntry_layout (dir_entry f);
  so_used : used (dir_entry f) = true;
  so_count : m_block_count (dir_entry f) = Z.of_nat (length (blocks f));
  so_positive : (1 <= length (blocks f))%nat;
  so_blocks : Forall (fits (bytes BLOCK_SIZE)) (blocks f);
  so_pso : strcmp_eq (name_bytes (dir_entry f)) PSO_SYSTEM = true \/ strcmp_eq (name_bytes (dir_entry f)) PSO3_SYSTEM = true ->
    (2 <= length (blocks f))%nat
}.

Lemma put_bytes_ok i off v fb : 0 <= i < Z.of_nat (length fb) -> 0 <= off -> off + Z.of_nat (length v) <= BLOCK_SIZE ->
  Forall is_u8 v -> Forall (fits (bytes BLOCK_SIZE)) fb ->
  exists fb', put_bytes i off v fb = Some fb' /\ length fb' = length fb /\ Forall (fits (bytes BLOCK_SIZE)) fb'.
Proof.
  intros Hi Hoff Hv Hv8 Hfb. unfold put_bytes, zget, zset. rewrite (proj2 (Z.leb_le 0 i)), (proj2 (Z.ltb_lt i _)) by lia. cbn [andb].
  destruct (lookup_lt_is_Some_2 fb (Z.to_nat i)) as [b Hb]; [lia|]. rewrite Hb. cbn [base.mbind option_bind].
  eexists. split; [reflexivity|]. split; [apply length_insert|]. apply Forall_insert; [done|].
  pose proof (proj1 (Forall_lookup _ _) Hfb _ _ Hb) as [Hbl Hb8]. split.
  - rewrite !length_app, length_take, length_drop, Hbl. unfold BLOCK_SIZE in *. lia.
  - apply Forall_app. split; [by apply Forall_take|]. apply Forall_app. split; [done|by apply Forall_drop].
Qed.
Ltac put_block fb :=
  match goal with
  | Hf : Forall (fits (bytes BLOCK_SIZE)) ?l |- context [put_bytes ?i ?off ?v ?l] =>
      destruct (put_bytes_ok i off v l) as (fb & -> & ?Hl & ?Hfits);
      [lia|lia|rewrite ?length_rev, length_to_be; unfold BLOCK_SIZE; lia|try apply Forall_rev; apply to_be_u8|exact Hf|];
      cbn [base.mbind option_bind]
  end.
Lemma bind_to_card_ok h f : savefile_ok f -> exists bs, bind_to_card h f = Some bs /\ length bs = length (blocks f) /\
  Forall (fits (bytes BLOCK_SIZE)) bs.
Proof.
  intros [_ _ _ _ Hb Hp]. unfold bind_to_card.
  assert (Hz : exists bs, FZEROGX_MakeSaveGameValid h (dir_entry f) (blocks f) = Some bs /\ length bs = length (blocks f) /\
    Forall (fits (bytes BLOCK_SIZE)) bs).
  { unfold FZEROGX_MakeSaveGameValid. destruct (strcmp_eq (name_bytes (dir_entry f)) f_zero_dat); cbn [negb]; [|eauto].
    destruct (Nat.eqb_spec (length (blocks f)) 4) as [H4|_]; cbn [negb]; [|eauto]. destruct (CalculateSerial h) as [s1 s2].
    put_block fb1. put_block fb2. put_block fb3. put_block fb4. put_block fb5. eexists. split; [reflexivity|]. split; [lia|done]. }
  destruct Hz as (bs & -> & Hl & Hbs). cbn [base.mbind option_bind]. unfold PSO_MakeSaveGameValid.
  destruct (strcmp_eq (name_bytes (dir_entry f)) PSO_SYSTEM) eqn:E1, (strcmp_eq (name_bytes (dir_entry f)) PSO3_SYSTEM) eqn:E2;
    cbn [negb andb]; try (exists bs; split; [reflexivity|done]); (assert (2 <= length (blocks f))%nat by auto);
    destruct (CalculateSerial h) as [s1 s2]; put_block fb1; put_block fb2;
    (destruct (lookup_lt_is_Some_2 fb2 1%nat) as [b Hb1]; [lia|]); unfold zget; cbn [Z.leb Z.compare]; change (Z.to_nat 1) with 1%nat; rewrite Hb1;
    cbn [base.mbind option_bind]; put_block fb3; (eexists; split; [reflexivity|]; split; [lia|done]).
Qed.

(** What is kept in a slot, and in all of them; where the blocks lie is not seen. *)
Definition slot (b : BlockAlloc) (data : list (list Z)) (e : DEntry) : option Savefile :=
  if used e then Some (mkSavefile (set_first_block 0 e) (map (block_at data) (file_chain b e))) else None.
Definition slots (c : GCMemcard) : list (option Savefile) := map (slot (GetActiveBat c) (m_data_blocks c)) (entries c).
Definition files (s : list (option Savefile)) : list Savefile := omap id s.
Fixpoint first_free (s : list (option Savefile)) : nat :=
  match s with Some _ :: s' => S (first_free s') | _ => 0%nat end.

(** The store's operations, for a card with header [h] and [capacity] blocks. *)
Definition store_import (h : Header) (capacity : Z) (f : Savefile) (s : list (option Savefile)) :
    GCMemcardImportFileRetVal * list (option Savefile) :=
  let e := dir_entry f in
  if DIRLEN <=? Z.of_nat (length (files s)) then (Import_OUTOFDIRENTRIES, s)
  else if capacity - Z.of_nat (GetBlockCount (files s)) <? m_block_count e then (Import_OUTOFBLOCKS, s)
  else if existsb (fun g => HasSameIdentity (dir_entry g) e) (files s) then (Import_TITLEPRESENT, s)
  else (Import_SUCCESS,
    <[first_free s := (fun bs => mkSavefile (set_copy_counter (u8 (m_copy_counter e + 1)) (set_first_block 0 e)) bs) <$> bind_to_card h f]> s).
Definition store_remove (i : Z) (s : list (option Savefile)) : GCMemcardRemoveFileRetVal * list (option Savefile) :=
  match s !! Z.to_nat i with
  | Some (Some _) => (Remove_SUCCESS, <[Z.to_nat i := None]> s)
  | _ => (Remove_DELETE_FAIL, s)
  end.

(** *** What the card counts *)

Lemma files_cons b data e es : files (map (slot b data) (e :: es)) =
  (if used e then [mkSavefile (set_first_block 0 e) (map (block_at data) (file_chain b e))] else []) ++ files (map (slot b data) es).
Proof. unfold files, slot. simpl. by destruct (used e). Qed.
Lemma count_files b data es : length (files (map (slot b data) es)) = length (List.filter used es).
Proof.
  induction es as [|e es IH]; [done|]. rewrite files_cons, length_app, IH. cbn [List.filter]. by destruct (used e).
Qed.
Lemma count_blocks b data es : GetBlockCount (files (map (slot b data) es)) = length (occupied b es).
Proof.
  induction es as [|e es IH]; [done|]. rewrite files_cons. unfold GetBlockCount, occupied in *. rewrite sum_list_with_app, IH.
  cbn [map concat]. rewrite length_app. f_equal. destruct (used e) eqn:Hu; [|by rewrite unused_chain].
  cbn [sum_list_with blocks]. by rewrite length_map, Nat.add_0_r.
Qed.
Lemma free_blocks k c : card_ok k c ->
  m_free_blocks (GetActiveBat c) = m_size_mb c * 16 - 5 - Z.of_nat (GetBlockCount (files (slots c))).
Proof.
  intros Hc. unfold slots. rewrite count_blocks, (bo_free _ _ (active_bat_ok k c Hc)).
  pose proof (Permutation_length (cs_shared _ _ _ (co_consistent _ _ Hc))) as Hp. rewrite length_app, length_data_area in Hp.
  pose proof (valid_size _ (co_size_mb _ _ Hc)). lia.
Qed.
Lemma title_found d es b data i : used d = true -> Forall (fun e => used e = false -> e = empty_DEntry) es ->
  match find_entry (fun e => HasSameIdentity e d) i es with Some _ => true | None => false end =
  existsb (fun g => HasSameIdentity (dir_entry g) d) (files (map (slot b data) es)).
Proof.
  intros Hd He. revert i. induction He as [|e es He _ IH]; intros i; [done|]. rewrite files_cons, existsb_app, <- (IH (i + 1)).
  cbn [find_entry]. destruct (used e) eqn:Hu; cbn [existsb dir_entry].
  - change (HasSameIdentity (set_first_block 0 e) d) with (HasSameIdentity e d). by destruct (HasSameIdentity e d).
  - assert (E : HasSameIdentity e d = false).
    { unfold HasSameIdentity. rewrite (He eq_refl). rewrite bool_decide_eq_false_2; [done|]. intros Hg. unfold used in Hd.
      rewrite <- Hg in Hd. vm_compute in Hd. discriminate. }
    by rewrite E.
Qed.
Lemma first_free_found b data es : forall i, (length (files (map (slot b data) es)) < length es)%nat ->
  let j := first_free (map (slot b data) es) in
  find_entry (fun e => negb (used e)) i es = Some (i + Z.of_nat j) /\ exists e, es !! j = Some e /\ used e = false.
Proof.
  rewrite count_files. induction es as [|e es IH]; intros i Hl; [simpl in Hl; lia|]. cbn [map find_entry List.filter length] in *.
  unfold slot at 1 3. destruct (used e) eqn:Hu; cbn [negb first_free length] in *.
  - destruct (IH (i + 1)) as [H1 H2]; [lia|]. rewrite H1. split; [f_equal; lia|done].
  - split; [f_equal; lia|]. eauto.
Qed.

(** *** Importing *)

Lemma card_ok_mono k k' c : k <= k' -> card_ok k c -> card_ok k' c.
Proof. intros Hk [? ? ? ? ? ? ? ? ? ? ? ? ? ? ?]. by constructor; try lia. Qed.
Lemma entry_fits e first copies : fits DEntry_layout e -> is_u16 first -> is_u8 copies ->
  fits DEntry_layout (set_copy_counter copies (set_first_block first e)).
Proof.
  intros [[[[[[[[[[[[[[H1 H2] H3] H4] H5] H6] H7] H8] H9] H10] H11] H12] H13] H14] H15] Hf Hc.
  exact (conj (conj (conj (conj (conj (conj (conj (conj (conj (conj (conj (conj (conj (conj H1 H2) H3) H4) H5) H6) H7) H8) H9)
    H10) Hc) Hf) H13) H14) H15).
Qed.
Lemma Directory_fits es padding counter sum inv : length es = Z.to_nat DIRLEN -> Forall (fits DEntry_layout) es ->
  fits (bytes 0x3a) padding -> is_s16 counter -> is_u16 sum -> is_u16 inv -> fits Directory_layout (mkDirectory es padding counter sum inv).
Proof. intros H1 H2 H3 H4 H5 H6. exact (conj (conj (conj (conj (conj H1 H2) H3) H4) H5) H6). Qed.
(** A directory with one entry changed. *)
Lemma dir_changed k c i e : card_ok k c -> k < 0x7FFF -> fits DEntry_layout e ->
  let d := GetActiveDirectory c in
  dir_new c (set_dir_counter (s16 (d_update_counter d + 1)) (set_dir_entries (<[i := e]> (m_dir_entries d)) d)).
Proof.
  intros Hc Hk He d. pose proof (active_dir_ok k c Hc) as [Hf Hp _]. fold d in Hf, Hp. pose proof (co_dir_counter _ _ Hc) as Hcnt. fold d in Hcnt.
  destruct Hf as [[[[[HA HB] HP] HC] HS] HI]. change (is_s16 (d_update_counter d)) in HC. unfold is_s16 in HC.
  assert (E : s16 (d_update_counter d + 1) = d_update_counter d + 1) by zlia. rewrite E. constructor; [|done|done].
  unfold set_dir_counter, set_dir_entries. cbn [m_dir_entries m_padding d_update_counter d_checksum d_checksum_inv].
  apply Directory_fits; [|by apply Forall_insert|done|unfold is_s16; lia|done|done]. by rewrite length_insert.
Qed.
(** A table with other links. *)
Lemma bat_changed k c b free : card_ok k c -> k < 0x7FFF -> words (m_map b) ->
  b_checksum b = b_checksum (GetActiveBat c) -> b_checksum_inv b = b_checksum_inv (GetActiveBat c) ->
  b_update_counter b = b_update_counter (GetActiveBat c) -> is_u16 (m_last_allocated_block b) ->
  free = Z.of_nat (length (free_list b (m_size_mb c * 16))) ->
  drop (Z.to_nat (m_size_mb c * 16 - 5)) (m_map b) = drop (Z.to_nat (m_size_mb c * 16 - 5)) (m_map (GetActiveBat c)) ->
  bat_new c (set_bat_counter (s16 (b_update_counter b + 1)) (set_free_blocks (u16 free) b)).
Proof.
  intros Hc Hk Hw E1 E2 E3 Hlast Hfree Hdrop. pose proof (active_bat_ok k c Hc) as [Hf Hfr Hun _]. pose proof (co_bat_counter _ _ Hc) as Hcnt.
  pose proof (valid_size _ (co_size_mb _ _ Hc)) as Hmb.
  destruct Hf as [[[[[H1 H2] H3] H4] H5] H6]. change (is_s16 (b_update_counter (GetActiveBat c))) in H3. unfold is_s16 in H3.
  assert (Hle : (length (free_list b (m_size_mb c * 16)) <= Z.to_nat (m_size_mb c * 16 - 5))%nat).
  { rewrite <- length_data_area. apply List.filter_length_le. }
  assert (Ef : u16 free = free) by zlia. rewrite Ef, E3. replace (s16 _) with (b_update_counter (GetActiveBat c) + 1) by zlia.
  unfold set_bat_counter, set_free_blocks. constructor; cbn [b_checksum b_checksum_inv b_update_counter m_free_blocks m_last_allocated_block m_map]; [|done| |done].
  - apply BlockAlloc_fits; rewrite ?E1, ?E2; try done; unfold is_s16, is_u16; lia.
  - by rewrite Hdrop.
Qed.
Lemma slot_ext b b' data data' e : file_chain b' e = file_chain b e ->
  Forall (fun y => block_at data' y = block_at data y) (file_chain b e) -> slot b' data' e = slot b data e.
Proof. intros E H. unfold slot. rewrite E. by rewrite (map_ext_Forall _ _ H). Qed.
Lemma imported_data_fits size first fb data data' b b' l : imported size first fb data data' b b' l ->
  Forall (fits (bytes BLOCK_SIZE)) fb -> Forall (fits (bytes BLOCK_SIZE)) data -> Forall (fits (bytes BLOCK_SIZE)) data'.
Proof.
  intros H Hfb Hd. apply Forall_lookup. intros i x Hx. set (y := Z.of_nat i + 5).
  assert (Hat : forall d, block_at d y = default [] (d !! i)).
  { intros d. unfold block_at, zget, MC_FST_BLOCKS. rewrite (proj2 (Z.leb_le 0 _)) by lia. by replace (Z.to_nat (y - 5)) with i by lia. }
  pose proof (Hat data') as E. rewrite Hx in E. cbn [default from_option id] in E.
  destruct (decide (y ∈ l)) as [Hy|Hy].
  - rewrite Forall_forall in Hfb. apply Hfb. rewrite <- (im_blocks _ _ _ _ _ _ _ _ H), list_elem_of_In. apply in_map_iff.
    exists y. split; [exact E|by apply list_elem_of_In].
  - rewrite (im_data _ _ _ _ _ _ _ _ H y) in E by (done || lia). rewrite Hat in E.
    destruct (data !! i) as [x'|] eqn:Hx'; [|apply lookup_lt_Some in Hx; apply lookup_ge_None in Hx'; rewrite (im_length _ _ _ _ _ _ _ _ H) in Hx; lia].
    simpl in E. subst x'. by apply (proj1 (Forall_lookup _ _) Hd i).
Qed.

(** What a card shows of itself. *)
Record shows (c : GCMemcard) (h : Header) (mb : Z) (s : list (option Savefile)) : Prop := {
  sh_header : m_header_block c = h;
  sh_size : m_size_mb c = mb;
  sh_slots : slots c = s
}.

Lemma updated_slots k d b data c : card_ok k c ->
  shows (updated d b data c) (m_header_block c) (m_size_mb c) (map (slot b data) (m_dir_entries d)).
Proof.
  intros Hc. destruct (updated_proj k d b data c Hc) as (P1 & P2 & P3 & P4 & P5). constructor; [done|done|].
  unfold slots, entries. rewrite P1, P2, P3, (proj1 (Directory_FixChecksums_proj d)). apply map_ext. intros e.
  apply slot_ext; [by apply file_chain_ext, BlockAlloc_FixChecksums_proj|]. by apply Forall_forall.
Qed.

(** The card after the loop: the new file in its slot, the others as they were. *)
Lemma imported_card k c e first i e0 bs data b l : card_ok k c -> k < 0x7FFF ->
  fits DEntry_layout e -> used e = true -> first ∈ free_list (GetActiveBat c) (m_size_mb c * 16) -> m_first_block e = first ->
  Z.to_nat (m_block_count e) = length bs -> Forall (fits (bytes BLOCK_SIZE)) bs -> 0 <= m_block_count e ->
  entries c !! i = Some e0 -> used e0 = false ->
  imported (m_size_mb c * 16) first bs (m_data_blocks c) data (GetActiveBat c) b l ->
  let d := GetActiveDirectory c in
  let d := set_dir_counter (s16 (d_update_counter d + 1)) (set_dir_entries (<[i := e]> (m_dir_entries d)) d) in
  let b := set_free_blocks (u16 (m_free_blocks b - m_block_count e)) b in
  let c' := updated d (set_bat_counter (s16 (b_update_counter b + 1)) b) data c in
  card_ok (k + 1) c' /\ shows c' (m_header_block c) (m_size_mb c) (<[i := Some (mkSavefile (set_first_block 0 e) bs)]> (slots c)).
Proof.
  intros Hc Hk He Hu Hfirst Hfb Hn Hbs Hpos Hi Hu0 Him. cbv zeta.
  pose proof Him as [I1 I2 I3 I4 I5 I6 I7 [I7b I7c] I8 I9 I10 I11].
  pose proof (valid_size _ (co_size_mb _ _ Hc)) as Hmb. pose proof (active_bat_ok k c Hc) as Hbat.
  assert (Hll : length l = length bs) by (rewrite <- I10; by rewrite length_map).
  destruct (consistent_import _ _ _ _ _ _ _ _ _ i e0 e (co_consistent _ _ Hc) Him Hi Hu0 Hu Hfb ltac:(lia)) as (K1 & K2 & K3).
  cbn [set_free_blocks b_update_counter]. set (b1 := set_bat_counter _ _).
  assert (Hm : m_map b1 = m_map b) by done.
  assert (Hbn : bat_new c b1).
  { apply (bat_changed k c b (m_free_blocks b - m_block_count e) Hc Hk I4 I7b I7c I6); [|  |by rewrite I5].
    - apply data_area_spec in I8. unfold is_u16. lia.
    - rewrite I7, (bo_free _ _ Hbat), I2, length_app. lia. }
  split.
  - apply updated_ok; [done|done|by apply (dir_changed k)|done|done| |].
    + by apply (imported_data_fits _ _ _ _ _ _ _ _ Him Hbs), (co_data _ _ Hc).
    + by apply (consistent_ext _ _ b).
  - destruct (updated_slots k (set_dir_counter (s16 (d_update_counter (GetActiveDirectory c) + 1))
      (set_dir_entries (<[i := e]> (m_dir_entries (GetActiveDirectory c))) (GetActiveDirectory c))) b1 data c Hc) as [S1 S2 S3].
    constructor; [done|done|]. rewrite S3. cbn [set_dir_counter set_dir_entries m_dir_entries]. unfold slots.
    change (map ?f ?x) with (f <$> x). rewrite list_fmap_insert. f_equal.
    + unfold slot. rewrite Hu, (file_chain_ext b b1 e Hm), K2. by rewrite I10.
    + change (?f <$> ?x) with (map f x). apply map_ext_Forall. eapply Forall_impl; [exact K3|]. intros e1 [E1 F1].
      apply slot_ext; [by rewrite (file_chain_ext b b1 e1 Hm)|]. eapply Forall_impl; [exact F1|]. intros y [Hy1 Hy2]. by apply I11.
Qed.

Lemma import_refines k c f : card_ok k c -> k < 0x7FFF -> savefile_ok f ->
  let '(answer, s) := store_import (m_header_block c) (m_size_mb c * 16 - 5) f (slots c) in
  exists c', ImportFile f c = Done answer c' /\ card_ok (k + 1) c' /\ shows c' (m_header_block c) (m_size_mb c) s.
Proof.
  intros Hc Hk Hf. unfold store_import, ImportFile, GetNumFiles, TitlePresent. rewrite (co_valid _ _ Hc). cbn [negb].
  assert (Hsame : forall a : GCMemcardImportFileRetVal, exists c', (Done a c : outcome GCMemcard _) = Done a c' /\ card_ok (k + 1) c' /\ shows c' (m_header_block c) (m_size_mb c) (slots c)).
  { intros a. exists c. split; [done|]. split; [by apply (card_ok_mono k); [lia|]|done]. }
  assert (Hnum : length (files (slots c)) = length (List.filter used (entries c))) by apply count_files. rewrite <- Hnum.
  destruct (Z.leb_spec DIRLEN (Z.of_nat (length (files (slots c))))) as [_|Hdir]; [apply Hsame|].
  rewrite (free_blocks k c Hc). destruct (Z.ltb_spec (m_size_mb c * 16 - 5 - Z.of_nat (GetBlockCount (files (slots c)))) (m_block_count (dir_entry f))) as [_|Hfree]; [apply Hsame|].
  rewrite <- (free_blocks k c Hc) in Hfree.
  pose proof (title_found (dir_entry f) (entries c) (GetActiveBat c) (m_data_blocks c) 0 (so_used _ Hf)
    (cs_unused _ _ _ (co_consistent _ _ Hc))) as Ht. fold (slots c) in Ht. rewrite <- Ht. destruct (find_entry _ 0 (entries c)); [apply Hsame|].
  destruct (bind_to_card_ok (m_header_block c) f Hf) as (bs & Hbind & Hbl & Hbs).
  pose proof (so_count _ Hf) as Hcount. pose proof (so_positive _ Hf) as Hpos.
  pose proof (active_bat_ok k c Hc) as Hbat. pose proof (valid_size _ (co_size_mb _ _ Hc)) as Hmb. pose proof (active_dir_ok k c Hc) as [Hdf _ _].
  assert (Hdl : length (entries c) = Z.to_nat DIRLEN) by (destruct Hdf as [[[[[Hl _] _] _] _] _]; exact Hl).
  destruct (free_list (GetActiveBat c) (m_size_mb c * 16)) as [|z zs] eqn:Ez; [rewrite (bo_free _ _ Hbat), Ez in Hfree; simpl in Hfree; lia|].
  rewrite (co_size_blocks _ _ Hc). destruct (NextFreeBlock_spec (m_size_mb c * 16) (m_last_allocated_block (GetActiveBat c)) (GetActiveBat c) z) as [Hfirst _];
    [lia|lia|rewrite Ez; by left|]. set (first := NextFreeBlock _ _ _) in *.
  pose proof (proj1 (data_area_spec _ _) (proj1 (proj1 (elem_of_free_list _ _ _) Hfirst))) as Hfirst'.
  rewrite (proj2 (Z.eqb_neq first 0xFFFF)) by lia.
  destruct (first_free_found (GetActiveBat c) (m_data_blocks c) (entries c) 0) as (Hff & e0 & He0 & Hu0);
    [change (map _ (entries c)) with (slots c); unfold DIRLEN in *; lia|]. fold (slots c) in Hff, He0.
  change (MC_FST_BLOCKS) with 5.
  destruct (Z.to_nat (m_block_count (dir_entry f))) as [|n] eqn:En; [lia|].
  destruct (import_blocks_spec (m_size_mb c * 16) n ltac:(lia) bs first (m_data_blocks c) (GetActiveBat c)) as (data & b & l & Eimp & Him);
    [by apply words_of_fits, Hbat|lia|done|rewrite <- (Nat2Z.id (length _)), <- (bo_free _ _ Hbat); lia|by rewrite (co_length _ _ Hc)|lia|].
  change (m_header_block (UpdateDirectory _ c)) with (m_header_block c).
  change (m_data_blocks (UpdateDirectory _ c)) with (m_data_blocks c). change (GetActiveBat (UpdateDirectory _ c)) with (GetActiveBat c).
  change (m_size_blocks (UpdateDirectory _ c)) with (m_size_blocks c). rewrite (co_size_blocks _ _ Hc).
  rewrite Hbind. unfold bind_to_card in Hbind. destruct (FZEROGX_MakeSaveGameValid _ _ _) as [bs1|]; [|discriminate].
  cbn [base.mbind option_bind] in Hbind |- *. rewrite Hbind. cbn [base.mbind option_bind]. rewrite Eimp.
  rewrite take_ge in Him by lia. eexists. split; [reflexivity|].
  unfold add_entry. unfold entries in Hff. rewrite Hff. cbn [base.fmap option_fmap option_map]. replace (Z.to_nat (0 + Z.of_nat (first_free (slots c)))) with (first_free (slots c)) by lia.
  apply (imported_card k c (set_copy_counter (u8 (m_copy_counter (dir_entry f) + 1)) (set_first_block first (dir_entry f))) first _ e0 bs data b l);
    try done; try lia.
  - apply entry_fits; [apply Hf|unfold is_u16; lia|apply is_u8_u8].
  - exact (so_used _ Hf).
  - change (Z.to_nat (m_block_count (dir_entry f)) = length bs). lia.
  - change (0 <= m_block_count (dir_entry f)). lia.
Qed.

(** *** Removing *)

Lemma entries_length k c : card_ok k c -> length (entries c) = Z.to_nat DIRLEN.
Proof. intros Hc. pose proof (active_dir_ok k c Hc) as [[[[[[Hl _] _] _] _] _] _ _]. exact Hl. Qed.
Lemma GetDEntry_lookup k c i : card_ok k c -> GetDEntry i c = entries c !! Z.to_nat i.
Proof.
  intros Hc. unfold GetDEntry. rewrite (co_valid _ _ Hc). cbn [negb orb]. destruct (Z.leb_spec DIRLEN i); [|done].
  symmetry. apply lookup_ge_None_2. rewrite (entries_length k c Hc). lia.
Qed.
Lemma linked_file k c e : card_ok k c -> e ∈ entries c -> used e = true ->
  linked (GetActiveBat c) (m_size_mb c * 16) (m_first_block e) (file_chain (GetActiveBat c) e).
Proof. intros Hc He Hu. pose proof (cs_linked _ _ _ (co_consistent _ _ Hc)) as H. rewrite Forall_forall in H. by apply H. Qed.
Lemma length_file_chain b e : used e = true -> length (file_chain b e) = Z.to_nat (m_block_count e).
Proof. intros Hu. unfold file_chain. by rewrite Hu, length_chain. Qed.
Lemma file_length k c e : card_ok k c -> e ∈ entries c -> (length (file_chain (GetActiveBat c) e) <= Z.to_nat (m_size_mb c * 16 - 5))%nat.
Proof.
  intros Hc He. rewrite <- length_data_area, <- (Permutation_length (cs_shared _ _ _ (co_consistent _ _ Hc))), length_app.
  apply list_elem_of_lookup in He as [i Hi]. pose proof (occupied_insert (GetActiveBat c) _ i e empty_DEntry Hi) as Hp.
  rewrite (unused_chain _ empty_DEntry used_empty) in Hp. apply Permutation_length in Hp. rewrite !length_app in Hp. simpl in Hp. lia.
Qed.
Lemma entry_of_directory k c e : card_ok k c -> e ∈ entries c -> fits DEntry_layout e.
Proof.
  intros Hc He. pose proof (active_dir_ok k c Hc) as [[[[[[_ Hf] _] _] _] _] _ _]. rewrite Forall_forall in Hf. by apply Hf.
Qed.
Lemma entry_counts e : fits DEntry_layout e -> is_u16 (m_first_block e) /\ is_u16 (m_block_count e).
Proof. by intros [[[[_ Hf] Hc] _] _]. Qed.

Lemma ClearBlocks_file k c e : card_ok k c -> e ∈ entries c -> used e = true ->
  let b := GetActiveBat c in
  ClearBlocks (m_first_block e) (m_block_count e) b = Some (true, set_free_blocks (u16 (m_free_blocks b + m_block_count e))
    (set_map (fold_left clear_block (file_chain b e) (m_map b)) b)).
Proof.
  intros Hc He Hu b. pose proof (valid_size _ (co_size_mb _ _ Hc)) as Hmb. pose proof (file_length k c e Hc He) as Hlen. unfold ClearBlocks. fold b in Hlen.
  rewrite (chain_blocks_linked b (m_size_mb c * 16) (file_chain b e)); [|lia|unfold BAT_SIZE; lia|by apply (linked_file k)].
  rewrite (length_file_chain b e Hu). destruct (entry_counts e (entry_of_directory k c e Hc He)) as [_ Hn]. unfold is_u16 in Hn.
  by rewrite Z2Nat.id, Z.eqb_refl by lia.
Qed.
Lemma ClearBlocks_empty b : ClearBlocks (m_first_block empty_DEntry) (m_block_count empty_DEntry) b = Some (false, b).
Proof. reflexivity. Qed.

Lemma remove_refines k c i : card_ok k c -> k < 0x7FFF ->
  let '(answer, s) := store_remove i (slots c) in
  exists c', RemoveFile i c = Done answer c' /\ card_ok (k + 1) c' /\ shows c' (m_header_block c) (m_size_mb c) s.
Proof.
  intros Hc Hk. unfold store_remove, RemoveFile. rewrite (co_valid _ _ Hc), (GetDEntry_lookup k) by done. cbn [negb].
  assert (Hsame : exists c', (Done Remove_DELETE_FAIL c : outcome GCMemcard _) = Done Remove_DELETE_FAIL c' /\ card_ok (k + 1) c' /\
    shows c' (m_header_block c) (m_size_mb c) (slots c)).
  { exists c. split; [done|]. split; [by apply (card_ok_mono k); [lia|]|done]. }
  unfold slots at 1. change (map ?f (entries c)) with (f <$> entries c). rewrite list_lookup_fmap.
  destruct (entries c !! Z.to_nat i) as [e|] eqn:Hi; [|exact Hsame]. cbn [base.fmap option_fmap option_map]. unfold slot at 1.
  assert (He : e ∈ entries c) by (by apply (list_elem_of_lookup_2 _ (Z.to_nat i))). destruct (used e) eqn:Hu.
  2: { pose proof (cs_unused _ _ _ (co_consistent _ _ Hc)) as Hun. rewrite Forall_forall in Hun. rewrite (Hun e He Hu), ClearBlocks_empty. exact Hsame. }
  rewrite (ClearBlocks_file k c e Hc He Hu). eexists. split; [reflexivity|].
  pose proof (valid_size _ (co_size_mb _ _ Hc)) as Hmb. pose proof (active_bat_ok k c Hc) as Hbat.
  destruct (consistent_remove (m_size_mb c * 16) (GetActiveBat c) (entries c) (Z.to_nat i) e ltac:(lia) (words_of_fits _ (bo_fits _ _ Hbat))
    (co_consistent _ _ Hc) Hi Hu) as (K1 & K2 & K3 & K4 & K5).
  set (b := set_map (fold_left clear_block (file_chain (GetActiveBat c) e) (m_map (GetActiveBat c))) (GetActiveBat c)) in *.
  change (set_free_blocks (u16 (m_free_blocks (GetActiveBat c) + m_block_count e)) b) with (set_free_blocks (u16 (m_free_blocks b + m_block_count e)) b).
  change (b_update_counter (set_free_blocks (u16 (m_free_blocks b + m_block_count e)) b)) with (b_update_counter b).
  set (b1 := set_bat_counter (s16 (b_update_counter b + 1)) (set_free_blocks (u16 (m_free_blocks b + m_block_count e)) b)).
  set (d := set_dir_counter (s16 (d_update_counter (GetActiveDirectory c) + 1))
    (set_dir_entries (<[Z.to_nat i := empty_DEntry]> (m_dir_entries (GetActiveDirectory c))) (GetActiveDirectory c))).
  change (card_ok (k + 1) (updated d b1 (m_data_blocks c) c) /\ shows (updated d b1 (m_data_blocks c) c) (m_header_block c) (m_size_mb c) (<[Z.to_nat i := None]> (slots c))).
  assert (Hbn : bat_new c b1).
  { apply (bat_changed k c b (m_free_blocks b + m_block_count e) Hc Hk K1); [done|done|done| | |exact K2].
    - destruct Hbat as [[[_ Hl] _] _ _ _]. exact Hl.
    - change (m_free_blocks b) with (m_free_blocks (GetActiveBat c)). rewrite (bo_free _ _ Hbat), K3, length_app, (length_file_chain _ e Hu).
      destruct (entry_counts e (entry_of_directory k c e Hc He)) as [_ Hn]. unfold is_u16 in Hn. lia. }
  split.
  - apply updated_ok; [done|done|by apply (dir_changed k c (Z.to_nat i) empty_DEntry), empty_DEntry_fits|done|done|apply Hc|].
    by apply (consistent_ext _ _ b).
  - destruct (updated_slots k d b1 (m_data_blocks c) c Hc) as [S1 S2 S3]. constructor; [done|done|]. rewrite S3. unfold slots, d.
    cbn [set_dir_counter set_dir_entries m_dir_entries]. transitivity (map (slot (GetActiveBat c) (m_data_blocks c)) (<[Z.to_nat i := empty_DEntry]> (entries c))).
    + apply map_ext_Forall. eapply Forall_impl; [exact K5|]. intros e1 E1. apply slot_ext; [by rewrite (file_chain_ext b b1)|by apply Forall_forall].
    + change (map ?f ?x) with (f <$> x). rewrite list_fmap_insert. reflexivity.
Qed.

(** *** Looking at a file *)

Lemma next_in_chain b size x : 5 <= size <= 4091 -> x ∈ data_area size -> GetNextBlock b x = map_at b x.
Proof.
  intros Hs Hx%data_area_spec. unfold GetNextBlock, MC_FST_BLOCKS. by rewrite (proj2 (Z.ltb_ge x 5)), (proj2 (Z.ltb_ge 4091 x)) by lia.
Qed.
Lemma data_block_at c size x : Z.of_nat (length (m_data_blocks c)) = size - 5 -> x ∈ data_area size ->
  data_block c x = Some (block_at (m_data_blocks c) x).
Proof.
  intros Hl Hx%data_area_spec. unfold data_block, block_at. unfold zget, MC_FST_BLOCKS. rewrite (proj2 (Z.leb_le 0 _)) by lia.
  by destruct (lookup_lt_is_Some_2 (m_data_blocks c) (Z.to_nat (x - 5))) as [v ->]; [lia|].
Qed.
Lemma save_blocks_linked c size l : 5 <= size <= 4091 -> Z.of_nat (length (m_data_blocks c)) = size - 5 ->
  forall block r, linked (GetActiveBat c) size block l ->
  save_blocks c (length l) block r = Done (SaveData_SUCCESS, r ++ map (block_at (m_data_blocks c)) l) tt.
Proof.
  intros Hs Hd. induction l as [|x l IH]; intros block r H; [done|]. destruct H as (-> & Hx & H). cbn [length save_blocks map].
  pose proof (proj1 (data_area_spec _ _) Hx) as Hx'. rewrite (proj2 (Z.eqb_neq block 0)), (proj2 (Z.eqb_neq block 0xFFFF)) by lia.
  cbn [orb]. rewrite (data_block_at c size block Hd Hx), (next_in_chain _ size block Hs Hx). destruct l as [|y l]; [done|].
  rewrite IH by done. by rewrite <- app_assoc.
Qed.

(** The place of a file on the card is forgotten. *)
Definition placeless (f : Savefile) : Savefile := mkSavefile (set_first_block 0 (dir_entry f)) (blocks f).

Lemma lookup_slots c i : slots c !! i = slot (GetActiveBat c) (m_data_blocks c) <$> entries c !! i.
Proof. unfold slots. change (map ?f ?x) with (f <$> x). apply list_lookup_fmap. Qed.
Lemma export_refines k c i : card_ok k c ->
  exists r, ExportFile i c = Done r tt /\ placeless <$> r = default None (slots c !! Z.to_nat i).
Proof.
  intros Hc. unfold ExportFile. rewrite (GetDEntry_lookup k), lookup_slots by done.
  destruct (entries c !! Z.to_nat i) as [e|] eqn:Hi; [|by exists None]. cbn [base.fmap option_fmap option_map default from_option].
  unfold slot, id. destruct (used e) eqn:Hu; cbn [negb]; [|by exists None].
  assert (He : e ∈ entries c) by (by apply (list_elem_of_lookup_2 _ (Z.to_nat i))).
  pose proof (valid_size _ (co_size_mb _ _ Hc)) as Hmb. pose proof (linked_file k c e Hc He Hu) as Hl.
  pose proof (file_length k c e Hc He) as Hlen. rewrite (length_file_chain _ e Hu) in Hlen.
  destruct (entry_counts e (entry_of_directory k c e Hc He)) as [_ Hn]. unfold is_u16 in Hn.
  pose proof (save_blocks_linked c (m_size_mb c * 16) (file_chain (GetActiveBat c) e) ltac:(lia) (co_length _ _ Hc) (m_first_block e) [] Hl) as Hsave.
  rewrite (length_file_chain _ e Hu) in Hsave.
  destruct (file_chain (GetActiveBat c) e) as [|x l] eqn:El; [done|]. assert (Ex : x = m_first_block e) by apply Hl.
  assert (Hx : 5 <= m_first_block e < m_size_mb c * 16) by (subst x; apply data_area_spec; apply Hl).
  unfold GetSaveData, DEntry_FirstBlock, DEntry_BlockCount. rewrite (co_valid _ _ Hc), (GetDEntry_lookup k), Hi by done. cbn [negb].
  rewrite (co_size_blocks _ _ Hc). replace (u16 (m_size_mb c * 16)) with (m_size_mb c * 16) by zlia.
  rewrite (proj2 (Z.ltb_ge _ (m_first_block e))), (proj2 (Z.ltb_ge _ (m_block_count e))) by lia.
  rewrite (proj2 (Z.eqb_neq (m_first_block e) 0xFFFF)), (proj2 (Z.eqb_neq (m_block_count e) 0xFFFF)) by lia. cbn [orb].
  rewrite Hsave. eexists. split; [reflexivity|]. done.
Qed.

(** ** Any sequence of operations *)

(** Files are imported and removed; and the card is saved and opened again. *)
Inductive card_op := Import (f : Savefile) | Remove (index : Z) | Reload.
Inductive card_answer :=
  | Imported (r : GCMemcardImportFileRetVal) | Removed (r : GCMemcardRemoveFileRetVal) | Reloaded (e : GCMemcardErrorCode).
Definition card_step (o : card_op) : M GCMemcard card_answer := fun c =>
  match o with
  | Import f => match ImportFile f c with Done r c' => Done (Imported r) c' | Fault x => Fault x end
  | Remove i => match RemoveFile i c with Done r c' => Done (Removed r) c' | Fault x => Fault x end
  | Reload => let '(e, r) := Open (Some (Save c)) in Done (Reloaded e) (default c r)
  end.
Fixpoint card_run (ops : list card_op) : M GCMemcard (list card_answer) := fun c =>
  match ops with
  | [] => Done [] c
  | o :: ops' =>
      match card_step o c with
      | Done a c => match card_run ops' c with Done l c => Done (a :: l) c | Fault x => Fault x end
      | Fault x => Fault x
      end
  end.
Definition store_step (h : Header) (capacity : Z) (o : card_op) (s : list (option Savefile)) : card_answer * list (option Savefile) :=
  match o with
  | Import f => let '(r, s) := store_import h capacity f s in (Imported r, s)
  | Remove i => let '(r, s) := store_remove i s in (Removed r, s)
  | Reload => (Reloaded 0, s)
  end.
Fixpoint store_run (h : Header) (capacity : Z) (ops : list card_op) (s : list (option Savefile)) : list card_answer * list (option Savefile) :=
  match ops with
  | [] => ([], s)
  | o :: ops' =>
      let '(a, s) := store_step h capacity o s in
      let '(l, s) := store_run h capacity ops' s in (a :: l, s)
  end.
Definition op_ok (o : card_op) : Prop := match o with Import f => savefile_ok f | _ => True end.

Lemma step_refines k c o : card_ok k c -> k < 0x7FFF -> op_ok o ->
  let '(a, s) := store_step (m_header_block c) (m_size_mb c * 16 - 5) o (slots c) in
  exists c', card_step o c = Done a c' /\ card_ok (k + 1) c' /\ shows c' (m_header_block c) (m_size_mb c) s.
Proof.
  intros Hc Hk Ho. destruct o as [f|i|]; cbn [store_step card_step op_ok] in *.
  - pose proof (import_refines k c f Hc Hk Ho) as H. destruct (store_import _ _ _ _) as [a s]. destruct H as (c' & -> & H). by exists c'.
  - pose proof (remove_refines k c i Hc Hk) as H. destruct (store_remove _ _) as [a s]. destruct H as (c' & -> & H). by exists c'.
  - rewrite (Open_Save k c Hc). exists c. split; [done|]. split; [by apply (card_ok_mono k); [lia|]|done].
Qed.
Lemma run_refines ops : Forall op_ok ops -> forall k c, card_ok k c -> k + Z.of_nat (length ops) <= 0x7FFF ->
  let '(l, s) := store_run (m_header_block c) (m_size_mb c * 16 - 5) ops (slots c) in
  exists c', card_run ops c = Done l c' /\ card_ok (k + Z.of_nat (length ops)) c' /\ shows c' (m_header_block c) (m_size_mb c) s.
Proof.
  induction 1 as [|o ops Ho _ IH]; intros k c Hc Hk; cbn [store_run card_run length] in *.
  - exists c. by rewrite Z.add_0_r.
  - pose proof (step_refines k c o Hc ltac:(lia) Ho) as H. destruct (store_step _ _ _ _) as [a s]. destruct H as (c1 & -> & Hc1 & [S1 S2 S3]).
    specialize (IH (k + 1) c1 Hc1 ltac:(lia)). rewrite S1, S2, S3 in IH. destruct (store_run _ _ ops s) as [l s']. destruct IH as (c2 & -> & Hc2 & Hs2).
    exists c2. split; [done|]. by replace (k + Z.of_nat (S (length ops))) with (k + 1 + Z.of_nat (length ops)) by lia.
Qed.
Lemma Format_shows flash mb shift_jis bias language time : 
  slots (Format flash mb shift_jis bias language time) = replicate (Z.to_nat DIRLEN) None.
Proof. reflexivity. Qed.

(** ** The bytes of a file *)

Lemma linked_next b size block x y l : linked b size block (x :: y :: l) -> x = block /\ x ∈ data_area size /\ y = map_at b block /\
  linked b size y (y :: l).
Proof. intros (-> & Hx & H). pose proof H as (Ey & _ & _). by rewrite <- Ey in *. Qed.
Lemma area_in_card c size x : Z.of_nat (length (m_data_blocks c)) = size - 5 -> x ∈ data_area size -> in_data_area c x = true.
Proof.
  intros Hl Hx%data_area_spec. unfold in_data_area, MC_FST_BLOCKS. rewrite (proj2 (Z.leb_le 5 x)), (proj2 (Z.ltb_lt x _)) by lia. done.
Qed.
Lemma skip_blocks_linked c size : 5 <= size <= 4091 -> Z.of_nat (length (m_data_blocks c)) = size - 5 ->
  forall n l block, linked (GetActiveBat c) size block l -> (n < length l)%nat ->
  exists x l', skip_blocks c n block = Some x /\ drop n l = x :: l' /\ linked (GetActiveBat c) size x (x :: l').
Proof.
  intros Hs Hd. induction n as [|n IH]; intros l block H Hn.
  - destruct l as [|x l]; [done|]. exists block, l. assert (x = block) by apply H. subst x. done.
  - destruct l as [|x [|y l]]; [simpl in Hn; lia|simpl in Hn; lia|]. apply linked_next in H as (-> & Hx & Ey & H). cbn [skip_blocks].
    rewrite (next_in_chain _ size) by done. rewrite <- Ey. assert (Hy : y ∈ data_area size) by apply H. rewrite (area_in_card c size) by done.
    destruct (IH (y :: l) y H) as (z & l' & E & Ed & Hz); [simpl in *; lia|]. by exists z, l'.
Qed.
Lemma copy_blocks_linked c size : 5 <= size <= 4091 -> Z.of_nat (length (m_data_blocks c)) = size - 5 ->
  Forall (fits (bytes BLOCK_SIZE)) (m_data_blocks c) ->
  forall fuel block l offset remaining result, linked (GetActiveBat c) size block (block :: l) ->
  0 <= offset < 0x2000 -> 0 <= remaining -> offset + remaining <= 0x2000 * Z.of_nat (S (length l)) ->
  (0 < fuel)%nat -> offset + remaining <= 0x2000 * Z.of_nat fuel ->
  copy_blocks c fuel block offset remaining result =
    Some (result ++ take (Z.to_nat remaining) (drop (Z.to_nat offset) (concat (map (block_at (m_data_blocks c)) (block :: l))))).
Proof.
  intros Hs Hd Hfits. induction fuel as [|fuel IH]; intros block l offset remaining result H Ho Hr Hl Hf Hfuel; [lia|]. cbn [copy_blocks].
  assert (Hb : block ∈ data_area size) by apply H. pose proof (data_block_at c size block Hd Hb) as Eb. rewrite Eb. cbn [default from_option id].
  assert (Hbl : length (block_at (m_data_blocks c) block) = Z.to_nat 0x2000).
  { unfold data_block, zget in Eb. destruct (0 <=? block - MC_FST_BLOCKS); [|done]. apply (proj1 (Forall_lookup _ _) Hfits _ _ Eb). }
  unfold id. set (bl := block_at (m_data_blocks c) block) in *. change BLOCK_SIZE with 0x2000. cbn [map concat].
  fold bl. destruct (Z.leb_spec remaining (0x2000 - offset)) as [Hle|Hgt].
  - rewrite Z.min_l, Z.sub_diag by done. cbn [Z.eqb]. rewrite drop_app_le by lia. rewrite take_app_le by (rewrite length_drop; lia). done.
  - rewrite Z.min_r by lia. rewrite (proj2 (Z.eqb_neq _ 0)) by lia.
    destruct l as [|y l]; [simpl in Hl; lia|]. apply linked_next in H as (_ & _ & Ey & H). rewrite (next_in_chain _ size) by done. rewrite <- Ey.
    assert (Hy : y ∈ data_area size) by apply H. rewrite (area_in_card c size) by done.
    rewrite (IH y l) by (done || simpl length in *; lia). rewrite <- app_assoc. f_equal. f_equal.
    rewrite drop_app_le by lia. rewrite take_ge by (rewrite length_drop; lia). rewrite take_app, (take_ge (drop _ bl)) by (rewrite length_drop; lia).
    f_equal. rewrite length_drop, Hbl, drop_0. f_equal. lia.
Qed.

(** ** One damaged copy *)

(** ** One damaged copy *)

Lemma no_block_errors k c : card_ok k c -> block_errors (m_size_mb c) (raw_card c) = (0, 0, 0, 0).
Proof.
  intros Hc. unfold block_errors, raw_card. cbn [m_directory_blocks m_bat_blocks].
  rewrite (dir_no_errors _ (co_dir0 _ _ Hc)), (dir_no_errors _ (co_dir1 _ _ Hc)).
  by rewrite (bat_no_errors _ _ (co_size_mb _ _ Hc) (co_bat0 _ _ Hc)), (bat_no_errors _ _ (co_size_mb _ _ Hc) (co_bat1 _ _ Hc)).
Qed.
(** The copy that is recovered leads back to a card in order. *)
Lemma check_card_recovers k c r e0 e1 e2 e3 : card_ok k c -> m_header_block r = m_header_block c ->
  block_errors (m_size_mb c) r = (e0, e1, e2, e3) ->
  length (List.filter HasCriticalErrors [e0; e1; e2; e3]) = 1%nat ->
  recover (negb (HasCriticalErrors e0)) (negb (HasCriticalErrors e1)) (negb (HasCriticalErrors e2)) (negb (HasCriticalErrors e3)) r = raw_card c ->
  check_card (m_size_mb c) r = (0, Some c).
Proof.
  intros Hc Hh He H1 Hr. rewrite <- (check_card_ok k c Hc). pose proof (header_no_errors _ _ (co_header _ _ Hc)) as Hhe. unfold check_card. cbv zeta.
  change (m_header_block (raw_card c)) with (m_header_block c). rewrite Hh, Hhe, He, (no_block_errors k c Hc).
  change (HasCriticalErrors 0) with false. cbn [negb].
  assert (El : length (List.filter negb [negb (HasCriticalErrors e0); negb (HasCriticalErrors e1); negb (HasCriticalErrors e2); negb (HasCriticalErrors e3)]) = 1%nat).
  { rewrite <- H1. cbn [List.filter]. by destruct (HasCriticalErrors e0), (HasCriticalErrors e1), (HasCriticalErrors e2), (HasCriticalErrors e3). }
  rewrite El, Hr. cbn [length List.filter negb Nat.ltb Nat.leb Nat.eqb]. by rewrite (no_block_errors k c Hc).
Qed.

Lemma recovered_dir_ok k c : card_ok k c -> k < 0x7FFF ->
  let d := recovered_dir (GetActiveDirectory c) in
  dir_ok d /\ d_update_counter d = d_update_counter (GetActiveDirectory c) + 1 /\ m_dir_entries d = entries c.
Proof.
  intros Hc Hk. cbv zeta. unfold recovered_dir, entries. destruct (active_dir_ok k c Hc) as [Hf Hp _]. pose proof (co_dir_counter _ _ Hc) as Hcnt.
  destruct (GetActiveDirectory c) as [es pad cnt sum inv]. unfold set_dir_counter. cbn [m_padding d_update_counter m_dir_entries d_checksum d_checksum_inv] in *.
  pose proof Hf as [[[[[H1 H2] H3] H4] H5] H6]. change (is_s16 cnt) in H4. unfold is_s16 in H4.
  replace (s16 (cnt + 1)) with (cnt + 1) by zlia. destruct (Directory_FixChecksums_proj (mkDirectory es pad (cnt + 1) sum inv)) as [-> ->].
  split; [|done]. apply dir_fixed; [|done].
  apply Directory_fits; try done. unfold is_s16. lia.
Qed.
Lemma recovered_bat_ok k c : card_ok k c -> k < 0x7FFF ->
  let b := recovered_bat (GetActiveBat c) in
  bat_ok (m_size_mb c) b /\ b_update_counter b = b_update_counter (GetActiveBat c) + 1 /\ m_map b = m_map (GetActiveBat c).
Proof.
  intros Hc Hk. cbv zeta. unfold recovered_bat. destruct (active_bat_ok k c Hc) as [Hf Hfr Hu _]. pose proof (co_bat_counter _ _ Hc) as Hcnt.
  destruct (GetActiveBat c) as [sum inv cnt free last m]. unfold set_bat_counter. cbn [b_checksum b_checksum_inv b_update_counter m_free_blocks m_last_allocated_block m_map] in *.
  pose proof Hf as [[[[[H1 H2] H3] H4] H5] H6]. change (is_s16 cnt) in H3. unfold is_s16 in H3.
  replace (s16 (cnt + 1)) with (cnt + 1) by zlia. destruct (BlockAlloc_FixChecksums_proj (mkBlockAlloc sum inv (cnt + 1) free last m)) as (-> & -> & _ & _).
  split; [|done]. apply bat_fixed; [|cbn [m_free_blocks]; rewrite Hfr; f_equal; f_equal; by apply free_list_ext|done].
  apply BlockAlloc_fits; try done. unfold is_s16. lia.
Qed.
Lemma dir_recovered_card k c : card_ok k c -> k < 0x7FFF ->
  let c' := UpdateDirectory (recovered_dir (GetActiveDirectory c)) c in card_ok (k + 1) c' /\ slots c' = slots c.
Proof.
  intros Hc Hk c'. destruct (recovered_dir_ok k c Hc Hk) as (R1 & R2 & R3). set (d := recovered_dir (GetActiveDirectory c)) in *.
  pose proof (counters_bound k c Hc) as (N1 & N2 & _ & _). pose proof (co_dir_counter _ _ Hc). pose proof (co_bat_counter _ _ Hc).
  assert (Ed : GetActiveDirectory c' = d).
  { unfold c', UpdateDirectory, GetActiveDirectory, copy_of, put_copy. cbn. by destruct (m_active_directory c =? 0). }
  assert (Ee : entries c' = entries c) by (unfold entries at 1; by rewrite Ed).
  split; [|unfold slots; by rewrite Ee].
  constructor; rewrite ?Ed, ?Ee; try apply Hc; try (change (GetActiveBat c') with (GetActiveBat c); lia); try lia;
    unfold c', UpdateDirectory, put_copy; cbn [m_directory_blocks m_active_directory with_directories]; destruct (m_active_directory c =? 0) eqn:Ea;
    cbn [Z.eqb fst snd]; try done; try apply Hc; unfold GetActiveDirectory, copy_of in R2; rewrite Ea in R2;
    symmetry; [rewrite (proj2 (Z.leb_gt _ _))|rewrite (proj2 (Z.leb_le _ _))]; done || lia.
Qed.
Lemma bat_recovered_card k c : card_ok k c -> k < 0x7FFF ->
  let c' := UpdateBat (recovered_bat (GetActiveBat c)) c in card_ok (k + 1) c' /\ slots c' = slots c.
Proof.
  intros Hc Hk c'. destruct (recovered_bat_ok k c Hc Hk) as (R1 & R2 & R3). set (b := recovered_bat (GetActiveBat c)) in *.
  pose proof (counters_bound k c Hc) as (_ & _ & N1 & N2). pose proof (co_dir_counter _ _ Hc). pose proof (co_bat_counter _ _ Hc).
  assert (Eb : GetActiveBat c' = b).
  { unfold c', UpdateBat, GetActiveBat, copy_of, put_copy. cbn. by destruct (m_active_bat c =? 0). }
  split.
  2: { unfold slots. rewrite Eb. change (entries c') with (entries c). apply map_ext. intros e. apply slot_ext; [by apply file_chain_ext|by apply Forall_forall]. }
  constructor; rewrite ?Eb; try apply Hc; try (change (GetActiveDirectory c') with (GetActiveDirectory c); lia); try lia;
    try (change (entries c') with (entries c); apply (consistent_ext _ _ (GetActiveBat c)); [done|apply Hc]);
    unfold c', UpdateBat, put_copy; cbn [m_bat_blocks m_active_bat with_bats m_size_mb]; destruct (m_active_bat c =? 0) eqn:Ea;
    cbn [Z.eqb fst snd]; try done; try apply Hc; unfold GetActiveBat, copy_of in R2; rewrite Ea in R2;
    symmetry; [rewrite (proj2 (Z.leb_gt _ _))|rewrite (proj2 (Z.leb_le _ _))]; done || lia.
Qed.

(** A block of the image overwritten. *)
Definition overwrite_block (n : Z) (x file : list Z) : list Z := put_at (BLOCK_SIZE * n) x file.
Lemma put_at_mid off x a b r : length a = Z.to_nat off -> length x = length b -> put_at off x (a ++ b ++ r) = a ++ x ++ r.
Proof.
  intros Ha Hx. unfold put_at. rewrite <- Ha, take_app_length, Hx. do 2 f_equal.
  rewrite app_assoc, <- length_app. apply drop_app_length.
Qed.
Lemma length_concat_uniform n (L : list (list Z)) : Forall (fun x => length x = n) L -> length (concat L) = (n * length L)%nat.
Proof. induction 1 as [|x L Hx _ IH]; [simpl; lia|]. cbn [concat length]. rewrite length_app, Hx, IH. lia. Qed.
Lemma drop_concat_uniform n q (L : list (list Z)) : Forall (fun x => length x = n) L -> concat (drop q L) = drop (n * q) (concat L).
Proof.
  intros HL. revert q. induction HL as [|x L Hx _ IH]; intros [|q]; [by cbn; rewrite drop_nil|by cbn; rewrite drop_nil|by rewrite Nat.mul_0_r|].
  cbn [drop concat]. rewrite IH, drop_app_ge by lia. f_equal. lia.
Qed.
Lemma overwrite_concat n x old L r : Forall (fun x => length x = Z.to_nat BLOCK_SIZE) L -> length x = Z.to_nat BLOCK_SIZE ->
  L !! n = Some old -> overwrite_block (Z.of_nat n) x (concat L ++ r) = concat (<[n := x]> L) ++ r.
Proof.
  intros HL Hx Hn. pose proof (lookup_lt_Some _ _ _ Hn) as Hlt. rewrite insert_take_drop by done.
  rewrite <- (take_drop_middle L n old Hn) at 1. rewrite !concat_app. cbn [concat]. rewrite <- !app_assoc. apply put_at_mid.
  - rewrite (length_concat_uniform (Z.to_nat BLOCK_SIZE)) by (by apply Forall_take). rewrite length_take_le by lia. unfold BLOCK_SIZE. lia.
  - rewrite Hx. symmetry. apply (proj1 (Forall_lookup _ _) HL _ _ Hn).
Qed.
Definition other_copy (active : Z) : Z := if active =? 0 then 1 else 0.
Lemma overwrite_image k c d0 d1 b0 b1 x : card_ok k c -> Forall (fun x => length x = Z.to_nat BLOCK_SIZE) [d0; d1; b0; b1] -> length x = Z.to_nat BLOCK_SIZE ->
  overwrite_block 1 x (image c d0 d1 b0 b1) = image c x d1 b0 b1 /\ overwrite_block 2 x (image c d0 d1 b0 b1) = image c d0 x b0 b1 /\
  overwrite_block 3 x (image c d0 d1 b0 b1) = image c d0 d1 x b1 /\ overwrite_block 4 x (image c d0 d1 b0 b1) = image c d0 d1 b0 x.
Proof.
  intros Hc HF Hx. rewrite !Forall_cons in HF. destruct HF as (H1 & H2 & H3 & H4 & _).
  pose proof (header_width _ (ho_fits _ _ (co_header _ _ Hc))) as Hh.
  assert (E : forall d0 d1 b0 b1, image c d0 d1 b0 b1 = concat [to_bytes Header_layout (m_header_block c); d0; d1; b0; b1] ++ concat (m_data_blocks c)).
  { intros. unfold image. cbn [concat]. by rewrite <- !app_assoc. }
  assert (HL : Forall (fun x => length x = Z.to_nat BLOCK_SIZE) [to_bytes Header_layout (m_header_block c); d0; d1; b0; b1]) by (repeat constructor; done).
  rewrite !E. repeat split; [apply (overwrite_concat 1 x d0)|apply (overwrite_concat 2 x d1)|apply (overwrite_concat 3 x b0)|apply (overwrite_concat 4 x b1)]; done.
Qed.

Lemma recover_other_dir c bad : let d := recovered_dir (GetActiveDirectory c) in
  let dirs := put_copy (other_copy (m_active_directory c)) bad (m_directory_blocks c) in
  recover (m_active_directory c =? 0) (negb (m_active_directory c =? 0)) true true
    (mkCard false (m_size_blocks c) (m_size_mb c) (m_header_block c) dirs (m_bat_blocks c) (m_data_blocks c) 0 0) =
  raw_card (UpdateDirectory d c).
Proof.
  unfold other_copy, recover, UpdateDirectory, GetActiveDirectory, copy_of, raw_card, put_copy. destruct c as [v sb mb h [d0 d1] [b0 b1] dat ad ab].
  cbn [m_active_directory m_directory_blocks m_bat_blocks]. by destruct (ad =? 0).
Qed.
Lemma recover_other_bat c bad : let b := recovered_bat (GetActiveBat c) in
  let bats := put_copy (other_copy (m_active_bat c)) bad (m_bat_blocks c) in
  recover true true (m_active_bat c =? 0) (negb (m_active_bat c =? 0))
    (mkCard false (m_size_blocks c) (m_size_mb c) (m_header_block c) (m_directory_blocks c) bats (m_data_blocks c) 0 0) =
  raw_card (UpdateBat b c).
Proof.
  unfold other_copy, recover, UpdateBat, GetActiveBat, copy_of, raw_card, put_copy. destruct c as [v sb mb h [d0 d1] [b0 b1] dat ad ab].
  cbn [m_active_bat m_directory_blocks m_bat_blocks]. by destruct (ab =? 0).
Qed.
Lemma dir_damaged k c x : card_ok k c -> k < 0x7FFF -> length x = Z.to_nat BLOCK_SIZE ->
  HasCriticalErrors (Directory_CheckForErrors (of_bytes Directory_layout x)) = true ->
  Open (Some (overwrite_block (1 + other_copy (m_active_directory c)) x (Save c))) =
    (0, Some (UpdateDirectory (recovered_dir (GetActiveDirectory c)) c)).
Proof.
  intros Hc Hk Hx Hbad. destruct (dir_recovered_card k c Hc Hk) as [Hc' _]. rewrite (Save_image k c Hc). pose proof (copies_width k c Hc) as Hw.
  destruct (overwrite_image k c _ _ _ _ x Hc Hw Hx) as (O1 & O2 & _ & _). rewrite !Forall_cons in Hw. destruct Hw as (W1 & W2 & W3 & W4 & _).
  pose proof (no_block_errors k c Hc) as He. unfold block_errors, raw_card in He. cbn [m_directory_blocks m_bat_blocks] in He. injection He as E0 E1 E2 E3.
  remember (Directory_CheckForErrors (of_bytes Directory_layout x)) as e eqn:Ee.
  unfold other_copy. destruct (m_active_directory c =? 0) eqn:Ea; [change (1 + 1) with 2; rewrite O2|change (1 + 0) with 1; rewrite O1];
    rewrite (Open_image k) by first [exact Hc|rewrite !Forall_cons; auto]; rewrite read_dir by apply Hc; rewrite !read_bat by apply Hc;
    [apply (check_card_recovers (k + 1) _ _ 0 e 0 0 Hc')|apply (check_card_recovers (k + 1) _ _ e 0 0 0 Hc')];
    [reflexivity|unfold block_errors; cbn [m_directory_blocks m_bat_blocks fst snd]; change (m_size_mb (UpdateDirectory _ c)) with (m_size_mb c);
         rewrite <- Ee, ?E0, ?E1, E2, E3; reflexivity|cbn [List.filter]; rewrite Hbad; reflexivity|
     rewrite Hbad; change (HasCriticalErrors 0) with false; cbn [negb]; rewrite <- (recover_other_dir c (of_bytes Directory_layout x)); rewrite Ea; unfold other_copy, put_copy; rewrite Ea, <- surjective_pairing; reflexivity
    |reflexivity|unfold block_errors; cbn [m_directory_blocks m_bat_blocks fst snd]; change (m_size_mb (UpdateDirectory _ c)) with (m_size_mb c);
         rewrite <- Ee, ?E0, ?E1, E2, E3; reflexivity|cbn [List.filter]; rewrite Hbad; reflexivity|
     rewrite Hbad; change (HasCriticalErrors 0) with false; cbn [negb]; rewrite <- (recover_other_dir c (of_bytes Directory_layout x)); rewrite Ea; unfold other_copy, put_copy; rewrite Ea, <- surjective_pairing; reflexivity].
Qed.
Lemma bat_damaged k c x : card_ok k c -> k < 0x7FFF -> length x = Z.to_nat BLOCK_SIZE ->
  HasCriticalErrors (BlockAlloc_CheckForErrors (m_size_mb c) (of_bytes BlockAlloc_layout x)) = true ->
  Open (Some (overwrite_block (3 + other_copy (m_active_bat c)) x (Save c))) =
    (0, Some (UpdateBat (recovered_bat (GetActiveBat c)) c)).
Proof.
  intros Hc Hk Hx Hbad. destruct (bat_recovered_card k c Hc Hk) as [Hc' _]. rewrite (Save_image k c Hc). pose proof (copies_width k c Hc) as Hw.
  destruct (overwrite_image k c _ _ _ _ x Hc Hw Hx) as (_ & _ & O3 & O4). rewrite !Forall_cons in Hw. destruct Hw as (W1 & W2 & W3 & W4 & _).
  pose proof (no_block_errors k c Hc) as He. unfold block_errors, raw_card in He. cbn [m_directory_blocks m_bat_blocks] in He. injection He as E0 E1 E2 E3.
  remember (BlockAlloc_CheckForErrors (m_size_mb c) (of_bytes BlockAlloc_layout x)) as e eqn:Ee.
  unfold other_copy. destruct (m_active_bat c =? 0) eqn:Ea; [change (3 + 1) with 4; rewrite O4|change (3 + 0) with 3; rewrite O3];
    rewrite (Open_image k) by first [exact Hc|rewrite !Forall_cons; auto]; rewrite !read_dir by apply Hc; rewrite read_bat by apply Hc;
    [apply (check_card_recovers (k + 1) _ _ 0 0 0 e Hc')|apply (check_card_recovers (k + 1) _ _ 0 0 e 0 Hc')];
    [reflexivity|unfold block_errors; cbn [m_directory_blocks m_bat_blocks fst snd]; change (m_size_mb (UpdateBat _ c)) with (m_size_mb c);
         rewrite <- Ee, E0, E1, ?E2, ?E3; reflexivity|cbn [List.filter]; rewrite Hbad; reflexivity|
     rewrite Hbad; change (HasCriticalErrors 0) with false; cbn [negb]; rewrite <- (recover_other_bat c (of_bytes BlockAlloc_layout x)); rewrite Ea; unfold other_copy, put_copy; rewrite Ea, <- surjective_pairing; reflexivity
    |reflexivity|unfold block_errors; cbn [m_directory_blocks m_bat_blocks fst snd]; change (m_size_mb (UpdateBat _ c)) with (m_size_mb c);
         rewrite <- Ee, E0, E1, ?E2, ?E3; reflexivity|cbn [List.filter]; rewrite Hbad; reflexivity|
     rewrite Hbad; change (HasCriticalErrors 0) with false; cbn [negb]; rewrite <- (recover_other_bat c (of_bytes BlockAlloc_layout x)); rewrite Ea; unfold other_copy, put_copy; rewrite Ea, <- surjective_pairing; reflexivity].
Qed.

(** ** Files of the host *)

Lemma entry_width e : fits DEntry_layout e -> length (to_bytes DEntry_layout e) = Z.to_nat DENTRY_SIZE.
Proof. intros H. rewrite (lw_width _ DEntry_lawful e H). reflexivity. Qed.
Lemma read_entry e : fits DEntry_layout e -> of_bytes DEntry_layout (to_bytes DEntry_layout e) = e.
Proof. exact (lw_read _ DEntry_lawful e). Qed.
(** Swapping pairs of bytes that do not meet, twice. *)
Lemma ByteswapDEntrySavHeader_twice l : length l = 64%nat -> ByteswapDEntrySavHeader (ByteswapDEntrySavHeader l) = l /\
  length (ByteswapDEntrySavHeader l) = 64%nat.
Proof.
  intros H. do 64 (destruct l as [|?b l]; [discriminate|]). destruct l; [|discriminate]. done.
Qed.
Lemma entry_bytes_put off v header r : 0 <= off -> off + DENTRY_SIZE <= Z.of_nat (length header) -> length v = Z.to_nat DENTRY_SIZE ->
  entry_bytes_at off (put_at off v header) = v /\ length (put_at off v header) = length header /\
  ReadBytes (Z.of_nat (length header)) (put_at off v header ++ r) = Some (put_at off v header, r).
Proof.
  intros Ho Hl Hv. unfold DENTRY_SIZE in *.
  assert (Hlen : length (put_at off v header) = length header).
  { unfold put_at. rewrite !length_app, length_take, length_drop. lia. }
  split; [|split; [done|]].
  - unfold entry_bytes_at, put_at, DENTRY_SIZE. rewrite drop_app_length' by (rewrite length_take; lia). rewrite <- Hv. apply take_app_length.
  - apply ReadBytes_app. rewrite Hlen. lia.
Qed.

Lemma read_blocks_written e bs : Forall (fits (bytes BLOCK_SIZE)) bs ->
  read_blocks_of e (Z.of_nat (length bs)) (concat bs) = inr (mkSavefile e bs).
Proof. intros Hb. unfold read_blocks_of. by rewrite Nat2Z.id, ReadBlocks_concat. Qed.

(** What a file needs to be written. *)
Record writable (f : Savefile) : Prop := {
  wr_fits : fits DEntry_layout (dir_entry f);
  wr_count : m_block_count (dir_entry f) = Z.of_nat (length (blocks f));
  wr_blocks : Forall (fits (bytes BLOCK_SIZE)) (blocks f)
}.
Lemma writable_count f : writable f -> Z.of_nat (length (blocks f)) < 0x10000.
Proof. intros [Hf Hc _]. destruct (entry_counts _ Hf) as [_ H]. unfold is_u16 in H. lia. Qed.

Lemma gci_round_trip f : writable f -> ReadSavefile (Some (WriteSavefile f GCI)) = inr f.
Proof.
  intros Hw. pose proof (writable_count f Hw) as Hn. destruct Hw as [Hf Hc Hb]. cbn [WriteSavefile]. unfold WriteSavefileInternalGCI, ReadSavefile.
  pose proof (entry_width _ Hf) as He. unfold DENTRY_SIZE in He.
  assert (Hl : Z.of_nat (length (to_bytes DEntry_layout (dir_entry f) ++ concat (blocks f))) = 0x40 + 0x2000 * Z.of_nat (length (blocks f))).
  { rewrite length_app, Nat2Z.inj_add, He, length_concat_blocks by done. lia. }
  rewrite Hl. change BLOCK_SIZE with 0x2000. replace ((0x40 + 0x2000 * Z.of_nat (length (blocks f))) mod 0x2000) with 0x40 by zlia.
  cbn [Z.eqb Pos.eqb GCI_HEADER_SIZE DENTRY_SIZE]. change (0x40 =? GCI_HEADER_SIZE) with true. unfold ReadSavefileInternalGCI.
  rewrite ReadBytes_app by done. rewrite read_entry, Hc by done. change DENTRY_SIZE with 0x40. change BLOCK_SIZE with 0x2000.
  replace (_ =? _) with true by (symmetry; apply Z.eqb_eq; lia). cbn [negb]. rewrite read_blocks_written by done. by destruct f.
Qed.
Lemma gcs_round_trip f : writable f -> ReadSavefile (Some (WriteSavefile f GCS)) = inr f.
Proof.
  intros Hw. pose proof (writable_count f Hw) as Hn. destruct Hw as [Hf Hc Hb]. cbn [WriteSavefile]. unfold WriteSavefileInternalGCS, ReadSavefile.
  set (h := put_at 0 GCS_FILE_MAGIC _). set (e1 := set_block_count 1 (dir_entry f)).
  assert (Hf1 : fits DEntry_layout e1).
  { destruct Hf as [[[[H1 H2] H3] H4] H5]. exact (conj (conj (conj (conj H1 H2) (conj Z.le_0_1 eq_refl)) H4) H5). }
  pose proof (entry_width _ Hf1) as He. assert (Hh : length h = Z.to_nat GCS_HEADER_SIZE) by reflexivity.
  destruct (entry_bytes_put GCS_DENTRY_OFFSET (to_bytes DEntry_layout e1) h (concat (blocks f))) as (P1 & P2 & P3);
    [done|rewrite Hh; done|done|]. unfold GCS_HEADER_SIZE in *. change (Z.of_nat (length h)) with 0x150 in P3.
  set (header := put_at GCS_DENTRY_OFFSET (to_bytes DEntry_layout e1) h) in *.
  assert (Hl : Z.of_nat (length (header ++ concat (blocks f))) = 0x150 + 0x2000 * Z.of_nat (length (blocks f))).
  { rewrite length_app, Nat2Z.inj_add, P2, Hh, length_concat_blocks by done. lia. }
  rewrite Hl. change BLOCK_SIZE with 0x2000. replace ((0x150 + 0x2000 * Z.of_nat (length (blocks f))) mod 0x2000) with 0x150 by zlia.
  change (0x150 =? GCI_HEADER_SIZE) with false. change (0x150 =? GCS_HEADER_SIZE) with true. unfold ReadSavefileInternalGCS.
  change GCS_HEADER_SIZE with 0x150. rewrite P3, P1, (read_entry _ Hf1). change (has_magic GCS_FILE_MAGIC header) with true. cbn [negb].
  replace (u64 (0x150 + 0x2000 * Z.of_nat (length (blocks f)) - 0x150)) with (0x2000 * Z.of_nat (length (blocks f))) by zlia.
  change BLOCK_SIZE with 0x2000. rewrite (Z.mul_comm 0x2000), Z.mod_mul, Z.div_mul by done. cbn [Z.eqb negb].
  rewrite read_blocks_written by done. replace (u16 (Z.of_nat (length (blocks f)))) with (m_block_count (dir_entry f)) by zlia.
  destruct f as [e bs]. by destruct e.
Qed.
Lemma sav_round_trip f : writable f -> ReadSavefile (Some (WriteSavefile f SAV)) = inr f.
Proof.
  intros Hw. pose proof (writable_count f Hw) as Hn. destruct Hw as [Hf Hc Hb]. cbn [WriteSavefile]. unfold WriteSavefileInternalSAV, ReadSavefile, InjectDEntryToSavHeader.
  set (h := put_at 0 SAV_MAGIC _). pose proof (entry_width _ Hf) as He.
  destruct (ByteswapDEntrySavHeader_twice (to_bytes DEntry_layout (dir_entry f)) He) as [S1 S2].
  assert (Hh : length h = Z.to_nat SAV_HEADER_SIZE) by reflexivity.
  destruct (entry_bytes_put SAV_DENTRY_OFFSET (ByteswapDEntrySavHeader (to_bytes DEntry_layout (dir_entry f))) h (concat (blocks f))) as (P1 & P2 & P3);
    [done|rewrite Hh; done|exact S2|]. unfold SAV_HEADER_SIZE in *. change (Z.of_nat (length h)) with 0xC0 in P3.
  set (header := put_at SAV_DENTRY_OFFSET _ h) in *.
  assert (Hl : Z.of_nat (length (header ++ concat (blocks f))) = 0xC0 + 0x2000 * Z.of_nat (length (blocks f))).
  { rewrite length_app, Nat2Z.inj_add, P2, Hh, length_concat_blocks by done. lia. }
  rewrite Hl. change BLOCK_SIZE with 0x2000. replace ((0xC0 + 0x2000 * Z.of_nat (length (blocks f))) mod 0x2000) with 0xC0 by zlia.
  change (0xC0 =? GCI_HEADER_SIZE) with false. change (0xC0 =? GCS_HEADER_SIZE) with false. change (0xC0 =? SAV_HEADER_SIZE) with true.
  unfold ReadSavefileInternalSAV, ExtractDEntryFromSavHeader.
  change SAV_HEADER_SIZE with 0xC0. rewrite P3, P1, S1, (read_entry _ Hf), Hc. change (has_magic SAV_MAGIC header) with true. cbn [negb].
  change BLOCK_SIZE with 0x2000. rewrite (Z.mul_comm _ 0x2000), !Z.eqb_refl. cbn [negb].
  rewrite read_blocks_written by exact Hb. by destruct f.
Qed.

(** ** Properties *)

(** A file on the card, by its slot. *)
Lemma stored_file k c i f : card_ok k c -> slots c !! Z.to_nat i = Some (Some f) ->
  exists e, GetDEntry i c = Some e /\ e ∈ entries c /\ used e = true /\ m_block_count (dir_entry f) = m_block_count e /\
    blocks f = map (block_at (m_data_blocks c)) (file_chain (GetActiveBat c) e) /\
    length (blocks f) = Z.to_nat (m_block_count e).
Proof.
  intros Hc. rewrite lookup_slots, (GetDEntry_lookup k) by done. destruct (entries c !! Z.to_nat i) as [e|] eqn:Hi; [|done].
  cbn [base.fmap option_fmap option_map]. unfold slot. destruct (used e) eqn:Hu; [|done]. intros [= <-]. exists e. cbn [dir_entry blocks].
  rewrite length_map, length_file_chain by done. split; [done|].
  split; [by apply (list_elem_of_lookup_2 _ (Z.to_nat i))|done].
Qed.

(** C3. A memory card is a store of files: after formatting with valid parameters, whatever
    sequence of at most 0x7FFF (as many as the update counters can count) imports of
    well-formed saves, removals and saving and opening again meets the card, every answer
    is that of the store with 127 slots and the card's blocks; nothing faults, what is
    exported from a slot is what the store keeps there block by block, the free blocks are
    counted right, and the card is opened without an error. A save is well formed if
    its entry is in use and counts its blocks, of which there is at least one, and two for
    a save of Phantasy Star Online; [empty_save_breaks_card] shows what the import of
    one without blocks does. *)
Theorem card_is_a_file_store flash_id mb shift_jis bias language time ops :
  format_args_ok flash_id mb bias language time -> Forall op_ok ops -> Z.of_nat (length ops) <= 0x7FFF ->
  let c0 := Format flash_id mb shift_jis bias language time in
  let '(answers, s) := store_run (m_header_block c0) (mb * 16 - 5) ops (replicate (Z.to_nat DIRLEN) None) in
  exists c, card_run ops c0 = Done answers c /\
    (forall i, exists r, ExportFile i c = Done r tt /\ placeless <$> r = default None (s !! Z.to_nat i)) /\
    GetFreeBlocks c = mb * 16 - 5 - Z.of_nat (GetBlockCount (files s)) /\
    Open (Some (Save c)) = (0, Some c).
Proof.
  intros Ha Hops Hn c0. pose proof (Format_ok flash_id mb shift_jis bias language time Ha) as Hc0. fold c0 in Hc0.
  pose proof (run_refines ops Hops 0 c0 Hc0 Hn) as H. change (m_size_mb c0) with mb in H.
  change (slots c0) with (replicate (Z.to_nat DIRLEN) (@None Savefile)) in H.
  destruct (store_run _ _ ops _) as [answers s]. destruct H as (c & E & Hc & [S1 S2 S3]). exists c. split; [done|].
  split; [|split].
  - intros i. rewrite <- S3. by apply (export_refines (0 + Z.of_nat (length ops))).
  - unfold GetFreeBlocks. rewrite (co_valid _ _ Hc). cbn [negb]. by rewrite (free_blocks _ c Hc), S2, S3.
  - by apply (Open_Save (0 + Z.of_nat (length ops))).
Qed.
(** A file of one block. *)
Definition sample_entry : DEntry := mkDEntry [0x47; 0x41; 0x46; 0x45] [0x30; 0x31] 0xFF 2
  (0x73 :: 0x61 :: 0x76 :: 0x65 :: replicate 28 0) 0 0 0 0 4 0 0 1 [0xFF; 0xFF] 0.
Definition sample_file : Savefile := mkSavefile sample_entry [replicate (Z.to_nat BLOCK_SIZE) 7].
Lemma sample_file_ok : savefile_ok sample_file.
Proof.
  constructor.
  - vm_compute. repeat constructor; discriminate.
  - reflexivity.
  - reflexivity.
  - constructor.
  - apply Forall_singleton. split; [apply length_replicate|]. by apply Forall_replicate.
  - intros [H|H]; vm_compute in H; discriminate.
Qed.
Definition sample_card : GCMemcard := Format (replicate 12 0x55) MBIT_SIZE_MEMORY_CARD_59 false 0 0 0.
Lemma sample_args_ok : format_args_ok (replicate 12 0x55) MBIT_SIZE_MEMORY_CARD_59 0 0 0.
Proof. constructor; [reflexivity|by left|by vm_compute|by vm_compute|by vm_compute]. Qed.
Definition sample_card_ops : list card_op := [Import sample_file; Reload; Import sample_file; Remove 0].
Lemma sample_card_ops_ok : Forall op_ok sample_card_ops.
Proof. unfold sample_card_ops. rewrite !Forall_cons. pose proof sample_file_ok. by cbn [op_ok]. Qed.
Lemma card_is_a_file_store_witness :
  let '(answers, s) := store_run (m_header_block sample_card) 59 sample_card_ops
    (replicate (Z.to_nat DIRLEN) None) in
  exists c, card_run sample_card_ops sample_card = Done answers c /\
    (forall i, exists r, ExportFile i c = Done r tt /\ placeless <$> r = default None (s !! Z.to_nat i)) /\
    GetFreeBlocks c = 59 - Z.of_nat (GetBlockCount (files s)) /\
    Open (Some (Save c)) = (0, Some c).
Proof.
  apply (card_is_a_file_store (replicate 12 0x55) MBIT_SIZE_MEMORY_CARD_59 false 0 0 0); [exact sample_args_ok| |].
  - exact sample_card_ops_ok.
  - vm_compute. discriminate.
Defined.

(** C14. A card survives the loss of the copy of its directory or of its block table
    that is not in use: when that block of the image holds anything that fails the
    checks, the card is opened without an error, the copy is made anew from the
    other, and every slot holds the file it held. *)
Theorem damaged_copy_is_recovered k c x : card_ok k c -> k < 0x7FFF -> length x = Z.to_nat BLOCK_SIZE ->
  (HasCriticalErrors (Directory_CheckForErrors (of_bytes Directory_layout x)) = true ->
   exists c', Open (Some (overwrite_block (1 + other_copy (m_active_directory c)) x (Save c))) = (0, Some c') /\
     card_ok (k + 1) c' /\ slots c' = slots c) /\
  (HasCriticalErrors (BlockAlloc_CheckForErrors (m_size_mb c) (of_bytes BlockAlloc_layout x)) = true ->
   exists c', Open (Some (overwrite_block (3 + other_copy (m_active_bat c)) x (Save c))) = (0, Some c') /\
     card_ok (k + 1) c' /\ slots c' = slots c).
Proof.
  intros Hc Hk Hx. split; intros Hbad.
  - eexists. split; [by apply (dir_damaged k)|]. by apply dir_recovered_card.
  - eexists. split; [by apply (bat_damaged k)|]. by apply bat_recovered_card.
Qed.
Lemma sample_card_ok : card_ok 0 sample_card.
Proof. unfold sample_card. exact (Format_ok _ _ false _ _ _ sample_args_ok). Qed.
Definition zero_block : list Z := replicate (Z.to_nat BLOCK_SIZE) 0.
Lemma damaged_copy_is_recovered_witness :
  (exists c', Open (Some (overwrite_block 2 zero_block (Save sample_card))) = (0, Some c') /\ card_ok 1 c' /\ slots c' = slots sample_card) /\
  (exists c', Open (Some (overwrite_block 4 zero_block (Save sample_card))) = (0, Some c') /\ card_ok 1 c' /\ slots c' = slots sample_card).
Proof.
  destruct (damaged_copy_is_recovered 0 sample_card zero_block sample_card_ok) as [H1 H2]; [lia|apply length_replicate|]. split.
  - apply H1. vm_compute. reflexivity.
  - apply H2. vm_compute. reflexivity.
Defined.

(** C25. The file manager's reader of a save gives any range of its bytes, across
    blocks that may lie anywhere on the card: the bytes of the exported blocks, cut
    off at the end of the file, and nothing behind it. *)
Theorem save_bytes_are_the_files k c i f offset n : card_ok k c -> slots c !! Z.to_nat i = Some (Some f) ->
  0 <= offset < 0x100000000 -> 0 <= n < 0x100000000 ->
  GetSaveDataBytes i offset n c =
    if 0x2000 * Z.of_nat (length (blocks f)) <=? offset then None
    else Some (take (Z.to_nat n) (drop (Z.to_nat offset) (concat (blocks f)))).
Proof.
  intros Hc Hf Ho Hn. destruct (stored_file k c i f Hc Hf) as (e & Ei & He & Hu & _ & Hb & Hl). unfold GetSaveDataBytes. rewrite Ei.
  pose proof (valid_size _ (co_size_mb _ _ Hc)) as Hmb. pose proof (linked_file k c e Hc He Hu) as Hlk. pose proof (co_length _ _ Hc) as Hd.
  pose proof (file_length k c e Hc He) as Hlen. destruct (entry_counts e (entry_of_directory k c e Hc He)) as [_ Hm]. unfold is_u16 in Hm.
  pose proof (length_file_chain (GetActiveBat c) e Hu) as Hcl. rewrite Hb in *. set (l := file_chain (GetActiveBat c) e) in *.
  rewrite length_map in Hl. set (size := m_size_mb c * 16) in *.
  rewrite (proj2 (Z.eqb_neq (m_block_count e) 0xFFFF)) by lia. cbn [orb].
  assert (Hfirst : m_first_block e ∈ data_area size) by (destruct l; [done|]; destruct Hlk as (-> & Hx & _); exact Hx).
  rewrite (area_in_card c size) by done. cbn [negb]. rewrite length_map, Hcl. change BLOCK_SIZE with 0x2000.
  replace (u32 (m_block_count e * 0x2000)) with (0x2000 * Z.of_nat (Z.to_nat (m_block_count e))) by zlia. rewrite <- Hcl.
  destruct (Z.leb_spec (0x2000 * Z.of_nat (length l)) offset) as [|Hoff]; [done|].
  set (q := offset / 0x2000). set (r := offset mod 0x2000). assert (Hqr : offset = 0x2000 * q + r /\ 0 <= r < 0x2000 /\ 0 <= q) by (unfold q, r; zlia).
  destruct (skip_blocks_linked c size ltac:(lia) Hd (Z.to_nat q) l (m_first_block e) Hlk ltac:(lia)) as (x & l' & -> & Edrop & Hx).
  assert (Hl' : (S (length l') = length l - Z.to_nat q)%nat) by (rewrite <- length_drop, Edrop; done).
  rewrite (copy_blocks_linked c size ltac:(lia) Hd (co_data _ _ Hc) _ x l') by (done || zlia). rewrite app_nil_l. f_equal.
  assert (Hfits : Forall (fits (bytes BLOCK_SIZE)) (map (block_at (m_data_blocks c)) l)).
  { apply Forall_fmap, Forall_forall. intros y Hy. pose proof (linked_in_area _ _ _ _ Hlk) as Ha. rewrite Forall_forall in Ha.
    pose proof (data_block_at c size y Hd (Ha y Hy)) as Eb. unfold data_block, zget in Eb. destruct (0 <=? _); [|done].
    exact (proj1 (Forall_lookup _ _) (co_data _ _ Hc) _ _ Eb). }
  rewrite <- Edrop. change (map ?f (drop ?m l)) with (f <$> drop m l). rewrite fmap_drop. change (?f <$> l) with (map f l).
  set (L := map (block_at (m_data_blocks c)) l) in *.
  assert (HL : Forall (fun x => length x = Z.to_nat 0x2000) L) by (eapply Forall_impl; [exact Hfits|]; by intros y [Hy _]).
  pose proof (length_concat_uniform _ L HL) as Htot. unfold L in Htot. rewrite length_map in Htot. fold L in Htot.
  rewrite (drop_concat_uniform _ _ _ HL), drop_drop.
  replace (Z.to_nat 0x2000 * Z.to_nat q + Z.to_nat r)%nat with (Z.to_nat offset) by lia.
  destruct (Z.min_spec n (0x2000 * Z.of_nat (length l) - offset)) as [[_ ->]|[Hle ->]]; [done|].
  by rewrite !take_ge by (rewrite length_drop; lia).
Qed.
(** The card with the file of one block on it. *)
Lemma sample_card_with_file : exists c, card_ok 1 c /\ slots c !! 0%nat =
  Some (Some (mkSavefile (set_copy_counter 1 (set_first_block 0 sample_entry)) [replicate (Z.to_nat BLOCK_SIZE) 7])).
Proof.
  pose proof (import_refines 0 sample_card sample_file sample_card_ok ltac:(lia) sample_file_ok) as H.
  assert (E : store_import (m_header_block sample_card) (m_size_mb sample_card * 16 - 5) sample_file (slots sample_card) =
    (Import_SUCCESS, Some (mkSavefile (set_copy_counter 1 (set_first_block 0 sample_entry)) [replicate (Z.to_nat BLOCK_SIZE) 7]) :: replicate 126 None))
    by (vm_compute; reflexivity).
  rewrite E in H. destruct H as (c & _ & Hc & [_ _ Hs]). exists c. by rewrite Hs.
Qed.
Lemma save_bytes_are_the_files_witness : exists c, GetSaveDataBytes 0 8190 4 c = Some [7; 7] /\ GetSaveDataBytes 0 8192 4 c = None.
Proof.
  destruct sample_card_with_file as (c & Hc & Hs). exists c. split.
  - rewrite (save_bytes_are_the_files 1 c 0 _ 8190 4 Hc Hs) by lia. vm_compute. reflexivity.
  - rewrite (save_bytes_are_the_files 1 c 0 _ 8192 4 Hc Hs) by lia. vm_compute. reflexivity.
Defined.

(** C31. A save written to a file of the host is read back the same, in each of the
    three formats, which the reader tells apart by the size of the file: the GCI file,
    the GCS file, which does not keep the number of blocks, and the SAV file, which
    swaps the bytes of its numbers. *)
Theorem savefile_round_trip f format : writable f -> ReadSavefile (Some (WriteSavefile f format)) = inr f.
Proof.
  intros Hf. destruct format; [by apply gci_round_trip|by apply gcs_round_trip|by apply sav_round_trip].
Qed.
Lemma savefile_round_trip_witness : writable sample_file /\ ReadSavefile (Some (WriteSavefile sample_file SAV)) = inr sample_file.
Proof.
  assert (H : writable sample_file) by (pose proof sample_file_ok as []; by constructor). split; [exact H|].
  exact (savefile_round_trip sample_file SAV H).
Defined.

(** ** What the checks let through *)

(** The image of a card whose only file lies in the block behind its last one. *)
Definition card_beyond_end : GCMemcard :=
  let d := GetActiveDirectory sample_card in let b := GetActiveBat sample_card in
  updated (set_dir_counter 1 (set_dir_entries (<[0%nat := set_first_block 64 sample_entry]> (m_dir_entries d)) d))
    (set_bat_counter 1 (set_map (<[59%nat := 0xFFFF]> (m_map b)) b)) (m_data_blocks sample_card) sample_card.
(** Opening a card does not check that the files lie on it: this image of 64
    blocks, with a file in block 64, is opened with nothing but a remark about data in
    an unused area, and exporting the file reads behind the blocks. *)
Theorem file_beyond_the_card :
  match Open (Some (Save card_beyond_end)) with
  | (e, Some c) => negb (HasCriticalErrors e) && Test e DATA_IN_UNUSED_AREA &&
      match ExportFile 0 c with Fault ArrayBounds => true | _ => false end
  | _ => false
  end = true.
Proof.
  assert (E : Save card_beyond_end = image sample_card
    (to_bytes Directory_layout (fst (m_directory_blocks card_beyond_end))) (to_bytes Directory_layout (snd (m_directory_blocks card_beyond_end)))
    (to_bytes BlockAlloc_layout (fst (m_bat_blocks card_beyond_end))) (to_bytes BlockAlloc_layout (snd (m_bat_blocks card_beyond_end)))).
  { unfold Save. assert (H1 : m_header_block card_beyond_end = m_header_block sample_card) by (exact (ho_checksum _ _ (co_header _ _ sample_card_ok))).
    rewrite H1. change (m_data_blocks card_beyond_end) with (m_data_blocks sample_card). change (m_size_blocks card_beyond_end) with (m_size_blocks sample_card).
    by rewrite (saved_data 0 sample_card sample_card_ok). }
  rewrite E, (Open_image 0) by first [exact sample_card_ok|rewrite !Forall_cons; vm_compute; repeat split; constructor].
  vm_compute. reflexivity.
Qed.

(** A save without blocks is imported, and the card fails the checks from then on. *)
Lemma empty_save_breaks_card :
  match ImportFile (mkSavefile (set_block_count 0 sample_entry) []) sample_card with
  | Done Import_SUCCESS c =>
      match check_card (m_size_mb c) (raw_card c) with (e, None) => Test e DIR_BAT_INCONSISTENT | _ => false end
  | _ => false
  end = true.
Proof. vm_compute. reflexivity. Qed.
