(* ===== verification/PPCCache.v ===== *)
(** * The caches of the PowerPC (PowerPC/PPCCache.cpp)

    Eight ways of 128 sets of 32-byte lines with a pseudo-LRU replacement, a
    write-back data cache and an instruction cache.  The state carries the
    memory behind the cache. *)
From S2P Require Export Memmap.

Definition CACHE_SETS : Z := 128.
Definition CACHE_WAYS : Z := 8.
Definition CACHE_EXRAM_BIT : Z := 0x10000000.
Definition CACHE_VMEM_BIT : Z := 0x20000000.

(** ** The tables of the replacement *)

Definition s_plru_mask : list Z := [11; 11; 19; 19; 37; 37; 69; 69].
Definition s_plru_value : list Z := [11; 3; 17; 1; 36; 4; 64; 0].

(** The [while] loop over the bits of [m]; [fuel] bounds the ways. *)
Fixpoint first_clear_bit (fuel : nat) (m w : Z) : Z :=
  match fuel with
  | O => w
  | S fuel' => if negb (m .& (1 .<< w) =? 0) then first_clear_bit fuel' m (w + 1) else w
  end.
Definition s_way_from_valid : list Z := map (fun m => first_clear_bit 8 (Z.of_nat m) 0) (seq 0 255).

(** The decision tree of the pseudo-LRU bits. *)
Definition way_from_plru (m : Z) : Z :=
  let b i := negb (m .& (1 .<< i) =? 0) in
  if b 0 then
    if b 2 then if b 6 then 7 else 6
    else if b 5 then 5 else 4
  else if b 1 then if b 4 then 3 else 2
  else if b 3 then 1 else 0.
Definition s_way_from_plru : list Z := map (fun m => way_from_plru (Z.of_nat m)) (seq 0 128).

(** ** State *)

(** [addrs] and [data] are indexed by set and way; [data] holds the bytes of a line. *)
Record Cache := mkCache {
  data : gmap (Z * Z) (list Z);
  addrs : gmap (Z * Z) Z;
  plru : gmap Z Z;
  valid : gmap Z Z;
  modified : gmap Z Z;
  lookup_table : Mem;
  lookup_table_ex : Mem;
  lookup_table_vmem : Mem
}.

Record CacheSys := mkCacheSys { cache : Cache; memory : MemoryManager }.

Definition set_cache (c : Cache) (s : CacheSys) : CacheSys := mkCacheSys c (memory s).
Definition set_memory (m : MemoryManager) (s : CacheSys) : CacheSys := mkCacheSys (cache s) m.
Definition set_data d c := mkCache d (addrs c) (plru c) (valid c) (modified c) (lookup_table c)
  (lookup_table_ex c) (lookup_table_vmem c).
Definition set_addrs a c := mkCache (data c) a (plru c) (valid c) (modified c) (lookup_table c)
  (lookup_table_ex c) (lookup_table_vmem c).
Definition set_plru p c := mkCache (data c) (addrs c) p (valid c) (modified c) (lookup_table c)
  (lookup_table_ex c) (lookup_table_vmem c).
Definition set_valid v c := mkCache (data c) (addrs c) (plru c) v (modified c) (lookup_table c)
  (lookup_table_ex c) (lookup_table_vmem c).
Definition set_modified m c := mkCache (data c) (addrs c) (plru c) (valid c) m (lookup_table c)
  (lookup_table_ex c) (lookup_table_vmem c).
Definition set_lookup_table t c := mkCache (data c) (addrs c) (plru c) (valid c) (modified c) t
  (lookup_table_ex c) (lookup_table_vmem c).
Definition set_lookup_table_ex t c := mkCache (data c) (addrs c) (plru c) (valid c) (modified c)
  (lookup_table c) t (lookup_table_vmem c).
Definition set_lookup_table_vmem t c := mkCache (data c) (addrs c) (plru c) (valid c) (modified c)
  (lookup_table c) (lookup_table_ex c) t.

(** The cells of the fixed-size arrays. *)
Definition line_data (c : Cache) (set way : Z) : list Z := default (replicate 32 0) (data c !! (set, way)).
Definition line_addr (c : Cache) (set way : Z) : Z := default 0 (addrs c !! (set, way)).
Definition plru_of (c : Cache) (set : Z) : Z := default 0 (plru c !! set).
Definition valid_of (c : Cache) (set : Z) : Z := default 0 (valid c !! set).
Definition modified_of (c : Cache) (set : Z) : Z := default 0 (modified c !! set).
(** [bits & (1 << way)] *)
Definition has_way (bits way : Z) : bool := negb (bits .& (1 .<< way) =? 0).

Definition put_data set way v (c : Cache) := set_data (<[(set, way) := v]> (data c)) c.
Definition put_addr set way v (c : Cache) := set_addrs (<[(set, way) := v]> (addrs c)) c.
Definition put_plru set v (c : Cache) := set_plru (<[set := v]> (plru c)) c.
Definition put_valid set v (c : Cache) := set_valid (<[set := v]> (valid c)) c.
Definition put_modified set v (c : Cache) := set_modified (<[set := v]> (modified c)) c.

Definition get_cache : M CacheSys Cache := mget cache.
Definition on_cache (f : Cache -> Cache) : M CacheSys unit := mmodify (fun s => set_cache (f (cache s)) s).
Definition get_memory : M CacheSys MemoryManager := mget memory.
Definition on_memory (f : MemoryManager -> MemoryManager) : M CacheSys unit :=
  mmodify (fun s => set_memory (f (memory s)) s).
(** Indexing [addrs[set][way]] and the like needs both indices in range. *)
Definition check_way (way : Z) : M CacheSys unit :=
  if (0 <=? way) && (way <? CACHE_WAYS) then mret tt else mfail ArrayBounds.

(** ** The lookup tables *)

Definition lookup_get (addr : Z) : M CacheSys Z :=
  c <- get_cache ;; m <- get_memory ;;
  if negb (addr .& CACHE_VMEM_BIT =? 0) then
    mopt ArrayBounds (mem_get (lookup_table_vmem c) ((addr .& m_fakevmem_mask m) .>> 5))
  else if negb (addr .& CACHE_EXRAM_BIT =? 0) then
    mopt ArrayBounds (mem_get (lookup_table_ex c) ((addr .& m_exram_mask m) .>> 5))
  else mopt ArrayBounds (mem_get (lookup_table c) ((addr .& m_ram_mask m) .>> 5)).

Definition lookup_set (addr way : Z) : M CacheSys unit :=
  c <- get_cache ;; m <- get_memory ;;
  if negb (addr .& CACHE_VMEM_BIT =? 0) then
    t <- mopt ArrayBounds (mem_set (lookup_table_vmem c) ((addr .& m_fakevmem_mask m) .>> 5) way) ;;
    on_cache (set_lookup_table_vmem t)
  else if negb (addr .& CACHE_EXRAM_BIT =? 0) then
    t <- mopt ArrayBounds (mem_set (lookup_table_ex c) ((addr .& m_exram_mask m) .>> 5) way) ;;
    on_cache (set_lookup_table_ex t)
  else
    t <- mopt ArrayBounds (mem_set (lookup_table c) ((addr .& m_ram_mask m) .>> 5) way) ;;
    on_cache (set_lookup_table t).

(** ** Operations *)

(** The lookup tables filled with 0xff. *)
Definition clear_table (t : Mem) : Mem := mkMem (mem_size t) 0xff ∅.
Definition Cache_Reset : M CacheSys unit :=
  on_cache (fun c => mkCache (data c) (addrs c) ∅ ∅ ∅ (clear_table (lookup_table c))
    (clear_table (lookup_table_ex c)) (clear_table (lookup_table_vmem c))).

Definition Cache_Init : M CacheSys unit :=
  m <- get_memory ;;
  on_cache (fun c => mkCache ∅ ∅ (plru c) (valid c) (modified c)
    (mkMem (m_ram_size m .>> 5) 0 ∅) (mkMem (m_exram_size m .>> 5) 0 ∅)
    (mkMem (m_fakevmem_size m .>> 5) 0 ∅)) ;;;
  Cache_Reset.

(** The way to replace: the first invalid one, or the one the pseudo-LRU bits select. *)
Definition select_way (set : Z) : M CacheSys Z :=
  c <- get_cache ;;
  if negb (valid_of c set =? 0xff) then mopt ArrayBounds (zget s_way_from_valid (valid_of c set))
  else mopt ArrayBounds (zget s_way_from_plru (plru_of c set)).

(** The valid line in a way leaves the cache, written back when it was modified. *)
Definition evict (set way : Z) : M CacheSys unit :=
  c <- get_cache ;;
  if has_way (valid_of c set) way then
    mwhen (has_way (modified_of c set) way)
      (on_memory (fun m => CopyToEmu m (line_addr c set way) (line_data c set way))) ;;;
    lookup_set (line_addr c set way) 0xff
  else mret tt.

(** The line at [addr] enters the cache. *)
Definition fill_line (addr set way : Z) : M CacheSys unit :=
  m <- get_memory ;;
  on_cache (fun c => put_data set way (CopyFromEmu m (line_data c set way) (addr .& .~ 0x1f)) c) ;;;
  lookup_set addr way ;;;
  on_cache (fun c => put_modified set (modified_of c set .& .~ (1 .<< way))
    (put_valid set (valid_of c set .| (1 .<< way)) (put_addr set way addr c))).

Definition update_plru (set way : Z) : M CacheSys unit :=
  mask <- mopt ArrayBounds (zget s_plru_mask way) ;;
  value <- mopt ArrayBounds (zget s_plru_value way) ;;
  on_cache (fun c => put_plru set ((plru_of c set .& .~ mask) .| value) c).

Definition GetCache (addr : Z) (locked : bool) : M CacheSys (Z * Z) :=
  let addr := addr .& .~ 31 in
  let set := (addr .>> 5) .& 0x7f in
  way <- lookup_get addr ;;
  way <- (if negb locked && (way =? 0xff) then
            way <- select_way set ;; check_way way ;;; evict set way ;;; fill_line addr set way ;;; mret way
          else mret way) ;;
  mwhen (negb (way =? 0xff)) (update_plru set way) ;;;
  mret (set, way).

Definition Touch (addr : Z) (store : bool) : M CacheSys unit := GetCache addr false ;;; mret tt.

Definition Store (addr : Z) : M CacheSys unit :=
  sw <- GetCache addr true ;;
  let '(set, way) := sw in
  if way =? 0xff then mret tt else
  c <- get_cache ;;
  mwhen (has_way (valid_of c set) way && has_way (modified_of c set) way)
    (on_memory (fun m => CopyToEmu m (addr .& .~ 0x1f) (line_data c set way))) ;;;
  on_cache (fun c => put_modified set (modified_of c set .& .~ (1 .<< way)) c).

(** The line in a way is dropped. *)
Definition drop_line (set way : Z) : M CacheSys unit :=
  c <- get_cache ;;
  lookup_set (line_addr c set way) 0xff ;;;
  on_cache (fun c => put_modified set (modified_of c set .& .~ (1 .<< way))
    (put_valid set (valid_of c set .& .~ (1 .<< way)) c)).

Definition Invalidate (addr : Z) : M CacheSys unit :=
  sw <- GetCache addr true ;;
  let '(set, way) := sw in
  if way =? 0xff then mret tt else
  c <- get_cache ;;
  mwhen (has_way (valid_of c set) way) (drop_line set way).

Definition Flush (addr : Z) : M CacheSys unit :=
  sw <- GetCache addr true ;;
  let '(set, way) := sw in
  if way =? 0xff then mret tt else
  c <- get_cache ;;
  mwhen (has_way (valid_of c set) way)
    (mwhen (has_way (modified_of c set) way)
       (on_memory (fun m => CopyToEmu m (addr .& .~ 0x1f) (line_data c set way))) ;;;
     drop_line set way).

Definition FlushAll_line (set way : Z) : M CacheSys unit :=
  c <- get_cache ;;
  mwhen (has_way (valid_of c set) way && has_way (modified_of c set) way)
    (on_memory (fun m => CopyToEmu m (line_addr c set way) (line_data c set way))).
(** The two loops, over the given sets and ways. *)
Fixpoint FlushAll_lines (l : list (Z * Z)) : M CacheSys unit :=
  match l with [] => mret tt | (set, way) :: l' => FlushAll_line set way ;;; FlushAll_lines l' end.
Definition all_lines : list (Z * Z) :=
  flat_map (fun set => map (fun way => (Z.of_nat set, Z.of_nat way)) (seq 0 8)) (seq 0 128).
Definition FlushAll : M CacheSys unit := FlushAll_lines all_lines ;;; Cache_Reset.

(** The part of an access that lies in the line of [addr]. *)
Definition len_in_block (addr len : Z) : Z := Z.min len (u32 ((u32 (addr + 32) .& .~ 31) - addr)).

(** The loop over the lines of an access; [buffer] holds the bytes before the
    read and has its length.  Every turn takes at least one byte. *)
Fixpoint Read_loop (fuel : nat) (addr : Z) (buffer : list Z) (locked : bool) : M CacheSys (list Z) :=
  if (length buffer =? 0)%nat then mret []
  else match fuel with
       | O => mfail OutOfFuel
       | S fuel' =>
           sw <- GetCache addr locked ;;
           let '(set, way) := sw in
           let offset := addr - (addr .& .~ 31) in
           let n := Z.to_nat (len_in_block addr (Z.of_nat (length buffer))) in
           c <- get_cache ;; m <- get_memory ;;
           let bytes :=
             if negb (way =? 0xff) then take n (drop (Z.to_nat offset) (line_data c set way))
             else CopyFromEmu m (take n buffer) addr in
           rest <- Read_loop fuel' (u32 (addr + Z.of_nat n)) (drop n buffer) locked ;;
           mret (bytes ++ rest)
       end.
Definition Read (addr : Z) (buffer : list Z) (locked : bool) : M CacheSys (list Z) :=
  Read_loop (length buffer) addr buffer locked.

(** [memcpy] into a line. *)
Definition overwrite (line : list Z) (offset : Z) (bytes : list Z) : list Z :=
  take (Z.to_nat offset) line ++ bytes ++ drop (Z.to_nat offset + length bytes) line.

Fixpoint Write_loop (fuel : nat) (addr : Z) (value : list Z) (locked : bool) : M CacheSys unit :=
  if (length value =? 0)%nat then mret tt
  else match fuel with
       | O => mfail OutOfFuel
       | S fuel' =>
           sw <- GetCache addr locked ;;
           let '(set, way) := sw in
           let offset := addr - (addr .& .~ 31) in
           let n := Z.to_nat (len_in_block addr (Z.of_nat (length value))) in
           (if negb (way =? 0xff) then
              on_cache (fun c => put_modified set (modified_of c set .| (1 .<< way))
                (put_data set way (overwrite (line_data c set way) offset (take n value)) c))
            else on_memory (fun m => CopyToEmu m addr (take n value))) ;;;
           Write_loop fuel' (u32 (addr + Z.of_nat n)) (drop n value) locked
       end.
Definition Write (addr : Z) (value : list Z) (locked : bool) : M CacheSys unit :=
  Write_loop (length value) addr value locked.

(** ** The instruction cache *)

(** [HID0.ICE], [HID0.ILOCK] and the setting that turns the cache off are arguments. *)
Definition ReadInstruction (ice ilock m_disable_icache : bool) (addr : Z) : M CacheSys Z :=
  if negb ice || m_disable_icache then m <- get_memory ;; mret (Read_U32 m addr)
  else bytes <- Read addr (replicate 4 0) ilock ;; mret (from_be bytes).

Fixpoint Invalidate_ways (set : Z) (ways : list Z) : M CacheSys unit :=
  match ways with
  | [] => mret tt
  | way :: ways' =>
      c <- get_cache ;;
      mwhen (has_way (valid_of c set) way) (lookup_set (line_addr c set way) 0xff) ;;;
      Invalidate_ways set ways'
  end.
(** [icbi]: all ways of the address's set; the JIT is told, which is left out. *)
Definition ICache_Invalidate (addr : Z) : M CacheSys unit :=
  let set := (addr .>> 5) .& 0x7f in
  Invalidate_ways set [0; 1; 2; 3; 4; 5; 6; 7] ;;;
  on_cache (fun c => put_modified set 0 (put_valid set 0 c)).
