(* ===== verification/CacheCoherence.v ===== *)
(** * The caches are transparent

    A program that only goes through the cache cannot tell it from the memory
    behind it: the cache refines a flat memory, whatever is evicted, written
    back or touched in between.  The invariant ties the lookup tables, the line
    addresses and the valid bits together. *)
From S2P Require Export PPCCache.

(** ** Lines and their sets *)

Definition line_of (x : Z) : Z := x - x mod 32.
Definition set_of (l : Z) : Z := (l / 32) mod 128.
Definition line_ok (m : MemoryManager) (l : Z) : Prop := l mod 32 = 0 /\ block_ok m l 32.

Lemma land_line x : x .& .~ 31 = line_of x.
Proof.
  unfold line_of. change 31 with (Z.ones 5). rewrite <- Z.ldiff_land, Z.ldiff_ones_r by lia.
  rewrite Z.shiftl_mul_pow2, Z.shiftr_div_pow2 by lia. change (2 ^ 5) with 32.
  pose proof (Z.div_mod x 32). lia.
Qed.
Lemma land_set l : (l .>> 5) .& 0x7f = set_of l.
Proof. unfold set_of. rewrite Z.shiftr_div_pow2, (land_ones_mod 7) by lia. done. Qed.
Lemma set_of_range l : 0 <= set_of l < 128.
Proof. unfold set_of. apply Z.mod_pos_bound. lia. Qed.
Lemma line_of_ok m x : mem_wf m -> block_ok m x 1 -> line_ok m (line_of x).
Proof.
  intros Hm Hx. unfold line_of, line_ok. pose proof (mem_ram_lines m Hm). pose proof (mem_exram_lines m Hm).
  split; [Z.div_mod_to_equations; lia|].
  destruct Hx as [[? ?]|(? & ? & ?)]; [left; split; Z.div_mod_to_equations; lia|right; split; [done|]].
  split; Z.div_mod_to_equations; lia.
Qed.
Lemma line_of_line l : l mod 32 = 0 -> line_of l = l.
Proof. unfold line_of. lia. Qed.
Lemma line_of_range x : line_of x <= x < line_of x + 32 /\ line_of x mod 32 = 0.
Proof. unfold line_of. Z.div_mod_to_equations. lia. Qed.
Lemma line_of_unique x l : l mod 32 = 0 -> l <= x < l + 32 -> line_of x = l.
Proof. unfold line_of. intros. Z.div_mod_to_equations. lia. Qed.

(** ** Bits of a set *)

Lemma has_way_testbit b w : 0 <= w -> has_way b w = Z.testbit b w.
Proof. intros. unfold has_way. rewrite Z.shiftl_1_l. by apply flag_testbit. Qed.
Lemma testbit_set_way b w i : 0 <= w -> Z.testbit (b .| (1 .<< w)) i = Z.testbit b i || (i =? w).
Proof.
  intros. rewrite Z.lor_spec, Z.shiftl_1_l. f_equal. rewrite Z.pow2_bits_eqb, Z.eqb_sym by lia. done.
Qed.
Lemma testbit_clear_way b w i : 0 <= w -> 0 <= i -> Z.testbit (b .& .~ (1 .<< w)) i = Z.testbit b i && negb (i =? w).
Proof.
  intros. rewrite Z.land_spec, Z.lnot_spec, Z.shiftl_1_l, Z.pow2_bits_eqb by lia. by rewrite (Z.eqb_sym w).
Qed.
Lemma is_u8_set_way b w : is_u8 b -> 0 <= w < 8 -> is_u8 (b .| (1 .<< w)).
Proof.
  intros Hb Hw. apply (lor_range_pow2 8); [lia|exact Hb|]. rewrite Z.shiftl_1_l.
  split; [apply Z.pow_nonneg; lia|apply Z.pow_lt_mono_r; lia].
Qed.
Lemma is_u8_clear_way b w : is_u8 b -> is_u8 (b .& .~ (1 .<< w)).
Proof. intros. by apply is_u8_land. Qed.

(** ** The replacement picks a way *)

Lemma first_clear_bits :
  forallb (fun n => let m := Z.of_nat n in let w := first_clear_bit 8 m 0 in
             (0 <=? w) && (w <? 8) && negb (Z.testbit m w)) (seq 0 255) = true.
Proof. vm_compute. reflexivity. Qed.

Lemma way_from_valid v : is_u8 v -> v <> 0xff ->
  exists w, zget s_way_from_valid v = Some w /\ 0 <= w < 8 /\ Z.testbit v w = false.
Proof.
  intros Hv Hne. unfold is_u8 in Hv. exists (first_clear_bit 8 v 0).
  pose proof (proj1 (forallb_forall _ _) first_clear_bits (Z.to_nat v)) as H.
  cbv beta zeta in H. rewrite Z2Nat.id in H by lia. specialize (H ltac:(apply in_seq; lia)).
  apply andb_prop in H as [H ?%negb_true_iff]. apply andb_prop in H as [?%Z.leb_le ?%Z.ltb_lt].
  split; [|done]. unfold zget, s_way_from_valid. rewrite (proj2 (Z.leb_le 0 v)) by lia.
  rewrite list_lookup_fmap, lookup_seq_lt by lia. simpl. by rewrite Z2Nat.id by lia.
Qed.

Lemma way_from_plru_range p : 0 <= way_from_plru p < 8.
Proof. unfold way_from_plru. repeat case_match; lia. Qed.
Lemma way_from_plru_table p : 0 <= p < 128 -> zget s_way_from_plru p = Some (way_from_plru p).
Proof.
  intros Hp. unfold zget, s_way_from_plru. rewrite (proj2 (Z.leb_le 0 p)) by lia.
  rewrite list_lookup_fmap, lookup_seq_lt by lia. simpl. by rewrite Z2Nat.id by lia.
Qed.

(** What touching a way does to the pseudo-LRU bits. *)
Definition plru_touch (p w : Z) : Z :=
  (p .& .~ nth (Z.to_nat w) s_plru_mask 0) .| nth (Z.to_nat w) s_plru_value 0.
Lemma plru_tables w : 0 <= w < 8 ->
  zget s_plru_mask w = Some (nth (Z.to_nat w) s_plru_mask 0) /\
  zget s_plru_value w = Some (nth (Z.to_nat w) s_plru_value 0) /\
  0 <= nth (Z.to_nat w) s_plru_value 0 < 128.
Proof.
  intros Hw. assert (w = 0 \/ w = 1 \/ w = 2 \/ w = 3 \/ w = 4 \/ w = 5 \/ w = 6 \/ w = 7) as Hc by lia.
  repeat destruct Hc as [->|Hc]; [..|subst w]; by vm_compute.
Qed.
Lemma plru_touch_range p w : 0 <= p < 128 -> 0 <= w < 8 -> 0 <= plru_touch p w < 128.
Proof.
  intros Hp Hw. destruct (plru_tables w Hw) as (_ & _ & Hv).
  apply (lor_range_pow2 7); [lia| |exact Hv]. by apply (land_range_l 7).
Qed.

(** ** The lookup tables as a function of the line *)

Definition lw (s : CacheSys) (l : Z) : Z :=
  if l <? 0x10000000 then default 0xff (mem_get (lookup_table (cache s)) (l / 32))
  else default 0xff (mem_get (lookup_table_ex (cache s)) ((l - 0x10000000) / 32)).

Definition put_cell (t : Mem) (i v : Z) : Mem := mkMem (mem_size t) (mem_fill t) (<[i := v]> (mem_data t)).
Definition put_lw (l w : Z) (s : CacheSys) : CacheSys :=
  if l <? 0x10000000 then
    set_cache (set_lookup_table (put_cell (lookup_table (cache s)) (l / 32) w) (cache s)) s
  else
    set_cache (set_lookup_table_ex (put_cell (lookup_table_ex (cache s)) ((l - 0x10000000) / 32) w) (cache s)) s.

Definition tables_ok (s : CacheSys) : Prop :=
  mem_wf (memory s) /\ mem_size (lookup_table (cache s)) = m_ram_size (memory s) / 32 /\
  mem_size (lookup_table_ex (cache s)) = m_exram_size (memory s) / 32.

(** Where a line is looked up. *)
Lemma line_table m l : mem_wf m -> line_ok m l ->
  (0 <= l < 0x10000000 /\ l .& CACHE_VMEM_BIT = 0 /\ l .& CACHE_EXRAM_BIT = 0 /\
     (l .& m_ram_mask m) .>> 5 = l / 32 /\ 0 <= l / 32 < m_ram_size m / 32) \/
  (0x10000000 <= l < 0x20000000 /\ l .& CACHE_VMEM_BIT = 0 /\ l .& CACHE_EXRAM_BIT <> 0 /\
     (l .& m_exram_mask m) .>> 5 = (l - 0x10000000) / 32 /\
     0 <= (l - 0x10000000) / 32 < m_exram_size m / 32).
Proof.
  intros Hm [H32 Hl]. destruct (mem_ram_pow m Hm) as (k & Hk & Ek). pose proof (size_bound k Hk).
  destruct (mem_exram_pow m Hm) as (j & Hj & Ej). pose proof (size_bound j Hj).
  pose proof (mem_ram_real m Hm). pose proof (mem_exram_real m Hm).
  assert (Ek32 : m_ram_size m mod 32 = 0).
  { rewrite Ek. replace k with (k - 5 + 5) by lia. rewrite Z.pow_add_r by lia. apply Z.mod_mul. lia. }
  assert (Ej32 : m_exram_size m mod 32 = 0).
  { rewrite Ej. replace j with (j - 5 + 5) by lia. rewrite Z.pow_add_r by lia. apply Z.mod_mul. lia. }
  assert (Hbit : forall i, 0 <= i -> l .& 2 ^ i = 0 <-> Z.testbit l i = false).
  { intros i Hi. rewrite <- flag_testbit by done. destruct (Z.eqb_spec (l .& 2 ^ i) 0); intuition discriminate. }
  destruct Hl as [[Ha Hb]|(_ & Ha & Hb)]; [left|right].
  - assert (Hlt : 0 <= l < 0x10000000) by lia. split; [done|].
    assert (Hhi : forall i, 28 <= i -> Z.testbit l i = false) by (apply (bits_above_pow2 l 28); lia).
    split; [apply (Hbit 29); [lia|apply Hhi; lia]|]. split; [apply (Hbit 28); [lia|apply Hhi; lia]|].
    rewrite (mem_ram_mask_eq m Hm), (land_ones_mod k), <- Ek, Z.mod_small, Z.shiftr_div_pow2 by lia.
    change (2 ^ 5) with 32. split; [done|]. Z.div_mod_to_equations; lia.
  - assert (Hlt : 0x10000000 <= l < 0x20000000) by lia. split; [done|].
    assert (Hhi : forall i, 29 <= i -> Z.testbit l i = false) by (apply (bits_above_pow2 l 29); lia).
    split; [apply (Hbit 29); [lia|apply Hhi; lia]|]. split.
    { change CACHE_EXRAM_BIT with (2 ^ 28). rewrite Hbit by lia. rewrite testbit_odd_div by lia.
      change (2 ^ 28) with 0x10000000. by rewrite <- (Z.div_unique l 0x10000000 1 (l - 0x10000000)) by lia. }
    rewrite exram_offset, Z.shiftr_div_pow2 by (done || lia). change (2 ^ 5) with 32. split; [done|].
    Z.div_mod_to_equations; lia.
Qed.

Lemma mem_get_cell t i : 0 <= i < mem_size t -> mem_get t i = Some (default (mem_fill t) (mem_data t !! i)).
Proof. intros Hi. unfold mem_get, mem_in. by rewrite (proj2 (Z.leb_le 0 i)), (proj2 (Z.ltb_lt i _)) by lia. Qed.
Lemma mem_set_cell t i v : 0 <= i < mem_size t -> mem_set t i v = Some (put_cell t i v).
Proof. intros Hi. unfold mem_set, mem_in. by rewrite (proj2 (Z.leb_le 0 i)), (proj2 (Z.ltb_lt i _)) by lia. Qed.

Ltac table_cases Hm Hl :=
  destruct (line_table _ _ Hm Hl) as [(?Hr & ?Hv & ?He & ?Hi & ?Hb)|(?Hr & ?Hv & ?He & ?Hi & ?Hb)].

Lemma lookup_get_eval s l : tables_ok s -> line_ok (memory s) l -> lookup_get l s = Done (lw s l) s.
Proof.
  intros (Hm & Ht & Hx) Hl. unfold lookup_get, get_cache, get_memory, mbind, mget, lw.
  table_cases Hm Hl; rewrite Hv; simpl.
  - rewrite He, Hi. simpl. rewrite (proj2 (Z.ltb_lt l _)) by lia. by rewrite mem_get_cell by lia.
  - rewrite (proj2 (Z.eqb_neq _ 0) He), Hi. simpl. rewrite (proj2 (Z.ltb_ge l _)) by lia.
    by rewrite mem_get_cell by lia.
Qed.

Lemma lookup_set_eval s l w : tables_ok s -> line_ok (memory s) l -> lookup_set l w s = Done tt (put_lw l w s).
Proof.
  intros (Hm & Ht & Hx) Hl. unfold lookup_set, get_cache, get_memory, mbind, mget, put_lw.
  table_cases Hm Hl; rewrite Hv; simpl.
  - rewrite He, Hi. simpl. rewrite (proj2 (Z.ltb_lt l _)) by lia. by rewrite mem_set_cell by lia.
  - rewrite (proj2 (Z.eqb_neq _ 0) He), Hi. simpl. rewrite (proj2 (Z.ltb_ge l _)) by lia.
    by rewrite mem_set_cell by lia.
Qed.

(** [put_lw] changes one entry of the tables and nothing else. *)
Lemma put_lw_same s l w :
  memory (put_lw l w s) = memory s /\ data (cache (put_lw l w s)) = data (cache s) /\
  addrs (cache (put_lw l w s)) = addrs (cache s) /\ plru (cache (put_lw l w s)) = plru (cache s) /\
  valid (cache (put_lw l w s)) = valid (cache s) /\ modified (cache (put_lw l w s)) = modified (cache s) /\
  mem_size (lookup_table (cache (put_lw l w s))) = mem_size (lookup_table (cache s)) /\
  mem_size (lookup_table_ex (cache (put_lw l w s))) = mem_size (lookup_table_ex (cache s)).
Proof. unfold put_lw. by destruct (l <? _). Qed.

Lemma put_lw_tables s l w : tables_ok s -> tables_ok (put_lw l w s).
Proof.
  destruct (put_lw_same s l w) as (E1 & _ & _ & _ & _ & _ & E7 & E8).
  intros (Hm & Ht & Hx). split; [by rewrite E1|]. by rewrite E1, E7, E8.
Qed.

Lemma lw_put s l w l' : tables_ok s -> line_ok (memory s) l -> line_ok (memory s) l' ->
  lw (put_lw l w s) l' = if l' =? l then w else lw s l'.
Proof.
  intros (Hm & Ht & Hx) Hl Hl'. pose proof Hl as [H32 _]. pose proof Hl' as [H32' _].
  unfold lw, put_lw.
  table_cases Hm Hl; table_cases Hm Hl'; rewrite ?(proj2 (Z.ltb_lt l _)), ?(proj2 (Z.ltb_ge l _)),
    ?(proj2 (Z.ltb_lt l' _)), ?(proj2 (Z.ltb_ge l' _)) by lia; simpl.
  2, 3: by rewrite (proj2 (Z.eqb_neq l' l)) by lia.
  all: rewrite !mem_get_cell by (simpl; lia); simpl; destruct (Z.eqb_spec l' l) as [->|Hne];
    [by rewrite lookup_insert_eq|rewrite lookup_insert_ne; [done|]]; intros E; apply Hne;
    Z.div_mod_to_equations; lia.
Qed.

(** ** The invariant

    [inv hole s]: the tables, the addresses and the valid bits describe the same
    lines, and an unmodified line equals the memory behind it.  The slot [hole],
    if there is one, is about to be replaced and is in no table. *)

Definition slot_ok (hole : option (Z * Z)) (set way : Z) : Prop := hole <> Some (set, way).

Record inv (hole : option (Z * Z)) (s : CacheSys) : Prop := {
  i_tables : tables_ok s;
  i_valid : forall set, is_u8 (valid_of (cache s) set);
  i_plru : forall set, 0 <= plru_of (cache s) set < 128;
  i_data : forall set way, length (line_data (cache s) set way) = 32%nat /\
    Forall is_u8 (line_data (cache s) set way);
  i_lookup : forall l, line_ok (memory s) l -> lw s l <> 0xff ->
    0 <= lw s l < 8 /\ Z.testbit (valid_of (cache s) (set_of l)) (lw s l) = true /\
    line_addr (cache s) (set_of l) (lw s l) = l /\ slot_ok hole (set_of l) (lw s l);
  i_lines : forall set way, 0 <= set < 128 -> 0 <= way < 8 ->
    Z.testbit (valid_of (cache s) set) way = true -> slot_ok hole set way ->
    line_ok (memory s) (line_addr (cache s) set way) /\ set_of (line_addr (cache s) set way) = set /\
    lw s (line_addr (cache s) set way) = way;
  i_clean : forall set way, 0 <= set < 128 -> 0 <= way < 8 ->
    Z.testbit (valid_of (cache s) set) way = true -> slot_ok hole set way ->
    Z.testbit (modified_of (cache s) set) way = false ->
    line_data (cache s) set way = bytes_from (mem_byte (memory s)) (line_addr (cache s) set way) 32
}.

(** What a program sees at an address: the cached byte, or the byte in memory. *)
Definition view (s : CacheSys) (x : Z) : Z :=
  let l := line_of x in
  if lw s l =? 0xff then mem_byte (memory s) x
  else nth (Z.to_nat (x - l)) (line_data (cache s) (set_of l) (lw s l)) 0.

(** Two states a program cannot tell apart. *)
Definition same_view (s s' : CacheSys) : Prop := forall x, block_ok (memory s) x 1 -> view s' x = view s x.
Definition same_blocks (s s' : CacheSys) : Prop :=
  forall x n, block_ok (memory s') x n <-> block_ok (memory s) x n.

(** Memory only changes by write-backs: a byte keeps its value or gets the one a program sees. *)
Definition writes_back (s s' : CacheSys) : Prop := forall x, block_ok (memory s) x 1 ->
  mem_byte (memory s') x = mem_byte (memory s) x \/ mem_byte (memory s') x = view s x.

(** A program cannot tell [s'] from [s]. *)
Record keeps (s s' : CacheSys) : Prop := {
  k_blocks : same_blocks s s';
  k_view : same_view s s';
  k_memory : writes_back s s'
}.

Lemma keeps_same_memory s s' : memory s' = memory s -> same_view s s' -> keeps s s'.
Proof. intros E Hv. constructor; [intros x n; by rewrite E|done|]. intros x _. left. by rewrite E. Qed.
Lemma keeps_refl s : keeps s s.
Proof. by apply keeps_same_memory. Qed.
Lemma keeps_trans s1 s2 s3 : keeps s1 s2 -> keeps s2 s3 -> keeps s1 s3.
Proof.
  intros [Hb Hv Hm] [Hb' Hv' Hm']. constructor.
  - intros x n. by rewrite (Hb' x n).
  - intros x Hx. rewrite Hv' by by apply Hb. by apply Hv.
  - intros x Hx. destruct (Hm' x) as [->| ->]; [by apply Hb|by apply Hm|]. right. by apply Hv.
Qed.

Lemma inv_mem hole s : inv hole s -> mem_wf (memory s).
Proof. intros H. apply H. Qed.

(** A byte of a line of bytes. *)
Lemma nth_bytes_from f l x : l <= x < l + 32 -> nth (Z.to_nat (x - l)) (bytes_from f l 32) 0 = f x.
Proof.
  intros Hx. apply nth_lookup_Some. rewrite lookup_bytes_from by lia. do 2 f_equal. lia.
Qed.

(** *** Writing a line back *)

Definition written_back (set way : Z) (s : CacheSys) : CacheSys :=
  set_memory (CopyToEmu (memory s) (line_addr (cache s) set way) (line_data (cache s) set way)) s.

Lemma line_byte s set way x : inv None s ->
  0 <= set < 128 -> 0 <= way < 8 -> Z.testbit (valid_of (cache s) set) way = true ->
  line_of x = line_addr (cache s) set way ->
  view s x = nth (Z.to_nat (x - line_addr (cache s) set way)) (line_data (cache s) set way) 0.
Proof.
  intros Hs Hset Hway Hv Hx. destruct (i_lines _ _ Hs set way Hset Hway Hv ltac:(done)) as (Hl & E1 & E2).
  unfold view. rewrite Hx, E1, E2. destruct (Z.eqb_spec way 0xff); [lia|done].
Qed.

Lemma patch_line f l bs x : length bs = 32%nat -> l mod 32 = 0 ->
  patch f l bs x = if line_of x =? l then nth (Z.to_nat (x - l)) bs 0 else f x.
Proof.
  intros Hb Hl. pose proof (line_of_range x). destruct (Z.eqb_spec (line_of x) l) as [E|Hne].
  - unfold patch. rewrite Hb. by rewrite (proj2 (Z.leb_le l x)), (proj2 (Z.ltb_lt x _)) by lia.
  - apply patch_out. rewrite Hb. intros Hx. by rewrite (line_of_unique x l) in Hne by lia.
Qed.

Lemma written_back_ok s set way : inv None s -> 0 <= set < 128 -> 0 <= way < 8 ->
  Z.testbit (valid_of (cache s) set) way = true ->
  let s' := written_back set way s in
  inv None s' /\ same_blocks s s' /\ (forall l, lw s' l = lw s l) /\ cache s' = cache s /\
  (forall x, block_ok (memory s) x 1 -> mem_byte (memory s') x = if line_of x =? line_addr (cache s) set way then view s x else mem_byte (memory s) x) /\
  same_view s s'.
Proof.
  intros Hs Hset Hway Hv s'. pose proof (inv_mem _ _ Hs) as Hm.
  destruct (i_lines _ _ Hs set way Hset Hway Hv ltac:(done)) as ([H32 Hl] & E1 & E2).
  destruct (i_data _ _ Hs set way) as [Hlen Hu8].
  assert (Hb : same_blocks s s') by (intros x n; apply CopyToEmu_block).
  assert (Hlw : forall l, lw s' l = lw s l) by done.
  assert (Hbyte : forall x, block_ok (memory s) x 1 -> mem_byte (memory s') x = if line_of x =? line_addr (cache s) set way then view s x else mem_byte (memory s) x).
  { intros x Hx. unfold s', written_back, set_memory. cbn [memory].
    rewrite mem_byte_CopyToEmu by (rewrite ?Hlen; done).
    rewrite patch_line by done. destruct (Z.eqb_spec (line_of x) (line_addr (cache s) set way)) as [E|]; [|done].
    symmetry. by apply line_byte. }
  assert (Hview : same_view s s').
  { intros x Hx. unfold view. rewrite Hlw. destruct (Z.eqb_spec (lw s (line_of x)) 0xff) as [E|]; [|done].
    rewrite Hbyte by done. destruct (Z.eqb_spec (line_of x) (line_addr (cache s) set way)) as [E'|]; [|done].
    rewrite E', E2 in E. lia. }
  split; [|done]. constructor; try apply Hs.
  - destruct (i_tables _ _ Hs) as (_ & Ht & Hx). destruct (CopyToEmu_sizes (memory s)
      (line_addr (cache s) set way) (line_data (cache s) set way)) as (_ & Z2 & _ & _ & _ & _ & Z7 & _).
    split; [by apply CopyToEmu_wf|]. unfold s', written_back, set_memory. cbn [memory cache]. by rewrite Z2, Z7.
  - intros l [Hl32 Hlok] Hne. rewrite Hlw in *. apply (i_lookup _ _ Hs); [|done]. split; [done|by apply Hb].
  - intros set' way' ? ? Hv' _. destruct (i_lines _ _ Hs set' way' ltac:(done) ltac:(done) Hv' ltac:(done))
      as ([H32' Hl'] & ? & ?). rewrite Hlw. split; [split; [done|by apply Hb]|done].
  - intros set' way' Hs' Hw' Hv' _ Hmod.
    destruct (i_lines _ _ Hs set' way' Hs' Hw' Hv' ltac:(done)) as ([H32' Hl'] & E1' & E2').
    change (cache s') with (cache s) in *. rewrite (i_clean _ _ Hs set' way' Hs' Hw' Hv' ltac:(done) Hmod).
    apply bytes_from_ext. intros b Hbr. rewrite Hbyte by (eapply block_ok_sub; [exact Hl'|lia..]).
    destruct (Z.eqb_spec (line_of b) (line_addr (cache s) set way)) as [E|]; [|done].
    assert (line_addr (cache s) set' way' = line_of b) as Eb by (symmetry; apply line_of_unique; lia).
    rewrite line_byte with (set := set') (way := way') by congruence.
    rewrite (i_clean _ _ Hs set' way' Hs' Hw' Hv' ltac:(done) Hmod). by rewrite nth_bytes_from.
Qed.

(** *** Taking a line out of the tables *)

Lemma line_data_put s l w set way : line_data (cache (put_lw l w s)) set way = line_data (cache s) set way.
Proof. unfold line_data. destruct (put_lw_same s l w) as (_ & E & _). by rewrite E. Qed.
Lemma line_addr_put s l w set way : line_addr (cache (put_lw l w s)) set way = line_addr (cache s) set way.
Proof. unfold line_addr. destruct (put_lw_same s l w) as (_ & _ & E & _). by rewrite E. Qed.
Lemma plru_of_put s l w set : plru_of (cache (put_lw l w s)) set = plru_of (cache s) set.
Proof. unfold plru_of. destruct (put_lw_same s l w) as (_ & _ & _ & E & _). by rewrite E. Qed.
Lemma valid_of_put s l w set : valid_of (cache (put_lw l w s)) set = valid_of (cache s) set.
Proof. unfold valid_of. destruct (put_lw_same s l w) as (_ & _ & _ & _ & E & _). by rewrite E. Qed.
Lemma modified_of_put s l w set : modified_of (cache (put_lw l w s)) set = modified_of (cache s) set.
Proof. unfold modified_of. destruct (put_lw_same s l w) as (_ & _ & _ & _ & _ & E & _). by rewrite E. Qed.
Lemma memory_put s l w : memory (put_lw l w s) = memory s.
Proof. apply put_lw_same. Qed.

Ltac put_rewrite := rewrite ?memory_put, ?line_data_put, ?line_addr_put, ?plru_of_put, ?valid_of_put, ?modified_of_put in *.

Lemma slots_distinct s set way set' way' : inv None s ->
  0 <= set < 128 -> 0 <= way < 8 -> Z.testbit (valid_of (cache s) set) way = true ->
  0 <= set' < 128 -> 0 <= way' < 8 -> Z.testbit (valid_of (cache s) set') way' = true ->
  line_addr (cache s) set way = line_addr (cache s) set' way' -> (set, way) = (set', way').
Proof.
  intros Hs H1 H2 Hv H3 H4 Hv' E.
  destruct (i_lines _ _ Hs set way H1 H2 Hv ltac:(done)) as (_ & E1 & E2).
  destruct (i_lines _ _ Hs set' way' H3 H4 Hv' ltac:(done)) as (_ & E3 & E4).
  rewrite E in E1, E2. congruence.
Qed.

Lemma unlink_ok s set way : inv None s -> 0 <= set < 128 -> 0 <= way < 8 ->
  Z.testbit (valid_of (cache s) set) way = true ->
  let l := line_addr (cache s) set way in
  let s' := put_lw l 0xff s in
  inv (Some (set, way)) s' /\
  (forall l', line_ok (memory s) l' -> lw s' l' = if l' =? l then 0xff else lw s l') /\
  forall x, block_ok (memory s) x 1 -> view s' x = if line_of x =? l then mem_byte (memory s) x else view s x.
Proof.
  intros Hs Hset Hway Hv l s'. pose proof (inv_mem _ _ Hs) as Hm.
  destruct (i_lines _ _ Hs set way Hset Hway Hv ltac:(done)) as (Hl & E1 & E2). fold l in Hl, E1, E2.
  assert (Hlw : forall l', line_ok (memory s) l' -> lw s' l' = if l' =? l then 0xff else lw s l')
    by (intros; apply lw_put; [apply Hs|done..]).
  split; [|split; [done|]].
  - constructor; intros; unfold s' in *; put_rewrite; try by apply Hs.
    + apply put_lw_tables, Hs.
    + rewrite Hlw in * by done. destruct (Z.eqb_spec l0 l) as [->|Hne]; [done|].
      destruct (i_lookup _ _ Hs l0 ltac:(done) ltac:(done)) as (? & ? & ? & _).
      do 3 (split; [done|]). intros [= Ea Eb]. apply Hne. unfold l. congruence.
    + destruct (i_lines _ _ Hs set0 way0 ltac:(done) ltac:(done) ltac:(done) ltac:(done)) as (Ha & Hb & Hc).
      split; [done|]. split; [done|]. rewrite Hlw by done.
      destruct (Z.eqb_spec (line_addr (cache s) set0 way0) l) as [E|]; [|done]. exfalso.
      match goal with H : slot_ok _ _ _ |- _ => apply H end. f_equal. by eapply slots_distinct.
  - intros x Hx. unfold view. pose proof (line_of_ok _ _ Hm Hx) as Hlx. rewrite Hlw by done.
    unfold s'; put_rewrite. destruct (Z.eqb_spec (line_of x) l) as [->|Hne]; [done|].
    done.
Qed.

(** A slot without a line can be the hole. *)
Lemma hole_invalid s set way : inv None s -> Z.testbit (valid_of (cache s) set) way = false -> inv (Some (set, way)) s.
Proof.
  intros Hs Hv. constructor; intros; try by apply Hs.
  - destruct (i_lookup _ _ Hs l ltac:(done) ltac:(done)) as (? & ? & ? & _).
    do 3 (split; [done|]). intros [= Ea Eb]. congruence.
Qed.

(** *** The bits of a slot *)

Lemma valid_of_put_valid set v c set' : valid_of (put_valid set v c) set' = if set' =? set then v else valid_of c set'.
Proof.
  unfold valid_of, put_valid. simpl. destruct (Z.eqb_spec set' set) as [->|]; [by rewrite lookup_insert_eq|].
  by rewrite lookup_insert_ne.
Qed.
Lemma modified_of_put_modified set v c set' :
  modified_of (put_modified set v c) set' = if set' =? set then v else modified_of c set'.
Proof.
  unfold modified_of, put_modified. simpl. destruct (Z.eqb_spec set' set) as [->|]; [by rewrite lookup_insert_eq|].
  by rewrite lookup_insert_ne.
Qed.
Lemma plru_of_put_plru set v c set' : plru_of (put_plru set v c) set' = if set' =? set then v else plru_of c set'.
Proof.
  unfold plru_of, put_plru. simpl. destruct (Z.eqb_spec set' set) as [->|]; [by rewrite lookup_insert_eq|].
  by rewrite lookup_insert_ne.
Qed.
Lemma line_addr_put_addr set way v c set' way' :
  line_addr (put_addr set way v c) set' way' = if decide ((set', way') = (set, way)) then v else line_addr c set' way'.
Proof.
  unfold line_addr, put_addr. simpl. case_decide as E; [by rewrite E, lookup_insert_eq|]. by rewrite lookup_insert_ne.
Qed.
Lemma line_data_put_data set way v c set' way' :
  line_data (put_data set way v c) set' way' = if decide ((set', way') = (set, way)) then v else line_data c set' way'.
Proof.
  unfold line_data, put_data. simpl. case_decide as E; [by rewrite E, lookup_insert_eq|]. by rewrite lookup_insert_ne.
Qed.

Definition cleared (set way : Z) (c : Cache) : Cache :=
  put_modified set (modified_of c set .& .~ (1 .<< way)) (put_valid set (valid_of c set .& .~ (1 .<< way)) c).

Lemma cleared_ok s set way : inv (Some (set, way)) s -> 0 <= way < 8 ->
  let s' := set_cache (cleared set way (cache s)) s in
  inv None s' /\ memory s' = memory s /\ (forall l, lw s' l = lw s l) /\ (forall x, view s' x = view s x).
Proof.
  intros Hs Hway s'. split; [|done].
  assert (Hv : forall set', valid_of (cache s') set' =
    if set' =? set then valid_of (cache s) set .& .~ (1 .<< way) else valid_of (cache s) set').
  { intros set'. unfold s', cleared. cbn [cache set_cache]. rewrite <- (valid_of_put_valid set _ (cache s)). done. }
  assert (Hmod : forall set', modified_of (cache s') set' =
    if set' =? set then modified_of (cache s) set .& .~ (1 .<< way) else modified_of (cache s) set').
  { intros set'. unfold s', cleared. cbn [cache set_cache]. by rewrite modified_of_put_modified. }
  assert (Hbit : forall set' way', 0 <= way' ->
    Z.testbit (valid_of (cache s') set') way' = true <->
    Z.testbit (valid_of (cache s) set') way' = true /\ (set, way) <> (set', way')).
  { intros set' way' Hw. rewrite Hv. destruct (Z.eqb_spec set' set) as [->|Hne].
    - rewrite testbit_clear_way by lia. destruct (Z.eqb_spec way' way) as [->|Hne].
      + rewrite andb_false_r. split; [done|]. by intros [_ ?].
      + rewrite andb_true_r. split; [|by intros [? _]]. intros Hb. split; [done|congruence].
    - split; [|by intros [? _]]. intros Hb. split; [done|congruence]. }
  constructor; try apply Hs.
  - intros set'. rewrite Hv. destruct (_ =? _); [apply is_u8_clear_way|]; apply Hs.
  - intros l Hl Hne. destruct (i_lookup _ _ Hs l Hl Hne) as (Hr & Ht & Ha & Hok).
    split; [done|]. split; [|done]. apply Hbit; [change (0 <= lw s l); lia|]. split; [done|].
    intros E. apply Hok. by f_equal.
  - intros set' way' ?? [Hb Hne]%Hbit _; [|lia]. apply (i_lines _ _ Hs); [done..|]. intros [= -> ->]. done.
  - intros set' way' ?? [Hb Hne]%Hbit _ Hm; [|lia]. apply (i_clean _ _ Hs); [done..| |].
    + intros [= -> ->]. done.
    + rewrite Hmod in Hm. destruct (Z.eqb_spec set' set) as [->|]; [|done].
      rewrite testbit_clear_way in Hm by lia. destruct (Z.eqb_spec way' way) as [->|]; [done|].
      by rewrite andb_true_r in Hm.
Qed.

(** *** Filling a slot *)

Definition filled (l way : Z) (s : CacheSys) : CacheSys :=
  let set := set_of l in
  let s1 := set_cache (put_data set way (CopyFromEmu (memory s) (line_data (cache s) set way) l) (cache s)) s in
  let s2 := put_lw l way s1 in
  set_cache (put_modified set (modified_of (cache s2) set .& .~ (1 .<< way))
    (put_valid set (valid_of (cache s2) set .| (1 .<< way)) (put_addr set way l (cache s2)))) s2.

Lemma filled_fields l way s :
  memory (filled l way s) = memory s /\
  (forall set', valid_of (cache (filled l way s)) set' =
     if set' =? set_of l then valid_of (cache s) (set_of l) .| (1 .<< way) else valid_of (cache s) set') /\
  (forall set', modified_of (cache (filled l way s)) set' =
     if set' =? set_of l then modified_of (cache s) (set_of l) .& .~ (1 .<< way) else modified_of (cache s) set') /\
  (forall set', plru_of (cache (filled l way s)) set' = plru_of (cache s) set') /\
  (forall set' way', line_addr (cache (filled l way s)) set' way' =
     if decide ((set', way') = (set_of l, way)) then l else line_addr (cache s) set' way') /\
  (forall set' way', line_data (cache (filled l way s)) set' way' =
     if decide ((set', way') = (set_of l, way)) then CopyFromEmu (memory s) (line_data (cache s) (set_of l) way) l
     else line_data (cache s) set' way') /\
  (tables_ok s -> tables_ok (filled l way s)) /\
  (tables_ok s -> line_ok (memory s) l -> forall l', line_ok (memory s) l' ->
     lw (filled l way s) l' = if l' =? l then way else lw s l').
Proof.
  unfold filled.
  set (s1 := set_cache (put_data (set_of l) way (CopyFromEmu (memory s) (line_data (cache s) (set_of l) way) l)
    (cache s)) s).
  assert (Hs1 : forall set' way', line_data (cache s1) set' way' = if decide ((set', way') = (set_of l, way))
    then CopyFromEmu (memory s) (line_data (cache s) (set_of l) way) l else line_data (cache s) set' way')
    by (intros; apply line_data_put_data).
  assert (Ht1 : tables_ok s -> tables_ok s1) by done.
  split; [exact (memory_put s1 l way)|].
  split; [intros set'; transitivity (valid_of (put_valid (set_of l) (valid_of (cache (put_lw l way s1)) (set_of l)
    .| (1 .<< way)) (put_addr (set_of l) way l (cache (put_lw l way s1)))) set'); [done|];
    rewrite valid_of_put_valid, valid_of_put; destruct (_ =? _); [done|exact (valid_of_put s1 l way set')]|].
  split; [intros set'; cbn [cache set_cache]; rewrite modified_of_put_modified, modified_of_put;
    destruct (_ =? _); [done|exact (modified_of_put s1 l way set')]|].
  split; [intros set'; exact (plru_of_put s1 l way set')|].
  split; [intros set' way'; cbn [cache set_cache]; transitivity (line_addr (put_addr (set_of l) way l
    (cache (put_lw l way s1))) set' way'); [done|]; rewrite line_addr_put_addr; case_decide; [done|];
    exact (line_addr_put s1 l way set' way')|].
  split; [intros set' way'; rewrite <- Hs1; exact (line_data_put s1 l way set' way')|].
  split; [intros Ht; apply (put_lw_tables s1 l way (Ht1 Ht))|].
  intros Ht Hl l' Hl'. exact (lw_put s1 l way l' (Ht1 Ht) Hl Hl').
Qed.

Lemma filled_ok s l way : inv (Some (set_of l, way)) s -> line_ok (memory s) l -> lw s l = 0xff -> 0 <= way < 8 ->
  let s' := filled l way s in
  inv None s' /\ memory s' = memory s /\ lw s' l = way /\ same_view s s'.
Proof.
  intros Hs Hl Hff Hway s'. pose proof (inv_mem _ _ Hs) as Hm.
  destruct (filled_fields l way s) as (Em & Hv & Hmod & Hp & Ha & Hd & Ht & Hlw).
  fold s' in Em, Hv, Hmod, Hp, Ha, Hd, Ht, Hlw. specialize (Hlw (i_tables _ _ Hs) Hl).
  pose proof (set_of_range l) as Hset.
  destruct (i_data _ _ Hs (set_of l) way) as [Hlen _].
  assert (Hcopy : CopyFromEmu (memory s) (line_data (cache s) (set_of l) way) l = bytes_from (mem_byte (memory s)) l 32).
  { rewrite CopyFromEmu_eval; [by rewrite Hlen|done|rewrite Hlen; apply Hl]. }
  assert (Hbit : forall set' way', 0 <= way' -> Z.testbit (valid_of (cache s') set') way' = true <->
    (set', way') = (set_of l, way) \/ Z.testbit (valid_of (cache s) set') way' = true).
  { intros set' way' Hw. rewrite Hv. destruct (Z.eqb_spec set' (set_of l)) as [->|Hne].
    - rewrite testbit_set_way by lia. rewrite orb_true_iff, Z.eqb_eq.
      split; intros [E|E]; [by right|left; congruence|right; congruence|by left].
    - split; [by right|]. intros [E|?]; [congruence|done]. }
  assert (Hcases : forall l', line_ok (memory s) l' -> lw s' l' <> 0xff ->
    l' = l \/ l' <> l /\ lw s' l' = lw s l').
  { intros l' Hl' _. rewrite Hlw by done. destruct (Z.eqb_spec l' l); [by left|by right]. }
  split; [|split; [done|split; [by rewrite Hlw, Z.eqb_refl by done|]]].
  - constructor.
    + apply Ht, Hs.
    + intros set'. rewrite Hv. destruct (_ =? _); [apply is_u8_set_way; [apply Hs|done]|apply Hs].
    + intros set'. rewrite Hp. apply Hs.
    + intros set' way'. rewrite Hd. case_decide; [|apply Hs]. rewrite Hcopy, length_bytes_from. split; [done|].
      apply Forall_map, Forall_forall. intros i _. unfold mem_byte.
      destruct (GetSpanForAddress _ _) as [[[o|o] ?]|]; [apply byte_at_u8..|done].
    + rewrite Em. intros l' Hl' Hne. destruct (Hcases l' Hl' Hne) as [->|[Hnl El]].
      * rewrite Hlw, Z.eqb_refl by done. split; [done|]. split; [apply Hbit; [lia|by left]|].
        split; [|done]. rewrite Ha. by case_decide.
      * rewrite El in *. destruct (i_lookup _ _ Hs l' Hl' Hne) as (? & ? & ? & Hok). split; [done|].
        split; [apply Hbit; [lia|by right]|]. split; [|done]. rewrite Ha. case_decide as E; [|done].
        exfalso. apply Hok. by f_equal.
    + rewrite Em. intros set' way' Hs' Hw' [E|Hb]%Hbit _; [| |lia].
      * rewrite Ha. rewrite decide_True by done. injection E as -> ->. split; [done|]. split; [done|].
        by rewrite Hlw, Z.eqb_refl by done.
      * rewrite Ha. case_decide as E; [injection E as -> ->; split; [done|]; split; [done|];
          by rewrite Hlw, Z.eqb_refl by done|].
        destruct (i_lines _ _ Hs set' way' Hs' Hw' Hb ltac:(intros [=]; congruence)) as (H1 & H2 & H3).
        split; [done|]. split; [done|]. rewrite Hlw by done. destruct (Z.eqb_spec (line_addr (cache s) set' way') l)
          as [E'|]; [|done]. exfalso. rewrite E' in H3. lia.
    + rewrite Em. intros set' way' Hs' Hw' Hb _ Hcl. rewrite Hd, Ha. case_decide as E; [exact Hcopy|].
      apply Hbit in Hb as [|Hb]; [done| |lia].
      apply (i_clean _ _ Hs); [done..|intros [=]; congruence|].
      rewrite Hmod in Hcl. destruct (Z.eqb_spec set' (set_of l)) as [->|]; [|done].
      rewrite testbit_clear_way in Hcl by lia. destruct (Z.eqb_spec way' way) as [->|]; [done|].
      by rewrite andb_true_r in Hcl.
  - intros x Hx. pose proof (line_of_ok _ _ Hm Hx) as Hlx. unfold view. rewrite Hlw, Em by done.
    destruct (Z.eqb_spec (line_of x) l) as [El|Hne].
    + rewrite El, Hff. rewrite (proj2 (Z.eqb_neq way 0xff)) by lia. simpl. rewrite Hd, decide_True by done.
      rewrite Hcopy. apply nth_bytes_from. pose proof (line_of_range x). lia.
    + destruct (Z.eqb_spec (lw s (line_of x)) 0xff) as [|Hnf]; [done|]. rewrite Hd.
      case_decide as E; [|done]. exfalso. injection E as E1 E2.
      destruct (i_lookup _ _ Hs _ Hlx Hnf) as (_ & _ & _ & Hok). apply Hok. by rewrite E1, E2.
Qed.

(** *** Touching a way *)

Definition with_plru (p : gmap Z Z) (s : CacheSys) : CacheSys := set_cache (set_plru p (cache s)) s.

Lemma update_plru_ok hole s set way : inv hole s -> 0 <= way < 8 ->
  exists p, update_plru set way s = Done tt (with_plru p s) /\ inv hole (with_plru p s).
Proof.
  intros Hs Hway. destruct (plru_tables way Hway) as (Em & Ev & _).
  exists (<[set := plru_touch (plru_of (cache s) set) way]> (plru (cache s))). split.
  - unfold update_plru. rewrite Em, Ev. done.
  - constructor; try apply Hs. intros set'. change (0 <= plru_of (put_plru set (plru_touch (plru_of (cache s) set) way)
      (cache s)) set' < 128). rewrite plru_of_put_plru. destruct (_ =? _); [|apply Hs].
    apply plru_touch_range; [apply Hs|done].
Qed.

Lemma with_plru_keeps p s : keeps s (with_plru p s).
Proof. by apply keeps_same_memory. Qed.

(** *** Loading a line *)

Lemma select_way_ok s set : inv None s -> 0 <= set < 128 ->
  exists way, select_way set s = Done way s /\ 0 <= way < 8.
Proof.
  intros Hs Hset. unfold select_way, get_cache, mbind, mget.
  destruct (Z.eqb_spec (valid_of (cache s) set) 0xff) as [E|Hne]; simpl.
  - rewrite way_from_plru_table by apply Hs. eexists. split; [done|]. apply way_from_plru_range.
  - destruct (way_from_valid _ (i_valid _ _ Hs set) Hne) as (w & -> & Hw & _). by eexists.
Qed.

(** The line in a way, with the memory behind it brought up to date. *)
Lemma write_back_ok s set way : inv None s -> 0 <= set < 128 -> 0 <= way < 8 ->
  Z.testbit (valid_of (cache s) set) way = true ->
  let l := line_addr (cache s) set way in
  exists s', mwhen (Z.testbit (modified_of (cache s) set) way)
      (on_memory (fun m => CopyToEmu m l (line_data (cache s) set way))) s = Done tt s' /\
    inv None s' /\ keeps s s' /\ cache s' = cache s /\
    forall x, block_ok (memory s) x 1 -> mem_byte (memory s') x = if line_of x =? l then view s x else mem_byte (memory s) x.
Proof.
  intros Hs Hset Hway Hv l. destruct (Z.testbit (modified_of (cache s) set) way) eqn:Hm.
  - destruct (written_back_ok s set way Hs Hset Hway Hv) as (H1 & H2 & H3 & H4 & H5 & H6).
    exists (written_back set way s). do 2 (split; [done|]). split; [|done]. constructor; [done..|].
    intros x Hx. rewrite H5 by done. destruct (_ =? _); [by right|by left].
  - exists s. do 2 (split; [done|]). split; [by apply keeps_refl|]. split; [done|]. intros x Hx.
    destruct (Z.eqb_spec (line_of x) l) as [E|]; [|done]. rewrite (line_byte s set way) by done.
    rewrite (i_clean _ _ Hs) by done. rewrite nth_bytes_from; [done|]. pose proof (line_of_range x). unfold l in E. lia.
Qed.

Lemma evict_ok s set way : inv None s -> 0 <= set < 128 -> 0 <= way < 8 ->
  exists s', evict set way s = Done tt s' /\ inv (Some (set, way)) s' /\ keeps s s' /\
    (forall l, line_ok (memory s) l -> lw s l = 0xff -> lw s' l = 0xff).
Proof.
  intros Hs Hset Hway. unfold evict, get_cache. rewrite (mbind_done _ _ s (cache s) s) by done.
  rewrite !has_way_testbit by lia.
  destruct (Z.testbit (valid_of (cache s) set) way) eqn:Hv;
    [|exists s; split; [done|]; split; [by apply hole_invalid|]; split; [by apply keeps_refl|done]].
  destruct (i_lines _ _ Hs set way Hset Hway Hv ltac:(done)) as (Hl & El & Ew).
  destruct (write_back_ok s set way Hs Hset Hway Hv) as (s1 & E1 & Hs1 & Hk1 & Hc1 & Hm1).
  rewrite (mbind_done _ _ _ _ _ E1). pose proof (k_blocks _ _ Hk1) as Hb1.
  assert (Hok1 : line_ok (memory s1) (line_addr (cache s) set way)) by (destruct Hl; split; [done|by apply Hb1]).
  rewrite lookup_set_eval by (done || apply Hs1). rewrite <- Hc1 in Hv, Hl, El, Ew, Hm1 |- *.
  destruct (unlink_ok s1 set way Hs1 Hset Hway Hv) as (Hs2 & Hl2 & Hv2).
  eexists. split; [done|]. split; [exact Hs2|]. split.
  - eapply keeps_trans; [exact Hk1|]. apply keeps_same_memory; [apply memory_put|]. intros x Hx. rewrite Hv2 by done.
    destruct (Z.eqb_spec (line_of x) (line_addr (cache s1) set way)) as [E|]; [|done].
    rewrite Hm1, E, Z.eqb_refl by by apply Hb1. symmetry. by apply Hk1, Hb1.
  - intros l [Hl32 Hlb] Hff. rewrite Hl2 by (split; [done|by apply Hb1]). destruct (_ =? _); [done|].
    unfold lw. by rewrite Hc1.
Qed.

Lemma fill_line_eval s l way : tables_ok s -> line_ok (memory s) l ->
  fill_line l (set_of l) way s = Done tt (filled l way s).
Proof.
  intros Ht Hl. unfold fill_line, get_memory, on_cache. unfold mbind at 1, mget at 1. unfold mbind at 1, mmodify at 1.
  change 0x1f with 31. rewrite land_line, line_of_line by apply Hl.
  rewrite (mbind_done _ _ _ _ _ (lookup_set_eval (set_cache (put_data (set_of l) way
    (CopyFromEmu (memory s) (line_data (cache s) (set_of l) way) l) (cache s)) s) l way Ht Hl)). done.
Qed.

(** [GetCache] finds or loads the line, and nothing can be told apart. *)
Lemma GetCache_ok s a locked : inv None s -> block_ok (memory s) a 1 ->
  exists way s', GetCache a locked s = Done (set_of (line_of a), way) s' /\ inv None s' /\
    keeps s s' /\ way = lw s' (line_of a) /\
    (if locked then exists p, s' = with_plru p s else way <> 0xff).
Proof.
  intros Hs Ha. pose proof (line_of_ok _ _ (inv_mem _ _ Hs) Ha) as Hl. set (l := line_of a) in *.
  unfold GetCache. rewrite land_line. fold l. cbv zeta. rewrite land_set.
  rewrite (mbind_done _ _ _ _ _ (lookup_get_eval s l (i_tables _ _ Hs) Hl)).
  assert (Hload : exists way s', (if negb locked && (lw s l =? 0xff) then
      way <- select_way (set_of l) ;; check_way way ;;; evict (set_of l) way ;;; fill_line l (set_of l) way ;;; mret way
    else mret (lw s l)) s = Done way s' /\ inv None s' /\ keeps s s' /\ way = lw s' l /\
    (if locked then s' = s else way <> 0xff)).
  { destruct (negb locked && (lw s l =? 0xff)) eqn:Hc.
    - apply andb_prop in Hc as [->%negb_true_iff Hff%Z.eqb_eq].
      destruct (select_way_ok s (set_of l) Hs (set_of_range l)) as (way & Ew & Hway).
      destruct (evict_ok s (set_of l) way Hs (set_of_range l) Hway) as (s1 & E1 & Hs1 & Hk1 & Hl1). pose proof (k_blocks _ _ Hk1) as Hb1.
      assert (Hl' : line_ok (memory s1) l) by (destruct Hl; split; [done|by apply Hb1]).
      destruct (filled_ok s1 l way Hs1 Hl' (Hl1 l Hl Hff) Hway) as (Hs2 & Em2 & Hw2 & Hv2).
      exists way, (filled l way s1). rewrite (mbind_done _ _ _ _ _ Ew). unfold check_way.
      rewrite (proj2 (Z.leb_le 0 way)), (proj2 (Z.ltb_lt way CACHE_WAYS)) by (unfold CACHE_WAYS; lia).
      cbn [andb]. rewrite (mbind_done _ _ s tt s) by done. rewrite (mbind_done _ _ _ _ _ E1).
      rewrite (mbind_done _ _ _ _ _ (fill_line_eval s1 l way (i_tables _ _ Hs1) Hl')).
      do 2 (split; [done|]). split; [|split; [done|lia]].
      eapply keeps_trans; [exact Hk1|]. by apply keeps_same_memory.
    - exists (lw s l), s. do 2 (split; [done|]). split; [by apply keeps_refl|]. split; [done|]. destruct locked; [done|].
      simpl in Hc. by apply Z.eqb_neq in Hc. }
  destruct Hload as (way & s1 & E1 & Hs1 & Hk1 & Ew & Hlk). pose proof (k_blocks _ _ Hk1) as Hb1.
  rewrite (mbind_done _ _ _ _ _ E1). destruct (Z.eqb_spec way 0xff) as [Hff|Hne]; simpl.
  - exists way, s1. split; [done|]. do 3 (split; [done|]). destruct locked; [|done]. subst s1.
    exists (plru (cache s)). by destruct s as [[] ?].
  - assert (Hl1 : line_ok (memory s1) l) by (destruct Hl; split; [done|by apply Hb1]).
    rewrite Ew in Hne. destruct (i_lookup _ _ Hs1 l Hl1 Hne) as (Hway & _). rewrite <- Ew in *.
    destruct (update_plru_ok None s1 (set_of l) way Hs1 Hway) as (p & Ep & Hp).
    exists way, (with_plru p s1). rewrite (mbind_done _ _ _ _ _ Ep). do 2 (split; [done|]).
    split; [by eapply keeps_trans; [|by apply with_plru_keeps]|]. split; [done|].
    destruct locked; [subst s1; by eexists|done].
Qed.

(** *** Reading and writing inside a line *)

(** The addresses of good memory are below 2^29. *)
Lemma block_range m a n : mem_wf m -> block_ok m a n -> 0 < n -> 0 <= a /\ a + n <= 0x20000000.
Proof.
  intros Hm Hb Hn. pose proof (ram_below_exram m Hm). destruct (mem_exram_pow m Hm) as (j & Hj & Ej).
  pose proof (size_bound j Hj). pose proof (mem_exram_real m Hm). destruct Hb as [[? ?]|(_ & ? & ?)]; lia.
Qed.

Lemma len_in_block_eq a len : 0 <= a < 0x20000000 -> len_in_block a len = Z.min len (line_of a + 32 - a).
Proof.
  intros Ha. unfold len_in_block. rewrite (u32_id (a + 32)) by (unfold is_u32; lia). rewrite land_line.
  replace (line_of (a + 32)) with (line_of a + 32) by (unfold line_of; Z.div_mod_to_equations; lia).
  f_equal. apply u32_id. pose proof (line_of_range a). unfold is_u32. lia.
Qed.

Lemma line_piece_read s a n way buffer : inv None s -> block_ok (memory s) a (Z.of_nat n) -> (0 < n)%nat ->
  a + Z.of_nat n <= line_of a + 32 -> way = lw s (line_of a) -> length buffer = n ->
  (if negb (way =? 0xff) then take n (drop (Z.to_nat (a - line_of a)) (line_data (cache s) (set_of (line_of a)) way))
   else CopyFromEmu (memory s) buffer a) = bytes_from (view s) a n.
Proof.
  intros Hs Hb Hn Hlt -> Hlen. pose proof (inv_mem _ _ Hs) as Hm. pose proof (line_of_range a) as Hr.
  assert (Hx : forall x, a <= x < a + Z.of_nat n -> line_of x = line_of a)
    by (intros x Hx; apply line_of_unique; lia).
  destruct (Z.eqb_spec (lw s (line_of a)) 0xff) as [E|Hne]; simpl.
  - rewrite CopyFromEmu_eval by (rewrite ?Hlen; done). rewrite Hlen. apply bytes_from_ext. intros x Hxr.
    unfold view. by rewrite Hx, E by lia.
  - destruct (i_data _ _ Hs (set_of (line_of a)) (lw s (line_of a))) as [Hd _].
    apply list_eq_same_length with n; [by rewrite length_bytes_from|rewrite length_take, length_drop; lia|].
    intros i x y Hi. rewrite lookup_take_lt, lookup_drop, lookup_bytes_from by lia. intros Hxi [= <-].
    unfold view. rewrite Hx by lia. rewrite (proj2 (Z.eqb_neq _ 0xff) Hne). symmetry. apply nth_lookup_Some.
    rewrite <- Hxi. f_equal. lia.
Qed.

Definition line_written (set way : Z) (line : list Z) (s : CacheSys) : CacheSys :=
  set_cache (put_modified set (modified_of (cache s) set .| (1 .<< way)) (put_data set way line (cache s))) s.

Lemma length_overwrite line o bs : (Z.to_nat o + length bs <= length line)%nat ->
  length (overwrite line o bs) = length line.
Proof. intros. unfold overwrite. rewrite !length_app, length_take, length_drop. lia. Qed.

Lemma lookup_overwrite line o bs i : (Z.to_nat o + length bs <= length line)%nat -> 0 <= o ->
  overwrite line o bs !! i = if (Z.to_nat o <=? i)%nat && (i <? Z.to_nat o + length bs)%nat
    then bs !! (i - Z.to_nat o)%nat else line !! i.
Proof.
  intros Hl Ho. unfold overwrite.
  destruct (Nat.leb_spec (Z.to_nat o) i); simpl.
  - rewrite lookup_app_r by (rewrite length_take; lia). rewrite length_take, Nat.min_l by lia.
    destruct (Nat.ltb_spec i (Z.to_nat o + length bs)); [by rewrite lookup_app_l by lia|].
    rewrite lookup_app_r, lookup_drop by lia. f_equal. lia.
  - rewrite lookup_app_l by (rewrite length_take; lia). by rewrite lookup_take_lt by lia.
Qed.

Lemma line_written_ok s a bs : inv None s -> block_ok (memory s) a (Z.of_nat (length bs)) -> Forall is_u8 bs ->
  (0 < length bs)%nat -> a + Z.of_nat (length bs) <= line_of a + 32 -> lw s (line_of a) <> 0xff ->
  let set := set_of (line_of a) in let way := lw s (line_of a) in
  let s' := line_written set way (overwrite (line_data (cache s) set way) (a - line_of a) bs) s in
  inv None s' /\ memory s' = memory s /\ forall x, block_ok (memory s) x 1 -> view s' x = patch (view s) a bs x.
Proof.
  intros Hs Hb Hu Hn Hlt Hne set way s'. pose proof (inv_mem _ _ Hs) as Hm. pose proof (line_of_range a) as Hr.
  assert (Hl : line_ok (memory s) (line_of a)).
  { apply line_of_ok; [done|]. eapply block_ok_sub; [exact Hb|lia..]. }
  destruct (i_lookup _ _ Hs _ Hl Hne) as (Hway & Hv & Ha & _).
  destruct (i_data _ _ Hs set way) as [Hd Hdu].
  set (line := overwrite (line_data (cache s) set way) (a - line_of a) bs).
  assert (Hll : length line = 32%nat) by (unfold line; rewrite length_overwrite; lia).
  assert (Hmod : forall set', modified_of (cache s') set' =
    if set' =? set then modified_of (cache s) set .| (1 .<< way) else modified_of (cache s) set')
    by (intros set'; unfold s', line_written; cbn [cache set_cache]; by rewrite modified_of_put_modified).
  assert (Hdata : forall set' way', line_data (cache s') set' way' =
    if decide ((set', way') = (set, way)) then line else line_data (cache s) set' way')
    by (intros set' way'; exact (line_data_put_data set way line (cache s) set' way')).
  split; [|split; [done|]].
  - constructor; try apply Hs.
    + intros set' way'. rewrite Hdata. case_decide; [|apply Hs]. split; [done|].
      unfold line, overwrite. apply Forall_app; split; [by apply Forall_take|].
      apply Forall_app; split; [done|by apply Forall_drop].
    + intros set' way' Hs' Hw' Hv' _ Hcl. rewrite Hdata, Hmod in *. case_decide as E.
      { injection E as -> ->. rewrite Z.eqb_refl in Hcl. rewrite testbit_set_way in Hcl by lia.
        rewrite Z.eqb_refl, orb_true_r in Hcl. done. }
      apply (i_clean _ _ Hs); [done..|]. destruct (Z.eqb_spec set' set) as [->|]; [|done].
      rewrite testbit_set_way in Hcl by lia. apply orb_false_iff in Hcl as [Hcl _]. exact Hcl.
  - intros x Hx. pose proof (line_of_range x) as Hrx. pose proof (line_of_ok _ _ Hm Hx) as Hlx.
    unfold view. change (lw s' (line_of x)) with (lw s (line_of x)). change (memory s') with (memory s).
    destruct (decide (line_of x = line_of a)) as [El|Hnl].
    + rewrite El. fold way. rewrite (proj2 (Z.eqb_neq way 0xff)) by done. fold set.
      rewrite Hdata, decide_True by done.
      assert (Hi : (Z.to_nat (x - line_of a) < 32)%nat) by lia.
      destruct (lookup_lt_is_Some_2 line _ ltac:(rewrite Hll; exact Hi)) as [v Ev].
      rewrite (nth_lookup_Some _ _ _ _ Ev). unfold line in Ev. rewrite lookup_overwrite in Ev by lia.
      destruct (Nat.leb_spec (Z.to_nat (a - line_of a)) (Z.to_nat (x - line_of a))); simpl in Ev;
        [destruct (Nat.ltb_spec (Z.to_nat (x - line_of a)) (Z.to_nat (a - line_of a) + length bs))|].
      * symmetry. apply patch_in; [|lia]. rewrite <- Ev. f_equal. lia.
      * rewrite patch_out by lia. unfold view. rewrite El. fold way set.
        rewrite (proj2 (Z.eqb_neq way 0xff)) by done. symmetry. by apply nth_lookup_Some.
      * rewrite patch_out by lia. unfold view. rewrite El. fold way set.
        rewrite (proj2 (Z.eqb_neq way 0xff)) by done. symmetry. by apply nth_lookup_Some.
    + rewrite patch_out.
      2: { intros Hin. apply Hnl. apply line_of_unique; lia. }
      unfold view. destruct (Z.eqb_spec (lw s (line_of x)) 0xff) as [|Hnf]; [done|]. rewrite Hdata.
      case_decide as E; [|done]. exfalso. injection E as E1 E2.
      destruct (i_lookup _ _ Hs _ Hlx Hnf) as (_ & _ & Hax & _). apply Hnl. rewrite <- Hax, <- Ha.
      fold set way. by rewrite E1, E2.
Qed.

(** A write past the cache, to a line that is not in it. *)
Lemma memory_written_ok s a bs : inv None s -> block_ok (memory s) a (Z.of_nat (length bs)) -> Forall is_u8 bs ->
  (0 < length bs)%nat -> a + Z.of_nat (length bs) <= line_of a + 32 -> lw s (line_of a) = 0xff ->
  let s' := set_memory (CopyToEmu (memory s) a bs) s in
  inv None s' /\ same_blocks s s' /\ forall x, block_ok (memory s) x 1 -> view s' x = patch (view s) a bs x.
Proof.
  intros Hs Hb Hu Hn Hlt Hff s'. pose proof (inv_mem _ _ Hs) as Hm. pose proof (line_of_range a) as Hr.
  assert (Hbl : same_blocks s s') by (intros x n; apply CopyToEmu_block).
  assert (Hin : forall x, a <= x < a + Z.of_nat (length bs) -> line_of x = line_of a)
    by (intros; apply line_of_unique; lia).
  split; [|split; [done|]].
  - constructor; try apply Hs.
    + destruct (i_tables _ _ Hs) as (_ & Ht & Hx).
      destruct (CopyToEmu_sizes (memory s) a bs) as (_ & Z2 & _ & _ & _ & _ & Z7 & _).
      split; [by apply CopyToEmu_wf|]. unfold s', set_memory. cbn [memory cache]. by rewrite Z2, Z7.
    + intros l [Hl32 Hlok] Hne. apply (i_lookup _ _ Hs); [|done]. split; [done|by apply Hbl].
    + intros set' way' ?? Hv' _. destruct (i_lines _ _ Hs set' way' ltac:(done) ltac:(done) Hv' ltac:(done))
        as ([H32' Hl'] & ? & ?). split; [split; [done|by apply Hbl]|done].
    + intros set' way' Hs' Hw' Hv' _ Hcl.
      destruct (i_lines _ _ Hs set' way' Hs' Hw' Hv' ltac:(done)) as ([H32' Hl'] & E1' & E2').
      change (cache s') with (cache s) in *. rewrite (i_clean _ _ Hs set' way' Hs' Hw' Hv' ltac:(done) Hcl).
      apply bytes_from_ext. intros x Hx. unfold s', set_memory. cbn [memory].
      rewrite mem_byte_CopyToEmu; [|done..|eapply block_ok_sub; [exact Hl'|lia..]].
      rewrite patch_out; [done|]. intros Hxa. apply Hin in Hxa.
      rewrite (line_of_unique x _ H32' ltac:(lia)) in Hxa. rewrite <- Hxa in Hff. lia.
  - intros x Hx. unfold view at 1. change (lw s' (line_of x)) with (lw s (line_of x)). change (cache s') with (cache s).
    unfold s', set_memory. cbn [memory]. rewrite mem_byte_CopyToEmu by done.
    destruct (decide (a <= x < a + Z.of_nat (length bs))) as [Hxa|Hxa].
    + rewrite (Hin x Hxa), Hff. simpl. unfold patch.
      by rewrite (proj2 (Z.leb_le a x)), (proj2 (Z.ltb_lt x _)) by lia.
    + rewrite !patch_out by done. unfold view. done.
Qed.
