(* ===== verification/CacheSpec.v ===== *)
(** * What the cache promises

    Accesses that cross lines, the cache operations and the specification they
    implement: a program sees a flat memory, the hardware outside the CPU sees
    another one that lags behind until a line is written back. *)
From S2P Require Export CacheCoherence.

(** *** Accesses that cross lines *)

(** A state of the cache a program cannot tell from [s]. *)
Definition indist (s s' : CacheSys) : Prop := inv None s' /\ keeps s s'.

Lemma indist_trans s1 s2 s3 : indist s1 s2 -> indist s2 s3 -> indist s1 s3.
Proof. intros (_ & Hk) (Hi & Hk'). split; [done|]. by eapply keeps_trans. Qed.
Lemma indist_refl s : inv None s -> indist s s.
Proof. intros Hs. split; [done|apply keeps_refl]. Qed.
Lemma indist_block s s' x n : indist s s' -> block_ok (memory s) x n -> block_ok (memory s') x n.
Proof. intros (_ & Hk). apply (k_blocks _ _ Hk). Qed.
Lemma bytes_from_view s s' a n : indist s s' -> block_ok (memory s) a (Z.of_nat n) ->
  bytes_from (view s') a n = bytes_from (view s) a n.
Proof.
  intros (_ & Hk) Hb. apply bytes_from_ext. intros x Hx. apply (k_view _ _ Hk). eapply block_ok_sub; [exact Hb|lia..].
Qed.

(** The first piece of an access and what is left of it. *)
Lemma first_piece m a (len : nat) : mem_wf m -> block_ok m a (Z.of_nat len) -> (0 < len)%nat ->
  let n := Z.to_nat (len_in_block a (Z.of_nat len)) in
  (0 < n <= len)%nat /\ a + Z.of_nat n <= line_of a + 32 /\ block_ok m a (Z.of_nat n) /\ block_ok m a 1 /\
  u32 (a + Z.of_nat n) = a + Z.of_nat n /\ block_ok m (a + Z.of_nat n) (Z.of_nat (len - n)).
Proof.
  intros Hm Hb Hlen n. destruct (block_range m a _ Hm Hb ltac:(lia)) as [Ha Hz].
  pose proof (line_of_range a) as [Hr _]. pose proof (len_in_block_eq a (Z.of_nat len) ltac:(lia)) as E.
  assert (Hn : (0 < n <= len)%nat /\ a + Z.of_nat n <= line_of a + 32) by (unfold n; rewrite E; lia).
  clearbody n. clear E. destruct Hn as [Hn Hle]. do 2 (split; [done|]).
  split; [eapply block_ok_sub; [exact Hb|lia..]|]. split; [eapply block_ok_sub; [exact Hb|lia..]|].
  split; [apply u32_id; unfold is_u32; lia|]. eapply block_ok_sub; [exact Hb|lia..].
Qed.

Lemma Read_loop_ok fuel : forall a buffer locked s, inv None s ->
  block_ok (memory s) a (Z.of_nat (length buffer)) -> (length buffer <= fuel)%nat ->
  exists s', Read_loop fuel a buffer locked s = Done (bytes_from (view s) a (length buffer)) s' /\ indist s s'.
Proof.
  induction fuel as [|fuel IH]; intros a buffer locked s Hs Hb Hf;
    (destruct buffer as [|b0 buffer0]; [exists s; split; [done|by apply indist_refl]|]); [simpl in Hf; lia|].
  set (buffer := b0 :: buffer0) in *. assert (Hlen : (0 < length buffer)%nat) by (simpl; lia). clearbody buffer.
  cbn [Read_loop]. rewrite (proj2 (Nat.eqb_neq _ 0)) by lia.
  destruct (first_piece _ a _ (inv_mem _ _ Hs) Hb Hlen) as (Hn & Hle & Hbn & Hb1 & Hu & Hbr).
  set (n := Z.to_nat (len_in_block a (Z.of_nat (length buffer)))) in *. clearbody n.
  destruct (GetCache_ok s a locked Hs Hb1) as (way & s1 & E1 & Hs1 & Hk1 & Ew & _).
  assert (Hi1 : indist s s1) by done.
  rewrite (mbind_done _ _ _ _ _ E1). cbv beta iota zeta.
  rewrite (mbind_done _ _ s1 (cache s1) s1), (mbind_done _ _ s1 (memory s1) s1) by done.
  rewrite land_line, Hu, (line_piece_read s1 a n) by
    (done || lia || (by eapply indist_block) || (rewrite length_take; lia)).
  destruct (IH (a + Z.of_nat n) (drop n buffer) locked s1 Hs1) as (s2 & E2 & Hi2).
  { rewrite length_drop. by eapply indist_block. }
  { rewrite length_drop. lia. }
  rewrite (mbind_done _ _ _ _ _ E2). exists s2. split; [|by eapply indist_trans].
  unfold mret. f_equal. rewrite length_drop, !(bytes_from_view s s1) by done. rewrite <- bytes_from_app. f_equal. lia.
Qed.

Lemma patch_app f a xs ys x : patch f a (xs ++ ys) x = patch (patch f a xs) (a + Z.of_nat (length xs)) ys x.
Proof.
  unfold patch. rewrite length_app.
  destruct (Z.leb_spec a x), (Z.ltb_spec x (a + Z.of_nat (length xs + length ys))),
    (Z.leb_spec (a + Z.of_nat (length xs)) x), (Z.ltb_spec x (a + Z.of_nat (length xs) + Z.of_nat (length ys))),
    (Z.ltb_spec x (a + Z.of_nat (length xs))); simpl; try lia; try done.
  - rewrite app_nth2 by lia. f_equal. lia.
  - rewrite app_nth1 by lia. done.
Qed.

Lemma patch_ext f g a xs x : f x = g x -> patch f a xs x = patch g a xs x.
Proof. intros E. unfold patch. by rewrite E. Qed.

(** [s'] is [s] with the block at [a] written. *)
Record wrote (s : CacheSys) (a : Z) (bs : list Z) (s' : CacheSys) : Prop := {
  w_inv : inv None s';
  w_blocks : same_blocks s s';
  w_view : forall x, block_ok (memory s) x 1 -> view s' x = patch (view s) a bs x;
  w_memory : forall x, block_ok (memory s) x 1 ->
    mem_byte (memory s') x = mem_byte (memory s) x \/ mem_byte (memory s') x = view s x \/
    mem_byte (memory s') x = view s' x
}.

Lemma wrote_indist s s1 a bs s2 : indist s s1 -> wrote s1 a bs s2 -> wrote s a bs s2.
Proof.
  intros (_ & [Hb Hv Hm]) [Hi Hb' Hw Hm']. constructor; [done|intros x n; by rewrite (Hb' x n)| |].
  - intros x Hx. rewrite Hw by by apply Hb. apply patch_ext. by apply Hv.
  - intros x Hx. destruct (Hm' x) as [->|[->| ->]]; [by apply Hb| | |by auto].
    + destruct (Hm x Hx); auto.
    + rewrite Hv by done. auto.
Qed.
(** Two writes side by side. *)
Lemma wrote_app s a xs s1 ys s2 : wrote s a xs s1 -> wrote s1 (a + Z.of_nat (length xs)) ys s2 ->
  wrote s a (xs ++ ys) s2.
Proof.
  intros [_ Hb Hw Hm] [Hi Hb' Hw' Hm']. constructor; [done|intros x n; by rewrite (Hb' x n)| |].
  - intros x Hx. rewrite Hw' by by apply Hb. rewrite patch_app. apply patch_ext. by apply Hw.
  - intros x Hx. assert (Hx1 : block_ok (memory s1) x 1) by by apply Hb.
    destruct (decide (a + Z.of_nat (length xs) <= x < a + Z.of_nat (length xs) + Z.of_nat (length ys))) as [Hy|Hy].
    + assert (E : view s1 x = view s x) by (rewrite Hw by done; apply patch_out; lia).
      destruct (Hm' x Hx1) as [->|[->| ->]]; [|by auto..]. destruct (Hm x Hx) as [->|[->| ->]]; auto.
    + assert (E : view s2 x = view s1 x) by (rewrite Hw' by done; by apply patch_out).
      rewrite E. destruct (Hm' x Hx1) as [->|[->| ->]]; [|by auto..]. destruct (Hm x Hx) as [->|[->| ->]]; auto.
Qed.

(** The part of [Write] for one line. *)
Lemma line_piece_write s a bs way : inv None s -> block_ok (memory s) a (Z.of_nat (length bs)) -> Forall is_u8 bs ->
  (0 < length bs)%nat -> a + Z.of_nat (length bs) <= line_of a + 32 -> way = lw s (line_of a) ->
  let set := set_of (line_of a) in
  exists s', (if negb (way =? 0xff) then
      on_cache (fun c => put_modified set (modified_of c set .| (1 .<< way))
        (put_data set way (overwrite (line_data c set way) (a - line_of a) bs) c))
    else on_memory (fun m => CopyToEmu m a bs)) s = Done tt s' /\ wrote s a bs s'.
Proof.
  intros Hs Hb Hu Hn Hle -> set. destruct (Z.eqb_spec (lw s (line_of a)) 0xff) as [E|Hne]; simpl.
  - destruct (memory_written_ok s a bs Hs Hb Hu Hn Hle E) as (H1 & H2 & H3).
    eexists. split; [reflexivity|]. constructor; [exact H1|exact H2|exact H3|]. intros x Hx.
    unfold set_memory. cbn [memory]. rewrite mem_byte_CopyToEmu by (done || by apply (inv_mem _ _ Hs)).
    destruct (decide (a <= x < a + Z.of_nat (length bs))) as [Hxa|Hxa]; [right; right|left; by apply patch_out].
    etransitivity; [|symmetry; by apply H3]. unfold patch.
    by rewrite (proj2 (Z.leb_le a x)), (proj2 (Z.ltb_lt x _)) by lia.
  - destruct (line_written_ok s a bs Hs Hb Hu Hn Hle Hne) as (H1 & H2 & H3).
    eexists. split; [reflexivity|]. constructor; [exact H1|intros x n; exact (iff_refl _)|exact H3|by left].
Qed.

Lemma Write_loop_ok fuel : forall a value locked s, inv None s ->
  block_ok (memory s) a (Z.of_nat (length value)) -> Forall is_u8 value -> (length value <= fuel)%nat ->
  exists s', Write_loop fuel a value locked s = Done tt s' /\ wrote s a value s'.
Proof.
  induction fuel as [|fuel IH]; intros a value locked s Hs Hb Hval Hf;
    (destruct value as [|b0 value0];
      [exists s; split; [done|]; constructor; [done..| |by left]; intros; by rewrite patch_out by (simpl; lia)|]);
    [simpl in Hf; lia|].
  set (value := b0 :: value0) in *. assert (Hlen : (0 < length value)%nat) by (simpl; lia). clearbody value.
  cbn [Write_loop]. rewrite (proj2 (Nat.eqb_neq _ 0)) by lia.
  destruct (first_piece _ a _ (inv_mem _ _ Hs) Hb Hlen) as (Hn & Hle & Hbn & Hb1 & Hu & Hbr).
  set (n := Z.to_nat (len_in_block a (Z.of_nat (length value)))) in *. clearbody n.
  destruct (GetCache_ok s a locked Hs Hb1) as (way & s1 & E1 & Hs1 & Hk1 & Ew & _).
  assert (Hi1 : indist s s1) by done.
  rewrite (mbind_done _ _ _ _ _ E1). cbv beta iota zeta. rewrite land_line, Hu.
  assert (Hln : length (take n value) = n) by (rewrite length_take; lia).
  destruct (line_piece_write s1 a (take n value) way) as (s2 & E2 & Hw2);
    rewrite ?Hln; [done|by eapply indist_block|by apply Forall_take|lia|done|done|].
  rewrite (mbind_done _ _ _ _ _ E2).
  destruct (IH (a + Z.of_nat n) (drop n value) locked s2) as (s3 & E3 & Hw3).
  { apply Hw2. } { rewrite length_drop. apply (w_blocks _ _ _ _ Hw2). by eapply indist_block. }
  { by apply Forall_drop. } { rewrite length_drop. lia. }
  exists s3. split; [exact E3|]. rewrite <- (take_drop n value). eapply wrote_app.
  - by eapply wrote_indist.
  - by rewrite Hln.
Qed.

(** ** One line of the cache *)

(** The locked lookup only moves the replacement bits. *)
Lemma GetCache_locked s a : inv None s -> block_ok (memory s) a 1 ->
  exists p, GetCache a true s = Done (set_of (line_of a), lw s (line_of a)) (with_plru p s) /\ inv None (with_plru p s).
Proof.
  intros Hs Ha. destruct (GetCache_ok s a true Hs Ha) as (way & s' & E & Hs' & _ & Ew & p & ->).
  exists p. split; [|done]. by rewrite E, Ew.
Qed.

Lemma line_in_way s a : inv None s -> block_ok (memory s) a 1 -> lw s (line_of a) <> 0xff ->
  let set := set_of (line_of a) in let way := lw s (line_of a) in
  0 <= set < 128 /\ 0 <= way < 8 /\ Z.testbit (valid_of (cache s) set) way = true /\
  line_addr (cache s) set way = line_of a.
Proof.
  intros Hs Ha Hne set way. pose proof (line_of_ok _ _ (inv_mem _ _ Hs) Ha) as Hl.
  destruct (i_lookup _ _ Hs _ Hl Hne) as (? & ? & ? & _). split; [exact (set_of_range _)|]. by split.
Qed.

(** A line the memory agrees with. *)
Lemma synced_line s set way : inv None s -> 0 <= set < 128 -> 0 <= way < 8 ->
  Z.testbit (valid_of (cache s) set) way = true ->
  let l := line_addr (cache s) set way in
  (forall x, block_ok (memory s) x 1 -> line_of x = l -> mem_byte (memory s) x = view s x) ->
  line_data (cache s) set way = bytes_from (mem_byte (memory s)) l 32.
Proof.
  intros Hs Hset Hway Hv l Hsync. destruct (i_lines _ _ Hs set way Hset Hway Hv ltac:(done)) as ([H32 Hl] & _).
  fold l in H32, Hl. destruct (i_data _ _ Hs set way) as [Hd _].
  apply list_eq_same_length with 32%nat; [by rewrite length_bytes_from|done|].
  intros i x y Hi Hx. rewrite lookup_bytes_from by done. intros [= <-].
  assert (Ex : line_of (l + Z.of_nat i) = l) by (apply line_of_unique; lia).
  rewrite Hsync; [|eapply block_ok_sub; [exact Hl|lia..]|done]. rewrite (line_byte s set way) by done. fold l.
  symmetry. apply nth_lookup_Some. rewrite <- Hx. f_equal. lia.
Qed.

Definition marked_clean (set way : Z) (s : CacheSys) : CacheSys :=
  set_cache (put_modified set (modified_of (cache s) set .& .~ (1 .<< way)) (cache s)) s.

Lemma marked_clean_ok s set way : inv None s -> 0 <= set < 128 -> 0 <= way < 8 ->
  Z.testbit (valid_of (cache s) set) way = true ->
  (forall x, block_ok (memory s) x 1 -> line_of x = line_addr (cache s) set way ->
     mem_byte (memory s) x = view s x) ->
  indist s (marked_clean set way s).
Proof.
  intros Hs Hset Hway Hv Hsync. split; [|by apply keeps_same_memory].
  constructor; try apply Hs. intros set' way' ?? Hb _ Hm.
  destruct (decide ((set', way') = (set, way))) as [[= -> ->]|Hne]; [exact (synced_line s set way Hs Hset Hway Hv Hsync)|].
  apply (i_clean _ _ Hs); [done..|]. revert Hm. unfold marked_clean. cbn [cache set_cache].
  rewrite modified_of_put_modified. destruct (Z.eqb_spec set' set) as [->|]; [|done].
  rewrite testbit_clear_way by lia. destruct (Z.eqb_spec way' way) as [->|]; [done|]. by rewrite andb_true_r.
Qed.

Lemma drop_line_ok s set way : inv None s -> 0 <= set < 128 -> 0 <= way < 8 ->
  Z.testbit (valid_of (cache s) set) way = true ->
  let l := line_addr (cache s) set way in
  exists s', drop_line set way s = Done tt s' /\ inv None s' /\ memory s' = memory s /\ lw s' l = 0xff /\
    forall x, block_ok (memory s) x 1 -> view s' x = if line_of x =? l then mem_byte (memory s) x else view s x.
Proof.
  intros Hs Hset Hway Hv l. destruct (i_lines _ _ Hs set way Hset Hway Hv ltac:(done)) as (Hl & _).
  destruct (unlink_ok s set way Hs Hset Hway Hv) as (Hs1 & Hl1 & Hv1). fold l in Hl, Hs1, Hl1, Hv1.
  destruct (cleared_ok _ set way Hs1 Hway) as (Hs2 & Hm2 & Hl2 & Hv2).
  unfold drop_line, get_cache. rewrite (mbind_done _ _ s (cache s) s) by done. fold l.
  rewrite (mbind_done _ _ _ _ _ (lookup_set_eval s l 0xff (i_tables _ _ Hs) Hl)).
  eexists. split; [reflexivity|]. split; [exact Hs2|]. split; [rewrite <- (memory_put s l 0xff); exact Hm2|].
  split; [pose proof (Hl1 l Hl) as E; rewrite Z.eqb_refl in E; exact (eq_trans (Hl2 l) E)|].
  intros x Hx. rewrite <- (Hv1 x Hx). exact (Hv2 x).
Qed.

(** ** The cache operations *)

Lemma Touch_ok s a store : inv None s -> block_ok (memory s) a 1 ->
  exists s', Touch a store s = Done tt s' /\ indist s s'.
Proof.
  intros Hs Ha. destruct (GetCache_ok s a false Hs Ha) as (way & s' & E & Hs' & Hk & _).
  exists s'. unfold Touch. by rewrite (mbind_done _ _ _ _ _ E).
Qed.

(** The start all single-line operations share: a line that is not there, or a valid way. *)
Ltac start_line Hs Ha :=
  let p := fresh "p" in let E := fresh "E" in let Hp := fresh "Hp" in
  destruct (GetCache_locked _ _ Hs Ha) as (p & E & Hp);
  rewrite (mbind_done _ _ _ _ _ E); clear E; cbv beta iota;
  match type of Hs with inv _ ?s => match type of Ha with block_ok _ ?a _ =>
    set (s1 := with_plru p s) in *;
    destruct (Z.eqb_spec (lw s (line_of a)) 0xff) as [Hff|Hne];
    [|let set := fresh "Hset" in
      destruct (line_in_way s1 a Hp Ha Hne) as (Hset & Hway & Hv & Hla);
      change (lw s1 (line_of a)) with (lw s (line_of a)) in Hway, Hv, Hla;
      unfold get_cache; rewrite (mbind_done _ _ s1 (cache s1) s1) by reflexivity;
      rewrite has_way_testbit, Hv by lia; cbn [andb]] end end.

Lemma Store_ok s a : inv None s -> block_ok (memory s) a 1 ->
  exists s', Store a s = Done tt s' /\ indist s s' /\
    forall x, block_ok (memory s) x 1 ->
      mem_byte (memory s') x = if line_of x =? line_of a then view s x else mem_byte (memory s) x.
Proof.
  intros Hs Ha. unfold Store. start_line Hs Ha.
  - exists s1. split; [done|]. split; [split; [done|apply with_plru_keeps]|]. intros x Hx.
    destruct (Z.eqb_spec (line_of x) (line_of a)) as [E|]; [|done]. unfold view. by rewrite E, Hff.
  - rewrite has_way_testbit by lia. rewrite land_line.
    destruct (write_back_ok s1 _ _ Hp Hset Hway Hv) as (s2 & E2 & Hs2 & Hk2 & Hc2 & Hm2).
    rewrite Hla in E2, Hm2. rewrite (mbind_done _ _ _ _ _ E2).
    assert (Hv2 : Z.testbit (valid_of (cache s2) (set_of (line_of a))) (lw s (line_of a)) = true) by by rewrite Hc2.
    destruct (marked_clean_ok s2 _ _ Hs2 Hset Hway Hv2) as (Hs3 & Hk3).
    { intros x Hx E. rewrite Hc2 in E. apply (k_blocks _ _ Hk2) in Hx. rewrite Hm2 by done.
      rewrite E, Hla, Z.eqb_refl. symmetry. by apply (k_view _ _ Hk2). }
    eexists. split; [reflexivity|]. split; [split; [exact Hs3|]|exact Hm2].
    eapply keeps_trans; [apply (with_plru_keeps p s)|]. by eapply keeps_trans.
Qed.

Lemma Invalidate_ok s a : inv None s -> block_ok (memory s) a 1 ->
  exists s', Invalidate a s = Done tt s' /\ inv None s' /\ memory s' = memory s /\ lw s' (line_of a) = 0xff /\
    forall x, block_ok (memory s) x 1 ->
      view s' x = if line_of x =? line_of a then mem_byte (memory s) x else view s x.
Proof.
  intros Hs Ha. unfold Invalidate. start_line Hs Ha.
  - exists s1. do 4 (split; [done|]). intros x Hx.
    destruct (Z.eqb_spec (line_of x) (line_of a)) as [E|]; [|done]. unfold view.
    rewrite E. change (lw s1 (line_of a)) with (lw s (line_of a)). by rewrite Hff.
  - destruct (drop_line_ok s1 _ _ Hp Hset Hway Hv) as (s2 & E2 & Hs2 & Hm2 & Hl2 & Hv2). rewrite Hla in Hl2, Hv2.
    exists s2. by split.
Qed.

Lemma Flush_ok s a : inv None s -> block_ok (memory s) a 1 ->
  exists s', Flush a s = Done tt s' /\ indist s s' /\ lw s' (line_of a) = 0xff /\
    forall x, block_ok (memory s) x 1 ->
      mem_byte (memory s') x = if line_of x =? line_of a then view s x else mem_byte (memory s) x.
Proof.
  intros Hs Ha. unfold Flush. start_line Hs Ha.
  - exists s1. split; [done|]. split; [split; [done|apply with_plru_keeps]|]. split; [done|]. intros x Hx.
    destruct (Z.eqb_spec (line_of x) (line_of a)) as [E|]; [|done]. unfold view. by rewrite E, Hff.
  - rewrite has_way_testbit by lia. rewrite land_line.
    destruct (write_back_ok s1 _ _ Hp Hset Hway Hv) as (s2 & E2 & Hs2 & Hk2 & Hc2 & Hm2).
    rewrite Hla in E2, Hm2. cbn [mwhen]. rewrite (mbind_done _ _ _ _ _ E2).
    assert (Hv2 : Z.testbit (valid_of (cache s2) (set_of (line_of a))) (lw s (line_of a)) = true) by by rewrite Hc2.
    destruct (drop_line_ok s2 _ _ Hs2 Hset Hway Hv2) as (s3 & E3 & Hs3 & Hm3 & Hl3 & Hv3).
    rewrite Hc2, Hla in Hl3, Hv3. exists s3. split; [exact E3|]. split; [split; [exact Hs3|]|].
    + eapply keeps_trans; [apply (with_plru_keeps p s)|]. eapply keeps_trans; [exact Hk2|].
      apply keeps_same_memory; [done|]. intros x Hx. rewrite Hv3 by done. apply (k_blocks _ _ Hk2) in Hx.
      rewrite (k_view _ _ Hk2 x Hx). destruct (Z.eqb_spec (line_of x) (line_of a)) as [E|]; [|done].
      rewrite Hm2 by done. by rewrite E, Z.eqb_refl.
    + split; [done|]. intros x Hx. rewrite Hm3. by apply Hm2.
Qed.

(** *** The whole cache *)

Lemma all_lines_in set way : 0 <= set < 128 -> 0 <= way < 8 -> In (set, way) all_lines.
Proof.
  intros Hs Hw. unfold all_lines. apply in_flat_map. exists (Z.to_nat set). split; [apply in_seq; lia|].
  apply in_map_iff. exists (Z.to_nat way). split; [f_equal; lia|apply in_seq; lia].
Qed.
Lemma in_all_lines set way : In (set, way) all_lines -> 0 <= set < 128 /\ 0 <= way < 8.
Proof.
  unfold all_lines. intros (n & Hn%in_seq & (k & [= <- <-] & Hk%in_seq)%in_map_iff)%in_flat_map. lia.
Qed.

(** The memory has caught up with the program at [x]. *)
Definition synced (s : CacheSys) (x : Z) : Prop := mem_byte (memory s) x = view s x.

Lemma synced_keeps s s' x : keeps s s' -> block_ok (memory s) x 1 -> synced s x -> synced s' x.
Proof.
  intros Hk Hx E. unfold synced. rewrite (k_view _ _ Hk x Hx). by destruct (k_memory _ _ Hk x Hx) as [->| ->].
Qed.

Lemma FlushAll_line_ok s set way : inv None s -> 0 <= set < 128 -> 0 <= way < 8 ->
  exists s', FlushAll_line set way s = Done tt s' /\ indist s s' /\ cache s' = cache s /\
    forall x, block_ok (memory s) x 1 -> set_of (line_of x) = set -> lw s (line_of x) = way -> synced s' x.
Proof.
  intros Hs Hset Hway. unfold FlushAll_line, get_cache. rewrite (mbind_done _ _ s (cache s) s) by done.
  rewrite !has_way_testbit by lia. destruct (Z.testbit (valid_of (cache s) set) way) eqn:Hv.
  - destruct (write_back_ok s set way Hs Hset Hway Hv) as (s1 & E1 & Hs1 & Hk1 & Hc1 & Hm1).
    exists s1. split; [exact E1|]. do 2 (split; [done|]). intros x Hx <- <-. unfold synced.
    destruct (line_in_way s x Hs Hx ltac:(lia)) as (_ & _ & _ & Hla).
    rewrite Hm1, Hla, Z.eqb_refl by done. symmetry. by apply (k_view _ _ Hk1).
  - exists s. split; [done|]. split; [by apply indist_refl|]. split; [done|]. intros x Hx <- <-.
    destruct (line_in_way s x Hs Hx ltac:(lia)) as (_ & _ & Hv' & _). congruence.
Qed.

Lemma FlushAll_lines_ok ls : forall s, inv None s -> (forall set way, In (set, way) ls -> 0 <= set < 128 /\ 0 <= way < 8) ->
  exists s', FlushAll_lines ls s = Done tt s' /\ indist s s' /\ cache s' = cache s /\
    forall x, block_ok (memory s) x 1 -> In (set_of (line_of x), lw s (line_of x)) ls -> synced s' x.
Proof.
  induction ls as [|[set way] ls IH]; intros s Hs Hr; cbn [FlushAll_lines].
  - exists s. split; [done|]. split; [by apply indist_refl|done].
  - destruct (Hr set way (or_introl eq_refl)) as [Hset Hway].
    destruct (FlushAll_line_ok s set way Hs Hset Hway) as (s1 & E1 & Hi1 & Hc1 & Hx1).
    destruct (IH s1 (proj1 Hi1)) as (s2 & E2 & Hi2 & Hc2 & Hx2); [intros ?? Hin; apply Hr; by right|].
    exists s2. rewrite (mbind_done _ _ _ _ _ E1). split; [done|]. split; [by eapply indist_trans|].
    split; [congruence|]. intros x Hx Hin. assert (Hxb : block_ok (memory s1) x 1) by by eapply indist_block.
    destruct Hin as [[= E E']|Hin]; [by eapply synced_keeps; [apply Hi2| |apply Hx1]|].
    apply Hx2; [done|]. unfold lw in *. by rewrite Hc1.
Qed.

(** An empty cache: every lookup misses. *)
Lemma mem_get_clear t i : 0 <= i < mem_size t -> mem_get (clear_table t) i = Some 0xff.
Proof. intros Hi. by rewrite mem_get_cell. Qed.

Lemma Reset_ok s : tables_ok s ->
  (forall set way, length (line_data (cache s) set way) = 32%nat /\ Forall is_u8 (line_data (cache s) set way)) ->
  exists s', Cache_Reset s = Done tt s' /\ inv None s' /\ memory s' = memory s /\
    forall x, block_ok (memory s) x 1 -> view s' x = mem_byte (memory s) x.
Proof.
  intros (Hm & Ht & Hx) Hd. eexists. split; [reflexivity|]. cbn [set_cache memory].
  match goal with |- inv None ?t /\ _ => set (s' := t) end.
  assert (Hff : forall l, line_ok (memory s) l -> lw s' l = 0xff).
  { intros l Hl. unfold lw, s'. cbn [cache set_cache lookup_table lookup_table_ex].
    table_cases Hm Hl; [rewrite (proj2 (Z.ltb_lt l _)) by lia|rewrite (proj2 (Z.ltb_ge l _)) by lia];
      by rewrite mem_get_clear by lia. }
  assert (Hv : forall set way, Z.testbit (valid_of (cache s') set) way = true -> False)
    by (intros set way; unfold valid_of; cbn; by rewrite lookup_empty, Z.testbit_0_l).
  split; [|split; [done|]].
  - constructor; try done.
    + intros l Hl Hne. by rewrite Hff in Hne.
    + intros set way _ _ Hb. by apply Hv in Hb.
    + intros set way _ _ Hb. by apply Hv in Hb.
  - intros x Hxb. unfold view. by rewrite Hff by by apply line_of_ok.
Qed.

Lemma Init_ok s : mem_wf (memory s) ->
  exists s', Cache_Init s = Done tt s' /\ inv None s' /\ memory s' = memory s /\
    forall x, block_ok (memory s) x 1 -> view s' x = mem_byte (memory s) x.
Proof.
  intros Hm. unfold Cache_Init, get_memory, on_cache. rewrite (mbind_done _ _ s (memory s) s) by done.
  set (s0 := set_cache (mkCache ∅ ∅ (plru (cache s)) (valid (cache s)) (modified (cache s))
    (mkMem (m_ram_size (memory s) .>> 5) 0 ∅) (mkMem (m_exram_size (memory s) .>> 5) 0 ∅)
    (mkMem (m_fakevmem_size (memory s) .>> 5) 0 ∅)) s).
  rewrite (mbind_done _ _ s tt s0) by done. apply (Reset_ok s0).
  - split; [exact Hm|]. unfold s0. cbn [cache set_cache lookup_table lookup_table_ex mem_size memory].
    by rewrite !Z.shiftr_div_pow2 by lia.
  - intros set way. unfold s0, line_data. cbn [cache set_cache data]. rewrite lookup_empty. split; [done|].
    by apply Forall_replicate.
Qed.

Lemma FlushAll_ok s : inv None s ->
  exists s', FlushAll s = Done tt s' /\ indist s s' /\ forall x, block_ok (memory s) x 1 -> synced s' x.
Proof.
  intros Hs. destruct (FlushAll_lines_ok all_lines s Hs) as (s1 & E1 & Hi1 & Hc1 & Hx1); [apply in_all_lines|].
  assert (Hall : forall x, block_ok (memory s) x 1 -> synced s1 x).
  { intros x Hx. destruct (Z.eq_dec (lw s (line_of x)) 0xff) as [E|Hne].
    - unfold synced, view, lw. rewrite Hc1. change (lw s (line_of x) = 0xff) in E. unfold lw in E. by rewrite E.
    - destruct (line_in_way s x Hs Hx Hne) as (? & ? & _). apply Hx1; [done|]. by apply all_lines_in. }
  destruct (Reset_ok s1) as (s2 & E2 & Hs2 & Hm2 & Hv2); [apply Hi1..|].
  exists s2. unfold FlushAll. rewrite (mbind_done _ _ _ _ _ E1). split; [done|].
  assert (Hk : keeps s1 s2).
  { apply keeps_same_memory; [done|]. intros x Hx. rewrite Hv2 by done. apply Hall. by apply (k_blocks _ _ (proj2 Hi1)). }
  split; [split; [done|]; eapply keeps_trans; [apply Hi1|done]|].
  intros x Hx. eapply synced_keeps; [exact Hk|by eapply indist_block|by apply Hall].
Qed.

(** *** The instruction cache *)

(** Whether a line is in one of the ways of its set. *)
Definition in_ways (s : CacheSys) (ways : list Z) (l : Z) : bool := existsb (Z.eqb (lw s l)) ways.

Lemma Invalidate_ways_ok set ways : forall s, inv None s -> 0 <= set < 128 -> Forall (fun w => 0 <= w < 8) ways ->
  forall t, tables_ok t -> memory t = memory s -> valid (cache t) = valid (cache s) -> addrs (cache t) = addrs (cache s) ->
  exists t', Invalidate_ways set ways t = Done tt t' /\ tables_ok t' /\ memory t' = memory s /\
    data (cache t') = data (cache t) /\ addrs (cache t') = addrs (cache s) /\ plru (cache t') = plru (cache t) /\
    valid (cache t') = valid (cache s) /\ modified (cache t') = modified (cache t) /\
    forall l, line_ok (memory s) l -> lw t' l = if (set_of l =? set) && in_ways s ways l then 0xff else lw t l.
Proof.
  intros s Hs Hset. induction ways as [|way ways IH]; intros Hw t Ht Em Ev Ea; cbn [Invalidate_ways].
  - exists t. do 8 (split; [done|]). intros l Hl. by rewrite andb_false_r.
  - inversion Hw as [|? ? Hway Hw']; subst. unfold get_cache. rewrite (mbind_done _ _ t (cache t) t) by done.
    rewrite has_way_testbit by lia.
    assert (Hval : valid_of (cache t) set = valid_of (cache s) set) by (unfold valid_of; by rewrite Ev).
    assert (Hadr : line_addr (cache t) set way = line_addr (cache s) set way) by (unfold line_addr; by rewrite Ea).
    rewrite Hval, Hadr. destruct (Z.testbit (valid_of (cache s) set) way) eqn:Hv; cbn [mwhen].
    + destruct (i_lines _ _ Hs set way Hset Hway Hv ltac:(done)) as (Hl & Es & Ew). rewrite <- Em in Hl.
      rewrite (mbind_done _ _ _ _ _ (lookup_set_eval t _ 0xff Ht Hl)).
      destruct (put_lw_same t (line_addr (cache s) set way) 0xff) as (E1 & E2 & E3 & E4 & E5 & E6 & _).
      destruct (IH Hw' (put_lw (line_addr (cache s) set way) 0xff t)) as (t' & Et & H1 & H2 & H3 & H4 & H5 & H6 & H7 & H8);
        [by apply put_lw_tables|congruence..|].
      exists t'. do 3 (split; [done|]). split; [congruence|]. split; [done|]. split; [congruence|].
      split; [done|]. split; [congruence|].
      intros l' Hl'. rewrite H8, lw_put by (done || by rewrite Em). unfold in_ways. cbn [existsb].
      destruct (Z.eqb_spec l' (line_addr (cache s) set way)) as [->|Hne].
      * rewrite Es, Ew, !Z.eqb_refl. simpl. by destruct (existsb _ _).
      * destruct (Z.eqb_spec (set_of l') set) as [Esl|]; [|done]. simpl.
        destruct (Z.eqb_spec (lw s l') way) as [Ewl|]; [|done]. exfalso. apply Hne.
        destruct (i_lookup _ _ Hs l' Hl' ltac:(lia)) as (_ & _ & <- & _). by rewrite Esl, Ewl.
    + rewrite (mbind_done _ _ t tt t) by done.
      destruct (IH Hw' t Ht Em Ev Ea) as (t' & Et & H1 & H2 & H3 & H4 & H5 & H6 & H7 & H8).
      exists t'. do 8 (split; [done|]). intros l Hl. rewrite H8 by done. unfold in_ways. cbn [existsb].
      destruct (Z.eqb_spec (set_of l) set) as [Esl|]; [|done]. simpl.
      destruct (Z.eqb_spec (lw s l) way) as [Ewl|]; [|done]. exfalso.
      destruct (i_lookup _ _ Hs l Hl ltac:(lia)) as (_ & Hv' & _). rewrite Esl, Ewl in Hv'. congruence.
Qed.

(** [icbi] drops the whole set of the address, not only its line. *)
Lemma ICache_Invalidate_ok s a : inv None s -> 0 <= a ->
  let set := set_of (line_of a) in
  exists s', ICache_Invalidate a s = Done tt s' /\ inv None s' /\ memory s' = memory s /\
    forall x, block_ok (memory s) x 1 ->
      view s' x = if set_of (line_of x) =? set then mem_byte (memory s) x else view s x.
Proof.
  intros Hs Ha set. pose proof (inv_mem _ _ Hs) as Hm. pose proof (set_of_range (line_of a)) as Hset. fold set in Hset.
  assert (Eset : (a .>> 5) .& 0x7f = set).
  { rewrite land_set. unfold set, set_of, line_of. f_equal. Z.div_mod_to_equations; lia. }
  unfold ICache_Invalidate. rewrite Eset.
  destruct (Invalidate_ways_ok set [0; 1; 2; 3; 4; 5; 6; 7] s Hs Hset ltac:(repeat constructor; lia) s (i_tables _ _ Hs)
    eq_refl eq_refl eq_refl) as (t & E & H1 & H2 & H3 & H4 & H5 & H6 & H7 & H8).
  rewrite (mbind_done _ _ _ _ _ E). eexists. split; [reflexivity|].
  match goal with |- inv None ?t /\ _ => set (s' := t) end.
  assert (Hlw : forall l, line_ok (memory s) l -> lw s' l = if set_of l =? set then 0xff else lw s l).
  { intros l Hl. change (lw s' l) with (lw t l). rewrite H8 by done. destruct (Z.eqb_spec (set_of l) set); [|done]. cbn [andb].
    destruct (in_ways s [0; 1; 2; 3; 4; 5; 6; 7] l) eqn:Ei; [done|].
    destruct (Z.eq_dec (lw s l) 0xff) as [|Hne]; [done|]. exfalso.
    destruct (i_lookup _ _ Hs l Hl Hne) as (Hr & _). apply not_true_iff_false in Ei. apply Ei. apply existsb_exists.
    exists (lw s l). split; [cbn; lia|apply Z.eqb_refl]. }
  assert (Hval : forall set', valid_of (cache s') set' = if set' =? set then 0 else valid_of (cache s) set').
  { intros set'. transitivity (valid_of (put_valid set 0 (cache t)) set'); [done|]. rewrite valid_of_put_valid.
    unfold valid_of. by rewrite H6. }
  assert (Hmod : forall set', modified_of (cache s') set' = if set' =? set then 0 else modified_of (cache s) set').
  { intros set'. unfold s'. cbn [cache set_cache]. rewrite modified_of_put_modified. destruct (_ =? _); [done|].
    transitivity (modified_of (cache t) set'); [done|]. unfold modified_of. by rewrite H7. }
  assert (Hdat : forall set' way', line_data (cache s') set' way' = line_data (cache s) set' way')
    by (intros; unfold line_data; change (data (cache s')) with (data (cache t)); by rewrite H3).
  assert (Hadr : forall set' way', line_addr (cache s') set' way' = line_addr (cache s) set' way')
    by (intros; unfold line_addr; change (addrs (cache s')) with (addrs (cache t)); by rewrite H4).
  assert (Em : memory s' = memory s) by exact H2.
  split; [|split; [done|]].
  - constructor; rewrite ?Em.
    + exact H1.
    + intros set'. rewrite Hval. destruct (_ =? _); [done|apply Hs].
    + intros set'. unfold plru_of. change (plru (cache s')) with (plru (cache t)). rewrite H5. apply Hs.
    + intros set' way'. rewrite Hdat. apply Hs.
    + intros l Hl. rewrite Hlw, Hval, Hadr by done.
      destruct (Z.eqb_spec (set_of l) set); [by intros []|]. exact (i_lookup _ _ Hs l Hl).
    + intros set' way' ??. rewrite Hval, Hadr. destruct (Z.eqb_spec set' set) as [|Hne]; [by rewrite Z.testbit_0_l|].
      intros Hb _. destruct (i_lines _ _ Hs set' way' ltac:(done) ltac:(done) Hb ltac:(done)) as (Hl & Es & Ew).
      do 2 (split; [done|]). rewrite Hlw, Es by done. by rewrite (proj2 (Z.eqb_neq _ _) Hne).
    + intros set' way' ??. rewrite Hval, Hmod, Hadr, Hdat. destruct (_ =? _); [by rewrite Z.testbit_0_l|].
      by apply (i_clean _ _ Hs).
  - intros x Hx. pose proof (line_of_ok _ _ Hm Hx). unfold view. rewrite Hlw, Em, Hdat by done.
    destruct (Z.eqb_spec (set_of (line_of x)) set); [done|]. done.
Qed.

(** ** The specification

    Two memories: what the program sees, and what the hardware behind the cache
    sees.  The second lags behind the first: at any access it may catch up at
    some addresses (a line is written back), and it does at the lines of
    [Store], [Flush] and [FlushAll].  [Invalidate] and [Reset] go the other way.
    Functions are compared on the addresses that exist. *)

Inductive cache_op :=
  | OpRead (a : Z) (len : nat) (locked : bool)
  | OpWrite (a : Z) (bytes : list Z) (locked : bool)
  | OpTouch (a : Z)
  | OpStore (a : Z)
  | OpFlush (a : Z)
  | OpInvalidate (a : Z)
  | OpIcbi (a : Z)
  | OpFlushAll
  | OpReset.

Definition exec (o : cache_op) : M CacheSys (list Z) :=
  match o with
  | OpRead a len locked => Read a (replicate len 0) locked
  | OpWrite a bytes locked => Write a bytes locked ;;; mret []
  | OpTouch a => Touch a false ;;; mret []
  | OpStore a => Store a ;;; mret []
  | OpFlush a => Flush a ;;; mret []
  | OpInvalidate a => Invalidate a ;;; mret []
  | OpIcbi a => ICache_Invalidate a ;;; mret []
  | OpFlushAll => FlushAll ;;; mret []
  | OpReset => Cache_Reset ;;; mret []
  end.
Fixpoint exec_all (os : list cache_op) : M CacheSys (list (list Z)) :=
  match os with [] => mret [] | o :: os' => r <- exec o ;; rs <- exec_all os' ;; mret (r :: rs) end.

(** The operations whose addresses exist. *)
Definition op_ok (m : MemoryManager) (o : cache_op) : Prop :=
  match o with
  | OpRead a len _ => block_ok m a (Z.of_nat len)
  | OpWrite a bytes _ => block_ok m a (Z.of_nat (length bytes)) /\ Forall is_u8 bytes
  | OpTouch a | OpStore a | OpFlush a | OpInvalidate a | OpIcbi a => block_ok m a 1
  | OpFlushAll | OpReset => True
  end.

Record two_views := TwoViews { seen : Z -> Z; behind : Z -> Z }.

Definition agree (good : Z -> Prop) (f g : Z -> Z) : Prop := forall x, good x -> f x = g x.
(** What the hardware sees after an access that may have written lines back. *)
Definition caught_up (good : Z -> Prop) (v v' : two_views) : Prop :=
  forall x, good x -> behind v' x = behind v x \/ behind v' x = seen v x \/ behind v' x = seen v' x.

Inductive spec_step (good : Z -> Prop) : cache_op -> two_views -> list Z -> two_views -> Prop :=
  | SpecRead a len locked v v' :
      agree good (seen v') (seen v) -> caught_up good v v' ->
      spec_step good (OpRead a len locked) v (bytes_from (seen v) a len) v'
  | SpecWrite a bytes locked v v' :
      agree good (seen v') (patch (seen v) a bytes) -> caught_up good v v' ->
      spec_step good (OpWrite a bytes locked) v [] v'
  | SpecTouch a v v' :
      agree good (seen v') (seen v) -> caught_up good v v' -> spec_step good (OpTouch a) v [] v'
  | SpecStore a v v' :
      agree good (seen v') (seen v) ->
      agree good (behind v') (fun x => if line_of x =? line_of a then seen v x else behind v x) ->
      spec_step good (OpStore a) v [] v'
  | SpecFlush a v v' :
      agree good (seen v') (seen v) ->
      agree good (behind v') (fun x => if line_of x =? line_of a then seen v x else behind v x) ->
      spec_step good (OpFlush a) v [] v'
  | SpecInvalidate a v v' :
      agree good (seen v') (fun x => if line_of x =? line_of a then behind v x else seen v x) ->
      agree good (behind v') (behind v) -> spec_step good (OpInvalidate a) v [] v'
  | SpecIcbi a v v' :
      agree good (seen v') (fun x => if set_of (line_of x) =? set_of (line_of a) then behind v x else seen v x) ->
      agree good (behind v') (behind v) -> spec_step good (OpIcbi a) v [] v'
  | SpecFlushAll v v' :
      agree good (seen v') (seen v) -> agree good (behind v') (seen v) -> spec_step good OpFlushAll v [] v'
  | SpecReset v v' :
      agree good (seen v') (behind v) -> agree good (behind v') (behind v) -> spec_step good OpReset v [] v'.

Inductive spec_run (good : Z -> Prop) : list cache_op -> two_views -> list (list Z) -> two_views -> Prop :=
  | SpecDone v : spec_run good [] v [] v
  | SpecMore o os v r v' rs v'' :
      spec_step good o v r v' -> spec_run good os v' rs v'' -> spec_run good (o :: os) v (r :: rs) v''.

(** The two memories of a state of the cache. *)
Definition views (s : CacheSys) : two_views := TwoViews (view s) (mem_byte (memory s)).
Definition good (s : CacheSys) (x : Z) : Prop := block_ok (memory s) x 1.

Lemma keeps_caught_up s s' : keeps s s' -> caught_up (good s) (views s) (views s').
Proof. intros Hk x Hx. destruct (k_memory _ _ Hk x Hx); auto. Qed.

Lemma op_ok_blocks s s' o : same_blocks s s' -> op_ok (memory s) o -> op_ok (memory s') o.
Proof. intros Hb. destruct o; simpl; try done; try apply Hb. intros [? ?]. split; [by apply Hb|done]. Qed.

Lemma same_memory_blocks s s' : memory s' = memory s -> same_blocks s s'.
Proof. intros E x n. by rewrite E. Qed.

(** The simulation: a step of the cache is a step of the specification. *)
Lemma exec_step o s : inv None s -> op_ok (memory s) o ->
  exists r s', exec o s = Done r s' /\ inv None s' /\ same_blocks s s' /\ spec_step (good s) o (views s) r (views s').
Proof.
  intros Hs Ho. destruct o as [a len lk|a bs lk|a|a|a|a|a| |]; cbn [exec op_ok] in *.
  - unfold Read. destruct (Read_loop_ok (length (replicate len 0)) a (replicate len 0) lk s Hs)
      as (s' & E & Hs' & Hk); rewrite ?length_replicate in *; [done..|].
    eexists _, s'. split; [exact E|]. do 2 (split; [done || apply Hk|]).
    constructor; [exact (k_view _ _ Hk)|by apply keeps_caught_up].
  - destruct Ho as [Hb Hu]. destruct (Write_loop_ok (length bs) a bs lk s Hs Hb Hu (le_n _)) as (s' & E & Hw).
    eexists [], s'. rewrite (mbind_done _ _ _ _ _ E). split; [done|]. do 2 (split; [apply Hw|]).
    constructor; [exact (w_view _ _ _ _ Hw)|]. intros x Hx. exact (w_memory _ _ _ _ Hw x Hx).
  - destruct (Touch_ok s a false Hs Ho) as (s' & E & Hs' & Hk). eexists [], s'. rewrite (mbind_done _ _ _ _ _ E).
    split; [done|]. do 2 (split; [done || apply Hk|]). constructor; [exact (k_view _ _ Hk)|by apply keeps_caught_up].
  - destruct (Store_ok s a Hs Ho) as (s' & E & (Hs' & Hk) & Hm). eexists [], s'. rewrite (mbind_done _ _ _ _ _ E).
    split; [done|]. do 2 (split; [done || apply Hk|]). constructor; [exact (k_view _ _ Hk)|exact Hm].
  - destruct (Flush_ok s a Hs Ho) as (s' & E & (Hs' & Hk) & _ & Hm). eexists [], s'. rewrite (mbind_done _ _ _ _ _ E).
    split; [done|]. do 2 (split; [done || apply Hk|]). constructor; [exact (k_view _ _ Hk)|exact Hm].
  - destruct (Invalidate_ok s a Hs Ho) as (s' & E & Hs' & Em & _ & Hv). eexists [], s'. rewrite (mbind_done _ _ _ _ _ E).
    split; [done|]. split; [done|]. split; [by apply same_memory_blocks|].
    constructor; [exact Hv|]. intros x _. simpl. by rewrite Em.
  - destruct (ICache_Invalidate_ok s a Hs) as (s' & E & Hs' & Em & Hv).
    { by apply (block_range _ _ _ (inv_mem _ _ Hs) Ho). }
    eexists [], s'. rewrite (mbind_done _ _ _ _ _ E). split; [done|]. split; [done|].
    split; [by apply same_memory_blocks|]. constructor; [exact Hv|]. intros x _. simpl. by rewrite Em.
  - destruct (FlushAll_ok s Hs) as (s' & E & (Hs' & Hk) & Hm). eexists [], s'. rewrite (mbind_done _ _ _ _ _ E).
    split; [done|]. do 2 (split; [done || apply Hk|]). constructor; [exact (k_view _ _ Hk)|].
    intros x Hx. simpl. rewrite (Hm x Hx). by apply Hk.
  - destruct (Reset_ok s (i_tables _ _ Hs) (i_data _ _ Hs)) as (s' & E & Hs' & Em & Hv). eexists [], s'.
    rewrite (mbind_done _ _ _ _ _ E). split; [done|]. split; [done|]. split; [by apply same_memory_blocks|].
    constructor; [exact Hv|]. intros x _. simpl. by rewrite Em.
Qed.

(** The lines the program has written and not stored or flushed since; a line can
    have left the cache without being taken out of this list. *)
Definition written_lines (a : Z) (bytes : list Z) : list Z := map (fun i => line_of (a + Z.of_nat i)) (seq 0 (length bytes)).
Definition dirty_after (o : cache_op) (dirty : list Z) : list Z :=
  match o with
  | OpWrite a bytes _ => written_lines a bytes ++ dirty
  | OpStore a | OpFlush a => filter (fun l => l <> line_of a) dirty
  | OpFlushAll => []
  | _ => dirty
  end.
(** An operation that drops no written line: [Invalidate] is about one line, [icbi]
    about the set of a line, [Reset] about all of them. *)
Definition coherent (dirty : list Z) (o : cache_op) : Prop :=
  match o with
  | OpInvalidate a => line_of a ∉ dirty
  | OpIcbi a => Forall (fun l => set_of l <> set_of (line_of a)) dirty
  | OpReset => dirty = []
  | _ => True
  end.
Fixpoint coherent_run (dirty : list Z) (os : list cache_op) : Prop :=
  match os with [] => True | o :: os' => coherent dirty o /\ coherent_run (dirty_after o dirty) os' end.
(** Outside those lines the hardware sees what the program sees. *)
Definition clean_outside (good : Z -> Prop) (dirty : list Z) (v : two_views) : Prop :=
  forall x, good x -> line_of x ∉ dirty -> behind v x = seen v x.

(** A flat memory. *)
Definition flat_step (o : cache_op) (f : Z -> Z) : list Z * (Z -> Z) :=
  match o with
  | OpRead a len _ => (bytes_from f a len, f)
  | OpWrite a bytes _ => ([], patch f a bytes)
  | _ => ([], f)
  end.
Fixpoint flat_results (os : list cache_op) (f : Z -> Z) : list (list Z) :=
  match os with
  | [] => []
  | o :: os' => let '(r, f') := flat_step o f in r :: flat_results os' f'
  end.

(** The addresses of a block are among the good ones. *)
Lemma bytes_from_agree m f g a n : block_ok m a (Z.of_nat n) -> agree (fun x => block_ok m x 1) f g ->
  bytes_from f a n = bytes_from g a n.
Proof. intros Hb Ha. apply bytes_from_ext. intros x Hx. apply Ha. eapply block_ok_sub; [exact Hb|lia..]. Qed.

Lemma elem_of_written_lines x a bytes : a <= x < a + Z.of_nat (length bytes) -> line_of x ∈ written_lines a bytes.
Proof.
  intros Hx. unfold written_lines. apply list_elem_of_fmap. exists (Z.to_nat (x - a)). split; [f_equal; lia|].
  apply elem_of_seq. lia.
Qed.
(** A step keeps the lines that were not written equal in both memories. *)
Lemma spec_step_clean good o v r v' dirty : spec_step good o v r v' -> coherent dirty o ->
  clean_outside good dirty v -> clean_outside good (dirty_after o dirty) v'.
Proof.
  intros Hst Hc Hcl x Hx Hn. destruct Hst as [a len lk v v' H Hu|a bs lk v v' H Hu|a v v' H Hu|a v v' H Hb|a v v' H Hb|a v v' H Hb|a v v' H Hb|v v' H Hb|v v' H Hb];
    cbn [dirty_after coherent] in *; rewrite H by done.
  - destruct (Hu x Hx) as [->|[->| ->]]; [by apply Hcl|done|by rewrite H by done].
  - apply not_elem_of_app in Hn as [Hw Hn].
    assert (Ep : patch (seen v) a bs x = seen v x) by (apply patch_out; intros Hr; by apply Hw, elem_of_written_lines).
    destruct (Hu x Hx) as [->|[->| ->]]; [rewrite Ep; by apply Hcl|by rewrite Ep|by rewrite H by done].
  - destruct (Hu x Hx) as [->|[->| ->]]; [by apply Hcl|done|by rewrite H by done].
  - rewrite Hb by done. destruct (Z.eqb_spec (line_of x) (line_of a)); [done|]. apply Hcl; [done|].
    intros Hin. apply Hn, list_elem_of_filter. by split.
  - rewrite Hb by done. destruct (Z.eqb_spec (line_of x) (line_of a)); [done|]. apply Hcl; [done|].
    intros Hin. apply Hn, list_elem_of_filter. by split.
  - rewrite Hb by done. destruct (_ =? _); [done|by apply Hcl].
  - rewrite Hb by done. destruct (_ =? _); [done|by apply Hcl].
  - by rewrite Hb.
  - by rewrite Hb.
Qed.
Lemma spec_step_flat m o v r v' f dirty : spec_step (fun x => block_ok m x 1) o v r v' -> coherent dirty o -> op_ok m o ->
  clean_outside (fun x => block_ok m x 1) dirty v -> agree (fun x => block_ok m x 1) (seen v) f ->
  r = fst (flat_step o f) /\ agree (fun x => block_ok m x 1) (seen v') (snd (flat_step o f)).
Proof.
  intros Hst Hc Ho Hcl Ha. destruct Hst as [a len lk v v' H _|a bs lk v v' H _|? v v' H _|? v v' H _|? v v' H _|a v v' H _|a v v' H _|v v' H _|v v' H _];
    simpl in Ho, Hc |- *; (split; [|intros x Hx; rewrite H by done]); try done; try by apply Ha.
  - by eapply bytes_from_agree.
  - apply patch_ext. by apply Ha.
  - destruct (Z.eqb_spec (line_of x) (line_of a)) as [E|]; [|by apply Ha]. rewrite Hcl; [by apply Ha|done|by rewrite E].
  - destruct (Z.eqb_spec (set_of (line_of x)) (set_of (line_of a))) as [E|]; [|by apply Ha].
    rewrite Hcl; [by apply Ha|done|]. intros Hin. rewrite Forall_forall in Hc. by apply (Hc _ Hin).
  - subst dirty. rewrite Hcl; [by apply Ha|done|apply not_elem_of_nil].
Qed.

Lemma exec_all_flat m : forall os s f dirty, inv None s -> (forall x n, block_ok (memory s) x n <-> block_ok m x n) ->
  clean_outside (fun x => block_ok m x 1) dirty (views s) ->
  agree (fun x => block_ok m x 1) (view s) f -> Forall (op_ok m) os -> coherent_run dirty os ->
  exists s', exec_all os s = Done (flat_results os f) s'.
Proof.
  induction os as [|o os IH]; intros s f dirty Hs Hb Hcl Ha Hok Hco; cbn [exec_all flat_results]; [by eexists|].
  inversion Hok as [|? ? Ho Hok']; destruct Hco as [Hc Hco']; subst.
  assert (Ho' : op_ok (memory s) o).
  { destruct o; simpl in Ho |- *; try done; try by apply Hb. destruct Ho. split; [by apply Hb|done]. }
  destruct (exec_step o s Hs Ho') as (r & s1 & E1 & Hs1 & Hb1 & Hst).
  assert (Hst' : spec_step (fun x => block_ok m x 1) o (views s) r (views s1)).
  { destruct Hst; constructor; repeat intro; match goal with H : _ |- _ => apply H; by apply Hb end. }
  pose proof (spec_step_clean _ _ _ _ _ _ Hst' Hc Hcl) as Hcl1.
  destruct (spec_step_flat _ _ _ _ _ _ _ Hst' Hc Ho Hcl Ha) as [-> Ha1].
  destruct (flat_step o f) as [r f'] eqn:Ef. simpl in *.
  destruct (IH s1 f' (dirty_after o dirty) Hs1) as (s2 & E2); [intros x n; by rewrite (Hb1 x n)|done..|].
  exists s2. rewrite (mbind_done _ _ _ _ _ E1), (mbind_done _ _ _ _ _ E2). done.
Qed.

(** ** Every access ends *)

Definition finishes {A} (m : M CacheSys A) : Prop :=
  safe (fun _ => True) (fun f => f <> OutOfFuel) m (fun _ => True).

Lemma finishes_bind {A B} (m : M CacheSys A) (k : A -> M CacheSys B) :
  finishes m -> (forall a, finishes (k a)) -> finishes (mbind m k).
Proof. intros Hm Hk. eapply safe_bind; [exact Hm|]. intros a _. apply Hk. Qed.
Lemma finishes_opt {A} (o : option A) : finishes (mopt ArrayBounds o).
Proof. intros s _. by destruct o. Qed.
Ltac finish :=
  repeat first
    [ apply finishes_opt
    | by intros ? _
    | apply finishes_bind; [|intros ?]
    | match goal with
      | |- finishes (if ?b then _ else _) => destruct b
      | |- finishes (mwhen ?b _) => destruct b; unfold mwhen
      | |- finishes (let '(_, _) := ?p in _) => destruct p
      end ].

Lemma lookup_get_finishes l : finishes (lookup_get l).
Proof. unfold lookup_get, get_cache, get_memory. finish. Qed.
Lemma lookup_set_finishes l w : finishes (lookup_set l w).
Proof. unfold lookup_set, get_cache, get_memory, on_cache. finish. Qed.
Lemma GetCache_finishes a locked : finishes (GetCache a locked).
Proof.
  unfold GetCache, select_way, check_way, evict, fill_line, update_plru, get_cache, get_memory, on_cache, on_memory.
  pose proof lookup_get_finishes. pose proof lookup_set_finishes. cbv zeta.
  repeat first [progress finish|done].
Qed.

(** A turn of the loops takes a whole line, the rest of a line, or everything. *)
Lemma turn_progress a len fuel : is_u32 a -> 0 < len -> len + a mod 32 <= 32 * Z.of_nat (S fuel) ->
  let n := len_in_block a len in
  0 < n <= len /\ (len - n) + (if n =? len then 0 else u32 (a + n) mod 32) <= 32 * Z.of_nat fuel.
Proof.
  intros Ha Hl Hf n. unfold is_u32 in Ha. pose proof (line_of_range a) as Hr.
  assert (Hn : n = Z.min len (32 - a mod 32)).
  { unfold n, len_in_block. rewrite land_line. f_equal. unfold u32, line_of in *.
    destruct (Z.lt_ge_cases (a + 32) 0x100000000); Z.div_mod_to_equations; lia. }
  clearbody n. destruct (Z.eqb_spec n len); [Z.div_mod_to_equations; lia|].
  assert (E : u32 (a + n) mod 32 = 0) by (unfold u32; Z.div_mod_to_equations; lia). rewrite E.
  Z.div_mod_to_equations; lia.
Qed.

Lemma loops_finish fuel : forall a bytes locked, is_u32 a ->
  Z.of_nat (length bytes) + (if (length bytes =? 0)%nat then 0 else a mod 32) <= 32 * Z.of_nat fuel ->
  finishes (Read_loop fuel a bytes locked) /\ finishes (Write_loop fuel a bytes locked).
Proof.
  induction fuel as [|fuel IH]; intros a bytes locked Ha Hf; cbn [Read_loop Write_loop];
    (destruct (Nat.eqb_spec (length bytes) 0) as [Hz|Hnz]; [by split; intros ? _|]);
    [pose proof (Z.mod_pos_bound a 32); lia|].
  destruct (turn_progress a (Z.of_nat (length bytes)) fuel Ha ltac:(lia) ltac:(lia)) as [Hn Hle].
  set (n := len_in_block a (Z.of_nat (length bytes))) in *. clearbody n.
  destruct (IH (u32 (a + Z.of_nat (Z.to_nat n))) (drop (Z.to_nat n) bytes) locked) as [HR HW].
  { apply is_u32_u32. }
  { rewrite length_drop, Z2Nat.id by lia. destruct (Nat.eqb_spec (length bytes - Z.to_nat n) 0);
      destruct (Z.eqb_spec n (Z.of_nat (length bytes))); lia. }
  pose proof (GetCache_finishes a locked).
  split; (apply finishes_bind; [done|intros [set way]; cbv zeta]); unfold get_cache, get_memory, on_cache, on_memory;
    repeat first [progress finish|done].
Qed.

(** ** The replacement *)

(** Three touches in a row. *)
Lemma plru_three_table :
  forallb (fun p => forallb (fun w1 => forallb (fun w2 => forallb (fun w3 =>
    let w := way_from_plru (plru_touch (plru_touch (plru_touch (Z.of_nat p) (Z.of_nat w1)) (Z.of_nat w2)) (Z.of_nat w3)) in
    negb (w =? Z.of_nat w1) && negb (w =? Z.of_nat w2) && negb (w =? Z.of_nat w3))
    (seq 0 8)) (seq 0 8)) (seq 0 8)) (seq 0 128) = true.
Proof. vm_compute. reflexivity. Qed.

Lemma plru_three p w1 w2 w3 : 0 <= p < 128 -> 0 <= w1 < 8 -> 0 <= w2 < 8 -> 0 <= w3 < 8 ->
  let w := way_from_plru (plru_touch (plru_touch (plru_touch p w1) w2) w3) in w <> w1 /\ w <> w2 /\ w <> w3.
Proof.
  intros Hp H1 H2 H3.
  pose proof (proj1 (forallb_forall _ _) plru_three_table (Z.to_nat p) ltac:(apply in_seq; lia)) as T.
  pose proof (proj1 (forallb_forall _ _) T (Z.to_nat w1) ltac:(apply in_seq; lia)) as T1.
  pose proof (proj1 (forallb_forall _ _) T1 (Z.to_nat w2) ltac:(apply in_seq; lia)) as T2.
  pose proof (proj1 (forallb_forall _ _) T2 (Z.to_nat w3) ltac:(apply in_seq; lia)) as T3.
  clear T T1 T2. cbv beta zeta in T3. rewrite !Z2Nat.id in T3 by lia.
  rewrite !andb_true_iff, !negb_true_iff, !Z.eqb_neq in T3.
  destruct T3 as [[? ?] ?]. by repeat split.
Qed.

Definition touched (set p : Z) (s : CacheSys) : CacheSys := set_cache (put_plru set p (cache s)) s.
Lemma update_plru_eval s set way : 0 <= way < 8 ->
  update_plru set way s = Done tt (touched set (plru_touch (plru_of (cache s) set) way) s).
Proof. intros Hw. destruct (plru_tables way Hw) as (Em & Ev & _). unfold update_plru. by rewrite Em, Ev. Qed.
Lemma touched_plru s set p : plru_of (cache (touched set p s)) set = p.
Proof. unfold touched. cbn [cache set_cache]. by rewrite plru_of_put_plru, Z.eqb_refl. Qed.
Lemma touched_twice s set p w :
  touched set (plru_touch (plru_of (cache (touched set p s)) set) w) (touched set p s) = touched set (plru_touch p w) s.
Proof.
  rewrite touched_plru. destruct s as [[] m]. unfold touched, put_plru, set_plru, set_cache. simpl. by rewrite insert_insert_eq.
Qed.
Lemma select_way_full s set : valid_of (cache s) set = 0xff -> 0 <= plru_of (cache s) set < 128 ->
  select_way set s = Done (way_from_plru (plru_of (cache s) set)) s.
Proof.
  intros Hv Hp. unfold select_way, get_cache. rewrite (mbind_done _ _ s (cache s) s) by done.
  rewrite Hv, Z.eqb_refl. cbn [negb]. by rewrite way_from_plru_table.
Qed.

(** ** A concrete machine *)

Definition empty_cache : Cache := mkCache ∅ ∅ ∅ ∅ ∅ (mkMem 0 0 ∅) (mkMem 0 0 ∅) (mkMem 0 0 ∅).
Definition sample_memory : MemoryManager := Init MEM1_SIZE_RETAIL MEM2_SIZE_RETAIL true.
(** The cache of a Wii after [Init]. *)
Definition sample_cache : CacheSys :=
  match Cache_Init (mkCacheSys empty_cache sample_memory) with Done _ s => s | Fault _ => mkCacheSys empty_cache sample_memory end.

Lemma sample_memory_wf : mem_wf sample_memory.
Proof. apply Init_wf; (reflexivity || (split; vm_compute; congruence)). Qed.
Lemma sample_cache_inv : inv None sample_cache.
Proof.
  destruct (Init_ok (mkCacheSys empty_cache sample_memory) sample_memory_wf) as (s & E & Hs & _).
  unfold sample_cache. by rewrite E.
Qed.
Lemma sample_block a n : 0 <= a -> a + n <= 0x01800000 -> block_ok sample_memory a n.
Proof. intros. left. split; [done|]. exact H0. Qed.

(** A write across two lines, eviction of one of them by reads of eight other
    lines of its set, and the operations on lines. *)
Definition sample_ops : list cache_op :=
  [OpWrite 0x3e [1; 2; 3; 4] false; OpTouch 0x1040; OpRead 0x2040 1 false; OpRead 0x3040 1 false; OpRead 0x4040 1 false;
   OpRead 0x5040 1 false; OpRead 0x6040 1 false; OpRead 0x7040 1 false; OpRead 0x8040 1 false; OpRead 0x3c 8 true;
   OpStore 0x3f; OpFlushAll].
Ltac ops_ok :=
  repeat first [apply Forall_nil_2|apply Forall_cons_2]; cbn [op_ok];
  first [exact I|apply sample_block; cbn; lia
    |split; [apply sample_block; cbn; lia|repeat (apply Forall_cons_2; [by split|]); apply Forall_nil_2]].
Lemma sample_ops_ok : Forall (op_ok sample_memory) sample_ops.
Proof. unfold sample_ops. ops_ok. Qed.

(** ** Properties *)

(** C5. The cache refines two flat memories, one the program sees and one the
    hardware sees behind the cache: from every state of the invariant, any
    sequence of reads, writes, touches, stores, flushes and invalidations of
    addresses that exist succeeds, keeps the invariant, and is a run of the
    specification with the same results. *)
Theorem cache_refines_two_memories : forall os s, inv None s -> Forall (op_ok (memory s)) os ->
  exists rs s', exec_all os s = Done rs s' /\ inv None s' /\ spec_run (good s) os (views s) rs (views s').
Proof.
  intros os s Hs Hok.
  enough (H : forall t, inv None t -> same_blocks s t -> exists rs t', exec_all os t = Done rs t' /\ inv None t' /\
    spec_run (good s) os (views t) rs (views t')) by by apply H.
  induction Hok as [|o os Ho Hok IH]; intros t Ht Hb; cbn [exec_all].
  - exists [], t. do 2 (split; [done|]). constructor.
  - destruct (exec_step o t Ht (op_ok_blocks _ _ _ Hb Ho)) as (r & t1 & E1 & Ht1 & Hb1 & Hst).
    destruct (IH t1 Ht1) as (rs & t2 & E2 & Ht2 & Hrun); [intros x n; by rewrite (Hb1 x n)|].
    exists (r :: rs), t2. rewrite (mbind_done _ _ _ _ _ E1), (mbind_done _ _ _ _ _ E2). do 2 (split; [done|]).
    econstructor; [|exact Hrun]. destruct Hst; constructor; repeat intro;
      match goal with H : _ |- _ => apply H; by apply Hb end.
Qed.

Lemma cache_refines_two_memories_witness :
  exists rs s', exec_all (sample_ops ++ [OpInvalidate 0x40; OpIcbi 0x1040; OpReset]) sample_cache = Done rs s' /\
    inv None s' /\
    spec_run (good sample_cache) (sample_ops ++ [OpInvalidate 0x40; OpIcbi 0x1040; OpReset]) (views sample_cache)
      rs (views s').
Proof.
  apply cache_refines_two_memories; [exact sample_cache_inv|].
  apply Forall_app; split; [exact sample_ops_ok|]. ops_ok.
Defined.

(** C26. A program cannot tell the cache from the memory: after [Init], whatever
    lines are filled, evicted, written back, flushed and invalidated in between,
    every read returns the bytes a flat memory would, which starts as the physical
    memory and changes only by the program's writes.  The program may invalidate
    any line, set of lines or the whole cache that it has not written since it last
    stored or flushed it. *)
Theorem cache_is_transparent : forall m c os, mem_wf m -> Forall (op_ok m) os -> coherent_run [] os ->
  exists s', (Cache_Init ;;; exec_all os) (mkCacheSys c m) = Done (flat_results os (mem_byte m)) s'.
Proof.
  intros m c os Hm Hok Hco. destruct (Init_ok (mkCacheSys c m) Hm) as (s & E & Hs & Em & Hv).
  rewrite (mbind_done _ _ _ _ _ E). apply (exec_all_flat m os s _ []); [done| | |exact Hv|done..].
  - intros x n. by rewrite Em.
  - intros x Hx _. cbn [views seen behind]. rewrite Em. symmetry. by apply Hv.
Qed.

(** Lines next to and far from written ones are invalidated. *)
Definition invalidating_ops : list cache_op :=
  [OpWrite 0x3e [1; 2; 3; 4] false; OpRead 0x60 1 false; OpInvalidate 0x60; OpIcbi 0x1080; OpFlush 0x3e; OpRead 0x40 2 false;
   OpStore 0x41; OpInvalidate 0x40; OpRead 0x3c 8 false; OpReset; OpRead 0x3c 8 true].
Lemma cache_is_transparent_witness :
  (exists s', (Cache_Init ;;; exec_all (sample_ops ++ invalidating_ops)) (mkCacheSys empty_cache sample_memory) =
    Done (flat_results (sample_ops ++ invalidating_ops) (mem_byte sample_memory)) s') /\
  nth 22 (flat_results (sample_ops ++ invalidating_ops) (mem_byte sample_memory)) [] = [0; 0; 1; 2; 3; 4; 0; 0].
Proof.
  split; [|vm_compute; reflexivity]. apply cache_is_transparent; [exact sample_memory_wf| |].
  - apply Forall_app; split; [exact sample_ops_ok|]. unfold invalidating_ops. ops_ok.
  - vm_compute. repeat split; try (intros H; repeat (apply elem_of_cons in H as [H|H]; [discriminate H|]); by apply elem_of_nil in H);
      repeat constructor; discriminate.
Defined.

(** Every access ends, whatever the state and the address, also when it
    wraps around the end of the address space: a turn of the loops for each
    line the access meets is enough. *)
Theorem cache_accesses_end : forall fuel a bytes locked s, is_u32 a ->
  Z.of_nat (length bytes) + a mod 32 <= 32 * Z.of_nat fuel ->
  Read_loop fuel a bytes locked s <> Fault OutOfFuel /\ Write_loop fuel a bytes locked s <> Fault OutOfFuel /\
  Read a bytes locked s <> Fault OutOfFuel /\ Write a bytes locked s <> Fault OutOfFuel.
Proof.
  intros fuel a bytes locked s Ha Hf. pose proof (Z.mod_pos_bound a 32 ltac:(lia)).
  destruct (loops_finish fuel a bytes locked Ha) as [H1 H2]; [destruct (_ =? _)%nat; lia|].
  destruct (loops_finish (length bytes) a bytes locked Ha) as [H3 H4]; [destruct (Nat.eqb_spec (length bytes) 0); lia|].
  specialize (H1 s I). specialize (H2 s I). specialize (H3 s I). specialize (H4 s I). unfold Read, Write.
  repeat split; intros E; rewrite E in *; done.
Qed.

Lemma cache_accesses_end_witness :
  Read_loop 2 0xfffffff0 (replicate 20 0) false sample_cache <> Fault OutOfFuel.
Proof.
  apply (cache_accesses_end 2 0xfffffff0 (replicate 20 0) false sample_cache); [by split|].
  vm_compute. congruence.
Defined.

(** The replacement keeps what was used recently: in a full set, the way it
    picks is a way of the cache and is none of the last three touched. *)
Theorem recent_ways_are_kept : forall s set w1 w2 w3,
  valid_of (cache s) set = 0xff -> 0 <= plru_of (cache s) set < 128 ->
  0 <= w1 < 8 -> 0 <= w2 < 8 -> 0 <= w3 < 8 ->
  exists w s', (update_plru set w1 ;;; update_plru set w2 ;;; update_plru set w3 ;;; select_way set) s = Done w s' /\
    0 <= w < 8 /\ w <> w1 /\ w <> w2 /\ w <> w3.
Proof.
  intros s set w1 w2 w3 Hv Hp H1 H2 H3.
  rewrite (mbind_done _ _ _ _ _ (update_plru_eval s set w1 H1)).
  rewrite (mbind_done _ _ _ _ _ (update_plru_eval _ set w2 H2)), touched_twice.
  rewrite (mbind_done _ _ _ _ _ (update_plru_eval _ set w3 H3)), touched_twice.
  rewrite (select_way_full (touched set _ s) set Hv); rewrite touched_plru; [|by repeat apply plru_touch_range].
  eexists _, _. split; [reflexivity|]. split; [apply way_from_plru_range|]. by apply plru_three.
Qed.

Lemma recent_ways_are_kept_witness :
  let s := mkCacheSys (put_valid 5 0xff empty_cache) sample_memory in
  exists w s', (update_plru 5 7 ;;; update_plru 5 2 ;;; update_plru 5 0 ;;; select_way 5) s = Done w s' /\
    0 <= w < 8 /\ w <> 7 /\ w <> 2 /\ w <> 0.
Proof. apply recent_ways_are_kept; (reflexivity || (split; [vm_compute; congruence|reflexivity])). Defined.
