(* ===== verification/CoreTiming.v ===== *)
(** * The event scheduler (CoreTiming.cpp, CoreTiming.h)

    Devices schedule callbacks at points of emulated time; the CPU runs in
    slices that end no later than the next event.  The state carries the part of
    the PowerPC the scheduler works on ([downcount]) and the rest of the emulator
    ([world]), which the callbacks change.  Throttling to the host's clock and
    logging are left out; so are the test for a changed configuration that opens
    [Advance], and the performance monitor and the graphics queue that [Idle] brings
    up to date, none of which is state of the scheduler. *)
From stdpp Require Export strings.
From S2P Require Export Heap ErrState.

Definition MAX_SLICE_LENGTH : Z := 20000.

(** ** Single precision

    A finite [float] is [f_mant * 2 ^ f_exp].  Results are rounded to 24 bits,
    to nearest and ties to even; the factors and cycle counts of the scheduler
    stay far from the limits of the exponent. *)
Record f32 := mkF32 { f_mant : Z; f_exp : Z }.

(** [m / 2 ^ k] to the nearest integer, ties to even. *)
Definition round_even (m k : Z) : Z :=
  let q := m .>> k in
  let rest := m - (q .<< k) in
  let half := 1 .<< (k - 1) in
  if (half <? rest) || ((rest =? half) && Z.odd q) then q + 1 else q.
Definition f_round (m e : Z) : f32 :=
  let k := Z.log2 (Z.abs m) - 23 in
  if k <=? 0 then mkF32 m e else mkF32 (Z.sgn m * round_even (Z.abs m) k) (e + k).
Definition f_of_int (n : Z) : f32 := f_round n 0.
Definition f_mul (a b : f32) : f32 := f_round (f_mant a * f_mant b) (f_exp a + f_exp b).
(** A quotient with 40 more bits than the result needs, the last one sticky. *)
Definition f_div (a b : f32) : f32 :=
  let n := f_mant a .<< 64 in
  let q := n / f_mant b in
  f_round (2 * q + (if n mod f_mant b =? 0 then 0 else 1)) (f_exp a - f_exp b - 65).
(** [static_cast<int>]: towards zero. *)
Definition f_trunc (a : f32) : Z :=
  if 0 <=? f_exp a then f_mant a * 2 ^ f_exp a else Z.quot (f_mant a) (2 ^ (- f_exp a)).
Definition f_one : f32 := mkF32 1 0.

(** ** State *)

(** An event's type is the entry of [m_event_types] with its name, which never moves. *)
Record Event := mkEvent { time : Z; fifo_order : Z; userdata : Z; type : string }.

(** The comparison of events, by time and then by the order of scheduling. *)
Definition event_ltb (a b : Event) : bool :=
  (time a <? time b) || ((time a =? time b) && (fifo_order a <? fifo_order b)).

(** [m_event_fifo_id] is a 64-bit counter of the events ever scheduled and is
    not wrapped here. *)
Record CTState {W C : Type} := mkCT {
  global_timer : Z;
  slice_length : Z;
  last_OC_factor_inverted : f32;
  m_event_types : gmap string C;
  m_event_queue : list Event;
  m_event_fifo_id : Z;
  m_ts_queue : list Event;
  m_last_oc_factor : f32;
  m_idled_cycles : Z;
  m_is_global_timer_sane : bool;
  m_config_oc_factor : f32;
  m_config_oc_inv_factor : f32;
  downcount : Z;
  world : W
}.
Arguments CTState : clear implicits.

(** The rest of the emulator: what calling a callback does, and the check for
    external exceptions of the PowerPC. *)
Class Machine (W C : Type) := {
  callback : C -> Z -> Z -> M (CTState W C) unit;
  empty_callback : C;
  CheckExternalExceptions : W -> W
}.

Section CoreTiming.
Context {W C : Type} `{!Machine W C} `{!HeapOps event_ltb}.
#[local] Abbreviation CT := (CTState W C).

Definition set_clock (timer slice : Z) (s : CT) : CT :=
  mkCT W C timer slice (last_OC_factor_inverted s) (m_event_types s) (m_event_queue s) (m_event_fifo_id s)
    (m_ts_queue s) (m_last_oc_factor s) (m_idled_cycles s) (m_is_global_timer_sane s) (m_config_oc_factor s)
    (m_config_oc_inv_factor s) (downcount s) (world s).
Definition set_downcount (d : Z) (s : CT) : CT :=
  mkCT W C (global_timer s) (slice_length s) (last_OC_factor_inverted s) (m_event_types s) (m_event_queue s)
    (m_event_fifo_id s) (m_ts_queue s) (m_last_oc_factor s) (m_idled_cycles s) (m_is_global_timer_sane s)
    (m_config_oc_factor s) (m_config_oc_inv_factor s) d (world s).
Definition set_queue (q : list Event) (next : Z) (s : CT) : CT :=
  mkCT W C (global_timer s) (slice_length s) (last_OC_factor_inverted s) (m_event_types s) q next
    (m_ts_queue s) (m_last_oc_factor s) (m_idled_cycles s) (m_is_global_timer_sane s) (m_config_oc_factor s)
    (m_config_oc_inv_factor s) (downcount s) (world s).
Definition set_ts_queue (q : list Event) (s : CT) : CT :=
  mkCT W C (global_timer s) (slice_length s) (last_OC_factor_inverted s) (m_event_types s) (m_event_queue s)
    (m_event_fifo_id s) q (m_last_oc_factor s) (m_idled_cycles s) (m_is_global_timer_sane s)
    (m_config_oc_factor s) (m_config_oc_inv_factor s) (downcount s) (world s).
Definition set_types (t : gmap string C) (s : CT) : CT :=
  mkCT W C (global_timer s) (slice_length s) (last_OC_factor_inverted s) t (m_event_queue s) (m_event_fifo_id s)
    (m_ts_queue s) (m_last_oc_factor s) (m_idled_cycles s) (m_is_global_timer_sane s) (m_config_oc_factor s)
    (m_config_oc_inv_factor s) (downcount s) (world s).
Definition set_idled (n : Z) (s : CT) : CT :=
  mkCT W C (global_timer s) (slice_length s) (last_OC_factor_inverted s) (m_event_types s) (m_event_queue s)
    (m_event_fifo_id s) (m_ts_queue s) (m_last_oc_factor s) n (m_is_global_timer_sane s)
    (m_config_oc_factor s) (m_config_oc_inv_factor s) (downcount s) (world s).
Definition set_sane (b : bool) (s : CT) : CT :=
  mkCT W C (global_timer s) (slice_length s) (last_OC_factor_inverted s) (m_event_types s) (m_event_queue s)
    (m_event_fifo_id s) (m_ts_queue s) (m_last_oc_factor s) (m_idled_cycles s) b
    (m_config_oc_factor s) (m_config_oc_inv_factor s) (downcount s) (world s).
(** The factors in use become the configured ones. *)
Definition use_config_factors (s : CT) : CT :=
  mkCT W C (global_timer s) (slice_length s) (m_config_oc_inv_factor s) (m_event_types s) (m_event_queue s)
    (m_event_fifo_id s) (m_ts_queue s) (m_config_oc_factor s) (m_idled_cycles s) (m_is_global_timer_sane s)
    (m_config_oc_factor s) (m_config_oc_inv_factor s) (downcount s) (world s).
Definition set_config_factors (f inv : f32) (s : CT) : CT :=
  mkCT W C (global_timer s) (slice_length s) (last_OC_factor_inverted s) (m_event_types s) (m_event_queue s)
    (m_event_fifo_id s) (m_ts_queue s) (m_last_oc_factor s) (m_idled_cycles s) (m_is_global_timer_sane s)
    f inv (downcount s) (world s).
Definition set_world (w : W) (s : CT) : CT :=
  mkCT W C (global_timer s) (slice_length s) (last_OC_factor_inverted s) (m_event_types s) (m_event_queue s)
    (m_event_fifo_id s) (m_ts_queue s) (m_last_oc_factor s) (m_idled_cycles s) (m_is_global_timer_sane s)
    (m_config_oc_factor s) (m_config_oc_inv_factor s) (downcount s) w.

(** ** Operations *)

Definition DowncountToCycles (s : CT) (downcount : Z) : Z :=
  f_trunc (f_mul (f_of_int downcount) (last_OC_factor_inverted s)).
Definition CyclesToDowncount (s : CT) (cycles : Z) : Z :=
  f_trunc (f_mul (f_of_int cycles) (m_last_oc_factor s)).

(** [emplace] keeps the entry that is there. *)
Definition RegisterEvent (name : string) (cb : C) (s : CT) : CT :=
  match m_event_types s !! name with
  | Some _ => s
  | None => set_types (<[name := cb]> (m_event_types s)) s
  end.
Definition UnregisterAllEvents (s : CT) : CT := set_types ∅ s.
Definition ClearPendingEvents (s : CT) : CT := set_queue [] (m_event_fifo_id s) s.

(** The factor comes from the configuration. *)
Definition RefreshConfig (factor : f32) (s : CT) : CT :=
  set_config_factors factor (f_div f_one factor) s.

Definition Init (factor : f32) (s : CT) : CT :=
  let s := set_downcount (CyclesToDowncount s MAX_SLICE_LENGTH) s in
  let s := set_idled 0 (set_clock 0 MAX_SLICE_LENGTH s) in
  let s := set_queue (m_event_queue s) 0 (set_sane true s) in
  let s := RegisterEvent "_lost_event" empty_callback s in
  use_config_factors (RefreshConfig factor s).

Definition GetTicks (s : CT) : Z :=
  let ticks := u64 (global_timer s) in
  if negb (m_is_global_timer_sane s) then
    u64 (ticks + s32 (slice_length s - DowncountToCycles s (downcount s)))
  else ticks.
Definition GetIdleTicks (s : CT) : Z := u64 (m_idled_cycles s).

Definition ForceExceptionCheck (cycles : Z) (s : CT) : CT :=
  let cycles := Z.max 0 cycles in
  let left := DowncountToCycles s (downcount s) in
  if cycles <? left then
    set_downcount (CyclesToDowncount s (s32 cycles))
      (set_clock (global_timer s) (s32 (slice_length s - s32 (left - s32 cycles))) s)
  else s.

(** An event enters the queue. *)
Definition push_event (e : Event) (s : CT) : CT :=
  set_queue (push_heap (m_event_queue s ++ [e])) (m_event_fifo_id s + 1) s.

Definition ScheduleEvent (cycles_into_future : Z) (event_type : string) (data : Z) (from_cpu_thread : bool)
    (s : CT) : CT :=
  if from_cpu_thread then
    let timeout := s64 (GetTicks s + cycles_into_future) in
    let s := if negb (m_is_global_timer_sane s) then ForceExceptionCheck cycles_into_future s else s in
    push_event (mkEvent timeout (m_event_fifo_id s) data event_type) s
  else set_ts_queue (m_ts_queue s ++ [mkEvent cycles_into_future 0 data event_type]) s.

Definition RemoveEvent (event_type : string) (s : CT) : CT :=
  let kept := filter (fun e => type e <> event_type) (m_event_queue s) in
  let erased := (length (m_event_queue s) - length kept)%nat in
  set_queue (if negb (erased =? 0)%nat then make_heap kept else kept) (m_event_fifo_id s) s.

(** The events of the other threads, whose times are relative. *)
Fixpoint move_events (l : list Event) (s : CT) : CT :=
  match l with
  | [] => s
  | e :: l' =>
      move_events l' (push_event (mkEvent (s64 (time e + global_timer s)) (m_event_fifo_id s) (userdata e) (type e)) s)
  end.
Definition MoveEvents (s : CT) : CT := move_events (m_ts_queue s) (set_ts_queue [] s).
Definition RemoveAllEvents (event_type : string) (s : CT) : CT := RemoveEvent event_type (MoveEvents s).
Definition Shutdown (s : CT) : CT := UnregisterAllEvents (ClearPendingEvents (MoveEvents s)).

(** The callback of an event; a type that is not registered is a dangling pointer. *)
Definition run_callback (e : Event) : M CT unit := fun s =>
  match m_event_types s !! type e with
  | Some c => callback c (userdata e) (s64 (global_timer s - time e)) s
  | None => Fault NullPointer
  end.

(** The loop of [Advance]; the result lists the events it ran, for the theorems. *)
Fixpoint run_due (fuel : nat) : M CT (list Event) := fun s =>
  match m_event_queue s with
  | evt :: _ =>
      if time evt <=? global_timer s then
        match fuel with
        | O => Fault OutOfFuel
        | S fuel' =>
            (run_callback evt ;;; ran <- run_due fuel' ;; mret (evt :: ran))
              (set_queue (removelast (pop_heap (m_event_queue s))) (m_event_fifo_id s) s)
        end
      else mret [] s
  | [] => mret [] s
  end.

(** [Advance] up to the loop. *)
Definition end_slice (s : CT) : CT :=
  let s := MoveEvents s in
  let cyclesExecuted := s32 (slice_length s - DowncountToCycles s (downcount s)) in
  set_sane true (use_config_factors (set_clock (s64 (global_timer s + cyclesExecuted)) MAX_SLICE_LENGTH s)).
(** [Advance] after the loop. *)
Definition start_slice (s : CT) : CT :=
  let s := set_sane false s in
  let s := match m_event_queue s with
           | evt :: _ => set_clock (global_timer s) (s32 (Z.min (s64 (time evt - global_timer s)) MAX_SLICE_LENGTH)) s
           | [] => s
           end in
  let s := set_downcount (CyclesToDowncount s (slice_length s)) s in
  set_world (CheckExternalExceptions (world s)) s.
Definition Advance (fuel : nat) : M CT (list Event) :=
  mmodify end_slice ;;; ran <- run_due fuel ;; mmodify start_slice ;;; mret ran.

Definition Idle (s : CT) : CT :=
  set_downcount 0 (set_idled (s64 (m_idled_cycles s + DowncountToCycles s (downcount s))) s).

(** Only the times change, in place. *)
Definition AdjustEventQueueTimes (new_ppc_clock old_ppc_clock : Z) (s : CT) : CT :=
  let ticks := global_timer s in
  let adjust e :=
    let ev_ticks := Z.quot (s64 (s64 (time e - ticks) * new_ppc_clock)) old_ppc_clock in
    mkEvent (s64 (ticks + ev_ticks)) (fifo_order e) (userdata e) (type e) in
  set_queue (map adjust (m_event_queue s)) (m_event_fifo_id s) s.

(** The CPU executes instructions for [n] downcounts. *)
Definition run_cpu (n : Z) (s : CT) : CT := set_downcount (s32 (downcount s - n)) s.
End CoreTiming.
