(* ===== verification/CoreTimingSpec.v ===== *)
(** * The scheduler runs events in order and on time

    The queue is a heap of events with distinct ranks; [Advance] runs what is
    due in the order of time and of scheduling, ends the slice at the next event,
    and the emulated clock advances by exactly the cycles the CPU runs. *)
From Stdlib Require Import Sorted.
From S2P Require Export CoreTiming.

Definition is_s64 (z : Z) : Prop := -0x8000000000000000 <= z < 0x8000000000000000.
Lemma s64_range z : is_s64 (s64 z).
Proof. unfold is_s64, s64. Z.div_mod_to_equations; lia. Qed.
Lemma s64_id z : is_s64 z -> s64 z = z.
Proof. unfold is_s64, s64. intros. Z.div_mod_to_equations; lia. Qed.

Lemma u64_id z : is_u64 z -> u64 z = z.
Proof. intros. zlia. Qed.

(** ** The order of events *)

Definition ev_lt (a b : Event) : Prop := event_ltb a b = true.
Lemma ev_lt_spec a b : ev_lt a b <-> time a < time b \/ (time a = time b /\ fifo_order a < fifo_order b).
Proof.
  unfold ev_lt, event_ltb. rewrite orb_true_iff, andb_true_iff, Z.ltb_lt, Z.eqb_eq, Z.ltb_lt. done.
Qed.
#[export] Instance event_order : WeakOrder event_ltb.
Proof.
  split.
  - intros a b H. apply not_true_iff_false. intros H'. apply ev_lt_spec in H, H'. lia.
  - intros a b c H1 H2. apply not_true_iff_false in H1, H2. apply not_true_iff_false. intros H.
    change (ev_lt c a) in H. change (~ ev_lt b a) in H1. change (~ ev_lt c b) in H2. rewrite ev_lt_spec in *. lia.
Qed.
Lemma ev_lt_trans a b c : ev_lt a b -> ev_lt b c -> ev_lt a c.
Proof. rewrite !ev_lt_spec. lia. Qed.
(** Distinct ranks make the front of the queue strictly first. *)
Lemma ev_le_lt a b : Heap.le event_ltb a b -> fifo_order a <> fifo_order b -> ev_lt a b.
Proof.
  unfold Heap.le. intros H Hne. rewrite ev_lt_spec. apply not_true_iff_false in H.
  change (~ ev_lt b a) in H. rewrite ev_lt_spec in H. lia.
Qed.

(** ** The factor one *)

Lemma trunc_round_exact d j : Z.abs d < 2 ^ 24 -> 0 <= j -> f_trunc (f_round (d * 2 ^ j) (- j)) = d.
Proof.
  intros Hd Hj.
  assert (Ht : forall i, 0 <= i -> f_trunc (mkF32 (d * 2 ^ i) (- i)) = d).
  { intros i Hi. unfold f_trunc. cbn [f_exp f_mant]. pose proof (Z.pow_pos_nonneg 2 i ltac:(lia) Hi).
    destruct (Z.leb_spec 0 (- i)); [replace i with 0 by lia; simpl; lia|].
    rewrite Z.opp_involutive. apply Z.quot_mul. lia. }
  pose proof (Z.pow_pos_nonneg 2 j ltac:(lia) Hj) as Hp.
  unfold f_round. set (k := Z.log2 (Z.abs (d * 2 ^ j)) - 23). destruct (Z.leb_spec k 0) as [|Hk]; [by apply Ht|].
  assert (Hd0 : d <> 0) by (intros ->; unfold k in Hk; simpl in Hk; lia).
  assert (Ea : Z.abs (d * 2 ^ j) = Z.abs d * 2 ^ j) by (rewrite Z.abs_mul; lia).
  assert (Ek : k = Z.log2 (Z.abs d) + j - 23) by (unfold k; rewrite Ea, Z.log2_mul_pow2 by lia; lia).
  assert (Hl : Z.log2 (Z.abs d) < 24) by (apply Z.log2_lt_pow2; lia).
  assert (Em : Z.abs (d * 2 ^ j) = Z.abs d * 2 ^ (j - k) * 2 ^ k).
  { rewrite Ea, <- Z.mul_assoc, <- Z.pow_add_r by lia. do 2 f_equal. lia. }
  unfold round_even. cbv zeta. rewrite Em, Z.shiftr_div_pow2, Z.div_mul by (try apply Z.pow_nonzero; lia).
  rewrite (Z.shiftl_mul_pow2 _ k), Z.sub_diag, Z.shiftl_1_l by lia.
  pose proof (Z.pow_pos_nonneg 2 (k - 1) ltac:(lia) ltac:(lia)).
  rewrite (proj2 (Z.ltb_ge _ 0)), (proj2 (Z.eqb_neq 0 _)) by lia. cbn [orb andb].
  replace (Z.sgn (d * 2 ^ j) * (Z.abs d * 2 ^ (j - k))) with (d * 2 ^ (j - k)).
  - replace (- j + k) with (- (j - k)) by lia. apply Ht. lia.
  - rewrite Z.sgn_mul, (Z.sgn_pos (2 ^ j)) by lia. rewrite Z.mul_1_r, Z.mul_assoc, (Z.mul_comm (Z.sgn d)), Z.abs_sgn. done.
Qed.

Lemma f_of_int_small d : Z.abs d < 2 ^ 24 -> f_of_int d = mkF32 d 0.
Proof.
  intros Hd. unfold f_of_int, f_round. rewrite (proj2 (Z.leb_le _ 0)); [done|].
  destruct (Z.eq_dec d 0) as [->|]; [done|]. assert (Z.log2 (Z.abs d) < 24) by (apply Z.log2_lt_pow2; lia). lia.
Qed.
Definition f_one_inverse : f32 := mkF32 (2 ^ 23) (-23).
Lemma f_div_one : f_div f_one f_one = f_one_inverse.
Proof. vm_compute. reflexivity. Qed.
Lemma times_one d : Z.abs d < 2 ^ 24 -> f_trunc (f_mul (f_of_int d) f_one) = d.
Proof.
  intros Hd. rewrite f_of_int_small by done. unfold f_mul. cbn [f_mant f_exp f_one].
  exact (trunc_round_exact d 0 Hd (Z.le_refl 0)).
Qed.
Lemma times_one_inverse d : Z.abs d < 2 ^ 24 -> f_trunc (f_mul (f_of_int d) f_one_inverse) = d.
Proof.
  intros Hd. rewrite f_of_int_small by done. unfold f_mul. cbn [f_mant f_exp f_one_inverse].
  exact (trunc_round_exact d 23 Hd ltac:(lia)).
Qed.

(** ** The queue *)

Section Scheduler.
Context {W C : Type} `{!Machine W C} `{!HeapOps event_ltb}.
#[local] Abbreviation CT := (CTState W C).

Record queue_ok (s : CT) : Prop := {
  q_heap : is_heap event_ltb (m_event_queue s);
  q_fifo : Forall (fun e => fifo_order e < m_event_fifo_id s) (m_event_queue s);
  q_nodup : NoDup (fifo_order <$> m_event_queue s);
  q_time : Forall (fun e => is_s64 (time e)) (m_event_queue s)
}.

(** The conditions but the heap, for a permutation of the queue. *)
Lemma queue_ok_perm s q next : is_heap event_ltb q -> q ≡ₚ m_event_queue s -> m_event_fifo_id s <= next ->
  queue_ok s -> queue_ok (set_queue q next s).
Proof.
  intros Hh Hp Hn [_ Hf Hd Ht]. constructor; simpl; [done| | |].
  - rewrite Hp. eapply Forall_impl; [exact Hf|]. simpl. lia.
  - by rewrite Hp.
  - by rewrite Hp.
Qed.

Lemma push_event_ok e s : queue_ok s -> fifo_order e = m_event_fifo_id s -> is_s64 (time e) ->
  queue_ok (push_event e s) /\ m_event_queue (push_event e s) ≡ₚ e :: m_event_queue s.
Proof.
  intros [Hh Hf Hd Ht] He Hte. destruct (push_heap_ok event_ltb (m_event_queue s) e Hh) as [Hh' Hp].
  split; [|done]. constructor; simpl; [done|rewrite Hp..].
  - constructor; [lia|]. eapply Forall_impl; [exact Hf|]. simpl. lia.
  - rewrite fmap_cons. apply NoDup_cons_2; [|done]. intros (e' & E & Hin)%list_elem_of_fmap.
    rewrite Forall_forall in Hf. specialize (Hf e' Hin). simpl in Hf. lia.
  - by constructor.
Qed.

Lemma pop_ok e q s : queue_ok s -> m_event_queue s = e :: q ->
  let s' := set_queue (removelast (pop_heap (e :: q))) (m_event_fifo_id s) s in
  queue_ok s' /\ m_event_queue s' ≡ₚ q /\ forall e', e' ∈ q -> ev_lt e e'.
Proof.
  intros [Hh Hf Hd Ht] Eq s'. rewrite Eq in *. destruct (pop_heap_ok event_ltb e q Hh) as (l' & Ep & Hh' & Hp).
  assert (Hq : m_event_queue s' = l') by (unfold s'; simpl; by rewrite Ep, removelast_last).
  apply Forall_cons_1 in Hf as [_ Hf]. apply Forall_cons_1 in Ht as [_ Ht]. rewrite fmap_cons in Hd.
  apply NoDup_cons in Hd as [Hne Hd]. split; [|split].
  - constructor; rewrite Hq; [done|rewrite Hp..]; done.
  - by rewrite Hq.
  - intros e' Hin. pose proof (heap_front event_ltb e q Hh) as Hm. rewrite Forall_forall in Hm.
    apply ev_le_lt; [apply Hm; by right|]. intros E. apply Hne. apply list_elem_of_fmap. by exists e'.
Qed.

Lemma Forall_filter {A} (P Q : A -> Prop) `{!forall x, Decision (P x)} (l : list A) : Forall Q l -> Forall Q (filter P l).
Proof. rewrite !Forall_forall. intros HQ x [_ Hx]%list_elem_of_filter. by apply HQ. Qed.
Lemma filter_same_length {A} (P : A -> Prop) `{!forall x, Decision (P x)} (l : list A) :
  length l = length (filter P l) -> filter P l = l.
Proof.
  induction l as [|x l IH]; [done|]. rewrite filter_cons. case_decide; simpl; intros E; [f_equal; apply IH; lia|].
  pose proof (length_filter P l). lia.
Qed.

Lemma RemoveEvent_ok ty s : queue_ok s -> queue_ok (RemoveEvent ty s) /\
  m_event_queue (RemoveEvent ty s) ≡ₚ filter (fun e => type e <> ty) (m_event_queue s).
Proof.
  intros [Hh Hf Hd Ht]. unfold RemoveEvent. cbv zeta. set (kept := filter _ (m_event_queue s)).
  pose proof (length_filter (fun e => type e <> ty) (m_event_queue s)) as Hlen. fold kept in Hlen.
  match goal with |- queue_ok (set_queue ?q _ _) /\ _ => assert (Hq : is_heap event_ltb q /\ q ≡ₚ kept) end.
  { destruct (Nat.eqb_spec (length (m_event_queue s) - length kept) 0) as [E|]; simpl; [|apply make_heap_ok].
    split; [|done]. unfold kept. rewrite filter_same_length; [done|]. fold kept. lia. }
  destruct Hq as [Hq Hp]. split; [|exact Hp].
  assert (Hsub : sublist kept (m_event_queue s)) by apply sublist_filter.
  constructor; simpl; [done|rewrite Hp..].
  - by apply Forall_filter.
  - eapply sublist_NoDup; [exact Hd|by apply fmap_sublist].
  - by apply Forall_filter.
Qed.

Lemma move_events_ok l : forall s, queue_ok s ->
  queue_ok (move_events l s) /\ global_timer (move_events l s) = global_timer s /\
  m_event_fifo_id s <= m_event_fifo_id (move_events l s).
Proof.
  induction l as [|e l IH]; intros s Hs; cbn [move_events]; [done|].
  match goal with |- context [push_event ?e s] => destruct (push_event_ok e s Hs eq_refl (s64_range _)) as [Hs1 _] end.
  destruct (IH _ Hs1) as (H1 & H2 & H3). split; [done|]. split; [done|]. simpl in H3. lia.
Qed.

(** ** What a callback may do

    A callback may schedule and remove events, but it leaves the clock alone and
    does not schedule into the past. *)

Record follows (s s' : CT) : Prop := {
  f_queue : queue_ok s';
  f_timer : global_timer s' = global_timer s;
  f_sane : m_is_global_timer_sane s' = m_is_global_timer_sane s;
  f_slice : slice_length s' = slice_length s;
  f_factors : m_last_oc_factor s' = m_last_oc_factor s /\ last_OC_factor_inverted s' = last_OC_factor_inverted s /\
    m_config_oc_factor s' = m_config_oc_factor s /\ m_config_oc_inv_factor s' = m_config_oc_inv_factor s;
  f_next : m_event_fifo_id s <= m_event_fifo_id s';
  f_new : forall e, e ∈ m_event_queue s' ->
    e ∈ m_event_queue s \/ (m_event_fifo_id s <= fifo_order e /\ global_timer s <= time e)
}.

Lemma follows_refl s : queue_ok s -> follows s s.
Proof. intros Hs. constructor; try done. by left. Qed.
Lemma follows_trans s1 s2 s3 : follows s1 s2 -> follows s2 s3 -> follows s1 s3.
Proof.
  intros [_ Ht Hn Hl (Hf & Hg & Hc & Hd) Hi He] [Hq' Ht' Hn' Hl' (Hf' & Hg' & Hc' & Hd') Hi' He'].
  constructor; try congruence.
  - repeat split; congruence.
  - lia.
  - intros e Hin. destruct (He' e Hin) as [Hin'|[? ?]]; [by apply He|right; lia].
Qed.

Definition clock_range (t : Z) : Prop := 0 <= t < 2 ^ 62.

(** Inside a callback the clock is exact. *)
Lemma GetTicks_sane (s : CT) : m_is_global_timer_sane s = true -> clock_range (global_timer s) -> GetTicks s = global_timer s.
Proof. unfold GetTicks, clock_range. intros -> ?. simpl. apply u64_id. unfold is_u64. lia. Qed.

Lemma ScheduleEvent_follows cycles ty data s : queue_ok s -> m_is_global_timer_sane s = true ->
  clock_range (global_timer s) -> 0 <= cycles < 2 ^ 62 -> follows s (ScheduleEvent cycles ty data true s).
Proof.
  intros Hs Hn Ht Hc. unfold ScheduleEvent. rewrite Hn, GetTicks_sane by done. cbn [negb].
  assert (Et : s64 (global_timer s + cycles) = global_timer s + cycles)
    by (apply s64_id; unfold clock_range, is_s64 in *; lia).
  match goal with |- context [push_event ?e s] => destruct (push_event_ok e s Hs eq_refl (s64_range _)) as [Hs1 Hp] end.
  constructor; try done; [simpl; lia|].
  intros e He. rewrite Hp, Et in He. apply elem_of_cons in He as [->|He]; [right; simpl; lia|by left].
Qed.
Lemma ScheduleEvent_thread_follows cycles ty data s : queue_ok s -> follows s (ScheduleEvent cycles ty data false s).
Proof. intros [Hh Hf Hd Ht]. constructor; try done. by left. Qed.
Lemma RemoveEvent_follows ty s : queue_ok s -> follows s (RemoveEvent ty s).
Proof.
  intros Hs. destruct (RemoveEvent_ok ty s Hs) as [Hs' Hp]. constructor; try done.
  intros e He. rewrite Hp in He. apply list_elem_of_filter in He as [_ He]. by left.
Qed.

(** Scheduling keeps the heap, also into the past and outside callbacks. *)
Lemma ScheduleEvent_ok cycles ty data from s : queue_ok s -> queue_ok (ScheduleEvent cycles ty data from s).
Proof.
  intros Hs. destruct from; [|by destruct Hs; constructor]. unfold ScheduleEvent. cbv zeta.
  match goal with |- context [push_event ?e ?s1] =>
    assert (H1 : queue_ok s1 /\ m_event_fifo_id s1 = fifo_order e) end.
  { destruct (m_is_global_timer_sane s); cbn [negb]; [done|]. unfold ForceExceptionCheck. cbv zeta.
    destruct (_ <? _); [|done]. destruct Hs. by split. }
  destruct H1 as [H1 E]. by apply push_event_ok; [|symmetry|apply s64_range].
Qed.

Definition devices_ok : Prop := forall c data late s s', queue_ok s -> m_is_global_timer_sane s = true ->
  clock_range (global_timer s) -> callback c data late s = Done tt s' -> follows s s'.

(** ** The loop of [Advance] *)

Lemma pop_follows e q s : queue_ok s -> m_event_queue s = e :: q ->
  follows s (set_queue (removelast (pop_heap (e :: q))) (m_event_fifo_id s) s).
Proof.
  intros Hs Eq. destruct (pop_ok e q s Hs Eq) as (Hs' & Hp & _). constructor; try done.
  intros e' He. rewrite Hp in He. left. rewrite Eq. by right.
Qed.

(** What one turn of the loop leaves comes after the event it ran. *)
Lemma turn_after evt q (s s1 s2 : CT) : queue_ok s -> m_event_queue s = evt :: q -> time evt <= global_timer s ->
  s1 = set_queue (removelast (pop_heap (evt :: q))) (m_event_fifo_id s) s -> follows s1 s2 ->
  forall e, e ∈ m_event_queue s2 -> ev_lt evt e.
Proof.
  intros Hs Eq Hle -> Hf e He. destruct (pop_ok evt q s Hs Eq) as (_ & Hp & Hlt).
  destruct (f_new _ _ Hf e He) as [Hin|[Hi Ht]]; [rewrite Hp in Hin; by apply Hlt|].
  pose proof (q_fifo _ Hs) as Hq. rewrite Eq in Hq. apply Forall_cons_1 in Hq as [Hq _].
  simpl in Hi, Ht. apply ev_lt_spec. lia.
Qed.

Lemma run_due_spec (Hdev : devices_ok) fuel : forall s ran s', queue_ok s -> m_is_global_timer_sane s = true ->
  clock_range (global_timer s) -> run_due fuel s = Done ran s' ->
  follows s s' /\ StronglySorted ev_lt ran /\ Forall (fun e => time e <= global_timer s) ran /\
  (forall e, e ∈ m_event_queue s' -> global_timer s < time e) /\
  (forall b, time b <= global_timer s -> fifo_order b < m_event_fifo_id s ->
     (forall e, e ∈ m_event_queue s -> ev_lt b e) -> Forall (ev_lt b) ran) /\
  forall e, e ∈ ran -> e ∈ m_event_queue s \/ time e = global_timer s.
Proof.
  induction fuel as [|fuel IH]; intros s ran s' Hs Hn Ht E; cbn [run_due] in E;
    destruct (m_event_queue s) as [|evt q] eqn:Eq;
    try (injection E as <- <-; split; [by apply follows_refl|]; split; [constructor|]; split; [constructor|];
      split; [by rewrite Eq; intros e He%elem_of_nil|split; [constructor|by intros e He%elem_of_nil]]);
    (destruct (Z.leb_spec (time evt) (global_timer s)) as [Hle|Hgt];
      [|injection E as <- <-; split; [by apply follows_refl|]; split; [constructor|]; split; [constructor|];
        split; [intros e He; destruct Hs as [Hh _ _ _]; rewrite Eq in Hh, He;
                pose proof (heap_front event_ltb evt q Hh) as Hm; rewrite Forall_forall in Hm;
                specialize (Hm e He); apply not_true_iff_false in Hm; change (~ ev_lt e evt) in Hm;
                rewrite ev_lt_spec in Hm; lia
               |split; [constructor|by intros e He%elem_of_nil]]]); [done|].
  set (s1 := set_queue (removelast (pop_heap (evt :: q))) (m_event_fifo_id s) s) in *.
  pose proof (pop_follows evt q s Hs Eq) as Hf1. fold s1 in Hf1.
  apply mbind_inv in E as (u & s2 & E1 & E2). destruct u.
  apply mbind_inv in E2 as (rs & s3 & E2 & E3). injection E3 as <- <-.
  assert (Hf12 : follows s1 s2).
  { unfold run_callback in E1. destruct (m_event_types s1 !! type evt) as [c|]; [|done].
    eapply Hdev; [apply Hf1|done|done|exact E1]. }
  pose proof (follows_trans _ _ _ Hf1 Hf12) as Hf2.
  assert (Et : global_timer s2 = global_timer s) by apply Hf2.
  destruct (IH s2 rs s3 (f_queue _ _ Hf2)) as (Hf3 & Hso & Hti & Hq & Hb & Hor);
    [rewrite (f_sane _ _ Hf2); done|by rewrite Et|done|]. rewrite Et in *.
  assert (Hafter : forall e, e ∈ m_event_queue s2 -> ev_lt evt e) by (by eapply (turn_after evt q s s1 s2)).
  assert (Hid : fifo_order evt < m_event_fifo_id s).
  { pose proof (q_fifo _ Hs) as Hfi. rewrite Eq in Hfi. by apply Forall_cons_1 in Hfi as [? _]. }
  pose proof (f_next _ _ Hf2) as Hnx. assert (Hrs : Forall (ev_lt evt) rs) by (apply Hb; [lia|lia|done]).
  split; [by eapply follows_trans|]. split; [by constructor|]. split; [by constructor|]. split; [done|]. split.
  - intros b Hbt Hbf Hbq. assert (Hbe : ev_lt b evt) by (apply Hbq; rewrite ?Eq; by left).
    constructor; [done|]. eapply Forall_impl; [exact Hrs|]. intros e He. by eapply ev_lt_trans.
  - intros e He. apply elem_of_cons in He as [->|He]; [left; rewrite ?Eq; by left|].
    destruct (Hor e He) as [Hin|]; [|by right].
    destruct (f_new _ _ Hf2 e Hin) as [?|[_ Hge]]; [left; by rewrite <- Eq|right].
    rewrite Forall_forall in Hti. specialize (Hti e He). simpl in Hti. lia.
Qed.

(** ** The loop and the queue it works on

    What the loop does to the queue seen as a set of events, whatever the callbacks
    schedule: also into the past. *)

(** A callback leaves the clock and the heap in order. *)
Record steady (s s' : CT) : Prop := {
  st_queue : queue_ok s';
  st_timer : global_timer s' = global_timer s;
  st_sane : m_is_global_timer_sane s' = m_is_global_timer_sane s;
  st_slice : slice_length s' = slice_length s
}.
Definition devices_steady : Prop := forall c data late s s', queue_ok s -> m_is_global_timer_sane s = true ->
  clock_range (global_timer s) -> callback c data late s = Done tt s' -> steady s s'.
Lemma follows_steady s s' : follows s s' -> steady s s'.
Proof. by intros []. Qed.
Lemma devices_ok_steady : devices_ok -> devices_steady.
Proof. intros H c data late s s' ????. by eapply follows_steady, H. Qed.

(** The earliest event leaves the queue, alone, and its callback runs with how late it
    is, until no event in the queue is due. *)
Inductive runs_earliest (now : Z) : CT -> list Event -> CT -> Prop :=
  | NoneDue s : (forall e, e ∈ m_event_queue s -> now < time e) -> runs_earliest now s [] s
  | EarliestDue s evt q q' c s2 ran s' :
      m_event_queue s ≡ₚ evt :: q -> (forall e, e ∈ q -> ev_lt evt e) -> time evt <= now -> q' ≡ₚ q ->
      m_event_types s !! type evt = Some c ->
      callback c (userdata evt) (s64 (now - time evt)) (set_queue q' (m_event_fifo_id s) s) = Done tt s2 ->
      runs_earliest now s2 ran s' -> runs_earliest now s (evt :: ran) s'.

Lemma front_first evt q s e : queue_ok s -> m_event_queue s = evt :: q -> e ∈ m_event_queue s -> time evt <= time e.
Proof.
  intros [Hh _ _ _] Eq He. rewrite Eq in Hh, He. pose proof (heap_front event_ltb evt q Hh) as Hm.
  rewrite Forall_forall in Hm. specialize (Hm e He). apply not_true_iff_false in Hm. change (~ ev_lt e evt) in Hm.
  rewrite ev_lt_spec in Hm. lia.
Qed.

Lemma run_due_earliest (Hdev : devices_steady) fuel : forall s ran s', queue_ok s -> m_is_global_timer_sane s = true ->
  clock_range (global_timer s) -> run_due fuel s = Done ran s' ->
  runs_earliest (global_timer s) s ran s' /\ steady s s' /\ (forall e, e ∈ m_event_queue s' -> global_timer s < time e).
Proof.
  assert (Hend : forall s ran s', queue_ok s -> (forall e, e ∈ m_event_queue s -> global_timer s < time e) ->
    Done (S := CT) (@nil Event) s = Done ran s' ->
    runs_earliest (global_timer s) s ran s' /\ steady s s' /\ (forall e, e ∈ m_event_queue s' -> global_timer s < time e)).
  { intros s ran s' Hs Hq [= <- <-]. split; [by constructor|]. by split. }
  induction fuel as [|fuel IH]; intros s ran s' Hs Hn Ht E; cbn [run_due] in E;
    (destruct (m_event_queue s) as [|evt q] eqn:Eq; [apply Hend; [done|rewrite Eq; by intros e He%elem_of_nil|done]|]);
    (destruct (Z.leb_spec (time evt) (global_timer s)) as [Hle|Hgt];
      [|apply Hend; [done|intros e He; pose proof (front_first evt q s e Hs Eq He); lia|done]]); [done|].
  apply mbind_inv in E as (u & s2 & E1 & E2). destruct u. apply mbind_inv in E2 as (rs & s3 & E2 & E3). injection E3 as <- <-.
  unfold run_callback in E1. cbn [m_event_types set_queue] in E1. destruct (m_event_types s !! type evt) as [c|] eqn:Ec; [|done].
  destruct (pop_ok evt q s Hs Eq) as (Hs1 & Hp & Hlt).
  destruct (Hdev _ _ _ _ _ Hs1 Hn Ht E1) as [Hs2 Et2 En2 El2]. simpl in Et2, En2, El2.
  destruct (IH s2 rs s3 Hs2) as (Hr & [Hs3 Et3 En3 El3] & Hq3); [by rewrite En2|by rewrite Et2|done|]. rewrite Et2 in *.
  split; [|split; [constructor; congruence|done]]. econstructor; [by rewrite Eq|exact Hlt|done|exact Hp|exact Ec|exact E1|exact Hr].
Qed.

(** The events of other threads, as they join the queue. *)
Fixpoint joined (now next : Z) (l : list Event) : list Event :=
  match l with
  | [] => []
  | e :: l' => mkEvent (s64 (time e + now)) next (userdata e) (type e) :: joined now (next + 1) l'
  end.
Lemma move_events_queue l : forall s, queue_ok s ->
  m_event_queue (move_events l s) ≡ₚ m_event_queue s ++ joined (global_timer s) (m_event_fifo_id s) l.
Proof.
  induction l as [|e l IH]; intros s Hs; cbn [move_events joined]; [by rewrite app_nil_r|].
  match goal with |- context [push_event ?e s] => destruct (push_event_ok e s Hs eq_refl (s64_range _)) as [Hs1 Hp] end.
  rewrite IH by done. rewrite Hp. by rewrite <- Permutation_middle.
Qed.

(** ** The two ends of a slice *)

Lemma move_events_same l : forall (s : CT),
  let s' := move_events l s in
  global_timer s' = global_timer s /\ slice_length s' = slice_length s /\ downcount s' = downcount s /\
  m_last_oc_factor s' = m_last_oc_factor s /\ last_OC_factor_inverted s' = last_OC_factor_inverted s /\
  m_config_oc_factor s' = m_config_oc_factor s /\ m_config_oc_inv_factor s' = m_config_oc_inv_factor s /\
  m_event_types s' = m_event_types s /\ m_is_global_timer_sane s' = m_is_global_timer_sane s /\
  m_ts_queue s' = m_ts_queue s.
Proof. induction l as [|e l IH]; intros s; [done|]. exact (IH (push_event _ s)). Qed.

Lemma MoveEvents_ok s : queue_ok s -> queue_ok (MoveEvents s).
Proof. intros [Hh Hf Hd Ht]. by apply move_events_ok. Qed.
Lemma MoveEvents_none (s : CT) : m_ts_queue s = [] -> m_event_queue (MoveEvents s) = m_event_queue s.
Proof. unfold MoveEvents. by intros ->. Qed.

Lemma end_slice_ok s : queue_ok s -> queue_ok (end_slice s) /\ m_is_global_timer_sane (end_slice s) = true /\
  slice_length (end_slice s) = MAX_SLICE_LENGTH /\
  global_timer (end_slice s) = s64 (global_timer s + s32 (slice_length s - DowncountToCycles s (downcount s))) /\
  m_event_queue (end_slice s) = m_event_queue (MoveEvents s) /\ m_event_types (end_slice s) = m_event_types s.
Proof.
  intros Hs. pose proof (MoveEvents_ok s Hs) as [Hh Hf Hd Ht].
  destruct (move_events_same (m_ts_queue s) (set_ts_queue [] s)) as (E1 & E2 & E3 & E4 & E5 & E6 & E7 & E8 & E9 & E10).
  split; [by constructor|]. split; [done|]. split; [done|]. split; [|done].
  unfold end_slice. cbn [global_timer set_sane use_config_factors set_clock]. unfold DowncountToCycles, MoveEvents.
  by rewrite E1, E2, E3, E5.
Qed.

Lemma end_slice_queue s : queue_ok s ->
  m_event_queue (end_slice s) ≡ₚ m_event_queue s ++ joined (global_timer s) (m_event_fifo_id s) (m_ts_queue s).
Proof. intros [Hh Hf Hd Ht]. exact (move_events_queue (m_ts_queue s) (set_ts_queue [] s) ltac:(by constructor)). Qed.

Record slice_ok (s : CT) : Prop := {
  sl_sane : m_is_global_timer_sane s = false;
  sl_range : 0 < slice_length s <= MAX_SLICE_LENGTH;
  sl_next : forall e, e ∈ m_event_queue s -> global_timer s + slice_length s <= time e
}.

Lemma start_slice_ok s : queue_ok s -> clock_range (global_timer s) -> slice_length s = MAX_SLICE_LENGTH ->
  (forall e, e ∈ m_event_queue s -> global_timer s < time e) ->
  let s' := start_slice s in
  queue_ok s' /\ slice_ok s' /\ global_timer s' = global_timer s /\ m_event_queue s' = m_event_queue s /\
  downcount s' = CyclesToDowncount s (slice_length s') /\ m_event_fifo_id s' = m_event_fifo_id s /\
  m_last_oc_factor s' = m_last_oc_factor s /\ last_OC_factor_inverted s' = last_OC_factor_inverted s /\
  m_config_oc_factor s' = m_config_oc_factor s /\ m_config_oc_inv_factor s' = m_config_oc_inv_factor s /\
  m_ts_queue s' = m_ts_queue s.
Proof.
  intros [Hh Hf Hd Ht] Hc Hsl Hq s'. unfold s', start_slice. cbv zeta. cbn [m_event_queue set_sane].
  destruct (m_event_queue s) as [|evt q] eqn:Eq.
  - split; [constructor; simpl; rewrite Eq; done|]. split; [|simpl; rewrite ?Eq; done].
    constructor; simpl; [done|rewrite Hsl; done|]. rewrite Eq. by intros e He%elem_of_nil.
  - assert (Hlt : global_timer s < time evt) by (apply Hq; by left).
    assert (Hr : is_s64 (time evt)) by (by apply Forall_cons_1 in Ht as [? _]).
    assert (Es : s32 (Z.min (s64 (time evt - global_timer s)) MAX_SLICE_LENGTH) =
      Z.min (time evt - global_timer s) MAX_SLICE_LENGTH).
    { rewrite s64_id by (unfold is_s64, clock_range in *; lia). apply s32_id. unfold is_s32, MAX_SLICE_LENGTH. lia. }
    cbn [global_timer set_sane]. rewrite Es. split; [constructor; simpl; rewrite ?Eq; done|].
    split; [|simpl; rewrite ?Eq; done]. constructor; simpl; [done|unfold MAX_SLICE_LENGTH; lia|]. rewrite Eq.
    intros e He. pose proof (heap_front event_ltb evt q Hh) as Hm. rewrite Forall_forall in Hm. specialize (Hm e He).
    apply not_true_iff_false in Hm. change (~ ev_lt e evt) in Hm. rewrite ev_lt_spec in Hm. lia.
Qed.

(** ** Callbacks that always return

    They only schedule, and strictly into the future: then [Advance] ends, and
    it runs exactly what is due. *)

Definition due (now : Z) (e : Event) : Prop := time e <= now.
#[export] Instance due_dec now e : Decision (due now e) := decide (time e <= now).
Definition types_known (s : CT) : Prop := Forall (fun e => is_Some (m_event_types s !! type e)) (m_event_queue s).

Definition only_schedules (s s' : CT) : Prop :=
  m_event_types s ⊆ m_event_types s' /\
  exists new, m_event_queue s' ≡ₚ new ++ m_event_queue s /\
    Forall (fun e => global_timer s < time e /\ is_Some (m_event_types s' !! type e)) new.

Definition devices_return : Prop := forall c data late s, queue_ok s -> m_is_global_timer_sane s = true ->
  clock_range (global_timer s) -> exists s', callback c data late s = Done tt s' /\ only_schedules s s'.

Lemma types_known_sub s s' : only_schedules s s' -> types_known s -> types_known s'.
Proof.
  intros (Hsub & new & Hp & Hn) Hk. unfold types_known. rewrite Hp. apply Forall_app; split.
  - eapply Forall_impl; [exact Hn|]. by intros e [_ ?].
  - eapply Forall_impl; [exact Hk|]. simpl. intros e [c Hc]. exists c. by eapply lookup_weaken.
Qed.

Lemma filter_due_new now new : Forall (fun e => now < time e) new -> filter (due now) new = [].
Proof.
  induction 1 as [|e l He _ IH]; [done|]. rewrite filter_cons. case_decide as Hd; [unfold due in Hd; lia|done].
Qed.

Lemma run_due_ends (Hdev : devices_ok) (Hret : devices_return) n : forall s fuel, queue_ok s ->
  m_is_global_timer_sane s = true -> clock_range (global_timer s) -> types_known s ->
  length (filter (due (global_timer s)) (m_event_queue s)) = n -> (n <= fuel)%nat ->
  exists ran s', run_due fuel s = Done ran s' /\ ran ≡ₚ filter (due (global_timer s)) (m_event_queue s).
Proof.
  induction n as [|n IH]; intros s fuel Hs Hn Ht Hk Hl Hf; destruct (m_event_queue s) as [|evt q] eqn:Eq.
  - exists [], s. destruct fuel; cbn [run_due]; by rewrite Eq.
  - rewrite filter_cons in Hl |- *. case_decide as Hd; [done|]. apply nil_length_inv in Hl. rewrite Hl.
    unfold due in Hd. exists [], s. destruct fuel; cbn [run_due]; rewrite Eq; (destruct (Z.leb_spec (time evt) (global_timer s)); [lia|done]).
  - done.
  - destruct fuel as [|fuel]; [lia|].
    assert (Hd : time evt <= global_timer s).
    { destruct (Z.le_gt_cases (time evt) (global_timer s)) as [|Hgt]; [done|]. exfalso.
      rewrite filter_due_new in Hl; [done|]. destruct Hs as [Hh _ _ _]. rewrite Eq in Hh.
      eapply Forall_impl; [exact (heap_front event_ltb evt q Hh)|]. intros e Hm.
      apply not_true_iff_false in Hm. change (~ ev_lt e evt) in Hm. rewrite ev_lt_spec in Hm. simpl. lia. }
    rewrite filter_cons, decide_True in Hl |- * by done. cbn [run_due]. rewrite Eq.
    rewrite (proj2 (Z.leb_le _ _) Hd). set (s1 := set_queue (removelast (pop_heap (evt :: q))) (m_event_fifo_id s) s).
    pose proof (pop_follows evt q s Hs Eq) as Hf1. destruct (pop_ok evt q s Hs Eq) as (Hs1 & Hp & _). fold s1 in Hf1, Hs1, Hp.
    unfold types_known in Hk. rewrite Eq in Hk. apply Forall_cons_1 in Hk as [[c Hc] Hk].
    destruct (Hret c (userdata evt) (s64 (global_timer s - time evt)) s1 Hs1 Hn Ht) as (s2 & E2 & Hsch).
    pose proof (Hdev _ _ _ _ _ Hs1 Hn Ht E2) as Hf2.
    assert (Hk1 : types_known s1) by (unfold types_known; rewrite Hp; exact Hk).
    pose proof (types_known_sub _ _ Hsch Hk1) as Hk2. destruct Hsch as (_ & new & Hnew & Hfut).
    assert (Et : global_timer s2 = global_timer s) by (rewrite (f_timer _ _ Hf2); done).
    assert (Hq2 : filter (due (global_timer s)) (m_event_queue s2) ≡ₚ filter (due (global_timer s)) q).
    { rewrite Hnew, filter_app, filter_due_new, Hp; [done|]. eapply Forall_impl; [exact Hfut|]. by intros e [? _]. }
    destruct (IH s2 fuel (f_queue _ _ Hf2)) as (ran & s3 & E3 & Hran);
      [rewrite (f_sane _ _ Hf2); done|by rewrite Et|done|rewrite Et, Hq2; simpl in Hl; lia|lia|].
    exists (evt :: ran), s3. unfold mbind. unfold run_callback. change (m_event_types s1) with (m_event_types s).
    rewrite Hc. change (global_timer s1) with (global_timer s). rewrite E2, E3. split; [done|].
    by rewrite Hran, Et, Hq2.
Qed.

(** ** The clock without overclocking *)

Record no_overclock (s : CT) : Prop := {
  o_last : m_last_oc_factor s = f_one;
  o_inv : last_OC_factor_inverted s = f_one_inverse;
  o_config : m_config_oc_factor s = f_one;
  o_config_inv : m_config_oc_inv_factor s = f_one_inverse
}.
Lemma DowncountToCycles_one s d : no_overclock s -> Z.abs d < 2 ^ 24 -> DowncountToCycles s d = d.
Proof. intros [_ H _ _] Hd. unfold DowncountToCycles. rewrite H. by apply times_one_inverse. Qed.
Lemma CyclesToDowncount_one s d : no_overclock s -> Z.abs d < 2 ^ 24 -> CyclesToDowncount s d = d.
Proof. intros [H _ _ _] Hd. unfold CyclesToDowncount. rewrite H. by apply times_one. Qed.

Lemma RegisterEvent_follows name c s : queue_ok s -> follows s (RegisterEvent name c s).
Proof.
  intros Hs. unfold RegisterEvent. destruct (m_event_types s !! name); [by apply follows_refl|].
  destruct Hs as [? ? ? ?]. constructor; try done. by left.
Qed.
Lemma RegisterEvent_types name c (s : CT) : let s' := RegisterEvent name c s in
  m_event_types s ⊆ m_event_types s' /\ is_Some (m_event_types s' !! name) /\
  m_event_queue s' = m_event_queue s /\ m_ts_queue s' = m_ts_queue s.
Proof.
  unfold RegisterEvent. destruct (m_event_types s !! name) eqn:E; simpl; [by split; [|split; [eexists|]]|].
  split; [by apply insert_subseteq|]. by rewrite lookup_insert_eq.
Qed.

(** ** Runs of the machine

    The CPU runs, registers, schedules and removes events, asks for an early check,
    skips to the end of the slice and advances; with [threads] other threads schedule
    as well.  [k] bounds by how many cycles the CPU overruns its slice.  A step yields
    the cycles that pass and the events it ran, each with how late it was. *)

Inductive ct_step (threads : bool) (k : Z) : CT -> Z -> list (Event * Z) -> CT -> Prop :=
  | StepRun s n : 0 <= n -> - k <= downcount s - n -> GetTicks s + n < 2 ^ 61 -> ct_step threads k s n [] (run_cpu n s)
  | StepSchedule s cycles ty data : 0 <= cycles < 2 ^ 61 -> ct_step threads k s 0 [] (ScheduleEvent cycles ty data true s)
  | StepThread s cycles ty data : threads = true -> 0 <= cycles < 2 ^ 61 -> ct_step threads k s 0 [] (ScheduleEvent cycles ty data false s)
  | StepRegister s name c : ct_step threads k s 0 [] (RegisterEvent name c s)
  | StepForce s cycles : ct_step threads k s 0 [] (ForceExceptionCheck cycles s)
  | StepRemove s ty : ct_step threads k s 0 [] (RemoveEvent ty s)
  | StepIdle s : 0 <= downcount s -> GetTicks s + downcount s < 2 ^ 61 -> ct_step threads k s (downcount s) [] (Idle s)
  | StepAdvance s fuel ran s' : Advance fuel s = Done ran s' ->
      ct_step threads k s 0 (map (fun e => (e, global_timer s' - time e)) ran) s'.

Inductive ct_run (threads : bool) (k : Z) : CT -> Z -> list (Event * Z) -> CT -> Prop :=
  | RunNil s : ct_run threads k s 0 [] s
  | RunStep s n ran s' m rest s'' :
      ct_step threads k s n ran s' -> ct_run threads k s' m rest s'' -> ct_run threads k s (n + m) (ran ++ rest) s''.

Record on_time (threads : bool) (k : Z) (s : CT) : Prop := {
  t_queue : queue_ok s;
  t_sane : m_is_global_timer_sane s = false;
  t_slice : slice_length s <= MAX_SLICE_LENGTH;
  t_downcount : - k <= downcount s <= slice_length s;
  t_next : forall e, e ∈ m_event_queue s -> global_timer s + slice_length s <= time e;
  t_clock : 0 <= global_timer s /\ global_timer s + slice_length s - downcount s < 2 ^ 61;
  t_threads : if threads then Forall (fun e => 0 <= time e < 2 ^ 61) (m_ts_queue s) else m_ts_queue s = [];
  t_factors : no_overclock s
}.

(** How late an event can be: one of another thread that is scheduled during a slice
    is due that many cycles after the start of the slice. *)
Definition lateness (threads : bool) (k : Z) : Z := k + if threads then MAX_SLICE_LENGTH else 0.

Definition devices_quiet : Prop := forall c data late s s',
  callback c data late s = Done tt s' -> m_ts_queue s' = m_ts_queue s.

(** An event of another thread is due no earlier than the slice starts. *)
Lemma joined_later l now : forall next, Forall (fun e => 0 <= time e < 2 ^ 61) l -> 0 <= now < 2 ^ 62 ->
  forall e, e ∈ joined now next l -> now <= time e.
Proof.
  induction l as [|x l IH]; intros next Hl Hn e He; [by apply elem_of_nil in He|].
  apply Forall_cons_1 in Hl as [Hx Hl]. cbn [joined] in He. apply elem_of_cons in He as [->|He]; [|by eapply IH].
  simpl. rewrite s64_id by (unfold is_s64; lia). lia.
Qed.

Section Runs.
Variable threads : bool.
Variable k : Z.
Hypothesis k_range : 0 <= k < 2 ^ 23.

Lemma on_time_cycles s : on_time threads k s -> DowncountToCycles s (downcount s) = downcount s.
Proof.
  intros H. apply DowncountToCycles_one; [apply H|]. pose proof (t_downcount _ _ _ H). pose proof (t_slice _ _ _ H). unfold MAX_SLICE_LENGTH in *. lia.
Qed.
Lemma on_time_ticks s : on_time threads k s -> GetTicks s = global_timer s + slice_length s - downcount s.
Proof.
  intros H. unfold GetTicks. rewrite (t_sane _ _ _ H), on_time_cycles by done. cbn [negb].
  pose proof (t_downcount _ _ _ H). pose proof (t_slice _ _ _ H). pose proof (t_clock _ _ _ H). unfold MAX_SLICE_LENGTH in *.
  rewrite (u64_id (global_timer s)) by (unfold is_u64; lia).
  rewrite s32_id by (unfold is_s32; lia). rewrite u64_id by (unfold is_u64; lia). lia.
Qed.

Lemma ForceExceptionCheck_on_time cycles s : on_time threads k s -> 0 <= cycles ->
  let s' := ForceExceptionCheck cycles s in
  on_time threads k s' /\ global_timer s' = global_timer s /\ slice_length s' - downcount s' = slice_length s - downcount s /\
  slice_length s' - downcount s' + global_timer s' + Z.min cycles (downcount s) = global_timer s' + slice_length s' /\
  m_event_queue s' = m_event_queue s /\ m_event_fifo_id s' = m_event_fifo_id s.
Proof.
  intros H Hc s'. unfold s', ForceExceptionCheck. cbv zeta. rewrite on_time_cycles by done. rewrite Z.max_r by done.
  pose proof (t_downcount _ _ _ H). pose proof (t_slice _ _ _ H). pose proof (t_clock _ _ _ H). unfold MAX_SLICE_LENGTH in *.
  destruct (Z.ltb_spec cycles (downcount s)) as [Hlt|Hge]; [|do 3 (split; [done|]); split; [lia|done]].
  rewrite (s32_id cycles), CyclesToDowncount_one by (unfold is_s32; try apply H; lia).
  rewrite (s32_id (downcount s - cycles)), (s32_id (slice_length s - _)) by (unfold is_s32; lia).
  split; [|simpl; split; [done|split; [lia|split; [lia|done]]]].
  destruct H as [[Hh Hf Hd Ht] ? ? ? Hn ? ? [? ? ? ?]]. constructor; simpl; try done; try constructor; simpl; try done; try lia.
  intros e He. specialize (Hn e He). lia.
Qed.

Lemma ScheduleEvent_on_time cycles ty data s : on_time threads k s -> 0 <= cycles < 2 ^ 61 ->
  let s' := ScheduleEvent cycles ty data true s in on_time threads k s' /\ GetTicks s' = GetTicks s.
Proof.
  intros H Hc s'. destruct (ForceExceptionCheck_on_time cycles s H ltac:(lia)) as (H1 & Et & Ed & Eb & Eq & Ef).
  pose proof (on_time_ticks _ H1) as Eg1. pose proof (on_time_ticks _ H) as Eg.
  set (s1 := ForceExceptionCheck cycles s) in *.
  assert (Es : s' = push_event (mkEvent (GetTicks s + cycles) (m_event_fifo_id s) data ty) s1).
  { unfold s', ScheduleEvent. rewrite (t_sane _ _ _ H). cbn [negb]. fold s1. rewrite s64_id; [by rewrite Ef|].
    pose proof (t_clock _ _ _ H). pose proof (t_downcount _ _ _ H). unfold is_s64. lia. }
  pose proof (t_clock _ _ _ H) as Hcl. pose proof (t_downcount _ _ _ H) as Hdc.
  destruct (push_event_ok (mkEvent (GetTicks s + cycles) (m_event_fifo_id s) data ty) s1 (t_queue _ _ _ H1)) as [Hq Hp];
    [simpl; congruence|unfold is_s64; simpl; lia|]. rewrite <- Es in Hq, Hp.
  assert (H' : on_time threads k s').
  { destruct H1 as [_ ? ? ? Hn ? ? [? ? ? ?]]. constructor;
      [done|by rewrite Es|by rewrite Es|by rewrite Es| |by rewrite Es|by rewrite Es|by constructor; rewrite Es].
    intros e He. rewrite Hp in He. replace (global_timer s' + slice_length s') with (global_timer s1 + slice_length s1) by (by rewrite Es).
    apply elem_of_cons in He as [->|He]; [cbn [time]; lia|by apply Hn]. }
  split; [done|]. rewrite (on_time_ticks _ H'), Eg, Es. simpl. lia.
Qed.

Lemma thread_on_time cycles ty data s : threads = true -> on_time threads k s -> 0 <= cycles < 2 ^ 61 ->
  let s' := ScheduleEvent cycles ty data false s in on_time threads k s' /\ GetTicks s' = GetTicks s.
Proof.
  intros Eth [[? ? ? ?] ? ? ? ? ? Hth [? ? ? ?]] Hc s'. split; [|done]. constructor; try done.
  rewrite Eth in *. apply Forall_app. split; [exact Hth|]. by constructor.
Qed.
Lemma RegisterEvent_on_time name c s : on_time threads k s ->
  on_time threads k (RegisterEvent name c s) /\ GetTicks (RegisterEvent name c s) = GetTicks s.
Proof.
  intros H. unfold RegisterEvent. destruct (m_event_types s !! name); [done|].
  destruct H as [[? ? ? ?] ? ? ? ? ? ? [? ? ? ?]]. split; [|done]. by constructor.
Qed.
Lemma force_on_time cycles s : on_time threads k s ->
  on_time threads k (ForceExceptionCheck cycles s) /\ GetTicks (ForceExceptionCheck cycles s) = GetTicks s.
Proof.
  intros H. replace (ForceExceptionCheck cycles s) with (ForceExceptionCheck (Z.max 0 cycles) s)
    by (unfold ForceExceptionCheck; by rewrite Z.max_r by lia).
  destruct (ForceExceptionCheck_on_time (Z.max 0 cycles) s H ltac:(lia)) as (H1 & Et & Ed & _).
  split; [done|]. rewrite (on_time_ticks _ H1), (on_time_ticks _ H). lia.
Qed.

Lemma RemoveEvent_on_time ty s : on_time threads k s -> on_time threads k (RemoveEvent ty s).
Proof.
  intros H. destruct (RemoveEvent_ok ty s (t_queue _ _ _ H)) as [Hq Hp].
  destruct H as [_ ? ? ? Hn ? ? [? ? ? ?]]. constructor; try done. intros e He. rewrite Hp in He.
  apply list_elem_of_filter in He as [_ He]. by apply Hn.
Qed.

Lemma run_cpu_on_time n s : on_time threads k s -> 0 <= n -> - k <= downcount s - n -> GetTicks s + n < 2 ^ 61 ->
  on_time threads k (run_cpu n s) /\ GetTicks (run_cpu n s) = GetTicks s + n.
Proof.
  intros H Hn Hk Hc. rewrite (on_time_ticks _ H) in *.
  pose proof (t_downcount _ _ _ H) as Hd. pose proof (t_slice _ _ _ H) as Hs. unfold MAX_SLICE_LENGTH in Hs.
  assert (Ed : s32 (downcount s - n) = downcount s - n) by (apply s32_id; unfold is_s32; lia).
  assert (H' : on_time threads k (run_cpu n s)).
  { unfold run_cpu. rewrite Ed. destruct H as [[? ? ? ?] ? ? ? Hx ? ? [? ? ? ?]]. constructor; simpl; try done; lia. }
  split; [done|]. rewrite (on_time_ticks _ H'). unfold run_cpu. rewrite Ed. simpl. lia.
Qed.

Lemma Idle_on_time s : on_time threads k s -> 0 <= downcount s -> GetTicks s + downcount s < 2 ^ 61 ->
  on_time threads k (Idle s) /\ GetTicks (Idle s) = GetTicks s + downcount s.
Proof.
  intros H Hn Hc. rewrite (on_time_ticks _ H) in *.
  pose proof (t_downcount _ _ _ H) as Hd. pose proof (t_slice _ _ _ H) as Hs.
  assert (H' : on_time threads k (Idle s)).
  { destruct H as [[? ? ? ?] ? ? ? Hx ? ? [? ? ? ?]]. constructor; simpl; try done; lia. }
  split; [done|]. rewrite (on_time_ticks _ H'). simpl. lia.
Qed.

Lemma run_due_quiet (Hq : devices_quiet) fuel : forall s ran s', run_due fuel s = Done ran s' -> m_ts_queue s' = m_ts_queue s.
Proof.
  induction fuel as [|fuel IH]; intros s ran s' E; cbn [run_due] in E;
    (destruct (m_event_queue s) as [|evt q] eqn:Eq; [by injection E as _ <-|]);
    (destruct (time evt <=? global_timer s); [|by injection E as _ <-]); [done|].
  apply mbind_inv in E as (u & s2 & E1 & E2). destruct u. apply mbind_inv in E2 as (rs & s3 & E2 & E3). injection E3 as _ <-.
  rewrite (IH _ _ _ E2). unfold run_callback in E1. destruct (_ !! type evt); [|done]. by rewrite (Hq _ _ _ _ _ E1).
Qed.

Lemma Advance_inv fuel s ran s' : Advance fuel s = Done ran s' ->
  exists s2, run_due fuel (end_slice s) = Done ran s2 /\ s' = start_slice s2.
Proof.
  unfold Advance. intros E. apply mbind_inv in E as (u & s1 & E1 & E2). injection E1 as _ <-.
  apply mbind_inv in E2 as (r & s2 & E2 & E3). exists s2. apply mbind_inv in E3 as (u' & s3 & E3 & E4).
  injection E3 as _ <-. injection E4 as <- <-. done.
Qed.

Lemma Advance_on_time (Hdev : devices_ok) (Hquiet : devices_quiet) fuel s ran s' : on_time threads k s -> Advance fuel s = Done ran s' ->
  on_time threads k s' /\ GetTicks s' = GetTicks s /\ global_timer s' = GetTicks s /\
  Forall (fun e => 0 <= global_timer s' - time e <= lateness threads k) ran.
Proof.
  intros H E. apply Advance_inv in E as (s2 & E & ->). pose proof (on_time_ticks _ H) as Eg.
  pose proof (t_downcount _ _ _ H) as Hd. pose proof (t_slice _ _ _ H) as Hs. pose proof (t_clock _ _ _ H) as Hcl. unfold MAX_SLICE_LENGTH in Hs.
  destruct (end_slice_ok s (t_queue _ _ _ H)) as (Hq1 & Hn1 & Hl1 & Et1 & Em1 & _).
  assert (Et : global_timer (end_slice s) = GetTicks s).
  { rewrite Et1, on_time_cycles by done. rewrite s32_id by (unfold is_s32; lia). rewrite s64_id by (unfold is_s64; lia). lia. }
  assert (Hc1 : clock_range (global_timer (end_slice s))) by (unfold clock_range; lia).
  destruct (run_due_spec Hdev fuel _ _ _ Hq1 Hn1 Hc1 E) as (Hf & _ & Hle & Hgt & _ & Hor).
  pose proof (f_timer _ _ Hf) as Et2. rewrite Et in *.
  destruct (start_slice_ok s2 (f_queue _ _ Hf)) as (Hq3 & [Hn3 Hr3 Hx3] & Et3 & Em3 & Ed3 & _ & F1 & F2 & F3 & F4 & Ets);
    [by rewrite Et2|by rewrite (f_slice _ _ Hf)|by rewrite Et2|].
  destruct (move_events_same (m_ts_queue s) (set_ts_queue [] s)) as (_ & _ & _ & _ & _ & M6 & M7 & _ & _ & M10).
  assert (Ho : no_overclock s2).
  { destruct (f_factors _ _ Hf) as (Fa & Fb & Fc & Fd). destruct (t_factors _ _ _ H) as [? ? Oc Od].
    simpl in Fa, Fb, Fc, Fd, M6, M7. unfold MoveEvents in *. constructor; congruence. }
  assert (H' : on_time threads k (start_slice s2)).
  { unfold MAX_SLICE_LENGTH in *.
    assert (Ed : downcount (start_slice s2) = slice_length (start_slice s2)) by (rewrite Ed3; apply CyclesToDowncount_one; [done|lia]).
    constructor; [done|done|unfold MAX_SLICE_LENGTH; lia| |done|rewrite Et3; lia| |].
    - rewrite Ed. lia.
    - rewrite Ets, (run_due_quiet Hquiet _ _ _ _ E). 
      replace (m_ts_queue (end_slice s)) with (@nil Event) by (symmetry; exact M10). by destruct threads.
    - destruct Ho as [? ? ? ?]. constructor; congruence. }
  assert (Eg' : GetTicks (start_slice s2) = GetTicks s).
  { rewrite (on_time_ticks _ H'), Ed3, Et3, CyclesToDowncount_one by (done || (unfold MAX_SLICE_LENGTH in *; lia)). lia. }
  split; [done|]. split; [done|]. split; [lia|]. rewrite Forall_forall in Hle |- *. intros e He. specialize (Hle e He). simpl in Hle.
  assert (Hk0 : k <= lateness threads k) by (unfold lateness, MAX_SLICE_LENGTH; destruct threads; lia).
  destruct (Hor e He) as [Hin|]; [|lia]. rewrite (end_slice_queue s (t_queue _ _ _ H)) in Hin.
  apply elem_of_app in Hin as [Hin|Hin]; [pose proof (t_next _ _ _ H e Hin); lia|].
  pose proof (t_threads _ _ _ H) as Hth. unfold lateness, MAX_SLICE_LENGTH. destruct threads; [|by rewrite Hth in Hin; apply elem_of_nil in Hin].
  pose proof (joined_later _ (global_timer s) (m_event_fifo_id s) Hth ltac:(lia) e Hin). lia.
Qed.
End Runs.
End Scheduler.

(** ** A concrete machine

    Its callbacks log their argument and their lateness, and some schedule
    themselves again. *)

Abbreviation Log := (list (Z * Z)).
Abbreviation Device := (option Z).

Definition log_call (data late : Z) : M (CTState Log Device) unit :=
  mmodify (fun s => set_world (world s ++ [(data, late)]) s).
(** The periods are kept between one and a million cycles. *)
Definition period_of (p : Z) : Z := Z.max 1 (Z.min p 1000000).
Definition device_callback (c : Device) (data late : Z) : M (CTState Log Device) unit :=
  log_call data late ;;;
  match c with
  | None => mret tt
  | Some p => mmodify (fun s => ScheduleEvent (period_of p) "tick" data true (RegisterEvent "tick" c s))
  end.
#[export] Instance sample_devices : Machine Log Device := {
  callback := device_callback; empty_callback := None; CheckExternalExceptions := id
}.

Definition blank : CTState Log Device :=
  mkCT Log Device 0 0 (mkF32 0 0) ∅ [] 0 [] (mkF32 0 0) 0 false f_one f_one 0 [].
(** After [Init], with two devices. *)
Definition sample_timing : CTState Log Device :=
  RegisterEvent "tick" (Some 1000) (RegisterEvent "once" None (Init f_one blank)).
(** At the start of the first slice. *)
Definition sample_slice : CTState Log Device :=
  match Advance 1 sample_timing with Done _ s => s | Fault _ => sample_timing end.
Definition schedule_all (l : list (Z * string * Z)) (s : CTState Log Device) : CTState Log Device :=
  fold_left (fun s '(c, ty, d) => ScheduleEvent c ty d true s) l s.
Definition sample_events : CTState Log Device :=
  schedule_all [(1000, "once", 1); (500, "once", 2); (500, "once", 3); (400, "tick", 4)] sample_slice.

Lemma sample_follows (c : Device) s : queue_ok s -> m_is_global_timer_sane s = true -> clock_range (global_timer s) ->
  forall data late s', callback c data late s = Done tt s' -> follows s s' /\ only_schedules s s' /\ m_ts_queue s' = m_ts_queue s.
Proof.
  intros Hs Hn Ht data late s' E. simpl in E. unfold device_callback in E. set (s1 := set_world (world s ++ [(data, late)]) s).
  assert (H1 : follows s s1) by (destruct Hs as [? ? ? ?]; constructor; try done; by left).
  rewrite (mbind_done _ _ s tt s1) in E by done. destruct c as [p|].
  2: { injection E as <-. split; [done|]. split; [|done]. split; [done|]. exists []. split; [done|constructor]. }
  injection E as <-. set (s2 := RegisterEvent "tick" (Some p) s1).
  assert (H2 : follows s1 s2) by apply RegisterEvent_follows, H1.
  destruct (RegisterEvent_types "tick" (Some p) s1) as (Hty1 & Hty2 & Eqq & Ets). fold s2 in Hty1, Hty2, Eqq, Ets.
  assert (Hs2 : m_is_global_timer_sane s2 = true) by (rewrite (f_sane _ _ H2); done).
  assert (Ht2 : global_timer s2 = global_timer s) by (rewrite (f_timer _ _ H2); done).
  assert (Hp : 1 <= period_of p <= 1000000) by (unfold period_of; lia).
  assert (H3 : follows s2 (ScheduleEvent (period_of p) "tick" data true s2)).
  { apply ScheduleEvent_follows; [apply H2|done|by rewrite Ht2|lia]. }
  split; [eapply follows_trans; [exact H1|by eapply follows_trans]|].
  unfold ScheduleEvent. rewrite Hs2, GetTicks_sane by (done || by rewrite Ht2). cbn [negb]. split; [split; [done|]|].
  - rewrite Ht2, s64_id by (unfold clock_range, is_s64 in *; lia).
    match goal with |- context [push_event ?e _] => exists [e]; destruct (push_event_ok e s2 (f_queue _ _ H2) eq_refl) as [_ Hpe] end;
      [unfold clock_range, is_s64 in *; simpl; lia|].
    split; [|constructor; [|constructor]; split; [simpl; lia|done]]. by rewrite Hpe, Eqq.
  - exact Ets.
Qed.

Lemma sample_devices_ok : devices_ok (W := Log) (C := Device).
Proof. intros c data late s s' Hs Hn Ht E. by eapply sample_follows. Qed.
Lemma sample_devices_return : devices_return (W := Log) (C := Device).
Proof.
  intros c data late s Hs Hn Ht. assert (E : exists s', callback c data late s = Done tt s').
  { simpl. unfold device_callback. destruct c; by eexists. }
  destruct E as [s' E]. exists s'. split; [done|]. by eapply sample_follows.
Qed.

Lemma sample_slice_fields :
  m_event_queue sample_slice = [] /\ m_event_fifo_id sample_slice = 0 /\ m_is_global_timer_sane sample_slice = false /\
  slice_length sample_slice = MAX_SLICE_LENGTH /\ downcount sample_slice = MAX_SLICE_LENGTH /\
  m_ts_queue sample_slice = [] /\ m_last_oc_factor sample_slice = f_one /\
  last_OC_factor_inverted sample_slice = f_one_inverse /\ m_config_oc_factor sample_slice = f_one /\
  m_config_oc_inv_factor sample_slice = f_one_inverse.
Proof. repeat split; vm_compute; reflexivity. Qed.
Lemma sample_slice_timer : global_timer sample_slice = 20000.
Proof. vm_compute. reflexivity. Qed.

Lemma sample_slice_on_time threads : on_time threads 50 sample_slice.
Proof.
  destruct sample_slice_fields as (Eq & Ei & En & El & Ed & Et & F1 & F2 & F3 & F4). pose proof sample_slice_timer as Eg.
  constructor; rewrite ?Eq, ?Ei, ?En, ?El, ?Ed, ?Et, ?Eg; try done; try (unfold MAX_SLICE_LENGTH; lia).
  - constructor; rewrite ?Eq; [by intros p c _ a b|constructor..].
  - by intros e He%elem_of_nil.
  - destruct threads; [constructor|done].
Qed.

(** [BasicOrder] of the program's own tests: five events, and the downcounts of the slices. *)
Definition basic_order : CTState Log Device :=
  schedule_all [(1000, "once", 0); (500, "once", 1); (800, "once", 2); (100, "once", 3); (1200, "once", 4)] sample_slice.
Definition advance_at (d : Z) (s : CTState Log Device) : CTState Log Device :=
  match Advance 10 (set_downcount d s) with Done _ s' => s' | Fault _ => s end.
Example basic_order_downcounts :
  downcount basic_order = 100 /\
  map (fun n => downcount (Nat.iter n (advance_at 0) basic_order)) [1%nat; 2%nat; 3%nat; 4%nat; 5%nat] =
    [400; 300; 200; 200; MAX_SLICE_LENGTH] /\
  world (Nat.iter 5 (advance_at 0) basic_order) = [(3, 0); (1, 0); (2, 0); (0, 0); (4, 0)].
Proof. vm_compute. split; [reflexivity|split; reflexivity]. Qed.
(** [PredictableLateness]. *)
Example predictable_lateness :
  let s := schedule_all [(100, "once", 0); (200, "once", 1)] sample_slice in
  downcount (advance_at (-10) s) = 90 /\ downcount (advance_at (-50) (advance_at (-10) s)) = MAX_SLICE_LENGTH /\
  world (advance_at (-50) (advance_at (-10) s)) = [(0, 10); (1, 50)].
Proof. vm_compute. split; [reflexivity|split; reflexivity]. Qed.

Lemma sample_devices_quiet : devices_quiet (W := Log) (C := Device).
Proof.
  intros c data late s s' E. simpl in E. unfold device_callback in E.
  set (s1 := set_world (world s ++ [(data, late)]) s). rewrite (mbind_done _ _ s tt s1) in E by done.
  destruct c as [p|]; injection E as <-; [|done].
  destruct (RegisterEvent_types "tick" (Some p) s1) as (_ & _ & _ & Et). unfold ScheduleEvent. simpl.
  destruct (m_is_global_timer_sane _); simpl; [exact Et|]. unfold ForceExceptionCheck. by destruct (_ <? _).
Qed.

Lemma sample_events_queue : m_event_queue sample_events =
  [mkEvent 20400 3 4 "tick"; mkEvent 20500 1 2 "once"; mkEvent 20500 2 3 "once"; mkEvent 21000 0 1 "once"].
Proof. vm_compute. reflexivity. Qed.
Lemma sample_events_next : m_event_fifo_id sample_events = 4.
Proof. vm_compute. reflexivity. Qed.
Lemma sample_events_ok : queue_ok (set_downcount (-700) sample_events).
Proof.
  constructor; cbn [m_event_queue m_event_fifo_id set_downcount]; rewrite sample_events_queue.
  - intros p c Hc a b Ha Hb. pose proof (lookup_lt_Some _ _ _ Hb) as Hl. simpl in Hl. unfold child in Hc.
    assert ((p = 0 /\ c = 1) \/ (p = 0 /\ c = 2) \/ (p = 1 /\ c = 3))%nat as [[-> ->]|[[-> ->]|[-> ->]]] by lia;
      injection Ha as <-; injection Hb as <-; reflexivity.
  - rewrite sample_events_next. repeat constructor.
  - apply (bool_decide_unpack _). vm_compute. exact I.
  - repeat (constructor; [split; vm_compute; congruence|]). constructor.
Qed.
Lemma sample_events_known : types_known (end_slice (set_downcount (-700) sample_events)).
Proof.
  apply (bool_decide_unpack _). vm_compute. exact I.
Qed.

(** ** Properties *)

(** C11. [Advance] moves the clock by the cycles of the slice, puts the events of other
    threads into the queue and then runs what is due: each time the event of the
    queue that is earliest, and of simultaneous ones the one scheduled first, which
    leaves the queue alone and whose callback gets how late it is, until nothing in
    the queue is due; no event is lost or added but by the callbacks, which may
    schedule and remove any, also into the past, but not move the clock.  The next slice ends no later than
    the next event.  When no callback schedules into the past, the events run are in
    the order of time and of scheduling.  The queue is a heap, as every operation but a
    change of the CPU's clock leaves it, and the clock below 2^62. *)
Theorem Advance_runs_in_order : forall {W C} `{!Machine W C} `{!HeapOps event_ltb} fuel (s s' : CTState W C) ran,
  devices_steady (W := W) (C := C) -> queue_ok s -> clock_range (global_timer (end_slice s)) ->
  Advance fuel s = Done ran s' ->
  let now := global_timer (end_slice s) in
  now = s64 (global_timer s + s32 (slice_length s - DowncountToCycles s (downcount s))) /\
  m_event_queue (end_slice s) ≡ₚ m_event_queue s ++ joined (global_timer s) (m_event_fifo_id s) (m_ts_queue s) /\
  (exists s2, runs_earliest now (end_slice s) ran s2 /\ m_event_queue s' = m_event_queue s2) /\
  (forall e, e ∈ m_event_queue s' -> now < time e) /\ global_timer s' = now /\ queue_ok s' /\ slice_ok s' /\
  downcount s' = CyclesToDowncount s' (slice_length s') /\
  (devices_ok (W := W) (C := C) -> StronglySorted ev_lt ran).
Proof.
  intros W C HM HH fuel s s' ran Hdev Hs Hc E now. apply Advance_inv in E as (s2 & E & ->).
  destruct (end_slice_ok s Hs) as (Hq1 & Hn1 & Hl1 & Ht1 & _).
  destruct (run_due_earliest Hdev fuel _ _ _ Hq1 Hn1 Hc E) as (Hr & [Hq2 Et2 _ El2] & Hgt).
  destruct (start_slice_ok s2 Hq2) as (Hq3 & Hsl & Et3 & Em3 & Ed3 & _ & F1 & _);
    [by rewrite Et2|by rewrite El2|by rewrite Et2|].
  split; [done|]. split; [by apply end_slice_queue|]. split; [by exists s2|]. split; [by rewrite Em3|].
  split; [by rewrite Et3|]. split; [done|]. split; [done|]. split; [rewrite Ed3; unfold CyclesToDowncount; by rewrite F1|].
  intros Hok. by destruct (run_due_spec Hok fuel _ _ _ Hq1 Hn1 Hc E) as (_ & ? & _).
Qed.

(** One event is scheduled into the past, by the CPU, and one by another thread. *)
Definition sample_past : CTState Log Device :=
  set_downcount (-700) (ScheduleEvent (-200) "once" 5 true (ScheduleEvent 450 "once" 6 false sample_events)).
Lemma Advance_runs_in_order_witness :
  exists ran s', Advance 10 sample_past = Done ran s' /\ StronglySorted ev_lt ran /\ map userdata ran = [5; 4; 6; 2; 3] /\
    (exists s2, runs_earliest (global_timer (end_slice sample_past)) (end_slice sample_past) ran s2 /\ m_event_queue s' = m_event_queue s2).
Proof.
  assert (E : exists ran s', Advance 10 sample_past = Done ran s' /\ map userdata ran = [5; 4; 6; 2; 3])
    by (do 2 eexists; split; vm_compute; reflexivity).
  destruct E as (ran & s' & E & Hm). exists ran, s'. split; [exact E|].
  destruct (Advance_runs_in_order 10 sample_past s' ran (devices_ok_steady sample_devices_ok)) as (_ & _ & Hr & _ & _ & _ & _ & _ & Hso);
    [|split; [vm_compute; congruence|vm_compute; reflexivity]|exact E|].
  - assert (H : queue_ok sample_events) by (destruct sample_events_ok; by constructor).
    pose proof (ScheduleEvent_ok (-200) "once" 5 true _ (ScheduleEvent_ok 450 "once" 6 false _ H)) as [? ? ? ?].
    by constructor.
  - split; [exact (Hso sample_devices_ok)|]. split; [exact Hm|exact Hr].
Defined.

(** C34. [Advance] ends when the callbacks do and schedule strictly into the
    future: one turn for each event that is due is enough, and exactly these
    events run, in order. *)
Theorem Advance_ends : forall {W C} `{!Machine W C} `{!HeapOps event_ltb} fuel (s : CTState W C),
  devices_ok (W := W) (C := C) -> devices_return (W := W) (C := C) ->
  queue_ok s -> clock_range (global_timer (end_slice s)) -> types_known (end_slice s) ->
  let now := global_timer (end_slice s) in
  let pending := filter (due now) (m_event_queue (end_slice s)) in
  (length pending <= fuel)%nat ->
  exists ran s', Advance fuel s = Done ran s' /\ StronglySorted ev_lt ran /\ ran ≡ₚ pending.
Proof.
  intros W C HM HH fuel s Hdev Hret Hs Hc Hk now pending Hf.
  destruct (end_slice_ok s Hs) as (Hq1 & Hn1 & _).
  destruct (run_due_ends Hdev Hret (length pending) _ fuel Hq1 Hn1 Hc Hk eq_refl Hf) as (ran & s2 & E & Hp).
  destruct (run_due_spec Hdev fuel _ _ _ Hq1 Hn1 Hc E) as (_ & Hso & _).
  exists ran, (start_slice s2). split; [|done]. unfold Advance. rewrite (mbind_done _ _ s tt (end_slice s)) by done.
  by rewrite (mbind_done _ _ _ _ _ E).
Qed.

Lemma Advance_ends_witness :
  exists ran s', Advance 4 (set_downcount (-700) sample_events) = Done ran s' /\ length ran = 4%nat.
Proof.
  destruct (Advance_ends 4 (set_downcount (-700) sample_events) sample_devices_ok sample_devices_return) as (ran & s' & E & _ & Hp).
  - exact sample_events_ok.
  - split; [vm_compute; congruence|vm_compute; reflexivity].
  - exact sample_events_known.
  - vm_compute. lia.
  - exists ran, s'. split; [exact E|]. rewrite Hp. vm_compute. reflexivity.
Defined.



(** A change of the CPU's clock breaks the order of simultaneous events:
    [AdjustEventQueueTimes] scales the times in place, which can make two of
    them equal, and does not restore the heap.  Of two events scheduled in the
    order A, B, it can make B run before A at the same time. *)
Theorem clock_change_breaks_fifo : exists (s s' : CTState (list (Z * Z)) (option Z)) a b,
  s = AdjustEventQueueTimes 486000000 729000000
        (schedule_all [(4, "once", 0); (3, "once", 1)] (set_clock 0 MAX_SLICE_LENGTH sample_slice)) /\
  Advance 2 (set_downcount 0 s) = Done [b; a] s' /\ time a = time b /\ fifo_order a < fifo_order b /\ ~ is_heap event_ltb (m_event_queue s).
Proof.
  eexists _, _, (mkEvent 2 0 0 "once"), (mkEvent 2 1 1 "once"). split; [reflexivity|]. split; [vm_compute; reflexivity|].
  split; [reflexivity|]. split; [vm_compute; reflexivity|]. intros H.
  specialize (H 0%nat 1%nat (or_introl eq_refl) (mkEvent 2 1 1 "once") (mkEvent 2 0 0 "once")).
  vm_compute in H. specialize (H eq_refl eq_refl). discriminate H.
Qed.

(** *** What the model shows besides *)

(** The first [Init] computes the downcount with a factor that is still zero, so
    the emulated time starts at 20000 in the first run and at zero in the next. *)
Definition timer_after_boot (s : CTState (list (Z * Z)) (option Z)) : CTState (list (Z * Z)) (option Z) :=
  match Advance 1 (Init f_one s) with Done _ s' => s' | Fault _ => s end.
Example first_boot_is_late :
  global_timer (timer_after_boot blank) = 20000 /\ global_timer (timer_after_boot (timer_after_boot blank)) = 0.
Proof. split; vm_compute; reflexivity. Qed.

(** At half speed, scheduling an event moves the clock: three cycles are not a
    whole number of downcounts. *)
Definition half_speed : CTState (list (Z * Z)) (option Z) :=
  match Advance 1 (RegisterEvent "once" None (Init (mkF32 1 (-1)) blank)) with Done _ s => s | Fault _ => blank end.
Example overclocked_schedule_moves_clock :
  GetTicks half_speed = 20000 /\ GetTicks (ScheduleEvent 3 "once" 0 true half_speed) = 20001.
Proof. split; vm_compute; reflexivity. Qed.
