(* ===== verification/PPCState.v ===== *)
(** * The state of the PowerPC (PowerPC.h, Gekko.h, ConditionRegister.h)

    The registers the integer unit, the branch unit and the exceptions of the
    Gekko work on, the instruction word and its fields, and the condition
    register in its optimized representation.  Caches, translation and memory are
    not part of this state. *)
From S2P Require Export Prelude.

(** ** Fields of an instruction *)

Definition field (inst lo width : Z) : Z := (inst .>> lo) .& (2 ^ width - 1).
Definition bit_at (w i : Z) : bool := Z.testbit w i.

Definition Rc inst := bit_at inst 0.
Definition OE inst := bit_at inst 10.
Definition SUBOP10 inst := field inst 1 10.
Definition SUBOP5 inst := field inst 1 5.
Definition RB inst := field inst 11 5.
Definition RA inst := field inst 16 5.
Definition RD inst := field inst 21 5.
Definition RS inst := field inst 21 5.
Definition TO inst := field inst 21 5.
Definition OPCD inst := field inst 26 6.
Definition SIMM_16 inst := s16 inst.
Definition UIMM inst := field inst 0 16.
Definition LK inst := bit_at inst 0.
Definition AA inst := bit_at inst 1.
Definition LI inst := field inst 2 24.
Definition BD inst := field inst 2 14.
Definition BI inst := field inst 16 5.
Definition BO inst := field inst 21 5.
Definition CRFD inst := field inst 23 3.
Definition CRFS inst := field inst 18 3.
Definition CRBB inst := field inst 11 5.
Definition CRBA inst := field inst 16 5.
Definition CRBD inst := field inst 21 5.
Definition CRM inst := field inst 12 8.
Definition SR inst := field inst 16 4.
Definition ME inst := field inst 1 5.
Definition MB inst := field inst 6 5.
Definition SH inst := field inst 11 5.
Definition FM inst := field inst 17 8.
Definition FB inst := field inst 11 5.
Definition FD inst := field inst 21 5.

(** [BO] flags *)
Definition BO_DONT_DECREMENT_FLAG : Z := 4.

Definition MakeRotationMask (mb me : Z) : Z :=
  let begin := 0xFFFFFFFF .>> mb in
  let end_ := 0x7FFFFFFF .>> me in
  let mask := begin .^ end_ in
  if me <? mb then u32 (.~ mask) else mask.

Definition SignExt16 (x : Z) : Z := x.
Definition SignExt26 (x : Z) : Z := if negb (x .& 0x2000000 =? 0) then s32 (x .| 0xFC000000) else s32 x.

(** ** Registers *)

Definition SPR_XER : Z := 1.
Definition SPR_LR : Z := 8.
Definition SPR_CTR : Z := 9.
Definition SPR_DAR : Z := 19.
Definition SPR_SRR0 : Z := 26.
Definition SPR_SRR1 : Z := 27.

Definition EXCEPTION_DECREMENTER : Z := 0x001.
Definition EXCEPTION_SYSCALL : Z := 0x002.
Definition EXCEPTION_EXTERNAL_INT : Z := 0x004.
Definition EXCEPTION_DSI : Z := 0x008.
Definition EXCEPTION_ISI : Z := 0x010.
Definition EXCEPTION_ALIGNMENT : Z := 0x020.
Definition EXCEPTION_FPU_UNAVAILABLE : Z := 0x040.
Definition EXCEPTION_PROGRAM : Z := 0x080.
Definition EXCEPTION_PERFORMANCE_MONITOR : Z := 0x100.
Definition EXCEPTION_FAKE_MEMCHECK_HIT : Z := 0x200.

Definition CR_SO : Z := 1.
Definition CR_EQ : Z := 2.
Definition CR_GT : Z := 4.
Definition CR_LT : Z := 8.
Definition CR_SO_BIT : Z := 0.
Definition CR_EQ_BIT : Z := 1.
Definition CR_GT_BIT : Z := 2.
Definition CR_LT_BIT : Z := 3.
Definition CR_EMU_SO_BIT : Z := 59.
Definition CR_EMU_LT_BIT : Z := 62.

Definition FEATURE_FLAG_PERFMON : Z := 4.

(** [cr] holds the eight 64-bit fields; [ps] the two halves of each floating-point
    register; [m_end_block] belongs to the interpreter. *)
Record PowerPCState := mkPPC {
  pc : Z;
  npc : Z;
  gpr : list Z;
  ps : list (Z * Z);
  cr : list Z;
  msr : Z;
  fpscr : Z;
  feature_flags : Z;
  Exceptions : Z;
  xer_ca : Z;
  xer_so_ov : Z;
  xer_stringctrl : Z;
  sr : list Z;
  spr : gmap Z Z;
  m_end_block : bool
}.

Definition set_pc v s := mkPPC v (npc s) (gpr s) (ps s) (cr s) (msr s) (fpscr s) (feature_flags s) (Exceptions s)
  (xer_ca s) (xer_so_ov s) (xer_stringctrl s) (sr s) (spr s) (m_end_block s).
Definition set_npc v s := mkPPC (pc s) v (gpr s) (ps s) (cr s) (msr s) (fpscr s) (feature_flags s) (Exceptions s)
  (xer_ca s) (xer_so_ov s) (xer_stringctrl s) (sr s) (spr s) (m_end_block s).
Definition set_gprs v s := mkPPC (pc s) (npc s) v (ps s) (cr s) (msr s) (fpscr s) (feature_flags s) (Exceptions s)
  (xer_ca s) (xer_so_ov s) (xer_stringctrl s) (sr s) (spr s) (m_end_block s).
Definition set_ps v s := mkPPC (pc s) (npc s) (gpr s) v (cr s) (msr s) (fpscr s) (feature_flags s) (Exceptions s)
  (xer_ca s) (xer_so_ov s) (xer_stringctrl s) (sr s) (spr s) (m_end_block s).
Definition set_cr v s := mkPPC (pc s) (npc s) (gpr s) (ps s) v (msr s) (fpscr s) (feature_flags s) (Exceptions s)
  (xer_ca s) (xer_so_ov s) (xer_stringctrl s) (sr s) (spr s) (m_end_block s).
Definition set_msr v s := mkPPC (pc s) (npc s) (gpr s) (ps s) (cr s) v (fpscr s) (feature_flags s) (Exceptions s)
  (xer_ca s) (xer_so_ov s) (xer_stringctrl s) (sr s) (spr s) (m_end_block s).
Definition set_fpscr v s := mkPPC (pc s) (npc s) (gpr s) (ps s) (cr s) (msr s) v (feature_flags s) (Exceptions s)
  (xer_ca s) (xer_so_ov s) (xer_stringctrl s) (sr s) (spr s) (m_end_block s).
Definition set_feature_flags v s := mkPPC (pc s) (npc s) (gpr s) (ps s) (cr s) (msr s) (fpscr s) v (Exceptions s)
  (xer_ca s) (xer_so_ov s) (xer_stringctrl s) (sr s) (spr s) (m_end_block s).
Definition set_Exceptions v s := mkPPC (pc s) (npc s) (gpr s) (ps s) (cr s) (msr s) (fpscr s) (feature_flags s) v
  (xer_ca s) (xer_so_ov s) (xer_stringctrl s) (sr s) (spr s) (m_end_block s).
Definition set_xer ca so_ov str s := mkPPC (pc s) (npc s) (gpr s) (ps s) (cr s) (msr s) (fpscr s) (feature_flags s)
  (Exceptions s) ca so_ov str (sr s) (spr s) (m_end_block s).
Definition set_srs v s := mkPPC (pc s) (npc s) (gpr s) (ps s) (cr s) (msr s) (fpscr s) (feature_flags s) (Exceptions s)
  (xer_ca s) (xer_so_ov s) (xer_stringctrl s) v (spr s) (m_end_block s).
Definition set_sprs v s := mkPPC (pc s) (npc s) (gpr s) (ps s) (cr s) (msr s) (fpscr s) (feature_flags s) (Exceptions s)
  (xer_ca s) (xer_so_ov s) (xer_stringctrl s) (sr s) v (m_end_block s).
Definition set_end_block v s := mkPPC (pc s) (npc s) (gpr s) (ps s) (cr s) (msr s) (fpscr s) (feature_flags s)
  (Exceptions s) (xer_ca s) (xer_so_ov s) (xer_stringctrl s) (sr s) (spr s) v.

(** Registers by number; the numbers come from 5-bit fields and are in range. *)
Definition get_gpr (s : PowerPCState) (i : Z) : Z := nth (Z.to_nat i) (gpr s) 0.
Definition set_gpr (i v : Z) (s : PowerPCState) : PowerPCState := set_gprs (<[Z.to_nat i := v]> (gpr s)) s.
Definition get_spr (s : PowerPCState) (i : Z) : Z := default 0 (spr s !! i).
Definition set_spr (i v : Z) (s : PowerPCState) : PowerPCState := set_sprs (<[i := v]> (spr s)) s.
Definition get_sr (s : PowerPCState) (i : Z) : Z := nth (Z.to_nat i) (sr s) 0.
Definition set_sr (i v : Z) (s : PowerPCState) : PowerPCState := set_srs (<[Z.to_nat i := v]> (sr s)) s.

Definition LR s := get_spr s SPR_LR.
Definition CTR s := get_spr s SPR_CTR.
Definition SRR0 s := get_spr s SPR_SRR0.
Definition SRR1 s := get_spr s SPR_SRR1.

(** [msr]'s bits *)
Definition MSR_DR s := bit_at (msr s) 4.
Definition MSR_FE1 s := bit_at (msr s) 8.
Definition MSR_FE0 s := bit_at (msr s) 11.
Definition MSR_PR s := bit_at (msr s) 14.
Definition MSR_EE s := bit_at (msr s) 15.
Definition MSR_ILE s := bit_at (msr s) 16.

(** ** XER *)

Definition SetCarry (ca : bool) (s : PowerPCState) : PowerPCState :=
  set_xer (Z.b2z ca) (xer_so_ov s) (xer_stringctrl s) s.
Definition GetCarry (s : PowerPCState) : Z := xer_ca s.
Definition GetXER (s : PowerPCState) : Z := xer_stringctrl s .| (xer_ca s .<< 29) .| (xer_so_ov s .<< 30).
Definition SetXER (new_xer : Z) (s : PowerPCState) : PowerPCState :=
  set_xer (field new_xer 29 1) ((field new_xer 31 1 .<< 1) + field new_xer 30 1)
    (field new_xer 0 7 + (field new_xer 8 8 .<< 8)) s.
Definition GetXER_SO (s : PowerPCState) : Z := xer_so_ov s .>> 1.
Definition SetXER_SO (value : bool) (s : PowerPCState) : PowerPCState :=
  set_xer (xer_ca s) (xer_so_ov s .| (Z.b2z value .<< 1)) (xer_stringctrl s) s.
Definition GetXER_OV (s : PowerPCState) : Z := xer_so_ov s .& 1.
Definition SetXER_OV (value : bool) (s : PowerPCState) : PowerPCState :=
  SetXER_SO value (set_xer (xer_ca s) ((xer_so_ov s .& 0xFE) .| Z.b2z value) (xer_stringctrl s) s).

(** ** The condition register *)

Definition PPCToInternal (value : Z) : Z :=
  let cr_val := 0x100000000 in
  let cr_val := cr_val .| (Z.b2z (negb (value .& CR_SO =? 0)) .<< CR_EMU_SO_BIT) in
  let cr_val := cr_val .| Z.b2z (value .& CR_EQ =? 0) in
  let cr_val := cr_val .| (Z.b2z (value .& CR_GT =? 0) .<< 63) in
  cr_val .| (Z.b2z (negb (value .& CR_LT =? 0)) .<< CR_EMU_LT_BIT).
Definition s_crTable : list Z := map (fun n => PPCToInternal (Z.of_nat n)) (seq 0 16).

Definition cr_field (s : PowerPCState) (i : Z) : Z := nth (Z.to_nat i) (cr s) 0.
Definition put_cr_field (i v : Z) (s : PowerPCState) : PowerPCState := set_cr (<[Z.to_nat i := v]> (cr s)) s.

(** What a 64-bit field stands for. *)
Definition field_flags (cr_val : Z) : Z :=
  let ppc_cr := (cr_val .>> CR_EMU_SO_BIT) .& (CR_LT .| CR_SO) in
  let ppc_cr := ppc_cr .| (Z.b2z (cr_val .& 0xFFFFFFFF =? 0) .<< CR_EQ_BIT) in
  ppc_cr .| (Z.b2z (0 <? s64 cr_val) .<< CR_GT_BIT).

Definition SetField (i value : Z) (s : PowerPCState) : PowerPCState :=
  put_cr_field i (nth (Z.to_nat value) s_crTable 0) s.
Definition GetField (i : Z) (s : PowerPCState) : Z := field_flags (cr_field s i).
Definition GetBit (bit : Z) (s : PowerPCState) : Z := (GetField (bit .>> 2) s .>> (3 - (bit .& 3))) .& 1.
Definition SetBit (bit value : Z) (s : PowerPCState) : PowerPCState :=
  let i := bit .>> 2 in
  if negb (value .& 1 =? 0) then SetField i (GetField i s .| (0x8 .>> (bit .& 3))) s
  else SetField i (GetField i s .& .~ (0x8 .>> (bit .& 3))) s.
(** The loops over the eight fields. *)
Definition cr_Get (s : PowerPCState) : Z :=
  fold_left (fun new_cr i => new_cr .| (GetField (Z.of_nat i) s .<< (28 - Z.of_nat i * 4))) (seq 0 8) 0.
Definition cr_Set (new_cr : Z) (s : PowerPCState) : PowerPCState :=
  fold_left (fun s i => SetField (Z.of_nat i) ((new_cr .>> (28 - Z.of_nat i * 4)) .& 0xF) s) (seq 0 8) s.

Definition UpdateCR1 (s : PowerPCState) : PowerPCState :=
  SetField 1 ((field (fpscr s) 31 1 .<< 3) .| (field (fpscr s) 30 1 .<< 2) .| (field (fpscr s) 29 1 .<< 1)
    .| field (fpscr s) 28 1) s.
