(* ===== verification/PPCExceptions.v ===== *)
(** * Exceptions of the PowerPC (PowerPC.cpp, ExceptionUtils.h)

    Log output, the update of the JIT's memory base and the page-table refresh
    that [MSRUpdated] triggers outside this state are left out. *)
From S2P Require Export PPCState.

Inductive ProgramExceptionCause := FloatingPoint | IllegalInstruction | PrivilegedInstruction | Trap.
Definition cause_code (c : ProgramExceptionCause) : Z :=
  match c with
  | FloatingPoint => 1 .<< (31 - 11)
  | IllegalInstruction => 1 .<< (31 - 12)
  | PrivilegedInstruction => 1 .<< (31 - 13)
  | Trap => 1 .<< (31 - 14)
  end.

Definition GenerateAlignmentException (address : Z) (s : PowerPCState) : PowerPCState :=
  set_spr SPR_DAR address (set_Exceptions (Exceptions s .| EXCEPTION_ALIGNMENT) s).
Definition GenerateDSIException (address : Z) (s : PowerPCState) : PowerPCState :=
  set_spr SPR_DAR address (set_Exceptions (Exceptions s .| EXCEPTION_DSI) s).
Definition GenerateProgramException (cause : ProgramExceptionCause) (s : PowerPCState) : PowerPCState :=
  set_spr SPR_SRR1 (cause_code cause) (set_Exceptions (Exceptions s .| EXCEPTION_PROGRAM) s).

Definition MSRUpdated (s : PowerPCState) : PowerPCState :=
  set_feature_flags ((feature_flags s .& FEATURE_FLAG_PERFMON) .| ((msr s .>> 4) .& 0x3)) s.

Definition SRR1_MASK : Z := 0x87C0FFFF.
Definition MSR_CLEARED : Z := 0x04EF36.

(** [msr.LE = msr.ILE; msr.Hex &= ~0x04EF36; pc = npc = vector] *)
Definition enter (vector : Z) (s : PowerPCState) : PowerPCState :=
  let m := (msr s .& .~ 1) .| Z.b2z (MSR_ILE s) in
  set_npc vector (set_pc vector (set_msr (m .& .~ MSR_CLEARED) s)).
(** The exception [flag] is taken with [srr0] and [srr1] saved. *)
Definition take (flag vector srr0 srr1 : Z) (s : PowerPCState) : PowerPCState :=
  let s := enter vector (set_spr SPR_SRR1 srr1 (set_spr SPR_SRR0 srr0 s)) in
  set_Exceptions (Exceptions s .& .~ flag) s.
Definition pending (s : PowerPCState) (flag : Z) : bool := negb (Exceptions s .& flag =? 0).
Definition saved_msr (s : PowerPCState) : Z := msr s .& SRR1_MASK.

Definition CheckExternalExceptions (s : PowerPCState) : PowerPCState :=
  if (Exceptions s =? 0) || negb (MSR_EE s) then s
  else if pending s EXCEPTION_EXTERNAL_INT then
    MSRUpdated (take EXCEPTION_EXTERNAL_INT 0x500 (npc s) (saved_msr s) s)
  else if pending s EXCEPTION_PERFORMANCE_MONITOR then
    MSRUpdated (take EXCEPTION_PERFORMANCE_MONITOR 0xF00 (npc s) (saved_msr s) s)
  else if pending s EXCEPTION_DECREMENTER then
    MSRUpdated (take EXCEPTION_DECREMENTER 0x900 (npc s) (saved_msr s) s)
  else s.

Definition CheckExceptions (s : PowerPCState) : PowerPCState :=
  if pending s EXCEPTION_ISI then
    MSRUpdated (take EXCEPTION_ISI 0x400 (npc s) (saved_msr s .| (1 .<< 30)) s)
  else if pending s EXCEPTION_PROGRAM then
    MSRUpdated (take EXCEPTION_PROGRAM 0x700 (pc s) (SRR1 s .| saved_msr s) s)
  else if pending s EXCEPTION_SYSCALL then
    MSRUpdated (take EXCEPTION_SYSCALL 0xC00 (npc s) (saved_msr s) s)
  else if pending s EXCEPTION_FPU_UNAVAILABLE then
    MSRUpdated (take EXCEPTION_FPU_UNAVAILABLE 0x800 (pc s) (saved_msr s) s)
  else if pending s EXCEPTION_FAKE_MEMCHECK_HIT then
    MSRUpdated (set_Exceptions (Exceptions s .& .~ EXCEPTION_DSI .& .~ EXCEPTION_FAKE_MEMCHECK_HIT) s)
  else if pending s EXCEPTION_DSI then
    MSRUpdated (take EXCEPTION_DSI 0x300 (pc s) (saved_msr s) s)
  else if pending s EXCEPTION_ALIGNMENT then
    MSRUpdated (take EXCEPTION_ALIGNMENT 0x600 (pc s) (saved_msr s) s)
  else CheckExternalExceptions s.

(** [Interpreter::CheckExceptions] *)
Definition Interpreter_CheckExceptions (s : PowerPCState) : PowerPCState := set_end_block true (CheckExceptions s).

Definition CheckFPExceptions (s : PowerPCState) : PowerPCState :=
  if bit_at (fpscr s) 30 && (MSR_FE0 s || MSR_FE1 s) then GenerateProgramException FloatingPoint s else s.
