(* ===== verification/PPCInteger.v ===== *)
(** * Integer instructions (Interpreter/Interpreter_Integer.cpp)

    One definition per function of the file, with the same name.  Where the C++
    code overflows a signed [int] ([mulli], [subfic]), which is undefined, the
    result wraps around as it does on the hosts Dolphin supports. *)
From S2P Require Export PPCExceptions.

Definition Helper_UpdateCR0 (value : Z) (s : PowerPCState) : PowerPCState :=
  let cr_val := u64 (s32 value) in
  let cr_val := if value =? 0 then cr_val .| (1 .<< 63) else cr_val in
  let cr_val := (cr_val .& .~ (1 .<< CR_EMU_SO_BIT)) .| (GetXER_SO s .<< CR_EMU_SO_BIT) in
  put_cr_field 0 cr_val s.
(** [if (inst.Rc) Helper_UpdateCR0(...)] *)
Definition record (inst value : Z) (s : PowerPCState) : PowerPCState :=
  if Rc inst then Helper_UpdateCR0 value s else s.

Definition Helper_Carry (value1 value2 : Z) : bool := u32 (.~ value1) <? value2.

(** The operands *)
Definition ra s inst := get_gpr s (RA inst).
Definition rb s inst := get_gpr s (RB inst).
Definition rs s inst := get_gpr s (RS inst).

Definition addi inst (s : PowerPCState) : PowerPCState :=
  if negb (RA inst =? 0) then set_gpr (RD inst) (u32 (ra s inst + u32 (SIMM_16 inst))) s
  else set_gpr (RD inst) (u32 (SIMM_16 inst)) s.
Definition addic inst (s : PowerPCState) : PowerPCState :=
  let a := ra s inst in
  let imm := u32 (SIMM_16 inst) in
  SetCarry (Helper_Carry a imm) (set_gpr (RD inst) (u32 (a + imm)) s).
Definition addic_rc inst (s : PowerPCState) : PowerPCState :=
  let s := addic inst s in Helper_UpdateCR0 (get_gpr s (RD inst)) s.
Definition addis inst (s : PowerPCState) : PowerPCState :=
  if negb (RA inst =? 0) then set_gpr (RD inst) (u32 (ra s inst + u32 (SIMM_16 inst .<< 16))) s
  else set_gpr (RD inst) (u32 (SIMM_16 inst .<< 16)) s.
Definition andi_rc inst (s : PowerPCState) : PowerPCState :=
  let s := set_gpr (RA inst) (rs s inst .& UIMM inst) s in Helper_UpdateCR0 (ra s inst) s.
Definition andis_rc inst (s : PowerPCState) : PowerPCState :=
  let s := set_gpr (RA inst) (rs s inst .& (UIMM inst .<< 16)) s in Helper_UpdateCR0 (ra s inst) s.

Definition Helper_IntCompare inst (a b : Z) (s : PowerPCState) : PowerPCState :=
  let cr_field := if a <? b then CR_LT else if b <? a then CR_GT else CR_EQ in
  let cr_field := if negb (GetXER_SO s =? 0) then cr_field .| CR_SO else cr_field in
  SetField (CRFD inst) cr_field s.
Definition cmpi inst (s : PowerPCState) : PowerPCState := Helper_IntCompare inst (s32 (ra s inst)) (SIMM_16 inst) s.
Definition cmpli inst (s : PowerPCState) : PowerPCState := Helper_IntCompare inst (ra s inst) (UIMM inst) s.
Definition cmp inst (s : PowerPCState) : PowerPCState := Helper_IntCompare inst (s32 (ra s inst)) (s32 (rb s inst)) s.
Definition cmpl inst (s : PowerPCState) : PowerPCState := Helper_IntCompare inst (ra s inst) (rb s inst) s.

Definition mulli inst (s : PowerPCState) : PowerPCState :=
  set_gpr (RD inst) (u32 (s32 (ra s inst) * SIMM_16 inst)) s.
Definition ori inst (s : PowerPCState) : PowerPCState := set_gpr (RA inst) (rs s inst .| UIMM inst) s.
Definition oris inst (s : PowerPCState) : PowerPCState := set_gpr (RA inst) (rs s inst .| (UIMM inst .<< 16)) s.
Definition xori inst (s : PowerPCState) : PowerPCState := set_gpr (RA inst) (rs s inst .^ UIMM inst) s.
Definition xoris inst (s : PowerPCState) : PowerPCState := set_gpr (RA inst) (rs s inst .^ (UIMM inst .<< 16)) s.
Definition subfic inst (s : PowerPCState) : PowerPCState :=
  let a := s32 (ra s inst) in
  let immediate := SIMM_16 inst in
  SetCarry ((a =? 0) || Helper_Carry (u32 (0 - u32 a)) (u32 immediate)) (set_gpr (RD inst) (u32 (immediate - a)) s).

(** The condition of [twi] and [tw], on the signed operands. *)
Definition trap_condition (a b to_ : Z) : bool :=
  let f m := negb (to_ .& m =? 0) in
  ((a <? b) && f 0x10) || ((b <? a) && f 0x08) || ((a =? b) && f 0x04) ||
  ((u32 a <? u32 b) && f 0x02) || ((u32 b <? u32 a) && f 0x01).
Definition trap_if (b : bool) (s : PowerPCState) : PowerPCState :=
  if b then set_end_block true (CheckExceptions (GenerateProgramException Trap s)) else s.
Definition twi inst (s : PowerPCState) : PowerPCState :=
  trap_if (trap_condition (s32 (ra s inst)) (SIMM_16 inst) (TO inst)) s.
Definition tw inst (s : PowerPCState) : PowerPCState :=
  trap_if (trap_condition (s32 (ra s inst)) (s32 (rb s inst)) (TO inst)) s.

(** [std::rotl] on 32 bits, for shifts below 32. *)
Definition rotl (x n : Z) : Z := u32 (x .<< n) .| (x .>> (32 - n)).

Definition rlwimix inst (s : PowerPCState) : PowerPCState :=
  let mask := MakeRotationMask (MB inst) (ME inst) in
  let s := set_gpr (RA inst) ((ra s inst .& .~ mask) .| (rotl (rs s inst) (SH inst) .& mask)) s in
  record inst (ra s inst) s.
Definition rlwinmx inst (s : PowerPCState) : PowerPCState :=
  let mask := MakeRotationMask (MB inst) (ME inst) in
  let s := set_gpr (RA inst) (rotl (rs s inst) (SH inst) .& mask) s in
  record inst (ra s inst) s.
Definition rlwnmx inst (s : PowerPCState) : PowerPCState :=
  let mask := MakeRotationMask (MB inst) (ME inst) in
  let s := set_gpr (RA inst) (rotl (rs s inst) (rb s inst .& 0x1F) .& mask) s in
  record inst (ra s inst) s.

(** A logical instruction: its result goes to rA. *)
Definition logical (f : Z -> Z -> Z) inst (s : PowerPCState) : PowerPCState :=
  let s := set_gpr (RA inst) (f (rs s inst) (rb s inst)) s in record inst (ra s inst) s.
Definition andx inst := logical (fun a b => a .& b) inst.
Definition andcx inst := logical (fun a b => a .& u32 (.~ b)) inst.
Definition eqvx inst := logical (fun a b => u32 (.~ (a .^ b))) inst.
Definition nandx inst := logical (fun a b => u32 (.~ (a .& b))) inst.
Definition norx inst := logical (fun a b => u32 (.~ (a .| b))) inst.
Definition orx inst := logical (fun a b => a .| b) inst.
Definition orcx inst := logical (fun a b => a .| u32 (.~ b)) inst.
Definition xorx inst := logical (fun a b => a .^ b) inst.
(** [std::countl_zero] on 32 bits. *)
Definition countl_zero (x : Z) : Z := if x =? 0 then 32 else 31 - Z.log2 x.
Definition cntlzwx inst := logical (fun a _ => countl_zero a) inst.
Definition extsbx inst := logical (fun a _ => u32 (s8 a)) inst.
Definition extshx inst := logical (fun a _ => u32 (s16 a)) inst.
Definition slwx inst := logical (fun a amount =>
  if negb (amount .& 0x20 =? 0) then 0 else u32 (a .<< (amount .& 0x1f))) inst.
Definition srwx inst := logical (fun a amount =>
  if negb (amount .& 0x20 =? 0) then 0 else a .>> (amount .& 0x1f)) inst.

(** [rrs >> amount] and the carry of the arithmetic shifts. *)
Definition sraw_by (amount : Z) inst (s : PowerPCState) : PowerPCState :=
  let rrs := s32 (rs s inst) in
  let s := set_gpr (RA inst) (u32 (rrs .>> amount)) s in
  SetCarry ((rrs <? 0) && (0 <? amount) && negb (u32 (u32 rrs .<< (32 - amount)) =? 0)) s.
Definition srawx inst (s : PowerPCState) : PowerPCState :=
  let b := rb s inst in
  let s :=
    if negb (b .& 0x20 =? 0) then
      if negb (rs s inst .& 0x80000000 =? 0) then SetCarry true (set_gpr (RA inst) 0xFFFFFFFF s)
      else SetCarry false (set_gpr (RA inst) 0 s)
    else sraw_by (b .& 0x1f) inst s in
  record inst (ra s inst) s.
Definition srawix inst (s : PowerPCState) : PowerPCState :=
  let s := sraw_by (SH inst) inst s in record inst (ra s inst) s.

Definition HasAddOverflowed (x y result : Z) : bool := negb (((x .^ result) .& (y .^ result)) .>> 31 =? 0).

(** The end of the additions: the carry if the instruction has one, OV and CR0. *)
Definition add_done inst (a b result : Z) (carry : option bool) (s : PowerPCState) : PowerPCState :=
  let s := set_gpr (RD inst) result s in
  let s := match carry with Some c => SetCarry c s | None => s end in
  let s := if OE inst then SetXER_OV (HasAddOverflowed a b result) s else s in
  record inst result s.

Definition addx inst (s : PowerPCState) : PowerPCState :=
  let a := ra s inst in let b := rb s inst in
  add_done inst a b (u32 (a + b)) None s.
Definition addcx inst (s : PowerPCState) : PowerPCState :=
  let a := ra s inst in let b := rb s inst in
  add_done inst a b (u32 (a + b)) (Some (Helper_Carry a b)) s.
Definition addex inst (s : PowerPCState) : PowerPCState :=
  let carry := GetCarry s in let a := ra s inst in let b := rb s inst in
  add_done inst a b (u32 (u32 (a + b) + carry))
    (Some (Helper_Carry a b || (negb (carry =? 0) && Helper_Carry (u32 (a + b)) carry))) s.
Definition addmex inst (s : PowerPCState) : PowerPCState :=
  let carry := GetCarry s in let a := ra s inst in let b := 0xFFFFFFFF in
  add_done inst a b (u32 (u32 (a + b) + carry)) (Some (Helper_Carry a (u32 (carry - 1)))) s.
Definition addzex inst (s : PowerPCState) : PowerPCState :=
  let carry := GetCarry s in let a := ra s inst in
  add_done inst a 0 (u32 (a + carry)) (Some (Helper_Carry a carry)) s.
Definition subfx inst (s : PowerPCState) : PowerPCState :=
  let a := u32 (.~ ra s inst) in let b := rb s inst in
  add_done inst a b (u32 (u32 (a + b) + 1)) None s.
Definition subfcx inst (s : PowerPCState) : PowerPCState :=
  let a := u32 (.~ ra s inst) in let b := rb s inst in
  add_done inst a b (u32 (u32 (a + b) + 1)) (Some ((a =? 0xFFFFFFFF) || Helper_Carry b (u32 (a + 1)))) s.
Definition subfex inst (s : PowerPCState) : PowerPCState :=
  let a := u32 (.~ ra s inst) in let b := rb s inst in let carry := GetCarry s in
  add_done inst a b (u32 (u32 (a + b) + carry)) (Some (Helper_Carry a b || Helper_Carry (u32 (a + b)) carry)) s.
Definition subfmex inst (s : PowerPCState) : PowerPCState :=
  let a := u32 (.~ ra s inst) in let b := 0xFFFFFFFF in let carry := GetCarry s in
  add_done inst a b (u32 (u32 (a + b) + carry)) (Some (Helper_Carry a (u32 (carry - 1)))) s.
Definition subfzex inst (s : PowerPCState) : PowerPCState :=
  let a := u32 (.~ ra s inst) in let carry := GetCarry s in
  add_done inst a 0 (u32 (a + carry)) (Some (Helper_Carry a carry)) s.
Definition negx inst (s : PowerPCState) : PowerPCState :=
  let a := ra s inst in
  let s := set_gpr (RD inst) (u32 (u32 (.~ a) + 1)) s in
  let s := if OE inst then SetXER_OV (a =? 0x80000000) s else s in
  record inst (get_gpr s (RD inst)) s.

Definition divwx inst (s : PowerPCState) : PowerPCState :=
  let a := s32 (ra s inst) in let b := s32 (rb s inst) in
  let overflow := (b =? 0) || ((u32 a =? 0x80000000) && (b =? -1)) in
  let s :=
    if overflow then set_gpr (RD inst) (if a <? 0 then 0xFFFFFFFF else 0) s
    else set_gpr (RD inst) (u32 (Z.quot a b)) s in
  let s := if OE inst then SetXER_OV overflow s else s in
  record inst (get_gpr s (RD inst)) s.
Definition divwux inst (s : PowerPCState) : PowerPCState :=
  let a := ra s inst in let b := rb s inst in
  let overflow := b =? 0 in
  let s := set_gpr (RD inst) (if overflow then 0 else a / b) s in
  let s := if OE inst then SetXER_OV overflow s else s in
  record inst (get_gpr s (RD inst)) s.
Definition mulhwx inst (s : PowerPCState) : PowerPCState :=
  let d := u32 ((s32 (ra s inst) * s32 (rb s inst)) .>> 32) in
  record inst d (set_gpr (RD inst) d s).
Definition mulhwux inst (s : PowerPCState) : PowerPCState :=
  let d := u32 ((ra s inst * rb s inst) .>> 32) in
  record inst d (set_gpr (RD inst) d s).
Definition mullwx inst (s : PowerPCState) : PowerPCState :=
  let result := s32 (ra s inst) * s32 (rb s inst) in
  let s := set_gpr (RD inst) (u32 result) s in
  let s := if OE inst then SetXER_OV ((result <? -0x80000000) || (0x7FFFFFFF <? result)) s else s in
  record inst (get_gpr s (RD inst)) s.
