(* ===== verification/PPCBranch.v ===== *)
(** * Branches and system calls (Interpreter/Interpreter_Branch.cpp)

    The branch watch of the debugger and high-level replacement functions are
    left out. *)
From S2P Require Export PPCExceptions.

Definition set_LR v := set_spr SPR_LR v.
Definition decrement_CTR (s : PowerPCState) : PowerPCState := set_spr SPR_CTR (u32 (CTR s - 1)) s.
Definition link (b : bool) (s : PowerPCState) : PowerPCState := if b then set_LR (u32 (pc s + 4)) s else s.

Definition bx inst (s : PowerPCState) : PowerPCState :=
  let s := link (LK inst) s in
  let destination_addr := u32 (SignExt26 (LI inst .<< 2)) in
  let destination_addr := if negb (AA inst) then u32 (destination_addr + pc s) else destination_addr in
  set_end_block true (set_npc destination_addr s).

Definition bcx inst (s : PowerPCState) : PowerPCState :=
  let s := if BO inst .& BO_DONT_DECREMENT_FLAG =? 0 then decrement_CTR s else s in
  let true_false := negb ((BO inst .>> 3) .& 1 =? 0) in
  let only_counter_check := negb ((BO inst .>> 4) .& 1 =? 0) in
  let only_condition_check := negb ((BO inst .>> 2) .& 1 =? 0) in
  let ctr_check := (Z.b2z (negb (CTR s =? 0)) .^ (BO inst .>> 1)) .& 1 in
  let counter := only_condition_check || negb (ctr_check =? 0) in
  let condition := only_counter_check || (GetBit (BI inst) s =? Z.b2z true_false) in
  let s :=
    if counter && condition then
      let s := link (LK inst) s in
      let destination_addr := u32 (SignExt16 (s16 (BD inst .<< 2))) in
      let destination_addr := if negb (AA inst) then u32 (destination_addr + pc s) else destination_addr in
      set_npc destination_addr s
    else s in
  set_end_block true s.

(** [((BO >> 4) | (GetBit(BI) == ((BO >> 3) & 1))) & 1] *)
Definition branch_condition inst (s : PowerPCState) : Z :=
  ((BO inst .>> 4) .| Z.b2z (GetBit (BI inst) s =? (BO inst .>> 3) .& 1)) .& 1.

Definition bcctrx inst (s : PowerPCState) : PowerPCState :=
  let s :=
    if negb (branch_condition inst s =? 0) then
      link (LK inst) (set_npc (CTR s .& .~ 3) s)
    else s in
  set_end_block true s.

Definition bclrx inst (s : PowerPCState) : PowerPCState :=
  let s := if BO inst .& BO_DONT_DECREMENT_FLAG =? 0 then decrement_CTR s else s in
  let counter := ((BO inst .>> 2) .| (Z.b2z (negb (CTR s =? 0)) .^ (BO inst .>> 1))) .& 1 in
  let s :=
    if negb (counter .& branch_condition inst s =? 0) then
      link (LK inst) (set_npc (LR s .& .~ 3) s)
    else s in
  set_end_block true s.

Definition rfi (inst : Z) (s : PowerPCState) : PowerPCState :=
  if MSR_PR s then GenerateProgramException PrivilegedInstruction s
  else
    let s := set_msr ((msr s .& .~ SRR1_MASK) .| (SRR1 s .& SRR1_MASK)) s in
    let s := set_msr (msr s .& 0xFFFBFFFF) s in
    set_end_block true (MSRUpdated (set_npc (SRR0 s) s)).

Definition sc (inst : Z) (s : PowerPCState) : PowerPCState :=
  set_end_block true (CheckExceptions (set_Exceptions (Exceptions s .| EXCEPTION_SYSCALL) s)).
