(* ===== verification/PPCSystem.v ===== *)
(** * Condition register and machine state
    (Interpreter/Interpreter_SystemRegisters.cpp, Interpreter_FPUtils.h)

    The host's rounding mode, which follows the FPSCR, and the translation
    caches, which follow the segment registers, are outside this state.
    [mfspr], [mtspr] and [mftb] are not modelled: they reach the timers, the
    memory management unit and the gather pipe. *)
From S2P Require Export PPCExceptions.

Definition FPSCR_FX : Z := 0x80000000.
Definition FPSCR_VX_ANY : Z := 0x01F80700.
Definition FPSCR_ANY_X : Z := 0x1FF80700.
Definition FPSCR_ANY_E : Z := 0x000000F8.
(** The reserved bit of the FPSCR is never set by an assignment. *)
Definition FPSCR_mask : Z := 0xFFFFF7FF.

Definition set_bit_to (i : Z) (b : bool) (w : Z) : Z := (w .& .~ (1 .<< i)) .| (Z.b2z b .<< i).

Definition UpdateFPExceptionSummary (s : PowerPCState) : PowerPCState :=
  let s := set_fpscr (set_bit_to 29 (negb (fpscr s .& FPSCR_VX_ANY =? 0)) (fpscr s)) s in
  let s := set_fpscr (set_bit_to 30 (negb ((fpscr s .>> 22) .& (fpscr s .& FPSCR_ANY_E) =? 0)) (fpscr s)) s in
  CheckFPExceptions s.
Definition SetFPException (mask : Z) (s : PowerPCState) : PowerPCState :=
  let s := if negb (fpscr s .& mask =? mask) then set_fpscr (set_bit_to 31 true (fpscr s)) s else s in
  UpdateFPExceptionSummary (set_fpscr (fpscr s .| mask) s).
Definition FPSCRUpdated (s : PowerPCState) : PowerPCState := UpdateFPExceptionSummary s.
Definition record_cr1 inst (s : PowerPCState) : PowerPCState := if bit_at inst 0 then UpdateCR1 s else s.

Definition mtfsb0x inst (s : PowerPCState) : PowerPCState :=
  let b := 0x80000000 .>> CRBD inst in
  record_cr1 inst (FPSCRUpdated (set_fpscr (fpscr s .& .~ b) s)).
Definition mtfsb1x inst (s : PowerPCState) : PowerPCState :=
  let b := 0x80000000 .>> CRBD inst in
  let s := if negb (b .& FPSCR_ANY_X =? 0) then SetFPException b s else set_fpscr (fpscr s .| (b .& FPSCR_mask)) s in
  record_cr1 inst (FPSCRUpdated s).
Definition mtfsfix inst (s : PowerPCState) : PowerPCState :=
  let field := CRFD inst in
  let mask := 0xF0000000 .>> (4 * field) in
  let imm := u32 (inst .<< 16) .& 0xF0000000 in
  record_cr1 inst (FPSCRUpdated (set_fpscr (((fpscr s .& .~ mask) .| (imm .>> (4 * field))) .& FPSCR_mask) s)).
(** The loop over the fields of a mask. *)
Definition expand_mask (fm : Z) : Z :=
  fold_left (fun m i => if negb (fm .& (1 .<< Z.of_nat i) =? 0) then m .| (0xF .<< (Z.of_nat i * 4)) else m) (seq 0 8) 0.
Definition mtfsfx inst (s : PowerPCState) : PowerPCState :=
  let m := expand_mask (FM inst) in
  let b := u32 (fst (nth (Z.to_nat (FB inst)) (ps s) (0, 0))) in
  record_cr1 inst (FPSCRUpdated (set_fpscr (((fpscr s .& .~ m) .| (b .& m)) .& FPSCR_mask) s)).
Definition mcrfs inst (s : PowerPCState) : PowerPCState :=
  let shift := 4 * (7 - CRFS inst) in
  let fpflags := (fpscr s .>> shift) .& 0xF in
  let s := set_fpscr (fpscr s .& .~ ((0xF .<< shift) .& (FPSCR_FX .| FPSCR_ANY_X))) s in
  SetField (CRFD inst) fpflags (FPSCRUpdated s).
Definition mffsx inst (s : PowerPCState) : PowerPCState :=
  let fd := Z.to_nat (FD inst) in
  let ps1 := snd (nth fd (ps s) (0, 0)) in
  record_cr1 inst (set_ps (<[fd := (0xFFF8000000000000 .| fpscr s, ps1)]> (ps s)) s).

Definition mcrxr inst (s : PowerPCState) : PowerPCState :=
  let s := SetField (CRFD inst) (GetXER s .>> 28) s in
  set_xer 0 0 (xer_stringctrl s) s.
Definition mfcr inst (s : PowerPCState) : PowerPCState := set_gpr (RD inst) (cr_Get s) s.
Definition mtcrf inst (s : PowerPCState) : PowerPCState :=
  let crm := CRM inst in
  let v := get_gpr s (RS inst) in
  if crm =? 0xFF then cr_Set v s
  else let mask := expand_mask crm in cr_Set ((cr_Get s .& .~ mask) .| (v .& mask)) s.

(** [if (msr.PR) { GenerateProgramException(...); return; }] *)
Definition privileged (f : PowerPCState -> PowerPCState) (s : PowerPCState) : PowerPCState :=
  if MSR_PR s then GenerateProgramException PrivilegedInstruction s else f s.
Definition mfmsr inst : PowerPCState -> PowerPCState := privileged (fun s => set_gpr (RD inst) (msr s) s).
Definition mfsr inst : PowerPCState -> PowerPCState := privileged (fun s => set_gpr (RD inst) (get_sr s (SR inst)) s).
Definition mfsrin inst : PowerPCState -> PowerPCState := privileged (fun s =>
  set_gpr (RD inst) (get_sr s ((get_gpr s (RB inst) .>> 28) .& 0xF)) s).
Definition mtmsr inst : PowerPCState -> PowerPCState := privileged (fun s =>
  let s := MSRUpdated (set_msr (get_gpr s (RS inst)) s) in
  set_end_block true (CheckExceptions (CheckFPExceptions s))).
Definition mtsr inst : PowerPCState -> PowerPCState := privileged (fun s =>
  set_sr (SR inst) (get_gpr s (RS inst)) s).
Definition mtsrin inst : PowerPCState -> PowerPCState := privileged (fun s =>
  set_sr ((get_gpr s (RB inst) .>> 28) .& 0xF) (get_gpr s (RS inst)) s).

(** The logical instructions on bits of the condition register. *)
Definition cr_logical (f : Z -> Z -> Z) inst (s : PowerPCState) : PowerPCState :=
  let a := GetBit (CRBA inst) s in
  let b := GetBit (CRBB inst) s in
  SetBit (CRBD inst) (f a b) s.
Definition crand inst := cr_logical (fun a b => a .& b) inst.
Definition crandc inst := cr_logical (fun a b => a .& (1 .^ b)) inst.
Definition creqv inst := cr_logical (fun a b => 1 .^ (a .^ b)) inst.
Definition crnand inst := cr_logical (fun a b => 1 .^ (a .& b)) inst.
Definition crnor inst := cr_logical (fun a b => 1 .^ (a .| b)) inst.
Definition cror inst := cr_logical (fun a b => a .| b) inst.
Definition crorc inst := cr_logical (fun a b => a .| (1 .^ b)) inst.
Definition crxor inst := cr_logical (fun a b => a .^ b) inst.
Definition mcrf inst (s : PowerPCState) : PowerPCState := SetField (CRFD inst) (GetField (CRFS inst) s) s.
Definition isync (inst : Z) (s : PowerPCState) : PowerPCState := s.
