(* ===== verification/PPCFloat.v ===== *)
(** * Floating-point moves and format conversions
    (Interpreter/Interpreter_FloatingPoint.cpp, Interpreter_Paired.cpp,
    Interpreter_FPUtils.h)

    The instructions that copy bits between floating-point registers, and the
    conversions between the single format of memory and the double format of the
    registers.  A double is the 64-bit word of its representation. *)
From S2P Require Export PPCSystem.

Definition FA inst := field inst 16 5.
Definition FC inst := field inst 6 5.

Definition get_ps (s : PowerPCState) (i : Z) : Z * Z := nth (Z.to_nat i) (ps s) (0, 0).
Definition SetBoth (i lhs rhs : Z) (s : PowerPCState) : PowerPCState := set_ps (<[Z.to_nat i := (lhs, rhs)]> (ps s)) s.
Definition SetPS0 (i v : Z) (s : PowerPCState) : PowerPCState := SetBoth i v (snd (get_ps s i)) s.

Definition DOUBLE_SIGN : Z := 0x8000000000000000.
Definition DOUBLE_EXP : Z := 0x7FF0000000000000.
Definition DOUBLE_FRAC : Z := 0x000FFFFFFFFFFFFF.

(** [x >= -0.0]: false for a NaN and for a negative number. *)
Definition ge_neg_zero (x : Z) : bool :=
  let magnitude := x .& 0x7FFFFFFFFFFFFFFF in
  (magnitude <=? DOUBLE_EXP) && ((x <? DOUBLE_SIGN) || (magnitude =? 0)).

Definition fmrx inst (s : PowerPCState) : PowerPCState :=
  record_cr1 inst (SetPS0 (FD inst) (fst (get_ps s (FB inst))) s).
Definition fabsx inst (s : PowerPCState) : PowerPCState :=
  record_cr1 inst (SetPS0 (FD inst) (fst (get_ps s (FB inst)) .& 0x7FFFFFFFFFFFFFFF) s).
Definition fnabsx inst (s : PowerPCState) : PowerPCState :=
  record_cr1 inst (SetPS0 (FD inst) (fst (get_ps s (FB inst)) .| DOUBLE_SIGN) s).
Definition fnegx inst (s : PowerPCState) : PowerPCState :=
  record_cr1 inst (SetPS0 (FD inst) (fst (get_ps s (FB inst)) .^ DOUBLE_SIGN) s).
Definition fselx inst (s : PowerPCState) : PowerPCState :=
  let a := get_ps s (FA inst) in let b := get_ps s (FB inst) in let c := get_ps s (FC inst) in
  record_cr1 inst (SetPS0 (FD inst) (if ge_neg_zero (fst a) then fst c else fst b) s).

Definition ps_sel inst (s : PowerPCState) : PowerPCState :=
  let a := get_ps s (FA inst) in let b := get_ps s (FB inst) in let c := get_ps s (FC inst) in
  record_cr1 inst (SetBoth (FD inst) (if ge_neg_zero (fst a) then fst c else fst b)
    (if ge_neg_zero (snd a) then snd c else snd b) s).
Definition ps_neg inst (s : PowerPCState) : PowerPCState :=
  let b := get_ps s (FB inst) in
  record_cr1 inst (SetBoth (FD inst) (fst b .^ DOUBLE_SIGN) (snd b .^ DOUBLE_SIGN) s).
Definition ps_mr inst (s : PowerPCState) : PowerPCState :=
  let b := get_ps s (FB inst) in record_cr1 inst (SetBoth (FD inst) (fst b) (snd b) s).
Definition ps_nabs inst (s : PowerPCState) : PowerPCState :=
  let b := get_ps s (FB inst) in
  record_cr1 inst (SetBoth (FD inst) (fst b .| DOUBLE_SIGN) (snd b .| DOUBLE_SIGN) s).
Definition ps_abs inst (s : PowerPCState) : PowerPCState :=
  let b := get_ps s (FB inst) in
  record_cr1 inst (SetBoth (FD inst) (fst b .& .~ DOUBLE_SIGN) (snd b .& .~ DOUBLE_SIGN) s).
Definition ps_merge00 inst (s : PowerPCState) : PowerPCState :=
  record_cr1 inst (SetBoth (FD inst) (fst (get_ps s (FA inst))) (fst (get_ps s (FB inst))) s).
Definition ps_merge01 inst (s : PowerPCState) : PowerPCState :=
  record_cr1 inst (SetBoth (FD inst) (fst (get_ps s (FA inst))) (snd (get_ps s (FB inst))) s).
Definition ps_merge10 inst (s : PowerPCState) : PowerPCState :=
  record_cr1 inst (SetBoth (FD inst) (snd (get_ps s (FA inst))) (fst (get_ps s (FB inst))) s).
Definition ps_merge11 inst (s : PowerPCState) : PowerPCState :=
  record_cr1 inst (SetBoth (FD inst) (snd (get_ps s (FA inst))) (snd (get_ps s (FB inst))) s).

(** ** Formats *)

Definition ConvertToSingle (x : Z) : Z :=
  let exp := (x .>> 52) .& 0x7ff in
  let plain := u32 (((x .>> 32) .& 0xc0000000) .| ((x .>> 29) .& 0x3fffffff)) in
  if (896 <? exp) || (x .& .~ DOUBLE_SIGN =? 0) then plain
  else if 874 <=? exp then
    let t := u32 (0x80000000 .| ((x .& DOUBLE_FRAC) .>> 21)) in
    let t := t .>> (905 - exp) in
    t .| u32 ((x .>> 32) .& 0x80000000)
  else plain.

Definition ConvertToSingleFTZ (x : Z) : Z :=
  let exp := (x .>> 52) .& 0x7ff in
  if (896 <? exp) || (x .& .~ DOUBLE_SIGN =? 0) then u32 (((x .>> 32) .& 0xc0000000) .| ((x .>> 29) .& 0x3fffffff))
  else u32 ((x .>> 32) .& 0x80000000).

(** [do { frac <<= 1; exp -= 1; } while ((frac & 0x00800000) == 0);] *)
Fixpoint normalize (fuel : nat) (frac exp : Z) : option (Z * Z) :=
  match fuel with
  | O => None
  | S fuel =>
      let frac := u64 (frac .<< 1) in
      let exp := u64 (exp - 1) in
      if frac .& 0x00800000 =? 0 then normalize fuel frac exp else Some (frac, exp)
  end.
(** A fraction of 23 bits needs at most 23 turns ([normalize_ends]). *)
Definition normalize_fuel : nat := 23.

Definition ConvertToDouble (value : Z) : option Z :=
  let x := value in
  let exp := (x .>> 23) .& 0xff in
  let frac := x .& 0x007fffff in
  let wide (y : Z) :=
    let z := (y .<< 61) .| (y .<< 60) .| (y .<< 59) in
    ((x .& 0xc0000000) .<< 32) .| z .| ((x .& 0x3fffffff) .<< 29) in
  if (0 <? exp) && (exp <? 255) then Some (wide (Z.b2z (exp .>> 7 =? 0)))
  else if (exp =? 0) && negb (frac =? 0) then
    option_map (fun '(frac, exp) => ((x .& 0x80000000) .<< 32) .| (exp .<< 52) .| ((frac .& 0x007fffff) .<< 29))
      (normalize normalize_fuel frac (1023 - 126))
  else Some (wide (exp .>> 7)).
