(* ===== verification/PPCOpcodes.v ===== *)
(** * Opcode tables of the PowerPC interpreter (Interpreter/Interpreter_Tables.cpp)

    The functions the tables point to are values of the enumeration [Op.t], whose
    constructors have the functions' names.  The tables the interpreter indexes
    are built as the constant expressions of the file build them; an assertion
    that fails there makes the construction [None] here. *)
From S2P Require Export PPCState.
From Stdlib Require Import String.

Module Op.

(** The instructions of the interpreter, by the name of their function. *)
Inductive t :=
  | unknown_instruction | RunTable4 | RunTable19 | RunTable31 | RunTable59 | RunTable63 | bcx | bx | twi | sc
  | mulli | subfic | cmpli | cmpi | addic | addic_rc | addi | addis | rlwimix | rlwinmx | rlwnmx | ori | oris
  | xori | xoris | andi_rc | andis_rc | lwz | lwzu | lbz | lbzu | lhz | lhzu | lha | lhau | sth | sthu | stw
  | stwu | stb | stbu | lmw | stmw | lfs | lfsu | lfd | lfdu | stfs | stfsu | stfd | stfdu | psq_l | psq_lu
  | psq_st | psq_stu | ps_cmpu0 | ps_cmpo0 | ps_neg | ps_nabs | ps_abs | ps_cmpu1 | ps_mr | ps_cmpo1
  | ps_merge00 | ps_merge01 | ps_merge10 | ps_merge11 | dcbz_l | ps_sum0 | ps_sum1 | ps_muls0 | ps_muls1
  | ps_madds0 | ps_madds1 | ps_div | ps_sub | ps_add | ps_sel | ps_res | ps_mul | ps_rsqrte | ps_msub | ps_madd
  | ps_nmsub | ps_nmadd | psq_lx | psq_stx | psq_lux | psq_stux | bcctrx | bclrx | crand | crandc | creqv
  | crnand | crnor | cror | crorc | crxor | isync | mcrf | rfi | addx | addcx | addex | addmex | addzex | divwx
  | divwux | mulhwx | mulhwux | mullwx | negx | subfx | subfcx | subfex | subfmex | subfzex | andx | andcx
  | orx | norx | xorx | orcx | nandx | eqvx | cmp | cmpl | cntlzwx | extshx | extsbx | srwx | srawx | srawix
  | slwx | dcbst | dcbf | dcbtst | dcbt | dcbi | dcba | dcbz | lwzx | lwzux | lhzx | lhzux | lhax | lhaux
  | lbzx | lbzux | lwbrx | lhbrx | stwcxd | lwarx | lswx | lswi | stwx | stwux | sthx | sthux | stbx | stbux
  | stwbrx | sthbrx | stswx | stswi | lfsx | lfsux | lfdx | lfdux | stfsx | stfsux | stfdx | stfdux | stfiwx
  | mfcr | mfmsr | mtcrf | mtmsr | mtsr | mtsrin | mfspr | mtspr | mftb | mcrxr | mfsr | mfsrin | tw | sync
  | icbi | eciwx | ecowx | eieio | tlbie | tlbsync | fdivsx | fsubsx | faddsx | fresx | fmulsx | fmsubsx
  | fmaddsx | fnmsubsx | fnmaddsx | fabsx | fcmpo | fcmpu | fctiwx | fctiwzx | fmrx | fnabsx | fnegx | frspx
  | mcrfs | mffsx | mtfsb0x | mtfsb1x | mtfsfix | mtfsfx | fdivx | fsubx | faddx | fselx | fmulx | frsqrtex
  | fmsubx | fmaddx | fnmsubx | fnmaddx.

(** The spelling of the names. *)
Definition name (op : t) : string :=
  match op with
  | unknown_instruction => "unknown_instruction"
  | RunTable4 => "RunTable4"
  | RunTable19 => "RunTable19"
  | RunTable31 => "RunTable31"
  | RunTable59 => "RunTable59"
  | RunTable63 => "RunTable63"
  | bcx => "bcx"
  | bx => "bx"
  | twi => "twi"
  | sc => "sc"
  | mulli => "mulli"
  | subfic => "subfic"
  | cmpli => "cmpli"
  | cmpi => "cmpi"
  | addic => "addic"
  | addic_rc => "addic_rc"
  | addi => "addi"
  | addis => "addis"
  | rlwimix => "rlwimix"
  | rlwinmx => "rlwinmx"
  | rlwnmx => "rlwnmx"
  | ori => "ori"
  | oris => "oris"
  | xori => "xori"
  | xoris => "xoris"
  | andi_rc => "andi_rc"
  | andis_rc => "andis_rc"
  | lwz => "lwz"
  | lwzu => "lwzu"
  | lbz => "lbz"
  | lbzu => "lbzu"
  | lhz => "lhz"
  | lhzu => "lhzu"
  | lha => "lha"
  | lhau => "lhau"
  | sth => "sth"
  | sthu => "sthu"
  | stw => "stw"
  | stwu => "stwu"
  | stb => "stb"
  | stbu => "stbu"
  | lmw => "lmw"
  | stmw => "stmw"
  | lfs => "lfs"
  | lfsu => "lfsu"
  | lfd => "lfd"
  | lfdu => "lfdu"
  | stfs => "stfs"
  | stfsu => "stfsu"
  | stfd => "stfd"
  | stfdu => "stfdu"
  | psq_l => "psq_l"
  | psq_lu => "psq_lu"
  | psq_st => "psq_st"
  | psq_stu => "psq_stu"
  | ps_cmpu0 => "ps_cmpu0"
  | ps_cmpo0 => "ps_cmpo0"
  | ps_neg => "ps_neg"
  | ps_nabs => "ps_nabs"
  | ps_abs => "ps_abs"
  | ps_cmpu1 => "ps_cmpu1"
  | ps_mr => "ps_mr"
  | ps_cmpo1 => "ps_cmpo1"
  | ps_merge00 => "ps_merge00"
  | ps_merge01 => "ps_merge01"
  | ps_merge10 => "ps_merge10"
  | ps_merge11 => "ps_merge11"
  | dcbz_l => "dcbz_l"
  | ps_sum0 => "ps_sum0"
  | ps_sum1 => "ps_sum1"
  | ps_muls0 => "ps_muls0"
  | ps_muls1 => "ps_muls1"
  | ps_madds0 => "ps_madds0"
  | ps_madds1 => "ps_madds1"
  | ps_div => "ps_div"
  | ps_sub => "ps_sub"
  | ps_add => "ps_add"
  | ps_sel => "ps_sel"
  | ps_res => "ps_res"
  | ps_mul => "ps_mul"
  | ps_rsqrte => "ps_rsqrte"
  | ps_msub => "ps_msub"
  | ps_madd => "ps_madd"
  | ps_nmsub => "ps_nmsub"
  | ps_nmadd => "ps_nmadd"
  | psq_lx => "psq_lx"
  | psq_stx => "psq_stx"
  | psq_lux => "psq_lux"
  | psq_stux => "psq_stux"
  | bcctrx => "bcctrx"
  | bclrx => "bclrx"
  | crand => "crand"
  | crandc => "crandc"
  | creqv => "creqv"
  | crnand => "crnand"
  | crnor => "crnor"
  | cror => "cror"
  | crorc => "crorc"
  | crxor => "crxor"
  | isync => "isync"
  | mcrf => "mcrf"
  | rfi => "rfi"
  | addx => "addx"
  | addcx => "addcx"
  | addex => "addex"
  | addmex => "addmex"
  | addzex => "addzex"
  | divwx => "divwx"
  | divwux => "divwux"
  | mulhwx => "mulhwx"
  | mulhwux => "mulhwux"
  | mullwx => "mullwx"
  | negx => "negx"
  | subfx => "subfx"
  | subfcx => "subfcx"
  | subfex => "subfex"
  | subfmex => "subfmex"
  | subfzex => "subfzex"
  | andx => "andx"
  | andcx => "andcx"
  | orx => "orx"
  | norx => "norx"
  | xorx => "xorx"
  | orcx => "orcx"
  | nandx => "nandx"
  | eqvx => "eqvx"
  | cmp => "cmp"
  | cmpl => "cmpl"
  | cntlzwx => "cntlzwx"
  | extshx => "extshx"
  | extsbx => "extsbx"
  | srwx => "srwx"
  | srawx => "srawx"
  | srawix => "srawix"
  | slwx => "slwx"
  | dcbst => "dcbst"
  | dcbf => "dcbf"
  | dcbtst => "dcbtst"
  | dcbt => "dcbt"
  | dcbi => "dcbi"
  | dcba => "dcba"
  | dcbz => "dcbz"
  | lwzx => "lwzx"
  | lwzux => "lwzux"
  | lhzx => "lhzx"
  | lhzux => "lhzux"
  | lhax => "lhax"
  | lhaux => "lhaux"
  | lbzx => "lbzx"
  | lbzux => "lbzux"
  | lwbrx => "lwbrx"
  | lhbrx => "lhbrx"
  | stwcxd => "stwcxd"
  | lwarx => "lwarx"
  | lswx => "lswx"
  | lswi => "lswi"
  | stwx => "stwx"
  | stwux => "stwux"
  | sthx => "sthx"
  | sthux => "sthux"
  | stbx => "stbx"
  | stbux => "stbux"
  | stwbrx => "stwbrx"
  | sthbrx => "sthbrx"
  | stswx => "stswx"
  | stswi => "stswi"
  | lfsx => "lfsx"
  | lfsux => "lfsux"
  | lfdx => "lfdx"
  | lfdux => "lfdux"
  | stfsx => "stfsx"
  | stfsux => "stfsux"
  | stfdx => "stfdx"
  | stfdux => "stfdux"
  | stfiwx => "stfiwx"
  | mfcr => "mfcr"
  | mfmsr => "mfmsr"
  | mtcrf => "mtcrf"
  | mtmsr => "mtmsr"
  | mtsr => "mtsr"
  | mtsrin => "mtsrin"
  | mfspr => "mfspr"
  | mtspr => "mtspr"
  | mftb => "mftb"
  | mcrxr => "mcrxr"
  | mfsr => "mfsr"
  | mfsrin => "mfsrin"
  | tw => "tw"
  | sync => "sync"
  | icbi => "icbi"
  | eciwx => "eciwx"
  | ecowx => "ecowx"
  | eieio => "eieio"
  | tlbie => "tlbie"
  | tlbsync => "tlbsync"
  | fdivsx => "fdivsx"
  | fsubsx => "fsubsx"
  | faddsx => "faddsx"
  | fresx => "fresx"
  | fmulsx => "fmulsx"
  | fmsubsx => "fmsubsx"
  | fmaddsx => "fmaddsx"
  | fnmsubsx => "fnmsubsx"
  | fnmaddsx => "fnmaddsx"
  | fabsx => "fabsx"
  | fcmpo => "fcmpo"
  | fcmpu => "fcmpu"
  | fctiwx => "fctiwx"
  | fctiwzx => "fctiwzx"
  | fmrx => "fmrx"
  | fnabsx => "fnabsx"
  | fnegx => "fnegx"
  | frspx => "frspx"
  | mcrfs => "mcrfs"
  | mffsx => "mffsx"
  | mtfsb0x => "mtfsb0x"
  | mtfsb1x => "mtfsb1x"
  | mtfsfix => "mtfsfix"
  | mtfsfx => "mtfsfx"
  | fdivx => "fdivx"
  | fsubx => "fsubx"
  | faddx => "faddx"
  | fselx => "fselx"
  | fmulx => "fmulx"
  | frsqrtex => "frsqrtex"
  | fmsubx => "fmsubx"
  | fmaddx => "fmaddx"
  | fnmsubx => "fnmsubx"
  | fnmaddx => "fnmaddx"
  end%string.

Definition is_unknown (op : t) : bool := match op with unknown_instruction => true | _ => false end.

End Op.

(** [InterpreterOpTemplate]: opcode and function *)
Definition InterpreterOpTemplate : Type := Z * Op.t.

Definition s_primary_table : list InterpreterOpTemplate := [
  (4, Op.RunTable4); (19, Op.RunTable19); (31, Op.RunTable31); (59, Op.RunTable59); (63, Op.RunTable63);
  (16, Op.bcx); (18, Op.bx); (3, Op.twi); (17, Op.sc); (7, Op.mulli); (8, Op.subfic); (10, Op.cmpli);
  (11, Op.cmpi); (12, Op.addic); (13, Op.addic_rc); (14, Op.addi); (15, Op.addis); (20, Op.rlwimix);
  (21, Op.rlwinmx); (23, Op.rlwnmx); (24, Op.ori); (25, Op.oris); (26, Op.xori); (27, Op.xoris);
  (28, Op.andi_rc); (29, Op.andis_rc); (32, Op.lwz); (33, Op.lwzu); (34, Op.lbz); (35, Op.lbzu); (40, Op.lhz);
  (41, Op.lhzu); (42, Op.lha); (43, Op.lhau); (44, Op.sth); (45, Op.sthu); (36, Op.stw); (37, Op.stwu);
  (38, Op.stb); (39, Op.stbu); (46, Op.lmw); (47, Op.stmw); (48, Op.lfs); (49, Op.lfsu); (50, Op.lfd);
  (51, Op.lfdu); (52, Op.stfs); (53, Op.stfsu); (54, Op.stfd); (55, Op.stfdu); (56, Op.psq_l); (57, Op.psq_lu);
  (60, Op.psq_st); (61, Op.psq_stu)
].
Definition s_table4 : list InterpreterOpTemplate := [
  (0, Op.ps_cmpu0); (32, Op.ps_cmpo0); (40, Op.ps_neg); (136, Op.ps_nabs); (264, Op.ps_abs); (64, Op.ps_cmpu1);
  (72, Op.ps_mr); (96, Op.ps_cmpo1); (528, Op.ps_merge00); (560, Op.ps_merge01); (592, Op.ps_merge10);
  (624, Op.ps_merge11); (1014, Op.dcbz_l)
].
Definition s_table4_2 : list InterpreterOpTemplate := [
  (10, Op.ps_sum0); (11, Op.ps_sum1); (12, Op.ps_muls0); (13, Op.ps_muls1); (14, Op.ps_madds0);
  (15, Op.ps_madds1); (18, Op.ps_div); (20, Op.ps_sub); (21, Op.ps_add); (23, Op.ps_sel); (24, Op.ps_res);
  (25, Op.ps_mul); (26, Op.ps_rsqrte); (28, Op.ps_msub); (29, Op.ps_madd); (30, Op.ps_nmsub); (31, Op.ps_nmadd)
].
Definition s_table4_3 : list InterpreterOpTemplate := [
  (6, Op.psq_lx); (7, Op.psq_stx); (38, Op.psq_lux); (39, Op.psq_stux)
].
Definition s_table19 : list InterpreterOpTemplate := [
  (528, Op.bcctrx); (16, Op.bclrx); (257, Op.crand); (129, Op.crandc); (289, Op.creqv); (225, Op.crnand);
  (33, Op.crnor); (449, Op.cror); (417, Op.crorc); (193, Op.crxor); (150, Op.isync); (0, Op.mcrf); (50, Op.rfi)
].
Definition s_table31 : list InterpreterOpTemplate := [
  (266, Op.addx); (778, Op.addx); (10, Op.addcx); (522, Op.addcx); (138, Op.addex); (650, Op.addex);
  (234, Op.addmex); (746, Op.addmex); (202, Op.addzex); (714, Op.addzex); (491, Op.divwx); (1003, Op.divwx);
  (459, Op.divwux); (971, Op.divwux); (75, Op.mulhwx); (11, Op.mulhwux); (235, Op.mullwx); (747, Op.mullwx);
  (104, Op.negx); (616, Op.negx); (40, Op.subfx); (552, Op.subfx); (8, Op.subfcx); (520, Op.subfcx);
  (136, Op.subfex); (648, Op.subfex); (232, Op.subfmex); (744, Op.subfmex); (200, Op.subfzex);
  (712, Op.subfzex); (28, Op.andx); (60, Op.andcx); (444, Op.orx); (124, Op.norx); (316, Op.xorx);
  (412, Op.orcx); (476, Op.nandx); (284, Op.eqvx); (0, Op.cmp); (32, Op.cmpl); (26, Op.cntlzwx);
  (922, Op.extshx); (954, Op.extsbx); (536, Op.srwx); (792, Op.srawx); (824, Op.srawix); (24, Op.slwx);
  (54, Op.dcbst); (86, Op.dcbf); (246, Op.dcbtst); (278, Op.dcbt); (470, Op.dcbi); (758, Op.dcba);
  (1014, Op.dcbz); (23, Op.lwzx); (55, Op.lwzux); (279, Op.lhzx); (311, Op.lhzux); (343, Op.lhax);
  (375, Op.lhaux); (87, Op.lbzx); (119, Op.lbzux); (534, Op.lwbrx); (790, Op.lhbrx); (150, Op.stwcxd);
  (20, Op.lwarx); (533, Op.lswx); (597, Op.lswi); (151, Op.stwx); (183, Op.stwux); (407, Op.sthx);
  (439, Op.sthux); (215, Op.stbx); (247, Op.stbux); (662, Op.stwbrx); (918, Op.sthbrx); (661, Op.stswx);
  (725, Op.stswi); (535, Op.lfsx); (567, Op.lfsux); (599, Op.lfdx); (631, Op.lfdux); (663, Op.stfsx);
  (695, Op.stfsux); (727, Op.stfdx); (759, Op.stfdux); (983, Op.stfiwx); (19, Op.mfcr); (83, Op.mfmsr);
  (144, Op.mtcrf); (146, Op.mtmsr); (210, Op.mtsr); (242, Op.mtsrin); (339, Op.mfspr); (467, Op.mtspr);
  (371, Op.mftb); (512, Op.mcrxr); (595, Op.mfsr); (659, Op.mfsrin); (4, Op.tw); (598, Op.sync);
  (982, Op.icbi); (310, Op.eciwx); (438, Op.ecowx); (854, Op.eieio); (306, Op.tlbie); (566, Op.tlbsync)
].
Definition s_table59 : list InterpreterOpTemplate := [
  (18, Op.fdivsx); (20, Op.fsubsx); (21, Op.faddsx); (24, Op.fresx); (25, Op.fmulsx); (28, Op.fmsubsx);
  (29, Op.fmaddsx); (30, Op.fnmsubsx); (31, Op.fnmaddsx)
].
Definition s_table63 : list InterpreterOpTemplate := [
  (264, Op.fabsx); (32, Op.fcmpo); (0, Op.fcmpu); (14, Op.fctiwx); (15, Op.fctiwzx); (72, Op.fmrx);
  (136, Op.fnabsx); (40, Op.fnegx); (12, Op.frspx); (64, Op.mcrfs); (583, Op.mffsx); (70, Op.mtfsb0x);
  (38, Op.mtfsb1x); (134, Op.mtfsfix); (711, Op.mtfsfx)
].
Definition s_table63_2 : list InterpreterOpTemplate := [
  (18, Op.fdivx); (20, Op.fsubx); (21, Op.faddx); (23, Op.fselx); (25, Op.fmulx); (26, Op.frsqrtex);
  (28, Op.fmsubx); (29, Op.fmaddx); (30, Op.fnmsubx); (31, Op.fnmaddx)
].

(** ** The tables the interpreter indexes *)

Definition OpTable : Type := list Op.t.

(** [ASSERT(table[op] == unknown_instruction); table[op] = fn;] *)
Definition set_op (table : option OpTable) (op : Z) (fn : Op.t) : option OpTable :=
  match table with
  | Some t =>
      match t !! Z.to_nat op with
      | Some old => if Op.is_unknown old then Some (<[Z.to_nat op := fn]> t) else None
      | None => None
      end
  | None => None
  end.
(** [table.fill(unknown_instruction)] *)
Definition unknown_table (size : nat) : option OpTable := Some (replicate size Op.unknown_instruction).
(** [for (const auto& tpl : templates) ...], each opcode above the bits of [fill]. *)
Definition set_ops (fill : Z) (templates : list InterpreterOpTemplate) (table : option OpTable) : option OpTable :=
  fold_left (fun t tpl => set_op t (fill + fst tpl) (snd tpl)) templates table.
(** [for (u32 i = 0; i < n; i++) { const u32 fill = i << shift; ... }] *)
Definition set_ops_filled (n : nat) (shift : Z) (templates : list InterpreterOpTemplate) (table : option OpTable)
  : option OpTable :=
  fold_left (fun t i => set_ops (Z.of_nat i .<< shift) templates t) (seq 0 n) table.

Definition make_op_table : option OpTable := set_ops 0 s_primary_table (unknown_table 64).
Definition make_op_table4 : option OpTable :=
  set_ops 0 s_table4 (set_ops_filled 16 6 s_table4_3 (set_ops_filled 32 5 s_table4_2 (unknown_table 1024))).
Definition make_op_table19 : option OpTable := set_ops 0 s_table19 (unknown_table 1024).
Definition make_op_table31 : option OpTable := set_ops 0 s_table31 (unknown_table 1024).
Definition make_op_table59 : option OpTable := set_ops 0 s_table59 (unknown_table 32).
Definition make_op_table63 : option OpTable :=
  set_ops_filled 32 5 s_table63_2 (set_ops 0 s_table63 (unknown_table 1024)).

(** The constants; [PPCAnalystSpec.op_tables_built] shows that no construction fails. *)
Definition s_interpreter_op_table : OpTable := Eval vm_compute in default [] make_op_table.
Definition s_interpreter_op_table4 : OpTable := Eval vm_compute in default [] make_op_table4.
Definition s_interpreter_op_table19 : OpTable := Eval vm_compute in default [] make_op_table19.
Definition s_interpreter_op_table31 : OpTable := Eval vm_compute in default [] make_op_table31.
Definition s_interpreter_op_table59 : OpTable := Eval vm_compute in default [] make_op_table59.
Definition s_interpreter_op_table63 : OpTable := Eval vm_compute in default [] make_op_table63.

Definition op_at (table : OpTable) (i : Z) : Op.t := nth (Z.to_nat i) table Op.unknown_instruction.

Definition GetInterpreterOp (inst : Z) : Op.t :=
  let result := op_at s_interpreter_op_table (OPCD inst) in
  match result with
  | Op.RunTable4 => op_at s_interpreter_op_table4 (SUBOP10 inst)
  | Op.RunTable19 => op_at s_interpreter_op_table19 (SUBOP10 inst)
  | Op.RunTable31 => op_at s_interpreter_op_table31 (SUBOP10 inst)
  | Op.RunTable59 => op_at s_interpreter_op_table59 (SUBOP5 inst)
  | Op.RunTable63 => op_at s_interpreter_op_table63 (SUBOP10 inst)
  | _ => result
  end.

#[global] Arguments GetInterpreterOp : simpl never.
#[global] Arguments op_at : simpl never.
