(* ===== verification/PPCTables.v ===== *)
(** * Static information about the instructions (PPCTables.cpp, PPCTables.h)

    What the recompilers' analysis knows of an instruction without running it:
    name, type, cycles and flags.  The run-time statistics ([stats]) are left
    out.  The table of all instructions and the index tables are built as the
    constant expression [s_tables] builds them; a failing assertion is [None]. *)
From S2P Require Export PPCOpcodes.
From Stdlib Require Import String.

(** ** Flags and types *)

Definition FL_SET_CR0 : Z := 2 ^ 0.
Definition FL_SET_CR1 : Z := 2 ^ 1.
Definition FL_SET_CRn : Z := 2 ^ 2.
Definition FL_SET_CA : Z := 2 ^ 3.
Definition FL_READ_CA : Z := 2 ^ 4.
Definition FL_RC_BIT : Z := 2 ^ 5.
Definition FL_RC_BIT_F : Z := 2 ^ 6.
Definition FL_ENDBLOCK : Z := 2 ^ 7.
Definition FL_IN_A : Z := 2 ^ 8.
Definition FL_IN_A0 : Z := 2 ^ 9.
Definition FL_IN_B : Z := 2 ^ 10.
Definition FL_IN_C : Z := 2 ^ 11.
Definition FL_IN_S : Z := 2 ^ 12.
Definition FL_IN_AB : Z := FL_IN_A .| FL_IN_B.
Definition FL_IN_AC : Z := FL_IN_A .| FL_IN_C.
Definition FL_IN_ABC : Z := FL_IN_A .| FL_IN_B .| FL_IN_C.
Definition FL_IN_SB : Z := FL_IN_S .| FL_IN_B.
Definition FL_IN_A0B : Z := FL_IN_A0 .| FL_IN_B.
Definition FL_IN_A0BC : Z := FL_IN_A0 .| FL_IN_B .| FL_IN_C.
Definition FL_OUT_D : Z := 2 ^ 13.
Definition FL_OUT_A : Z := 2 ^ 14.
Definition FL_OUT_AD : Z := FL_OUT_A .| FL_OUT_D.
Definition FL_TIMER : Z := 2 ^ 15.
Definition FL_CHECKEXCEPTIONS : Z := 2 ^ 16.
Definition FL_NO_REORDER : Z := 2 ^ 17.
Definition FL_USE_FPU : Z := 2 ^ 18.
Definition FL_LOADSTORE : Z := 2 ^ 19.
Definition FL_SET_FPRF : Z := 2 ^ 20.
Definition FL_READ_FPRF : Z := 2 ^ 21.
Definition FL_SET_OE : Z := 2 ^ 22.
Definition FL_IN_FLOAT_A : Z := 2 ^ 23.
Definition FL_IN_FLOAT_B : Z := 2 ^ 24.
Definition FL_IN_FLOAT_C : Z := 2 ^ 25.
Definition FL_IN_FLOAT_S : Z := 2 ^ 26.
Definition FL_IN_FLOAT_D : Z := 2 ^ 27.
Definition FL_IN_FLOAT_AB : Z := FL_IN_FLOAT_A .| FL_IN_FLOAT_B.
Definition FL_IN_FLOAT_AC : Z := FL_IN_FLOAT_A .| FL_IN_FLOAT_C.
Definition FL_IN_FLOAT_ABC : Z := FL_IN_FLOAT_A .| FL_IN_FLOAT_B .| FL_IN_FLOAT_C.
Definition FL_OUT_FLOAT_D : Z := 2 ^ 28.
Definition FL_INOUT_FLOAT_D : Z := FL_IN_FLOAT_D .| FL_OUT_FLOAT_D.
Definition FL_IN_FLOAT_A_BITEXACT : Z := 2 ^ 29.
Definition FL_IN_FLOAT_B_BITEXACT : Z := 2 ^ 30.
Definition FL_IN_FLOAT_C_BITEXACT : Z := 2 ^ 31.
Definition FL_IN_FLOAT_AB_BITEXACT : Z := FL_IN_FLOAT_A_BITEXACT .| FL_IN_FLOAT_B_BITEXACT.
Definition FL_IN_FLOAT_BC_BITEXACT : Z := FL_IN_FLOAT_B_BITEXACT .| FL_IN_FLOAT_C_BITEXACT.
Definition FL_PROGRAMEXCEPTION : Z := 2 ^ 32.
Definition FL_FLOAT_EXCEPTION : Z := 2 ^ 33.
Definition FL_FLOAT_DIV : Z := 2 ^ 34.
Definition FL_SET_ALL_CR : Z := 2 ^ 35.
Definition FL_READ_CRn : Z := 2 ^ 36.
Definition FL_READ_CR_BI : Z := 2 ^ 37.
Definition FL_READ_ALL_CR : Z := 2 ^ 38.
Definition FL_SET_CRx : Z := FL_SET_CR0 .| FL_SET_CR1 .| FL_SET_CRn .| FL_SET_ALL_CR.
Definition FL_READ_CRx : Z := FL_READ_CRn .| FL_READ_CR_BI .| FL_READ_ALL_CR.
Definition FL_SET_MSR : Z := 2 ^ 39.

Module OpType.
(** [OpType] *)
Inductive t :=
  | Invalid | Subtable | Integer | CR | SPR | System | SystemFP | Load | Store | LoadFP | StoreFP | DoubleFP
  | SingleFP | LoadPS | StorePS | PS | DataCache | InstructionCache | Branch | Unknown.
End OpType.

(** [GekkoOPTemplate] *)
Record GekkoOPTemplate := mkTemplate {
  opcode : Z;
  t_opname : string;
  t_type : OpType.t;
  t_num_cycles : Z;
  t_flags : Z
}.

Definition s_unknown_op_info : GekkoOPTemplate := mkTemplate 0 "unknown_instruction" OpType.Unknown 0 FL_ENDBLOCK.

Definition info_primary_table : list GekkoOPTemplate := [
  mkTemplate 4 "RunTable4" OpType.Subtable 0 0;
  mkTemplate 19 "RunTable19" OpType.Subtable 0 0;
  mkTemplate 31 "RunTable31" OpType.Subtable 0 0;
  mkTemplate 59 "RunTable59" OpType.Subtable 0 0;
  mkTemplate 63 "RunTable63" OpType.Subtable 0 0;
  mkTemplate 16 "bcx" OpType.Branch 1 (FL_ENDBLOCK .| FL_READ_CR_BI);
  mkTemplate 18 "bx" OpType.Branch 1 FL_ENDBLOCK;
  mkTemplate 3 "twi" OpType.System 1 (FL_IN_A .| FL_ENDBLOCK);
  mkTemplate 17 "sc" OpType.System 2 FL_ENDBLOCK;
  mkTemplate 7 "mulli" OpType.Integer 3 (FL_OUT_D .| FL_IN_A);
  mkTemplate 8 "subfic" OpType.Integer 1 (FL_OUT_D .| FL_IN_A .| FL_SET_CA);
  mkTemplate 10 "cmpli" OpType.Integer 1 (FL_IN_A .| FL_SET_CRn);
  mkTemplate 11 "cmpi" OpType.Integer 1 (FL_IN_A .| FL_SET_CRn);
  mkTemplate 12 "addic" OpType.Integer 1 (FL_OUT_D .| FL_IN_A .| FL_SET_CA);
  mkTemplate 13 "addic_rc" OpType.Integer 1 (FL_OUT_D .| FL_IN_A .| FL_SET_CA .| FL_SET_CR0);
  mkTemplate 14 "addi" OpType.Integer 1 (FL_OUT_D .| FL_IN_A0);
  mkTemplate 15 "addis" OpType.Integer 1 (FL_OUT_D .| FL_IN_A0);
  mkTemplate 20 "rlwimix" OpType.Integer 1 (FL_OUT_A .| FL_IN_A .| FL_IN_S .| FL_RC_BIT);
  mkTemplate 21 "rlwinmx" OpType.Integer 1 (FL_OUT_A .| FL_IN_S .| FL_RC_BIT);
  mkTemplate 23 "rlwnmx" OpType.Integer 1 (FL_OUT_A .| FL_IN_SB .| FL_RC_BIT);
  mkTemplate 24 "ori" OpType.Integer 1 (FL_OUT_A .| FL_IN_S);
  mkTemplate 25 "oris" OpType.Integer 1 (FL_OUT_A .| FL_IN_S);
  mkTemplate 26 "xori" OpType.Integer 1 (FL_OUT_A .| FL_IN_S);
  mkTemplate 27 "xoris" OpType.Integer 1 (FL_OUT_A .| FL_IN_S);
  mkTemplate 28 "andi_rc" OpType.Integer 1 (FL_OUT_A .| FL_IN_S .| FL_SET_CR0);
  mkTemplate 29 "andis_rc" OpType.Integer 1 (FL_OUT_A .| FL_IN_S .| FL_SET_CR0);
  mkTemplate 32 "lwz" OpType.Load 1 (FL_OUT_D .| FL_IN_A0 .| FL_LOADSTORE);
  mkTemplate 33 "lwzu" OpType.Load 1 (FL_OUT_D .| FL_OUT_A .| FL_IN_A .| FL_LOADSTORE);
  mkTemplate 34 "lbz" OpType.Load 1 (FL_OUT_D .| FL_IN_A0 .| FL_LOADSTORE);
  mkTemplate 35 "lbzu" OpType.Load 1 (FL_OUT_D .| FL_OUT_A .| FL_IN_A .| FL_LOADSTORE);
  mkTemplate 40 "lhz" OpType.Load 1 (FL_OUT_D .| FL_IN_A0 .| FL_LOADSTORE);
  mkTemplate 41 "lhzu" OpType.Load 1 (FL_OUT_D .| FL_OUT_A .| FL_IN_A .| FL_LOADSTORE);
  mkTemplate 42 "lha" OpType.Load 1 (FL_OUT_D .| FL_IN_A0 .| FL_LOADSTORE);
  mkTemplate 43 "lhau" OpType.Load 1 (FL_OUT_D .| FL_OUT_A .| FL_IN_A .| FL_LOADSTORE);
  mkTemplate 44 "sth" OpType.Store 1 (FL_IN_A0 .| FL_IN_S .| FL_LOADSTORE);
  mkTemplate 45 "sthu" OpType.Store 1 (FL_OUT_A .| FL_IN_A .| FL_IN_S .| FL_LOADSTORE);
  mkTemplate 36 "stw" OpType.Store 1 (FL_IN_A0 .| FL_IN_S .| FL_LOADSTORE);
  mkTemplate 37 "stwu" OpType.Store 1 (FL_OUT_A .| FL_IN_A .| FL_IN_S .| FL_LOADSTORE);
  mkTemplate 38 "stb" OpType.Store 1 (FL_IN_A0 .| FL_IN_S .| FL_LOADSTORE);
  mkTemplate 39 "stbu" OpType.Store 1 (FL_OUT_A .| FL_IN_A .| FL_IN_S .| FL_LOADSTORE);
  mkTemplate 46 "lmw" OpType.System 11 (FL_IN_A0 .| FL_LOADSTORE);
  mkTemplate 47 "stmw" OpType.System 11 (FL_IN_A0 .| FL_LOADSTORE);
  mkTemplate 48 "lfs" OpType.LoadFP 1 (FL_OUT_FLOAT_D .| FL_IN_A .| FL_USE_FPU .| FL_LOADSTORE);
  mkTemplate 49 "lfsu" OpType.LoadFP 1 (FL_OUT_FLOAT_D .| FL_OUT_A .| FL_IN_A .| FL_USE_FPU .| FL_LOADSTORE);
  mkTemplate 50 "lfd" OpType.LoadFP 1 (FL_INOUT_FLOAT_D .| FL_IN_A .| FL_USE_FPU .| FL_LOADSTORE);
  mkTemplate 51 "lfdu" OpType.LoadFP 1 (FL_INOUT_FLOAT_D .| FL_OUT_A .| FL_IN_A .| FL_USE_FPU .| FL_LOADSTORE);
  mkTemplate 52 "stfs" OpType.StoreFP 1 (FL_IN_FLOAT_S .| FL_IN_A0 .| FL_USE_FPU .| FL_LOADSTORE);
  mkTemplate 53 "stfsu" OpType.StoreFP 1 (FL_IN_FLOAT_S .| FL_OUT_A .| FL_IN_A .| FL_USE_FPU .| FL_LOADSTORE);
  mkTemplate 54 "stfd" OpType.StoreFP 1 (FL_IN_FLOAT_S .| FL_IN_A0 .| FL_USE_FPU .| FL_LOADSTORE);
  mkTemplate 55 "stfdu" OpType.StoreFP 1 (FL_IN_FLOAT_S .| FL_OUT_A .| FL_IN_A .| FL_USE_FPU .| FL_LOADSTORE);
  mkTemplate 56 "psq_l" OpType.LoadPS 1 (FL_OUT_FLOAT_D .| FL_IN_A0 .| FL_USE_FPU .| FL_LOADSTORE .| FL_PROGRAMEXCEPTION);
  mkTemplate 57 "psq_lu" OpType.LoadPS 1 (FL_OUT_FLOAT_D .| FL_OUT_A .| FL_IN_A .| FL_USE_FPU .| FL_LOADSTORE .| FL_PROGRAMEXCEPTION);
  mkTemplate 60 "psq_st" OpType.StorePS 1 (FL_IN_FLOAT_S .| FL_IN_A0 .| FL_USE_FPU .| FL_LOADSTORE .| FL_PROGRAMEXCEPTION);
  mkTemplate 61 "psq_stu" OpType.StorePS 1 (FL_IN_FLOAT_S .| FL_OUT_A .| FL_IN_A .| FL_USE_FPU .| FL_LOADSTORE .| FL_PROGRAMEXCEPTION)
].
Definition info_table4 : list GekkoOPTemplate := [
  mkTemplate 0 "ps_cmpu0" OpType.PS 1 (FL_IN_FLOAT_AB .| FL_SET_CRn .| FL_USE_FPU .| FL_READ_FPRF .| FL_SET_FPRF .| FL_PROGRAMEXCEPTION .| FL_FLOAT_EXCEPTION);
  mkTemplate 32 "ps_cmpo0" OpType.PS 1 (FL_IN_FLOAT_AB .| FL_SET_CRn .| FL_USE_FPU .| FL_READ_FPRF .| FL_SET_FPRF .| FL_PROGRAMEXCEPTION .| FL_FLOAT_EXCEPTION);
  mkTemplate 40 "ps_neg" OpType.PS 1 (FL_OUT_FLOAT_D .| FL_IN_FLOAT_B .| FL_IN_FLOAT_B_BITEXACT .| FL_RC_BIT_F .| FL_USE_FPU .| FL_PROGRAMEXCEPTION);
  mkTemplate 136 "ps_nabs" OpType.PS 1 (FL_OUT_FLOAT_D .| FL_IN_FLOAT_B .| FL_IN_FLOAT_B_BITEXACT .| FL_RC_BIT_F .| FL_USE_FPU .| FL_PROGRAMEXCEPTION);
  mkTemplate 264 "ps_abs" OpType.PS 1 (FL_OUT_FLOAT_D .| FL_IN_FLOAT_B .| FL_IN_FLOAT_B_BITEXACT .| FL_RC_BIT_F .| FL_USE_FPU .| FL_PROGRAMEXCEPTION);
  mkTemplate 64 "ps_cmpu1" OpType.PS 1 (FL_IN_FLOAT_AB .| FL_SET_CRn .| FL_USE_FPU .| FL_READ_FPRF .| FL_SET_FPRF .| FL_PROGRAMEXCEPTION .| FL_FLOAT_EXCEPTION);
  mkTemplate 72 "ps_mr" OpType.PS 1 (FL_OUT_FLOAT_D .| FL_IN_FLOAT_B .| FL_IN_FLOAT_B_BITEXACT .| FL_RC_BIT_F .| FL_USE_FPU .| FL_PROGRAMEXCEPTION);
  mkTemplate 96 "ps_cmpo1" OpType.PS 1 (FL_IN_FLOAT_AB .| FL_SET_CRn .| FL_USE_FPU .| FL_READ_FPRF .| FL_SET_FPRF .| FL_PROGRAMEXCEPTION .| FL_FLOAT_EXCEPTION);
  mkTemplate 528 "ps_merge00" OpType.PS 1 (FL_OUT_FLOAT_D .| FL_IN_FLOAT_AB .| FL_IN_FLOAT_AB_BITEXACT .| FL_RC_BIT_F .| FL_USE_FPU .| FL_PROGRAMEXCEPTION);
  mkTemplate 560 "ps_merge01" OpType.PS 1 (FL_OUT_FLOAT_D .| FL_IN_FLOAT_AB .| FL_IN_FLOAT_AB_BITEXACT .| FL_RC_BIT_F .| FL_USE_FPU .| FL_PROGRAMEXCEPTION);
  mkTemplate 592 "ps_merge10" OpType.PS 1 (FL_OUT_FLOAT_D .| FL_IN_FLOAT_AB .| FL_IN_FLOAT_AB_BITEXACT .| FL_RC_BIT_F .| FL_USE_FPU .| FL_PROGRAMEXCEPTION);
  mkTemplate 624 "ps_merge11" OpType.PS 1 (FL_OUT_FLOAT_D .| FL_IN_FLOAT_AB .| FL_IN_FLOAT_AB_BITEXACT .| FL_RC_BIT_F .| FL_USE_FPU .| FL_PROGRAMEXCEPTION);
  mkTemplate 1014 "dcbz_l" OpType.System 1 (FL_IN_A0B .| FL_LOADSTORE .| FL_PROGRAMEXCEPTION)
].
Definition info_table4_2 : list GekkoOPTemplate := [
  mkTemplate 10 "ps_sum0" OpType.PS 1 (FL_OUT_FLOAT_D .| FL_IN_FLOAT_ABC .| FL_RC_BIT_F .| FL_USE_FPU .| FL_SET_FPRF .| FL_PROGRAMEXCEPTION .| FL_FLOAT_EXCEPTION);
  mkTemplate 11 "ps_sum1" OpType.PS 1 (FL_OUT_FLOAT_D .| FL_IN_FLOAT_ABC .| FL_RC_BIT_F .| FL_USE_FPU .| FL_SET_FPRF .| FL_PROGRAMEXCEPTION .| FL_FLOAT_EXCEPTION);
  mkTemplate 12 "ps_muls0" OpType.PS 1 (FL_OUT_FLOAT_D .| FL_IN_FLOAT_AC .| FL_RC_BIT_F .| FL_USE_FPU .| FL_SET_FPRF .| FL_PROGRAMEXCEPTION .| FL_FLOAT_EXCEPTION);
  mkTemplate 13 "ps_muls1" OpType.PS 1 (FL_OUT_FLOAT_D .| FL_IN_FLOAT_AC .| FL_RC_BIT_F .| FL_USE_FPU .| FL_SET_FPRF .| FL_PROGRAMEXCEPTION .| FL_FLOAT_EXCEPTION);
  mkTemplate 14 "ps_madds0" OpType.PS 1 (FL_OUT_FLOAT_D .| FL_IN_FLOAT_ABC .| FL_RC_BIT_F .| FL_USE_FPU .| FL_SET_FPRF .| FL_PROGRAMEXCEPTION .| FL_FLOAT_EXCEPTION);
  mkTemplate 15 "ps_madds1" OpType.PS 1 (FL_OUT_FLOAT_D .| FL_IN_FLOAT_ABC .| FL_RC_BIT_F .| FL_USE_FPU .| FL_SET_FPRF .| FL_PROGRAMEXCEPTION .| FL_FLOAT_EXCEPTION);
  mkTemplate 18 "ps_div" OpType.PS 17 (FL_OUT_FLOAT_D .| FL_IN_FLOAT_AB .| FL_RC_BIT_F .| FL_USE_FPU .| FL_SET_FPRF .| FL_PROGRAMEXCEPTION .| FL_FLOAT_EXCEPTION .| FL_FLOAT_DIV);
  mkTemplate 20 "ps_sub" OpType.PS 1 (FL_OUT_FLOAT_D .| FL_IN_FLOAT_AB .| FL_RC_BIT_F .| FL_USE_FPU .| FL_SET_FPRF .| FL_PROGRAMEXCEPTION .| FL_FLOAT_EXCEPTION);
  mkTemplate 21 "ps_add" OpType.PS 1 (FL_OUT_FLOAT_D .| FL_IN_FLOAT_AB .| FL_RC_BIT_F .| FL_USE_FPU .| FL_SET_FPRF .| FL_PROGRAMEXCEPTION .| FL_FLOAT_EXCEPTION);
  mkTemplate 23 "ps_sel" OpType.PS 1 (FL_OUT_FLOAT_D .| FL_IN_FLOAT_ABC .| FL_IN_FLOAT_BC_BITEXACT .| FL_RC_BIT_F .| FL_USE_FPU .| FL_PROGRAMEXCEPTION);
  mkTemplate 24 "ps_res" OpType.PS 1 (FL_OUT_FLOAT_D .| FL_IN_FLOAT_B .| FL_RC_BIT_F .| FL_USE_FPU .| FL_SET_FPRF .| FL_PROGRAMEXCEPTION .| FL_FLOAT_EXCEPTION .| FL_FLOAT_DIV);
  mkTemplate 25 "ps_mul" OpType.PS 1 (FL_OUT_FLOAT_D .| FL_IN_FLOAT_AC .| FL_RC_BIT_F .| FL_USE_FPU .| FL_SET_FPRF .| FL_PROGRAMEXCEPTION .| FL_FLOAT_EXCEPTION);
  mkTemplate 26 "ps_rsqrte" OpType.PS 2 (FL_OUT_FLOAT_D .| FL_IN_FLOAT_B .| FL_RC_BIT_F .| FL_USE_FPU .| FL_SET_FPRF .| FL_PROGRAMEXCEPTION .| FL_FLOAT_EXCEPTION .| FL_FLOAT_DIV);
  mkTemplate 28 "ps_msub" OpType.PS 1 (FL_OUT_FLOAT_D .| FL_IN_FLOAT_ABC .| FL_RC_BIT_F .| FL_USE_FPU .| FL_SET_FPRF .| FL_PROGRAMEXCEPTION .| FL_FLOAT_EXCEPTION);
  mkTemplate 29 "ps_madd" OpType.PS 1 (FL_OUT_FLOAT_D .| FL_IN_FLOAT_ABC .| FL_RC_BIT_F .| FL_USE_FPU .| FL_SET_FPRF .| FL_PROGRAMEXCEPTION .| FL_FLOAT_EXCEPTION);
  mkTemplate 30 "ps_nmsub" OpType.PS 1 (FL_OUT_FLOAT_D .| FL_IN_FLOAT_ABC .| FL_RC_BIT_F .| FL_USE_FPU .| FL_SET_FPRF .| FL_PROGRAMEXCEPTION .| FL_FLOAT_EXCEPTION);
  mkTemplate 31 "ps_nmadd" OpType.PS 1 (FL_OUT_FLOAT_D .| FL_IN_FLOAT_ABC .| FL_RC_BIT_F .| FL_USE_FPU .| FL_SET_FPRF .| FL_PROGRAMEXCEPTION .| FL_FLOAT_EXCEPTION)
].
Definition info_table4_3 : list GekkoOPTemplate := [
  mkTemplate 6 "psq_lx" OpType.LoadPS 1 (FL_OUT_FLOAT_D .| FL_IN_A0B .| FL_USE_FPU .| FL_LOADSTORE);
  mkTemplate 7 "psq_stx" OpType.StorePS 1 (FL_IN_FLOAT_S .| FL_IN_A0B .| FL_USE_FPU .| FL_LOADSTORE);
  mkTemplate 38 "psq_lux" OpType.LoadPS 1 (FL_OUT_FLOAT_D .| FL_OUT_A .| FL_IN_AB .| FL_USE_FPU .| FL_LOADSTORE);
  mkTemplate 39 "psq_stux" OpType.StorePS 1 (FL_IN_FLOAT_S .| FL_OUT_A .| FL_IN_AB .| FL_USE_FPU .| FL_LOADSTORE)
].
Definition info_table19 : list GekkoOPTemplate := [
  mkTemplate 528 "bcctrx" OpType.Branch 1 (FL_ENDBLOCK .| FL_READ_CR_BI);
  mkTemplate 16 "bclrx" OpType.Branch 1 (FL_ENDBLOCK .| FL_READ_CR_BI);
  mkTemplate 257 "crand" OpType.CR 1 0;
  mkTemplate 129 "crandc" OpType.CR 1 0;
  mkTemplate 289 "creqv" OpType.CR 1 0;
  mkTemplate 225 "crnand" OpType.CR 1 0;
  mkTemplate 33 "crnor" OpType.CR 1 0;
  mkTemplate 449 "cror" OpType.CR 1 0;
  mkTemplate 417 "crorc" OpType.CR 1 0;
  mkTemplate 193 "crxor" OpType.CR 1 0;
  mkTemplate 150 "isync" OpType.InstructionCache 1 FL_NO_REORDER;
  mkTemplate 0 "mcrf" OpType.System 1 (FL_SET_CRn .| FL_READ_CRn);
  mkTemplate 50 "rfi" OpType.System 2 (FL_ENDBLOCK .| FL_CHECKEXCEPTIONS .| FL_PROGRAMEXCEPTION .| FL_SET_MSR)
].
Definition info_table31 : list GekkoOPTemplate := [
  mkTemplate 266 "addx" OpType.Integer 1 (FL_OUT_D .| FL_IN_AB .| FL_RC_BIT);
  mkTemplate 778 "addox" OpType.Integer 1 (FL_OUT_D .| FL_IN_AB .| FL_RC_BIT .| FL_SET_OE);
  mkTemplate 10 "addcx" OpType.Integer 1 (FL_OUT_D .| FL_IN_AB .| FL_SET_CA .| FL_RC_BIT);
  mkTemplate 522 "addcox" OpType.Integer 1 (FL_OUT_D .| FL_IN_AB .| FL_SET_CA .| FL_RC_BIT .| FL_SET_OE);
  mkTemplate 138 "addex" OpType.Integer 1 (FL_OUT_D .| FL_IN_AB .| FL_READ_CA .| FL_SET_CA .| FL_RC_BIT);
  mkTemplate 650 "addeox" OpType.Integer 1 (FL_OUT_D .| FL_IN_AB .| FL_READ_CA .| FL_SET_CA .| FL_RC_BIT .| FL_SET_OE);
  mkTemplate 234 "addmex" OpType.Integer 1 (FL_OUT_D .| FL_IN_A .| FL_READ_CA .| FL_SET_CA .| FL_RC_BIT);
  mkTemplate 746 "addmeox" OpType.Integer 1 (FL_OUT_D .| FL_IN_A .| FL_READ_CA .| FL_SET_CA .| FL_RC_BIT .| FL_SET_OE);
  mkTemplate 202 "addzex" OpType.Integer 1 (FL_OUT_D .| FL_IN_A .| FL_READ_CA .| FL_SET_CA .| FL_RC_BIT);
  mkTemplate 714 "addzeox" OpType.Integer 1 (FL_OUT_D .| FL_IN_A .| FL_READ_CA .| FL_SET_CA .| FL_RC_BIT .| FL_SET_OE);
  mkTemplate 491 "divwx" OpType.Integer 40 (FL_OUT_D .| FL_IN_AB .| FL_RC_BIT);
  mkTemplate 1003 "divwox" OpType.Integer 40 (FL_OUT_D .| FL_IN_AB .| FL_RC_BIT .| FL_SET_OE);
  mkTemplate 459 "divwux" OpType.Integer 40 (FL_OUT_D .| FL_IN_AB .| FL_RC_BIT);
  mkTemplate 971 "divwuox" OpType.Integer 40 (FL_OUT_D .| FL_IN_AB .| FL_RC_BIT .| FL_SET_OE);
  mkTemplate 75 "mulhwx" OpType.Integer 5 (FL_OUT_D .| FL_IN_AB .| FL_RC_BIT);
  mkTemplate 11 "mulhwux" OpType.Integer 5 (FL_OUT_D .| FL_IN_AB .| FL_RC_BIT);
  mkTemplate 235 "mullwx" OpType.Integer 5 (FL_OUT_D .| FL_IN_AB .| FL_RC_BIT);
  mkTemplate 747 "mullwox" OpType.Integer 5 (FL_OUT_D .| FL_IN_AB .| FL_RC_BIT .| FL_SET_OE);
  mkTemplate 104 "negx" OpType.Integer 1 (FL_OUT_D .| FL_IN_A .| FL_RC_BIT);
  mkTemplate 616 "negox" OpType.Integer 1 (FL_OUT_D .| FL_IN_A .| FL_RC_BIT .| FL_SET_OE);
  mkTemplate 40 "subfx" OpType.Integer 1 (FL_OUT_D .| FL_IN_AB .| FL_RC_BIT);
  mkTemplate 552 "subfox" OpType.Integer 1 (FL_OUT_D .| FL_IN_AB .| FL_RC_BIT .| FL_SET_OE);
  mkTemplate 8 "subfcx" OpType.Integer 1 (FL_OUT_D .| FL_IN_AB .| FL_SET_CA .| FL_RC_BIT);
  mkTemplate 520 "subfcox" OpType.Integer 1 (FL_OUT_D .| FL_IN_AB .| FL_SET_CA .| FL_RC_BIT .| FL_SET_OE);
  mkTemplate 136 "subfex" OpType.Integer 1 (FL_OUT_D .| FL_IN_AB .| FL_READ_CA .| FL_SET_CA .| FL_RC_BIT);
  mkTemplate 648 "subfeox" OpType.Integer 1 (FL_OUT_D .| FL_IN_AB .| FL_READ_CA .| FL_SET_CA .| FL_RC_BIT .| FL_SET_OE);
  mkTemplate 232 "subfmex" OpType.Integer 1 (FL_OUT_D .| FL_IN_A .| FL_READ_CA .| FL_SET_CA .| FL_RC_BIT);
  mkTemplate 744 "subfmeox" OpType.Integer 1 (FL_OUT_D .| FL_IN_A .| FL_READ_CA .| FL_SET_CA .| FL_RC_BIT .| FL_SET_OE);
  mkTemplate 200 "subfzex" OpType.Integer 1 (FL_OUT_D .| FL_IN_A .| FL_READ_CA .| FL_SET_CA .| FL_RC_BIT);
  mkTemplate 712 "subfzeox" OpType.Integer 1 (FL_OUT_D .| FL_IN_A .| FL_READ_CA .| FL_SET_CA .| FL_RC_BIT .| FL_SET_OE);
  mkTemplate 28 "andx" OpType.Integer 1 (FL_OUT_A .| FL_IN_SB .| FL_RC_BIT);
  mkTemplate 60 "andcx" OpType.Integer 1 (FL_OUT_A .| FL_IN_SB .| FL_RC_BIT);
  mkTemplate 444 "orx" OpType.Integer 1 (FL_OUT_A .| FL_IN_SB .| FL_RC_BIT);
  mkTemplate 124 "norx" OpType.Integer 1 (FL_OUT_A .| FL_IN_SB .| FL_RC_BIT);
  mkTemplate 316 "xorx" OpType.Integer 1 (FL_OUT_A .| FL_IN_SB .| FL_RC_BIT);
  mkTemplate 412 "orcx" OpType.Integer 1 (FL_OUT_A .| FL_IN_SB .| FL_RC_BIT);
  mkTemplate 476 "nandx" OpType.Integer 1 (FL_OUT_A .| FL_IN_SB .| FL_RC_BIT);
  mkTemplate 284 "eqvx" OpType.Integer 1 (FL_OUT_A .| FL_IN_SB .| FL_RC_BIT);
  mkTemplate 0 "cmp" OpType.Integer 1 (FL_IN_AB .| FL_SET_CRn);
  mkTemplate 32 "cmpl" OpType.Integer 1 (FL_IN_AB .| FL_SET_CRn);
  mkTemplate 26 "cntlzwx" OpType.Integer 1 (FL_OUT_A .| FL_IN_S .| FL_RC_BIT);
  mkTemplate 922 "extshx" OpType.Integer 1 (FL_OUT_A .| FL_IN_S .| FL_RC_BIT);
  mkTemplate 954 "extsbx" OpType.Integer 1 (FL_OUT_A .| FL_IN_S .| FL_RC_BIT);
  mkTemplate 536 "srwx" OpType.Integer 1 (FL_OUT_A .| FL_IN_SB .| FL_RC_BIT);
  mkTemplate 792 "srawx" OpType.Integer 1 (FL_OUT_A .| FL_IN_SB .| FL_SET_CA .| FL_RC_BIT);
  mkTemplate 824 "srawix" OpType.Integer 1 (FL_OUT_A .| FL_IN_S .| FL_SET_CA .| FL_RC_BIT);
  mkTemplate 24 "slwx" OpType.Integer 1 (FL_OUT_A .| FL_IN_SB .| FL_RC_BIT);
  mkTemplate 54 "dcbst" OpType.DataCache 5 (FL_IN_A0B .| FL_LOADSTORE);
  mkTemplate 86 "dcbf" OpType.DataCache 5 (FL_IN_A0B .| FL_LOADSTORE);
  mkTemplate 246 "dcbtst" OpType.DataCache 2 0;
  mkTemplate 278 "dcbt" OpType.DataCache 2 0;
  mkTemplate 470 "dcbi" OpType.DataCache 5 (FL_IN_A0B .| FL_LOADSTORE .| FL_PROGRAMEXCEPTION);
  mkTemplate 758 "dcba" OpType.DataCache 5 0;
  mkTemplate 1014 "dcbz" OpType.DataCache 5 (FL_IN_A0B .| FL_LOADSTORE);
  mkTemplate 23 "lwzx" OpType.Load 1 (FL_OUT_D .| FL_IN_A0B .| FL_LOADSTORE);
  mkTemplate 55 "lwzux" OpType.Load 1 (FL_OUT_D .| FL_OUT_A .| FL_IN_AB .| FL_LOADSTORE);
  mkTemplate 279 "lhzx" OpType.Load 1 (FL_OUT_D .| FL_IN_A0B .| FL_LOADSTORE);
  mkTemplate 311 "lhzux" OpType.Load 1 (FL_OUT_D .| FL_OUT_A .| FL_IN_AB .| FL_LOADSTORE);
  mkTemplate 343 "lhax" OpType.Load 1 (FL_OUT_D .| FL_IN_A0B .| FL_LOADSTORE);
  mkTemplate 375 "lhaux" OpType.Load 1 (FL_OUT_D .| FL_OUT_A .| FL_IN_AB .| FL_LOADSTORE);
  mkTemplate 87 "lbzx" OpType.Load 1 (FL_OUT_D .| FL_IN_A0B .| FL_LOADSTORE);
  mkTemplate 119 "lbzux" OpType.Load 1 (FL_OUT_D .| FL_OUT_A .| FL_IN_AB .| FL_LOADSTORE);
  mkTemplate 534 "lwbrx" OpType.Load 1 (FL_OUT_D .| FL_IN_A0B .| FL_LOADSTORE);
  mkTemplate 790 "lhbrx" OpType.Load 1 (FL_OUT_D .| FL_IN_A0B .| FL_LOADSTORE);
  mkTemplate 150 "stwcxd" OpType.Store 1 (FL_IN_S .| FL_IN_A0B .| FL_SET_CR0 .| FL_LOADSTORE);
  mkTemplate 20 "lwarx" OpType.Load 1 (FL_OUT_D .| FL_IN_A0B .| FL_SET_CR0 .| FL_LOADSTORE);
  mkTemplate 533 "lswx" OpType.Load 1 (FL_IN_A0B .| FL_OUT_D .| FL_LOADSTORE);
  mkTemplate 597 "lswi" OpType.Load 1 (FL_IN_A0 .| FL_OUT_D .| FL_LOADSTORE);
  mkTemplate 151 "stwx" OpType.Store 1 (FL_IN_S .| FL_IN_A0B .| FL_LOADSTORE);
  mkTemplate 183 "stwux" OpType.Store 1 (FL_IN_S .| FL_OUT_A .| FL_IN_AB .| FL_LOADSTORE);
  mkTemplate 407 "sthx" OpType.Store 1 (FL_IN_S .| FL_IN_A0B .| FL_LOADSTORE);
  mkTemplate 439 "sthux" OpType.Store 1 (FL_IN_S .| FL_OUT_A .| FL_IN_AB .| FL_LOADSTORE);
  mkTemplate 215 "stbx" OpType.Store 1 (FL_IN_S .| FL_IN_A0B .| FL_LOADSTORE);
  mkTemplate 247 "stbux" OpType.Store 1 (FL_IN_S .| FL_OUT_A .| FL_IN_AB .| FL_LOADSTORE);
  mkTemplate 662 "stwbrx" OpType.Store 1 (FL_IN_S .| FL_IN_A0B .| FL_LOADSTORE);
  mkTemplate 918 "sthbrx" OpType.Store 1 (FL_IN_S .| FL_IN_A0B .| FL_LOADSTORE);
  mkTemplate 661 "stswx" OpType.Store 1 (FL_IN_A0B .| FL_LOADSTORE);
  mkTemplate 725 "stswi" OpType.Store 1 (FL_IN_A0 .| FL_LOADSTORE);
  mkTemplate 535 "lfsx" OpType.LoadFP 1 (FL_OUT_FLOAT_D .| FL_IN_A0B .| FL_USE_FPU .| FL_LOADSTORE);
  mkTemplate 567 "lfsux" OpType.LoadFP 1 (FL_OUT_FLOAT_D .| FL_IN_AB .| FL_OUT_A .| FL_USE_FPU .| FL_LOADSTORE);
  mkTemplate 599 "lfdx" OpType.LoadFP 1 (FL_INOUT_FLOAT_D .| FL_IN_A0B .| FL_USE_FPU .| FL_LOADSTORE);
  mkTemplate 631 "lfdux" OpType.LoadFP 1 (FL_INOUT_FLOAT_D .| FL_IN_AB .| FL_OUT_A .| FL_USE_FPU .| FL_LOADSTORE);
  mkTemplate 663 "stfsx" OpType.StoreFP 1 (FL_IN_FLOAT_S .| FL_IN_A0B .| FL_USE_FPU .| FL_LOADSTORE);
  mkTemplate 695 "stfsux" OpType.StoreFP 1 (FL_IN_FLOAT_S .| FL_IN_AB .| FL_OUT_A .| FL_USE_FPU .| FL_LOADSTORE);
  mkTemplate 727 "stfdx" OpType.StoreFP 1 (FL_IN_FLOAT_S .| FL_IN_A0B .| FL_USE_FPU .| FL_LOADSTORE);
  mkTemplate 759 "stfdux" OpType.StoreFP 1 (FL_IN_FLOAT_S .| FL_IN_AB .| FL_OUT_A .| FL_USE_FPU .| FL_LOADSTORE);
  mkTemplate 983 "stfiwx" OpType.StoreFP 1 (FL_IN_FLOAT_S .| FL_IN_A0B .| FL_USE_FPU .| FL_LOADSTORE);
  mkTemplate 19 "mfcr" OpType.System 1 (FL_OUT_D .| FL_READ_ALL_CR);
  mkTemplate 83 "mfmsr" OpType.System 1 (FL_OUT_D .| FL_PROGRAMEXCEPTION);
  mkTemplate 144 "mtcrf" OpType.System 1 (FL_IN_S .| FL_SET_ALL_CR .| FL_READ_ALL_CR);
  mkTemplate 146 "mtmsr" OpType.System 1 (FL_IN_S .| FL_ENDBLOCK .| FL_PROGRAMEXCEPTION .| FL_FLOAT_EXCEPTION .| FL_SET_MSR);
  mkTemplate 210 "mtsr" OpType.System 1 (FL_IN_S .| FL_PROGRAMEXCEPTION);
  mkTemplate 242 "mtsrin" OpType.System 1 (FL_IN_SB .| FL_PROGRAMEXCEPTION);
  mkTemplate 339 "mfspr" OpType.SPR 1 (FL_OUT_D .| FL_PROGRAMEXCEPTION);
  mkTemplate 467 "mtspr" OpType.SPR 2 (FL_IN_S .| FL_ENDBLOCK .| FL_PROGRAMEXCEPTION);
  mkTemplate 371 "mftb" OpType.System 1 (FL_OUT_D .| FL_TIMER .| FL_PROGRAMEXCEPTION);
  mkTemplate 512 "mcrxr" OpType.System 1 (FL_SET_CRn .| FL_READ_CA .| FL_SET_CA);
  mkTemplate 595 "mfsr" OpType.System 3 (FL_OUT_D .| FL_PROGRAMEXCEPTION);
  mkTemplate 659 "mfsrin" OpType.System 3 (FL_OUT_D .| FL_IN_B .| FL_PROGRAMEXCEPTION);
  mkTemplate 4 "tw" OpType.System 2 (FL_IN_AB .| FL_ENDBLOCK);
  mkTemplate 598 "sync" OpType.System 3 0;
  mkTemplate 982 "icbi" OpType.System 4 (FL_IN_A0B .| FL_ENDBLOCK .| FL_LOADSTORE);
  mkTemplate 310 "eciwx" OpType.System 1 (FL_IN_A0B .| FL_OUT_D .| FL_LOADSTORE);
  mkTemplate 438 "ecowx" OpType.System 1 (FL_IN_A0B .| FL_IN_S .| FL_LOADSTORE);
  mkTemplate 854 "eieio" OpType.System 1 0;
  mkTemplate 306 "tlbie" OpType.System 1 (FL_IN_B .| FL_PROGRAMEXCEPTION);
  mkTemplate 566 "tlbsync" OpType.System 1 FL_PROGRAMEXCEPTION
].
Definition info_table59 : list GekkoOPTemplate := [
  mkTemplate 18 "fdivsx" OpType.SingleFP 17 (FL_OUT_FLOAT_D .| FL_IN_FLOAT_AB .| FL_RC_BIT_F .| FL_USE_FPU .| FL_SET_FPRF .| FL_FLOAT_EXCEPTION .| FL_FLOAT_DIV);
  mkTemplate 20 "fsubsx" OpType.SingleFP 1 (FL_OUT_FLOAT_D .| FL_IN_FLOAT_AB .| FL_RC_BIT_F .| FL_USE_FPU .| FL_SET_FPRF .| FL_FLOAT_EXCEPTION);
  mkTemplate 21 "faddsx" OpType.SingleFP 1 (FL_OUT_FLOAT_D .| FL_IN_FLOAT_AB .| FL_RC_BIT_F .| FL_USE_FPU .| FL_SET_FPRF .| FL_FLOAT_EXCEPTION);
  mkTemplate 24 "fresx" OpType.SingleFP 1 (FL_OUT_FLOAT_D .| FL_IN_FLOAT_B .| FL_RC_BIT_F .| FL_USE_FPU .| FL_SET_FPRF .| FL_FLOAT_EXCEPTION .| FL_FLOAT_DIV);
  mkTemplate 25 "fmulsx" OpType.SingleFP 1 (FL_OUT_FLOAT_D .| FL_IN_FLOAT_AC .| FL_RC_BIT_F .| FL_USE_FPU .| FL_SET_FPRF .| FL_FLOAT_EXCEPTION);
  mkTemplate 28 "fmsubsx" OpType.SingleFP 1 (FL_OUT_FLOAT_D .| FL_IN_FLOAT_ABC .| FL_RC_BIT_F .| FL_USE_FPU .| FL_SET_FPRF .| FL_FLOAT_EXCEPTION);
  mkTemplate 29 "fmaddsx" OpType.SingleFP 1 (FL_OUT_FLOAT_D .| FL_IN_FLOAT_ABC .| FL_RC_BIT_F .| FL_USE_FPU .| FL_SET_FPRF .| FL_FLOAT_EXCEPTION);
  mkTemplate 30 "fnmsubsx" OpType.SingleFP 1 (FL_OUT_FLOAT_D .| FL_IN_FLOAT_ABC .| FL_RC_BIT_F .| FL_USE_FPU .| FL_SET_FPRF .| FL_FLOAT_EXCEPTION);
  mkTemplate 31 "fnmaddsx" OpType.SingleFP 1 (FL_OUT_FLOAT_D .| FL_IN_FLOAT_ABC .| FL_RC_BIT_F .| FL_USE_FPU .| FL_SET_FPRF .| FL_FLOAT_EXCEPTION)
].
Definition info_table63 : list GekkoOPTemplate := [
  mkTemplate 264 "fabsx" OpType.DoubleFP 1 (FL_INOUT_FLOAT_D .| FL_IN_FLOAT_B .| FL_IN_FLOAT_B_BITEXACT .| FL_RC_BIT_F .| FL_USE_FPU);
  mkTemplate 32 "fcmpo" OpType.DoubleFP 1 (FL_IN_FLOAT_AB .| FL_SET_CRn .| FL_USE_FPU .| FL_READ_FPRF .| FL_SET_FPRF .| FL_FLOAT_EXCEPTION);
  mkTemplate 0 "fcmpu" OpType.DoubleFP 1 (FL_IN_FLOAT_AB .| FL_SET_CRn .| FL_USE_FPU .| FL_READ_FPRF .| FL_SET_FPRF .| FL_FLOAT_EXCEPTION);
  mkTemplate 14 "fctiwx" OpType.DoubleFP 1 (FL_INOUT_FLOAT_D .| FL_IN_FLOAT_B .| FL_RC_BIT_F .| FL_USE_FPU .| FL_FLOAT_EXCEPTION);
  mkTemplate 15 "fctiwzx" OpType.DoubleFP 1 (FL_INOUT_FLOAT_D .| FL_IN_FLOAT_B .| FL_RC_BIT_F .| FL_USE_FPU .| FL_FLOAT_EXCEPTION);
  mkTemplate 72 "fmrx" OpType.DoubleFP 1 (FL_INOUT_FLOAT_D .| FL_IN_FLOAT_B .| FL_IN_FLOAT_B_BITEXACT .| FL_RC_BIT_F .| FL_USE_FPU);
  mkTemplate 136 "fnabsx" OpType.DoubleFP 1 (FL_INOUT_FLOAT_D .| FL_IN_FLOAT_B .| FL_RC_BIT_F .| FL_IN_FLOAT_B_BITEXACT .| FL_USE_FPU);
  mkTemplate 40 "fnegx" OpType.DoubleFP 1 (FL_INOUT_FLOAT_D .| FL_IN_FLOAT_B .| FL_RC_BIT_F .| FL_IN_FLOAT_B_BITEXACT .| FL_USE_FPU);
  mkTemplate 12 "frspx" OpType.DoubleFP 1 (FL_OUT_FLOAT_D .| FL_IN_FLOAT_B .| FL_RC_BIT_F .| FL_USE_FPU .| FL_SET_FPRF .| FL_FLOAT_EXCEPTION);
  mkTemplate 64 "mcrfs" OpType.SystemFP 1 (FL_SET_CRn .| FL_USE_FPU .| FL_READ_FPRF);
  mkTemplate 583 "mffsx" OpType.SystemFP 1 (FL_RC_BIT_F .| FL_INOUT_FLOAT_D .| FL_USE_FPU .| FL_READ_FPRF);
  mkTemplate 70 "mtfsb0x" OpType.SystemFP 3 (FL_RC_BIT_F .| FL_USE_FPU .| FL_READ_FPRF .| FL_SET_FPRF);
  mkTemplate 38 "mtfsb1x" OpType.SystemFP 3 (FL_RC_BIT_F .| FL_USE_FPU .| FL_READ_FPRF .| FL_SET_FPRF .| FL_FLOAT_EXCEPTION);
  mkTemplate 134 "mtfsfix" OpType.SystemFP 3 (FL_RC_BIT_F .| FL_USE_FPU .| FL_READ_FPRF .| FL_SET_FPRF .| FL_FLOAT_EXCEPTION);
  mkTemplate 711 "mtfsfx" OpType.SystemFP 3 (FL_RC_BIT_F .| FL_IN_FLOAT_B .| FL_USE_FPU .| FL_READ_FPRF .| FL_SET_FPRF .| FL_FLOAT_EXCEPTION)
].
Definition info_table63_2 : list GekkoOPTemplate := [
  mkTemplate 18 "fdivx" OpType.DoubleFP 31 (FL_INOUT_FLOAT_D .| FL_IN_FLOAT_AB .| FL_RC_BIT_F .| FL_USE_FPU .| FL_SET_FPRF .| FL_FLOAT_EXCEPTION .| FL_FLOAT_DIV);
  mkTemplate 20 "fsubx" OpType.DoubleFP 1 (FL_INOUT_FLOAT_D .| FL_IN_FLOAT_AB .| FL_RC_BIT_F .| FL_USE_FPU .| FL_SET_FPRF .| FL_FLOAT_EXCEPTION);
  mkTemplate 21 "faddx" OpType.DoubleFP 1 (FL_INOUT_FLOAT_D .| FL_IN_FLOAT_AB .| FL_RC_BIT_F .| FL_USE_FPU .| FL_SET_FPRF .| FL_FLOAT_EXCEPTION);
  mkTemplate 23 "fselx" OpType.DoubleFP 1 (FL_INOUT_FLOAT_D .| FL_IN_FLOAT_ABC .| FL_IN_FLOAT_BC_BITEXACT .| FL_RC_BIT_F .| FL_USE_FPU);
  mkTemplate 25 "fmulx" OpType.DoubleFP 1 (FL_INOUT_FLOAT_D .| FL_IN_FLOAT_AC .| FL_RC_BIT_F .| FL_USE_FPU .| FL_SET_FPRF .| FL_FLOAT_EXCEPTION);
  mkTemplate 26 "frsqrtex" OpType.DoubleFP 1 (FL_INOUT_FLOAT_D .| FL_IN_FLOAT_B .| FL_RC_BIT_F .| FL_USE_FPU .| FL_SET_FPRF .| FL_FLOAT_EXCEPTION .| FL_FLOAT_DIV);
  mkTemplate 28 "fmsubx" OpType.DoubleFP 1 (FL_INOUT_FLOAT_D .| FL_IN_FLOAT_ABC .| FL_RC_BIT_F .| FL_USE_FPU .| FL_SET_FPRF .| FL_FLOAT_EXCEPTION);
  mkTemplate 29 "fmaddx" OpType.DoubleFP 1 (FL_INOUT_FLOAT_D .| FL_IN_FLOAT_ABC .| FL_RC_BIT_F .| FL_USE_FPU .| FL_SET_FPRF .| FL_FLOAT_EXCEPTION);
  mkTemplate 30 "fnmsubx" OpType.DoubleFP 1 (FL_INOUT_FLOAT_D .| FL_IN_FLOAT_ABC .| FL_RC_BIT_F .| FL_USE_FPU .| FL_SET_FPRF .| FL_FLOAT_EXCEPTION);
  mkTemplate 31 "fnmaddx" OpType.DoubleFP 1 (FL_INOUT_FLOAT_D .| FL_IN_FLOAT_ABC .| FL_RC_BIT_F .| FL_USE_FPU .| FL_SET_FPRF .| FL_FLOAT_EXCEPTION)
].

(** ** The index tables *)

(** [GekkoOPInfo] *)
Record GekkoOPInfo := mkInfo {
  opname : string;
  type : OpType.t;
  num_cycles : Z;
  flags : Z
}.

Record Tables := mkTables {
  all_instructions : list GekkoOPInfo;
  unknown_op_info : nat;
  primary_table : list nat;
  table4 : list nat;
  table19 : list nat;
  table31 : list nat;
  table59 : list nat;
  table63 : list nat
}.

Definition TOTAL_INSTRUCTION_COUNT : nat :=
  1 + List.length info_primary_table + List.length info_table4_2 + List.length info_table4_3 + List.length info_table4
  + List.length info_table31 + List.length info_table19 + List.length info_table59 + List.length info_table63 + List.length info_table63_2.

(** The instructions so far and the index table under construction; [counter] is
    the number of instructions. *)
Definition Building : Type := option (list GekkoOPInfo * list nat).

(** [make_info] *)
Definition make_info (infos : list GekkoOPInfo) (inst : GekkoOPTemplate) : option (list GekkoOPInfo * nat) :=
  let counter := List.length infos in
  if Nat.ltb counter TOTAL_INSTRUCTION_COUNT then
    Some (infos ++ [mkInfo (t_opname inst) (t_type inst) (t_num_cycles inst) (t_flags inst)], counter)
  else None.
(** [ASSERT(table[op] == unknown_op_info); table[op] = info;], with [unknown_op_info = 0] *)
Definition set_info (table : option (list nat)) (op : Z) (info : nat) : option (list nat) :=
  match table with
  | Some t =>
      match t !! Z.to_nat op with
      | Some old => if Nat.eqb old 0 then Some (<[Z.to_nat op := info]> t) else None
      | None => None
      end
  | None => None
  end.
(** A template whose opcode is repeated [n] times under the bits [i << shift]. *)
Definition add_filled (n : nat) (shift : Z) (b : Building) (tpl : GekkoOPTemplate) : Building :=
  match b with
  | Some (infos, table) =>
      match make_info infos tpl with
      | Some (infos, info) =>
          option_map (pair infos)
            (fold_left (fun t i => set_info t ((Z.of_nat i .<< shift) + opcode tpl) info) (seq 0 n) (Some table))
      | None => None
      end
  | None => None
  end.
Definition add (b : Building) (tpl : GekkoOPTemplate) : Building := add_filled 1 0 b tpl.
Definition start_table (size : nat) (infos : list GekkoOPInfo) : Building := Some (infos, replicate size 0%nat).

Definition make_tables : option Tables :=
  '(i0, unknown) ← make_info [] s_unknown_op_info;
  '(i1, primary) ← fold_left add info_primary_table (start_table 64 i0);
  '(i2, t4) ← fold_left add info_table4
      (fold_left (add_filled 16 6) info_table4_3
        (fold_left (add_filled 32 5) info_table4_2 (start_table 1024 i1)));
  '(i3, t19) ← fold_left add info_table19 (start_table 1024 i2);
  '(i4, t31) ← fold_left add info_table31 (start_table 1024 i3);
  '(i5, t59) ← fold_left add info_table59 (start_table 32 i4);
  '(i6, t63) ← fold_left (add_filled 32 5) info_table63_2 (fold_left add info_table63 (start_table 1024 i5));
  if Nat.eqb (List.length i6) TOTAL_INSTRUCTION_COUNT
  then Some (mkTables i6 unknown primary t4 t19 t31 t59 t63) else None.

(** The constant; [PPCAnalystSpec.tables_built] shows that the construction does not fail. *)
Definition s_tables : Tables := Eval vm_compute in default (mkTables [] 0 [] [] [] [] [] []) make_tables.

Definition unknown_info : GekkoOPInfo := mkInfo "unknown_instruction" OpType.Unknown 0 FL_ENDBLOCK.
Definition info_at (table : list nat) (i : Z) : GekkoOPInfo :=
  nth (nth (Z.to_nat i) table 0%nat) (all_instructions s_tables) unknown_info.

Definition GetOpInfo (inst : Z) : GekkoOPInfo :=
  let info := info_at (primary_table s_tables) (OPCD inst) in
  match type info with
  | OpType.Subtable =>
      if OPCD inst =? 4 then info_at (table4 s_tables) (SUBOP10 inst)
      else if OPCD inst =? 19 then info_at (table19 s_tables) (SUBOP10 inst)
      else if OPCD inst =? 31 then info_at (table31 s_tables) (SUBOP10 inst)
      else if OPCD inst =? 59 then info_at (table59 s_tables) (SUBOP5 inst)
      else if OPCD inst =? 63 then info_at (table63 s_tables) (SUBOP10 inst)
      else nth (unknown_op_info s_tables) (all_instructions s_tables) unknown_info
  | OpType.Invalid => nth (unknown_op_info s_tables) (all_instructions s_tables) unknown_info
  | _ => info
  end.

Definition GetInstructionName (inst : Z) : string := opname (GetOpInfo inst).
Definition IsValidInstruction (inst : Z) : bool :=
  match type (GetOpInfo inst) with OpType.Invalid | OpType.Unknown => false | _ => true end.
Definition has_flag (info : GekkoOPInfo) (flag : Z) : bool := negb (flags info .& flag =? 0).

(** The tables are evaluated by [vm_compute] only. *)
#[global] Arguments s_tables : simpl never.
#[global] Arguments GetOpInfo : simpl never.
#[global] Arguments info_at : simpl never.
