(* ===== verification/PPCInterpreter.v ===== *)
(** * Dispatch of the PowerPC interpreter (Interpreter/Interpreter_Tables.cpp)

    [run_op] gives the function a name stands for; [None] for an instruction
    outside the model (loads and stores, arithmetic on floating-point numbers,
    cache control, special registers). *)
From S2P Require Export PPCOpcodes PPCTables PPCExceptions.
From S2P Require PPCInteger PPCBranch PPCSystem PPCFloat.

Definition run_op (op : Op.t) : option (Z -> PowerPCState -> PowerPCState) :=
  match op with
  | Op.bcx => Some PPCBranch.bcx
  | Op.bx => Some PPCBranch.bx
  | Op.twi => Some PPCInteger.twi
  | Op.sc => Some PPCBranch.sc
  | Op.mulli => Some PPCInteger.mulli
  | Op.subfic => Some PPCInteger.subfic
  | Op.cmpli => Some PPCInteger.cmpli
  | Op.cmpi => Some PPCInteger.cmpi
  | Op.addic => Some PPCInteger.addic
  | Op.addic_rc => Some PPCInteger.addic_rc
  | Op.addi => Some PPCInteger.addi
  | Op.addis => Some PPCInteger.addis
  | Op.rlwimix => Some PPCInteger.rlwimix
  | Op.rlwinmx => Some PPCInteger.rlwinmx
  | Op.rlwnmx => Some PPCInteger.rlwnmx
  | Op.ori => Some PPCInteger.ori
  | Op.oris => Some PPCInteger.oris
  | Op.xori => Some PPCInteger.xori
  | Op.xoris => Some PPCInteger.xoris
  | Op.andi_rc => Some PPCInteger.andi_rc
  | Op.andis_rc => Some PPCInteger.andis_rc
  | Op.ps_neg => Some PPCFloat.ps_neg
  | Op.ps_nabs => Some PPCFloat.ps_nabs
  | Op.ps_abs => Some PPCFloat.ps_abs
  | Op.ps_mr => Some PPCFloat.ps_mr
  | Op.ps_merge00 => Some PPCFloat.ps_merge00
  | Op.ps_merge01 => Some PPCFloat.ps_merge01
  | Op.ps_merge10 => Some PPCFloat.ps_merge10
  | Op.ps_merge11 => Some PPCFloat.ps_merge11
  | Op.ps_sel => Some PPCFloat.ps_sel
  | Op.bcctrx => Some PPCBranch.bcctrx
  | Op.bclrx => Some PPCBranch.bclrx
  | Op.crand => Some PPCSystem.crand
  | Op.crandc => Some PPCSystem.crandc
  | Op.creqv => Some PPCSystem.creqv
  | Op.crnand => Some PPCSystem.crnand
  | Op.crnor => Some PPCSystem.crnor
  | Op.cror => Some PPCSystem.cror
  | Op.crorc => Some PPCSystem.crorc
  | Op.crxor => Some PPCSystem.crxor
  | Op.isync => Some PPCSystem.isync
  | Op.mcrf => Some PPCSystem.mcrf
  | Op.rfi => Some PPCBranch.rfi
  | Op.addx => Some PPCInteger.addx
  | Op.addcx => Some PPCInteger.addcx
  | Op.addex => Some PPCInteger.addex
  | Op.addmex => Some PPCInteger.addmex
  | Op.addzex => Some PPCInteger.addzex
  | Op.divwx => Some PPCInteger.divwx
  | Op.divwux => Some PPCInteger.divwux
  | Op.mulhwx => Some PPCInteger.mulhwx
  | Op.mulhwux => Some PPCInteger.mulhwux
  | Op.mullwx => Some PPCInteger.mullwx
  | Op.negx => Some PPCInteger.negx
  | Op.subfx => Some PPCInteger.subfx
  | Op.subfcx => Some PPCInteger.subfcx
  | Op.subfex => Some PPCInteger.subfex
  | Op.subfmex => Some PPCInteger.subfmex
  | Op.subfzex => Some PPCInteger.subfzex
  | Op.andx => Some PPCInteger.andx
  | Op.andcx => Some PPCInteger.andcx
  | Op.orx => Some PPCInteger.orx
  | Op.norx => Some PPCInteger.norx
  | Op.xorx => Some PPCInteger.xorx
  | Op.orcx => Some PPCInteger.orcx
  | Op.nandx => Some PPCInteger.nandx
  | Op.eqvx => Some PPCInteger.eqvx
  | Op.cmp => Some PPCInteger.cmp
  | Op.cmpl => Some PPCInteger.cmpl
  | Op.cntlzwx => Some PPCInteger.cntlzwx
  | Op.extshx => Some PPCInteger.extshx
  | Op.extsbx => Some PPCInteger.extsbx
  | Op.srwx => Some PPCInteger.srwx
  | Op.srawx => Some PPCInteger.srawx
  | Op.srawix => Some PPCInteger.srawix
  | Op.slwx => Some PPCInteger.slwx
  | Op.mfcr => Some PPCSystem.mfcr
  | Op.mfmsr => Some PPCSystem.mfmsr
  | Op.mtcrf => Some PPCSystem.mtcrf
  | Op.mtmsr => Some PPCSystem.mtmsr
  | Op.mtsr => Some PPCSystem.mtsr
  | Op.mtsrin => Some PPCSystem.mtsrin
  | Op.mcrxr => Some PPCSystem.mcrxr
  | Op.mfsr => Some PPCSystem.mfsr
  | Op.mfsrin => Some PPCSystem.mfsrin
  | Op.tw => Some PPCInteger.tw
  | Op.fabsx => Some PPCFloat.fabsx
  | Op.fmrx => Some PPCFloat.fmrx
  | Op.fnabsx => Some PPCFloat.fnabsx
  | Op.fnegx => Some PPCFloat.fnegx
  | Op.mcrfs => Some PPCSystem.mcrfs
  | Op.mffsx => Some PPCSystem.mffsx
  | Op.mtfsb0x => Some PPCSystem.mtfsb0x
  | Op.mtfsb1x => Some PPCSystem.mtfsb1x
  | Op.mtfsfix => Some PPCSystem.mtfsfix
  | Op.mtfsfx => Some PPCSystem.mtfsfx
  | Op.fselx => Some PPCFloat.fselx
  | _ => None
  end.

(** The subtable functions, each an element of the primary table. *)
Definition RunTable4 (inst : Z) (s : PowerPCState) : option PowerPCState :=
  f ← run_op (op_at s_interpreter_op_table4 (SUBOP10 inst)); Some (f inst s).
Definition RunTable19 (inst : Z) (s : PowerPCState) : option PowerPCState :=
  f ← run_op (op_at s_interpreter_op_table19 (SUBOP10 inst)); Some (f inst s).
Definition RunTable31 (inst : Z) (s : PowerPCState) : option PowerPCState :=
  f ← run_op (op_at s_interpreter_op_table31 (SUBOP10 inst)); Some (f inst s).
Definition RunTable59 (inst : Z) (s : PowerPCState) : option PowerPCState :=
  f ← run_op (op_at s_interpreter_op_table59 (SUBOP5 inst)); Some (f inst s).
Definition RunTable63 (inst : Z) (s : PowerPCState) : option PowerPCState :=
  f ← run_op (op_at s_interpreter_op_table63 (SUBOP10 inst)); Some (f inst s).
Definition RunInterpreterOp (inst : Z) (s : PowerPCState) : option PowerPCState :=
  match op_at s_interpreter_op_table (OPCD inst) with
  | Op.RunTable4 => RunTable4 inst s
  | Op.RunTable19 => RunTable19 inst s
  | Op.RunTable31 => RunTable31 inst s
  | Op.RunTable59 => RunTable59 inst s
  | Op.RunTable63 => RunTable63 inst s
  | op => f ← run_op op; Some (f inst s)
  end.

(** Instructions the model gives a meaning to. *)
Definition modelled (inst : Z) : bool := match run_op (GetInterpreterOp inst) with Some _ => true | None => false end.
(** The execution of an instruction, decoded ahead of time as the recompilers do. *)
Definition exec (inst : Z) (s : PowerPCState) : PowerPCState :=
  match run_op (GetInterpreterOp inst) with Some f => f inst s | None => s end.

(** ** One instruction (Interpreter.cpp, UpdatePerformanceMonitor of PowerPC.cpp) *)

Definition SPR_HID2 : Z := 920.
Definition SPR_MMCR0 : Z := 952.
Definition SPR_PMC1 : Z := 953.
Definition SPR_PMC2 : Z := 954.
Definition SPR_MMCR1 : Z := 956.
Definition SPR_PMC3 : Z := 957.
Definition SPR_PMC4 : Z := 958.
Definition HID2_PSE s := bit_at (get_spr s SPR_HID2) 29.
Definition HID2_LSQE s := bit_at (get_spr s SPR_HID2) 31.
Definition MSR_FP s := bit_at (msr s) 13.

Definition IsPairedSingleQuantizedNonIndexedInstruction (inst : Z) : bool :=
  (OPCD inst =? 0x38) || (OPCD inst =? 0x39) || (OPCD inst =? 0x3C) || (OPCD inst =? 0x3D).
Definition IsPairedSingleInstruction (inst : Z) : bool :=
  (OPCD inst =? 4) || IsPairedSingleQuantizedNonIndexedInstruction inst.
Definition IsInvalidPairedSingleExecution (inst : Z) (s : PowerPCState) : bool :=
  if negb (HID2_PSE s) && IsPairedSingleInstruction inst then true
  else HID2_PSE s && negb (HID2_LSQE s) && IsPairedSingleQuantizedNonIndexedInstruction inst.

Definition add_spr (i v : Z) (s : PowerPCState) : PowerPCState := set_spr i (u32 (get_spr s i + v)) s.
Definition MMCR0 s := get_spr s SPR_MMCR0.
Definition MMCR1 s := get_spr s SPR_MMCR1.
Definition UpdatePerformanceMonitor (cycles num_load_stores num_fp_inst : Z) (s : PowerPCState) : PowerPCState :=
  let s := if field (MMCR0 s) 6 7 =? 1 then add_spr SPR_PMC1 cycles s else s in
  let s :=
    if field (MMCR0 s) 0 6 =? 1 then add_spr SPR_PMC2 cycles s
    else if field (MMCR0 s) 0 6 =? 11 then add_spr SPR_PMC2 num_load_stores s else s in
  let s :=
    if field (MMCR1 s) 27 5 =? 1 then add_spr SPR_PMC3 cycles s
    else if field (MMCR1 s) 27 5 =? 11 then add_spr SPR_PMC3 num_fp_inst s else s in
  let s := if field (MMCR1 s) 22 5 =? 1 then add_spr SPR_PMC4 cycles s else s in
  if (bit_at (MMCR0 s) 15 && bit_at (get_spr s SPR_PMC1) 31)
     || (bit_at (MMCR0 s) 14 && (bit_at (get_spr s SPR_PMC2) 31 || bit_at (get_spr s SPR_PMC3) 31
                                 || bit_at (get_spr s SPR_PMC4) 31))
  then set_Exceptions (Exceptions s .| EXCEPTION_PERFORMANCE_MONITOR) s
  else s.

(** The interpreter's own fields next to the processor's. *)
Record Interpreter := mkInterpreter { core : PowerPCState; m_prev_inst : Z; m_last_pc : Z }.

(** The instruction fetch of the MMU, which raises an exception and returns 0
    when it fails, and functions replaced by host code: [true] if the
    instruction at the program counter must not run. *)
Class Fetch := {
  Read_Opcode : Z -> PowerPCState -> Z * PowerPCState;
  HandleFunctionHooking : Z -> PowerPCState -> bool * PowerPCState
}.

Definition UpdatePC (it : Interpreter) : Interpreter :=
  mkInterpreter (set_pc (npc (core it)) (core it)) (m_prev_inst it) (pc (core it)).

(** [RunInterpreterOp], and the exceptions of a load or store. *)
Definition run_and_check (inst : Z) (s : PowerPCState) : option PowerPCState :=
  s ← RunInterpreterOp inst s;
  Some (if pending s EXCEPTION_DSI then Interpreter_CheckExceptions s else s).

(** What happens to the instruction [inst] that has been read. *)
Definition execute (inst : Z) (info : GekkoOPInfo) (s : PowerPCState) : option PowerPCState :=
  if inst =? 0 then Some (Interpreter_CheckExceptions s)
  else if IsInvalidPairedSingleExecution inst s then
    Some (Interpreter_CheckExceptions (GenerateProgramException IllegalInstruction s))
  else if MSR_FP s then run_and_check inst s
  else if has_flag info FL_USE_FPU then
    Some (Interpreter_CheckExceptions (set_Exceptions (Exceptions s .| EXCEPTION_FPU_UNAVAILABLE) s))
  else run_and_check inst s.

(** The new state and the cycles used; [None] at an instruction outside the model. *)
Definition SingleStepInner {F : Fetch} (it : Interpreter) : option (Interpreter * Z) :=
  let '(hooked, s) := HandleFunctionHooking (pc (core it)) (core it) in
  if hooked then
    Some (UpdatePC (mkInterpreter s (m_prev_inst it) (m_last_pc it)), num_cycles (GetOpInfo (m_prev_inst it)))
  else
    let s := set_npc (u32 (pc s + 4)) s in
    let '(inst, s) := Read_Opcode (pc s) s in
    let info := GetOpInfo inst in
    s ← execute inst info s;
    let it := UpdatePC (mkInterpreter s inst (m_last_pc it)) in
    let s := UpdatePerformanceMonitor (num_cycles info) (Z.b2z (has_flag info FL_LOADSTORE))
      (Z.b2z (has_flag info FL_USE_FPU)) (core it) in
    Some (mkInterpreter s (m_prev_inst it) (m_last_pc it), num_cycles info).

(** ** Reset (PowerPCManager::ResetRegisters)

    The reservation, the timers and the block address translation are outside
    this state. *)

Definition SPR_DEC : Z := 22.
Definition SPR_PVR : Z := 287.
Definition SPR_HID1 : Z := 1009.
Definition SPR_ECID_U : Z := 924.
Definition SPR_ECID_M : Z := 925.
Definition SPR_ECID_L : Z := 926.

Definition RecalculateAllFeatureFlags (s : PowerPCState) : PowerPCState :=
  let f := (msr s .>> 4) .& 0x3 in
  set_feature_flags (if negb (MMCR0 s =? 0) || negb (MMCR1 s =? 0) then f .| FEATURE_FLAG_PERFMON else f) s.
Definition ResetRegisters (is_wii : bool) (s : PowerPCState) : PowerPCState :=
  let sprs : gmap Z Z := <[SPR_DEC := 0xFFFFFFFF]> (<[SPR_ECID_L := 0x82bb08e8]> (<[SPR_ECID_M := 0x1840c00d]>
    (<[SPR_ECID_U := 0x0d96e200]> (<[SPR_HID1 := 0x80000000]>
      {[SPR_PVR := if is_wii then 0x00087102 else 0x00083214]})))) in
  let s := mkPPC 0 0 (replicate 32 0) (replicate 32 (0, 0)) (replicate 8 0x8000000000000001) 0 0 (feature_flags s) 0
    0 0 0 (replicate 16 0) sprs (m_end_block s) in
  RecalculateAllFeatureFlags (SetXER 0 s).
