(* ===== verification/PPCAnalyst.v ===== *)
(** * Analysis of code blocks (PPCAnalyst.cpp, PPCAnalyst.h)

    What the recompilers know about a block of instructions before they translate
    it: the registers each instruction uses, an order in which flags need not be
    stored, and which values are needed later.  A [BitSet32] or [BitSet8] is the
    mask of its bits.

    [AnalystEnv] stands for the memory the instructions are read from, the
    breakpoints and the functions replaced by host code.  Left out: symbols and
    the search for functions. *)
From S2P Require Export PPCTables.
From Stdlib Require Import String.

Class AnalystEnv := {
  (** the instruction at an address and its physical address, if it can be read *)
  TryReadInstruction : Z -> option (Z * Z);
  IsAddressBreakPoint : Z -> bool;
  TryReplaceFunction : Z -> bool
}.

(** ** Sets of registers *)

Definition with_bit (i : Z) (set : Z) : Z := set .| (1 .<< i).
Definition set_bit_if (b : bool) (i : Z) (set : Z) : Z := if b then with_bit i set else set.
(** [set[i] = b] *)
Definition assign_bit (i : Z) (b : bool) (set : Z) : Z := (set .& .~ (1 .<< i)) .| (Z.b2z b .<< i).
Definition nonempty (set : Z) : bool := negb (set =? 0).
Definition AllCR : Z := 0xFF.

(** ** Data *)

Definition RC inst := field inst 6 5.
Definition FS inst := field inst 21 5.
Definition SPRU inst := field inst 11 5.
Definition SPRL inst := field inst 16 5.
Definition Ix inst := field inst 7 3.
Definition I_ inst := field inst 12 3.
Definition SPR_GQR0 : Z := 912.
Definition SPR_MMCR0 : Z := 952.
Definition SPR_MMCR1 : Z := 956.
Definition BO_DONT_CHECK_CONDITION : Z := 16.
Definition UINT32_MAX : Z := 0xFFFFFFFF.
Definition BRANCH_FOLLOWING_THRESHOLD : Z := 2.

(** The part of a [CodeOp] that [SetInstructionStats] fills in. *)
Record Stats := mkStats {
  regsIn : Z;
  regsOut : Z;
  fregsIn : Z;
  fregOut : Z;
  crIn : Z;
  crOut : Z;
  branchUsesCtr : bool;
  branchTo : Z;
  wantsFPRF : bool;
  outputFPRF : bool;
  wantsCA : bool;
  wantsCAInFlags : bool;
  outputCA : bool;
  canEndBlock : bool;
  canCauseException : bool
}.

(** The part the backward pass over a block fills in; [fprInXmm] is the set of
    floating-point registers that are worth keeping in a host register. *)
Record Needs := mkNeeds {
  needsFPRF : bool;
  needsCA : bool;
  crWillBeRead : Z;
  crWillBeWritten : Z;
  crDiscardable : Z;
  gprWillBeRead : Z;
  gprWillBeWritten : Z;
  fprWillBeRead : Z;
  fprWillBeWritten : Z;
  gprDiscardable : Z;
  fprDiscardable : Z;
  fprInXmm : Z
}.

(** The part the forward pass fills in. *)
Record FprFacts := mkFprFacts {
  fprIsSingle : Z;
  fprIsDuplicated : Z;
  fprIsStoreSafeBeforeInst : Z;
  fprIsStoreSafeAfterInst : Z
}.

Record CodeOp := mkCodeOp {
  inst : Z;
  opinfo : GekkoOPInfo;
  address : Z;
  stats : Stats;
  branchIsIdleLoop : bool;
  skip : bool;
  skipLRStack : bool;
  needs : Needs;
  fprs : FprFacts
}.

Definition set_stats st op :=
  mkCodeOp (inst op) (opinfo op) (address op) st (branchIsIdleLoop op) (skip op) (skipLRStack op) (needs op) (fprs op).
Definition set_idle b op :=
  mkCodeOp (inst op) (opinfo op) (address op) (stats op) b (skip op) (skipLRStack op) (needs op) (fprs op).
Definition set_skip b op :=
  mkCodeOp (inst op) (opinfo op) (address op) (stats op) (branchIsIdleLoop op) b (skipLRStack op) (needs op) (fprs op).
Definition set_skipLRStack b op :=
  mkCodeOp (inst op) (opinfo op) (address op) (stats op) (branchIsIdleLoop op) (skip op) b (needs op) (fprs op).
Definition set_needs n op :=
  mkCodeOp (inst op) (opinfo op) (address op) (stats op) (branchIsIdleLoop op) (skip op) (skipLRStack op) n (fprs op).
Definition set_fprs f op :=
  mkCodeOp (inst op) (opinfo op) (address op) (stats op) (branchIsIdleLoop op) (skip op) (skipLRStack op) (needs op) f.
Definition set_branchTo v st :=
  mkStats (regsIn st) (regsOut st) (fregsIn st) (fregOut st) (crIn st) (crOut st) (branchUsesCtr st) v (wantsFPRF st)
    (outputFPRF st) (wantsCA st) (wantsCAInFlags st) (outputCA st) (canEndBlock st) (canCauseException st).

Definition no_needs : Needs := mkNeeds false false 0 0 0 0 0 0 0 0 0 0.
Definition no_fprs : FprFacts := mkFprFacts 0 0 0 0.

(** [CodeBlock], with the numbers behind its pointers; [m_physical_addresses]
    lists the ranges inserted into the set. *)
Record CodeBlock := mkBlock {
  m_address : Z;
  m_num_instructions : nat;
  numCycles : Z;
  m_fpa_any : bool;
  m_broken : bool;
  m_memory_exception : bool;
  m_gqr_used : Z;
  m_gqr_modified : Z;
  m_gpr_inputs : Z;
  m_physical_addresses : list (Z * Z)
}.

(** [PPCAnalyzer] *)
Record Analyzer := mkAnalyzer {
  m_options : Z;
  m_is_debugging_enabled : bool;
  m_enable_branch_following : bool;
  m_enable_float_exceptions : bool;
  m_enable_div_by_zero_exceptions : bool
}.
Definition OPTION_CONDITIONAL_CONTINUE : Z := 2 ^ 0.
Definition OPTION_BRANCH_FOLLOW : Z := 2 ^ 1.
Definition OPTION_BRANCH_MERGE : Z := 2 ^ 4.
Definition OPTION_CARRY_MERGE : Z := 2 ^ 5.
Definition OPTION_CROR_MERGE : Z := 2 ^ 6.
Definition HasOption (a : Analyzer) (option : Z) : bool := negb (m_options a .& option =? 0).

(** ** Instruction statistics *)

Definition IsMfspr (i : Z) : bool := (OPCD i =? 31) && (SUBOP10 i =? 339).
Definition IsMtspr (i : Z) : bool := (OPCD i =? 31) && (SUBOP10 i =? 467).
Definition GetSPRIndex (i : Z) : Z := (SPRU i .<< 5) .| (SPRL i .& 0x1F).

Definition InstructionCanEndBlock (info : GekkoOPInfo) (i : Z) : bool :=
  has_flag info FL_ENDBLOCK && (negb (IsMtspr i) || (GetSPRIndex i =? SPR_MMCR0) || (GetSPRIndex i =? SPR_MMCR1)).

Definition is_cr_type (info : GekkoOPInfo) : bool := match type info with OpType.CR => true | _ => false end.
Definition is_integer_type (info : GekkoOPInfo) : bool := match type info with OpType.Integer => true | _ => false end.

Definition crIn_of (info : GekkoOPInfo) (i : Z) : Z :=
  if has_flag info FL_READ_ALL_CR then AllCR
  else if has_flag info FL_READ_CRn then with_bit (CRFS i) 0
  else if has_flag info FL_READ_CR_BI then with_bit (BI i .>> 2) 0
  else if is_cr_type info then with_bit (CRBD i .>> 2) (with_bit (CRBB i .>> 2) (with_bit (CRBA i .>> 2) 0))
  else 0.
Definition crOut_of (info : GekkoOPInfo) (i : Z) : Z :=
  if has_flag info FL_SET_ALL_CR then AllCR
  else if has_flag info FL_SET_CRn then with_bit (CRFD i) 0
  else if has_flag info FL_SET_CR0 || (has_flag info FL_RC_BIT && Rc i) then with_bit 0 0
  else if has_flag info FL_SET_CR1 || (has_flag info FL_RC_BIT_F && Rc i) then with_bit 1 0
  else if is_cr_type info then with_bit (CRBD i .>> 2) 0
  else 0.
(** The registers from [r] to 31, for the multiple loads and stores. *)
Definition regs_from (r : Z) : Z := 0xFFFFFFFF .& .~ ((1 .<< r) - 1).
Definition regsOut_of (info : GekkoOPInfo) (i : Z) : Z :=
  let out := set_bit_if (has_flag info FL_OUT_A) (RA i) 0 in
  let out := set_bit_if (has_flag info FL_OUT_D) (RD i) out in
  if OPCD i =? 46 then out .| regs_from (RD i) else out.
Definition regsIn_of (info : GekkoOPInfo) (i : Z) : Z :=
  let ins := set_bit_if (has_flag info FL_IN_A || (has_flag info FL_IN_A0 && negb (RA i =? 0))) (RA i) 0 in
  let ins := set_bit_if (has_flag info FL_IN_B) (RB i) ins in
  let ins := set_bit_if (has_flag info FL_IN_C) (RC i) ins in
  let ins := set_bit_if (has_flag info FL_IN_S) (RS i) ins in
  if OPCD i =? 46 then ins
  else if OPCD i =? 47 then ins .| regs_from (RS i) else ins.
Definition fregsIn_of (info : GekkoOPInfo) (i : Z) : Z :=
  set_bit_if (has_flag info FL_IN_FLOAT_S) (FS i)
    (set_bit_if (has_flag info FL_IN_FLOAT_D) (FD i)
      (set_bit_if (has_flag info FL_IN_FLOAT_C) (field i 6 5)
        (set_bit_if (has_flag info FL_IN_FLOAT_B) (FB i)
          (set_bit_if (has_flag info FL_IN_FLOAT_A) (field i 16 5) 0)))).
Definition branchTo_of (addr i : Z) : Z :=
  if OPCD i =? 18 then
    let d := u32 (SignExt26 (LI i .<< 2)) in if AA i then d else u32 (addr + d)
  else if OPCD i =? 16 then
    let d := u32 (SignExt16 (s16 (BD i .<< 2))) in if AA i then d else u32 (addr + d)
  else UINT32_MAX.
Definition branchUsesCtr_of (i : Z) : bool :=
  ((OPCD i =? 16) || ((OPCD i =? 19) && ((SUBOP10 i =? 16) || (SUBOP10 i =? 528))))
  && (BO i .& BO_DONT_DECREMENT_FLAG =? 0).

(** The statistics, and the block's [m_fpa->any] afterwards. *)
Definition SetInstructionStats (a : Analyzer) (fpa_any : bool) (info : GekkoOPInfo) (addr i : Z) : Stats * bool :=
  let uses_fpu := has_flag info FL_USE_FPU in
  let first_fpu_instruction := uses_fpu && negb fpa_any in
  let wants := has_flag info FL_READ_CA in
  let outputs := has_flag info FL_SET_CA in
  let in_flags := HasOption a OPTION_CARRY_MERGE && wants && outputs && is_integer_type info in
  let wants := if IsMfspr i then GetSPRIndex i =? SPR_XER else wants in
  let outputs := if IsMtspr i then GetSPRIndex i =? SPR_XER else outputs in
  (mkStats (regsIn_of info i) (regsOut_of info i) (fregsIn_of info i)
     (if has_flag info FL_OUT_FLOAT_D then FD i else -1)
     (crIn_of info i) (crOut_of info i) (branchUsesCtr_of i) (branchTo_of addr i)
     (has_flag info FL_READ_FPRF) (has_flag info FL_SET_FPRF) wants in_flags outputs
     (InstructionCanEndBlock info i)
     (first_fpu_instruction || has_flag info (FL_LOADSTORE .| FL_PROGRAMEXCEPTION)
      || (m_enable_float_exceptions a && has_flag info FL_FLOAT_EXCEPTION)
      || (m_enable_div_by_zero_exceptions a && has_flag info FL_FLOAT_DIV)),
   fpa_any || uses_fpu).

(** ** Reordering *)

Section Analyst.
Context {E : AnalystEnv} (a : Analyzer).

Definition CanSwapAdjacentOps (op_a op_b : CodeOp) : bool :=
  let sa := stats op_a in let sb := stats op_b in
  let fa := opinfo op_a in let fb := opinfo op_b in
  let unmovable info := has_flag info (FL_TIMER .| FL_NO_REORDER .| FL_SET_OE) in
  let carry info := has_flag info (FL_SET_CA .| FL_READ_CA) in
  if m_is_debugging_enabled a && (IsAddressBreakPoint (address op_a) || IsAddressBreakPoint (address op_b)) then false
  else if canCauseException sa || canCauseException sb then false
  else if canEndBlock sa || canEndBlock sb then false
  else if unmovable fa then false
  else if unmovable fb then false
  else if carry fa && carry fb then false
  else if negb (is_integer_type fb) then false
  else if nonempty (regsOut sb .& regsIn sa) then false
  else if nonempty (crOut sb .& crIn sa) then false
  else if nonempty (regsOut sa .& regsIn sb) then false
  else if nonempty (crOut sa .& crIn sb) then false
  else if nonempty (regsOut sb .& regsOut sa) then false
  else negb (nonempty (crOut sb .& crOut sa)).

Definition isCarryOp (op : CodeOp) : bool :=
  has_flag (opinfo op) FL_SET_CA && negb (has_flag (opinfo op) FL_SET_OE) && is_integer_type (opinfo op).
Definition isCror (op : CodeOp) : bool := (OPCD (inst op) =? 19) && (SUBOP10 (inst op) =? 449).

Inductive ReorderType := Carry | CMP | CROR.

Definition movable (t : ReorderType) (op : CodeOp) : bool :=
  match t with
  | CROR => isCror op
  | Carry => isCarryOp op
  | CMP => nonempty (crOut (stats op))
  end.

Definition no_op : CodeOp := mkCodeOp 0 unknown_info 0 (mkStats 0 0 0 0 0 0 false 0 false false false false false false false)
  false false false no_needs no_fprs.
Definition op_nth (code : list CodeOp) (i : Z) : CodeOp := nth (Z.to_nat i) code no_op.
(** [std::swap(code[i], code[j])] *)
Definition swap_ops (i j : Z) (code : list CodeOp) : list CodeOp :=
  <[Z.to_nat j := op_nth code i]> (<[Z.to_nat i := op_nth code j]> code).

(** A carry instruction that already is next to its partner [before]. *)
Definition stays (t : ReorderType) (reverse : bool) (op before : CodeOp) : bool :=
  match t with
  | Carry =>
      (negb reverse && has_flag (opinfo op) FL_READ_CA && has_flag (opinfo before) FL_SET_CA)
      || (reverse && has_flag (opinfo op) FL_SET_CA && has_flag (opinfo before) FL_READ_CA)
  | _ => false
  end.

(** The loop, with [i], [next] and [go_backwards] as its variables. *)
Fixpoint reorder_loop (fuel : nat) (t : ReorderType) (reverse : bool) (start end_ increment : Z)
    (i next : Z) (go_backwards : bool) (code : list CodeOp) : option (list CodeOp) :=
  match fuel with
  | O => None
  | S fuel =>
      let continue := reorder_loop fuel t reverse start end_ increment in
      let '(i, next) := if go_backwards then (i - increment, next) else (next, next + increment) in
      if i =? end_ then Some code
      else
        let op_a := op_nth code i in
        let op_b := op_nth code (i + increment) in
        if movable t op_a then
          if negb (i =? start) && stays t reverse op_a (op_nth code (i - increment)) then continue i next false code
          else if CanSwapAdjacentOps op_a op_b then
            continue i next (negb (i =? start)) (swap_ops i (i + increment) code)
          else continue i next false code
        else continue i next false code
  end.
(** Each of the [n] positions is left backwards at most once per step of [next]. *)
Definition reorder_fuel (instructions : nat) : nat := instructions * (instructions + 1).

Definition ReorderInstructionsCore (instructions : nat) (code : list CodeOp) (reverse : bool) (t : ReorderType)
  : option (list CodeOp) :=
  let last := Z.of_nat instructions - 1 in
  let start := if reverse then last else 0 in
  let end_ := if reverse then 0 else last in
  let increment := if reverse then -1 else 1 in
  reorder_loop (reorder_fuel instructions) t reverse start end_ increment start start false code.

Definition ReorderInstructions (instructions : nat) (code : list CodeOp) : option (list CodeOp) :=
  code ← (if HasOption a OPTION_CARRY_MERGE then
            code ← ReorderInstructionsCore instructions code false Carry;
            ReorderInstructionsCore instructions code true Carry
          else Some code);
  code ← (if HasOption a OPTION_BRANCH_MERGE then ReorderInstructionsCore instructions code false CMP else Some code);
  if HasOption a OPTION_CROR_MERGE then ReorderInstructionsCore instructions code true CROR else Some code.

(** ** Idle loops *)

Definition is_branch (info : GekkoOPInfo) : bool := match type info with OpType.Branch => true | _ => false end.
Definition is_load (info : GekkoOPInfo) : bool := match type info with OpType.Load => true | _ => false end.

(** The loop over the instructions up to number [instructions]; the loops over
    the registers of an instruction are set operations. *)
Fixpoint busy_wait_from (block_address : Z) (code : list CodeOp) (remaining : nat) (written disallowed : Z) : bool :=
  match code with
  | [] => false
  | op :: code =>
      if is_branch (opinfo op) then
        if branchUsesCtr (stats op) then false
        else
          match remaining with
          | O => branchTo (stats op) =? block_address
          | S remaining => busy_wait_from block_address code remaining written disallowed
          end
      else
        let continue written disallowed :=
          match remaining with O => false | S remaining => busy_wait_from block_address code remaining written disallowed end in
        if inst op =? 0x60000000 then continue written disallowed
        else if negb (is_integer_type (opinfo op)) && negb (is_load (opinfo op)) then false
        else
          let disallowed := disallowed .| (regsIn (stats op) .& .~ written) in
          if nonempty (regsOut (stats op) .& disallowed) then false
          else continue (written .| regsOut (stats op)) disallowed
  end.
Definition IsBusyWaitLoop (block_address : Z) (code : list CodeOp) (instructions : nat) : bool :=
  busy_wait_from block_address code instructions 0 0.

(** ** Analysis of a block *)

Definition unconditional (i : Z) : bool :=
  negb (BO i .& BO_DONT_DECREMENT_FLAG =? 0) && negb (BO i .& BO_DONT_CHECK_CONDITION =? 0).
Definition is_bclr (i : Z) : bool := (OPCD i =? 19) && (SUBOP10 i =? 16).

(** The variables of the scan. *)
Record Scan := mkScan {
  sc_code : list CodeOp;
  sc_address : Z;
  sc_fpa_any : bool;
  sc_cycles : Z;
  sc_physical : list (Z * Z);
  sc_memory_exception : bool;
  sc_found_exit : bool;
  sc_found_call : bool;
  sc_caller : nat;
  sc_num_follows : Z
}.

(** What the branch at [code[i]] does to the scan: whether it is followed, the
    call the scan is in, the caller's index and the code. *)
Definition follow_branch (block_size i : nat) (code : list CodeOp) (found_call : bool) (caller : nat) (numFollows : Z)
  : bool * bool * nat * list CodeOp :=
  let op := op_nth code (Z.of_nat i) in
  let hex := inst op in
  if m_enable_branch_following a && HasOption a OPTION_BRANCH_FOLLOW then
    if (OPCD hex =? 18) && Nat.ltb 1 block_size then
      if LK hex then (true, true, i, code) else (true, found_call, caller, code)
    else if (OPCD hex =? 16) && unconditional hex && Nat.ltb 1 block_size then
      if LK hex then (true, true, i, code) else (true, found_call, caller, code)
    else if is_bclr hex && negb (LK hex) && found_call then
      let op := set_stats (set_branchTo (u32 (address (op_nth code (Z.of_nat caller)) + 4)) (stats op)) op in
      if unconditional hex && (numFollows <? BRANCH_FOLLOWING_THRESHOLD) then
        let code := <[i := set_skip true op]> code in
        (true, false, caller, <[caller := set_skipLRStack true (op_nth code (Z.of_nat caller))]> code)
      else (false, found_call, caller, <[i := op]> code)
    else if IsMtspr hex && (GetSPRIndex hex =? SPR_LR) then (false, false, caller, code)
    else (false, found_call, caller, code)
  else (false, found_call, caller, code).

Definition continues (hex : Z) : bool :=
  HasOption a OPTION_CONDITIONAL_CONTINUE &&
  (if (OPCD hex =? 16) && negb (unconditional hex) then true
   else if is_bclr hex && negb (unconditional hex) then true
   else if (OPCD hex =? 3) || ((OPCD hex =? 31) && (SUBOP10 hex =? 4)) then true
   else (OPCD hex =? 19) && (SUBOP10 hex =? 528) && (BO hex .& BO_DONT_CHECK_CONDITION =? 0)).

(** One turn for the instruction [hex] read at the scan's address; the flag says
    whether the scan goes on. *)
Definition scan_inst (block_address : Z) (block_size i : nat) (hex physical : Z) (sc : Scan) : Scan * bool :=
  let info := GetOpInfo hex in
  let '(st, fpa_any) := SetInstructionStats a (sc_fpa_any sc) info (sc_address sc) hex in
  let code := sc_code sc ++ [mkCodeOp hex info (sc_address sc) st false false false no_needs no_fprs] in
  let '(follow, found_call, caller, code) :=
    follow_branch block_size i code (sc_found_call sc) (sc_caller sc) (sc_num_follows sc) in
  let op := op_nth code (Z.of_nat i) in
  let idle := (branchTo (stats op) =? block_address) && IsBusyWaitLoop block_address code i in
  let code := <[i := set_idle idle op]> code in
  let cycles := sc_cycles sc + num_cycles info in
  let physicals := sc_physical sc ++ [(physical, u32 (physical + 4))] in
  if follow && (sc_num_follows sc <? BRANCH_FOLLOWING_THRESHOLD) then
    (mkScan code (branchTo (stats op)) fpa_any cycles physicals (sc_memory_exception sc) (sc_found_exit sc)
       found_call caller (sc_num_follows sc + 1), true)
  else if negb (continues hex) && InstructionCanEndBlock info hex then
    (mkScan code (u32 (sc_address sc + 4)) fpa_any cycles physicals (sc_memory_exception sc) true
       found_call caller (sc_num_follows sc), false)
  else
    (mkScan code (u32 (sc_address sc + 4)) fpa_any cycles physicals (sc_memory_exception sc) (sc_found_exit sc)
       (if continues hex then false else found_call) caller (sc_num_follows sc), true).

(** The loop, with [remaining] turns left of [block_size]. *)
Fixpoint scan (block_address : Z) (block_size remaining : nat) (sc : Scan) : Scan :=
  match remaining with
  | O => sc
  | S remaining =>
      let i := List.length (sc_code sc) in
      match TryReadInstruction (sc_address sc) with
      | None =>
          mkScan (sc_code sc) (sc_address sc) (sc_fpa_any sc) (sc_cycles sc) (sc_physical sc)
            (if Nat.eqb i 0 then true else sc_memory_exception sc)
            (sc_found_exit sc) (sc_found_call sc) (sc_caller sc) (sc_num_follows sc)
      | Some (hex, physical) =>
          let '(sc, goes_on) := scan_inst block_address block_size i hex physical sc in
          if goes_on then scan block_address block_size remaining sc else sc
      end
  end.

Definition CanCauseGatherPipeInterruptCheck (op : CodeOp) : bool :=
  ((OPCD (inst op) =? 31) && (SUBOP10 (inst op) =? 854))
  || match type (opinfo op) with OpType.Store | OpType.StoreFP | OpType.StorePS => true | _ => false end.

Definition GetFregsOut (st : Stats) : Z := if 0 <=? fregOut st then with_bit (fregOut st) 0 else 0.

(** One step of the backward pass: what is needed before [op] and [op] with what
    is needed after it. *)
Definition needs_before (after : Needs) (op : CodeOp) : CodeOp * Needs :=
  let st := stats op in
  let after :=
    if CanCauseGatherPipeInterruptCheck op then
      mkNeeds (needsFPRF after) (needsCA after) (crWillBeRead after) (crWillBeWritten after) 0 (gprWillBeRead after)
        (gprWillBeWritten after) (fprWillBeRead after) (fprWillBeWritten after) 0 0 (fprInXmm after)
    else after in
  let stops := TryReplaceFunction (address op) || IsAddressBreakPoint (address op) in
  let exits := canEndBlock st || canCauseException st in
  let may_exit_block := stops || exits in
  let op := set_needs (mkNeeds (needsFPRF after || may_exit_block) (needsCA after || may_exit_block)
    (crWillBeRead after) (crWillBeWritten after) (crDiscardable after) (gprWillBeRead after) (gprWillBeWritten after)
    (fprWillBeRead after) (fprWillBeWritten after) (gprDiscardable after) (fprDiscardable after) (fprInXmm after)) op in
  let keeps_xmm := if String.prefix "stfd" (opname (opinfo op)) then fprInXmm after else fprInXmm after .| fregsIn st in
  let fprf := (needsFPRF after || wantsFPRF st || may_exit_block) && (negb (outputFPRF st) || wantsFPRF st) in
  let ca := (needsCA after || wantsCA st || may_exit_block) && (negb (outputCA st) || wantsCA st) in
  (op,
   if stops then mkNeeds fprf ca 0 0 0 0 0 0 0 0 0 0
   else
     let discard old out ins := if exits then 0 else (old .| out) .& .~ ins in
     mkNeeds fprf ca
       ((crWillBeRead after .& .~ crOut st) .| crIn st) (crWillBeWritten after .| crOut st)
       (discard (crDiscardable after) (crOut st) (crIn st))
       ((gprWillBeRead after .& .~ regsOut st) .| regsIn st) (gprWillBeWritten after .| regsOut st)
       ((fprWillBeRead after .& .~ GetFregsOut st) .| fregsIn st) (fprWillBeWritten after .| GetFregsOut st)
       (discard (gprDiscardable after) (regsOut st) (regsIn st))
       (discard (fprDiscardable after) (GetFregsOut st) (fregsIn st))
       keeps_xmm).
(** At the end of a block everything is wanted and nothing is discarded. *)
Definition needs_at_end : Needs := mkNeeds true true 0 0 0 0 0 0 0 0 0 0.
Fixpoint backward_pass (code : list CodeOp) : list CodeOp * Needs :=
  match code with
  | [] => ([], needs_at_end)
  | op :: code =>
      let '(code, after) := backward_pass code in
      let '(op, before) := needs_before after op in
      (op :: code, before)
  end.

(** One step of the forward pass over the floating-point registers. *)
Record FprScan := mkFprScan { fsSingle : Z; fsDuplicated : Z; fsStoreSafe : Z; fsGqrUsed : Z; fsGqrModified : Z }.

Definition bitexact_inputs (op : CodeOp) : Z :=
  set_bit_if (has_flag (opinfo op) FL_IN_FLOAT_C_BITEXACT) (field (inst op) 6 5)
    (set_bit_if (has_flag (opinfo op) FL_IN_FLOAT_B_BITEXACT) (FB (inst op))
      (set_bit_if (has_flag (opinfo op) FL_IN_FLOAT_A_BITEXACT) (field (inst op) 16 5) 0)).
Definition subset (small set : Z) : bool := set .& small =? small.

Definition fpr_step (fs : FprScan) (op : CodeOp) : CodeOp * FprScan :=
  let out := fregOut (stats op) in
  let name := opname (opinfo op) in
  let exact := bitexact_inputs op in
  let single_fp := match type (opinfo op) with OpType.SingleFP => true | _ => false end in
  let ps_type := match type (opinfo op) with OpType.PS => true | _ => false end in
  let ps_load := match type (opinfo op) with OpType.LoadPS => true | _ => false end in
  let ps_store := match type (opinfo op) with OpType.StorePS => true | _ => false end in
  let '(single, duplicated, safe) :=
    if 0 <=? out then
      let '(is_single, is_dup) :=
        if single_fp || String.prefix "frsp" name || String.prefix "lfs" name then (true, true)
        else if nonempty exact then (subset exact (fsSingle fs), false)
        else if ps_type || ps_load then (true, false)
        else (false, false) in
      (assign_bit out is_single (fsSingle fs), assign_bit out is_dup (fsDuplicated fs),
       if String.prefix "mtfs" name then 0
       else if nonempty exact then assign_bit out (subset exact (fsStoreSafe fs)) (fsStoreSafe fs)
       else assign_bit out (single_fp || ps_type || String.prefix "frsp" name) (fsStoreSafe fs))
    else (fsSingle fs, fsDuplicated fs, fsStoreSafe fs) in
  let used := if ps_store || ps_load then
    with_bit (if OPCD (inst op) =? 4 then Ix (inst op) else I_ (inst op)) (fsGqrUsed fs) else fsGqrUsed fs in
  let gqr := GetSPRIndex (inst op) - SPR_GQR0 in
  let modified := if IsMtspr (inst op) && (0 <=? gqr) && (gqr <=? 7)
    then with_bit gqr (fsGqrModified fs) else fsGqrModified fs in
  (set_fprs (mkFprFacts (fsSingle fs) (fsDuplicated fs) (fsStoreSafe fs) safe) op,
   mkFprScan single duplicated safe used modified).
Fixpoint forward_pass (fs : FprScan) (code : list CodeOp) : list CodeOp * FprScan :=
  match code with
  | [] => ([], fs)
  | op :: code =>
      let '(op, fs) := fpr_step fs op in
      let '(code, fs) := forward_pass fs code in
      (op :: code, fs)
  end.

(** The block, its code and the address after it. *)
Definition Analyze (addr : Z) (block_size : nat) : option (CodeBlock * list CodeOp * Z) :=
  let sc := scan addr block_size block_size (mkScan [] addr false 0 [] false false false 0 0) in
  let num_inst := List.length (sc_code sc) in
  code ← (if Nat.ltb 1 num_inst then ReorderInstructions num_inst (sc_code sc) else Some (sc_code sc));
  let broken := (negb (sc_found_exit sc) && Nat.ltb 0 num_inst) || Nat.eqb block_size 1 in
  let '(code, at_start) := backward_pass code in
  let '(code, fs) := forward_pass (mkFprScan 0 0 0 0 0) code in
  Some (mkBlock addr num_inst (sc_cycles sc) (sc_fpa_any sc) broken (sc_memory_exception sc)
          (fsGqrUsed fs) (fsGqrModified fs) (gprWillBeRead at_start) (sc_physical sc),
        code, sc_address sc).

End Analyst.
