(* ===== verification/PPCTypes.v ===== *)
(** * The types of the PowerPC's registers

    What a well-formed state is, and that every modelled instruction keeps it. *)
From S2P Require Export PPCInteger PPCBranch PPCSystem PPCFloat PPCInterpreter.

(** * Well-formed states of the PowerPC

    Every register holds a number of its width, and the register files have
    their sizes.  Each function of the interpreter keeps this; the lemmas are
    collected in the hint database [ppc]. *)

Definition is_double_pair (p : Z * Z) : Prop := is_u64 (fst p) /\ is_u64 (snd p).

Record wf (s : PowerPCState) : Prop := mkWf {
  wf_pc : is_u32 (pc s);
  wf_npc : is_u32 (npc s);
  wf_gpr_length : length (gpr s) = 32%nat;
  wf_gpr : Forall is_u32 (gpr s);
  wf_ps_length : length (ps s) = 32%nat;
  wf_ps : Forall is_double_pair (ps s);
  wf_cr_length : length (cr s) = 8%nat;
  wf_cr : Forall is_u64 (cr s);
  wf_msr : is_u32 (msr s);
  wf_fpscr : is_u32 (fpscr s);
  wf_features : is_u32 (feature_flags s);
  wf_exceptions : is_u32 (Exceptions s);
  wf_ca : 0 <= xer_ca s <= 1;
  wf_so_ov : 0 <= xer_so_ov s <= 3;
  wf_stringctrl : is_u16 (xer_stringctrl s);
  wf_sr_length : length (sr s) = 16%nat;
  wf_sr : Forall is_u32 (sr s);
  wf_spr : map_Forall (fun _ => is_u32) (spr s)
}.

Create HintDb ppc.

(** ** Ranges *)

Lemma is_u32_lxor a b : is_u32 a -> is_u32 b -> is_u32 (a .^ b).
Proof. exact (lxor_range_pow2 32 a b ltac:(lia)). Qed.

Lemma is_u32_land_r a b : is_u32 b -> is_u32 (a .& b).
Proof. rewrite Z.land_comm. apply is_u32_land. Qed.

Lemma is_u32_shiftr a n : 0 <= n -> is_u32 a -> is_u32 (a .>> n).
Proof.
  intros Hn Ha. unfold is_u32 in *. rewrite Z.shiftr_div_pow2 by done.
  pose proof (Z.pow_pos_nonneg 2 n). split; [apply Z.div_pos; lia|].
  apply Z.le_lt_trans with a; [apply Z.div_le_upper_bound; nia|lia].
Qed.

Lemma is_u32_if (b : bool) x y : is_u32 x -> is_u32 y -> is_u32 (if b then x else y).
Proof. by destruct b. Qed.

Lemma is_u64_lor a b : is_u64 a -> is_u64 b -> is_u64 (a .| b).
Proof. exact (lor_range_pow2 64 a b ltac:(lia)). Qed.

Lemma is_u64_lxor a b : is_u64 a -> is_u64 b -> is_u64 (a .^ b).
Proof. exact (lxor_range_pow2 64 a b ltac:(lia)). Qed.

Lemma is_u64_land a b : is_u64 a -> is_u64 (a .& b).
Proof. exact (land_range_l 64 a b ltac:(lia)). Qed.

Lemma is_u64_u64 a : is_u64 (u64 a).
Proof. zlia. Qed.

Lemma is_u64_if (b : bool) x y : is_u64 x -> is_u64 y -> is_u64 (if b then x else y).
Proof. by destruct b. Qed.

Lemma is_u64_u32 a : is_u32 a -> is_u64 a.
Proof. unfold_ints. lia. Qed.

Lemma field_range i lo n : 0 <= n -> 0 <= field i lo n < 2 ^ n.
Proof.
  intros Hn. unfold field. rewrite (land_ones_mod n) by done.
  apply Z.mod_pos_bound, Z.pow_pos_nonneg; lia.
Qed.

Lemma field_u32 i lo n : 0 <= n <= 32 -> is_u32 (field i lo n).
Proof.
  intros Hn. pose proof (field_range i lo n (proj1 Hn)).
  pose proof (Z.pow_le_mono_r 2 n 32 ltac:(lia) (proj2 Hn)). unfold is_u32. lia.
Qed.

Lemma b2z_range b : 0 <= Z.b2z b <= 1.
Proof. destruct b; simpl; lia. Qed.

Lemma b2z_u32 b : is_u32 (Z.b2z b).
Proof. pose proof (b2z_range b). unfold is_u32. lia. Qed.

(** A bit or a small number moved up. *)
Lemma shiftl_bits_range v n k m : 0 <= n -> 0 <= k -> n + k <= m -> 0 <= v < 2 ^ n -> 0 <= v .<< k < 2 ^ m.
Proof.
  intros Hn Hk Hm Hv. rewrite Z.shiftl_mul_pow2 by done.
  pose proof (Z.pow_le_mono_r 2 (n + k) m ltac:(lia) Hm). rewrite Z.pow_add_r in H by done.
  pose proof (Z.pow_pos_nonneg 2 k). nia.
Qed.

Lemma b2z_shiftl_u64 b k : 0 <= k <= 63 -> is_u64 (Z.b2z b .<< k).
Proof. intros Hk. pose proof (b2z_range b). apply (shiftl_bits_range _ 1 k 64); lia. Qed.

Lemma b2z_shiftl_u32 b k : 0 <= k <= 31 -> is_u32 (Z.b2z b .<< k).
Proof. intros Hk. pose proof (b2z_range b). apply (shiftl_bits_range _ 1 k 32); lia. Qed.

(** ** Registers *)

Lemma Forall_nth_or {A} (P : A -> Prop) l n d : Forall P l -> P d -> P (nth n l d).
Proof.
  intros Hl Hd. rewrite nth_lookup. destruct (l !! n) as [x|] eqn:E; simpl; [|done].
  exact (Forall_lookup_1 P l n x Hl E).
Qed.

Section Registers.
Context {s : PowerPCState} (Hs : wf s).

Lemma is_u32_0 : is_u32 0.
Proof. split; [discriminate|reflexivity]. Qed.

Lemma get_gpr_range i : is_u32 (get_gpr s i).
Proof. exact (Forall_nth_or is_u32 (gpr s) _ 0 (wf_gpr s Hs) is_u32_0). Qed.

Lemma get_sr_range i : is_u32 (get_sr s i).
Proof. exact (Forall_nth_or is_u32 (sr s) _ 0 (wf_sr s Hs) is_u32_0). Qed.

Lemma get_spr_range i : is_u32 (get_spr s i).
Proof.
  unfold get_spr. destruct (spr s !! i) as [v|] eqn:E; simpl; [|split; [discriminate|reflexivity]].
  exact (wf_spr s Hs i v E).
Qed.

Lemma cr_field_range i : is_u64 (cr_field s i).
Proof. apply (Forall_nth_or is_u64 (cr s)); [apply Hs|]. split; [discriminate|reflexivity]. Qed.

Lemma get_ps_range i : is_double_pair (get_ps s i).
Proof. apply (Forall_nth_or is_double_pair (ps s)); [apply Hs|]. repeat split; try discriminate; reflexivity. Qed.

Lemma wf_set_gpr i v : is_u32 v -> wf (set_gpr i v s).
Proof. intros Hv. destruct Hs. constructor; cbn; try done; [by rewrite length_insert|by apply Forall_insert]. Qed.

Lemma wf_set_sr i v : is_u32 v -> wf (set_sr i v s).
Proof. intros Hv. destruct Hs. constructor; cbn; try done; [by rewrite length_insert|by apply Forall_insert]. Qed.

Lemma wf_set_spr i v : is_u32 v -> wf (set_spr i v s).
Proof. intros Hv. destruct Hs. constructor; cbn; try done. by apply map_Forall_insert_2. Qed.

Lemma wf_put_cr_field i v : is_u64 v -> wf (put_cr_field i v s).
Proof. intros Hv. destruct Hs. constructor; cbn; try done; [by rewrite length_insert|by apply Forall_insert]. Qed.

Lemma wf_SetBoth i v w : is_u64 v -> is_u64 w -> wf (SetBoth i v w s).
Proof. intros Hv Hw. destruct Hs. constructor; cbn; try done; [by rewrite length_insert|by apply Forall_insert]. Qed.

Lemma wf_set_pc v : is_u32 v -> wf (set_pc v s).
Proof. intros Hv. by destruct Hs. Qed.
Lemma wf_set_npc v : is_u32 v -> wf (set_npc v s).
Proof. intros Hv. by destruct Hs. Qed.
Lemma wf_set_msr v : is_u32 v -> wf (set_msr v s).
Proof. intros Hv. by destruct Hs. Qed.
Lemma wf_set_fpscr v : is_u32 v -> wf (set_fpscr v s).
Proof. intros Hv. by destruct Hs. Qed.
Lemma wf_set_feature_flags v : is_u32 v -> wf (set_feature_flags v s).
Proof. intros Hv. by destruct Hs. Qed.
Lemma wf_set_Exceptions v : is_u32 v -> wf (set_Exceptions v s).
Proof. intros Hv. by destruct Hs. Qed.
Lemma wf_set_end_block v : wf (set_end_block v s).
Proof. by destruct Hs. Qed.
Lemma wf_set_xer ca so str : 0 <= ca <= 1 -> 0 <= so <= 3 -> is_u16 str -> wf (set_xer ca so str s).
Proof. intros. by destruct Hs. Qed.

End Registers.

#[export] Hint Resolve wf_pc wf_npc wf_msr wf_fpscr wf_features wf_exceptions get_gpr_range get_sr_range
  get_spr_range cr_field_range wf_set_gpr wf_set_sr wf_set_spr wf_put_cr_field wf_SetBoth wf_set_pc wf_set_npc
  wf_set_msr wf_set_fpscr wf_set_feature_flags wf_set_Exceptions wf_set_end_block : ppc.
#[export] Hint Resolve is_u32_land is_u32_lor is_u32_lxor is_u32_u32 is_u32_if b2z_u32 field_u32
  is_u64_land is_u64_lor is_u64_lxor is_u64_u64 is_u64_if : ppc.
#[export] Hint Resolve is_u32_land_r is_u64_u32 | 8 : ppc.
#[export] Hint Extern 1 (is_u32 (Zpos _)) => (split; [discriminate|reflexivity]) : ppc.
#[export] Hint Extern 1 (is_u64 (Zpos _)) => (split; [discriminate|reflexivity]) : ppc.
#[export] Hint Extern 1 (is_u32 (1 .<< _)) => (split; [discriminate|reflexivity]) : ppc.
#[export] Hint Extern 1 (is_u32 0) => (exact is_u32_0) : ppc.
#[export] Hint Extern 2 (_ <= _ <= _) => lia : ppc.
#[export] Hint Extern 2 (_ <= _) => lia : ppc.

Ltac ppc := auto 16 with ppc.

(** ** The helpers of the interpreter *)

Lemma MakeRotationMask_u32 mb me : 0 <= mb -> 0 <= me -> is_u32 (MakeRotationMask mb me).
Proof.
  intros. unfold MakeRotationMask. apply is_u32_if; [ppc|].
  apply is_u32_lxor; apply is_u32_shiftr; ppc.
Qed.

Lemma field_flags_range v : 0 <= field_flags v <= 15.
Proof.
  unfold field_flags.
  assert (H : 0 <= ((v .>> CR_EMU_SO_BIT) .& (CR_LT .| CR_SO)) .| (Z.b2z (v .& 0xFFFFFFFF =? 0) .<< CR_EQ_BIT)
    .| (Z.b2z (0 <? s64 v) .<< CR_GT_BIT) < 2 ^ 4); [|lia].
  pose proof (b2z_range (v .& 0xFFFFFFFF =? 0)). pose proof (b2z_range (0 <? s64 v)).
  apply lor_range_pow2; [lia|apply lor_range_pow2; [lia| |]|].
  - rewrite Z.land_comm. apply land_range_l; [lia|]. split; [discriminate|reflexivity].
  - apply (shiftl_bits_range _ 1 1 4); lia.
  - apply (shiftl_bits_range _ 1 2 4); lia.
Qed.

Lemma s_crTable_u64 n : is_u64 (nth n s_crTable 0).
Proof.
  apply (Forall_nth_or is_u64 s_crTable); [|split; [discriminate|reflexivity]].
  repeat (constructor; [split; [discriminate|reflexivity]|]). constructor.
Qed.

Lemma wf_SetField i v s : wf s -> wf (SetField i v s).
Proof. intros Hs. apply wf_put_cr_field; [done|]. apply s_crTable_u64. Qed.

Lemma wf_SetBit b v s : wf s -> wf (SetBit b v s).
Proof. intros Hs. unfold SetBit. destruct (negb _); by apply wf_SetField. Qed.

Lemma wf_fold_left {A} (f : PowerPCState -> A -> PowerPCState) l s :
  (forall s x, wf s -> wf (f s x)) -> wf s -> wf (fold_left f l s).
Proof. intros Hf. revert s. induction l as [|x l IH]; intros s Hs; [done|]. apply IH. by apply Hf. Qed.

Lemma wf_cr_Set v s : wf s -> wf (cr_Set v s).
Proof. apply wf_fold_left. intros. by apply wf_SetField. Qed.

Lemma cr_Get_u32 s : is_u32 (cr_Get s).
Proof.
  unfold cr_Get. cbn [seq fold_left].
  assert (H : forall n, 0 <= Z.of_nat n <= 7 -> is_u32 (GetField (Z.of_nat n) s .<< (28 - Z.of_nat n * 4))).
  { intros n Hn. pose proof (field_flags_range (cr_field s (Z.of_nat n))).
    apply (shiftl_bits_range _ 4 _ 32); unfold GetField; lia. }
  repeat (apply is_u32_lor; [|apply H; lia]). ppc.
Qed.

Lemma wf_UpdateCR1 s : wf s -> wf (UpdateCR1 s).
Proof. intros. by apply wf_SetField. Qed.

Lemma wf_SetCarry c s : wf s -> wf (SetCarry c s).
Proof. intros Hs. apply wf_set_xer; [done|apply b2z_range|apply Hs|apply Hs]. Qed.

Lemma lor_range_3 a b : 0 <= a <= 3 -> 0 <= b <= 3 -> 0 <= a .| b <= 3.
Proof. intros. pose proof (lor_range_pow2 2 a b ltac:(lia) ltac:(simpl; lia) ltac:(simpl; lia)). simpl in *. lia. Qed.

Lemma wf_SetXER_OV v s : wf s -> wf (SetXER_OV v s).
Proof.
  intros Hs. unfold SetXER_OV, SetXER_SO. cbn.
  pose proof (wf_so_ov s Hs) as Hr. pose proof (b2z_range v) as Hv.
  assert (0 <= xer_so_ov s .& 254 <= 3) by (pose proof (land_range_l 2 (xer_so_ov s) 254 ltac:(lia) ltac:(simpl; lia)); simpl in *; lia).
  assert (0 <= Z.b2z v .<< 1 <= 3) by (destruct v; split; discriminate).
  repeat apply wf_set_xer; try done; try apply Hs; cbn; repeat apply lor_range_3; lia.
Qed.

Lemma GetXER_SO_range s : wf s -> 0 <= GetXER_SO s <= 1.
Proof.
  intros Hs. pose proof (wf_so_ov s Hs). unfold GetXER_SO. rewrite Z.shiftr_div_pow2 by lia.
  Z.div_mod_to_equations. lia.
Qed.

Lemma wf_UpdateCR0 v s : wf s -> wf (Helper_UpdateCR0 v s).
Proof.
  intros Hs. apply wf_put_cr_field; [done|].
  assert (is_u64 (u64 (s32 v))) by apply is_u64_u64.
  apply is_u64_lor; [apply is_u64_land, is_u64_if; [apply is_u64_lor; [done|by apply (b2z_shiftl_u64 true 63)]|done]|].
  pose proof (GetXER_SO_range s Hs). apply (shiftl_bits_range _ 1 59 64); lia.
Qed.

Lemma wf_record i v s : wf s -> wf (record i v s).
Proof. intros. unfold record. destruct (Rc i); [by apply wf_UpdateCR0|done]. Qed.

Lemma wf_record_cr1 i s : wf s -> wf (record_cr1 i s).
Proof. intros. unfold record_cr1. destruct (bit_at _ _); [by apply wf_UpdateCR1|done]. Qed.

Lemma rotl_u32 x n : is_u32 x -> 0 <= n <= 32 -> is_u32 (rotl x n).
Proof. intros. apply is_u32_lor; [apply is_u32_u32|apply is_u32_shiftr; [lia|done]]. Qed.

Lemma cause_code_u32 c : is_u32 (cause_code c).
Proof. destruct c; split; try discriminate; reflexivity. Qed.

Lemma wf_GenerateProgramException c s : wf s -> wf (GenerateProgramException c s).
Proof.
  intros Hs. apply wf_set_spr; [|apply cause_code_u32].
  apply wf_set_Exceptions; [done|]. apply is_u32_lor; [apply Hs|]. split; [discriminate|reflexivity].
Qed.

Lemma wf_MSRUpdated s : wf s -> wf (MSRUpdated s).
Proof.
  intros Hs. apply wf_set_feature_flags; [done|].
  apply is_u32_lor; [apply is_u32_land, Hs|]. apply is_u32_land_r. split; [discriminate|reflexivity].
Qed.

Lemma wf_take flag vector srr0 srr1 s :
  is_u32 vector -> is_u32 srr0 -> is_u32 srr1 -> wf s -> wf (take flag vector srr0 srr1 s).
Proof.
  intros. unfold take, enter. apply wf_set_Exceptions; [ppc|].
  apply is_u32_land. cbn. ppc.
Qed.

#[export] Hint Resolve MakeRotationMask_u32 wf_SetField wf_SetBit wf_cr_Set cr_Get_u32 wf_UpdateCR1 wf_SetCarry
  wf_SetXER_OV wf_UpdateCR0 wf_record wf_record_cr1 rotl_u32 wf_GenerateProgramException wf_MSRUpdated wf_take : ppc.

Lemma wf_CheckExternalExceptions s : wf s -> wf (CheckExternalExceptions s).
Proof. intros Hs. unfold CheckExternalExceptions, saved_msr, SRR1_MASK. repeat case_match; ppc. Qed.

Lemma wf_CheckExceptions s : wf s -> wf (CheckExceptions s).
Proof.
  intros Hs. pose proof (wf_CheckExternalExceptions s Hs). unfold CheckExceptions, saved_msr, SRR1_MASK, SRR1.
  repeat case_match; try done; ppc.
Qed.

Lemma wf_CheckFPExceptions s : wf s -> wf (CheckFPExceptions s).
Proof. intros. unfold CheckFPExceptions. case_match; ppc. Qed.

Lemma set_bit_to_u32 i b w : 0 <= i <= 31 -> is_u32 w -> is_u32 (set_bit_to i b w).
Proof. intros. apply is_u32_lor; [ppc|by apply b2z_shiftl_u32]. Qed.

Lemma wf_UpdateFPExceptionSummary s : wf s -> wf (UpdateFPExceptionSummary s).
Proof.
  intros Hs. unfold UpdateFPExceptionSummary. apply wf_CheckFPExceptions.
  repeat (apply wf_set_fpscr; [|apply set_bit_to_u32; [lia|ppc]]); ppc.
Qed.

Lemma wf_SetFPException m s : is_u32 m -> wf s -> wf (SetFPException m s).
Proof.
  intros Hm Hs. apply wf_UpdateFPExceptionSummary.
  assert (wf (if negb (fpscr s .& m =? m) then set_fpscr (set_bit_to 31 true (fpscr s)) s else s)).
  { case_match; [apply wf_set_fpscr; [done|apply set_bit_to_u32; [lia|ppc]]|done]. }
  ppc.
Qed.

#[export] Hint Resolve wf_CheckExceptions wf_CheckFPExceptions wf_UpdateFPExceptionSummary wf_SetFPException
  set_bit_to_u32 : ppc.

(** ** More ranges *)

Lemma is_u32_div a b : is_u32 a -> 0 < b -> is_u32 (a / b).
Proof.
  unfold is_u32. intros [Ha Hb] Hpos. split; [by apply Z.div_pos|].
  apply Z.le_lt_trans with a; [|done]. apply Z.div_le_upper_bound; nia.
Qed.

Lemma countl_zero_u32 a : is_u32 a -> is_u32 (countl_zero a).
Proof.
  unfold countl_zero. intros Ha. destruct (Z.eqb_spec a 0); [split; [discriminate|reflexivity]|].
  unfold is_u32 in *. pose proof (Z.log2_nonneg a). pose proof (Z.log2_lt_pow2 a 32). lia.
Qed.

Lemma land_nonneg_pos a m : 0 <= a .& Zpos m.
Proof. pose proof (land_mask_range a (Zpos m)). lia. Qed.

Lemma land_31_le a : a .& 0x1f <= 32.
Proof. pose proof (land_mask_range a 0x1f). lia. Qed.

Lemma field_nonneg i lo n : 0 <= n -> 0 <= field i lo n.
Proof. intros. by apply field_range. Qed.

Lemma UIMM_shift_u32 i : is_u32 (field i 0 16 .<< 16).
Proof. apply (shiftl_bits_range _ 16 16 32); try lia. apply field_range. lia. Qed.

Lemma shiftr_top_u32 n : 0 <= n -> is_u32 (0x80000000 .>> n).
Proof. intros. apply is_u32_shiftr; [done|]. split; [discriminate|reflexivity]. Qed.

Lemma ps_u64 s i : wf s -> is_u64 (fst (get_ps s i)) /\ is_u64 (snd (get_ps s i)).
Proof. intros Hs. exact (get_ps_range Hs i). Qed.

Lemma fst_ps_u64 s i : wf s -> is_u64 (fst (get_ps s i)).
Proof. apply ps_u64. Qed.

Lemma snd_ps_u64 s i : wf s -> is_u64 (snd (get_ps s i)).
Proof. apply ps_u64. Qed.

Lemma wf_mffs fd s : wf s -> wf (set_ps (<[fd := (0xFFF8000000000000 .| fpscr s, snd (nth fd (ps s) (0, 0)))]> (ps s)) s).
Proof.
  intros Hs. pose proof (snd_ps_u64 s (Z.of_nat fd) Hs) as H. unfold get_ps in H. rewrite Nat2Z.id in H.
  pose proof (wf_SetBoth Hs (Z.of_nat fd) (0xFFF8000000000000 .| fpscr s) (snd (nth fd (ps s) (0, 0)))) as W.
  unfold SetBoth in W. rewrite Nat2Z.id in W. apply W; [ppc|done].
Qed.

Lemma wf_clear_xer s : wf s -> wf (set_xer 0 0 (xer_stringctrl s) s).
Proof. intros Hs. apply wf_set_xer; try lia; [done|apply Hs]. Qed.

Lemma wf_SetPS0 i v s : is_u64 v -> wf s -> wf (SetPS0 i v s).
Proof. intros. apply wf_SetBoth; [done..|]. by apply snd_ps_u64. Qed.

Lemma wf_trap_if b s : wf s -> wf (trap_if b s).
Proof. intros. unfold trap_if. destruct b; ppc. Qed.

Lemma wf_IntCompare i x y s : wf s -> wf (Helper_IntCompare i x y s).
Proof. intros. unfold Helper_IntCompare. ppc. Qed.

Lemma wf_add_done i x y r c s : is_u32 r -> wf s -> wf (add_done i x y r c s).
Proof. intros. unfold add_done. destruct c, (OE i); ppc. Qed.

Lemma wf_logical f i s : (forall x y, is_u32 x -> is_u32 y -> is_u32 (f x y)) -> wf s -> wf (logical f i s).
Proof. intros Hf Hs. unfold logical. apply wf_record, wf_set_gpr; [done|]. apply Hf; unfold rs, rb; ppc. Qed.

Lemma wf_sraw_by n i s : wf s -> wf (sraw_by n i s).
Proof. intros. unfold sraw_by. ppc. Qed.

Lemma wf_privileged f s : (wf s -> wf (f s)) -> wf s -> wf (privileged f s).
Proof. intros. unfold privileged. destruct (MSR_PR s); ppc. Qed.

Lemma wf_cr_logical f i s : wf s -> wf (cr_logical f i s).
Proof. intros. unfold cr_logical. ppc. Qed.

Lemma wf_link b s : wf s -> wf (link b s).
Proof. intros. unfold link, set_LR. destruct b; ppc. Qed.

Lemma wf_decrement_CTR s : wf s -> wf (decrement_CTR s).
Proof. intros. unfold decrement_CTR. ppc. Qed.

Lemma wf_if (b : bool) s t : wf s -> wf t -> wf (if b then s else t).
Proof. by destruct b. Qed.

Lemma is_u32_div_or a b : is_u32 a -> 0 <= b -> is_u32 (if b =? 0 then 0 else a / b).
Proof. intros. destruct (Z.eqb_spec b 0); [ppc|]. apply is_u32_div; [done|lia]. Qed.

Lemma four_field_nonneg i lo n : 0 <= n -> 0 <= 4 * field i lo n.
Proof. intros. pose proof (field_range i lo n). lia. Qed.

Lemma u32_nonneg a : is_u32 a -> 0 <= a.
Proof. by intros []. Qed.

#[export] Hint Resolve wf_if is_u32_div_or four_field_nonneg u32_nonneg countl_zero_u32 land_nonneg_pos land_31_le field_nonneg UIMM_shift_u32 shiftr_top_u32
  fst_ps_u64 snd_ps_u64 wf_mffs wf_clear_xer wf_SetPS0 wf_trap_if wf_IntCompare wf_add_done wf_sraw_by
  wf_cr_logical wf_link wf_decrement_CTR is_u32_shiftr : ppc.

(** ** The instructions, file by file *)

Definition keeps_wf (f : Z -> PowerPCState -> PowerPCState) : Prop := forall i s, is_u32 i -> wf s -> wf (f i s).

(** Case analysis on the conditions of an instruction, then the lemmas above. *)
Ltac keeps :=
  let i := fresh "i" in
  intros i s Hi Hs;
  match goal with |- wf (?f i s) => unfold f end; cbv zeta;
  repeat match goal with
  | |- wf (if ?b then _ else _) => destruct b eqn:?
  | |- wf (record _ _ _) => apply wf_record
  | |- wf (record_cr1 _ _) => apply wf_record_cr1
  | |- wf (set_end_block _ _) => apply wf_set_end_block
  | |- wf (SetXER_OV _ _) => apply wf_SetXER_OV
  | |- wf (set_npc _ _) => apply wf_set_npc
  | |- wf (link _ _) => apply wf_link
  | |- wf (logical _ _ _) => apply wf_logical; [intros; repeat case_match|]
  | |- wf (privileged _ _) => apply wf_privileged; [clear Hs; intros Hs|]
  end;
  unfold addic, ra, rb, rs, MB, ME, SH, CRFD, CRBD, UIMM, LR, CTR, SRR0, SRR1, DOUBLE_SIGN, EXCEPTION_SYSCALL,
    FPSCR_mask; ppc.

Lemma run_op_keeps op f : run_op op = Some f -> keeps_wf f.
Proof. destruct op; try discriminate; intros [= <-]; keeps. Qed.

Lemma exec_keeps : keeps_wf exec.
Proof.
  intros i s Hi Hs. unfold exec. destruct (run_op _) as [f|] eqn:E; [|done].
  by apply (run_op_keeps _ f E).
Qed.

(** ** Decoding in two steps and in one *)


Lemma RunInterpreterOp_decoded inst s :
  RunInterpreterOp inst s = f ← run_op (GetInterpreterOp inst); Some (f inst s).
Proof.
  unfold RunInterpreterOp, GetInterpreterOp.
  destruct (op_at s_interpreter_op_table (OPCD inst)); reflexivity.
Qed.

Lemma RunInterpreterOp_keeps inst s t : is_u32 inst -> wf s -> RunInterpreterOp inst s = Some t -> wf t.
Proof.
  intros Hi Hs. rewrite RunInterpreterOp_decoded.
  destruct (run_op _) as [f|] eqn:E; simpl; [|done]. intros [= <-]. by apply (run_op_keeps _ f E).
Qed.

(** ** Whole runs *)

Lemma wf_Interpreter_CheckExceptions s : wf s -> wf (Interpreter_CheckExceptions s).
Proof. intros. unfold Interpreter_CheckExceptions. ppc. Qed.

Lemma wf_add_spr i v s : wf s -> wf (add_spr i v s).
Proof. intros. unfold add_spr. ppc. Qed.

Lemma wf_UpdatePerformanceMonitor c l f s : wf s -> wf (UpdatePerformanceMonitor c l f s).
Proof.
  intros Hs. unfold UpdatePerformanceMonitor, EXCEPTION_PERFORMANCE_MONITOR. cbv zeta.
  match goal with |- wf (if _ then set_Exceptions _ ?t else _) => assert (wf t) end.
  { repeat (apply wf_if; [apply wf_add_spr|]). all: repeat (apply wf_if; try apply wf_add_spr); done. }
  apply wf_if; [|done]. ppc.
Qed.

(** What the interpreter relies on: fetches and host functions give 32-bit
    instructions and well-formed states. *)
Class FetchOk (F : Fetch) : Prop := {
  Read_Opcode_ok a s : wf s -> is_u32 (fst (Read_Opcode a s)) /\ wf (snd (Read_Opcode a s));
  HandleFunctionHooking_ok a s : wf s -> wf (snd (HandleFunctionHooking a s))
}.

(** What happens to the processor: it runs an instruction, the machine around it
    requests interrupts, and pending exceptions are looked at between slices
    ([Interpreter::SingleStep]). *)
Inductive cpu_event := Instruction | Request (exceptions : Z) | Look.

Definition on_core (f : PowerPCState -> PowerPCState) (it : Interpreter) : Interpreter :=
  mkInterpreter (f (core it)) (m_prev_inst it) (m_last_pc it).
Definition look (s : PowerPCState) : PowerPCState :=
  if Exceptions s =? 0 then s else let s := CheckExceptions s in set_pc (npc s) s.

Definition cpu_step {F : Fetch} (it : Interpreter) (e : cpu_event) : option Interpreter :=
  match e with
  | Instruction => option_map fst (SingleStepInner it)
  | Request x => Some (on_core (fun s => set_Exceptions (Exceptions s .| u32 x) s) it)
  | Look => Some (on_core look it)
  end.
Definition cpu_run {F : Fetch} (es : list cpu_event) (it : Interpreter) : option Interpreter :=
  fold_left (fun r e => it ← r; cpu_step it e) es (Some it).

Lemma some_pair_fst {A B} (x x' : A) (y y' : B) : Some (x, y) = Some (x', y') -> x = x'.
Proof. by intros [= -> _]. Qed.

Section Runs.
Context {F : Fetch} {Fok : FetchOk F}.

Lemma execute_keeps inst info s t : is_u32 inst -> wf s -> execute inst info s = Some t -> wf t.
Proof.
  intros Hi Hs. unfold execute, run_and_check, EXCEPTION_FPU_UNAVAILABLE.
  assert (Hrun : forall t, (s' ← RunInterpreterOp inst s;
    Some (if pending s' EXCEPTION_DSI then Interpreter_CheckExceptions s' else s')) = Some t -> wf t).
  { intros t'. destruct (RunInterpreterOp inst s) as [s'|] eqn:E; simpl; [|done]. intros [= <-].
    pose proof (RunInterpreterOp_keeps _ _ _ Hi Hs E).
    apply wf_if; [by apply wf_Interpreter_CheckExceptions|done]. }
  repeat case_match; auto; intros [= <-]; apply wf_Interpreter_CheckExceptions; ppc.
Qed.

Lemma SingleStepInner_keeps it it' n : wf (core it) -> SingleStepInner it = Some (it', n) -> wf (core it').
Proof.
  intros Hs. unfold SingleStepInner.
  pose proof (HandleFunctionHooking_ok (pc (core it)) (core it) Hs) as Hh.
  destruct (HandleFunctionHooking _ _) as [[] s]; simpl in Hh.
  - intros H. apply some_pair_fst in H as <-. simpl. ppc.
  - set (s1 := set_npc _ s). assert (H1 : wf s1) by (unfold s1; ppc).
    destruct (Read_Opcode_ok (pc s1) s1 H1) as [Hi H2].
    destruct (Read_Opcode (pc s1) s1) as [inst s2]; simpl in Hi, H2.
    generalize (GetOpInfo inst) as info. intros info.
    destruct (execute inst info s2) as [s3|] eqn:E; cbn [mbind option_bind]; [|done].
    intros H. apply some_pair_fst in H as <-.
    pose proof (execute_keeps _ _ _ _ Hi H2 E). apply wf_UpdatePerformanceMonitor. simpl. ppc.
Qed.

Lemma look_keeps s : wf s -> wf (look s).
Proof. intros Hs. unfold look. apply wf_if; [done|]. pose proof (wf_CheckExceptions s Hs). cbv zeta. ppc. Qed.

Lemma cpu_step_keeps it e it' : wf (core it) -> cpu_step it e = Some it' -> wf (core it').
Proof.
  intros Hs. destruct e as [|x|]; simpl.
  - destruct (SingleStepInner it) as [[it1 n]|] eqn:E; simpl; [|done]. intros [= <-].
    exact (SingleStepInner_keeps it it1 n Hs E).
  - intros [= <-]. simpl. ppc.
  - intros [= <-]. by apply look_keeps.
Qed.

Lemma cpu_run_none es : fold_left (fun r e => it ← r; cpu_step it e) es None = None.
Proof. by induction es. Qed.

Lemma cpu_run_cons e es it : cpu_run (e :: es) it = it ← cpu_step it e; cpu_run es it.
Proof.
  unfold cpu_run. simpl. destruct (cpu_step it e); simpl; [done|]. apply cpu_run_none.
Qed.

End Runs.

Lemma ResetRegisters_wf wii s : wf (ResetRegisters wii s).
Proof.
  unfold ResetRegisters, RecalculateAllFeatureFlags, SetXER. cbv zeta.
  match goal with |- context [mkPPC _ _ _ _ _ _ _ _ _ _ _ _ _ ?m _] =>
    assert (Hspr : map_Forall (fun _ => is_u32) m) end.
  { repeat (apply map_Forall_insert_2; [destruct wii; ppc|]). apply map_Forall_empty. }
  match goal with |- wf (set_feature_flags ?f _) => assert (Hf : is_u32 f); [|generalize dependent f] end.
  { unfold FEATURE_FLAG_PERFMON. apply is_u32_if; [apply is_u32_lor|]; ppc. }
  intros f Hf. constructor; cbn -[Z.le is_u32 is_u64 replicate length]; try apply Forall_replicate; try done;
    solve [ppc|repeat split; discriminate].
Qed.
