(* ===== verification/PPCFootprint.v ===== *)
(** * Footprints of instructions

    The places an instruction can read and write, as the analysis declares them,
    and the lemmas that compose footprints. *)
From S2P Require Export PPCTypes PPCAnalyst.

(** ** Places *)

(** A general register, a field of the condition register, the carry, the two
    overflow bits, a floating-point register, everything else. *)
Inductive place := LGpr (i : Z) | LCr (i : Z) | LCA | LSO | LPs (i : Z) | LRest.

Definition valid (l : place) : Prop :=
  match l with LGpr i | LPs i => 0 <= i < 32 | LCr i => 0 <= i < 8 | _ => True end.

(** What is left of a state without the other places. *)
Definition blank (s : PowerPCState) : PowerPCState :=
  set_gprs [] (set_cr [] (set_ps [] (set_xer 0 0 (xer_stringctrl s) s))).

Definition same (l : place) (s t : PowerPCState) : Prop :=
  match l with
  | LGpr i => get_gpr s i = get_gpr t i
  | LCr i => cr_field s i = cr_field t i
  | LCA => xer_ca s = xer_ca t
  | LSO => xer_so_ov s = xer_so_ov t
  | LPs i => get_ps s i = get_ps t i
  | LRest => blank s = blank t
  end.

Lemma same_refl l s : same l s s.
Proof. by destruct l. Qed.

Lemma same_sym l s t : same l s t -> same l t s.
Proof. by destruct l; simpl. Qed.

Lemma same_trans l s t u : same l s t -> same l t u -> same l s u.
Proof. destruct l; simpl; congruence. Qed.

#[export] Instance same_equivalence l : Equivalence (same l).
Proof. split; [exact (same_refl l)|exact (same_sym l)|exact (same_trans l)]. Qed.

(** Lists of the same length with the same elements. *)
Lemma nth_ext_Z {A} (d : A) (n : Z) (l k : list A) :
  length l = Z.to_nat n -> length k = Z.to_nat n ->
  (forall i, 0 <= i < n -> nth (Z.to_nat i) l d = nth (Z.to_nat i) k d) -> l = k.
Proof.
  intros Hl Hk H. apply (nth_ext l k d d); [congruence|].
  intros i Hi. specialize (H (Z.of_nat i)). rewrite Nat2Z.id in H. apply H. lia.
Qed.

Lemma state_ext s t : wf s -> wf t -> (forall l, valid l -> same l s t) -> s = t.
Proof.
  intros Hs Ht H.
  assert (Hg : gpr s = gpr t).
  { apply (nth_ext_Z 0 32); [apply Hs|apply Ht|]. intros i Hi. exact (H (LGpr i) Hi). }
  assert (Hc : cr s = cr t).
  { apply (nth_ext_Z 0 8); [apply Hs|apply Ht|]. intros i Hi. exact (H (LCr i) Hi). }
  assert (Hp : ps s = ps t).
  { apply (nth_ext_Z (0, 0) 32); [apply Hs|apply Ht|]. intros i Hi. exact (H (LPs i) Hi). }
  pose proof (H LCA I) as Ha. pose proof (H LSO I) as Ho. pose proof (H LRest I) as Hr.
  destruct s, t; simpl in *. unfold blank in Hr. simpl in Hr.
  injection Hr as ?????????. f_equal; assumption.
Qed.

(** ** Footprints *)

(** [f] changes nothing outside [wr], and what it writes depends on [rd] only. *)
Record footprint (f : PowerPCState -> PowerPCState) (rd wr : place -> bool) : Prop := {
  fp_keeps s : wf s -> wf (f s);
  fp_frame s l : wf s -> valid l -> wr l = false -> same l (f s) s;
  fp_depends s t l : wf s -> wf t -> (forall l, valid l -> rd l = true -> same l s t) ->
    valid l -> wr l = true -> same l (f s) (f t)
}.

Definition agree (rd : place -> bool) (s t : PowerPCState) : Prop := forall l, valid l -> rd l = true -> same l s t.

(** A value that depends on the places in [rd]. *)
Definition depends {A} (rd : place -> bool) (v : PowerPCState -> A) : Prop :=
  forall s t, wf s -> wf t -> agree rd s t -> v s = v t.

(** Two effects with disjoint places can be swapped. *)
Lemma footprint_commute f g rf wf_ rg wg :
  footprint f rf wf_ -> footprint g rg wg ->
  (forall l, valid l -> wf_ l = true -> rg l = false /\ wg l = false) ->
  (forall l, valid l -> wg l = true -> rf l = false /\ wf_ l = false) ->
  forall s, wf s -> f (g s) = g (f s).
Proof.
  intros Hf Hg Dfg Dgf s Hs.
  pose proof (fp_keeps _ _ _ Hf s Hs) as Wf. pose proof (fp_keeps _ _ _ Hg s Hs) as Wg.
  assert (Hgs : agree rf (g s) s).
  { intros l Hl Hr. apply (fp_frame _ _ _ Hg); [done..|]. destruct (wg l) eqn:E; [|done].
    destruct (Dgf l Hl E). congruence. }
  assert (Hfs : agree rg (f s) s).
  { intros l Hl Hr. apply (fp_frame _ _ _ Hf); [done..|]. destruct (wf_ l) eqn:E; [|done].
    destruct (Dfg l Hl E). congruence. }
  apply state_ext; [by apply (fp_keeps _ _ _ Hf)|by apply (fp_keeps _ _ _ Hg)|].
  intros l Hl. destruct (wf_ l) eqn:Ef; [|destruct (wg l) eqn:Eg].
  - destruct (Dfg l Hl Ef) as [_ Eg].
    transitivity (f s); [by apply (fp_depends _ _ _ Hf)|].
    symmetry. by apply (fp_frame _ _ _ Hg).
  - transitivity (g s); [by apply (fp_frame _ _ _ Hf)|].
    symmetry. by apply (fp_depends _ _ _ Hg).
  - transitivity (g s); [by apply (fp_frame _ _ _ Hf)|].
    transitivity s; [by apply (fp_frame _ _ _ Hg)|].
    symmetry. transitivity (f s); [by apply (fp_frame _ _ _ Hg)|by apply (fp_frame _ _ _ Hf)].
Qed.

(** After [f] two states agree wherever they agreed before, if it is in [rd]. *)
Lemma footprint_agree f rd wr s t : footprint f rd wr -> wf s -> wf t -> agree rd s t -> agree rd (f s) (f t).
Proof.
  intros Hf Hs Ht H l Hl Hr. destruct (wr l) eqn:E; [by apply (fp_depends _ _ _ Hf)|].
  transitivity s; [by apply (fp_frame _ _ _ Hf)|]. transitivity t; [by apply H|].
  symmetry. by apply (fp_frame _ _ _ Hf).
Qed.

Lemma footprint_weaken f rd wr rd' :
  footprint f rd wr -> (forall l, valid l -> rd l = true -> rd' l = true) -> footprint f rd' wr.
Proof.
  intros Hf Hle. split; [apply Hf|apply Hf|].
  intros s t l Hs Ht H. apply (fp_depends _ _ _ Hf); [done..|]. intros k Hk Hr. apply H; auto.
Qed.

Lemma footprint_ext f rd wr wr' : footprint f rd wr -> (forall l, valid l -> wr l = wr' l) -> footprint f rd wr'.
Proof.
  intros Hf He. split; [apply Hf| |].
  - intros s l Hs Hl Hw. apply (fp_frame _ _ _ Hf); [done..|]. by rewrite He.
  - intros s t l Hs Ht H Hl Hw. apply (fp_depends _ _ _ Hf); [done..|]. by rewrite He.
Qed.

(** An effect that may look at everything has only to keep what it does not write. *)
Lemma footprint_reads_all f wr :
  (forall s, wf s -> wf (f s)) -> (forall s l, wf s -> valid l -> wr l = false -> same l (f s) s) ->
  footprint f (fun _ => true) wr.
Proof.
  intros Hk Hf. split; [done|done|]. intros s t l Hs Ht H _ _.
  assert (s = t) as -> by (apply state_ext; auto). apply same_refl.
Qed.

(** ** Effects of the primitive writes *)

Definition place_eqb (a b : place) : bool :=
  match a, b with
  | LGpr i, LGpr j | LCr i, LCr j | LPs i, LPs j => i =? j
  | LCA, LCA | LSO, LSO | LRest, LRest => true
  | _, _ => false
  end.
Definition plus (wr : place -> bool) (p : place) : place -> bool := fun l => place_eqb l p || wr l.

Lemma nth_insert_Z {A} (l : list A) (n i j : Z) v d :
  length l = Z.to_nat n -> 0 <= i < n -> 0 <= j < n ->
  nth (Z.to_nat j) (<[Z.to_nat i := v]> l) d = if j =? i then v else nth (Z.to_nat j) l d.
Proof.
  intros Hl Hi Hj. rewrite !nth_lookup. destruct (Z.eqb_spec j i) as [->|Hne].
  - rewrite list_lookup_insert_eq by lia. done.
  - rewrite list_lookup_insert_ne by lia. done.
Qed.

Lemma get_gpr_set s i j v : wf s -> 0 <= i < 32 -> 0 <= j < 32 ->
  get_gpr (set_gpr i v s) j = if j =? i then v else get_gpr s j.
Proof. intros Hs Hi Hj. apply (nth_insert_Z _ 32); [apply Hs|done..]. Qed.

Lemma cr_field_put s i j v : wf s -> 0 <= i < 8 -> 0 <= j < 8 ->
  cr_field (put_cr_field i v s) j = if j =? i then v else cr_field s j.
Proof. intros Hs Hi Hj. apply (nth_insert_Z _ 8); [apply Hs|done..]. Qed.

Lemma get_ps_set s i j v w : wf s -> 0 <= i < 32 -> 0 <= j < 32 ->
  get_ps (SetBoth i v w s) j = if j =? i then (v, w) else get_ps s j.
Proof. intros Hs Hi Hj. apply (nth_insert_Z _ 32); [apply Hs|done..]. Qed.

Lemma get_gpr_set_eq s i v : wf s -> 0 <= i < 32 -> get_gpr (set_gpr i v s) i = v.
Proof. intros. rewrite get_gpr_set by done. by rewrite Z.eqb_refl. Qed.

(** A write at [p]: it changes [p] only, to a value [v] that does not depend on
    what is there. *)
Definition writes (p : place) (w : PowerPCState -> PowerPCState) : Prop :=
  valid p /\ (forall s, wf s -> wf (w s)) /\
  (forall s l, wf s -> valid l -> place_eqb l p = false -> same l (w s) s).

Lemma set_gpr_same i v s l : wf s -> 0 <= i < 32 -> valid l -> place_eqb l (LGpr i) = false -> same l (set_gpr i v s) s.
Proof. intros Hs Hi Hl Hp. destruct l; simpl in *; try done. rewrite get_gpr_set by done. by rewrite Hp. Qed.

Lemma put_cr_same i v s l :
  wf s -> 0 <= i < 8 -> valid l -> place_eqb l (LCr i) = false -> same l (put_cr_field i v s) s.
Proof. intros Hs Hi Hl Hp. destruct l; simpl in *; try done. rewrite cr_field_put by done. by rewrite Hp. Qed.

Lemma SetBoth_same i v w s l :
  wf s -> 0 <= i < 32 -> valid l -> place_eqb l (LPs i) = false -> same l (SetBoth i v w s) s.
Proof. intros Hs Hi Hl Hp. destruct l; simpl in *; try done. rewrite get_ps_set by done. by rewrite Hp. Qed.

Lemma SetCarry_same c s l : place_eqb l LCA = false -> same l (SetCarry c s) s.
Proof. by destruct l. Qed.

Lemma SetXER_OV_same v s l : place_eqb l LSO = false -> same l (SetXER_OV v s) s.
Proof. by destruct l. Qed.

Section Compose.
Context (rd : place -> bool).

Implicit Types f : PowerPCState -> PowerPCState.

Lemma footprint_id : footprint (fun s => s) rd (fun _ => false).
Proof. split; [done|intros; apply same_refl|done]. Qed.

(** One more write, of a value that depends on [rd] before [f]. *)
Lemma footprint_write {A} f wr p (w : A -> PowerPCState -> PowerPCState) (v : PowerPCState -> A) :
  footprint f rd wr -> depends rd v ->
  (forall s t, wf s -> wf t -> wf (w (v s) t)) ->
  (forall x s l, wf s -> valid l -> place_eqb l p = false -> same l (w x s) s) ->
  (forall s t, wf s -> wf t -> agree rd s t -> same p (w (v s) (f s)) (w (v s) (f t))) ->
  footprint (fun s => w (v s) (f s)) rd (plus wr p).
Proof.
  intros Hf Hv Hk Hw Hp.
  assert (W : forall s, wf s -> wf (f s)) by apply Hf.
  split.
  - auto.
  - intros s l Hs Hl Hn. apply orb_false_elim in Hn as [Hne Hn].
    transitivity (f s); [apply Hw; auto|]. by apply (fp_frame _ _ _ Hf).
  - intros s t l Hs Ht H Hl Hw'. rewrite <- (Hv s t Hs Ht H).
    destruct (place_eqb l p) eqn:E.
    + assert (l = p) as ->.
      { destruct l, p; simpl in E; try done; apply Z.eqb_eq in E; congruence. }
      by apply Hp.
    + unfold plus in Hw'. rewrite E in Hw'.
      transitivity (f s); [apply Hw; auto|]. transitivity (f t); [by apply (fp_depends _ _ _ Hf)|].
      symmetry. apply Hw; auto.
Qed.

Lemma footprint_gpr f wr i v :
  footprint f rd wr -> 0 <= i < 32 -> depends rd v -> (forall s, wf s -> is_u32 (v s)) ->
  footprint (fun s => set_gpr i (v s) (f s)) rd (plus wr (LGpr i)).
Proof.
  intros Hf Hi Hv Hr. apply (footprint_write f wr (LGpr i) (set_gpr i)); [done..| | |].
  - intros. apply wf_set_gpr; auto.
  - intros. by apply set_gpr_same.
  - intros s t Hs Ht _. simpl. pose proof (fp_keeps _ _ _ Hf). rewrite !get_gpr_set_eq by auto. done.
Qed.

Lemma footprint_carry f wr v :
  footprint f rd wr -> depends rd v -> footprint (fun s => SetCarry (v s) (f s)) rd (plus wr LCA).
Proof.
  intros Hf Hv. apply (footprint_write f wr LCA SetCarry); [done..| | |].
  - intros. by apply wf_SetCarry.
  - intros. by apply SetCarry_same.
  - done.
Qed.

Lemma footprint_put_cr f wr i v :
  footprint f rd wr -> 0 <= i < 8 -> depends rd v -> (forall s, wf s -> is_u64 (v s)) ->
  footprint (fun s => put_cr_field i (v s) (f s)) rd (plus wr (LCr i)).
Proof.
  intros Hf Hi Hv Hr. apply (footprint_write f wr (LCr i) (put_cr_field i)); [done..| | |].
  - intros. apply wf_put_cr_field; auto.
  - intros. by apply put_cr_same.
  - intros s t Hs Ht _. simpl. pose proof (fp_keeps _ _ _ Hf).
    rewrite !cr_field_put by auto. by rewrite Z.eqb_refl.
Qed.

Lemma footprint_ps f wr i v w :
  footprint f rd wr -> 0 <= i < 32 -> depends rd v -> depends rd w ->
  (forall s, wf s -> is_u64 (v s)) -> (forall s, wf s -> is_u64 (w s)) ->
  footprint (fun s => SetBoth i (v s) (w s) (f s)) rd (plus wr (LPs i)).
Proof.
  intros Hf Hi Hv Hw Rv Rw.
  apply (footprint_write f wr (LPs i) (fun p => SetBoth i (fst p) (snd p)) (fun s => (v s, w s))); [done|..].
  - intros s t Hs Ht H. by rewrite (Hv s t), (Hw s t).
  - intros. apply wf_SetBoth; simpl; auto.
  - intros. by apply SetBoth_same.
  - intros s t Hs Ht _. simpl. pose proof (fp_keeps _ _ _ Hf). rewrite !get_ps_set by auto. by rewrite Z.eqb_refl.
Qed.

(** The overflow bits are written together with the summary bit they had. *)
Lemma footprint_ov f wr v :
  rd LSO = true -> footprint f rd wr -> depends rd v -> footprint (fun s => SetXER_OV (v s) (f s)) rd (plus wr LSO).
Proof.
  intros Hso Hf Hv. apply (footprint_write f wr LSO SetXER_OV); [done..| | |].
  - intros. by apply wf_SetXER_OV.
  - intros. by apply SetXER_OV_same.
  - intros s t Hs Ht H. pose proof (footprint_agree f rd wr s t Hf Hs Ht H LSO Logic.I Hso) as E.
    simpl in *. by rewrite E.
Qed.

Lemma GetXER_SO_depends f wr : rd LSO = true -> footprint f rd wr -> depends rd (fun s => GetXER_SO (f s)).
Proof.
  intros Hso Hf s t Hs Ht H. pose proof (footprint_agree f rd wr s t Hf Hs Ht H LSO Logic.I Hso) as E.
  unfold GetXER_SO. simpl in E. by rewrite E.
Qed.

Lemma footprint_SetField f wr i v :
  footprint f rd wr -> 0 <= i < 8 -> depends rd v ->
  footprint (fun s => SetField i (v s) (f s)) rd (plus wr (LCr i)).
Proof.
  intros Hf Hi Hv. apply (footprint_put_cr f wr i (fun s => nth (Z.to_nat (v s)) s_crTable 0)); [done..| |].
  - intros s t Hs Ht H. by rewrite (Hv s t).
  - intros. apply s_crTable_u64.
Qed.

Lemma footprint_CR0 f wr v :
  rd LSO = true -> footprint f rd wr -> depends rd v ->
  footprint (fun s => Helper_UpdateCR0 (v s) (f s)) rd (plus wr (LCr 0)).
Proof.
  intros Hso Hf Hv. unfold Helper_UpdateCR0.
  apply (footprint_put_cr f wr 0 (fun s =>
    ((if v s =? 0 then u64 (s32 (v s)) .| 1 .<< 63 else u64 (s32 (v s))) .& .~ (1 .<< CR_EMU_SO_BIT))
    .| GetXER_SO (f s) .<< CR_EMU_SO_BIT)); [done|lia| |].
  - intros s t Hs Ht H. by rewrite (Hv s t), (GetXER_SO_depends f wr Hso Hf s t).
  - intros s Hs. assert (is_u64 (u64 (s32 (v s)))) by apply is_u64_u64.
    apply is_u64_lor; [apply is_u64_land, is_u64_if; [apply is_u64_lor; [done|by apply (b2z_shiftl_u64 true 63)]|done]|].
    pose proof (GetXER_SO_range (f s) (fp_keeps _ _ _ Hf s Hs)). apply (shiftl_bits_range _ 1 59 64); lia.
Qed.

(** The recorded form of an instruction. *)
Lemma footprint_record f wr i v :
  rd LSO = true -> footprint f rd wr -> depends rd v ->
  footprint (fun s => record i (v s) (f s)) rd (if Rc i then plus wr (LCr 0) else wr).
Proof. intros. unfold record. destruct (Rc i); [by apply footprint_CR0|done]. Qed.

Lemma footprint_if f g (b : bool) wr wr' :
  footprint f rd wr -> footprint g rd wr' -> footprint (fun s => if b then f s else g s) rd (if b then wr else wr').
Proof. by destruct b. Qed.

Lemma footprint_eq f g wr : footprint f rd wr -> (forall s, wf s -> g s = f s) -> footprint g rd wr.
Proof.
  intros Hf He. split.
  - intros s Hs. rewrite He by done. by apply Hf.
  - intros s l Hs Hl Hw. rewrite He by done. by apply Hf.
  - intros s t l Hs Ht H Hl Hw. rewrite !He by done. by apply (fp_depends _ _ _ Hf).
Qed.

End Compose.
