(* ===== verification/PPCShapes.v ===== *)
(** * What each modelled instruction reads and writes

    [op_shape] is read off the interpreter's functions; [op_footprint] shows it is
    right.  Independently of the tables of [PPCTables]: the comparison with their
    flags is in [PPCReorder]. *)
From S2P Require Export PPCFootprint.

(** General registers an instruction names: [rA], [rA] unless it is register 0,
    [rB], [rS], [rD]. *)
Inductive operand := OpA | OpA0 | OpB | OpS | OpD.
Inductive foperand := FopA | FopB | FopC | FopD.
(** Condition register fields written: none, CR0, CR0 or CR1 if the instruction
    records, the field named, all, the field of the bit named. *)
Inductive cr_out := NoCr | Cr0 | Cr0Rc | Cr1Rc | CrF | CrAll | CrBit.
(** Fields read: none, the field named, the field of [BI], all, the fields of the
    three bits named. *)
Inductive cr_in := NoIn | InF | InBI | InAll | InBits.

Record shape := mkShape {
  s_in : list operand;
  s_out : list operand;
  s_ca_in : bool;
  s_ca_out : bool;
  s_crin : cr_in;
  s_crout : cr_out;
  s_oe : bool;
  s_so : bool;
  s_fin : list foperand;
  s_fout : bool;
  s_rest : bool;
  (** may raise an exception or leave the block: then it reads everything *)
  s_all : bool
}.

Definition operand_reg (o : operand) (i : Z) : Z :=
  match o with OpA | OpA0 => RA i | OpB => RB i | OpS => RS i | OpD => RD i end.
Definition operand_used (o : operand) (i : Z) : bool := match o with OpA0 => negb (RA i =? 0) | _ => true end.
Definition foperand_reg (o : foperand) (i : Z) : Z :=
  match o with FopA => FA i | FopB => FB i | FopC => FC i | FopD => FD i end.

Definition shape_rd (sh : shape) (i : Z) (l : place) : bool :=
  s_all sh ||
  match l with
  | LGpr r => existsb (fun o => operand_used o i && (r =? operand_reg o i)) (s_in sh)
  | LCr k =>
      match s_crin sh with
      | NoIn => false
      | InF => k =? CRFS i
      | InBI => k =? BI i .>> 2
      | InAll => true
      | InBits => (k =? CRBD i .>> 2) || (k =? CRBB i .>> 2) || (k =? CRBA i .>> 2)
      end
  | LCA => s_ca_in sh
  | LSO => true
  | LPs r => existsb (fun o => r =? foperand_reg o i) (s_fin sh)
  | LRest => s_rest sh
  end.
Definition shape_wr (sh : shape) (i : Z) (l : place) : bool :=
  match l with
  | LGpr r => existsb (fun o => r =? operand_reg o i) (s_out sh)
  | LCr k =>
      match s_crout sh with
      | NoCr => false
      | Cr0 => k =? 0
      | Cr0Rc => Rc i && (k =? 0)
      | Cr1Rc => Rc i && (k =? 1)
      | CrF => k =? CRFD i
      | CrAll => true
      | CrBit => k =? CRBD i .>> 2
      end
  | LCA => s_ca_out sh
  | LSO => s_so sh || (s_oe sh && OE i)
  | LPs r => s_fout sh && (r =? FD i)
  | LRest => s_rest sh
  end.

(** Integer instructions: operands, result, carry in, carry out, fields, OE. *)
Definition int_shape ins outs ca_in ca_out crout oe : shape :=
  mkShape ins outs ca_in ca_out NoIn crout oe false [] false false false.
(** Instructions on bits of the condition register. *)
Definition bits_shape : shape := mkShape [] [] false false InBits CrBit false false [] false false false.
(** Instructions that may raise an exception or leave the block. *)
Definition leaving_shape outs : shape := mkShape [] outs false false NoIn NoCr false false [] false true true.
(** Instructions on floating-point registers. *)
Definition fpr_shape fins fout crout : shape := mkShape [] [] false false NoIn crout false false fins fout true false.

Definition op_shape (op : Op.t) : shape :=
  match op with
  | Op.addi | Op.addis => int_shape [OpA0] [OpD] false false NoCr false
  | Op.addic => int_shape [OpA] [OpD] false true NoCr false
  | Op.addic_rc => int_shape [OpA] [OpD] false true Cr0 false
  | Op.andi_rc | Op.andis_rc => int_shape [OpS] [OpA] false false Cr0 false
  | Op.cmpi | Op.cmpli => int_shape [OpA] [] false false CrF false
  | Op.cmp | Op.cmpl => int_shape [OpA; OpB] [] false false CrF false
  | Op.mulli => int_shape [OpA] [OpD] false false NoCr false
  | Op.ori | Op.oris | Op.xori | Op.xoris => int_shape [OpS] [OpA] false false NoCr false
  | Op.subfic => int_shape [OpA] [OpD] false true NoCr false
  | Op.rlwimix => int_shape [OpA; OpS] [OpA] false false Cr0Rc false
  | Op.rlwinmx | Op.cntlzwx | Op.extsbx | Op.extshx => int_shape [OpS] [OpA] false false Cr0Rc false
  | Op.rlwnmx | Op.andx | Op.andcx | Op.eqvx | Op.nandx | Op.norx | Op.orx | Op.orcx | Op.xorx | Op.slwx | Op.srwx =>
      int_shape [OpS; OpB] [OpA] false false Cr0Rc false
  | Op.srawx => int_shape [OpS; OpB] [OpA] false true Cr0Rc false
  | Op.srawix => int_shape [OpS] [OpA] false true Cr0Rc false
  | Op.addx | Op.subfx | Op.divwx | Op.divwux | Op.mullwx => int_shape [OpA; OpB] [OpD] false false Cr0Rc true
  | Op.addcx | Op.subfcx => int_shape [OpA; OpB] [OpD] false true Cr0Rc true
  | Op.addex | Op.subfex => int_shape [OpA; OpB] [OpD] true true Cr0Rc true
  | Op.addmex | Op.addzex | Op.subfmex | Op.subfzex => int_shape [OpA] [OpD] true true Cr0Rc true
  | Op.negx => int_shape [OpA] [OpD] false false Cr0Rc true
  | Op.mulhwx | Op.mulhwux => int_shape [OpA; OpB] [OpD] false false Cr0Rc false
  | Op.crand | Op.crandc | Op.creqv | Op.crnand | Op.crnor | Op.cror | Op.crorc | Op.crxor => bits_shape
  | Op.mcrf => mkShape [] [] false false InF CrF false false [] false false false
  | Op.isync => int_shape [] [] false false NoCr false
  | Op.mfcr => mkShape [] [OpD] false false InAll NoCr false false [] false false false
  | Op.mtcrf => mkShape [OpS] [] false false InAll CrAll false false [] false false false
  | Op.mcrxr => mkShape [] [] true true NoIn CrF false true [] false true false
  | Op.mfmsr | Op.mfsr | Op.mfsrin => leaving_shape [OpD]
  | Op.fmrx | Op.fabsx | Op.fnabsx | Op.fnegx => fpr_shape [FopB; FopD] true Cr1Rc
  | Op.fselx => fpr_shape [FopA; FopB; FopC; FopD] true Cr1Rc
  | Op.ps_neg | Op.ps_mr | Op.ps_nabs | Op.ps_abs => fpr_shape [FopB] true Cr1Rc
  | Op.ps_sel => fpr_shape [FopA; FopB; FopC] true Cr1Rc
  | Op.ps_merge00 | Op.ps_merge01 | Op.ps_merge10 | Op.ps_merge11 => fpr_shape [FopA; FopB] true Cr1Rc
  | Op.mffsx => fpr_shape [FopD] true Cr1Rc
  | Op.mtfsb0x | Op.mtfsb1x | Op.mtfsfix => fpr_shape [] false Cr1Rc
  | Op.mtfsfx => fpr_shape [FopB] false Cr1Rc
  | Op.mcrfs => fpr_shape [] false CrF
  | _ => leaving_shape []
  end.

Definition has_footprint (f : PowerPCState -> PowerPCState) (sh : shape) (i : Z) : Prop :=
  footprint f (shape_rd sh i) (shape_wr sh i).

(** ** Values *)

Lemma field5_range i lo : 0 <= field i lo 5 < 32.
Proof. exact (field_range i lo 5 ltac:(lia)). Qed.

Lemma field3_range i lo : 0 <= field i lo 3 < 8.
Proof. exact (field_range i lo 3 ltac:(lia)). Qed.

Lemma bit_field_range i lo : 0 <= field i lo 5 .>> 2 < 8.
Proof. pose proof (field5_range i lo). rewrite Z.shiftr_div_pow2 by lia. Z.div_mod_to_equations; lia. Qed.

Lemma depends_const {A} rd (v : A) : depends rd (fun _ => v).
Proof. done. Qed.

Lemma depends_comp {A B} rd (g : A -> B) v : depends rd v -> depends rd (fun s => g (v s)).
Proof. intros Hv s t Hs Ht H. by rewrite (Hv s t). Qed.

Lemma depends_comp2 {A B C} rd (g : A -> B -> C) v w : depends rd v -> depends rd w -> depends rd (fun s => g (v s) (w s)).
Proof. intros Hv Hw s t Hs Ht H. by rewrite (Hv s t), (Hw s t). Qed.

Lemma depends_comp3 {A B C D} rd (g : A -> B -> C -> D) u v w :
  depends rd u -> depends rd v -> depends rd w -> depends rd (fun s => g (u s) (v s) (w s)).
Proof. intros Hu Hv Hw s t Hs Ht H. by rewrite (Hu s t), (Hv s t), (Hw s t). Qed.

Lemma depends_gpr rd i : 0 <= i < 32 -> rd (LGpr i) = true -> depends rd (fun s => get_gpr s i).
Proof. intros Hi Hr s t Hs Ht H. exact (H (LGpr i) Hi Hr). Qed.

Lemma depends_ca rd : rd LCA = true -> depends rd xer_ca.
Proof. intros Hr s t Hs Ht H. exact (H LCA Logic.I Hr). Qed.

Lemma depends_ps rd i : 0 <= i < 32 -> rd (LPs i) = true -> depends rd (fun s => get_ps s i).
Proof. intros Hi Hr s t Hs Ht H. exact (H (LPs i) Hi Hr). Qed.

Lemma depends_cr rd i : 0 <= i < 8 -> rd (LCr i) = true -> depends rd (fun s => GetField i s).
Proof. intros Hi Hr s t Hs Ht H. unfold GetField. by rewrite (H (LCr i) Hi Hr). Qed.

(** ** The instructions *)

(** A read the shape allows. *)
Ltac allowed :=
  cbn -[Z.shiftr];
  repeat match goal with E : _ = false |- context [negb ?b] => rewrite E end;
  rewrite ?Z.eqb_refl, ?orb_true_r; reflexivity.

(** Two states that agree on the operands give an instruction the same value. *)
Ltac dep :=
  let s := fresh "s" in let t := fresh "t" in let H := fresh "H" in
  intros s t _ _ H; unfold ra, rb, rs, GetCarry;
  try match goal with |- context [if negb (RA ?i =? 0) then _ else _] => destruct (RA i =? 0) eqn:?; cbn [negb] end;
  repeat match goal with
  | |- context [get_gpr s ?r] =>
      rewrite (H (LGpr r) (field5_range _ _) ltac:(allowed) : get_gpr s r = get_gpr t r)
  | |- context [xer_so_ov s] => rewrite (H LSO Logic.I ltac:(allowed) : xer_so_ov s = xer_so_ov t)
  | |- context [xer_ca s] => rewrite (H LCA Logic.I ltac:(allowed) : xer_ca s = xer_ca t)
  | |- context [get_ps s ?r] =>
      rewrite (H (LPs r) (field5_range _ _) ltac:(allowed) : get_ps s r = get_ps t r)
  | |- context [GetField ?k s] =>
      rewrite (f_equal field_flags
        (H (LCr k) ltac:(first [exact (field3_range _ _)|exact (bit_field_range _ _)]) ltac:(allowed))
        : GetField k s = GetField k t)
  end; try reflexivity.

(** The places written are those of the shape. *)
Ltac wr_ext :=
  let l := fresh "l" in
  intros l _; unfold plus; destruct l; cbn -[Rc OE Z.shiftr];
  repeat match goal with |- context [if ?b then _ else _] => destruct b end; cbn -[Z.shiftr];
  rewrite ?orb_false_r, ?andb_false_r, ?andb_true_r; try reflexivity.

(** *** Integer instructions *)

Section Integer.
Context (i : Z).

(** The common form: a result [r] in register [d], then perhaps the carry, the
    overflow bits and the record in CR0. *)
Definition int_result (d : Z) (r : PowerPCState -> Z) (c o : option (PowerPCState -> bool)) (k : cr_out)
    (s : PowerPCState) : PowerPCState :=
  let s1 := set_gpr d (r s) s in
  let s2 := match c with Some c => SetCarry (c s) s1 | None => s1 end in
  let s3 := match o with Some o => if OE i then SetXER_OV (o s) s2 else s2 | None => s2 end in
  match k with Cr0 => Helper_UpdateCR0 (r s) s3 | Cr0Rc => record i (r s) s3 | _ => s3 end.

Definition present {A} (o : option A) : bool := match o with Some _ => true | None => false end.
Definition opt_depends rd (v : option (PowerPCState -> bool)) : Prop :=
  match v with Some v => depends rd v | None => True end.

Lemma int_result_footprint ins o ca_in (c ov : option (PowerPCState -> bool)) k d r :
  d = operand_reg o i ->
  let sh := int_shape ins [o] ca_in (present c) k (present ov) in
  depends (shape_rd sh i) r -> opt_depends (shape_rd sh i) c -> opt_depends (shape_rd sh i) ov ->
  (forall s, wf s -> is_u32 (r s)) -> (k = NoCr \/ k = Cr0 \/ k = Cr0Rc) ->
  has_footprint (int_result d r c ov k) sh i.
Proof.
  intros -> sh Hr Hc Hov Hru Hk.
  assert (Hreg : 0 <= operand_reg o i < 32) by (destruct o; apply field5_range).
  assert (Rso : shape_rd sh i LSO = true) by apply orb_true_r.
  set (f1 := fun s => set_gpr (operand_reg o i) (r s) s).
  set (w1 := plus (fun _ => false) (LGpr (operand_reg o i))).
  assert (F1 : footprint f1 (shape_rd sh i) w1).
  { apply (footprint_gpr _ (fun s => s)); [apply footprint_id|done..]. }
  set (f2 := fun s => match c with Some c => SetCarry (c s) (f1 s) | None => f1 s end).
  set (w2 := if present c then plus w1 LCA else w1).
  assert (F2 : footprint f2 (shape_rd sh i) w2).
  { destruct c as [c|]; [by apply (footprint_carry _ f1)|done]. }
  set (f3 := fun s => match ov with Some ov => if OE i then SetXER_OV (ov s) (f2 s) else f2 s | None => f2 s end).
  set (w3 := if present ov then if OE i then plus w2 LSO else w2 else w2).
  assert (F3 : footprint f3 (shape_rd sh i) w3).
  { unfold f3, w3. destruct ov as [ov|]; [|done]. destruct (OE i); [|done]. by apply (footprint_ov _ f2). }
  destruct Hk as [->|[->| ->]].
  - apply (footprint_ext _ _ w3); [exact F3|]. unfold w3, w2, w1. destruct c, ov; wr_ext.
  - eapply footprint_ext; [apply (footprint_CR0 _ f3); done|]. unfold w3, w2, w1. destruct c, ov; wr_ext.
  - eapply footprint_ext; [apply (footprint_record _ f3); done|]. unfold w3, w2, w1. destruct c, ov; wr_ext.
Qed.

Lemma logical_footprint ins f :
  let sh := int_shape ins [OpA] false false Cr0Rc false in
  (forall x y, is_u32 x -> is_u32 y -> is_u32 (f x y)) ->
  depends (shape_rd sh i) (fun s => f (rs s i) (rb s i)) ->
  has_footprint (logical f i) sh i.
Proof.
  intros sh Hf Hd.
  apply (footprint_eq _ (int_result (RA i) (fun s => f (rs s i) (rb s i)) None None Cr0Rc)).
  - apply (int_result_footprint ins OpA false None None Cr0Rc); [done..| |auto].
    intros. apply Hf; unfold rs, rb; ppc.
  - intros s Hs. unfold logical. cbv zeta. unfold ra. rewrite get_gpr_set_eq; [done..|apply field5_range].
Qed.

Lemma add_done_footprint ins ca_in a b r (c : option (PowerPCState -> bool)) :
  let sh := int_shape ins [OpD] ca_in (present c) Cr0Rc true in
  depends (shape_rd sh i) a -> depends (shape_rd sh i) b -> depends (shape_rd sh i) r ->
  (forall s, wf s -> is_u32 (r s)) -> opt_depends (shape_rd sh i) c ->
  has_footprint (fun s => add_done i (a s) (b s) (r s) (option_map (fun c => c s) c) s) sh i.
Proof.
  intros sh Ha Hb Hr Hru Hc.
  apply (footprint_eq _ (int_result (RD i) r c (Some (fun s => HasAddOverflowed (a s) (b s) (r s))) Cr0Rc)).
  - apply (int_result_footprint ins OpD ca_in c (Some (fun s => HasAddOverflowed (a s) (b s) (r s))) Cr0Rc); auto.
    intros s t Hs Ht H. by rewrite (Ha s t), (Hb s t), (Hr s t).
  - intros s Hs. by destruct c.
Qed.

Lemma compare_footprint ins a b :
  let sh := int_shape ins [] false false CrF false in
  depends (shape_rd sh i) a -> depends (shape_rd sh i) b ->
  has_footprint (fun s => Helper_IntCompare i (a s) (b s) s) sh i.
Proof.
  intros sh Ha Hb. eapply footprint_ext.
  - apply (footprint_SetField _ (fun s => s) (fun _ => false) (CRFD i) (fun s =>
      let c := if a s <? b s then CR_LT else if b s <? a s then CR_GT else CR_EQ in
      if negb (GetXER_SO s =? 0) then c .| CR_SO else c)); [apply footprint_id|apply field3_range|].
    intros s t Hs Ht H. unfold GetXER_SO.
    rewrite (Ha s t), (Hb s t) by done. by rewrite (H LSO Logic.I (orb_true_r _) : xer_so_ov s = xer_so_ov t).
  - wr_ext.
Qed.

End Integer.

Lemma get_gpr_OV v s r : get_gpr (SetXER_OV v s) r = get_gpr s r.
Proof. done. Qed.

Lemma get_gpr_carry v s r : get_gpr (SetCarry v s) r = get_gpr s r.
Proof. done. Qed.

Definition none : option (PowerPCState -> bool) := None.

(** An instruction equals its common form. *)
Ltac same_result :=
  let s := fresh "s" in
  intros s ?;
  match goal with |- ?f _ s = _ => unfold f end;
  unfold int_result, none, sraw_by, addic, ra, rb, rs; cbv beta iota zeta;
  repeat match goal with
  | |- context [if ?b then set_gpr _ _ _ else _] => destruct b
  | |- context [if ?b then SetCarry _ _ else _] => destruct b
  end;
  repeat match goal with |- context [OE ?i] => destruct (OE i) end;
  rewrite ?get_gpr_OV, ?get_gpr_carry;
  rewrite ?get_gpr_set_eq by first [done|apply field5_range]; reflexivity.

(** The instruction in its common form with result [r], carry [c], overflow [o]. *)
Ltac common reg r c o k :=
  match goal with |- has_footprint (_ ?i) _ _ =>
    apply (footprint_eq _ (int_result i (operand_reg reg i) r c o k));
    [apply (int_result_footprint i _ reg _ c o k); [done|try dep|first [exact Logic.I|try dep]|first [exact Logic.I|try dep]|try (intros; unfold UIMM, MB, ME, SH; ppc)|auto]
    |same_result]
  end.

Ltac logic := apply logical_footprint; [intros; repeat case_match; ppc|dep].

(** An addition of [a] and [b] with sum [r] and carry [c]. *)
Ltac adding a b r c :=
  match goal with |- has_footprint (_ ?i) _ _ =>
    apply (add_done_footprint i _ _ a b r c); [try dep|try dep|try dep|intros; ppc|first [exact Logic.I|dep]]
  end.

Section IntegerInstructions.
Context (i : Z) (Hi : is_u32 i).

Abbreviation A s := (get_gpr s (RA i)).
Abbreviation B s := (get_gpr s (RB i)).
Abbreviation S s := (get_gpr s (RS i)).
Abbreviation N s := (u32 (.~ get_gpr s (RA i))).
Abbreviation ok f op := (has_footprint (f i) (op_shape op) i).

Lemma addi_footprint : ok addi Op.addi.
Proof. common OpD (fun s => if negb (RA i =? 0) then u32 (A s + u32 (SIMM_16 i)) else u32 (SIMM_16 i)) none none NoCr. Qed.

Lemma addis_footprint : ok addis Op.addis.
Proof.
  common OpD (fun s => if negb (RA i =? 0) then u32 (A s + u32 (SIMM_16 i .<< 16)) else u32 (SIMM_16 i .<< 16))
    none none NoCr.
Qed.

Lemma addic_footprint : ok addic Op.addic.
Proof.
  common OpD (fun s => u32 (A s + u32 (SIMM_16 i)))
    (Some (fun s => Helper_Carry (A s) (u32 (SIMM_16 i)))) none NoCr.
Qed.

Lemma addic_rc_footprint : ok addic_rc Op.addic_rc.
Proof.
  common OpD (fun s => u32 (A s + u32 (SIMM_16 i)))
    (Some (fun s => Helper_Carry (A s) (u32 (SIMM_16 i)))) none Cr0.
Qed.

Lemma andi_rc_footprint : ok andi_rc Op.andi_rc.
Proof.
  common OpA (fun s => S s .& UIMM i)
    none none Cr0.
Qed.

Lemma andis_rc_footprint : ok andis_rc Op.andis_rc.
Proof.
  common OpA (fun s => S s .& (UIMM i .<< 16))
    none none Cr0.
Qed.

Lemma mulli_footprint : ok mulli Op.mulli.
Proof.
  common OpD (fun s => u32 (s32 (A s) * SIMM_16 i))
    none none NoCr.
Qed.

Lemma ori_footprint : ok ori Op.ori.
Proof.
  common OpA (fun s => S s .| UIMM i)
    none none NoCr.
Qed.

Lemma oris_footprint : ok oris Op.oris.
Proof.
  common OpA (fun s => S s .| (UIMM i .<< 16))
    none none NoCr.
Qed.

Lemma xori_footprint : ok xori Op.xori.
Proof.
  common OpA (fun s => S s .^ UIMM i)
    none none NoCr.
Qed.

Lemma xoris_footprint : ok xoris Op.xoris.
Proof.
  common OpA (fun s => S s .^ (UIMM i .<< 16))
    none none NoCr.
Qed.

Lemma subfic_footprint : ok subfic Op.subfic.
Proof.
  common OpD (fun s => u32 (SIMM_16 i - s32 (A s)))
    (Some (fun s => (s32 (A s) =? 0) || Helper_Carry (u32 (0 - u32 (s32 (A s)))) (u32 (SIMM_16 i)))) none NoCr.
Qed.

Lemma rlwimix_footprint : ok rlwimix Op.rlwimix.
Proof.
  common OpA (fun s => (A s .& .~ MakeRotationMask (MB i) (ME i)) .| (rotl (S s) (SH i) .& MakeRotationMask (MB i) (ME i)))
    none none Cr0Rc.
Qed.

Lemma rlwinmx_footprint : ok rlwinmx Op.rlwinmx.
Proof.
  common OpA (fun s => rotl (S s) (SH i) .& MakeRotationMask (MB i) (ME i))
    none none Cr0Rc.
Qed.

Lemma rlwnmx_footprint : ok rlwnmx Op.rlwnmx.
Proof.
  common OpA (fun s => rotl (S s) (B s .& 0x1F) .& MakeRotationMask (MB i) (ME i))
    none none Cr0Rc.
Qed.

Lemma srawix_footprint : ok srawix Op.srawix.
Proof.
  common OpA (fun s => u32 (s32 (S s) .>> SH i))
    (Some (fun s => (s32 (S s) <? 0) && (0 <? SH i) && negb (u32 (u32 (s32 (S s)) .<< (32 - SH i)) =? 0))) none Cr0Rc.
Qed.

Lemma negx_footprint : ok negx Op.negx.
Proof.
  common OpD (fun s => u32 (u32 (.~ A s) + 1))
    none (Some (fun s => A s =? 0x80000000)) Cr0Rc.
Qed.

Lemma divwx_footprint : ok divwx Op.divwx.
Proof.
  common OpD (fun s => if (s32 (B s) =? 0) || ((u32 (s32 (A s)) =? 0x80000000) && (s32 (B s) =? -1)) then if s32 (A s) <? 0 then 0xFFFFFFFF else 0 else u32 (Z.quot (s32 (A s)) (s32 (B s))))
    none (Some (fun s => (s32 (B s) =? 0) || ((u32 (s32 (A s)) =? 0x80000000) && (s32 (B s) =? -1)))) Cr0Rc.
Qed.

Lemma divwux_footprint : ok divwux Op.divwux.
Proof.
  common OpD (fun s => if B s =? 0 then 0 else A s / B s)
    none (Some (fun s => B s =? 0)) Cr0Rc.
Qed.

Lemma mulhwx_footprint : ok mulhwx Op.mulhwx.
Proof.
  common OpD (fun s => u32 ((s32 (A s) * s32 (B s)) .>> 32))
    none none Cr0Rc.
Qed.

Lemma mulhwux_footprint : ok mulhwux Op.mulhwux.
Proof.
  common OpD (fun s => u32 ((A s * B s) .>> 32))
    none none Cr0Rc.
Qed.

Lemma mullwx_footprint : ok mullwx Op.mullwx.
Proof.
  common OpD (fun s => u32 (s32 (A s) * s32 (B s)))
    none (Some (fun s => (s32 (A s) * s32 (B s) <? -0x80000000) || (0x7FFFFFFF <? s32 (A s) * s32 (B s)))) Cr0Rc.
Qed.

Lemma andx_footprint : ok andx Op.andx.
Proof. logic. Qed.

Lemma andcx_footprint : ok andcx Op.andcx.
Proof. logic. Qed.

Lemma eqvx_footprint : ok eqvx Op.eqvx.
Proof. logic. Qed.

Lemma nandx_footprint : ok nandx Op.nandx.
Proof. logic. Qed.

Lemma norx_footprint : ok norx Op.norx.
Proof. logic. Qed.

Lemma orx_footprint : ok orx Op.orx.
Proof. logic. Qed.

Lemma orcx_footprint : ok orcx Op.orcx.
Proof. logic. Qed.

Lemma xorx_footprint : ok xorx Op.xorx.
Proof. logic. Qed.

Lemma cntlzwx_footprint : ok cntlzwx Op.cntlzwx.
Proof. logic. Qed.

Lemma extsbx_footprint : ok extsbx Op.extsbx.
Proof. logic. Qed.

Lemma extshx_footprint : ok extshx Op.extshx.
Proof. logic. Qed.

Lemma slwx_footprint : ok slwx Op.slwx.
Proof. logic. Qed.

Lemma srwx_footprint : ok srwx Op.srwx.
Proof. logic. Qed.

Lemma addx_footprint : ok addx Op.addx.
Proof. adding (fun s => A s) (fun s : PowerPCState => B s) (fun s => u32 (A s + B s))
  none.
Qed.

Lemma addcx_footprint : ok addcx Op.addcx.
Proof. adding (fun s => A s) (fun s : PowerPCState => B s) (fun s => u32 (A s + B s))
  (Some (fun s => Helper_Carry (A s) (B s))).
Qed.

Lemma addex_footprint : ok addex Op.addex.
Proof. adding (fun s => A s) (fun s : PowerPCState => B s) (fun s => u32 (u32 (A s + B s) + xer_ca s))
  (Some (fun s => Helper_Carry (A s) (B s) || (negb (xer_ca s =? 0) && Helper_Carry (u32 (A s + B s)) (xer_ca s)))).
Qed.

Lemma addmex_footprint : ok addmex Op.addmex.
Proof. adding (fun s => A s) (fun s : PowerPCState => 0xFFFFFFFF) (fun s => u32 (u32 (A s + 0xFFFFFFFF) + xer_ca s))
  (Some (fun s => Helper_Carry (A s) (u32 (xer_ca s - 1)))).
Qed.

Lemma addzex_footprint : ok addzex Op.addzex.
Proof. adding (fun s => A s) (fun s : PowerPCState => 0) (fun s => u32 (A s + xer_ca s))
  (Some (fun s => Helper_Carry (A s) (xer_ca s))).
Qed.

Lemma subfx_footprint : ok subfx Op.subfx.
Proof. adding (fun s => N s) (fun s : PowerPCState => B s) (fun s => u32 (u32 (N s + B s) + 1))
  none.
Qed.

Lemma subfcx_footprint : ok subfcx Op.subfcx.
Proof. adding (fun s => N s) (fun s : PowerPCState => B s) (fun s => u32 (u32 (N s + B s) + 1))
  (Some (fun s => (N s =? 0xFFFFFFFF) || Helper_Carry (B s) (u32 (N s + 1)))).
Qed.

Lemma subfex_footprint : ok subfex Op.subfex.
Proof. adding (fun s => N s) (fun s : PowerPCState => B s) (fun s => u32 (u32 (N s + B s) + xer_ca s))
  (Some (fun s => Helper_Carry (N s) (B s) || Helper_Carry (u32 (N s + B s)) (xer_ca s))).
Qed.

Lemma subfmex_footprint : ok subfmex Op.subfmex.
Proof. adding (fun s => N s) (fun s : PowerPCState => 0xFFFFFFFF) (fun s => u32 (u32 (N s + 0xFFFFFFFF) + xer_ca s))
  (Some (fun s => Helper_Carry (N s) (u32 (xer_ca s - 1)))).
Qed.

Lemma subfzex_footprint : ok subfzex Op.subfzex.
Proof. adding (fun s => N s) (fun s : PowerPCState => 0) (fun s => u32 (N s + xer_ca s))
  (Some (fun s => Helper_Carry (N s) (xer_ca s))).
Qed.

Lemma cmpi_footprint : ok cmpi Op.cmpi.
Proof. apply (compare_footprint i _ (fun s => s32 (A s)) (fun s => SIMM_16 i)); dep. Qed.

Lemma cmpli_footprint : ok cmpli Op.cmpli.
Proof. apply (compare_footprint i _ (fun s => A s) (fun s => UIMM i)); dep. Qed.

Lemma cmp_footprint : ok PPCInteger.cmp Op.cmp.
Proof. apply (compare_footprint i _ (fun s => s32 (A s)) (fun s => s32 (B s))); dep. Qed.

Lemma cmpl_footprint : ok cmpl Op.cmpl.
Proof. apply (compare_footprint i _ (fun s => A s) (fun s => B s)); dep. Qed.

Lemma srawx_footprint : ok srawx Op.srawx.
Proof.
  common OpA (fun s => if negb (B s .& 0x20 =? 0) then if negb (S s .& 0x80000000 =? 0) then 0xFFFFFFFF else 0
                       else u32 (s32 (S s) .>> (B s .& 0x1f)))
    (Some (fun s => if negb (B s .& 0x20 =? 0) then negb (S s .& 0x80000000 =? 0)
                    else (s32 (S s) <? 0) && (0 <? B s .& 0x1f)
                      && negb (u32 (u32 (s32 (S s)) .<< (32 - (B s .& 0x1f))) =? 0))) none Cr0Rc.
Qed.

End IntegerInstructions.

(** *** The condition register and the floating-point registers *)

Lemma footprint_widen f rd wr wr' :
  footprint f rd wr -> (forall l, valid l -> wr l = true -> wr' l = true) ->
  (forall l, valid l -> wr' l = true -> wr l = false -> rd l = true) -> footprint f rd wr'.
Proof.
  intros Hf Hle Hrd. split; [apply Hf| |].
  - intros s l Hs Hl Hw. apply (fp_frame _ _ _ Hf); [done..|].
    destruct (wr l) eqn:E; [|done]. rewrite (Hle l Hl E) in Hw. done.
  - intros s t l Hs Ht H Hl Hw. destruct (wr l) eqn:E; [by apply (fp_depends _ _ _ Hf)|].
    transitivity s; [by apply (fp_frame _ _ _ Hf)|].
    transitivity t; [by apply H, Hrd|]. symmetry. by apply (fp_frame _ _ _ Hf).
Qed.

(** A change of the rest of the state only. *)
Definition rest_only (g : PowerPCState -> PowerPCState) : Prop :=
  forall s, gpr (g s) = gpr s /\ cr (g s) = cr s /\ ps (g s) = ps s /\ xer_ca (g s) = xer_ca s /\
    xer_so_ov (g s) = xer_so_ov s /\ blank (g s) = blank (g (blank s)).

Ltac rest_only := intros s; destruct s; repeat split.

Lemma rest_only_same g s l : rest_only g -> place_eqb l LRest = false -> same l (g s) s.
Proof.
  intros Hg Hl. destruct (Hg s) as (Eg & Ec & Ep & Ea & Eo & _).
  destruct l; simpl in *; unfold get_gpr, cr_field, get_ps; congruence.
Qed.

Section Others.
Context (rd : place -> bool) (Hrest : rd LRest = true).

Lemma footprint_rest {A} (g : A -> PowerPCState -> PowerPCState) v :
  depends rd v -> (forall a, rest_only (g a)) -> (forall s, wf s -> wf (g (v s) s)) ->
  footprint (fun s => g (v s) s) rd (plus (fun _ => false) LRest).
Proof.
  intros Hv Hg Hk. split; [done| |].
  - intros s l Hs Hl Hn. apply orb_false_elim in Hn as [Hn _]. by apply rest_only_same.
  - intros s t l Hs Ht H Hl Hw. destruct l; try done.
    specialize (H LRest Logic.I Hrest) as E. simpl in *.
    rewrite <- (Hv s t) by done.
    destruct (Hg (v s) s) as (_ & _ & _ & _ & _ & ->). destruct (Hg (v s) t) as (_ & _ & _ & _ & _ & ->).
    by rewrite E.
Qed.

Lemma depends_fpscr f wr : footprint f rd wr -> depends rd (fun s => fpscr (f s)).
Proof.
  intros Hf s t Hs Ht H. pose proof (footprint_agree f rd wr s t Hf Hs Ht H LRest Logic.I Hrest) as E.
  exact (f_equal fpscr E).
Qed.

Lemma depends_fpscr_id : depends rd fpscr.
Proof. apply (depends_fpscr (fun s => s) (fun _ => false)), footprint_id. Qed.

Lemma footprint_record_cr1 f wr i :
  footprint f rd wr -> footprint (fun s => record_cr1 i (f s)) rd (if Rc i then plus wr (LCr 1) else wr).
Proof.
  intros Hf. unfold record_cr1. change (bit_at i 0) with (Rc i). destruct (Rc i); [|done].
  unfold UpdateCR1. apply (footprint_SetField rd f wr 1 (fun s => (field (fpscr (f s)) 31 1 .<< 3)
    .| (field (fpscr (f s)) 30 1 .<< 2) .| (field (fpscr (f s)) 29 1 .<< 1) .| field (fpscr (f s)) 28 1)); [done|lia|].
  intros s t Hs Ht H. by rewrite (depends_fpscr f wr Hf s t Hs Ht H).
Qed.

Lemma cr_Get_depends : (forall k, rd (LCr k) = true) -> depends rd cr_Get.
Proof.
  intros Hr s t Hs Ht H. unfold cr_Get. cbn [seq fold_left].
  repeat match goal with |- context [GetField ?k s] =>
    rewrite (depends_cr rd k ltac:(lia) (Hr k) s t Hs Ht H) end.
  done.
Qed.

End Others.

Lemma cr_Set_footprint rd v :
  depends rd v -> footprint (fun s => cr_Set (v s) s) rd (fun l => match l with LCr _ => true | _ => false end).
Proof.
  intros Hv. eapply footprint_ext.
  - unfold cr_Set. cbn [seq fold_left].
    repeat (eapply footprint_SetField; [|lia|by intros s t Hs Ht H; rewrite (Hv s t Hs Ht H)]).
    apply footprint_id.
  - intros l Hl. unfold plus. destruct l; try done. cbn. cbn in Hl.
    repeat match goal with |- context [?a =? ?b] => destruct (Z.eqb_spec a b); try reflexivity end. lia.
Qed.

Lemma footprint_clear_xer rd f wr :
  footprint f rd wr -> footprint (fun s => set_xer 0 0 (xer_stringctrl (f s)) (f s)) rd (plus (plus wr LCA) LSO).
Proof.
  intros Hf. split.
  - intros s Hs. by apply wf_clear_xer, (fp_keeps _ _ _ Hf).
  - intros s l Hs Hl Hn. apply orb_false_elim in Hn as [N1 Hn]. apply orb_false_elim in Hn as [N2 Hn].
    transitivity (f s); [by destruct l|]. by apply (fp_frame _ _ _ Hf).
  - intros s t l Hs Ht H Hl Hw. destruct l as [| | | | |]; try done; cbn in Hw;
      exact (fp_depends _ _ _ Hf s t _ Hs Ht H Hl Hw).
Qed.

Section OtherInstructions.
Context (i : Z) (Hi : is_u32 i).

Abbreviation ok f op := (has_footprint (f i) (op_shape op) i).

Lemma cr_logical_footprint f : has_footprint (cr_logical f i) bits_shape i.
Proof.
  apply (footprint_eq _ (fun s => SetField (CRBD i .>> 2)
    (if negb (f (GetBit (CRBA i) s) (GetBit (CRBB i) s) .& 1 =? 0)
     then GetField (CRBD i .>> 2) s .| (0x8 .>> (CRBD i .& 3))
     else GetField (CRBD i .>> 2) s .& .~ (0x8 .>> (CRBD i .& 3))) s)).
  - eapply footprint_ext.
    + apply (footprint_SetField _ (fun s => s)); [apply footprint_id|apply bit_field_range|].
      unfold GetBit. dep.
    + wr_ext.
  - intros s Hs. unfold cr_logical, SetBit. cbv zeta. by destruct (negb _).
Qed.

Lemma mcrf_footprint : ok mcrf Op.mcrf.
Proof.
  eapply footprint_ext; [apply (footprint_SetField _ (fun s => s)); [apply footprint_id|apply field3_range|dep]|wr_ext].
Qed.

Lemma isync_footprint : ok isync Op.isync.
Proof. eapply footprint_ext; [apply footprint_id|wr_ext]. Qed.

Lemma mfcr_footprint : ok mfcr Op.mfcr.
Proof.
  eapply footprint_ext.
  - apply (footprint_gpr (shape_rd (op_shape Op.mfcr) i) (fun s => s) (fun _ => false) (RD i) cr_Get); [apply footprint_id
      |apply field5_range| |].
    + by apply cr_Get_depends.
    + intros. apply cr_Get_u32.
  - wr_ext.
Qed.

Lemma mtcrf_footprint : ok mtcrf Op.mtcrf.
Proof.
  apply (footprint_eq _ (fun s => cr_Set (if CRM i =? 0xFF then get_gpr s (RS i)
    else (cr_Get s .& .~ expand_mask (CRM i)) .| (get_gpr s (RS i) .& expand_mask (CRM i))) s)).
  - eapply footprint_ext; [apply cr_Set_footprint|wr_ext].
    intros s t Hs Ht H. rewrite (cr_Get_depends (shape_rd (op_shape Op.mtcrf) i) ltac:(done) s t Hs Ht H).
    by rewrite (H (LGpr (RS i)) (field5_range _ _) ltac:(allowed) : get_gpr s (RS i) = get_gpr t (RS i)).
  - intros s Hs. unfold mtcrf. cbv zeta. by destruct (CRM i =? 0xFF).
Qed.

Lemma mcrxr_footprint : ok mcrxr Op.mcrxr.
Proof.
  eapply footprint_widen.
  - apply (footprint_clear_xer _ (fun s => SetField (CRFD i) (GetXER s .>> 28) s)).
    apply (footprint_SetField _ (fun s => s)); [apply footprint_id|apply field3_range|].
    intros s t Hs Ht H. unfold GetXER.
    rewrite (H LSO Logic.I eq_refl : xer_so_ov s = xer_so_ov t), (H LCA Logic.I eq_refl : xer_ca s = xer_ca t).
    by rewrite (f_equal xer_stringctrl (H LRest Logic.I eq_refl : blank s = blank t) : xer_stringctrl s = xer_stringctrl t).
  - intros l _. unfold plus. destruct l; cbn; rewrite ?orb_false_r; done.
  - intros l _. unfold plus. destruct l; cbn; rewrite ?orb_false_r; congruence.
Qed.

(** Instructions on floating-point registers: a move, then perhaps the record. *)
Lemma fpr_move_footprint fins v w :
  let sh := fpr_shape fins true Cr1Rc in
  depends (shape_rd sh i) v -> depends (shape_rd sh i) w ->
  (forall s, wf s -> is_u64 (v s)) -> (forall s, wf s -> is_u64 (w s)) ->
  has_footprint (fun s => record_cr1 i (SetBoth (FD i) (v s) (w s) s)) sh i.
Proof.
  intros sh Hv Hw Rv Rw. eapply footprint_widen.
  - apply (footprint_record_cr1 _ eq_refl (fun s => SetBoth (FD i) (v s) (w s) s)).
    apply (footprint_ps _ (fun s => s)); [apply footprint_id|apply field5_range|done..].
  - intros l _. unfold plus. destruct l; cbn -[Rc]; destruct (Rc i); cbn; rewrite ?orb_false_r; done.
  - intros l _. unfold plus. destruct l; cbn -[Rc]; destruct (Rc i); cbn; rewrite ?orb_false_r; congruence.
Qed.

(** Instructions that set the FPSCR. *)
Lemma fpscr_footprint {A} fins (g : A -> PowerPCState -> PowerPCState) v :
  let sh := fpr_shape fins false Cr1Rc in
  depends (shape_rd sh i) v -> (forall a, rest_only (g a)) -> (forall s, wf s -> wf (g (v s) s)) ->
  has_footprint (fun s => record_cr1 i (g (v s) s)) sh i.
Proof.
  intros sh Hv Hg Hk. eapply footprint_ext.
  - apply (footprint_record_cr1 _ eq_refl (fun s => g (v s) s)). by apply (footprint_rest _ eq_refl g v).
  - intros l _. unfold plus. destruct l; cbn -[Rc]; destruct (Rc i); cbn; rewrite ?orb_false_r; done.
Qed.

Ltac fpr_move v w := apply (fpr_move_footprint _ v w); [dep|dep|intros; unfold DOUBLE_SIGN; ppc..].

Abbreviation P s f := (get_ps s (f i)).

Lemma fmrx_footprint : ok fmrx Op.fmrx.
Proof. fpr_move (fun s => fst (P s FB)) (fun s => snd (P s FD)). Qed.

Lemma fabsx_footprint : ok fabsx Op.fabsx.
Proof. fpr_move (fun s => fst (P s FB) .& 0x7FFFFFFFFFFFFFFF) (fun s => snd (P s FD)). Qed.

Lemma fnabsx_footprint : ok fnabsx Op.fnabsx.
Proof. fpr_move (fun s => fst (P s FB) .| DOUBLE_SIGN) (fun s => snd (P s FD)). Qed.

Lemma fnegx_footprint : ok fnegx Op.fnegx.
Proof. fpr_move (fun s => fst (P s FB) .^ DOUBLE_SIGN) (fun s => snd (P s FD)). Qed.

Lemma fselx_footprint : ok fselx Op.fselx.
Proof. fpr_move (fun s => if ge_neg_zero (fst (P s FA)) then fst (P s FC) else fst (P s FB)) (fun s => snd (P s FD)). Qed.

Lemma ps_sel_footprint : ok ps_sel Op.ps_sel.
Proof.
  fpr_move (fun s => if ge_neg_zero (fst (P s FA)) then fst (P s FC) else fst (P s FB))
    (fun s => if ge_neg_zero (snd (P s FA)) then snd (P s FC) else snd (P s FB)).
Qed.

Lemma ps_neg_footprint : ok ps_neg Op.ps_neg.
Proof. fpr_move (fun s => fst (P s FB) .^ DOUBLE_SIGN) (fun s => snd (P s FB) .^ DOUBLE_SIGN). Qed.

Lemma ps_mr_footprint : ok ps_mr Op.ps_mr.
Proof. fpr_move (fun s => fst (P s FB)) (fun s => snd (P s FB)). Qed.

Lemma ps_nabs_footprint : ok ps_nabs Op.ps_nabs.
Proof. fpr_move (fun s => fst (P s FB) .| DOUBLE_SIGN) (fun s => snd (P s FB) .| DOUBLE_SIGN). Qed.

Lemma ps_abs_footprint : ok ps_abs Op.ps_abs.
Proof. fpr_move (fun s => fst (P s FB) .& .~ DOUBLE_SIGN) (fun s => snd (P s FB) .& .~ DOUBLE_SIGN). Qed.

Lemma ps_merge00_footprint : ok ps_merge00 Op.ps_merge00.
Proof. fpr_move (fun s => fst (P s FA)) (fun s => fst (P s FB)). Qed.

Lemma ps_merge01_footprint : ok ps_merge01 Op.ps_merge01.
Proof. fpr_move (fun s => fst (P s FA)) (fun s => snd (P s FB)). Qed.

Lemma ps_merge10_footprint : ok ps_merge10 Op.ps_merge10.
Proof. fpr_move (fun s => snd (P s FA)) (fun s => fst (P s FB)). Qed.

Lemma ps_merge11_footprint : ok ps_merge11 Op.ps_merge11.
Proof. fpr_move (fun s => snd (P s FA)) (fun s => snd (P s FB)). Qed.

(** Changes of the FPSCR. *)
Lemma rest_only_comp f g : rest_only f -> rest_only g -> rest_only (fun s => g (f s)).
Proof.
  intros Hf Hg s. destruct (Hf s) as (F1 & F2 & F3 & F4 & F5 & F6).
  destruct (Hg (f s)) as (G1 & G2 & G3 & G4 & G5 & G6).
  destruct (Hg (f (blank s))) as (_ & _ & _ & _ & _ & G6'). repeat split; congruence.
Qed.

Lemma rest_only_fpscr h : rest_only (fun s => set_fpscr (h (fpscr s)) s).
Proof. rest_only. Qed.

Lemma rest_only_if (c : PowerPCState -> bool) f g :
  (forall s, c (blank s) = c s) -> rest_only f -> rest_only g -> rest_only (fun s => if c s then f s else g s).
Proof. intros Hc Hf Hg s. rewrite Hc. destruct (c s); [apply Hf|apply Hg]. Qed.

Lemma rest_only_CheckFP : rest_only CheckFPExceptions.
Proof. apply rest_only_if; [done|rest_only|rest_only]. Qed.

Lemma rest_only_summary : rest_only UpdateFPExceptionSummary.
Proof.
  apply (rest_only_comp _ CheckFPExceptions); [|apply rest_only_CheckFP].
  apply (rest_only_comp (fun s => set_fpscr (set_bit_to 29 (negb (fpscr s .& FPSCR_VX_ANY =? 0)) (fpscr s)) s)
    (fun s => set_fpscr (set_bit_to 30 (negb ((fpscr s .>> 22) .& (fpscr s .& FPSCR_ANY_E) =? 0)) (fpscr s)) s));
    rest_only.
Qed.

Lemma rest_only_SetFPException m : rest_only (SetFPException m).
Proof.
  apply (rest_only_comp _ UpdateFPExceptionSummary); [|apply rest_only_summary].
  apply (rest_only_comp (fun s => if negb (fpscr s .& m =? m) then set_fpscr (set_bit_to 31 true (fpscr s)) s else s)
    (fun s => set_fpscr (fpscr s .| m) s)); [|rest_only].
  apply rest_only_if; [done|rest_only|rest_only].
Qed.

Lemma updated_footprint {A} fins (h : A -> Z -> Z) v :
  let sh := fpr_shape fins false Cr1Rc in
  depends (shape_rd sh i) v -> (forall s, wf s -> is_u32 (h (v s) (fpscr s))) ->
  has_footprint (fun s => record_cr1 i (FPSCRUpdated (set_fpscr (h (v s) (fpscr s)) s))) sh i.
Proof.
  intros sh Hv Hu. apply (fpscr_footprint fins (fun a s => FPSCRUpdated (set_fpscr (h a (fpscr s)) s)) v); [done| |].
  - intros a. apply (rest_only_comp _ FPSCRUpdated); [rest_only|apply rest_only_summary].
  - intros s Hs. unfold FPSCRUpdated. apply wf_UpdateFPExceptionSummary, wf_set_fpscr; auto.
Qed.

Lemma mtfsb0x_footprint : ok mtfsb0x Op.mtfsb0x.
Proof. apply (updated_footprint [] (fun _ f => f .& .~ (0x80000000 .>> CRBD i)) (fun _ => tt)); [done|intros; ppc]. Qed.

Lemma mtfsb1x_footprint : ok mtfsb1x Op.mtfsb1x.
Proof.
  set (b := 0x80000000 .>> CRBD i).
  assert (Hb : is_u32 b) by (unfold b, CRBD; ppc).
  apply (fpscr_footprint [] (fun _ s => FPSCRUpdated
    (if negb (b .& FPSCR_ANY_X =? 0) then SetFPException b s else set_fpscr (fpscr s .| (b .& FPSCR_mask)) s)) (fun _ => tt)).
  - done.
  - intros _. apply (rest_only_comp _ FPSCRUpdated); [|apply rest_only_summary].
    apply rest_only_if; [done|apply rest_only_SetFPException|rest_only].
  - intros s Hs. unfold FPSCRUpdated. apply wf_UpdateFPExceptionSummary, wf_if; ppc.
Qed.

Lemma mtfsfix_footprint : ok mtfsfix Op.mtfsfix.
Proof.
  apply (updated_footprint [] (fun _ f => ((f .& .~ (0xF0000000 .>> (4 * CRFD i)))
    .| ((u32 (i .<< 16) .& 0xF0000000) .>> (4 * CRFD i))) .& FPSCR_mask) (fun _ => tt)); [done|].
  intros. unfold CRFD, FPSCR_mask. ppc.
Qed.

Lemma mtfsfx_footprint : ok mtfsfx Op.mtfsfx.
Proof.
  apply (updated_footprint [FopB] (fun b f => ((f .& .~ expand_mask (FM i)) .| (b .& expand_mask (FM i))) .& FPSCR_mask)
    (fun s => u32 (fst (P s FB)))); [dep|].
  intros. unfold FPSCR_mask. ppc.
Qed.

Lemma mffsx_footprint : ok mffsx Op.mffsx.
Proof.
  apply (fpr_move_footprint _ (fun s => 0xFFF8000000000000 .| fpscr s) (fun s => snd (P s FD))).
  - intros s t Hs Ht H. by rewrite (depends_fpscr_id _ eq_refl s t Hs Ht H).
  - dep.
  - intros. ppc.
  - intros. ppc.
Qed.

Lemma mcrfs_footprint : ok mcrfs Op.mcrfs.
Proof.
  set (shift := 4 * (7 - CRFS i)). eapply footprint_ext.
  - apply (footprint_SetField (shape_rd (op_shape Op.mcrfs) i)
      (fun s => FPSCRUpdated (set_fpscr (fpscr s .& .~ ((0xF .<< shift) .& (FPSCR_FX .| FPSCR_ANY_X))) s))
      (plus (fun _ => false) LRest) (CRFD i) (fun s => (fpscr s .>> shift) .& 0xF)); [|apply field3_range|].
    + apply (footprint_rest _ eq_refl (fun _ s => FPSCRUpdated (set_fpscr (fpscr s .& .~ ((0xF .<< shift)
        .& (FPSCR_FX .| FPSCR_ANY_X))) s)) (fun _ => tt)); [done| |].
      * intros _. apply (rest_only_comp _ FPSCRUpdated); [rest_only|apply rest_only_summary].
      * intros s Hs. unfold FPSCRUpdated. apply wf_UpdateFPExceptionSummary. ppc.
    + intros s t Hs Ht H. by rewrite (depends_fpscr_id _ eq_refl s t Hs Ht H).
  - intros l _. unfold plus. destruct l; cbn; rewrite ?orb_false_r; done.
Qed.

End OtherInstructions.

(** *** Instructions that may raise an exception or leave the block *)

(** The registers stay. *)
Definition keeps_registers (g : PowerPCState -> PowerPCState) : Prop :=
  forall s, gpr (g s) = gpr s /\ cr (g s) = cr s /\ ps (g s) = ps s /\ xer_ca (g s) = xer_ca s
    /\ xer_so_ov (g s) = xer_so_ov s.

Lemma leaving_footprint f i : keeps_wf f -> is_u32 i -> keeps_registers (f i) -> has_footprint (f i) (leaving_shape []) i.
Proof.
  intros Hk Hi Hf. apply footprint_reads_all; [intros s; by apply Hk|].
  intros s l _ _ Hl. destruct (Hf s) as (Eg & Ec & Ep & Ea & Eo).
  destruct l; simpl in *; unfold get_gpr, cr_field, get_ps; congruence.
Qed.

Lemma keeps_registers_external : keeps_registers CheckExternalExceptions.
Proof. intros s. unfold CheckExternalExceptions. repeat case_match; repeat split. Qed.

Lemma keeps_registers_exceptions : keeps_registers CheckExceptions.
Proof.
  intros s. unfold CheckExceptions. repeat case_match; first [apply keeps_registers_external|repeat split].
Qed.

Lemma keeps_registers_comp f g : keeps_registers f -> keeps_registers g -> keeps_registers (fun s => g (f s)).
Proof.
  intros Hf Hg s. destruct (Hf s) as (? & ? & ? & ? & ?). destruct (Hg (f s)) as (? & ? & ? & ? & ?).
  repeat split; congruence.
Qed.

Ltac leaving := intros ?; repeat case_match; repeat split.

Section Leaving.
Context (i : Z) (Hi : is_u32 i).

Abbreviation ok f op := (has_footprint (f i) (op_shape op) i).

Lemma keeps_registers_trap b : keeps_registers (trap_if b).
Proof.
  intros s. unfold trap_if. destruct b; [|repeat split].
  apply (keeps_registers_exceptions (GenerateProgramException Trap s)).
Qed.

Lemma twi_footprint : ok twi Op.twi.
Proof. apply leaving_footprint; [exact (run_op_keeps Op.twi _ eq_refl)|done|]. intros s. apply keeps_registers_trap. Qed.

Lemma tw_footprint : ok tw Op.tw.
Proof. apply leaving_footprint; [exact (run_op_keeps Op.tw _ eq_refl)|done|]. intros s. apply keeps_registers_trap. Qed.

Lemma sc_footprint : ok PPCBranch.sc Op.sc.
Proof.
  apply leaving_footprint; [exact (run_op_keeps Op.sc _ eq_refl)|done|]. intros s.
  apply (keeps_registers_exceptions (set_Exceptions (Exceptions s .| EXCEPTION_SYSCALL) s)).
Qed.

Lemma bx_footprint : ok bx Op.bx.
Proof. apply leaving_footprint; [exact (run_op_keeps Op.bx _ eq_refl)|done|]. unfold bx, link. cbv zeta. leaving. Qed.

Lemma bcx_footprint : ok bcx Op.bcx.
Proof. apply leaving_footprint; [exact (run_op_keeps Op.bcx _ eq_refl)|done|]. unfold bcx, link. cbv zeta. leaving. Qed.

Lemma bcctrx_footprint : ok bcctrx Op.bcctrx.
Proof. apply leaving_footprint; [exact (run_op_keeps Op.bcctrx _ eq_refl)|done|]. unfold bcctrx, link. cbv zeta. leaving. Qed.

Lemma bclrx_footprint : ok bclrx Op.bclrx.
Proof. apply leaving_footprint; [exact (run_op_keeps Op.bclrx _ eq_refl)|done|]. unfold bclrx, link. cbv zeta. leaving. Qed.

Lemma rfi_footprint : ok rfi Op.rfi.
Proof. apply leaving_footprint; [exact (run_op_keeps Op.rfi _ eq_refl)|done|]. unfold rfi. cbv zeta. leaving. Qed.

Lemma mtmsr_footprint : ok mtmsr Op.mtmsr.
Proof.
  apply leaving_footprint; [exact (run_op_keeps Op.mtmsr _ eq_refl)|done|]. intros s.
  unfold mtmsr, privileged. destruct (MSR_PR s); [repeat split|].
  refine (keeps_registers_comp (fun t => CheckFPExceptions (MSRUpdated (set_msr (get_gpr s (RS i)) t))) CheckExceptions
    _ keeps_registers_exceptions s).
  unfold CheckFPExceptions. leaving.
Qed.

Lemma mtsr_footprint : ok mtsr Op.mtsr.
Proof. apply leaving_footprint; [exact (run_op_keeps Op.mtsr _ eq_refl)|done|]. unfold mtsr, privileged. leaving. Qed.

Lemma mtsrin_footprint : ok mtsrin Op.mtsrin.
Proof. apply leaving_footprint; [exact (run_op_keeps Op.mtsrin _ eq_refl)|done|]. unfold mtsrin, privileged. leaving. Qed.

(** Privileged moves to a register. *)
Lemma privileged_move_footprint f v :
  keeps_wf f -> (forall s, f i s = privileged (fun s => set_gpr (RD i) (v s) s) s) ->
  has_footprint (f i) (leaving_shape [OpD]) i.
Proof.
  intros Hk He. apply footprint_reads_all; [intros s; by apply Hk|].
  intros s l Hs Hv Hl. rewrite He. unfold privileged.
  destruct (MSR_PR s); [by destruct l|].
  apply set_gpr_same; [done|apply field5_range|done|].
  destruct l; try done. cbn in Hl. by rewrite orb_false_r in Hl.
Qed.

Lemma mfmsr_footprint : ok mfmsr Op.mfmsr.
Proof. by apply (privileged_move_footprint mfmsr msr (run_op_keeps Op.mfmsr _ eq_refl)). Qed.

Lemma mfsr_footprint : ok mfsr Op.mfsr.
Proof. by apply (privileged_move_footprint mfsr (fun s => get_sr s (SR i)) (run_op_keeps Op.mfsr _ eq_refl)). Qed.

Lemma mfsrin_footprint : ok mfsrin Op.mfsrin.
Proof.
  by apply (privileged_move_footprint mfsrin (fun s => get_sr s ((get_gpr s (RB i) .>> 28) .& 0xF))
    (run_op_keeps Op.mfsrin _ eq_refl)).
Qed.

End Leaving.

(** Every modelled instruction has the footprint of its shape. *)
Lemma op_footprint op f i : run_op op = Some f -> is_u32 i -> has_footprint (f i) (op_shape op) i.
Proof.
  intros Hop Hi. destruct op; try discriminate Hop; injection Hop as <-;
    first [apply cr_logical_footprint|auto using
      bcx_footprint, bx_footprint, twi_footprint, sc_footprint, mulli_footprint, subfic_footprint,
      cmpli_footprint, cmpi_footprint, addic_footprint, addic_rc_footprint, addi_footprint, addis_footprint,
      rlwimix_footprint, rlwinmx_footprint, rlwnmx_footprint, ori_footprint, oris_footprint, xori_footprint,
      xoris_footprint, andi_rc_footprint, andis_rc_footprint, ps_neg_footprint, ps_nabs_footprint,
      ps_abs_footprint, ps_mr_footprint, ps_merge00_footprint, ps_merge01_footprint, ps_merge10_footprint,
      ps_merge11_footprint, ps_sel_footprint, bcctrx_footprint, bclrx_footprint, isync_footprint,
      mcrf_footprint, rfi_footprint, addx_footprint, addcx_footprint, addex_footprint, addmex_footprint,
      addzex_footprint, divwx_footprint, divwux_footprint, mulhwx_footprint, mulhwux_footprint,
      mullwx_footprint, negx_footprint, subfx_footprint, subfcx_footprint, subfex_footprint, subfmex_footprint,
      subfzex_footprint, andx_footprint, andcx_footprint, orx_footprint, norx_footprint, xorx_footprint,
      orcx_footprint, nandx_footprint, eqvx_footprint, cmp_footprint, cmpl_footprint, cntlzwx_footprint,
      extshx_footprint, extsbx_footprint, srwx_footprint, srawx_footprint, srawix_footprint, slwx_footprint,
      mfcr_footprint, mfmsr_footprint, mtcrf_footprint, mtmsr_footprint, mtsr_footprint, mtsrin_footprint,
      mcrxr_footprint, mfsr_footprint, mfsrin_footprint, tw_footprint, fabsx_footprint, fmrx_footprint,
      fnabsx_footprint, fnegx_footprint, mcrfs_footprint, mffsx_footprint, mtfsb0x_footprint,
      mtfsb1x_footprint, mtfsfix_footprint, mtfsfx_footprint, fselx_footprint].
Qed.
