(* ===== verification/PPCDeclared.v ===== *)
(** * The analysis knows what the interpreter's instructions do

    Every flag of the instruction tables that [SetInstructionStats] uses is
    compared, for every opcode, with the footprint of the function the interpreter
    runs. *)
From S2P Require Export PPCShapes.

(** ** What the tables declare *)

Definition may_leave (info : GekkoOPInfo) : bool := has_flag info (FL_ENDBLOCK .| FL_PROGRAMEXCEPTION .| FL_LOADSTORE).
(** Only integer and condition register instructions leave the rest alone. *)
Definition touches_rest (info : GekkoOPInfo) : bool := negb (is_integer_type info || is_cr_type info).
(** [mcrxr] clears the summary overflow bit; no flag of the tables says so. *)
Definition is_mcrxr (i : Z) : bool := (OPCD i =? 31) && (SUBOP10 i =? 512).

(** The inputs. The tables have no flag for reading the summary overflow: every instruction may. *)
Definition declared_rd (info : GekkoOPInfo) (i : Z) (l : place) : bool :=
  may_leave info ||
  match l with
  | LGpr r => Z.testbit (regsIn_of info i) r
  | LCr k => Z.testbit (crIn_of info i) k
  | LCA => has_flag info FL_READ_CA
  | LSO => true
  | LPs r => Z.testbit (fregsIn_of info i) r
  | LRest => touches_rest info
  end.
(** The outputs. *)
Definition declared_wr (info : GekkoOPInfo) (i : Z) (l : place) : bool :=
  match l with
  | LGpr r => Z.testbit (regsOut_of info i) r
  | LCr k => Z.testbit (crOut_of info i) k
  | LCA => has_flag info FL_SET_CA
  | LSO => has_flag info FL_SET_OE
  | LPs r => has_flag info FL_OUT_FLOAT_D && (r =? FD i)
  | LRest => touches_rest info
  end.
(** What an instruction writes: the declared outputs, and what the tables leave out for [mcrxr]. *)
Definition written (info : GekkoOPInfo) (i : Z) (l : place) : bool :=
  match l with LSO => declared_wr info i l || is_mcrxr i | _ => declared_wr info i l end.
Lemma written_declared info i l : l <> LSO \/ is_mcrxr i = false -> written info i l = declared_wr info i l.
Proof. intros [Hl|Hm]; unfold written; destruct l; try done. by rewrite Hm, orb_false_r. Qed.

(** ** The comparison of a shape with the flags *)

Definition operand_eqb (a b : operand) : bool :=
  match a, b with OpA, OpA | OpA0, OpA0 | OpB, OpB | OpS, OpS | OpD, OpD => true | _, _ => false end.
Definition declared_in (info : GekkoOPInfo) (o : operand) : bool :=
  match o with
  | OpA => has_flag info FL_IN_A
  | OpA0 => has_flag info FL_IN_A || has_flag info FL_IN_A0
  | OpB => has_flag info FL_IN_B
  | OpS => has_flag info FL_IN_S
  | OpD => false
  end.
Definition declared_fin (info : GekkoOPInfo) (o : foperand) : bool :=
  match o with
  | FopA => has_flag info FL_IN_FLOAT_A
  | FopB => has_flag info FL_IN_FLOAT_B
  | FopC => has_flag info FL_IN_FLOAT_C
  | FopD => has_flag info FL_IN_FLOAT_D
  end.
(** The flags about fields of the condition register, in the order the analysis
    looks at them. *)
Definition crin_flags info :=
  (has_flag info FL_READ_ALL_CR, has_flag info FL_READ_CRn, has_flag info FL_READ_CR_BI, is_cr_type info).
Definition crout_flags info :=
  (has_flag info FL_SET_ALL_CR, has_flag info FL_SET_CRn, has_flag info FL_SET_CR0, has_flag info FL_RC_BIT,
   has_flag info FL_SET_CR1, has_flag info FL_RC_BIT_F, is_cr_type info).
Definition crin_ok (c : cr_in) (info : GekkoOPInfo) : bool :=
  match c, crin_flags info with
  | NoIn, _ | InAll, (true, _, _, _) | InF, (false, true, _, _) | InBI, (false, false, true, _)
  | InBits, (false, false, false, true) => true
  | _, _ => false
  end.
Definition crout_ok (c : cr_out) (info : GekkoOPInfo) : bool :=
  match c, crout_flags info with
  | NoCr, (false, false, false, false, false, false, false) => true
  | CrAll, (true, _, _, _, _, _, _) => true
  | CrF, (false, true, _, _, _, _, _) => true
  | Cr0, (false, false, true, _, _, _, _) => true
  | Cr0Rc, (false, false, false, true, false, false, false) => true
  | Cr1Rc, (false, false, false, false, false, true, false) => true
  | CrBit, (false, false, false, false, false, false, true) => true
  | _, _ => false
  end.

Definition covers (sh : shape) (info : GekkoOPInfo) (oe mcrxr : bool) : bool :=
  forallb (declared_in info) (s_in sh)
  && Bool.eqb (has_flag info FL_OUT_A) (existsb (operand_eqb OpA) (s_out sh))
  && Bool.eqb (has_flag info FL_OUT_D) (existsb (operand_eqb OpD) (s_out sh))
  && forallb (fun o => operand_eqb o OpA || operand_eqb o OpD) (s_out sh)
  && implb (s_ca_in sh) (has_flag info FL_READ_CA)
  && Bool.eqb (has_flag info FL_SET_CA) (s_ca_out sh)
  && crin_ok (s_crin sh) info && crout_ok (s_crout sh) info
  && implb (s_all sh) (may_leave info)
  && Bool.eqb (has_flag info FL_SET_OE) (s_oe sh && oe)
  && Bool.eqb mcrxr (s_so sh)
  && forallb (declared_fin info) (s_fin sh)
  && Bool.eqb (has_flag info FL_OUT_FLOAT_D) (s_fout sh)
  && implb (s_rest sh) (touches_rest info).

(** ** Every opcode *)

(** The decoders, as functions of the two fields they look at. *)
Definition op_of (p j : Z) : Op.t :=
  let result := op_at s_interpreter_op_table p in
  match result with
  | Op.RunTable4 => op_at s_interpreter_op_table4 j
  | Op.RunTable19 => op_at s_interpreter_op_table19 j
  | Op.RunTable31 => op_at s_interpreter_op_table31 j
  | Op.RunTable59 => op_at s_interpreter_op_table59 (j .& 31)
  | Op.RunTable63 => op_at s_interpreter_op_table63 j
  | _ => result
  end.
Definition info_of (p j : Z) : GekkoOPInfo :=
  let info := info_at (primary_table s_tables) p in
  match type info with
  | OpType.Subtable =>
      if p =? 4 then info_at (table4 s_tables) j
      else if p =? 19 then info_at (table19 s_tables) j
      else if p =? 31 then info_at (table31 s_tables) j
      else if p =? 59 then info_at (table59 s_tables) (j .& 31)
      else if p =? 63 then info_at (table63 s_tables) j
      else nth (unknown_op_info s_tables) (all_instructions s_tables) unknown_info
  | OpType.Invalid => nth (unknown_op_info s_tables) (all_instructions s_tables) unknown_info
  | _ => info
  end.

Lemma SUBOP5_SUBOP10 i : SUBOP5 i = SUBOP10 i .& 31.
Proof.
  unfold SUBOP5, SUBOP10, field. rewrite <- Z.land_assoc. reflexivity.
Qed.

Lemma GetInterpreterOp_fields i : GetInterpreterOp i = op_of (OPCD i) (SUBOP10 i).
Proof. unfold GetInterpreterOp, op_of. by rewrite SUBOP5_SUBOP10. Qed.

Lemma GetOpInfo_fields i : GetOpInfo i = info_of (OPCD i) (SUBOP10 i).
Proof. unfold GetOpInfo, info_of. by rewrite SUBOP5_SUBOP10. Qed.

(** A property of the two decoders that holds for all values of the fields. *)
Definition for_all_opcodes (P : Z -> Z -> bool) : bool :=
  forallb (fun p => forallb (fun j => P (Z.of_nat p) (Z.of_nat j)) (seq 0 1024)) (seq 0 64).

Lemma for_all_opcodes_spec P i : for_all_opcodes P = true -> P (OPCD i) (SUBOP10 i) = true.
Proof.
  unfold for_all_opcodes. intros H.
  pose proof (field_range i 26 6 ltac:(lia)) as Hp. pose proof (field_range i 1 10 ltac:(lia)) as Hj.
  rewrite forallb_forall in H. specialize (H (Z.to_nat (OPCD i))).
  rewrite forallb_forall in H. specialize (fun A => H A (Z.to_nat (SUBOP10 i))).
  rewrite !Z2Nat.id in H by (apply Hp || apply Hj). apply H; rewrite in_seq; unfold OPCD, SUBOP10; lia.
Qed.

Definition is_modelled (op : Op.t) : bool := match run_op op with Some _ => true | None => false end.

Lemma all_covered : for_all_opcodes (fun p j =>
  implb (is_modelled (op_of p j)) (negb (p =? 46) && negb (p =? 47) &&
    covers (op_shape (op_of p j)) (info_of p j) (Z.testbit j 9) ((p =? 31) && (j =? 512)))) = true.
Proof. vm_compute. reflexivity. Qed.

(** ** From flags to places *)

Lemma testbit_with_bit r i set : 0 <= r -> 0 <= i -> Z.testbit (with_bit i set) r = (r =? i) || Z.testbit set r.
Proof.
  intros Hr Hi. unfold with_bit. rewrite Z.lor_spec, Z.shiftl_1_l, Z.pow2_bits_eqb by done.
  rewrite (Z.eqb_sym i r), orb_comm. done.
Qed.

Lemma testbit_set_bit_if b r i set :
  0 <= r -> 0 <= i -> Z.testbit (set_bit_if b i set) r = (b && (r =? i)) || Z.testbit set r.
Proof. intros Hr Hi. unfold set_bit_if. destruct b; [by apply testbit_with_bit|done]. Qed.

Lemma testbit_AllCR k : 0 <= k < 8 -> Z.testbit AllCR k = true.
Proof.
  intros Hk. unfold AllCR. change 255 with (Z.ones 8). rewrite Z.ones_spec_low; [done|lia].
Qed.

Ltac bits := repeat (rewrite testbit_with_bit || rewrite testbit_set_bit_if); try apply field5_range; try lia.

Lemma testbit_regsIn info i r : 0 <= r ->
  OPCD i <> 46 -> OPCD i <> 47 ->
  Z.testbit (regsIn_of info i) r =
    (has_flag info FL_IN_S && (r =? RS i)) || (has_flag info FL_IN_C && (r =? RC i))
    || (has_flag info FL_IN_B && (r =? RB i))
    || ((has_flag info FL_IN_A || (has_flag info FL_IN_A0 && negb (RA i =? 0))) && (r =? RA i)).
Proof.
  intros Hr H46 H47. unfold regsIn_of. cbv zeta.
  destruct (Z.eqb_spec (OPCD i) 46); [done|]. destruct (Z.eqb_spec (OPCD i) 47); [done|].
  bits. rewrite Z.bits_0, orb_false_r, !orb_assoc. done.
Qed.

Lemma testbit_regsOut info i r : 0 <= r -> OPCD i <> 46 ->
  Z.testbit (regsOut_of info i) r =
    (has_flag info FL_OUT_D && (r =? RD i)) || (has_flag info FL_OUT_A && (r =? RA i)).
Proof.
  intros Hr H46. unfold regsOut_of. cbv zeta. destruct (Z.eqb_spec (OPCD i) 46); [done|].
  bits. by rewrite Z.bits_0, orb_false_r.
Qed.

Lemma testbit_fregsIn info i r : 0 <= r ->
  Z.testbit (fregsIn_of info i) r =
    (has_flag info FL_IN_FLOAT_S && (r =? FS i)) || ((has_flag info FL_IN_FLOAT_D && (r =? FD i))
    || ((has_flag info FL_IN_FLOAT_C && (r =? FC i)) || ((has_flag info FL_IN_FLOAT_B && (r =? FB i))
    || (has_flag info FL_IN_FLOAT_A && (r =? FA i))))).
Proof.
  intros Hr. unfold fregsIn_of. bits. by rewrite Z.bits_0, orb_false_r.
Qed.

Ltac field_index :=
  first [lia|exact (proj1 (field3_range _ _))|exact (proj1 (bit_field_range _ _))|exact (proj1 (field5_range _ _))].

Section Covered.
Context (sh : shape) (info : GekkoOPInfo) (i : Z).
Context (Hc : covers sh info (OE i) (is_mcrxr i) = true) (H46 : OPCD i <> 46) (H47 : OPCD i <> 47).

Lemma covers_parts :
  forallb (declared_in info) (s_in sh) = true /\
  has_flag info FL_OUT_A = existsb (operand_eqb OpA) (s_out sh) /\
  has_flag info FL_OUT_D = existsb (operand_eqb OpD) (s_out sh) /\
  forallb (fun o => operand_eqb o OpA || operand_eqb o OpD) (s_out sh) = true /\
  implb (s_ca_in sh) (has_flag info FL_READ_CA) = true /\
  has_flag info FL_SET_CA = s_ca_out sh /\
  crin_ok (s_crin sh) info = true /\ crout_ok (s_crout sh) info = true /\
  implb (s_all sh) (may_leave info) = true /\
  has_flag info FL_SET_OE = s_oe sh && OE i /\ is_mcrxr i = s_so sh /\
  forallb (declared_fin info) (s_fin sh) = true /\ has_flag info FL_OUT_FLOAT_D = s_fout sh /\
  implb (s_rest sh) (touches_rest info) = true.
Proof.
  pose proof Hc as H. unfold covers in H.
  repeat match type of H with _ && _ = true => let H' := fresh in apply andb_prop in H as [H H'] end.
  repeat match goal with H : Bool.eqb _ _ = true |- _ => apply eqb_prop in H end. tauto.
Qed.

Lemma covered_gpr_in r : 0 <= r < 32 ->
  existsb (fun o => operand_used o i && (r =? operand_reg o i)) (s_in sh) = true ->
  Z.testbit (regsIn_of info i) r = true.
Proof.
  destruct covers_parts as (Hin & _). intros Hr He. rewrite testbit_regsIn by (done || lia).
  apply existsb_exists in He as (o & Ho & He). rewrite forallb_forall in Hin. specialize (Hin o Ho).
  apply andb_prop in He as [Hu ->%Z.eqb_eq].
  destruct o; cbn [declared_in operand_used operand_reg] in *; try discriminate; rewrite ?Hin, ?Hu, ?Z.eqb_refl, ?orb_true_r, ?andb_true_r; try done.
  by rewrite Hin, ?orb_true_r.
Qed.

Lemma covered_gpr_out r : 0 <= r < 32 ->
  Z.testbit (regsOut_of info i) r = existsb (fun o => r =? operand_reg o i) (s_out sh).
Proof.
  destruct covers_parts as (_ & Ha & Hd & Ho & _). intros Hr. rewrite testbit_regsOut by (done || lia).
  rewrite Ha, Hd. clear Ha Hd. revert Ho. induction (s_out sh) as [|o os IH]; [done|]. simpl.
  intros [Ho Hos]%andb_prop. specialize (IH Hos).
  destruct o; try discriminate Ho; cbn; rewrite <- IH;
    destruct (r =? RA i), (r =? RD i); rewrite ?orb_true_r, ?andb_true_r, ?orb_false_r, ?andb_false_r; try done;
    destruct (existsb (operand_eqb OpA) os), (existsb (operand_eqb OpD) os); done.
Qed.

Lemma covered_fpr_in r : 0 <= r < 32 ->
  existsb (fun o => r =? foperand_reg o i) (s_fin sh) = true -> Z.testbit (fregsIn_of info i) r = true.
Proof.
  destruct covers_parts as (_ & _ & _ & _ & _ & _ & _ & _ & _ & _ & _ & Hf & _). intros Hr He.
  rewrite testbit_fregsIn by lia.
  apply existsb_exists in He as (o & Ho & ->%Z.eqb_eq). rewrite forallb_forall in Hf. specialize (Hf o Ho).
  destruct o; cbn [declared_fin foperand_reg] in *; rewrite Hf, ?Z.eqb_refl; cbn [andb orb];
    rewrite ?orb_true_r; reflexivity.
Qed.

Lemma covered_cr_in k : 0 <= k < 8 ->
  (match s_crin sh with
   | NoIn => false
   | InF => k =? CRFS i
   | InBI => k =? BI i .>> 2
   | InAll => true
   | InBits => (k =? CRBD i .>> 2) || (k =? CRBB i .>> 2) || (k =? CRBA i .>> 2)
   end) = true -> Z.testbit (crIn_of info i) k = true.
Proof.
  destruct covers_parts as (_ & _ & _ & _ & _ & _ & H & _). intros Hk.
  unfold crin_ok, crin_flags in H. unfold crIn_of. intros Hs.
  destruct (s_crin sh); try discriminate Hs;
    destruct (has_flag info FL_READ_ALL_CR); try discriminate H; try (by apply testbit_AllCR);
    destruct (has_flag info FL_READ_CRn); try discriminate H;
    try destruct (has_flag info FL_READ_CR_BI); try discriminate H;
    try destruct (is_cr_type info); try discriminate H;
    repeat rewrite testbit_with_bit by field_index;
    rewrite ?Z.bits_0, ?orb_false_r, ?orb_assoc; done.
Qed.

Lemma covered_cr_out k : 0 <= k < 8 ->
  Z.testbit (crOut_of info i) k = shape_wr sh i (LCr k).
Proof.
  destruct covers_parts as (_ & _ & _ & _ & _ & _ & _ & H & _). intros Hk.
  unfold crout_ok, crout_flags in H. unfold crOut_of. cbn [shape_wr].
  destruct (s_crout sh), (has_flag info FL_SET_ALL_CR), (has_flag info FL_SET_CRn), (has_flag info FL_SET_CR0),
    (has_flag info FL_RC_BIT), (has_flag info FL_SET_CR1), (has_flag info FL_RC_BIT_F), (is_cr_type info);
    try discriminate H; cbn -[with_bit CRFD CRBD Rc Z.shiftr]; try (by apply testbit_AllCR);
    try destruct (Rc i); cbn -[with_bit CRFD CRBD Z.shiftr]; rewrite ?Z.bits_0; try done;
    rewrite testbit_with_bit by field_index;
    by rewrite Z.bits_0, orb_false_r.
Qed.

Lemma covered_rd l : valid l -> shape_rd sh i l = true -> declared_rd info i l = true.
Proof.
  intros Hl. unfold shape_rd, declared_rd. destruct covers_parts as (_ & _ & _ & _ & Hca & _ & _ & _ & Hall & _ & _ & _ & _ & Hre).
  destruct (s_all sh); [simpl in Hall; by rewrite Hall|]. intros H. apply orb_true_iff. right.
  destruct l; simpl in H, Hl; [by apply covered_gpr_in|by apply covered_cr_in| |done|by apply covered_fpr_in|].
  - by rewrite H in Hca.
  - by rewrite H in Hre.
Qed.

Lemma covered_wr l : valid l -> l <> LRest -> written info i l = shape_wr sh i l.
Proof.
  intros Hl Hne. destruct covers_parts as (_ & _ & _ & _ & _ & Hca & _ & _ & _ & Hoe & Hso & _ & Hf & _).
  destruct l; simpl in Hl |- *; [by apply covered_gpr_out|by apply covered_cr_out|done| | |done].
  - rewrite Hoe, Hso. apply orb_comm.
  - by rewrite Hf.
Qed.

End Covered.

Lemma testbit_SUBOP10_OE i : Z.testbit (SUBOP10 i) 9 = OE i.
Proof. unfold SUBOP10, field, OE, bit_at. rewrite Z.land_spec, Z.shiftr_spec by lia. apply andb_true_r. Qed.

Lemma declared_footprint i :
  is_u32 i -> modelled i = true -> footprint (exec i) (declared_rd (GetOpInfo i) i) (written (GetOpInfo i) i).
Proof.
  intros Hi Hm.
  pose proof (for_all_opcodes_spec _ i all_covered) as H. cbv beta in H.
  rewrite <- GetInterpreterOp_fields, <- GetOpInfo_fields in H.
  rewrite testbit_SUBOP10_OE in H. fold (is_mcrxr i) in H.
  unfold modelled in Hm. unfold is_modelled in H. destruct (run_op (GetInterpreterOp i)) as [f|] eqn:Ef; [|done].
  apply andb_prop in H as [H Hc]. apply andb_prop in H as [H46 H47].
  apply negb_true_iff, Z.eqb_neq in H46, H47.
  assert (Hx : exec i = f i) by (unfold exec; by rewrite Ef). rewrite Hx.
  eapply footprint_widen; [eapply footprint_weaken; [exact (op_footprint _ f i Ef Hi)|]| |].
  - intros l Hl. by apply (covered_rd _ _ _ Hc).
  - intros l Hl Hw. destruct l as [| | | | |]; try by rewrite (covered_wr _ _ _ Hc).
    destruct (covers_parts _ _ _ Hc) as (_ & _ & _ & _ & _ & _ & _ & _ & _ & _ & _ & _ & _ & Hre).
    cbn [shape_wr written declared_wr] in *. by rewrite Hw in Hre.
  - intros l Hl Hw Hn. destruct l as [| | | | |]; try (rewrite (covered_wr _ _ _ Hc) in Hw; congruence).
    unfold declared_rd. cbn [written declared_wr] in Hw. by rewrite Hw, orb_true_r.
Qed.
