(* ===== verification/PPCReorder.v ===== *)
(** * Reordering keeps what a block computes

    The instructions the analysis moves past each other commute; hence the code of
    an analyzed block computes what the scanned code computes, in program order.
    The one instruction for which this fails is [mcrxr]. *)
From S2P Require Export PPCDeclared.

(** ** Running a block *)

(** The program counter is that of the instruction, wherever it stands in the block. *)
Definition at_pc (addr : Z) (s : PowerPCState) : PowerPCState := set_npc (u32 (addr + 4)) (set_pc addr s).
Definition run_one (op : CodeOp) (s : PowerPCState) : PowerPCState := exec (inst op) (at_pc (address op) s).
Definition run_block (code : list CodeOp) (s : PowerPCState) : PowerPCState := fold_left (fun s op => run_one op s) code s.

(** Equality up to the program counter. *)
Definition same_but_pc (s t : PowerPCState) : Prop := at_pc 0 s = at_pc 0 t.

#[export] Instance same_but_pc_equivalence : Equivalence same_but_pc.
Proof. split; [done|by intros s t H; symmetry|]. intros s t u. unfold same_but_pc. congruence. Qed.

Lemma at_pc_at_pc a b s : at_pc a (at_pc b s) = at_pc a s.
Proof. done. Qed.

Lemma same_but_pc_at s t a : same_but_pc s t -> at_pc a s = at_pc a t.
Proof. intros H. rewrite <- (at_pc_at_pc a 0 s), <- (at_pc_at_pc a 0 t). by f_equal. Qed.

Lemma at_pc_same a s : same_but_pc (at_pc a s) s.
Proof. done. Qed.

#[export] Instance run_block_proper code : Proper (same_but_pc ==> same_but_pc) (run_block code).
Proof.
  induction code as [|op code IH]; intros s t H; [done|]. simpl. apply IH.
  unfold run_one. by rewrite (same_but_pc_at s t _ H).
Qed.

Lemma run_block_app c d s : run_block (c ++ d) s = run_block d (run_block c s).
Proof. apply fold_left_app. Qed.

(** ** Analyzed instructions *)

(** What the scan knows of an instruction, as far as reordering and liveness use it. *)
Record analyzed (a : Analyzer) (op : CodeOp) : Prop := mkAnalyzed {
  an_inst : is_u32 (inst op);
  an_address : is_u32 (address op);
  an_info : opinfo op = GetOpInfo (inst op);
  an_regsIn : regsIn (stats op) = regsIn_of (opinfo op) (inst op);
  an_regsOut : regsOut (stats op) = regsOut_of (opinfo op) (inst op);
  an_crIn : crIn (stats op) = crIn_of (opinfo op) (inst op);
  an_crOut : crOut (stats op) = crOut_of (opinfo op) (inst op);
  an_fregsIn : fregsIn (stats op) = fregsIn_of (opinfo op) (inst op);
  an_fregOut : fregOut (stats op) = if has_flag (opinfo op) FL_OUT_FLOAT_D then FD (inst op) else -1;
  an_canEndBlock : canEndBlock (stats op) = InstructionCanEndBlock (opinfo op) (inst op);
  an_canCauseException :
    has_flag (opinfo op) (FL_LOADSTORE .| FL_PROGRAMEXCEPTION) = true -> canCauseException (stats op) = true
}.

(** A modelled instruction other than [mcrxr]. *)
Definition plain (op : CodeOp) : Prop := modelled (inst op) = true /\ is_mcrxr (inst op) = false.

Lemma run_one_wf a op s : analyzed a op -> wf s -> wf (run_one op s).
Proof.
  intros Ha Hs. apply exec_keeps; [apply Ha|]. unfold at_pc. pose proof (an_address a op Ha). ppc.
Qed.

Lemma run_block_wf a code s : Forall (analyzed a) code -> wf s -> wf (run_block code s).
Proof.
  intros Hc. revert s. induction Hc as [|op code Hop Hc IH]; intros s Hs; [done|].
  apply IH. by apply (run_one_wf a).
Qed.

Lemma at_pc_footprint addr :
  is_u32 addr -> footprint (at_pc addr) (fun l => place_eqb l LRest) (fun l => place_eqb l LRest).
Proof.
  intros Ha. split.
  - intros s Hs. unfold at_pc. ppc.
  - intros s l _ _ Hl. by destruct l.
  - intros s t l _ _ H _ Hl. destruct l; try done.
    specialize (H LRest Logic.I eq_refl). simpl in *. unfold at_pc.
    exact (f_equal (fun u => set_npc (u32 (addr + 4)) (set_pc addr u)) H).
Qed.

Lemma land_zero_testbit x y n : x .& y = 0 -> Z.testbit x n = true -> Z.testbit y n = false.
Proof.
  intros H Hx. destruct (Z.testbit y n) eqn:Hy; [|done].
  assert (Z.testbit (x .& y) n = true) as E by (by rewrite Z.land_spec, Hx, Hy). by rewrite H, Z.bits_0 in E.
Qed.

Lemma nonempty_false x : nonempty x = false -> x = 0.
Proof. unfold nonempty. intros H%negb_false_iff%Z.eqb_eq. done. Qed.

(** ** Instructions that may be swapped commute *)

Section Swap.
Context {E : AnalystEnv} (an : Analyzer).

Lemma has_flag_lor_false info f g : has_flag info (f .| g) = false -> has_flag info f = false /\ has_flag info g = false.
Proof.
  unfold has_flag. rewrite Z.land_lor_distr_r. intros H%negb_false_iff%Z.eqb_eq%Z.lor_eq_0_iff.
  destruct H as [-> ->]. done.
Qed.

Lemma can_swap_parts op_a op_b :
  CanSwapAdjacentOps an op_a op_b = true ->
  let sa := stats op_a in let sb := stats op_b in
  canCauseException sa = false /\ canCauseException sb = false /\ canEndBlock sa = false /\ canEndBlock sb = false /\
  has_flag (opinfo op_a) FL_SET_OE = false /\ has_flag (opinfo op_b) FL_SET_OE = false /\
  (has_flag (opinfo op_a) (FL_SET_CA .| FL_READ_CA) && has_flag (opinfo op_b) (FL_SET_CA .| FL_READ_CA) = false) /\
  is_integer_type (opinfo op_b) = true /\
  regsOut sb .& regsIn sa = 0 /\ crOut sb .& crIn sa = 0 /\ regsOut sa .& regsIn sb = 0 /\ crOut sa .& crIn sb = 0 /\
  regsOut sb .& regsOut sa = 0 /\ crOut sb .& crOut sa = 0.
Proof.
  unfold CanSwapAdjacentOps. cbv zeta.
  set (u := FL_TIMER .| FL_NO_REORDER .| FL_SET_OE).
  repeat match goal with |- (if ?b then false else _) = true -> _ => destruct b eqn:?; [done|] end.
  intros Hlast.
  repeat match goal with
  | H : _ || _ = false |- _ => apply orb_false_elim in H as [? ?]
  | H : nonempty _ = false |- _ => apply nonempty_false in H
  | H : negb _ = false |- _ => apply negb_false_iff in H
  | H : negb _ = true |- _ => apply negb_true_iff in H
  | H : has_flag _ u = false |- _ => apply has_flag_lor_false in H as [_ ?]
  end. tauto.
Qed.

Lemma may_leave_false op :
  analyzed an op -> modelled (inst op) = true -> canEndBlock (stats op) = false -> canCauseException (stats op) = false ->
  may_leave (opinfo op) = false.
Proof.
  intros Ha Hm He Hx. unfold may_leave.
  assert (Hls : has_flag (opinfo op) (FL_LOADSTORE .| FL_PROGRAMEXCEPTION) = false).
  { destruct (has_flag _ _) eqn:H; [|done]. by rewrite (an_canCauseException _ _ Ha H) in Hx. }
  apply has_flag_lor_false in Hls as [H1 H2].
  rewrite (an_canEndBlock _ _ Ha) in He. unfold InstructionCanEndBlock in He.
  assert (Ht : IsMtspr (inst op) = false).
  { destruct (IsMtspr (inst op)) eqn:Ht; [|done]. unfold IsMtspr in Ht. apply andb_prop in Ht as [H31 H467].
    apply Z.eqb_eq in H31, H467. unfold modelled in Hm. rewrite GetInterpreterOp_fields, H31, H467 in Hm.
    by vm_compute in Hm. }
  rewrite Ht in He. simpl in He. rewrite andb_true_r in He.
  unfold has_flag in *. apply negb_false_iff, Z.eqb_eq in He, H1, H2. apply negb_false_iff, Z.eqb_eq.
  by rewrite !Z.land_lor_distr_r, He, H1, H2.
Qed.

Lemma disjoint_wr_rd x y l :
  analyzed an x -> analyzed an y -> may_leave (opinfo y) = false -> valid l ->
  regsOut (stats x) .& regsIn (stats y) = 0 -> crOut (stats x) .& crIn (stats y) = 0 ->
  has_flag (opinfo x) (FL_SET_CA .| FL_READ_CA) && has_flag (opinfo y) (FL_SET_CA .| FL_READ_CA) = false ->
  has_flag (opinfo x) FL_SET_OE = false -> is_mcrxr (inst x) = false ->
  (match l with LPs _ | LRest => written (opinfo x) (inst x) l = true -> declared_rd (opinfo y) (inst y) l = false
   | _ => True end) ->
  written (opinfo x) (inst x) l = true -> declared_rd (opinfo y) (inst y) l = false.
Proof.
  intros Hx Hy Hl Hv Hr Hc Hca Hoe Hso Hother Hw.
  destruct l; try (by apply Hother); unfold declared_rd; rewrite Hl; cbn [orb]; cbn [written declared_wr] in Hw.
  - rewrite <- (an_regsIn _ _ Hy). apply (land_zero_testbit _ _ _ Hr). by rewrite (an_regsOut _ _ Hx).
  - rewrite <- (an_crIn _ _ Hy). apply (land_zero_testbit _ _ _ Hc). by rewrite (an_crOut _ _ Hx).
  - destruct (has_flag (opinfo y) FL_READ_CA) eqn:Er; [|done].
    assert (has_flag (opinfo x) (FL_SET_CA .| FL_READ_CA) = true) as Ex.
    { destruct (has_flag (opinfo x) (FL_SET_CA .| FL_READ_CA)) eqn:Ex; [done|].
      apply has_flag_lor_false in Ex as [Ex _]. congruence. }
    rewrite Ex in Hca. simpl in Hca. apply has_flag_lor_false in Hca as [_ Hca]. congruence.
  - by rewrite Hoe, Hso in Hw.
Qed.

Lemma disjoint_wr_wr x y l :
  analyzed an x -> analyzed an y ->
  regsOut (stats x) .& regsOut (stats y) = 0 -> crOut (stats x) .& crOut (stats y) = 0 ->
  has_flag (opinfo x) (FL_SET_CA .| FL_READ_CA) && has_flag (opinfo y) (FL_SET_CA .| FL_READ_CA) = false ->
  has_flag (opinfo y) FL_SET_OE = false -> is_mcrxr (inst y) = false ->
  (match l with LPs _ | LRest => written (opinfo x) (inst x) l = true -> written (opinfo y) (inst y) l = false
   | _ => True end) ->
  written (opinfo x) (inst x) l = true -> written (opinfo y) (inst y) l = false.
Proof.
  intros Hx Hy Hr Hc Hca Hoe Hso Hother Hw.
  destruct l; try (by apply Hother); cbn [written declared_wr] in *.
  - rewrite <- (an_regsOut _ _ Hy). rewrite <- (an_regsOut _ _ Hx) in Hw. by apply (land_zero_testbit _ _ _ Hr).
  - rewrite <- (an_crOut _ _ Hy). rewrite <- (an_crOut _ _ Hx) in Hw. by apply (land_zero_testbit _ _ _ Hc).
  - destruct (has_flag (opinfo y) FL_SET_CA) eqn:Ey; [|done].
    destruct (has_flag (opinfo x) (FL_SET_CA .| FL_READ_CA)) eqn:Ex.
    + simpl in Hca. apply has_flag_lor_false in Hca as [Hca _]. congruence.
    + apply has_flag_lor_false in Ex as [Ex _]. congruence.
  - by rewrite Hoe, Hso.
Qed.

(** An integer instruction has nothing to do with floating-point registers. *)
Lemma integer_no_fpr op : analyzed an op -> modelled (inst op) = true -> is_integer_type (opinfo op) = true ->
  forall r, declared_rd (opinfo op) (inst op) (LPs r) = may_leave (opinfo op) /\ written (opinfo op) (inst op) (LPs r) = false.
Proof.
  intros Ha Hm Ht r. unfold declared_rd, written, declared_wr.
  assert (H : for_all_opcodes (fun p j => implb (is_integer_type (info_of p j))
    (negb (has_flag (info_of p j) (FL_IN_FLOAT_A .| FL_IN_FLOAT_B .| FL_IN_FLOAT_C .| FL_IN_FLOAT_S .| FL_IN_FLOAT_D
      .| FL_OUT_FLOAT_D)))) = true) by (vm_compute; reflexivity).
  apply (for_all_opcodes_spec _ (inst op)) in H. cbv beta in H. rewrite <- GetOpInfo_fields, <- (an_info _ _ Ha), Ht in H.
  cbn [implb] in H. apply negb_true_iff in H.
  repeat apply has_flag_lor_false in H as [H ?]. unfold fregsIn_of, set_bit_if.
  repeat match goal with E : has_flag _ _ = false |- _ => rewrite E; clear E end.
  rewrite Z.bits_0. by rewrite orb_false_r.
Qed.

(** The places of an integer instruction that stays in its block. *)
Lemma integer_places op : analyzed an op -> modelled (inst op) = true -> is_integer_type (opinfo op) = true ->
  may_leave (opinfo op) = false -> forall l, (match l with LPs _ | LRest => True | _ => False end) ->
  declared_rd (opinfo op) (inst op) l = false /\ written (opinfo op) (inst op) l = false.
Proof.
  intros Ha Hm Ht Hl l Hp. destruct l; try done.
  - destruct (integer_no_fpr _ Ha Hm Ht i) as [-> ->]. done.
  - unfold declared_rd, written, declared_wr, touches_rest. by rewrite Hl, Ht.
Qed.

Lemma exec_commute op_a op_b t :
  analyzed an op_a -> analyzed an op_b -> plain op_a -> plain op_b -> CanSwapAdjacentOps an op_a op_b = true -> wf t ->
  exec (inst op_a) (exec (inst op_b) t) = exec (inst op_b) (exec (inst op_a) t).
Proof.
  intros Ha Hb [Hma Hsa] [Hmb Hsb] Hswap.
  destruct (can_swap_parts _ _ Hswap) as (Xa & Xb & Ea & Eb & Oa & Ob & Ca & Tb & R1 & C1 & R2 & C2 & R3 & C3).
  pose proof (may_leave_false _ Ha Hma Ea Xa) as La. pose proof (may_leave_false _ Hb Hmb Eb Xb) as Lb.
  pose proof (declared_footprint _ (an_inst _ _ Ha) Hma) as Fa. rewrite <- (an_info _ _ Ha) in Fa.
  pose proof (declared_footprint _ (an_inst _ _ Hb) Hmb) as Fb. rewrite <- (an_info _ _ Hb) in Fb.
  pose proof (integer_places _ Hb Hmb Tb Lb) as Pb.
  pose proof Ca as Cb. rewrite andb_comm in Cb.
  apply (footprint_commute _ _ _ _ _ _ Fa Fb).
  - intros l Hl Hw. split.
    + apply (disjoint_wr_rd op_a op_b); try done. destruct l; try done; intros _; by apply Pb.
    + rewrite Z.land_comm in R3, C3. apply (disjoint_wr_wr op_a op_b); try done.
      destruct l; try done; intros _; by apply Pb.
  - assert (N : forall l, (match l with LPs _ | LRest => True | _ => False end) ->
      written (opinfo op_b) (inst op_b) l = true -> False).
    { intros l Hl Hw. destruct (Pb l Hl) as [_ Hn]. congruence. }
    intros l Hl Hw. split.
    + apply (disjoint_wr_rd op_b op_a); try done. destruct l; try done; exfalso; refine (N _ _ Hw); exact Logic.I.
    + apply (disjoint_wr_wr op_b op_a); try done. destruct l; try done; exfalso; refine (N _ _ Hw); exact Logic.I.
Qed.

Lemma exec_at_pc op_b p t :
  analyzed an op_b -> modelled (inst op_b) = true -> is_integer_type (opinfo op_b) = true ->
  may_leave (opinfo op_b) = false -> is_u32 p -> wf t ->
  exec (inst op_b) (at_pc p t) = at_pc p (exec (inst op_b) t).
Proof.
  intros Hb Hm Ht Hl Hp. destruct (integer_places _ Hb Hm Ht Hl LRest Logic.I) as [R W].
  pose proof (declared_footprint _ (an_inst _ _ Hb) Hm) as Fb. rewrite <- (an_info _ _ Hb) in Fb.
  apply (footprint_commute _ _ _ _ _ _ Fb (at_pc_footprint p Hp)).
  - intros l _ Hw. destruct l; try done. congruence.
  - intros l _ Hw. destruct l; try done.
Qed.

Lemma swap_commute op_a op_b s :
  analyzed an op_a -> analyzed an op_b -> plain op_a -> plain op_b -> CanSwapAdjacentOps an op_a op_b = true -> wf s ->
  same_but_pc (run_one op_a (run_one op_b s)) (run_one op_b (run_one op_a s)).
Proof.
  intros Ha Hb Pa Pb Hswap Hs.
  destruct (can_swap_parts _ _ Hswap) as (_ & Xb & _ & Eb & _ & _ & _ & Tb & _).
  pose proof (may_leave_false _ Hb (proj1 Pb) Eb Xb) as Lb.
  assert (Cpb : forall p t, is_u32 p -> wf t -> exec (inst op_b) (at_pc p t) = at_pc p (exec (inst op_b) t)).
  { intros p t. apply exec_at_pc; try done. apply Pb. }
  unfold run_one. pose proof (an_address _ _ Ha) as Aa. pose proof (an_address _ _ Hb) as Ab.
  assert (Hws : wf (at_pc (address op_a) s)) by (unfold at_pc; ppc).
  assert (Hwa : wf (exec (inst op_a) (at_pc (address op_a) s))) by (apply exec_keeps; [apply Ha|done]).
  rewrite (Cpb (address op_b) s), (Cpb (address op_b)) by done. rewrite at_pc_at_pc.
  rewrite <- (Cpb (address op_a) s) by done. rewrite exec_commute by done.
  symmetry. apply at_pc_same.
Qed.

(** ** The loop moves instructions by such swaps only, and ends *)

(** Two neighbours that may be swapped, in either order, change places. *)
Definition swap_step (c d : list CodeOp) : Prop :=
  exists l x y r, c = l ++ x :: y :: r /\ d = l ++ y :: x :: r /\
    (CanSwapAdjacentOps an x y = true \/ CanSwapAdjacentOps an y x = true).

Lemma swap_step_length c d : swap_step c d -> length d = length c.
Proof. intros (l & x & y & r & -> & -> & _). by rewrite !length_app. Qed.

Lemma rtc_swap_length c d : rtc swap_step c d -> length d = length c.
Proof. induction 1 as [|c d d2 H _ IH]; [done|]. rewrite IH. by apply swap_step_length. Qed.

Lemma split_at_two (c : list CodeOp) k : (S k < length c)%nat ->
  exists l x y r, c = l ++ x :: y :: r /\ length l = k.
Proof.
  intros Hk. pose proof (take_drop k c) as Etd.
  destruct (drop k c) as [|x [|y r]] eqn:Ed.
  - apply (f_equal length) in Ed. rewrite length_drop in Ed. simpl in Ed. lia.
  - apply (f_equal length) in Ed. rewrite length_drop in Ed. simpl in Ed. lia.
  - exists (take k c), x, y, r. split; [done|]. rewrite length_take. lia.
Qed.

Lemma op_nth_app l x r : op_nth (l ++ x :: r) (Z.of_nat (length l)) = x.
Proof. unfold op_nth. by rewrite Nat2Z.id, app_nth2, Nat.sub_diag by lia. Qed.

Lemma op_nth_app1 l x y r : op_nth (l ++ x :: y :: r) (Z.of_nat (length l) + 1) = y.
Proof.
  unfold op_nth. rewrite app_nth2 by lia.
  replace (Z.to_nat (Z.of_nat (length l) + 1) - length l)%nat with 1%nat by lia. done.
Qed.

Lemma swap_ops_up l x y r :
  swap_ops (Z.of_nat (length l)) (Z.of_nat (length l) + 1) (l ++ x :: y :: r) = l ++ y :: x :: r.
Proof.
  unfold swap_ops. rewrite op_nth_app, op_nth_app1, Nat2Z.id.
  replace (Z.to_nat (Z.of_nat (length l) + 1)) with (length l + 1)%nat by lia.
  rewrite <- (Nat.add_0_r (length l)) at 2. rewrite insert_app_r. simpl. by rewrite insert_app_r.
Qed.

Lemma swap_ops_down l x y r :
  swap_ops (Z.of_nat (length l) + 1) (Z.of_nat (length l)) (l ++ x :: y :: r) = l ++ y :: x :: r.
Proof.
  unfold swap_ops. rewrite op_nth_app, op_nth_app1, Nat2Z.id.
  replace (Z.to_nat (Z.of_nat (length l) + 1)) with (length l + 1)%nat by lia.
  rewrite insert_app_r. simpl. rewrite <- (Nat.add_0_r (length l)) at 1. by rewrite insert_app_r.
Qed.

Section Loop.
Context (n : Z) (t : ReorderType) (reverse : bool).

(** The [j]th place visited. *)
Definition place_at (j : Z) : Z := if reverse then n - 1 - j else j.
Abbreviation increment := (if reverse then -1 else 1).

Lemma swap_ops_step code j :
  Z.of_nat (length code) = n -> 0 <= j < n - 1 ->
  CanSwapAdjacentOps an (op_nth code (place_at j)) (op_nth code (place_at j + increment)) = true ->
  swap_step code (swap_ops (place_at j) (place_at j + increment) code).
Proof.
  intros Hn Hj Hs. unfold place_at in *. destruct reverse.
  - destruct (split_at_two code (Z.to_nat (n - 2 - j))) as (l & x & y & r & -> & Hl); [lia|].
    replace (n - 1 - j) with (Z.of_nat (length l) + 1) in * by lia.
    replace (Z.of_nat (length l) + 1 + -1) with (Z.of_nat (length l)) in * by lia.
    rewrite op_nth_app1, op_nth_app in Hs. rewrite swap_ops_down. exists l, x, y, r. auto.
  - destruct (split_at_two code (Z.to_nat j)) as (l & x & y & r & -> & Hl); [lia|].
    replace j with (Z.of_nat (length l)) in * by lia.
    rewrite op_nth_app1, op_nth_app in Hs. rewrite swap_ops_up. exists l, x, y, r. auto.
Qed.

(** [next] is the place after the last one reached going forward; [i] is behind it. *)
Lemma reorder_loop_ok fuel : forall i next back code,
  Z.of_nat (length code) = n -> 0 <= next <= n - 1 -> (back = true -> 1 <= i < next) ->
  (n - next) * n + (if back then i else 0) < Z.of_nat fuel ->
  exists code', reorder_loop an fuel t reverse (place_at 0) (place_at (n - 1)) increment (place_at i) (place_at next) back code
    = Some code' /\ rtc swap_step code code'.
Proof.
  induction fuel as [|fuel IH]; intros i next back code Hn Hnext Hback Hfuel; [destruct back; nia|].
  assert (Hinj : forall j k, (place_at j =? place_at k) = (j =? k)).
  { intros j k. unfold place_at. destruct reverse; [|done].
    destruct (Z.eqb_spec (n - 1 - j) (n - 1 - k)), (Z.eqb_spec j k); lia. }
  assert (Hinc : forall j, place_at j + increment = place_at (j + 1)) by (intros j; unfold place_at; destruct reverse; lia).
  assert (Hdec : forall j, place_at j - increment = place_at (j - 1)) by (intros j; unfold place_at; destruct reverse; lia).
  (* the place looked at and the next one *)
  set (j := if back then i - 1 else next). set (next' := if back then next else next + 1).
  assert (Hj : 0 <= j <= n - 1) by (unfold j; destruct back; [specialize (Hback eq_refl); lia|lia]).
  simpl. replace (if back then (place_at i - increment, place_at next) else (place_at next, place_at next + increment))
    with (place_at j, place_at next') by (unfold j, next'; destruct back; by rewrite ?Hinc, ?Hdec).
  rewrite !Hinj, Hinc, Hdec. destruct (Z.eqb_spec j (n - 1)) as [|Hne].
  { exists code. split; [done|constructor]. }
  assert (Hnext' : 0 <= next' <= n - 1).
  { unfold j, next' in *. destruct back; [specialize (Hback eq_refl)|]; lia. }
  assert (Hlt : j < next') by (unfold j, next'; destruct back; [specialize (Hback eq_refl)|]; lia).
  assert (Hless : (n - next') * n + j < Z.of_nat fuel).
  { unfold j, next' in *. destruct back; [specialize (Hback eq_refl)|]; nia. }
  assert (Hgo : forall code', length code' = length code -> exists code'',
    reorder_loop an fuel t reverse (place_at 0) (place_at (n - 1)) increment (place_at j) (place_at next') false code'
      = Some code'' /\ rtc swap_step code' code'').
  { intros code' Hl. apply IH; [by rewrite Hl|done|done|lia]. }
  destruct (movable _ _); [|by apply Hgo]. destruct (_ && _); [by apply Hgo|].
  destruct (CanSwapAdjacentOps _ _ _) eqn:Hswap; [|by apply Hgo].
  rewrite <- (Hinc j) in Hswap. assert (Hstep := swap_ops_step code j Hn ltac:(lia) Hswap). rewrite Hinc in Hstep.
  pose proof (swap_step_length _ _ Hstep) as Hl.
  destruct (Z.eqb_spec j 0); cbn [negb].
  - destruct (Hgo _ Hl) as (code' & -> & Hr). exists code'. split; [done|]. by apply rtc_l with (2 := Hr).
  - destruct (IH j next' true (swap_ops (place_at j) (place_at (j + 1)) code)) as (code' & -> & Hr);
      [by rewrite Hl|done|lia|simpl; lia|].
    exists code'. split; [done|]. by apply rtc_l with (2 := Hr).
Qed.

End Loop.

Lemma ReorderInstructionsCore_ok code reverse t : (0 < length code)%nat ->
  exists code', ReorderInstructionsCore an (length code) code reverse t = Some code' /\ rtc swap_step code code'.
Proof.
  intros Hn. unfold ReorderInstructionsCore, reorder_fuel.
  destruct (reorder_loop_ok (Z.of_nat (length code)) t reverse (length code * (length code + 1)) 0 0 false code)
    as (code' & Hc & Hr); [done|lia|done|lia|].
  exists code'. split; [|done]. rewrite <- Hc. unfold place_at. destruct reverse; [by rewrite Z.sub_0_r, Z.sub_diag|done].
Qed.

Lemma ReorderInstructions_ok code : (0 < length code)%nat ->
  exists code', ReorderInstructions an (length code) code = Some code' /\ rtc swap_step code code'.
Proof.
  intros Hn. unfold ReorderInstructions.
  assert (Hpass : forall (b : bool) c reverse t, length c = length code -> exists c',
    (if b then ReorderInstructionsCore an (length code) c reverse t else Some c) = Some c' /\ rtc swap_step c c').
  { intros [] c reverse t Hl; [|by exists c]. rewrite <- Hl. apply ReorderInstructionsCore_ok. lia. }
  assert (H1 : exists c1, (if HasOption an OPTION_CARRY_MERGE then
      c ← ReorderInstructionsCore an (length code) code false Carry; ReorderInstructionsCore an (length code) c true Carry
    else Some code) = Some c1 /\ rtc swap_step code c1).
  { destruct (HasOption an OPTION_CARRY_MERGE); [|by exists code].
    destruct (Hpass true code false Carry eq_refl) as (c & Ec & Rc). rewrite Ec. simpl.
    destruct (Hpass true c true Carry (rtc_swap_length _ _ Rc)) as (c' & Ec' & Rc').
    exists c'. split; [done|]. by transitivity c. }
  destruct H1 as (c1 & -> & R1). simpl. pose proof (rtc_swap_length _ _ R1) as L1.
  destruct (Hpass (HasOption an OPTION_BRANCH_MERGE) c1 false CMP L1) as (c2 & -> & R2). simpl.
  pose proof (rtc_swap_length _ _ R2) as L2.
  destruct (Hpass (HasOption an OPTION_CROR_MERGE) c2 true CROR ltac:(congruence)) as (c3 & -> & R3).
  exists c3. split; [done|]. transitivity c1; [done|]. by transitivity c2.
Qed.

(** ** Swaps keep the results *)

Lemma swap_step_permutation c d : swap_step c d -> c ≡ₚ d.
Proof. intros (l & x & y & r & -> & -> & _). apply Permutation_app_head. constructor. Qed.

Lemma rtc_swap_permutation c d : rtc swap_step c d -> c ≡ₚ d.
Proof. induction 1 as [|c d d2 H _ IH]; [done|]. etrans; [by apply swap_step_permutation|done]. Qed.

Lemma swap_step_run c d s :
  swap_step c d -> Forall (analyzed an) c -> Forall plain c -> wf s -> same_but_pc (run_block d s) (run_block c s).
Proof.
  intros (l & x & y & r & -> & -> & Hxy) Ha Hp Hs. rewrite !run_block_app. simpl.
  apply Forall_app in Ha as [Hal Ha]. apply Forall_app in Hp as [_ Hp].
  inversion_clear Ha as [|? ? Hax Ha']. inversion_clear Ha' as [|? ? Hay _].
  inversion_clear Hp as [|? ? Hpx Hp']. inversion_clear Hp' as [|? ? Hpy _].
  pose proof (run_block_wf an l s Hal Hs) as Hw.
  apply run_block_proper. destruct Hxy as [Hxy|Hxy].
  - apply (swap_commute x y); done.
  - symmetry. apply (swap_commute y x); done.
Qed.

Lemma rtc_swap_run c d s :
  rtc swap_step c d -> Forall (analyzed an) c -> Forall plain c -> wf s -> same_but_pc (run_block d s) (run_block c s).
Proof.
  intros Hr. induction Hr as [|c d d2 H _ IH]; intros Ha Hp Hs; [done|].
  pose proof (swap_step_permutation _ _ H) as Pm.
  transitivity (run_block d s).
  - apply IH; [by rewrite <- Pm|by rewrite <- Pm|done].
  - by apply swap_step_run.
Qed.

End Swap.
