(* ===== verification/PPCBlocks.v ===== *)
(** * Analyzed blocks

    The whole of [Analyze]: it ends, and the code it returns computes what the
    scanned instructions compute in program order. *)
From S2P Require Export PPCReorder.

(** Instructions that are read are 32-bit words. *)
Class AnalystEnvOk (E : AnalystEnv) : Prop :=
  TryReadInstruction_u32 a hex physical : TryReadInstruction a = Some (hex, physical) -> is_u32 hex.

Section Blocks.
Context {E : AnalystEnv} {Eok : AnalystEnvOk E} (an : Analyzer).

(** ** The scan *)

Lemma branchTo_of_u32 addr i : is_u32 (branchTo_of addr i).
Proof. unfold branchTo_of, UINT32_MAX. repeat case_match; ppc. Qed.

(** An analyzed instruction whose branch target is an address. *)
Definition scanned_op (op : CodeOp) : Prop := analyzed an op /\ is_u32 (branchTo (stats op)).

Lemma scanned_set_branchTo v op : is_u32 v -> scanned_op op -> scanned_op (set_stats (set_branchTo v (stats op)) op).
Proof. intros Hv [[] _]. by split. Qed.
Lemma scanned_set_skip b op : scanned_op op -> scanned_op (set_skip b op).
Proof. intros [[] ?]. by split. Qed.
Lemma scanned_set_skipLRStack b op : scanned_op op -> scanned_op (set_skipLRStack b op).
Proof. intros [[] ?]. by split. Qed.
Lemma scanned_set_idle b op : scanned_op op -> scanned_op (set_idle b op).
Proof. intros [[] ?]. by split. Qed.

Lemma new_op_scanned fpa hex addr :
  is_u32 hex -> is_u32 addr ->
  scanned_op (mkCodeOp hex (GetOpInfo hex) addr (fst (SetInstructionStats an fpa (GetOpInfo hex) addr hex))
    false false false no_needs no_fprs).
Proof.
  intros Hh Ha. split; [constructor; try done|apply branchTo_of_u32].
  cbn [stats opinfo fst SetInstructionStats canCauseException]. intros ->. by rewrite orb_true_r.
Qed.

Lemma op_nth_scanned code i : Forall scanned_op code -> (i < length code)%nat -> scanned_op (op_nth code (Z.of_nat i)).
Proof.
  intros Hc Hi. unfold op_nth. rewrite Nat2Z.id, nth_lookup.
  destruct (lookup_lt_is_Some_2 code i Hi) as [op Hop]. rewrite Hop. exact (Forall_lookup_1 _ _ _ _ Hc Hop).
Qed.

(** The registers of an instruction are not touched by following a branch. *)
Lemma follow_branch_ok size i code call caller follows fol call' caller' code' :
  follow_branch an size i code call caller follows = (fol, call', caller', code') ->
  Forall scanned_op code -> (i < length code)%nat -> (caller < length code)%nat ->
  Forall scanned_op code' /\ length code' = length code /\ (caller' < length code)%nat.
Proof.
  intros H Hc Hi Hl. unfold follow_branch in H. cbv zeta in H.
  pose proof (op_nth_scanned code i Hc Hi) as Hop. pose proof (op_nth_scanned code caller Hc Hl) as Hcl.
  set (target := u32 (address (op_nth code (Z.of_nat caller)) + 4)) in H.
  assert (Ht : is_u32 target) by (unfold target; ppc).
  repeat (case_match; simplify_eq); rewrite ?length_insert; repeat split; auto;
    repeat apply Forall_insert; auto using scanned_set_skip, scanned_set_branchTo, scanned_set_skipLRStack.
  apply scanned_set_skipLRStack, op_nth_scanned; [|by rewrite length_insert].
  apply Forall_insert; auto using scanned_set_skip, scanned_set_branchTo.
Qed.

Record scan_ok (sc : Scan) : Prop := {
  so_code : Forall scanned_op (sc_code sc);
  so_address : is_u32 (sc_address sc);
  so_caller : sc_code sc = [] /\ sc_caller sc = 0%nat \/ (sc_caller sc < length (sc_code sc))%nat
}.

Lemma scan_inst_ok block size hex physical sc sc' on :
  scan_ok sc -> is_u32 hex ->
  scan_inst an block size (length (sc_code sc)) hex physical sc = (sc', on) -> scan_ok sc'.
Proof.
  intros [Hc Ha Hcl] Hh. unfold scan_inst. cbv zeta.
  pose proof (new_op_scanned (sc_fpa_any sc) hex (sc_address sc) Hh Ha) as Hnew.
  destruct (SetInstructionStats an (sc_fpa_any sc) (GetOpInfo hex) (sc_address sc) hex) as [st fpa]. simpl in Hnew.
  set (op := mkCodeOp hex (GetOpInfo hex) (sc_address sc) st false false false no_needs no_fprs) in *.
  set (code := sc_code sc ++ [op]).
  assert (Hcode : Forall scanned_op code) by (apply Forall_app; auto).
  assert (Hlen : length code = S (length (sc_code sc))) by (unfold code; rewrite length_app; simpl; lia).
  destruct (follow_branch _ _ _ _ _ _ _) as [[[follow call] caller] code'] eqn:Ef.
  destruct (follow_branch_ok _ _ _ _ _ _ _ _ _ _ Ef Hcode) as (Hc' & Hl' & Hcl'); [lia|destruct Hcl as [[_ Hz]|]; lia|].
  pose proof (op_nth_scanned code' (length (sc_code sc)) Hc' ltac:(lia)) as Hop.
  set (code'' := <[length (sc_code sc) := _]> code').
  assert (Hc'' : Forall scanned_op code'') by (apply Forall_insert; auto using scanned_set_idle).
  assert (Hl'' : length code'' = length code) by (unfold code''; rewrite length_insert; lia).
  intros H. repeat (case_match; simplify_eq); split; cbn [sc_code sc_address sc_caller]; try done; try ppc;
    try (right; lia); apply Hop.
Qed.

Lemma scan_keeps block size : forall remaining sc, scan_ok sc -> scan_ok (scan an block size remaining sc).
Proof.
  intros remaining. induction remaining as [|remaining IH]; intros sc Hsc; [done|]. simpl.
  destruct (TryReadInstruction (sc_address sc)) as [[hex physical]|] eqn:Er; [|by destruct Hsc].
  destruct (scan_inst _ _ _ _ _ _ _) as [sc' on] eqn:Es.
  pose proof (scan_inst_ok _ _ _ _ _ _ _ Hsc (TryReadInstruction_u32 _ _ _ Er) Es) as Hsc'.
  destruct on; [by apply IH|done].
Qed.

(** The instructions in the order they were read. *)
Definition scanned (addr : Z) (size : nat) : list CodeOp :=
  sc_code (scan an addr size size (mkScan [] addr false 0 [] false false false 0 0)).

Lemma scanned_analyzed addr size : is_u32 addr -> Forall (analyzed an) (scanned addr size).
Proof.
  intros Ha.
  assert (H : scan_ok (scan an addr size size (mkScan [] addr false 0 [] false false false 0 0))).
  { apply scan_keeps. split; simpl; auto. }
  apply (Forall_impl _ _ _ (so_code _ H)). by intros op [Hop _].
Qed.

(** ** The passes over the registers *)

(** The passes change no instruction, only what is known about it. *)
Definition instructions (code : list CodeOp) : list (Z * Z * GekkoOPInfo * Stats) :=
  map (fun op => (inst op, address op, opinfo op, stats op)) code.

Lemma run_block_instructions c d s : instructions c = instructions d -> run_block c s = run_block d s.
Proof.
  revert d s. induction c as [|op c IH]; intros [|op' d] s H; try done. simpl in *.
  injection H as H1 H2 _ _ H. unfold run_one. rewrite H1, H2. by apply IH.
Qed.

Lemma needs_before_op {after op op' before} : needs_before after op = (op', before) -> exists n, op' = set_needs n op.
Proof. unfold needs_before. cbv zeta. intros H. apply (f_equal fst) in H. cbn [fst] in H. eauto. Qed.

Lemma fpr_step_op {fs op op' fs'} : fpr_step fs op = (op', fs') -> exists f, op' = set_fprs f op.
Proof.
  unfold fpr_step. cbv zeta. destruct (if 0 <=? _ then _ else _) as [[? ?] ?].
  intros H. apply (f_equal fst) in H. cbn [fst] in H. eauto.
Qed.

Lemma backward_pass_instructions code : instructions (fst (backward_pass code)) = instructions code.
Proof.
  induction code as [|op code IH]; [done|]. cbn [backward_pass].
  destruct (backward_pass code) as [code' after]. cbn [fst] in IH.
  destruct (needs_before after op) as [op' before] eqn:En. destruct (needs_before_op En) as [n ->].
  unfold instructions in *. cbn [fst map] in *. by rewrite IH.
Qed.

Lemma forward_pass_instructions code : forall fs, instructions (fst (forward_pass fs code)) = instructions code.
Proof.
  induction code as [|op code IH]; intros fs; [done|]. cbn [forward_pass].
  destruct (fpr_step fs op) as [op' fs'] eqn:Es. destruct (fpr_step_op Es) as [f ->].
  specialize (IH fs'). destruct (forward_pass fs' code) as [code' fs'']. unfold instructions in *. cbn [fst map] in *. by rewrite IH.
Qed.

(** ** The analysis *)

Lemma Analyze_result addr size : is_u32 addr ->
  exists block code next c, Analyze an addr size = Some (block, code, next) /\
    rtc (swap_step an) (scanned addr size) c /\ instructions code = instructions c.
Proof.
  intros Ha. unfold Analyze. cbv zeta. fold (scanned addr size).
  assert (H : exists c, (if Nat.ltb 1 (length (scanned addr size))
      then ReorderInstructions an (length (scanned addr size)) (scanned addr size) else Some (scanned addr size)) = Some c
      /\ rtc (swap_step an) (scanned addr size) c).
  { destruct (Nat.ltb_spec 1 (length (scanned addr size))); [apply ReorderInstructions_ok; lia|by exists (scanned addr size)]. }
  destruct H as (c & -> & Hr). simpl.
  pose proof (backward_pass_instructions c) as Hb. destruct (backward_pass c) as [c1 at_start]. simpl in Hb.
  pose proof (forward_pass_instructions c1 (mkFprScan 0 0 0 0 0)) as Hf.
  destruct (forward_pass _ c1) as [c2 fs]. simpl in Hf.
  eexists _, c2, _, c. split; [done|]. split; [done|]. congruence.
Qed.

End Blocks.

(** * Discarded values are dead

    A register the backward pass declares discardable after an instruction is
    written before it is read and before the block can be left: the recompilers
    need not store it. *)

(** ** One instruction *)

(** Two states that differ at most at one place. *)
Definition differ_at (l : place) (s t : PowerPCState) : Prop :=
  wf s /\ wf t /\ forall k, valid k -> k <> l -> same k s t.

#[export] Instance place_eq_dec : EqDecision place.
Proof. solve_decision. Defined.

Lemma footprint_kills f rd wr l s t :
  footprint f rd wr -> rd l = false -> wr l = true -> differ_at l s t -> f s = f t.
Proof.
  intros Hf Hr Hw (Hs & Ht & H). pose proof (fp_keeps _ _ _ Hf) as Hk.
  assert (Ha : agree rd s t).
  { intros k Hk1 Hk2. apply H; [done|]. intros ->. congruence. }
  apply state_ext; [auto..|]. intros k Hv. destruct (wr k) eqn:Ek; [by apply (fp_depends _ _ _ Hf)|].
  transitivity s; [by apply (fp_frame _ _ _ Hf)|]. transitivity t; [|symmetry; by apply (fp_frame _ _ _ Hf)].
  apply H; [done|]. intros ->. congruence.
Qed.

Lemma footprint_passes f rd wr l s t :
  footprint f rd wr -> rd l = false -> differ_at l s t -> differ_at l (f s) (f t).
Proof.
  intros Hf Hr (Hs & Ht & H). pose proof (fp_keeps _ _ _ Hf) as Hk.
  assert (Ha : agree rd s t).
  { intros k Hk1 Hk2. apply H; [done|]. intros ->. congruence. }
  split; [auto|split; [auto|]]. intros k Hv Hne. destruct (wr k) eqn:Ek; [by apply (fp_depends _ _ _ Hf)|].
  transitivity s; [by apply (fp_frame _ _ _ Hf)|]. transitivity t; [by apply H|].
  symmetry. by apply (fp_frame _ _ _ Hf).
Qed.

Section Liveness.
Context {E : AnalystEnv} (an : Analyzer).

(** The places the backward pass keeps track of. *)
Definition tracked (l : place) : Prop :=
  match l with LGpr _ | LCr _ | LPs _ => valid l | _ => False end.

Definition discardable (n : Needs) (l : place) : bool :=
  match l with
  | LGpr r => Z.testbit (gprDiscardable n) r
  | LCr k => Z.testbit (crDiscardable n) k
  | LPs r => Z.testbit (fprDiscardable n) r
  | _ => false
  end.

Definition stops (op : CodeOp) : bool := TryReplaceFunction (address op) || IsAddressBreakPoint (address op).
Definition may_exit (op : CodeOp) : bool := stops op || canEndBlock (stats op) || canCauseException (stats op).

(** The uses of an instruction, as the backward pass sees them. *)
Definition uses_out (op : CodeOp) (l : place) : bool :=
  match l with
  | LGpr r => Z.testbit (regsOut (stats op)) r
  | LCr k => Z.testbit (crOut (stats op)) k
  | LPs r => Z.testbit (GetFregsOut (stats op)) r
  | _ => false
  end.
Definition uses_in (op : CodeOp) (l : place) : bool :=
  match l with
  | LGpr r => Z.testbit (regsIn (stats op)) r
  | LCr k => Z.testbit (crIn (stats op)) k
  | LPs r => Z.testbit (fregsIn (stats op)) r
  | _ => false
  end.

Lemma uses_declared op l :
  analyzed an op -> modelled (inst op) = true -> may_exit op = false -> tracked l ->
  declared_rd (opinfo op) (inst op) l = uses_in op l /\ written (opinfo op) (inst op) l = uses_out op l.
Proof.
  intros Ha Hm Hx Hl. apply orb_false_elim in Hx as [Hx Hc]. apply orb_false_elim in Hx as [_ He].
  pose proof (may_leave_false an op Ha Hm He Hc) as Hml. unfold declared_rd. rewrite Hml.
  destruct l; try done; cbn [orb written declared_wr uses_in uses_out].
  - by rewrite (an_regsIn _ _ Ha), (an_regsOut _ _ Ha).
  - by rewrite (an_crIn _ _ Ha), (an_crOut _ _ Ha).
  - rewrite (an_fregsIn _ _ Ha). split; [done|]. unfold GetFregsOut. rewrite (an_fregOut _ _ Ha).
    destruct (has_flag (opinfo op) FL_OUT_FLOAT_D); cbn [andb Z.leb Z.compare]; [|by rewrite Z.bits_0].
    pose proof (field5_range (inst op) 21) as Hfd. fold (FD (inst op)) in Hfd. simpl in Hl.
    destruct (Z.leb_spec 0 (FD (inst op))); [|lia].
    rewrite testbit_with_bit by lia. by rewrite Z.bits_0, orb_false_r.
Qed.

Lemma at_pc_differ p l s t : tracked l -> is_u32 p -> differ_at l s t -> differ_at l (at_pc p s) (at_pc p t).
Proof. intros Hl Hp. apply (footprint_passes _ _ _ _ _ _ (at_pc_footprint p Hp)). by destruct l. Qed.

(** ** The backward pass *)

Lemma discard_step after op l :
  tracked l -> discardable (snd (needs_before after op)) l = true ->
  may_exit op = false /\ uses_in op l = false /\ (uses_out op l = true \/ discardable after l = true).
Proof.
  unfold needs_before. cbv zeta. fold (stops op). cbn [snd].
  set (gate := CanCauseGatherPipeInterruptCheck op).
  intros Hl. unfold may_exit. destruct (stops op) eqn:Hs; cbn [snd orb].
  { destruct l; try done; cbn [discardable gprDiscardable crDiscardable fprDiscardable]; by rewrite Z.bits_0. }
  destruct (canEndBlock (stats op) || canCauseException (stats op)).
  { destruct l; try done; cbn [discardable gprDiscardable crDiscardable fprDiscardable]; by rewrite Z.bits_0. }
  intros H. split; [done|].
  assert (Hbits : forall old out ins r, 0 <= r -> Z.testbit ((old .| out) .& .~ ins) r = true ->
    Z.testbit ins r = false /\ (Z.testbit out r = true \/ Z.testbit old r = true)).
  { intros old out ins r Hr Hb. rewrite Z.land_spec, Z.lor_spec, Z.lnot_spec in Hb by done.
    apply andb_prop in Hb as [Hb Hn]. apply negb_true_iff in Hn. apply orb_prop in Hb. tauto. }
  destruct l; try done; cbn [discardable gprDiscardable crDiscardable fprDiscardable uses_in uses_out] in *;
    simpl in Hl; apply Hbits in H; try lia; destruct H as [Hi Ho]; (split; [exact Hi|]);
    destruct Ho as [Ho|Ho]; auto; destruct gate; cbn [gprDiscardable crDiscardable fprDiscardable] in Ho; auto;
    by rewrite Z.bits_0 in Ho.
Qed.

(** Up to the next point where the block can be left, the value at a discardable
    place makes no difference. *)
Lemma discardable_dead code : forall q q' l s t,
  Forall (analyzed an) code -> tracked l -> discardable (snd (backward_pass code)) l = true ->
  code = q ++ q' -> Forall (fun op => modelled (inst op) = true) q ->
  match q' with [] => True | op :: _ => may_exit op = true end ->
  differ_at l s t -> run_block q s = run_block q t.
Proof.
  induction code as [|op code IH]; intros q q' l s t Ha Hl Hd Hq Hm Hend Hst.
  { destruct l; try done; cbn in Hd; by rewrite Z.bits_0 in Hd. }
  cbn [backward_pass] in Hd. destruct (backward_pass code) as [code' after] eqn:Eb.
  destruct (needs_before after op) as [op' before] eqn:En. cbn [snd] in Hd.
  assert (Hd' : discardable (snd (needs_before after op)) l = true) by (by rewrite En).
  apply discard_step in Hd' as (Hx & Hi & Ho); [|done].
  inversion_clear Ha as [|? ? Hop Ha'].
  destruct q as [|op1 q]; simpl in Hq.
  { subst q'. congruence. }
  injection Hq as <- Hq. inversion_clear Hm as [|? ? Hm1 Hm'].
  change (run_block q (run_one op s) = run_block q (run_one op t)).
  destruct (uses_declared op l Hop Hm1 Hx Hl) as [Erd Ewr].
  pose proof (declared_footprint _ (an_inst _ _ Hop) Hm1) as F. rewrite <- (an_info _ _ Hop) in F.
  pose proof (at_pc_differ (address op) l s t Hl (an_address _ _ Hop) Hst) as Hpc.
  destruct (uses_out op l) eqn:Eo.
  - f_equal. exact (footprint_kills _ _ _ l _ _ F ltac:(congruence) ltac:(congruence) Hpc).
  - destruct Ho as [Ho|Ho]; [done|].
    apply (IH q q' l); try done. by apply (footprint_passes _ _ _ l _ _ F ltac:(congruence)).
Qed.

Lemma backward_pass_at pre op rest code :
  fst (backward_pass code) = pre ++ op :: rest -> exists op0 rest0,
    fst (needs_before (snd (backward_pass rest0)) op0) = op /\ instructions rest0 = instructions rest /\
    incl (op0 :: rest0) code.
Proof.
  revert pre. induction code as [|x code IH]; intros pre H; [by destruct pre|].
  cbn [backward_pass] in H. destruct (backward_pass code) as [code' after] eqn:Eb.
  destruct (needs_before after x) as [x' before] eqn:En. cbn [fst] in H.
  destruct pre as [|y pre]; simpl in H; injection H as H1 H2.
  - exists x, code. rewrite Eb, <- H2. cbn [snd]. rewrite En. cbn [fst]. split; [done|].
    split; [|by intros ?]. pose proof (backward_pass_instructions code) as Hi. by rewrite Eb in Hi.
  - destruct (IH pre H2) as (op0 & rest0 & ? & ? & Hincl). exists op0, rest0. split; [done|split; [done|]].
    intros z Hz. right. by apply Hincl.
Qed.

Lemma forward_pass_at code : forall fs pre op rest,
  fst (forward_pass fs code) = pre ++ op :: rest -> exists pre0 op0 rest0,
    code = pre0 ++ op0 :: rest0 /\ needs op0 = needs op /\ inst op0 = inst op /\ address op0 = address op /\
    instructions rest0 = instructions rest.
Proof.
  induction code as [|x code IH]; intros fs pre op rest H; [by destruct pre|].
  cbn [forward_pass] in H. destruct (fpr_step fs x) as [x' fs'] eqn:Es. destruct (fpr_step_op Es) as [f ->].
  pose proof (forward_pass_instructions code fs') as Hi. specialize (IH fs').
  destruct (forward_pass fs' code) as [code' fs''] eqn:Ef. cbn [fst] in *.
  destruct pre as [|y pre]; simpl in H; injection H as H1 H2.
  - exists [], x, code. subst. done.
  - destruct (IH pre op rest H2) as (pre0 & op0 & rest0 & -> & ?). by exists (x :: pre0), op0, rest0.
Qed.

End Liveness.
