(* ===== verification/PPCArith.v ===== *)
(** * Arithmetic of the integer unit

    The carry chain, the carries of the additions, rotations and masks, division
    and shifts. *)
From S2P Require Export PPCFootprint PPCDeclared.

(** ** Encoding *)

(** The instruction word with primary opcode [p], fields [d], [a], [b] and
    extended opcode [x]. *)
Definition ppc_word (p d a b x : Z) : Z := p * 2 ^ 26 + d * 2 ^ 21 + a * 2 ^ 16 + b * 2 ^ 11 + x * 2.

Lemma field_arith i lo w : 0 <= lo -> 0 <= w -> field i lo w = (i / 2 ^ lo) mod 2 ^ w.
Proof. intros. unfold field. rewrite (land_ones_mod w) by done. by rewrite Z.shiftr_div_pow2. Qed.

Section Encode.
Context (p d a b x : Z) (Hp : 0 <= p < 64) (Hd : 0 <= d < 32) (Ha : 0 <= a < 32) (Hb : 0 <= b < 32) (Hx : 0 <= x < 1024).

Ltac enc := unfold ppc_word; rewrite field_arith by lia; cbn [Z.pow Z.pow_pos Pos.iter Z.mul Pos.mul];
  Z.div_mod_to_equations; lia.

Lemma ppc_word_OPCD : OPCD (ppc_word p d a b x) = p.
Proof. unfold OPCD. enc. Qed.
Lemma ppc_word_RD : RD (ppc_word p d a b x) = d.
Proof. unfold RD. enc. Qed.
Lemma ppc_word_RA : RA (ppc_word p d a b x) = a.
Proof. unfold RA. enc. Qed.
Lemma ppc_word_RB : RB (ppc_word p d a b x) = b.
Proof. unfold RB. enc. Qed.
Lemma ppc_word_SUBOP10 : SUBOP10 (ppc_word p d a b x) = x.
Proof. unfold SUBOP10. enc. Qed.
Lemma ppc_word_Rc : Rc (ppc_word p d a b x) = false.
Proof.
  unfold Rc, bit_at, ppc_word. rewrite Z.bit0_odd.
  replace (p * 2 ^ 26 + d * 2 ^ 21 + a * 2 ^ 16 + b * 2 ^ 11 + x * 2)
    with (0 + 2 * (p * 2 ^ 25 + d * 2 ^ 20 + a * 2 ^ 15 + b * 2 ^ 10 + x)) by lia.
  by rewrite Z.odd_add_mul_2.
Qed.
Lemma ppc_word_OE : OE (ppc_word p d a b x) = Z.testbit x 9.
Proof.
  replace x with (SUBOP10 (ppc_word p d a b x)) at 2 by apply ppc_word_SUBOP10.
  unfold SUBOP10, field, OE, bit_at. rewrite Z.land_spec, Z.shiftr_spec by lia. symmetry. apply andb_true_r.
Qed.
Lemma ppc_word_exec f s : run_op (op_of p x) = Some f -> exec (ppc_word p d a b x) s = f (ppc_word p d a b x) s.
Proof. intros H. unfold exec. by rewrite GetInterpreterOp_fields, ppc_word_OPCD, ppc_word_SUBOP10, H. Qed.
Lemma ppc_word_u32 : is_u32 (ppc_word p d a b x).
Proof. unfold ppc_word, is_u32. lia. Qed.

End Encode.

(** ** Carries *)

Lemma Helper_Carry_spec x y : is_u32 x -> Helper_Carry x y = (2 ^ 32 <=? x + y).
Proof.
  intros Hx. unfold Helper_Carry. replace (.~ x) with (- x - 1) by (unfold Z.lnot; lia).
  unfold_ints. destruct (Z.ltb_spec ((- x - 1) mod 4294967296) y), (Z.leb_spec (2 ^ 32) (x + y)); try done;
    Z.div_mod_to_equations; lia.
Qed.

(** ** Numbers of several words *)

(** The number in the registers [rs], the least significant first. *)
Fixpoint number (s : PowerPCState) (rs : list Z) : Z :=
  match rs with [] => 0 | r :: rs => get_gpr s r + 2 ^ 32 * number s rs end.

Definition is_reg (r : Z) : Prop := 0 <= r < 32.

(** A word of an addition: the destination and the two operands. *)
Record limb := mkLimb { to : Z; fst_op : Z; snd_op : Z }.
Definition limb_ok (l : limb) : Prop := is_reg (to l) /\ is_reg (fst_op l) /\ is_reg (snd_op l).
(** No word's result overwrites an operand or the result of a later one. *)
Fixpoint ordered (ls : list limb) : Prop :=
  match ls with
  | [] => True
  | l :: ls => Forall (fun m => to l <> to m /\ to l <> fst_op m /\ to l <> snd_op m) ls /\ ordered ls
  end.

Lemma number_frame s t rs : Forall (fun r => get_gpr t r = get_gpr s r) rs -> number t rs = number s rs.
Proof. induction 1 as [|r rs Hr _ IH]; simpl; congruence. Qed.

(** What an instruction of a carry chain does to the state, where [val] is what
    it adds. *)
Definition limb_step (val : Z -> Z -> Z) (cin : Z) (l : limb) (s t : PowerPCState) : Prop :=
  wf t /\ get_gpr t (to l) + 2 ^ 32 * xer_ca t = val (get_gpr s (fst_op l)) (get_gpr s (snd_op l)) + cin /\
  forall r, is_reg r -> r <> to l -> get_gpr t r = get_gpr s r.

Section Chain.
Context (x : Z) (val : Z -> Z -> Z) (Hx : 0 <= x < 1024).
Context (Hstep : forall l s, limb_ok l -> wf s ->
  limb_step val (xer_ca s) l s (exec (ppc_word 31 (to l) (fst_op l) (snd_op l) x) s)).

Definition chain_code (ls : list limb) : list Z := map (fun l => ppc_word 31 (to l) (fst_op l) (snd_op l) x) ls.
Definition exec_all (code : list Z) (s : PowerPCState) : PowerPCState := fold_left (fun s i => exec i s) code s.
Fixpoint limbs_total (s : PowerPCState) (ls : list limb) : Z :=
  match ls with [] => 0 | l :: ls => val (get_gpr s (fst_op l)) (get_gpr s (snd_op l)) + 2 ^ 32 * limbs_total s ls end.

Lemma limbs_total_frame s t ls :
  Forall (fun m => get_gpr t (fst_op m) = get_gpr s (fst_op m) /\ get_gpr t (snd_op m) = get_gpr s (snd_op m)) ls ->
  limbs_total t ls = limbs_total s ls.
Proof. induction 1 as [|l ls [Ha Hb] _ IH]; simpl; congruence. Qed.

Lemma chain_frame ls : forall s r, Forall limb_ok ls -> wf s -> is_reg r -> Forall (fun m => r <> to m) ls ->
  wf (exec_all (chain_code ls) s) /\ get_gpr (exec_all (chain_code ls) s) r = get_gpr s r.
Proof.
  induction ls as [|l ls IH]; intros s r Hok Hs Hr Hne; [done|]. simpl.
  apply Forall_cons in Hok as [Hl Hok], Hne as [Hn Hne].
  destruct (Hstep l s Hl Hs) as (Ht & _ & Hf).
  destruct (IH _ r Hok Ht Hr Hne) as [W E]. split; [done|]. rewrite E. by apply Hf.
Qed.

Lemma chain_total ls : forall s, Forall limb_ok ls -> ordered ls -> wf s ->
  let t := exec_all (chain_code ls) s in
  number t (map to ls) + 2 ^ (32 * Z.of_nat (length ls)) * xer_ca t = limbs_total s ls + xer_ca s.
Proof.
  induction ls as [|l ls IH]; intros s Hok Hord Hs; cbn [exec_all chain_code map fold_left number limbs_total length];
    [simpl; lia|].
  apply Forall_cons in Hok as [Hl Hok]. destruct Hord as [Hd Hord].
  destruct (Hstep l s Hl Hs) as (Ht & Ev & Hf).
  set (s1 := exec _ s) in *. specialize (IH s1 Hok Hord Ht). cbv zeta in IH.
  assert (Hto : get_gpr (exec_all (chain_code ls) s1) (to l) = get_gpr s1 (to l)).
  { apply chain_frame; try done; [apply Hl|]. eapply Forall_impl; [exact Hd|]. by intros m []. }
  assert (Htot : limbs_total s1 ls = limbs_total s ls).
  { apply limbs_total_frame. apply Forall_forall. intros m Hm.
    rewrite Forall_forall in Hd, Hok. destruct (Hd m Hm) as (_ & Ha & Hb), (Hok m Hm) as (_ & Ra & Rb).
    split; apply Hf; congruence || done. }
  unfold exec_all, chain_code in *. rewrite Hto.
  replace (32 * Z.of_nat (S (length ls))) with (32 + 32 * Z.of_nat (length ls)) by lia.
  rewrite Z.pow_add_r by lia. rewrite Htot in IH. lia.
Qed.

End Chain.

(** The end of an addition that neither records nor sets OV. *)
Lemma add_done_limb val cin i a b r c s :
  Rc i = false -> OE i = false -> wf s -> is_u32 r ->
  r + 2 ^ 32 * Z.b2z c = val (get_gpr s (RA i)) (get_gpr s (RB i)) + cin ->
  limb_step val cin (mkLimb (RD i) (RA i) (RB i)) s (add_done i a b r (Some c) s).
Proof.
  intros Hc Ho Hs Hr E. unfold add_done, record. rewrite Hc, Ho.
  pose proof (field_range i 21 5 ltac:(lia)) as Hd. change (field i 21 5) with (RD i) in Hd.
  split; [ppc|]. cbn [to fst_op snd_op]. split.
  - change (get_gpr (SetCarry c (set_gpr (RD i) r s)) (RD i)) with (get_gpr (set_gpr (RD i) r s) (RD i)).
    by rewrite get_gpr_set_eq.
  - intros q Hq Hne. change (get_gpr (set_gpr (RD i) r s) q = get_gpr s q).
    rewrite get_gpr_set by done. by destruct (Z.eqb_spec q (RD i)).
Qed.

Definition sum_of (a b : Z) : Z := a + b.
Definition difference_of (a b : Z) : Z := b + (2 ^ 32 - 1 - a).

Lemma u32_lnot a : is_u32 a -> u32 (.~ a) = 2 ^ 32 - 1 - a.
Proof. intros. replace (.~ a) with (- a - 1) by (unfold Z.lnot; lia). zlia. Qed.

Ltac carry_cases := repeat rewrite Helper_Carry_spec by first [assumption | apply is_u32_u32 | zlia];
  unfold sum_of, difference_of; unfold_ints;
  repeat match goal with
  | |- context [?a <=? ?b] => destruct (Z.leb_spec a b)
  | |- context [?a =? ?b] => destruct (Z.eqb_spec a b)
  end; simpl; Z.div_mod_to_equations; lia.

Section Limbs.
Context (i : Z) (s : PowerPCState) (Hrc : Rc i = false) (Hoe : OE i = false) (Hs : wf s).
Let l := mkLimb (RD i) (RA i) (RB i).

Lemma addcx_limb : limb_step sum_of 0 l s (addcx i s).
Proof.
  pose proof (get_gpr_range Hs (RA i)). pose proof (get_gpr_range Hs (RB i)).
  apply add_done_limb; try done; unfold ra, rb; [ppc|]. carry_cases.
Qed.

Lemma addex_limb : limb_step sum_of (xer_ca s) l s (addex i s).
Proof.
  pose proof (get_gpr_range Hs (RA i)). pose proof (get_gpr_range Hs (RB i)). pose proof (wf_ca s Hs).
  apply add_done_limb; try done; unfold ra, rb, GetCarry; [ppc|]. carry_cases.
Qed.

Lemma subfcx_limb : limb_step difference_of 1 l s (subfcx i s).
Proof.
  pose proof (get_gpr_range Hs (RA i)). pose proof (get_gpr_range Hs (RB i)).
  apply add_done_limb; try done; unfold ra, rb; [ppc|]. rewrite !u32_lnot by done. carry_cases.
Qed.

Lemma subfex_limb : limb_step difference_of (xer_ca s) l s (subfex i s).
Proof.
  pose proof (get_gpr_range Hs (RA i)). pose proof (get_gpr_range Hs (RB i)). pose proof (wf_ca s Hs).
  apply add_done_limb; try done; unfold ra, rb, GetCarry; [ppc|]. rewrite !u32_lnot by done. carry_cases.
Qed.

End Limbs.

(** The function an opcode runs, from the tables. *)
Lemma exec_encoded p d a b x op f s :
  0 <= p < 64 -> is_reg d -> is_reg a -> is_reg b -> 0 <= x < 1024 ->
  op_of p x = op -> run_op op = Some f -> exec (ppc_word p d a b x) s = f (ppc_word p d a b x) s.
Proof. intros. apply ppc_word_exec; try done. congruence. Qed.

Lemma encoded_limb val cin f op x l s :
  0 <= x < 512 -> op_of 31 x = op -> run_op op = Some f -> limb_ok l -> wf s ->
  (forall i, Rc i = false -> OE i = false -> limb_step val cin (mkLimb (RD i) (RA i) (RB i)) s (f i s)) ->
  limb_step val cin l s (exec (ppc_word 31 (to l) (fst_op l) (snd_op l) x) s).
Proof.
  intros Hx Ho Hf (Hd & Ha & Hb) Hs Hl. unfold is_reg in *.
  rewrite (exec_encoded 31 _ _ _ x op f) by first [done|unfold is_reg; lia].
  specialize (Hl (ppc_word 31 (to l) (fst_op l) (snd_op l) x)).
  rewrite ppc_word_RD, ppc_word_RA, ppc_word_RB in Hl by lia. destruct l. apply Hl; [by rewrite ppc_word_Rc by lia|].
  rewrite ppc_word_OE by lia. apply Z.bits_above_log2; [lia|].
  destruct (Z.eq_dec x 0) as [->|]; [simpl; lia|]. apply Z.log2_lt_pow2; simpl in *; lia.
Qed.

(** A first instruction with opcode [x0] and carry [cin], then the chain. *)
Definition carry_program (x0 x : Z) (ls : list limb) : list Z :=
  match ls with [] => [] | l :: ls => ppc_word 31 (to l) (fst_op l) (snd_op l) x0 :: chain_code x ls end.

Lemma carry_program_total x0 f0 x f val cin ls s :
  0 <= x0 < 512 -> 0 <= x < 512 ->
  run_op (op_of 31 x0) = Some f0 -> run_op (op_of 31 x) = Some f ->
  (forall i s, Rc i = false -> OE i = false -> wf s -> limb_step val cin (mkLimb (RD i) (RA i) (RB i)) s (f0 i s)) ->
  (forall i s, Rc i = false -> OE i = false -> wf s ->
    limb_step val (xer_ca s) (mkLimb (RD i) (RA i) (RB i)) s (f i s)) ->
  ls <> [] -> Forall limb_ok ls -> ordered ls -> wf s ->
  let t := exec_all (carry_program x0 x ls) s in
  number t (map to ls) + 2 ^ (32 * Z.of_nat (length ls)) * xer_ca t = limbs_total val s ls + cin.
Proof.
  intros Hx0 Hx E0 E H0 H Hne Hok Hord Hs. destruct ls as [|l ls]; [done|].
  apply Forall_cons in Hok as [Hl Hok]. destruct Hord as [Hd Hord].
  assert (Hstep : forall l s, limb_ok l -> wf s ->
    limb_step val (xer_ca s) l s (exec (ppc_word 31 (to l) (fst_op l) (snd_op l) x) s)).
  { intros. by eapply encoded_limb; eauto. }
  destruct (encoded_limb val cin f0 _ x0 l s Hx0 eq_refl E0 Hl Hs ltac:(eauto)) as (Ht & Ev & Hf).
  cbn [carry_program exec_all map fold_left number limbs_total length]. cbv zeta.
  set (s1 := exec _ s) in *.
  pose proof (chain_total x val Hstep ls s1 Hok Hord Ht) as IH. cbv zeta in IH.
  assert (Hto : get_gpr (exec_all (chain_code x ls) s1) (to l) = get_gpr s1 (to l)).
  { apply (chain_frame x val Hstep); try done; [apply Hl|]. eapply Forall_impl; [exact Hd|]. by intros m []. }
  assert (Htot : limbs_total val s1 ls = limbs_total val s ls).
  { apply limbs_total_frame. apply Forall_forall. intros m Hm.
    rewrite Forall_forall in Hd, Hok. destruct (Hd m Hm) as (_ & Ha & Hb), (Hok m Hm) as (_ & Ra & Rb).
    split; apply Hf; congruence || done. }
  unfold exec_all in *. rewrite Hto.
  replace (32 * Z.of_nat (S (length ls))) with (32 + 32 * Z.of_nat (length ls)) by lia.
  rewrite Z.pow_add_r by lia. rewrite Htot in IH. lia.
Qed.

Lemma limbs_total_sum s ls : limbs_total sum_of s ls = number s (map fst_op ls) + number s (map snd_op ls).
Proof. induction ls as [|l ls IH]; simpl; [done|]. unfold sum_of at 1. rewrite IH. lia. Qed.

Lemma limbs_total_difference s ls :
  limbs_total difference_of s ls + 1 =
    number s (map snd_op ls) - number s (map fst_op ls) + 2 ^ (32 * Z.of_nat (length ls)).
Proof.
  induction ls as [|l ls IH]; cbn [limbs_total map number length]; [simpl; lia|]. unfold difference_of at 1.
  replace (32 * Z.of_nat (S (length ls))) with (32 + 32 * Z.of_nat (length ls)) by lia.
  rewrite Z.pow_add_r by lia. lia.
Qed.

(** ** Comparisons and fields of the condition register *)

Lemma field_flags_table n : 0 <= n < 16 -> field_flags (nth (Z.to_nat n) s_crTable 0) = n.
Proof.
  intros Hn. assert (H : forallb (fun k => field_flags (nth k s_crTable 0) =? Z.of_nat k) (seq 0 16) = true)
    by reflexivity.
  rewrite forallb_forall in H. specialize (H (Z.to_nat n) ltac:(apply in_seq; lia)).
  apply Z.eqb_eq in H. lia.
Qed.

Lemma GetField_SetField s i j v : wf s -> 0 <= i < 8 -> 0 <= j < 8 -> 0 <= v < 16 ->
  GetField j (SetField i v s) = if j =? i then v else GetField j s.
Proof.
  intros Hs Hi Hj Hv. unfold GetField, SetField. rewrite cr_field_put by done.
  destruct (j =? i); [by apply field_flags_table|done].
Qed.

(** What a comparison leaves in its field: the bits LT, GT, EQ and SO. *)
Definition cr_relation (bit x y so : Z) : bool :=
  match bit with 0 => x <? y | 1 => y <? x | 2 => x =? y | _ => negb (so =? 0) end.

Lemma GetBit_IntCompare i x y s bit : wf s -> bit .>> 2 = CRFD i ->
  GetBit bit (Helper_IntCompare i x y s) = Z.b2z (cr_relation (bit .& 3) x y (GetXER_SO s)).
Proof.
  intros Hs Hb. unfold GetBit, Helper_IntCompare. rewrite Hb.
  pose proof (field_range i 23 3 ltac:(lia)) as Hf. change (field i 23 3) with (CRFD i) in Hf.
  rewrite GetField_SetField by (try done; repeat case_match; split; (discriminate || reflexivity)).
  rewrite Z.eqb_refl. pose proof (land_mask_range bit 3 ltac:(lia)) as Hr.
  assert (Hc : bit .& 3 = 0 \/ bit .& 3 = 1 \/ bit .& 3 = 2 \/ bit .& 3 = 3) by lia.
  destruct Hc as [->|[->|[->| ->]]]; unfold cr_relation;
    destruct (Z.ltb_spec x y), (Z.ltb_spec y x), (Z.eqb_spec x y), (GetXER_SO s =? 0); try lia; reflexivity.
Qed.

(** The numbers a comparison compares. *)
Definition comparands (i : Z) (s : PowerPCState) : option (Z * Z) :=
  match GetInterpreterOp i with
  | Op.cmp => Some (s32 (ra s i), s32 (rb s i))
  | Op.cmpl => Some (ra s i, rb s i)
  | Op.cmpi => Some (s32 (ra s i), SIMM_16 i)
  | Op.cmpli => Some (ra s i, UIMM i)
  | _ => None
  end.

Lemma exec_compare i s x y : comparands i s = Some (x, y) -> exec i s = Helper_IntCompare i x y s.
Proof.
  unfold comparands, exec. destruct (GetInterpreterOp i); try discriminate; intros [= <- <-]; reflexivity.
Qed.

(** Where a conditional branch goes. *)
Definition bc_target (j : Z) (s : PowerPCState) : Z :=
  let d := u32 (s16 (BD j .<< 2)) in if AA j then d else u32 (d + pc s).

Lemma pc_link b s : pc (link b s) = pc s.
Proof. by destruct b. Qed.

(** [bc] on a condition only: [BO] is 12 to branch if it holds, 4 if not. *)
Lemma bcx_condition j s b : BO j = 12 \/ BO j = 4 -> GetBit (BI j) s = Z.b2z b ->
  npc (bcx j s) = if Bool.eqb b (BO j =? 12) then bc_target j s else npc s.
Proof.
  intros Hbo Hb. unfold bcx, bc_target.
  assert (E : (BO j .& BO_DONT_DECREMENT_FLAG =? 0) = false /\ negb ((BO j .>> 4) .& 1 =? 0) = false
    /\ negb ((BO j .>> 2) .& 1 =? 0) = true /\ negb ((BO j .>> 3) .& 1 =? 0) = (BO j =? 12)).
  { destruct Hbo as [-> | ->]; by vm_compute. }
  destruct E as (-> & -> & -> & ->). cbv zeta. cbn [orb andb]. rewrite Hb.
  destruct b, (BO j =? 12); cbn [Z.b2z Z.eqb Pos.eqb Bool.eqb set_end_block npc set_npc];
    rewrite ?pc_link; by destruct (AA j).
Qed.

(** A field whose upper half is known. *)
Lemma field_flags_halves h l : 0 <= h < 2 ^ 32 -> is_u32 l ->
  field_flags ((h .<< 32) .| l) =
    ((h .>> 27) .& 9) .| (Z.b2z (l =? 0) .<< 1) .| (Z.b2z (if h <? 2 ^ 31 then 0 <? h * 2 ^ 32 + l else false) .<< 2).
Proof.
  intros Hh Hl. unfold field_flags. rewrite (lor_shiftl_add 32) by done.
  change (CR_LT .| CR_SO) with 9. change CR_EQ_BIT with 1. change CR_GT_BIT with 2. change CR_EMU_SO_BIT with 59.
  f_equal; [f_equal|f_equal].
  - rewrite !Z.shiftr_div_pow2 by lia. f_equal. change (2 ^ 59) with (2 ^ 32 * 2 ^ 27).
    rewrite <- Z.div_div by lia. rewrite Z.div_add_l by lia. rewrite (Z.div_small l) by done. by rewrite Z.add_0_r.
  - rewrite (land_ones_mod 32) by done. replace ((h * 2 ^ 32 + l) mod 2 ^ 32) with l; [done|].
    unfold is_u32 in Hl. Z.div_mod_to_equations. lia.
  - f_equal. unfold is_u32, s64 in *. destruct (Z.ltb_spec h (2 ^ 31)); [f_equal|apply Z.ltb_ge];
      Z.div_mod_to_equations; lia.
Qed.

Lemma replace_bit_59 h l so : is_u32 l ->
  ((((h .<< 32) .| l) .& .~ (1 .<< 59)) .| (so .<< 59)) = ((h .& .~ (1 .<< 27)) .| (so .<< 27)) .<< 32 .| l.
Proof.
  intros [Hl0 Hl]%(bits_above_pow2 l 32 ltac:(lia)). apply Z.bits_inj'. intros n Hn.
  repeat rewrite ?Z.lor_spec, ?Z.land_spec, ?Z.lnot_spec, ?Z.shiftl_spec by lia.
  destruct (Z.lt_ge_cases n 32).
  - rewrite !(Z.testbit_neg_r _ (n - 32)), !(Z.testbit_neg_r _ (n - 59)) by lia. simpl. by rewrite andb_true_r, orb_false_r.
  - rewrite Hl, !orb_false_r by lia.
    repeat rewrite ?Z.lor_spec, ?Z.land_spec, ?Z.lnot_spec, ?Z.shiftl_spec by lia.
    by replace (n - 32 - 27) with (n - 59) by lia.
Qed.

Lemma GetField_put s i v : wf s -> 0 <= i < 8 -> GetField i (put_cr_field i v s) = field_flags v.
Proof. intros. unfold GetField. by rewrite cr_field_put, Z.eqb_refl by done. Qed.

(** The flags of a number compared with zero. *)
Lemma GetField_UpdateCR0 v s : wf s -> is_u32 v ->
  GetField 0 (Helper_UpdateCR0 v s) =
    (if s32 v <? 0 then CR_LT else if 0 <? s32 v then CR_GT else CR_EQ) .| GetXER_SO s.
Proof.
  intros Hs Hv. unfold Helper_UpdateCR0. rewrite GetField_put by (done || lia).
  pose proof (GetXER_SO_range s Hs) as Hso. change CR_EMU_SO_BIT with 59.
  set (h := if v =? 0 then 2 ^ 31 else if v <? 2 ^ 31 then 0 else 2 ^ 32 - 1).
  assert (E : (if v =? 0 then u64 (s32 v) .| (1 .<< 63) else u64 (s32 v)) = (h .<< 32) .| v).
  { unfold h. destruct (Z.eqb_spec v 0) as [->|]; [reflexivity|].
    rewrite (lor_shiftl_add 32) by done. unfold_ints. destruct (Z.ltb_spec v (2 ^ 31)); Z.div_mod_to_equations; lia. }
  rewrite E, replace_bit_59 by done.
  clear E. unfold h. destruct (Z.eqb_spec v 0) as [->|Hne].
  { assert (Hc : GetXER_SO s = 0 \/ GetXER_SO s = 1) by lia. destruct Hc as [-> | ->]; reflexivity. }
  assert (Hz : (v =? 0) = false) by by apply Z.eqb_neq.
  assert (Hc : GetXER_SO s = 0 \/ GetXER_SO s = 1) by lia.
  destruct (Z.ltb_spec v (2 ^ 31)), (Z.ltb_spec (s32 v) 0), (Z.ltb_spec 0 (s32 v));
    try (exfalso; unfold_ints; Z.div_mod_to_equations; lia);
    destruct Hc as [-> | ->]; rewrite field_flags_halves by (done || (split; [discriminate|reflexivity]));
    rewrite Hz;
    match goal with |- context [if ?h <? ?m then _ else _] => let b := eval vm_compute in (h <? m) in change (h <? m) with b end;
    cbn iota; try reflexivity;
    match goal with |- context [0 <? ?h * _ + v] =>
      assert (0 <= h) by (vm_compute; discriminate);
      replace (0 <? h * 2 ^ 32 + v) with true by (symmetry; apply Z.ltb_lt; unfold is_u32 in Hv; nia)
    end; reflexivity.
Qed.

(** ** The record bit *)

(** LT, GT or EQ for a number compared with zero as a signed number. *)
Definition sign_flags (v : Z) : Z := if s32 v <? 0 then CR_LT else if 0 <? s32 v then CR_GT else CR_EQ.
(** CR0 describes the register [d]. *)
Definition describes (d : Z) (t : PowerPCState) : Prop := GetField 0 t = sign_flags (get_gpr t d) .| GetXER_SO t.

Lemma recorded i v d s : wf s -> v = get_gpr s d -> Rc i = true -> describes d (record i v s).
Proof.
  intros Hs -> Hrc. unfold record. rewrite Hrc. unfold describes.
  change (get_gpr (Helper_UpdateCR0 (get_gpr s d) s) d) with (get_gpr s d).
  change (GetXER_SO (Helper_UpdateCR0 (get_gpr s d) s)) with (GetXER_SO s).
  apply GetField_UpdateCR0; [done|].
  by apply get_gpr_range.
Qed.

Lemma recorded_result i v s d w : wf s -> is_u32 w -> is_reg d -> v = w -> Rc i = true ->
  describes d (record i v (set_gpr d w s)).
Proof. intros. apply recorded; [ppc| |done]. subst. symmetry. by apply get_gpr_set_eq. Qed.

Lemma add_done_describes i a b r c s : wf s -> is_u32 r -> Rc i = true -> describes (RD i) (add_done i a b r c s).
Proof.
  intros Hs Hr Hrc. unfold add_done. apply recorded; [destruct c, (OE i); ppc| |done].
  transitivity (get_gpr (set_gpr (RD i) r s) (RD i)); [|by destruct c, (OE i)].
  symmetry. apply get_gpr_set_eq; [done|]. apply field_range. lia.
Qed.

Lemma logical_describes f i s : (forall x y, is_u32 x -> is_u32 y -> is_u32 (f x y)) -> wf s -> Rc i = true ->
  describes (RA i) (logical f i s).
Proof. intros. unfold logical. apply recorded; [|done|done]. unfold rs, rb. ppc. Qed.

(** The instructions with a record bit, by where the result goes. *)
Definition recorded_place (op : Op.t) : option bool :=
  match op with
  | Op.rlwimix | Op.rlwinmx | Op.rlwnmx | Op.andx | Op.andcx | Op.orx | Op.norx | Op.xorx | Op.orcx | Op.nandx
  | Op.eqvx | Op.cntlzwx | Op.extshx | Op.extsbx | Op.srwx | Op.srawx | Op.srawix | Op.slwx => Some true
  | Op.addx | Op.addcx | Op.addex | Op.addmex | Op.addzex | Op.divwx | Op.divwux | Op.mulhwx | Op.mulhwux
  | Op.mullwx | Op.negx | Op.subfx | Op.subfcx | Op.subfex | Op.subfmex | Op.subfzex => Some false
  | _ => None
  end.

Lemma RA_reg i : is_reg (RA i).
Proof. apply field_range. lia. Qed.
Lemma RD_reg i : is_reg (RD i).
Proof. apply field_range. lia. Qed.

Ltac describe :=
  match goal with |- describes _ (?f _ _) => unfold f end; cbv zeta;
  lazymatch goal with
  | |- describes _ (logical _ _ _) => apply logical_describes; [intros; repeat case_match; ppc|done|done]
  | |- describes _ (add_done _ _ _ _ _ _) => apply add_done_describes; [done|unfold ra, rb; ppc|done]
  | |- describes _ (record _ (ra ?s' _) ?s') => apply recorded; [|reflexivity|done]
  | |- describes _ (record _ (get_gpr ?s' _) ?s') => apply recorded; [|reflexivity|done]
  | |- describes _ (record _ _ _) =>
      apply recorded; [|symmetry; apply get_gpr_set_eq; [done|apply RD_reg]|done]
  end;
  unfold ra, rb, rs, MB, ME, SH; repeat first [apply wf_if|apply wf_SetXER_OV]; ppc.

Lemma op_describes op a f i s :
  run_op op = Some f -> recorded_place op = Some a -> Rc i = true -> is_u32 i -> wf s ->
  describes (if a then RA i else RD i) (f i s).
Proof.
  intros Hf Ha Hrc Hi Hs. destruct op; try discriminate Ha; injection Ha as <-; injection Hf as <-; describe.
Qed.

Lemma recorded_flags : for_all_opcodes (fun p j =>
  implb (is_modelled (op_of p j) && has_flag (info_of p j) FL_RC_BIT)
    (match recorded_place (op_of p j) with Some a => Bool.eqb a (has_flag (info_of p j) FL_OUT_A) | None => false end))
  = true.
Proof. vm_compute. reflexivity. Qed.

(** ** Rotations and masks *)

(** Bit [n] of a mask from bit [mb] to bit [me], counted from the left; the range
    goes around the end when [me < mb]. *)
Definition in_mask (mb me n : Z) : bool :=
  let k := 31 - n in
  if me <? mb then (mb <=? k) || (k <=? me) else (mb <=? k) && (k <=? me).

Lemma testbit_shifted_ones w m n : 0 <= w -> 0 <= m -> 0 <= n ->
  Z.testbit ((2 ^ w - 1) .>> m) n = (n + m <? w).
Proof.
  intros. rewrite Z.shiftr_spec by done. replace (2 ^ w - 1) with (Z.ones w) by (rewrite Z.ones_equiv; lia).
  destruct (Z.ltb_spec (n + m) w); [apply Z.ones_spec_low|apply Z.ones_spec_high]; lia.
Qed.

Lemma testbit_MakeRotationMask mb me n : 0 <= mb < 32 -> 0 <= me < 32 -> 0 <= n < 32 ->
  Z.testbit (MakeRotationMask mb me) n = in_mask mb me n.
Proof.
  intros Hb He Hn.
  assert (E : Z.testbit ((0xFFFFFFFF .>> mb) .^ (0x7FFFFFFF .>> me)) n = xorb (n + mb <? 32) (n + me <? 31)).
  { rewrite Z.lxor_spec. change 0xFFFFFFFF with (2 ^ 32 - 1). change 0x7FFFFFFF with (2 ^ 31 - 1). by rewrite (testbit_shifted_ones 32), (testbit_shifted_ones 31) by lia. }
  unfold MakeRotationMask, in_mask. destruct (Z.ltb_spec me mb);
    [rewrite testbit_u32, Z.lnot_spec by lia|]; rewrite E;
    destruct (Z.ltb_spec (n + mb) 32), (Z.ltb_spec (n + me) 31), (Z.leb_spec mb (31 - n)), (Z.leb_spec (31 - n) me);
    (reflexivity || lia).
Qed.

Lemma testbit_rotl x k n : is_u32 x -> 0 <= k < 32 -> 0 <= n < 32 ->
  Z.testbit (rotl x k) n = Z.testbit x ((n - k) mod 32).
Proof.
  intros [Hx0 Hx]%(bits_above_pow2 x 32 ltac:(lia)) Hk Hn. unfold rotl.
  rewrite Z.lor_spec, testbit_u32, Z.shiftl_spec, Z.shiftr_spec by lia.
  destruct (Z.lt_ge_cases n k).
  - rewrite Z.testbit_neg_r by lia. replace ((n - k) mod 32) with (n + (32 - k)); [done|].
    apply (Z.mod_unique _ _ (-1)); lia.
  - rewrite (Hx (n + (32 - k))), orb_false_r by lia. by rewrite Z.mod_small by lia.
Qed.

Lemma testbit_masked x y mb me n : 0 <= mb < 32 -> 0 <= me < 32 -> 0 <= n < 32 ->
  Z.testbit ((x .& .~ MakeRotationMask mb me) .| (y .& MakeRotationMask mb me)) n =
    if in_mask mb me n then Z.testbit y n else Z.testbit x n.
Proof.
  intros. rewrite Z.lor_spec, !Z.land_spec, Z.lnot_spec, testbit_MakeRotationMask by lia.
  destruct (in_mask mb me n); simpl; rewrite ?andb_true_r, ?andb_false_r; [done|]. apply orb_false_r.
Qed.

Lemma get_gpr_record i v s r : get_gpr (record i v s) r = get_gpr s r.
Proof. unfold record. by destruct (Rc i). Qed.

(** ** Arithmetic shifts *)

Lemma s32_range x : is_s32 (s32 x).
Proof. zlia. Qed.

Lemma s32_u32 x : s32 (u32 x) = s32 x.
Proof. zlia. Qed.

Lemma u32_s32 x : u32 (s32 x) = u32 x.
Proof. zlia. Qed.


(** The bits a shift drops are zero exactly when it is exact. *)
Lemma dropped_bits_zero x n : 0 < n < 32 -> (u32 (x .<< (32 - n)) =? 0) = (x mod 2 ^ n =? 0).
Proof.
  intros Hn. unfold u32. change 0x100000000 with (2 ^ 32). rewrite Z.shiftl_mul_pow2 by lia.
  replace (2 ^ 32) with (2 ^ n * 2 ^ (32 - n)) by (rewrite <- Z.pow_add_r by lia; f_equal; lia).
  pose proof (Z.pow_pos_nonneg 2 n ltac:(lia) ltac:(lia)). pose proof (Z.pow_pos_nonneg 2 (32 - n) ltac:(lia) ltac:(lia)).
  rewrite Z.mul_mod_distr_r by lia.
  destruct (Z.eqb_spec (x mod 2 ^ n) 0) as [->|]; [done|]. apply Z.eqb_neq. nia.
Qed.

(** Rounding towards zero, from rounding down. *)
Lemma quot_div_pow2 x n : 0 <= n ->
  Z.quot x (2 ^ n) = x / 2 ^ n + Z.b2z ((x <? 0) && negb (x mod 2 ^ n =? 0)).
Proof.
  intros Hn. pose proof (Z.pow_pos_nonneg 2 n ltac:(lia) Hn) as Hp. set (p := 2 ^ n) in *.
  destruct (Z.ltb_spec x 0); simpl; [|rewrite Z.quot_div_nonneg by lia; lia].
  replace x with (- - x) at 1 by lia. rewrite Z.quot_opp_l by lia. rewrite Z.quot_div_nonneg by lia.
  pose proof (Z.div_mod x p ltac:(lia)). pose proof (Z.mod_pos_bound x p Hp).
  destruct (Z.eqb_spec (x mod p) 0); simpl.
  - rewrite (Z.div_opp_l_z x p) by lia. lia.
  - rewrite (Z.div_opp_l_nz x p) by lia. lia.
Qed.

(** ** Results of single instructions, without the record bit *)

Section Plain.
Context (i : Z) (s : PowerPCState) (Hrc : Rc i = false) (Hs : wf s).

Lemma srawix_result : get_gpr (srawix i s) (RA i) = u32 (s32 (get_gpr s (RS i)) .>> SH i).
Proof. unfold srawix, sraw_by, record. rewrite Hrc. exact (get_gpr_set_eq _ _ _ Hs (RA_reg i)). Qed.

Lemma srawix_carry : xer_ca (srawix i s) =
  Z.b2z ((s32 (get_gpr s (RS i)) <? 0) && negb (s32 (get_gpr s (RS i)) mod 2 ^ SH i =? 0)).
Proof.
  unfold srawix, sraw_by, record. rewrite Hrc. cbn [SetCarry xer_ca set_xer]. unfold rs.
  pose proof (field_range i 11 5 ltac:(lia)) as Hn. change (field i 11 5) with (SH i) in Hn.
  f_equal. rewrite <- andb_assoc. f_equal. set (x := s32 _).
  destruct (Z.ltb_spec 0 (SH i)); simpl.
  - f_equal. rewrite <- dropped_bits_zero by lia. f_equal. unfold u32. rewrite !Z.shiftl_mul_pow2 by lia.
    by rewrite Z.mul_mod_idemp_l by lia.
  - replace (SH i) with 0 by lia. by rewrite Z.mod_1_r.
Qed.

Lemma addzex_result : get_gpr (addzex i s) (RD i) = u32 (get_gpr s (RA i) + xer_ca s).
Proof. unfold addzex, add_done, record. rewrite Hrc. cbv zeta. destruct (OE i); apply (get_gpr_set_eq _ _ _ Hs (RD_reg i)). Qed.

Lemma subfx_result : get_gpr (subfx i s) (RD i) = u32 (get_gpr s (RB i) - get_gpr s (RA i)).
Proof.
  transitivity (u32 (u32 (u32 (.~ get_gpr s (RA i)) + get_gpr s (RB i)) + 1)).
  - unfold subfx, add_done, record. rewrite Hrc. cbv zeta. destruct (OE i); apply (get_gpr_set_eq _ _ _ Hs (RD_reg i)).
  - rewrite u32_lnot by ppc. zlia.
Qed.

Lemma mullwx_result : get_gpr (mullwx i s) (RD i) = u32 (s32 (get_gpr s (RA i)) * s32 (get_gpr s (RB i))).
Proof. unfold mullwx, record. rewrite Hrc. cbv zeta. destruct (OE i); apply (get_gpr_set_eq _ _ _ Hs (RD_reg i)). Qed.

(** The cases in which a signed division has no result. *)
Definition no_quotient (x y : Z) : bool := (y =? 0) || ((x =? -0x80000000) && (y =? -1)).

Lemma divwx_overflow a b :
  (s32 b =? 0) || ((u32 (s32 a) =? 0x80000000) && (s32 b =? -1)) = no_quotient (s32 a) (s32 b).
Proof.
  unfold no_quotient. f_equal. f_equal. rewrite u32_s32.
  destruct (Z.eqb_spec (u32 a) 0x80000000), (Z.eqb_spec (s32 a) (-0x80000000)); try done; zlia.
Qed.

Lemma divwx_result : get_gpr (divwx i s) (RD i) =
  let x := s32 (get_gpr s (RA i)) in let y := s32 (get_gpr s (RB i)) in
  if no_quotient x y then (if x <? 0 then 0xFFFFFFFF else 0) else u32 (Z.quot x y).
Proof.
  unfold divwx, record. rewrite Hrc. cbv zeta. unfold ra, rb. rewrite divwx_overflow.
  destruct (no_quotient _ _), (OE i); apply (get_gpr_set_eq _ _ _ Hs (RD_reg i)).
Qed.

End Plain.

(** ** Registers an encoded instruction leaves alone *)

Lemma exec_frame p d a b x r s :
  0 <= p < 64 -> p <> 46 -> is_reg d -> is_reg a -> is_reg b -> 0 <= x < 1024 -> is_modelled (op_of p x) = true ->
  wf s -> is_reg r ->
  implb (has_flag (info_of p x) FL_OUT_D) (negb (r =? d)) = true ->
  implb (has_flag (info_of p x) FL_OUT_A) (negb (r =? a)) = true ->
  get_gpr (exec (ppc_word p d a b x) s) r = get_gpr s r.
Proof.
  unfold is_reg. intros Hp H46 Hd Ha Hb Hx Hm Hs Hr Hod Hoa. set (i := ppc_word p d a b x).
  assert (Ei : GetOpInfo i = info_of p x) by (unfold i; by rewrite GetOpInfo_fields, ppc_word_OPCD, ppc_word_SUBOP10 by lia).
  assert (Hi : is_u32 i) by (apply ppc_word_u32; lia).
  assert (Hmi : modelled i = true).
  { unfold modelled, i. rewrite GetInterpreterOp_fields, ppc_word_OPCD, ppc_word_SUBOP10 by lia. exact Hm. }
  apply (fp_frame _ _ _ (declared_footprint i Hi Hmi) s (LGpr r) Hs Hr). cbn [written declared_wr]. rewrite Ei.
  rewrite testbit_regsOut by (try lia; unfold i; by rewrite ppc_word_OPCD by lia).
  unfold i. rewrite ppc_word_RD, ppc_word_RA by lia.
  destruct (has_flag _ FL_OUT_D), (has_flag _ FL_OUT_A); simpl in *; rewrite ?orb_false_r;
    repeat match goal with H : negb _ = true |- _ => apply negb_true_iff in H; rewrite H end; done.
Qed.

(** ** Signed division stays in range *)

Lemma quot_rem_range x y : is_s32 x -> is_s32 y -> no_quotient x y = false ->
  is_s32 (Z.quot x y) /\ is_s32 (Z.rem x y) /\ y <> 0.
Proof.
  unfold no_quotient. intros Hx Hy [H0%Z.eqb_neq H1]%orb_false_iff.
  assert (Ho : ~ (x = -0x80000000 /\ y = -1)) by (intros [-> ->]; done).
  pose proof (Z.quot_rem' x y) as E. pose proof (Z.rem_bound_abs x y H0) as Hb.
  split_and!; [|unfold is_s32 in *; lia|done].
  destruct (Z.eq_dec y 1) as [->|]; [by rewrite Z.quot_1_r|].
  destruct (Z.eq_dec y (-1)) as [->|].
  { change (-1) with (- (1)) in *. rewrite Z.quot_opp_r, Z.quot_1_r by lia. unfold is_s32 in *. lia. }
  assert (Ha : Z.abs (Z.quot x y) * Z.abs y <= Z.abs x).
  { rewrite <- Z.quot_abs by done. rewrite Z.mul_comm. apply Z.mul_quot_le; lia. }
  unfold is_s32 in *. nia.
Qed.

Lemma s32_sub_u32 g m : s32 (g - u32 m) = s32 (s32 g - m).
Proof. zlia. Qed.

(** ** Floating-point formats *)

(** The loop of [ConvertToDouble] moves the leading bit of the fraction to bit 23. *)
Lemma normalize_spec n : forall k frac exp,
  (k < n <= 23)%nat -> 2 ^ (22 - Z.of_nat k) <= frac < 2 ^ (23 - Z.of_nat k) ->
  Z.of_nat (S k) <= exp < 2 ^ 12 ->
  normalize n frac exp = Some (frac * 2 ^ Z.of_nat (S k), exp - Z.of_nat (S k)).
Proof.
  induction n as [|n IH]; intros k frac exp Hn Hf He; [lia|].
  assert (Hle : 2 ^ (23 - Z.of_nat k) <= 2 ^ 23) by (apply Z.pow_le_mono_r; lia).
  cbn [normalize]. rewrite Z.shiftl_mul_pow2 by lia. change (2 ^ 1) with 2.
  assert (0 < 2 ^ (22 - Z.of_nat k)) by (apply Z.pow_pos_nonneg; lia).
  assert (E1 : u64 (frac * 2) = frac * 2) by (unfold u64; apply Z.mod_small; lia).
  assert (E2 : u64 (exp - 1) = exp - 1) by (unfold u64; apply Z.mod_small; lia).
  rewrite E1, E2. pose proof (flag_testbit (frac * 2) 23 ltac:(lia)) as Hb. change (2 ^ 23) with 0x00800000 in Hb.
  rewrite testbit_odd_div in Hb by lia. apply (f_equal negb) in Hb. rewrite negb_involutive in Hb. rewrite Hb.
  destruct k as [|k].
  - assert (Eq : frac * 2 / 2 ^ 23 = 1).
    { symmetry. apply (Z.div_unique _ _ _ (frac * 2 - 2 ^ 23)); simpl in *; lia. }
    rewrite Eq. simpl. do 2 f_equal; lia.
  - assert (Hle2 : 2 ^ (23 - Z.of_nat (S k)) <= 2 ^ 22) by (apply Z.pow_le_mono_r; lia).
    rewrite Z.div_small by lia. cbn [Z.odd negb].
    replace (22 - Z.of_nat (S k)) with (22 - Z.of_nat k - 1) in * by lia.
    replace (23 - Z.of_nat (S k)) with (23 - Z.of_nat k - 1) in * by lia.
    assert (Ep : 2 ^ (22 - Z.of_nat k) = 2 * 2 ^ (22 - Z.of_nat k - 1)) by (rewrite <- Z.pow_succ_r by lia; f_equal; lia).
    assert (Eq : 2 ^ (23 - Z.of_nat k) = 2 * 2 ^ (23 - Z.of_nat k - 1)) by (rewrite <- Z.pow_succ_r by lia; f_equal; lia).
    rewrite (IH k) by lia. rewrite (Nat2Z.inj_succ (S k)), Z.pow_succ_r by lia. f_equal. f_equal; lia.
Qed.

Lemma normalize_ends frac exp : 0 < frac < 2 ^ 23 -> 23 <= exp < 2 ^ 12 -> exists n,
  0 < n <= 23 /\ frac * 2 ^ n < 2 ^ 24 /\ 2 ^ 23 <= frac * 2 ^ n /\
  normalize normalize_fuel frac exp = Some (frac * 2 ^ n, exp - n).
Proof.
  intros Hf He. pose proof (Z.log2_spec frac ltac:(lia)) as [Hl Hh]. pose proof (Z.log2_nonneg frac).
  assert (Hlog : Z.log2 frac < 23) by (apply Z.log2_lt_pow2; lia).
  exists (23 - Z.log2 frac). set (k := Z.to_nat (22 - Z.log2 frac)).
  assert (Ek : Z.of_nat (S k) = 23 - Z.log2 frac) by (unfold k; lia).
  assert (Ep : 2 ^ 23 = 2 ^ Z.log2 frac * 2 ^ (23 - Z.log2 frac)) by (rewrite <- Z.pow_add_r by lia; f_equal; lia).
  rewrite Z.pow_succ_r in Hh by done. pose proof (Z.pow_pos_nonneg 2 (23 - Z.log2 frac) ltac:(lia) ltac:(lia)).
  split_and!; [lia..|nia|nia|].
  assert (Hr : 2 ^ (22 - Z.of_nat k) <= frac < 2 ^ (23 - Z.of_nat k)).
  { replace (22 - Z.of_nat k) with (Z.log2 frac) by lia. replace (23 - Z.of_nat k) with (Z.succ (Z.log2 frac)) by lia.
    rewrite Z.pow_succ_r by done. lia. }
  rewrite (normalize_spec normalize_fuel k) by (unfold normalize_fuel; lia || done).
  by rewrite Ek.
Qed.

(** A mask of [w] bits from bit [k]. *)
Lemma land_field k w v m : 0 <= k -> 0 <= w -> m = (2 ^ w - 1) * 2 ^ k -> v .& m = (v / 2 ^ k) mod 2 ^ w * 2 ^ k.
Proof.
  intros Hk Hw ->. rewrite <- (land_ones_mod w (v / 2 ^ k) (2 ^ w - 1)) by done.
  rewrite <- !Z.shiftl_mul_pow2, <- Z.shiftr_div_pow2 by done. apply Z.bits_inj'. intros n Hn.
  rewrite Z.land_spec, !Z.shiftl_spec by done. rewrite Z.land_spec.
  destruct (Z.lt_ge_cases n k); [by rewrite !(Z.testbit_neg_r _ (n - k)), andb_false_r by lia|].
  rewrite Z.shiftr_spec by lia. do 2 f_equal. lia.
Qed.

Lemma lor_add n h l : 0 <= n -> 0 <= l < 2 ^ n -> h * 2 ^ n .| l = h * 2 ^ n + l.
Proof. intros. rewrite <- (lor_shiftl_add n h l) by done. by rewrite Z.shiftl_mul_pow2. Qed.

Lemma land_not_sign d : is_u64 d -> d .& .~ DOUBLE_SIGN = d mod 2 ^ 63.
Proof.
  intros Hd. rewrite <- Z.land_ones by lia. apply Z.bits_inj'. intros n Hn.
  rewrite !Z.land_spec, Z.lnot_spec by done. change DOUBLE_SIGN with (2 ^ 63). rewrite Z.pow2_bits_eqb by lia.
  destruct (Z.lt_ge_cases n 63).
  - rewrite Z.ones_spec_low by lia. f_equal. apply negb_true_iff, Z.eqb_neq. lia.
  - rewrite Z.ones_spec_high by lia. destruct (Z.eqb_spec 63 n); [done|].
    apply (bits_above_pow2 d 64) in Hd as [_ Hd]; [|done]. by rewrite Hd by lia.
Qed.

(** The bits a single and the double it widens to share. *)
Definition widened (top y low : Z) : Z := top * 2 ^ 62 + y * (7 * 2 ^ 59) + low * 2 ^ 29.

Lemma wide_add top y low : 0 <= top < 4 -> 0 <= y <= 1 -> 0 <= low < 2 ^ 30 ->
  (top * 2 ^ 30 .<< 32) .| ((y .<< 61) .| (y .<< 60) .| (y .<< 59)) .| (low .<< 29) = widened top y low.
Proof.
  intros Ht Hy Hl. unfold widened.
  assert (Ey : (y .<< 61) .| (y .<< 60) .| (y .<< 59) = (y * 7) * 2 ^ 59)
    by (assert (Hc : y = 0 \/ y = 1) by lia; by destruct Hc as [-> | ->]).
  rewrite Ey, !Z.shiftl_mul_pow2 by lia.
  replace (top * 2 ^ 30 * 2 ^ 32) with (top * 2 ^ 62) by lia. rewrite (lor_add 62) by lia.
  replace (top * 2 ^ 62 + y * 7 * 2 ^ 59) with ((top * 8 + y * 7) * 2 ^ 59) by lia.
  rewrite (lor_add 59) by lia. lia.
Qed.

Lemma widened_parts top y low d : 0 <= top < 4 -> 0 <= y <= 1 -> 0 <= low < 2 ^ 30 -> d = widened top y low ->
  u32 (((d .>> 32) .& 0xc0000000) .| ((d .>> 29) .& 0x3fffffff)) = top * 2 ^ 30 + low
  /\ (d .>> 52) .& 0x7ff = top mod 2 * 1024 + y * 896 + low / 2 ^ 23.
Proof.
  intros Ht Hy Hl ->. unfold widened. rewrite !Z.shiftr_div_pow2 by lia.
  rewrite (land_field 30 2 _ 0xc0000000), (land_ones_mod 30 _ 0x3fffffff), (land_ones_mod 11 _ 0x7ff) by done.
  rewrite (lor_add 30) by (lia || (apply Z.mod_pos_bound; lia)). unfold u32.
  assert (Hc : y = 0 \/ y = 1) by lia. destruct Hc as [-> | ->]; split; Z.div_mod_to_equations; lia.
Qed.

(** A single taken apart: the two highest bits and the others. *)
Lemma single_parts x : is_u32 x ->
  x .& 0xc0000000 = (x / 2 ^ 30) * 2 ^ 30 /\ x .& 0x3fffffff = x mod 2 ^ 30 /\
  (x .>> 23) .& 0xff = (x / 2 ^ 30) mod 2 * 128 + (x mod 2 ^ 30) / 2 ^ 23 /\
  x .& 0x007fffff = x mod 2 ^ 23 /\ x .& 0x80000000 = x / 2 ^ 31 * 2 ^ 31.
Proof.
  intros Hx. rewrite !Z.shiftr_div_pow2 by lia.
  rewrite (land_field 30 2 _ 0xc0000000), (land_field 31 1 _ 0x80000000), (land_ones_mod 30 _ 0x3fffffff),
    (land_ones_mod 8 _ 0xff), (land_ones_mod 23 _ 0x007fffff) by done.
  unfold is_u32 in Hx. split_and!; Z.div_mod_to_equations; lia.
Qed.

(** Widening by copying the bits, for everything but denormalized numbers. *)
Lemma wide_to_single x y : is_u32 x -> 0 <= y <= 1 ->
  let d := ((x .& 0xc0000000) .<< 32) .| ((y .<< 61) .| (y .<< 60) .| (y .<< 59)) .| ((x .& 0x3fffffff) .<< 29) in
  let e := (x .>> 23) .& 0xff in
  e + y * 896 + (e / 128) * 896 > 896 \/ (x mod 2 ^ 31 = 0 /\ y = 0) -> ConvertToSingle d = x.
Proof.
  intros Hx Hy. cbv zeta. destruct (single_parts x Hx) as (-> & -> & -> & _).
  set (top := x / 2 ^ 30). set (low := x mod 2 ^ 30).
  assert (Ht : 0 <= top < 4) by (unfold is_u32, top in *; Z.div_mod_to_equations; lia).
  assert (Hl : 0 <= low < 2 ^ 30) by (unfold low; apply Z.mod_pos_bound; lia).
  assert (Ex : x = top * 2 ^ 30 + low) by (unfold top, low; Z.div_mod_to_equations; lia).
  rewrite wide_add by done. intros Hcase.
  destruct (widened_parts top y low _ Ht Hy Hl eq_refl) as [Ep Ee].
  unfold ConvertToSingle. rewrite Ep, Ee. cbv zeta.
  match goal with |- (if ?b then _ else _) = _ => assert (b = true) as ->; [|congruence] end.
  destruct Hcase as [He|[Hz ->]]; apply orb_true_iff.
  - left. apply Z.ltb_lt. assert (Hlo : 0 <= low / 2 ^ 23 < 128) by (Z.div_mod_to_equations; lia).
    Z.div_mod_to_equations; lia.
  - right. apply Z.eqb_eq. rewrite land_not_sign by (unfold is_u64, widened; lia).
    assert (low = 0) as -> by (unfold low; Z.div_mod_to_equations; lia).
    assert (top mod 2 = 0) by (unfold top; Z.div_mod_to_equations; lia).
    unfold widened. Z.div_mod_to_equations; lia.
Qed.

(** Denormalized numbers, normalized in the double format and moved back. *)
Lemma denormal_to_single s f n : 0 <= s <= 1 -> 0 < n <= 23 -> 2 ^ 23 <= f * 2 ^ n < 2 ^ 24 ->
  ConvertToSingle (((s * 2 ^ 31) .<< 32) .| ((897 - n) .<< 52) .| ((f * 2 ^ n) .& 0x007fffff) .<< 29) = s * 2 ^ 31 + f.
Proof.
  intros Hs Hn Hf. set (g := f * 2 ^ n) in *. rewrite (land_ones_mod 23) by done.
  assert (Eg : g mod 2 ^ 23 = g - 2 ^ 23) by (Z.div_mod_to_equations; lia). rewrite Eg, !Z.shiftl_mul_pow2 by lia.
  replace (s * 2 ^ 31 * 2 ^ 32) with (s * 2 ^ 63) by lia. rewrite (lor_add 63) by lia.
  replace (s * 2 ^ 63 + (897 - n) * 2 ^ 52) with ((s * 2 ^ 11 + (897 - n)) * 2 ^ 52) by lia. rewrite (lor_add 52) by lia.
  set (d := (s * 2 ^ 11 + (897 - n)) * 2 ^ 52 + (g - 2 ^ 23) * 2 ^ 29).
  assert (Ee : (d .>> 52) .& 0x7ff = 897 - n).
  { rewrite Z.shiftr_div_pow2, (land_ones_mod 11) by done. unfold d. Z.div_mod_to_equations; lia. }
  assert (Ez : d .& .~ DOUBLE_SIGN =? 0 = false).
  { apply Z.eqb_neq. rewrite land_not_sign by (unfold is_u64, d; lia). unfold d. Z.div_mod_to_equations; lia. }
  assert (Ef : (d .& DOUBLE_FRAC) .>> 21 = (g - 2 ^ 23) * 2 ^ 8).
  { rewrite (land_ones_mod 52), Z.shiftr_div_pow2 by done. unfold d. Z.div_mod_to_equations; lia. }
  assert (Es : u32 ((d .>> 32) .& 0x80000000) = s * 2 ^ 31).
  { rewrite Z.shiftr_div_pow2, (land_field 31 1 _ 0x80000000) by done. unfold d, u32. Z.div_mod_to_equations; lia. }
  unfold ConvertToSingle. cbv zeta. rewrite Ee, Ez, Ef, Es.
  destruct (Z.ltb_spec 896 (897 - n)), (Z.leb_spec 874 (897 - n)); try lia. cbn [orb].
  change 0x80000000 with (1 * 2 ^ 31). rewrite (lor_add 31) by lia. unfold u32. rewrite Z.mod_small by lia.
  rewrite Z.shiftr_div_pow2 by lia. replace (1 * 2 ^ 31 + (g - 2 ^ 23) * 2 ^ 8) with (f * 2 ^ (905 - (897 - n))).
  2:{ replace (905 - (897 - n)) with (n + 8) by lia. rewrite Z.pow_add_r by lia. unfold g. lia. }
  rewrite Z.div_mul by (apply Z.pow_nonzero; lia). rewrite Z.lor_comm.
  apply lor_add; [done|]. pose proof (Z.pow_pos_nonneg 2 n ltac:(lia) ltac:(lia)). unfold g in Hf. nia.
Qed.

(** ** The whole condition register *)

Lemma nibble_at v k : 0 <= k -> ((v .>> k) .& 0xF) .<< k = v .& (0xF .<< k).
Proof.
  intros Hk. rewrite (land_field k 4 v (0xF .<< k)) by (done || by rewrite Z.shiftl_mul_pow2).
  by rewrite Z.shiftl_mul_pow2, (land_ones_mod 4), Z.shiftr_div_pow2 by done.
Qed.

Lemma cr_Set_fields v s j : wf s -> 0 <= j < 8 -> GetField j (cr_Set v s) = (v .>> (28 - j * 4)) .& 0xF.
Proof.
  intros Hs Hj. unfold cr_Set.
  assert (H : forall n, (n <= 8)%nat ->
    let t := fold_left (fun s i => SetField (Z.of_nat i) ((v .>> (28 - Z.of_nat i * 4)) .& 0xF) s) (seq 0 n) s in
    wf t /\ (j < Z.of_nat n -> GetField j t = (v .>> (28 - j * 4)) .& 0xF)).
  { induction n as [|n IH]; intros Hn; cbv zeta; [split; [done|lia]|].
    destruct IH as [W E]; [lia|]. rewrite seq_S, fold_left_app. cbn [fold_left Nat.add]. cbv zeta in *.
    split; [by apply wf_SetField|]. intros Hlt.
    rewrite GetField_SetField by (done || lia || (pose proof (land_mask_range (v .>> (28 - Z.of_nat n * 4)) 0xF); lia)).
    destruct (Z.eqb_spec j (Z.of_nat n)) as [->|]; [done|]. apply E. lia. }
  apply (H 8%nat); lia.
Qed.

Lemma cr_Get_Set v s : wf s -> is_u32 v -> cr_Get (cr_Set v s) = v.
Proof.
  intros Hs Hv. unfold cr_Get. cbn [seq fold_left].
  rewrite !cr_Set_fields by (done || lia). rewrite !nibble_at by lia.
  rewrite Z.lor_0_l, <- !Z.land_lor_distr_r.
  match goal with |- v .& ?m = v => replace m with (2 ^ 32 - 1) by reflexivity end.
  rewrite (land_ones_mod 32) by done. by apply Z.mod_small.
Qed.

(** Four bits of a mask for each field an instruction names. *)
Lemma expand_mask_bits fm n : 0 <= n < 32 -> Z.testbit (expand_mask fm) n = Z.testbit fm (n / 4).
Proof.
  intros Hn. unfold expand_mask.
  assert (H : forall k, (k <= 8)%nat -> Z.testbit (fold_left (fun m i =>
    if negb (fm .& (1 .<< Z.of_nat i) =? 0) then m .| (0xF .<< (Z.of_nat i * 4)) else m) (seq 0 k) 0) n =
    (n / 4 <? Z.of_nat k) && Z.testbit fm (n / 4)).
  { induction k as [|k IH]; intros Hk; [rewrite Z.bits_0; destruct (Z.ltb_spec (n / 4) (Z.of_nat 0)); [Z.div_mod_to_equations; lia|done]|].
    rewrite seq_S, fold_left_app. cbn [fold_left Nat.add]. rewrite Z.shiftl_1_l, flag_testbit by lia.
    specialize (IH ltac:(lia)).
    assert (Eb : Z.testbit (0xF .<< (Z.of_nat k * 4)) n = (n / 4 =? Z.of_nat k)).
    { rewrite Z.shiftl_spec by lia. change 0xF with (Z.ones 4). destruct (Z.eqb_spec (n / 4) (Z.of_nat k)).
      - apply Z.ones_spec_low. Z.div_mod_to_equations; lia.
      - destruct (Z.lt_ge_cases n (Z.of_nat k * 4)); [by apply Z.testbit_neg_r; lia|].
        apply Z.ones_spec_high. Z.div_mod_to_equations; lia. }
    destruct (Z.testbit fm (Z.of_nat k)) eqn:Ef; [rewrite Z.lor_spec, Eb|]; rewrite IH;
      destruct (Z.ltb_spec (n / 4) (Z.of_nat k)), (Z.ltb_spec (n / 4) (Z.of_nat (S k))), (Z.eqb_spec (n / 4) (Z.of_nat k)) as [E|];
      try lia; rewrite ?E, ?Ef; try reflexivity; by destruct (Z.testbit fm (n / 4)). }
  rewrite H by lia. destruct (Z.ltb_spec (n / 4) (Z.of_nat 8)); [done|]. Z.div_mod_to_equations; lia.
Qed.
