(* ===== verification/PPCSpec.v ===== *)
(** * What the integer unit computes

    Properties of the interpreter's instructions seen from the programs that use
    them: numbers of several words, comparisons and branches, shifts, masks and
    divisions. *)
From S2P Require Export PPCArith PPCReorder.

(** A state to try things on: the registers after reset, [gpr] given. *)
Definition demo (regs : list Z) : PowerPCState :=
  set_gprs (regs ++ replicate (32 - length regs) 0) (ResetRegisters false (set_end_block false
    (mkPPC 0 0 [] [] [] 0 0 0 0 0 0 0 [] ∅ false))).

Lemma demo_wf regs : (length regs <= 32)%nat -> Forall is_u32 regs -> wf (demo regs).
Proof.
  intros Hl Hr.
  pose proof (ResetRegisters_wf false (set_end_block false (mkPPC 0 0 [] [] [] 0 0 0 0 0 0 0 [] ∅ false))) as [].
  constructor; try assumption; cbn [demo gpr set_gprs].
  - rewrite length_app, length_replicate. lia.
  - apply Forall_app. split; [done|]. apply Forall_replicate. exact is_u32_0.
Qed.

(** ** Numbers of several words *)

(** C30. [addc] on the lowest words and [adde] on the others add numbers of any
    number of words, and the carry left in XER is the carry of the whole sum. *)
Theorem multiword_addition ls s :
  ls <> [] -> Forall limb_ok ls -> ordered ls -> wf s ->
  let t := exec_all (carry_program 10 138 ls) s in
  number t (map to ls) + 2 ^ (32 * Z.of_nat (length ls)) * GetCarry t =
    number s (map fst_op ls) + number s (map snd_op ls).
Proof.
  intros Hne Hok Hord Hs. rewrite <- limbs_total_sum, <- (Z.add_0_r (limbs_total _ _ _)).
  apply carry_program_total with addcx addex; try done; try lia; try reflexivity;
    intros; [by apply addcx_limb|by apply addex_limb].
Qed.

(** [subfc] and [subfe] subtract numbers of any number of words; the carry
    that is left is clear exactly when the result went below zero. *)
Theorem multiword_subtraction ls s :
  ls <> [] -> Forall limb_ok ls -> ordered ls -> wf s ->
  let t := exec_all (carry_program 8 136 ls) s in
  number t (map to ls) =
    number s (map snd_op ls) - number s (map fst_op ls) + 2 ^ (32 * Z.of_nat (length ls)) * (1 - GetCarry t).
Proof.
  intros Hne Hok Hord Hs t. pose proof (limbs_total_difference s ls) as Hd.
  assert (E : number t (map to ls) + 2 ^ (32 * Z.of_nat (length ls)) * GetCarry t = limbs_total difference_of s ls + 1).
  { apply carry_program_total with subfcx subfex; try done; try lia; try reflexivity;
      intros; [by apply subfcx_limb|by apply subfex_limb]. }
  lia.
Qed.

Definition three_words : list limb := [mkLimb 3 6 9; mkLimb 4 7 10; mkLimb 5 8 11].
Definition operands : list Z := [0; 0; 0; 0; 0; 0; 0xFFFFFFFF; 0xFFFFFFFF; 2; 1; 0; 0xFFFFFFFD].

Lemma three_words_ok : three_words <> [] /\ Forall limb_ok three_words /\ ordered three_words /\ wf (demo operands).
Proof.
  split_and!; [done| | |].
  - repeat constructor; simpl; lia.
  - repeat (split || constructor); simpl; lia.
  - apply demo_wf; [simpl; lia|]. repeat constructor; unfold is_u32; lia.
Qed.

Lemma multiword_addition_witness :
  let t := exec_all (carry_program 10 138 three_words) (demo operands) in
  number t [3; 4; 5] + 2 ^ 96 * GetCarry t = number (demo operands) [6; 7; 8] + number (demo operands) [9; 10; 11]
  /\ GetCarry t = 1.
Proof.
  destruct three_words_ok as (A & B & C & D). split; [|vm_compute; reflexivity].
  exact (multiword_addition three_words (demo operands) A B C D).
Defined.

Lemma multiword_subtraction_witness :
  let t := exec_all (carry_program 8 136 three_words) (demo operands) in
  number t [3; 4; 5] =
    number (demo operands) [9; 10; 11] - number (demo operands) [6; 7; 8] + 2 ^ 96 * (1 - GetCarry t)
  /\ GetCarry t = 1.
Proof.
  destruct three_words_ok as (A & B & C & D). split; [|vm_compute; reflexivity].
  exact (multiword_subtraction three_words (demo operands) A B C D).
Defined.

(** [addme] and [subfme] leave the carry of their addition exactly when the
    carry was clear before: with the carry set the addition always carries, and
    they clear it. *)
Theorem minus_one_carries i s op f :
  Rc i = false -> OE i = false -> wf s -> In (op, f) [(Op.addmex, fun a => a); (Op.subfmex, fun a => 2 ^ 32 - 1 - a)] ->
  GetInterpreterOp i = op ->
  let t := exec i s in
  get_gpr t (RD i) + 2 ^ 32 * GetCarry t = f (get_gpr s (RA i)) + (2 ^ 32 - 1) + GetCarry s <-> GetCarry s = 0.
Proof.
  intros Hrc Hoe Hs Hop Ei. cbv zeta. unfold exec. rewrite Ei.
  pose proof (get_gpr_range Hs (RA i)) as Ha. pose proof (wf_ca s Hs) as Hc. unfold GetCarry.
  simpl in Hop. destruct Hop as [[= <- <-]|[[= <- <-]|[]]]; cbn [run_op];
    unfold addmex, subfmex, add_done, record; cbv zeta; rewrite Hrc, Hoe; unfold ra;
    match goal with |- context [SetCarry ?c ?s] => change (get_gpr (SetCarry c s)) with (get_gpr s) end;
    rewrite get_gpr_set_eq by (done || apply RD_reg); cbn [SetCarry xer_ca set_xer]; unfold GetCarry;
    rewrite ?u32_lnot by done; rewrite Helper_Carry_spec by (unfold is_u32 in *; lia);
    assert (Hcc : xer_ca s = 0 \/ xer_ca s = 1) by lia; destruct Hcc as [-> | ->]; unfold_ints;
    match goal with |- context [?a <=? ?b] => destruct (Z.leb_spec a b) end; cbn [Z.b2z];
    (split; intros; [|]); Z.div_mod_to_equations; lia.
Qed.

(** ** Comparisons and branches *)

(** After a comparison, a branch on the field it set is taken exactly when the
    relation between the two numbers holds (or fails, for the opposite branch). *)
Theorem compare_and_branch i j a s x y :
  wf s -> is_u32 i -> comparands i s = Some (x, y) ->
  GetInterpreterOp j = Op.bcx -> BO j = 12 \/ BO j = 4 -> BI j .>> 2 = CRFD i ->
  let t := at_pc a (exec i s) in
  npc (exec j t) =
    if Bool.eqb (cr_relation (BI j .& 3) x y (GetXER_SO s)) (BO j =? 12) then bc_target j t else u32 (a + 4).
Proof.
  intros Hs Hi Hc Hj Hbo Hbi. cbv zeta. rewrite (exec_compare i s x y Hc). unfold exec. rewrite Hj. cbn [run_op].
  rewrite (bcx_condition j _ (cr_relation (BI j .& 3) x y (GetXER_SO s))); [done|done|].
  exact (GetBit_IntCompare i x y s (BI j) Hs Hbi).
Qed.

(** An instruction with a record bit that is set leaves in CR0 the sign of the
    number it leaves in its destination register, and the summary overflow. *)
Theorem record_bit_describes_result i s :
  is_u32 i -> wf s -> modelled i = true -> has_flag (GetOpInfo i) FL_RC_BIT = true -> Rc i = true ->
  let d := if has_flag (GetOpInfo i) FL_OUT_A then RA i else RD i in
  let t := exec i s in
  GetField 0 t = (if s32 (get_gpr t d) <? 0 then CR_LT else if 0 <? s32 (get_gpr t d) then CR_GT else CR_EQ)
    .| GetXER_SO t.
Proof.
  intros Hi Hs Hm Hf Hrc. cbv zeta.
  pose proof (for_all_opcodes_spec _ i recorded_flags) as H. cbv beta in H.
  rewrite <- GetInterpreterOp_fields, <- GetOpInfo_fields, Hf in H.
  unfold modelled in Hm. unfold exec, is_modelled in *.
  destruct (run_op (GetInterpreterOp i)) as [f|] eqn:Ef; [|done].
  destruct (recorded_place (GetInterpreterOp i)) as [a|] eqn:Ea; [|done]. apply eqb_prop in H. rewrite <- H.
  exact (op_describes _ a f i s Ef Ea Hrc Hi Hs).
Qed.

(** ** Rotations *)

(** [rlwinm] and [rlwimi], bit by bit: inside the mask the rotated source,
    outside zero or the old destination. *)
Theorem rotations_by_bits i s n :
  wf s -> is_u32 i -> 0 <= n < 32 ->
  let rotated := Z.testbit (get_gpr s (RS i)) ((n - SH i) mod 32) in
  Z.testbit (get_gpr (rlwinmx i s) (RA i)) n = (if in_mask (MB i) (ME i) n then rotated else false) /\
  Z.testbit (get_gpr (rlwimix i s) (RA i)) n =
    (if in_mask (MB i) (ME i) n then rotated else Z.testbit (get_gpr s (RA i)) n).
Proof.
  intros Hs Hi Hn. cbv zeta. unfold rlwinmx, rlwimix. cbv zeta. rewrite !get_gpr_record.
  pose proof (get_gpr_range Hs (RS i)) as Hr. pose proof (field_range i 11 5 ltac:(lia)) as Hsh.
  pose proof (field_range i 6 5 ltac:(lia)) as Hmb. pose proof (field_range i 1 5 ltac:(lia)) as Hme.
  rewrite !get_gpr_set_eq by (done || apply RA_reg). unfold rs, ra, MB, ME, SH in *.
  rewrite testbit_masked, Z.land_spec, testbit_MakeRotationMask, testbit_rotl by (done || lia).
  split; [|done]. destruct (in_mask _ _ n); [by rewrite andb_true_r|by rewrite andb_false_r].
Qed.

(** ** Division *)

Lemma exec_all_cons i code s : exec_all (i :: code) s = exec_all code (exec i s).
Proof. done. Qed.

(** [srawi] by [n] followed by [addze] divides a signed number by [2 ^ n],
    rounding towards zero. *)
Theorem shift_and_addze_divides d a r n s :
  is_reg d -> is_reg a -> is_reg r -> 0 <= n < 32 -> wf s ->
  let t := exec_all [ppc_word 31 r a n 824; ppc_word 31 d a 0 202] s in
  s32 (get_gpr t d) = Z.quot (s32 (get_gpr s r)) (2 ^ n).
Proof.
  unfold is_reg. intros Hd Ha Hr Hn Hs. cbv zeta. rewrite !exec_all_cons. unfold exec_all, fold_left.
  rewrite (exec_encoded 31 r a n 824 Op.srawix srawix) by (done || lia).
  rewrite (exec_encoded 31 d a 0 202 Op.addzex addzex) by (done || lia).
  set (i := ppc_word 31 r a n 824). set (j := ppc_word 31 d a 0 202).
  assert (Hws : wf (srawix i s)) by (apply (run_op_keeps Op.srawix); [done|apply ppc_word_u32; lia|done]).
  assert (Ei : RA i = a /\ RS i = r /\ SH i = n /\ Rc i = false).
  { change (RS i) with (RD i). change (SH i) with (RB i). unfold i.
    by rewrite ppc_word_RA, ppc_word_RD, ppc_word_RB, ppc_word_Rc by lia. }
  assert (Ej : RA j = a /\ RD j = d /\ Rc j = false) by (unfold j; by rewrite ppc_word_RA, ppc_word_RD, ppc_word_Rc by lia).
  destruct Ei as (Ea & Er & En & Ec), Ej as (Fa & Fd & Fc).
  pose proof (addzex_result j _ Fc Hws) as E. pose proof (srawix_result i s Ec Hs) as F.
  pose proof (srawix_carry i s Ec) as G. rewrite Fd, Fa, <- Ea in E. rewrite E, F, G, Er, En.
  rewrite quot_div_pow2, Z.shiftr_div_pow2 by lia. set (x := s32 (get_gpr s r)).
  assert (Hx : is_s32 x) by apply s32_range.
  pose proof (Z.pow_pos_nonneg 2 n ltac:(lia) ltac:(lia)).
  assert (Hq : is_s32 (x / 2 ^ n + Z.b2z ((x <? 0) && negb (x mod 2 ^ n =? 0)))).
  { pose proof (Z.div_mod x (2 ^ n) ltac:(lia)). pose proof (Z.mod_pos_bound x (2 ^ n) ltac:(lia)).
    unfold is_s32 in *. destruct (Z.ltb_spec x 0), (Z.eqb_spec (x mod 2 ^ n) 0); simpl; nia. }
  rewrite s32_u32, <- (s32_id _ Hq) at 1. unfold s32, u32. Z.div_mod_to_equations. lia.
Qed.

(** [divw], [mullw] and [subf] compute the quotient and the remainder of a
    signed division that has a quotient. *)
Theorem divide_multiply_subtract d e q a b s :
  is_reg d -> is_reg e -> is_reg q -> is_reg a -> is_reg b -> q <> a -> q <> b -> e <> a -> e <> q -> d <> q -> wf s ->
  let x := s32 (get_gpr s a) in let y := s32 (get_gpr s b) in
  no_quotient x y = false ->
  let t := exec_all [ppc_word 31 q a b 491; ppc_word 31 e q b 235; ppc_word 31 d e a 40] s in
  s32 (get_gpr t q) = Z.quot x y /\ s32 (get_gpr t d) = Z.rem x y.
Proof.
  intros Hd He Hq Ha Hb Hqa Hqb Hea Heq Hdq Hs x y Hno t. subst t. unfold is_reg in *.
  rewrite !exec_all_cons. unfold exec_all, fold_left.
  assert (K : forall w f r u v z, run_op (op_of 31 w) = Some f -> 0 <= w < 1024 -> 0 <= r < 32 -> 0 <= u < 32 ->
    0 <= v < 32 -> wf z -> wf (exec (ppc_word 31 r u v w) z)).
  { intros. apply exec_keeps; [by apply ppc_word_u32|done]. }
  set (s1 := exec (ppc_word 31 q a b 491) s).
  assert (W1 : wf s1) by (eapply (K 491 divwx); done || lia).
  set (s2 := exec (ppc_word 31 e q b 235) s1).
  assert (W2 : wf s2) by (eapply (K 235 mullwx); done || lia).
  assert (R1 : get_gpr s1 q = u32 (Z.quot x y)).
  { unfold s1. rewrite (exec_encoded 31 q a b 491 Op.divwx divwx) by (done || lia).
    pose proof (divwx_result (ppc_word 31 q a b 491) s ltac:(by rewrite ppc_word_Rc by lia) Hs) as E.
    rewrite ppc_word_RD, ppc_word_RA, ppc_word_RB in E by lia. cbv zeta in E. fold x y in E. by rewrite Hno in E. }
  assert (R2 : get_gpr s2 e = u32 (s32 (get_gpr s1 q) * s32 (get_gpr s1 b))).
  { unfold s2. rewrite (exec_encoded 31 e q b 235 Op.mullwx mullwx) by (done || lia).
    pose proof (mullwx_result (ppc_word 31 e q b 235) s1 ltac:(by rewrite ppc_word_Rc by lia) W1) as E.
    by rewrite ppc_word_RD, ppc_word_RA, ppc_word_RB in E by lia. }
  set (t := exec (ppc_word 31 d e a 40) s2).
  assert (R3 : get_gpr t d = u32 (get_gpr s2 a - get_gpr s2 e)).
  { unfold t. rewrite (exec_encoded 31 d e a 40 Op.subfx subfx) by (done || lia).
    pose proof (subfx_result (ppc_word 31 d e a 40) s2 ltac:(by rewrite ppc_word_Rc by lia) W2) as E.
    by rewrite ppc_word_RD, ppc_word_RA, ppc_word_RB in E by lia. }
  assert (F1 : forall r, 0 <= r < 32 -> r <> q -> get_gpr s1 r = get_gpr s r).
  { intros r Hr Hne. apply exec_frame; done || lia. }
  assert (F2 : forall r, 0 <= r < 32 -> r <> e -> get_gpr s2 r = get_gpr s1 r).
  { intros r Hr Hne. apply exec_frame; done || lia. }
  assert (F3 : get_gpr t q = get_gpr s2 q).
  { apply exec_frame; done || lia. }
  rewrite F3, R3, F2, R1, F2, (F1 a), R2, R1, (F1 b) by (done || congruence). fold y.
  destruct (quot_rem_range x y) as (Hqr & Hrr & Hy0); [apply s32_range..|done|].
  rewrite !s32_u32, (s32_id _ Hqr), s32_sub_u32. fold x. split; [done|].
  rewrite <- (s32_id _ Hrr), Z.rem_eq by done. f_equal. lia.
Qed.

(** ** Floating-point formats *)

(** Loading a single-precision number and storing it back gives the same
    bits, for every bit pattern: zeros, denormalized and normalized numbers,
    infinities and NaNs; the loop that normalizes a number ends. *)
Theorem single_survives_registers x :
  is_u32 x -> exists d, ConvertToDouble x = Some d /\ ConvertToSingle d = x.
Proof.
  intros Hx. destruct (single_parts x Hx) as (E1 & E2 & E3 & E4 & E5).
  set (e := (x .>> 23) .& 0xff) in *.
  assert (He : 0 <= e < 256) by (rewrite E3; Z.div_mod_to_equations; lia).
  assert (Exp : e .>> 7 = e / 128) by (by rewrite Z.shiftr_div_pow2).
  unfold ConvertToDouble. fold e. cbv zeta.
  destruct (Z.ltb_spec 0 e), (Z.ltb_spec e 255); cbn [andb].
  - eexists. split; [reflexivity|]. apply wide_to_single; [done|apply b2z_range|]. left. fold e. rewrite Exp.
    destruct (Z.eqb_spec (e / 128) 0); simpl; Z.div_mod_to_equations; lia.
  - destruct (Z.eqb_spec e 0); [lia|]. cbn [andb]. eexists. split; [reflexivity|].
    assert (Ee : e = 255) by lia. apply wide_to_single; [done|rewrite Ee; vm_compute; split; discriminate|].
    left. fold e. rewrite Ee. reflexivity.
  - assert (Ee : e = 0) by lia. rewrite Ee, E4. cbn [Z.eqb andb].
    destruct (Z.eqb_spec (x mod 2 ^ 23) 0) as [Hz|Hz]; cbn [negb].
    + eexists. split; [reflexivity|]. apply wide_to_single; [done|vm_compute; split; discriminate|].
      right. split; [|reflexivity]. rewrite Ee in E3. unfold is_u32 in Hx. Z.div_mod_to_equations; lia.
    + destruct (normalize_ends (x mod 2 ^ 23) (1023 - 126)) as (n & Hn & Hh & Hl & ->); [Z.div_mod_to_equations; lia|lia|].
      eexists. split; [reflexivity|]. rewrite E5. change (1023 - 126) with 897.
      rewrite denormal_to_single; [|unfold is_u32 in Hx; Z.div_mod_to_equations; lia|lia|lia].
      rewrite Ee in E3. unfold is_u32 in Hx. Z.div_mod_to_equations; lia.
  - lia.
Qed.

(** ** Exceptions *)

(** What a system call handler must leave alone to return with [rfi]. *)
Definition returns_to (s t : PowerPCState) : Prop :=
  SRR0 t = SRR0 s /\ SRR1 t = SRR1 s /\ msr t = msr s.

Lemma pending_syscall s f : EXCEPTION_SYSCALL .& f = 0 ->
  pending (set_Exceptions (Exceptions s .| EXCEPTION_SYSCALL) s) f = pending s f.
Proof. intros E. unfold pending. cbn [Exceptions set_Exceptions]. by rewrite Z.land_lor_distr_l, E, Z.lor_0_r. Qed.

Lemma sc_state i s : pending s EXCEPTION_ISI = false -> pending s EXCEPTION_PROGRAM = false ->
  let t := PPCBranch.sc i s in
  pc t = 0xC00 /\ npc t = 0xC00 /\ SRR0 t = npc s /\ SRR1 t = msr s .& SRR1_MASK /\
  msr t = ((msr s .& .~ 1) .| Z.b2z (MSR_ILE s)) .& .~ MSR_CLEARED.
Proof.
  intros Hi Hp. cbv zeta. unfold PPCBranch.sc, CheckExceptions.
  rewrite !pending_syscall, Hi, Hp by done.
  assert (Hs : pending (set_Exceptions (Exceptions s .| EXCEPTION_SYSCALL) s) EXCEPTION_SYSCALL = true).
  { unfold pending. cbn [Exceptions set_Exceptions]. change EXCEPTION_SYSCALL with (2 ^ 1). rewrite flag_testbit, Z.lor_spec by lia. apply orb_true_r. }
  rewrite Hs. split_and!; try reflexivity; unfold SRR0, SRR1, get_spr;
    cbn -[lookup insert SPR_SRR0 SPR_SRR1 MSR_ILE msr Z.land Z.lor Z.lnot].
  - by rewrite lookup_insert_ne, lookup_insert by done.
  - by rewrite lookup_insert.
Qed.

(** The bits of MSR that an exception clears and [rfi] brings back. *)
Lemma msr_restored m ile :
  (((((m .& .~ 1) .| Z.b2z ile) .& .~ MSR_CLEARED) .& .~ SRR1_MASK) .| (m .& SRR1_MASK)) .& 0xFFFBFFFF = m .& 0xFFFBFFFF.
Proof.
  assert (H1 : 1 .& .~ SRR1_MASK = 0) by reflexivity.
  assert (H2 : Z.b2z ile .& .~ SRR1_MASK = 0) by by destruct ile.
  assert (H3 : MSR_CLEARED .& 0xFFFBFFFF .& .~ SRR1_MASK = 0) by reflexivity.
  apply Z.bits_inj'. intros n Hn. apply (f_equal (fun z => Z.testbit z n)) in H1, H2, H3.
  rewrite Z.land_spec, Z.lnot_spec, Z.bits_0 in H1, H2 by done.
  rewrite !Z.land_spec, Z.lnot_spec, Z.bits_0 in H3 by done.
  repeat rewrite ?Z.land_spec, ?Z.lor_spec, ?Z.lnot_spec by done.
  destruct (Z.testbit m n), (Z.testbit 1 n), (Z.testbit (Z.b2z ile) n), (Z.testbit MSR_CLEARED n),
    (Z.testbit SRR1_MASK n), (Z.testbit 0xFFFBFFFF n); done.
Qed.

(** A system call enters the handler at 0xC00 with the privilege and
    interrupt bits clear; when the handler has left SRR0, SRR1 and MSR as it found
    them, [rfi] goes on after the call with the MSR of the caller (but for the bit
    [rfi] always clears). *)
Theorem syscall_returns i j s t :
  pending s EXCEPTION_ISI = false -> pending s EXCEPTION_PROGRAM = false ->
  returns_to (PPCBranch.sc i s) t ->
  pc (PPCBranch.sc i s) = 0xC00 /\ MSR_PR (PPCBranch.sc i s) = false /\ MSR_EE (PPCBranch.sc i s) = false /\
  npc (rfi j t) = npc s /\ msr (rfi j t) = msr s .& 0xFFFBFFFF.
Proof.
  intros Hi Hp (E0 & E1 & Em). destruct (sc_state i s Hi Hp) as (Hpc & _ & H0 & H1 & Hm).
  assert (Hc : forall n, 0 <= n -> Z.testbit MSR_CLEARED n = true -> Z.testbit (msr (PPCBranch.sc i s)) n = false).
  { intros n Hn E. by rewrite Hm, Z.land_spec, Z.lnot_spec, E, andb_false_r by done. }
  assert (Hpr : MSR_PR (PPCBranch.sc i s) = false) by by apply Hc.
  split_and!; [done|done|by apply Hc|..]; unfold rfi, MSR_PR in *; rewrite Em, Hpr.
  - change (SRR0 t = npc s). congruence.
  - transitivity (((msr t .& .~ SRR1_MASK) .| (SRR1 t .& SRR1_MASK)) .& 0xFFFBFFFF); [by rewrite Em|].
    rewrite Em, E1, H1, Hm, <- (Z.land_assoc (msr s) SRR1_MASK SRR1_MASK), Z.land_diag. apply msr_restored.
Qed.

(** ** The condition register as a word *)

(** [mtcrf] moves the fields its mask names from a general register and
    leaves the others, as [mfcr] reads them back. *)
Theorem mtcrf_moves_fields i j s n :
  wf s -> 0 <= n < 32 ->
  Z.testbit (get_gpr (mfcr j (mtcrf i s)) (RD j)) n =
    if Z.testbit (CRM i) (n / 4) then Z.testbit (get_gpr s (RS i)) n else Z.testbit (cr_Get s) n.
Proof.
  intros Hs Hn. set (v := get_gpr s (RS i)). assert (Hv : is_u32 v) by (by apply get_gpr_range).
  assert (Hw : wf (mtcrf i s)).
  { unfold mtcrf. fold v. cbv zeta. destruct (CRM i =? 255); by apply wf_cr_Set. }
  unfold mfcr. rewrite get_gpr_set_eq by (done || apply RD_reg).
  unfold mtcrf. fold v. cbv zeta. destruct (Z.eqb_spec (CRM i) 255) as [->|].
  - rewrite cr_Get_Set by done. change 255 with (Z.ones 8).
    rewrite Z.ones_spec_low by (Z.div_mod_to_equations; lia). done.
  - rewrite cr_Get_Set; [|done|apply is_u32_lor; [apply is_u32_land, cr_Get_u32|by apply is_u32_land]].
    rewrite Z.lor_spec, !Z.land_spec, Z.lnot_spec, expand_mask_bits by lia.
    destruct (Z.testbit (CRM i) (n / 4)); simpl; rewrite ?andb_true_r, ?andb_false_r, ?orb_false_r; done.
Qed.

(** ** Counted loops *)

(** A loop that ends with [bdnz]: the body, then the branch at [a], which goes back
    while it is taken. *)
Fixpoint bdnz_loop (fuel : nat) (body : PowerPCState -> PowerPCState) (j a : Z) (s : PowerPCState) : option PowerPCState :=
  match fuel with
  | O => None
  | S fuel =>
      let s := bcx j (at_pc a (body s)) in
      if npc s =? u32 (a + 4) then Some s else bdnz_loop fuel body j a s
  end.
Fixpoint times (n : nat) (f : PowerPCState -> PowerPCState) (s : PowerPCState) : PowerPCState :=
  match n with O => s | S n => times n f (f s) end.

Lemma bdnz_step j a s m : BO j = 16 -> LK j = false -> CTR s = u32 (m + 1) -> 0 <= m < 2 ^ 32 ->
  CTR (bcx j (at_pc a s)) = m /\
  npc (bcx j (at_pc a s)) = if m =? 0 then u32 (a + 4) else bc_target j (at_pc a s).
Proof.
  intros Hbo Hlk Hc Hm. set (t := at_pc a s). set (t1 := decrement_CTR t).
  assert (E : CTR t1 = m).
  { unfold t1, decrement_CTR, CTR, get_spr. cbn [spr set_spr set_sprs]. rewrite lookup_insert. cbn [default].
    change (u32 (CTR s - 1) = m). rewrite Hc. unfold u32. Z.div_mod_to_equations. lia. }
  assert (Eb : bcx j t = set_end_block true (if m =? 0 then t1 else set_npc (bc_target j t) t1)).
  { unfold bcx. rewrite Hbo, Hlk. change (16 .& BO_DONT_DECREMENT_FLAG =? 0) with true. cbv zeta.
    change (negb ((16 .>> 2) .& 1 =? 0)) with false. change (negb ((16 .>> 4) .& 1 =? 0)) with true.
    cbn iota. fold t1. rewrite E. unfold bc_target. cbv zeta. f_equal.
    by destruct (Z.eqb_spec m 0), (AA j). }
  rewrite Eb. by destruct (m =? 0).
Qed.

(** A loop closed by [bdnz] runs its body as often as the count register says,
    [2 ^ 32] times for a count of zero: it ends after exactly that many turns with the
    counter at zero, whatever the body does, as long as it leaves the counter
    alone. *)
Theorem bdnz_loop_ends body j a n s :
  (forall t, CTR (body t) = CTR t) -> BO j = 16 -> LK j = false -> bc_target j (at_pc a s) <> u32 (a + 4) ->
  (0 < n)%nat -> Z.of_nat n <= 2 ^ 32 -> CTR s = u32 (Z.of_nat n) ->
  exists t, bdnz_loop n body j a s = Some t /\ CTR t = 0 /\ npc t = u32 (a + 4) /\
    t = times n (fun s => bcx j (at_pc a (body s))) s.
Proof.
  intros Hbody Hbo Hlk Ht. revert s Ht. induction n as [|n IH]; intros s Ht H0 Hn Hc; [lia|].
  destruct (bdnz_step j a (body s) (Z.of_nat n)) as [E1 E2]; [done|done|rewrite Hbody, Hc; f_equal; lia|lia|].
  cbn [bdnz_loop times]. cbv zeta. set (s1 := bcx j (at_pc a (body s))) in *. rewrite E2.
  destruct n as [|n].
  - cbn [Z.of_nat Z.eqb]. rewrite Z.eqb_refl. exists s1. by rewrite E2.
  - destruct (Z.eqb_spec (Z.of_nat (S n)) 0) as [|_]; [lia|].
    destruct (Z.eqb_spec (bc_target j (at_pc a (body s))) (u32 (a + 4))) as [|_]; [done|].
    apply IH; [done|lia|lia|]. rewrite E1. unfold u32. rewrite Z.mod_small; lia.
Qed.

(** ** The properties on concrete instructions *)

Ltac u32_const := vm_compute; split; [discriminate|reflexivity].
Ltac instance H := let X := fresh in pose proof H as X; vm_compute in X |- *; exact X.

Definition small_numbers : list Z := [0; 0; 0; 7; 0xFFFFFFF9; 7; 2].
Lemma small_numbers_wf : wf (demo small_numbers).
Proof. apply demo_wf; [simpl; lia|]. repeat constructor; unfold is_u32; lia. Qed.

(** [addme r3, r5] *)
Lemma minus_one_carries_witness :
  let t := exec (ppc_word 31 3 5 0 234) (demo small_numbers) in
  get_gpr t 3 + 2 ^ 32 * GetCarry t = 7 + (2 ^ 32 - 1) + 0 <-> 0 = 0.
Proof.
  instance (minus_one_carries (ppc_word 31 3 5 0 234) (demo small_numbers) Op.addmex (fun a => a)
    eq_refl eq_refl small_numbers_wf (or_introl eq_refl) eq_refl).
Defined.

(** [cmpw cr2, r3, r5; beq cr2, .+0x40] at 0x100 *)
Lemma compare_and_branch_witness :
  npc (exec (16 * 2 ^ 26 + 12 * 2 ^ 21 + 10 * 2 ^ 16 + 0x40)
    (at_pc 0x104 (exec (ppc_word 31 8 3 5 0) (demo small_numbers)))) = 0x144.
Proof.
  instance (compare_and_branch (ppc_word 31 8 3 5 0) (16 * 2 ^ 26 + 12 * 2 ^ 21 + 10 * 2 ^ 16 + 0x40) 0x104
    (demo small_numbers) 7 7 small_numbers_wf ltac:(u32_const) eq_refl eq_refl
    (or_introl eq_refl) eq_refl).
Defined.

(** [add. r0, r3, r4] *)
Lemma record_bit_describes_result_witness : GetField 0 (exec (ppc_word 31 0 3 4 266 + 1) (demo small_numbers)) = CR_EQ.
Proof.
  instance (record_bit_describes_result (ppc_word 31 0 3 4 266 + 1) (demo small_numbers)
    ltac:(u32_const) small_numbers_wf eq_refl eq_refl eq_refl).
Defined.

(** [rlwinm r5, r4, 8, 28, 3], bit 30 *)
Lemma rotations_by_bits_witness :
  let i := 21 * 2 ^ 26 + 4 * 2 ^ 21 + 5 * 2 ^ 16 + 8 * 2 ^ 11 + 28 * 2 ^ 6 + 3 * 2 in
  Z.testbit (get_gpr (rlwinmx i (demo small_numbers)) 5) 30 = true.
Proof.
  instance (proj1 (rotations_by_bits (21 * 2 ^ 26 + 4 * 2 ^ 21 + 5 * 2 ^ 16 + 8 * 2 ^ 11 + 28 * 2 ^ 6 + 3 * 2)
    (demo small_numbers) 30 small_numbers_wf ltac:(u32_const) ltac:(lia))).
Defined.

(** -7 divided by 2 *)
Lemma shift_and_addze_divides_witness :
  s32 (get_gpr (exec_all [ppc_word 31 4 0 1 824; ppc_word 31 3 0 0 202] (demo small_numbers)) 3) = -3.
Proof.
  instance (shift_and_addze_divides 3 0 4 1 (demo small_numbers) ltac:(unfold is_reg; lia) ltac:(unfold is_reg; lia)
    ltac:(unfold is_reg; lia) ltac:(lia) small_numbers_wf).
Defined.

Lemma divide_multiply_subtract_witness :
  let t := exec_all [ppc_word 31 7 4 6 491; ppc_word 31 8 7 6 235; ppc_word 31 9 8 4 40] (demo small_numbers) in
  s32 (get_gpr t 7) = -3 /\ s32 (get_gpr t 9) = -1.
Proof.
  instance (divide_multiply_subtract 9 8 7 4 6 (demo small_numbers) ltac:(unfold is_reg; lia) ltac:(unfold is_reg; lia)
    ltac:(unfold is_reg; lia) ltac:(unfold is_reg; lia) ltac:(unfold is_reg; lia) ltac:(lia) ltac:(lia) ltac:(lia)
    ltac:(lia) ltac:(lia) small_numbers_wf eq_refl).
Defined.

(** The smallest denormalized number. *)
Lemma single_survives_registers_witness : exists d, ConvertToDouble 1 = Some d /\ ConvertToSingle d = 1.
Proof. exact (single_survives_registers 1 ltac:(u32_const)). Defined.

Lemma syscall_returns_witness :
  let s := at_pc 0x80003000 (set_msr 0xF032 (demo small_numbers)) in
  npc (rfi 0 (set_gpr 3 1 (PPCBranch.sc 0 s))) = 0x80003004 /\ msr (rfi 0 (set_gpr 3 1 (PPCBranch.sc 0 s))) = 0xF032.
Proof.
  cbv zeta. set (s := at_pc 0x80003000 (set_msr 0xF032 (demo small_numbers))).
  assert (Hi : pending s EXCEPTION_ISI = false /\ pending s EXCEPTION_PROGRAM = false) by (vm_compute; done).
  assert (Hr : returns_to (PPCBranch.sc 0 s) (set_gpr 3 1 (PPCBranch.sc 0 s))) by (split_and!; vm_compute; reflexivity).
  destruct (syscall_returns 0 0 s _ (proj1 Hi) (proj2 Hi) Hr) as (_ & _ & _ & H1 & H2).
  split; [rewrite H1|rewrite H2]; vm_compute; reflexivity.
Defined.

(** [mtcrf 0x80, r4]: the first field only *)
Lemma mtcrf_moves_fields_witness :
  Z.testbit (get_gpr (mfcr 0 (mtcrf (4 * 2 ^ 21 + 0x80 * 2 ^ 12) (demo small_numbers))) 0) 31 = true.
Proof.
  instance (mtcrf_moves_fields (4 * 2 ^ 21 + 0x80 * 2 ^ 12) 0 (demo small_numbers) 31 small_numbers_wf ltac:(lia)).
Defined.

(** A loop of three turns that counts in r3. *)
Lemma bdnz_loop_ends_witness :
  let j := 16 * 2 ^ 26 + 16 * 2 ^ 21 + 0xFFF8 in
  exists t, bdnz_loop 3 (fun s => set_gpr 3 (get_gpr s 3 + 1) s) j 0x104 (set_spr SPR_CTR 3 (demo small_numbers)) = Some t
    /\ CTR t = 0 /\ get_gpr t 3 = 10.
Proof.
  destruct (bdnz_loop_ends (fun s => set_gpr 3 (get_gpr s 3 + 1) s) (16 * 2 ^ 26 + 16 * 2 ^ 21 + 0xFFF8) 0x104 3
    (set_spr SPR_CTR 3 (demo small_numbers)) (fun t => eq_refl) eq_refl eq_refl ltac:(vm_compute; discriminate)
    ltac:(lia) ltac:(lia) eq_refl) as (t & H1 & H2 & _ & H3).
  exists t. split; [exact H1|]. split; [exact H2|]. rewrite H3. vm_compute. reflexivity.
Defined.

(** * Runs of the PowerPC core

    Whatever instructions run and whatever exceptions are requested, the registers
    hold numbers of their widths. *)

(** From reset, every run of the interpreter keeps the registers' types: any
    sequence of instructions, requests of exceptions and looks at them, with any
    memory to fetch from, reaches only well-formed states. *)
Theorem cpu_keeps_types {F : Fetch} {Fok : FetchOk F} is_wii s0 es it :
  cpu_run es (mkInterpreter (ResetRegisters is_wii s0) 0 0) = Some it -> wf (core it).
Proof.
  assert (H : wf (core (mkInterpreter (ResetRegisters is_wii s0) 0 0))) by apply ResetRegisters_wf.
  revert H. generalize (mkInterpreter (ResetRegisters is_wii s0) 0 0) as i.
  induction es as [|e es IH]; intros i Hi.
  - by intros [= <-].
  - rewrite cpu_run_cons. destruct (cpu_step i e) as [i1|] eqn:E; simpl; [|done].
    intros H. apply (IH i1); [|done]. exact (cpu_step_keeps i e i1 Hi E).
Qed.

(** A memory that holds the same word everywhere. *)
Definition constant_fetch (w : Z) : Fetch := {|
  Read_Opcode _ s := (u32 w, s);
  HandleFunctionHooking _ s := (false, s)
|}.
#[export] Instance constant_fetch_ok w : FetchOk (constant_fetch w).
Proof. split; intros; simpl; [split; [apply is_u32_u32|done]|done]. Qed.

(** Reset, two additions, an interrupt that is taken when it is looked at. *)
Lemma cpu_keeps_types_witness :
  exists it, cpu_run (F := constant_fetch (14 * 2 ^ 26 + 3 * 2 ^ 21 + 3 * 2 ^ 16 + 7))
    [Instruction; Instruction; Request EXCEPTION_SYSCALL; Look]
    (mkInterpreter (ResetRegisters false (demo [])) 0 0) = Some it /\
    wf (core it) /\ get_gpr (core it) 3 = 14 /\ pc (core it) = 0xC00.
Proof.
  destruct (cpu_run (F := constant_fetch (14 * 2 ^ 26 + 3 * 2 ^ 21 + 3 * 2 ^ 16 + 7))
    [Instruction; Instruction; Request EXCEPTION_SYSCALL; Look]
    (mkInterpreter (ResetRegisters false (demo [])) 0 0)) as [it|] eqn:E; [|vm_compute in E; discriminate E].
  exists it. split; [reflexivity|].
  split; [exact (cpu_keeps_types (F := constant_fetch (14 * 2 ^ 26 + 3 * 2 ^ 21 + 3 * 2 ^ 16 + 7)) false (demo []) _ it E)|].
  vm_compute in E. injection E as <-. split; reflexivity.
Defined.
