(* ===== verification/PPCAnalystSpec.v ===== *)
(** * What the analysis and the decoders promise

    Properties of the instruction tables, of the uses the analysis declares, of the
    code it reorders and of the values it lets the recompilers discard. *)
From S2P Require Export PPCBlocks PPCSpec.
From Stdlib Require Import String.

(** ** Two decoders *)

(** The variant of an instruction that sets the overflow flags has a name with an
    [o] in the information tables; the interpreter has one function for both. *)
Definition overflow_spelling (name : string) : string :=
  String.append (String.substring 0 (String.length name - 1) name) "ox".
Definition same_instruction (op : Op.t) (name : string) (oe : bool) : bool :=
  String.eqb (Op.name op) name || (oe && String.eqb (overflow_spelling (Op.name op)) name).
Definition is_valid (info : GekkoOPInfo) : bool :=
  match type info with OpType.Invalid | OpType.Unknown => false | _ => true end.

Lemma decoders_agree : for_all_opcodes (fun p j =>
  same_instruction (op_of p j) (opname (info_of p j)) (Z.testbit j 9) &&
  Bool.eqb (negb (Op.is_unknown (op_of p j))) (is_valid (info_of p j))) = true.
Proof. vm_compute. reflexivity. Qed.

(** The constructions of the tables meet no assertion: no opcode is given twice, none
    is out of range, and the number of instructions is the one declared. *)
Lemma tables_built : make_tables = Some s_tables.
Proof. vm_compute. reflexivity. Qed.

Lemma op_tables_built :
  make_op_table = Some s_interpreter_op_table /\ make_op_table4 = Some s_interpreter_op_table4 /\
  make_op_table19 = Some s_interpreter_op_table19 /\ make_op_table31 = Some s_interpreter_op_table31 /\
  make_op_table59 = Some s_interpreter_op_table59 /\ make_op_table63 = Some s_interpreter_op_table63.
Proof. vm_compute. repeat split. Qed.

(** C32. The three decoders agree on every instruction word: the tables the
    analysis uses and the tables the interpreter uses name the same instruction and
    call the same words valid, and running a word through the interpreter's nested
    tables runs the function its flat decoder finds. *)
Theorem decoders_name_the_same_instruction i :
  same_instruction (GetInterpreterOp i) (GetInstructionName i) (OE i) = true /\
  IsValidInstruction i = negb (Op.is_unknown (GetInterpreterOp i)) /\
  forall s, RunInterpreterOp i s = f ← run_op (GetInterpreterOp i); Some (f i s).
Proof.
  pose proof (for_all_opcodes_spec _ i decoders_agree) as H. cbv beta in H.
  rewrite <- GetInterpreterOp_fields, <- GetOpInfo_fields, testbit_SUBOP10_OE in H.
  apply andb_prop in H as [H1 H2%eqb_prop]. split; [exact H1|]. split; [|intros; apply RunInterpreterOp_decoded].
  rewrite H2. reflexivity.
Qed.

(** ** The uses of an instruction *)


(** ** Blocks *)

Section Blocks.
Context {E : AnalystEnv} {Eok : AnalystEnvOk E} (an : Analyzer).

Lemma Analyze_code addr size block code next : Analyze an addr size = Some (block, code, next) ->
  exists c, (if Nat.ltb 1 (List.length (scanned an addr size))
      then ReorderInstructions an (List.length (scanned an addr size)) (scanned an addr size) else Some (scanned an addr size)) = Some c
    /\ code = fst (forward_pass (mkFprScan 0 0 0 0 0) (fst (backward_pass c))).
Proof.
  unfold Analyze. cbv zeta. fold (scanned an addr size).
  destruct (if Nat.ltb 1 _ then _ else _) as [c|]; simpl; [|done].
  destruct (backward_pass c) as [c1 n1] eqn:Eb. destruct (forward_pass _ c1) as [c2 f2] eqn:Ef.
  intros H. apply (f_equal (option_map (fun p => snd (fst p)))) in H. simpl in H. injection H as <-.
  exists c. split; [done|]. by rewrite Eb; simpl; rewrite Ef.
Qed.

Lemma Analyze_reordered addr size block code next : is_u32 addr -> Analyze an addr size = Some (block, code, next) ->
  exists c, rtc (swap_step an) (scanned an addr size) c /\
    code = fst (forward_pass (mkFprScan 0 0 0 0 0) (fst (backward_pass c))).
Proof.
  intros Ha H. destruct (Analyze_code _ _ _ _ _ H) as (c & Hc & ->). exists c. split; [|done].
  destruct (Nat.ltb_spec 1 (List.length (scanned an addr size))).
  - destruct (ReorderInstructions_ok an (scanned an addr size)) as (c' & Hc' & Hr); [lia|]. congruence.
  - injection Hc as <-. constructor.
Qed.

Lemma instructions_inst c d : instructions c = instructions d -> map inst c = map inst d.
Proof.
  intros H. apply (f_equal (map (fun x => fst (fst (fst x))))) in H. unfold instructions in H. by rewrite !map_map in H.
Qed.

(** C1. The analysis of a block of modelled instructions (integer, branch, condition and
    system register instructions and moves of floating-point registers) without [mcrxr]
    always ends, and the code it hands to the recompilers has the same instructions as the
    program and computes the same state from every well-formed state, whichever of the
    reorderings for carries, comparisons and condition register logic are on. A block with
    [mcrxr] is excluded because the analyzer does move it past a comparison. *)
Theorem analysis_keeps_the_program addr size s :
  is_u32 addr -> Forall plain (scanned an addr size) -> wf s ->
  exists block code next, Analyze an addr size = Some (block, code, next) /\
    map inst code ≡ₚ map inst (scanned an addr size) /\
    same_but_pc (run_block code s) (run_block (scanned an addr size) s).
Proof.
  intros Ha Hp Hs. destruct (Analyze_result an addr size Ha) as (block & code & next & c & HA & Hr & Hi).
  exists block, code, next. split; [done|]. split.
  - transitivity (map inst c); [by rewrite (instructions_inst _ _ Hi)|by rewrite (rtc_swap_permutation an _ _ Hr)].
  - rewrite (run_block_instructions code c s Hi).
    by apply (rtc_swap_run an _ _ s Hr (scanned_analyzed an addr size Ha)).
Qed.

Lemma instructions_app c q q' : instructions c = instructions (q ++ q') -> exists p p',
  c = p ++ p' /\ instructions p = instructions q /\ instructions p' = instructions q'.
Proof.
  unfold instructions. rewrite map_app. intros H. apply map_eq_app in H as (p & p' & -> & <- & <-). by exists p, p'.
Qed.

Lemma Forall_map_inst c d : map inst c = map inst d ->
  Forall (fun o => modelled (inst o) = true) d -> Forall (fun o => modelled (inst o) = true) c.
Proof.
  intros H Hd. apply (Forall_map inst (fun i => modelled i = true)). rewrite H. by apply Forall_map.
Qed.

Lemma head_instructions c d : instructions c = instructions d ->
  match d with [] => True | o :: _ => may_exit o = true end -> match c with [] => True | o :: _ => may_exit o = true end.
Proof.
  destruct c as [|x c], d as [|y d]; try done. intros H.
  assert (Hx : address x = address y /\ stats x = stats y).
  { injection H as _ Ha _ Hs _. done. }
  unfold may_exit, stops. by destruct Hx as [-> ->].
Qed.

Lemma discardable_after after op l :
  discardable (needs (fst (needs_before after op))) l = true -> discardable after l = true.
Proof.
  unfold needs_before. cbv zeta. cbn [fst needs set_needs]. destruct (CanCauseGatherPipeInterruptCheck op);
    destruct l; cbn [discardable gprDiscardable crDiscardable fprDiscardable]; try done; by rewrite Z.bits_0.
Qed.

(** C10. A register the analysis lets the recompilers discard after an instruction is
    dead there: up to the next instruction after which the block can be left, the
    rest of the block computes the same state whatever the register holds. *)
Theorem discarded_registers_are_dead addr size block code next pre op q q' l s t :
  is_u32 addr -> Analyze an addr size = Some (block, code, next) -> code = pre ++ op :: q ++ q' ->
  Forall (fun o => modelled (inst o) = true) q ->
  match q' with [] => True | o :: _ => may_exit o = true end ->
  tracked l -> discardable (needs op) l = true -> differ_at l s t ->
  run_block q s = run_block q t.
Proof.
  intros Ha HA Hcode Hm Hend Hl Hd Hst.
  destruct (Analyze_reordered _ _ _ _ _ Ha HA) as (c & Hr & ->).
  destruct (forward_pass_at _ _ _ _ _ Hcode) as (pre0 & op0 & rest0 & Hc0 & Hn & _ & _ & Hi0).
  destruct (backward_pass_at _ _ _ _ Hc0) as (op1 & rest1 & Hop1 & Hi1 & Hincl).
  destruct (instructions_app rest1 q q' ltac:(congruence)) as (p & p' & -> & Hp & Hp').
  rewrite <- !(run_block_instructions p q) by done.
  assert (Han : Forall (analyzed an) c).
  { rewrite <- (rtc_swap_permutation an _ _ Hr). by apply scanned_analyzed. }
  apply (discardable_dead an (p ++ p') p p' l); try done.
  - apply Forall_forall. intros x Hx. rewrite Forall_forall in Han. apply Han.
    apply list_elem_of_In, Hincl, in_cons. by apply list_elem_of_In.
  - apply (discardable_after _ op1). by rewrite Hop1, Hn.
  - apply (Forall_map_inst _ q); [by apply instructions_inst|done].
  - by apply (head_instructions p' q').
Qed.

End Blocks.

(** ** On a concrete program *)

(** A program at 0x1000 in memory that is mapped to itself, no breakpoints. *)
Definition program_at_0x1000 (words : list Z) : AnalystEnv := {|
  TryReadInstruction a :=
    if (0x1000 <=? a) && (a mod 4 =? 0) then option_map (fun w => (u32 w, a)) (words !! Z.to_nat ((a - 0x1000) / 4)) else None;
  IsAddressBreakPoint _ := false;
  TryReplaceFunction _ := false
|}.
#[export] Instance program_ok words : AnalystEnvOk (program_at_0x1000 words).
Proof.
  intros a hex physical. cbn. destruct (_ && _); [|done]. destruct (words !! _); simpl; [|done].
  intros [= <- _]. apply is_u32_u32.
Qed.
Definition merging : Analyzer := mkAnalyzer (OPTION_BRANCH_MERGE .| OPTION_CARRY_MERGE .| OPTION_CROR_MERGE) false false false false.

(** [li r3, 1; cmpwi cr0, r5, 0; li r3, 5; beq .+8] *)
Definition compare_early : list Z :=
  [14 * 2 ^ 26 + 3 * 2 ^ 21 + 1; 11 * 2 ^ 26 + 5 * 2 ^ 16; 14 * 2 ^ 26 + 3 * 2 ^ 21 + 5;
   16 * 2 ^ 26 + 12 * 2 ^ 21 + 2 * 2 ^ 16 + 8].
Lemma plain_code code : forallb (fun op => modelled (inst op) && negb (is_mcrxr (inst op))) code = true -> Forall plain code.
Proof.
  rewrite forallb_forall, Forall_forall. intros H op Hop%list_elem_of_In. specialize (H op Hop).
  apply andb_prop in H as [Hm Hx%negb_true_iff]. by split.
Qed.

(** What its analysis returns. *)
Definition compare_early_result : option (CodeBlock * list CodeOp * Z) :=
  Eval vm_compute in Analyze (E := program_at_0x1000 compare_early) merging 0x1000 4.
Definition compare_early_code : list CodeOp :=
  match compare_early_result with Some (_, code, _) => code | None => [] end.

Lemma decoders_name_the_same_instruction_example :
  same_instruction (GetInterpreterOp (ppc_word 31 3 4 5 778)) (GetInstructionName (ppc_word 31 3 4 5 778)) true = true.
Proof. reflexivity. Qed.


(** The comparison is moved next to the branch. *)
Lemma analysis_keeps_the_program_witness :
  map inst compare_early_code <> compare_early /\
  exists block code next, Analyze (E := program_at_0x1000 compare_early) merging 0x1000 4 = Some (block, code, next) /\
    map inst code ≡ₚ map inst (scanned (E := program_at_0x1000 compare_early) merging 0x1000 4) /\
    same_but_pc (run_block code (demo small_numbers))
      (run_block (scanned (E := program_at_0x1000 compare_early) merging 0x1000 4) (demo small_numbers)).
Proof.
  split; [vm_compute; discriminate|].
  apply (analysis_keeps_the_program (E := program_at_0x1000 compare_early) merging 0x1000 4 (demo small_numbers));
    [u32_const|apply plain_code; vm_compute; reflexivity|exact small_numbers_wf].
Defined.

(** The first value of r3 is dead: the second [li] overwrites it. *)
Lemma discarded_registers_are_dead_witness :
  run_block (firstn 2 (skipn 1 compare_early_code)) (demo small_numbers) =
  run_block (firstn 2 (skipn 1 compare_early_code)) (set_gpr 3 1234 (demo small_numbers)).
Proof.
  destruct (compare_early_result) as [[[block code] next]|] eqn:Er; [|discriminate Er].
  apply (discarded_registers_are_dead (E := program_at_0x1000 compare_early) merging 0x1000 4 block code next []
    (op_nth compare_early_code 0) (firstn 2 (skipn 1 compare_early_code)) (skipn 3 compare_early_code) (LGpr 3)).
  - u32_const.
  - rewrite <- Er. vm_compute. reflexivity.
  - apply (f_equal (fun r => match r with Some (_, c, _) => c | None => [] end)) in Er. simpl in Er. rewrite <- Er. vm_compute. reflexivity.
  - apply (Forall_impl plain); [apply plain_code; vm_compute; reflexivity|by intros ? []].
  - vm_compute. reflexivity.
  - simpl. lia.
  - vm_compute. reflexivity.
  - split; [exact small_numbers_wf|]. split; [apply wf_set_gpr; [exact small_numbers_wf|u32_const]|].
    intros k Hk Hne. symmetry. apply set_gpr_same; [exact small_numbers_wf|lia|done|]. destruct k as [r| | | | |]; try done. simpl. apply Z.eqb_neq. congruence.
Defined.

(** ** The exception: mcrxr *)

(** [mcrxr cr1; cmpwi cr2, r3, 0] *)
Definition mcrxr_compare : list Z := [ppc_word 31 4 0 0 512; 11 * 2 ^ 26 + 2 * 2 ^ 23 + 3 * 2 ^ 16].
Definition mcrxr_code : list CodeOp :=
  Eval vm_compute in
    match Analyze (E := program_at_0x1000 mcrxr_compare) merging 0x1000 2 with Some (_, code, _) => code | None => [] end.

(** [mcrxr] clears the summary overflow bit that a comparison copies, but its
    declaration does not say so: the pass that moves comparisons to branches puts it
    after the comparison, whose SO bit then differs from that of the program. *)
Theorem mcrxr_is_moved_past_a_comparison :
  let s := SetXER_SO true (demo small_numbers) in
  map inst mcrxr_code = rev mcrxr_compare /\
  GetField 2 (run_block mcrxr_code s) = CR_GT .| CR_SO /\
  GetField 2 (run_block (scanned (E := program_at_0x1000 mcrxr_compare) merging 0x1000 2) s) = CR_GT.
Proof. vm_compute. repeat split. Qed.
