(* ===== verification/PPCPageTable.v ===== *)
(** * Host mappings of the guest's page table (PowerPC/MMU.cpp, HW/Memmap.cpp)

    The recompilers access the pages of the guest's page table through mappings
    of the host.  [MMU::PageTableUpdated] keeps the mappings up to date: it
    compares the page table with the copy of the last time and looks only at
    the entries that changed.  Here a page table is a function from the byte
    offset of an entry (a multiple of 8) to its two words.  The host has pages
    of 4 KiB and an arena for the mappings. *)
From S2P Require Export PPCState.

(** ** The words of an entry *)

Definition Pte : Type := Z * Z.

(** Bits [lo .. lo + width - 1] of [w] replaced by [v]. *)
Definition put_field (w lo width v : Z) : Z :=
  (w .& .~ ((2 ^ width - 1) .<< lo)) .| ((v .& (2 ^ width - 1)) .<< lo).

Definition PTE_API (pte1 : Z) : Z := field pte1 0 6.
Definition PTE_H (pte1 : Z) : bool := bit_at pte1 6.
Definition PTE_VSID (pte1 : Z) : Z := field pte1 7 24.
Definition PTE_V (pte1 : Z) : bool := bit_at pte1 31.
Definition PTE_WIMG (pte2 : Z) : Z := field pte2 3 4.
Definition PTE_C (pte2 : Z) : bool := bit_at pte2 7.
Definition PTE_R (pte2 : Z) : bool := bit_at pte2 8.
Definition PTE_RPN (pte2 : Z) : Z := field pte2 12 20.
Definition PTE_wi (pte2 : Z) : bool := negb (PTE_WIMG pte2 .& 12 =? 0).
(** [UPTE_Lo] of an entry that is looked for. *)
Definition make_pte1 (VSID API : Z) (H : bool) : Z :=
  put_field (put_field (put_field (put_field 0 7 24 VSID) 0 6 API) 31 1 1) 6 1 (Z.b2z H).
Definition flip_reserved_1 (pte2 : Z) : Z := put_field pte2 2 1 (field pte2 2 1 .^ 1).

Definition SR_VSID (sr : Z) : Z := field sr 0 24.
Definition SR_N (sr : Z) : bool := bit_at sr 28.
Definition SR_T (sr : Z) : bool := bit_at sr 31.

(** [EffectiveAddress] *)
Definition EA_offset (a : Z) : Z := field a 0 12.
Definition EA_page_index (a : Z) : Z := field a 12 16.
Definition EA_API (a : Z) : Z := field a 22 6.
Definition EA_SR (a : Z) : Z := field a 28 4.

(** [PageMapping::Hex] *)
Definition PageMapping (RPN : Z) (host_mapping : bool) (priority : Z) : Z :=
  put_field (put_field (put_field 0 12 20 RPN) 11 1 (Z.b2z host_mapping)) 0 11 priority.
Definition PM_priority (m : Z) : Z := field m 0 11.
Definition PM_host_mapping (m : Z) : bool := bit_at m 11.

Definition PAGE_TABLE_MIN_SIZE : Z := 0x10000.
Definition BAT_INDEX_SHIFT : Z := 17.
Definition HW_PAGE_SIZE : Z := 0x1000.

(** ** State *)

(** A mapping of the host: where it is in the arena, its size, the physical
    address it shows, and whether it may be written. *)
Record HostMapping := mkHostMapping {
  mapped_pointer : Z;
  mapped_size : Z;
  mapped_physical : Z;
  mapped_writeable : bool
}.

(** [host_mappings] is [m_page_table_mapped_entries]. *)
Record PageTables := mkPageTables {
  m_page_table : gmap Z Pte;
  m_page_table_size : Z;
  m_page_mappings : gmap Z Z;
  host_mappings : gmap Z HostMapping
}.

Definition entry (t : gmap Z Pte) (offset : Z) : Pte := default (0, 0) (t !! offset).

(** ** The memory manager's side *)

(** The active physical regions: their addresses and sizes. *)
Definition Regions : Type := list (Z * Z).

(** One turn of the loop of [AddHostPageTableMapping]. *)
Definition map_region (logical_address translated_address : Z) (writeable : bool)
    (host : gmap Z HostMapping) (region : Z * Z) : gmap Z HostMapping :=
  let '(mapping_address, size) := region in
  let mapping_end := mapping_address + size in
  let intersection_start := Z.max mapping_address translated_address in
  let intersection_end := Z.min mapping_end (translated_address + HW_PAGE_SIZE) in
  if intersection_end <=? intersection_start then host
  else
    let base := logical_address + intersection_start - translated_address in
    let size := intersection_end - intersection_start in
    match host !! logical_address with
    | Some m =>
        if (mapped_pointer m =? base) && (mapped_size m =? size) then
          <[logical_address := mkHostMapping base size (mapped_physical m) writeable]> host
        else host
    | None => <[logical_address := mkHostMapping base size intersection_start writeable]> host
    end.
Definition AddPageTableMapping (regions : Regions) (logical_address translated_address : Z) (writeable : bool)
    (host : gmap Z HostMapping) : gmap Z HostMapping :=
  fold_left (map_region logical_address translated_address writeable) regions host.
Definition RemovePageTableMappings (mappings : gset Z) (host : gmap Z HostMapping) : gmap Z HostMapping :=
  filter (fun p => fst p ∉ mappings) host.

(** ** The update *)

(** What surrounds the page table: the segment registers, [pagetable_base] and
    [pagetable_mask], whether the data BATs map an address, whether a memory
    check overlaps its page, and the physical regions. *)
Record Surroundings := mkSurroundings {
  segments : list Z;
  pagetable_base : Z;
  pagetable_mask : Z;
  bat_mapped : Z -> bool;
  OverlapsMemcheck : Z -> bool;
  regions : Regions
}.

Section Update.
Context (S : Surroundings).

Definition segment (i : Z) : Z := nth (Z.to_nat i) (segments S) 0.
(** The offsets of entries that are in use. *)
Definition skipped (i : Z) : bool :=
  negb (i .& pagetable_mask S =? i) || negb (i .& pagetable_base S =? 0).

Definition get_page_index (pte1 hash : Z) : option Z :=
  let page_index_from_hash := u32 (hash .^ PTE_VSID pte1) in
  let page_index_from_hash := if PTE_H pte1 then u32 (.~ page_index_from_hash) else page_index_from_hash in
  let logical_address := put_field (put_field 0 12 16 page_index_from_hash) 22 6 (PTE_API pte1) in
  let api_mask := ((pagetable_mask S .& .~ pagetable_base S) .>> 16) .& 0x3f in
  if PTE_API pte1 .& api_mask =? (page_index_from_hash .>> 10) .& api_mask then Some logical_address else None.

(** The variables of the update: [old_page_table], [m_page_mappings], the sets
    of changes, and [run_pass_2]. *)
Record Update := mkUpdate {
  old_page_table : gmap Z Pte;
  page_mappings : gmap Z Z;
  m_removed_mappings : gset Z;
  m_added_readonly_mappings : gmap Z Z;
  m_added_readwrite_mappings : gmap Z Z;
  run_pass_2 : bool
}.
Definition set_old t u := mkUpdate t (page_mappings u) (m_removed_mappings u) (m_added_readonly_mappings u)
  (m_added_readwrite_mappings u) (run_pass_2 u).
Definition set_mappings m u := mkUpdate (old_page_table u) m (m_removed_mappings u) (m_added_readonly_mappings u)
  (m_added_readwrite_mappings u) (run_pass_2 u).
Definition set_removed r u := mkUpdate (old_page_table u) (page_mappings u) r (m_added_readonly_mappings u)
  (m_added_readwrite_mappings u) (run_pass_2 u).
Definition set_readonly a u := mkUpdate (old_page_table u) (page_mappings u) (m_removed_mappings u) a
  (m_added_readwrite_mappings u) (run_pass_2 u).
Definition set_readwrite a u := mkUpdate (old_page_table u) (page_mappings u) (m_removed_mappings u)
  (m_added_readonly_mappings u) a (run_pass_2 u).
Definition set_run_pass_2 b u := mkUpdate (old_page_table u) (page_mappings u) (m_removed_mappings u)
  (m_added_readonly_mappings u) (m_added_readwrite_mappings u) b.

(** [std::map::emplace] *)
Definition emplace {A} (k : Z) (v : A) (m : gmap Z A) : gmap Z A :=
  match m !! k with Some _ => m | None => <[k := v]> m end.

(** The entry's mapping in the segments that have its VSID. *)
Definition uses_segment (i VSID : Z) : bool := (SR_VSID (segment i) =? VSID) && negb (SR_T (segment i)).
Definition in_segment (logical_address i : Z) : Z := put_field logical_address 28 4 i.
Definition all_segments : list Z := map Z.of_nat (seq 0 16).

Section New.
Context (new_page_table : Z -> Pte).

Definition unchanged (u : Update) (offset : Z) : bool :=
  bool_decide (entry (old_page_table u) offset = new_page_table offset).

(** The first entry in [offset .. end) with the word [pte1]; [n] counts the entries left. *)
Fixpoint find_pte1 (pte1 offset : Z) (n : nat) : option Z :=
  match n with
  | O => None
  | Datatypes.S n' => if fst (new_page_table offset) =? pte1 then Some offset else find_pte1 pte1 (offset + 8) n'
  end.
(** The scan of a PTEG from [page_table_offset] to its end. *)
Definition scan_pteg (pte1 page_table_offset : Z) : option Z :=
  let pteg_end := (page_table_offset .& .~ 63) + 64 in
  find_pte1 pte1 page_table_offset (Z.to_nat ((pteg_end - page_table_offset) / 8)).
(** An entry that compares equal is made to compare unequal. *)
Definition recheck (i : Z) (switched_to_secondary : bool) (u : Update) : Update :=
  if unchanged u i then
    let '(pte1, pte2) := entry (old_page_table u) i in
    let u := set_old (<[i := (pte1, flip_reserved_1 pte2)]> (old_page_table u)) u in
    if switched_to_secondary then set_run_pass_2 true u else u
  else u.
Definition fixup_shadowed_mappings (pte1 page_table_offset : Z) (u : Update) : Update :=
  match scan_pteg pte1 page_table_offset with
  | Some i => recheck i false u
  | None =>
      if PTE_H pte1 then u
      else
        let pteg_start := page_table_offset .& .~ 63 in
        let pte1 := put_field pte1 6 1 1 in
        let page_table_offset :=
          ((.~ pteg_start .& pagetable_mask S) .| pagetable_base S) - pagetable_base S in
        match scan_pteg pte1 page_table_offset with Some i => recheck i true u | None => u end
  end.

Definition host_mapping_allowed (logical_address pte2 : Z) : bool :=
  if PTE_wi pte2 then false
  else if bat_mapped S logical_address then false
  else negb (OverlapsMemcheck S logical_address).
Definition priority_of (offset : Z) (H : bool) : Z := ((offset mod 64) / 8) .| (Z.b2z H .<< 3).

Definition try_add_in_segment (pte1 pte2 page_table_offset base_address : Z) (u : Update) (i : Z) : Update :=
  if negb (uses_segment i (PTE_VSID pte1)) then u
  else
    let logical_address := in_segment base_address i in
    let host_mapping := host_mapping_allowed logical_address pte2 in
    let priority := priority_of page_table_offset (PTE_H pte1) in
    let page_mapping := PageMapping (PTE_RPN pte2) host_mapping priority in
    let added (u : Update) :=
      let u := set_mappings (<[logical_address := page_mapping]> (page_mappings u)) u in
      if host_mapping && PTE_R pte2 then
        let physical_address := PTE_RPN pte2 .<< 12 in
        if PTE_C pte2 then set_readwrite (emplace logical_address physical_address (m_added_readwrite_mappings u)) u
        else set_readonly (emplace logical_address physical_address (m_added_readonly_mappings u)) u
      else u in
    match page_mappings u !! logical_address with
    | None => added u
    | Some m =>
        if PM_priority m <? priority then u
        else added (if PM_host_mapping m then set_removed ({[logical_address]} ∪ m_removed_mappings u) u else u)
    end.
Definition try_add_mapping (pte1 pte2 page_table_offset : Z) (u : Update) : Update :=
  match get_page_index pte1 (page_table_offset / 64) with
  | None => u
  | Some base_address => fold_left (try_add_in_segment pte1 pte2 page_table_offset base_address) all_segments u
  end.

Definition remove_in_segment (pte1 page_table_offset base_address : Z) (u : Update) (l : Z) : Update :=
  if negb (uses_segment l (PTE_VSID pte1)) then u
  else
    let logical_address := in_segment base_address l in
    let priority := priority_of page_table_offset (PTE_H pte1) in
    match page_mappings u !! logical_address with
    | None => u
    | Some m =>
        if priority =? PM_priority m then
          let u := if PM_host_mapping m then set_removed ({[logical_address]} ∪ m_removed_mappings u) u else u in
          fixup_shadowed_mappings pte1 page_table_offset
            (set_mappings (delete logical_address (page_mappings u)) u)
        else u
    end.

(** [memcpy] of an entry into the copy. *)
Definition sync (offset : Z) (u : Update) : Update :=
  set_old (<[offset := new_page_table offset]> (old_page_table u)) u.

(** The part of pass 1 that adds a mapping. *)
Definition add_new (offset : Z) (u : Update) : Update :=
  let '(new_pte1, new_pte2) := new_page_table offset in
  if PTE_V new_pte1 then
    if PTE_H new_pte1 then set_run_pass_2 true u
    else sync offset (try_add_mapping new_pte1 new_pte2 offset u)
  else sync offset u.
Definition pass_1_entry (u : Update) (offset : Z) : Update :=
  if unchanged u offset then u
  else
    let old_pte1 := fst (entry (old_page_table u) offset) in
    if PTE_V old_pte1 then
      match get_page_index old_pte1 (offset / 64) with
      | None => u
      | Some base_address => add_new offset (fold_left (remove_in_segment old_pte1 offset base_address) all_segments u)
      end
    else add_new offset u.
Definition pass_2_entry (u : Update) (offset : Z) : Update :=
  if unchanged u offset then u
  else
    let '(new_pte1, new_pte2) := new_page_table offset in
    sync offset (try_add_mapping new_pte1 new_pte2 offset u).

(** A PTEG of eight entries, skipped when nothing in it changed. *)
Definition pteg_entries (start : Z) : list Z := map (fun k => start + 8 * Z.of_nat k) (seq 0 8).
Definition pteg (f : Update -> Z -> Update) (u : Update) (start : Z) : Update :=
  if forallb (unchanged u) (pteg_entries start) then u else fold_left f (pteg_entries start) u.
Definition block_ptegs (i : Z) : list Z := map (fun j => i + 64 * Z.of_nat j) (seq 0 1024).
Definition block (f : Update -> Z -> Update) (u : Update) (i : Z) : Update :=
  if skipped i then u else fold_left (pteg f) (block_ptegs i) u.
(** The loops over the page table. *)
Definition pass (f : Update -> Z -> Update) (size : Z) (u : Update) : Update :=
  fold_left (block f) (map (fun n => PAGE_TABLE_MIN_SIZE * Z.of_nat n) (seq 0 (Z.to_nat (size / PAGE_TABLE_MIN_SIZE)))) u.
Definition passes (size : Z) (u : Update) : Update :=
  let u := pass pass_1_entry size u in
  if run_pass_2 u then pass pass_2_entry size u else u.

End New.

Definition add_all (writeable : bool) (added : gmap Z Z) (host : gmap Z HostMapping) : gmap Z HostMapping :=
  fold_left (fun h p => AddPageTableMapping (regions S) (fst p) (snd p) writeable h) (map_to_list added) host.

Definition ClearPageTable : PageTables := mkPageTables ∅ 0 ∅ ∅.

(** [PageTableUpdated(std::span<const u8>)] on a span of [size] bytes. *)
Definition PageTableUpdated (new_page_table : Z -> Pte) (size : Z) (p : PageTables) : PageTables :=
  if negb (size mod PAGE_TABLE_MIN_SIZE =? 0) then ClearPageTable
  else
    let p := if m_page_table_size p =? size then p else mkPageTables ∅ size ∅ ∅ in
    let u := passes new_page_table size (mkUpdate (m_page_table p) (m_page_mappings p) ∅ ∅ ∅ false) in
    let host := RemovePageTableMappings (m_removed_mappings u) (host_mappings p) in
    let host := add_all false (m_added_readonly_mappings u) host in
    let host := add_all true (m_added_readwrite_mappings u) host in
    mkPageTables (old_page_table u) size (page_mappings u) host.

(** The size of the page table in memory. *)
Definition page_table_size : Z :=
  let page_table_end :=
    ((pagetable_base S .| pagetable_mask S) + (PAGE_TABLE_MIN_SIZE - 1)) .& .~ (PAGE_TABLE_MIN_SIZE - 1) in
  page_table_end - pagetable_base S.

(** The copy of the page table is parsed again. *)
Definition ReloadPageTable (p : PageTables) : PageTables :=
  PageTableUpdated (entry (m_page_table p)) (m_page_table_size p) (mkPageTables ∅ 0 ∅ (host_mappings p)).
Definition SRUpdated (p : PageTables) : PageTables :=
  ReloadPageTable (mkPageTables (m_page_table p) (m_page_table_size p) (m_page_mappings p) ∅).

End Update.
