(* ===== verification/PPCPageSlots.v ===== *)
(** * Where the entries of a page table belong

    The hash that selects a group of entries, and the inverse the update of the
    host mappings uses: the address of a page from the position of its entry. *)
From S2P Require Export PPCPageTable.

(** ** Bits of fields *)

Lemma testbit_ones w i : 0 <= w -> 0 <= i -> Z.testbit (2 ^ w - 1) i = (i <? w).
Proof.
  intros Hw Hi. replace (2 ^ w - 1) with (Z.ones w) by (rewrite Z.ones_equiv; lia).
  apply eq_iff_eq_true. rewrite Z.ones_spec_iff, Z.ltb_lt by done. lia.
Qed.
Lemma testbit_field w lo n i : 0 <= lo -> 0 <= n -> 0 <= i ->
  Z.testbit (field w lo n) i = Z.testbit w (i + lo) && (i <? n).
Proof. intros. unfold field. by rewrite Z.land_spec, Z.shiftr_spec, testbit_ones by lia. Qed.
Lemma testbit_put_field w lo n v i : 0 <= lo -> 0 <= n -> 0 <= i ->
  Z.testbit (put_field w lo n v) i = if (lo <=? i) && (i <? lo + n) then Z.testbit v (i - lo) else Z.testbit w i.
Proof.
  intros Hl Hn Hi. unfold put_field. rewrite Z.lor_spec, Z.land_spec, Z.lnot_spec, !Z.shiftl_spec, Z.land_spec by lia.
  destruct (Z.leb_spec lo i); cbn [andb].
  - rewrite testbit_ones by lia. destruct (Z.ltb_spec (i - lo) n), (Z.ltb_spec i (lo + n)); try lia.
    + by rewrite andb_false_r, andb_true_r.
    + by rewrite andb_true_r, andb_false_r, orb_false_r.
  - rewrite !(Z.testbit_neg_r _ (i - lo)) by lia. by rewrite andb_true_r, andb_false_l, orb_false_r.
Qed.
Lemma testbit_u32_all x i : 0 <= i -> Z.testbit (u32 x) i = Z.testbit x i && (i <? 32).
Proof.
  intros Hi. destruct (Z.ltb_spec i 32).
  - by rewrite andb_true_r, testbit_u32 by lia.
  - unfold u32. change 0x100000000 with (2 ^ 32). by rewrite Z.mod_pow2_bits_high, andb_false_r by lia.
Qed.
Lemma is_u32_bits x i : is_u32 x -> 32 <= i -> Z.testbit x i = false.
Proof. intros Hx Hi. by apply (bits_above_pow2 x 32 ltac:(lia)). Qed.
Lemma is_u32_by_bits x : 0 <= x -> (forall i, 32 <= i -> Z.testbit x i = false) -> is_u32 x.
Proof. intros H0 H. by apply (bits_above_pow2 x 32 ltac:(lia)). Qed.
Lemma testbit_b2z b i : 0 <= i -> Z.testbit (Z.b2z b) i = b && (i =? 0).
Proof.
  intros Hi. destruct b; [|apply Z.bits_0]. change (Z.b2z true) with (2 ^ 0).
  rewrite Z.pow2_bits_eqb by lia. by rewrite Z.eqb_sym.
Qed.
Lemma put_field_nonneg w lo n v : 0 <= lo -> 0 <= n -> 0 <= w -> 0 <= put_field w lo n v.
Proof.
  intros. unfold put_field. apply Z.lor_nonneg. split; [apply Z.land_nonneg; by left|].
  apply Z.shiftl_nonneg, Z.land_nonneg. right. assert (0 < 2 ^ n) by (apply Z.pow_pos_nonneg; lia). lia.
Qed.
Lemma bits_le x y : 0 <= x -> 0 <= y -> (forall i, 0 <= i -> Z.testbit x i = true -> Z.testbit y i = true) -> x <= y.
Proof.
  intros Hx Hy H. apply Z.ldiff_le; [done|]. apply Z.bits_inj'. intros i Hi.
  rewrite Z.ldiff_spec, Z.bits_0. specialize (H i Hi). destruct (Z.testbit x i); [by rewrite H|done].
Qed.

(** Bit arithmetic on fields: the bits of both sides, the positions decided. *)
Ltac bit_rules :=
  repeat first
    [ rewrite Z.land_spec | rewrite Z.lor_spec | rewrite Z.lxor_spec
    | rewrite Z.lnot_spec by lia | rewrite Z.shiftl_spec by lia | rewrite Z.shiftr_spec by lia
    | rewrite testbit_field by lia | rewrite testbit_put_field by lia | rewrite testbit_u32_all by lia
    | rewrite testbit_b2z by lia | rewrite Z.bits_0 ].
Ltac decide_positions :=
  repeat match goal with
  | |- context [?a <? ?b] => destruct (Z.ltb_spec a b); try lia
  | |- context [?a <=? ?b] => destruct (Z.leb_spec a b); try lia
  | |- context [?a =? ?b] => destruct (Z.eqb_spec a b); try lia
  end; cbn [andb orb negb].

(** ** Positions *)

Definition live_mask (S : Surroundings) : Z := pagetable_mask S .& .~ pagetable_base S.

(** The registers as [SDRUpdated] sets them, with a table of at most 4 MiB:
    with a larger one the position of an entry does not determine its page. *)
Record surroundings_ok (S : Surroundings) : Prop := {
  so_mask : exists m, 0 <= m < 64 /\ pagetable_mask S = (m .<< 16) .| 0xffc0;
  so_base : exists b, 0 <= b < 0x10000 /\ pagetable_base S = b .<< 16
}.

(** The group of a page and the word of its entry: the walk's hash functions. *)
Definition pteg_offset (S : Surroundings) (VSID page_index : Z) (H : bool) : Z :=
  let hash := VSID .^ page_index in
  let hash := if H then u32 (.~ hash) else hash in
  (hash .<< 6) .& live_mask S.
Definition slot (S : Surroundings) (L : Z) (H : bool) (k : Z) : Z :=
  pteg_offset S (SR_VSID (segment S (EA_SR L))) (EA_page_index L) H + 8 * k.
Definition page_pte1 (S : Surroundings) (L : Z) (H : bool) : Z :=
  make_pte1 (SR_VSID (segment S (EA_SR L))) (EA_API L) H.
(** A page whose segment goes through the page table. *)
Definition is_page (S : Surroundings) (L : Z) : Prop :=
  is_u32 L /\ EA_offset L = 0 /\ SR_T (segment S (EA_SR L)) = false.
(** An entry in use. *)
Definition live (S : Surroundings) (e : Z) : Prop :=
  0 <= e /\ e mod 8 = 0 /\ forall i, 6 <= i -> Z.testbit e i = true -> Z.testbit (live_mask S) i = true.

Section Slots.
Context (S : Surroundings) (Sok : surroundings_ok S).

Lemma live_mask_bits i : 0 <= i ->
  (i < 6 -> Z.testbit (live_mask S) i = false) /\ (6 <= i < 16 -> Z.testbit (live_mask S) i = true) /\
  (22 <= i -> Z.testbit (live_mask S) i = false).
Proof.
  intros Hi. destruct (so_mask S Sok) as (m & Hm & Em), (so_base S Sok) as (b & Hb & Eb).
  unfold live_mask. rewrite Em, Eb.
  assert (Hf : forall j, 0 <= j -> Z.testbit 0xffc0 j = (6 <=? j) && (j <? 16)).
  { intros j Hj. change 0xffc0 with (Z.shiftl 0x3ff 6). rewrite Z.shiftl_spec by done.
    destruct (Z.leb_spec 6 j); [|by rewrite Z.testbit_neg_r by lia].
    change 0x3ff with (2 ^ 10 - 1). rewrite testbit_ones by lia. decide_positions; auto. }
  assert (Hmi : forall j, 6 <= j -> Z.testbit m j = false).
  { intros j Hj. apply (bits_above_pow2 m 6 ltac:(lia)); lia. }
  rewrite Z.land_spec, Z.lor_spec, Z.lnot_spec, !Z.shiftl_spec, Hf by lia.
  split; [|split]; intros Hr.
  - rewrite (Z.testbit_neg_r m) by lia. decide_positions; auto.
  - rewrite (Z.testbit_neg_r b) by lia. decide_positions; auto using orb_true_r.
  - rewrite Hmi by lia. decide_positions; auto.
Qed.
Lemma live_mask_nonneg : 0 <= live_mask S.
Proof.
  destruct (so_mask S Sok) as (m & Hm & Em). unfold live_mask. rewrite Em. apply Z.land_nonneg. left.
  apply Z.lor_nonneg. split; [apply Z.shiftl_nonneg; lia|lia].
Qed.

(** The start of a group and the index in it. *)
Lemma mod_64_bits e i : 0 <= i -> Z.testbit (e mod 64) i = Z.testbit e i && (i <? 6).
Proof.
  intros Hi. change 64 with (2 ^ 6). destruct (Z.ltb_spec i 6).
  - by rewrite Z.mod_pow2_bits_low, andb_true_r by lia.
  - by rewrite Z.mod_pow2_bits_high, andb_false_r by lia.
Qed.
Lemma pteg_split e : 0 <= e -> e mod 8 = 0 -> exists k, 0 <= k < 8 /\ e = (e - e mod 64) + 8 * k /\ e mod 64 = 8 * k.
Proof. intros H0 H8. exists (e mod 64 / 8). Z.div_mod_to_equations; lia. Qed.
Lemma pteg_start_bits e i : 0 <= e -> 0 <= i -> Z.testbit (e - e mod 64) i = Z.testbit e i && (6 <=? i).
Proof.
  intros He Hi. replace (e - e mod 64) with (e .& .~ 63).
  - rewrite Z.land_spec, Z.lnot_spec by done. change 63 with (2 ^ 6 - 1). rewrite testbit_ones by lia. f_equal. decide_positions; auto.
  - change 63 with (Z.ones 6). rewrite <- Z.ldiff_land, Z.ldiff_ones_r, Z.shiftl_mul_pow2, Z.shiftr_div_pow2 by lia.
    change (2 ^ 6) with 64. Z.div_mod_to_equations; lia.
Qed.
Lemma land_not_63 e : 0 <= e -> e .& .~ 63 = e - e mod 64.
Proof.
  intros He. apply Z.bits_inj'. intros i Hi. rewrite pteg_start_bits by done. rewrite Z.land_spec, Z.lnot_spec by done.
  change 63 with (2 ^ 6 - 1). rewrite testbit_ones by lia. f_equal. decide_positions; auto.
Qed.
Lemma div_64_bits e i : 0 <= i -> Z.testbit (e / 64) i = Z.testbit e (i + 6).
Proof. intros Hi. change 64 with (2 ^ 6). by rewrite <- Z.shiftr_div_pow2, Z.shiftr_spec by lia. Qed.

Lemma pteg_offset_bits VSID p H i : 0 <= i ->
  Z.testbit (pteg_offset S VSID p H) i =
  xorb (xorb (Z.testbit VSID (i - 6)) (Z.testbit p (i - 6))) H && Z.testbit (live_mask S) i.
Proof.
  intros Hi. destruct (live_mask_bits i Hi) as (Hlow & _ & Hhigh).
  unfold pteg_offset. rewrite Z.land_spec, Z.shiftl_spec by done.
  destruct (Z.lt_ge_cases i 6); [by rewrite Hlow, !andb_false_r by lia|].
  destruct (Z.lt_ge_cases i 22); [|by rewrite Hhigh, !andb_false_r by lia].
  destruct H.
  - rewrite testbit_u32_all, Z.lnot_spec, Z.lxor_spec by lia. rewrite (proj2 (Z.ltb_lt (i - 6) 32)) by lia.
    by destruct (Z.testbit VSID _), (Z.testbit p _).
  - rewrite Z.lxor_spec. by destruct (Z.testbit VSID _), (Z.testbit p _).
Qed.
Lemma pteg_offset_nonneg VSID p H : 0 <= pteg_offset S VSID p H.
Proof. unfold pteg_offset. apply Z.land_nonneg. right. apply live_mask_nonneg. Qed.
Lemma pteg_offset_mod VSID p H : pteg_offset S VSID p H mod 64 = 0.
Proof.
  apply Z.bits_inj'. intros i Hi. rewrite mod_64_bits, Z.bits_0 by done.
  destruct (Z.ltb_spec i 6); [|by rewrite andb_false_r]. rewrite pteg_offset_bits by done.
  by rewrite (proj1 (live_mask_bits i Hi)), !andb_false_r by done.
Qed.

Lemma slot_live L H k : 0 <= k < 8 -> live S (slot S L H k).
Proof.
  intros Hk. unfold slot. set (o := pteg_offset S _ _ H).
  pose proof (pteg_offset_mod (SR_VSID (segment S (EA_SR L))) (EA_page_index L) H) as Hm. fold o in Hm.
  pose proof (pteg_offset_nonneg (SR_VSID (segment S (EA_SR L))) (EA_page_index L) H) as H0. fold o in H0.
  split; [lia|]. split; [Z.div_mod_to_equations; lia|]. intros i Hi Hb.
  assert (Es : o + 8 * k - (o + 8 * k) mod 64 = o) by (Z.div_mod_to_equations; lia).
  assert (Hb' : Z.testbit (o + 8 * k - (o + 8 * k) mod 64) i = true).
  { rewrite pteg_start_bits, Hb by lia. decide_positions; auto. }
  rewrite Es in Hb'. unfold o in Hb'. rewrite pteg_offset_bits in Hb' by lia.
  by destruct (Z.testbit (live_mask S) i); [|rewrite !andb_false_r in Hb'].
Qed.
Lemma slot_start L H k : 0 <= k < 8 -> slot S L H k - slot S L H k mod 64 = slot S L H 0.
Proof.
  intros Hk. unfold slot. pose proof (pteg_offset_mod (SR_VSID (segment S (EA_SR L))) (EA_page_index L) H).
  Z.div_mod_to_equations; lia.
Qed.

(** *** From an entry to its page and back *)

Lemma make_pte1_bits VSID API H i : 0 <= i ->
  Z.testbit (make_pte1 VSID API H) i =
  if i =? 31 then true else if i =? 6 then H else if i <? 6 then Z.testbit API i
  else (i <? 31) && Z.testbit VSID (i - 7).
Proof.
  intros Hi. unfold make_pte1. bit_rules. decide_positions; try done; subst; try done.
  - f_equal. lia.
  - by destruct H.
Qed.
Lemma make_pte1_u32 VSID API H : is_u32 (make_pte1 VSID API H).
Proof.
  apply is_u32_by_bits.
  - unfold make_pte1. repeat apply put_field_nonneg; lia.
  - intros i Hi. rewrite make_pte1_bits by lia. decide_positions; done.
Qed.
Lemma segment_VSID i j : 0 <= j -> Z.testbit (SR_VSID (segment S i)) j = Z.testbit (segment S i) j && (j <? 24).
Proof. intros. unfold SR_VSID. bit_rules. by rewrite Z.add_0_r. Qed.

(** The index the update computes, bit by bit. *)
Definition hashed_index (pte1 hash : Z) : Z :=
  let x := u32 (hash .^ PTE_VSID pte1) in if PTE_H pte1 then u32 (.~ x) else x.
Lemma hashed_index_bits pte1 hash i : 0 <= i < 32 ->
  Z.testbit (hashed_index pte1 hash) i =
  xorb (xorb (Z.testbit hash i) (Z.testbit pte1 (i + 7) && (i <? 24))) (PTE_H pte1).
Proof.
  intros Hi. unfold hashed_index, PTE_VSID. destruct (PTE_H pte1); bit_rules; decide_positions;
    rewrite ?andb_true_r, ?andb_false_r, ?xorb_false_r, ?xorb_true_r; done.
Qed.
Lemma api_mask_bits i : 0 <= i -> Z.testbit ((live_mask S .>> 16) .& 0x3f) i = Z.testbit (live_mask S) (i + 16) && (i <? 6).
Proof.
  intros Hi. rewrite Z.land_spec, Z.shiftr_spec by done. change 0x3f with (2 ^ 6 - 1). by rewrite testbit_ones by lia.
Qed.
Definition index_address (pte1 index : Z) : Z := put_field (put_field 0 12 16 index) 22 6 (PTE_API pte1).
Lemma get_page_index_eq pte1 hash :
  get_page_index S pte1 hash =
  if PTE_API pte1 .& ((live_mask S .>> 16) .& 0x3f) =? (hashed_index pte1 hash .>> 10) .& ((live_mask S .>> 16) .& 0x3f)
  then Some (index_address pte1 (hashed_index pte1 hash)) else None.
Proof. reflexivity. Qed.
(** The check of the abbreviated page index compares the bits the position determines. *)
Lemma api_check pte1 hash :
  (PTE_API pte1 .& ((live_mask S .>> 16) .& 0x3f) =? (hashed_index pte1 hash .>> 10) .& ((live_mask S .>> 16) .& 0x3f)) = true <->
  forall j, 0 <= j < 6 -> Z.testbit (live_mask S) (j + 16) = true ->
    Z.testbit pte1 j = Z.testbit (hashed_index pte1 hash) (j + 10).
Proof.
  rewrite Z.eqb_eq. split.
  - intros E j Hj Hm. apply (f_equal (fun x => Z.testbit x j)) in E. revert E.
    rewrite !(Z.land_spec _ (_ .& 0x3f)), api_mask_bits, Hm, Z.shiftr_spec by lia. unfold PTE_API. bit_rules.
    decide_positions. by rewrite !andb_true_r, Z.add_0_r.
  - intros H. apply Z.bits_inj'. intros j Hj.
    rewrite !(Z.land_spec _ (_ .& 0x3f)), api_mask_bits, Z.shiftr_spec by lia. unfold PTE_API. bit_rules.
    destruct (Z.ltb_spec j 6); [|by rewrite !andb_false_r]. rewrite !andb_true_r, Z.add_0_r.
    destruct (Z.testbit (live_mask S) (j + 16)) eqn:Em; [|by rewrite !andb_false_r]. by rewrite H by (done || lia).
Qed.
Lemma in_segment_bits pte1 index i j : 0 <= i < 16 -> 0 <= j ->
  Z.testbit (in_segment (index_address pte1 index) i) j =
  if (12 <=? j) && (j <? 22) then Z.testbit index (j - 12)
  else if (22 <=? j) && (j <? 28) then Z.testbit pte1 (j - 22)
  else (28 <=? j) && (j <? 32) && Z.testbit i (j - 28).
Proof.
  intros Hi Hj. unfold in_segment, index_address, PTE_API. bit_rules. decide_positions; try done.
  rewrite testbit_field, Z.add_0_r by lia. decide_positions. by rewrite andb_true_r.
Qed.
Lemma field_of_bits w lo n v : 0 <= lo -> 0 <= n -> 0 <= v < 2 ^ n ->
  (forall i, 0 <= i < n -> Z.testbit w (i + lo) = Z.testbit v i) -> field w lo n = v.
Proof.
  intros Hl Hn Hv H. apply Z.bits_inj'. intros i Hi. rewrite testbit_field by lia.
  destruct (Z.ltb_spec i n); [by rewrite H, andb_true_r by lia|].
  rewrite andb_false_r. symmetry. apply (bits_above_pow2 v n Hn); [done|lia].
Qed.
Lemma in_segment_SR pte1 index i : 0 <= i < 16 -> EA_SR (in_segment (index_address pte1 index) i) = i.
Proof.
  intros Hi. apply field_of_bits; [lia..|]. intros j Hj. rewrite in_segment_bits by lia. decide_positions.
  f_equal. lia.
Qed.
Lemma in_segment_u32 pte1 index i : 0 <= i < 16 -> is_u32 (in_segment (index_address pte1 index) i).
Proof.
  intros Hi. apply is_u32_by_bits.
  - unfold in_segment, index_address. repeat apply put_field_nonneg; lia.
  - intros j Hj. rewrite in_segment_bits by lia. by decide_positions.
Qed.
Lemma EA_offset_zero L : EA_offset L = 0 <-> forall i, 0 <= i < 12 -> Z.testbit L i = false.
Proof.
  unfold EA_offset. split.
  - intros E i Hi. apply (f_equal (fun x => Z.testbit x i)) in E. revert E. bit_rules. decide_positions.
    by rewrite Z.add_0_r, andb_true_r.
  - intros H. apply field_of_bits; [lia..|]. intros i Hi. by rewrite Z.add_0_r, H, Z.bits_0 by lia.
Qed.

Lemma key_slot e pte1 i A : live S e -> is_u32 pte1 -> PTE_V pte1 = true -> 0 <= i < 16 ->
  get_page_index S pte1 (e / 64) = Some A -> uses_segment S i (PTE_VSID pte1) = true ->
  let L := in_segment A i in
  is_page S L /\ EA_SR L = i /\ pte1 = page_pte1 S L (PTE_H pte1) /\ e = slot S L (PTE_H pte1) (e mod 64 / 8).
Proof.
  intros (He & He8 & Hlive) Hu HV Hi HA Huse L. rewrite get_page_index_eq in HA.
  destruct (_ =? _) eqn:Hchk; [|done]. injection HA as <-. pose proof (proj1 (api_check _ _) Hchk) as Hapi. clear Hchk.
  unfold uses_segment in Huse. apply andb_true_iff in Huse as [Hvs HT]. apply Z.eqb_eq in Hvs. apply negb_true_iff in HT.
  set (x := hashed_index pte1 (e / 64)) in *.
  assert (ESR : EA_SR L = i) by (by apply in_segment_SR).
  assert (Hbits : forall j, 0 <= j -> Z.testbit L j =
    if (12 <=? j) && (j <? 22) then Z.testbit x (j - 12)
    else if (22 <=? j) && (j <? 28) then Z.testbit pte1 (j - 22)
    else (28 <=? j) && (j <? 32) && Z.testbit i (j - 28)) by (intros; by apply in_segment_bits).
  assert (Hv : forall j, 0 <= j < 24 -> Z.testbit (SR_VSID (segment S i)) j = Z.testbit pte1 (j + 7)).
  { intros j Hj. rewrite Hvs. unfold PTE_VSID. bit_rules. decide_positions. by rewrite andb_true_r. }
  assert (Hp : forall j, 0 <= j < 16 -> Z.testbit (EA_page_index L) j = Z.testbit L (j + 12)).
  { intros j Hj. unfold EA_page_index. bit_rules. decide_positions. by rewrite andb_true_r. }
  assert (Hx : forall j, 0 <= j < 16 -> Z.testbit x j = xorb (xorb (Z.testbit e (j + 6)) (Z.testbit pte1 (j + 7))) (PTE_H pte1)).
  { intros j Hj. unfold x. rewrite hashed_index_bits, div_64_bits by lia. decide_positions. by rewrite andb_true_r. }
  split; [|split; [done|split]].
  - split; [by apply in_segment_u32|]. split; [|by rewrite ESR].
    apply EA_offset_zero. intros j Hj. rewrite Hbits by lia. by decide_positions.
  - apply Z.bits_inj'. intros j Hj. unfold page_pte1. rewrite make_pte1_bits, ESR by done.
    destruct (Z.eqb_spec j 31) as [->|]; [exact HV|]. destruct (Z.eqb_spec j 6) as [->|]; [done|].
    destruct (Z.ltb_spec j 6).
    + unfold EA_API. rewrite testbit_field, Hbits by lia. decide_positions. rewrite andb_true_r. f_equal. lia.
    + destruct (Z.ltb_spec j 31); cbn [andb].
      * rewrite Hv by lia. f_equal. lia.
      * apply is_u32_bits; [done|lia].
  - unfold slot. rewrite ESR. enough (Es : e - e mod 64 = pteg_offset S (SR_VSID (segment S i)) (EA_page_index L) (PTE_H pte1)).
    { rewrite <- Es. Z.div_mod_to_equations; lia. }
    apply Z.bits_inj'. intros j Hj. rewrite pteg_start_bits, pteg_offset_bits by done.
    destruct (live_mask_bits j Hj) as (Hlow & Hmid & Hhigh).
    destruct (Z.leb_spec 6 j); [|by rewrite Hlow, !andb_false_r by lia]. rewrite andb_true_r.
    destruct (Z.testbit (live_mask S) j) eqn:Em.
    2: { rewrite andb_false_r. destruct (Z.testbit e j) eqn:Eb; [|done]. rewrite (Hlive j) in Em; done. }
    rewrite andb_true_r. destruct (Z.lt_ge_cases j 22); [|discriminate (Hhigh ltac:(lia))].
    rewrite Hv, Hp, Hbits by lia.
    assert (E1 : Z.testbit e j = xorb (xorb (Z.testbit x (j - 6)) (Z.testbit pte1 (j - 6 + 7))) (PTE_H pte1)).
    { rewrite Hx by lia. replace (j - 6 + 6) with j by lia.
      by destruct (Z.testbit e j), (Z.testbit pte1 (j - 6 + 7)), (PTE_H pte1). }
    rewrite E1. destruct (Z.lt_ge_cases j 16).
    + decide_positions. replace (j - 6 + 12 - 12) with (j - 6) by lia.
      by destruct (Z.testbit x (j - 6)), (Z.testbit pte1 (j - 6 + 7)), (PTE_H pte1).
    + decide_positions. pose proof (Hapi (j - 16)) as Ha. replace (j - 16 + 16) with j in Ha by lia.
      replace (j - 6 + 12 - 22) with (j - 16) by lia. rewrite Ha by (done || lia).
      replace (j - 16 + 10) with (j - 6) by lia.
      by destruct (Z.testbit x (j - 6)), (Z.testbit pte1 (j - 6 + 7)), (PTE_H pte1).
Qed.

Lemma slot_high_bits L H k j : 0 <= k < 8 -> 6 <= j ->
  Z.testbit (slot S L H k) j =
  xorb (xorb (Z.testbit (SR_VSID (segment S (EA_SR L))) (j - 6)) (Z.testbit (EA_page_index L) (j - 6))) H
    && Z.testbit (live_mask S) j.
Proof.
  intros Hk Hj. pose proof (slot_live L H k Hk) as (H0 & _ & _).
  pose proof (pteg_start_bits (slot S L H k) j H0 ltac:(lia)) as E. rewrite slot_start in E by done.
  rewrite (proj2 (Z.leb_le 6 j)), andb_true_r in E by lia. rewrite <- E.
  unfold slot. by rewrite Z.add_0_r, pteg_offset_bits by lia.
Qed.
Lemma slot_index L H k : 0 <= k < 8 -> slot S L H k mod 64 = 8 * k.
Proof.
  intros Hk. unfold slot. pose proof (pteg_offset_mod (SR_VSID (segment S (EA_SR L))) (EA_page_index L) H).
  Z.div_mod_to_equations; lia.
Qed.
Lemma priority_slot L H k : 0 <= k < 8 -> priority_of (slot S L H k) H = k + 8 * Z.b2z H.
Proof.
  intros Hk. unfold priority_of. rewrite slot_index by done. replace (8 * k / 8) with k by (Z.div_mod_to_equations; lia).
  rewrite Z.lor_comm, (lor_shiftl_add 3) by lia. lia.
Qed.

Lemma make_pte1_H VSID API H : PTE_H (make_pte1 VSID API H) = H.
Proof. unfold PTE_H, bit_at. by rewrite make_pte1_bits. Qed.
Lemma make_pte1_V VSID API H : PTE_V (make_pte1 VSID API H) = true.
Proof. unfold PTE_V, bit_at. by rewrite make_pte1_bits. Qed.
Lemma make_pte1_VSID VSID API H : 0 <= VSID < 2 ^ 24 -> PTE_VSID (make_pte1 VSID API H) = VSID.
Proof.
  intros Hv. apply field_of_bits; [lia..|]. intros i Hi. rewrite make_pte1_bits by lia. decide_positions. f_equal. lia.
Qed.
(** The word of a secondary entry. *)
Lemma page_pte1_secondary L : put_field (page_pte1 S L false) 6 1 1 = page_pte1 S L true.
Proof.
  apply Z.bits_inj'. intros i Hi. unfold page_pte1. rewrite testbit_put_field, !make_pte1_bits by lia.
  destruct (Z.eqb_spec i 31) as [->|]; [done|]. destruct (Z.eqb_spec i 6) as [->|]; [done|]. by decide_positions.
Qed.

Lemma EA_SR_range L : is_u32 L -> 0 <= EA_SR L < 16.
Proof.
  intros HL. unfold EA_SR, field. change (2 ^ 4 - 1) with 15. pose proof (land_mask_range (L .>> 28) 15). lia.
Qed.

Lemma slot_key L H k : is_page S L -> 0 <= k < 8 ->
  exists A, get_page_index S (page_pte1 S L H) (slot S L H k / 64) = Some A /\
    uses_segment S (EA_SR L) (PTE_VSID (page_pte1 S L H)) = true /\ L = in_segment A (EA_SR L).
Proof.
  intros (HL & Hoff & HT) Hk. pose proof (EA_SR_range L HL) as Hsr.
  assert (HV : 0 <= SR_VSID (segment S (EA_SR L)) < 2 ^ 24).
  { unfold SR_VSID, field. pose proof (land_mask_range (segment S (EA_SR L) .>> 0) (2 ^ 24 - 1)). lia. }
  assert (Hpi : forall j, 0 <= j < 16 -> Z.testbit (EA_page_index L) j = Z.testbit L (j + 12)).
  { intros j Hj. unfold EA_page_index. rewrite testbit_field by lia. decide_positions. by rewrite andb_true_r. }
  assert (Hx : forall j, 0 <= j < 16 -> Z.testbit (live_mask S) (j + 6) = true ->
    Z.testbit (hashed_index (page_pte1 S L H) (slot S L H k / 64)) j = Z.testbit L (j + 12)).
  { intros j Hj Hm. rewrite hashed_index_bits, div_64_bits, slot_high_bits, Hm by lia.
    unfold page_pte1 at 1 2. rewrite make_pte1_bits, make_pte1_H by lia. replace (j + 6 - 6) with j by lia.
    replace (j + 7 - 7) with j by lia. rewrite <- Hpi by done. decide_positions. rewrite !andb_true_r.
    by destruct (Z.testbit (SR_VSID _) j), (Z.testbit (EA_page_index L) j), H. }
  exists (index_address (page_pte1 S L H) (hashed_index (page_pte1 S L H) (slot S L H k / 64))).
  rewrite get_page_index_eq. split; [|split].
  - rewrite (proj2 (api_check _ _)); [done|]. intros j Hj Hm.
    unfold page_pte1 at 1. rewrite make_pte1_bits by lia. decide_positions.
    rewrite Hx; [|lia|by replace (j + 10 + 6) with (j + 16) by lia].
    unfold EA_API. rewrite testbit_field by lia. decide_positions. rewrite andb_true_r. f_equal. lia.
  - unfold uses_segment, page_pte1. by rewrite make_pte1_VSID, Z.eqb_refl, HT by done.
  - apply Z.bits_inj'. intros j Hj. rewrite in_segment_bits by lia.
    destruct (Z.lt_ge_cases j 12).
    { rewrite (proj1 (EA_offset_zero L) Hoff) by lia. by decide_positions. }
    destruct (Z.lt_ge_cases j 22).
    { decide_positions. rewrite Hx; [f_equal; lia|lia|]. apply live_mask_bits; lia. }
    destruct (Z.lt_ge_cases j 28).
    { decide_positions. unfold page_pte1. rewrite make_pte1_bits by lia. decide_positions.
      unfold EA_API. rewrite testbit_field by lia. decide_positions. rewrite andb_true_r. f_equal. lia. }
    decide_positions.
    + unfold EA_SR. rewrite testbit_field by lia. decide_positions. rewrite andb_true_r. f_equal. lia.
    + by rewrite is_u32_bits by (done || lia).
Qed.

(** Two entries of a page with the same priority are one. *)
Lemma priority_inj H k H' k' : 0 <= k < 8 -> 0 <= k' < 8 -> k + 8 * Z.b2z H = k' + 8 * Z.b2z H' -> H = H' /\ k = k'.
Proof. intros. destruct H, H'; simpl in *; split; (done || lia). Qed.

End Slots.
