(* ===== verification/PPCPageUpdate.v ===== *)
(** * The invariant of the page table update

    What holds between the turns of the two passes of [PageTableUpdated]: every
    mapping comes from an entry of the copy, and every entry of the new table
    is either covered by a mapping of at least its priority or by an entry that
    the passes still have to look at. *)
From Stdlib Require Import Sorted.
From S2P Require Export PPCPageSlots.

(** ** Mappings *)

Lemma PageMapping_bits r h p i : 0 <= i ->
  Z.testbit (PageMapping r h p) i =
  if i <? 11 then Z.testbit p i else if i =? 11 then h else (i <? 32) && Z.testbit r (i - 12).
Proof.
  intros Hi. unfold PageMapping. bit_rules. decide_positions; try done; subst; try done.
  - f_equal. lia.
  - by destruct h.
Qed.
Lemma PM_priority_mapping r h p : 0 <= p < 2 ^ 11 -> PM_priority (PageMapping r h p) = p.
Proof. intros Hp. apply field_of_bits; [lia..|]. intros i Hi. rewrite PageMapping_bits by lia. decide_positions. f_equal. lia. Qed.
Lemma PM_host_mapping_mapping r h p : PM_host_mapping (PageMapping r h p) = h.
Proof. unfold PM_host_mapping, bit_at. by rewrite PageMapping_bits. Qed.

(** Entries that differ at most in the bit that is not used. *)
Definition same_pte (p q : Pte) : Prop :=
  fst p = fst q /\ forall i, 0 <= i -> i <> 2 -> Z.testbit (snd p) i = Z.testbit (snd q) i.
#[export] Instance same_pte_equiv : Equivalence same_pte.
Proof.
  split.
  - by intros p.
  - intros p q [H1 H2]. split; [done|]. intros i Hi Hn. by rewrite H2.
  - intros p q r [H1 H2] [H3 H4]. split; [by rewrite H1|]. intros i Hi Hn. by rewrite H2, H4.
Qed.
Lemma same_pte_flip p : same_pte (fst p, flip_reserved_1 (snd p)) p.
Proof.
  split; [done|]. intros i Hi Hn. cbn [snd]. unfold flip_reserved_1. rewrite testbit_put_field by lia. by decide_positions.
Qed.
Lemma flip_reserved_1_ne x : flip_reserved_1 x <> x.
Proof.
  intros E. apply (f_equal (fun y => Z.testbit y 2)) in E. revert E. unfold flip_reserved_1.
  rewrite testbit_put_field by lia. cbn [Z.leb Z.ltb Z.compare Pos.compare Pos.compare_cont andb Z.sub Z.add Z.opp Pos.add].
  rewrite Z.lxor_spec. change (2 - 2) with 0. rewrite testbit_field by lia. change (0 + 2) with 2. change (0 <? 1) with true.
  change (Z.testbit 1 0) with true. by destruct (Z.testbit x 2).
Qed.
Lemma same_pte_field p q lo n : same_pte p q -> 2 < lo -> 0 <= n -> field (snd p) lo n = field (snd q) lo n.
Proof.
  intros [_ H] Hl Hn. apply Z.bits_inj'. intros i Hi. rewrite !testbit_field by lia. by rewrite H by lia.
Qed.

Section Inv.
Context (S : Surroundings) (Sok : surroundings_ok S) (new : Z -> Pte) (h0 : Z -> option (Z * bool)).

(** [e] is an entry for the page [L] in the table [t]. *)
Definition cand (t : Z -> Pte) (L e : Z) : Prop :=
  is_page S L /\ exists H k, 0 <= k < 8 /\ e = slot S L H k /\ fst (t e) = page_pte1 S L H.
Definition prio (t : Z -> Pte) (e : Z) : Z := priority_of e (PTE_H (fst (t e))).

Definition mapping (L e : Z) (p : Pte) : Z :=
  PageMapping (PTE_RPN (snd p)) (host_mapping_allowed S L (snd p)) (priority_of e (PTE_H (fst p))).
(** The page lies in a memory the host can map. *)
Definition backed (a : Z) : bool :=
  existsb (fun '(start, size) => Z.max start a <? Z.min (start + size) (a + HW_PAGE_SIZE)) (regions S).
Definition host_of (a : Z) (writeable : bool) : option (Z * bool) := if backed a then Some (a, writeable) else None.
Definition hosted (L : Z) (p : Pte) : option (Z * bool) :=
  if host_mapping_allowed S L (snd p) && PTE_R (snd p) then host_of (PTE_RPN (snd p) .<< 12) (PTE_C (snd p)) else None.

Definition well_placed (t : Z -> Pte) : Prop :=
  forall e, live S e -> PTE_V (fst (t e)) = true -> get_page_index S (fst (t e)) (e / 64) <> None.

Lemma cand_live t L e : cand t L e -> live S e.
Proof. intros (_ & H & k & Hk & -> & _). by apply slot_live. Qed.
Lemma cand_H t L H k : 0 <= k < 8 -> fst (t (slot S L H k)) = page_pte1 S L H -> prio t (slot S L H k) = k + 8 * Z.b2z H.
Proof. intros Hk E. unfold prio. rewrite E. unfold page_pte1. rewrite make_pte1_H. by apply priority_slot. Qed.
Lemma cand_prio t L e : cand t L e -> 0 <= prio t e < 16.
Proof. intros (_ & H & k & Hk & -> & E). rewrite cand_H by done. destruct H; simpl; lia. Qed.
Lemma cand_V t L e : cand t L e -> PTE_V (fst (t e)) = true.
Proof. intros (_ & H & k & Hk & -> & E). rewrite E. apply make_pte1_V. Qed.
Lemma cand_inj t t' L e e' : cand t L e -> cand t' L e' -> prio t e = prio t' e' -> e = e' /\ fst (t e) = fst (t' e').
Proof.
  intros (_ & H & k & Hk & -> & E) (_ & H' & k' & Hk' & -> & E'). rewrite !cand_H by done.
  intros Hp. destruct (priority_inj H k H' k') as [-> ->]; [done..|]. split; [done|congruence].
Qed.
Lemma cand_fst t t' L e : fst (t e) = fst (t' e) -> cand t L e -> cand t' L e.
Proof. intros E (HL & H & k & Hk & -> & Ef). split; [done|]. exists H, k. split; [done|]. split; [done|congruence]. Qed.
Lemma prio_fst t t' e : fst (t e) = fst (t' e) -> prio t e = prio t' e.
Proof. unfold prio. by intros ->. Qed.

Lemma same_pte_facts p q : same_pte p q ->
  PTE_RPN (snd p) = PTE_RPN (snd q) /\ PTE_wi (snd p) = PTE_wi (snd q) /\
  PTE_R (snd p) = PTE_R (snd q) /\ PTE_C (snd p) = PTE_C (snd q).
Proof.
  intros Hs. unfold PTE_RPN, PTE_wi, PTE_WIMG, PTE_R, PTE_C, bit_at.
  rewrite !(same_pte_field p q) by (done || lia). destruct Hs as [_ Hb]. by rewrite !Hb by lia.
Qed.
Lemma mapping_same L e p q : same_pte p q -> mapping L e p = mapping L e q.
Proof.
  intros Hs. destruct (same_pte_facts p q Hs) as (Er & Ew & _). destruct Hs as [Ef _].
  unfold mapping, host_mapping_allowed. by rewrite Er, Ew, Ef.
Qed.
Lemma hosted_same L p q : same_pte p q -> hosted L p = hosted L q.
Proof.
  intros Hs. destruct (same_pte_facts p q Hs) as (Er & Ew & ER & EC).
  unfold hosted, host_mapping_allowed. by rewrite Er, Ew, ER, EC.
Qed.
Lemma mapping_priority L e p : 0 <= priority_of e (PTE_H (fst p)) < 16 -> PM_priority (mapping L e p) = priority_of e (PTE_H (fst p)).
Proof. intros. apply PM_priority_mapping. lia. Qed.
Lemma cand_mapping_priority t L e : cand t L e -> PM_priority (mapping L e (t e)) = prio t e.
Proof. intros Hc. apply mapping_priority. by apply (cand_prio t L). Qed.

(** ** The state between the turns *)

Definition old (u : Update) : Z -> Pte := entry (old_page_table u).
Definition added (u : Update) (L : Z) : Prop :=
  m_added_readwrite_mappings u !! L <> None \/ m_added_readonly_mappings u !! L <> None.
(** What the host will show once the changes are carried out. *)
Definition effective (u : Update) (L : Z) : option (Z * bool) :=
  match m_added_readwrite_mappings u !! L, m_added_readonly_mappings u !! L with
  | Some a, _ => host_of a true
  | None, Some a => host_of a false
  | None, None => if decide (L ∈ m_removed_mappings u) then None else h0 L
  end.

(** [stale e L]: the entry [e] has not been compared yet for [L]; [later L p]:
    an entry of [L] with priority [p] may still be added. *)
Record Inv (stale later : Z -> Z -> Prop) (u : Update) : Prop := {
  i_entry : forall L m, page_mappings u !! L = Some m -> exists e, cand (old u) L e /\ m = mapping L e (old u e) /\
    effective u L = hosted L (old u e) /\
    ((stale e L /\ ~ added u L) \/ (~ stale e L /\ same_pte (old u e) (new e)));
  i_none : forall L, page_mappings u !! L = None -> effective u L = None;
  i_added : forall L, added u L -> exists m, page_mappings u !! L = Some m /\ forall p, later L p -> PM_priority m < p;
  i_fresh : forall L, added u L -> L ∈ m_removed_mappings u \/ h0 L = None;
  i_once : forall L, m_added_readwrite_mappings u !! L = None \/ m_added_readonly_mappings u !! L = None;
  i_pages : forall L a, m_added_readwrite_mappings u !! L = Some a \/ m_added_readonly_mappings u !! L = Some a ->
    a mod HW_PAGE_SIZE = 0;
  i_words : forall e, is_u32 (fst (old u e));
  i_placed : well_placed (old u)
}.

(** The entries of the new table are covered, those of the pages [exempt] excepted;
    [extra]: entries to be added although they compare equal. *)
Definition Cover (extra : Z -> Z -> Prop) (exempt : Z -> Prop) (u : Update) : Prop :=
  forall L c, cand new L c -> old u c = new c -> ~ extra c L -> ~ exempt L ->
    (exists m, page_mappings u !! L = Some m /\ PM_priority m <= prio new c) \/
    (exists d, cand new L d /\ prio new d <= prio new c /\ (old u d <> new d \/ extra d L)).

Lemma unchanged_iff u e : unchanged new u e = true <-> old u e = new e.
Proof. unfold unchanged. by rewrite bool_decide_eq_true. Qed.
Lemma unchanged_false u e : unchanged new u e = false <-> old u e <> new e.
Proof. unfold unchanged. by rewrite bool_decide_eq_false. Qed.

(** *** An entry that is made to compare unequal *)

Lemma old_insert u t e p x : old_page_table u = <[e := p]> t -> old u x = if x =? e then p else entry t x.
Proof.
  intros E. unfold old, entry. rewrite E. destruct (Z.eqb_spec x e) as [->|].
  - by rewrite lookup_insert_eq.
  - by rewrite lookup_insert_ne.
Qed.

Record rechecked (i : Z) (sw : bool) (u u' : Update) : Prop := {
  r_mappings : page_mappings u' = page_mappings u;
  r_removed : m_removed_mappings u' = m_removed_mappings u;
  r_readonly : m_added_readonly_mappings u' = m_added_readonly_mappings u;
  r_readwrite : m_added_readwrite_mappings u' = m_added_readwrite_mappings u;
  r_same : forall e, same_pte (old u' e) (old u e);
  r_other : forall e, e <> i -> old u' e = old u e;
  r_dirty : old u' i <> new i;
  r_pass : run_pass_2 u' = run_pass_2 u || (unchanged new u i && sw)
}.
Lemma recheck_spec i sw u : rechecked i sw u (recheck new i sw u).
Proof.
  unfold recheck. destruct (unchanged new u i) eqn:E.
  - apply unchanged_iff in E. destruct (entry (old_page_table u) i) as [p1 p2] eqn:Ee.
    assert (Hold : forall x, old (set_old (<[i:=(p1, flip_reserved_1 p2)]> (old_page_table u)) u) x =
      if x =? i then (p1, flip_reserved_1 p2) else old u x) by (intros x; by rewrite (old_insert _ (old_page_table u) i (p1, flip_reserved_1 p2))).
    assert (Hi : old u i = (p1, p2)) by done.
    destruct sw; (split; [done..| | | |by rewrite (proj2 (unchanged_iff u i) E), ?orb_true_r, ?orb_false_r]).
    all: change (old (set_run_pass_2 true ?v)) with (old v).
    all: try (intros e; rewrite Hold; destruct (Z.eqb_spec e i) as [->|]; [|done]; rewrite Hi; exact (same_pte_flip (p1, p2))).
    all: try (intros e Hne; rewrite Hold; by destruct (Z.eqb_spec e i)).
    all: rewrite Hold, Z.eqb_refl, <- E, Hi; intros [= Ef]; by apply flip_reserved_1_ne in Ef.
  - split; try done; [by apply unchanged_false|by rewrite E, orb_false_r].
Qed.

Lemma rechecked_dirty i sw u u' e : rechecked i sw u u' -> old u e <> new e -> old u' e <> new e.
Proof. intros Hr He. destruct (Z.eq_dec e i) as [->|]; [apply Hr|by rewrite (r_other _ _ _ _ Hr)]. Qed.
Lemma rechecked_effective i sw u u' L : rechecked i sw u u' -> effective u' L = effective u L.
Proof. intros Hr. unfold effective. by rewrite (r_readwrite _ _ _ _ Hr), (r_readonly _ _ _ _ Hr), (r_removed _ _ _ _ Hr). Qed.
Lemma rechecked_added i sw u u' L : rechecked i sw u u' -> added u' L <-> added u L.
Proof. intros Hr. unfold added. by rewrite (r_readonly _ _ _ _ Hr), (r_readwrite _ _ _ _ Hr). Qed.

Lemma rechecked_inv stale later i sw u u' : rechecked i sw u u' -> Inv stale later u -> Inv stale later u'.
Proof.
  intros Hr Hi. pose proof (r_same _ _ _ _ Hr) as Hs. split.
  - intros L m Hm. rewrite (r_mappings _ _ _ _ Hr) in Hm. destruct (i_entry _ _ _ Hi L m Hm) as (e & Hc & -> & He & Hd).
    exists e. split; [eapply cand_fst; [symmetry; apply Hs|done]|]. split; [symmetry; by apply mapping_same|].
    rewrite (rechecked_effective _ _ _ _ _ Hr), (rechecked_added _ _ _ _ _ Hr). split; [by rewrite He; symmetry; apply hosted_same|].
    destruct Hd as [?|[? Hsame]]; [by left|right]. split; [done|]. by rewrite (Hs e).
  - intros L. rewrite (r_mappings _ _ _ _ Hr), (rechecked_effective _ _ _ _ _ Hr). apply Hi.
  - intros L. rewrite (rechecked_added _ _ _ _ _ Hr), (r_mappings _ _ _ _ Hr). apply Hi.
  - intros L. rewrite (rechecked_added _ _ _ _ _ Hr), (r_removed _ _ _ _ Hr). apply Hi.
  - intros L. rewrite (r_readonly _ _ _ _ Hr), (r_readwrite _ _ _ _ Hr). apply Hi.
  - intros L a. rewrite (r_readonly _ _ _ _ Hr), (r_readwrite _ _ _ _ Hr). apply Hi.
  - intros e. rewrite (proj1 (Hs e)). apply Hi.
  - intros e. rewrite (proj1 (Hs e)). apply Hi.
Qed.
Lemma rechecked_cover extra exempt i sw u u' : rechecked i sw u u' -> Cover extra exempt u -> Cover extra exempt u'.
Proof.
  intros Hr Hc L c Hcand Heq Hx Hex. rewrite (r_mappings _ _ _ _ Hr).
  assert (c <> i) by (intros ->; by destruct (r_dirty _ _ _ _ Hr)).
  rewrite (r_other _ _ _ _ Hr) in Heq by done. destruct (Hc L c Hcand Heq Hx Hex) as [?|(d & ? & ? & Hd)]; [by left|right].
  exists d. split; [done|]. split; [done|]. destruct Hd as [Hd|]; [left; by eapply rechecked_dirty|by right].
Qed.

(** *** The scan of a group *)

Lemma find_pte1_spec pte1 n : forall o,
  match find_pte1 new pte1 o n with
  | Some i => exists j, (j < n)%nat /\ i = o + 8 * Z.of_nat j /\ fst (new i) = pte1 /\
      forall j', (j' < j)%nat -> fst (new (o + 8 * Z.of_nat j')) <> pte1
  | None => forall j, (j < n)%nat -> fst (new (o + 8 * Z.of_nat j)) <> pte1
  end.
Proof.
  induction n as [|n IH]; intros o; cbn [find_pte1]; [lia|].
  destruct (Z.eqb_spec (fst (new o)) pte1) as [E|E].
  - exists 0%nat. split; [lia|]. split; [lia|]. split; [done|lia].
  - specialize (IH (o + 8)). destruct (find_pte1 new pte1 (o + 8) n) as [i|].
    + destruct IH as (j & Hj & -> & Ei & Hf). exists (Datatypes.S j). split; [lia|]. split; [lia|]. split; [done|].
      intros [|j'] Hj'; [by rewrite Z.add_0_r|].
      replace (o + 8 * Z.of_nat (Datatypes.S j')) with (o + 8 + 8 * Z.of_nat j') by lia. apply Hf. lia.
    + intros [|j] Hj; [by rewrite Z.add_0_r|].
      replace (o + 8 * Z.of_nat (Datatypes.S j)) with (o + 8 + 8 * Z.of_nat j) by lia. apply IH. lia.
Qed.

Lemma scan_pteg_spec L H k pte1 : 0 <= k < 8 ->
  match scan_pteg new pte1 (slot S L H k) with
  | Some i => exists j, k <= j < 8 /\ i = slot S L H j /\ fst (new i) = pte1 /\
      forall j', k <= j' < j -> fst (new (slot S L H j')) <> pte1
  | None => forall j, k <= j < 8 -> fst (new (slot S L H j)) <> pte1
  end.
Proof.
  intros Hk. unfold scan_pteg. pose proof (slot_live S Sok L H k Hk) as (H0 & _ & _).
  rewrite land_not_63, slot_start by done.
  replace ((slot S L H 0 + 64 - slot S L H k) / 8) with (8 - k) by (unfold slot; Z.div_mod_to_equations; lia).
  assert (E : forall j, slot S L H k + 8 * j = slot S L H (k + j)) by (intros; unfold slot; lia).
  pose proof (find_pte1_spec pte1 (Z.to_nat (8 - k)) (slot S L H k)) as Hf.
  destruct (find_pte1 new pte1 _ _) as [i|].
  - destruct Hf as (j & Hj & -> & Ei & Hf). exists (k + Z.of_nat j). split; [lia|]. split; [apply E|]. split; [done|].
    intros j' Hj'. replace j' with (k + Z.of_nat (Z.to_nat (j' - k))) by lia. rewrite <- E. apply Hf. lia.
  - intros j Hj. replace j with (k + Z.of_nat (Z.to_nat (j - k))) by lia. rewrite <- E. apply Hf. lia.
Qed.

Lemma secondary_start L k : 0 <= k < 8 ->
  ((.~ (slot S L false k .& .~ 63) .& pagetable_mask S) .| pagetable_base S) - pagetable_base S = slot S L true 0.
Proof.
  intros Hk. pose proof (slot_live S Sok L false k Hk) as (H0 & _ & _). rewrite land_not_63, slot_start by done.
  set (o := slot S L false 0). assert (Hb : 0 <= pagetable_base S).
  { destruct (so_base S Sok) as (b & ? & ->). apply Z.shiftl_nonneg. lia. }
  assert (Hsum : (.~ o .& pagetable_mask S) .| pagetable_base S = (.~ o .& live_mask S) + pagetable_base S).
  { rewrite <- lor_disjoint_add.
    - apply Z.bits_inj'. intros i Hi. unfold live_mask. bit_rules. by destruct (Z.testbit o i), (Z.testbit (pagetable_mask S) i), (Z.testbit (pagetable_base S) i).
    - apply Z.bits_inj'. intros i Hi. unfold live_mask. bit_rules. by destruct (Z.testbit o i), (Z.testbit (pagetable_mask S) i), (Z.testbit (pagetable_base S) i). }
  rewrite Hsum. replace (_ + _ - _) with (.~ o .& live_mask S) by lia. unfold slot. rewrite Z.add_0_r.
  apply Z.bits_inj'. intros i Hi. rewrite pteg_offset_bits, Z.land_spec, Z.lnot_spec by done.
  unfold o, slot. rewrite Z.add_0_r, pteg_offset_bits by done.
  by destruct (Z.testbit (live_mask S) i), (Z.testbit (SR_VSID (segment S (EA_SR L))) (i - 6)), (Z.testbit (EA_page_index L) (i - 6)).
Qed.

(** What the repair does for the page whose mapping was removed: some entry of
    at least the priority of every other one will be looked at again. *)
Record repaired (L : Z) (H : bool) (k : Z) (u u' : Update) : Prop := {
  f_step : u' = u \/ exists i sw, rechecked i sw u u' /\ live S i /\
    (slot S L H k <= i \/ (run_pass_2 u' = true /\ PTE_V (fst (new i)) = true /\ PTE_H (fst (new i)) = true) \/ old u i <> new i);
  f_cover : forall c, cand new L c -> k + 8 * Z.b2z H <= prio new c ->
    exists d, cand new L d /\ prio new d <= prio new c /\ old u' d <> new d
}.
Lemma fixup_repairs L H k u : is_page S L -> 0 <= k < 8 ->
  repaired L H k u (fixup_shadowed_mappings S new (page_pte1 S L H) (slot S L H k) u).
Proof.
  intros HL Hk. unfold fixup_shadowed_mappings. pose proof (scan_pteg_spec L H k (page_pte1 S L H) Hk) as Hs.
  assert (Hfound : forall j h (Hj : 0 <= j < 8) sw, fst (new (slot S L h j)) = page_pte1 S L h ->
    cand new L (slot S L h j) /\ prio new (slot S L h j) = j + 8 * Z.b2z h /\
    old (recheck new (slot S L h j) sw u) (slot S L h j) <> new (slot S L h j)).
  { intros j h Hj sw E. split; [split; [done|by exists h, j]|]. split; [by apply cand_H|]. apply recheck_spec. }
  destruct (scan_pteg new _ _) as [i|].
  - destruct Hs as (j & Hj & -> & Ei & Hf). destruct (Hfound j H ltac:(lia) false Ei) as (Hc & Hp & Hd). split.
    + right. exists (slot S L H j), false. split; [apply recheck_spec|]. split; [apply slot_live; (done || lia)|]. left. unfold slot. lia.
    + intros c (_ & h & kc & Hkc & -> & Ec) Hle. exists (slot S L H j). rewrite Hp. split; [done|]. split; [|done].
      rewrite (cand_H new L h kc) in * by done. destruct H, h; simpl in *; try lia;
        (destruct (Z.le_gt_cases j kc); [lia|exfalso; apply (Hf kc); [lia|done]]).
  - unfold page_pte1 at 1. rewrite make_pte1_H. destruct H.
    + split; [by left|]. intros c (_ & h & kc & Hkc & -> & Ec) Hle. rewrite (cand_H new L h kc) in Hle by done.
      destruct h; simpl in *; [|lia]. exfalso. apply (Hs kc); [lia|done].
    + rewrite page_pte1_secondary, secondary_start by done.
      pose proof (scan_pteg_spec L true 0 (page_pte1 S L true) ltac:(lia)) as Ht.
      destruct (scan_pteg new _ _) as [i|].
      * destruct Ht as (j & Hj & -> & Ei & Hf). destruct (Hfound j true ltac:(lia) true Ei) as (Hc & Hp & Hd).
        pose proof (recheck_spec (slot S L true j) true u) as Hr. split.
        -- right. exists (slot S L true j), true. split; [done|]. split; [apply slot_live; (done || lia)|].
           destruct (unchanged new u (slot S L true j)) eqn:Eu.
           ++ right; left. rewrite (r_pass _ _ _ _ Hr), Eu, orb_true_r, Ei. unfold page_pte1. by rewrite make_pte1_V, make_pte1_H.
           ++ right; right. by apply unchanged_false.
        -- intros c (_ & h & kc & Hkc & -> & Ec) Hle. exists (slot S L true j). rewrite Hp. split; [done|]. split; [|done].
           rewrite (cand_H new L h kc) in * by done. destruct h; simpl in *.
           ++ destruct (Z.le_gt_cases j kc); [lia|exfalso; apply (Hf kc); [lia|done]].
           ++ exfalso. apply (Hs kc); [lia|done].
      * split; [by left|]. intros c (_ & h & kc & Hkc & -> & Ec) Hle. exfalso.
        rewrite (cand_H new L h kc) in Hle by done. destruct h; simpl in *; [apply (Ht kc); [lia|done]|apply (Hs kc); [lia|done]].
Qed.

Lemma repaired_inv stale later L H k u u' : repaired L H k u u' -> Inv stale later u -> Inv stale later u'.
Proof. intros [[->|(i & sw & Hr & _)] _]; [done|by eapply rechecked_inv]. Qed.
Lemma repaired_cover extra L H k u u' : repaired L H k u u' -> Cover extra (fun L' => L' = L) u ->
  (forall m, page_mappings u !! L = Some m -> False) ->
  (forall c, cand new L c -> old u c = new c -> ~ extra c L -> k + 8 * Z.b2z H <= prio new c \/
     exists d, cand new L d /\ prio new d <= prio new c /\ (old u d <> new d \/ extra d L)) ->
  Cover extra (fun _ => False) u'.
Proof.
  intros [Hstep Hcov] Hc Hno Hl L' c Hcand Heq Hx _.
  assert (Hclean : old u c = new c).
  { destruct Hstep as [->|(i & sw & Hr & _)]; [done|]. destruct (Z.eq_dec c i) as [->|]; [by destruct (r_dirty _ _ _ _ Hr)|].
    by rewrite <- (r_other _ _ _ _ Hr). }
  assert (Hdirty : forall d, old u d <> new d -> old u' d <> new d).
  { intros d Hd. destruct Hstep as [->|(i & sw & Hr & _)]; [done|by eapply rechecked_dirty]. }
  destruct (decide (L' = L)) as [->|Hne].
  - right. destruct (Hl c Hcand Hclean Hx) as [Hle|(d & ? & ? & Hd)].
    + destruct (Hcov c Hcand Hle) as (d & ? & ? & ?). exists d. auto.
    + exists d. split; [done|]. split; [done|]. destruct Hd; auto.
  - assert (Em : page_mappings u' = page_mappings u) by (destruct Hstep as [->|(i & sw & Hr & _)]; [done|apply Hr]).
    destruct (Hc L' c Hcand Hclean Hx Hne) as [(m & Hm & ?)|(d & ? & ? & Hd)].
    + left. exists m. by rewrite Em.
    + right. exists d. split; [done|]. split; [done|]. destruct Hd; auto.
Qed.

(** *** Removing the mappings of an entry *)

Lemma cand_page t L e A : cand t L e -> get_page_index S (fst (t e)) (e / 64) = Some A ->
  L = in_segment A (EA_SR L) /\ uses_segment S (EA_SR L) (PTE_VSID (fst (t e))) = true /\ 0 <= EA_SR L < 16.
Proof.
  intros (HL & H & k & Hk & -> & E) HA. rewrite E in *. destruct (slot_key S Sok L H k HL Hk) as (A' & HA' & Hu & EL).
  rewrite HA in HA'. injection HA' as <-. split; [done|]. split; [done|]. apply EA_SR_range, HL.
Qed.
Lemma key_cand t e A i : live S e -> is_u32 (fst (t e)) -> PTE_V (fst (t e)) = true -> 0 <= i < 16 ->
  get_page_index S (fst (t e)) (e / 64) = Some A -> uses_segment S i (PTE_VSID (fst (t e))) = true ->
  cand t (in_segment A i) e /\ EA_SR (in_segment A i) = i.
Proof.
  intros Hlive Hu HV Hi HA Hs. destruct (key_slot S Sok e _ i A Hlive Hu HV Hi HA Hs) as (HL & ESR & E1 & E2).
  split; [|done]. split; [done|]. exists (PTE_H (fst (t e))), (e mod 64 / 8). split; [|done].
  destruct Hlive as (? & ? & _). Z.div_mod_to_equations; lia.
Qed.

(** [rest] are the entries the pass has not reached; [x] is at its turn. *)
Definition unreached (x : Z) (rest : list Z) (l : Z) (e L : Z) : Prop := e ∈ rest \/ (e = x /\ l <= EA_SR L).
Definition no_extra (e L : Z) : Prop := False.
Definition nowhere (L : Z) : Prop := False.
Definition settled (x : Z) (rest : list Z) (u : Update) : Prop :=
  forall e, live S e -> e ∉ rest -> e <> x -> old u e <> new e ->
    PTE_V (fst (new e)) = true /\ PTE_H (fst (new e)) = true /\ run_pass_2 u = true.

Lemma advance x rest later l u :
  Inv (unreached x rest l) later u -> x ∉ rest ->
  (forall L m, page_mappings u !! L = Some m -> EA_SR L = l -> cand (old u) L x -> PM_priority m <> prio (old u) x) ->
  Inv (unreached x rest (l + 1)) later u.
Proof.
  intros Hi Hx Hno. split; try apply Hi. intros L m Hm. destruct (i_entry _ _ _ Hi L m Hm) as (e & Hc & -> & He & Hd).
  exists e. split; [done|]. split; [done|]. split; [done|]. unfold unreached in *.
  destruct (decide (e = x)) as [->|Hne].
  - assert (EA_SR L <> l).
    { intros E. apply (Hno L _ Hm E Hc). by apply cand_mapping_priority. }
    destruct Hd as [[[?|[_ ?]] ?]|[Hd ?]]; [by left; auto|left; split; [right; lia|done]|right; split; [|done]]. intros [?|[_ ?]]; [done|]. apply Hd. right. lia.
  - destruct Hd as [[[?|[? _]] ?]|[Hd ?]]; [by left; auto|done|right; split; [|done]]. intros [?|[? _]]; [|done]. apply Hd. by left.
Qed.

Record Removing (x : Z) (pte1 : Z) (rest : list Z) (later : Z -> Z -> Prop) (l : Z) (u : Update) : Prop := {
  rm_inv : Inv (unreached x rest l) later u;
  rm_cover : Cover no_extra nowhere u;
  rm_settled : settled x rest u;
  rm_word : fst (old u x) = pte1;
  rm_dirty : old u x <> new x
}.

Lemma not_added u L : ~ added u L <-> m_added_readwrite_mappings u !! L = None /\ m_added_readonly_mappings u !! L = None.
Proof.
  unfold added. destruct (m_added_readwrite_mappings u !! L), (m_added_readonly_mappings u !! L); naive_solver.
Qed.
Lemma set_removed_effective u L L' : ~ added u L ->
  effective (set_removed ({[L]} ∪ m_removed_mappings u) u) L' = if decide (L' = L) then None else effective u L'.
Proof.
  intros Hna. apply not_added in Hna as [E1 E2]. unfold effective; cbn [m_added_readwrite_mappings m_added_readonly_mappings
    m_removed_mappings set_removed].
  destruct (decide (L' = L)) as [->|Hne]; [by rewrite E1, E2, decide_True by set_solver|].
  case_match; [done|]. case_match; [done|]. destruct (decide (L' ∈ m_removed_mappings u)).
  - by rewrite decide_True by set_solver.
  - by rewrite decide_False by set_solver.
Qed.

(** The mapping of a page is taken away. *)
Definition erase (L m : Z) (u : Update) : Update :=
  let u := if PM_host_mapping m then set_removed ({[L]} ∪ m_removed_mappings u) u else u in
  set_mappings (delete L (page_mappings u)) u.
Lemma erase_fields L m u :
  page_mappings (erase L m u) = delete L (page_mappings u) /\ old_page_table (erase L m u) = old_page_table u /\
  m_added_readwrite_mappings (erase L m u) = m_added_readwrite_mappings u /\
  m_added_readonly_mappings (erase L m u) = m_added_readonly_mappings u /\ run_pass_2 (erase L m u) = run_pass_2 u.
Proof. unfold erase. by destruct (PM_host_mapping m). Qed.
Lemma erase_old L m u : old (erase L m u) = old u.
Proof. unfold old. by destruct (erase_fields L m u) as (_ & -> & _). Qed.
Lemma erase_added L m u L' : added (erase L m u) L' <-> added u L'.
Proof. unfold added. by destruct (erase_fields L m u) as (_ & _ & -> & -> & _). Qed.
Lemma erase_removed L m u : m_removed_mappings u ⊆ m_removed_mappings (erase L m u).
Proof. unfold erase. destruct (PM_host_mapping m); simpl; set_solver. Qed.
Lemma erase_effective L e p u : ~ added u L -> effective u L = hosted L p -> forall L',
  effective (erase L (mapping L e p) u) L' = if decide (L' = L) then None else effective u L'.
Proof.
  intros Hna He L'. unfold erase, mapping. rewrite PM_host_mapping_mapping. destruct (host_mapping_allowed S L (snd p)) eqn:Eh.
  - by apply set_removed_effective.
  - change (effective u L' = if decide (L' = L) then None else effective u L').
    destruct (decide (L' = L)) as [->|]; [|done]. rewrite He. unfold hosted. by rewrite Eh.
Qed.

Lemma erase_inv stale later L e u : Inv stale later u -> effective u L = hosted L (old u e) -> ~ added u L ->
  Inv stale later (erase L (mapping L e (old u e)) u).
Proof.
  intros Hi Heff Hna. destruct (erase_fields L (mapping L e (old u e)) u) as (Em & _ & Erw & Ero & _).
  pose proof (erase_effective L e (old u e) u Hna Heff) as Hef. split.
  - intros L' m' Hm'. rewrite Em in Hm'. apply lookup_delete_Some in Hm' as [Hne Hm'].
    destruct (i_entry _ _ _ Hi L' m' Hm') as (e' & ? & ? & ? & ?). exists e'. rewrite erase_old, Hef, decide_False by done.
    by rewrite erase_added.
  - intros L' Hno. rewrite Hef. destruct (decide (L' = L)) as [->|Hne]; [done|]. apply Hi. rewrite Em in Hno.
    by rewrite lookup_delete_ne in Hno.
  - intros L' Ha. rewrite erase_added in Ha. destruct (i_added _ _ _ Hi L' Ha) as (m' & Hm' & Hp). exists m'. split; [|done].
    rewrite Em. destruct (decide (L' = L)) as [->|Hne]; [done|]. by rewrite lookup_delete_ne.
  - intros L' Ha. rewrite erase_added in Ha. destruct (i_fresh _ _ _ Hi L' Ha) as [?|?]; [left|by right].
    by apply erase_removed.
  - intros L'. rewrite Erw, Ero. apply Hi.
  - intros L' a. rewrite Erw, Ero. apply Hi.
  - intros e'. rewrite erase_old. apply Hi.
  - rewrite erase_old. apply Hi.
Qed.

Lemma erase_advance x rest later l L u : Inv (unreached x rest l) later u -> x ∉ rest -> EA_SR L = l ->
  page_mappings u !! L = Some (mapping L x (old u x)) -> cand (old u) L x ->
  (forall L', cand (old u) L' x -> EA_SR L' = l -> L' = L) ->
  Inv (unreached x rest (l + 1)) later (erase L (mapping L x (old u x)) u).
Proof.
  intros Hi Hx ESR Hm Hc Huniq. destruct (i_entry _ _ _ Hi L _ Hm) as (e & Hce & Ee & Heff & Hd).
  assert (e = x) as ->.
  { apply (cand_inj (old u) (old u) L); [done..|]. rewrite <- !(cand_mapping_priority _ L) by done. by rewrite <- Ee. }
  apply advance; [|done|].
  - apply erase_inv; [done..|]. destruct Hd as [[_ ?]|[Hns _]]; [done|]. exfalso. apply Hns. right. lia.
  - intros L' m' Hm' HSR Hc'. rewrite (proj1 (erase_fields _ _ u)) in Hm'. rewrite erase_old in Hc'.
    rewrite (Huniq L' Hc' HSR) in Hm'. by rewrite lookup_delete_eq in Hm'.
Qed.

Lemma remove_segment_ok x pte1 A rest later l u : 0 <= l < 16 -> live S x -> x ∉ rest -> PTE_V pte1 = true ->
  get_page_index S pte1 (x / 64) = Some A -> (forall e, live S e -> x < e -> e ∈ rest) ->
  Removing x pte1 rest later l u -> Removing x pte1 rest later (l + 1) (remove_in_segment S new pte1 x A u l).
Proof.
  intros Hl Hlive Hx HV HA Hrest [Hi Hcov Hset Hw Hd]. unfold remove_in_segment.
  assert (Hcands : forall L, cand (old u) L x -> EA_SR L = l -> L = in_segment A l /\ uses_segment S l (PTE_VSID pte1) = true).
  { intros L Hc HSR. rewrite <- Hw in HA. destruct (cand_page (old u) L x A Hc HA) as (E & Hu & _). rewrite HSR, Hw in *. done. }
  destruct (uses_segment S l (PTE_VSID pte1)) eqn:Eu; cbn [negb].
  2: { split; try done. apply advance; [done|done|]. intros L m _ HSR Hc. destruct (Hcands L Hc HSR). done. }
  destruct (key_cand (old u) x A l) as [Hc HSR]; rewrite ?Hw; try done; [rewrite <- Hw; apply Hi|].
  set (L := in_segment A l) in *.
  assert (Hprio : priority_of x (PTE_H pte1) = prio (old u) x) by (unfold prio; by rewrite Hw).
  destruct (page_mappings u !! L) as [m|] eqn:Em.
  2: { split; try done. apply advance; [done|done|]. intros L' m' Hm' HSR' Hc'. destruct (Hcands L' Hc' HSR') as [-> _]. congruence. }
  rewrite Hprio. destruct (Z.eqb_spec (prio (old u) x) (PM_priority m)) as [Ep|Ep].
  2: { split; try done. apply advance; [done|done|]. intros L' m' Hm' HSR' Hc'. destruct (Hcands L' Hc' HSR') as [-> _].
       rewrite Em in Hm'. injection Hm' as <-. done. }
  destruct (i_entry _ _ _ Hi L m Em) as (e & Hce & -> & _).
  rewrite cand_mapping_priority in Ep by done. destruct (cand_inj _ _ _ _ _ Hc Hce Ep) as [<- _].
  pose proof (erase_advance x rest later l L u Hi Hx HSR Em Hc (fun L' Hc' HSR' => proj1 (Hcands L' Hc' HSR'))) as Hi'.
  pose proof Hc as (HL & H & k & Hk & Ex & Ew). rewrite Hw in Ew.
  assert (Hpx : prio (old u) x = k + 8 * Z.b2z H) by (rewrite Ex; apply cand_H; [done|]; rewrite <- Ex; congruence).
  pose proof (fixup_repairs L H k (erase L (mapping L x (old u x)) u) HL Hk) as Hrep. rewrite <- Ex, <- Ew in Hrep.
  change (set_mappings _ _) with (erase L (mapping L x (old u x)) u).
  set (u1 := erase L (mapping L x (old u x)) u) in *. set (u2 := fixup_shadowed_mappings S new pte1 x u1) in *.
  assert (Eo1 : old u1 = old u) by apply erase_old.
  assert (Em1 : page_mappings u1 = delete L (page_mappings u)) by apply erase_fields.
  assert (Hd1 : forall d, old u1 d <> new d -> old u2 d <> new d).
  { intros d. destruct Hrep as [[->|(i & sw & Hr & _)] _]; [done|]. by eapply rechecked_dirty. }
  split.
  - by apply (repaired_inv _ _ L H k u1).
  - apply (repaired_cover _ L H k u1 u2); [done| | |].
    + intros L' c Hcand Heq Hx' Hne. rewrite Eo1 in Heq. rewrite Eo1, Em1, lookup_delete_ne by done.
      apply Hcov; [done|done|done|by intros []].
    + intros m. by rewrite Em1, lookup_delete_eq.
    + intros c Hcand Heq Hne. rewrite Eo1 in *. destruct (Hcov L c Hcand Heq Hne) as [(m & Hm & Hle)|Hr]; [by intros []| |by right].
      left. rewrite Em in Hm. injection Hm as <-. rewrite cand_mapping_priority in Hle by done. lia.
  - intros e He Hnr Hnx Hdirty. assert (Erun : run_pass_2 u1 = run_pass_2 u) by apply erase_fields.
    destruct (decide (old u1 e = new e)) as [Heq|Hneq].
    + destruct Hrep as [[E2|(i & sw & Hr & Hil & Hcase)] _]; [by rewrite E2 in Hdirty|].
      destruct (Z.eq_dec e i) as [->|Hne]; [|by rewrite (r_other _ _ _ _ Hr) in Hdirty].
      destruct Hcase as [Hle|[(? & ? & ?)|?]]; [|by auto|done].
      rewrite <- Ex in Hle. exfalso. apply Hnr, Hrest; [done|lia].
    + rewrite Eo1 in Hneq. destruct (Hset e He Hnr Hnx Hneq) as (? & ? & Hrun). split; [done|]. split; [done|].
      destruct Hrep as [[->|(i & sw & Hr & _)] _]; [by rewrite Erun|]. by rewrite (r_pass _ _ _ _ Hr), Erun, Hrun.
  - destruct Hrep as [[->|(i & sw & Hr & _)] _]; [by rewrite Eo1|]. by rewrite (proj1 (r_same _ _ _ _ Hr x)), Eo1.
  - apply Hd1. by rewrite Eo1.
Qed.

(** *** Adding the mappings of an entry *)

(** A mapping for a page that has none. *)
Definition put (L x : Z) (p : Pte) (u : Update) : Update :=
  let u := set_mappings (<[L := mapping L x p]> (page_mappings u)) u in
  if host_mapping_allowed S L (snd p) && PTE_R (snd p) then
    let a := PTE_RPN (snd p) .<< 12 in
    if PTE_C (snd p) then set_readwrite (emplace L a (m_added_readwrite_mappings u)) u
    else set_readonly (emplace L a (m_added_readonly_mappings u)) u
  else u.
Lemma put_fields L x p u :
  page_mappings (put L x p u) = <[L := mapping L x p]> (page_mappings u) /\
  old_page_table (put L x p u) = old_page_table u /\ run_pass_2 (put L x p u) = run_pass_2 u /\
  m_removed_mappings (put L x p u) = m_removed_mappings u.
Proof. unfold put. by destruct (_ && _), (PTE_C (snd p)). Qed.
Lemma put_old L x p u : old (put L x p u) = old u.
Proof. unfold old. by destruct (put_fields L x p u) as (_ & -> & _). Qed.
Lemma emplace_lookup {A} (k : Z) (v : A) m k' : m !! k = None -> emplace k v m !! k' = if decide (k' = k) then Some v else m !! k'.
Proof.
  intros E. unfold emplace. rewrite E. destruct (decide (k' = k)) as [->|]; [by rewrite lookup_insert_eq|by rewrite lookup_insert_ne].
Qed.
(** The changes [put] records. *)
Lemma put_changes L x p u : ~ added u L ->
  exists rw ro, m_added_readwrite_mappings (put L x p u) !! L = rw /\ m_added_readonly_mappings (put L x p u) !! L = ro /\
    (rw = None \/ ro = None) /\ (forall a, rw = Some a \/ ro = Some a -> a mod HW_PAGE_SIZE = 0) /\
    match rw, ro with Some a, _ => host_of a true | None, Some a => host_of a false | None, None => None end = hosted L p /\
    (forall L', L' <> L -> m_added_readwrite_mappings (put L x p u) !! L' = m_added_readwrite_mappings u !! L' /\
       m_added_readonly_mappings (put L x p u) !! L' = m_added_readonly_mappings u !! L').
Proof.
  intros Hna. apply not_added in Hna as [E1 E2].
  assert (Hpage : (PTE_RPN (snd p) .<< 12) mod HW_PAGE_SIZE = 0) by (rewrite Z.shiftl_mul_pow2 by lia; by apply Z.mod_mul).
  eexists _, _. split; [reflexivity|]. split; [reflexivity|]. unfold put, hosted.
  destruct (_ && _); [destruct (PTE_C (snd p))|];
    cbn [m_added_readwrite_mappings m_added_readonly_mappings set_mappings set_readwrite set_readonly].
  - rewrite emplace_lookup, decide_True, E2 by done. split; [by right|]. split; [by intros a [[= <-]|?]|]. split; [done|]. intros L' Hne.
    by rewrite emplace_lookup, decide_False by done.
  - rewrite emplace_lookup, decide_True, E1 by done. split; [by left|]. split; [by intros a [?|[= <-]]|]. split; [done|]. intros L' Hne.
    by rewrite emplace_lookup, decide_False by done.
  - rewrite E1, E2. split; [by left|]. split; [by intros a [?|?]|]. done.
Qed.
Lemma put_inv stale later later' L x u : Inv stale later u -> page_mappings u !! L = None -> cand new L x -> old u x = new x ->
  (forall L', ~ stale x L') -> (forall L' p, later' L' p -> later L' p) -> (forall p, later' L p -> prio new x < p) ->
  Inv stale later' (put L x (new x) u).
Proof.
  intros Hi Hno Hc Hx Hns Hlat Hlat'. destruct (put_fields L x (new x) u) as (Em & _ & _ & Er).
  assert (Hna : ~ added u L). { intros Ha. destruct (i_added _ _ _ Hi L Ha) as (m & Hm & _). congruence. }
  destruct (put_changes L x (new x) u Hna) as (rw & ro & Erw & Ero & Honce & Hpages & Hhost & Hother).
  assert (Hfree : L ∈ m_removed_mappings u \/ h0 L = None).
  { pose proof (i_none _ _ _ Hi L Hno) as He. unfold effective in He. apply not_added in Hna as [E1 E2]. rewrite E1, E2 in He.
    destruct (decide (L ∈ m_removed_mappings u)); [by left|by right]. }
  assert (HeL : effective (put L x (new x) u) L = hosted L (new x)).
  { unfold effective. rewrite Erw, Ero, <- Hhost, Er. destruct rw, ro; try done. destruct (decide _); [done|]. by destruct Hfree. }
  assert (He : forall L', L' <> L -> effective (put L x (new x) u) L' = effective u L').
  { intros L' Hne. unfold effective. destruct (Hother L' Hne) as [-> ->]. by rewrite Er. }
  assert (Ha : forall L', L' <> L -> added (put L x (new x) u) L' <-> added u L').
  { intros L' Hne. unfold added. by destruct (Hother L' Hne) as [-> ->]. }
  split; rewrite ?put_old, ?Em, ?Er; try apply Hi.
  - intros L' m Hm. destruct (decide (L' = L)) as [->|Hne].
    + rewrite lookup_insert_eq in Hm. injection Hm as <-. exists x. split; [apply (cand_fst new); [by rewrite Hx|done]|]. rewrite Hx.
      split; [done|]. split; [done|]. right. split; [apply Hns|reflexivity].
    + rewrite lookup_insert_ne in Hm by done. destruct (i_entry _ _ _ Hi L' m Hm) as (e & ? & ? & ? & ?).
      exists e. rewrite He, Ha by done. done.
  - intros L' Hm. destruct (decide (L' = L)) as [->|Hne]; [by rewrite lookup_insert_eq in Hm|].
    rewrite lookup_insert_ne in Hm by done. rewrite He by done. by apply Hi.
  - intros L' HaL. destruct (decide (L' = L)) as [->|Hne].
    + eexists. rewrite lookup_insert_eq. split; [done|]. intros p Hp. rewrite cand_mapping_priority by done. by apply Hlat'.
    + rewrite lookup_insert_ne by done. apply Ha in HaL; [|done]. destruct (i_added _ _ _ Hi L' HaL) as (m & Hm & Hp).
      exists m. split; [done|]. intros p Hp'. by apply Hp, Hlat.
  - intros L' HaL. destruct (decide (L' = L)) as [->|Hne]; [done|]. apply Ha in HaL; [|done]. by apply Hi.
  - intros L'. destruct (decide (L' = L)) as [->|Hne]; [by rewrite Erw, Ero|]. destruct (Hother L' Hne) as [-> ->]. apply Hi.
  - intros L' a. destruct (decide (L' = L)) as [->|Hne]; [rewrite Erw, Ero; apply Hpages|]. destruct (Hother L' Hne) as [-> ->]. apply Hi.
Qed.

(** [x] has been copied and is being added to its pages, one segment after the other. *)
Definition being_added (x l e L : Z) : Prop := e = x /\ l <= EA_SR L.
Definition still_later (later : Z -> Z -> Prop) (x l L p : Z) : Prop :=
  later L p \/ (l <= EA_SR L /\ cand new L x /\ p = prio new x).
Record Adding (x : Z) (stale later : Z -> Z -> Prop) (l : Z) (u : Update) : Prop := {
  ad_inv : Inv stale (still_later later x l) u;
  ad_cover : Cover (being_added x l) nowhere u;
  ad_synced : old u x = new x
}.

Lemma cover_added x l L u u' : Cover (being_added x l) nowhere u -> old u' = old u ->
  (forall L', L' <> L -> page_mappings u' !! L' = page_mappings u !! L') ->
  (exists m', page_mappings u' !! L = Some m' /\ PM_priority m' <= prio new x /\
     forall m, page_mappings u !! L = Some m -> PM_priority m' <= PM_priority m) ->
  (forall L', cand new L' x -> EA_SR L' = l -> L' = L) -> Cover (being_added x (l + 1)) nowhere u'.
Proof.
  intros Hc Eo Hne (m' & Hm' & Hle & Hmin) Huniq L' c Hcand Heq Hx _. rewrite Eo in *.
  destruct (decide (L' = L)) as [->|HL].
  - destruct (decide (c = x)) as [->|Hcx]; [left; by exists m'|].
    destruct (Hc L c Hcand Heq) as [(m & Hm & Hmc)|(d & Hd & Hdc & [Hdirty|[-> _]])]; [by intros [? _]|by intros []| | |].
    + left. exists m'. split; [done|]. specialize (Hmin m Hm). lia.
    + right. exists d. auto.
    + left. exists m'. split; [done|]. lia.
  - rewrite Hne by done. destruct (Hc L' c Hcand Heq) as [?|(d & Hd & Hdc & Hcase)]; [|by intros []|by left|].
    + intros [-> Hl]. apply HL. apply Huniq; [done|]. destruct (Z.eq_dec (EA_SR L') l); [done|]. exfalso. apply Hx. split; [done|lia].
    + right. exists d. split; [done|]. split; [done|]. destruct Hcase as [?|[-> Hl]]; [by left|right]. split; [done|].
      destruct (Z.eq_dec (EA_SR L') l) as [E|]; [|lia]. exfalso. by apply HL, Huniq.
Qed.

Lemma inv_later stale later later' u : Inv stale later u -> (forall L p, later' L p -> later L p) -> Inv stale later' u.
Proof.
  intros Hi Hl. split; try apply Hi. intros L Ha. destruct (i_added _ _ _ Hi L Ha) as (m & Hm & Hp).
  exists m. split; [done|]. intros p Hp'. by apply Hp, Hl.
Qed.

Lemma insert_put L e p m u : page_mappings u !! L = Some m ->
  put L e p (erase L m u) =
  (let u1 := if PM_host_mapping m then set_removed ({[L]} ∪ m_removed_mappings u) u else u in
   let u1 := set_mappings (<[L := mapping L e p]> (page_mappings u1)) u1 in
   if host_mapping_allowed S L (snd p) && PTE_R (snd p) then
     let a := PTE_RPN (snd p) .<< 12 in
     if PTE_C (snd p) then set_readwrite (emplace L a (m_added_readwrite_mappings u1)) u1
     else set_readonly (emplace L a (m_added_readonly_mappings u1)) u1
   else u1).
Proof.
  intros _. unfold put, erase. destruct u as [t M rem ro rw b], (PM_host_mapping m); cbn [set_removed set_mappings page_mappings old_page_table
    m_removed_mappings m_added_readonly_mappings m_added_readwrite_mappings run_pass_2]; by rewrite insert_delete_eq.
Qed.

Lemma try_add_segment_ok x A stale later l u : 0 <= l < 16 -> live S x -> is_u32 (fst (new x)) -> PTE_V (fst (new x)) = true ->
  get_page_index S (fst (new x)) (x / 64) = Some A -> (forall L, ~ stale x L) ->
  (forall L p, cand new L x -> later L p -> prio new x < p) ->
  Adding x stale later l u ->
  Adding x stale later (l + 1) (try_add_in_segment S (fst (new x)) (snd (new x)) x A u l) /\
  run_pass_2 (try_add_in_segment S (fst (new x)) (snd (new x)) x A u l) = run_pass_2 u /\
  old (try_add_in_segment S (fst (new x)) (snd (new x)) x A u l) = old u.
Proof.
  intros Hl Hlive Hu HV HA Hns Hlat [Hi Hcov Hsync]. unfold try_add_in_segment.
  assert (Hcands : forall L, cand new L x -> EA_SR L = l -> L = in_segment A l /\ uses_segment S l (PTE_VSID (fst (new x))) = true).
  { intros L Hc HSR. destruct (cand_page new L x A Hc HA) as (E & Huse & _). by rewrite HSR in *. }
  assert (Hweak : forall L p, still_later later x (l + 1) L p -> still_later later x l L p).
  { intros L p [?|(? & ? & ?)]; [by left|right]. split; [lia|done]. }
  destruct (uses_segment S l (PTE_VSID (fst (new x)))) eqn:Eu; cbn [negb].
  2: { split; [|done]. split; [by eapply inv_later| |done]. intros L c Hcand Heq Hx _.
       assert (Hno : forall e, cand new L e -> being_added x l e L -> being_added x (l + 1) e L).
       { intros e He [-> Hle]. split; [done|]. destruct (Z.eq_dec (EA_SR L) l) as [E|]; [|lia]. by destruct (Hcands L He E). }
       destruct (Hcov L c Hcand Heq) as [?|(d & ? & ? & [?|?])]; [by intros Hb; apply Hx, Hno|by intros []|by left|right..];
         exists d; auto. }
  destruct (key_cand new x A l Hlive Hu HV Hl HA Eu) as [Hc HSR]. set (L := in_segment A l) in *.
  assert (Hprio : priority_of x (PTE_H (fst (new x))) = prio new x) by done. rewrite Hprio.
  assert (Hnow : still_later later x l L (prio new x)) by (right; split; [lia|done]).
  assert (Hlast : forall p, still_later later x (l + 1) L p -> prio new x < p).
  { intros p [?|(? & _ & _)]; [by apply (Hlat L)|lia]. }
  assert (Hpm : PM_priority (mapping L x (new x)) = prio new x) by (by apply cand_mapping_priority).
  pose proof (fun L' Hc' HSR' => proj1 (Hcands L' Hc' HSR')) as Huniq.
  destruct (page_mappings u !! L) as [m|] eqn:Em.
  - destruct (Z.ltb_spec (PM_priority m) (prio new x)) as [Hlt|Hge].
    + split; [|done]. split; [by eapply inv_later| |done]. apply (cover_added x l L u u); [done..| |done].
      exists m. split; [done|]. split; [lia|]. intros m0. rewrite Em. intros [= <-]. lia.
    + match goal with |- Adding _ _ _ _ ?v /\ _ =>
        replace v with (put L x (new x) (erase L m u)) by exact (insert_put L x (new x) m u Em) end.
      destruct (i_entry _ _ _ Hi L m Em) as (e & Hce & -> & Heff & _).
      assert (Hna : ~ added u L).
      { intros Ha. destruct (i_added _ _ _ Hi L Ha) as (m' & Hm' & Hp). rewrite Em in Hm'. injection Hm' as <-.
        specialize (Hp _ Hnow). lia. }
      pose proof (erase_inv _ _ L e u Hi Heff Hna) as Hi1. set (u1 := erase L _ u) in *.
      assert (Em1 : page_mappings u1 = delete L (page_mappings u)) by apply erase_fields.
      assert (Eo1 : old u1 = old u) by apply erase_old.
      destruct (put_fields L x (new x) u1) as (Em2 & _ & Erun & _).
      split; [|split; [rewrite Erun; apply erase_fields|by rewrite put_old]]. split.
      * apply (put_inv stale (still_later later x l)); [done| |done|by rewrite Eo1|done..]. by rewrite Em1, lookup_delete_eq.
      * apply (cover_added x l L u); [done|by rewrite put_old| | |done].
        -- intros L' Hne. by rewrite Em2, Em1, lookup_insert_ne, lookup_delete_ne by done.
        -- exists (mapping L x (new x)). rewrite Em2, lookup_insert_eq, Hpm. split; [done|]. split; [lia|].
           intros m0. rewrite Em. intros [= <-]. lia.
      * by rewrite put_old, Eo1.
  - change (Adding x stale later (l + 1) (put L x (new x) u) /\ run_pass_2 (put L x (new x) u) = run_pass_2 u /\
      old (put L x (new x) u) = old u).
    destruct (put_fields L x (new x) u) as (Em2 & _ & Erun & _). split; [|by rewrite put_old]. split.
    + by apply (put_inv stale (still_later later x l)).
    + apply (cover_added x l L u); [done|by rewrite put_old| | |done].
      * intros L' Hne. by rewrite Em2, lookup_insert_ne by done.
      * exists (mapping L x (new x)). rewrite Em2, lookup_insert_eq, Hpm. split; [done|]. split; [lia|].
        intros m0. by rewrite Em.
    + by rewrite put_old.
Qed.

End Inv.

(** * The two passes of the page table update

    Every turn of a pass keeps the invariant of [PPCPageUpdate]; at the end no
    entry is left to look at, and the mappings are those of the new table. *)

Lemma fold_left_range {A} (f : A -> Z -> A) (P : Z -> A -> Prop) n : forall i a,
  (forall l a, Z.of_nat i <= l < Z.of_nat (i + n) -> P l a -> P (l + 1) (f a l)) -> P (Z.of_nat i) a ->
  P (Z.of_nat (i + n)) (fold_left f (map Z.of_nat (seq i n)) a).
Proof.
  induction n as [|n IH]; intros i a Hstep H0; cbn [seq map fold_left]; [by rewrite Nat.add_0_r|].
  replace (i + Datatypes.S n)%nat with (Datatypes.S i + n)%nat by lia. apply IH.
  - intros l b Hl. apply Hstep. lia.
  - replace (Z.of_nat (Datatypes.S i)) with (Z.of_nat i + 1) by lia. apply Hstep; [lia|done].
Qed.

Lemma EA_SR_nonneg L : 0 <= EA_SR L.
Proof. unfold EA_SR, field. apply Z.land_nonneg. right. lia. Qed.

Section Passes.
Context (S : Surroundings) (Sok : surroundings_ok S) (new : Z -> Pte) (h0 : Z -> option (Z * bool)).
Context (new_words : forall e, is_u32 (fst (new e))) (new_placed : well_placed S new).

#[local] Abbreviation Inv := (Inv S new h0).
#[local] Abbreviation Cover := (Cover S new).
#[local] Abbreviation cand := (cand S).

Lemma inv_stale stale stale' later u : Inv stale later u ->
  (forall e L, is_page S L -> live S e -> stale e L -> stale' e L \/ (~ stale' e L /\ same_pte (old u e) (new e))) ->
  (forall e L, is_page S L -> live S e -> ~ stale e L -> ~ stale' e L) -> Inv stale' later u.
Proof.
  intros Hi H1 H2. split; try apply Hi. intros L m Hm. destruct (i_entry _ _ _ _ _ _ Hi L m Hm) as (e & Hc & Em & He & Hd).
  exists e. do 3 (split; [done|]). pose proof (cand_live S Sok _ _ _ Hc) as Hl. pose proof Hc as [HL _].
  destruct Hd as [[Hs Ha]|[Hs Hsame]]; [|right; by auto]. destruct (H1 e L HL Hl Hs) as [?|?]; auto.
Qed.

(** *** Copying an entry *)

Lemma sync_old x u e : old (sync new x u) e = if e =? x then new x else old u e.
Proof. exact (old_insert (sync new x u) (old_page_table u) x (new x) e eq_refl). Qed.
Lemma sync_inv x stale later u : Inv stale later u -> (forall L, ~ stale x L) -> Inv stale later (sync new x u).
Proof.
  intros Hi Hns.
  change (effective S h0 (sync new x u)) with (effective S h0 u).
  split; try apply Hi.
  - intros L m Hm. destruct (i_entry _ _ _ _ _ _ Hi L m Hm) as (e & Hc & -> & He & Hd). exists e.
    assert (Hs : same_pte (old u e) (old (sync new x u) e)).
    { rewrite sync_old. destruct (Z.eqb_spec e x) as [->|]; [|reflexivity]. by destruct Hd as [[? _]|[_ ?]]; [destruct (Hns L)|]. }
    split; [eapply cand_fst; [exact (proj1 Hs)|done]|]. split; [by apply mapping_same|].
    split; [by rewrite <- (hosted_same S L _ _ Hs)|]. destruct Hd as [?|[? Hsame]]; [by left|right]. split; [done|].
    rewrite <- Hsame. by symmetry.
  - intros e. rewrite sync_old. destruct (e =? x); [apply new_words|apply Hi].
  - intros e He. rewrite sync_old. destruct (Z.eqb_spec e x) as [->|]; [by apply new_placed|by apply Hi].
Qed.

Lemma sync_add_segment x p1 p2 o A i u :
  sync new x (try_add_in_segment S p1 p2 o A u i) = try_add_in_segment S p1 p2 o A (sync new x u) i.
Proof.
  unfold try_add_in_segment. destruct (negb _); [done|]. cbv zeta.
  change (page_mappings (sync new x u)) with (page_mappings u).
  destruct (page_mappings u !! _) as [m|]; [destruct (_ <? _); [done|]; destruct (PM_host_mapping m)|];
    destruct (_ && _), (PTE_C p2); done.
Qed.
Lemma sync_add x p1 p2 o u : sync new x (try_add_mapping S p1 p2 o u) = try_add_mapping S p1 p2 o (sync new x u).
Proof.
  unfold try_add_mapping. destruct (get_page_index _ _ _) as [A|]; [|done]. generalize all_segments as l. intros l. revert u.
  induction l as [|i l IH]; intros u; simpl; [done|]. by rewrite IH, sync_add_segment.
Qed.

(** An entry of the new table is copied and its mappings are added. *)
Lemma sync_add_ok x stale later later' u : live S x -> PTE_V (fst (new x)) = true -> (forall L, ~ stale x L) ->
  (forall L p, still_later S new later' x 0 L p -> later L p) ->
  (forall L p, cand new L x -> later' L p -> prio new x < p) ->
  Inv stale later u -> Cover no_extra nowhere u ->
  let u' := sync new x (try_add_mapping S (fst (new x)) (snd (new x)) x u) in
  Inv stale later' u' /\ Cover no_extra nowhere u' /\ run_pass_2 u' = run_pass_2 u /\
  (forall e, old u' e = if e =? x then new x else old u e).
Proof.
  intros Hlive HV Hns Hl1 Hl2 Hi Hc u'. unfold u'. rewrite sync_add. clear u'.
  pose proof (new_placed x Hlive HV) as Hp. unfold try_add_mapping.
  destruct (get_page_index S (fst (new x)) (x / 64)) as [A|] eqn:EA; [clear Hp|done].
  enough (H : Adding S new h0 x stale later' 16 (fold_left (try_add_in_segment S (fst (new x)) (snd (new x)) x A) all_segments (sync new x u)) /\
    run_pass_2 (fold_left (try_add_in_segment S (fst (new x)) (snd (new x)) x A) all_segments (sync new x u)) = run_pass_2 u /\
    old (fold_left (try_add_in_segment S (fst (new x)) (snd (new x)) x A) all_segments (sync new x u)) = old (sync new x u)).
  { destruct H as ([Hi' Hc' Hx] & Hr & Ho). split; [|split; [|split; [done|intros e; by rewrite Ho, sync_old]]].
    - eapply inv_later; [exact Hi'|]. intros L p ?. by left.
    - assert (Hno : forall e L, cand new L e -> ~ being_added x 16 e L).
      { intros e L (HL & _) [_ Hge]. pose proof (EA_SR_range L (proj1 HL)). lia. }
      intros L c Hcand Heq _ _. destruct (Hc' L c Hcand Heq) as [?|(d & Hd & ? & [?|Hb])]; [by apply Hno|by intros []|by left| |].
      + right. exists d. auto.
      + by apply Hno in Hb. }
  apply (fold_left_range _ (fun l v => Adding S new h0 x stale later' l v /\ run_pass_2 v = run_pass_2 u /\ old v = old (sync new x u)) 16 0).
  - intros l v Hl (Ha & Hr & Ho).
    destruct (try_add_segment_ok S Sok new h0 x A stale later' l v) as (H1 & H2 & H3); try done; try lia.
    by rewrite H2, H3.
  - split; [|done]. split.
    + eapply inv_later; [by apply sync_inv|]. exact Hl1.
    + intros L c Hcand Heq Hb _. assert (c <> x).
      { intros ->. apply Hb. split; [done|apply EA_SR_nonneg]. }
      rewrite sync_old in Heq. destruct (Z.eqb_spec c x) as [|_]; [done|].
      destruct (Hc L c Hcand Heq) as [?|(d & ? & ? & [Hd|[]])]; [by intros []|by intros []|by left|right].
      exists d. split; [done|]. split; [done|]. rewrite sync_old. destruct (Z.eqb_spec d x) as [->|]; [|by left].
      right. split; [done|apply EA_SR_nonneg].
    + by rewrite sync_old, Z.eqb_refl.
Qed.

(** *** Pass 1 *)

Definition later_1 (rest : list Z) (L p : Z) : Prop := (0 <= p < 8 /\ slot S L false p ∈ rest) \/ 8 <= p < 16.
Definition in_rest (rest : list Z) (e L : Z) : Prop := e ∈ rest.
Record Pass1 (rest : list Z) (u : Update) : Prop := {
  p1_inv : Inv (in_rest rest) (later_1 rest) u;
  p1_cover : Cover no_extra nowhere u;
  p1_settled : forall e, live S e -> e ∉ rest -> old u e <> new e ->
    PTE_V (fst (new e)) = true /\ PTE_H (fst (new e)) = true /\ run_pass_2 u = true
}.
(** The entries that are left, in the order of the pass. *)
Record left_over (rest : list Z) : Prop := {
  lo_live : Forall (live S) rest;
  lo_sorted : StronglySorted Z.lt rest;
  lo_upward : forall e x, live S e -> x ∈ rest -> x <= e -> e ∈ rest
}.
Lemma left_over_cons x rest : left_over (x :: rest) ->
  live S x /\ x ∉ rest /\ left_over rest /\ (forall e, e ∈ rest -> x < e) /\ (forall e, live S e -> x < e -> e ∈ rest).
Proof.
  intros [Hl Hs Hu]. inversion_clear Hl as [|? ? Hx Hl']. apply StronglySorted_inv in Hs as [Hs' Hlt].
  assert (Hgt : forall e, e ∈ rest -> x < e) by (apply Forall_forall, Hlt).
  split; [done|]. split; [intros He; specialize (Hgt x He); lia|]. split; [|split; [done|]].
  - split; [done..|]. intros e y He Hy Hle. specialize (Hgt y Hy).
    assert (Hin : e ∈ x :: rest) by (apply (Hu e y); [done|by right|lia]).
    apply elem_of_cons in Hin as [->|?]; [lia|done].
  - intros e He Hlt'. assert (Hin : e ∈ x :: rest) by (apply (Hu e x); [done|by left|lia]).
    apply elem_of_cons in Hin as [->|?]; [lia|done].
Qed.

Lemma later_1_cons x rest L p : later_1 rest L p -> later_1 (x :: rest) L p.
Proof. intros [[? ?]|?]; [left; split; [done|by right]|by right]. Qed.

(** The mappings of the old entry are gone. *)
Lemma removal_ok x rest u : left_over (x :: rest) -> Pass1 (x :: rest) u -> old u x <> new x ->
  let u' := if PTE_V (fst (old u x)) then
      match get_page_index S (fst (old u x)) (x / 64) with
      | None => u
      | Some A => fold_left (remove_in_segment S new (fst (old u x)) x A) all_segments u
      end else u in
  Inv (in_rest rest) (later_1 (x :: rest)) u' /\ Cover no_extra nowhere u' /\ settled S new x rest u' /\ old u' x <> new x.
Proof.
  intros Hlo [Hi Hc Hset] Hd. destruct (left_over_cons x rest Hlo) as (Hlive & Hx & Hlo' & Hgt & Hup).
  assert (Hsettled : settled S new x rest u).
  { intros e He Hnr Hne Hde. apply Hset; [done| |done]. rewrite elem_of_cons. by intros [?|?]. }
  destruct (PTE_V (fst (old u x))) eqn:EV.
  - pose proof (i_placed _ _ _ _ _ _ Hi x Hlive EV) as Hp. destruct (get_page_index S (fst (old u x)) (x / 64)) as [A|] eqn:EA; [clear Hp|done].
    enough (Hrm : Removing S new h0 x (fst (old u x)) rest (later_1 (x :: rest)) 16
      (fold_left (remove_in_segment S new (fst (old u x)) x A) all_segments u)).
    { destruct Hrm as [Hi' Hc' Hs' _ Hd']. split; [|done]. eapply inv_stale; [exact Hi'| |].
      - intros e L HL _ [?|[_ ?]]; [by left|]. pose proof (EA_SR_range L (proj1 HL)). lia.
      - intros e L _ _ Hns He. apply Hns. by left. }
    apply (fold_left_range _ (Removing S new h0 x (fst (old u x)) rest (later_1 (x :: rest))) 16 0).
    + intros l v Hl. apply remove_segment_ok; (done || lia).
    + split; try done. eapply inv_stale; [exact Hi| |].
      * intros e L _ _ He. left. apply elem_of_cons in He as [->|?]; [right; split; [done|apply EA_SR_nonneg]|by left].
      * intros e L _ _ Hns [He|[-> _]]; apply Hns; [by right|by left].
  - split; [|done]. split; try apply Hi. intros L m Hm. destruct (i_entry _ _ _ _ _ _ Hi L m Hm) as (e & Hce & ? & ? & Hcase).
    exists e. do 3 (split; [done|]). assert (e <> x) by (intros ->; apply cand_V in Hce; congruence).
    destruct Hcase as [[He ?]|[He ?]]; [left|right]; (split; [|done]).
    + by apply elem_of_cons in He as [?|?].
    + intros ?. apply He. by right.
Qed.

Lemma pass_1_step x rest u : left_over (x :: rest) -> Pass1 (x :: rest) u -> Pass1 rest (pass_1_entry S new u x).
Proof.
  intros Hlo Hp. destruct (left_over_cons x rest Hlo) as (Hlive & Hx & Hlo' & Hgt & Hup). pose proof Hp as [Hi Hc Hset].
  unfold pass_1_entry. destruct (unchanged new u x) eqn:Eu.
  { apply unchanged_iff in Eu. split; [|done|].
    - eapply inv_later; [eapply inv_stale; [exact Hi| |]|].
      + intros e L _ _ He. apply elem_of_cons in He as [->|?]; [right|by left]. split; [done|]. by rewrite Eu.
      + intros e L _ _ Hns He. apply Hns. by right.
      + intros L p. apply later_1_cons.
    - intros e He Hnr Hde. apply Hset; [done| |done]. rewrite elem_of_cons. intros [->|?]; done. }
  apply unchanged_false in Eu. pose proof (removal_ok x rest u Hlo Hp Eu) as Hrem. cbv zeta in Hrem.
  enough (Hadd : forall v, Inv (in_rest rest) (later_1 (x :: rest)) v -> Cover no_extra nowhere v -> settled S new x rest v ->
    old v x <> new x -> Pass1 rest (add_new S new x v)).
  { fold (old u) in *. unfold old in Hrem at 1. change (entry (old_page_table u) x) with (old u x) in *.
    destruct (PTE_V (fst (old u x))) eqn:EV; [|by apply Hadd; apply Hrem].
    pose proof (i_placed _ _ _ _ _ _ Hi x Hlive EV) as Hpl. destruct (get_page_index S (fst (old u x)) (x / 64)); [|done].
    by apply Hadd; apply Hrem. }
  clear u Hp Hi Hc Hset Eu Hrem. intros u Hi Hc Hset Hd. unfold add_new. destruct (new x) as [p1 p2] eqn:En.
  destruct (PTE_V p1) eqn:EV; [destruct (PTE_H p1) eqn:EH|].
  - split; [|done|].
    + change (Inv (in_rest rest) (later_1 rest) (set_run_pass_2 true u)). apply (inv_later _ _ _ _ (later_1 (x :: rest))); [|intros L p; apply later_1_cons].
      split; apply Hi.
    + intros e He Hnr Hde. change (old u e <> new e) in Hde. destruct (Z.eq_dec e x) as [->|Hne]; [by rewrite En|].
      by destruct (Hset e He Hnr Hne Hde) as (? & ? & _).
  - assert (E : (p1, p2) = (fst (new x), snd (new x))) by by rewrite En. injection E as E1 E2.
    rewrite E1, E2 in *.
    destruct (sync_add_ok x (in_rest rest) (later_1 (x :: rest)) (later_1 rest) u) as (Hi' & Hc' & Hr' & Ho'); try done.
    + intros L p [?|(_ & Hcx & ->)]; [by apply later_1_cons|]. left. destruct Hcx as (HL & H & k & Hk & Ex & Ef).
      assert (H = false) as -> by (rewrite Ef in EH; unfold page_pte1 in EH; by rewrite make_pte1_H in EH).
      assert (Ek : prio new x = k) by (rewrite Ex; rewrite (cand_H S Sok new L false k) by (done || by rewrite <- Ex); simpl; lia).
      rewrite Ek. split; [lia|]. rewrite <- Ex. by left.
    + intros L p Hcx Hp. destruct Hcx as (HL & H & k & Hk & Ex & Ef).
      assert (H = false) as -> by (rewrite Ef in EH; unfold page_pte1 in EH; by rewrite make_pte1_H in EH).
      assert (Ek : prio new x = k) by (rewrite Ex; rewrite (cand_H S Sok new L false k) by (done || by rewrite <- Ex); simpl; lia).
      rewrite Ek. destruct Hp as [[Hp Hin]|?]; [|lia]. specialize (Hgt _ Hin). rewrite Ex in Hgt. unfold slot in Hgt. lia.
    + split; [done|done|]. intros e He Hnr Hde. rewrite Ho' in Hde. destruct (Z.eqb_spec e x) as [->|Hne]; [done|].
      rewrite Hr'. by apply Hset.
  - rewrite <- En in *. split.
    + apply (inv_later _ _ _ _ (later_1 (x :: rest))); [by apply sync_inv|intros L p; apply later_1_cons].
    + assert (Hno : forall L, ~ cand new L x) by (intros L Hcx; apply cand_V in Hcx; by rewrite En in Hcx; simpl in Hcx; congruence).
      intros L c Hcand Heq _ _. rewrite sync_old in Heq. destruct (Z.eqb_spec c x) as [->|_]; [by destruct (Hno L)|].
      destruct (Hc L c Hcand Heq) as [?|(d & Hcd & ? & [?|[]])]; [by intros []|by intros []|by left|right].
      exists d. split; [done|]. split; [done|]. left. rewrite sync_old. destruct (Z.eqb_spec d x) as [->|]; [by destruct (Hno L)|done].
    + intros e He Hnr Hde. rewrite sync_old in Hde. destruct (Z.eqb_spec e x) as [->|Hne]; [done|]. by apply Hset.
Qed.

(** *** Pass 2 *)

Definition later_2 (rest : list Z) (L p : Z) : Prop := 8 <= p < 16 /\ slot S L true (p - 8) ∈ rest.
Definition not_stale (e L : Z) : Prop := False.
Record Pass2 (rest : list Z) (u : Update) : Prop := {
  p2_inv : Inv not_stale (later_2 rest) u;
  p2_cover : Cover no_extra nowhere u;
  p2_dirty : forall e, live S e -> old u e <> new e ->
    e ∈ rest /\ PTE_V (fst (new e)) = true /\ PTE_H (fst (new e)) = true
}.
Lemma later_2_cons x rest L p : later_2 rest L p -> later_2 (x :: rest) L p.
Proof. intros [? ?]. split; [done|by right]. Qed.

Lemma pass_2_step x rest u : left_over (x :: rest) -> Pass2 (x :: rest) u -> Pass2 rest (pass_2_entry S new u x).
Proof.
  intros Hlo [Hi Hc Hd]. destruct (left_over_cons x rest Hlo) as (Hlive & Hx & Hlo' & Hgt & _). unfold pass_2_entry.
  destruct (unchanged new u x) eqn:Eu.
  - apply unchanged_iff in Eu. split; [by eapply inv_later, later_2_cons|done|].
    intros e He Hde. destruct (Hd e He Hde) as (Hin & ?). apply elem_of_cons in Hin as [->|?]; done.
  - apply unchanged_false in Eu. destruct (Hd x Hlive Eu) as (_ & HV & HH).
    assert (Hslot : forall L, cand new L x -> exists k, 0 <= k < 8 /\ x = slot S L true k /\ prio new x = k + 8).
    { intros L (HL & H & k & Hk & Ex & Ef).
      assert (H = true) as -> by (rewrite Ef in HH; unfold page_pte1 in HH; by rewrite make_pte1_H in HH).
      exists k. split; [done|]. split; [done|]. rewrite Ex, (cand_H S Sok new L true k) by (done || by rewrite <- Ex). simpl. lia. }
    rewrite (surjective_pairing (new x)).
    destruct (sync_add_ok x not_stale (later_2 (x :: rest)) (later_2 rest) u) as (Hi' & Hc' & _ & Ho'); try done.
    + by intros L [].
    + intros L p [?|(_ & Hcx & ->)]; [by apply later_2_cons|]. destruct (Hslot L Hcx) as (k & Hk & Ex & ->).
      split; [lia|]. replace (k + 8 - 8) with k by lia. rewrite <- Ex. by left.
    + intros L p Hcx [Hp Hin]. destruct (Hslot L Hcx) as (k & Hk & Ex & ->). specialize (Hgt _ Hin).
      rewrite Ex in Hgt. unfold slot in Hgt. lia.
    + split; [done..|]. intros e He Hde. rewrite Ho' in Hde. destruct (Z.eqb_spec e x) as [->|Hne]; [done|].
      destruct (Hd e He Hde) as (Hin & ?). apply elem_of_cons in Hin as [?|?]; done.
Qed.

(** *** The loops *)

Lemma fold_steps (P : list Z -> Update -> Prop) (f : Update -> Z -> Update) l : forall u,
  (forall x rest v, left_over (x :: rest) -> P (x :: rest) v -> P rest (f v x)) -> left_over l -> P l u -> P [] (fold_left f l u).
Proof.
  induction l as [|x l IH]; intros u Hstep Hlo HP; [done|]. cbn [fold_left].
  apply IH; [done| |by apply Hstep]. by apply (left_over_cons x l Hlo).
Qed.

(** The entries the passes visit. *)
Definition visited (size : Z) : list Z :=
  flat_map (fun i => if skipped S i then [] else flat_map pteg_entries (block_ptegs i))
    (map (fun n => PAGE_TABLE_MIN_SIZE * Z.of_nat n) (seq 0 (Z.to_nat (size / PAGE_TABLE_MIN_SIZE)))).

Lemma fold_left_flat_map {A B C} (f : A -> B -> A) (g : C -> list B) l : forall a,
  fold_left f (flat_map g l) a = fold_left (fun a x => fold_left f (g x) a) l a.
Proof. induction l as [|x l IH]; intros a; [done|]. cbn [flat_map fold_left]. by rewrite fold_left_app, IH. Qed.
Lemma fold_left_ext {A B} (f g : A -> B -> A) l : (forall a x, f a x = g a x) -> forall a, fold_left f l a = fold_left g l a.
Proof. intros E. induction l as [|x l IH]; intros a; [done|]. cbn [fold_left]. by rewrite E, IH. Qed.
(** Leaving out the groups in which nothing changed makes no difference. *)
Lemma pteg_all f u i : (forall v e, unchanged new v e = true -> f v e = v) -> pteg new f u i = fold_left f (pteg_entries i) u.
Proof.
  intros Hf. unfold pteg. destruct (forallb (unchanged new u) (pteg_entries i)) eqn:E; [|done].
  rewrite forallb_forall in E. induction (pteg_entries i) as [|e l IH]; [done|]. cbn [fold_left].
  rewrite Hf by (apply E; by left). apply IH. intros y Hy. apply E. by right.
Qed.
Lemma pass_visited f size u : (forall v e, unchanged new v e = true -> f v e = v) ->
  pass S new f size u = fold_left f (visited size) u.
Proof.
  intros Hf. unfold pass, visited. rewrite fold_left_flat_map. apply fold_left_ext. intros v i. unfold block.
  destruct (skipped S i); [done|]. rewrite fold_left_flat_map. apply fold_left_ext. intros w j. by apply pteg_all.
Qed.

(** What the two passes leave behind. *)
Lemma passes_finish size u : left_over (visited size) -> (forall e, live S e -> e ∈ visited size) -> Pass1 (visited size) u -> Pass2 [] (passes S new size u).
Proof.
  intros Hlo Hall Hp. unfold passes.
  assert (H1 : Pass1 [] (pass S new (pass_1_entry S new) size u)).
  { rewrite pass_visited by (intros v e E; unfold pass_1_entry; by rewrite E). by apply fold_steps; [apply pass_1_step|..]. }
  set (v := pass S new (pass_1_entry S new) size u) in *. destruct H1 as [Hi Hc Hs].
  assert (Hi' : Inv not_stale (fun _ p => 8 <= p < 16) v).
  { eapply inv_later; [eapply inv_stale; [exact Hi| |]|].
    - intros e L _ _ He. by apply elem_of_nil in He.
    - by intros e L _ _ _ [].
    - intros L p ?. by right. }
  destruct (run_pass_2 v) eqn:Er.
  - rewrite pass_visited by (intros w e E; unfold pass_2_entry; by rewrite E). apply fold_steps; [apply pass_2_step|done|].
    split; [eapply inv_later; [exact Hi'|]; by intros L p [? _]|done|].
    intros e He Hde. destruct (Hs e He ltac:(by intros ?%elem_of_nil) Hde) as (? & ? & _). auto.
  - split; [eapply inv_later; [exact Hi'|]; intros L p [_ Hin]; by apply elem_of_nil in Hin|done|].
    intros e He Hde. by destruct (Hs e He ltac:(by intros ?%elem_of_nil) Hde) as (_ & _ & ?).
Qed.

End Passes.
