(* ===== verification/PPCPageTableSpec.v ===== *)
(** * The host shows the guest's page table

    [PageTableUpdated] looks only at the entries that changed since the last
    time.  Here its result is compared with the definition: the walk over the
    sixteen entries a page can have, for every page. *)
From Stdlib Require Import Sorted.
From S2P Require Export PPCPageUpdate.

(** ** The entries that are visited *)

Lemma sorted_app (l k : list Z) : StronglySorted Z.lt l -> StronglySorted Z.lt k ->
  (forall x y, x ∈ l -> y ∈ k -> x < y) -> StronglySorted Z.lt (l ++ k).
Proof.
  intros Hl Hk H. induction Hl as [|x l Hl IH Hx]; [done|]. cbn [app]. constructor.
  - apply IH. intros y z Hy Hz. apply H; [by right|done].
  - apply Forall_app. split; [done|]. apply Forall_forall. intros y Hy. apply H; [by left|done].
Qed.
Lemma elem_of_flat_map {A} (f : A -> list Z) l y : y ∈ flat_map f l <-> exists x, x ∈ l /\ y ∈ f x.
Proof. setoid_rewrite list_elem_of_In. apply in_flat_map. Qed.
Lemma sorted_flat_map (f : Z -> list Z) (w : Z) (l : list Z) :
  StronglySorted (fun x y => x + w <= y) l ->
  (forall x, x ∈ l -> StronglySorted Z.lt (f x) /\ forall y, y ∈ f x -> x <= y < x + w) ->
  StronglySorted Z.lt (flat_map f l).
Proof.
  intros Hs Hf. induction Hs as [|x l Hs IH Hx]; [constructor|]. cbn [flat_map].
  destruct (Hf x ltac:(by left)) as [Hsx Hrx]. apply sorted_app; [done|apply IH; intros z Hz; apply Hf; by right|].
  intros y z Hy Hz. apply elem_of_flat_map in Hz as (x' & Hx' & Hz). rewrite Forall_forall in Hx.
  specialize (Hx x' Hx'). specialize (Hrx y Hy). destruct (Hf x' ltac:(by right)) as [_ Hr]. specialize (Hr z Hz). lia.
Qed.
Lemma progression_sorted (R : Z -> Z -> Prop) (f : nat -> Z) n : (forall i j, (i < j)%nat -> R (f i) (f j)) ->
  forall i, StronglySorted R (map f (seq i n)).
Proof.
  intros Hf. induction n as [|n IH]; intros i; [constructor|]. cbn [seq map]. constructor; [done|].
  apply Forall_forall. intros y Hy. apply list_elem_of_fmap in Hy as (k & -> & Hk). apply elem_of_seq in Hk. apply Hf. lia.
Qed.
Lemma progression_elem (f : nat -> Z) n y : y ∈ map f (seq 0 n) <-> exists k, (k < n)%nat /\ y = f k.
Proof.
  rewrite list_elem_of_fmap. setoid_rewrite elem_of_seq. split; intros (k & H1 & H2); exists k; (split; (done || lia)).
Qed.

Lemma pteg_entries_elem i e : e ∈ pteg_entries i <-> exists k, 0 <= k < 8 /\ e = i + 8 * k.
Proof.
  unfold pteg_entries. rewrite progression_elem. split.
  - intros (k & Hk & ->). exists (Z.of_nat k). lia.
  - intros (k & Hk & ->). exists (Z.to_nat k). lia.
Qed.
Lemma block_ptegs_elem i e : e ∈ block_ptegs i <-> exists j, 0 <= j < 1024 /\ e = i + 64 * j.
Proof.
  unfold block_ptegs. rewrite progression_elem. split.
  - intros (k & Hk & ->). exists (Z.of_nat k). lia.
  - intros (k & Hk & ->). exists (Z.to_nat k). lia.
Qed.

Section Visited.
Context (S : Surroundings) (Sok : surroundings_ok S).

Lemma page_table_size_mask : page_table_size S = live_mask S + 64 /\ page_table_size S mod 0x10000 = 0.
Proof.
  destruct (so_mask S Sok) as (m & Hm & Em), (so_base S Sok) as (b & Hb & Eb).
  assert (E1 : pagetable_base S .| pagetable_mask S = ((b .| m) .<< 16) .| 0xffc0).
  { rewrite Em, Eb, Z.lor_assoc. f_equal. by rewrite Z.shiftl_lor. }
  assert (E2 : live_mask S = (Z.ldiff m b .<< 16) .| 0xffc0).
  { unfold live_mask. rewrite Em, Eb. apply Z.bits_inj'. intros i Hi.
    rewrite Z.land_spec, !Z.lor_spec, Z.lnot_spec, !Z.shiftl_spec by done.
    destruct (Z.lt_ge_cases i 16) as [Hlt|Hge].
    - rewrite !(Z.testbit_neg_r _ (i - 16)) by lia. by rewrite andb_true_r.
    - assert (Hf : Z.testbit 0xffc0 i = false) by (apply (bits_above_pow2 0xffc0 16 ltac:(lia)); lia).
      by rewrite Z.ldiff_spec, Hf, !orb_false_r by lia. }
  assert (Hd : forall x, 0 <= x -> (x .<< 16) .| 0xffc0 = 65536 * x + 0xffc0).
  { intros x Hx. rewrite (lor_shiftl_add 16) by lia. lia. }
  assert (Hor : b .| m = b + Z.ldiff m b).
  { rewrite <- lor_disjoint_add; [|apply Z.bits_inj'; intros i Hi; rewrite Z.land_spec, Z.ldiff_spec, Z.bits_0; by destruct (Z.testbit b i), (Z.testbit m i)].
    apply Z.bits_inj'. intros i Hi. rewrite !Z.lor_spec, Z.ldiff_spec. by destruct (Z.testbit b i), (Z.testbit m i). }
  assert (H0 : 0 <= Z.ldiff m b) by (apply Z.ldiff_nonneg; left; lia).
  unfold page_table_size. rewrite E1, E2, Eb, !Hd, Hor by lia. unfold PAGE_TABLE_MIN_SIZE.
  replace (65536 * (b + Z.ldiff m b) + 65472 + (65536 - 1)) with (65536 * (b + Z.ldiff m b + 1) + 65471) by lia.
  change (65536 - 1) with (Z.ones 16). rewrite <- Z.ldiff_land, Z.ldiff_ones_r, Z.shiftl_mul_pow2, Z.shiftr_div_pow2, Z.shiftl_mul_pow2 by lia.
  change (2 ^ 16) with 65536. replace ((65536 * (b + Z.ldiff m b + 1) + 65471) / 65536) with (b + Z.ldiff m b + 1) by (Z.div_mod_to_equations; lia).
  split; Z.div_mod_to_equations; lia.
Qed.

Lemma subset_bits x y : (x .& y =? x) = true <-> forall i, 0 <= i -> Z.testbit x i = true -> Z.testbit y i = true.
Proof.
  rewrite Z.eqb_eq. split.
  - intros E i Hi Hx. rewrite <- E, Z.land_spec in Hx. by apply andb_true_iff in Hx as [_ ?].
  - intros H. apply Z.bits_inj'. intros i Hi. rewrite Z.land_spec. specialize (H i Hi).
    destruct (Z.testbit x i); [by rewrite H|done].
Qed.
(** The test at the head of the outer loop. *)
Lemma skipped_live i : 0 <= i -> i mod 0x10000 = 0 ->
  skipped S i = false <-> (forall j, 0 <= j -> Z.testbit i j = true -> Z.testbit (live_mask S) j = true).
Proof.
  intros Hi Hm. unfold skipped. rewrite orb_false_iff, !negb_false_iff, subset_bits, Z.eqb_eq. unfold live_mask. split.
  - intros [H1 H2] j Hj Hb. apply (f_equal (fun x => Z.testbit x j)) in H2.
    rewrite Z.land_spec, Hb, Z.bits_0 in H2. rewrite Z.land_spec, Z.lnot_spec, H1 by done. by cbn [andb] in H2; rewrite H2.
  - intros H. split.
    + intros j Hj Hb. specialize (H j Hj Hb). rewrite Z.land_spec in H. by apply andb_true_iff in H as [? _].
    + apply Z.bits_inj'. intros j Hj. rewrite Z.land_spec, Z.bits_0. specialize (H j Hj).
      destruct (Z.testbit i j); [|done]. specialize (H eq_refl). rewrite Z.land_spec, Z.lnot_spec in H by done.
      apply andb_true_iff in H as [_ H]. by apply negb_true_iff in H.
Qed.

Lemma mod_block_bits e i : 0 <= e -> 0 <= i -> Z.testbit (e - e mod 0x10000) i = Z.testbit e i && (16 <=? i).
Proof.
  intros He Hi. replace (e - e mod 0x10000) with ((e .>> 16) .<< 16).
  - rewrite Z.shiftl_spec by done. destruct (Z.leb_spec 16 i).
    + rewrite Z.shiftr_spec, andb_true_r by lia. f_equal. lia.
    + by rewrite Z.testbit_neg_r, andb_false_r by lia.
  - rewrite Z.shiftl_mul_pow2, Z.shiftr_div_pow2 by lia. change (2 ^ 16) with 0x10000. Z.div_mod_to_equations; lia.
Qed.
Lemma live_block e : live S e <-> 0 <= e /\ e mod 8 = 0 /\ skipped S (e - e mod 0x10000) = false.
Proof.
  split; intros (H0 & H8 & H); (split; [done|]; split; [done|]).
  - apply skipped_live; [Z.div_mod_to_equations; lia|Z.div_mod_to_equations; lia|].
    intros j Hj Hb. rewrite mod_block_bits in Hb by done. apply andb_true_iff in Hb as [Hb H16].
    apply Z.leb_le in H16. apply H; [lia|done].
  - intros i Hi Hb. destruct (live_mask_bits S Sok i ltac:(lia)) as (_ & Hmid & _).
    destruct (Z.lt_ge_cases i 16); [apply Hmid; lia|].
    assert (Hsk := proj1 (skipped_live (e - e mod 0x10000) ltac:(Z.div_mod_to_equations; lia) ltac:(Z.div_mod_to_equations; lia)) H).
    apply Hsk; [lia|]. rewrite mod_block_bits, Hb by lia. cbn [andb]. lia.
Qed.
Lemma live_bound e : live S e -> e < page_table_size S.
Proof.
  intros (H0 & H8 & H). rewrite (proj1 page_table_size_mask).
  assert (e - e mod 64 <= live_mask S); [|Z.div_mod_to_equations; lia].
  apply bits_le; [Z.div_mod_to_equations; lia|apply live_mask_nonneg, Sok|].
  intros i Hi Hb. rewrite pteg_start_bits in Hb by done. apply andb_true_iff in Hb as [Hb H6]. apply Z.leb_le in H6. auto.
Qed.

Lemma visited_live e : e ∈ visited S (page_table_size S) <-> live S e.
Proof.
  unfold visited. rewrite elem_of_flat_map, live_block. setoid_rewrite progression_elem. split.
  - intros (i & (n & Hn & ->) & He). destruct (skipped S _) eqn:Es; [by apply elem_of_nil in He|].
    apply elem_of_flat_map in He as (g & Hg & He). apply block_ptegs_elem in Hg as (j & Hj & ->).
    apply pteg_entries_elem in He as (k & Hk & ->). unfold PAGE_TABLE_MIN_SIZE in *.
    split; [lia|]. split; [Z.div_mod_to_equations; lia|].
    replace (_ - _) with (0x10000 * Z.of_nat n) by (Z.div_mod_to_equations; lia). done.
  - intros (H0 & H8 & Hs). pose proof (live_bound e (proj2 (live_block e) (conj H0 (conj H8 Hs)))) as Hb.
    exists (e - e mod 0x10000). split.
    + exists (Z.to_nat (e / 0x10000)). unfold PAGE_TABLE_MIN_SIZE. rewrite Z2Nat.id by (apply Z.div_pos; lia).
      split; [|rewrite (Z.div_mod e 0x10000) at 1 by lia; lia].
      destruct page_table_size_mask as [_ Hz]. apply Z2Nat.inj_lt; Z.div_mod_to_equations; lia.
    + rewrite Hs, elem_of_flat_map. exists (e - e mod 64). rewrite block_ptegs_elem, pteg_entries_elem. split.
      * exists (e mod 0x10000 / 64). Z.div_mod_to_equations; lia.
      * exists (e mod 64 / 8). Z.div_mod_to_equations; lia.
Qed.
Lemma visited_left_over : left_over S (visited S (page_table_size S)).
Proof.
  split.
  - apply Forall_forall. intros e. apply visited_live.
  - apply (sorted_flat_map _ 0x10000); [apply progression_sorted; unfold PAGE_TABLE_MIN_SIZE; lia|].
    intros i Hi. assert (Hr : StronglySorted Z.lt (flat_map pteg_entries (block_ptegs i))).
    { apply (sorted_flat_map _ 64); [apply progression_sorted; lia|]. intros g _. split.
      - apply progression_sorted. lia.
      - intros y Hy. apply pteg_entries_elem in Hy as (k & Hk & ->). lia. }
    destruct (skipped S i); (split; [done || constructor|]).
    + by intros y ?%elem_of_nil.
    + intros y Hy. apply elem_of_flat_map in Hy as (g & Hg & He). apply block_ptegs_elem in Hg as (j & Hj & ->).
      apply pteg_entries_elem in He as (k & Hk & ->). lia.
  - intros e x He _ _. by apply visited_live.
Qed.

End Visited.

(** ** The walk *)

Section Spec.
Context (S : Surroundings).

(** The entries a page can have, in the order of the walk. *)
Definition walk_slots (L : Z) : list (Z * bool) :=
  map (fun k => (slot S L false (Z.of_nat k), false)) (seq 0 8) ++ map (fun k => (slot S L true (Z.of_nat k), true)) (seq 0 8).
Definition page_walk (t : Z -> Pte) (L : Z) : option Z :=
  option_map fst (List.find (fun '(e, H) => fst (t e) =? page_pte1 S L H) (walk_slots L)).
Definition is_pageb (L : Z) : bool :=
  (0 <=? L) && (L <? 0x100000000) && (EA_offset L =? 0) && negb (SR_T (segment S (EA_SR L))).
(** The mapping of a page, and what the host shows there. *)
Definition page_mapping (t : Z -> Pte) (L : Z) : option Z :=
  if is_pageb L then (fun e => mapping S L e (t e)) <$> page_walk t L else None.
Definition page_host (t : Z -> Pte) (L : Z) : option HostMapping :=
  if is_pageb L then
    e ← page_walk t L;
    (fun '(a, writeable) => mkHostMapping L HW_PAGE_SIZE a writeable) <$> hosted S L (t e)
  else None.

Record in_sync (p : PageTables) : Prop := {
  sync_words : forall e, is_u32 (fst (entry (m_page_table p) e));
  sync_placed : well_placed S (entry (m_page_table p));
  sync_mappings : forall L, m_page_mappings p !! L = page_mapping (entry (m_page_table p)) L;
  sync_host : forall L, host_mappings p !! L = page_host (entry (m_page_table p)) L
}.

(** The regions consist of pages. *)
Definition regions_ok : Prop :=
  Forall (fun '(start, size) => start mod HW_PAGE_SIZE = 0 /\ size mod HW_PAGE_SIZE = 0) (regions S).

Lemma is_pageb_spec L : is_pageb L = true <-> is_page S L.
Proof.
  unfold is_pageb, is_page. rewrite !andb_true_iff, negb_true_iff, Z.leb_le, Z.ltb_lt, Z.eqb_eq. unfold is_u32. tauto.
Qed.
Lemma walk_slots_elem L e H : (e, H) ∈ walk_slots L <-> exists k, 0 <= k < 8 /\ e = slot S L H k.
Proof.
  unfold walk_slots. rewrite elem_of_app, !list_elem_of_fmap. setoid_rewrite elem_of_seq. split.
  - intros [(k & [= -> ->] & Hk)|(k & [= -> ->] & Hk)]; exists (Z.of_nat k); (split; [lia|done]).
  - intros (k & Hk & ->). destruct H; [right|left]; exists (Z.to_nat k); (split; [|lia]); by rewrite Z2Nat.id by lia.
Qed.

Context (Sok : surroundings_ok S).

(** [find] returns the first. *)
Lemma find_first {A} (f : A -> bool) (l : list A) (rank : A -> Z) :
  StronglySorted (fun a b => rank a <= rank b) l ->
  match List.find f l with
  | Some a => a ∈ l /\ f a = true /\ forall b, b ∈ l -> f b = true -> rank a <= rank b
  | None => forall b, b ∈ l -> f b = false
  end.
Proof.
  induction 1 as [|x l Hs IH Hx]; [by intros b ?%elem_of_nil|]. cbn [List.find]. rewrite Forall_forall in Hx.
  destruct (f x) eqn:Ef.
  - split; [by left|]. split; [done|]. intros b Hb _. apply elem_of_cons in Hb as [->|?]; [lia|by apply Hx].
  - destruct (List.find f l) as [a|].
    + destruct IH as (Ha & Efa & Hmin). split; [by right|]. split; [done|]. intros b Hb Efb.
      apply elem_of_cons in Hb as [->|?]; [congruence|by apply Hmin].
    + intros b Hb. apply elem_of_cons in Hb as [->|?]; [done|by apply IH].
Qed.
Definition rank (q : Z * bool) : Z := priority_of (fst q) (snd q).
Lemma walk_slots_sorted L : StronglySorted (fun a b => rank a <= rank b) (walk_slots L).
Proof.
  assert (E : map rank (walk_slots L) = map Z.of_nat (seq 0 16)).
  { unfold walk_slots. rewrite map_app, !map_map. unfold rank. cbn [fst snd].
    change (seq 0 16) with (seq 0 8 ++ seq 8 8). rewrite map_app. f_equal.
    - apply map_ext_in. intros k Hk. apply in_seq in Hk. rewrite priority_slot by (done || lia). simpl. lia.
    - change (seq 8 8) with (map (Nat.add 8) (seq 0 8)). rewrite map_map.
      apply map_ext_in. intros k Hk. apply in_seq in Hk. rewrite priority_slot by (done || lia). simpl. lia. }
  assert (Hs : StronglySorted Z.le (map rank (walk_slots L))) by (rewrite E; apply progression_sorted; lia).
  revert Hs. generalize (walk_slots L) as l. clear E. induction l as [|x l IH]; intros Hs; [constructor|].
  cbn [map] in Hs. apply StronglySorted_inv in Hs as [Hs Hx]. constructor; [by apply IH|].
  by rewrite Forall_map in Hx.
Qed.

Lemma page_walk_spec t L : is_page S L ->
  match page_walk t L with
  | Some e => cand S t L e /\ forall c, cand S t L c -> prio t e <= prio t c
  | None => forall c, ~ cand S t L c
  end.
Proof.
  intros HL. pose proof (find_first (fun '(e, H) => fst (t e) =? page_pte1 S L H) _ rank (walk_slots_sorted L)) as Hf.
  assert (Hc : forall c, cand S t L c -> exists H, (c, H) ∈ walk_slots L /\ (fst (t c) =? page_pte1 S L H) = true /\ rank (c, H) = prio t c).
  { intros c (_ & H & k & Hk & Ec & Ef). exists H. rewrite walk_slots_elem. split; [by exists k|]. split; [by apply Z.eqb_eq|].
    unfold rank, prio. cbn [fst snd]. rewrite Ef. unfold page_pte1. by rewrite make_pte1_H. }
  unfold page_walk. destruct (List.find _ _) as [[e H]|]; cbn [option_map fst].
  - destruct Hf as (Hin & Ef & Hmin). apply Z.eqb_eq in Ef. apply walk_slots_elem in Hin as (k & Hk & Ee).
    assert (Hce : cand S t L e) by (split; [done|]; by exists H, k). split; [done|].
    intros c Hcc. destruct (Hc c Hcc) as (H' & Hin' & Ef' & <-).
    specialize (Hmin _ Hin' Ef'). unfold rank in Hmin at 1. cbn [fst snd] in Hmin. unfold prio. rewrite Ef.
    unfold page_pte1. by rewrite make_pte1_H.
  - intros c Hcc. destruct (Hc c Hcc) as (H' & Hin' & Ef' & _). specialize (Hf _ Hin'). cbn in Hf. congruence.
Qed.

Lemma page_walk_ext t t' L : (forall e, live S e -> t e = t' e) -> page_walk t L = page_walk t' L.
Proof.
  intros E. unfold page_walk. f_equal.
  assert (Hl : forall q, q ∈ walk_slots L -> t (fst q) = t' (fst q)).
  { intros [e H] Hin. apply walk_slots_elem in Hin as (k & Hk & ->). by apply E, slot_live. }
  induction (walk_slots L) as [|[e H] l IH]; [done|]. cbn [List.find].
  pose proof (Hl (e, H) ltac:(by left)) as He. cbn in He. rewrite He. case_match; [done|].
  apply IH. intros q Hq. apply Hl. by right.
Qed.
Lemma page_walk_live t L e : is_page S L -> page_walk t L = Some e -> live S e.
Proof. intros HL E. pose proof (page_walk_spec t L HL) as Hw. rewrite E in Hw. by eapply cand_live, Hw. Qed.
Lemma page_mapping_ext t t' L : (forall e, live S e -> t e = t' e) -> page_mapping t L = page_mapping t' L.
Proof.
  intros E. unfold page_mapping. destruct (is_pageb L) eqn:Eb; [|done]. apply is_pageb_spec in Eb.
  rewrite (page_walk_ext t t' L E). destruct (page_walk t' L) as [e|] eqn:Ew; [|done].
  cbn. by rewrite E by (by eapply page_walk_live).
Qed.
Lemma page_host_ext t t' L : (forall e, live S e -> t e = t' e) -> page_host t L = page_host t' L.
Proof.
  intros E. unfold page_host. destruct (is_pageb L) eqn:Eb; [|done]. apply is_pageb_spec in Eb.
  rewrite (page_walk_ext t t' L E). destruct (page_walk t' L) as [e|] eqn:Ew; [|done].
  cbn. by rewrite E by (by eapply page_walk_live).
Qed.

End Spec.

(** ** The host's side *)

Section Host.
Context (S : Surroundings) (Rok : regions_ok S).

Definition shown (L a : Z) (writeable : bool) : HostMapping := mkHostMapping L HW_PAGE_SIZE a writeable.

Lemma page_intersection L start size : start mod HW_PAGE_SIZE = 0 -> size mod HW_PAGE_SIZE = 0 -> L mod HW_PAGE_SIZE = 0 ->
  Z.max start L < Z.min (start + size) (L + HW_PAGE_SIZE) ->
  Z.max start L = L /\ Z.min (start + size) (L + HW_PAGE_SIZE) = L + HW_PAGE_SIZE.
Proof.
  unfold HW_PAGE_SIZE. intros H1 H2 H3 Hlt. apply Z.mod_divide in H1 as [p ->], H2 as [q ->], H3 as [r ->]; lia.
Qed.
Lemma map_regions_other L L' a w l : forall host, L' <> L ->
  fold_left (map_region L a w) l host !! L' = host !! L'.
Proof.
  induction l as [|[start size] l IH]; intros host Hne; [done|]. cbn [fold_left]. rewrite IH by done.
  unfold map_region. destruct (_ <=? _); [done|]. destruct (host !! L) as [m|]; [destruct (_ && _); [|done]|]; by rewrite lookup_insert_ne.
Qed.
Lemma map_regions_page L a w l : a mod HW_PAGE_SIZE = 0 ->
  Forall (fun '(start, size) => start mod HW_PAGE_SIZE = 0 /\ size mod HW_PAGE_SIZE = 0) l -> forall host,
  host !! L = None \/ (exists w0, host !! L = Some (shown L a w0)) ->
  fold_left (map_region L a w) l host !! L =
  if existsb (fun '(start, size) => Z.max start a <? Z.min (start + size) (a + HW_PAGE_SIZE)) l then Some (shown L a w)
  else host !! L.
Proof.
  intros Ha. induction l as [|[start size] l IH]; intros Hl host Hh; [done|]. apply Forall_cons in Hl as [[Hs1 Hs2] Hl].
  cbn [fold_left existsb]. unfold map_region at 2. rewrite Z.leb_antisym.
  destruct (Z.ltb_spec (Z.max start a) (Z.min (start + size) (a + HW_PAGE_SIZE))) as [Hlt|_]; cbn [negb orb]; [|by apply IH].
  destruct (page_intersection a start size Hs1 Hs2 Ha Hlt) as [-> ->].
  replace (L + a - a) with L by lia. replace (a + HW_PAGE_SIZE - a) with HW_PAGE_SIZE by lia.
  assert (Hins : (match host !! L with
    | Some m => if (mapped_pointer m =? L) && (mapped_size m =? HW_PAGE_SIZE) then
        <[L:=mkHostMapping L HW_PAGE_SIZE (mapped_physical m) w]> host else host
    | None => <[L:=mkHostMapping L HW_PAGE_SIZE a w]> host end) = <[L := shown L a w]> host).
  { destruct Hh as [->|[w0 ->]]; [done|]. cbn [mapped_pointer mapped_size shown]. by rewrite Z.eqb_refl. }
  rewrite Hins. rewrite IH; [|done|right; exists w; by rewrite lookup_insert_eq]. rewrite lookup_insert_eq. by destruct (existsb _ l).
Qed.

Definition host_entry (L : Z) (q : option (Z * bool)) : option HostMapping := (fun '(a, w) => shown L a w) <$> q.

Lemma add_mappings_list w (l : list (Z * Z)) : NoDup (l.*1) -> (forall L a, (L, a) ∈ l -> a mod HW_PAGE_SIZE = 0) -> forall host,
  (forall L a, (L, a) ∈ l -> host !! L = None) -> forall L,
  fold_left (fun h p => AddPageTableMapping (regions S) (fst p) (snd p) w h) l host !! L =
  match list_find (fun p => fst p = L) l with Some (_, (_, a)) => host_entry L (host_of S a w) | None => host !! L end.
Proof.
  induction l as [|[K a] l IH]; intros Hnd Ha host Hfree L; [done|]. rewrite fmap_cons in Hnd. apply NoDup_cons in Hnd as [HK Hnd].
  assert (HKl : forall b, (K, b) ∉ l) by (intros b Hb; apply HK, list_elem_of_fmap; by exists (K, b)).
  cbn [fold_left list_find fst snd]. rewrite IH; [|done| |].
  2: { intros L' b Hin. apply (Ha L'). by right. }
  2: { intros L' b Hin. unfold AddPageTableMapping. rewrite map_regions_other by (intros ->; by apply (HKl b)).
       apply (Hfree L' b). by right. }
  assert (HaK : a mod HW_PAGE_SIZE = 0) by (apply (Ha K); by left).
  destruct (decide (K = L)) as [->|Hne].
  - destruct (list_find (fun p => fst p = L) l) as [[i [L' b]]|] eqn:Ef; cbn.
    + apply list_find_Some in Ef as (Hin & <- & _). apply list_elem_of_lookup_2 in Hin. by destruct (HKl b).
    + unfold AddPageTableMapping. rewrite map_regions_page by (done || left; apply (Hfree L a); by left).
      unfold host_of, backed. destruct (existsb _ (regions S)); [done|]. apply (Hfree L a). by left.
  - unfold AddPageTableMapping. rewrite map_regions_other by done.
    destruct (list_find (fun p => fst p = L) l) as [[i [L' b]]|]; cbn; done.
Qed.
Lemma add_all_lookup w (added : gmap Z Z) host : (forall L a, added !! L = Some a -> a mod HW_PAGE_SIZE = 0 /\ host !! L = None) -> forall L,
  add_all S w added host !! L = match added !! L with Some a => host_entry L (host_of S a w) | None => host !! L end.
Proof.
  intros Ha L. unfold add_all. rewrite add_mappings_list.
  - destruct (list_find (fun p => fst p = L) (map_to_list added)) as [[i [L' a]]|] eqn:Ef.
    + apply list_find_Some in Ef as (Hin & <- & _). apply list_elem_of_lookup_2, elem_of_map_to_list in Hin. cbn. by rewrite Hin.
    + apply list_find_None in Ef. destruct (added !! L) as [a|] eqn:E; [|done].
      rewrite Forall_forall in Ef. apply elem_of_map_to_list in E. by destruct (Ef _ E).
  - apply NoDup_fst_map_to_list.
  - intros L' a Hin. apply elem_of_map_to_list in Hin. by apply (Ha L').
  - intros L' a Hin. apply elem_of_map_to_list in Hin. by apply (Ha L' a).
Qed.
Lemma removed_lookup rem host L : RemovePageTableMappings rem host !! L = if decide (L ∈ rem) then None else host !! L.
Proof.
  unfold RemovePageTableMappings. destruct (decide (L ∈ rem)) as [Hin|Hni].
  - apply map_lookup_filter_None. right. intros x _. cbn. auto.
  - destruct (host !! L) as [m|] eqn:E.
    + apply map_lookup_filter_Some. auto.
    + apply map_lookup_filter_None. by left.
Qed.

End Host.

(** ** The update *)

Section Update.
Context (S : Surroundings) (Sok : surroundings_ok S) (Rok : regions_ok S).

(** A table the update accepts: its valid entries are where the hash puts them. *)
Record table_ok (t : Z -> Pte) : Prop := {
  table_words : forall e, is_u32 (fst (t e));
  table_placed : well_placed S t
}.

Definition host_view (p : PageTables) (L : Z) : option (Z * bool) :=
  (fun m => (mapped_physical m, mapped_writeable m)) <$> host_mappings p !! L.
Definition start_update (p : PageTables) : Update := mkUpdate (m_page_table p) (m_page_mappings p) ∅ ∅ ∅ false.

Lemma host_view_sync p L : in_sync S p -> host_view p L = 
  if is_pageb S L then e ← page_walk S (entry (m_page_table p)) L; hosted S L (entry (m_page_table p) e) else None.
Proof.
  intros Hp. unfold host_view. rewrite (sync_host S p Hp). unfold page_host. destruct (is_pageb S L); [|done].
  destruct (page_walk S _ L) as [e|]; [|done]. cbn. by destruct (hosted S L _) as [[a w]|].
Qed.
Lemma host_view_entry p L : in_sync S p -> host_mappings p !! L = host_entry L (host_view p L).
Proof.
  intros Hp. unfold host_view. rewrite (sync_host S p Hp). unfold page_host. destruct (is_pageb S L); [|done].
  destruct (page_walk S _ L) as [e|]; [|done]. cbn. by destruct (hosted S L _) as [[a w]|].
Qed.

Lemma pass_1_starts new p : table_ok new -> in_sync S p ->
  Pass1 S new (host_view p) (visited S (page_table_size S)) (start_update p).
Proof.
  intros [Hw Hpl] Hp. assert (Hold : old (start_update p) = entry (m_page_table p)) by done.
  assert (Heff : forall L, effective S (host_view p) (start_update p) L = host_view p L).
  { intros L. unfold effective. cbn [start_update m_added_readwrite_mappings m_added_readonly_mappings m_removed_mappings].
    by rewrite !lookup_empty, decide_False by set_solver. }
  assert (Hna : forall L, ~ added (start_update p) L).
  { intros L [H|H]; cbn in H; by rewrite lookup_empty in H. }
  split.
  - split; rewrite ?Hold; try apply Hp.
    + intros L m Hm. cbn in Hm. rewrite (sync_mappings S p Hp) in Hm. unfold page_mapping in Hm.
      destruct (is_pageb S L) eqn:Eb; [|done]. pose proof (proj1 (is_pageb_spec S L) Eb) as HL.
      pose proof (page_walk_spec S Sok (entry (m_page_table p)) L HL) as Hwalk.
      destruct (page_walk S (entry (m_page_table p)) L) as [e|] eqn:Ew; [|done]. injection Hm as <-. exists e.
      split; [apply Hwalk|]. split; [done|]. rewrite Heff, host_view_sync, Eb, Ew by done. split; [done|].
      left. split; [|apply Hna]. apply visited_live; [done|]. by eapply cand_live, Hwalk.
    + intros L Hm. rewrite Heff. cbn in Hm. rewrite (sync_mappings S p Hp) in Hm. rewrite host_view_sync by done.
      unfold page_mapping in Hm. destruct (is_pageb S L); [|done]. by destruct (page_walk S _ L).
    + intros L Ha. by destruct (Hna L).
    + intros L Ha. by destruct (Hna L).
    + intros L. by left.
    + intros L a [H|H]; cbn in H; by rewrite lookup_empty in H.
  - intros L c Hc Heq _ _. left. cbn [page_mappings start_update]. rewrite (sync_mappings S p Hp).
    assert (Hc' : cand S (entry (m_page_table p)) L c) by (apply (cand_fst S new); [by rewrite <- Heq|done]).
    pose proof Hc as [HL _]. unfold page_mapping. rewrite (proj2 (is_pageb_spec S L) HL).
    pose proof (page_walk_spec S Sok (entry (m_page_table p)) L HL) as Hwalk.
    destruct (page_walk S _ L) as [e|]; [|by destruct (Hwalk c)]. eexists. split; [done|].
    destruct Hwalk as [He Hmin]. rewrite (cand_mapping_priority S Sok) by done.
    rewrite (prio_fst new (entry (m_page_table p))) by (by rewrite <- Heq). by apply Hmin.
  - intros e He Hnv. destruct Hnv. by apply visited_live.
Qed.

(** What is left at the end. *)
Lemma passes_result new h u : Pass2 S new h [] u ->
  (forall e, live S e -> old u e = new e) /\
  (forall L, page_mappings u !! L = page_mapping S new L) /\
  (forall L, effective S h u L = if is_pageb S L then e ← page_walk S new L; hosted S L (new e) else None).
Proof.
  intros [Hi Hc Hd]. assert (Hnew : forall e, live S e -> old u e = new e).
  { intros e He. destruct (decide (old u e = new e)) as [|Hne]; [done|]. destruct (Hd e He Hne) as [Hin _]. by apply elem_of_nil in Hin. }
  split; [done|].
  assert (Hmap : forall L e m, page_mappings u !! L = Some m -> cand S (old u) L e -> m = mapping S L e (old u e) ->
    is_page S L /\ page_walk S new L = Some e /\ m = mapping S L e (new e)).
  { intros L e m Hm He ->. pose proof (cand_live S Sok _ _ _ He) as Hl. pose proof He as [HL _]. split; [done|].
    assert (He' : cand S new L e) by (apply (cand_fst S (old u)); [by rewrite Hnew|done]).
    rewrite Hnew by done. split; [|done]. pose proof (page_walk_spec S Sok new L HL) as Hwalk.
    destruct (page_walk S new L) as [c|]; [|by destruct (Hwalk e)]. destruct Hwalk as [Hcc Hmin]. f_equal.
    apply (cand_inj S Sok new new L); [done..|].
    specialize (Hmin e He'). enough (prio new e <= prio new c) by lia.
    destruct (Hc L c Hcc (Hnew c (cand_live S Sok _ _ _ Hcc))) as [(m & Hm' & Hle)|(d & Hcd & _ & [Hdirty|[]])]; [by intros []|by intros []| |].
    - rewrite Hm in Hm'. injection Hm' as <-. rewrite Hnew, (cand_mapping_priority S Sok) in Hle by done. done.
    - destruct Hdirty. apply Hnew. by eapply cand_live. }
  assert (Hnone : forall L, page_mappings u !! L = None -> is_page S L -> page_walk S new L = None).
  { intros L Hm HL. pose proof (page_walk_spec S Sok new L HL) as Hwalk. destruct (page_walk S new L) as [c|]; [|done].
    destruct Hwalk as [Hcc _].
    destruct (Hc L c Hcc (Hnew c (cand_live S Sok _ _ _ Hcc))) as [(m & Hm' & _)|(d & Hcd & _ & [Hdirty|[]])]; [by intros []|by intros []|congruence|].
    destruct Hdirty. apply Hnew. by eapply cand_live. }
  split; intros L; destruct (page_mappings u !! L) as [m|] eqn:Em.
  - destruct (i_entry _ _ _ _ _ _ Hi L m Em) as (e & He & Ee & _). destruct (Hmap L e m Em He Ee) as (HL & Ew & ->).
    unfold page_mapping. by rewrite (proj2 (is_pageb_spec S L) HL), Ew.
  - unfold page_mapping. destruct (is_pageb S L) eqn:Eb; [|done]. by rewrite (Hnone L Em (proj1 (is_pageb_spec S L) Eb)).
  - destruct (i_entry _ _ _ _ _ _ Hi L m Em) as (e & He & Ee & Heff & _). destruct (Hmap L e m Em He Ee) as (HL & Ew & _).
    rewrite (proj2 (is_pageb_spec S L) HL), Ew, Heff, Hnew by (by eapply cand_live). done.
  - rewrite (i_none _ _ _ _ _ _ Hi L Em). destruct (is_pageb S L) eqn:Eb; [|done].
    by rewrite (Hnone L Em (proj1 (is_pageb_spec S L) Eb)).
Qed.

(** The changes are carried out. *)
Lemma changes_carried_out new p u : in_sync S p -> Pass2 S new (host_view p) [] u -> forall L,
  add_all S true (m_added_readwrite_mappings u)
    (add_all S false (m_added_readonly_mappings u) (RemovePageTableMappings (m_removed_mappings u) (host_mappings p))) !! L =
  host_entry L (effective S (host_view p) u L).
Proof.
  intros Hp [Hi _ _] L.
  assert (Hfree : forall L', added u L' -> RemovePageTableMappings (m_removed_mappings u) (host_mappings p) !! L' = None).
  { intros L' Ha. rewrite removed_lookup. destruct (decide _); [done|]. destruct (i_fresh _ _ _ _ _ _ Hi L' Ha) as [?|Hn]; [done|].
    by rewrite host_view_entry, Hn. }
  rewrite (add_all_lookup S Rok).
  - unfold effective. destruct (m_added_readwrite_mappings u !! L) as [a|] eqn:Erw; [done|].
    rewrite (add_all_lookup S Rok).
    + destruct (m_added_readonly_mappings u !! L); [done|]. rewrite removed_lookup.
      destruct (decide _); [done|]. by apply host_view_entry.
    + intros L' a Ha. split; [by apply (i_pages _ _ _ _ _ _ Hi L'); right|]. apply Hfree. right. by rewrite Ha.
  - intros L' a Ha. split; [by apply (i_pages _ _ _ _ _ _ Hi L'); left|]. rewrite (add_all_lookup S Rok).
    + destruct (i_once _ _ _ _ _ _ Hi L') as [|E]; [congruence|]. rewrite E. apply Hfree. left. by rewrite Ha.
    + intros L'' b Hb. split; [by apply (i_pages _ _ _ _ _ _ Hi L''); right|]. apply Hfree. right. by rewrite Hb.
Qed.

Lemma cleared_in_sync size h : h = ∅ -> in_sync S (mkPageTables ∅ size ∅ h).
Proof.
  intros ->. assert (Hn : forall L, is_page S L -> page_walk S (entry ∅) L = None).
  { intros L HL. pose proof (page_walk_spec S Sok (entry ∅) L HL) as Hw. destruct (page_walk S _ L) as [e|]; [|done].
    destruct Hw as [Hc _]. by apply cand_V in Hc. }
  split; cbn [m_page_table m_page_mappings host_mappings].
  - done.
  - by intros e _ He.
  - intros L. unfold page_mapping. destruct (is_pageb S L) eqn:Eb; [|done]. by rewrite Hn by (by apply is_pageb_spec).
  - intros L. unfold page_host. destruct (is_pageb S L) eqn:Eb; [|done]. by rewrite Hn by (by apply is_pageb_spec).
Qed.

Definition fresh_copy (p : PageTables) (size : Z) : PageTables :=
  if m_page_table_size p =? size then p else mkPageTables ∅ size ∅ ∅.
Lemma update_result new p : table_ok new -> (m_page_table_size p = page_table_size S -> in_sync S p) ->
  let p' := PageTableUpdated S new (page_table_size S) p in
  in_sync S p' /\ m_page_table_size p' = page_table_size S /\
  (forall L, m_page_mappings p' !! L = page_mapping S new L) /\
  (forall L, host_mappings p' !! L = page_host S new L) /\
  (forall e, live S e -> entry (m_page_table p') e = new e).
Proof.
  intros Hok Hp. unfold PageTableUpdated. destruct (page_table_size_mask S Sok) as [_ Hm]. unfold PAGE_TABLE_MIN_SIZE. rewrite Hm.
  cbn [Z.eqb negb]. fold (fresh_copy p (page_table_size S)).
  assert (Hq : in_sync S (fresh_copy p (page_table_size S))).
  { unfold fresh_copy. destruct (Z.eqb_spec (m_page_table_size p) (page_table_size S)); [by apply Hp|by apply cleared_in_sync]. }
  set (q := fresh_copy p (page_table_size S)) in *. cbv zeta. fold (start_update q).
  assert (H2 : Pass2 S new (host_view q) [] (passes S new (page_table_size S) (start_update q))).
  { apply passes_finish; [done|apply Hok|apply Hok|by apply visited_left_over|intros e; by apply visited_live|by apply pass_1_starts]. }
  destruct (passes_result new _ _ H2) as (Hold & Hmap & Heff).
  assert (Hhost : forall L, host_entry L (effective S (host_view q) (passes S new (page_table_size S) (start_update q)) L) = page_host S new L).
  { intros L. rewrite Heff. unfold page_host. destruct (is_pageb S L); [|done]. by destruct (page_walk S new L). }
  cbn [m_page_table_size m_page_mappings host_mappings]. split; [|split; [done|split; [done|split; [|done]]]].
  - split; cbn [m_page_table m_page_mappings host_mappings]; [apply H2|apply H2| |]; intros L.
    + rewrite Hmap. symmetry. by apply page_mapping_ext.
    + rewrite (changes_carried_out new q _ Hq H2), Hhost. symmetry. by apply page_host_ext.
  - intros L. by rewrite (changes_carried_out new q _ Hq H2), Hhost.
Qed.

(** One update after the other. *)
Definition updates (tables : list (Z -> Pte)) (p : PageTables) : PageTables :=
  fold_left (fun p t => PageTableUpdated S t (page_table_size S) p) tables p.
Lemma updates_in_sync tables : Forall table_ok tables -> forall p, in_sync S p -> in_sync S (updates tables p).
Proof.
  induction 1 as [|t tables Ht _ IH]; intros p Hp; [done|]. apply IH. by apply update_result.
Qed.

End Update.

(** ** Properties *)

(** C4. For page tables of at most 4 MiB whose valid entries each lie in a group their page
    hashes to: however such a table changed from one update to the next, looking only
    at the changed entries gives what an update from nothing gives: for every
    page the mapping of the first entry the walk finds, and on the host exactly
    the pages that are referenced, cached, not shadowed by a BAT and not watched,
    writeable if changed. Entries out of place are excluded because they break it
    ([invalid_entry_is_mapped]); in larger tables the place of an entry does not determine
    its page. *)
Theorem incremental_update_is_exact S tables t :
  surroundings_ok S -> regions_ok S -> Forall (table_ok S) tables -> table_ok S t ->
  let p := updates S (tables ++ [t]) ClearPageTable in
  let q := PageTableUpdated S t (page_table_size S) ClearPageTable in
  m_page_mappings p = m_page_mappings q /\ host_mappings p = host_mappings q /\
  forall L, m_page_mappings p !! L = page_mapping S t L /\ host_mappings p !! L = page_host S t L.
Proof.
  intros Sok Rok Hts Ht p q. assert (Hc : in_sync S ClearPageTable) by (by apply cleared_in_sync).
  pose proof (updates_in_sync S Sok Rok tables Hts _ Hc) as Hu.
  assert (Ep : p = PageTableUpdated S t (page_table_size S) (updates S tables ClearPageTable)) by (unfold p, updates; by rewrite fold_left_app).
  destruct (update_result S Sok Rok t _ Ht (fun _ => Hu)) as (_ & _ & Hm & Hh & _). rewrite <- Ep in Hm, Hh.
  destruct (update_result S Sok Rok t _ Ht (fun _ => Hc)) as (_ & _ & Hm' & Hh' & _).
  split; [|split; [|done]]; apply map_eq; intros L; [by rewrite Hm, Hm'|by rewrite Hh, Hh'].
Qed.

(** After a segment register, a BAT or a memory check changed, parsing the
    copy again gives the mappings of the new surroundings, whatever was mapped
    before. *)
Theorem reload_forgets_the_past S p : surroundings_ok S -> regions_ok S ->
  table_ok S (entry (m_page_table p)) -> m_page_table_size p = page_table_size S ->
  in_sync S (SRUpdated S p) /\
  (forall L, m_page_mappings (SRUpdated S p) !! L = page_mapping S (entry (m_page_table p)) L) /\
  (forall L, host_mappings (SRUpdated S p) !! L = page_host S (entry (m_page_table p)) L).
Proof.
  intros Sok Rok Ht Hsize. unfold SRUpdated, ReloadPageTable. cbn [m_page_table m_page_table_size host_mappings]. rewrite Hsize.
  destruct (update_result S Sok Rok (entry (m_page_table p)) (mkPageTables ∅ 0 ∅ ∅) Ht (fun _ => cleared_in_sync S Sok 0 ∅ eq_refl))
    as (Hi & _ & Hm & Hh & _). done.
Qed.

(** ** Concrete tables *)

(** Segments with the identifiers 1 to 16, a table of 64 KiB at 1 MiB, 24 MiB of memory. *)
Definition sixteen_segments (mask : Z) : Surroundings :=
  mkSurroundings (map (fun i => Z.of_nat i + 1) (seq 0 16)) 0x100000 ((mask .<< 16) .| 0xffc0) (fun _ => false) (fun _ => false)
    [(0, 0x1800000)].
Definition small_table : Surroundings := sixteen_segments 0.
Definition table_of (l : list (Z * Pte)) (e : Z) : Pte :=
  match List.find (fun p => fst p =? e) l with Some (_, p) => p | None => (0, 0) end.
(** The page 0x3000 has a primary entry for 0x5000 (writeable) and a secondary one for 0x9000. *)
Definition primary_entry : Z * Pte := (slot small_table 0x3000 false 2, (page_pte1 small_table 0x3000 false, 0x5180)).
Definition secondary_entry : Z * Pte := (slot small_table 0x3000 true 5, (page_pte1 small_table 0x3000 true, 0x9100)).

Lemma table_of_ok S l : Forall (fun p => is_u32 (fst (snd p)) /\ get_page_index S (fst (snd p)) (fst p / 64) <> None) l ->
  table_ok S (table_of l).
Proof.
  intros Hl. assert (Ht : forall e, table_of l e = (0, 0) \/
    is_u32 (fst (table_of l e)) /\ get_page_index S (fst (table_of l e)) (e / 64) <> None).
  { intros e. unfold table_of. destruct (List.find (fun p : Z * Pte => fst p =? e) l) as [[e' q]|] eqn:Ef; [right|by left].
    apply find_some in Ef as [Hin He]. apply Z.eqb_eq in He. cbn in He. subst e'.
    rewrite Forall_forall in Hl. apply list_elem_of_In in Hin. exact (Hl _ Hin). }
  split; [intros e|intros e _ HV]; destruct (Ht e) as [E|[? ?]]; try done; by rewrite E in *.
Qed.
Lemma sixteen_segments_ok mask : 0 <= mask < 64 -> surroundings_ok (sixteen_segments mask).
Proof. intros Hm. split; [by exists mask|]. by exists 16. Qed.

(** The primary entry goes away; the page is then found through the secondary one. *)
Lemma incremental_update_is_exact_witness :
  let S := small_table in
  let t := table_of [secondary_entry] in
  let p := updates S ([table_of [primary_entry; secondary_entry]] ++ [t]) ClearPageTable in
  host_mappings p !! 0x3000 = page_host S t 0x3000 /\ page_host S t 0x3000 = Some (mkHostMapping 0x3000 0x1000 0x9000 false).
Proof.
  assert (Rok : regions_ok small_table) by (by repeat constructor).
  split; [|reflexivity].
  apply (incremental_update_is_exact small_table [table_of [primary_entry; secondary_entry]] (table_of [secondary_entry])
    (sixteen_segments_ok 0 ltac:(lia)) Rok); [constructor; [|constructor]|]; apply table_of_ok; repeat constructor; discriminate.
Defined.

Lemma entry_list_to_map l e : entry (list_to_map l) e = table_of l e.
Proof.
  unfold entry, table_of. induction l as [|[e' q] l IH]; [done|]. cbn [list_to_map foldr List.find fst snd].
  destruct (Z.eqb_spec e' e) as [->|Hne]; [by rewrite lookup_insert_eq|]. by rewrite lookup_insert_ne.
Qed.

(** A BAT now covers the page: it keeps its mapping but is not shown. *)
Definition covered_by_a_bat : Surroundings :=
  mkSurroundings (segments small_table) (pagetable_base small_table) (pagetable_mask small_table)
    (fun a => a .>> 17 =? 0) (OverlapsMemcheck small_table) (regions small_table).
Lemma reload_forgets_the_past_witness :
  let p := mkPageTables (list_to_map [primary_entry]) 0x10000 ∅ {[0x7000 := mkHostMapping 0x7000 0x1000 0 true]} in
  host_mappings (SRUpdated small_table p) !! 0x3000 = Some (mkHostMapping 0x3000 0x1000 0x5000 true) /\
  host_mappings (SRUpdated covered_by_a_bat p) !! 0x3000 = None.
Proof.
  intros p. assert (Hok : forall S, get_page_index S (fst (snd primary_entry)) (fst primary_entry / 64) <> None -> table_ok S (entry (m_page_table p))).
  { intros S Hne. destruct (table_of_ok S [primary_entry]) as [Hw Hpl]; [by repeat constructor|].
    split; [intros e|intros e He]; unfold p; cbn [m_page_table]; rewrite entry_list_to_map; [apply Hw|by apply Hpl]. }
  destruct (reload_forgets_the_past small_table p (sixteen_segments_ok 0 ltac:(lia)) ltac:(by repeat constructor)
    (Hok small_table ltac:(discriminate)) eq_refl) as (_ & _ & Hh).
  destruct (reload_forgets_the_past covered_by_a_bat p) as (_ & _ & Hh'); [split; [by exists 0|by exists 16]|by repeat constructor| |done|].
  { apply Hok. discriminate. }
  rewrite Hh, Hh'. split; vm_compute; reflexivity.
Defined.

(** The page of an invalid entry is mapped: pass 1 skips an entry whose old
    value was not where its hash puts it, so it is still different in pass 2,
    which does not look at the valid bit. *)
Definition two_blocks : Surroundings := sixteen_segments 1.
Definition misplaced_entry : Z * Pte :=
  (slot two_blocks 0x3000 false 2, (page_pte1 two_blocks 0x3000 false .^ 1, 0x5180)).
Definition invalid_entry : Z * Pte :=
  (slot two_blocks 0x3000 false 2, (put_field (page_pte1 two_blocks 0x3000 false) 31 1 0, 0x5180)).
Definition another_secondary_entry : Z * Pte :=
  (slot two_blocks 0x4000 true 0, (page_pte1 two_blocks 0x4000 true, 0x9100)).
Lemma invalid_entry_is_mapped :
  let t := table_of [invalid_entry; another_secondary_entry] in
  let p := updates two_blocks [table_of [misplaced_entry]; t] ClearPageTable in
  page_mapping two_blocks t 0x3000 = None /\
  host_mappings p !! 0x3000 = Some (mkHostMapping 0x3000 0x1000 0x5000 true).
Proof. split; vm_compute; reflexivity. Qed.
