(* ===== verification/PPCMachine.v ===== *)
(** * The machine the memory instructions work on (PowerPC.h, MMU.h, Memmap.h)

    The processor with its caches and translation tables, the memories, the
    processor interface, the gather pipe, and a world of devices behind the MMIO
    registers and the frame buffer.  The host is little-endian. *)
From S2P Require Export PPCExceptions PPCPageTable PPCCache.

(** Two ways of a set of the translation look-aside buffer. *)
Record TLBEntry := mkTLBEntry {
  tag : Z * Z;
  paddr : Z * Z;
  vsid : Z * Z;
  pte : Z * Z;
  recent : Z
}.
Definition INVALID_TAG : Z := 0xffffffff.
Definition empty_TLBEntry : TLBEntry := mkTLBEntry (INVALID_TAG, INVALID_TAG) (0, 0) (0, 0) (0, 0) 0.
(** A way of a [WayArray]. *)
Definition way_of (w : Z * Z) (i : bool) : Z := if i then snd w else fst w.
Definition put_way (i : bool) (v : Z) (w : Z * Z) : Z * Z := if i then (fst w, v) else (v, snd w).

(** The processor interface's registers; the error and reset registers have no effect on the CPU. *)
Record ProcessorInterface := mkPI {
  m_interrupt_cause : Z;
  m_interrupt_mask : Z;
  m_fifo_cpu_base : Z;
  m_fifo_cpu_end : Z;
  m_fifo_cpu_write_pointer : Z;
  m_error_cause : Z;
  m_error_address : Z;
  m_reset_code : Z;
  m_unknown : Z;
  m_flipper_bus_strength : Z
}.

(** [tlb] is indexed by the table ([true]: instructions) and the set; a missing
    entry is empty.  [m_gather_pipe] holds the bytes up to [gather_pipe_ptr];
    [m_page_tables] the MMU's copy of the page table and the host's mappings. *)
Record Machine (W : Type) := mkMachine {
  ppc : PowerPCState;
  reserve : bool;
  reserve_address : Z;
  pagetable_update_pending : bool;
  m_enable_dcache : bool;
  dCache : Cache;
  iCache : Cache;
  tlb : gmap (bool * Z) TLBEntry;
  m_pagetable_base : Z;
  m_pagetable_mask : Z;
  m_dbat_table : gmap Z Z;
  m_ibat_table : gmap Z Z;
  m_page_tables : PageTables;
  mem : MemoryManager;
  m_l1_cache : gmap Z Z;
  m_fake_vmem : option (gmap Z Z);
  processor_interface : ProcessorInterface;
  m_gather_pipe : list Z;
  world : W
}.
Arguments mkMachine {W}. Arguments ppc {W}. Arguments reserve {W}. Arguments reserve_address {W}.
Arguments pagetable_update_pending {W}. Arguments m_enable_dcache {W}. Arguments dCache {W}. Arguments iCache {W}.
Arguments tlb {W}. Arguments m_pagetable_base {W}. Arguments m_pagetable_mask {W}. Arguments m_dbat_table {W}.
Arguments m_ibat_table {W}. Arguments m_page_tables {W}. Arguments mem {W}. Arguments m_l1_cache {W}.
Arguments m_fake_vmem {W}. Arguments processor_interface {W}. Arguments m_gather_pipe {W}. Arguments world {W}.

(** ** What the model leaves to the rest of the emulator

    The configuration, the frame buffer, the registers of the devices, the
    command processor, the memory checks, the recompiler's block cache, the
    system timers and the functions replaced by host code.  Their operations may
    change anything in the machine. *)
Class Devices (W : Type) := {
  IsWii : bool;
  IsMMUMode : bool;
  IsPauseOnPanicMode : bool;
  m_disable_icache : bool;
  WantsPageTableMappings : bool;
  EFB_Peek : bool -> Z -> Z -> Machine W -> Z * Machine W;
  EFB_Poke : bool -> Z -> Z -> Z -> Machine W -> Machine W;
  MMIO_Read : Z -> Z -> Machine W -> Z * Machine W;
  MMIO_Write : Z -> Z -> Z -> Machine W -> Machine W;
  GatherPipeBursted : Machine W -> Machine W;
  CPU_Break : Machine W -> Machine W;
  memcheck_overlaps : Z -> Z -> bool;
  memcheck_pauses : Z -> Z -> bool -> Z -> Machine W -> bool * Machine W;
  MAIN_LOW_DCBZ_HACK : bool;
  InvalidateICacheLine : Z -> Machine W -> Machine W;
  ClearJitCache : Machine W -> Machine W;
  GetFakeDecrementer : Machine W -> Z;
  GetFakeTimeBase : Machine W -> Z;
  DecrementerSet : Machine W -> Machine W;
  TimeBaseSet : Machine W -> Machine W;
  ReplacedFunction : Z -> Machine W -> bool * Machine W
}.

Section Machine.
Context {W : Type}.
Implicit Types m : Machine W.
Definition with_ppc v m : Machine W :=
  mkMachine v (reserve m) (reserve_address m) (pagetable_update_pending m) (m_enable_dcache m) (dCache m)
    (iCache m) (tlb m) (m_pagetable_base m) (m_pagetable_mask m) (m_dbat_table m) (m_ibat_table m)
    (m_page_tables m) (mem m) (m_l1_cache m) (m_fake_vmem m) (processor_interface m) (m_gather_pipe m) (world
    m).
Definition with_update_pending v m : Machine W :=
  mkMachine (ppc m) (reserve m) (reserve_address m) v (m_enable_dcache m) (dCache m) (iCache m) (tlb m)
    (m_pagetable_base m) (m_pagetable_mask m) (m_dbat_table m) (m_ibat_table m) (m_page_tables m) (mem m)
    (m_l1_cache m) (m_fake_vmem m) (processor_interface m) (m_gather_pipe m) (world m).
Definition with_dCache v m : Machine W :=
  mkMachine (ppc m) (reserve m) (reserve_address m) (pagetable_update_pending m) (m_enable_dcache m) v (iCache
    m) (tlb m) (m_pagetable_base m) (m_pagetable_mask m) (m_dbat_table m) (m_ibat_table m) (m_page_tables m)
    (mem m) (m_l1_cache m) (m_fake_vmem m) (processor_interface m) (m_gather_pipe m) (world m).
Definition with_iCache v m : Machine W :=
  mkMachine (ppc m) (reserve m) (reserve_address m) (pagetable_update_pending m) (m_enable_dcache m) (dCache
    m) v (tlb m) (m_pagetable_base m) (m_pagetable_mask m) (m_dbat_table m) (m_ibat_table m) (m_page_tables m)
    (mem m) (m_l1_cache m) (m_fake_vmem m) (processor_interface m) (m_gather_pipe m) (world m).
Definition with_tlb v m : Machine W :=
  mkMachine (ppc m) (reserve m) (reserve_address m) (pagetable_update_pending m) (m_enable_dcache m) (dCache
    m) (iCache m) v (m_pagetable_base m) (m_pagetable_mask m) (m_dbat_table m) (m_ibat_table m) (m_page_tables
    m) (mem m) (m_l1_cache m) (m_fake_vmem m) (processor_interface m) (m_gather_pipe m) (world m).
Definition with_dbat_table v m : Machine W :=
  mkMachine (ppc m) (reserve m) (reserve_address m) (pagetable_update_pending m) (m_enable_dcache m) (dCache
    m) (iCache m) (tlb m) (m_pagetable_base m) (m_pagetable_mask m) v (m_ibat_table m) (m_page_tables m) (mem
    m) (m_l1_cache m) (m_fake_vmem m) (processor_interface m) (m_gather_pipe m) (world m).
Definition with_ibat_table v m : Machine W :=
  mkMachine (ppc m) (reserve m) (reserve_address m) (pagetable_update_pending m) (m_enable_dcache m) (dCache
    m) (iCache m) (tlb m) (m_pagetable_base m) (m_pagetable_mask m) (m_dbat_table m) v (m_page_tables m) (mem
    m) (m_l1_cache m) (m_fake_vmem m) (processor_interface m) (m_gather_pipe m) (world m).
Definition with_page_tables v m : Machine W :=
  mkMachine (ppc m) (reserve m) (reserve_address m) (pagetable_update_pending m) (m_enable_dcache m) (dCache
    m) (iCache m) (tlb m) (m_pagetable_base m) (m_pagetable_mask m) (m_dbat_table m) (m_ibat_table m) v (mem
    m) (m_l1_cache m) (m_fake_vmem m) (processor_interface m) (m_gather_pipe m) (world m).
Definition with_mem v m : Machine W :=
  mkMachine (ppc m) (reserve m) (reserve_address m) (pagetable_update_pending m) (m_enable_dcache m) (dCache
    m) (iCache m) (tlb m) (m_pagetable_base m) (m_pagetable_mask m) (m_dbat_table m) (m_ibat_table m)
    (m_page_tables m) v (m_l1_cache m) (m_fake_vmem m) (processor_interface m) (m_gather_pipe m) (world m).
Definition with_l1_cache v m : Machine W :=
  mkMachine (ppc m) (reserve m) (reserve_address m) (pagetable_update_pending m) (m_enable_dcache m) (dCache
    m) (iCache m) (tlb m) (m_pagetable_base m) (m_pagetable_mask m) (m_dbat_table m) (m_ibat_table m)
    (m_page_tables m) (mem m) v (m_fake_vmem m) (processor_interface m) (m_gather_pipe m) (world m).
Definition with_fake_vmem v m : Machine W :=
  mkMachine (ppc m) (reserve m) (reserve_address m) (pagetable_update_pending m) (m_enable_dcache m) (dCache
    m) (iCache m) (tlb m) (m_pagetable_base m) (m_pagetable_mask m) (m_dbat_table m) (m_ibat_table m)
    (m_page_tables m) (mem m) (m_l1_cache m) v (processor_interface m) (m_gather_pipe m) (world m).
Definition with_pi v m : Machine W :=
  mkMachine (ppc m) (reserve m) (reserve_address m) (pagetable_update_pending m) (m_enable_dcache m) (dCache
    m) (iCache m) (tlb m) (m_pagetable_base m) (m_pagetable_mask m) (m_dbat_table m) (m_ibat_table m)
    (m_page_tables m) (mem m) (m_l1_cache m) (m_fake_vmem m) v (m_gather_pipe m) (world m).
Definition with_gather_pipe v m : Machine W :=
  mkMachine (ppc m) (reserve m) (reserve_address m) (pagetable_update_pending m) (m_enable_dcache m) (dCache
    m) (iCache m) (tlb m) (m_pagetable_base m) (m_pagetable_mask m) (m_dbat_table m) (m_ibat_table m)
    (m_page_tables m) (mem m) (m_l1_cache m) (m_fake_vmem m) (processor_interface m) v (world m).
Definition with_reservation b a m : Machine W :=
  mkMachine (ppc m) b a (pagetable_update_pending m) (m_enable_dcache m) (dCache m) (iCache m) (tlb m)
    (m_pagetable_base m) (m_pagetable_mask m) (m_dbat_table m) (m_ibat_table m) (m_page_tables m) (mem m)
    (m_l1_cache m) (m_fake_vmem m) (processor_interface m) (m_gather_pipe m) (world m).
Definition with_pagetable b k m : Machine W :=
  mkMachine (ppc m) (reserve m) (reserve_address m) (pagetable_update_pending m) (m_enable_dcache m) (dCache
    m) (iCache m) (tlb m) b k (m_dbat_table m) (m_ibat_table m) (m_page_tables m) (mem m) (m_l1_cache m)
    (m_fake_vmem m) (processor_interface m) (m_gather_pipe m) (world m).

Definition on_ppc (f : PowerPCState -> PowerPCState) m : Machine W := with_ppc (f (ppc m)) m.
Definition raise (flags : Z) m : Machine W := on_ppc (fun s => set_Exceptions (Exceptions s .| flags) s) m.

(** The caches on the machine. *)
Definition with_dcache {A} (op : M CacheSys A) : M (Machine W) A := fun m =>
  match op (mkCacheSys (dCache m) (mem m)) with
  | Done a s => Done a (with_mem (memory s) (with_dCache (cache s) m))
  | Fault f => Fault f
  end.
Definition with_icache {A} (op : M CacheSys A) : M (Machine W) A := fun m =>
  match op (mkCacheSys (iCache m) (mem m)) with
  | Done a s => Done a (with_mem (memory s) (with_iCache (cache s) m))
  | Fault f => Fault f
  end.
(** An operation that cannot fail. *)
Definition run {A} (op : Machine W -> A * Machine W) : M (Machine W) A := fun m => let '(a, m) := op m in Done a m.

Definition lookup_tlb (inst : bool) (set : Z) m : TLBEntry := default empty_TLBEntry (tlb m !! (inst, set)).
Definition put_tlb (inst : bool) (set : Z) (e : TLBEntry) m : Machine W := with_tlb (<[(inst, set) := e]> (tlb m)) m.

Definition SPR_DSISR : Z := 18.
Definition SPR_SDR : Z := 25.
Definition SPR_EAR : Z := 282.
Definition SPR_IBAT0U : Z := 528.
Definition SPR_DBAT0U : Z := 536.
Definition SPR_IBAT4U : Z := 560.
Definition SPR_DBAT4U : Z := 568.
Definition SPR_HID0 : Z := 1008.
Definition SPR_HID4 : Z := 1011.
Definition DLOCK m : bool := bit_at (get_spr (ppc m) SPR_HID0) 12.
Definition ILOCK m : bool := bit_at (get_spr (ppc m) SPR_HID0) 13.
Definition ICE m : bool := bit_at (get_spr (ppc m) SPR_HID0) 15.
Definition SBE m : bool := bit_at (get_spr (ppc m) SPR_HID4) 25.
Definition DR m : bool := bit_at (msr (ppc m)) 4.
Definition IR m : bool := bit_at (msr (ppc m)) 5.

End Machine.

(** ** A concrete machine

    Devices that answer zero and change nothing, and a machine whose caches and
    tables are empty, for examples. *)
Definition quiet_devices (wii : bool) : Devices unit := {|
  IsWii := wii; IsMMUMode := true; IsPauseOnPanicMode := false; m_disable_icache := false; WantsPageTableMappings := true;
  EFB_Peek := fun _ _ _ m => (0, m); EFB_Poke := fun _ _ _ _ m => m;
  MMIO_Read := fun _ _ m => (0, m); MMIO_Write := fun _ _ _ m => m;
  GatherPipeBursted := fun m => m; CPU_Break := fun m => m;
  memcheck_overlaps := fun _ _ => false; memcheck_pauses := fun _ _ _ _ m => (false, m);
  MAIN_LOW_DCBZ_HACK := false; InvalidateICacheLine := fun _ m => m; ClearJitCache := fun m => m;
  GetFakeDecrementer := fun _ => 0; GetFakeTimeBase := fun _ => 0; DecrementerSet := fun m => m;
  TimeBaseSet := fun m => m; ReplacedFunction := fun _ m => (false, m)
|}.
Definition quiet_machine (s : PowerPCState) (memory : MemoryManager) : Machine unit :=
  let empty size := mkMem size 0xff ∅ in
  let c := mkCache ∅ ∅ ∅ ∅ ∅ (empty (m_ram_size memory .>> 5)) (empty (m_exram_size memory .>> 5)) (empty (m_fakevmem_size memory .>> 5)) in
  mkMachine s false 0 false false c c ∅ 0 0 ∅ ∅ (mkPageTables ∅ 0 ∅ ∅) memory ∅ None
    (mkPI 0 0 0 0 0 0 0 0 0 0) [] tt.
