(* ===== verification/GatherPipe.v ===== *)
(** * The processor interface and the gather pipe (HW/ProcessorInterface.cpp, HW/GPFifo.cpp)

    Interrupts reach the CPU through the processor interface.  Stores to the
    gather pipe are collected and leave it in bursts of 32 bytes, which go to a
    ring in memory.  Log output and the buttons of the console are left out. *)
From S2P Require Export PPCMachine.

(** ** The processor interface *)

Definition INT_CAUSE_PI : Z := 0x1.
Definition INT_CAUSE_VI : Z := 0x100.
Definition INT_CAUSE_RST_BUTTON : Z := 0x10000.
Definition PI_INTERRUPT_CAUSE : Z := 0x00.
Definition PI_INTERRUPT_MASK : Z := 0x04.
Definition PI_FIFO_BASE : Z := 0x0C.
Definition PI_FIFO_END : Z := 0x10.
Definition PI_FIFO_WPTR : Z := 0x14.
Definition PI_FIFO_RESET : Z := 0x18.
Definition PI_ERROR_CAUSE : Z := 0x1C.
Definition PI_ERROR_ADDRESS : Z := 0x20.
Definition PI_RESET_CODE : Z := 0x24.
Definition PI_UNKNOWN : Z := 0x28.
Definition PI_FLIPPER_REV : Z := 0x2C.
Definition PI_FLIPPER_BUS_STRENGTH : Z := 0x30.
Definition FLIPPER_REV_C : Z := 0x246500B1.

Definition PI_Init : ProcessorInterface :=
  mkPI (INT_CAUSE_RST_BUTTON .| INT_CAUSE_VI) 0 0 0 0 0 0 0 0x000001FF 0x02492492.

Definition with_interrupts cause mask p := mkPI cause mask (m_fifo_cpu_base p) (m_fifo_cpu_end p) (m_fifo_cpu_write_pointer p)
  (m_error_cause p) (m_error_address p) (m_reset_code p) (m_unknown p) (m_flipper_bus_strength p).
Definition with_fifo base end_ wptr p := mkPI (m_interrupt_cause p) (m_interrupt_mask p) base end_ wptr
  (m_error_cause p) (m_error_address p) (m_reset_code p) (m_unknown p) (m_flipper_bus_strength p).
Definition with_other_registers cause code unknown strength p := mkPI (m_interrupt_cause p) (m_interrupt_mask p)
  (m_fifo_cpu_base p) (m_fifo_cpu_end p) (m_fifo_cpu_write_pointer p) cause (m_error_address p) code unknown strength.

(** [CommandProcessor::GetPhysicalAddressMask] *)
Definition GetPhysicalAddressMask (is_wii : bool) : Z := if is_wii then 0x1fffffff else 0x03ffffff.

Definition GATHER_PIPE_PHYSICAL_ADDRESS : Z := 0x0C008000.
Definition GATHER_PIPE_SIZE : Z := 32.
Definition GATHER_PIPE_EXTRA_SIZE : Z := GATHER_PIPE_SIZE * 16.

Section GatherPipe.
Context {W : Type} {D : Devices W}.
Implicit Types m : Machine W.

Definition UpdateException m : Machine W :=
  let p := processor_interface m in
  if negb (m_interrupt_cause p .& m_interrupt_mask p =? 0) then raise EXCEPTION_EXTERNAL_INT m
  else on_ppc (fun s => set_Exceptions (Exceptions s .& .~ EXCEPTION_EXTERNAL_INT) s) m.
Definition SetInterrupt (cause_mask : Z) (set : bool) m : Machine W :=
  let p := processor_interface m in
  let cause := if set then m_interrupt_cause p .| cause_mask else m_interrupt_cause p .& .~ cause_mask in
  UpdateException (with_pi (with_interrupts cause (m_interrupt_mask p) p) m).
Definition SetResetButton (set : bool) m : Machine W := SetInterrupt INT_CAUSE_RST_BUTTON (negb set) m.

(** The 32-bit registers; the offset within the processor interface's page. *)
Definition PI_Read32 (offset : Z) m : Z :=
  let p := processor_interface m in
  if offset =? PI_INTERRUPT_CAUSE then m_interrupt_cause p
  else if offset =? PI_INTERRUPT_MASK then m_interrupt_mask p
  else if offset =? PI_FIFO_BASE then m_fifo_cpu_base p
  else if offset =? PI_FIFO_END then m_fifo_cpu_end p
  else if offset =? PI_FIFO_WPTR then m_fifo_cpu_write_pointer p
  else if offset =? PI_ERROR_CAUSE then m_error_cause p
  else if offset =? PI_ERROR_ADDRESS then m_error_address p
  else if offset =? PI_RESET_CODE then m_reset_code p
  else if offset =? PI_UNKNOWN then m_unknown p
  else if offset =? PI_FLIPPER_REV then FLIPPER_REV_C
  else if offset =? PI_FLIPPER_BUS_STRENGTH then m_flipper_bus_strength p
  else 0.
(** [ReadToLarger<u16>] *)
Definition PI_Read16 (offset : Z) m : Z :=
  if offset mod 4 =? 0 then (PI_Read32 offset m .>> 16) .& 0xffff else PI_Read32 (offset - 2) m .& 0xffff.

(** The gather pipe is emptied without sending it. *)
Definition ResetGatherPipe m : Machine W := with_gather_pipe [] m.

(** [CommandProcessor::ResetFifo] with the video buffer, and [DVDInterface::ResetDrive]. *)
Context (reset_fifo : Machine W -> Machine W) (reset_drive : Machine W -> Machine W).

Definition PI_Write32 (offset val : Z) m : Machine W :=
  let p := processor_interface m in
  let mask := GetPhysicalAddressMask IsWii .& 0xFFFFFFE0 in
  if offset =? PI_INTERRUPT_CAUSE then
    UpdateException (with_pi (with_interrupts (m_interrupt_cause p .& .~ val) (m_interrupt_mask p) p) m)
  else if offset =? PI_INTERRUPT_MASK then UpdateException (with_pi (with_interrupts (m_interrupt_cause p) val p) m)
  else if offset =? PI_FIFO_BASE then
    with_pi (with_fifo (val .& mask) (m_fifo_cpu_end p) (m_fifo_cpu_write_pointer p) p) m
  else if offset =? PI_FIFO_END then
    with_pi (with_fifo (m_fifo_cpu_base p) (val .& mask) (m_fifo_cpu_write_pointer p) p) m
  else if offset =? PI_FIFO_WPTR then
    with_pi (with_fifo (m_fifo_cpu_base p) (m_fifo_cpu_end p) (val .& mask) p) m
  else if offset =? PI_FIFO_RESET then
    if bit_at val 0 then reset_fifo (ResetGatherPipe m) else m
  else if offset =? PI_ERROR_CAUSE then
    with_pi (with_other_registers (val .& 0x7) (m_reset_code p) (m_unknown p) (m_flipper_bus_strength p) p) m
  else if offset =? PI_RESET_CODE then
    let m := with_pi (with_other_registers (m_error_cause p) val (m_unknown p) (m_flipper_bus_strength p) p) m in
    if negb IsWii && negb (.~ val .& 0x4 =? 0) then reset_drive m else m
  else if offset =? PI_UNKNOWN then
    with_pi (with_other_registers (m_error_cause p) (m_reset_code p) (val .& 0x3FF) (m_flipper_bus_strength p) p) m
  else if offset =? PI_FLIPPER_BUS_STRENGTH then
    with_pi (with_other_registers (m_error_cause p) (m_reset_code p) (m_unknown p) (val .& 0x07FFFFFF) p) m
  else m.

(** ** The gather pipe *)

Definition GetGatherPipeCount m : Z := Z.of_nat (length (m_gather_pipe m)).
Definition IsBNE : bool := false.

(** One turn of the loop: a block of 32 bytes goes to memory. *)
Definition burst (block : list Z) m : Machine W :=
  let m := with_mem (CopyToEmu (mem m) (m_fifo_cpu_write_pointer (processor_interface m)) block) m in
  let p := processor_interface m in
  let wptr :=
    if m_fifo_cpu_write_pointer p =? m_fifo_cpu_end p then m_fifo_cpu_base p
    else u32 (m_fifo_cpu_write_pointer p + GATHER_PIPE_SIZE) in
  GatherPipeBursted (with_pi (with_fifo (m_fifo_cpu_base p) (m_fifo_cpu_end p) wptr p) m).
(** [processed] bytes have left the array, [pipe_count] are still in it; every
    turn takes 32 of them. *)
Fixpoint UpdateGatherPipe_loop (fuel : nat) (processed pipe_count : Z) m : Z * Z * Machine W :=
  match fuel with
  | O => (processed, pipe_count, m)
  | S fuel' =>
      if pipe_count <? GATHER_PIPE_SIZE then (processed, pipe_count, m)
      else
        let block := firstn (Z.to_nat GATHER_PIPE_SIZE) (drop (Z.to_nat processed) (m_gather_pipe m)) in
        UpdateGatherPipe_loop fuel' (processed + GATHER_PIPE_SIZE) (pipe_count - GATHER_PIPE_SIZE) (burst block m)
  end.
Definition UpdateGatherPipe m : Machine W :=
  let '(processed, pipe_count, m) := UpdateGatherPipe_loop (length (m_gather_pipe m)) 0 (GetGatherPipeCount m) m in
  with_gather_pipe (firstn (Z.to_nat pipe_count) (drop (Z.to_nat processed) (m_gather_pipe m))) m.
Definition CheckGatherPipe m : Machine W :=
  if GATHER_PIPE_SIZE <=? GetGatherPipeCount m then UpdateGatherPipe m else m.

(** [n] bytes of [value] at [gather_pipe_ptr]; the array has 512 bytes. *)
Definition FastWrite (n : nat) (value : Z) : M (Machine W) unit := fun m =>
  if GetGatherPipeCount m + Z.of_nat n <=? GATHER_PIPE_EXTRA_SIZE then
    Done tt (with_gather_pipe (m_gather_pipe m ++ to_be n value) m)
  else Fault ArrayBounds.
Definition Write8 (value : Z) : M (Machine W) unit := FastWrite 1 value ;;; mmodify CheckGatherPipe.
Definition Write16 (value : Z) : M (Machine W) unit := FastWrite 2 value ;;; mmodify CheckGatherPipe.
Definition Write32 (value : Z) : M (Machine W) unit := FastWrite 4 value ;;; mmodify CheckGatherPipe.
Definition Write64 (value : Z) : M (Machine W) unit := FastWrite 8 value ;;; mmodify CheckGatherPipe.

End GatherPipe.
