(* ===== verification/PPCMmu.v ===== *)
(** * Address translation and memory accesses (PowerPC/MMU.cpp)

    Panic alerts and log output are left out; the answer to a panic alert is the
    setting that pauses the emulation.  Template parameters are arguments, a type
    is its size in bytes.  The recursive calls of [ReadFromHardware] and
    [WriteToHardware] are never deeper than one level: bytes and halves of an
    access do not cross a page, and the page table is read untranslated. *)
From S2P Require Export GatherPipe.

Module XCheckTLBFlag.
Inductive t := NoException | Read | Write | Opcode | OpcodeNoException.
#[export] Instance eq_dec : EqDecision t.
Proof. solve_decision. Defined.
End XCheckTLBFlag.
Import (hints) XCheckTLBFlag.

Definition IsOpcodeFlag (flag : XCheckTLBFlag.t) : bool :=
  match flag with XCheckTLBFlag.Opcode | XCheckTLBFlag.OpcodeNoException => true | _ => false end.
Definition IsNoExceptionFlag (flag : XCheckTLBFlag.t) : bool :=
  match flag with XCheckTLBFlag.NoException | XCheckTLBFlag.OpcodeNoException => true | _ => false end.
Definition is_read (flag : XCheckTLBFlag.t) : bool := bool_decide (flag = XCheckTLBFlag.Read).
Definition is_write (flag : XCheckTLBFlag.t) : bool := bool_decide (flag = XCheckTLBFlag.Write).

Inductive TranslateAddressResultEnum := BAT_TRANSLATED | PAGE_TABLE_TRANSLATED | DIRECT_STORE_SEGMENT | PAGE_FAULT.
Record TranslateAddressResult := mkTranslated { tr_result : TranslateAddressResultEnum; tr_address : Z; tr_wi : bool }.
Definition Success (r : TranslateAddressResult) : bool :=
  match tr_result r with BAT_TRANSLATED | PAGE_TABLE_TRANSLATED => true | _ => false end.

Definition BAT_PAGE_SIZE : Z := 1 .<< BAT_INDEX_SHIFT.
Definition BAT_MAPPED_BIT : Z := 0x1.
Definition BAT_PHYSICAL_BIT : Z := 0x2.
Definition BAT_WI_BIT : Z := 0x4.
Definition BAT_RESULT_MASK : Z := 0xFFFFFFF8.
Definition HW_PAGE_MASK : Z := HW_PAGE_SIZE - 1.
Definition HW_PAGE_INDEX_SHIFT : Z := 12.
Definition HW_PAGE_INDEX_MASK : Z := 0x3f.
Definition L1_CACHE_SIZE : Z := 0x00040000.

(** [std::rotr] and [Common::swap32] on 32 bits; the bytes of an integer in the host's order. *)
Definition rotr32 (x n : Z) : Z := let n := n mod 32 in u32 ((x .>> n) .| (x .<< (32 - n))).
Definition host_bytes (n : nat) (x : Z) : list Z := rev (to_be n x).

(** [TranslateBatAddress]: the physical address and whether it is write-through or uncached. *)
Definition bat_entry (bat_table : gmap Z Z) (i : Z) : Z := default 0 (bat_table !! i).
Definition TranslateBatAddress (bat_table : gmap Z Z) (address : Z) : option (Z * bool) :=
  let bat_result := bat_entry bat_table (address .>> BAT_INDEX_SHIFT) in
  if bat_result .& BAT_MAPPED_BIT =? 0 then None
  else Some ((bat_result .& BAT_RESULT_MASK) .| (address .& (BAT_PAGE_SIZE - 1)), negb (bat_result .& BAT_WI_BIT =? 0)).

Section Mmu.
Context {W : Type} {D : Devices W}.
Implicit Types m : Machine W.

Definition get {A} (f : Machine W -> A) : M (Machine W) A := mget f.
Definition modify (f : Machine W -> Machine W) : M (Machine W) unit := mmodify f.

(** [if (IsPauseOnPanicMode()) { Break(); Exceptions |= ...; }] *)
Definition pause_on_panic m : Machine W :=
  if IsPauseOnPanicMode then raise (EXCEPTION_DSI .| EXCEPTION_FAKE_MEMCHECK_HIT) (CPU_Break m) else m.

Definition MMU_GenerateDSIException (effective_address : Z) (write : bool) m : Machine W :=
  if negb IsMMUMode then pause_on_panic m
  else
    let dsisr_page := 1 .<< 30 in
    let dsisr_store := 1 .<< 25 in
    let m := on_ppc (set_spr SPR_DSISR (if write then dsisr_page .| dsisr_store else dsisr_page)) m in
    raise EXCEPTION_DSI (on_ppc (set_spr SPR_DAR effective_address) m).
Definition GenerateISIException (effective_address : Z) m : Machine W :=
  raise EXCEPTION_ISI (on_ppc (set_npc effective_address) m).

(** *** The frame buffer *)

Definition EFB_x (addr : Z) : Z := (addr .& 0xfff) .>> 2.
Definition EFB_y (addr : Z) : Z := (addr .>> 12) .& 0x3ff.
Definition EFB_Read (addr : Z) : M (Machine W) Z :=
  if negb (addr .& 0x00800000 =? 0) then mret 0
  else run (EFB_Peek (negb (addr .& 0x00400000 =? 0)) (EFB_x addr) (EFB_y addr)).
Definition EFB_Write (data addr : Z) : M (Machine W) unit :=
  if negb (addr .& 0x00800000 =? 0) then mret tt
  else modify (EFB_Poke (negb (addr .& 0x00400000 =? 0)) (EFB_x addr) (EFB_y addr) data).

(** *** Reads of physical memory *)

(** The ranges of the physical address space. *)
Definition is_io (em_address : Z) : bool := em_address .& 0xF8000000 =? 0x08000000.
Definition is_l1 (em_address : Z) : bool := (em_address .>> 28 =? 0xE) && (em_address <? 0xE0000000 + L1_CACHE_SIZE).
Definition is_ram (em_address : Z) : bool := em_address .& 0xF8000000 =? 0.
Definition is_exram (em_address : Z) m : bool :=
  bool_decide (m_exram (mem m) <> None) && (em_address .>> 28 =? 0x1) && ((em_address .& 0x0FFFFFFF) <? m_exram_size_real (mem m)).
Definition is_fake_vmem (em_address : Z) m : bool :=
  bool_decide (m_fake_vmem m <> None) && (em_address .& 0xFE000000 =? 0x7E000000).

Definition uncached (wi : bool) m : bool := negb (m_enable_dcache m) || wi.
(** [dCache.Read] into a variable of [n] bytes, byte-swapped. *)
Definition dcache_read (flag : XCheckTLBFlag.t) (addr : Z) (n : nat) : M (Machine W) Z :=
  locked <- get (fun m => DLOCK m || negb (is_read flag)) ;;
  bytes <- with_dcache (PPCCache.Read addr (replicate n 0) locked) ;;
  mret (from_be bytes).

Definition unresolved_read (em_address : Z) m : Machine W :=
  let m := SetInterrupt INT_CAUSE_PI true m in
  if negb (em_address =? 0x10000000) || negb (pc (ppc m) .>> 28 =? 0) then pause_on_panic m else m.

(** [ReadFromHardware] from the translated address on. *)
Definition read_access (flag : XCheckTLBFlag.t) (n : nat) (wi : bool) (em_address : Z) : M (Machine W) Z :=
  m <- get (fun m => m) ;;
  if is_read flag && is_io em_address then
    if em_address <? 0x0c000000 then v <- EFB_Read em_address ;; mret (v mod 2 ^ (8 * Z.of_nat n))
    else run (MMIO_Read (Z.of_nat n) em_address)
  else if is_l1 em_address then mret (from_be (read_bytes (m_l1_cache m) (em_address .& 0x0FFFFFFF) n))
  else if is_ram em_address then
    let em_address := em_address .& m_ram_mask (mem m) in
    if uncached wi m then mret (from_be (read_bytes (m_ram (mem m)) em_address n))
    else dcache_read flag em_address n
  else if is_exram em_address m then
    let em_address := em_address .& 0x0FFFFFFF in
    if uncached wi m then mret (from_be (read_bytes (default ∅ (m_exram (mem m))) em_address n))
    else dcache_read flag (em_address + 0x10000000) n
  else if is_fake_vmem em_address m then
    mret (from_be (read_bytes (default ∅ (m_fake_vmem m)) (em_address .& m_fakevmem_mask (mem m)) n))
  else modify (unresolved_read em_address) ;;; mret 0.

Definition page_of (em_address : Z) : Z := em_address .& .~ HW_PAGE_MASK.
Definition crosses_page (em_address size : Z) : bool :=
  negb (page_of em_address =? u32 (page_of (em_address + size - 1))).
(** The loop over the bytes of an access that crosses a page. *)
Fixpoint read_by_bytes (read : Z -> M (Machine W) Z) (em_address : Z) (var : Z) (n : nat) : M (Machine W) Z :=
  match n with
  | O => mret var
  | S n' => b <- read em_address ;; read_by_bytes read (u32 (em_address + 1)) ((var .<< 8) .| b) n'
  end.
(** [ReadFromHardware<flag, T, true>] *)
Definition ReadFromHardware_physical (flag : XCheckTLBFlag.t) (n : nat) (em_address : Z) : M (Machine W) Z :=
  if crosses_page em_address (Z.of_nat n) then read_by_bytes (read_access flag 1 false) em_address 0 n
  else read_access flag n false em_address.

(** *** The translation look-aside buffer *)

Inductive TLBLookupResult := TLBFound (paddr : Z) (wi : bool) | TLBNotFound | TLBUpdateC.

(** A hit in a way of the set. *)
Definition tlb_hit (flag : XCheckTLBFlag.t) (vpa : Z) (i : bool) (e : TLBEntry) : TLBLookupResult * TLBEntry :=
  let pte2 := way_of (pte e) i in
  if is_write flag && negb (PTE_C pte2) then
    (TLBUpdateC, mkTLBEntry (tag e) (paddr e) (vsid e) (put_way i (put_field pte2 7 1 1) (pte e)) (recent e))
  else
    (TLBFound (way_of (paddr e) i .| (vpa .& 0xfff)) (PTE_wi pte2),
     if IsNoExceptionFlag flag then e else mkTLBEntry (tag e) (paddr e) (vsid e) (pte e) (Z.b2z i)).
Definition LookupTLBPageAddress (flag : XCheckTLBFlag.t) (vpa vsid_ : Z) m : TLBLookupResult * Machine W :=
  let tag_ := vpa .>> HW_PAGE_INDEX_SHIFT in
  let set := tag_ .& HW_PAGE_INDEX_MASK in
  let e := lookup_tlb (IsOpcodeFlag flag) set m in
  let hit i :=
    let '(r, e) := tlb_hit flag vpa i e in (r, put_tlb (IsOpcodeFlag flag) set e m) in
  if (way_of (tag e) false =? tag_) && (way_of (vsid e) false =? vsid_) then hit false
  else if (way_of (tag e) true =? tag_) && (way_of (vsid e) true =? vsid_) then hit true
  else (TLBNotFound, m).
Definition UpdateTLBEntry (flag : XCheckTLBFlag.t) (pte2 address vsid_ : Z) m : Machine W :=
  if IsNoExceptionFlag flag then m
  else
    let tag_ := address .>> HW_PAGE_INDEX_SHIFT in
    let set := tag_ .& HW_PAGE_INDEX_MASK in
    let e := lookup_tlb (IsOpcodeFlag flag) set m in
    let index := (recent e =? 0) && negb (way_of (tag e) false =? INVALID_TAG) in
    put_tlb (IsOpcodeFlag flag) set
      (mkTLBEntry (put_way index tag_ (tag e)) (put_way index (PTE_RPN pte2 .<< HW_PAGE_INDEX_SHIFT) (paddr e))
         (put_way index vsid_ (vsid e)) (put_way index pte2 (pte e)) (Z.b2z index)) m.

(** *** The page table *)

Definition physical_regions m : Regions :=
  (0, m_ram_size (mem m)) :: (0xE0000000, L1_CACHE_SIZE)
  :: (if m_fake_vmem m then [(0x7E000000, m_fakevmem_size (mem m))] else [])
  ++ (if m_exram (mem m) then [(0x10000000, m_exram_size (mem m))] else []).

(** What [PageTableUpdated] sees of the machine. *)
Definition surroundings m : Surroundings :=
  mkSurroundings (sr (ppc m)) (m_pagetable_base m) (m_pagetable_mask m)
    (fun a => negb (bat_entry (m_dbat_table m) (a .>> BAT_INDEX_SHIFT) .& BAT_MAPPED_BIT =? 0))
    (fun a => memcheck_overlaps a HW_PAGE_SIZE) (physical_regions m).

(** The access bits a use of the page sets. *)
Definition set_access_bits (flag : XCheckTLBFlag.t) (pte2 : Z) : Z :=
  match flag with
  | XCheckTLBFlag.NoException | XCheckTLBFlag.OpcodeNoException => pte2
  | XCheckTLBFlag.Read | XCheckTLBFlag.Opcode => put_field pte2 8 1 1
  | XCheckTLBFlag.Write => put_field (put_field pte2 8 1 1) 7 1 1
  end.
(** The entry changed: the copy and the host's mapping follow, if they show this entry. *)
Definition entry_used (address pteg_addr pte1 pte2 : Z) m : Machine W :=
  let p := m_page_tables m in
  let page_logical_address := address .& .~ HW_PAGE_MASK in
  match m_page_mappings p !! page_logical_address with
  | Some mapping =>
      let priority := ((pteg_addr mod 64) / 8) .| (Z.b2z (PTE_H pte1) .<< 3) in
      if mapping =? PageMapping (PTE_RPN pte2) true priority then
        with_page_tables
          (mkPageTables (<[pteg_addr - m_pagetable_base m := (pte1, pte2)]> (m_page_table p)) (m_page_table_size p)
             (m_page_mappings p)
             (AddPageTableMapping (physical_regions m) page_logical_address (PTE_RPN pte2 .<< 12) (PTE_C pte2)
                (host_mappings p))) m
      else m
  | None => m
  end.
(** The entry at [pteg_addr] is the one looked for. *)
Definition use_entry (flag : XCheckTLBFlag.t) (updated_c : bool) (address VSID pte1 pteg_addr : Z) :
    M (Machine W) (TranslateAddressResult * bool) :=
  let pte_read_flag := if IsNoExceptionFlag flag then XCheckTLBFlag.NoException else XCheckTLBFlag.Read in
  old_pte2 <- ReadFromHardware_physical pte_read_flag 4 (pteg_addr + 4) ;;
  let pte2 := set_access_bits flag old_pte2 in
  mwhen (negb (IsNoExceptionFlag flag) && negb (pte2 =? old_pte2)) (modify (fun m =>
    entry_used address pteg_addr pte1 pte2 (with_mem (Write_U32 (mem m) pte2 (pteg_addr + 4)) m))) ;;;
  mwhen (negb updated_c) (modify (UpdateTLBEntry flag pte2 address VSID)) ;;;
  mret (mkTranslated PAGE_TABLE_TRANSLATED ((PTE_RPN pte2 .<< 12) .| EA_offset address) false, PTE_wi pte2).

(** The inner loop over a group; [None] when no entry matches. *)
Fixpoint walk_pteg (flag : XCheckTLBFlag.t) (updated_c : bool) (address VSID pte1 pteg_addr : Z) (n : nat) :
    M (Machine W) (option (TranslateAddressResult * bool)) :=
  match n with
  | O => mret None
  | S n' =>
      let pte_read_flag := if IsNoExceptionFlag flag then XCheckTLBFlag.NoException else XCheckTLBFlag.Read in
      pteg <- ReadFromHardware_physical pte_read_flag 4 pteg_addr ;;
      if pte1 =? pteg then r <- use_entry flag updated_c address VSID pte1 pteg_addr ;; mret (Some r)
      else walk_pteg flag updated_c address VSID pte1 (u32 (pteg_addr + 8)) n'
  end.
Definition pteg_address (hash : Z) m : Z := (u32 (hash .<< 6) .& m_pagetable_mask m) .| m_pagetable_base m.

(** The result and the value stored through [wi]. *)
Definition TranslatePageAddress (flag : XCheckTLBFlag.t) (address : Z) : M (Machine W) (TranslateAddressResult * bool) :=
  sr_ <- get (fun m => get_sr (ppc m) (EA_SR address)) ;;
  let VSID := SR_VSID sr_ in
  res <- run (LookupTLBPageAddress flag address VSID) ;;
  match res with
  | TLBFound translated_address wi => mret (mkTranslated PAGE_TABLE_TRANSLATED translated_address false, wi)
  | _ =>
      let updated_c := match res with TLBUpdateC => true | _ => false end in
      if SR_T sr_ then mret (mkTranslated DIRECT_STORE_SEGMENT 0 false, false)
      else if IsOpcodeFlag flag && SR_N sr_ then mret (mkTranslated PAGE_FAULT 0 false, false)
      else
        let hash := VSID .^ EA_page_index address in
        let pte1 := make_pte1 VSID (EA_API address) false in
        pteg_addr <- get (pteg_address hash) ;;
        r <- walk_pteg flag updated_c address VSID pte1 pteg_addr 8 ;;
        match r with
        | Some r => mret r
        | None =>
            let hash := u32 (.~ hash) in
            let pte1 := put_field pte1 6 1 1 in
            pteg_addr <- get (pteg_address hash) ;;
            r <- walk_pteg flag updated_c address VSID pte1 pteg_addr 8 ;;
            match r with Some r => mret r | None => mret (mkTranslated PAGE_FAULT 0 false, false) end
        end
  end.

(** The [wi] of the page table is not passed on. *)
Definition TranslateAddress (flag : XCheckTLBFlag.t) (address : Z) : M (Machine W) TranslateAddressResult :=
  m <- get (fun m => m) ;;
  match TranslateBatAddress (if IsOpcodeFlag flag then m_ibat_table m else m_dbat_table m) address with
  | Some (address, wi) => mret (mkTranslated BAT_TRANSLATED address wi)
  | None => r <- TranslatePageAddress flag address ;; mret (fst r)
  end.
Definition GetTranslatedAddress (address : Z) : M (Machine W) (option Z) :=
  result <- TranslateAddress XCheckTLBFlag.NoException address ;;
  mret (if Success result then Some (tr_address result) else None).

End Mmu.
