(* ===== verification/PPCAccess.v ===== *)
(** * The accesses of the CPU and of the host (PowerPC/MMU.cpp)

    Reads and writes through the translation, instruction fetches, the cache
    instructions, the DMA of the locked cache, and the updates that follow a
    change of the translation registers. *)
From S2P Require Export PPCMmu.

Section Access.
Context {W : Type} {D : Devices W}.
Implicit Types m : Machine W.

(** ** Reads *)

Definition translation_on (flag : XCheckTLBFlag.t) m : bool := if IsOpcodeFlag flag then IR m else DR m.
(** An access within a page. *)
Definition read_in_page (flag : XCheckTLBFlag.t) (n : nat) (em_address : Z) : M (Machine W) Z :=
  on <- get (translation_on flag) ;;
  if on then
    translated_addr <- TranslateAddress flag em_address ;;
    if Success translated_addr then read_access flag n (tr_wi translated_addr) (tr_address translated_addr)
    else mwhen (is_read flag) (modify (MMU_GenerateDSIException em_address false)) ;;; mret 0
  else read_access flag n false em_address.
Definition ReadFromHardware (flag : XCheckTLBFlag.t) (n : nat) (em_address : Z) : M (Machine W) Z :=
  if crosses_page em_address (Z.of_nat n) then read_by_bytes (read_in_page flag 1) em_address 0 n
  else read_in_page flag n em_address.

(** ** Writes *)

Definition unresolved_write (em_address : Z) m : Machine W := pause_on_panic (SetInterrupt INT_CAUSE_PI true m).

(** The bytes [data >> 8 * (size - 1)], ..., [data], one after the other. *)
Fixpoint write_bytes_down (write : Z -> Z -> M (Machine W) unit) (data em_address : Z) (size : nat) : M (Machine W) unit :=
  match size with
  | O => mret tt
  | S size' => write (u8 (data .>> (8 * Z.of_nat size'))) em_address ;;; write_bytes_down write data (u32 (em_address + 1)) size'
  end.
Definition write_gather_pipe (data : Z) (size : nat) : M (Machine W) unit :=
  match size with
  | 1%nat => Write8 (u8 data)
  | 2%nat => Write16 (u16 data)
  | 4%nat => Write32 data
  | _ => write_bytes_down (fun b _ => Write8 b) data 0 size
  end.
Definition write_mmio (data em_address : Z) (size : nat) : M (Machine W) unit :=
  match size with
  | 1%nat => modify (MMIO_Write 1 em_address (u8 data))
  | 2%nat => modify (MMIO_Write 2 em_address (u16 data))
  | 4%nat => modify (MMIO_Write 4 em_address data)
  | _ => write_bytes_down (fun b a => modify (MMIO_Write 1 a b)) data em_address size
  end.

Definition write_ram (em_address : Z) (bytes : list Z) m : Machine W := with_mem (store (mem m) (RamPtr em_address) bytes) m.
Definition write_exram (em_address : Z) (bytes : list Z) m : Machine W := with_mem (store (mem m) (ExRamPtr em_address) bytes) m.
(** The cached and the uncached part of a write to one of the two memories. *)
Definition write_memory (flag : XCheckTLBFlag.t) (wi : bool) (cached_address : Z) (bytes : list Z)
    (direct : Machine W -> Machine W) : M (Machine W) unit :=
  m <- get (fun m => m) ;;
  mwhen (m_enable_dcache m && negb wi) (with_dcache (PPCCache.Write cached_address bytes (DLOCK m))) ;;;
  mwhen (negb (m_enable_dcache m) || wi || negb (is_write flag)) (modify direct).

(** [WriteToHardware] from the translated address on; [misaligned] is the write
    of a part of a word to uncached memory. *)
Definition write_to (misaligned : M (Machine W) unit) (flag : XCheckTLBFlag.t) (em_address data : Z) (size : nat) (wi : bool) :
    M (Machine W) unit :=
  m <- get (fun m => m) ;;
  if is_write flag && (em_address .& 0xFFFFF000 =? GATHER_PIPE_PHYSICAL_ADDRESS) then write_gather_pipe data size
  else if is_write flag && is_io em_address then
    if em_address <? 0x0c000000 then EFB_Write data em_address else write_mmio data em_address size
  else
    let swapped_data := swap32 (rotr32 data (8 * Z.of_nat size)) in
    let bytes := take size (host_bytes 4 swapped_data) in
    if is_l1 em_address then modify (fun m => with_l1_cache (write_bytes (m_l1_cache m) (em_address .& 0x0FFFFFFF) bytes) m)
    else if wi && ((Z.of_nat size <? 4) || negb (em_address .& 0x3 =? 0)) then misaligned
    else if is_ram em_address then
      let em_address := em_address .& m_ram_mask (mem m) in
      write_memory flag wi em_address bytes (write_ram em_address bytes)
    else if is_exram em_address m then
      let em_address := em_address .& 0x0FFFFFFF in
      write_memory flag wi (em_address + 0x10000000) bytes (write_exram em_address bytes)
    else if is_fake_vmem em_address m then
      modify (fun m => with_fake_vmem
        (Some (write_bytes (default ∅ (m_fake_vmem m)) (em_address .& m_fakevmem_mask (mem m)) bytes)) m)
    else modify (unresolved_write em_address).

(** A word written untranslated, as the recursive calls do. *)
Definition write_word (flag : XCheckTLBFlag.t) (em_address data : Z) : M (Machine W) unit :=
  write_to (mret tt) flag em_address data 4 false.
Fixpoint write_doublewords (flag : XCheckTLBFlag.t) (addr data : Z) (n : nat) : M (Machine W) unit :=
  match n with
  | O => mret tt
  | S n' => write_word flag addr data ;;; write_word flag (addr + 4) data ;;; write_doublewords flag (u32 (addr + 8)) data n'
  end.
Definition AlignDown (a n : Z) : Z := a - a mod n.
Definition AlignUp (a n : Z) : Z := AlignDown (a + n - 1) n.
(** Memory gets the 64 bits around the data with the data repeated. *)
Definition write_misaligned (flag : XCheckTLBFlag.t) (em_address data : Z) (size : nat) : M (Machine W) unit :=
  modify (SetInterrupt INT_CAUSE_PI true) ;;;
  let rotated_data := rotr32 data (8 * ((em_address .& 0x3) + Z.of_nat size)) in
  let start_addr := AlignDown em_address 8 in
  let end_addr := AlignUp (em_address + Z.of_nat size) 8 in
  write_doublewords flag start_addr rotated_data (Z.to_nat ((end_addr - start_addr) / 8)).
Definition write_access (flag : XCheckTLBFlag.t) (em_address data : Z) (size : nat) (wi : bool) : M (Machine W) unit :=
  write_to (write_misaligned flag em_address data size) flag em_address data size wi.

Definition write_in_page (flag : XCheckTLBFlag.t) (em_address data : Z) (size : nat) : M (Machine W) unit :=
  on <- get DR ;;
  if on then
    translated_addr <- TranslateAddress flag em_address ;;
    if Success translated_addr then write_access flag (tr_address translated_addr) data size (tr_wi translated_addr)
    else mwhen (is_write flag) (modify (MMU_GenerateDSIException em_address true))
  else write_access flag em_address data size false.
(** A write that crosses a page is two writes. *)
Definition write_split (write : Z -> Z -> nat -> M (Machine W) unit) (em_address data : Z) (size : nat) : M (Machine W) unit :=
  if crosses_page em_address (Z.of_nat size) then
    let em_address_end_page := u32 (page_of (em_address + Z.of_nat size - 1)) in
    let first_half_size := u32 (em_address_end_page - em_address) in
    let second_half_size := Z.of_nat size - first_half_size in
    write em_address (rotr32 data (8 * second_half_size)) (Z.to_nat first_half_size) ;;;
    write em_address_end_page data (Z.to_nat second_half_size)
  else write em_address data size.
Definition WriteToHardware (flag : XCheckTLBFlag.t) (em_address data : Z) (size : nat) : M (Machine W) unit :=
  write_split (write_in_page flag) em_address data size.
(** [WriteToHardware<flag, true>] *)
Definition WriteToHardware_physical (flag : XCheckTLBFlag.t) (em_address data : Z) (size : nat) : M (Machine W) unit :=
  write_split (fun a d n => write_access flag a d n false) em_address data size.

(** ** The accesses of instructions *)

Definition Memcheck (address var : Z) (write : bool) (size : Z) : M (Machine W) unit :=
  pause <- run (memcheck_pauses address var write size) ;;
  mwhen pause (modify (fun m => raise (EXCEPTION_DSI .| EXCEPTION_FAKE_MEMCHECK_HIT) (CPU_Break m))).

Definition mmu_read (n : nat) (address : Z) : M (Machine W) Z :=
  var <- ReadFromHardware XCheckTLBFlag.Read n address ;;
  Memcheck address var false (Z.of_nat n) ;;;
  mret var.
(** [Write<T>] for at most 32 bits, and for 64. *)
Definition mmu_write (n : nat) (var address : Z) : M (Machine W) unit :=
  Memcheck address var true (Z.of_nat n) ;;; WriteToHardware XCheckTLBFlag.Write address var n.
Definition mmu_write_u64 (var address : Z) : M (Machine W) unit :=
  Memcheck address var true 8 ;;;
  WriteToHardware XCheckTLBFlag.Write address (u32 (var .>> 32)) 4 ;;;
  WriteToHardware XCheckTLBFlag.Write (u32 (address + 4)) (u32 var) 4.
Definition Write_U16_Swap (var address : Z) : M (Machine W) unit :=
  mmu_write 2 ((var .& 0xFFFF0000) .| swap16 (u16 var)) address.
Definition mmu_Write_U32_Swap (var address : Z) : M (Machine W) unit := mmu_write 4 (swap32 var) address.
Definition mmu_Write_U64_Swap (var address : Z) : M (Machine W) unit := mmu_write_u64 (swap64 var) address.

(** ** Instructions *)

Record TryReadInstResult := mkInstResult { valid_inst : bool; from_bat : bool; hex : Z; physical_address : Z }.
(** The instruction at a physical address. *)
Definition read_instruction (address : Z) : M (Machine W) Z :=
  m <- get (fun m => m) ;;
  if is_fake_vmem address m then
    mret (from_be (read_bytes (default ∅ (m_fake_vmem m)) (address .& m_fakevmem_mask (mem m)) 4))
  else with_icache (ReadInstruction (ICE m) (ILOCK m) m_disable_icache address).
Definition TryReadInstruction (address : Z) : M (Machine W) TryReadInstResult :=
  on <- get IR ;;
  if on then
    tlb_addr <- TranslateAddress XCheckTLBFlag.Opcode address ;;
    if Success tlb_addr then
      h <- read_instruction (tr_address tlb_addr) ;;
      mret (mkInstResult true (match tr_result tlb_addr with BAT_TRANSLATED => true | _ => false end) h (tr_address tlb_addr))
    else mret (mkInstResult false false 0 0)
  else h <- read_instruction address ;; mret (mkInstResult true true h address).
Definition mmu_Read_Opcode (address : Z) : M (Machine W) Z :=
  result <- TryReadInstruction address ;;
  if valid_inst result then mret (hex result) else modify (GenerateISIException address) ;;; mret 0.
(** [JitCache_TranslateAddress]: whether the address is translated, by a BAT, and to what. *)
Definition JitCache_TranslateAddress (address : Z) : M (Machine W) (option (bool * bool * Z)) :=
  on <- get IR ;;
  if negb on then mret (Some (false, false, address))
  else
    tlb_addr <- TranslateAddress XCheckTLBFlag.Opcode address ;;
    mret (if Success tlb_addr then
            Some (true, match tr_result tlb_addr with BAT_TRANSLATED => true | _ => false end, tr_address tlb_addr)
          else None).

(** ** Cache lines *)

(** The address translated for a cache instruction; [None] ends the instruction. *)
Definition translate_line (dsi : bool) (address : Z) : M (Machine W) (option Z) :=
  on <- get DR ;;
  if on then
    translated_address <- TranslateAddress XCheckTLBFlag.Write address ;;
    match tr_result translated_address with
    | DIRECT_STORE_SEGMENT => mret None
    | PAGE_FAULT => mwhen dsi (modify (MMU_GenerateDSIException address true)) ;;; mret None
    | _ => mret (Some (tr_address translated_address))
    end
  else mret (Some address).
Fixpoint clear_words (address : Z) (n : nat) : M (Machine W) unit :=
  match n with
  | O => mret tt
  | S n' => WriteToHardware_physical XCheckTLBFlag.Write address 0 4 ;;; clear_words (u32 (address + 4)) n'
  end.
Definition ClearDCacheLine (address : Z) : M (Machine W) unit :=
  a <- translate_line true address ;;
  match a with Some address => clear_words address 8 | None => mret tt end.
(** A cache instruction on the line of an address. *)
Definition on_dcache_line (dsi : bool) (op : Z -> M CacheSys unit) (address : Z) : M (Machine W) unit :=
  a <- translate_line dsi (address .& .~ 0x1F) ;;
  match a with
  | Some address => enabled <- get m_enable_dcache ;; mwhen enabled (with_dcache (op address))
  | None => mret tt
  end.
Definition StoreDCacheLine : Z -> M (Machine W) unit := on_dcache_line true PPCCache.Store.
Definition InvalidateDCacheLine : Z -> M (Machine W) unit := on_dcache_line false PPCCache.Invalidate.
Definition FlushDCacheLine : Z -> M (Machine W) unit := on_dcache_line true PPCCache.Flush.
Definition TouchDCacheLine (address : Z) (store : bool) : M (Machine W) unit :=
  on_dcache_line true (fun a => PPCCache.Touch a store) address.

(** ** DMA of the locked cache *)

Definition l1_at (cache_address : Z) : Z := cache_address .& 0x3FFFF.
Definition l1_word (cache_address : Z) m : Z := from_be (read_bytes (m_l1_cache m) (l1_at cache_address) 4).
Definition put_l1 (cache_address : Z) (bytes : list Z) m : Machine W :=
  with_l1_cache (write_bytes (m_l1_cache m) (l1_at cache_address) bytes) m.
Fixpoint dma_words_out (write : Z -> Z -> M (Machine W) unit) (mem_address cache_address : Z) (n : nat) : M (Machine W) unit :=
  match n with
  | O => mret tt
  | S n' =>
      data <- get (l1_word cache_address) ;; write data mem_address ;;;
      dma_words_out write (u32 (mem_address + 4)) (u32 (cache_address + 4)) n'
  end.
Fixpoint dma_words_in (read : Z -> M (Machine W) Z) (cache_address mem_address : Z) (n : nat) : M (Machine W) unit :=
  match n with
  | O => mret tt
  | S n' =>
      data <- read mem_address ;; modify (put_l1 cache_address (to_be 4 data)) ;;;
      dma_words_in read (u32 (cache_address + 4)) (u32 (mem_address + 4)) n'
  end.
(** A block that is copied and ends beyond the locked cache is outside the array. *)
Definition l1_block_ok (mem_address cache_address size : Z) m : bool :=
  (size =? 0) || bool_decide (GetPointerForRange (mem m) mem_address size = None)
  || (l1_at cache_address + size <=? L1_CACHE_SIZE).
Definition DMA_LCToMemory (mem_address cache_address num_blocks : Z) : M (Machine W) unit :=
  if mem_address .& 0x1F000000 =? 0x08000000 then
    dma_words_out (fun data a => EFB_Write data a) mem_address cache_address (Z.to_nat (8 * num_blocks))
  else if mem_address .& 0x1F000000 =? 0x0C000000 then
    dma_words_out (fun data a => modify (MMIO_Write 4 a data)) mem_address cache_address (Z.to_nat (8 * num_blocks))
  else
    ok <- get (l1_block_ok mem_address cache_address (32 * num_blocks)) ;;
    if ok then modify (fun m => with_mem (CopyToEmu (mem m) mem_address
      (read_bytes (m_l1_cache m) (l1_at cache_address) (Z.to_nat (32 * num_blocks)))) m)
  else mfail ArrayBounds.
Definition DMA_MemoryToLC (cache_address mem_address num_blocks : Z) : M (Machine W) unit :=
  if mem_address .& 0x1F000000 =? 0x08000000 then
    dma_words_in EFB_Read cache_address mem_address (Z.to_nat (8 * num_blocks))
  else if mem_address .& 0x1F000000 =? 0x0C000000 then
    dma_words_in (fun a => run (MMIO_Read 4 a)) cache_address mem_address (Z.to_nat (8 * num_blocks))
  else
    ok <- get (l1_block_ok mem_address cache_address (32 * num_blocks)) ;;
    if ok then modify (fun m =>
      let old := read_bytes (m_l1_cache m) (l1_at cache_address) (Z.to_nat (32 * num_blocks)) in
      put_l1 cache_address (CopyFromEmu (mem m) old mem_address) m)
  else mfail ArrayBounds.

End Access.
