(* ===== verification/PPCBat.v ===== *)
(** * Block address translation and the updates of the translation (PowerPC/MMU.cpp, HW/Memmap.cpp)

    The tables of the BATs hold an entry for every 128 KiB of the address space.
    The host's mappings of the BATs follow from the table; they are kept for
    every block, as [m_logical_page_mappings]. *)
From S2P Require Export PPCAccess.

Definition BAT_PAGE_COUNT : Z := 1 .<< (32 - BAT_INDEX_SHIFT).

(** [UReg_BAT_Up], [UReg_BAT_Lo] *)
Definition BAT_VP (batu : Z) : bool := bit_at batu 0.
Definition BAT_VS (batu : Z) : bool := bit_at batu 1.
Definition BAT_BL (batu : Z) : Z := field batu 2 11.
Definition BAT_BEPI (batu : Z) : Z := field batu 17 15.
Definition BAT_WIMG (batl : Z) : Z := field batl 3 4.
Definition BAT_BRPN (batl : Z) : Z := field batl 17 15.

Section Bat.
Context {W : Type} {D : Devices W}.
Implicit Types m : Machine W.

(** ** The tables *)

(** Memory the host can show. *)
Definition host_memory (physical_address : Z) m : bool :=
  if bool_decide (m_fake_vmem m <> None) && (physical_address .& 0xFE000000 =? 0x7E000000) then true
  else if physical_address <? m_ram_size_real (mem m) then true
  else if bool_decide (m_exram (mem m) <> None) && (physical_address .>> 28 =? 0x1)
       && ((physical_address .& 0x0FFFFFFF) <? m_exram_size_real (mem m)) then true
  else (physical_address .>> 28 =? 0xE) && (physical_address <? 0xE0000000 + L1_CACHE_SIZE).
Definition bat_flags (wi : bool) (physical_address virtual_address : Z) m : Z :=
  let valid_bit := if wi then BAT_MAPPED_BIT .| BAT_WI_BIT else BAT_MAPPED_BIT in
  let valid_bit := if negb wi && host_memory physical_address m then valid_bit .| BAT_PHYSICAL_BIT else valid_bit in
  if memcheck_overlaps virtual_address BAT_PAGE_SIZE then valid_bit .& .~ BAT_PHYSICAL_BIT else valid_bit.

(** The entry for the bit pattern [j] of a block. *)
Definition bat_block (batu batl : Z) m (bat_table : gmap Z Z) (j : Z) : gmap Z Z :=
  if j .& BAT_BL batu =? j then
    let physical_address := (BAT_BRPN batl .| j) .<< BAT_INDEX_SHIFT in
    let virtual_address := (BAT_BEPI batu .| j) .<< BAT_INDEX_SHIFT in
    let wi := negb (BAT_WIMG batl .& 12 =? 0) in
    <[virtual_address .>> BAT_INDEX_SHIFT := physical_address .| bat_flags wi physical_address virtual_address m]> bat_table
  else bat_table.
Definition UpdateBAT (batu batl : Z) m (bat_table : gmap Z Z) : gmap Z Z :=
  if negb (BAT_VS batu) && negb (BAT_VP batu) then bat_table
  else fold_left (bat_block batu batl m) (map Z.of_nat (seq 0 (Z.to_nat (BAT_BL batu + 1)))) bat_table.
Definition UpdateBATs (base_spr : Z) m (bat_table : gmap Z Z) : gmap Z Z :=
  fold_left (fun t i => UpdateBAT (get_spr (ppc m) (base_spr + 2 * i)) (get_spr (ppc m) (base_spr + 2 * i + 1)) m t)
    [0; 1; 2; 3] bat_table.

Definition fake_bat_entry (start_addr : Z) m (bat_table : gmap Z Z) (i : Z) : gmap Z Z :=
  let e_address := i + (start_addr .>> BAT_INDEX_SHIFT) in
  let p_address := 0x7E000000 .| ((i .<< BAT_INDEX_SHIFT) .& m_fakevmem_mask (mem m)) in
  let flags := BAT_MAPPED_BIT .| BAT_PHYSICAL_BIT in
  let flags := if memcheck_overlaps (e_address .<< BAT_INDEX_SHIFT) BAT_PAGE_SIZE then flags .& .~ BAT_PHYSICAL_BIT else flags in
  <[e_address := p_address .| flags]> bat_table.
Definition UpdateFakeMMUBat (start_addr : Z) m (bat_table : gmap Z Z) : gmap Z Z :=
  fold_left (fake_bat_entry start_addr m) (map Z.of_nat (seq 0 (Z.to_nat (0x10000000 .>> BAT_INDEX_SHIFT)))) bat_table.

(** The table of the registers from [base_spr] and, on a Wii, [extended_spr] on. *)
Definition bat_table_of (base_spr extended_spr : Z) m : gmap Z Z :=
  let t := UpdateBATs base_spr m ∅ in
  let t := if IsWii && SBE m then UpdateBATs extended_spr m t else t in
  if bool_decide (m_fake_vmem m <> None) then UpdateFakeMMUBat 0x70000000 m (UpdateFakeMMUBat 0x40000000 m t) else t.

(** ** The host's mappings of the blocks *)

Definition is_physical (bat_table : gmap Z Z) (i : Z) : bool := negb (bat_entry bat_table i .& BAT_PHYSICAL_BIT =? 0).
Definition bat_result (bat_table : gmap Z Z) (i : Z) : Z := bat_entry bat_table i .& BAT_RESULT_MASK.
(** The loop that joins neighbouring blocks; the result is the last index taken and the size. *)
Fixpoint extend_run (bat_table : gmap Z Z) (fuel : nat) (i translated_address logical_size : Z) : Z * Z :=
  match fuel with
  | O => (i, logical_size)
  | S fuel' =>
      if i + 1 <? BAT_PAGE_COUNT then
        if negb (is_physical bat_table (i + 1)) then (i + 1, logical_size)
        else if negb (bat_result bat_table (i + 1) =? u32 (translated_address + logical_size)) then (i, logical_size)
        else extend_run bat_table fuel' (i + 1) translated_address (logical_size + BAT_PAGE_SIZE)
      else (i, logical_size)
  end.
(** The physical address shown at the blocks of a run. *)
Definition map_run (logical_address translated_address logical_size : Z) (mappings : gmap Z Z) (region : Z * Z) : gmap Z Z :=
  let '(mapping_address, size) := region in
  let mapping_end := mapping_address + size in
  let intersection_start := Z.max mapping_address translated_address in
  let intersection_end := Z.min mapping_end (u32 (translated_address + logical_size)) in
  if intersection_start <? intersection_end then
    let mapped_logical_address := u32 (logical_address + intersection_start - translated_address) in
    let mapped_size := intersection_end - intersection_start in
    let bat_index := mapped_logical_address / BAT_PAGE_SIZE in
    fold_left (fun mp j => <[bat_index + j := intersection_start + j * BAT_PAGE_SIZE]> mp)
      (map Z.of_nat (seq 0 (Z.to_nat (mapped_size / BAT_PAGE_SIZE)))) mappings
  else mappings.
Fixpoint map_blocks (regions : Regions) (bat_table : gmap Z Z) (fuel : nat) (i : Z) (mappings : gmap Z Z) : gmap Z Z :=
  match fuel with
  | O => mappings
  | S fuel' =>
      if i <? BAT_PAGE_COUNT then
        if is_physical bat_table i then
          let translated_address := bat_result bat_table i in
          let '(last, logical_size) := extend_run bat_table fuel i translated_address BAT_PAGE_SIZE in
          map_blocks regions bat_table fuel' (last + 1)
            (fold_left (map_run (i .<< BAT_INDEX_SHIFT) translated_address logical_size) regions mappings)
        else map_blocks regions bat_table fuel' (i + 1) mappings
      else mappings
  end.
(** [m_logical_page_mappings] after [UpdateDBATMappings]. *)
Definition logical_page_mappings (bat_table : gmap Z Z) m : gmap Z Z :=
  map_blocks (physical_regions m) bat_table (Z.to_nat BAT_PAGE_COUNT) 0 ∅.

(** ** Updates *)

(** The page table in memory at the host pointer [p]. *)
Definition page_table_view (p : pointer) m (offset : Z) : Pte :=
  let at_ o := from_be (load (mem m) (match p with RamPtr a => RamPtr (a + o) | ExRamPtr a => ExRamPtr (a + o) end) 4) in
  (at_ offset, at_ (offset + 4)).
Definition clear_pages m : Machine W := with_page_tables ClearPageTable m.
Definition mmu_PageTableUpdated m : Machine W :=
  let m := with_update_pending false m in
  if negb WantsPageTableMappings then clear_pages m
  else
    let s := surroundings m in
    match GetPointerForRange (mem m) (m_pagetable_base m) (page_table_size s) with
    | None => clear_pages m
    | Some p => with_page_tables (PageTableUpdated s (page_table_view p m) (page_table_size s) (m_page_tables m)) m
    end.
(** [ReloadPageTable] *)
Definition mmu_ReloadPageTable m : Machine W :=
  let p := m_page_tables m in
  if WantsPageTableMappings then with_page_tables (ReloadPageTable (surroundings m) p) m
  else with_page_tables (mkPageTables ∅ 0 ∅ ∅) m.
Definition remove_host_mappings m : Machine W :=
  let p := m_page_tables m in
  with_page_tables (mkPageTables (m_page_table p) (m_page_table_size p) (m_page_mappings p) ∅) m.

Definition SDRUpdated m : Machine W :=
  let sdr := get_spr (ppc m) SPR_SDR in
  let htabmask := field sdr 0 9 in
  let htaborg := field sdr 16 16 in
  mmu_PageTableUpdated (with_pagetable (u32 (htaborg .<< 16)) ((htabmask .<< 16) .| 0xffc0) m).
Definition mmu_SRUpdated m : Machine W := mmu_ReloadPageTable (remove_host_mappings m).
Definition InvalidateTLBEntry (address : Z) m : Machine W :=
  let entry_index := (address .>> HW_PAGE_INDEX_SHIFT) .& HW_PAGE_INDEX_MASK in
  let invalid inst m :=
    let e := lookup_tlb inst entry_index m in
    put_tlb inst entry_index (mkTLBEntry (INVALID_TAG, INVALID_TAG) (paddr e) (vsid e) (pte e) (recent e)) m in
  let m := invalid true (invalid false m) in
  if DR m then mmu_PageTableUpdated m else with_update_pending true m.
(** [PowerPCManager::MSRUpdated] with the refresh that waits for address translation. *)
Definition mmu_MSRUpdated m : Machine W :=
  let m := on_ppc MSRUpdated m in
  if DR m && pagetable_update_pending m then mmu_PageTableUpdated m else m.
Definition DBATUpdated m : Machine W :=
  let m := with_dbat_table (bat_table_of SPR_DBAT0U SPR_DBAT4U m) m in
  let m := remove_host_mappings m in
  if m_page_table_size (m_page_tables m) =? 0 then m else mmu_ReloadPageTable m.
Definition IBATUpdated m : Machine W := with_ibat_table (bat_table_of SPR_IBAT0U SPR_IBAT4U m) m.

(** ** Questions of the recompilers and of the debugger *)

Context (HasAnyMemcheck : bool).

Definition IsOptimizableRAMAddress (address access_size : Z) m : bool :=
  if HasAnyMemcheck then false
  else if negb (DR m) then false
  else if m_enable_dcache m then false
  else
    let last_byte_address := u32 (address + (access_size .>> 3) - 1) in
    negb (bat_entry (m_dbat_table m) (address .>> BAT_INDEX_SHIFT) .& bat_entry (m_dbat_table m) (last_byte_address .>> BAT_INDEX_SHIFT)
      .& BAT_PHYSICAL_BIT =? 0).
Definition IsPhysicalRAMAddress (address : Z) m : bool :=
  let segment := address .>> 28 in
  if (segment =? 0x0) && ((address .& 0x0FFFFFFF) <? m_ram_size_real (mem m)) then true
  else if is_exram address m then true
  else if is_fake_vmem address m then true
  else is_l1 address.
Definition IsEffectiveRAMAddress (flag : XCheckTLBFlag.t) (address : Z) : M (Machine W) bool :=
  translate_address <- TranslateAddress flag address ;;
  get (fun m => Success translate_address && IsPhysicalRAMAddress (tr_address translate_address) m).
(** [MMIO::IsMMIOAddress] *)
Definition IsMMIOAddress (address : Z) : bool :=
  if address =? GATHER_PIPE_PHYSICAL_ADDRESS then false
  else if address .& 0xFFFF0000 =? 0x0C000000 then true
  else IsWii && ((address .& 0xFFFF0000 =? 0x0D000000) || (address .& 0xFFFF0000 =? 0x0D800000)).
Definition IsOptimizableMMIOAccess (address access_size : Z) m : Z :=
  if HasAnyMemcheck then 0
  else if negb (DR m) then 0
  else if m_enable_dcache m then 0
  else match TranslateBatAddress (m_dbat_table m) address with
       | None => 0
       | Some (address, _) =>
           let aligned := address .& ((access_size .>> 3) - 1) =? 0 in
           if negb aligned || negb (IsMMIOAddress address) then 0 else address
       end.
Definition IsOptimizableGatherPipeWrite (address : Z) m : bool :=
  if HasAnyMemcheck then false
  else if negb (DR m) then false
  else match TranslateBatAddress (m_dbat_table m) address with
       | None => false
       | Some (address, _) => address =? GATHER_PIPE_PHYSICAL_ADDRESS
       end.

Inductive RequestedAddressSpace := Effective | Physical | Virtual.
Definition HostIsRAMAddress (address : Z) (space : RequestedAddressSpace) : M (Machine W) bool :=
  on <- get DR ;;
  match space with
  | Effective =>
      if on then IsEffectiveRAMAddress XCheckTLBFlag.NoException address else get (IsPhysicalRAMAddress address)
  | Physical => get (IsPhysicalRAMAddress address)
  | Virtual => if on then IsEffectiveRAMAddress XCheckTLBFlag.NoException address else mret false
  end.
Definition HostIsInstructionRAMAddress (address : Z) (space : RequestedAddressSpace) : M (Machine W) bool :=
  if negb (address .& 3 =? 0) then mret false
  else
    on <- get IR ;;
    match space with
    | Effective =>
        if on then IsEffectiveRAMAddress XCheckTLBFlag.OpcodeNoException address else get (IsPhysicalRAMAddress address)
    | Physical => get (IsPhysicalRAMAddress address)
    | Virtual => if on then IsEffectiveRAMAddress XCheckTLBFlag.OpcodeNoException address else mret false
    end.
(** Whether the address was translated, and the value. *)
Definition HostTryRead (n : nat) (address : Z) (space : RequestedAddressSpace) : M (Machine W) (option (bool * Z)) :=
  ok <- HostIsRAMAddress address space ;;
  on <- get DR ;;
  if negb ok then mret None
  else match space with
       | Effective => value <- ReadFromHardware XCheckTLBFlag.NoException n address ;; mret (Some (on, value))
       | Physical => value <- ReadFromHardware_physical XCheckTLBFlag.NoException n address ;; mret (Some (false, value))
       | Virtual =>
           if negb on then mret None
           else value <- ReadFromHardware XCheckTLBFlag.NoException n address ;; mret (Some (true, value))
       end.
Definition HostTryReadInstruction (address : Z) (space : RequestedAddressSpace) : M (Machine W) (option (bool * Z)) :=
  ok <- HostIsInstructionRAMAddress address space ;;
  on <- get IR ;;
  if negb ok then mret None
  else match space with
       | Effective => value <- ReadFromHardware XCheckTLBFlag.OpcodeNoException 4 address ;; mret (Some (on, value))
       | Physical => value <- ReadFromHardware_physical XCheckTLBFlag.OpcodeNoException 4 address ;; mret (Some (false, value))
       | Virtual =>
           if negb on then mret None
           else value <- ReadFromHardware XCheckTLBFlag.OpcodeNoException 4 address ;; mret (Some (true, value))
       end.
Definition HostTryWrite (n : nat) (var address : Z) (space : RequestedAddressSpace) : M (Machine W) (option bool) :=
  ok <- HostIsRAMAddress address space ;;
  on <- get DR ;;
  if negb ok then mret None
  else match space with
       | Effective => WriteToHardware XCheckTLBFlag.NoException address var n ;;; mret (Some on)
       | Physical => WriteToHardware_physical XCheckTLBFlag.NoException address var n ;;; mret (Some false)
       | Virtual => if negb on then mret None else WriteToHardware XCheckTLBFlag.NoException address var n ;;; mret (Some true)
       end.
Definition HostTryWrite_u64 (var address : Z) (space : RequestedAddressSpace) : M (Machine W) (option bool) :=
  result <- HostTryWrite 4 (u32 (var .>> 32)) address space ;;
  match result with
  | None => mret None
  | Some _ => HostTryWrite 4 (u32 var) (u32 (address + 4)) space
  end.

End Bat.
