(* ===== verification/PPCBatSpec.v ===== *)
(** * Block address translation against its definition

    The table the BATs are expanded into gives the translation of the
    architecture, the last matching pair of registers winning; the host shows
    for every block what the table says. *)
From S2P Require Export PPCBat PPCPageSlots.

Section BatSpec.
Context {W : Type} {D : Devices W}.
Implicit Types m : Machine W.

(** ** The registers *)

(** The block with number [i] lies in the area of the pair of registers. *)
Definition bat_matches (batu i : Z) : bool :=
  (BAT_VS batu || BAT_VP batu) && (BAT_BEPI batu .| (i .& BAT_BL batu) =? i).
(** What the pair of registers gives for it. *)
Definition bat_translation (batu batl i : Z) m : Z :=
  let physical := (BAT_BRPN batl .| (i .& BAT_BL batu)) .<< BAT_INDEX_SHIFT in
  physical .| bat_flags (negb (BAT_WIMG batl .& 12 =? 0)) physical (i .<< BAT_INDEX_SHIFT) m.

Lemma BAT_BL_range batu : 0 <= BAT_BL batu < 2 ^ 11.
Proof. unfold BAT_BL, field. pose proof (land_mask_range (batu .>> 2) (2 ^ 11 - 1)). lia. Qed.

(** A pattern of the mask that leads to [i] is at most [i & BL], which leads to [i] as well. *)
Lemma bat_pattern bepi bl i j : 0 <= bl -> 0 <= j -> j .& bl = j -> bepi .| j = i ->
  j <= i .& bl /\ bepi .| (i .& bl) = i.
Proof.
  intros Hbl Hj0 Hj <-. split.
  - apply bits_le; [done|apply Z.land_nonneg; by right|]. intros k Hk Hb.
    rewrite Z.land_spec, Z.lor_spec, Hb, orb_true_r. rewrite <- Hj, Z.land_spec, andb_true_iff in Hb. by destruct Hb as [_ ->].
  - apply Z.bits_inj'. intros k Hk. rewrite !Z.lor_spec, Z.land_spec, Z.lor_spec.
    rewrite <- Hj, Z.land_spec. by destruct (Z.testbit bepi k), (Z.testbit j k), (Z.testbit bl k).
Qed.

Definition patterns (n : nat) : list Z := map Z.of_nat (seq 0 n).
Lemma patterns_S n : patterns (Datatypes.S n) = patterns n ++ [Z.of_nat n].
Proof. unfold patterns. by rewrite seq_S, map_app. Qed.

Lemma bat_fold batu batl m t i n : let g := i .& BAT_BL batu in
  (BAT_BEPI batu .| g = i -> g < Z.of_nat n ->
     fold_left (bat_block batu batl m) (patterns n) t !! i = Some (bat_translation batu batl i m)) /\
  (BAT_BEPI batu .| g <> i -> fold_left (bat_block batu batl m) (patterns n) t !! i = t !! i).
Proof.
  intros g. pose proof (BAT_BL_range batu) as Hbl.
  assert (Hg : g .& BAT_BL batu = g) by (unfold g; by rewrite <- Z.land_assoc, Z.land_diag).
  assert (Hg0 : 0 <= g) by (apply Z.land_nonneg; right; lia).
  assert (Hstep : forall t' j, 0 <= j -> bat_block batu batl m t' j !! i =
    if (j .& BAT_BL batu =? j) && (BAT_BEPI batu .| j =? i) then
      Some (((BAT_BRPN batl .| j) .<< BAT_INDEX_SHIFT) .|
        bat_flags (negb (BAT_WIMG batl .& 12 =? 0)) ((BAT_BRPN batl .| j) .<< BAT_INDEX_SHIFT) (i .<< BAT_INDEX_SHIFT) m)
    else t' !! i).
  { intros t' j Hj. unfold bat_block. destruct (_ .& _ =? j); cbn [andb]; [|done]. cbv zeta.
    rewrite Z.shiftr_shiftl_l by (unfold BAT_INDEX_SHIFT; lia). rewrite Z.sub_diag, Z.shiftl_0_r.
    destruct (Z.eqb_spec (BAT_BEPI batu .| j) i) as [E|Hne].
    - by rewrite E, lookup_insert_eq.
    - by rewrite lookup_insert_ne. }
  induction n as [|n [IH1 IH2]]; [split; [lia|done]|]. rewrite patterns_S, fold_left_app. cbn [fold_left].
  rewrite Hstep by lia. split.
  - intros Hgood Hlt. destruct (Z.eq_dec (Z.of_nat n) g) as [->|Hne].
    + rewrite Hg, Hgood, !Z.eqb_refl. done.
    + rewrite IH1 by (done || lia). destruct (Z.eqb_spec (Z.of_nat n .& BAT_BL batu) (Z.of_nat n)) as [E1|]; [|done].
      destruct (Z.eqb_spec (BAT_BEPI batu .| Z.of_nat n) i) as [E2|]; [|done]. cbn [andb].
      destruct (bat_pattern _ _ _ _ (proj1 Hbl) (Zle_0_nat n) E1 E2). unfold g in *. lia.
  - intros Hbad. rewrite IH2 by done. destruct (Z.eqb_spec (Z.of_nat n .& BAT_BL batu) (Z.of_nat n)) as [E1|]; [|done].
    destruct (Z.eqb_spec (BAT_BEPI batu .| Z.of_nat n) i) as [E2|]; [|done].
    by destruct (bat_pattern _ _ _ _ (proj1 Hbl) (Zle_0_nat n) E1 E2).
Qed.
Lemma UpdateBAT_lookup batu batl m t i :
  UpdateBAT batu batl m t !! i = if bat_matches batu i then Some (bat_translation batu batl i m) else t !! i.
Proof.
  unfold UpdateBAT, bat_matches. destruct (BAT_VS batu), (BAT_VP batu); cbn [negb andb orb]; try done.
  all: destruct (bat_fold batu batl m t i (Z.to_nat (BAT_BL batu + 1))) as [H1 H2].
  all: cbv zeta in H1, H2; unfold patterns in *; destruct (Z.eqb_spec (BAT_BEPI batu .| (i .& BAT_BL batu)) i); [|by apply H2].
  all: apply H1; [done|]; pose proof (BAT_BL_range batu);
    pose proof (land_mask_range i (BAT_BL batu)); lia.
Qed.

(** The pairs of registers, the one that decides first. *)
Definition bat_pair (base_spr : Z) m (k : Z) : Z * Z :=
  (get_spr (ppc m) (base_spr + 2 * k), get_spr (ppc m) (base_spr + 2 * k + 1)).
Definition bat_pairs (base_spr extended_spr : Z) m : list (Z * Z) :=
  (if IsWii && SBE m then map (bat_pair extended_spr m) [3; 2; 1; 0] else []) ++ map (bat_pair base_spr m) [3; 2; 1; 0].
Definition architected (pairs : list (Z * Z)) (i : Z) m : option Z :=
  (fun '(batu, batl) => bat_translation batu batl i m) <$> List.find (fun p => bat_matches (fst p) i) pairs.

Lemma UpdateBATs_lookup base m t i :
  UpdateBATs base m t !! i = match architected (map (bat_pair base m) [3; 2; 1; 0]) i m with Some e => Some e | None => t !! i end.
Proof.
  unfold UpdateBATs, architected. cbn [fold_left map List.find fst bat_pair]. rewrite !UpdateBAT_lookup.
  by destruct (bat_matches (get_spr (ppc m) (base + 2 * 3)) i), (bat_matches (get_spr (ppc m) (base + 2 * 2)) i),
    (bat_matches (get_spr (ppc m) (base + 2 * 1)) i), (bat_matches (get_spr (ppc m) (base + 2 * 0)) i).
Qed.
Lemma architected_app p q i m :
  architected (p ++ q) i m = match architected p i m with Some e => Some e | None => architected q i m end.
Proof. unfold architected. induction p as [|[u l] p IH]; [done|]. cbn [app List.find fst]. by destruct (bat_matches u i). Qed.
(** Where the fake memory is on, it fills the areas of 0x40000000 and 0x70000000 after all registers. *)
Definition fake_area (i : Z) m : bool := bool_decide (m_fake_vmem m <> None) && ((i .>> 11 =? 4) || (i .>> 11 =? 7)).
Definition fake_entry (i : Z) m : Z :=
  let flags := BAT_MAPPED_BIT .| BAT_PHYSICAL_BIT in
  (0x7E000000 .| (((i .& 0x7FF) .<< BAT_INDEX_SHIFT) .& m_fakevmem_mask (mem m))) .|
  (if memcheck_overlaps (i .<< BAT_INDEX_SHIFT) BAT_PAGE_SIZE then flags .& .~ BAT_PHYSICAL_BIT else flags).
Lemma fake_fold start m i n : start = 4 \/ start = 7 -> Z.of_nat n <= 2 ^ 11 -> forall t,
  fold_left (fake_bat_entry (start * 0x10000000) m) (patterns n) t !! i =
  if (start * 2 ^ 11 <=? i) && (i <? start * 2 ^ 11 + Z.of_nat n) then Some (fake_entry i m) else t !! i.
Proof.
  intros Hs. induction n as [|n IH]; intros Hn t.
  - cbn [patterns seq map fold_left]. destruct (Z.leb_spec (start * 2 ^ 11) i), (Z.ltb_spec i (start * 2 ^ 11 + Z.of_nat 0)); cbn [andb]; done || lia.
  - rewrite patterns_S, fold_left_app. cbn [fold_left]. unfold fake_bat_entry at 1. cbv zeta.
    replace ((start * 0x10000000) .>> BAT_INDEX_SHIFT) with (start * 2 ^ 11) by (destruct Hs as [-> | ->]; done).
    destruct (Z.eq_dec (Z.of_nat n + start * 2 ^ 11) i) as [<-|Hne].
    + rewrite lookup_insert_eq, (proj2 (Z.leb_le _ _)), (proj2 (Z.ltb_lt _ _)) by lia. cbn [andb]. unfold fake_entry. cbv zeta.
      do 5 f_equal. change 0x7FF with (Z.ones 11). rewrite Z.land_ones, Z.mod_add, Z.mod_small by lia. done.
    + rewrite lookup_insert_ne, IH by (done || lia). destruct (Z.leb_spec (start * 2 ^ 11) i); cbn [andb]; [|done].
      destruct (Z.ltb_spec i (start * 2 ^ 11 + Z.of_nat n)), (Z.ltb_spec i (start * 2 ^ 11 + Z.of_nat (Datatypes.S n))); done || lia.
Qed.
Lemma fake_lookup start m t i : start = 4 \/ start = 7 ->
  UpdateFakeMMUBat (start * 0x10000000) m t !! i = if i .>> 11 =? start then Some (fake_entry i m) else t !! i.
Proof.
  intros Hs. unfold UpdateFakeMMUBat. change (Z.to_nat (0x10000000 .>> BAT_INDEX_SHIFT)) with (Z.to_nat (2 ^ 11)).
  fold (patterns (Z.to_nat (2 ^ 11))). rewrite fake_fold by (done || lia). rewrite Z2Nat.id, Z.shiftr_div_pow2 by done.
  pose proof (Z.div_mod i (2 ^ 11) ltac:(done)). pose proof (Z.mod_pos_bound i (2 ^ 11) ltac:(done)).
  destruct (Z.leb_spec (start * 2 ^ 11) i), (Z.ltb_spec i (start * 2 ^ 11 + 2 ^ 11)), (Z.eqb_spec (i / 2 ^ 11) start); cbn [andb]; done || lia.
Qed.
Lemma bat_table_lookup base ext m i :
  bat_table_of base ext m !! i = if fake_area i m then Some (fake_entry i m) else architected (bat_pairs base ext m) i m.
Proof.
  unfold bat_table_of, bat_pairs, fake_area. rewrite architected_app. set (t := if IsWii && SBE m then _ else _).
  assert (Ht : t !! i = match architected (if IsWii && SBE m then map (bat_pair ext m) [3; 2; 1; 0] else []) i m with
    Some e => Some e | None => architected (map (bat_pair base m) [3; 2; 1; 0]) i m end).
  { unfold t. destruct (IsWii && SBE m); rewrite !UpdateBATs_lookup, ?lookup_empty;
      [destruct (architected (map (bat_pair ext m) _) i m); [done|]|change (architected [] i m) with (@None Z)]; by destruct (architected _ i m). }
  destruct (bool_decide_reflect (m_fake_vmem m <> None)); cbn [andb]; [|done].
  change 0x70000000 with (7 * 0x10000000). change 0x40000000 with (4 * 0x10000000). rewrite !fake_lookup, Ht by lia.
  destruct (Z.eqb_spec (i .>> 11) 7), (Z.eqb_spec (i .>> 11) 4); done.
Qed.
(** Where the area of a pair starts at a multiple of its length, matching is the comparison the
    architecture defines. *)
Lemma bat_matches_aligned batu i : BAT_BEPI batu .& BAT_BL batu = 0 ->
  bat_matches batu i = (BAT_VS batu || BAT_VP batu) && (i .& .~ BAT_BL batu =? BAT_BEPI batu).
Proof.
  intros Ha. unfold bat_matches. f_equal. apply eq_true_iff_eq. rewrite !Z.eqb_eq.
  assert (Hbit : forall k, Z.testbit (BAT_BEPI batu) k = true -> Z.testbit (BAT_BL batu) k = false).
  { intros k Hk. pose proof (f_equal (fun z => Z.testbit z k) Ha) as E. cbn beta in E.
    by rewrite Z.land_spec, Hk, Z.bits_0 in E. }
  split; intros E; apply Z.bits_inj'; intros k Hk; specialize (Hbit k);
    rewrite ?Z.lor_spec, ?Z.land_spec, ?Z.lnot_spec by done.
  - rewrite <- E, Z.lor_spec, Z.land_spec. destruct (Z.testbit (BAT_BEPI batu) k); [by rewrite Hbit|].
    by destruct (Z.testbit i k), (Z.testbit (BAT_BL batu) k).
  - rewrite <- E, Z.land_spec, Z.lnot_spec by done. by destruct (Z.testbit i k), (Z.testbit (BAT_BL batu) k).
Qed.

(** ** The host's mappings *)

(** A region covers a block. *)
Definition covers (region : Z * Z) (a : Z) : bool := (fst region <=? a) && (a + BAT_PAGE_SIZE <=? fst region + snd region).
Definition block_aligned (a : Z) : Prop := a mod BAT_PAGE_SIZE = 0.
Record blocks_ok (regions : Regions) (t : gmap Z Z) : Prop := {
  bo_regions : Forall (fun r => block_aligned (fst r) /\ block_aligned (snd r)) regions;
  bo_results : forall i, block_aligned (bat_result t i) /\ 0 <= bat_result t i;
  bo_backed : forall i, is_physical t i = true -> bat_result t i + BAT_PAGE_SIZE < 2 ^ 32 /\
    existsb (fun r => covers r (bat_result t i)) regions = true
}.

Lemma insert_progression n a b (mp : gmap Z Z) i :
  fold_left (fun mp j => <[a + j := b + j * BAT_PAGE_SIZE]> mp) (patterns n) mp !! i =
  if (a <=? i) && (i <? a + Z.of_nat n) then Some (b + (i - a) * BAT_PAGE_SIZE) else mp !! i.
Proof.
  induction n as [|n IH].
  - cbn [patterns seq map fold_left]. destruct (Z.leb_spec a i), (Z.ltb_spec i (a + Z.of_nat 0)); cbn [andb]; done || lia.
  - rewrite patterns_S, fold_left_app. cbn [fold_left]. destruct (Z.eq_dec (a + Z.of_nat n) i) as [<-|Hne].
    + rewrite lookup_insert_eq. rewrite (proj2 (Z.leb_le _ _)), (proj2 (Z.ltb_lt _ _)) by lia. cbn [andb]. do 2 f_equal. lia.
    + rewrite lookup_insert_ne, IH by done. destruct (Z.leb_spec a i); cbn [andb]; [|done].
      destruct (Z.ltb_spec i (a + Z.of_nat n)), (Z.ltb_spec i (a + Z.of_nat (Datatypes.S n))); done || lia.
Qed.
Lemma map_run_lookup i k translated mp region j : 0 <= i -> 0 < k -> i + k <= BAT_PAGE_COUNT ->
  block_aligned translated -> 0 <= translated -> translated + k * BAT_PAGE_SIZE < 2 ^ 32 ->
  block_aligned (fst region) -> block_aligned (snd region) ->
  map_run (i .<< BAT_INDEX_SHIFT) translated (k * BAT_PAGE_SIZE) mp region !! j =
  if ((i <=? j) && (j <? i + k)) && covers region (translated + (j - i) * BAT_PAGE_SIZE)
  then Some (translated + (j - i) * BAT_PAGE_SIZE) else mp !! j.
Proof.
  destruct region as [start size]. cbn [fst snd]. unfold block_aligned, covers. cbn [fst snd].
  intros Hi Hk Hc Ht Ht0 Hlt Hs Hz. unfold map_run. rewrite Z.shiftl_mul_pow2 by (unfold BAT_INDEX_SHIFT; lia).
  change (2 ^ BAT_INDEX_SHIFT) with BAT_PAGE_SIZE. change BAT_PAGE_COUNT with 0x8000 in Hc.
  change BAT_PAGE_SIZE with 0x20000 in *. apply Z.mod_divide in Ht as [t ->], Hs as [s ->], Hz as [z ->]; try lia.
  rewrite u32_id by (unfold is_u32; lia).
  destruct (Z.ltb_spec (Z.max (s * 0x20000) (t * 0x20000)) (Z.min (s * 0x20000 + z * 0x20000) (t * 0x20000 + k * 0x20000))) as [Hin|Hout].
  - set (first := Z.max s t). set (last := Z.min (s + z) (t + k)).
    replace (Z.max (s * 0x20000) (t * 0x20000)) with (first * 0x20000) by lia.
    replace (Z.min (s * 0x20000 + z * 0x20000) (t * 0x20000 + k * 0x20000)) with (last * 0x20000) by lia.
    replace (i * 0x20000 + first * 0x20000 - t * 0x20000) with ((i + first - t) * 0x20000) by lia.
    rewrite u32_id by (unfold is_u32; lia).
    replace (last * 0x20000 - first * 0x20000) with ((last - first) * 0x20000) by lia.
    rewrite !Z.div_mul by done. change 0x20000 with BAT_PAGE_SIZE. fold (patterns (Z.to_nat (last - first))).
    rewrite insert_progression, Z2Nat.id by lia. change BAT_PAGE_SIZE with 0x20000.
    destruct (Z.leb_spec (i + first - t) j), (Z.ltb_spec j (i + first - t + (last - first))), (Z.leb_spec i j), (Z.ltb_spec j (i + k));
      cbn [andb]; try lia;
      destruct (Z.leb_spec (s * 0x20000) (t * 0x20000 + (j - i) * 0x20000)); cbn [andb]; try lia;
      destruct (Z.leb_spec (t * 0x20000 + (j - i) * 0x20000 + 0x20000) (s * 0x20000 + z * 0x20000)); try lia; try done.
    f_equal. lia.
  - destruct (Z.leb_spec i j), (Z.ltb_spec j (i + k)); cbn [andb]; try done.
    destruct (Z.leb_spec (s * 0x20000) (t * 0x20000 + (j - i) * 0x20000)); cbn [andb]; try done.
    destruct (Z.leb_spec (t * 0x20000 + (j - i) * 0x20000 + 0x20000) (s * 0x20000 + z * 0x20000)); try done; lia.
Qed.
Lemma map_run_all i k translated regions j : 0 <= i -> 0 < k -> i + k <= BAT_PAGE_COUNT ->
  block_aligned translated -> 0 <= translated -> translated + k * BAT_PAGE_SIZE < 2 ^ 32 ->
  Forall (fun r => block_aligned (fst r) /\ block_aligned (snd r)) regions -> forall mp,
  fold_left (map_run (i .<< BAT_INDEX_SHIFT) translated (k * BAT_PAGE_SIZE)) regions mp !! j =
  if ((i <=? j) && (j <? i + k)) && existsb (fun r => covers r (translated + (j - i) * BAT_PAGE_SIZE)) regions
  then Some (translated + (j - i) * BAT_PAGE_SIZE) else mp !! j.
Proof.
  intros Hi Hk Hc Ht Ht0 Hlt Hr. induction Hr as [|r regions [Hr1 Hr2] _ IH]; intros mp; cbn [fold_left existsb]; [by rewrite andb_false_r|].
  rewrite IH, map_run_lookup by done.
  by destruct ((i <=? j) && (j <? i + k)), (covers r _), (existsb _ regions).
Qed.

(** The run of blocks found from [i] on. *)
Lemma extend_run_spec regions t (Hok : blocks_ok regions t) i : 0 <= i -> forall fuel n, 0 < n -> i + n <= BAT_PAGE_COUNT ->
  (forall q, 0 <= q < n -> is_physical t (i + q) = true /\ bat_result t (i + q) = bat_result t i + q * BAT_PAGE_SIZE) ->
  BAT_PAGE_COUNT - (i + n) < Z.of_nat fuel ->
  exists k, n <= k /\ i + k <= BAT_PAGE_COUNT /\
    (forall q, 0 <= q < k -> is_physical t (i + q) = true /\ bat_result t (i + q) = bat_result t i + q * BAT_PAGE_SIZE) /\
    exists last, extend_run t fuel (i + n - 1) (bat_result t i) (n * BAT_PAGE_SIZE) = (last, k * BAT_PAGE_SIZE) /\
      (last = i + k - 1 \/ last = i + k /\ is_physical t (i + k) = false).
Proof.
  intros Hi. induction fuel as [|fuel IH]; intros n Hn Hc Hrun Hf; [lia|]. cbn [extend_run].
  replace (i + n - 1 + 1) with (i + n) by lia. destruct (Z.ltb_spec (i + n) BAT_PAGE_COUNT) as [Hlt|Hge].
  - destruct (is_physical t (i + n)) eqn:Ep; cbn [negb].
    + destruct (Hrun (n - 1) ltac:(lia)) as [Hp Hr]. pose proof (proj1 (bo_backed _ _ Hok _ Hp)) as Hb. rewrite Hr in Hb.
      pose proof (proj2 (bo_results _ _ Hok i)) as H0.
      rewrite u32_id by (unfold is_u32; change BAT_PAGE_SIZE with 0x20000 in *; lia).
      destruct (Z.eqb_spec (bat_result t (i + n)) (bat_result t i + n * BAT_PAGE_SIZE)) as [E|]; cbn [negb].
      * replace (n * BAT_PAGE_SIZE + BAT_PAGE_SIZE) with ((n + 1) * BAT_PAGE_SIZE) by lia.
        destruct (IH (n + 1) ltac:(lia) ltac:(lia)) as (k & Hk & Hck & Hrk & Hl); [|lia|].
        -- intros q Hq. destruct (Z.eq_dec q n) as [->|]; [done|apply Hrun; lia].
        -- exists k. split; [lia|]. by replace (i + (n + 1) - 1) with (i + n) in Hl by lia.
      * exists n. split; [lia|]. split; [lia|]. split; [done|]. exists (i + n - 1). split; [done|by left].
    + exists n. split; [lia|]. split; [lia|]. split; [done|]. exists (i + n). split; [done|by right].
  - exists n. split; [lia|]. split; [lia|]. split; [done|]. exists (i + n - 1). split; [done|by left].
Qed.

Lemma map_blocks_lookup regions t (Hok : blocks_ok regions t) j : forall fuel i mp, 0 <= i -> BAT_PAGE_COUNT - i <= Z.of_nat fuel ->
  map_blocks regions t fuel i mp !! j =
  if (i <=? j) && (j <? BAT_PAGE_COUNT) && is_physical t j then Some (bat_result t j) else mp !! j.
Proof.
  induction fuel as [|fuel IH]; intros i mp Hi Hf.
  { cbn [map_blocks]. destruct (Z.leb_spec i j), (Z.ltb_spec j BAT_PAGE_COUNT); cbn [andb]; done || lia. }
  cbn [map_blocks]. destruct (Z.ltb_spec i BAT_PAGE_COUNT) as [Hlt|Hge].
  2: { destruct (Z.leb_spec i j), (Z.ltb_spec j BAT_PAGE_COUNT); cbn [andb]; done || lia. }
  destruct (is_physical t i) eqn:Ep.
  - destruct (extend_run_spec regions t Hok i Hi (Datatypes.S fuel) 1 ltac:(lia) ltac:(lia)) as (k & Hk & Hck & Hrun & last & El & Hlast).
    { intros q Hq. replace q with 0 by lia. rewrite Z.add_0_r, Z.mul_0_l, Z.add_0_r. done. }
    { lia. }
    replace (i + 1 - 1) with i in El by lia. rewrite Z.mul_1_l in El. rewrite El.
    destruct (bo_results _ _ Hok i) as [Ha H0]. destruct (Hrun (k - 1) ltac:(lia)) as [Hp Hr].
    pose proof (proj1 (bo_backed _ _ Hok _ Hp)) as Hb. rewrite Hr in Hb.
    rewrite IH by (destruct Hlast as [-> | [-> _]]; lia).
    rewrite map_run_all; [|done|lia|done|done|done|lia|apply (bo_regions _ _ Hok)].
    destruct (Z.leb_spec i j) as [Hij|Hij], (Z.ltb_spec j (i + k)) as [Hjk|Hjk]; cbn [andb].
    + destruct (Hrun (j - i) ltac:(lia)) as [Hpj Hrj]. replace (i + (j - i)) with j in * by lia.
      rewrite <- Hrj, (proj2 (bo_backed _ _ Hok _ Hpj)), Hpj.
      rewrite (proj2 (Z.ltb_lt j BAT_PAGE_COUNT)) by lia. cbn [andb]. destruct (_ && _); done.
    + destruct Hlast as [-> | [-> Hno]].
      * rewrite (proj2 (Z.leb_le (i + k - 1 + 1) j)) by lia. done.
      * destruct (Z.eq_dec j (i + k)) as [->|].
        -- by rewrite Hno, !andb_false_r.
        -- rewrite (proj2 (Z.leb_le (i + k + 1) j)) by lia. done.
    + rewrite (proj2 (Z.leb_gt (last + 1) j)) by (destruct Hlast as [-> | [-> _]]; lia). done.
    + lia.
  - rewrite IH by lia. destruct (Z.eq_dec i j) as [->|].
    + by rewrite Ep, !andb_false_r.
    + destruct (Z.leb_spec (i + 1) j), (Z.leb_spec i j); cbn [andb]; done || lia.
Qed.

(** ** The tables of the registers satisfy this *)

(** The sizes of the memories: what [Memmap.cpp] sets up, the configured sizes aside. *)
Record memory_sizes m : Prop := {
  ms_ram : block_aligned (m_ram_size (mem m)) /\ m_ram_size_real (mem m) <= m_ram_size (mem m) < 0xE0000000;
  ms_exram : block_aligned (m_exram_size (mem m)) /\ m_exram_size_real (mem m) <= m_exram_size (mem m) <= 0x10000000;
  ms_fake : m_fakevmem_size (mem m) = 0x02000000 /\ m_fakevmem_mask (mem m) = 0x01FFFFFF
}.

(** An entry of the table: a block, and if the host shows it, one of a region. *)
Definition entry_ok m (e : Z) : Prop :=
  block_aligned (e .& BAT_RESULT_MASK) /\ 0 <= e .& BAT_RESULT_MASK /\
  (e .& BAT_PHYSICAL_BIT <> 0 -> e .& BAT_RESULT_MASK + BAT_PAGE_SIZE < 2 ^ 32 /\
     existsb (fun r => covers r (e .& BAT_RESULT_MASK)) (physical_regions m) = true).

Lemma entry_parts x f : 0 <= x < 2 ^ 15 -> 0 <= f < 8 ->
  ((x .<< BAT_INDEX_SHIFT) .| f) .& BAT_RESULT_MASK = x * BAT_PAGE_SIZE /\
  ((x .<< BAT_INDEX_SHIFT) .| f) .& BAT_PHYSICAL_BIT = f .& BAT_PHYSICAL_BIT /\
  ((x .<< BAT_INDEX_SHIFT) .| f) .& BAT_MAPPED_BIT = f .& BAT_MAPPED_BIT /\
  ((x .<< BAT_INDEX_SHIFT) .| f) .& BAT_WI_BIT = f .& BAT_WI_BIT.
Proof.
  intros Hx Hf. assert (Hbit : forall b, 0 <= b < 3 -> ((x .<< BAT_INDEX_SHIFT) .| f) .& (2 ^ b) = f .& (2 ^ b)).
  { intros b Hb. rewrite Z.land_lor_distr_l. replace ((x .<< BAT_INDEX_SHIFT) .& 2 ^ b) with 0; [done|].
    symmetry. apply Z.bits_inj'. intros k Hk. rewrite Z.land_spec, Z.shiftl_spec, Z.bits_0 by done.
    rewrite Z.pow2_bits_eqb by lia. destruct (Z.eqb_spec b k) as [->|]; [|apply andb_false_r].
    change BAT_INDEX_SHIFT with 17. by rewrite Z.testbit_neg_r by lia. }
  split; [|split; [by apply (Hbit 1)|split; [by apply (Hbit 0)|by apply (Hbit 2)]]].
  change (x * BAT_PAGE_SIZE) with (x * 2 ^ BAT_INDEX_SHIFT). rewrite <- Z.shiftl_mul_pow2 by done.
    rewrite Z.land_lor_distr_l.
    replace (f .& BAT_RESULT_MASK) with 0 by (symmetry; clear Hx; assert (f = 0 \/ f = 1 \/ f = 2 \/ f = 3 \/ f = 4 \/ f = 5 \/ f = 6 \/ f = 7)
      as [->|[->|[->|[->|[->|[->|[->| ->]]]]]]] by lia; done).
    rewrite Z.lor_0_r. apply Z.bits_inj'. intros k Hk. rewrite Z.land_spec, Z.shiftl_spec by done.
    destruct (Z.ltb_spec k BAT_INDEX_SHIFT); [by rewrite Z.testbit_neg_r by lia|].
    destruct (Z.ltb_spec k 32).
    + replace (Z.testbit BAT_RESULT_MASK k) with true; [by rewrite andb_true_r|].
      symmetry. change BAT_RESULT_MASK with ((2 ^ 29 - 1) * 2 ^ 3). rewrite Z.mul_pow2_bits by done.
      change (2 ^ 29 - 1) with (Z.ones 29). apply Z.ones_spec_low. change BAT_INDEX_SHIFT with 17 in *. lia.
    + destruct (proj1 (bits_above_pow2 x 15 ltac:(lia)) Hx) as [_ Hb]. rewrite Hb; [done|change BAT_INDEX_SHIFT with 17; lia].
Qed.
Lemma high_bits v k n : 0 <= k -> 0 <= n -> 0 <= v < 2 ^ (k + n) -> v .& ((2 ^ n - 1) * 2 ^ k) = v / 2 ^ k * 2 ^ k.
Proof.
  intros Hk Hn Hv. rewrite <- !Z.shiftl_mul_pow2, <- Z.shiftr_div_pow2 by done. apply Z.bits_inj'. intros i Hi.
  rewrite Z.land_spec, !Z.shiftl_spec by done. destruct (Z.ltb_spec i k).
  { by rewrite !(Z.testbit_neg_r _ (i - k)), andb_false_r by lia. }
  rewrite Z.shiftr_spec, Z.sub_add by lia. replace (2 ^ n - 1) with (Z.ones n) by (rewrite Z.ones_equiv; lia).
  destruct (Z.ltb_spec (i - k) n).
  - by rewrite Z.ones_spec_low, andb_true_r by lia.
  - destruct (proj1 (bits_above_pow2 v (k + n) ltac:(lia)) Hv) as [_ Hb]. by rewrite Hb by lia.
Qed.

(** Memory the host shows lies, block by block, in a region. *)
Lemma host_memory_covered m x : memory_sizes m -> 0 <= x < 2 ^ 15 -> host_memory (x * BAT_PAGE_SIZE) m = true ->
  x * BAT_PAGE_SIZE + BAT_PAGE_SIZE < 2 ^ 32 /\ existsb (fun r => covers r (x * BAT_PAGE_SIZE)) (physical_regions m) = true.
Proof.
  intros [[Hr1 Hr2] [He1 He2] [Hf1 Hf2]] Hx. unfold host_memory, block_aligned in *. rewrite existsb_exists.
  change BAT_PAGE_SIZE with 0x20000 in *. apply Z.mod_divide in Hr1 as [r Hr1], He1 as [e He1]; try done.
  unfold covers. change BAT_PAGE_SIZE with 0x20000.
  change 0xFE000000 with ((2 ^ 7 - 1) * 2 ^ 25). rewrite high_bits by lia. change 0x0FFFFFFF with (Z.ones 28).
  rewrite Z.land_ones, Z.shiftr_div_pow2 by lia.
  assert (Hin : forall start size, In (start, size) (physical_regions m) -> start <= x * 0x20000 ->
    x * 0x20000 + 0x20000 <= start + size -> start + size < 2 ^ 32 -> x * 0x20000 + 0x20000 < 2 ^ 32 /\
    exists r, In r (physical_regions m) /\ (fst r <=? x * 0x20000) && (x * 0x20000 + 0x20000 <=? fst r + snd r) = true).
  { intros start size Hin H1 H2 H3. split; [lia|]. exists (start, size). split; [done|]. cbn [fst snd].
    by rewrite (proj2 (Z.leb_le _ _) H1), (proj2 (Z.leb_le _ _) H2). }
  pose proof (Z.div_mod (x * 0x20000) (2 ^ 25) ltac:(done)). pose proof (Z.mod_pos_bound (x * 0x20000) (2 ^ 25) ltac:(done)).
  pose proof (Z.div_mod (x * 0x20000) (2 ^ 28) ltac:(done)). pose proof (Z.mod_pos_bound (x * 0x20000) (2 ^ 28) ltac:(done)).
  unfold physical_regions in *. intros Hh.
  assert (Hcases : (m_fake_vmem m <> None /\ x * 0x20000 / 2 ^ 25 * 2 ^ 25 = 0x7E000000) \/
    x * 0x20000 < m_ram_size_real (mem m) \/
    (m_exram (mem m) <> None /\ x * 0x20000 / 2 ^ 28 = 1 /\ (x * 0x20000) mod 2 ^ 28 < m_exram_size_real (mem m)) \/
    (x * 0x20000 / 2 ^ 28 = 14 /\ x * 0x20000 < 0xE0000000 + L1_CACHE_SIZE)).
  { revert Hh. destruct (bool_decide_reflect (m_fake_vmem m <> None)), (Z.eqb_spec (x * 0x20000 / 2 ^ 25 * 2 ^ 25) 0x7E000000),
      (Z.ltb_spec (x * 0x20000) (m_ram_size_real (mem m))), (bool_decide_reflect (m_exram (mem m) <> None)),
      (Z.eqb_spec (x * 0x20000 / 2 ^ 28) 1), (Z.ltb_spec ((x * 0x20000) mod 2 ^ 28) (m_exram_size_real (mem m))),
      (Z.eqb_spec (x * 0x20000 / 2 ^ 28) 0xE), (Z.ltb_spec (x * 0x20000) (0xE0000000 + L1_CACHE_SIZE)); cbn [andb]; tauto || done. }
  unfold L1_CACHE_SIZE in *. destruct Hcases as [[Hp Hc] | [Hc | [(Hp & Hc & Hc2) | [Hc Hc2]]]].
  - destruct (m_fake_vmem m); [|done]. rewrite Hf1 in *. apply (Hin 0x7E000000 0x02000000); [by right; right; left|lia..].
  - apply (Hin 0 (m_ram_size (mem m))); [by left|lia..].
  - destruct (m_exram (mem m)); [|done]. apply (Hin 0x10000000 (m_exram_size (mem m))); [|lia..].
    right; right. apply in_or_app. right. by left.
  - apply (Hin 0xE0000000 0x40000); [by right; left|lia..].
Qed.
(** The form of the entries: a block, and the flags for it. *)
Definition entry_of m (i x : Z) (wi : bool) : Z :=
  (x .<< BAT_INDEX_SHIFT) .| bat_flags wi (x .<< BAT_INDEX_SHIFT) (i .<< BAT_INDEX_SHIFT) m.
Definition entry_shape m (i e : Z) : Prop := exists x wi, 0 <= x < 2 ^ 15 /\ e = entry_of m i x wi.

Lemma bat_flags_spec wi p v m : 0 <= bat_flags wi p v m < 8 /\ bat_flags wi p v m .& BAT_MAPPED_BIT <> 0 /\
  negb (bat_flags wi p v m .& BAT_WI_BIT =? 0) = wi /\
  negb (bat_flags wi p v m .& BAT_PHYSICAL_BIT =? 0) = negb wi && host_memory p m && negb (memcheck_overlaps v BAT_PAGE_SIZE).
Proof.
  unfold bat_flags. destruct wi, (host_memory p m); cbn [negb andb]; destruct (memcheck_overlaps v BAT_PAGE_SIZE); done.
Qed.
Lemma entry_shape_ok m (Hm : memory_sizes m) i e : entry_shape m i e -> entry_ok m e.
Proof.
  intros (x & wi & Hx & ->). unfold entry_of, entry_ok, block_aligned.
  destruct (bat_flags_spec wi (x .<< BAT_INDEX_SHIFT) (i .<< BAT_INDEX_SHIFT) m) as (Hf & _ & _ & Hp).
  destruct (entry_parts x _ Hx Hf) as (E1 & E2 & _). rewrite E1, E2.
  split; [by apply Z.mod_mul|]. split; [change BAT_PAGE_SIZE with 0x20000; lia|]. intros H. apply host_memory_covered; [done|done|].
  apply Z.eqb_neq, negb_true_iff in H. rewrite H, Z.shiftl_mul_pow2 in Hp by done.
  symmetry in Hp. apply andb_true_iff in Hp as [Hp _]. by apply andb_true_iff in Hp as [_ ?].
Qed.

Definition shaped m (t : gmap Z Z) : Prop := forall i e, t !! i = Some e -> entry_shape m i e.
Lemma shaped_insert m t i e : entry_shape m i e -> shaped m t -> shaped m (<[i := e]> t).
Proof. intros He Ht j e' [[<- <-] | [_ H]]%lookup_insert_Some; [done|by apply Ht]. Qed.
Lemma bat_block_ok m batu batl t j : 0 <= j < 2 ^ 11 -> shaped m t -> shaped m (bat_block batu batl m t j).
Proof.
  intros Hj Ht. unfold bat_block. destruct (_ =? j); [|done]. cbv zeta.
  rewrite Z.shiftr_shiftl_l, Z.sub_diag, Z.shiftl_0_r by done. apply shaped_insert; [|done].
  exists (BAT_BRPN batl .| j), (negb (BAT_WIMG batl .& 12 =? 0)). split; [|done].
  pose proof (land_mask_range (batl .>> 17) (2 ^ 15 - 1) ltac:(done)).
  apply (lor_range_pow2 15); [done|unfold BAT_BRPN, field|]; lia.
Qed.
(** The blocks of the fake memory. *)
Lemma fake_block m j : m_fakevmem_mask (mem m) = 0x01FFFFFF ->
  0x7E000000 .| ((j .<< BAT_INDEX_SHIFT) .& m_fakevmem_mask (mem m)) = (0x3F00 .| (j .& 0xFF)) .<< BAT_INDEX_SHIFT.
Proof.
  intros ->. rewrite Z.shiftl_lor. f_equal. apply Z.bits_inj'. intros k Hk.
  rewrite Z.land_spec, !Z.shiftl_spec, Z.land_spec by done.
  change 0x01FFFFFF with (Z.ones 25). change 0xFF with (Z.ones 8). change BAT_INDEX_SHIFT with 17.
  rewrite !Z.testbit_ones by done. destruct (Z.leb_spec 0 (k - 17)), (Z.ltb_spec (k - 17) 8), (Z.leb_spec 0 k), (Z.ltb_spec k 25);
    try lia; cbn [andb]; try done. by rewrite Z.testbit_neg_r by lia.
Qed.
Lemma fake_entry_ok m (Hm : memory_sizes m) start t j : m_fake_vmem m <> None -> shaped m t -> shaped m (fake_bat_entry start m t j).
Proof.
  intros Hf Ht. unfold fake_bat_entry. rewrite fake_block by apply Hm. apply shaped_insert; [|done].
  pose proof (land_mask_range j 0xFF ltac:(done)). exists (0x3F00 .| (j .& 0xFF)), false.
  split; [apply (lor_range_pow2 15); lia|]. unfold entry_of, bat_flags, host_memory. rewrite bool_decide_eq_true_2 by done.
  assert (Hall : forallb (fun g => ((0x3F00 .| g) .<< BAT_INDEX_SHIFT) .& 0xFE000000 =? 0x7E000000) (patterns 256) = true) by (vm_compute; done).
  rewrite forallb_forall in Hall. rewrite (Hall (j .& 0xFF)); [done|]. unfold patterns. rewrite in_map_iff.
  exists (Z.to_nat (j .& 0xFF)). rewrite in_seq. lia.
Qed.

Lemma fold_keeps {A B} (Q : A -> Prop) (R : B -> Prop) (f : A -> B -> A) l a :
  (forall a b, R b -> Q a -> Q (f a b)) -> Forall R l -> Q a -> Q (fold_left f l a).
Proof. intros Hf Hl. revert a. induction Hl as [|b l Hb _ IH]; intros a Ha; [done|]. apply IH, Hf; done. Qed.
Lemma patterns_bound n : Forall (fun j => 0 <= j < Z.of_nat n) (patterns n).
Proof. apply List.Forall_forall. intros j (k & <- & Hk)%in_map_iff. apply in_seq in Hk. lia. Qed.
Lemma UpdateBATs_ok m base t : shaped m t -> shaped m (UpdateBATs base m t).
Proof.
  intros H0. apply (fold_keeps (shaped m) (fun _ => True)); [|by apply Forall_true|done]. intros t' i _ Ht. unfold UpdateBAT.
  destruct (_ && _); [done|]. apply (fold_keeps (shaped m) (fun j => 0 <= j < 2 ^ 11)); [| |done].
  { intros. by apply bat_block_ok. }
  eapply Forall_impl; [apply patterns_bound|]. cbn. intros j Hj.
  pose proof (BAT_BL_range (get_spr (ppc m) (base + 2 * i))). lia.
Qed.
Lemma bat_table_shaped m (Hm : memory_sizes m) base ext : shaped m (bat_table_of base ext m).
Proof.
  unfold bat_table_of. assert (H1 : shaped m (UpdateBATs base m ∅)) by (apply UpdateBATs_ok; by intros ? ? ?%lookup_empty_Some).
  set (t := if IsWii && SBE m then _ else _). assert (Ht : shaped m t).
  { unfold t. destruct (_ && _); [by apply UpdateBATs_ok|done]. }
  destruct (bool_decide_reflect (m_fake_vmem m <> None)); [|done].
  assert (Hfake : forall start t, shaped m t -> shaped m (UpdateFakeMMUBat start m t)).
  { intros start t' Ht'. apply (fold_keeps (shaped m) (fun _ => True)); [|by apply Forall_true|done].
    intros. by apply fake_entry_ok. }
  by apply Hfake, Hfake.
Qed.
Lemma bat_table_blocks_ok m (Hm : memory_sizes m) base ext : blocks_ok (physical_regions m) (bat_table_of base ext m).
Proof.
  assert (He : forall i, entry_ok m (bat_entry (bat_table_of base ext m) i)).
  { intros i. unfold bat_entry. destruct (_ !! i) as [e|] eqn:E; cbn [default]; [|by split].
    by eapply entry_shape_ok, (bat_table_shaped m Hm base ext). }
  destruct Hm as [[Hr _] [Hx _] [Hf _]]. split.
  - unfold physical_regions, block_aligned in *. rewrite !Forall_cons, Forall_app. cbn [fst snd]. split; [by split|]. split; [by split|]. split.
    + destruct (m_fake_vmem m); [|done]. apply Forall_singleton. cbn [fst snd]. by rewrite Hf.
    + destruct (m_exram (mem m)); [|done]. by apply Forall_singleton.
  - intros i. by destruct (He i) as (? & ? & _).
  - intros i Hi. destruct (He i) as (_ & _ & H). apply H. unfold is_physical in Hi. apply negb_true_iff, Z.eqb_neq in Hi. done.
Qed.

(** ** The two theorems *)

Lemma block_of x off : 0 <= off < BAT_PAGE_SIZE ->
  ((x .<< BAT_INDEX_SHIFT) .| off) .& .~ (BAT_PAGE_SIZE - 1) = x .<< BAT_INDEX_SHIFT.
Proof.
  intros Hoff. destruct (proj1 (bits_above_pow2 off 17 ltac:(done)) Hoff) as [_ Hb].
  apply Z.bits_inj'. intros k Hk. rewrite Z.land_spec, Z.lor_spec, Z.lnot_spec, Z.shiftl_spec by done.
  change (BAT_PAGE_SIZE - 1) with (Z.ones 17). change BAT_INDEX_SHIFT with 17. destruct (Z.ltb_spec k 17).
  - by rewrite Z.ones_spec_low, andb_false_r, Z.testbit_neg_r by lia.
  - by rewrite Z.ones_spec_high, Hb, orb_false_r, andb_true_r by lia.
Qed.
Lemma block_address address : address .& .~ (BAT_PAGE_SIZE - 1) = (address .>> BAT_INDEX_SHIFT) .<< BAT_INDEX_SHIFT.
Proof.
  change (BAT_PAGE_SIZE - 1) with (Z.ones BAT_INDEX_SHIFT). rewrite <- Z.ldiff_ones_r by done.
  by rewrite <- Z.land_lnot_diag || by rewrite Z.ldiff_land.
Qed.
Lemma TranslateBatAddress_entry m t address x wi : t !! (address .>> BAT_INDEX_SHIFT) = Some (entry_of m (address .>> BAT_INDEX_SHIFT) x wi) ->
  0 <= x < 2 ^ 15 ->
  TranslateBatAddress t address = Some ((x .<< BAT_INDEX_SHIFT) .| (address .& (BAT_PAGE_SIZE - 1)), wi).
Proof.
  intros E Hx. unfold TranslateBatAddress, bat_entry. rewrite E. cbn [default]. cbv zeta. unfold entry_of, id.
  destruct (bat_flags_spec wi (x .<< BAT_INDEX_SHIFT) ((address .>> BAT_INDEX_SHIFT) .<< BAT_INDEX_SHIFT) m) as (Hf & Hm & Hw & _). destruct (entry_parts x _ Hx Hf) as (E1 & _ & E3 & E4).
  rewrite E1, E3, E4, Hw. rewrite (proj2 (Z.eqb_neq _ _) Hm). by rewrite (Z.shiftl_mul_pow2 x BAT_INDEX_SHIFT) by done.
Qed.
Lemma TranslateBatAddress_unmapped t address : t !! (address .>> BAT_INDEX_SHIFT) = None -> TranslateBatAddress t address = None.
Proof. intros E. unfold TranslateBatAddress, bat_entry. by rewrite E. Qed.

Lemma TranslateBatAddress_fake t m address : m_fakevmem_mask (mem m) = 0x01FFFFFF ->
  t !! (address .>> BAT_INDEX_SHIFT) = Some (fake_entry (address .>> BAT_INDEX_SHIFT) m) ->
  TranslateBatAddress t address = Some (0x7E000000 .| (address .& 0x01FFFFFF), false).
Proof.
  intros Hmask E. set (x := 0x3F00 .| ((address .>> BAT_INDEX_SHIFT) .& 0xFF)).
  assert (Hx : 0 <= x < 2 ^ 15).
  { pose proof (land_mask_range (address .>> BAT_INDEX_SHIFT) 0xFF ltac:(done)). apply (lor_range_pow2 15); lia. }
  assert (Eb : 0x7E000000 .| ((((address .>> BAT_INDEX_SHIFT) .& 0x7FF) .<< BAT_INDEX_SHIFT) .& m_fakevmem_mask (mem m)) = x .<< BAT_INDEX_SHIFT).
  { rewrite fake_block by done. unfold x. do 2 f_equal. by rewrite <- Z.land_assoc. }
  unfold TranslateBatAddress, bat_entry. rewrite E. cbn [default]. cbv zeta. unfold fake_entry, id. rewrite Eb.
  set (f := if memcheck_overlaps _ _ then _ else _). assert (Hf : f = 1 \/ f = 3) by (unfold f; destruct (memcheck_overlaps _ _); [by left|by right]).
  destruct (entry_parts x f Hx ltac:(lia)) as (E1 & _ & E3 & E4). rewrite E1, E3, E4.
  replace (f .& BAT_MAPPED_BIT =? 0) with false by (destruct Hf as [-> | ->]; done).
  replace (f .& BAT_WI_BIT =? 0) with true by (destruct Hf as [-> | ->]; done). cbn [negb]. do 2 f_equal.
  unfold x. change BAT_PAGE_SIZE with (2 ^ 17). rewrite <- Z.shiftl_mul_pow2, Z.shiftl_lor, <- Z.lor_assoc by done.
  change (0x3F00 .<< BAT_INDEX_SHIFT) with 0x7E000000. f_equal. change (2 ^ 17 - 1) with (Z.ones 17).
  change 0xFF with (Z.ones 8). change 0x01FFFFFF with (Z.ones 25). change BAT_INDEX_SHIFT with 17.
  apply Z.bits_inj'. intros k Hk. rewrite Z.lor_spec, Z.shiftl_spec, !Z.land_spec, !Z.testbit_ones by done.
  destruct (Z.ltb_spec k 17).
  - rewrite (Z.testbit_neg_r _ (k - 17)) by lia. rewrite (proj2 (Z.leb_le 0 k)), (proj2 (Z.ltb_lt k 25)) by lia. done.
  - rewrite Z.shiftr_spec, Z.sub_add by lia. rewrite (proj2 (Z.leb_le 0 k)), (proj2 (Z.leb_le 0 (k - 17))) by lia. cbn [andb].
    rewrite andb_false_r, orb_false_r. f_equal. destruct (Z.ltb_spec (k - 17) 8), (Z.ltb_spec k 25); done || lia.
Qed.

(** C18. With the fake memory on, an address of its two areas goes to it whatever the registers hold.
    Every other address is translated by the last valid pair of registers (those of the Wii after the
    others) one of whose patterns BEPI | j, for a submask j of BL, is the block of the address: the page
    number BRPN and the masked block give the result with the offset, the W and I bits of the pair say
    whether the caches are left out. For a pair whose area starts at a multiple of its length this is
    the comparison of the block without the bits of BL with BEPI. *)
Theorem blocks_translate_by_the_registers base ext m address : m_fakevmem_mask (mem m) = 0x01FFFFFF ->
  TranslateBatAddress (bat_table_of base ext m) address =
  (if bool_decide (m_fake_vmem m <> None) && ((address .>> 28 =? 4) || (address .>> 28 =? 7))
   then Some (0x7E000000 .| (address .& 0x01FFFFFF), false)
   else (fun '(batu, batl) =>
     (((BAT_BRPN batl .| ((address .>> BAT_INDEX_SHIFT) .& BAT_BL batu)) .<< BAT_INDEX_SHIFT) .| (address .& (BAT_PAGE_SIZE - 1)),
      negb (BAT_WIMG batl .& 12 =? 0)))
   <$> List.find (fun p => bat_matches (fst p) (address .>> BAT_INDEX_SHIFT)) (bat_pairs base ext m)) /\
  (forall batu batl, In (batu, batl) (bat_pairs base ext m) -> BAT_BEPI batu .& BAT_BL batu = 0 ->
     bat_matches batu (address .>> BAT_INDEX_SHIFT) =
     (BAT_VS batu || BAT_VP batu) && ((address .>> BAT_INDEX_SHIFT) .& .~ BAT_BL batu =? BAT_BEPI batu)).
Proof.
  intros Hmask. split; [|intros batu batl _; apply bat_matches_aligned].
  pose proof (bat_table_lookup base ext m (address .>> BAT_INDEX_SHIFT)) as E. unfold fake_area, architected in E.
  rewrite Z.shiftr_shiftr in E by done. change (BAT_INDEX_SHIFT + 11) with 28 in E.
  destruct (bool_decide (m_fake_vmem m <> None) && _); [exact (TranslateBatAddress_fake _ m address Hmask E)|].
  destruct (List.find _ _) as [[batu batl]|]; cbn [fmap option_fmap option_map] in *.
  - eapply TranslateBatAddress_entry; [exact E|].
    pose proof (land_mask_range (batl .>> 17) (2 ^ 15 - 1) ltac:(done)). pose proof (BAT_BL_range batu).
    pose proof (land_mask_range (address .>> BAT_INDEX_SHIFT) (BAT_BL batu)).
    apply (lor_range_pow2 15); [done|unfold BAT_BRPN, field|]; lia.
  - by apply TranslateBatAddress_unmapped.
Qed.

(** C27. With the memory sizes of [Memmap.cpp], the blocks the host maps for the data BATs are
    exactly those that [TranslateBatAddress] translates to cached memory without a memory check,
    at the address it translates them to. *)
Theorem host_shows_block_translation m address : memory_sizes m -> is_u32 address ->
  let t := bat_table_of SPR_DBAT0U SPR_DBAT4U m in
  logical_page_mappings t m !! (address .>> BAT_INDEX_SHIFT) =
  match TranslateBatAddress t address with
  | Some (physical, false) =>
      let block := physical .& .~ (BAT_PAGE_SIZE - 1) in
      if host_memory block m && negb (memcheck_overlaps (address .& .~ (BAT_PAGE_SIZE - 1)) BAT_PAGE_SIZE) then Some block else None
  | _ => None
  end.
Proof.
  intros Hm Ha t. unfold logical_page_mappings. rewrite map_blocks_lookup; [|by apply bat_table_blocks_ok|done|rewrite Z2Nat.id by done; lia].
  assert (Hi : 0 <= address .>> BAT_INDEX_SHIFT < BAT_PAGE_COUNT).
  { change BAT_PAGE_COUNT with (2 ^ 15). rewrite Z.shiftr_div_pow2 by done. change BAT_INDEX_SHIFT with 17. unfold is_u32 in Ha.
    split; [apply Z.div_pos; lia|apply Z.div_lt_upper_bound; lia]. }
  rewrite (proj2 (Z.leb_le _ _)), (proj2 (Z.ltb_lt _ _)), lookup_empty by lia. cbn [andb].
  unfold is_physical, bat_result, bat_entry. destruct (t !! (address .>> BAT_INDEX_SHIFT)) as [e|] eqn:E; cbn [default].
  - destruct (bat_table_shaped m Hm SPR_DBAT0U SPR_DBAT4U _ _ E) as (x & wi & Hx & ->).
    rewrite (TranslateBatAddress_entry m t address x wi E Hx). unfold entry_of, id.
    destruct (bat_flags_spec wi (x .<< BAT_INDEX_SHIFT) ((address .>> BAT_INDEX_SHIFT) .<< BAT_INDEX_SHIFT) m) as (Hf & _ & _ & Hp).
    destruct (entry_parts x _ Hx Hf) as (E1 & E2 & _). rewrite E1, E2, Hp.
    clear E E1 E2 Hp Hf. destruct wi; cbn [negb andb]; [done|]. cbv zeta. rewrite (block_address address).
    rewrite block_of; [by rewrite (Z.shiftl_mul_pow2 x)|].
    pose proof (land_mask_range address (BAT_PAGE_SIZE - 1)). change BAT_PAGE_SIZE with 0x20000 in *. lia.
  - by rewrite TranslateBatAddress_unmapped.
Qed.

End BatSpec.

(** ** Examples *)

(** A GameCube whose data BAT 0 shows the first 16 MiB of memory at 0x80000000. *)
Definition mapped_state : PowerPCState :=
  set_spr SPR_DBAT0U 0x800001FF (set_spr (SPR_DBAT0U + 1) 0x00000002 (mkPPC 0 0 [] [] [] 0 0 0 0 0 0 0 (replicate 16 0) ∅ false)).
Definition mapped_machine : Machine unit := quiet_machine mapped_state (Memmap.Init MEM1_SIZE_RETAIL MEM2_SIZE_RETAIL false).
Lemma mapped_sizes : memory_sizes mapped_machine.
Proof. split; (split; [done|]); cbn; unfold MEM1_SIZE_RETAIL, MEM2_SIZE_RETAIL; try done; vm_compute; done. Qed.

(** The same machine with the fake memory. *)
Definition fake_machine : Machine unit := with_fake_vmem (Some ∅) mapped_machine.

Lemma blocks_translate_by_the_registers_witness :
  TranslateBatAddress (bat_table_of (D := quiet_devices false) SPR_DBAT0U SPR_DBAT4U mapped_machine) 0x80123456 = Some (0x123456, false) /\
  TranslateBatAddress (bat_table_of (D := quiet_devices false) SPR_DBAT0U SPR_DBAT4U mapped_machine) 0x81123456 = None /\
  TranslateBatAddress (bat_table_of (D := quiet_devices false) SPR_DBAT0U SPR_DBAT4U fake_machine) 0x80123456 = Some (0x123456, false) /\
  TranslateBatAddress (bat_table_of (D := quiet_devices false) SPR_DBAT0U SPR_DBAT4U fake_machine) 0x46123456 = Some (0x7E123456, false).
Proof.
  split_and!; (etransitivity; [refine (proj1 (blocks_translate_by_the_registers (D := quiet_devices false) _ _ _ _ _)); reflexivity|vm_compute; reflexivity]).
Defined.
Lemma host_shows_block_translation_witness :
  logical_page_mappings (bat_table_of (D := quiet_devices false) SPR_DBAT0U SPR_DBAT4U mapped_machine) mapped_machine
    !! (0x80123456 .>> BAT_INDEX_SHIFT) = Some 0x120000.
Proof.
  rewrite (host_shows_block_translation (D := quiet_devices false)); [vm_compute; reflexivity|exact mapped_sizes|split; reflexivity || lia].
Defined.
