(* ===== verification/GatherPipeSpec.v ===== *)
(** * The gather pipe is a stream of bytes

    Stores of any width only append their bytes; blocks of 32 bytes leave in the
    order of the stores, and what the processor interface's interrupts are for. *)
From S2P Require Export GatherPipe.

Section GatherPipeSpec.
Context {W : Type} {D : Devices W}.
Implicit Types m : Machine W.

(** ** Blocks *)

(** The full blocks of 32 bytes, and the bytes that are left. *)
Fixpoint blocks_of (n : nat) (bytes : list Z) : list (list Z) :=
  match n with
  | O => []
  | S n' => firstn 32 bytes :: blocks_of n' (drop 32 bytes)
  end.
Definition blocks (bytes : list Z) : list (list Z) := blocks_of (length bytes / 32) bytes.
Definition spill (bytes : list Z) : list Z := drop (32 * (length bytes / 32)) bytes.
Definition bursts (bs : list (list Z)) m : Machine W := fold_left (fun m b => burst b m) bs m.

Lemma spill_short bytes : (length (spill bytes) < 32)%nat.
Proof.
  unfold spill. rewrite length_drop. pose proof (Nat.div_mod_eq (length bytes) 32).
  pose proof (Nat.mod_upper_bound (length bytes) 32). lia.
Qed.
Lemma blocks_short bytes : (length bytes < 32)%nat -> blocks bytes = [] /\ spill bytes = bytes.
Proof. intros H. unfold blocks, spill. by rewrite Nat.div_small. Qed.
Lemma blocks_app n a b : (32 * n <= length a)%nat -> blocks_of n (a ++ b) = blocks_of n a.
Proof.
  revert a. induction n as [|n IH]; intros a H; [done|]. cbn [blocks_of]. rewrite take_app_le, drop_app_le by lia.
  by rewrite IH by (rewrite length_drop; lia).
Qed.
Lemma blocks_more n k a : (32 * n <= length a)%nat ->
  blocks_of (n + k) a = blocks_of n a ++ blocks_of k (drop (32 * n) a).
Proof.
  revert a. induction n as [|n IH]; intros a H; [done|]. cbn [Nat.add blocks_of app]. f_equal.
  rewrite IH by (rewrite length_drop; lia). rewrite drop_drop. do 2 f_equal. f_equal. lia.
Qed.
(** Taking blocks out before more bytes arrive changes nothing. *)
Lemma blocks_stream a b : blocks (a ++ b) = blocks a ++ blocks (spill a ++ b) /\ spill (a ++ b) = spill (spill a ++ b).
Proof.
  unfold blocks, spill. set (n := (length a / 32)%nat).
  assert (Hn : (32 * n <= length a)%nat) by (unfold n; pose proof (Nat.div_mod_eq (length a) 32); lia).
  assert (E : (length (a ++ b) / 32 = n + length (drop (32 * n) a ++ b) / 32)%nat).
  { rewrite !length_app, length_drop. replace (length a + length b)%nat with (length a - 32 * n + length b + n * 32)%nat by lia.
    rewrite Nat.div_add by lia. lia. }
  assert (Ed : drop (32 * n) (a ++ b) = drop (32 * n) a ++ b).
  { by apply drop_app_le. }
  rewrite E. split.
  - rewrite blocks_more by (rewrite length_app; lia). rewrite blocks_app by done. by rewrite Ed.
  - rewrite Nat.mul_add_distr_l, <- drop_drop, Ed. done.
Qed.

(** ** What the pipe relies on *)

(** The command processor, which is told of every burst, changes neither the gather
    pipe nor the memory nor the pointers of the ring. *)
Class BurstsLeavePipe : Prop := {
  burst_pipe : forall m p, GatherPipeBursted (with_gather_pipe p m) = with_gather_pipe p (GatherPipeBursted m);
  burst_mem : forall m, mem (GatherPipeBursted m) = mem m;
  burst_pi : forall m, processor_interface (GatherPipeBursted m) = processor_interface m
}.
Context {Law : BurstsLeavePipe}.

Lemma with_gather_pipe_same m : with_gather_pipe (m_gather_pipe m) m = m.
Proof. by destruct m. Qed.
Lemma burst_with_pipe b p m : burst b (with_gather_pipe p m) = with_gather_pipe p (burst b m).
Proof. unfold burst. rewrite <- burst_pipe. by destruct m. Qed.
Lemma burst_keeps_pipe b m : m_gather_pipe (burst b m) = m_gather_pipe m.
Proof. rewrite <- (with_gather_pipe_same m) at 1. by rewrite burst_with_pipe. Qed.
Lemma bursts_with_pipe bs p m : bursts bs (with_gather_pipe p m) = with_gather_pipe p (bursts bs m).
Proof. revert m. induction bs as [|b bs IH]; intros m; [done|]. cbn [bursts fold_left]. rewrite burst_with_pipe. apply IH. Qed.
Lemma bursts_app bs bs' m : bursts (bs ++ bs') m = bursts bs' (bursts bs m).
Proof. apply fold_left_app. Qed.

(** ** The loop *)

Lemma loop_takes_blocks fuel : forall processed m, (processed <= length (m_gather_pipe m))%nat ->
  let left := (length (m_gather_pipe m) - processed)%nat in
  (left / 32 <= fuel)%nat ->
  UpdateGatherPipe_loop fuel (Z.of_nat processed) (Z.of_nat left) m =
  (Z.of_nat (processed + 32 * (left / 32)), Z.of_nat (left - 32 * (left / 32)),
   bursts (blocks_of (left / 32) (drop processed (m_gather_pipe m))) m).
Proof.
  induction fuel as [|fuel IH]; intros processed m Hp left Hf.
  - assert (E : (left / 32 = 0)%nat) by lia. rewrite E. cbn [UpdateGatherPipe_loop blocks_of bursts fold_left]. by rewrite Nat.mul_0_r, Nat.add_0_r, Nat.sub_0_r.
  - cbn [UpdateGatherPipe_loop]. unfold GATHER_PIPE_SIZE. destruct (Z.ltb_spec (Z.of_nat left) 32) as [Hl|Hl].
    + rewrite (Nat.div_small left 32) by lia. cbn [blocks_of bursts fold_left]. by rewrite Nat.mul_0_r, Nat.add_0_r, Nat.sub_0_r.
    + assert (E : (left / 32 = S ((left - 32) / 32))%nat).
      { replace left with (left - 32 + 1 * 32)%nat at 1 by lia. rewrite Nat.div_add by lia. lia. }
      rewrite E. cbn [blocks_of bursts fold_left]. rewrite Nat2Z.id. change (Z.to_nat 32) with 32%nat.
      set (m' := burst _ m). assert (Ep : m_gather_pipe m' = m_gather_pipe m) by apply burst_keeps_pipe.
      specialize (IH (processed + 32)%nat m'). rewrite Ep in IH. specialize (IH ltac:(unfold left in *; lia)).
      replace (length (m_gather_pipe m) - (processed + 32))%nat with (left - 32)%nat in IH by (unfold left; lia).
      specialize (IH ltac:(lia)).
      replace (Z.of_nat processed + 32) with (Z.of_nat (processed + 32)) by lia.
      replace (Z.of_nat left - 32) with (Z.of_nat (left - 32)) by lia.
      rewrite IH, <- drop_drop. do 2 f_equal; lia.
Qed.
Lemma UpdateGatherPipe_spec m :
  UpdateGatherPipe m = with_gather_pipe (spill (m_gather_pipe m)) (bursts (blocks (m_gather_pipe m)) m).
Proof.
  unfold UpdateGatherPipe, GetGatherPipeCount. pose proof (loop_takes_blocks (length (m_gather_pipe m)) 0 m ltac:(lia)) as E.
  cbv zeta in E. rewrite Nat.sub_0_r in E. change (Z.of_nat 0) with 0 in E. rewrite E by (apply Nat.Div0.div_le_upper_bound; lia).
  rewrite drop_0, Nat.add_0_l, !Nat2Z.id. unfold spill, blocks. set (k := (length (m_gather_pipe m) / 32)%nat).
  assert (Ep : m_gather_pipe (bursts (blocks_of k (m_gather_pipe m)) m) = m_gather_pipe m).
  { rewrite <- (with_gather_pipe_same m) at 2. by rewrite bursts_with_pipe. }
  rewrite Ep. f_equal. apply take_ge. rewrite length_drop. lia.
Qed.
Lemma CheckGatherPipe_spec m :
  CheckGatherPipe m = with_gather_pipe (spill (m_gather_pipe m)) (bursts (blocks (m_gather_pipe m)) m).
Proof.
  unfold CheckGatherPipe, GetGatherPipeCount, GATHER_PIPE_SIZE. destruct (Z.leb_spec 32 (Z.of_nat (length (m_gather_pipe m)))).
  - apply UpdateGatherPipe_spec.
  - destruct (blocks_short (m_gather_pipe m)) as [-> ->]; [lia|]. cbn [bursts fold_left]. by rewrite with_gather_pipe_same.
Qed.

(** ** Streams *)

(** A store of 1, 2, 4 or 8 bytes. *)
Inductive Store := Store8 (v : Z) | Store16 (v : Z) | Store32 (v : Z) | Store64 (v : Z).
Definition store_bytes (s : Store) : list Z :=
  match s with Store8 v => to_be 1 v | Store16 v => to_be 2 v | Store32 v => to_be 4 v | Store64 v => to_be 8 v end.
Definition do_store (s : Store) : M (Machine W) unit :=
  match s with Store8 v => Write8 v | Store16 v => Write16 v | Store32 v => Write32 v | Store64 v => Write64 v end.
Fixpoint do_stores (ss : list Store) : M (Machine W) unit :=
  match ss with [] => mret tt | s :: ss => do_store s ;;; do_stores ss end.
Definition stream (ss : list Store) : list Z := flat_map store_bytes ss.

Lemma do_store_spec s m : (length (m_gather_pipe m) < 32)%nat ->
  let bytes := m_gather_pipe m ++ store_bytes s in
  do_store s m = Done tt (with_gather_pipe (spill bytes) (bursts (blocks bytes) m)).
Proof.
  intros Hm bytes. assert (Hw : forall n v, (n <= 8)%nat ->
    (FastWrite n v ;;; mmodify CheckGatherPipe) m =
    Done tt (with_gather_pipe (spill (m_gather_pipe m ++ to_be n v)) (bursts (blocks (m_gather_pipe m ++ to_be n v)) m))).
  { intros n v Hn. unfold mbind, FastWrite, GetGatherPipeCount, GATHER_PIPE_EXTRA_SIZE, GATHER_PIPE_SIZE, mmodify.
    rewrite (proj2 (Z.leb_le _ _)) by lia. rewrite CheckGatherPipe_spec. cbn [m_gather_pipe with_gather_pipe].
    f_equal. rewrite bursts_with_pipe. done. }
  unfold bytes. destruct s; apply Hw; lia.
Qed.

Lemma do_stores_spec ss m : (length (m_gather_pipe m) < 32)%nat ->
  let bytes := m_gather_pipe m ++ stream ss in
  do_stores ss m = Done tt (with_gather_pipe (spill bytes) (bursts (blocks bytes) m)).
Proof.
  revert m. induction ss as [|s ss IH]; intros m Hm bytes; unfold bytes; cbn [do_stores stream flat_map].
  - rewrite app_nil_r. destruct (blocks_short _ Hm) as [-> ->]. cbn [bursts fold_left]. by rewrite with_gather_pipe_same.
  - unfold mbind at 1. rewrite do_store_spec by done. rewrite IH by apply spill_short. cbn [m_gather_pipe with_gather_pipe].
    rewrite bursts_with_pipe. fold (stream ss). rewrite app_assoc.
    destruct (blocks_stream (m_gather_pipe m ++ store_bytes s) (stream ss)) as [-> ->]. by rewrite bursts_app.
Qed.
Lemma stream_u8 ss : Forall is_u8 (stream ss).
Proof. induction ss as [|s ss IH]; [constructor|]. apply Forall_app. split; [destruct s; apply to_be_u8|exact IH]. Qed.

(** ** The ring *)

(** A ring of [n] blocks from [base] on, all in memory; the next block goes to place [k]. *)
Record ring m (base : Z) (n k : nat) : Prop := {
  ring_place : (k < n)%nat;
  ring_memory : mem_wf (mem m);
  ring_block : block_ok (mem m) base (32 * Z.of_nat n);
  ring_base : m_fifo_cpu_base (processor_interface m) = base;
  ring_end : m_fifo_cpu_end (processor_interface m) = base + 32 * (Z.of_nat n - 1);
  ring_wptr : m_fifo_cpu_write_pointer (processor_interface m) = base + 32 * Z.of_nat k
}.
(** The address of the block at place [k]. *)
Definition ring_slot (base : Z) (k : nat) : Z := base + 32 * Z.of_nat k.

Lemma with_gather_pipe_ring p m base n k : ring m base n k -> ring (with_gather_pipe p m) base n k.
Proof. by intros []. Qed.
Lemma place_next k n : (k < n)%nat -> (S k mod n = if k =? n - 1 then 0 else S k)%nat.
Proof.
  intros H. destruct (Nat.eqb_spec k (n - 1)) as [->|Hne].
  - replace (S (n - 1)) with n by lia. apply Nat.Div0.mod_same.
  - apply Nat.mod_small. lia.
Qed.
Lemma mem_burst b m : mem (burst b m) = CopyToEmu (mem m) (m_fifo_cpu_write_pointer (processor_interface m)) b.
Proof. unfold burst. by rewrite burst_mem. Qed.
Lemma ring_slot_ok m base n k : ring m base n k -> block_ok (mem m) (ring_slot base k) 32.
Proof. intros []. unfold ring_slot. eapply block_ok_sub; [eassumption|lia..]. Qed.

(** One burst fills the next place and no other byte, and moves on. *)
Lemma burst_ring b m base n k : ring m base n k -> length b = 32%nat -> Forall is_u8 b ->
  ring (burst b m) base n (S k mod n) /\
  (forall x, block_ok (mem m) x 1 -> mem_byte (mem (burst b m)) x = patch (mem_byte (mem m)) (ring_slot base k) b x) /\
  (forall x w, block_ok (mem (burst b m)) x w <-> block_ok (mem m) x w).
Proof.
  intros R Hl Hb. pose proof (ring_slot_ok _ _ _ _ R) as Hs. destruct R as [Hk Hm Hblk Ebase Eend Ewptr]. split; [|split].
  - assert (Hr : base + 32 * Z.of_nat n <= 0x100000000 /\ 0 <= base).
    { pose proof (ram_below_exram _ Hm). destruct (mem_exram_pow _ Hm) as (j & Hj & Ej). pose proof (size_bound j Hj).
      pose proof (mem_exram_real _ Hm). destruct Hblk as [[? ?]|(? & ? & ?)]; lia. }
    constructor; rewrite ?mem_burst; unfold burst; rewrite ?burst_pi; cbn [processor_interface with_pi with_fifo with_mem
      m_fifo_cpu_base m_fifo_cpu_end m_fifo_cpu_write_pointer]; try done.
    + apply Nat.mod_upper_bound. lia.
    + by apply CopyToEmu_wf.
    + by apply CopyToEmu_block.
    + rewrite place_next, Ewptr, Eend, Ebase by done. unfold GATHER_PIPE_SIZE.
      destruct (Nat.eqb_spec k (n - 1)) as [E|E], (Z.eqb_spec (base + 32 * Z.of_nat k) (base + 32 * (Z.of_nat n - 1))); try lia.
      rewrite u32_id; [lia|]. unfold is_u32. lia.
  - intros x Hx. rewrite mem_burst, Ewptr. apply mem_byte_CopyToEmu; try done. by rewrite Hl.
  - intros x w. rewrite mem_burst. apply CopyToEmu_block.
Qed.

Lemma mod_distinct k n i j : (i < j < i + n)%nat -> ((k + i) mod n <> (k + j) mod n)%nat.
Proof.
  intros H E. pose proof (Nat.div_mod_eq (k + i) n). pose proof (Nat.div_mod_eq (k + j) n).
  set (q := ((k + i) / n)%nat) in *. set (r := ((k + j) / n)%nat) in *. clearbody q r.
  destruct (Nat.le_gt_cases r q) as [Hq|Hq].
  - assert (n * r <= n * q)%nat by (by apply Nat.mul_le_mono_l). lia.
  - assert (n * S q <= n * r)%nat by (by apply Nat.mul_le_mono_l). lia.
Qed.

(** Bursts fill the places one after the other, around the ring: the last [n] blocks
    are there, and nothing outside the places used has changed. *)
Lemma bursts_ring bs m base n k : ring m base n k -> Forall (fun b => length b = 32%nat /\ Forall is_u8 b) bs ->
  ring (bursts bs m) base n ((k + length bs) mod n) /\
  (forall i b, bs !! i = Some b -> (length bs <= i + n)%nat ->
    bytes_from (mem_byte (mem (bursts bs m))) (ring_slot base ((k + i) mod n)) 32 = b) /\
  (forall x, block_ok (mem m) x 1 ->
    (forall i, (i < length bs)%nat -> ~ ring_slot base ((k + i) mod n) <= x < ring_slot base ((k + i) mod n) + 32) ->
    mem_byte (mem (bursts bs m)) x = mem_byte (mem m) x) /\
  (forall x w, block_ok (mem (bursts bs m)) x w <-> block_ok (mem m) x w).
Proof.
  intros R. induction bs as [|b bs IH] using rev_ind; intros Hbs.
  { cbn [length]. rewrite Nat.add_0_r, Nat.mod_small by apply R. split; [exact R|]. split; [intros i b [=]|]. by split. }
  apply Forall_app in Hbs as [Hbs [[Hl Hu] _]%Forall_cons_1].
  destruct (IH Hbs) as (R1 & Hin & Hout & Hok). clear IH. rewrite bursts_app. cbn [bursts fold_left]. fold (bursts bs m).
  destruct (burst_ring b _ _ _ _ R1 Hl Hu) as (R2 & Hmem & Hok2). rewrite length_app. cbn [length].
  pose proof (ring_place _ _ _ _ R) as Hkn.
  assert (E : ((k + (length bs + 1)) mod n = S ((k + length bs) mod n) mod n)%nat).
  { by rewrite Nat.add_assoc, <- Nat.Div0.add_mod_idemp_l, Nat.add_1_r. }
  split; [by rewrite E|]. split; [|split].
  - intros i c Hi Hle.
    assert (Hslot : block_ok (mem m) (ring_slot base ((k + i) mod n)) 32).
    { unfold ring_slot. eapply block_ok_sub; [apply R|lia|]. pose proof (Nat.mod_upper_bound (k + i) n ltac:(lia)). lia. }
    destruct (decide (i < length bs)%nat) as [Hlt|Hge].
    + rewrite lookup_app_l in Hi by done. rewrite <- (Hin i c Hi) by lia. apply bytes_from_ext. intros x Hx.
      rewrite Hmem by (apply Hok; eapply block_ok_sub; [exact Hslot|lia..]). rewrite patch_out; [done|]. rewrite Hl.
      pose proof (mod_distinct k n i (length bs) ltac:(lia)). unfold ring_slot in *. lia.
    + rewrite lookup_app_r in Hi by lia. apply list_lookup_singleton_Some in Hi as [Hi <-].
      replace i with (length bs) in * by lia.
      apply list_eq_same_length with 32%nat; [done|by rewrite length_bytes_from|].
      intros j x y Hj. rewrite lookup_bytes_from by lia. intros [= <-] Hy.
      rewrite Hmem by (apply Hok; eapply block_ok_sub; [exact Hslot|lia..]).
      apply patch_in; [|lia]. by replace (Z.to_nat _) with j by lia.
  - intros x Hx Hno. rewrite Hmem by by apply Hok. rewrite patch_out by (rewrite Hl; apply Hno; lia).
    apply Hout; [done|]. intros i Hi. apply Hno. lia.
  - intros x w. by rewrite Hok2.
Qed.

Lemma length_blocks_of j bytes : length (blocks_of j bytes) = j.
Proof. revert bytes. induction j as [|j IH]; intros bytes; [done|]. cbn. by rewrite IH. Qed.
Lemma lookup_blocks_of j bytes i : (i < j)%nat -> blocks_of j bytes !! i = Some (firstn 32 (drop (32 * i) bytes)).
Proof.
  revert bytes i. induction j as [|j IH]; intros bytes i Hi; [lia|]. destruct i as [|i]; [by rewrite drop_0|].
  cbn [blocks_of lookup list_lookup]. rewrite IH by lia. rewrite drop_drop. do 3 f_equal. lia.
Qed.
Lemma blocks_full bytes : Forall is_u8 bytes -> Forall (fun b => length b = 32%nat /\ Forall is_u8 b) (blocks bytes).
Proof.
  intros Hb. apply Forall_lookup. intros i b Hi. pose proof (lookup_lt_Some _ _ _ Hi) as Hlt.
  unfold blocks in *. rewrite length_blocks_of in Hlt. rewrite lookup_blocks_of in Hi by done. injection Hi as <-. split.
  - rewrite length_take, length_drop. pose proof (Nat.div_mod_eq (length bytes) 32). lia.
  - by apply Forall_take, Forall_drop.
Qed.


(** ** The interrupt line *)

(** An external interrupt is pending exactly when an enabled cause is set. *)
Definition interrupt_line m : Prop :=
  (Exceptions (ppc m) .& EXCEPTION_EXTERNAL_INT <> 0 <->
   m_interrupt_cause (processor_interface m) .& m_interrupt_mask (processor_interface m) <> 0).
Lemma UpdateException_line m : interrupt_line (UpdateException m).
Proof.
  unfold interrupt_line, UpdateException. destruct (Z.eqb_spec (m_interrupt_cause (processor_interface m) .& m_interrupt_mask (processor_interface m)) 0) as [E|E];
    destruct m as [s]; destruct s; cbn in *.
  - rewrite E. rewrite <- Z.land_assoc. change (.~ EXCEPTION_EXTERNAL_INT .& EXCEPTION_EXTERNAL_INT) with 0. by rewrite Z.land_0_r.
  - rewrite Z.land_lor_distr_l, Z.land_diag. split; [done|]. intros _ H. by apply Z.lor_eq_0_iff in H as [_ ?].
Qed.
(** After any change of a cause or of the mask the line says what is enabled. *)
Lemma SetInterrupt_line cause set m : interrupt_line (SetInterrupt cause set m).
Proof. apply UpdateException_line. Qed.
Lemma PI_Write32_line reset_fifo reset_drive offset val m : offset = PI_INTERRUPT_CAUSE \/ offset = PI_INTERRUPT_MASK ->
  interrupt_line (PI_Write32 reset_fifo reset_drive offset val m).
Proof. intros [-> | ->]; apply UpdateException_line. Qed.

End GatherPipeSpec.

(** ** An example *)

#[export] Instance quiet_bursts wii : @BurstsLeavePipe unit (quiet_devices wii).
Proof. by constructor. Qed.

(** A ring of three blocks whose last one is next. *)
Definition ring_machine : Machine unit :=
  with_pi (mkPI 0 0 0x1000 0x1040 0x1040 0 0 0 0 0)
    (quiet_machine (mkPPC 0 0 [] [] [] 0 0 0 0 0 0 0 (replicate 16 0) ∅ false) (Memmap.Init MEM1_SIZE_RETAIL MEM2_SIZE_RETAIL false)).
Lemma ring_machine_ring : ring ring_machine 0x1000 3 2.
Proof.
  constructor; try done; [lia|apply Init_wf; done|]. left. split; [lia|]. vm_compute. congruence.
Qed.
(** Sixteen stores of 4 bytes and one of 1: the last and then the first place of the
    ring are filled, one byte waits. *)
Definition sixteen_words : list Store := map (fun k => Store32 (0x01020300 + Z.of_nat k)) (seq 0 16) ++ [Store8 0xAB].
