(* ===== verification/PPCHostPages.v ===== *)
(** * The host's pages and the translation agree

    A page the host shows is the one the translation finds, and setting the
    access bits of an entry on its use keeps it so. *)
From S2P Require Export PPCPageTableSpec PPCBat.

(** * Translation by the page table

    With the page table in main memory and the emulated data cache off, the
    translation finds exactly the entry the walk is defined to find, and a page
    the host shows is translated to what the host shows. *)

Section MmuSpec.
Context {W : Type} {D : Devices W}.
Implicit Types m : Machine W.

(** ** Words of main memory *)

(** The table lies in main memory, which the data cache does not hold. *)
Record table_in_ram m : Prop := {
  ti_uncached : m_enable_dcache m = false;
  ti_registers : surroundings_ok (surroundings m);
  ti_memory : mem_wf (mem m) /\ m_ram_size (mem m) <= 2 ^ 27;
  ti_inside : m_pagetable_base m + page_table_size (surroundings m) <= m_ram_size_real (mem m)
}.
(** The entries as they are in memory. *)
Definition table_view m : Z -> Pte := page_table_view (RamPtr (m_pagetable_base m)) m.
Definition word_at m (a : Z) : Z := from_be (read_bytes (m_ram (mem m)) a 4).

Lemma land_low_mask a k : 0 <= k -> 0 <= a < 2 ^ k -> a .& (2 ^ k - 1) = a.
Proof. intros Hk Ha. replace (2 ^ k - 1) with (Z.ones k) by (rewrite Z.ones_equiv; lia). rewrite Z.land_ones by done. by apply Z.mod_small. Qed.
Lemma page_of_split a : 0 <= a -> page_of a = a - a mod 4096.
Proof.
  intros Ha. unfold page_of, HW_PAGE_MASK, HW_PAGE_SIZE. change (0x1000 - 1) with (Z.ones 12).
  rewrite <- Z.ldiff_land, Z.ldiff_ones_r, Z.shiftl_mul_pow2, Z.shiftr_div_pow2 by lia. change (2 ^ 12) with 4096.
  Z.div_mod_to_equations; lia.
Qed.
Lemma aligned_word_in_page a : 0 <= a < 2 ^ 31 -> a mod 4 = 0 -> crosses_page a 4 = false.
Proof.
  intros Ha H4. unfold crosses_page. rewrite !page_of_split by lia. rewrite u32_id by (unfold is_u32; Z.div_mod_to_equations; lia).
  apply negb_false_iff, Z.eqb_eq. Z.div_mod_to_equations; lia.
Qed.
Lemma ram_address a : 0 <= a < 2 ^ 27 -> is_io a = false /\ is_l1 a = false /\ is_ram a = true.
Proof.
  intros Ha. assert (Hz : forall c, c = 2 ^ 27 * (c / 2 ^ 27) -> a .& c = 0).
  { intros c Hc. apply Z.bits_inj'. intros i Hi. rewrite Z.land_spec, Z.bits_0. destruct (Z.ltb_spec i 27).
    - rewrite Hc, Z.mul_comm, Z.mul_pow2_bits_low by done. apply andb_false_r.
    - destruct (proj1 (bits_above_pow2 a 27 ltac:(done)) Ha) as [_ Hb]. by rewrite Hb. }
  unfold is_io, is_l1, is_ram. rewrite (Hz 0xF8000000) by done. rewrite Z.shiftr_div_pow2, (Z.div_small a) by lia. done.
Qed.
Lemma read_table_word m flag a : table_in_ram m -> a mod 4 = 0 -> in_ram (mem m) a 4 ->
  ReadFromHardware_physical flag 4 a m = Done (word_at m a) m.
Proof.
  intros [Hu _ [Hm Hmax] _] H4 [Ha Hb]. destruct (mem_ram_pow _ Hm) as (k & Hk & Hs). pose proof (mem_ram_real _ Hm) as Hreal.
  assert (Ha27 : 0 <= a < 2 ^ 27) by lia. unfold ReadFromHardware_physical. change (Z.of_nat 4) with 4.
  rewrite aligned_word_in_page by lia. destruct (ram_address a Ha27) as (E1 & E2 & E3).
  unfold read_access, get, mbind, mget, uncached. cbv beta zeta. rewrite E1, E2, E3, andb_false_r. rewrite Hu. cbn [negb orb].
  rewrite (mem_ram_mask_eq _ Hm), Hs, land_low_mask by lia. done.
Qed.

(** ** The groups of entries *)

Lemma pteg_address_offset m VSID page_index (H : bool) : table_in_ram m ->
  pteg_address (if H then u32 (.~ (VSID .^ page_index)) else VSID .^ page_index) m =
  m_pagetable_base m + pteg_offset (surroundings m) VSID page_index H.
Proof.
  intros Ht. pose proof (ti_registers _ Ht) as Sok. unfold pteg_address, pteg_offset, live_mask.
  cbn [surroundings PPCPageTable.pagetable_mask PPCPageTable.pagetable_base].
  set (h := if H then _ else _). set (mask := m_pagetable_mask m). set (b := m_pagetable_base m).
  rewrite (Z.add_comm b), <- lor_disjoint_add.
  - destruct (so_mask _ Sok) as (mm & Hmm & Em). change (mask = (mm .<< 16) .| 0xffc0) in Em.
    apply Z.bits_inj'. intros i Hi. rewrite !Z.lor_spec, !Z.land_spec, Z.lnot_spec by done.
    destruct (Z.ltb_spec i 32) as [Hlt|Hge].
    + rewrite testbit_u32_all, (proj2 (Z.ltb_lt i 32)), andb_true_r by lia. by destruct (Z.testbit b i), (Z.testbit mask i), (Z.testbit (h .<< 6) i).
    + assert (E : Z.testbit mask i = false).
      { rewrite Em, Z.lor_spec, Z.shiftl_spec by done. rewrite (proj2 (proj1 (bits_above_pow2 mm 6 ltac:(done)) Hmm)) by lia.
        by rewrite (proj2 (proj1 (bits_above_pow2 0xffc0 16 ltac:(done)) ltac:(lia))) by lia. }
      by rewrite E, !andb_false_r.
  - apply Z.bits_inj'. intros i Hi. rewrite !Z.land_spec, Z.lnot_spec, Z.bits_0 by done.
    by destruct (Z.testbit b i); rewrite ?andb_false_r.
Qed.

Lemma table_word m e : table_in_ram m -> live (surroundings m) e ->
  0 <= m_pagetable_base m /\ (m_pagetable_base m + e) mod 8 = 0 /\ in_ram (mem m) (m_pagetable_base m + e) 8 /\
  fst (table_view m e) = word_at m (m_pagetable_base m + e) /\ snd (table_view m e) = word_at m (m_pagetable_base m + e + 4).
Proof.
  intros Ht He. pose proof (live_bound _ (ti_registers _ Ht) e He) as Hb. destruct He as (H0 & H8 & _).
  destruct (page_table_size_mask _ (ti_registers _ Ht)) as [_ Hz].
  destruct (so_base _ (ti_registers _ Ht)) as (b & Hbb & Eb). cbn [surroundings PPCPageTable.pagetable_base] in Eb.
  rewrite Z.shiftl_mul_pow2 in Eb by done. change (2 ^ 16) with 0x10000 in Eb. pose proof (ti_inside _ Ht) as Hi.
  split; [lia|]. split; [Z.div_mod_to_equations; lia|]. split; [split; [lia|clear Hbb; Z.div_mod_to_equations; lia]|].
  split; [done|]. unfold table_view, page_table_view, word_at, load. cbn [snd]. by rewrite Z.add_assoc.
Qed.

(** What the use of an entry does to the machine: the access bits in memory, the
    copy and the host's mapping, and the look-aside buffer. *)
Definition page_used (flag : XCheckTLBFlag.t) (updated_c : bool) (address VSID pte1 e : Z) m : Machine W :=
  let old := snd (table_view m e) in
  let pte2 := set_access_bits flag old in
  let pteg_addr := m_pagetable_base m + e in
  let m' := if negb (IsNoExceptionFlag flag) && negb (pte2 =? old)
    then entry_used address pteg_addr pte1 pte2 (with_mem (Write_U32 (mem m) pte2 (pteg_addr + 4)) m) else m in
  if updated_c then m' else UpdateTLBEntry flag pte2 address VSID m'.
Definition found (address pte2 : Z) : TranslateAddressResult * bool :=
  (mkTranslated PAGE_TABLE_TRANSLATED ((PTE_RPN pte2 .<< 12) .| EA_offset address) false, PTE_wi pte2).

(** The access bits do not change what an entry maps. *)
Lemma set_access_bits_other flag pte2 lo n : 0 <= lo -> 0 <= n -> 9 <= lo \/ lo + n <= 7 ->
  field (set_access_bits flag pte2) lo n = field pte2 lo n.
Proof.
  intros Hlo Hn Hr. apply Z.bits_inj'. intros i Hi. rewrite !testbit_field by done.
  destruct (Z.ltb_spec i n); [|by rewrite !andb_false_r]. f_equal.
  destruct flag; cbn [set_access_bits]; rewrite ?testbit_put_field by lia; decide_positions; done.
Qed.
Lemma found_access flag address pte2 : found address (set_access_bits flag pte2) = found address pte2.
Proof. unfold found, PTE_RPN, PTE_wi, PTE_WIMG. by rewrite !set_access_bits_other by lia. Qed.

Lemma use_entry_spec flag uc address VSID pte1 e m : table_in_ram m -> live (surroundings m) e ->
  use_entry flag uc address VSID pte1 (m_pagetable_base m + e) m =
  Done (found address (snd (table_view m e))) (page_used flag uc address VSID pte1 e m).
Proof.
  intros Ht He. destruct (table_word m e Ht He) as (Hb & H8 & [Hin1 Hin2] & _ & Es).
  unfold use_entry. unfold mbind at 1.
  rewrite read_table_word; [|done|clear Es; Z.div_mod_to_equations; lia|split; lia]. rewrite <- Es.
  rewrite <- (found_access flag). unfold page_used. cbv zeta. destruct (negb (IsNoExceptionFlag flag) && _), uc; done.
Qed.

Lemma walk_pteg_spec flag uc address VSID pte1 m (Ht : table_in_ram m) n : forall o,
  (forall k, (k < n)%nat -> live (surroundings m) (o + 8 * Z.of_nat k)) ->
  walk_pteg flag uc address VSID pte1 (m_pagetable_base m + o) n m =
  match List.find (fun e => fst (table_view m e) =? pte1) (map (fun k => o + 8 * Z.of_nat k) (seq 0 n)) with
  | Some e => Done (Some (found address (snd (table_view m e)))) (page_used flag uc address VSID pte1 e m)
  | None => Done None m
  end.
Proof.
  induction n as [|n IH]; intros o Hl; [done|]. cbn [walk_pteg seq map List.find]. change (8 * Z.of_nat 0) with 0. rewrite Z.add_0_r.
  assert (He : live (surroundings m) o) by (specialize (Hl O ltac:(lia)); by rewrite Z.add_0_r in Hl).
  destruct (table_word m o Ht He) as (Hb & H8 & [Hin1 Hin2] & Ef & _).
  unfold mbind at 1. rewrite read_table_word; [|done|clear Ef; Z.div_mod_to_equations; lia|split; lia]. rewrite <- Ef, Z.eqb_sym.
  destruct (fst (table_view m o) =? pte1).
  - unfold mbind. by rewrite use_entry_spec.
  - destruct (ti_memory _ Ht) as [Hm Hmax]. pose proof (mem_ram_real _ Hm).
    rewrite u32_id by (unfold is_u32; lia). rewrite <- Z.add_assoc.
    assert (Em : map (fun k => o + 8 * Z.of_nat k) (seq 1 n) = map (fun k => o + 8 + 8 * Z.of_nat k) (seq 0 n)).
    { rewrite <- seq_shift, map_map. apply map_ext. lia. }
    rewrite Em. apply IH. intros j Hj. specialize (Hl (Datatypes.S j) ltac:(lia)).
    by replace (o + 8 * Z.of_nat (Datatypes.S j)) with (o + 8 + 8 * Z.of_nat j) in Hl by lia.
Qed.

(** ** The walk *)

Lemma field_page address lo n : 0 <= address -> 12 <= lo -> 0 <= n -> field (page_of address) lo n = field address lo n.
Proof.
  intros Ha Hlo Hn. apply Z.bits_inj'. intros i Hi. rewrite !testbit_field by lia. f_equal.
  unfold page_of, HW_PAGE_MASK, HW_PAGE_SIZE. change (0x1000 - 1) with (Z.ones 12).
  rewrite Z.land_spec, Z.lnot_spec, Z.ones_spec_high, andb_true_r by lia. done.
Qed.
Lemma find_map_slots (f : Z -> bool -> bool) (g : nat -> Z) H l :
  option_map fst (List.find (fun '(e, h) => f e h) (map (fun k => (g k, H)) l)) = List.find (fun e => f e H) (map g l).
Proof. induction l as [|k l IH]; [done|]. cbn [map List.find]. by destruct (f (g k) H). Qed.
Lemma page_walk_groups S t L : page_walk S t L =
  match List.find (fun e => fst (t e) =? page_pte1 S L false) (map (fun k => slot S L false (Z.of_nat k)) (seq 0 8)) with
  | Some e => Some e
  | None => List.find (fun e => fst (t e) =? page_pte1 S L true) (map (fun k => slot S L true (Z.of_nat k)) (seq 0 8))
  end.
Proof.
  unfold page_walk, walk_slots. rewrite <- !(find_map_slots (fun e h => fst (t e) =? page_pte1 S L h)).
  generalize (map (fun k => (slot S L true (Z.of_nat k), true)) (seq 0 8)) as l2.
  generalize (map (fun k => (slot S L false (Z.of_nat k), false)) (seq 0 8)) as l1.
  induction l1 as [|[e h] l1 IH]; intros l2; [done|]. cbn [app List.find]. by destruct (fst (t e) =? _).
Qed.

(** Looking in the look-aside buffer changes nothing else. *)
Lemma lookup_tlb_only flag address VSID m res m' : LookupTLBPageAddress flag address VSID m = (res, m') -> exists t, m' = with_tlb t m.
Proof.
  unfold LookupTLBPageAddress. repeat case_match; intros [= <- <-]; try (by eexists); by exists (tlb m); destruct m.
Qed.

Lemma groups_walk flag uc address m (Ht : table_in_ram m) (H : bool) VSID : VSID = SR_VSID (segment (surroundings m) (EA_SR address)) ->
  0 <= address ->
  walk_pteg flag uc address VSID (page_pte1 (surroundings m) (page_of address) H)
    (m_pagetable_base m + pteg_offset (surroundings m) VSID (EA_page_index address) H) 8 m =
  match List.find (fun e => fst (table_view m e) =? page_pte1 (surroundings m) (page_of address) H)
          (map (fun k => slot (surroundings m) (page_of address) H (Z.of_nat k)) (seq 0 8)) with
  | Some e => Done (Some (found address (snd (table_view m e))))
      (page_used flag uc address VSID (page_pte1 (surroundings m) (page_of address) H) e m)
  | None => Done None m
  end.
Proof.
  intros -> Ha. assert (Eo : forall k, slot (surroundings m) (page_of address) H k =
    pteg_offset (surroundings m) (SR_VSID (segment (surroundings m) (EA_SR address))) (EA_page_index address) H + 8 * k).
  { intros k. unfold slot, EA_SR, EA_page_index. by rewrite !field_page by lia. }
  rewrite walk_pteg_spec; [|done|].
  - by rewrite (map_ext _ _ (fun k => Eo (Z.of_nat k))).
  - intros k Hk. rewrite <- Eo. apply slot_live; [apply Ht|lia].
Qed.

Lemma translation_walks flag address m res m' : table_in_ram m -> 0 <= address ->
  let S := surroundings m in
  let sr_ := get_sr (ppc m) (EA_SR address) in
  SR_T sr_ = false -> IsOpcodeFlag flag && SR_N sr_ = false ->
  LookupTLBPageAddress flag address (SR_VSID sr_) m = (res, m') -> res = TLBNotFound \/ res = TLBUpdateC ->
  TranslatePageAddress flag address m =
  match page_walk S (table_view m) (page_of address) with
  | Some e => Done (found address (snd (table_view m e)))
      (page_used flag (match res with TLBUpdateC => true | _ => false end) address (SR_VSID sr_) (fst (table_view m e)) e m')
  | None => Done (mkTranslated PAGE_FAULT 0 false, false) m'
  end.
Proof.
  intros Ht Ha S sr_ HT HN El Hres. destruct (lookup_tlb_only _ _ _ _ _ _ El) as (t & ->).
  assert (Ht' : table_in_ram (with_tlb t m)) by (by destruct Ht; split).
  unfold TranslatePageAddress, get, run. unfold mbind at 1, mget at 1. unfold mbind at 1. fold sr_. rewrite El.
  set (uc := match res with TLBUpdateC => true | _ => false end).
  set (g := fun H => List.find (fun e => fst (table_view m e) =? page_pte1 S (page_of address) H)
    (map (fun k => slot S (page_of address) H (Z.of_nat k)) (seq 0 8))).
  assert (Hw : forall H, walk_pteg flag uc address (SR_VSID sr_) (page_pte1 S (page_of address) H)
    (m_pagetable_base m + pteg_offset S (SR_VSID sr_) (EA_page_index address) H) 8 (with_tlb t m) =
    match g H with
    | Some e => Done (Some (found address (snd (table_view m e))))
        (page_used flag uc address (SR_VSID sr_) (page_pte1 S (page_of address) H) e (with_tlb t m))
    | None => Done None (with_tlb t m)
    end) by (intros H; by apply (groups_walk flag uc address (with_tlb t m) Ht' H (SR_VSID sr_))).
  assert (Eg : page_walk S (table_view m) (page_of address) = match g false with Some e => Some e | None => g true end) by apply page_walk_groups.
  assert (Ep : make_pte1 (SR_VSID sr_) (EA_API address) false = page_pte1 S (page_of address) false).
  { unfold page_pte1, EA_API, EA_SR. by rewrite !field_page by lia. }
  assert (Ea : forall H : bool, pteg_address (if H then u32 (.~ (SR_VSID sr_ .^ EA_page_index address)) else SR_VSID sr_ .^ EA_page_index address) (with_tlb t m) =
    m_pagetable_base m + pteg_offset S (SR_VSID sr_) (EA_page_index address) H) by (intros H; by apply (pteg_address_offset (with_tlb t m))).
  assert (Efound : forall H e, g H = Some e -> fst (table_view m e) = page_pte1 S (page_of address) H).
  { intros H e E. apply find_some in E as [_ E]. by apply Z.eqb_eq in E. }
  assert (Eres : forall A (k : A) f, match res with TLBFound a b => f a b | _ => k end = k) by (intros; by destruct Hres as [-> | ->]).
  rewrite Eres, Eg. fold uc. clearbody g. rewrite HT, HN, Ep. unfold mbind at 1, mget at 1. rewrite (Ea false). unfold mbind at 1. rewrite (Hw false).
  destruct (g false) as [e|] eqn:E1; [by rewrite (Efound _ _ E1)|].
  rewrite page_pte1_secondary. unfold mbind at 1, mget at 1. rewrite (Ea true). unfold mbind at 1. rewrite (Hw true).
  destruct (g true) as [e|] eqn:E2; [by rewrite (Efound _ _ E2)|done].
Qed.

Lemma page_of_u32 a : is_u32 a -> is_u32 (page_of a).
Proof. intros Ha. unfold is_u32 in *. rewrite page_of_split by lia. Z.div_mod_to_equations; lia. Qed.
Lemma page_of_offset a : 0 <= a -> EA_offset (page_of a) = 0.
Proof.
  intros Ha. apply EA_offset_zero. intros i Hi. unfold page_of, HW_PAGE_MASK, HW_PAGE_SIZE. change (0x1000 - 1) with (Z.ones 12).
  rewrite Z.land_spec, Z.lnot_spec, Z.ones_spec_low by lia. apply andb_false_r.
Qed.

End MmuSpec.

Section HostPages.
Context {W : Type} {D : Devices W}.
Implicit Types m : Machine W.

(** The access bits in memory may have been set since the entry was copied. *)
Definition older (a b : Z) : Prop :=
  (forall i, 0 <= i -> i <> 7 -> i <> 8 -> Z.testbit a i = Z.testbit b i) /\
  (forall i, 0 <= i -> Z.testbit a i = true -> Z.testbit b i = true).
Definition copy_of m : Z -> Pte := entry (m_page_table (m_page_tables m)).
(** The host's mappings are those of the copy.  The copy is the table in memory but for
    access bits, and for these too where the host may show the page. *)
Record host_follows m : Prop := {
  hf_sync : in_sync (surroundings m) (m_page_tables m);
  hf_first : forall e, live (surroundings m) e -> fst (copy_of m e) = fst (table_view m e);
  hf_second : forall e, live (surroundings m) e -> older (snd (copy_of m e)) (snd (table_view m e));
  hf_exact : forall L e, is_page (surroundings m) L -> page_walk (surroundings m) (table_view m) L = Some e ->
    host_mapping_allowed (surroundings m) L (snd (table_view m e)) = true -> copy_of m e = table_view m e
}.

Lemma older_refl a : older a a.
Proof. by split. Qed.
Lemma older_trans a b c : older a b -> older b c -> older a c.
Proof. intros [H1 H2] [H3 H4]. split; intros; [rewrite H1 by done; auto|auto]. Qed.
Lemma older_field a b lo n : older a b -> 0 <= lo -> 0 <= n -> 9 <= lo \/ lo + n <= 7 -> field a lo n = field b lo n.
Proof.
  intros [H _] Hlo Hn Hr. apply Z.bits_inj'. intros i Hi. rewrite !testbit_field by done.
  destruct (Z.ltb_spec i n); [|by rewrite !andb_false_r]. f_equal. apply H; lia.
Qed.
Lemma older_facts a b : older a b ->
  PTE_RPN a = PTE_RPN b /\ PTE_wi a = PTE_wi b /\ (PTE_R a = true -> PTE_R b = true) /\ (PTE_C a = true -> PTE_C b = true).
Proof.
  intros H. unfold PTE_RPN, PTE_wi, PTE_WIMG. rewrite !(older_field a b) by (done || lia).
  repeat split; [by apply H|by apply H].
Qed.
Lemma access_older flag a : older a (set_access_bits flag a).
Proof.
  split; intros i Hi; destruct flag; cbn [set_access_bits]; rewrite ?testbit_put_field by lia; intros; decide_positions; try done; subst.
  all: try by replace (i - 8) with 0 by lia. all: by replace (i - 7) with 0 by lia.
Qed.

(** The walk looks at the first words only. *)
Lemma page_walk_fst S t t' L : surroundings_ok S -> (forall e, live S e -> fst (t e) = fst (t' e)) -> page_walk S t L = page_walk S t' L.
Proof.
  intros Sok E. unfold page_walk. f_equal.
  assert (Hl : forall q, q ∈ walk_slots S L -> fst (t (fst q)) = fst (t' (fst q))).
  { intros [e H] Hin. apply walk_slots_elem in Hin as (k & Hk & ->). by apply E, slot_live. }
  induction (walk_slots S L) as [|[e H] l IH]; [done|]. cbn [List.find].
  pose proof (Hl (e, H) ltac:(by left)) as He. cbn in He. rewrite He. case_match; [done|].
  apply IH. intros q Hq. apply Hl. by right.
Qed.

(** *** A page the host shows *)

Lemma page_host_facts S t L h : page_host S t L = Some h -> exists e,
  is_page S L /\ page_walk S t L = Some e /\ h = mkHostMapping L HW_PAGE_SIZE (PTE_RPN (snd (t e)) .<< 12) (PTE_C (snd (t e))) /\
  PTE_R (snd (t e)) = true /\ PTE_wi (snd (t e)) = false /\ bat_mapped S L = false.
Proof.
  unfold page_host. destruct (is_pageb S L) eqn:Eb; [|done]. apply is_pageb_spec in Eb.
  destruct (page_walk S t L) as [e|]; [|done]. cbn [base.mbind option_bind]. unfold hosted, host_of, host_mapping_allowed. intros H.
  exists e. destruct (PTE_wi _); [done|]. destruct (bat_mapped S L); [done|]. destruct (negb _ && PTE_R _) eqn:ER; [|done].
  apply andb_true_iff in ER as [_ ER]. destruct (backed _ _); [|done]. cbn in H. injection H as <-. done.
Qed.
Lemma bat_index_page address : 0 <= address -> page_of address .>> BAT_INDEX_SHIFT = address .>> BAT_INDEX_SHIFT.
Proof.
  intros Ha. apply Z.bits_inj'. intros i Hi. rewrite !Z.shiftr_spec by done. unfold page_of, HW_PAGE_MASK, HW_PAGE_SIZE.
  change (0x1000 - 1) with (Z.ones 12). change BAT_INDEX_SHIFT with 17. rewrite Z.land_spec, Z.lnot_spec, Z.ones_spec_high by lia. apply andb_true_r.
Qed.
Lemma not_bat_mapped m address : 0 <= address -> bat_mapped (surroundings m) (page_of address) = false ->
  TranslateBatAddress (m_dbat_table m) address = None.
Proof.
  intros Ha Hb. cbn [surroundings bat_mapped] in Hb. rewrite bat_index_page in Hb by done. apply negb_false_iff in Hb.
  unfold TranslateBatAddress. by rewrite Hb.
Qed.

(** The host shows what the table in memory says. *)
Lemma host_exact m : table_in_ram m -> host_follows m -> forall L,
  host_mappings (m_page_tables m) !! L = page_host (surroundings m) (table_view m) L.
Proof.
  intros Ht [Hs H1 H2 H3] L. pose proof (ti_registers _ Ht) as Sok. rewrite (sync_host _ _ Hs). unfold page_host.
  destruct (is_pageb (surroundings m) L) eqn:Eb; [|done]. apply is_pageb_spec in Eb.
  assert (Ew : page_walk (surroundings m) (entry (m_page_table (m_page_tables m))) L = page_walk (surroundings m) (table_view m) L)
    by exact (page_walk_fst _ (copy_of m) _ L Sok H1).
  rewrite Ew. destruct (page_walk (surroundings m) (table_view m) L) as [e|] eqn:E; [|done].
  assert (He : live (surroundings m) e) by (eapply page_walk_live; [exact Sok|exact Eb|exact E]).
  cbn [base.mbind option_bind]. f_equal. unfold hosted. fold (copy_of m).
  destruct (older_facts _ _ (H2 e He)) as (_ & Hwi & _).
  assert (Ea : host_mapping_allowed (surroundings m) L (snd (copy_of m e)) = host_mapping_allowed (surroundings m) L (snd (table_view m e)))
    by (unfold host_mapping_allowed; by rewrite Hwi).
  rewrite Ea. destruct (host_mapping_allowed _ L (snd (table_view m e))) eqn:Eal; [|done]. by rewrite (H3 L e).
Qed.

(** An update of the page table makes the host follow it. *)
Lemma update_follows m : WantsPageTableMappings = true -> table_in_ram m -> regions_ok (surroundings m) ->
  table_ok (surroundings m) (table_view m) ->
  (m_page_table_size (m_page_tables m) = page_table_size (surroundings m) -> in_sync (surroundings m) (m_page_tables m)) ->
  table_in_ram (mmu_PageTableUpdated m) /\ host_follows (mmu_PageTableUpdated m).
Proof.
  intros Hwant Ht Rok Htab Hold. pose proof (ti_registers _ Ht) as Sok. destruct (ti_memory _ Ht) as [Hm _].
  assert (Hp : GetPointerForRange (mem m) (m_pagetable_base m) (page_table_size (surroundings m)) = Some (RamPtr (m_pagetable_base m))).
  { destruct (so_base _ Sok) as (b & Hb & Eb). cbn [surroundings PPCPageTable.pagetable_base] in Eb. rewrite Z.shiftl_mul_pow2 in Eb by done.
    destruct (page_table_size_mask _ Sok) as [Esize _]. pose proof (live_mask_nonneg _ Sok). pose proof (ti_inside _ Ht).
    unfold GetPointerForRange. rewrite (span_ram _ _ (page_table_size (surroundings m)) Hm) by (try split; lia).
    by rewrite (proj2 (Z.ltb_ge _ _)) by lia. }
  unfold mmu_PageTableUpdated. rewrite Hwant. cbn [negb].
  change (surroundings (with_update_pending false m)) with (surroundings m). change (mem (with_update_pending false m)) with (mem m).
  change (m_pagetable_base (with_update_pending false m)) with (m_pagetable_base m). rewrite Hp.
  change (page_table_view (RamPtr (m_pagetable_base m)) (with_update_pending false m)) with (table_view m).
  change (m_page_tables (with_update_pending false m)) with (m_page_tables m).
  destruct (update_result (surroundings m) Sok Rok (table_view m) (m_page_tables m) Htab Hold) as (Hs & _ & _ & _ & Hcopy).
  split; [destruct Ht as [H1 H2 H3 H4]; split; [exact H1|exact H2|exact H3|exact H4]|].
  set (p' := PageTableUpdated _ _ _ _) in *. set (m' := with_page_tables p' _).
  assert (Hc : forall e, live (surroundings m) e -> copy_of m' e = table_view m e) by exact Hcopy.
  split; [exact Hs|intros e He; f_equal; by apply Hc|intros e He|intros L e HL Hw _].
  - change (table_view m' e) with (table_view m e). rewrite (Hc e He). apply older_refl.
  - apply Hc. by eapply page_walk_live.
Qed.

(** ** The use of an entry *)

(** *** The table in memory *)

Lemma word_at_bytes m a : mem_wf (mem m) -> in_ram (mem m) a 4 -> word_at m a = from_be (bytes_from (mem_byte (mem m)) a 4).
Proof.
  intros Hm [Ha Hb]. unfold word_at. f_equal. apply (list_eq_same_length _ _ 4); [by rewrite length_bytes_from|by rewrite length_read_bytes|].
  intros i x y Hi. rewrite lookup_read_bytes, lookup_bytes_from, mem_byte_ram by (done || (split; lia)). by intros [= <-] [= <-].
Qed.
Lemma word_after_write m a b v : mem_wf (mem m) -> in_ram (mem m) a 4 -> in_ram (mem m) b 4 -> is_u32 v ->
  b = a \/ b + 4 <= a \/ a + 4 <= b ->
  word_at (with_mem (Write_U32 (mem m) v a) m) b = if b =? a then v else word_at m b.
Proof.
  intros Hm Ha Hb Hv Hd. assert (Hm' : mem_wf (Write_U32 (mem m) v a)) by (by apply CopyToEmu_wf).
  assert (Hb' : in_ram (Write_U32 (mem m) v a) b 4).
  { unfold in_ram, Write_U32. destruct (CopyToEmu_sizes (mem m) a (to_be 4 v)) as [-> _]. exact Hb. }
  rewrite word_at_bytes by done. cbn [mem with_mem].
  assert (Hbyte : forall x, b <= x < b + 4 -> mem_byte (Write_U32 (mem m) v a) x = patch (mem_byte (mem m)) a (to_be 4 v) x).
  { intros x Hx. apply mem_byte_CopyToEmu; [done|left; by rewrite length_to_be|apply to_be_u8|left; destruct Hb; split; lia]. }
  rewrite (bytes_from_ext _ _ b 4 Hbyte). destruct (Z.eqb_spec b a) as [->|Hne].
  - transitivity (from_be (to_be 4 v)); [|rewrite from_to_be; apply Z.mod_small, Hv]. f_equal.
    apply (list_eq_same_length _ _ 4); [by rewrite length_to_be|by rewrite length_bytes_from|].
    intros i x y Hi. rewrite lookup_bytes_from by lia. intros [= <-] Hy. apply patch_in; [|lia]. by replace (Z.to_nat _) with i by lia.
  - rewrite word_at_bytes by done. f_equal. apply bytes_from_ext. intros x Hx. apply patch_out. rewrite length_to_be. lia.
Qed.

Lemma surroundings_write m a data : surroundings (with_mem (CopyToEmu (mem m) a data) m) = surroundings m.
Proof.
  unfold surroundings, physical_regions. cbn [ppc mem m_pagetable_base m_pagetable_mask m_dbat_table m_fake_vmem with_mem].
  destruct (CopyToEmu_sizes (mem m) a data) as (_ & -> & _ & _ & -> & _ & -> & _). do 2 f_equal. f_equal. f_equal.
  unfold CopyToEmu. destruct (_ =? 0)%nat; [done|]. destruct (GetPointerForRange _ _ _) as [[o|o]|]; [|  |done].
  all: destruct (mem m) as [ram [x|]]; done.
Qed.

(** *** Segments *)

(** No two segments that go through the page table share an identifier. *)
Definition distinct_segments (S : Surroundings) : Prop := forall i j, 0 <= i < 16 -> 0 <= j < 16 ->
  SR_T (segment S i) = false -> SR_T (segment S j) = false -> SR_VSID (segment S i) = SR_VSID (segment S j) -> i = j.
Lemma uses_segment_spec S i VSID : uses_segment S i VSID = true <-> SR_VSID (segment S i) = VSID /\ SR_T (segment S i) = false.
Proof. unfold uses_segment. by rewrite andb_true_iff, Z.eqb_eq, negb_true_iff. Qed.
(** An entry is then found for one page only. *)
Lemma one_page S t L L' e : surroundings_ok S -> distinct_segments S -> is_page S L -> is_page S L' ->
  page_walk S t L = Some e -> page_walk S t L' = Some e -> L = L'.
Proof.
  intros Sok Hd HL HL' E E'. pose proof (page_walk_spec S Sok t L HL) as Hc. rewrite E in Hc. destruct Hc as [(_ & H & k & Hk & Ee & Ef) _].
  pose proof (page_walk_spec S Sok t L' HL') as Hc'. rewrite E' in Hc'. destruct Hc' as [(_ & H' & k' & Hk' & Ee' & Ef') _].
  destruct (slot_key S Sok L H k HL Hk) as (A & EA & EU & EL), (slot_key S Sok L' H' k' HL' Hk') as (A' & EA' & EU' & EL').
  rewrite <- Ee, <- Ef in *. rewrite <- Ee', <- Ef' in *. rewrite EA in EA'. injection EA' as <-.
  apply uses_segment_spec in EU as [EV ET], EU' as [EV' ET'].
  assert (Esr : EA_SR L = EA_SR L').
  { apply Hd; [apply EA_SR_range, HL|apply EA_SR_range, HL'|done|done|congruence]. }
  congruence.
Qed.

(** *** The copy and the host after the use *)

Lemma mapping_older S L e a b : fst a = fst b -> older (snd a) (snd b) -> mapping S L e a = mapping S L e b.
Proof.
  intros Ef Ho. destruct (older_facts _ _ Ho) as (Er & Ew & _). unfold mapping, host_mapping_allowed. by rewrite Ef, Er, Ew.
Qed.
Lemma entry_set e v t x : entry (<[e := v]> t) x = if x =? e then v else entry t x.
Proof.
  unfold entry. destruct (Z.eqb_spec x e) as [->|]; [by rewrite lookup_insert_eq|by rewrite lookup_insert_ne].
Qed.
Lemma page_aligned x : (x .<< 12) mod HW_PAGE_SIZE = 0.
Proof. rewrite Z.shiftl_mul_pow2 by done. by apply Z.mod_mul. Qed.

Section Used.
Context (S : Surroundings) (Sok : surroundings_ok S) (Rok : regions_ok S) (Hd : distinct_segments S).
Context (p : PageTables) (Hs : in_sync S p) (L e : Z) (v : Pte).
Let t := entry (m_page_table p).
Let t' := entry (<[e := v]> (m_page_table p)).
Context (HL : is_page S L) (Hw : page_walk S t L = Some e) (Ef : fst (t e) = fst v) (Ho : older (snd (t e)) (snd v)).

Lemma used_first x : fst (t' x) = fst (t x).
Proof using Ef. unfold t'. rewrite entry_set. by destruct (Z.eqb_spec x e) as [->|]. Qed.
Lemma used_walk L' : page_walk S t' L' = page_walk S t L'.
Proof using Sok Ef. apply page_walk_fst; [done|]. intros x _. apply used_first. Qed.
Lemma used_mapping L' : page_mapping S t' L' = page_mapping S t L'.
Proof using Sok Ef Ho.
  unfold page_mapping. rewrite used_walk. destruct (is_pageb S L'); [|done]. destruct (page_walk S t L') as [x|]; [|done].
  cbn. f_equal. unfold t'. rewrite entry_set. destruct (Z.eqb_spec x e) as [->|]; [|done]. symmetry. by apply mapping_older.
Qed.
Lemma used_host_other L' : L' <> L -> page_host S t' L' = page_host S t L'.
Proof using Sok Ef HL Hw Hd.
  intros Hne. unfold page_host. rewrite used_walk. destruct (is_pageb S L') eqn:Eb; [|done]. apply is_pageb_spec in Eb.
  destruct (page_walk S t L') as [x|] eqn:Ex; [|done]. cbn [base.mbind option_bind]. unfold t'. rewrite entry_set.
  destruct (Z.eqb_spec x e) as [->|]; [|done]. by destruct (Hne (one_page S t L' L e Sok Hd Eb HL Ex Hw)).
Qed.

Lemma used_in_sync : host_mapping_allowed S L (snd v) = true -> PTE_R (snd v) = true ->
  in_sync S (mkPageTables (<[e := v]> (m_page_table p)) (m_page_table_size p) (m_page_mappings p)
    (AddPageTableMapping (regions S) L (PTE_RPN (snd v) .<< 12) (PTE_C (snd v)) (host_mappings p))).
Proof using All.
  intros Hallow HR. destruct (older_facts _ _ Ho) as (Er & _).
  split; cbn [m_page_table m_page_mappings host_mappings]; fold t'.
  - intros x. rewrite used_first. apply (sync_words _ _ Hs).
  - intros x Hx. rewrite used_first. by apply (sync_placed _ _ Hs).
  - intros L'. by rewrite (sync_mappings _ _ Hs), used_mapping.
  - intros L'. unfold AddPageTableMapping. destruct (decide (L' = L)) as [->|Hne].
    2: { rewrite map_regions_other by done. rewrite (sync_host _ _ Hs). by rewrite used_host_other. }
    pose proof (sync_host _ _ Hs L) as Hh. fold t in Hh. unfold page_host in *. rewrite used_walk, (proj2 (is_pageb_spec S L) HL) in *.
    rewrite Hw in *. cbn [base.mbind option_bind] in *. unfold t' at 1. rewrite entry_set, Z.eqb_refl. unfold hosted in *.
    rewrite Hallow, HR. cbn [andb]. unfold host_of in *. rewrite Er in Hh. fold (backed S (PTE_RPN (snd v) .<< 12)) in *.
    rewrite map_regions_page; [|apply page_aligned|apply Rok|].
    + fold (backed S (PTE_RPN (snd v) .<< 12)). destruct (backed S _); [done|]. rewrite Hh. by destruct (_ && _).
    + rewrite Hh. destruct (_ && _); [|by left]. destruct (backed S _); [right; by eexists|by left].
Qed.
End Used.

(** The look-aside buffer does not matter. *)
Lemma follows_tlb t m : host_follows m -> host_follows (with_tlb t m).
Proof. intros [H1 H2 H3 H4]. split; [exact H1|exact H2|exact H3|exact H4]. Qed.
Lemma in_ram_tlb t m : table_in_ram m -> table_in_ram (with_tlb t m).
Proof. intros [H1 H2 H3 H4]. split; [exact H1|exact H2|exact H3|exact H4]. Qed.

Lemma put_field_u32 w lo v : 0 <= lo < 32 -> is_u32 w -> is_u32 (put_field w lo 1 v).
Proof.
  intros Hlo Hw. apply is_u32_by_bits; [apply put_field_nonneg; lia || apply Hw|]. intros i Hi. rewrite testbit_put_field by lia.
  decide_positions. by apply is_u32_bits.
Qed.
Lemma set_access_bits_u32 flag a : is_u32 a -> is_u32 (set_access_bits flag a).
Proof. intros Ha. destruct flag; cbn [set_access_bits]; try done; repeat apply put_field_u32; done || lia. Qed.
Lemma word_at_u32 m a : is_u32 (word_at m a).
Proof. unfold word_at. pose proof (from_be_lt _ (read_bytes_u8 (m_ram (mem m)) a 4)) as H. by rewrite length_read_bytes in H. Qed.
Lemma set_access_R flag a : IsNoExceptionFlag flag = false -> PTE_R (set_access_bits flag a) = true.
Proof.
  unfold PTE_R, bit_at. destruct flag; try done; intros _; cbn [set_access_bits]; by rewrite !testbit_put_field by lia.
Qed.

(** The second word of an entry written in memory. *)
Lemma table_after_write m e v : table_in_ram m -> live (surroundings m) e -> is_u32 v ->
  let m' := with_mem (Write_U32 (mem m) v (m_pagetable_base m + e + 4)) m in
  table_in_ram m' /\ surroundings m' = surroundings m /\
  forall x, live (surroundings m) x -> table_view m' x = if x =? e then (fst (table_view m e), v) else table_view m x.
Proof.
  intros Ht He Hv m'. assert (Es : surroundings m' = surroundings m) by apply surroundings_write.
  destruct (ti_memory _ Ht) as [Hm Hmax]. destruct (CopyToEmu_sizes (mem m) (m_pagetable_base m + e + 4) (to_be 4 v)) as (E1 & E2 & _).
  assert (Ht' : table_in_ram m').
  { split; rewrite ?Es; cbn [m' m_enable_dcache mem m_pagetable_base with_mem]; [apply Ht|apply Ht| |].
    - split; [by apply CopyToEmu_wf|]. unfold Write_U32. by rewrite E2.
    - unfold Write_U32. rewrite E1. apply Ht. }
  split; [done|]. split; [done|]. intros x Hx.
  destruct (table_word m e Ht He) as (_ & H8 & [Hin1 Hin2] & Ef & _), (table_word m x Ht Hx) as (_ & Hx8 & [Hx1 Hx2] & Exf & Exs).
  destruct (table_word m' x Ht' ltac:(by rewrite Es)) as (_ & _ & _ & Ef' & Es').
  change (m_pagetable_base m') with (m_pagetable_base m) in *. rewrite (surjective_pairing (table_view m' x)), Ef', Es'. unfold m'.
  assert (Hd : x = e \/ x + 8 <= e \/ e + 8 <= x) by (clear - H8 Hx8; Z.div_mod_to_equations; lia).
  rewrite !word_after_write; try done; try (split; lia); try lia.
  destruct (Z.eqb_spec x e) as [->|Hne].
  - by rewrite Z.eqb_refl, (proj2 (Z.eqb_neq _ (m_pagetable_base m + e + 4))), Ef by lia.
  - rewrite !(proj2 (Z.eqb_neq _ (m_pagetable_base m + e + 4))) by lia. by rewrite <- Exf, <- Exs, <- surjective_pairing.
Qed.

(** The entry is used: its access bits are set in memory, and on the way also in the copy and
    for the host where the host may show the page. *)
Lemma entry_used_follows flag address e m : table_in_ram m -> host_follows m -> regions_ok (surroundings m) ->
  distinct_segments (surroundings m) -> is_page (surroundings m) (page_of address) ->
  page_walk (surroundings m) (table_view m) (page_of address) = Some e -> IsNoExceptionFlag flag = false ->
  let v := set_access_bits flag (snd (table_view m e)) in
  let m1 := with_mem (Write_U32 (mem m) v (m_pagetable_base m + e + 4)) m in
  let m' := entry_used address (m_pagetable_base m + e) (fst (table_view m e)) v m1 in
  table_in_ram m' /\ host_follows m' /\ surroundings m' = surroundings m /\
  forall x, live (surroundings m) x -> table_view m' x = if x =? e then (fst (table_view m e), v) else table_view m x.
Proof.
  intros Ht Hf Rok Hd HL Hw En v m1. pose proof (ti_registers _ Ht) as Sok. pose proof (page_walk_live _ Sok _ _ _ HL Hw) as He.
  set (old := snd (table_view m e)) in *.
  assert (Hv : is_u32 v).
  { apply set_access_bits_u32. unfold old. destruct (table_word m e Ht He) as (_ & _ & _ & _ & ->). apply word_at_u32. }
  destruct (table_after_write m e v Ht He Hv) as (Ht1 & Es & Hview). fold m1 in Ht1, Es, Hview.
  destruct Hf as [Hs H1 H2 H3]. assert (Hold : older (snd (copy_of m e)) v).
  { eapply older_trans; [by apply H2|]. apply access_older. }
  destruct (older_facts _ _ Hold) as (Er & Ew & _).
  assert (Hlag : host_mapping_allowed (surroundings m) (page_of address) v = false -> host_follows m1).
  { intros Hno. split; rewrite ?Es; [exact Hs|intros x Hx|intros x Hx|]; try (rewrite (Hview x Hx); change (copy_of m1) with (copy_of m);
      destruct (Z.eqb_spec x e) as [->|]; auto).
    intros L' x HL' Hw' Hal. assert (Hwx : page_walk (surroundings m) (table_view m) L' = Some x).
    { rewrite <- Hw'. apply page_walk_fst; [done|]. intros y Hy. rewrite (Hview y Hy). by destruct (Z.eqb_spec y e) as [->|]. }
    pose proof (page_walk_live _ Sok _ _ _ HL' Hwx) as Hx. rewrite (Hview x Hx) in *. change (copy_of m1) with (copy_of m).
    destruct (Z.eqb_spec x e) as [->|]; [|by apply (H3 L')].
    rewrite (one_page _ _ _ _ _ Sok Hd HL' HL Hwx Hw) in Hal. cbn [snd] in Hal. congruence. }
  unfold entry_used. change (m_page_tables m1) with (m_page_tables m). fold (page_of address).
  rewrite (sync_mappings _ _ Hs). unfold page_mapping. rewrite (proj2 (is_pageb_spec _ _) HL).
  assert (Hwc : page_walk (surroundings m) (copy_of m) (page_of address) = Some e) by (by rewrite (page_walk_fst _ _ _ _ Sok H1)).
  unfold copy_of in Hwc. rewrite Hwc. cbn [fmap option_fmap option_map].
  unfold mapping. fold (copy_of m). rewrite Er, (H1 e He).
  set (prio := (_ mod 64 / 8) .| _). replace (priority_of e (PTE_H (fst (table_view m e)))) with prio; [|].
  2: { unfold prio, priority_of. f_equal. f_equal. destruct (so_base _ Sok) as (b & _ & Eb). cbn [surroundings PPCPageTable.pagetable_base] in Eb.
    rewrite Eb, Z.shiftl_mul_pow2 by done. change (2 ^ 16) with (1024 * 64). by rewrite Z.mul_assoc, Z.add_comm, Z.mod_add by done. }
  assert (Eallow : host_mapping_allowed (surroundings m) (page_of address) (snd (copy_of m e)) =
    host_mapping_allowed (surroundings m) (page_of address) v) by (unfold host_mapping_allowed; by rewrite Ew).
  rewrite Eallow. destruct (host_mapping_allowed (surroundings m) (page_of address) v) eqn:Eal.
  2: { destruct (Z.eqb_spec (PageMapping (PTE_RPN v) false prio) (PageMapping (PTE_RPN v) true prio)) as [Ea|]; [|by auto].
    apply (f_equal PM_host_mapping) in Ea. by rewrite !PM_host_mapping_mapping in Ea. }
  rewrite Z.eqb_refl.
  assert (Hsync := used_in_sync (surroundings m) Sok Rok Hd (m_page_tables m) Hs (page_of address) e (fst (table_view m e), v)
    HL Hwc (H1 e He) Hold Eal (set_access_R flag old En)).
  replace (m_pagetable_base m + e - m_pagetable_base m1) with e by (change (m_pagetable_base m1) with (m_pagetable_base m); lia).
  cbn [snd] in Hsync. change (physical_regions m1) with (PPCPageTable.regions (surroundings m1)). rewrite Es. change (m_page_tables m1) with (m_page_tables m).
  set (p' := mkPageTables _ _ _ _) in *. split; [by destruct Ht1; split|]. split; [|by split].
  assert (Hc : forall x, copy_of (with_page_tables p' m1) x = if x =? e then (fst (table_view m e), v) else copy_of m x) by (intros x; apply entry_set).
  split; change (surroundings (with_page_tables p' m1)) with (surroundings m1); rewrite ?Es; [exact Hsync|intros x Hx|intros x Hx|intros L' x HL' Hw' Hal].
  all: change (table_view (with_page_tables p' m1)) with (table_view m1) in *; rewrite Hc.
  1-2: rewrite (Hview x Hx); destruct (Z.eqb_spec x e) as [->|]; first [done|apply older_refl|by apply H1|by apply H2].
  assert (Hwx : page_walk (surroundings m) (table_view m) L' = Some x).
  { rewrite <- Hw'. apply page_walk_fst; [done|]. intros y Hy. rewrite (Hview y Hy). by destruct (Z.eqb_spec y e) as [->|]. }
  pose proof (page_walk_live _ Sok _ _ _ HL' Hwx) as Hx. rewrite (Hview x Hx) in *. destruct (Z.eqb_spec x e) as [->|]; [done|by apply (H3 L')].
Qed.

(** *** The look-aside buffer *)

(** What is found in the buffer for a page is what the walk finds. *)
Definition tlb_follows m : Prop := forall inst w L, is_page (surroundings m) L ->
  let e := lookup_tlb inst ((L .>> HW_PAGE_INDEX_SHIFT) .& HW_PAGE_INDEX_MASK) m in
  way_of (tag e) w = L .>> HW_PAGE_INDEX_SHIFT -> way_of (vsid e) w = SR_VSID (segment (surroundings m) (EA_SR L)) ->
  exists x, page_walk (surroundings m) (table_view m) L = Some x /\
    way_of (paddr e) w = PTE_RPN (snd (table_view m x)) .<< HW_PAGE_INDEX_SHIFT.

Lemma lookup_put_tlb inst set e m i k : lookup_tlb i k (put_tlb inst set e m) = if bool_decide (i = inst /\ k = set) then e else lookup_tlb i k m.
Proof.
  unfold lookup_tlb, put_tlb. cbn [tlb with_tlb]. case_bool_decide as Hb; [destruct Hb as [-> ->]; by rewrite lookup_insert_eq|].
  rewrite lookup_insert_ne; [done|]. intros [= <- <-]. by apply Hb.
Qed.
Lemma tlb_hit_keys flag vpa i e r e' : tlb_hit flag vpa i e = (r, e') -> tag e' = tag e /\ paddr e' = paddr e /\ vsid e' = vsid e.
Proof. unfold tlb_hit. destruct (_ && _); [by intros [= _ <-]|]. destruct (IsNoExceptionFlag flag); by intros [= _ <-]. Qed.
(** Looking something up changes no key. *)
Lemma lookup_keys flag address VSID m res m' : LookupTLBPageAddress flag address VSID m = (res, m') ->
  forall i k, tag (lookup_tlb i k m') = tag (lookup_tlb i k m) /\ paddr (lookup_tlb i k m') = paddr (lookup_tlb i k m) /\
    vsid (lookup_tlb i k m') = vsid (lookup_tlb i k m).
Proof.
  unfold LookupTLBPageAddress. intros E i k.
  repeat (destruct (_ && _) in E; [destruct (tlb_hit _ _ _ _) as [r e] eqn:Eh in E; injection E as <- <-; rewrite lookup_put_tlb;
    case_bool_decide as Hb; [destruct Hb as [-> ->]; by apply (tlb_hit_keys _ _ _ _ _ _ Eh)|done]|]).
  by injection E as <- <-.
Qed.
(** The tables, the memory and the surroundings stay. *)
Lemma tlb_follows_keys m t : (forall i k, tag (lookup_tlb i k (with_tlb t m)) = tag (lookup_tlb i k m) /\
    paddr (lookup_tlb i k (with_tlb t m)) = paddr (lookup_tlb i k m) /\ vsid (lookup_tlb i k (with_tlb t m)) = vsid (lookup_tlb i k m)) ->
  tlb_follows m -> tlb_follows (with_tlb t m).
Proof.
  intros Hk Hf inst w L HL. cbv zeta. destruct (Hk inst ((L .>> HW_PAGE_INDEX_SHIFT) .& HW_PAGE_INDEX_MASK)) as (-> & -> & ->).
  exact (Hf inst w L HL).
Qed.
Lemma tlb_follows_view m m2 : surroundings_ok (surroundings m) -> surroundings m2 = surroundings m -> tlb m2 = tlb m ->
  (forall x, live (surroundings m) x -> fst (table_view m x) = fst (table_view m2 x) /\
    PTE_RPN (snd (table_view m2 x)) = PTE_RPN (snd (table_view m x))) ->
  tlb_follows m -> tlb_follows m2.
Proof.
  intros Sok Es Et Hv Hf inst w L. rewrite Es. intros HL. unfold lookup_tlb. rewrite Et. intros Htag Hvs.
  destruct (Hf inst w L HL Htag Hvs) as (x & Hx & Hp). exists x. pose proof (page_walk_live _ Sok _ _ _ HL Hx) as Hlive.
  split; [|by rewrite (proj2 (Hv x Hlive))]. rewrite <- Hx. symmetry. apply page_walk_fst; [done|]. intros y Hy. by apply Hv.
Qed.
Lemma page_eq S L a : is_page S L -> 0 <= a -> L .>> HW_PAGE_INDEX_SHIFT = a .>> HW_PAGE_INDEX_SHIFT -> L = page_of a.
Proof.
  intros (HL & Ho & _) Ha E. rewrite page_of_split by done. unfold HW_PAGE_INDEX_SHIFT in E. rewrite !Z.shiftr_div_pow2 in E by lia.
  unfold EA_offset, field in Ho. rewrite Z.shiftr_0_r in Ho. rewrite (land_ones_mod 12) in Ho by done. change (2 ^ 12) with 4096 in *.
  pose proof (Z.div_mod L 4096 ltac:(lia)). pose proof (Z.div_mod a 4096 ltac:(lia)). lia.
Qed.
Lemma update_tlb_follows flag pte2 address e m : is_u32 address -> tlb_follows m ->
  page_walk (surroundings m) (table_view m) (page_of address) = Some e -> PTE_RPN pte2 = PTE_RPN (snd (table_view m e)) ->
  tlb_follows (UpdateTLBEntry flag pte2 address (SR_VSID (segment (surroundings m) (EA_SR address))) m).
Proof.
  intros Ha Hf Hw Hr. unfold UpdateTLBEntry. destruct (IsNoExceptionFlag flag); [done|]. cbv zeta.
  set (set_ := (address .>> _) .& _). set (index := (_ =? 0) && _). set (new := mkTLBEntry _ _ _ _ _).
  intros inst w L HL. cbv zeta. change (surroundings (put_tlb (IsOpcodeFlag flag) set_ new m)) with (surroundings m) in *.
  change (table_view (put_tlb (IsOpcodeFlag flag) set_ new m)) with (table_view m). rewrite lookup_put_tlb.
  case_bool_decide as Hb; [|exact (Hf inst w L HL)]. destruct Hb as [-> Hset].
  destruct (decide (w = index)) as [->|Hne].
  - cbn [new tag vsid paddr]. assert (Ew : forall v p, way_of (put_way index v p) index = v) by (intros v [? ?]; by destruct index).
    rewrite !Ew. intros Htag _. pose proof (page_eq _ _ address HL (proj1 Ha) (eq_sym Htag)) as ->.
    exists e. split; [exact Hw|]. by rewrite Hr.
  - assert (Ew : forall v p, way_of (put_way index v p) w = way_of p w) by (intros v [? ?]; by destruct index, w).
    cbn [new tag vsid paddr]. rewrite !Ew, <- Hset. exact (Hf (IsOpcodeFlag flag) w L HL).
Qed.

(** *** The whole use of an entry *)

Lemma page_used_follows flag uc address e m : table_in_ram m -> host_follows m -> tlb_follows m -> regions_ok (surroundings m) ->
  distinct_segments (surroundings m) -> is_u32 address -> is_page (surroundings m) (page_of address) ->
  page_walk (surroundings m) (table_view m) (page_of address) = Some e ->
  let m' := page_used flag uc address (SR_VSID (segment (surroundings m) (EA_SR address))) (fst (table_view m e)) e m in
  table_in_ram m' /\ host_follows m' /\ surroundings m' = surroundings m /\ tlb_follows m'.
Proof.
  intros Ht Hf Htlb Rok Hd Ha HL Hw. pose proof (ti_registers _ Ht) as Sok. pose proof (page_walk_live _ Sok _ _ _ HL Hw) as He.
  cbv zeta. unfold page_used. set (old := snd (table_view m e)). set (v := set_access_bits flag old).
  assert (Hr : PTE_RPN v = PTE_RPN old) by (unfold PTE_RPN, v; by rewrite set_access_bits_other by lia).
  set (m1 := if negb (IsNoExceptionFlag flag) && negb (v =? old) then _ else m).
  cut (table_in_ram m1 /\ host_follows m1 /\ surroundings m1 = surroundings m /\ tlb m1 = tlb m /\
    forall x, live (surroundings m) x -> fst (table_view m x) = fst (table_view m1 x) /\ PTE_RPN (snd (table_view m1 x)) = PTE_RPN (snd (table_view m x))).
  { intros (H1 & H2 & H3 & H4 & H5). pose proof (tlb_follows_view m m1 Sok H3 H4 H5 Htlb) as H6.
    destruct uc; [done|]. split; [|split; [|split]].
    - unfold UpdateTLBEntry. destruct (IsNoExceptionFlag flag); [done|by apply in_ram_tlb].
    - unfold UpdateTLBEntry. destruct (IsNoExceptionFlag flag); [done|by apply follows_tlb].
    - unfold UpdateTLBEntry. by destruct (IsNoExceptionFlag flag).
    - rewrite <- H3. apply (update_tlb_follows flag v address e m1 Ha H6).
      + rewrite H3, <- Hw. symmetry. apply page_walk_fst; [done|]. intros y Hy. by apply H5.
      + rewrite Hr. symmetry. by apply (H5 e He). }
  unfold m1. clear m1. destruct (IsNoExceptionFlag flag) eqn:En; [done|]. destruct (Z.eqb_spec v old) as [|Hne]; cbn [negb andb]; [done|].
  destruct (entry_used_follows flag address e m Ht Hf Rok Hd HL Hw En) as (H1 & H2 & H3 & H4). fold old v in H1, H2, H3, H4.
  split; [exact H1|]. split; [exact H2|]. split; [exact H3|]. split.
  - unfold entry_used. repeat case_match; done.
  - intros x Hx. rewrite (H4 x Hx). destruct (Z.eqb_spec x e) as [->|]; [|done]. by split.
Qed.

(** Every translation. *)
Lemma translation_follows flag address m r m' : table_in_ram m -> host_follows m -> tlb_follows m -> regions_ok (surroundings m) ->
  distinct_segments (surroundings m) -> is_u32 address -> TranslateAddress flag address m = Done r m' ->
  table_in_ram m' /\ host_follows m' /\ surroundings m' = surroundings m /\ tlb_follows m'.
Proof.
  intros Ht Hf Htlb Rok Hd Ha. unfold TranslateAddress, get. unfold mbind at 1, mget at 1.
  destruct (TranslateBatAddress _ address) as [[a wi]|]; [by intros [= _ <-]|]. unfold mbind at 1.
  destruct (TranslatePageAddress flag address m) as [[res wi] m1|] eqn:E; [|done]. intros [= _ <-]. revert E.
  destruct (LookupTLBPageAddress flag address (SR_VSID (get_sr (ppc m) (EA_SR address))) m) as [look m2] eqn:El.
  pose proof (lookup_keys _ _ _ _ _ _ El) as Hkeys. destruct (lookup_tlb_only _ _ _ _ _ _ El) as (t & ->).
  pose proof (in_ram_tlb t m Ht) as Ht2. pose proof (follows_tlb t m Hf) as Hf2. pose proof (tlb_follows_keys m t Hkeys Htlb) as Htlb2.
  assert (Hwalk : look = TLBNotFound \/ look = TLBUpdateC -> TranslatePageAddress flag address m = Done (res, wi) m1 ->
    table_in_ram m1 /\ host_follows m1 /\ surroundings m1 = surroundings m /\ tlb_follows m1).
  { intros Hlook. destruct (SR_T (get_sr (ppc m) (EA_SR address))) eqn:ET.
    { unfold TranslatePageAddress, get, run, mbind, mget. rewrite El, ET. by destruct Hlook as [-> | ->]; intros [= _ _ <-]. }
    destruct (IsOpcodeFlag flag && SR_N (get_sr (ppc m) (EA_SR address))) eqn:EN.
    { unfold TranslatePageAddress, get, run, mbind, mget. rewrite El, ET, EN. by destruct Hlook as [-> | ->]; intros [= _ _ <-]. }
    rewrite (translation_walks flag address m look (with_tlb t m) Ht (proj1 Ha) ET EN El Hlook).
    destruct (page_walk (surroundings m) (table_view m) (page_of address)) as [e|] eqn:Ew; [|by intros [= _ _ <-]].
    intros [= _ _ <-]. apply (page_used_follows flag _ address e (with_tlb t m)); try done.
    split; [by apply page_of_u32|]. split; [by apply page_of_offset, Ha|]. unfold EA_SR. rewrite field_page by (lia || apply Ha). exact ET. }
  destruct look as [a w| |]; [|apply Hwalk; by left|apply Hwalk; by right].
  unfold TranslatePageAddress, get, run, mbind, mget. rewrite El. by intros [= _ _ <-].
Qed.

(** ** Machines whose host shows pages *)

(** From a machine without mappings on: the program changes the page table in memory
    in any way that leaves the entries valid ones of their groups, drops the entries of
    the look-aside buffer that are out of date, and the mappings are brought up to date;
    addresses are translated in between.  The segment registers, the BATs and the
    memory checks stay, and no two segments share an identifier. *)
Definition good_table m : Prop := table_in_ram m /\ regions_ok (surroundings m) /\ distinct_segments (surroundings m) /\
  table_ok (surroundings m) (table_view m) /\ tlb_follows m.
Inductive paged : Machine W -> Prop :=
  | PagedFirst m : good_table m -> m_page_tables m = ClearPageTable -> paged (mmu_PageTableUpdated m)
  | PagedAgain m0 m : paged m0 -> good_table m -> m_page_tables m = m_page_tables m0 -> surroundings m = surroundings m0 ->
      paged (mmu_PageTableUpdated m)
  | PagedTranslation m flag address r m' : paged m -> is_u32 address -> TranslateAddress flag address m = Done r m' -> paged m'.

Record paged_ok m : Prop := {
  pg_ram : table_in_ram m;
  pg_follows : host_follows m;
  pg_tlb : tlb_follows m;
  pg_regions : regions_ok (surroundings m);
  pg_segments : distinct_segments (surroundings m)
}.
Lemma update_paged (Hwant : WantsPageTableMappings = true) m : good_table m ->
  in_sync (surroundings m) (m_page_tables m) -> paged_ok (mmu_PageTableUpdated m).
Proof.
  intros (Ht & Rok & Hd & Hok & Htlb) Hsync.
  destruct (update_follows m Hwant Ht Rok Hok (fun _ => Hsync)) as [H1 H2].
  assert (E : surroundings (mmu_PageTableUpdated m) = surroundings m /\ tlb (mmu_PageTableUpdated m) = tlb m /\
    forall x, table_view (mmu_PageTableUpdated m) x = table_view m x)
    by (unfold mmu_PageTableUpdated, clear_pages; rewrite Hwant; cbn [negb]; by destruct (GetPointerForRange _ _ _)).
  destruct E as (Es & Et & Ev). split; rewrite ?Es; try done. revert Htlb.
  apply tlb_follows_view; [apply Ht|exact Es|exact Et|]. intros x _. by rewrite Ev.
Qed.
Lemma paged_invariant (Hwant : WantsPageTableMappings = true) m : paged m -> paged_ok m.
Proof.
  induction 1 as [m Hg Hc|m0 m _ IH Hg Hp Hs|m flag address r m' _ IH Ha E].
  - apply (update_paged Hwant m Hg). rewrite Hc. apply cleared_in_sync; [apply Hg|done].
  - apply (update_paged Hwant m Hg). rewrite Hp, Hs. apply IH.
  - destruct IH as [H1 H2 H3 H4 H5].
    destruct (translation_follows flag address m r m' H1 H2 H3 H4 H5 Ha E) as (G1 & G2 & G3 & G4). by split; rewrite ?G3.
Qed.

(** ** Properties *)

Lemma page_set a : 0 <= a -> page_of a .>> HW_PAGE_INDEX_SHIFT = a .>> HW_PAGE_INDEX_SHIFT.
Proof.
  intros Ha. rewrite page_of_split by done. unfold HW_PAGE_INDEX_SHIFT. rewrite !Z.shiftr_div_pow2 by lia. change (2 ^ 12) with 4096.
  Z.div_mod_to_equations; lia.
Qed.
Lemma tlb_hit_result flag vpa i e r e' : tlb_hit flag vpa i e = (r, e') ->
  match r with
  | TLBFound a _ => a = way_of (paddr e) i .| (vpa .& 0xfff)
  | TLBUpdateC => is_write flag = true
  | TLBNotFound => False
  end.
Proof. unfold tlb_hit. destruct (is_write flag && _) eqn:Ew; intros [= <- _]; [by apply andb_true_iff in Ew as [? _]|done]. Qed.
Lemma lookup_found flag address VSID m res m' : LookupTLBPageAddress flag address VSID m = (res, m') ->
  match res with
  | TLBFound a _ => exists w, let e := lookup_tlb (IsOpcodeFlag flag) ((address .>> HW_PAGE_INDEX_SHIFT) .& HW_PAGE_INDEX_MASK) m in
      way_of (tag e) w = address .>> HW_PAGE_INDEX_SHIFT /\ way_of (vsid e) w = VSID /\ a = way_of (paddr e) w .| (address .& 0xfff)
  | TLBUpdateC => is_write flag = true
  | TLBNotFound => m' = m
  end.
Proof.
  unfold LookupTLBPageAddress. set (e := lookup_tlb _ _ m). intros E.
  assert (Hway : forall w r e', tlb_hit flag address w e = (r, e') -> way_of (tag e) w = address .>> HW_PAGE_INDEX_SHIFT /\ way_of (vsid e) w = VSID ->
    match r with
    | TLBFound a _ => exists w, way_of (tag e) w = address .>> HW_PAGE_INDEX_SHIFT /\ way_of (vsid e) w = VSID /\ a = way_of (paddr e) w .| (address .& 0xfff)
    | TLBUpdateC => is_write flag = true
    | TLBNotFound => False
    end).
  { intros w r e' Eh [E1 E2]. pose proof (tlb_hit_result _ _ _ _ _ _ Eh) as Hr. destruct r; try done. by exists w. }
  repeat (match type of E with (if ?c then _ else _) = _ => destruct c eqn:Ec end;
    [apply andb_true_iff in Ec as [E1%Z.eqb_eq E2%Z.eqb_eq]; destruct (tlb_hit _ _ _ _) as [r e'] eqn:Eh in E; injection E as <- <-;
     specialize (Hway _ _ _ Eh (conj E1 E2)); by destruct r|clear Ec]).
  by injection E as <- <-.
Qed.
Lemma put_field_same w i : 0 <= i -> bit_at w i = true -> put_field w i 1 1 = w.
Proof.
  intros Hi Hb. apply Z.bits_inj'. intros j Hj. rewrite testbit_put_field by lia.
  destruct (Z.eq_dec j i) as [->|Hne]; [|by decide_positions]. rewrite Z.sub_diag. decide_positions. symmetry. exact Hb.
Qed.

(** What an access needs that does not go through the translation: a page that shows, and for
    a write one that may be written to. *)
Definition host_allows (flag : XCheckTLBFlag.t) (h : HostMapping) : Prop :=
  match flag with
  | XCheckTLBFlag.NoException | XCheckTLBFlag.Read => True
  | XCheckTLBFlag.Write => mapped_writeable h = true
  | _ => False
  end.

(** C6. With the data cache not emulated and the page table in main memory: from the first
    update of the mappings on, however often the table was changed, its valid entries in
    their groups, and the mappings brought up to date with no outdated entry left in the
    look-aside buffer, and whatever was translated since, a page the host shows at
    an address is what translating the address for an access the mapping allows would
    give, by the look-aside buffer or by the walk.  The page is the one of the first
    matching entry, which is cached, has been referenced, and changed exactly if the
    host may write to it, so that the translation has no access bit left to set and the
    memory stays as it is.  Segments, BATs and memory checks stay in between, and no two
    segments share an identifier. *)
Theorem host_shows_page_translation m flag address h : WantsPageTableMappings = true -> paged m -> is_u32 address ->
  host_mappings (m_page_tables m) !! page_of address = Some h -> host_allows flag h ->
  (exists m1, TranslateAddress flag address m =
     Done (mkTranslated PAGE_TABLE_TRANSLATED (mapped_physical h .| EA_offset address) false) m1 /\
     mem m1 = mem m /\ m_page_tables m1 = m_page_tables m) /\
  exists e, page_walk (surroundings m) (table_view m) (page_of address) = Some e /\
    mapped_physical h = PTE_RPN (snd (table_view m e)) .<< 12 /\ mapped_writeable h = PTE_C (snd (table_view m e)) /\
    PTE_wi (snd (table_view m e)) = false /\ PTE_R (snd (table_view m e)) = true.
Proof.
  intros Hwant Hm Ha Hh Hflag. destruct (paged_invariant Hwant m Hm) as [Ht Hf Htlb Rok Hd].
  rewrite (host_exact m Ht Hf) in Hh. destruct (page_host_facts _ _ _ _ Hh) as (e & HL & Hw & -> & HR & Hwi & Hbat).
  split; [|by exists e]. cbn [mapped_physical mapped_writeable] in *.
  assert (Hop : IsOpcodeFlag flag = false) by (by destruct flag).
  set (old := snd (table_view m e)) in *. assert (Hv : set_access_bits flag old = old).
  { destruct flag; try done; cbn [set_access_bits host_allows] in *; by rewrite ?(put_field_same old 8), ?(put_field_same old 7). }
  assert (Hsr : SR_T (get_sr (ppc m) (EA_SR address)) = false /\ EA_SR (page_of address) = EA_SR address).
  { destruct HL as (_ & _ & HT). unfold EA_SR in HT |- *. rewrite field_page in HT |- * by (lia || apply Ha). by split. }
  destruct Hsr as [HT Esr]. unfold TranslateAddress, get. unfold ErrState.mbind at 1, ErrState.mget at 1. rewrite Hop.
  rewrite not_bat_mapped by (done || apply Ha). unfold ErrState.mbind at 1.
  destruct (LookupTLBPageAddress flag address (SR_VSID (get_sr (ppc m) (EA_SR address))) m) as [look m2] eqn:El.
  pose proof (lookup_found _ _ _ _ _ _ El) as Hlook. destruct (lookup_tlb_only _ _ _ _ _ _ El) as (t & ->).
  assert (Hwalk : look = TLBNotFound \/ look = TLBUpdateC -> exists m1, TranslatePageAddress flag address m =
    Done (found address old) m1 /\ mem m1 = mem m /\ m_page_tables m1 = m_page_tables m).
  { intros Hl. rewrite (translation_walks flag address m look (with_tlb t m) Ht (proj1 Ha) HT); [|by rewrite Hop|exact El|exact Hl].
    rewrite Hw. eexists. split; [reflexivity|]. unfold page_used. cbv zeta. change (table_view (with_tlb t m)) with (table_view m). fold old. rewrite Hv, Z.eqb_refl, andb_false_r.
    destruct Hl as [-> | ->]; [|done]. unfold UpdateTLBEntry. by destruct (IsNoExceptionFlag flag). }
  destruct look as [a w| |].
  2-3: destruct Hwalk as (m1 & -> & Hm1); [by auto|]; by exists m1.
  destruct Hlook as (i & Htag & Hvs & ->). unfold TranslatePageAddress, get, run, ErrState.mbind, ErrState.mget. rewrite El.
  destruct (Htlb (IsOpcodeFlag flag) i (page_of address) HL) as (x & Hx & Hp); rewrite ?page_set, ?Esr by apply Ha; [exact Htag|exact Hvs|].
  rewrite page_set in Hp by apply Ha. rewrite Hw in Hx. injection Hx as <-. fold old in Hp. rewrite Hp.
  exists (with_tlb t m). split; [|by split]. unfold EA_offset, field. by rewrite Z.shiftr_0_r.
Qed.

(** C23. With the data cache not emulated: translating an address for any kind of access,
    whatever way it is translated or fails to be, leaves every host mapping what the walk
    of the page table in memory demands, referenced and changed bits included: bits set in memory
    reach the copy and the host together.  It holds from every state that updates of the page
    table (in main memory, its valid entries in their groups, no outdated entry left in the
    look-aside buffer) and translations lead to, as long as no two segments share an identifier
    ([alias_stays_unmapped] shows what happens otherwise). *)
Theorem translation_keeps_host_pages flag address m r m' : WantsPageTableMappings = true -> paged m -> is_u32 address ->
  TranslateAddress flag address m = Done r m' ->
  surroundings m' = surroundings m /\
  forall L, host_mappings (m_page_tables m') !! L = page_host (surroundings m) (table_view m') L.
Proof.
  intros Hwant Hm Ha E. destruct (paged_invariant Hwant m Hm) as [Ht Hf Htlb Rok Hd].
  destruct (translation_follows flag address m r m' Ht Hf Htlb Rok Hd Ha E) as (Ht' & Hf' & Es & _).
  split; [exact Es|]. intros L. rewrite <- Es. by apply host_exact.
Qed.

(** What a use of entry [e] leaves in memory: the referenced bit (8) of its second word is
    set unless the access is one without exceptions, the changed bit (7) if it is a write;
    every other bit, and every byte of other words, is as before. *)
Record access_recorded (flag : XCheckTLBFlag.t) (e : Z) m m' : Prop := {
  ar_first : forall x, live (surroundings m) x -> fst (table_view m' x) = fst (table_view m x);
  ar_second : forall x i, live (surroundings m) x -> 0 <= i -> Z.testbit (snd (table_view m' x)) i =
    Z.testbit (snd (table_view m x)) i ||
    ((x =? e) && (((i =? 8) && negb (IsNoExceptionFlag flag)) || ((i =? 7) && is_write flag)));
  ar_other : forall a, block_ok (mem m) a 1 -> ~ m_pagetable_base m + e + 4 <= a < m_pagetable_base m + e + 8 ->
    mem_byte (mem m') a = mem_byte (mem m) a;
  ar_registers : ppc m' = ppc m
}.
Lemma access_bit flag old i : 0 <= i -> Z.testbit (set_access_bits flag old) i =
  Z.testbit old i || (((i =? 8) && negb (IsNoExceptionFlag flag)) || ((i =? 7) && is_write flag)).
Proof.
  intros Hi. assert (Hc : i = 8 \/ i = 7 \/ (i <> 8 /\ i <> 7)) by lia. destruct Hc as [-> | [-> | [H8 H7]]].
  3: { rewrite (proj2 (Z.eqb_neq _ _) H8), (proj2 (Z.eqb_neq _ _) H7). cbn [andb orb]. rewrite orb_false_r.
    destruct flag; cbn [set_access_bits]; rewrite ?testbit_put_field by lia; by decide_positions. }
  all: destruct flag; cbn [set_access_bits]; rewrite ?testbit_put_field by lia; decide_positions; by destruct (Z.testbit old _).
Qed.
Lemma write_other_bytes m a v x : mem_wf (mem m) -> in_ram (mem m) a 4 -> block_ok (mem m) x 1 -> ~ a <= x < a + 4 ->
  mem_byte (Write_U32 (mem m) v a) x = mem_byte (mem m) x.
Proof.
  intros Hm Hin Hx Hout. unfold Write_U32. rewrite mem_byte_CopyToEmu; [|done|left; by rewrite length_to_be|apply to_be_u8|done].
  apply patch_out. by rewrite length_to_be.
Qed.
Lemma entry_used_mem address pteg_addr pte1 pte2 m : mem (entry_used address pteg_addr pte1 pte2 m) = mem m /\
  ppc (entry_used address pteg_addr pte1 pte2 m) = ppc m /\ tlb (entry_used address pteg_addr pte1 pte2 m) = tlb m.
Proof. unfold entry_used. repeat case_match; done. Qed.
Lemma UpdateTLBEntry_mem flag pte2 address VSID m : mem (UpdateTLBEntry flag pte2 address VSID m) = mem m /\
  ppc (UpdateTLBEntry flag pte2 address VSID m) = ppc m /\ m_pagetable_base (UpdateTLBEntry flag pte2 address VSID m) = m_pagetable_base m.
Proof. unfold UpdateTLBEntry. by destruct (IsNoExceptionFlag flag). Qed.

Lemma page_used_recorded flag uc address VSID e m : table_in_ram m -> live (surroundings m) e ->
  access_recorded flag e m (page_used flag uc address VSID (fst (table_view m e)) e m).
Proof.
  intros Ht He. set (old := snd (table_view m e)). set (v := set_access_bits flag old).
  assert (Hv : is_u32 v).
  { apply set_access_bits_u32. unfold old. destruct (table_word m e Ht He) as (_ & _ & _ & _ & ->). apply word_at_u32. }
  destruct (table_after_write m e v Ht He Hv) as (Ht1 & Es & Hview). set (m1 := with_mem _ m) in *.
  assert (H1 : (forall x, live (surroundings m) x -> table_view m1 x = if x =? e then (fst (table_view m e), v) else table_view m x) /\
    (forall a, block_ok (mem m) a 1 -> ~ m_pagetable_base m + e + 4 <= a < m_pagetable_base m + e + 8 -> mem_byte (mem m1) a = mem_byte (mem m) a)).
  { split; [exact Hview|]. intros a Hb Ha. destruct (table_word m e Ht He) as (_ & _ & [Hin1 Hin2] & _). destruct (ti_memory _ Ht) as [Hm _].
    apply write_other_bytes; [done|split; lia|done|lia]. }
  unfold page_used. fold old v m1. set (m2 := if negb (IsNoExceptionFlag flag) && negb (v =? old) then _ else m).
  assert (H2 : (forall x, live (surroundings m) x -> table_view m2 x = if x =? e then (fst (table_view m e), v) else table_view m x) /\
    (forall a, block_ok (mem m) a 1 -> ~ m_pagetable_base m + e + 4 <= a < m_pagetable_base m + e + 8 -> mem_byte (mem m2) a = mem_byte (mem m) a) /\ ppc m2 = ppc m).
  { unfold m2. destruct (IsNoExceptionFlag flag) eqn:En, (Z.eqb_spec v old) as [Ev|]; cbn [negb andb].
    1-3: split; [|done]; intros x Hx; destruct (Z.eqb_spec x e) as [->|]; [|done];
      assert (Ev' : v = old) by (done || (unfold v; by destruct flag)); rewrite Ev'; unfold old; apply surjective_pairing.
    destruct (entry_used_mem address (m_pagetable_base m + e) (fst (table_view m e)) v m1) as (Em & Ep & _).
    unfold m1 in *. rewrite Em, Ep. split; [|by split; [apply H1|]]. intros x Hx. rewrite <- (Hview x Hx). unfold entry_used. repeat case_match; done. }
  destruct H2 as (V & B & P).
  assert (H3 : forall m3, (forall x, table_view m3 x = table_view m2 x) -> mem m3 = mem m2 -> ppc m3 = ppc m2 -> access_recorded flag e m m3).
  { intros m3 V3 B3 P3. split; [intros x Hx|intros x i Hx Hi|intros a Ha1 Ha2|by rewrite P3].
    - rewrite V3, (V x Hx). by destruct (Z.eqb_spec x e) as [->|].
    - rewrite V3, (V x Hx). destruct (Z.eqb_spec x e) as [->|]; [|by rewrite orb_false_r]. by apply access_bit.
    - rewrite B3. by apply B. }
  destruct uc; [by apply H3|]. destruct (UpdateTLBEntry_mem flag v address VSID m2) as (Em & Ep & _).
  apply H3; [|done|done]. intros x. unfold UpdateTLBEntry. by destruct (IsNoExceptionFlag flag).
Qed.

Lemma TranslateAddress_eval flag address m : TranslateAddress flag address m =
  match TranslateBatAddress (if IsOpcodeFlag flag then m_ibat_table m else m_dbat_table m) address with
  | Some (a, wi) => Done (mkTranslated BAT_TRANSLATED a wi) m
  | None => match TranslatePageAddress flag address m with Done r m' => Done (fst r) m' | Fault f => Fault f end
  end.
Proof. unfold TranslateAddress, get, ErrState.mbind, ErrState.mget. by destruct (TranslateBatAddress _ address) as [[a wi]|]. Qed.
(** What is decided before the walk. *)
Lemma TranslatePageAddress_early flag address m res m1 : LookupTLBPageAddress flag address (SR_VSID (get_sr (ppc m) (EA_SR address))) m = (res, m1) ->
  match res with
  | TLBFound a wi => TranslatePageAddress flag address m = Done (mkTranslated PAGE_TABLE_TRANSLATED a false, wi) m1
  | _ => (SR_T (get_sr (ppc m) (EA_SR address)) = true -> TranslatePageAddress flag address m = Done (mkTranslated DIRECT_STORE_SEGMENT 0 false, false) m1) /\
      (SR_T (get_sr (ppc m) (EA_SR address)) = false -> IsOpcodeFlag flag && SR_N (get_sr (ppc m) (EA_SR address)) = true ->
       TranslatePageAddress flag address m = Done (mkTranslated PAGE_FAULT 0 false, false) m1)
  end.
Proof.
  intros El. unfold TranslatePageAddress, get, run, ErrState.mbind, ErrState.mget. rewrite El.
  destruct res; [done|split; [by intros ->|by intros -> ->]..].
Qed.

(** C13. With the page table in main memory and the data cache not emulated, an address is
    translated by the BATs; if they do not map it by the look-aside buffer; and if that has
    no answer, or an answer that needs the changed bit, as follows.  A direct-store segment
    and the fetch of an instruction from a no-execute segment are refused.  Otherwise the
    walk decides: the first entry of the eight of the primary group, then of the eight
    of the secondary group, whose first word fits, gives the page (said to be cached whatever
    the entry says: the W and I bits are not passed on), and exactly its referenced and
    changed bits are set in memory as the access requires; without such an entry there
    is a page fault.  But for this and the look-aside buffer nothing changes. *)
Theorem translation_is_the_walk flag address m : table_in_ram m -> 0 <= address ->
  let S := surroundings m in
  let sr_ := get_sr (ppc m) (EA_SR address) in
  match TranslateBatAddress (if IsOpcodeFlag flag then m_ibat_table m else m_dbat_table m) address with
  | Some (a, wi) => TranslateAddress flag address m = Done (mkTranslated BAT_TRANSLATED a wi) m
  | None =>
      let '(res, m1) := LookupTLBPageAddress flag address (SR_VSID sr_) m in
      mem m1 = mem m /\ ppc m1 = ppc m /\ m_page_tables m1 = m_page_tables m /\
      match res with
      | TLBFound a _ => TranslateAddress flag address m = Done (mkTranslated PAGE_TABLE_TRANSLATED a false) m1
      | TLBNotFound | TLBUpdateC =>
          if SR_T sr_ then TranslateAddress flag address m = Done (mkTranslated DIRECT_STORE_SEGMENT 0 false) m1
          else if IsOpcodeFlag flag && SR_N sr_ then TranslateAddress flag address m = Done (mkTranslated PAGE_FAULT 0 false) m1
          else match page_walk S (table_view m) (page_of address) with
               | Some e => exists m', TranslateAddress flag address m =
                   Done (mkTranslated PAGE_TABLE_TRANSLATED ((PTE_RPN (snd (table_view m e)) .<< 12) .| EA_offset address) false) m' /\
                   access_recorded flag e m m'
               | None => TranslateAddress flag address m = Done (mkTranslated PAGE_FAULT 0 false) m1
               end
      end
  end.
Proof.
  intros Ht Ha S sr_. rewrite TranslateAddress_eval.
  destruct (TranslateBatAddress _ address) as [[a wi]|]; [done|].
  destruct (LookupTLBPageAddress flag address (SR_VSID sr_) m) as [res m1] eqn:El.
  pose proof (TranslatePageAddress_early _ _ _ _ _ El) as Hearly. fold sr_ in Hearly.
  destruct (lookup_tlb_only _ _ _ _ _ _ El) as (t & ->). do 3 (split; [done|]).
  assert (Hwalk : res = TLBNotFound \/ res = TLBUpdateC -> SR_T sr_ = false -> IsOpcodeFlag flag && SR_N sr_ = false ->
    match page_walk S (table_view m) (page_of address) with
    | Some e => exists m', TranslatePageAddress flag address m = Done (found address (snd (table_view m e))) m' /\ access_recorded flag e m m'
    | None => TranslatePageAddress flag address m = Done (mkTranslated PAGE_FAULT 0 false, false) (with_tlb t m)
    end).
  { intros Hl HT HN. rewrite (translation_walks flag address m res (with_tlb t m) Ht Ha HT HN El Hl). fold S sr_.
    destruct (page_walk S (table_view m) (page_of address)) as [e|] eqn:Ew; [|done]. eexists. split; [reflexivity|].
    assert (He : live S e).
    { unfold page_walk in Ew. destruct (List.find _ _) as [[e' H]|] eqn:Ef; [|done]. injection Ew as <-.
      apply find_some in Ef as [Hin _]. apply list_elem_of_In, walk_slots_elem in Hin as (k & Hk & ->). by apply slot_live; [apply Ht|]. }
    destruct (page_used_recorded flag (match res with TLBUpdateC => true | _ => false end) address (SR_VSID sr_) e (with_tlb t m) (in_ram_tlb t m Ht) He) as [R1 R2 R3 R4].
    by split. }
  destruct res as [a w| |]; [by rewrite Hearly|..].
  all: destruct Hearly as [Hearly1 Hearly2]; destruct (SR_T sr_) eqn:HT; [by rewrite Hearly1|].
  all: destruct (IsOpcodeFlag flag && SR_N sr_) eqn:HN; [by rewrite Hearly2|].
  all: specialize (Hwalk ltac:(auto) eq_refl eq_refl); destruct (page_walk S (table_view m) (page_of address)) as [e|].
  all: try (by rewrite Hwalk); destruct Hwalk as (m' & -> & Hr); by exists m'.
Qed.

End HostPages.

(** ** An example *)

(** Segments with the identifiers 1 to 16, a table of 64 KiB at 1 MiB; the page 0x3000 has
    an entry for 0x5000 that has been referenced but not changed. *)
Definition paged_state : PowerPCState :=
  mkPPC 0 0 [] [] [] 0x30 0 0 0 0 0 0 (map (fun i => Z.of_nat i + 1) (seq 0 16)) ∅ false.
Definition entry_address : Z := 0x100000 + slot small_table 0x3000 false 2.
Definition paged_memory : MemoryManager :=
  Write_U32 (Write_U32 (Memmap.Init MEM1_SIZE_RETAIL MEM2_SIZE_RETAIL false) (page_pte1 small_table 0x3000 false) entry_address)
    0x5100 (entry_address + 4).
Definition paged_machine : Machine unit :=
  mmu_PageTableUpdated (D := quiet_devices false) (with_pagetable 0x100000 0xffc0 (quiet_machine paged_state paged_memory)).

#[local] Instance quiet : Devices unit := quiet_devices false.
Definition start_machine : Machine unit := with_pagetable 0x100000 0xffc0 (quiet_machine paged_state paged_memory).

Lemma start_in_ram : table_in_ram start_machine.
Proof.
  split; [done|split; [by exists 0|by exists 16]| |vm_compute; discriminate].
  split; [|vm_compute; discriminate]. do 2 apply CopyToEmu_wf. by apply Init_wf.
Qed.
Lemma start_regions : regions_ok (surroundings start_machine).
Proof. by repeat constructor. Qed.
Lemma start_table_ok : table_ok (surroundings start_machine) (table_view start_machine).
Proof.
  split; [intros e; apply (word_at_u32 start_machine)|]. intros e He HV Hno.
  assert (Hall : forallb (fun e => let p := fst (table_view start_machine e) in
    negb (PTE_V p) || bool_decide (get_page_index (surroundings start_machine) p (e / 64) <> None))
    (visited (surroundings start_machine) (page_table_size (surroundings start_machine))) = true) by (vm_compute; reflexivity).
  rewrite forallb_forall in Hall. specialize (Hall e). rewrite <- list_elem_of_In, visited_live in Hall by apply start_in_ram.
  specialize (Hall He). cbv zeta in Hall. rewrite HV in Hall. apply bool_decide_eq_true_1 in Hall. by apply Hall.
Qed.
Lemma start_segments : distinct_segments (surroundings start_machine).
Proof.
  assert (Hv : forall i, 0 <= i < 16 -> SR_VSID (segment (surroundings start_machine) i) = i + 1).
  { intros i Hi. assert (Hi' : In i (map Z.of_nat (seq 0 16))) by (apply in_map_iff; exists (Z.to_nat i); rewrite in_seq; lia).
    revert i Hi Hi'. cbn [seq map In]. intros i _ Hi. repeat (destruct Hi as [<- | Hi]; [vm_compute; reflexivity|]). done. }
  intros i j Hi Hj _ _. rewrite !Hv by done. lia.
Qed.

Lemma start_tlb : tlb_follows start_machine.
Proof.
  intros inst w L (HL & _). cbv zeta. change (lookup_tlb _ _ start_machine) with empty_TLBEntry. intros E. exfalso.
  assert (E' : L .>> HW_PAGE_INDEX_SHIFT = INVALID_TAG) by (rewrite <- E; by destruct w).
  unfold HW_PAGE_INDEX_SHIFT, INVALID_TAG in E'. rewrite Z.shiftr_div_pow2 in E' by lia. change (2 ^ 12) with 4096 in E'.
  destruct HL. Z.div_mod_to_equations; lia.
Qed.
Lemma start_good : good_table start_machine.
Proof. exact (conj start_in_ram (conj start_regions (conj start_segments (conj start_table_ok start_tlb)))). Qed.
Lemma paged_machine_paged : paged paged_machine.
Proof. apply (PagedFirst start_machine start_good). reflexivity. Qed.
Lemma paged_in_ram : table_in_ram paged_machine.
Proof. exact (pg_ram _ (paged_invariant eq_refl _ paged_machine_paged)). Qed.

(** A write through the page sets its changed bit. *)
Lemma translation_is_the_walk_witness : exists m',
  TranslateAddress XCheckTLBFlag.Write 0x3ABC paged_machine = Done (mkTranslated PAGE_TABLE_TRANSLATED 0x5ABC false) m' /\
  Z.testbit (snd (table_view m' (slot (surroundings paged_machine) 0x3000 false 2))) 7 = true.
Proof.
  pose proof (translation_is_the_walk XCheckTLBFlag.Write 0x3ABC paged_machine paged_in_ram ltac:(lia)) as H. cbv zeta in H.
  change (IsOpcodeFlag XCheckTLBFlag.Write) with false in H. cbv iota in H.
  assert (Eb : TranslateBatAddress (m_dbat_table paged_machine) 0x3ABC = None) by (vm_compute; reflexivity). rewrite Eb in H.
  assert (El : LookupTLBPageAddress XCheckTLBFlag.Write 0x3ABC (SR_VSID (get_sr (ppc paged_machine) (EA_SR 0x3ABC))) paged_machine =
    (TLBNotFound, paged_machine)) by (vm_compute; reflexivity). rewrite El in H. destruct H as (_ & _ & _ & H).
  assert (ET : SR_T (get_sr (ppc paged_machine) (EA_SR 0x3ABC)) = false) by (vm_compute; reflexivity). rewrite ET in H. cbn [andb] in H. cbv iota in H.
  assert (Ew : page_walk (surroundings paged_machine) (table_view paged_machine) (page_of 0x3ABC) = Some (slot (surroundings paged_machine) 0x3000 false 2))
    by (vm_compute; reflexivity). rewrite Ew in H. destruct H as (m' & E & R). exists m'. split.
  - rewrite E. vm_compute. reflexivity.
  - rewrite (ar_second _ _ _ _ R); [vm_compute; reflexivity|apply slot_live; [apply paged_in_ram|lia]|lia].
Defined.

(** After a read through the page the look-aside buffer answers. *)
Definition after_read (m : Machine unit) : Machine unit :=
  match TranslateAddress XCheckTLBFlag.Read 0x3ABC m with Done _ m' => m' | Fault _ => m end.
Lemma host_shows_page_translation_witness :
  host_mappings (m_page_tables (after_read paged_machine)) !! 0x3000 = Some (mkHostMapping 0x3000 0x1000 0x5000 false) /\
  exists m1, TranslateAddress XCheckTLBFlag.Read 0x3DEF (after_read paged_machine) =
    Done (mkTranslated PAGE_TABLE_TRANSLATED 0x5DEF false) m1 /\ mem m1 = mem (after_read paged_machine).
Proof.
  assert (Eh : host_mappings (m_page_tables (after_read paged_machine)) !! 0x3000 = Some (mkHostMapping 0x3000 0x1000 0x5000 false))
    by (vm_compute; reflexivity). split; [exact Eh|].
  assert (Hp : paged (after_read paged_machine)).
  { assert (E : exists r, TranslateAddress XCheckTLBFlag.Read 0x3ABC paged_machine = Done r (after_read paged_machine))
      by (eexists; vm_compute; reflexivity).
    destruct E as [r E]. refine (PagedTranslation _ _ _ _ _ paged_machine_paged _ E). split; reflexivity || lia. }
  destruct (host_shows_page_translation (D := quiet) (after_read paged_machine) XCheckTLBFlag.Read 0x3DEF _ eq_refl Hp ltac:(split; reflexivity || lia) Eh I)
    as ((m1 & E & Em & _) & _). exists m1. split; [exact E|exact Em].
Defined.

(** A write through the page: the host may write to it afterwards. *)
Lemma translation_keeps_host_pages_witness : exists r m',
  TranslateAddress XCheckTLBFlag.Write 0x3ABC paged_machine = Done r m' /\
  host_mappings (m_page_tables m') !! 0x3000 = Some (mkHostMapping 0x3000 0x1000 0x5000 true) /\
  page_host (surroundings paged_machine) (table_view m') 0x3000 = Some (mkHostMapping 0x3000 0x1000 0x5000 true).
Proof.
  assert (E : exists r m', TranslateAddress XCheckTLBFlag.Write 0x3ABC paged_machine = Done r m' /\
    host_mappings (m_page_tables m') !! 0x3000 = Some (mkHostMapping 0x3000 0x1000 0x5000 true)).
  { do 2 eexists. split; vm_compute; reflexivity. }
  destruct E as (r & m' & E & Eh). exists r, m'. split; [exact E|]. split; [exact Eh|]. rewrite <- Eh. symmetry.
  refine (proj2 (translation_keeps_host_pages (D := quiet) XCheckTLBFlag.Write 0x3ABC paged_machine r m' eq_refl paged_machine_paged _ E) 0x3000).
  split; reflexivity || lia.
Defined.

(** Without distinct segments the use of an entry reaches one page only: here two segments share
    an identifier, the entry had not been referenced, and after a read through the first page the
    second one is not shown, although a fresh update would show it. *)
Definition two_aliases : PowerPCState := mkPPC 0 0 [] [] [] 0x30 0 0 0 0 0 0 (1 :: 1 :: map (fun i => Z.of_nat i + 3) (seq 0 14)) ∅ false.
Definition alias_machine : Machine unit :=
  mmu_PageTableUpdated (with_pagetable 0x100000 0xffc0 (quiet_machine two_aliases (Write_U32 paged_memory 0x5000 (entry_address + 4)))).
Lemma alias_stays_unmapped :
  let m := mmu_PageTableUpdated (after_read alias_machine) in
  host_mappings (m_page_tables m) !! 0x3000 = Some (mkHostMapping 0x3000 0x1000 0x5000 false) /\
  host_mappings (m_page_tables m) !! 0x10003000 = None /\
  page_host (surroundings m) (table_view m) 0x10003000 = Some (mkHostMapping 0x10003000 0x1000 0x5000 false).
Proof. vm_compute. repeat split. Qed.
