(* ===== verification/PPCLoadStore.v ===== *)
(** * Loads, stores and cache control (Interpreter/Interpreter_LoadStore.cpp)

    One definition per function of the file, over the machine.  Panic alerts and
    log output are left out. *)
From S2P Require PPCFloat.
From S2P Require Export PPCBat.

Definition NB inst := field inst 11 5.
Definition FS inst := field inst 21 5.

(** ** Effective addresses *)

Definition Helper_Get_EA inst (s : PowerPCState) : Z :=
  if negb (RA inst =? 0) then u32 (get_gpr s (RA inst) + u32 (SIMM_16 inst)) else u32 (SIMM_16 inst).
Definition Helper_Get_EA_U inst (s : PowerPCState) : Z := u32 (get_gpr s (RA inst) + u32 (SIMM_16 inst)).
Definition Helper_Get_EA_X inst (s : PowerPCState) : Z :=
  if negb (RA inst =? 0) then u32 (get_gpr s (RA inst) + get_gpr s (RB inst)) else get_gpr s (RB inst).
Definition Helper_Get_EA_UX inst (s : PowerPCState) : Z := u32 (get_gpr s (RA inst) + get_gpr s (RB inst)).

Definition MSR_LE s := bit_at (msr s) 0.
(** [u32(s32(s16(x)))] *)
Definition extend16 (x : Z) : Z := u32 (s16 x).

Section LoadStore.
Context {W : Type} {D : Devices W}.
Implicit Types m : Machine W.

Definition dsi_raised m : bool := pending (ppc m) EXCEPTION_DSI.
(** [if (!(ppc_state.Exceptions & EXCEPTION_DSI)) ...] *)
Definition unless_dsi (f : PowerPCState -> PowerPCState) : M (Machine W) unit :=
  dsi <- get dsi_raised ;; mwhen (negb dsi) (modify (on_ppc f)).
Definition on_gpr (f : PowerPCState -> PowerPCState) : M (Machine W) unit := modify (on_ppc f).
(** [if ((address & 0b11) != 0) { GenerateAlignmentException(...); return; }] *)
Definition aligned (address : Z) (k : M (Machine W) unit) : M (Machine W) unit :=
  if negb (address .& 0x3 =? 0) then on_gpr (GenerateAlignmentException address) else k.
Definition ea (f : Z -> PowerPCState -> Z) inst : M (Machine W) Z := get (fun m => f inst (ppc m)).
Definition privileged_op (k : M (Machine W) unit) : M (Machine W) unit :=
  pr <- get (fun m => MSR_PR (ppc m)) ;;
  if pr then on_gpr (GenerateProgramException PrivilegedInstruction) else k.

(** ** Loads *)

(** A load of [n] bytes; [conv] makes the register's value of them. *)
Definition load (n : nat) (conv : Z -> Z) inst (address : Z) : M (Machine W) unit :=
  temp <- mmu_read n address ;; unless_dsi (set_gpr (RD inst) (conv temp)).
(** With update, the address goes to RA afterwards. *)
Definition load_update (n : nat) (conv : Z -> Z) inst (address : Z) : M (Machine W) unit :=
  temp <- mmu_read n address ;;
  unless_dsi (fun s => set_gpr (RA inst) address (set_gpr (RD inst) (conv temp) s)).

Definition lbz inst := a <- ea Helper_Get_EA inst ;; load 1 id inst a.
Definition lbzu inst := address <- ea Helper_Get_EA_U inst ;; load_update 1 id inst address.
Definition lbzx inst := a <- ea Helper_Get_EA_X inst ;; load 1 id inst a.
Definition lbzux inst := address <- ea Helper_Get_EA_UX inst ;; load_update 1 id inst address.
Definition lhz inst := a <- ea Helper_Get_EA inst ;; load 2 id inst a.
Definition lhzu inst := address <- ea Helper_Get_EA_U inst ;; load_update 2 id inst address.
Definition lhzx inst := a <- ea Helper_Get_EA_X inst ;; load 2 id inst a.
Definition lhzux inst := address <- ea Helper_Get_EA_UX inst ;; load_update 2 id inst address.
Definition lha inst := a <- ea Helper_Get_EA inst ;; load 2 extend16 inst a.
Definition lhau inst := address <- ea Helper_Get_EA_U inst ;; load_update 2 extend16 inst address.
Definition lhax inst := a <- ea Helper_Get_EA_X inst ;; load 2 extend16 inst a.
Definition lhaux inst := address <- ea Helper_Get_EA_UX inst ;; load_update 2 extend16 inst address.
Definition lwz inst := address <- ea Helper_Get_EA inst ;; load 4 id inst address.
Definition lwzu inst := address <- ea Helper_Get_EA_U inst ;; load_update 4 id inst address.
Definition lwzx inst := address <- ea Helper_Get_EA_X inst ;; load 4 id inst address.
Definition lwzux inst := address <- ea Helper_Get_EA_UX inst ;; load_update 4 id inst address.
Definition lhbrx inst := a <- ea Helper_Get_EA_X inst ;; load 2 swap16 inst a.
Definition lwbrx inst := a <- ea Helper_Get_EA_X inst ;; load 4 swap32 inst a.

Definition load_double inst (address : Z) : M (Machine W) unit :=
  temp <- mmu_read 8 address ;; unless_dsi (PPCFloat.SetPS0 (FD inst) temp).
Definition load_double_update inst (address : Z) : M (Machine W) unit :=
  temp <- mmu_read 8 address ;; unless_dsi (fun s => set_gpr (RA inst) address (PPCFloat.SetPS0 (FD inst) temp s)).
Definition lfd inst := address <- ea Helper_Get_EA inst ;; aligned address (load_double inst address).
Definition lfdu inst := address <- ea Helper_Get_EA_U inst ;; aligned address (load_double_update inst address).
Definition lfdux inst := address <- ea Helper_Get_EA_UX inst ;; aligned address (load_double_update inst address).
Definition lfdx inst := address <- ea Helper_Get_EA_X inst ;; aligned address (load_double inst address).

Definition Fill (i value : Z) : PowerPCState -> PowerPCState := PPCFloat.SetBoth i value value.
Definition load_single (after : Z -> PowerPCState -> PowerPCState) inst (address : Z) : M (Machine W) unit :=
  temp <- mmu_read 4 address ;;
  dsi <- get dsi_raised ;;
  mwhen (negb dsi)
    (value <- mopt OutOfFuel (PPCFloat.ConvertToDouble temp) ;;
     on_gpr (fun s => after address (Fill (FD inst) value s))).
Definition lfs inst := address <- ea Helper_Get_EA inst ;; aligned address (load_single (fun _ s => s) inst address).
Definition lfsu inst := address <- ea Helper_Get_EA_U inst ;; aligned address (load_single (set_gpr (RA inst)) inst address).
Definition lfsux inst := address <- ea Helper_Get_EA_UX inst ;; aligned address (load_single (set_gpr (RA inst)) inst address).
Definition lfsx inst := address <- ea Helper_Get_EA_X inst ;; aligned address (load_single (fun _ s => s) inst address).

(** ** Stores *)

Definition store_gpr (n : nat) inst (address : Z) : M (Machine W) unit :=
  v <- get (fun m => get_gpr (ppc m) (RS inst)) ;; mmu_write n v address.
(** With update, the address goes to RA unless the store failed. *)
Definition with_update (store : Z -> M (Machine W) unit) inst (address : Z) : M (Machine W) unit :=
  store address ;;; unless_dsi (set_gpr (RA inst) address).

Definition stb inst := a <- ea Helper_Get_EA inst ;; store_gpr 1 inst a.
Definition stbu inst := address <- ea Helper_Get_EA_U inst ;; with_update (store_gpr 1 inst) inst address.
Definition stbx inst := a <- ea Helper_Get_EA_X inst ;; store_gpr 1 inst a.
Definition stbux inst := address <- ea Helper_Get_EA_UX inst ;; with_update (store_gpr 1 inst) inst address.
Definition sth inst := a <- ea Helper_Get_EA inst ;; store_gpr 2 inst a.
Definition sthu inst := address <- ea Helper_Get_EA_U inst ;; with_update (store_gpr 2 inst) inst address.
Definition sthx inst := a <- ea Helper_Get_EA_X inst ;; store_gpr 2 inst a.
Definition sthux inst := address <- ea Helper_Get_EA_UX inst ;; with_update (store_gpr 2 inst) inst address.
Definition stw inst := a <- ea Helper_Get_EA inst ;; store_gpr 4 inst a.
Definition stwu inst := address <- ea Helper_Get_EA_U inst ;; with_update (store_gpr 4 inst) inst address.
Definition stwx inst := address <- ea Helper_Get_EA_X inst ;; store_gpr 4 inst address.
Definition stwux inst := address <- ea Helper_Get_EA_UX inst ;; with_update (store_gpr 4 inst) inst address.
Definition sthbrx inst :=
  a <- ea Helper_Get_EA_X inst ;; v <- get (fun m => get_gpr (ppc m) (RS inst)) ;; Write_U16_Swap v a.
Definition stwbrx inst :=
  address <- ea Helper_Get_EA_X inst ;; v <- get (fun m => get_gpr (ppc m) (RS inst)) ;; mmu_Write_U32_Swap v address.

Definition PS0AsU64 inst m : Z := fst (PPCFloat.get_ps (ppc m) (FS inst)).
Definition PS0AsU32 inst m : Z := u32 (fst (PPCFloat.get_ps (ppc m) (FS inst))).
Definition store_double inst (address : Z) : M (Machine W) unit := v <- get (PS0AsU64 inst) ;; mmu_write_u64 v address.
Definition store_single inst (address : Z) : M (Machine W) unit :=
  v <- get (PS0AsU64 inst) ;; mmu_write 4 (PPCFloat.ConvertToSingle v) address.
Definition stfd inst := address <- ea Helper_Get_EA inst ;; aligned address (store_double inst address).
Definition stfdu inst := address <- ea Helper_Get_EA_U inst ;; aligned address (with_update (store_double inst) inst address).
Definition stfdx inst := address <- ea Helper_Get_EA_X inst ;; aligned address (store_double inst address).
Definition stfdux inst := address <- ea Helper_Get_EA_UX inst ;; aligned address (with_update (store_double inst) inst address).
Definition stfs inst := address <- ea Helper_Get_EA inst ;; aligned address (store_single inst address).
Definition stfsu inst := address <- ea Helper_Get_EA_U inst ;; aligned address (with_update (store_single inst) inst address).
Definition stfsx inst := address <- ea Helper_Get_EA_X inst ;; aligned address (store_single inst address).
Definition stfsux inst := address <- ea Helper_Get_EA_UX inst ;; aligned address (with_update (store_single inst) inst address).
Definition stfiwx inst :=
  address <- ea Helper_Get_EA_X inst ;; aligned address (v <- get (PS0AsU32 inst) ;; mmu_write 4 v address).

(** ** Several registers *)

(** [if ((address & 0b11) != 0 || msr.LE) { GenerateAlignmentException(...); return; }] *)
Definition aligned_big_endian (address : Z) (k : M (Machine W) unit) : M (Machine W) unit :=
  le <- get (fun m => MSR_LE (ppc m)) ;;
  if negb (address .& 0x3 =? 0) || le then on_gpr (GenerateAlignmentException address) else k.
(** The loops [for (i = inst.RD; i <= 31; i++, address += 4)], [n] turns of them. *)
Fixpoint lmw_loop (n : nat) (i address : Z) : M (Machine W) unit :=
  match n with
  | O => mret tt
  | S n' =>
      temp_reg <- mmu_read 4 address ;;
      dsi <- get dsi_raised ;;
      if dsi : bool then mret tt
      else on_gpr (set_gpr i temp_reg) ;;; lmw_loop n' (i + 1) (u32 (address + 4))
  end.
Fixpoint stmw_loop (n : nat) (i address : Z) : M (Machine W) unit :=
  match n with
  | O => mret tt
  | S n' =>
      v <- get (fun m => get_gpr (ppc m) i) ;;
      mmu_write 4 v address ;;;
      dsi <- get dsi_raised ;;
      if dsi : bool then mret tt else stmw_loop n' (i + 1) (u32 (address + 4))
  end.
Definition lmw inst :=
  address <- ea Helper_Get_EA inst ;;
  aligned_big_endian address (lmw_loop (Z.to_nat (32 - RD inst)) (RD inst) address).
Definition stmw inst :=
  address <- ea Helper_Get_EA inst ;;
  aligned_big_endian address (stmw_loop (Z.to_nat (32 - RS inst)) (RS inst) address).

(** ** Strings *)

(** [if (msr.LE) { GenerateAlignmentException(...); return; }] *)
Definition big_endian (EA : Z) (k : M (Machine W) unit) : M (Machine W) unit :=
  le <- get (fun m => MSR_LE (ppc m)) ;;
  if le : bool then on_gpr (GenerateAlignmentException EA) else k.
(** One byte of a string load, ORed into the register at [24 - offset]; [false] ends the load. *)
Definition load_string_byte (reg offset EA : Z) : M (Machine W) bool :=
  b <- mmu_read 1 EA ;;
  dsi <- get dsi_raised ;;
  if dsi : bool then mret false
  else on_gpr (fun s => set_gpr reg (get_gpr s reg .| u32 (b .<< (24 - offset))) s) ;;; mret true.
Fixpoint lswx_loop inst (k : nat) (n EA : Z) : M (Machine W) unit :=
  match k with
  | O => mret tt
  | S k' =>
      let reg := (RD inst + (n .>> 2)) .& 0x1f in
      let offset := (n .& 3) .<< 3 in
      mwhen (n .& 0x3 =? 0) (on_gpr (set_gpr reg 0)) ;;;
      go <- load_string_byte reg offset EA ;;
      mwhen go (lswx_loop inst k' (n + 1) (u32 (EA + 1)))
  end.
Definition string_count m : Z := u8 (xer_stringctrl (ppc m)).
Definition lswx inst :=
  EA <- ea Helper_Get_EA_X inst ;;
  big_endian EA (n <- get string_count ;; lswx_loop inst (Z.to_nat n) 0 EA).
Definition ra_or_zero inst m : Z := if negb (RA inst =? 0) then get_gpr (ppc m) (RA inst) else 0.
Definition string_length inst : Z := if negb (NB inst =? 0) then NB inst else 32.
(** [while (n > 0)] with [n] counting down. *)
Fixpoint lswi_loop (n : nat) (r i EA : Z) : M (Machine W) unit :=
  match n with
  | O => mret tt
  | S n' =>
      let r := if i =? 0 then u32 (r + 1) .& 31 else r in
      mwhen (i =? 0) (on_gpr (set_gpr r 0)) ;;;
      go <- load_string_byte r i EA ;;
      let i := i + 8 in
      let i := if i =? 32 then 0 else i in
      mwhen go (lswi_loop n' r i (u32 (EA + 1)))
  end.
Definition lswi inst :=
  EA <- get (ra_or_zero inst) ;;
  big_endian EA (lswi_loop (Z.to_nat (string_length inst)) (u32 (RD inst - 1)) 0 EA).

(** [while (n >= 4)], [k = n / 4] turns; the value, the address and the register
    after the loop, or [None] when a store failed. *)
Fixpoint store_string_words (misalignment_bits : Z) (k : nat) (current_value current_address r : Z) :
    M (Machine W) (option (Z * Z * Z)) :=
  match k with
  | O => mret (Some (current_value, current_address, r))
  | S k' =>
      g <- get (fun m => get_gpr (ppc m) r) ;;
      let current_value := current_value .| g in
      mmu_write 4 (u32 (current_value .>> misalignment_bits)) current_address ;;;
      dsi <- get dsi_raised ;;
      if dsi : bool then mret None
      else store_string_words misalignment_bits k' (u64 (current_value .<< 32)) (u32 (current_address + 4))
             ((r + 1) .& 0x1f)
  end.
(** The bytes of the last word, [n < 4] of it. *)
Definition store_string_end (misalignment_bytes n current_value current_address r : Z) : M (Machine W) unit :=
  g <- get (fun m => get_gpr (ppc m) r) ;;
  let current_value :=
    if misalignment_bytes <? n then u64 ((current_value .| g) .<< ((n - misalignment_bytes) * 8))
    else current_value .>> ((misalignment_bytes - n) * 8) in
  let current_value := current_value .& 0xFFFFFFFF00000000 in
  old <- mmu_read 4 current_address ;;
  let current_value := current_value .| u32 (old .<< (n * 8)) in
  dsi <- get dsi_raised ;;
  if dsi : bool then mret tt else mmu_write 4 (u32 (current_value .>> (n * 8))) current_address.
(** The value from which the first word is made. *)
Definition store_string_start (misalignment_bytes current_address : Z) : M (Machine W) Z :=
  if negb (misalignment_bytes =? 0) then
    v <- mmu_read 4 current_address ;; mret (u64 (v .<< (misalignment_bytes * 8)) .& 0xFFFFFFFF00000000)
  else mret 0.
Definition Helper_StoreString (EA n r : Z) : M (Machine W) unit :=
  let misalignment_bytes := EA .& 3 in
  let current_address := EA .& u32 (.~ 3) in
  current_value <- store_string_start misalignment_bytes current_address ;;
  dsi <- get dsi_raised ;;
  if negb (misalignment_bytes =? 0) && dsi then mret tt
  else
    let n := n + misalignment_bytes in
    words <- store_string_words (misalignment_bytes * 8) (Z.to_nat (n / 4)) current_value current_address r ;;
    match words with
    | None => mret tt
    | Some (current_value, current_address, r) =>
        let n := n mod 4 in
        mwhen (negb (n =? 0)) (store_string_end misalignment_bytes n current_value current_address r)
    end.
Definition stswi inst :=
  EA <- get (ra_or_zero inst) ;; big_endian EA (Helper_StoreString EA (string_length inst) (RS inst)).
Definition stswx inst :=
  EA <- ea Helper_Get_EA_X inst ;;
  big_endian EA (n <- get string_count ;; Helper_StoreString EA n (RS inst)).

(** ** Reservations *)

Definition lwarx inst :=
  address <- ea Helper_Get_EA_X inst ;;
  aligned address
    (temp <- mmu_read 4 address ;;
     dsi <- get dsi_raised ;;
     mwhen (negb dsi) (on_gpr (set_gpr (RD inst) temp) ;;; modify (with_reservation true address))).
Definition cr0_so (flags : Z) : M (Machine W) unit := on_gpr (fun s => SetField 0 (flags .| GetXER_SO s) s).
Definition stwcxd inst :=
  address <- ea Helper_Get_EA_X inst ;;
  aligned address
    (m <- get (fun m => m) ;;
     if reserve m && (address =? reserve_address m) then
       store_gpr 4 inst address ;;;
       dsi <- get dsi_raised ;;
       if negb dsi then modify (with_reservation false (reserve_address m)) ;;; cr0_so 2 else cr0_so 0
     else cr0_so 0).

(** ** Caches and translation *)

Definition HID0_DCE s : bool := bit_at (get_spr s SPR_HID0) 14.
Definition HID2_LCE s : bool := bit_at (get_spr s 920) 28.

(** Without an emulated data cache these instructions only tell the recompiler. *)
Definition on_enabled_dcache (op : Z -> M (Machine W) unit) (address : Z) : M (Machine W) unit :=
  enabled <- get m_enable_dcache ;;
  if negb enabled then modify (InvalidateICacheLine address) else op address.
Definition dcba (inst : Z) : M (Machine W) unit := mret tt.
Definition dcbf inst := address <- ea Helper_Get_EA_X inst ;; on_enabled_dcache FlushDCacheLine address.
Definition dcbi inst :=
  privileged_op (address <- ea Helper_Get_EA_X inst ;; on_enabled_dcache InvalidateDCacheLine address).
Definition dcbst inst := address <- ea Helper_Get_EA_X inst ;; on_enabled_dcache StoreDCacheLine address.
Definition dcbt (inst : Z) : M (Machine W) unit := mret tt.
Definition dcbtst (inst : Z) : M (Machine W) unit := mret tt.
Definition dcbz inst :=
  dcbz_addr <- ea Helper_Get_EA_X inst ;;
  m <- get (fun m => m) ;;
  if negb (HID0_DCE (ppc m)) then on_gpr (GenerateAlignmentException dcbz_addr)
  else if negb (m_enable_dcache m) && (dcbz_addr <? 0x80008000) && (0x80000000 <=? dcbz_addr) && MAIN_LOW_DCBZ_HACK
  then mret tt
  else ClearDCacheLine (dcbz_addr .& u32 (.~ 31)).
Definition dcbz_l inst :=
  m <- get (fun m => m) ;;
  if negb (HID2_LCE (ppc m)) then on_gpr (GenerateProgramException IllegalInstruction)
  else
    address <- ea Helper_Get_EA_X inst ;;
    if negb (HID0_DCE (ppc m)) then on_gpr (GenerateAlignmentException address)
    else ClearDCacheLine (address .& u32 (.~ 31)).

(** The test of the external access register that [eciwx] and [ecowx] share. *)
Definition external_access (EA : Z) (k : M (Machine W) unit) : M (Machine W) unit :=
  ear <- get (fun m => get_spr (ppc m) SPR_EAR) ;;
  if ear .& 0x80000000 =? 0 then on_gpr (GenerateDSIException EA) else aligned EA k.
Definition eciwx inst :=
  EA <- ea Helper_Get_EA_X inst ;; external_access EA (v <- mmu_read 4 EA ;; on_gpr (set_gpr (RD inst) v)).
Definition ecowx inst := EA <- ea Helper_Get_EA_X inst ;; external_access EA (store_gpr 4 inst EA).

Definition eieio (inst : Z) : M (Machine W) unit := mret tt.
Definition icbi inst :=
  address <- ea Helper_Get_EA_X inst ;;
  with_icache (ICache_Invalidate address) ;;; modify (InvalidateICacheLine address).
Definition sync (inst : Z) : M (Machine W) unit := mret tt.
Definition tlbie inst :=
  privileged_op (address <- get (fun m => get_gpr (ppc m) (RB inst)) ;; modify (InvalidateTLBEntry address)).
Definition tlbsync (inst : Z) : M (Machine W) unit := privileged_op (mret tt).

End LoadStore.
