(* ===== verification/PPCSpr.v ===== *)
(** * Special-purpose registers (Interpreter/Interpreter_SystemRegisters.cpp)

    [mfspr], [mftb] and [mtspr] over the machine, with the parts of the emulator
    that follow the registers: translation, caches, the gather pipe and the DMA
    of the locked cache.  The system timers are behind [Devices].  Assertions,
    panic alerts and log output are left out. *)
From S2P Require Export PPCLoadStore PPCInterpreter.
From S2P Require Export ErrState.

Definition SPR inst := field inst 11 10.
Definition SPRU inst := field inst 11 5.
Definition SPRL inst := field inst 16 5.

Definition SPR_TL : Z := 268.
Definition SPR_TU : Z := 269.
Definition SPR_TL_W : Z := 284.
Definition SPR_TU_W : Z := 285.
Definition SPR_IABR : Z := 1010.
Definition SPR_WPAR : Z := 921.
Definition SPR_DMAU : Z := 922.
Definition SPR_DMAL : Z := 923.
Definition SPR_UPMC1 : Z := 937.
Definition SPR_UPMC2 : Z := 938.
Definition SPR_UPMC3 : Z := 941.
Definition SPR_UPMC4 : Z := 942.
Definition SPR_THRM1 : Z := 1020.
Definition SPR_THRM2 : Z := 1021.
Definition SPR_THRM3 : Z := 1022.

(** XER, LR and CTR can be used in user mode. *)
Definition user_spr (index : Z) : bool := (index =? SPR_XER) || (index =? SPR_LR) || (index =? SPR_CTR).
Definition is_dbat (index : Z) : bool :=
  ((SPR_DBAT0U <=? index) && (index <? SPR_DBAT0U + 8)) || ((SPR_DBAT4U <=? index) && (index <? SPR_DBAT4U + 8)).
Definition is_ibat (index : Z) : bool :=
  ((SPR_IBAT0U <=? index) && (index <? SPR_IBAT0U + 8)) || ((SPR_IBAT4U <=? index) && (index <? SPR_IBAT4U + 8)).

(** [std::memcpy(&TL(m_ppc_state), &value, sizeof(value))] *)
Definition WriteFullTimeBaseValue (value : Z) (s : PowerPCState) : PowerPCState :=
  set_spr SPR_TU (u32 (value .>> 32)) (set_spr SPR_TL (u32 value) s).
Definition ReadFullTimeBaseValue (s : PowerPCState) : Z := get_spr s SPR_TL .| (get_spr s SPR_TU .<< 32).

Definition MMCRUpdated (s : PowerPCState) : PowerPCState :=
  let perfmon := negb (MMCR0 s =? 0) || negb (MMCR1 s =? 0) in
  set_feature_flags ((feature_flags s .& .~ FEATURE_FLAG_PERFMON) .| (if perfmon then FEATURE_FLAG_PERFMON else 0)) s.

(** The thermal registers: 42 degrees, compared with a threshold. *)
Definition SIMULATED_TEMP : Z := 42.
Definition UpdateThermalReg (i : Z) (s : PowerPCState) : PowerPCState :=
  let reg := get_spr s i in
  let THRESHOLD := field reg 23 7 in
  if negb (bit_at (get_spr s SPR_THRM3) 0) || negb (bit_at reg 0) then set_spr i (put_field reg 30 1 0) s
  else
    let reg := put_field reg 30 1 1 in
    set_spr i (put_field reg 31 1
      (Z.b2z (if bit_at reg 2 then SIMULATED_TEMP <? THRESHOLD else THRESHOLD <? SIMULATED_TEMP))) s.

Section Spr.
Context {W : Type} {D : Devices W}.
Implicit Types m : Machine W.

(** What a read of the register brings up to date. *)
Definition refresh_spr (index : Z) m : Machine W :=
  let s := ppc m in
  if index =? SPR_DEC then
    if get_spr s index .& 0x80000000 =? 0 then on_ppc (set_spr index (u32 (GetFakeDecrementer m))) m else m
  else if (index =? SPR_TL) || (index =? SPR_TU) then on_ppc (WriteFullTimeBaseValue (u64 (GetFakeTimeBase m))) m
  else if index =? SPR_WPAR then
    on_ppc (set_spr index (if IsBNE then get_spr s index .| 1 else get_spr s index .& u32 (.~ 1))) m
  else if index =? SPR_XER then on_ppc (set_spr index (GetXER s)) m
  else if index =? SPR_UPMC1 then on_ppc (set_spr index (get_spr s SPR_PMC1)) m
  else if index =? SPR_UPMC2 then on_ppc (set_spr index (get_spr s SPR_PMC2)) m
  else if index =? SPR_UPMC3 then on_ppc (set_spr index (get_spr s SPR_PMC3)) m
  else if index =? SPR_UPMC4 then on_ppc (set_spr index (get_spr s SPR_PMC4)) m
  else m.
Definition mfspr inst : M (Machine W) unit :=
  let index := ((SPR inst .& 0x1F) .<< 5) + ((SPR inst .>> 5) .& 0x1F) in
  pr <- get (fun m => MSR_PR (ppc m)) ;;
  if pr && negb (user_spr index || (index =? SPR_TL) || (index =? SPR_TU)) then
    on_gpr (GenerateProgramException PrivilegedInstruction)
  else if index =? SPR_IABR then on_gpr (fun s => set_gpr (RD inst) (get_spr s index .& u32 (.~ 1)) s)
  else modify (refresh_spr index) ;;; on_gpr (fun s => set_gpr (RD inst) (get_spr s index) s).
Definition mftb inst : M (Machine W) unit := mfspr inst.

(** HID0: a set flash-invalidate bit empties the instruction cache. *)
Definition HID0_written : M (Machine W) unit :=
  hid0 <- get (fun m => get_spr (ppc m) SPR_HID0) ;;
  mwhen (bit_at hid0 11)
    (on_gpr (set_spr SPR_HID0 (put_field hid0 11 1 0)) ;;; with_icache Cache_Reset ;;; modify ClearJitCache).
(** The DMA of the locked cache runs at once. *)
Definition DMAL_written : M (Machine W) unit :=
  dmal <- get (fun m => get_spr (ppc m) SPR_DMAL) ;;
  dmau <- get (fun m => get_spr (ppc m) SPR_DMAU) ;;
  mwhen (bit_at dmal 1)
    (let mem_address := u32 (field dmau 5 27 .<< 5) in
     let cache_address := u32 (field dmal 5 27 .<< 5) in
     let length := (field dmau 0 5 .<< 2) .| field dmal 2 2 in
     let length := if length =? 0 then 128 else length in
     if bit_at dmal 4 then DMA_MemoryToLC cache_address mem_address length
     else DMA_LCToMemory mem_address cache_address length) ;;;
  on_gpr (fun s => set_spr SPR_DMAL (put_field (get_spr s SPR_DMAL) 1 1 0) s).
(** What follows a write of [value] over [old_value]. *)
Definition spr_written (index old_value value : Z) : M (Machine W) unit :=
  if index =? SPR_TL_W then on_gpr (set_spr SPR_TL value) ;;; modify TimeBaseSet
  else if index =? SPR_TU_W then on_gpr (set_spr SPR_TU value) ;;; modify TimeBaseSet
  else if index =? SPR_PVR then on_gpr (set_spr index old_value)
  else if index =? SPR_HID0 then HID0_written
  else if index =? SPR_HID1 then on_gpr (set_spr index (value .& 0xF8000000))
  else if index =? SPR_HID2 then on_gpr (set_spr index ((value .& 0xF0FF0000) .| (old_value .& 0x0F000000)))
  else if index =? SPR_HID4 then
    mwhen (negb (old_value =? value)) (modify (fun m => DBATUpdated (IBATUpdated m)))
  else if index =? SPR_WPAR then modify ResetGatherPipe
  else if index =? SPR_DMAL then DMAL_written
  else if index =? SPR_DEC then
    mwhen ((old_value .>> 31 =? 0) && negb (value .>> 31 =? 0)) (modify (raise EXCEPTION_DECREMENTER)) ;;;
    modify DecrementerSet
  else if index =? SPR_SDR then modify SDRUpdated
  else if index =? SPR_XER then on_gpr (SetXER value)
  else if is_dbat index then mwhen (negb (old_value =? value)) (modify DBATUpdated)
  else if is_ibat index then mwhen (negb (old_value =? value)) (modify IBATUpdated)
  else if (index =? SPR_MMCR0) || (index =? SPR_MMCR1) then on_gpr MMCRUpdated
  else if (index =? SPR_THRM1) || (index =? SPR_THRM2) || (index =? SPR_THRM3) then
    on_gpr (fun s => UpdateThermalReg SPR_THRM2 (UpdateThermalReg SPR_THRM1 s))
  else mret tt.
Definition mtspr inst : M (Machine W) unit :=
  let index := (SPRU inst .<< 5) .| (SPRL inst .& 0x1F) in
  s <- get ppc ;;
  if MSR_PR s && negb (user_spr index) then on_gpr (GenerateProgramException PrivilegedInstruction)
  else
    let old_value := get_spr s index in
    let value := get_gpr s (RD inst) in
    on_gpr (set_spr index value) ;;; spr_written index old_value value.

End Spr.
