(* ===== verification/PPCCpu.v ===== *)
(** * The processor over the whole machine
    (Interpreter/Interpreter.cpp, Interpreter_Tables.cpp, PowerPC.cpp)

    The dispatch of every modelled instruction with its effects on translation,
    caches and memory, one step of the interpreter with its instruction fetch,
    and the reset of the processor.  [None] is an instruction outside the model:
    arithmetic on floating-point numbers and quantized loads and stores. *)
From S2P Require Export PPCSpr.
From S2P Require PPCSystem PPCBranch.

Section Cpu.
Context {W : Type} {D : Devices W}.
Implicit Types m : Machine W.

(** ** Exceptions *)

(** The part of [MSRUpdated] outside the processor's own registers. *)
Definition refresh_page_table m : Machine W := if DR m && pagetable_update_pending m then mmu_PageTableUpdated m else m.
(** [CheckExceptions] calls [MSRUpdated] when it takes an exception, whose bit it then clears. *)
Definition Machine_CheckExceptions m : Machine W :=
  let m' := on_ppc CheckExceptions m in
  if Exceptions (ppc m') =? Exceptions (ppc m) then m' else refresh_page_table m'.
(** [Interpreter::CheckExceptions] *)
Definition cpu_CheckExceptions m : Machine W := on_ppc (set_end_block true) (Machine_CheckExceptions m).

(** ** Instructions with effects outside the registers *)

Definition machine_mtmsr inst : M (Machine W) unit :=
  privileged_op
    (on_gpr (fun s => set_msr (get_gpr s (RS inst)) s) ;;;
     modify mmu_MSRUpdated ;;;
     on_gpr CheckFPExceptions ;;;
     modify cpu_CheckExceptions).
Definition machine_rfi inst : M (Machine W) unit :=
  privileged_op (on_gpr (PPCBranch.rfi inst) ;;; modify refresh_page_table).
Definition machine_mtsr inst : M (Machine W) unit :=
  privileged_op (on_gpr (PPCSystem.mtsr inst) ;;; modify mmu_SRUpdated).
Definition machine_mtsrin inst : M (Machine W) unit :=
  privileged_op (on_gpr (PPCSystem.mtsrin inst) ;;; modify mmu_SRUpdated).
Definition machine_sc (inst : Z) : M (Machine W) unit :=
  modify (raise EXCEPTION_SYSCALL) ;;; modify cpu_CheckExceptions.
Definition machine_trap_if (b : bool) : M (Machine W) unit :=
  mwhen b (on_gpr (GenerateProgramException Trap) ;;; modify cpu_CheckExceptions).
Definition machine_twi inst : M (Machine W) unit :=
  s <- get ppc ;;
  machine_trap_if (PPCInteger.trap_condition (s32 (PPCInteger.ra s inst)) (SIMM_16 inst) (TO inst)).
Definition machine_tw inst : M (Machine W) unit :=
  s <- get ppc ;;
  machine_trap_if (PPCInteger.trap_condition (s32 (PPCInteger.ra s inst)) (s32 (PPCInteger.rb s inst)) (TO inst)).

(** ** Dispatch *)

(** The functions that reach beyond the processor's registers. *)
Definition memory_op (op : Op.t) : option (Z -> M (Machine W) unit) :=
  match op with
  | Op.lbz => Some lbz | Op.lbzu => Some lbzu | Op.lbzx => Some lbzx | Op.lbzux => Some lbzux
  | Op.lhz => Some lhz | Op.lhzu => Some lhzu | Op.lhzx => Some lhzx | Op.lhzux => Some lhzux
  | Op.lha => Some lha | Op.lhau => Some lhau | Op.lhax => Some lhax | Op.lhaux => Some lhaux
  | Op.lwz => Some lwz | Op.lwzu => Some lwzu | Op.lwzx => Some lwzx | Op.lwzux => Some lwzux
  | Op.lhbrx => Some lhbrx | Op.lwbrx => Some lwbrx
  | Op.lfd => Some lfd | Op.lfdu => Some lfdu | Op.lfdx => Some lfdx | Op.lfdux => Some lfdux
  | Op.lfs => Some lfs | Op.lfsu => Some lfsu | Op.lfsx => Some lfsx | Op.lfsux => Some lfsux
  | Op.stb => Some stb | Op.stbu => Some stbu | Op.stbx => Some stbx | Op.stbux => Some stbux
  | Op.sth => Some sth | Op.sthu => Some sthu | Op.sthx => Some sthx | Op.sthux => Some sthux
  | Op.stw => Some stw | Op.stwu => Some stwu | Op.stwx => Some stwx | Op.stwux => Some stwux
  | Op.sthbrx => Some sthbrx | Op.stwbrx => Some stwbrx
  | Op.stfd => Some stfd | Op.stfdu => Some stfdu | Op.stfdx => Some stfdx | Op.stfdux => Some stfdux
  | Op.stfs => Some stfs | Op.stfsu => Some stfsu | Op.stfsx => Some stfsx | Op.stfsux => Some stfsux
  | Op.stfiwx => Some stfiwx | Op.lmw => Some lmw | Op.stmw => Some stmw
  | Op.lswx => Some lswx | Op.lswi => Some lswi | Op.stswi => Some stswi | Op.stswx => Some stswx
  | Op.lwarx => Some lwarx | Op.stwcxd => Some stwcxd
  | Op.dcba => Some dcba | Op.dcbf => Some dcbf | Op.dcbi => Some dcbi | Op.dcbst => Some dcbst
  | Op.dcbt => Some dcbt | Op.dcbtst => Some dcbtst | Op.dcbz => Some dcbz | Op.dcbz_l => Some dcbz_l
  | Op.eciwx => Some eciwx | Op.ecowx => Some ecowx | Op.eieio => Some eieio | Op.icbi => Some icbi
  | Op.sync => Some sync | Op.tlbie => Some tlbie | Op.tlbsync => Some tlbsync
  | Op.mfspr => Some mfspr | Op.mtspr => Some mtspr | Op.mftb => Some mftb
  | Op.mtmsr => Some machine_mtmsr | Op.mtsr => Some machine_mtsr | Op.mtsrin => Some machine_mtsrin
  | Op.rfi => Some machine_rfi | Op.sc => Some machine_sc | Op.twi => Some machine_twi | Op.tw => Some machine_tw
  | _ => None
  end.
(** Every modelled function, over the machine. *)
Definition machine_op (op : Op.t) : option (Z -> M (Machine W) unit) :=
  match memory_op op with
  | Some f => Some f
  | None => match run_op op with Some f => Some (fun inst => on_gpr (f inst)) | None => None end
  end.
(** [Interpreter::RunInterpreterOp]; [false] for an instruction outside the model. *)
Definition Machine_RunInterpreterOp (inst : Z) : M (Machine W) bool :=
  match machine_op (GetInterpreterOp inst) with
  | Some f => f inst ;;; mret true
  | None => mret false
  end.

(** ** One step (Interpreter::SingleStepInner) *)

Definition machine_run_and_check (inst : Z) : M (Machine W) bool :=
  ok <- Machine_RunInterpreterOp inst ;;
  dsi <- get dsi_raised ;;
  mwhen (ok && dsi) (modify cpu_CheckExceptions) ;;; mret ok.
Definition machine_execute (inst : Z) : M (Machine W) bool :=
  s <- get ppc ;;
  if inst =? 0 then modify cpu_CheckExceptions ;;; mret true
  else if IsInvalidPairedSingleExecution inst s then
    on_gpr (GenerateProgramException IllegalInstruction) ;;; modify cpu_CheckExceptions ;;; mret true
  else if MSR_FP s then machine_run_and_check inst
  else if has_flag (GetOpInfo inst) FL_USE_FPU then
    modify (raise EXCEPTION_FPU_UNAVAILABLE) ;;; modify cpu_CheckExceptions ;;; mret true
  else machine_run_and_check inst.
Definition machine_UpdatePC : M (Machine W) unit := on_gpr (fun s => set_pc (npc s) s).
(** The instruction read last and the cycles used; [None] at an instruction outside the model. *)
Definition Machine_SingleStepInner (m_prev_inst : Z) : M (Machine W) (option (Z * Z)) :=
  pc <- get (fun m => pc (ppc m)) ;;
  hooked <- run (ReplacedFunction pc) ;;
  if hooked : bool then machine_UpdatePC ;;; mret (Some (m_prev_inst, num_cycles (GetOpInfo m_prev_inst)))
  else
    on_gpr (fun s => set_npc (u32 (PPCState.pc s + 4)) s) ;;;
    pc <- get (fun m => PPCState.pc (ppc m)) ;;
    inst <- mmu_Read_Opcode pc ;;
    ok <- machine_execute inst ;;
    if ok : bool then
      let info := GetOpInfo inst in
      machine_UpdatePC ;;;
      on_gpr (UpdatePerformanceMonitor (num_cycles info) (Z.b2z (has_flag info FL_LOADSTORE)) (Z.b2z (has_flag info FL_USE_FPU))) ;;;
      mret (Some (inst, num_cycles info))
    else mret None.

(** [while (!m_end_block) cycles += SingleStepInner();] with a bound on the turns. *)
Fixpoint run_block (fuel : nat) (m_prev_inst cycles : Z) : M (Machine W) (option (Z * Z)) :=
  match fuel with
  | O => mfail OutOfFuel
  | S fuel' =>
      stop <- get (fun m => m_end_block (ppc m)) ;;
      if stop : bool then mret (Some (m_prev_inst, cycles))
      else
        r <- Machine_SingleStepInner m_prev_inst ;;
        match r with
        | Some (inst, n) => run_block fuel' inst (cycles + n)
        | None => mret None
        end
  end.

(** ** Reset (PowerPC.cpp) *)

Definition cleared_registers (s : PowerPCState) : PowerPCState :=
  let sprs : gmap Z Z := <[SPR_ECID_L := 0x82bb08e8]> (<[SPR_ECID_M := 0x1840c00d]>
    (<[SPR_ECID_U := 0x0d96e200]> (<[SPR_HID1 := 0x80000000]>
      {[SPR_PVR := if IsWii then 0x00087102 else 0x00083214]}))) in
  SetXER 0 (mkPPC 0 0 (replicate 32 0) (replicate 32 (0, 0)) (replicate 8 0x8000000000000001) (msr s) 0
    (feature_flags s) 0 (xer_ca s) (xer_so_ov s) (xer_stringctrl s) (replicate 16 0) sprs (m_end_block s)).
Definition Machine_ResetRegisters m : Machine W :=
  let m := with_reservation false 0 (on_ppc cleared_registers m) in
  let m := IBATUpdated (DBATUpdated m) in
  let m := TimeBaseSet (on_ppc (fun s => set_spr SPR_TU 0 (set_spr SPR_TL 0 s)) m) in
  let m := on_ppc (fun s => set_spr SPR_DEC 0xFFFFFFFF (set_msr 0 s)) m in
  on_ppc RecalculateAllFeatureFlags (DecrementerSet m).
Definition MMU_Reset m : Machine W := with_page_tables ClearPageTable m.
Definition PowerPC_Reset : M (Machine W) unit :=
  modify (fun m => with_tlb ∅ (with_update_pending false (with_pagetable 0 0 m))) ;;;
  modify Machine_ResetRegisters ;;;
  with_icache Cache_Reset ;;; modify ClearJitCache ;;;
  with_dcache Cache_Reset ;;;
  modify MMU_Reset.
(** [RefreshConfig]: the data cache is written back when its emulation is turned off. *)
Definition with_enable_dcache (b : bool) m : Machine W :=
  mkMachine (ppc m) (reserve m) (reserve_address m) (pagetable_update_pending m) b (dCache m)
    (iCache m) (tlb m) (m_pagetable_base m) (m_pagetable_mask m) (m_dbat_table m) (m_ibat_table m)
    (m_page_tables m) (mem m) (m_l1_cache m) (m_fake_vmem m) (processor_interface m) (m_gather_pipe m) (world m).
Definition RefreshConfig (MAIN_ACCURATE_CPU_CACHE : bool) : M (Machine W) unit :=
  old_enable_dcache <- get m_enable_dcache ;;
  modify (with_enable_dcache MAIN_ACCURATE_CPU_CACHE) ;;;
  mwhen (old_enable_dcache && negb MAIN_ACCURATE_CPU_CACHE) (with_dcache FlushAll).
(** [Init], without the choice of a recompiler. *)
Definition PowerPC_Init (MAIN_ACCURATE_CPU_CACHE : bool) : M (Machine W) unit :=
  RefreshConfig MAIN_ACCURATE_CPU_CACHE ;;;
  PowerPC_Reset ;;;
  with_icache Cache_Init ;;; with_dcache Cache_Init.
(** [ScheduleInvalidateCacheThreadSafe] on the CPU's thread. *)
Definition InvalidateCache (address : Z) : M (Machine W) unit :=
  with_icache (ICache_Invalidate address) ;;; modify (InvalidateICacheLine address).

End Cpu.
