(* ===== verification/PPCMemory.v ===== *)
(** * Memory as a program sees it

    The accesses of the memory instructions to ordinary cached memory, with the
    emulated data cache on or off and with real-mode or block translation: a
    read gives the bytes of one flat memory, a write replaces them, and neither
    changes anything else a program can see. *)
From S2P Require Export CacheSpec.
From S2P Require Export PPCHostPages PPCLoadStore.

(** ** Bytes of words *)

Lemma from_be_snoc bs b : from_be (bs ++ [b]) = from_be bs * 0x100 + b.
Proof. unfold from_be. by rewrite fold_left_app. Qed.
Lemma to_be_app n k v : to_be (n + k) v = to_be n (v / 2 ^ (8 * Z.of_nat k)) ++ to_be k v.
Proof.
  revert v. induction k as [|k IH]; intros v; [cbn; by rewrite Nat.add_0_r, Z.div_1_r, app_nil_r|].
  rewrite Nat.add_succ_r. cbn [to_be]. rewrite IH, <- app_assoc. do 2 f_equal.
  rewrite Z.div_div by lia. f_equal. replace (8 * Z.of_nat (Datatypes.S k)) with (8 + 8 * Z.of_nat k) by lia. by rewrite Z.pow_add_r by lia.
Qed.
Lemma to_be_mod n v m : (8 * Z.of_nat n <= m) -> to_be n (v mod 2 ^ m) = to_be n v.
Proof.
  revert v m. induction n as [|n IH]; intros v m Hm; [done|]. cbn [to_be]. f_equal.
  - replace (2 ^ m) with (0x100 * 2 ^ (m - 8)) by (change 0x100 with (2 ^ 8); rewrite <- Z.pow_add_r by lia; f_equal; lia).
    rewrite <- (IH (v / 0x100) (m - 8)) by lia. f_equal. rewrite (Z.rem_mul_r v) by lia.
    rewrite (Z.mul_comm 0x100), Z.div_add by lia. rewrite (Z.div_small (v mod 0x100)) by (apply Z.mod_pos_bound; lia). lia.
  - f_equal. unfold u8. replace (2 ^ m) with (0x100 * 2 ^ (m - 8)) by (change 0x100 with (2 ^ 8); rewrite <- Z.pow_add_r by lia; f_equal; lia).
    rewrite (Z.rem_mul_r v) by lia. rewrite (Z.mul_comm 0x100), Z.mod_add by lia. by rewrite Z.mod_mod by lia.
Qed.

Lemma to_be_from_be bs n : Forall is_u8 bs -> length bs = n -> to_be n (from_be bs) = bs.
Proof.
  revert bs. induction n as [|n IH]; intros bs Hb Hl; [by apply nil_length_inv in Hl as ->|].
  destruct bs as [|b bs _] using rev_ind; [done|]. rewrite length_app in Hl. simpl in Hl. apply Forall_app in Hb as [Hb Hb1].
  inversion Hb1; subst. cbn [to_be]. rewrite from_be_snoc.
  rewrite (Z.add_comm (_ * _)), Z.div_add by lia. unfold u8. rewrite Z.mod_add by lia.
  rewrite Z.div_small, Z.mod_small, Z.add_0_l by done. rewrite IH by (done || lia). done.
Qed.
Lemma from_be_range bs : Forall is_u8 bs -> 0 <= from_be bs < 2 ^ (8 * Z.of_nat (length bs)).
Proof. intros Hb. rewrite <- (to_be_from_be bs _ Hb eq_refl) at 1 2. rewrite from_to_be. apply Z.mod_pos_bound. apply Z.pow_pos_nonneg; lia. Qed.

(** The register rotated so that the bytes to store come first. *)
Lemma rotated_mod d p q : 0 < p -> 0 < q -> 0 <= d < p * q -> (d * q + d / p) mod (p * q) = d mod p * q + d / p.
Proof.
  intros Hp Hq Hd. symmetry. apply Z.mod_unique with (d / p); [left|].
  - pose proof (Z.mod_pos_bound d p Hp). assert (0 <= d / p < q) by (split; [apply Z.div_pos; lia|by apply Z.div_lt_upper_bound; lia]). nia.
  - rewrite (Z.div_mod d p) at 1 by lia. ring.
Qed.
Lemma rotr32_bytes d k : is_u32 d -> 0 <= k <= 4 ->
  rotr32 d (8 * k) = if k mod 4 =? 0 then d else d mod 2 ^ (8 * k) * 2 ^ (32 - 8 * k) + d / 2 ^ (8 * k).
Proof.
  intros Hd Hk. unfold rotr32. assert (H : k = 0 \/ k = 4 \/ 1 <= k <= 3) by lia. pose proof Hd as [Hd0 Hd1].
  cbv zeta. rewrite Z.lor_comm. destruct H as [->|[->|H]].
  1-2: change ((8 * _) mod 32) with 0; change (_ mod 4 =? 0) with true; cbn iota; rewrite Z.shiftr_0_r, lor_shiftl_add by lia;
    change (2 ^ (32 - 0)) with 0x100000000; zlia.
  rewrite (Z.mod_small (8 * k)), (Z.mod_small k) by lia. rewrite (proj2 (Z.eqb_neq k 0)) by lia.
  assert (E : 2 ^ (8 * k) * 2 ^ (32 - 8 * k) = 0x100000000) by (rewrite <- Z.pow_add_r by lia; by replace (8 * k + (32 - 8 * k)) with 32 by lia).
  rewrite Z.shiftr_div_pow2, lor_shiftl_add by (try split; rewrite ?Z.shiftr_div_pow2; (apply Z.div_pos || apply Z.div_lt_upper_bound || lia); lia).
  unfold u32. rewrite <- E. apply rotated_mod; lia.
Qed.
Lemma swapped_bytes x : is_u32 x -> host_bytes 4 (swap32 x) = to_be 4 x.
Proof.
  intros Hx. unfold host_bytes, swap32. rewrite to_be_from_be; [apply rev_involutive| |].
  - apply Forall_rev, to_be_u8.
  - by rewrite length_rev, length_to_be.
Qed.
Lemma rotr32_u32 x n : is_u32 (rotr32 x n).
Proof. apply is_u32_u32. Qed.
Lemma to_be_rotated d k j : is_u32 d -> (j + k <= 4)%nat -> (0 < j)%nat ->
  to_be j (rotr32 d (8 * Z.of_nat k)) = to_be j (d / 2 ^ (8 * Z.of_nat k)).
Proof.
  intros Hd Hk Hj. rewrite rotr32_bytes by (done || lia). destruct (Z.eqb_spec (Z.of_nat k mod 4) 0) as [E|Hne].
  - assert (k = 0%nat) as -> by (revert E; Z.div_mod_to_equations; lia). by rewrite Z.div_1_r.
  - set (q := d / _). rewrite <- (to_be_mod _ _ (32 - 8 * Z.of_nat k)), Z.add_comm, Z.mod_add, to_be_mod by lia. done.
Qed.
Lemma stored_bytes d size : is_u32 d -> (0 < size <= 4)%nat ->
  take size (host_bytes 4 (swap32 (rotr32 d (8 * Z.of_nat size)))) = to_be size d.
Proof.
  intros Hd Hs. rewrite swapped_bytes by apply rotr32_u32. replace 4%nat with (size + (4 - size))%nat at 1 by lia.
  rewrite to_be_app, take_app_le, take_ge by (rewrite length_to_be; lia). rewrite rotr32_bytes by (done || lia).
  destruct (Z.eqb_spec (Z.of_nat size mod 4) 0) as [E|Hne].
  - assert (size = 4%nat) as -> by (revert E; Z.div_mod_to_equations; lia). by rewrite Z.div_1_r.
  - rewrite <- (to_be_mod size d (8 * Z.of_nat size)) by lia. f_equal.
    replace (8 * Z.of_nat (4 - size)) with (32 - 8 * Z.of_nat size) by lia.
    rewrite Z.div_add_l by lia. rewrite (Z.div_small (d / _)); [lia|]. split; [apply Z.div_pos; unfold is_u32 in Hd; lia|].
    apply Z.div_lt_upper_bound; [lia|]. rewrite <- Z.pow_add_r by lia. unfold is_u32 in Hd.
    replace (8 * Z.of_nat size + (32 - 8 * Z.of_nat size)) with 32 by lia. lia.
Qed.

(** ** The cache keeps the layout of memory *)

Record same_map (m m' : MemoryManager) : Prop := {
  sm_mask : m_ram_mask m' = m_ram_mask m;
  sm_size : m_exram_size_real m' = m_exram_size_real m;
  sm_exram : m_exram m' = None <-> m_exram m = None
}.
Lemma same_map_refl m : same_map m m.
Proof. by constructor. Qed.
Lemma same_map_trans m1 m2 m3 : same_map m1 m2 -> same_map m2 m3 -> same_map m1 m3.
Proof. intros [A B C] [A' B' C']. constructor; [congruence|congruence|by rewrite C']. Qed.
Lemma CopyToEmu_map m a data : same_map m (CopyToEmu m a data).
Proof. destruct (CopyToEmu_sizes m a data) as (_ & _ & E3 & _ & _ & E6 & _ & _ & E9). by constructor. Qed.

Definition keeps_map {A} (op : M CacheSys A) : Prop :=
  forall m0, safe (fun s => same_map m0 (memory s)) (fun _ => True) op (fun _ => True).

Lemma keeps_map_bind {A B} (m : M CacheSys A) (k : A -> M CacheSys B) :
  keeps_map m -> (forall a, keeps_map (k a)) -> keeps_map (mbind m k).
Proof. intros Hm Hk m0. eapply safe_bind; [apply Hm|]. intros a _. apply Hk. Qed.
Lemma keeps_map_mret {A} (a : A) : keeps_map (mret a).
Proof. intros m0. by apply safe_mret. Qed.
Lemma keeps_map_get {A} (f : CacheSys -> A) : keeps_map (mget f).
Proof. intros m0. by apply safe_get. Qed.
Lemma keeps_map_fail {A} f : keeps_map (mfail f : M CacheSys A).
Proof. intros m0. by apply safe_fail. Qed.
Lemma keeps_map_opt {A} f (o : option A) : keeps_map (mopt f o).
Proof. destruct o; [apply keeps_map_mret|apply keeps_map_fail]. Qed.
Lemma keeps_map_cache f : keeps_map (on_cache f).
Proof. intros m0. by apply safe_modify. Qed.
Lemma keeps_map_copy a data : keeps_map (on_memory (fun m => CopyToEmu m a data)).
Proof. intros m0. apply safe_modify. intros s Hs. eapply same_map_trans; [exact Hs|apply CopyToEmu_map]. Qed.

Create HintDb keeps_map discriminated.
#[export] Hint Resolve keeps_map_bind keeps_map_mret keeps_map_get keeps_map_fail keeps_map_opt keeps_map_cache keeps_map_copy : keeps_map.
Ltac map_step :=
  match goal with
  | |- keeps_map (mbind _ _) => apply keeps_map_bind; [|intros]
  | |- keeps_map (mwhen ?b _) => destruct b; cbn [mwhen]
  | |- keeps_map (if ?b then _ else _) => destruct b
  | |- keeps_map (let '(_, _) := ?p in _) => destruct p
  | |- keeps_map (match ?p with pair _ _ => _ end) => destruct p
  | |- keeps_map get_cache => apply keeps_map_get
  | |- keeps_map get_memory => apply keeps_map_get
  | |- keeps_map _ => solve [auto with keeps_map]
  end; cbv beta zeta.
Ltac map_walk := repeat map_step.

Lemma keeps_map_GetCache a locked : keeps_map (GetCache a locked).
Proof.
  unfold GetCache, lookup_get, select_way, evict, fill_line, lookup_set, update_plru, check_way. cbv zeta. map_walk.
Qed.
#[export] Hint Resolve keeps_map_GetCache : keeps_map.
Lemma keeps_map_Read_loop fuel : forall a buffer locked, keeps_map (Read_loop fuel a buffer locked).
Proof. induction fuel as [|fuel IH]; intros a buffer locked; cbn [Read_loop]; map_walk; apply IH. Qed.
Lemma keeps_map_Write_loop fuel : forall a value locked, keeps_map (Write_loop fuel a value locked).
Proof. induction fuel as [|fuel IH]; intros a value locked; cbn [Write_loop]; map_walk; apply IH. Qed.
Lemma keeps_map_eval {A} (op : M CacheSys A) s a s' : keeps_map op -> op s = Done a s' -> same_map (memory s) (memory s').
Proof. intros Hop E. specialize (Hop (memory s) s (same_map_refl _)). rewrite E in Hop. apply Hop. Qed.

(** ** What the program sees *)

Section Memory.
Context {W : Type}.
Implicit Types m : Machine W.

Definition psys m : CacheSys := mkCacheSys (dCache m) (mem m).
Definition with_psys (s : CacheSys) m : Machine W := with_mem (memory s) (with_dCache (cache s) m).
Lemma psys_with s m : psys (with_psys s m) = s.
Proof. by destruct s. Qed.
(** The byte at an address of the two memories, through the data cache when it is emulated. *)
Definition pbyte m (x : Z) : Z := if m_enable_dcache m then view (psys m) x else mem_byte (mem m) x.
Record ready m : Prop := {
  ready_memory : mem_wf (mem m);
  ready_cache : m_enable_dcache m = true -> inv None (psys m)
}.

(** The address the data cache and the memories use for a physical address. *)
Definition cached_address (pa : Z) m : option Z :=
  if is_l1 pa then None
  else if is_ram pa then Some (pa .& m_ram_mask (mem m))
  else if is_exram pa m then Some ((pa .& 0x0FFFFFFF) + 0x10000000)
  else None.
(** The same for the address of an instruction: translated by a block that is
    neither write-through nor uncached, or not translated. *)
Definition plain_address (a : Z) m : option Z :=
  if DR m then
    match TranslateBatAddress (m_dbat_table m) a with
    | Some (pa, false) => cached_address pa m
    | _ => None
    end
  else cached_address a m.

(** [n] bytes from [a] are the bytes of memory from [p]. *)
Record plain m (a n p : Z) : Prop := {
  pl_range : 0 <= a /\ a + n <= 2 ^ 32;
  pl_block : block_ok (mem m) p n;
  pl_bytes : forall i, 0 <= i < n -> plain_address (a + i) m = Some (p + i)
}.

(** [m'] is [m] with registers [s] and memory [f], as far as a program can tell. *)
Record becomes (s : PowerPCState) (f : Z -> Z) m m' : Prop := {
  bc_rest : m' = with_ppc s (with_psys (psys m') m);
  bc_map : same_map (mem m) (mem m');
  bc_blocks : same_blocks (psys m) (psys m');
  bc_ready : ready m';
  bc_bytes : forall x, block_ok (mem m) x 1 -> pbyte m' x = f x
}.

Lemma becomes_ppc s f m m' : becomes s f m m' -> ppc m' = s.
Proof. intros H. by rewrite (bc_rest _ _ _ _ H). Qed.
Lemma becomes_enabled s f m m' : becomes s f m m' -> m_enable_dcache m' = m_enable_dcache m.
Proof. intros H. by rewrite (bc_rest _ _ _ _ H). Qed.
Lemma becomes_refl m : ready m -> becomes (ppc m) (pbyte m) m m.
Proof. intros H. constructor; [by destruct m|apply same_map_refl|done|done|done]. Qed.
Lemma becomes_ppc_only s m : ready m -> becomes s (pbyte m) m (with_ppc s m).
Proof. intros H. constructor; [by destruct m|apply same_map_refl|done| |done]. by destruct H. Qed.
Lemma becomes_trans s1 f m1 m2 s2 g m3 : becomes s1 f m1 m2 -> becomes s2 g m2 m3 -> becomes s2 g m1 m3.
Proof.
  intros [R1 M1 B1 Y1 V1] [R2 M2 B2 Y2 V2]. constructor.
  - rewrite R2. rewrite R1 at 1. by destruct m1.
  - by eapply same_map_trans.
  - intros x n. by rewrite (B2 x n).
  - done.
  - intros x Hx. apply V2. by apply (B1 x 1).
Qed.
Lemma becomes_ext s f g m m' : becomes s f m m' -> (forall x, block_ok (mem m) x 1 -> f x = g x) -> becomes s g m m'.
Proof. intros [R M B Y V] E. constructor; try done. intros x Hx. by rewrite V, E. Qed.

Lemma cached_address_map pa m m' : same_map (mem m) (mem m') -> cached_address pa m' = cached_address pa m.
Proof.
  intros [E1 E2 E3]. unfold cached_address, is_exram. rewrite E1, E2.
  rewrite (bool_decide_ext (m_exram (mem m') <> None) (m_exram (mem m) <> None)); [done|]. by rewrite E3.
Qed.
Lemma plain_becomes s f m m' a n p : becomes s f m m' -> MSR_DR s = DR m -> plain m a n p -> plain m' a n p.
Proof.
  intros H Hs [Hr Hb Hp]. pose proof (bc_rest _ _ _ _ H) as R. constructor; [done|by apply (bc_blocks _ _ _ _ H p n)|].
  intros i Hi. rewrite <- (Hp i Hi). unfold plain_address.
  assert (E : DR m' = DR m) by (rewrite R; exact Hs). assert (E2 : m_dbat_table m' = m_dbat_table m) by by rewrite R. rewrite E, E2.
  destruct (DR m); [|apply cached_address_map, (bc_map _ _ _ _ H)].
  destruct (TranslateBatAddress _ _) as [[pa []]|]; try done. apply cached_address_map, (bc_map _ _ _ _ H).
Qed.
Lemma plain_sub m a n p b k q : plain m a n p -> a <= b -> b + k <= a + n -> 0 <= k -> q = p + (b - a) -> plain m b k q.
Proof.
  intros [Hr Hb Hp] H1 H2 Hk ->. constructor; [lia|eapply block_ok_sub; [exact Hb|lia..]|].
  intros i Hi. replace (b + i) with (a + (b - a + i)) by lia. rewrite Hp by lia. f_equal. lia.
Qed.

(** ** Accesses *)

Lemma high_nibble pa : 0 <= pa -> pa .>> 28 = 1 -> pa .& 0xF8000000 <> 0x08000000 /\ pa .& 0xF8000000 <> 0.
Proof.
  intros Hp E. assert (T : Z.testbit (pa .& 0xF8000000) 28 = true).
  { rewrite Z.land_spec. replace 28 with (0 + 28) at 1 by done. rewrite <- Z.shiftr_spec by lia. by rewrite E. }
  split; intros C; by rewrite C in T.
Qed.

(** The three cases a plain physical address falls in are ordinary memory. *)
Lemma cached_address_cases pa m p n : 0 <= pa -> mem_wf (mem m) -> cached_address pa m = Some p -> block_ok (mem m) p n -> 0 < n ->
  is_io pa = false /\ is_l1 pa = false /\ (pa .& 0xFFFFF000 =? 0x0C008000) = false /\
  ((is_ram pa = true /\ p = pa .& m_ram_mask (mem m) /\ in_ram (mem m) p n) \/
   (is_ram pa = false /\ is_exram pa m = true /\ p = (pa .& 0x0FFFFFFF) + 0x10000000 /\ in_exram (mem m) p n)).
Proof.
  intros Hpa Hm. unfold cached_address. destruct (is_l1 pa) eqn:E1; [done|]. destruct (is_ram pa) eqn:E2.
  - intros [= <-] Hb Hn. unfold is_ram in E2. apply Z.eqb_eq in E2. unfold is_io. rewrite E2. do 2 (split; [done|]). split.
    + apply Z.eqb_neq. intros C. assert (T : Z.testbit (pa .& 0xFFFFF000) 27 = true) by by rewrite C.
      assert (T' : Z.testbit (pa .& 0xF8000000) 27 = false) by by rewrite E2.
      rewrite Z.land_spec in T, T'. change (Z.testbit 0xFFFFF000 27) with true in T. change (Z.testbit 0xF8000000 27) with true in T'. congruence.
    + left. do 2 (split; [done|]). destruct Hb as [|(_ & Hlo & _)]; [done|].
      destruct (mem_ram_pow _ Hm) as (k & Hk & Ek). pose proof (size_bound k Hk).
      rewrite (mem_ram_mask_eq _ Hm), (land_ones_mod k) in Hlo by lia. pose proof (Z.mod_pos_bound pa (2 ^ k) ltac:(lia)). lia.
  - destruct (is_exram pa m) eqn:E3; [|done]. intros [= <-] Hb Hn. pose proof E3 as E3'. unfold is_exram in E3'.
    apply andb_true_iff in E3' as [[Ex%bool_decide_eq_true Ehi%Z.eqb_eq]%andb_true_iff Elt%Z.ltb_lt].
    destruct (high_nibble pa Hpa Ehi) as [H1 H2]. unfold is_io. split; [by apply Z.eqb_neq|]. split; [done|]. split.
    + apply Z.eqb_neq. intros C. assert (T : Z.testbit (pa .& 0xFFFFF000) 28 = false) by by rewrite C.
      rewrite Z.land_spec in T. replace 28 with (0 + 28) in T at 1 by done. rewrite <- Z.shiftr_spec, Ehi in T by lia. done.
    + right. do 3 (split; [done|]). destruct Hb as [[Hlo Hhi]|]; [|done].
      pose proof (ram_below_exram _ Hm). pose proof (land_mask_range pa 0x0FFFFFFF ltac:(done)). lia.
Qed.

End Memory.

Section Accesses.
Context {W : Type} {D : Devices W}.
Implicit Types m : Machine W.

Lemma load_ram_bytes mm p n : mem_wf mm -> in_ram mm p (Z.of_nat n) -> read_bytes (m_ram mm) p n = bytes_from (mem_byte mm) p n.
Proof.
  intros Hm [Hlo Hhi]. apply list_eq_same_length with n; [by rewrite length_bytes_from|apply length_read_bytes|].
  intros i x y Hi. rewrite lookup_bytes_from, lookup_read_bytes by done. rewrite mem_byte_ram by (done || unfold in_ram; lia). congruence.
Qed.
Lemma load_exram_bytes mm p n : mem_wf mm -> in_exram mm (p + 0x10000000) (Z.of_nat n) ->
  read_bytes (default ∅ (m_exram mm)) p n = bytes_from (mem_byte mm) (p + 0x10000000) n.
Proof.
  intros Hm (Hx & Hlo & Hhi). apply list_eq_same_length with n; [by rewrite length_bytes_from|apply length_read_bytes|].
  intros i x y Hi. rewrite lookup_bytes_from, lookup_read_bytes by done.
  rewrite mem_byte_exram by (done || (split; [done|lia])). intros [= <-] [= <-]. f_equal. lia.
Qed.
(** A store into one of the memories is the copy the memory manager makes. *)
Lemma store_ram_copy mm p bs : mem_wf mm -> in_ram mm p (Z.of_nat (length bs)) -> bs <> [] -> store mm (RamPtr p) bs = CopyToEmu mm p bs.
Proof.
  intros Hm Hin Hne. assert (Hl : (length bs <> 0)%nat) by by destruct bs.
  unfold CopyToEmu, GetPointerForRange. rewrite (proj2 (Nat.eqb_neq _ _) Hl).
  rewrite (span_ram mm p _ Hm Hin ltac:(lia)). destruct Hin. by rewrite (proj2 (Z.ltb_ge _ _)) by lia.
Qed.
Lemma store_exram_copy mm p bs : mem_wf mm -> in_exram mm (p + 0x10000000) (Z.of_nat (length bs)) -> bs <> [] ->
  store mm (ExRamPtr p) bs = CopyToEmu mm (p + 0x10000000) bs.
Proof.
  intros Hm Hin Hne. assert (Hl : (length bs <> 0)%nat) by by destruct bs.
  unfold CopyToEmu, GetPointerForRange. rewrite (proj2 (Nat.eqb_neq _ _) Hl).
  rewrite (span_exram mm _ _ Hm Hin ltac:(lia)). destruct Hin as (_ & ? & ?). rewrite (proj2 (Z.ltb_ge _ _)) by lia. do 2 f_equal. lia.
Qed.

(** Reads and writes of the emulated cache, on the machine. *)
Lemma dcache_read_ok flag m p n : ready m -> m_enable_dcache m = true -> block_ok (mem m) p (Z.of_nat n) ->
  exists m', dcache_read flag p n m = Done (from_be (bytes_from (pbyte m) p n)) m' /\ becomes (ppc m) (pbyte m) m m'.
Proof.
  intros Hm He Hb. unfold dcache_read, with_dcache. set (locked := DLOCK m || negb (is_read flag)).
  destruct (Read_loop_ok n p (replicate n 0) locked (psys m)) as (s & E & Hi & Hk);
    [by apply ready_cache|by rewrite length_replicate|by rewrite length_replicate|].
  unfold get, mbind, mget. fold locked. unfold PPCCache.Read. rewrite length_replicate in E |- *.
  change (mkCacheSys (dCache m) (mem m)) with (psys m). rewrite E.
  assert (Ep : forall x, pbyte m x = view (psys m) x) by (intros x; unfold pbyte; by rewrite He).
  exists (with_psys s m). split.
  - unfold mret, with_psys. do 2 f_equal. by apply bytes_from_ext.
  - constructor; rewrite ?psys_with; try done.
    + exact (keeps_map_eval _ _ _ _ (keeps_map_Read_loop _ _ _ _) E).
    + intros x k. apply (k_blocks _ _ Hk).
    + constructor; [apply (inv_mem _ _ Hi)|by rewrite psys_with].
    + intros x Hx. rewrite Ep. transitivity (view s x); [|by apply (k_view _ _ Hk)].
      unfold pbyte. rewrite psys_with. change (m_enable_dcache (with_psys s m)) with (m_enable_dcache m). by rewrite He.
Qed.
Lemma dcache_write_ok m p bs locked : ready m -> m_enable_dcache m = true -> block_ok (mem m) p (Z.of_nat (length bs)) -> Forall is_u8 bs ->
  exists m', with_dcache (PPCCache.Write p bs locked) m = Done tt m' /\ becomes (ppc m) (patch (pbyte m) p bs) m m'.
Proof.
  intros Hm He Hb Hu. unfold with_dcache.
  destruct (Write_loop_ok (length bs) p bs locked (psys m)) as (s & E & Hw); [by apply ready_cache|done..|].
  unfold PPCCache.Write. change (mkCacheSys (dCache m) (mem m)) with (psys m). rewrite E.
  exists (with_psys s m). split; [done|]. constructor; rewrite ?psys_with; try done.
  - exact (keeps_map_eval _ _ _ _ (keeps_map_Write_loop _ _ _ _) E).
  - intros x k. apply (w_blocks _ _ _ _ Hw).
  - constructor; [apply (inv_mem _ _ (w_inv _ _ _ _ Hw))|]. rewrite psys_with. intros _. apply (w_inv _ _ _ _ Hw).
  - intros x Hx. transitivity (view s x).
    + unfold pbyte. rewrite psys_with. change (m_enable_dcache (with_psys s m)) with (m_enable_dcache m). by rewrite He.
    + rewrite (w_view _ _ _ _ Hw x Hx). apply patch_ext. unfold pbyte. by rewrite He.
Qed.
Lemma copy_becomes m p bs : ready m -> m_enable_dcache m = false -> block_ok (mem m) p (Z.of_nat (length bs)) -> Forall is_u8 bs ->
  becomes (ppc m) (patch (pbyte m) p bs) m (with_mem (CopyToEmu (mem m) p bs) m).
Proof.
  intros Hm He Hb Hu. constructor.
  - by destruct m.
  - apply CopyToEmu_map.
  - intros x k. apply CopyToEmu_block.
  - constructor; [by apply CopyToEmu_wf, Hm|]. cbn. by rewrite He.
  - intros x Hx. unfold pbyte. cbn. rewrite He. rewrite mem_byte_CopyToEmu by (done || apply Hm). by apply patch_ext.
Qed.

Lemma pbyte_direct m : m_enable_dcache m = false -> forall x, pbyte m x = mem_byte (mem m) x.
Proof. intros He x. unfold pbyte. by rewrite He. Qed.

Lemma read_access_plain m n pa p : ready m -> 0 <= pa -> (0 < n)%nat -> cached_address pa m = Some p -> block_ok (mem m) p (Z.of_nat n) ->
  exists m', read_access XCheckTLBFlag.Read n false pa m = Done (from_be (bytes_from (pbyte m) p n)) m' /\ becomes (ppc m) (pbyte m) m m'.
Proof.
  intros Hm Hpa Hn Hc Hb. pose proof (ready_memory _ Hm) as Hw.
  destruct (cached_address_cases pa m p _ Hpa Hw Hc Hb ltac:(lia)) as (E1 & E2 & _ & Hcase).
  unfold read_access, get, mbind at 1, mget. rewrite E1, E2, andb_false_r.
  destruct Hcase as [(E3 & -> & Hin)|(E3 & E4 & -> & Hin)]; rewrite E3, ?E4; unfold uncached; rewrite orb_false_r;
    (destruct (m_enable_dcache m) eqn:He; cbn [negb]; [by apply dcache_read_ok|]).
  - exists m. split; [|by apply becomes_refl]. unfold mret. do 2 f_equal. rewrite load_ram_bytes by done. apply bytes_from_ext. intros; by rewrite pbyte_direct.
  - exists m. split; [|by apply becomes_refl]. unfold mret. do 2 f_equal. rewrite load_exram_bytes by done. apply bytes_from_ext. intros; by rewrite pbyte_direct.
Qed.

Lemma write_access_plain m data size pa p : ready m -> 0 <= pa -> is_u32 data -> (0 < size <= 4)%nat ->
  cached_address pa m = Some p -> block_ok (mem m) p (Z.of_nat size) ->
  exists m', write_access XCheckTLBFlag.Write pa data size false m = Done tt m' /\ becomes (ppc m) (patch (pbyte m) p (to_be size data)) m m'.
Proof.
  intros Hm Hpa Hd Hs Hc Hb. pose proof (ready_memory _ Hm) as Hw.
  destruct (cached_address_cases pa m p _ Hpa Hw Hc Hb ltac:(lia)) as (E1 & E2 & E5 & Hcase).
  assert (Hl : Z.of_nat (length (to_be size data)) = Z.of_nat size) by by rewrite length_to_be.
  assert (Hne : to_be size data <> []) by (intros C; rewrite C in Hl; simpl in Hl; lia).
  unfold write_access, write_to, get, mbind at 1, mget. unfold GATHER_PIPE_PHYSICAL_ADDRESS. cbv zeta.
  rewrite E1, E2, E5, !andb_false_r, stored_bytes by done. cbn [andb].
  destruct Hcase as [(E3 & -> & Hin)|(E3 & E4 & -> & Hin)]; rewrite E3, ?E4; unfold write_memory, get, mbind, mget;
    (destruct (m_enable_dcache m) eqn:He; cbn [negb andb orb mwhen is_write bool_decide]).
  1, 3: destruct (dcache_write_ok m _ (to_be size data) (DLOCK m) Hm He ltac:(by rewrite Hl) (to_be_u8 _ _)) as (m' & E & Hbc);
    rewrite E; exists m'; by split.
  - exists (with_mem (CopyToEmu (mem m) (pa .& m_ram_mask (mem m)) (to_be size data)) m). split.
    + cbn. unfold modify, mmodify, write_ram. by rewrite store_ram_copy by (done || by rewrite Hl).
    + apply copy_becomes; [done|done|by rewrite Hl|apply to_be_u8].
  - exists (with_mem (CopyToEmu (mem m) ((pa .& 0x0FFFFFFF) + 0x10000000) (to_be size data)) m). split.
    + cbn. unfold modify, mmodify, write_exram. by rewrite store_exram_copy by (done || by rewrite Hl).
    + apply copy_becomes; [done|done|by rewrite Hl|apply to_be_u8].
Qed.


(** ** The accesses of instructions *)

Lemma pbyte_u8 m x : ready m -> is_u8 (pbyte m x).
Proof.
  intros [Hm Hc]. assert (Hmb : is_u8 (mem_byte (mem m) x)) by (unfold mem_byte; destruct (GetSpanForAddress _ _) as [[[] ?]|]; [apply byte_at_u8..|done]).
  unfold pbyte. destruct (m_enable_dcache m); [|done]. specialize (Hc eq_refl). unfold view. destruct (_ =? _); [done|].
  destruct (i_data _ _ Hc (set_of (line_of x)) (lw (psys m) (line_of x))) as [_ Hu].
  destruct (nth_in_or_default (Z.to_nat (x - line_of x)) (line_data (cache (psys m)) (set_of (line_of x)) (lw (psys m) (line_of x))) 0) as [Hin| ->]; [|done].
  rewrite Forall_forall in Hu. apply Hu. by apply list_elem_of_In.
Qed.
Lemma pbytes_u8 m p n : ready m -> Forall is_u8 (bytes_from (pbyte m) p n).
Proof. intros Hm. apply Forall_map, Forall_forall. intros i _. by apply pbyte_u8. Qed.

Lemma translated_nonneg t a pa wi : TranslateBatAddress t a = Some (pa, wi) -> 0 <= pa.
Proof.
  unfold TranslateBatAddress. destruct (_ =? 0); [done|]. intros [= <- _]. apply Z.lor_nonneg. split; apply Z.land_nonneg; right; done.
Qed.
(** A plain address is accessed as the physical address it stands for. *)
Lemma plain_cases m a p : plain_address a m = Some p -> 0 <= a ->
  (DR m = false /\ cached_address a m = Some p) \/
  (DR m = true /\ exists pa, TranslateBatAddress (m_dbat_table m) a = Some (pa, false) /\ 0 <= pa /\ cached_address pa m = Some p).
Proof.
  unfold plain_address. destruct (DR m); [|by left]. destruct (TranslateBatAddress _ _) as [[pa []]|] eqn:E; [done| |done].
  right. split; [done|]. exists pa. do 2 (split; [by eauto using translated_nonneg|]). done.
Qed.

Lemma plain_first m a n p : plain m a n p -> 0 < n -> plain_address a m = Some p.
Proof. intros Hp Hn. pose proof (pl_bytes _ _ _ _ Hp 0 ltac:(lia)) as H. by rewrite !Z.add_0_r in H. Qed.

Lemma read_in_page_plain m n a p : ready m -> (0 < n)%nat -> plain m a (Z.of_nat n) p ->
  exists m', read_in_page XCheckTLBFlag.Read n a m = Done (from_be (bytes_from (pbyte m) p n)) m' /\ becomes (ppc m) (pbyte m) m m'.
Proof.
  intros Hm Hn Hp. unfold read_in_page, get, mbind at 1, mget. unfold translation_on. cbn [IsOpcodeFlag].
  destruct (plain_cases m a p (plain_first _ _ _ _ Hp ltac:(lia)) ltac:(apply Hp)) as [[E Hc]|(E & pa & Et & Hpa & Hc)]; rewrite E.
  - destruct Hp as [[? _] ? _]. by apply read_access_plain.
  - unfold TranslateAddress, get, mbind, mget. cbn [IsOpcodeFlag]. rewrite Et. destruct Hp as [_ ? _]. by apply read_access_plain.
Qed.

Lemma from_be_cons b bs : from_be (b :: bs) = b * 2 ^ (8 * Z.of_nat (length bs)) + from_be bs.
Proof.
  induction bs as [|c bs IH] using rev_ind; [cbn; lia|]. rewrite app_comm_cons, !from_be_snoc, IH, length_app. cbn [length].
  replace (8 * Z.of_nat (length bs + 1)) with (8 * Z.of_nat (length bs) + 8) by lia. rewrite Z.pow_add_r by lia. lia.
Qed.
Lemma bytes_from_S f p n : bytes_from f p (Datatypes.S n) = f p :: bytes_from f (p + 1) n.
Proof. change (Datatypes.S n) with (1 + n)%nat. rewrite bytes_from_app. cbn. by rewrite Z.add_0_r. Qed.

Lemma read_by_bytes_plain n : forall m a p var, ready m -> plain m a (Z.of_nat n) p ->
  exists m', read_by_bytes (read_in_page XCheckTLBFlag.Read 1) a var n m =
    Done (var * 2 ^ (8 * Z.of_nat n) + from_be (bytes_from (pbyte m) p n)) m' /\ becomes (ppc m) (pbyte m) m m'.
Proof.
  induction n as [|n IH]; intros m a p var Hm Hp; cbn [read_by_bytes].
  { exists m. split; [|by apply becomes_refl]. unfold mret. f_equal. cbn. lia. }
  assert (Hp1 : plain m a (Z.of_nat 1) p) by (eapply plain_sub; [exact Hp|lia..]).
  destruct (read_in_page_plain m 1 a p Hm ltac:(lia) Hp1) as (m1 & E1 & H1). rewrite (mbind_done _ _ _ _ _ E1).
  assert (Hp2 : plain m (a + 1) (Z.of_nat n) (p + 1)) by (eapply plain_sub; [exact Hp|lia..]).
  destruct n as [|n'].
  - exists m1. split; [|done]. unfold mret. cbn [read_by_bytes mret]. f_equal. rewrite lor_shiftl_add; [cbn; lia|lia|].
    apply (from_be_range _ (pbytes_u8 m p 1 Hm)).
  - pose proof (pl_range _ _ _ _ Hp) as Hr. rewrite u32_id by (unfold is_u32; lia).
    destruct (IH m1 (a + 1) (p + 1) ((var .<< 8) .| from_be (bytes_from (pbyte m) p 1)) (bc_ready _ _ _ _ H1)) as (m2 & E2 & H2).
    { eapply plain_becomes; [exact H1|done|exact Hp2]. }
    exists m2. rewrite E2. rewrite (becomes_ppc _ _ _ _ H1) in H2. split.
    + f_equal. rewrite lor_shiftl_add by (first [lia|apply (from_be_range _ (pbytes_u8 m p 1 Hm))]).
      rewrite (bytes_from_S _ p (Datatypes.S n')), from_be_cons, length_bytes_from.
      rewrite (bytes_from_ext (pbyte m1) (pbyte m)).
      2: { intros b Hb. apply (bc_bytes _ _ _ _ H1). eapply block_ok_sub; [apply Hp2|lia..]. }
      replace (8 * Z.of_nat (Datatypes.S (Datatypes.S n'))) with (8 + 8 * Z.of_nat (Datatypes.S n')) by lia. rewrite Z.pow_add_r by lia.
      change (from_be (bytes_from (pbyte m) p 1)) with (0 * 0x100 + pbyte m (p + 0)). rewrite Z.add_0_r. lia.
    + eapply becomes_trans; [exact H1|]. eapply becomes_ext; [exact H2|]. intros x Hx. apply (bc_bytes _ _ _ _ H1).
      by apply (bc_blocks _ _ _ _ H1 x 1).
Qed.

Lemma ReadFromHardware_plain m n a p : ready m -> (0 < n)%nat -> plain m a (Z.of_nat n) p ->
  exists m', ReadFromHardware XCheckTLBFlag.Read n a m = Done (from_be (bytes_from (pbyte m) p n)) m' /\ becomes (ppc m) (pbyte m) m m'.
Proof.
  intros Hm Hn Hp. unfold ReadFromHardware. destruct (crosses_page _ _); [|by apply read_in_page_plain].
  by apply (read_by_bytes_plain n m a p 0).
Qed.


Lemma write_in_page_plain m data size a p : ready m -> is_u32 data -> (0 < size <= 4)%nat -> plain m a (Z.of_nat size) p ->
  exists m', write_in_page XCheckTLBFlag.Write a data size m = Done tt m' /\ becomes (ppc m) (patch (pbyte m) p (to_be size data)) m m'.
Proof.
  intros Hm Hd Hs Hp. unfold write_in_page, get, mbind at 1, mget.
  destruct (plain_cases m a p (plain_first _ _ _ _ Hp ltac:(lia)) ltac:(apply Hp)) as [[E Hc]|(E & pa & Et & Hpa & Hc)]; rewrite E.
  - destruct Hp as [[? _] ? _]. by apply write_access_plain.
  - unfold TranslateAddress, get, mbind, mget. cbn [IsOpcodeFlag]. rewrite Et. destruct Hp as [_ ? _]. by apply write_access_plain.
Qed.

(** A later write continues the earlier one. *)
Lemma becomes_patch m p xs m1 ys m2 s : becomes (ppc m) (patch (pbyte m) p xs) m m1 -> becomes s (patch (pbyte m1) (p + Z.of_nat (length xs)) ys) m1 m2 ->
  becomes s (patch (pbyte m) p (xs ++ ys)) m m2.
Proof.
  intros H1 H2. eapply becomes_trans; [exact H1|]. eapply becomes_ext; [exact H2|]. intros x Hx. rewrite patch_app. apply patch_ext.
  apply (bc_bytes _ _ _ _ H1). by apply (bc_blocks _ _ _ _ H1 x 1).
Qed.

(** Where an access that crosses a page is split. *)
Lemma crossing a size : 0 <= a -> 0 < size <= 8 -> a + size <= 2 ^ 32 -> crosses_page a size = true ->
  let e := u32 (page_of (a + size - 1)) in u32 (e - a) = e - a /\ 0 < e - a < size.
Proof.
  intros Ha Hs Hr. unfold crosses_page. rewrite !page_of_split by lia.
  rewrite (u32_id (a + size - 1 - _)) by (unfold is_u32; Z.div_mod_to_equations; lia).
  intros E%negb_true_iff%Z.eqb_neq. cbv zeta.
  assert (Hx : 0 < a + size - 1 - (a + size - 1) mod 4096 - a < size) by (revert E; Z.div_mod_to_equations; lia).
  split; [apply u32_id; unfold is_u32; lia|done].
Qed.

Lemma WriteToHardware_plain m data size a p : ready m -> is_u32 data -> (0 < size <= 4)%nat -> plain m a (Z.of_nat size) p ->
  exists m', WriteToHardware XCheckTLBFlag.Write a data size m = Done tt m' /\ becomes (ppc m) (patch (pbyte m) p (to_be size data)) m m'.
Proof.
  intros Hm Hd Hs Hp. unfold WriteToHardware, write_split. destruct (crosses_page _ _) eqn:Ec; [|by apply write_in_page_plain].
  pose proof (pl_range _ _ _ _ Hp) as [Ha Hr]. destruct (crossing a (Z.of_nat size) Ha ltac:(lia) Hr Ec) as [Eu He]. cbv zeta in Eu, He.
  cbv zeta. rewrite Eu. set (e := u32 (page_of (a + Z.of_nat size - 1))) in *. clearbody e. clear Eu Ec.
  remember (Z.to_nat (e - a)) as j eqn:Hj. remember (size - j)%nat as k eqn:Hk.
  replace (Z.to_nat (Z.of_nat size - (e - a))) with k by lia. replace (Z.of_nat size - (e - a)) with (Z.of_nat k) by lia.
  destruct (write_in_page_plain m (rotr32 data (8 * Z.of_nat k)) j a p Hm ltac:(apply rotr32_u32) ltac:(lia)) as (m1 & E1 & H1).
  { eapply plain_sub; [exact Hp|lia..]. }
  rewrite (mbind_done _ _ _ _ _ E1). rewrite to_be_rotated in H1 by (done || lia).
  destruct (write_in_page_plain m1 data k e (p + Z.of_nat j) (bc_ready _ _ _ _ H1) Hd ltac:(lia)) as (m2 & E2 & H2).
  { eapply plain_becomes; [exact H1|done|]. eapply plain_sub; [exact Hp|lia..]. }
  exists m2. split; [done|]. replace size with (j + k)%nat by lia. rewrite to_be_app. rewrite (becomes_ppc _ _ _ _ H1) in H2.
  eapply becomes_patch; [exact H1|]. by rewrite length_to_be.
Qed.

End Accesses.

(** ** No memory checks *)

(** No memory check of the debugger stops an access. *)
Class NoMemchecks {W} (D : Devices W) : Prop :=
  no_memchecks : forall address var write size m, memcheck_pauses (Devices := D) address var write size m = (false, m).
#[export] Instance quiet_no_memchecks wii : NoMemchecks (quiet_devices wii).
Proof. done. Qed.

Section Unchecked.
Context {W : Type} {D : Devices W} {Q : NoMemchecks D}.
Implicit Types m : Machine W.

Lemma Memcheck_none address var write size m : Memcheck address var write size m = Done tt m.
Proof. unfold Memcheck, run, mbind. by rewrite no_memchecks. Qed.

Lemma mmu_read_plain m n a p : ready m -> (0 < n)%nat -> plain m a (Z.of_nat n) p ->
  exists m', mmu_read n a m = Done (from_be (bytes_from (pbyte m) p n)) m' /\ becomes (ppc m) (pbyte m) m m'.
Proof.
  intros Hm Hn Hp. destruct (ReadFromHardware_plain m n a p Hm Hn Hp) as (m' & E & H). exists m'. split; [|done].
  unfold mmu_read. rewrite (mbind_done _ _ _ _ _ E). by rewrite (mbind_done _ _ _ _ _ (Memcheck_none _ _ _ _ _)).
Qed.
Lemma mmu_write_plain m n v a p : ready m -> is_u32 v -> (0 < n <= 4)%nat -> plain m a (Z.of_nat n) p ->
  exists m', mmu_write n v a m = Done tt m' /\ becomes (ppc m) (patch (pbyte m) p (to_be n v)) m m'.
Proof.
  intros Hm Hv Hn Hp. unfold mmu_write. rewrite (mbind_done _ _ _ _ _ (Memcheck_none _ _ _ _ _)). by apply WriteToHardware_plain.
Qed.
Lemma mmu_write_u64_plain m v a p : ready m -> plain m a 8 p ->
  exists m', mmu_write_u64 v a m = Done tt m' /\ becomes (ppc m) (patch (pbyte m) p (to_be 8 v)) m m'.
Proof.
  intros Hm Hp. unfold mmu_write_u64. rewrite (mbind_done _ _ _ _ _ (Memcheck_none _ _ _ _ _)).
  destruct (WriteToHardware_plain m (u32 (v .>> 32)) 4 a p Hm (is_u32_u32 _) ltac:(lia)) as (m1 & E1 & H1).
  { eapply plain_sub; [exact Hp|lia..]. }
  rewrite (mbind_done _ _ _ _ _ E1). pose proof (pl_range _ _ _ _ Hp). rewrite u32_id by (unfold is_u32; lia).
  destruct (WriteToHardware_plain m1 (u32 v) 4 (a + 4) (p + 4) (bc_ready _ _ _ _ H1) (is_u32_u32 _) ltac:(lia)) as (m2 & E2 & H2).
  { eapply plain_becomes; [exact H1|done|]. eapply plain_sub; [exact Hp|lia..]. }
  exists m2. split; [done|]. change 8%nat with (4 + 4)%nat. rewrite to_be_app, <- Z.shiftr_div_pow2 by lia. change (8 * Z.of_nat 4) with 32.
  unfold u32 in H1, H2. change 0x100000000 with (2 ^ 32) in H1, H2. rewrite to_be_mod in H1, H2 by lia. rewrite (becomes_ppc _ _ _ _ H1) in H2.
  eapply becomes_patch; [exact H1|exact H2].
Qed.

End Unchecked.

(** ** A concrete machine

    A GameCube without address translation, its caches empty, the data cache
    emulated or not. *)

Definition ram_machine (s : PowerPCState) (cached : bool) : Machine unit :=
  let m := quiet_machine s (Init MEM1_SIZE_RETAIL MEM2_SIZE_RETAIL false) in
  mkMachine (ppc m) (reserve m) (reserve_address m) (pagetable_update_pending m) cached (dCache m) (iCache m) (tlb m)
    (m_pagetable_base m) (m_pagetable_mask m) (m_dbat_table m) (m_ibat_table m) (m_page_tables m) (mem m)
    (m_l1_cache m) (m_fake_vmem m) (processor_interface m) (m_gather_pipe m) (world m).

Lemma ram_machine_ready s cached : ready (ram_machine s cached).
Proof.
  assert (Hm : mem_wf (mem (ram_machine s cached))) by (by apply Init_wf).
  constructor; [done|]. intros _. destruct (Reset_ok (psys (ram_machine s cached))) as (s' & E & Hi & _).
  - split; [exact Hm|]. split; reflexivity.
  - intros set way. unfold line_data. cbn. rewrite lookup_empty. split; [done|]. cbn. by repeat constructor.
  - assert (s' = psys (ram_machine s cached)) as -> by (unfold Cache_Reset, on_cache, mmodify in E; injection E as <-; reflexivity). exact Hi.
Qed.
(** Without translation, addresses of main memory are plain. *)
Lemma real_mode_plain {W} (m : Machine W) a n : DR m = false -> mem_wf (mem m) -> m_ram_size (mem m) <= 2 ^ 27 -> 0 <= a -> 0 <= n ->
  a + n <= m_ram_size_real (mem m) -> plain m a n a.
Proof.
  intros Hd Hm H27 Ha Hn Hr. pose proof (mem_ram_real _ Hm). destruct (mem_ram_pow _ Hm) as (k & Hk & Ek).
  constructor; [lia|left; split; lia|]. intros i Hi. unfold plain_address, cached_address. rewrite Hd.
  destruct (ram_address (a + i) ltac:(lia)) as (_ & -> & ->). by rewrite (mem_ram_mask_eq _ Hm), Ek, land_low_mask by lia.
Qed.
