(* ===== verification/PPCMemorySpec.v ===== *)
(** * What the memory instructions do

    Theorems about loads, stores and strings on ordinary memory, for every
    translation and cache setting [PPCMemory.plain] allows. *)
From S2P Require PPCSpec.
From S2P Require Export PPCFootprint.
From S2P Require Export PPCMemory.

Section MemorySpec.
Context {W : Type} {D : Devices W} {Q : NoMemchecks D}.
Implicit Types m : Machine W.

(** ** Evaluation on a machine that takes no data exception *)

Definition no_dsi (s : PowerPCState) : Prop := pending s EXCEPTION_DSI = false.

Lemma unless_dsi_eval f m : no_dsi (ppc m) -> unless_dsi f m = Done tt (with_ppc (f (ppc m)) m).
Proof. intros H. unfold unless_dsi, get, mbind, mget, dsi_raised. by rewrite H. Qed.

(** Registers change, memory stays. *)
Lemma becomes_registers s f m m' t : becomes s f m m' -> becomes t f m (with_ppc t m').
Proof.
  intros [R M B [Y1 Y2] V]. constructor; try done.
  change (psys (with_ppc t m')) with (psys m'). rewrite R at 1. by destruct m.
Qed.

Lemma load_plain m n conv inst a p : ready m -> no_dsi (ppc m) -> (0 < n)%nat -> plain m a (Z.of_nat n) p ->
  exists m', load n conv inst a m = Done tt m' /\
    becomes (set_gpr (RD inst) (conv (from_be (bytes_from (pbyte m) p n))) (ppc m)) (pbyte m) m m'.
Proof.
  intros Hm Hs Hn Hp. destruct (mmu_read_plain m n a p Hm Hn Hp) as (m1 & E1 & H1).
  unfold load. rewrite (mbind_done _ _ _ _ _ E1). rewrite <- (becomes_ppc _ _ _ _ H1) in Hs. rewrite unless_dsi_eval by done.
  eexists. split; [reflexivity|]. rewrite (becomes_ppc _ _ _ _ H1). by eapply becomes_registers.
Qed.
Lemma store_plain m n inst a p : ready m -> wf (ppc m) -> (0 < n <= 4)%nat -> plain m a (Z.of_nat n) p ->
  exists m', store_gpr n inst a m = Done tt m' /\
    becomes (ppc m) (patch (pbyte m) p (to_be n (get_gpr (ppc m) (RS inst)))) m m'.
Proof.
  intros Hm Hw Hn Hp. unfold store_gpr, get, mbind at 1, mget. apply mmu_write_plain; try done. by apply get_gpr_range.
Qed.


(** A load or a store with update sets RA as well. *)
Lemma load_update_plain m n conv inst a p : ready m -> no_dsi (ppc m) -> (0 < n)%nat -> plain m a (Z.of_nat n) p ->
  exists m', load_update n conv inst a m = Done tt m' /\
    becomes (set_gpr (RA inst) a (set_gpr (RD inst) (conv (from_be (bytes_from (pbyte m) p n))) (ppc m))) (pbyte m) m m'.
Proof.
  intros Hm Hs Hn Hp. destruct (mmu_read_plain m n a p Hm Hn Hp) as (m1 & E1 & H1).
  unfold load_update. rewrite (mbind_done _ _ _ _ _ E1). rewrite <- (becomes_ppc _ _ _ _ H1) in Hs. rewrite unless_dsi_eval by done.
  eexists. split; [reflexivity|]. rewrite (becomes_ppc _ _ _ _ H1). by eapply becomes_registers.
Qed.

(** ** A load gives back what a store left *)

(** The integer stores and loads: size, byte order (reversed or not), effective
    address, whether RA is updated, and how a load extends what it read. *)
Record store_form := mkStore {
  st_op : Z -> M (Machine W) unit; st_size : nat; st_reversed : bool; st_ea : Z -> PowerPCState -> Z; st_update : bool
}.
Record load_form := mkLoad {
  ld_op : Z -> M (Machine W) unit; ld_size : nat; ld_reversed : bool; ld_ea : Z -> PowerPCState -> Z; ld_update : bool;
  ld_extend : Z -> Z
}.
Definition stores : list store_form := [
  mkStore stb 1 false Helper_Get_EA false; mkStore stbu 1 false Helper_Get_EA_U true;
  mkStore stbx 1 false Helper_Get_EA_X false; mkStore stbux 1 false Helper_Get_EA_UX true;
  mkStore sth 2 false Helper_Get_EA false; mkStore sthu 2 false Helper_Get_EA_U true;
  mkStore sthx 2 false Helper_Get_EA_X false; mkStore sthux 2 false Helper_Get_EA_UX true;
  mkStore stw 4 false Helper_Get_EA false; mkStore stwu 4 false Helper_Get_EA_U true;
  mkStore stwx 4 false Helper_Get_EA_X false; mkStore stwux 4 false Helper_Get_EA_UX true;
  mkStore sthbrx 2 true Helper_Get_EA_X false; mkStore stwbrx 4 true Helper_Get_EA_X false].
Definition sign_extend16 (v : Z) : Z := u32 (s16 v).
Definition loads : list load_form := [
  mkLoad lbz 1 false Helper_Get_EA false id; mkLoad lbzu 1 false Helper_Get_EA_U true id;
  mkLoad lbzx 1 false Helper_Get_EA_X false id; mkLoad lbzux 1 false Helper_Get_EA_UX true id;
  mkLoad lhz 2 false Helper_Get_EA false id; mkLoad lhzu 2 false Helper_Get_EA_U true id;
  mkLoad lhzx 2 false Helper_Get_EA_X false id; mkLoad lhzux 2 false Helper_Get_EA_UX true id;
  mkLoad lha 2 false Helper_Get_EA false sign_extend16; mkLoad lhau 2 false Helper_Get_EA_U true sign_extend16;
  mkLoad lhax 2 false Helper_Get_EA_X false sign_extend16; mkLoad lhaux 2 false Helper_Get_EA_UX true sign_extend16;
  mkLoad lwz 4 false Helper_Get_EA false id; mkLoad lwzu 4 false Helper_Get_EA_U true id;
  mkLoad lwzx 4 false Helper_Get_EA_X false id; mkLoad lwzux 4 false Helper_Get_EA_UX true id;
  mkLoad lhbrx 2 true Helper_Get_EA_X false id; mkLoad lwbrx 4 true Helper_Get_EA_X false id].
(** RA becomes the address in the forms with update. *)
Definition updated (update : bool) inst (a : Z) (s : PowerPCState) : PowerPCState := if update then set_gpr (RA inst) a s else s.

(** The bytes a store of size [n] leaves are those of some word, which a load of the
    same byte order turns back. *)
Definition in_order (reversed : bool) (n : nat) (raw v : Z) : Prop :=
  if reversed then from_be (rev (to_be n raw)) = v mod 2 ^ (8 * Z.of_nat n) else raw = v mod 2 ^ (8 * Z.of_nat n).
Definition store_ok (x : store_form) : Prop := exists sv,
  (0 < st_size x <= 4)%nat /\
  (forall inst m, st_op x inst m =
    (mmu_write (st_size x) (sv (get_gpr (ppc m) (RS inst))) (st_ea x inst (ppc m)) ;;;
     if st_update x then unless_dsi (set_gpr (RA inst) (st_ea x inst (ppc m))) else mret tt) m) /\
  forall v, is_u32 v -> is_u32 (sv v) /\ in_order (st_reversed x) (st_size x) (sv v mod 2 ^ (8 * Z.of_nat (st_size x))) v.
Definition load_ok (x : load_form) : Prop := exists conv,
  (forall inst m, ld_op x inst m =
    (if ld_update x then load_update (ld_size x) conv inst (ld_ea x inst (ppc m))
     else load (ld_size x) conv inst (ld_ea x inst (ppc m))) m) /\
  forall raw v, in_order (ld_reversed x) (ld_size x) raw v -> conv raw = ld_extend x (v mod 2 ^ (8 * Z.of_nat (ld_size x))).

Lemma swapped_twice n x : from_be (rev (to_be n (from_be (rev (to_be n x))))) = x mod 2 ^ (8 * Z.of_nat n).
Proof.
  rewrite to_be_from_be; [by rewrite rev_involutive, from_to_be|apply Forall_rev, to_be_u8|by rewrite length_rev, length_to_be].
Qed.
Lemma swap_range n x : 0 <= from_be (rev (to_be n x)) < 2 ^ (8 * Z.of_nat n).
Proof.
  pose proof (from_be_range (rev (to_be n x)) ltac:(apply Forall_rev, to_be_u8)) as H. by rewrite length_rev, length_to_be in H.
Qed.
Lemma half_in_word v h : is_u32 v -> 0 <= h < 2 ^ 16 -> is_u32 ((v .& 0xFFFF0000) .| h) /\ ((v .& 0xFFFF0000) .| h) mod 2 ^ 16 = h.
Proof.
  intros Hv Hh. assert (E : v .& 0xFFFF0000 = (v .>> 16) .<< 16).
  { apply Z.bits_inj'. intros i Hi. rewrite Z.land_spec, Z.shiftl_spec by lia. change 0xFFFF0000 with (0xFFFF .<< 16).
    rewrite Z.shiftl_spec by lia. destruct (Z.ltb_spec i 16).
    - by rewrite !(Z.testbit_neg_r _ (i - 16)), andb_false_r by lia.
    - rewrite Z.shiftr_spec by lia. replace (i - 16 + 16) with i by lia. change 0xFFFF with (Z.ones 16). destruct (Z.ltb_spec i 32).
      + by rewrite Z.ones_spec_low, andb_true_r by lia.
      + by rewrite (proj2 (proj1 (bits_above_pow2 v 32 ltac:(done)) Hv)) by lia. }
  rewrite E, lor_shiftl_add by lia. rewrite Z.shiftr_div_pow2 by lia. unfold is_u32 in *.
  split; [|rewrite Z.add_comm, Z.mod_add by done; by apply Z.mod_small].
  change 0x100000000 with (2 ^ 16 * 2 ^ 16) in *. assert (0 <= v / 2 ^ 16 < 2 ^ 16) by (split; [apply Z.div_pos|apply Z.div_lt_upper_bound]; lia). nia.
Qed.

Lemma stores_ok : Forall store_ok stores.
Proof.
  assert (Hu : forall n f inst a m, (store_gpr n inst a ;;; unless_dsi (f a)) m =
    (mmu_write n (get_gpr (ppc m) (RS inst)) a ;;; unless_dsi (f a)) m) by done.
  assert (Hn : forall (o : M (Machine W) unit) m, o m = (o ;;; mret tt) m).
  { intros o m. unfold mbind. destruct (o m) as [[] m'|]; done. }
  assert (Hplain : forall f n ea upd, (0 < n <= 4)%nat ->
    (forall inst m, f inst m = (mmu_write n (get_gpr (ppc m) (RS inst)) (ea inst (ppc m)) ;;;
       if upd : bool then unless_dsi (set_gpr (RA inst) (ea inst (ppc m))) else mret tt) m) -> store_ok (mkStore f n false ea upd)).
  { intros f n ea upd Hsz Hf. exists id. split; [done|]. split; [exact Hf|]. intros v Hv. by split. }
  repeat (apply List.Forall_cons; [first [apply Hplain; [lia|first [done|intros; by rewrite <- Hn]]|idtac]|]); [| |constructor].
  - exists (fun v => (v .& 0xFFFF0000) .| swap16 (u16 v)). split; [simpl; lia|]. split; [intros inst m; by rewrite <- Hn|].
    intros v Hv. destruct (half_in_word v (swap16 (u16 v)) Hv (swap_range 2 (u16 v))) as [H1 H2]. split; [done|].
    cbn [st_size st_reversed in_order]. change (8 * Z.of_nat 2) with 16. rewrite H2. unfold swap16. rewrite swapped_twice.
    change (u16 v mod 2 ^ 16) with (u16 (u16 v)). apply u16_id, is_u16_u16.
  - exists swap32. split; [simpl; lia|]. split; [intros inst m; by rewrite <- Hn|]. intros v Hv. split; [apply (swap_range 4 v)|].
    cbn [st_size st_reversed in_order]. rewrite (Z.mod_small (swap32 v)) by apply (swap_range 4 v). unfold swap32. apply swapped_twice.
Qed.
Lemma loads_ok : Forall load_ok loads.
Proof.
  assert (Hx16 : forall v, extend16 (v mod 2 ^ 16) = sign_extend16 (v mod 2 ^ 16)) by done.
  repeat constructor.
  1-8, 13-16: exists id; split; [done|]; intros raw v ->; done.
  1-4: exists extend16; split; [done|]; intros raw v ->; apply Hx16.
  - exists swap16. split; [done|]. intros raw v E. exact E.
  - exists swap32. split; [done|]. intros raw v E. exact E.
Qed.

Lemma bytes_from_patch f p bs : bytes_from (patch f p bs) p (length bs) = bs.
Proof.
  apply list_eq_same_length with (length bs); [done|by rewrite length_bytes_from|]. intros i x y Hi.
  rewrite lookup_bytes_from by done. intros [= <-] Hy. apply patch_in; [|lia]. rewrite <- Hy. f_equal. lia.
Qed.

(** A store, with its update. *)
Lemma store_form_plain x inst m p : store_ok x -> ready m -> wf (ppc m) -> no_dsi (ppc m) ->
  plain m (st_ea x inst (ppc m)) (Z.of_nat (st_size x)) p ->
  exists raw m', in_order (st_reversed x) (st_size x) (raw mod 2 ^ (8 * Z.of_nat (st_size x))) (get_gpr (ppc m) (RS inst)) /\
    st_op x inst m = Done tt m' /\
    becomes (updated (st_update x) inst (st_ea x inst (ppc m)) (ppc m)) (patch (pbyte m) p (to_be (st_size x) raw)) m m'.
Proof.
  intros (sv & Hsz & Est & Hv) Hm Hw Hs Hp. set (v := get_gpr (ppc m) (RS inst)) in *.
  destruct (Hv v ltac:(by apply get_gpr_range)) as [Hsv Hin].
  destruct (mmu_write_plain m _ (sv v) _ p Hm Hsv Hsz Hp) as (m1 & E1 & H1). pose proof (becomes_ppc _ _ _ _ H1) as P1.
  exists (sv v). rewrite Est, (mbind_done _ _ _ _ _ E1). unfold updated. destruct (st_update x); [|by exists m1].
  eexists. split; [done|]. rewrite unless_dsi_eval by by rewrite P1. split; [done|]. rewrite P1. by eapply becomes_registers.
Qed.

(** C9. Whatever an integer store leaves at an address, a load of the same size and
    byte order at that address brings back: the low bytes of the stored register,
    zero- or sign-extended, in the target register.  The forms with update put the
    address into RA; no other register and no other byte of memory changes.  The
    memory is cached: the address is translated by a block that is neither
    write-through nor cache-inhibited, or not at all; the emulated data cache is on or
    off, and the access may cross lines and pages. *)
Theorem load_returns_stored_value st ld inst1 inst2 m p : In st stores -> In ld loads ->
  ld_size ld = st_size st -> ld_reversed ld = st_reversed st ->
  ready m -> wf (ppc m) -> no_dsi (ppc m) ->
  let a := st_ea st inst1 (ppc m) in
  let s1 := updated (st_update st) inst1 a (ppc m) in
  plain m a (Z.of_nat (st_size st)) p -> ld_ea ld inst2 s1 = a ->
  exists m1 m2, st_op st inst1 m = Done tt m1 /\ ld_op ld inst2 m1 = Done tt m2 /\ ppc m1 = s1 /\
    ppc m2 = updated (ld_update ld) inst2 a
      (set_gpr (RD inst2) (ld_extend ld (get_gpr (ppc m) (RS inst1) mod 2 ^ (8 * Z.of_nat (st_size st)))) s1) /\
    forall y, block_ok (mem m) y 1 -> ~ p <= y < p + Z.of_nat (st_size st) -> pbyte m2 y = pbyte m y.
Proof.
  intros Hst Hld Hsize Hrev Hm Hw Hs a s1 Hp Hea. pose proof stores_ok as Hf. rewrite List.Forall_forall in Hf. specialize (Hf st Hst).
  pose proof loads_ok as Hg. rewrite List.Forall_forall in Hg. destruct (Hg ld Hld) as (conv & Eld & Hconv). clear Hg Hst Hld.
  destruct (store_form_plain st inst1 m p Hf Hm Hw Hs Hp) as (raw & m1 & Hin & E1 & H1). fold a s1 in H1.
  pose proof (becomes_ppc _ _ _ _ H1) as P1. destruct Hf as (_ & Hsz & _).
  assert (Hs1 : no_dsi s1 /\ MSR_DR s1 = DR m) by (unfold s1, updated; by destruct (st_update st)).
  destruct Hs1 as [Hs1 Hdr]. pose proof (plain_becomes _ _ _ _ _ _ _ H1 Hdr Hp) as Hp1.
  set (w := get_gpr (ppc m) (RS inst1)) in *.
  assert (Ev : conv (from_be (bytes_from (pbyte m1) p (st_size st))) = ld_extend ld (w mod 2 ^ (8 * Z.of_nat (st_size st)))).
  { rewrite (bytes_from_ext (pbyte m1) (patch (pbyte m) p (to_be (st_size st) raw)));
      [|intros b Hb; apply (bc_bytes _ _ _ _ H1); eapply block_ok_sub; [apply Hp|lia..]].
    rewrite <- (length_to_be (st_size st) raw) at 2. rewrite bytes_from_patch, from_to_be, <- Hsize.
    apply Hconv. by rewrite Hrev, Hsize. }
  assert (H2 : exists m2, ld_op ld inst2 m1 = Done tt m2 /\
    becomes (updated (ld_update ld) inst2 a (set_gpr (RD inst2) (conv (from_be (bytes_from (pbyte m1) p (st_size st)))) s1)) (pbyte m1) m1 m2).
  { rewrite Eld, P1, Hea, Hsize. unfold updated. rewrite <- P1 in Hs1.
    pose proof (load_update_plain m1 (st_size st) conv inst2 a p (bc_ready _ _ _ _ H1) Hs1 ltac:(lia) Hp1) as Hu.
    pose proof (load_plain m1 (st_size st) conv inst2 a p (bc_ready _ _ _ _ H1) Hs1 ltac:(lia) Hp1) as Hl.
    rewrite P1 in Hu, Hl. by destruct (ld_update ld). }
  destruct H2 as (m2 & E2 & H2). exists m1, m2. do 3 (split; [done|]). split; [by rewrite (becomes_ppc _ _ _ _ H2), Ev|].
  intros y Hy Hout. rewrite (bc_bytes _ _ _ _ H2) by by apply (bc_blocks _ _ _ _ H1 y 1).
  rewrite (bc_bytes _ _ _ _ H1) by done. apply patch_out. by rewrite length_to_be.
Qed.


(** ** Several registers *)

(** The bytes of [n] registers from [i], and the registers loaded with bytes of [f] from [p]. *)
Fixpoint register_bytes (s : PowerPCState) (i : Z) (n : nat) : list Z :=
  match n with O => [] | S n' => to_be 4 (get_gpr s i) ++ register_bytes s (i + 1) n' end.
Fixpoint load_registers (f : Z -> Z) (p i : Z) (n : nat) (s : PowerPCState) : PowerPCState :=
  match n with O => s | S n' => load_registers f (p + 4) (i + 1) n' (set_gpr i (from_be (bytes_from f p 4)) s) end.

Lemma length_register_bytes s i n : Z.of_nat (length (register_bytes s i n)) = 4 * Z.of_nat n.
Proof. revert i. induction n as [|n IH]; intros i; [done|]. cbn [register_bytes]. rewrite length_app, length_to_be, Nat2Z.inj_add, IH. lia. Qed.

Lemma stmw_loop_plain n : forall m i a p, ready m -> wf (ppc m) -> no_dsi (ppc m) -> plain m a (4 * Z.of_nat n) p ->
  exists m', stmw_loop n i a m = Done tt m' /\ becomes (ppc m) (patch (pbyte m) p (register_bytes (ppc m) i n)) m m'.
Proof.
  induction n as [|n IH]; intros m i a p Hm Hw Hs Hp; cbn [stmw_loop register_bytes].
  { exists m. split; [done|]. eapply becomes_ext; [by apply becomes_refl|]. intros x _. rewrite patch_out; [done|simpl; lia]. }
  unfold get at 1. unfold mbind at 1, mget.
  destruct (mmu_write_plain m 4 (get_gpr (ppc m) i) a p Hm ltac:(by apply get_gpr_range) ltac:(lia)) as (m1 & E1 & H1).
  { eapply plain_sub; [exact Hp|lia..]. }
  rewrite (mbind_done _ _ _ _ _ E1). pose proof (becomes_ppc _ _ _ _ H1) as P1.
  unfold get, mbind, mget, dsi_raised. rewrite P1, Hs. destruct n as [|n'].
  { exists m1. split; [done|]. cbn [register_bytes]. by rewrite app_nil_r. }
  pose proof (pl_range _ _ _ _ Hp) as Hr. rewrite u32_id by (unfold is_u32; lia).
  destruct (IH m1 (i + 1) (a + 4) (p + 4)) as (m2 & E2 & H2); [by apply bc_ready in H1|by rewrite P1|by rewrite P1| |].
  { eapply plain_becomes; [exact H1|done|]. eapply plain_sub; [exact Hp|lia..]. }
  exists m2. split; [done|]. rewrite P1 in H2. by eapply becomes_patch.
Qed.

Lemma wf_loaded s i f p : wf s -> (forall x, is_u8 (f x)) -> wf (set_gpr i (from_be (bytes_from f p 4)) s).
Proof.
  intros Hw Hf. apply wf_set_gpr; [done|]. apply (from_be_range (bytes_from f p 4)). apply Forall_map, Forall_forall. intros; apply Hf.
Qed.
Lemma load_registers_ext f g p i n : forall s, (forall x, p <= x < p + 4 * Z.of_nat n -> f x = g x) -> load_registers f p i n s = load_registers g p i n s.
Proof.
  revert p i. induction n as [|n IH]; intros p i s E; [done|]. cbn [load_registers].
  rewrite (bytes_from_ext f g p) by (intros; apply E; lia). apply IH. intros; apply E; lia.
Qed.

Lemma lmw_loop_plain n : forall m i a p, ready m -> no_dsi (ppc m) -> plain m a (4 * Z.of_nat n) p ->
  exists m', lmw_loop n i a m = Done tt m' /\ becomes (load_registers (pbyte m) p i n (ppc m)) (pbyte m) m m'.
Proof.
  induction n as [|n IH]; intros m i a p Hm Hs Hp; cbn [lmw_loop load_registers].
  { exists m. split; [done|]. by apply becomes_refl. }
  destruct (mmu_read_plain m 4 a p Hm ltac:(lia)) as (m1 & E1 & H1).
  { eapply plain_sub; [exact Hp|lia..]. }
  rewrite (mbind_done _ _ _ _ _ E1). pose proof (becomes_ppc _ _ _ _ H1) as P1.
  unfold get at 1. unfold mbind at 1, mget, dsi_raised. rewrite P1, Hs. unfold on_gpr, modify, mmodify, mbind.
  set (v := from_be _). assert (H1' : becomes (set_gpr i v (ppc m)) (pbyte m) m (on_ppc (set_gpr i v) m1)).
  { unfold on_ppc. rewrite P1. by eapply becomes_registers. }
  set (m1' := on_ppc (set_gpr i v) m1) in *. destruct n as [|n']; [by exists m1'|].
  pose proof (pl_range _ _ _ _ Hp) as Hr. rewrite u32_id by (unfold is_u32; lia).
  assert (Hp2 : plain m (a + 4) (4 * Z.of_nat (Datatypes.S n')) (p + 4)) by (eapply plain_sub; [exact Hp|lia..]).
  destruct (IH m1' (i + 1) (a + 4) (p + 4)) as (m2 & E2 & H2).
  { by apply bc_ready in H1'. } { by rewrite (becomes_ppc _ _ _ _ H1'). }
  { by eapply plain_becomes. }
  exists m2. split; [exact E2|]. rewrite (becomes_ppc _ _ _ _ H1') in H2.
  rewrite (load_registers_ext _ (pbyte m)) in H2.
  - eapply becomes_trans; [exact H1'|]. eapply becomes_ext; [exact H2|]. intros x Hx. apply (bc_bytes _ _ _ _ H1').
    by apply (bc_blocks _ _ _ _ H1' x 1).
  - intros x Hx. apply (bc_bytes _ _ _ _ H1'). eapply block_ok_sub; [apply Hp2|lia..].
Qed.

(** Registers loaded from where others were stored. *)
Lemma load_stored_registers s f n : forall p i t r, wf s -> wf t -> 0 <= i -> i + Z.of_nat n <= 32 -> 0 <= r < 32 ->
  (forall j, (j < 4 * n)%nat -> f (p + Z.of_nat j) = nth j (register_bytes s i n) 0) ->
  get_gpr (load_registers f p i n t) r = if (i <=? r) && (r <? i + Z.of_nat n) then get_gpr s r else get_gpr t r.
Proof.
  induction n as [|n IH]; intros p i t r Hs Ht Hi Hn Hr Hf; cbn [load_registers].
  { destruct (Z.leb_spec i r), (Z.ltb_spec r (i + Z.of_nat 0)); try done. lia. }
  assert (E : bytes_from f p 4 = to_be 4 (get_gpr s i)).
  { apply list_eq_same_length with 4%nat; [by rewrite length_to_be|done|]. intros k x y Hk. rewrite lookup_bytes_from by done.
    intros [= <-] Hy. rewrite Hf by lia. cbn [register_bytes]. rewrite app_nth1 by (rewrite length_to_be; lia). by apply nth_lookup_Some. }
  rewrite E, from_to_be. change (2 ^ (8 * Z.of_nat 4)) with 0x100000000. rewrite Z.mod_small by by apply get_gpr_range.
  rewrite IH; [| done | by apply wf_set_gpr, get_gpr_range|lia..|].
  - rewrite get_gpr_set by (done || lia). destruct (Z.eqb_spec r i) as [->|Hne].
    + rewrite (proj2 (Z.leb_gt (i + 1) i)), (proj2 (Z.leb_le i i)), (proj2 (Z.ltb_lt i (i + Z.of_nat (Datatypes.S n)))) by lia. done.
    + destruct (Z.leb_spec (i + 1) r), (Z.leb_spec i r); try lia; [|done].
      destruct (Z.ltb_spec r (i + 1 + Z.of_nat n)), (Z.ltb_spec r (i + Z.of_nat (Datatypes.S n))); try lia; done.
  - intros j Hj. replace (p + 4 + Z.of_nat j) with (p + Z.of_nat (4 + j)) by lia. rewrite Hf by lia. cbn [register_bytes].
    rewrite app_nth2 by (rewrite length_to_be; lia). rewrite length_to_be. f_equal. lia.
Qed.


Lemma nth_patch f p bs j : (j < length bs)%nat -> patch f p bs (p + Z.of_nat j) = nth j bs 0.
Proof.
  intros Hj. unfold patch. rewrite (proj2 (Z.leb_le _ _)), (proj2 (Z.ltb_lt _ _)) by lia. cbn [andb]. f_equal. lia.
Qed.
Lemma RD_range inst : 0 <= RD inst < 32.
Proof. apply (field_range inst 21 5); lia. Qed.

(** C22. [stmw] at the start of a function and [lmw] at its end, at an aligned address of
    cached memory in big-endian mode: the store writes the bytes of the registers and nothing
    else, and whatever happens in between to the registers, to the caches and to other memory,
    the load at the same address brings back every register from the first stored one
    on, and changes no other register and no memory. *)
Theorem registers_survive_a_call inst m p : ready m -> wf (ppc m) -> no_dsi (ppc m) -> MSR_LE (ppc m) = false ->
  let a := Helper_Get_EA inst (ppc m) in let n := 4 * (32 - RS inst) in
  a mod 4 = 0 -> plain m a n p ->
  exists m1, stmw inst m = Done tt m1 /\
    becomes (ppc m) (patch (pbyte m) p (register_bytes (ppc m) (RS inst) (Z.to_nat (32 - RS inst)))) m m1 /\
    forall s' g m1', becomes s' g m1 m1' -> (forall y, p <= y < p + n -> g y = pbyte m1 y) ->
      wf s' -> no_dsi s' -> MSR_LE s' = false -> MSR_DR s' = DR m -> Helper_Get_EA inst s' = a ->
      exists m2, lmw inst m1' = Done tt m2 /\
        (forall r, 0 <= r < 32 -> get_gpr (ppc m2) r = if RS inst <=? r then get_gpr (ppc m) r else get_gpr s' r) /\
        (forall y, block_ok (mem m1') y 1 -> pbyte m2 y = pbyte m1' y).
Proof.
  intros Hm Hw Hs Hle a n Ha Hp. pose proof (RD_range inst : 0 <= RS inst < 32) as Hrs.
  set (k := Z.to_nat (32 - RS inst)). assert (Hn : n = 4 * Z.of_nat k) by lia. rewrite Hn in Hp.
  assert (Hal : (a .& 3 =? 0) = true) by (rewrite (land_ones_mod 2) by lia; by apply Z.eqb_eq).
  destruct (stmw_loop_plain k m (RS inst) a p Hm Hw Hs Hp) as (m1 & E1 & H1).
  exists m1. split; [unfold stmw, ea, aligned_big_endian, get, mbind, mget; fold a; by rewrite Hal, Hle|].
  split; [exact H1|]. intros s' g m1' H2 Hg Hw' Hs' Hle' Hdr' Hea'. assert (P2 := becomes_ppc _ _ _ _ H2).
  assert (Hdr1 : DR m1 = DR m) by (unfold DR; by rewrite (becomes_ppc _ _ _ _ H1)).
  destruct (lmw_loop_plain k m1' (RS inst) a p ltac:(apply H2)) as (m2 & E2 & H3); [by rewrite P2| |].
  { eapply plain_becomes; [exact H2|congruence|]. by eapply plain_becomes. }
  exists m2. split; [|split].
  - unfold lmw, ea, aligned_big_endian, get, mbind, mget. rewrite P2, Hea', Hal, Hle'. exact E2.
  - intros r Hr. rewrite (becomes_ppc _ _ _ _ H3), P2, (load_stored_registers (ppc m)); try done; try lia.
    + destruct (Z.leb_spec (RS inst) r); [|done]. by rewrite (proj2 (Z.ltb_lt r _)) by lia.
    + intros j Hj. pose proof (length_register_bytes (ppc m) (RS inst) k) as Hl.
      assert (Hbk : block_ok (mem m) (p + Z.of_nat j) 1) by (eapply block_ok_sub; [apply Hp|lia..]).
      rewrite (bc_bytes _ _ _ _ H2) by by apply (bc_blocks _ _ _ _ H1 _ 1). rewrite Hg by lia.
      rewrite (bc_bytes _ _ _ _ H1) by done. apply nth_patch. lia.
  - intros y Hy. by apply (bc_bytes _ _ _ _ H3).
Qed.

(** ** Reservations *)

Lemma ready_reservation b a m : ready m -> ready (with_reservation b a m).
Proof. by intros []. Qed.

(** C37. A conditional store takes effect exactly when the reservation a
    load-and-reserve left is still held for its address: then it stores the
    register, gives the reservation up and sets EQ in CR0.  In every other case it
    only clears EQ: memory, registers and the reservation stay.  CR0 gets the
    summary overflow either way. *)
Theorem conditional_store_needs_reservation inst m p : ready m -> wf (ppc m) -> no_dsi (ppc m) ->
  let a := Helper_Get_EA_X inst (ppc m) in a mod 4 = 0 -> plain m a 4 p ->
  let held := reserve m && (a =? reserve_address m) in
  let t := SetField 0 ((if held then 2 else 0) .| GetXER_SO (ppc m)) (ppc m) in
  exists m', stwcxd inst m = Done tt (if held then with_reservation false (reserve_address m) m' else m') /\
    reserve m' = reserve m /\
    becomes t (if held then patch (pbyte m) p (to_be 4 (get_gpr (ppc m) (RS inst))) else pbyte m) m m'.
Proof.
  intros Hm Hw Hs a Ha Hp held t. assert (Hal : (a .& 3 =? 0) = true) by (rewrite (land_ones_mod 2) by lia; by apply Z.eqb_eq).
  unfold stwcxd, ea, aligned, get, cr0_so, on_gpr, modify, mmodify. unfold mbind at 1, mget. fold a. rewrite Hal. cbn [negb].
  unfold mbind at 1. fold held. destruct held eqn:Eh.
  - destruct (store_plain m 4 inst a p Hm Hw ltac:(lia) Hp) as (m1 & E1 & H1). rewrite (mbind_done _ _ _ _ _ E1).
    pose proof (becomes_ppc _ _ _ _ H1) as P1. unfold mbind, dsi_raised. rewrite P1, Hs. cbn [negb].
    exists (with_ppc t m1). split; [|split].
    + unfold on_ppc. cbn. by rewrite P1.
    + by rewrite (bc_rest _ _ _ _ H1).
    + by eapply becomes_registers.
  - exists (with_ppc t m). split; [done|]. split; [done|]. by apply becomes_ppc_only.
Qed.

(** [lwarx] makes the reservation that lets the next [stwcx.] at its address succeed. *)
Lemma lwarx_reserves inst m p : ready m -> no_dsi (ppc m) ->
  let a := Helper_Get_EA_X inst (ppc m) in a mod 4 = 0 -> plain m a 4 p ->
  exists m', lwarx inst m = Done tt (with_reservation true a m') /\
    becomes (set_gpr (RD inst) (from_be (bytes_from (pbyte m) p 4)) (ppc m)) (pbyte m) m m'.
Proof.
  intros Hm Hs a Ha Hp. assert (Hal : (a .& 3 =? 0) = true) by (rewrite (land_ones_mod 2) by lia; by apply Z.eqb_eq).
  destruct (mmu_read_plain m 4 a p Hm ltac:(lia) Hp) as (m1 & E1 & H1). pose proof (becomes_ppc _ _ _ _ H1) as P1.
  unfold lwarx, ea, aligned, get, on_gpr, modify, mmodify. unfold mbind at 1, mget. fold a. rewrite Hal. cbn [negb].
  rewrite (mbind_done _ _ _ _ _ E1). unfold mbind, dsi_raised. rewrite P1, Hs. cbn [negb mwhen].
  eexists. split; [reflexivity|]. unfold on_ppc. rewrite P1. by eapply becomes_registers.
Qed.

End MemorySpec.

(** ** Examples *)

#[local] Instance quiet : Devices unit := quiet_devices false.
#[local] Instance quiet_unchecked : NoMemchecks quiet := quiet_no_memchecks false.
(** The data cache is on; register 3 is an address near the end of a page. *)
Definition example_machine (address : Z) : Machine unit := ram_machine (PPCSpec.demo [0; 0; 0; address; 0x89abcdef; 0x11223344]) true.

Lemma example_wf address : is_u32 address -> wf (ppc (example_machine address)).
Proof. intros Ha. apply PPCSpec.demo_wf; [simpl; lia|]. repeat (apply Forall_cons; split); try done; split; discriminate || reflexivity. Qed.
Lemma example_plain address a n : 0 <= a -> 0 <= n -> a + n <= MEM1_SIZE_RETAIL -> plain (example_machine address) a n a.
Proof. intros Ha Hn Hr. by apply real_mode_plain; [| apply ram_machine_ready|..]. Qed.

(** [sthu r4, 1(r3)] and [lha r5, 0(r3)] across a page. *)
Lemma load_returns_stored_value_witness : exists m1 m2,
  sthu (45 * 2 ^ 26 + 4 * 2 ^ 21 + 3 * 2 ^ 16 + 1) (example_machine 0x1ffe) = Done tt m1 /\
  lha (42 * 2 ^ 26 + 5 * 2 ^ 21 + 3 * 2 ^ 16) m1 = Done tt m2 /\
  get_gpr (ppc m2) 5 = 0xffffcdef /\ get_gpr (ppc m2) 3 = 0x1fff /\ pbyte m2 0x2001 = 0.
Proof.
  destruct (load_returns_stored_value (mkStore sthu 2 false Helper_Get_EA_U true) (mkLoad lha 2 false Helper_Get_EA false sign_extend16)
    (45 * 2 ^ 26 + 4 * 2 ^ 21 + 3 * 2 ^ 16 + 1) (42 * 2 ^ 26 + 5 * 2 ^ 21 + 3 * 2 ^ 16) (example_machine 0x1ffe) 0x1fff)
    as (m1 & m2 & E1 & E2 & _ & E3 & E4).
  - unfold stores. simpl. tauto.
  - unfold loads. simpl. tauto.
  - reflexivity.
  - reflexivity.
  - apply ram_machine_ready.
  - apply example_wf. split; [discriminate|reflexivity].
  - reflexivity.
  - apply example_plain; vm_compute; discriminate.
  - reflexivity.
  - exists m1, m2. split; [exact E1|]. split; [exact E2|]. split; [rewrite E3; vm_compute; reflexivity|].
    split; [rewrite E3; vm_compute; reflexivity|].
    rewrite E4; [vm_compute; reflexivity|left; split; vm_compute; discriminate|intros [? ?]; discriminate].
Defined.

(** [stmw r30, 0(r3)], then the registers are cleared, then [lmw r30, 0(r3)]. *)
Definition saved : PowerPCState := set_gpr 31 0x31 (set_gpr 30 0x30 (PPCSpec.demo [0; 0; 0; 0x2000; 0x89abcdef; 0x11223344])).
Definition clobbered : PowerPCState := set_gpr 1 0x77 (PPCSpec.demo [0; 0; 0; 0x2000; 0x89abcdef; 0x11223344]).
Lemma saved_wf : wf saved.
Proof. apply wf_set_gpr; [apply wf_set_gpr; [apply (example_wf 0x2000)|]|]; split; discriminate || reflexivity. Qed.
Lemma registers_survive_a_call_witness : exists m1 m2,
  stmw (47 * 2 ^ 26 + 30 * 2 ^ 21 + 3 * 2 ^ 16) (ram_machine saved true) = Done tt m1 /\
  lmw (46 * 2 ^ 26 + 30 * 2 ^ 21 + 3 * 2 ^ 16) (with_ppc clobbered m1) = Done tt m2 /\
  get_gpr (ppc m2) 30 = 0x30 /\ get_gpr (ppc m2) 31 = 0x31 /\ get_gpr (ppc m2) 1 = 0x77.
Proof.
  destruct (registers_survive_a_call (47 * 2 ^ 26 + 30 * 2 ^ 21 + 3 * 2 ^ 16) (ram_machine saved true) 0x2000) as (m1 & E1 & H1 & H).
  - apply ram_machine_ready.
  - exact saved_wf.
  - reflexivity.
  - reflexivity.
  - reflexivity.
  - apply real_mode_plain; [reflexivity|apply ram_machine_ready|vm_compute; discriminate..].
  - destruct (H clobbered (pbyte m1) (with_ppc clobbered m1)) as (m2 & E2 & Hr & _).
    + apply becomes_ppc_only. exact (bc_ready _ _ _ _ H1).
    + reflexivity.
    + apply wf_set_gpr; [apply (example_wf 0x2000)|]; split; discriminate || reflexivity.
    + reflexivity.
    + reflexivity.
    + reflexivity.
    + vm_compute. reflexivity.
    + exists m1, m2. split; [exact E1|]. split; [exact E2|].
      rewrite !Hr by (split; [discriminate|reflexivity]). vm_compute. repeat split.
Defined.

(** [stwcx. r4, 0, r3] with the reservation held. *)
Lemma conditional_store_needs_reservation_witness : exists m',
  stwcxd (31 * 2 ^ 26 + 4 * 2 ^ 21 + 3 * 2 ^ 11 + 301) (with_reservation true 0x2000 (example_machine 0x2000)) =
    Done tt (with_reservation false 0x2000 m') /\
  pbyte m' 0x2000 = 0x89 /\ GetField 0 (ppc m') = 2.
Proof.
  destruct (conditional_store_needs_reservation (31 * 2 ^ 26 + 4 * 2 ^ 21 + 3 * 2 ^ 11 + 301)
    (with_reservation true 0x2000 (example_machine 0x2000)) 0x2000) as (m' & E & _ & H).
  - apply ready_reservation, ram_machine_ready.
  - apply (example_wf 0x2000). split; [discriminate|reflexivity].
  - reflexivity.
  - reflexivity.
  - apply real_mode_plain; [reflexivity|apply ram_machine_ready|vm_compute; discriminate..].
  - exists m'. split; [exact E|]. split.
    + rewrite (bc_bytes _ _ _ _ H); [vm_compute; reflexivity|left; split; vm_compute; discriminate].
    + rewrite (becomes_ppc _ _ _ _ H). vm_compute. reflexivity.
Defined.

(** * The string instructions

    [Helper_StoreString] only makes aligned word accesses; the bytes it shifts
    together are the bytes of the registers, and it leaves the rest of the first
    and the last word as it was. *)

(** ** Bytes of shifted words *)

Lemma to_be_shr n k x : to_be n (x / 2 ^ (8 * Z.of_nat k)) = take n (to_be (n + k) x).
Proof. rewrite to_be_app, take_app_le, take_ge by (rewrite length_to_be; lia). done. Qed.
Lemma to_be_low n k x : to_be k x = drop n (to_be (n + k) x).
Proof. rewrite to_be_app. symmetry. apply drop_app_length'. by rewrite length_to_be. Qed.
Lemma to_be_pair n h l : is_u32 l -> to_be (n + 4) ((h .<< 32) .| l) = to_be n h ++ to_be 4 l.
Proof.
  intros Hl. rewrite to_be_app, lor_shiftl_add by (done || lia). change (8 * Z.of_nat 4) with 32. f_equal.
  - f_equal. rewrite Z.div_add_l, Z.div_small by done. lia.
  - rewrite <- (to_be_mod 4 (h * 2 ^ 32 + l) 32) by lia. by rewrite Z.add_comm, Z.mod_add, to_be_mod by lia.
Qed.
Lemma to_be_u32 n x : (n <= 4)%nat -> to_be n (u32 x) = to_be n x.
Proof. intros Hn. unfold u32. change 0x100000000 with (2 ^ 32). apply to_be_mod. lia. Qed.

(** A word made of the end of one word and the start of the next. *)
Lemma joined_word mis h g : is_u32 g -> (mis <= 3)%nat ->
  to_be 4 (u32 (((h .<< 32) .| g) .>> (Z.of_nat mis * 8))) = to_be mis h ++ take (4 - mis) (to_be 4 g).
Proof.
  intros Hg Hm. rewrite to_be_u32, Z.shiftr_div_pow2, (Z.mul_comm _ 8), to_be_shr by lia.
  rewrite (Nat.add_comm 4), to_be_pair by done. rewrite take_app, take_ge, length_to_be by (rewrite length_to_be; lia). done.
Qed.
(** What is left for the next word. *)
Lemma next_value h g : is_u32 h -> is_u32 g -> u64 (((h .<< 32) .| g) .<< 32) = g .<< 32.
Proof.
  intros Hh Hg. rewrite lor_shiftl_add by (done || lia). rewrite !Z.shiftl_mul_pow2 by lia. unfold u64.
  change 0x10000000000000000 with (2 ^ 32 * 2 ^ 32). rewrite Z.mul_mod_distr_r by lia. f_equal.
  rewrite Z.add_comm, Z.mod_add by lia. by apply Z.mod_small.
Qed.
Lemma high_word y : is_u64 y -> y .& 0xFFFFFFFF00000000 = (y / 2 ^ 32) .<< 32.
Proof.
  intros Hy. rewrite <- Z.shiftr_div_pow2 by lia. apply Z.bits_inj'. intros i Hi. rewrite Z.land_spec, Z.shiftl_spec by done.
  change 0xFFFFFFFF00000000 with (Z.ones 32 .<< 32). rewrite Z.shiftl_spec by done. destruct (Z.ltb_spec i 32).
  - by rewrite !(Z.testbit_neg_r _ (i - 32)), andb_false_r by lia.
  - rewrite Z.shiftr_spec by lia. replace (i - 32 + 32) with i by lia. destruct (Z.ltb_spec i 64).
    + by rewrite Z.ones_spec_low, andb_true_r by lia.
    + by rewrite (proj2 (proj1 (bits_above_pow2 y 64 ltac:(done)) Hy)) by lia.
Qed.
(** The upper half after the shifts of the last word. *)
Lemma end_value mis n h g : is_u32 h -> is_u32 g -> (mis <= 3)%nat -> (0 < n <= 3)%nat ->
  exists t, is_u32 t /\
    (if Z.of_nat mis <? Z.of_nat n then u64 (((h .<< 32) .| g) .<< ((Z.of_nat n - Z.of_nat mis) * 8))
     else (h .<< 32) .>> ((Z.of_nat mis - Z.of_nat n) * 8)) .& 0xFFFFFFFF00000000 = t .<< 32 /\
    to_be n t = take n (to_be mis h ++ to_be 4 g).
Proof.
  intros Hh Hg Hm Hn. destruct (Z.ltb_spec (Z.of_nat mis) (Z.of_nat n)) as [Hlt|Hge].
  - set (d := (n - mis)%nat). replace ((Z.of_nat n - Z.of_nat mis) * 8) with (8 * Z.of_nat d) by lia.
    set (x := (h .<< 32) .| g). exists (u64 (x .<< (8 * Z.of_nat d)) / 2 ^ 32).
    assert (Hu : is_u64 (u64 (x .<< (8 * Z.of_nat d)))) by (apply Z.mod_pos_bound; lia).
    split; [unfold is_u32, is_u64 in *; split; [apply Z.div_pos; lia|apply Z.div_lt_upper_bound; lia]|].
    split; [by apply high_word|].
    rewrite <- (to_be_mod n _ 32), Z.shiftl_mul_pow2 by lia. unfold u64. change 0x10000000000000000 with (2 ^ 32 * 2 ^ 32).
    rewrite Z.rem_mul_r, (Z.mul_comm (2 ^ 32)), Z.div_add, (Z.div_small (_ mod _)), Z.add_0_l, Z.mod_mod by (try apply Z.mod_pos_bound; lia).
    rewrite to_be_mod by lia. replace (2 ^ 32) with (2 ^ (8 * Z.of_nat (4 - d)) * 2 ^ (8 * Z.of_nat d)).
    2: { rewrite <- Z.pow_add_r by lia. f_equal. lia. }
    rewrite Z.div_mul_cancel_r, to_be_shr by (apply Z.pow_nonzero; lia). replace (n + (4 - d))%nat with (mis + 4)%nat by lia. unfold x. by rewrite (to_be_pair mis) by done.
  - set (e := (mis - n)%nat). replace ((Z.of_nat mis - Z.of_nat n) * 8) with (8 * Z.of_nat e) by lia.
    assert (Hsh : (h .<< 32) .>> (8 * Z.of_nat e) = h * 2 ^ (32 - 8 * Z.of_nat e)).
    { rewrite Z.shiftr_div_pow2, Z.shiftl_mul_pow2 by lia. replace 32 with (32 - 8 * Z.of_nat e + 8 * Z.of_nat e) at 1 by lia.
      rewrite Z.pow_add_r, Z.mul_assoc, Z.div_mul by lia. done. }
    exists (h / 2 ^ (8 * Z.of_nat e)). unfold is_u32 in *. assert (0 < 2 ^ (8 * Z.of_nat e)) by (apply Z.pow_pos_nonneg; lia).
    split; [split; [apply Z.div_pos; lia|apply Z.div_lt_upper_bound; nia]|]. split.
    + rewrite high_word.
      * f_equal. rewrite Hsh. replace (2 ^ 32) with (2 ^ (32 - 8 * Z.of_nat e) * 2 ^ (8 * Z.of_nat e)) by (rewrite <- Z.pow_add_r by lia; f_equal; lia).
        rewrite (Z.mul_comm h), Z.div_mul_cancel_l by (apply Z.pow_nonzero; lia). done.
      * rewrite Hsh. assert (2 ^ (32 - 8 * Z.of_nat e) <= 2 ^ 32) by (apply Z.pow_le_mono_r; lia).
        unfold is_u64. split; [|nia]. assert (0 < 2 ^ (32 - 8 * Z.of_nat e)) by (apply Z.pow_pos_nonneg; lia). nia.
    + rewrite to_be_shr. replace (n + e)%nat with mis by lia. by rewrite take_app_le by (rewrite length_to_be; lia).
Qed.
(** The last word: bytes of the string, then what was there. *)
Lemma last_word n t old : is_u32 t -> (0 < n <= 3)%nat ->
  to_be 4 (u32 (((t .<< 32) .| u32 (old .<< (Z.of_nat n * 8))) .>> (Z.of_nat n * 8))) = to_be n t ++ drop n (to_be 4 old).
Proof.
  intros Ht Hn. rewrite joined_word by (apply is_u32_u32 || lia). f_equal. rewrite to_be_u32, Z.shiftl_mul_pow2 by lia.
  transitivity (to_be (4 - n) old).
  - replace 4%nat with (4 - n + n)%nat at 2 by lia. rewrite to_be_app, take_app_le, take_ge by (rewrite length_to_be; lia).
    rewrite (Z.mul_comm (Z.of_nat n)), Z.div_mul by (apply Z.pow_nonzero; lia). done.
  - rewrite (to_be_low n (4 - n)). do 2 f_equal. lia.
Qed.

Section StringSpec.
Context {W : Type} {D : Devices W} {Q : NoMemchecks D}.
Implicit Types m : Machine W.

(** ** The bytes of a string *)

(** [k] registers from [r], the first following the last. *)
Fixpoint ring_bytes (s : PowerPCState) (r : Z) (k : nat) : list Z :=
  match k with O => [] | S k' => to_be 4 (get_gpr s r) ++ ring_bytes s ((r + 1) .& 0x1f) k' end.
(** The first [n] bytes of them. *)
Definition string_bytes (s : PowerPCState) (r : Z) (n : nat) : list Z := take n (ring_bytes s r n).

Lemma length_ring s r k : length (ring_bytes s r k) = (4 * k)%nat.
Proof. revert r. induction k as [|k IH]; intros r; [done|]. cbn [ring_bytes]. rewrite length_app, length_to_be, IH. lia. Qed.
Lemma ring_app s r k j : exists r', ring_bytes s r (k + j) = ring_bytes s r k ++ ring_bytes s r' j.
Proof.
  revert r. induction k as [|k IH]; intros r; [by exists r|]. destruct (IH ((r + 1) .& 0x1f)) as [r' E].
  exists r'. cbn [ring_bytes Nat.add]. by rewrite E, app_assoc.
Qed.
Lemma take_ring s r n k : (n <= 4 * k)%nat -> (k <= n)%nat -> take n (ring_bytes s r k) = string_bytes s r n.
Proof.
  intros Hn Hk. unfold string_bytes. destruct (ring_app s r k (n - k)) as [r' E]. replace (k + (n - k))%nat with n in E by lia.
  rewrite E, take_app_le; [done|]. by rewrite length_ring.
Qed.

(** Bytes that are there already. *)
Lemma patch_same f p q bs x : patch f p (bytes_from f p q ++ bs) x = patch f (p + Z.of_nat q) bs x.
Proof.
  rewrite patch_app, length_bytes_from. apply patch_ext. destruct (decide (p <= x < p + Z.of_nat q)) as [Hx|Hx].
  - apply patch_in; [|lia]. rewrite lookup_bytes_from by lia. do 2 f_equal. lia.
  - apply patch_out. by rewrite length_bytes_from.
Qed.
Lemma patch_same_end f p bs q x : patch f p (bs ++ bytes_from f (p + Z.of_nat (length bs)) q) x = patch f p bs x.
Proof.
  rewrite patch_app. destruct (decide (p + Z.of_nat (length bs) <= x < p + Z.of_nat (length bs) + Z.of_nat q)) as [Hx|Hx].
  - rewrite (patch_out _ p) by lia. apply patch_in; [|lia]. rewrite lookup_bytes_from by lia. do 2 f_equal. lia.
  - apply patch_out. by rewrite length_bytes_from.
Qed.

(** ** The words *)

Lemma ring_index r : 0 <= (r + 1) .& 0x1f < 32.
Proof. pose proof (land_mask_range (r + 1) 0x1f ltac:(done)). lia. Qed.

Lemma store_string_words_plain mis k : (mis <= 3)%nat -> forall m h a p r, ready m -> wf (ppc m) -> no_dsi (ppc m) -> is_u32 h -> is_u32 a ->
  plain m a (4 * Z.of_nat k) p ->
  exists m' h' r', store_string_words (Z.of_nat mis * 8) k (h .<< 32) a r m = Done (Some (h' .<< 32, u32 (a + 4 * Z.of_nat k), r')) m' /\
    is_u32 h' /\ becomes (ppc m) (patch (pbyte m) p (take (4 * k) (to_be mis h ++ ring_bytes (ppc m) r k))) m m' /\
    forall j, to_be mis h' ++ ring_bytes (ppc m) r' j = drop (4 * k) (to_be mis h ++ ring_bytes (ppc m) r (k + j)).
Proof.
  intros Hmis. induction k as [|k IH]; intros m h a p r Hm Hw Hs Hh Ha Hp; cbn [store_string_words ring_bytes].
  { exists m, h, r. rewrite Z.add_0_r, u32_id by done. split; [done|]. split; [done|]. split; [|done].
    eapply becomes_ext; [by apply becomes_refl|]. intros x _. rewrite patch_out; [done|simpl; lia]. }
  unfold get at 1. unfold mbind at 1, mget. set (g := get_gpr (ppc m) r). assert (Hg : is_u32 g) by by apply get_gpr_range.
  destruct (mmu_write_plain m 4 (u32 (((h .<< 32) .| g) .>> (Z.of_nat mis * 8))) a p Hm (is_u32_u32 _) ltac:(lia)) as (m1 & E1 & H1).
  { eapply plain_sub; [exact Hp|lia..]. }
  rewrite joined_word in H1 by done. rewrite (mbind_done _ _ _ _ _ E1). pose proof (becomes_ppc _ _ _ _ H1) as P1.
  unfold get, mbind, mget, dsi_raised. rewrite P1, Hs, next_value by done.
  destruct (IH m1 g (u32 (a + 4)) (p + 4) ((r + 1) .& 0x1f)) as (m2 & h' & r' & E2 & Hh' & H2 & Hj);
    [by apply bc_ready in H1|by rewrite P1|by rewrite P1|done|apply is_u32_u32| |].
  { destruct k as [|k'].
    - constructor; [pose proof (is_u32_u32 (a + 4)) as Hu; unfold is_u32 in Hu; simpl; lia| |intros; lia].
      apply (bc_blocks _ _ _ _ H1). eapply block_ok_sub; [apply Hp|lia..].
    - pose proof (pl_range _ _ _ _ Hp). rewrite u32_id by (unfold is_u32 in *; lia).
      eapply plain_becomes; [exact H1|done|]. eapply plain_sub; [exact Hp|lia..]. }
  rewrite P1 in H2, Hj. exists m2, h', r'. split.
  { rewrite E2. do 3 f_equal. assert (E32 : u32 (u32 (a + 4) + 4 * Z.of_nat k) = u32 (a + 4 * Z.of_nat (Datatypes.S k))) by
      (unfold u32; rewrite Zplus_mod_idemp_l; f_equal; lia). by rewrite E32. }
  assert (Eg : to_be 4 g = take (4 - mis) (to_be 4 g) ++ to_be mis g).
  { rewrite (to_be_low (4 - mis) mis g). replace (4 - mis + mis)%nat with 4%nat by lia. by rewrite take_drop. }
  assert (Hw1 : length (to_be mis h ++ take (4 - mis) (to_be 4 g)) = 4%nat) by (rewrite length_app, length_take, !length_to_be; lia).
  split; [done|]. split.
  - rewrite Eg, <- app_assoc, (app_assoc (to_be mis h)). replace (4 * Datatypes.S k)%nat with (4 + 4 * k)%nat by lia.
    rewrite take_app_ge, Hw1 by lia. replace (4 + 4 * k - 4)%nat with (4 * k)%nat by lia.
    eapply becomes_patch; [exact H1|]. by rewrite Hw1.
  - intros j. rewrite Hj. cbn [ring_bytes Nat.add]. fold g. rewrite Eg, <- app_assoc, (app_assoc (to_be mis h)).
    replace (4 * Datatypes.S k)%nat with (4 + 4 * k)%nat by lia. rewrite (drop_app_ge (to_be mis h ++ _)), Hw1 by lia.
    by replace (4 + 4 * k - 4)%nat with (4 * k)%nat by lia.
Qed.


(** ** The whole store *)

Lemma store_string_end_plain mis n m h a p r : (mis <= 3)%nat -> (0 < n <= 3)%nat -> ready m -> wf (ppc m) -> no_dsi (ppc m) -> is_u32 h ->
  plain m a 4 p ->
  exists m', store_string_end (Z.of_nat mis) (Z.of_nat n) (h .<< 32) a r m = Done tt m' /\
    becomes (ppc m) (patch (pbyte m) p (take n (to_be mis h ++ ring_bytes (ppc m) r 1))) m m'.
Proof.
  intros Hmis Hn Hm Hw Hs Hh Hp. unfold store_string_end, get at 1. unfold mbind at 1, mget.
  set (g := get_gpr (ppc m) r). assert (Hg : is_u32 g) by by apply get_gpr_range. cbv zeta.
  destruct (end_value mis n h g Hh Hg Hmis Hn) as (t & Ht & -> & Et).
  destruct (mmu_read_plain m 4 a p Hm ltac:(lia) Hp) as (m1 & E1 & H1).
  rewrite (mbind_done _ _ _ _ _ E1). pose proof (becomes_ppc _ _ _ _ H1) as P1. unfold get, mbind, mget, dsi_raised. rewrite P1, Hs.
  set (old := from_be _). destruct (mmu_write_plain m1 4 (u32 (((t .<< 32) .| u32 (old .<< (Z.of_nat n * 8))) .>> (Z.of_nat n * 8))) a p)
    as (m2 & E2 & H2); [by apply bc_ready in H1|apply is_u32_u32|lia|by eapply plain_becomes|].
  rewrite last_word in H2 by done. unfold old in H2. rewrite to_be_from_be in H2 by (by apply pbytes_u8 || done). rewrite P1, Et in H2.
  exists m2. split; [done|]. eapply becomes_trans; [exact H1|]. eapply becomes_ext; [exact H2|]. intros x Hx.
  assert (Hl : length (take n (to_be mis h ++ to_be 4 g)) = n) by (rewrite length_take, length_app, !length_to_be; lia).
  replace 4%nat with (n + (4 - n))%nat at 2 by lia. rewrite bytes_from_app, drop_app_length' by by rewrite length_bytes_from.
  transitivity (patch (pbyte m) p (take n (to_be mis h ++ to_be 4 g) ++ bytes_from (pbyte m) (p + Z.of_nat n) (4 - n)) x).
  - apply patch_ext. apply (bc_bytes _ _ _ _ H1). by apply (bc_blocks _ _ _ _ H1 x 1).
  - rewrite <- Hl at 2. rewrite patch_same_end. cbn [ring_bytes]. by rewrite app_nil_r.
Qed.

(** Where the string starts within its first word. *)
Lemma store_string_start_plain mis m a p : (mis <= 3)%nat -> ready m -> no_dsi (ppc m) -> (mis <> 0%nat -> plain m a 4 p) ->
  exists m' h, store_string_start (Z.of_nat mis) a m = Done (h .<< 32) m' /\ is_u32 h /\
    becomes (ppc m) (pbyte m) m m' /\ to_be mis h = bytes_from (pbyte m) p mis.
Proof.
  intros Hmis Hm Hs Hp. unfold store_string_start. destruct (Z.eqb_spec (Z.of_nat mis) 0) as [E|Hne]; cbn [negb].
  { exists m, 0. split; [done|]. split; [done|]. split; [by apply becomes_refl|]. by replace mis with 0%nat by lia. }
  destruct (mmu_read_plain m 4 a p Hm ltac:(lia) (Hp ltac:(lia))) as (m1 & E1 & H1). rewrite (mbind_done _ _ _ _ _ E1).
  set (v := from_be _). assert (Hv : is_u32 v) by (apply (from_be_range (bytes_from (pbyte m) p 4)); by apply pbytes_u8).
  exists m1, (v / 2 ^ (8 * Z.of_nat (4 - mis))). split; [|split; [|split; [done|]]].
  - unfold mret. f_equal. rewrite high_word by (apply Z.mod_pos_bound; lia). f_equal. rewrite Z.shiftl_mul_pow2 by lia.
    unfold u64. rewrite Z.mod_small.
    + replace (2 ^ 32) with (2 ^ (8 * Z.of_nat (4 - mis)) * 2 ^ (Z.of_nat mis * 8)) by (rewrite <- Z.pow_add_r by lia; f_equal; lia).
      rewrite Z.div_mul_cancel_r by (apply Z.pow_nonzero; lia). done.
    + unfold is_u32 in Hv. assert (2 ^ (Z.of_nat mis * 8) <= 2 ^ 24) by (apply Z.pow_le_mono_r; lia).
      assert (0 < 2 ^ (Z.of_nat mis * 8)) by (apply Z.pow_pos_nonneg; lia). nia.
  - unfold is_u32 in *. assert (0 < 2 ^ (8 * Z.of_nat (4 - mis))) by (apply Z.pow_pos_nonneg; lia).
    split; [apply Z.div_pos; lia|apply Z.div_lt_upper_bound; nia].
  - rewrite to_be_shr. replace (mis + (4 - mis))%nat with 4%nat by lia. unfold v. rewrite to_be_from_be by (by apply pbytes_u8 || done).
    replace 4%nat with (mis + (4 - mis))%nat at 1 by lia. rewrite bytes_from_app, take_app_le, take_ge by (rewrite length_bytes_from; lia). done.
Qed.


(** The words and the last bytes together. *)
Lemma store_string_rest mis n m h a p r : (mis <= 3)%nat -> (mis <= n)%nat -> ready m -> wf (ppc m) -> no_dsi (ppc m) -> is_u32 h -> is_u32 a ->
  plain m a (Z.of_nat (4 * ((n + 3) / 4))) p ->
  exists m', (words <- store_string_words (Z.of_nat mis * 8) (n / 4) (h .<< 32) a r ;;
    match words with
    | None => mret tt
    | Some (current_value, current_address, r) =>
        mwhen (negb (Z.of_nat (n mod 4) =? 0)) (store_string_end (Z.of_nat mis) (Z.of_nat (n mod 4)) current_value current_address r)
    end) m = Done tt m' /\
    becomes (ppc m) (patch (pbyte m) p (to_be mis h ++ string_bytes (ppc m) r (n - mis))) m m'.
Proof.
  intros Hmis Hn Hm Hw Hs Hh Ha Hp.
  pose proof (Nat.div_mod_eq n 4) as En. pose proof (Nat.mod_upper_bound n 4 ltac:(lia)) as Hmod.
  assert (Hup : ((n + 3) / 4 = n / 4 + if (n mod 4 =? 0)%nat then 0 else 1)%nat).
  { destruct (Nat.eqb_spec (n mod 4) 0) as [E|Hne]; [symmetry; apply (Nat.div_unique _ _ _ 3); lia|].
    symmetry. apply (Nat.div_unique _ _ _ (n mod 4 - 1)); lia. }
  set (k := (n / 4)%nat) in *. set (e := (n mod 4)%nat) in *.
  destruct (store_string_words_plain mis k Hmis m h a p r Hm Hw Hs Hh Ha) as (m1 & h' & r' & E1 & Hh' & H1 & Hj).
  { eapply plain_sub; [exact Hp|lia..]. }
  rewrite (mbind_done _ _ _ _ _ E1). pose proof (becomes_ppc _ _ _ _ H1) as P1.
  assert (Hst : forall j, (n <= 4 * (k + j) + mis)%nat -> (k + j <= n - mis)%nat \/ (4 * (k + j) = n - mis)%nat ->
    to_be mis h ++ string_bytes (ppc m) r (n - mis) = take n (to_be mis h ++ ring_bytes (ppc m) r (k + j))).
  { intros j Hj1 Hj2. rewrite take_app_ge, length_to_be by (rewrite length_to_be; lia). f_equal. symmetry.
    destruct Hj2; [apply take_ring; lia|]. apply take_ring; lia. }
  destruct (Nat.eqb_spec e 0) as [He|He].
  - rewrite He. cbn [Z.of_nat Z.eqb negb mwhen]. exists m1. split; [done|]. eapply becomes_ext; [exact H1|]. intros x _.
    f_equal. replace (4 * k)%nat with n by lia. symmetry.
    destruct (decide (k <= n - mis)%nat); [|].
    + specialize (Hst 0%nat). rewrite Nat.add_0_r in Hst. apply Hst; lia.
    + assert (k = 1%nat /\ n = 4%nat /\ mis = 4%nat) by lia. lia.
  - rewrite (proj2 (Z.eqb_neq (Z.of_nat e) 0)) by lia. cbn [negb mwhen].
    assert (Hu : u32 (a + 4 * Z.of_nat k) = a + 4 * Z.of_nat k) by (pose proof (pl_range _ _ _ _ Hp); apply u32_id; unfold is_u32 in *; lia).
    destruct (store_string_end_plain mis e m1 h' (u32 (a + 4 * Z.of_nat k)) (p + 4 * Z.of_nat k) r' Hmis ltac:(lia)) as (m2 & E2 & H2);
      [by apply bc_ready in H1|by rewrite P1|by rewrite P1|done| |].
    { rewrite Hu. eapply plain_becomes; [exact H1|done|]. eapply plain_sub; [exact Hp|lia..]. }
    exists m2. split; [done|]. rewrite P1 in H2. rewrite Hj in H2.
    assert (Hl : length (take (4 * k) (to_be mis h ++ ring_bytes (ppc m) r k)) = (4 * k)%nat)
      by (rewrite length_take, length_app, length_to_be, length_ring; lia).
    replace (p + 4 * Z.of_nat k) with (p + Z.of_nat (length (take (4 * k) (to_be mis h ++ ring_bytes (ppc m) r k)))) in H2 by (rewrite Hl; lia).
    eapply becomes_ext; [eapply becomes_patch; [exact H1|exact H2]|]. intros x _. f_equal.
    destruct (ring_app (ppc m) r k 1) as [r2 Er]. 
    assert (Et : take (4 * k) (to_be mis h ++ ring_bytes (ppc m) r k) = take (4 * k) (to_be mis h ++ ring_bytes (ppc m) r (k + 1))).
    { rewrite Er, app_assoc. symmetry. apply take_app_le. rewrite length_app, length_to_be, length_ring. lia. }
    rewrite Et, take_take_drop. replace (4 * k + e)%nat with n by lia. symmetry.
    destruct (decide (k + 1 <= n - mis)%nat); [apply Hst; lia|].
    (* the string ends within the first word *)
    assert (Hk0 : k = 0%nat) by lia. rewrite Hk0. rewrite take_app_ge, length_to_be by (rewrite length_to_be; lia). f_equal.
    replace (n - mis)%nat with 0%nat by lia. done.
Qed.

(** [Helper_StoreString] on ordinary memory. *)
Lemma Helper_StoreString_plain EA n r m p : ready m -> wf (ppc m) -> no_dsi (ppc m) -> is_u32 EA -> 0 <= n ->
  plain m (EA - EA mod 4) (4 * ((n + EA mod 4 + 3) / 4)) (p - EA mod 4) ->
  exists m', Helper_StoreString EA n r m = Done tt m' /\
    becomes (ppc m) (patch (pbyte m) p (string_bytes (ppc m) r (Z.to_nat n))) m m'.
Proof.
  intros Hm Hw Hs HEA Hn Hp. unfold Helper_StoreString. pose proof (Z.mod_pos_bound EA 4 ltac:(done)) as Hmod.
  assert (E3 : EA .& 3 = EA mod 4) by (by apply (land_ones_mod 2)).
  assert (Ea : EA .& u32 (.~ 3) = EA - EA mod 4).
  { change (u32 (.~ 3)) with (Z.ones 30 .<< 2). apply Z.bits_inj'. intros i Hi.
    replace (EA - EA mod 4) with ((EA .>> 2) .<< 2) by (rewrite Z.shiftr_div_pow2, Z.shiftl_mul_pow2 by lia; change (2 ^ 2) with 4; Z.div_mod_to_equations; lia).
    rewrite Z.land_spec, !Z.shiftl_spec by done. destruct (Z.ltb_spec i 2).
    - by rewrite !(Z.testbit_neg_r _ (i - 2)), andb_false_r by lia.
    - rewrite Z.shiftr_spec by lia. replace (i - 2 + 2) with i by lia. destruct (Z.ltb_spec i 32).
      + by rewrite Z.ones_spec_low, andb_true_r by lia.
      + by rewrite (proj2 (proj1 (bits_above_pow2 EA 32 ltac:(done)) HEA)) by lia. }
  cbv zeta. rewrite E3, Ea. clear E3 Ea. remember (Z.to_nat (EA mod 4)) as mis eqn:Emis. remember (Z.to_nat n) as k eqn:Ek.
  replace (EA mod 4) with (Z.of_nat mis) in * by lia. replace n with (Z.of_nat k) in * by lia. clear n Emis Ek Hn.
  assert (HaU : is_u32 (EA - Z.of_nat mis)) by (unfold is_u32 in *; pose proof (pl_range _ _ _ _ Hp); lia).
  assert (Hlen : 4 * ((Z.of_nat k + Z.of_nat mis + 3) / 4) = Z.of_nat (4 * ((k + mis + 3) / 4))).
  { rewrite Nat2Z.inj_mul, Nat2Z.inj_div, !Nat2Z.inj_add. done. }
  rewrite Hlen in Hp.
  destruct (store_string_start_plain mis m (EA - Z.of_nat mis) (p - Z.of_nat mis) ltac:(lia) Hm Hs) as (m1 & h & E1 & Hh & H1 & Eh).
  { intros Hne. eapply plain_sub; [exact Hp|try lia..]. assert (1 <= (k + mis + 3) / 4)%nat by (apply Nat.div_le_lower_bound; lia). lia. }
  rewrite (mbind_done _ _ _ _ _ E1). pose proof (becomes_ppc _ _ _ _ H1) as P1.
  unfold get at 1. unfold mbind at 1, mget, dsi_raised. rewrite P1, Hs, andb_false_r.
  destruct (store_string_rest mis (k + mis) m1 h (EA - Z.of_nat mis) (p - Z.of_nat mis) r ltac:(lia) ltac:(lia)) as (m2 & E2 & H2);
    [by apply bc_ready in H1|by rewrite P1|by rewrite P1|done|done|by eapply plain_becomes|].
  exists m2. split.
  - rewrite <- E2. rewrite <- Nat2Z.inj_add. change 4 with (Z.of_nat 4) at 1 2 3. rewrite <- Nat2Z.inj_div, <- Nat2Z.inj_mod, Nat2Z.id. done.
  - eapply becomes_trans; [exact H1|]. rewrite P1 in H2. eapply becomes_ext; [exact H2|]. intros x Hx.
    rewrite Eh, Nat.add_sub. transitivity (patch (pbyte m) (p - Z.of_nat mis) (bytes_from (pbyte m) (p - Z.of_nat mis) mis ++ string_bytes (ppc m) r k) x).
    + apply patch_ext. apply (bc_bytes _ _ _ _ H1). by apply (bc_blocks _ _ _ _ H1 x 1).
    + rewrite patch_same. f_equal. lia.
Qed.


(** C21. The string store [stswx] writes exactly as many bytes as XER says, one
    register after the other and register 0 after register 31, whatever the
    alignment of the string: the bytes around it in its first and its last word
    keep their values, although memory is only accessed by aligned words. *)
Theorem string_store_is_exact inst m p : ready m -> wf (ppc m) -> no_dsi (ppc m) -> MSR_LE (ppc m) = false ->
  let EA := Helper_Get_EA_X inst (ppc m) in let n := string_count m in
  plain m (EA - EA mod 4) (4 * ((n + EA mod 4 + 3) / 4)) (p - EA mod 4) ->
  exists m', stswx inst m = Done tt m' /\
    becomes (ppc m) (patch (pbyte m) p (string_bytes (ppc m) (RS inst) (Z.to_nat n))) m m'.
Proof.
  intros Hm Hw Hs Hle EA n Hp.
  assert (HEA : is_u32 EA) by (unfold EA, Helper_Get_EA_X; destruct (negb _); [apply is_u32_u32|by apply get_gpr_range]).
  destruct (Helper_StoreString_plain EA n (RS inst) m p Hm Hw Hs HEA) as (m' & E & H); [apply (is_u8_u8 _)|done|].
  exists m'. split; [|done]. unfold stswx, ea, big_endian, get, mbind, mget. rewrite Hle. exact E.
Qed.

(** ** String loads *)

(** A word of at most four bytes, the missing ones zero. *)
Definition pad (bs : list Z) : Z := from_be bs .<< (32 - 8 * Z.of_nat (length bs)).
(** The registers after the bytes [bs]: [r] is the register being filled, [acc] what is in it. *)
Fixpoint fill_registers (bs : list Z) (r : Z) (acc : list Z) (s : PowerPCState) : PowerPCState :=
  match bs with
  | [] => s
  | b :: bs' =>
      let r := if (length acc =? 0)%nat then (r + 1) .& 0x1f else r in
      let acc := acc ++ [b] in
      fill_registers bs' r (if (length acc =? 4)%nat then [] else acc) (set_gpr r (pad acc) s)
  end.

Lemma pad_snoc acc b : Forall is_u8 acc -> is_u8 b -> (length acc <= 3)%nat ->
  pad acc .| u32 (b .<< (24 - 8 * Z.of_nat (length acc))) = pad (acc ++ [b]).
Proof.
  intros Ha Hb Hl. unfold pad. rewrite length_app, from_be_snoc. cbn [length].
  set (c := Z.of_nat (length acc)). assert (Hc : 0 <= c <= 3) by lia. replace (32 - 8 * Z.of_nat (length acc + 1)) with (24 - 8 * c) by lia.
  assert (Hp : 0 < 2 ^ (24 - 8 * c) /\ 2 ^ (24 - 8 * c) <= 2 ^ 24) by (split; [apply Z.pow_pos_nonneg|apply Z.pow_le_mono_r]; lia).
  assert (E : 2 ^ (32 - 8 * c) = 0x100 * 2 ^ (24 - 8 * c)) by (change 0x100 with (2 ^ 8); rewrite <- Z.pow_add_r by lia; f_equal; lia).
  unfold is_u8 in Hb. rewrite (Z.shiftl_mul_pow2 b), u32_id, lor_shiftl_add, Z.shiftl_mul_pow2, E by (lia || (unfold is_u32; nia)). lia.
Qed.
Lemma set_gpr_twice i v w s : set_gpr i v (set_gpr i w s) = set_gpr i v s.
Proof. unfold set_gpr, set_gprs. cbn. by rewrite list_insert_insert_eq. Qed.

Lemma wf_pad s i acc : wf s -> Forall is_u8 acc -> (length acc <= 4)%nat -> wf (set_gpr i (pad acc) s).
Proof.
  intros Hw Ha Hl. apply wf_set_gpr; [done|]. unfold pad. pose proof (from_be_range acc Ha) as Hr. rewrite Z.shiftl_mul_pow2 by lia.
  assert (0 < 2 ^ (32 - 8 * Z.of_nat (length acc))) by (apply Z.pow_pos_nonneg; lia).
  assert (E : 2 ^ (8 * Z.of_nat (length acc)) * 2 ^ (32 - 8 * Z.of_nat (length acc)) = 0x100000000) by (rewrite <- Z.pow_add_r by lia; by replace (_ + _) with 32 by lia).
  unfold is_u32. nia.
Qed.

(** One byte, with the register cleared before its first. *)
Lemma load_string_byte_plain m r acc a p : ready m -> wf (ppc m) -> no_dsi (ppc m) -> 0 <= r < 32 -> Forall is_u8 acc -> (length acc <= 3)%nat ->
  get_gpr (ppc m) r = pad acc -> plain m a 1 p ->
  exists m', load_string_byte r (8 * Z.of_nat (length acc)) a m = Done true m' /\
    becomes (set_gpr r (pad (acc ++ [pbyte m p])) (ppc m)) (pbyte m) m m'.
Proof.
  intros Hm Hw Hs Hr Ha Hl Hg Hp. unfold load_string_byte.
  destruct (mmu_read_plain m 1 a p Hm ltac:(lia) Hp) as (m1 & E1 & H1). rewrite (mbind_done _ _ _ _ _ E1).
  pose proof (becomes_ppc _ _ _ _ H1) as P1. unfold get, on_gpr, modify, mmodify, mbind, mget, dsi_raised. rewrite P1, Hs.
  eexists. split; [reflexivity|]. unfold on_ppc. rewrite P1, Hg.
  replace (from_be (bytes_from (pbyte m) p 1)) with (pbyte m p) by (cbn; by rewrite Z.add_0_r).
  rewrite pad_snoc by (done || by apply pbyte_u8). by eapply becomes_registers.
Qed.

Lemma register_ring r : 0 <= r -> (r + 1) .& 0x1f = (r + 1) mod 32.
Proof. intros _. by apply (land_ones_mod 5). Qed.
Lemma lswi_loop_plain n : forall m r acc a p, ready m -> wf (ppc m) -> no_dsi (ppc m) -> (acc = [] -> 0 <= r < 2 ^ 32) -> (acc <> [] -> 0 <= r < 32) ->
  Forall is_u8 acc -> (length acc <= 3)%nat -> (acc <> [] -> get_gpr (ppc m) r = pad acc) -> plain m a (Z.of_nat n) p ->
  exists m', lswi_loop n r (8 * Z.of_nat (length acc)) a m = Done tt m' /\
    becomes (fill_registers (bytes_from (pbyte m) p n) r acc (ppc m)) (pbyte m) m m'.
Proof.
  induction n as [|n IH]; intros m r acc a p Hm Hw Hs Hr0 Hr Ha Hl Hg Hp; cbn [lswi_loop].
  { exists m. split; [done|]. by apply becomes_refl. }
  rewrite bytes_from_S. cbn [fill_registers].
  set (r1 := if 8 * Z.of_nat (length acc) =? 0 then u32 (r + 1) .& 31 else r).
  assert (E1 : r1 = (if (length acc =? 0)%nat then (r + 1) .& 0x1f else r) /\ 0 <= r1 < 32).
  { unfold r1. destruct acc as [|b acc]; [|by split; [|apply Hr]]. cbn. rewrite !(land_ones_mod 5) by done. unfold u32.
    change 0x100000000 with (32 * 0x8000000). rewrite Z.rem_mul_r, (Z.mul_comm 32), Z.mod_add, Z.mod_mod by lia.
    split; [done|]. by apply Z.mod_pos_bound. }
  destruct E1 as [E1 Hr1]. rewrite <- E1.
  assert (Hg1 : acc <> [] -> get_gpr (ppc m) r1 = pad acc) by (intros Hne; rewrite E1; destruct acc; [done|]; by apply Hg).
  assert (Ei : (8 * Z.of_nat (length acc) =? 0) = (length acc =? 0)%nat) by (by destruct acc).
  rewrite Ei. clearbody r1. clear Hr Hr0 E1 Hg.
  (* the register before the byte *)
  set (m0 := if (length acc =? 0)%nat then on_ppc (set_gpr r1 0) m else m).
  assert (H0 : becomes (ppc m0) (pbyte m) m m0 /\ wf (ppc m0) /\ no_dsi (ppc m0) /\ get_gpr (ppc m0) r1 = pad acc /\ set_gpr r1 (pad (acc ++ [pbyte m p])) (ppc m0) = set_gpr r1 (pad (acc ++ [pbyte m p])) (ppc m) /\ MSR_DR (ppc m0) = DR m).
  { unfold m0. destruct acc as [|b acc].
    - cbn [length Nat.eqb]. split; [by apply becomes_ppc_only|]. split; [by apply wf_set_gpr; [|apply is_u32_0]|]. split; [done|].
      split; [by apply get_gpr_set_eq|]. by split; [apply set_gpr_twice|].
    - cbn [length Nat.eqb]. split; [by apply becomes_refl|]. do 2 (split; [done|]). split; [by apply Hg1|done]. }
  destruct H0 as (H0 & Hw0 & Hs0 & Hg0 & Eset & Hdr).
  assert (Ewhen : mwhen (length acc =? 0)%nat (on_gpr (set_gpr r1 0)) m = Done tt m0) by (unfold m0; by destruct acc).
  rewrite (mbind_done _ _ _ _ _ Ewhen). clear Ewhen. clearbody m0.
  assert (Hp0 : plain m0 a (Z.of_nat (Datatypes.S n)) p) by by eapply plain_becomes.
  destruct (load_string_byte_plain m0 r1 acc a p) as (m1 & E2 & H1); [by apply bc_ready in H0|done..|eapply plain_sub; [exact Hp0|lia..]|].
  rewrite (mbind_done _ _ _ _ _ E2). cbn [mwhen].
  rewrite (bc_bytes _ _ _ _ H0 p) in H1 by (eapply block_ok_sub; [apply Hp|lia..]). set (b := pbyte m p) in *. rewrite Eset in H1.
  assert (Hb : is_u8 b) by by apply pbyte_u8.
  assert (H1' : becomes (set_gpr r1 (pad (acc ++ [b])) (ppc m)) (pbyte m) m m1).
  { eapply becomes_trans; [exact H0|]. eapply becomes_ext; [exact H1|]. intros x Hx. apply (bc_bytes _ _ _ _ H0). by apply (bc_blocks _ _ _ _ H0 x 1). }
  clear H1 H0 E2 Hp0 Hw0 Hs0 Hg0 Eset Hdr m0. destruct n as [|n'].
  { exists m1. by split. }
  assert (Hl' : length (acc ++ [b]) = (length acc + 1)%nat) by by rewrite length_app.
  assert (Ha' : Forall is_u8 (acc ++ [b])) by (apply Forall_app; split; [done|constructor; [exact Hb|constructor]]).
  set (acc' := if (length (acc ++ [b]) =? 4)%nat then [] else acc ++ [b]).
  assert (Ei' : (if 8 * Z.of_nat (length acc) + 8 =? 32 then 0 else 8 * Z.of_nat (length acc) + 8) = 8 * Z.of_nat (length acc')).
  { unfold acc'. rewrite Hl'. destruct (Nat.eqb_spec (length acc + 1) 4) as [E|Hne]; [by rewrite (proj2 (Z.eqb_eq _ 32)) by lia|].
    rewrite (proj2 (Z.eqb_neq _ 32)) by lia. rewrite Hl'. lia. }
  rewrite Ei'. pose proof (pl_range _ _ _ _ Hp) as Hpr. rewrite u32_id by (unfold is_u32; lia).
  assert (Hp1 : plain m (a + 1) (Z.of_nat (Datatypes.S n')) (p + 1)) by (eapply plain_sub; [exact Hp|lia..]).
  pose proof (becomes_ppc _ _ _ _ H1') as P1.
  destruct (IH m1 r1 acc' (a + 1) (p + 1)) as (m2 & E2 & H2); try rewrite P1.
  - by apply bc_ready in H1'.
  - apply wf_pad; [done..|rewrite Hl'; lia].
  - done.
  - intros _. lia.
  - done.
  - unfold acc'. destruct (Nat.eqb_spec (length (acc ++ [b])) 4); [constructor|done].
  - unfold acc'. rewrite Hl'. destruct (Nat.eqb_spec (length acc + 1) 4); [simpl; lia|rewrite Hl'; lia].
  - intros Hne. rewrite get_gpr_set_eq by done. unfold acc' in *. by destruct (Nat.eqb_spec (length (acc ++ [b])) 4).
  - by eapply plain_becomes.
  - exists m2. split; [done|]. rewrite P1 in H2. rewrite (bytes_from_ext (pbyte m1) (pbyte m)) in H2.
    + eapply becomes_trans; [exact H1'|]. eapply becomes_ext; [exact H2|]. intros x Hx. apply (bc_bytes _ _ _ _ H1'). by apply (bc_blocks _ _ _ _ H1' x 1).
    + intros x Hx. apply (bc_bytes _ _ _ _ H1'). eapply block_ok_sub; [apply Hp1|lia..].
Qed.

(** ** What the registers hold after a string load *)

(** A whole register, and the first bytes of one. *)
Lemma pad_word v : is_u32 v -> pad (to_be 4 v) = v.
Proof. intros Hv. unfold pad. rewrite length_to_be, from_to_be. change (32 - 8 * Z.of_nat 4) with 0. rewrite Z.shiftl_0_r. by apply Z.mod_small. Qed.
Lemma fill_word v r s bs : is_u32 v ->
  fill_registers (to_be 4 v ++ bs) r [] s = fill_registers bs ((r + 1) .& 0x1f) [] (set_gpr ((r + 1) .& 0x1f) v s).
Proof.
  intros Hv. rewrite <- (pad_word v Hv) at 2. pose proof (length_to_be 4 v) as Hl. destruct (to_be 4 v) as [|b0 [|b1 [|b2 [|b3 [|? ?]]]]]; try done.
  cbn [fill_registers app length Nat.eqb Nat.add]. by rewrite !set_gpr_twice.
Qed.
Lemma fill_part k v r s : (0 < k <= 3)%nat -> fill_registers (take k (to_be 4 v)) r [] s = set_gpr ((r + 1) .& 0x1f) (pad (take k (to_be 4 v))) s.
Proof.
  intros Hk. pose proof (length_to_be 4 v) as Hl. destruct (to_be 4 v) as [|b0 [|b1 [|b2 [|b3 [|? ?]]]]]; try done.
  destruct k as [|[|[|[|k]]]]; try lia; cbn [take fill_registers app length Nat.eqb Nat.add]; by rewrite ?set_gpr_twice.
Qed.

Lemma fill_string t (Ht : wf t) k : forall n q r s j, wf s -> (q + 1) .& 0x1f = r -> (n <= 4 * k)%nat -> (n <= 32)%nat -> 0 <= j < 32 ->
  get_gpr (fill_registers (take n (ring_bytes t r k)) q [] s) ((r + j) mod 32) =
  if 4 * j <? Z.of_nat n then pad (take (n - 4 * Z.to_nat j) (to_be 4 (get_gpr t ((r + j) mod 32)))) else get_gpr s ((r + j) mod 32).
Proof.
  induction k as [|k IH]; intros n q r s j Hs Hq Hn H32 Hj.
  { replace n with 0%nat by lia. cbn [take fill_registers]. by rewrite (proj2 (Z.ltb_ge _ _)) by lia. }
  assert (Hr : 0 <= r < 32) by (rewrite <- Hq; apply ring_index). pose proof (Z.mod_pos_bound (r + j) 32 ltac:(done)) as Hi.
  assert (Hg : is_u32 (get_gpr t r)) by by apply get_gpr_range.
  assert (Ej : (r + j) mod 32 = r <-> j = 0) by (Z.div_mod_to_equations; lia).
  cbn [ring_bytes]. destruct (decide (4 <= n)%nat) as [H4|H4].
  - rewrite take_app_ge, length_to_be, fill_word, Hq by (done || rewrite length_to_be; lia).
    assert (Hs' : wf (set_gpr r (get_gpr t r) s)) by by apply wf_set_gpr.
    destruct (decide (j = 0)) as [->|Hj0].
    + replace ((r + 0) mod 32) with (((r + 1) .& 0x1f + 31) mod 32) by (rewrite register_ring by lia; Z.div_mod_to_equations; lia).
      rewrite IH by (done || lia). rewrite (proj2 (Z.ltb_ge (4 * 31) _)), (proj2 (Z.ltb_lt (4 * 0) _)) by lia.
      replace (((r + 1) .& 0x1f + 31) mod 32) with r by (rewrite register_ring by lia; Z.div_mod_to_equations; lia).
      rewrite get_gpr_set_eq by done. rewrite take_ge by (rewrite length_to_be; lia). by rewrite pad_word.
    + replace ((r + j) mod 32) with (((r + 1) .& 0x1f + (j - 1)) mod 32) by (rewrite register_ring by lia; Z.div_mod_to_equations; lia).
      rewrite IH by (done || lia).
      replace (((r + 1) .& 0x1f + (j - 1)) mod 32) with ((r + j) mod 32) by (rewrite register_ring by lia; Z.div_mod_to_equations; lia).
      destruct (Z.ltb_spec (4 * (j - 1)) (Z.of_nat (n - 4))), (Z.ltb_spec (4 * j) (Z.of_nat n)); try lia.
      * do 2 f_equal. lia.
      * rewrite get_gpr_set by done. rewrite (proj2 (Z.eqb_neq _ r)); [done|]. by rewrite Ej.
  - destruct (decide (n = 0)%nat) as [->|Hn0]; [cbn [take fill_registers]; by rewrite (proj2 (Z.ltb_ge _ _)) by lia|].
    rewrite take_app_le, fill_part, Hq by (rewrite ?length_to_be; lia). rewrite get_gpr_set by done.
    destruct (Z.eqb_spec ((r + j) mod 32) r) as [E|E].
    + apply Ej in E as ->. rewrite (proj2 (Z.ltb_lt (4 * 0) _)) by lia. replace ((r + 0) mod 32) with r by (Z.div_mod_to_equations; lia).
      do 2 f_equal. lia.
    + rewrite (proj2 (Z.ltb_ge (4 * j) _)); [done|]. assert (j <> 0) by by rewrite <- Ej. lia.
Qed.

(** C38. A string store followed by the string load of the same length at the same
    address brings the registers back, whatever happened to registers and other
    memory in between: whole registers, and of the last one the bytes that were
    stored, with zeros after them.  The other registers stay. *)
Theorem string_load_returns_string inst m p : ready m -> wf (ppc m) -> no_dsi (ppc m) -> MSR_LE (ppc m) = false ->
  let EA := ra_or_zero inst m in let n := string_length inst in
  plain m (EA - EA mod 4) (4 * ((n + EA mod 4 + 3) / 4)) (p - EA mod 4) ->
  exists m1, stswi inst m = Done tt m1 /\
    becomes (ppc m) (patch (pbyte m) p (string_bytes (ppc m) (RS inst) (Z.to_nat n))) m m1 /\
    forall s' g m1', becomes s' g m1 m1' -> (forall y, p <= y < p + n -> g y = pbyte m1 y) ->
      wf s' -> no_dsi s' -> MSR_LE s' = false -> MSR_DR s' = DR m -> ra_or_zero inst m1' = EA ->
      exists m2, lswi inst m1' = Done tt m2 /\
        (forall j, 0 <= j < 32 -> let r := (RD inst + j) mod 32 in
           get_gpr (ppc m2) r = if 4 * j <? n then pad (take (Z.to_nat n - 4 * Z.to_nat j) (to_be 4 (get_gpr (ppc m) r))) else get_gpr s' r) /\
        (forall y, block_ok (mem m1') y 1 -> pbyte m2 y = pbyte m1' y).
Proof.
  intros Hm Hw Hs Hle EA n Hp.
  assert (HEA : is_u32 EA) by (unfold EA, ra_or_zero; destruct (negb _); [by apply get_gpr_range|apply is_u32_0]).
  assert (Hn : 1 <= n <= 32).
  { unfold n, string_length. pose proof (field_range inst 11 5 ltac:(done)) as Hf. change (2 ^ 5) with 32 in Hf. unfold NB.
    destruct (Z.eqb_spec (field inst 11 5) 0); cbn [negb]; lia. }
  assert (Hst : stswi inst m = Helper_StoreString EA n (RS inst) m) by (unfold stswi, big_endian, get, mbind, mget; by rewrite Hle).
  rewrite Hst.
  destruct (Helper_StoreString_plain EA n (RS inst) m p Hm Hw Hs HEA ltac:(lia) Hp) as (m1 & E1 & H1).
  exists m1. do 2 (split; [done|]). intros s' g m1' H2 Hg Hw' Hs' Hle' Hdr' Hea'. pose proof (becomes_ppc _ _ _ _ H2) as P2.
  pose proof (RD_range inst) as Hrd. pose proof (Z.mod_pos_bound EA 4 ltac:(done)) as Hmod.
  assert (Hpn : plain m EA (Z.of_nat (Z.to_nat n)) p) by (eapply plain_sub; [exact Hp|lia|Z.div_mod_to_equations; lia|lia..]).
  assert (Hdr1 : DR m1 = DR m) by (unfold DR; by rewrite (becomes_ppc _ _ _ _ H1)).
  destruct (lswi_loop_plain (Z.to_nat n) m1' (u32 (RD inst - 1)) [] EA p) as (m2 & E2 & H3).
  { by apply bc_ready in H2. } { by rewrite P2. } { by rewrite P2. } { intros _. apply is_u32_u32. } { done. } { constructor. } { simpl. lia. } { done. }
  { eapply plain_becomes; [exact H2|congruence|]. by eapply plain_becomes. }
  exists m2. split; [|split].
  - unfold lswi, big_endian, get, mbind, mget. rewrite Hea', P2, Hle'. exact E2.
  - intros j Hj r. rewrite (becomes_ppc _ _ _ _ H3), P2.
    assert (Eb : bytes_from (pbyte m1') p (Z.to_nat n) = take (Z.to_nat n) (ring_bytes (ppc m) (RD inst) (Z.to_nat n))).
    { set (bs := take _ _). assert (Hbl : length bs = Z.to_nat n) by (unfold bs; rewrite length_take, length_ring; lia).
      transitivity (bytes_from (patch (pbyte m) p bs) p (length bs)); [|apply bytes_from_patch]. rewrite Hbl. apply bytes_from_ext. intros y Hy.
      assert (Hyb : block_ok (mem m) y 1) by (eapply block_ok_sub; [apply Hpn|lia..]).
      rewrite (bc_bytes _ _ _ _ H2) by by apply (bc_blocks _ _ _ _ H1 y 1). rewrite Hg by lia. by rewrite (bc_bytes _ _ _ _ H1). }
    rewrite Eb. unfold r. rewrite (fill_string (ppc m) Hw) by (done || lia || (rewrite (land_ones_mod 5) by done; zlia)).
    by rewrite Z2Nat.id by lia.
  - intros y Hy. by apply (bc_bytes _ _ _ _ H3).
Qed.

End StringSpec.

(** ** Examples *)

#[local] Instance string_devices : Devices unit := quiet_devices false.
#[local] Instance string_unchecked : NoMemchecks string_devices := quiet_no_memchecks false.

(** Six bytes from registers 31 and 0, near the end of a page. *)
Definition string_state : PowerPCState :=
  set_gpr 31 0xa1a2a3a4 (set_xer 0 0 6 (PPCSpec.demo [0xb1b2b3b4; 0; 0; 0x1ffd])).
Lemma string_state_wf : wf string_state.
Proof.
  apply wf_set_gpr; [|split; [discriminate|reflexivity]].
  assert (H : wf (PPCSpec.demo [0xb1b2b3b4; 0; 0; 0x1ffd])).
  { apply PPCSpec.demo_wf; [simpl; lia|]. repeat (apply Forall_cons; split); try done; split; discriminate || reflexivity. }
  destruct H. constructor; try assumption; split; discriminate || reflexivity.
Qed.
Lemma string_store_is_exact_witness : exists m',
  stswx (31 * 2 ^ 26 + 31 * 2 ^ 21 + 3 * 2 ^ 11 + 2 * 661) (ram_machine string_state true) = Done tt m' /\
  map (pbyte m') [0x1ffc; 0x1ffd; 0x1ffe; 0x1fff; 0x2000; 0x2001; 0x2002; 0x2003] =
    [0; 0xa1; 0xa2; 0xa3; 0xa4; 0xb1; 0xb2; 0].
Proof.
  destruct (string_store_is_exact (31 * 2 ^ 26 + 31 * 2 ^ 21 + 3 * 2 ^ 11 + 2 * 661) (ram_machine string_state true) 0x1ffd) as (m' & E & H).
  - apply ram_machine_ready.
  - exact string_state_wf.
  - reflexivity.
  - reflexivity.
  - apply real_mode_plain; [reflexivity|apply ram_machine_ready|vm_compute; discriminate..].
  - exists m'. split; [exact E|]. cbn [map].
    rewrite !(bc_bytes _ _ _ _ H) by (left; split; vm_compute; discriminate). vm_compute. reflexivity.
Defined.

(** Registers that have lost the string. *)
Lemma overwritten_wf : wf (PPCSpec.demo [0; 0; 0; 0x1ffd]).
Proof. apply PPCSpec.demo_wf; [simpl; lia|]. repeat (apply Forall_cons; split); try done; split; discriminate || reflexivity. Qed.

(** The word of an instruction [lswi] or [stswi] on six bytes from register 31. *)
#[local] Notation string_word := (31 * 2 ^ 26 + 31 * 2 ^ 21 + 3 * 2 ^ 16 + 6 * 2 ^ 11 + 2 * 725).

Lemma string_load_returns_string_witness : exists m1 m2,
  stswi string_word (ram_machine string_state true) = Done tt m1 /\
  lswi string_word (with_ppc (PPCSpec.demo [0; 0; 0; 0x1ffd]) m1) = Done tt m2 /\
  get_gpr (ppc m2) 31 = 0xa1a2a3a4 /\ get_gpr (ppc m2) 0 = 0xb1b20000.
Proof.
  destruct (string_load_returns_string string_word (ram_machine string_state true) 0x1ffd)
    as (m1 & E1 & H1 & H).
  - apply ram_machine_ready.
  - exact string_state_wf.
  - reflexivity.
  - reflexivity.
  - apply real_mode_plain; [reflexivity|apply ram_machine_ready|vm_compute; discriminate..].
  - set (s' := PPCSpec.demo [0; 0; 0; 0x1ffd]).
    pose proof overwritten_wf as Hw. fold s' in Hw.
    assert (Hea : ra_or_zero string_word (with_ppc s' m1) = ra_or_zero string_word (ram_machine string_state true)) by (vm_compute; reflexivity).
    pose proof (becomes_ppc_only s' m1 (bc_ready _ _ _ _ H1)) as B.
    destruct (H s' (pbyte m1) (with_ppc s' m1) B (fun y _ => eq_refl) Hw eq_refl eq_refl eq_refl Hea) as (m2 & E2 & Hr & _).
    exists m1, m2. split; [exact E1|]. split; [exact E2|]. split.
    + pose proof (Hr 0 ltac:(lia)) as R. vm_compute in R. vm_compute. exact R.
    + pose proof (Hr 1 ltac:(lia)) as R. vm_compute in R. vm_compute. exact R.
Defined.
