(* ===== verification/ARDecrypt.v ===== *)
(** * Decryption of Action Replay codes (Core/ARDecrypt.cpp)

    A line of an encrypted code is thirteen letters and digits, five bits each:
    two 32-bit words and a parity bit.  The pairs of words are decrypted one by
    one; the first pair of a code holds a check sum over all of them and the
    game the code is for.  Characters are [ascii], an array is a list, and what
    C++ leaves undefined is [None]. *)
From Stdlib Require Export Ascii String.
From S2P Require Export Memmap PPCInteger.

Notation text := (list ascii).
(** A string constant of the source. *)
Definition text_of (s : string) : text := list_ascii_of_string s.

Record AREntry := mkAREntry { cmd_addr : Z; value : Z }.
#[global] Instance AREntry_eq_dec : EqDecision AREntry.
Proof. solve_decision. Defined.
Record GameIDAndRegion := mkGameIDAndRegion { game_id : Z; region : Z }.

(** ** Tables *)

Definition filter_text : text := text_of "0123456789ABCDEFGHJKMNPQRTUVWXYZILOS".
Definition gentable0 : list Z :=
  [0x39; 0x31; 0x29; 0x21; 0x19; 0x11; 0x09; 0x01; 0x3A; 0x32; 0x2A; 0x22; 0x1A; 0x12;
   0x0A; 0x02; 0x3B; 0x33; 0x2B; 0x23; 0x1B; 0x13; 0x0B; 0x03; 0x3C; 0x34; 0x2C; 0x24;
   0x3F; 0x37; 0x2F; 0x27; 0x1F; 0x17; 0x0F; 0x07; 0x3E; 0x36; 0x2E; 0x26; 0x1E; 0x16;
   0x0E; 0x06; 0x3D; 0x35; 0x2D; 0x25; 0x1D; 0x15; 0x0D; 0x05; 0x1C; 0x14; 0x0C; 0x04].

Definition gentable1 : list Z :=
  [0x80; 0x40; 0x20; 0x10; 0x08; 0x04; 0x02; 0x01].

Definition gentable2 : list Z :=
  [0x01; 0x02; 0x04; 0x06; 0x08; 0x0A; 0x0C; 0x0E; 0x0F; 0x11; 0x13; 0x15; 0x17; 0x19; 0x1B; 0x1C].

Definition gentable3 : list Z :=
  [0x0E; 0x11; 0x0B; 0x18; 0x01; 0x05; 0x03; 0x1C; 0x0F; 0x06; 0x15; 0x0A; 0x17; 0x13; 0x0C; 0x04;
   0x1A; 0x08; 0x10; 0x07; 0x1B; 0x14; 0x0D; 0x02; 0x29; 0x34; 0x1F; 0x25; 0x2F; 0x37; 0x1E; 0x28;
   0x33; 0x2D; 0x21; 0x30; 0x2C; 0x31; 0x27; 0x38; 0x22; 0x35; 0x2E; 0x2A; 0x32; 0x24; 0x1D; 0x20].

Definition crctable0 : list Z :=
  [0x0000; 0x1081; 0x2102; 0x3183; 0x4204; 0x5285; 0x6306; 0x7387;
   0x8408; 0x9489; 0xA50A; 0xB58B; 0xC60C; 0xD68D; 0xE70E; 0xF78F].

Definition crctable1 : list Z :=
  [0x0000; 0x1189; 0x2312; 0x329B; 0x4624; 0x57AD; 0x6536; 0x74BF; 0x8C48; 0x9DC1; 0xAF5A; 0xBED3; 0xCA6C; 0xDBE5; 0xE97E; 0xF8F7].

Definition gensubtable : list Z :=
  [0x34; 0x1C; 0x84; 0x9E; 0xFD; 0xA4; 0xB6; 0x7B].

Definition table0 : list Z :=
  [0x01010400; 0x00000000; 0x00010000; 0x01010404; 0x01010004; 0x00010404; 0x00000004; 0x00010000;
   0x00000400; 0x01010400; 0x01010404; 0x00000400; 0x01000404; 0x01010004; 0x01000000; 0x00000004;
   0x00000404; 0x01000400; 0x01000400; 0x00010400; 0x00010400; 0x01010000; 0x01010000; 0x01000404;
   0x00010004; 0x01000004; 0x01000004; 0x00010004; 0x00000000; 0x00000404; 0x00010404; 0x01000000;
   0x00010000; 0x01010404; 0x00000004; 0x01010000; 0x01010400; 0x01000000; 0x01000000; 0x00000400;
   0x01010004; 0x00010000; 0x00010400; 0x01000004; 0x00000400; 0x00000004; 0x01000404; 0x00010404;
   0x01010404; 0x00010004; 0x01010000; 0x01000404; 0x01000004; 0x00000404; 0x00010404; 0x01010400;
   0x00000404; 0x01000400; 0x01000400; 0x00000000; 0x00010004; 0x00010400; 0x00000000; 0x01010004].

Definition table1 : list Z :=
  [0x80108020; 0x80008000; 0x00008000; 0x00108020; 0x00100000; 0x00000020; 0x80100020; 0x80008020;
   0x80000020; 0x80108020; 0x80108000; 0x80000000; 0x80008000; 0x00100000; 0x00000020; 0x80100020;
   0x00108000; 0x00100020; 0x80008020; 0x00000000; 0x80000000; 0x00008000; 0x00108020; 0x80100000;
   0x00100020; 0x80000020; 0x00000000; 0x00108000; 0x00008020; 0x80108000; 0x80100000; 0x00008020;
   0x00000000; 0x00108020; 0x80100020; 0x00100000; 0x80008020; 0x80100000; 0x80108000; 0x00008000;
   0x80100000; 0x80008000; 0x00000020; 0x80108020; 0x00108020; 0x00000020; 0x00008000; 0x80000000;
   0x00008020; 0x80108000; 0x00100000; 0x80000020; 0x00100020; 0x80008020; 0x80000020; 0x00100020;
   0x00108000; 0x00000000; 0x80008000; 0x00008020; 0x80000000; 0x80100020; 0x80108020; 0x00108000].

Definition table2 : list Z :=
  [0x00000208; 0x08020200; 0x00000000; 0x08020008; 0x08000200; 0x00000000; 0x00020208; 0x08000200;
   0x00020008; 0x08000008; 0x08000008; 0x00020000; 0x08020208; 0x00020008; 0x08020000; 0x00000208;
   0x08000000; 0x00000008; 0x08020200; 0x00000200; 0x00020200; 0x08020000; 0x08020008; 0x00020208;
   0x08000208; 0x00020200; 0x00020000; 0x08000208; 0x00000008; 0x08020208; 0x00000200; 0x08000000;
   0x08020200; 0x08000000; 0x00020008; 0x00000208; 0x00020000; 0x08020200; 0x08000200; 0x00000000;
   0x00000200; 0x00020008; 0x08020208; 0x08000200; 0x08000008; 0x00000200; 0x00000000; 0x08020008;
   0x08000208; 0x00020000; 0x08000000; 0x08020208; 0x00000008; 0x00020208; 0x00020200; 0x08000008;
   0x08020000; 0x08000208; 0x00000208; 0x08020000; 0x00020208; 0x00000008; 0x08020008; 0x00020200].

Definition table3 : list Z :=
  [0x00802001; 0x00002081; 0x00002081; 0x00000080; 0x00802080; 0x00800081; 0x00800001; 0x00002001;
   0x00000000; 0x00802000; 0x00802000; 0x00802081; 0x00000081; 0x00000000; 0x00800080; 0x00800001;
   0x00000001; 0x00002000; 0x00800000; 0x00802001; 0x00000080; 0x00800000; 0x00002001; 0x00002080;
   0x00800081; 0x00000001; 0x00002080; 0x00800080; 0x00002000; 0x00802080; 0x00802081; 0x00000081;
   0x00800080; 0x00800001; 0x00802000; 0x00802081; 0x00000081; 0x00000000; 0x00000000; 0x00802000;
   0x00002080; 0x00800080; 0x00800081; 0x00000001; 0x00802001; 0x00002081; 0x00002081; 0x00000080;
   0x00802081; 0x00000081; 0x00000001; 0x00002000; 0x00800001; 0x00002001; 0x00802080; 0x00800081;
   0x00002001; 0x00002080; 0x00800000; 0x00802001; 0x00000080; 0x00800000; 0x00002000; 0x00802080].

Definition table4 : list Z :=
  [0x00000100; 0x02080100; 0x02080000; 0x42000100; 0x00080000; 0x00000100; 0x40000000; 0x02080000;
   0x40080100; 0x00080000; 0x02000100; 0x40080100; 0x42000100; 0x42080000; 0x00080100; 0x40000000;
   0x02000000; 0x40080000; 0x40080000; 0x00000000; 0x40000100; 0x42080100; 0x42080100; 0x02000100;
   0x42080000; 0x40000100; 0x00000000; 0x42000000; 0x02080100; 0x02000000; 0x42000000; 0x00080100;
   0x00080000; 0x42000100; 0x00000100; 0x02000000; 0x40000000; 0x02080000; 0x42000100; 0x40080100;
   0x02000100; 0x40000000; 0x42080000; 0x02080100; 0x40080100; 0x00000100; 0x02000000; 0x42080000;
   0x42080100; 0x00080100; 0x42000000; 0x42080100; 0x02080000; 0x00000000; 0x40080000; 0x42000000;
   0x00080100; 0x02000100; 0x40000100; 0x00080000; 0x00000000; 0x40080000; 0x02080100; 0x40000100].

Definition table5 : list Z :=
  [0x20000010; 0x20400000; 0x00004000; 0x20404010; 0x20400000; 0x00000010; 0x20404010; 0x00400000;
   0x20004000; 0x00404010; 0x00400000; 0x20000010; 0x00400010; 0x20004000; 0x20000000; 0x00004010;
   0x00000000; 0x00400010; 0x20004010; 0x00004000; 0x00404000; 0x20004010; 0x00000010; 0x20400010;
   0x20400010; 0x00000000; 0x00404010; 0x20404000; 0x00004010; 0x00404000; 0x20404000; 0x20000000;
   0x20004000; 0x00000010; 0x20400010; 0x00404000; 0x20404010; 0x00400000; 0x00004010; 0x20000010;
   0x00400000; 0x20004000; 0x20000000; 0x00004010; 0x20000010; 0x20404010; 0x00404000; 0x20400000;
   0x00404010; 0x20404000; 0x00000000; 0x20400010; 0x00000010; 0x00004000; 0x20400000; 0x00404010;
   0x00004000; 0x00400010; 0x20004010; 0x00000000; 0x20404000; 0x20000000; 0x00400010; 0x20004010].

Definition table6 : list Z :=
  [0x00200000; 0x04200002; 0x04000802; 0x00000000; 0x00000800; 0x04000802; 0x00200802; 0x04200800;
   0x04200802; 0x00200000; 0x00000000; 0x04000002; 0x00000002; 0x04000000; 0x04200002; 0x00000802;
   0x04000800; 0x00200802; 0x00200002; 0x04000800; 0x04000002; 0x04200000; 0x04200800; 0x00200002;
   0x04200000; 0x00000800; 0x00000802; 0x04200802; 0x00200800; 0x00000002; 0x04000000; 0x00200800;
   0x04000000; 0x00200800; 0x00200000; 0x04000802; 0x04000802; 0x04200002; 0x04200002; 0x00000002;
   0x00200002; 0x04000000; 0x04000800; 0x00200000; 0x04200800; 0x00000802; 0x00200802; 0x04200800;
   0x00000802; 0x04000002; 0x04200802; 0x04200000; 0x00200800; 0x00000000; 0x00000002; 0x04200802;
   0x00000000; 0x00200802; 0x04200000; 0x00000800; 0x04000002; 0x04000800; 0x00000800; 0x00200002].

Definition table7 : list Z :=
  [0x10001040; 0x00001000; 0x00040000; 0x10041040; 0x10000000; 0x10001040; 0x00000040; 0x10000000;
   0x00040040; 0x10040000; 0x10041040; 0x00041000; 0x10041000; 0x00041040; 0x00001000; 0x00000040;
   0x10040000; 0x10000040; 0x10001000; 0x00001040; 0x00041000; 0x00040040; 0x10040040; 0x10041000;
   0x00001040; 0x00000000; 0x00000000; 0x10040040; 0x10000040; 0x10001000; 0x00041040; 0x00040000;
   0x00041040; 0x00040000; 0x10041000; 0x00001000; 0x00000040; 0x10040040; 0x00001000; 0x00041040;
   0x10001000; 0x00000040; 0x10000040; 0x10040000; 0x10040040; 0x10000000; 0x00040000; 0x10001040;
   0x00000000; 0x10041040; 0x00040040; 0x10000040; 0x10040000; 0x10001000; 0x10001040; 0x00000000;
   0x10041040; 0x00041000; 0x00041000; 0x00001040; 0x00001040; 0x00040040; 0x10000000; 0x10041000].

(** [array[i]], for the indices the code uses: all within the tables. *)
Definition nth_of (l : list Z) (i : Z) : Z := nth (Z.to_nat i) l 0.

(** [std::rotr] on 32 bits, for shifts between 1 and 31. *)
Definition rotr (x n : Z) : Z := (x .>> n) .| u32 (x .<< (32 - n)).

(** ** The key schedule, [genseeds] *)

Definition array0 : list Z :=
  map (fun g => let tmp := u8 (g - 1) in
                u32 (0 - (nth_of gensubtable (tmp .>> 3) .& nth_of gentable1 (tmp .& 7))) .>> 31) gentable0.
Definition array1 (tmp2 : Z) : list Z :=
  map (fun j => let tmp := u8 (tmp2 + j) in
                nth_of array0 (if 0x1B <? j then (if 0x37 <? tmp then tmp - 0x1C else tmp)
                               else if 0x1B <? tmp then tmp - 0x1C else tmp)) (seqZ 0 0x38).
Definition array2 (array1 : list Z) : list Z :=
  fold_left (fun array2 j =>
    if nth_of array1 (nth_of gentable3 j - 1) =? 0 then array2
    else let tmp := u8 (((j * 0x2AAB) .>> 16) - (j .>> 0x1F)) in
         <[Z.to_nat tmp := nth_of array2 tmp .| (nth_of gentable1 (j - tmp * 6) .>> 2)]> array2)
    (seqZ 0 0x30) (replicate 8 0).
Definition seed_pair (array2 : list Z) : list Z :=
  [(nth_of array2 0 .<< 24) .| (nth_of array2 2 .<< 16) .| (nth_of array2 4 .<< 8) .| nth_of array2 6;
   (nth_of array2 1 .<< 24) .| (nth_of array2 3 .<< 16) .| (nth_of array2 5 .<< 8) .| nth_of array2 7].
Definition swap_at (i j : Z) (seeds : list Z) : list Z :=
  <[Z.to_nat j := nth_of seeds i]> (<[Z.to_nat i := nth_of seeds j]> seeds).
(** The pairs of the rounds, last round first; the array has room for 48 words. *)
Definition reversed_pairs (seeds : list Z) : list Z :=
  fst (fold_left (fun '(seeds, j) i => (swap_at (i + 1) j (swap_at i (j - 1) seeds), j - 2))
         [0; 2; 4; 6; 8; 10; 12; 14] (seeds, 0x1F)).
Definition genseeds : list Z :=
  reversed_pairs (flat_map (fun tmp2 => seed_pair (array2 (array1 tmp2))) gentable2 ++ replicate 16 0).

(** ** The check sum *)

Definition crc_step (code : Z) (ret i : Z) : Z :=
  let tmp := u8 ((code .>> (i .<< 3)) .^ ret) in
  (nth_of crctable0 ((tmp .>> 4) .& 0x0F) .^ nth_of crctable1 (tmp .& 0x0F)) .^ (ret .>> 8).
Definition GetCRC16 (codes : list Z) : Z :=
  fold_left (fun ret code => fold_left (crc_step code) [0; 1; 2; 3] ret) codes 0.
Definition VerifyCode (codes : list Z) : Z :=
  let tmp := GetCRC16 codes in
  ((tmp .>> 12) .^ (tmp .>> 8) .^ (tmp .>> 4) .^ tmp) .& 0x0F.

(** ** The cipher *)

Definition GetCode (src : Z * Z) : Z * Z := (swap32 (fst src), swap32 (snd src)).
Definition SetCode (addr val : Z) : Z * Z := (swap32 addr, swap32 val).

Definition Unscramble1 '(addr, val) : Z * Z :=
  let val := rotl val 4 in
  let tmp := (addr .^ val) .& 0xF0F0F0F0 in
  let addr := addr .^ tmp in
  let val := rotr (val .^ tmp) 0x14 in
  let tmp := (addr .^ val) .& 0xFFFF0000 in
  let addr := addr .^ tmp in
  let val := rotr (val .^ tmp) 0x12 in
  let tmp := (addr .^ val) .& 0x33333333 in
  let addr := addr .^ tmp in
  let val := rotr (val .^ tmp) 6 in
  let tmp := (addr .^ val) .& 0x00FF00FF in
  let addr := addr .^ tmp in
  let val := rotl (val .^ tmp) 9 in
  let tmp := (addr .^ val) .& 0xAAAAAAAA in
  let addr := rotl (addr .^ tmp) 1 in
  let val := val .^ tmp in
  (addr, val).
Definition Unscramble2 '(addr, val) : Z * Z :=
  let val := rotr val 1 in
  let tmp := (addr .^ val) .& 0xAAAAAAAA in
  let val := val .^ tmp in
  let addr := rotr (addr .^ tmp) 9 in
  let tmp := (addr .^ val) .& 0x00FF00FF in
  let val := val .^ tmp in
  let addr := rotl (addr .^ tmp) 6 in
  let tmp := (addr .^ val) .& 0x33333333 in
  let val := val .^ tmp in
  let addr := rotl (addr .^ tmp) 0x12 in
  let tmp := (addr .^ val) .& 0xFFFF0000 in
  let val := val .^ tmp in
  let addr := rotl (addr .^ tmp) 0x14 in
  let tmp := (addr .^ val) .& 0xF0F0F0F0 in
  let val := val .^ tmp in
  let addr := rotr (addr .^ tmp) 4 in
  (addr, val).

(** What one half of a turn of the loop mixes into the other word. *)
Definition mix (seeds : list Z) (i val : Z) : Z :=
  let tmp := rotr val 4 .^ nth_of seeds i in
  let tmp2 := val .^ nth_of seeds (i + 1) in
  nth_of table6 (tmp .& 0x3F) .^ nth_of table4 ((tmp .>> 8) .& 0x3F) .^ nth_of table2 ((tmp .>> 16) .& 0x3F) .^
  nth_of table0 ((tmp .>> 24) .& 0x3F) .^ nth_of table7 (tmp2 .& 0x3F) .^ nth_of table5 ((tmp2 .>> 8) .& 0x3F) .^
  nth_of table3 ((tmp2 .>> 16) .& 0x3F) .^ nth_of table1 ((tmp2 .>> 24) .& 0x3F).
Definition rounds (seeds : list Z) (code : Z * Z) : Z * Z :=
  fold_left (fun '(addr, val) i =>
      let addr := addr .^ mix seeds i val in
      let val := val .^ mix seeds (i + 2) addr in
      (addr, val))
    [0; 4; 8; 12; 16; 20; 24; 28] code.
Definition DecryptCode (seeds : list Z) (code : Z * Z) : Z * Z :=
  let '(addr, val) := Unscramble2 (rounds seeds (Unscramble1 (GetCode code))) in
  SetCode val addr.

(** ** Reading the verification code *)

(** The four words of [ctrl]. *)
Record BitReader := mkReader { ctrl0 : Z; ctrl1 : Z; ctrl2 : Z; ctrl3 : Z }.
Definition current_word (ctrl : BitReader) : Z := u32 (ctrl0 ctrl + u32 (ctrl1 ctrl .<< 2)).
Fixpoint get_bits (len : nat) (ctrl : BitReader) (tmp out : Z) : bool * BitReader * Z :=
  match len with
  | O => (true, ctrl, out)
  | S len =>
      let '(ctrl, tmp) :=
        if 0x1F <? ctrl2 ctrl then
          let ctrl := mkReader (ctrl0 ctrl) (u32 (ctrl1 ctrl + 1)) 0 (ctrl3 ctrl) in (ctrl, current_word ctrl)
        else (ctrl, tmp) in
      if ctrl3 ctrl <=? ctrl1 ctrl then (false, ctrl, out)
      else
        let out := u32 (out .<< 1) .| ((tmp .>> (0x1F - ctrl2 ctrl)) .& 1) in
        get_bits len (mkReader (ctrl0 ctrl) (ctrl1 ctrl) (u32 (ctrl2 ctrl + 1)) (ctrl3 ctrl)) tmp out
  end.
Definition GetBitString (ctrl : BitReader) (len : nat) : bool * BitReader * Z :=
  get_bits len ctrl (current_word ctrl) 0.

Fixpoint pairs_of (codes : list Z) : list (Z * Z) :=
  match codes with addr :: val :: codes => (addr, val) :: pairs_of codes | _ => [] end.
Definition words_of_pairs (ps : list (Z * Z)) : list Z := flat_map (fun '(addr, val) => [addr; val]) ps.
Definition entries_of (codes : list Z) : list AREntry := map (fun '(addr, val) => mkAREntry addr val) (pairs_of codes).

(** The decrypted words, in place, and what the verification code says. *)
Definition BatchDecrypt (codes : list Z) : list Z * option GameIDAndRegion :=
  let codes := words_of_pairs (map (DecryptCode genseeds) (pairs_of codes)) in
  let tmp := nth_of codes 0 in
  let codes := <[0%nat := tmp .& 0x0FFFFFFF]> codes in
  if negb (tmp .>> 28 =? VerifyCode codes) then (codes, None)
  else
    let tmparray := mkReader (nth_of codes 0) 0 4 (Z.of_nat (length codes)) in
    let '(_, tmparray, game) := GetBitString tmparray 11 in
    let '(_, tmparray, _) := GetBitString tmparray 17 in
    let '(_, tmparray, _) := GetBitString tmparray 1 in
    let '(_, tmparray, _) := GetBitString tmparray 1 in
    let '(_, tmparray, reg) := GetBitString tmparray 2 in
    (codes, Some (mkGameIDAndRegion game reg)).

(** ** Letters and digits *)

Definition ToUpper (ch : ascii) : ascii :=
  let n := N_of_ascii ch in
  if ((97 <=? n) && (n <=? 122))%N then ascii_of_N (n - 32) else ch.
(** [strchr(s, chr) - s]: the end of the string counts as a character. *)
Fixpoint index_in (chr : ascii) (s : text) : option Z :=
  match s with
  | [] => if decide (chr = zero) then Some 0 else None
  | c :: s => if decide (chr = c) then Some 0 else Z.succ <$> index_in chr s
  end.
(** A null result of [strchr] is subtracted from: undefined. *)
Definition GetVal (chr : ascii) : option Z :=
  ret ← index_in (ToUpper chr) filter_text;
  Some (if (ret =? 32) || (ret =? 33) then 1 else if ret =? 34 then 0 else if ret =? 35 then 5 else ret).

Definition popcount (x : Z) : Z := Z.of_nat (length (List.filter (Z.testbit x) (seqZ 0 32))).

(** The values of a line's characters. *)
Definition value_a (v : list Z) : Z :=
  fold_left (fun a i => a .| u32 (nth_of v i .<< ((5 - i) * 5 + 2))) (seqZ 0 6) (nth_of v 6 .>> 3).
Definition value_b (v : list Z) : Z :=
  fold_left (fun b i => b .| u32 (nth_of v (i + 6) .<< ((5 - i) * 5 + 4))) (seqZ 0 6) (nth_of v 12 .>> 1).

(** The words, or the index of the line where the conversion failed. *)
Fixpoint convert_lines (alpha : list text) (result : list Z) (current_index : Z) : option (list Z + Z) :=
  match alpha with
  | [] => Some (inl result)
  | line :: alpha =>
      if negb (Z.of_nat (length line) =? 13) then None
      else
        v ← mapM GetVal line;
        let a := value_a v in
        let b := value_b v in
        if negb (popcount (a .^ b) .& 1 =? nth_of v 12 .& 1) then Some (inr current_index)
        else convert_lines alpha (result ++ [a; b]) (current_index + 1)
  end.
Definition ConvertAlphaToBinary (alpha : list text) : option (list Z + Z) := convert_lines alpha [] 0.

(** The result and the entries it appends. *)
Definition DecryptARCode (encrypted_lines : list text) : option (option GameIDAndRegion * list AREntry) :=
  if decide (encrypted_lines = []) then Some (None, [])
  else
    conversion_result ← ConvertAlphaToBinary encrypted_lines;
    match conversion_result with
    | inr _ => Some (None, [])
    | inl codes =>
        match BatchDecrypt codes with
        | (codes, None) => Some (None, entries_of codes)
        | (codes, Some decrypted_result) => Some (Some decrypted_result, entries_of (drop 2 codes))
        end
    end.
