(* ===== verification/ARDecryptSpec.v ===== *)
(** * What the cipher of Action Replay codes is, and that every code can be written

    The decryption is the Data Encryption Standard with a fixed key: the
    scrambling is its two permutations done by exchanging groups of bits, and the
    eight tables are its substitutions followed by its permutation of 32 bits.
    So a code is encrypted by the standard's encryption, and reading the letters
    of the encrypted lines gives the code back. *)
From S2P Require Export ARDecrypt.
From S2P Require Import PPCArith PPCMemory.
From Stdlib Require Import Btauto.

(** ** Bit strings, first bit first *)

Fixpoint bits (n : nat) (z : Z) : list bool :=
  match n with O => [] | S n => Z.testbit z (Z.of_nat n) :: bits n z end.
Fixpoint num (b : list bool) : Z :=
  match b with [] => 0 | x :: b => Z.b2z x * 2 ^ Z.of_nat (length b) + num b end.
Definition xors : list bool -> list bool -> list bool := zip_with xorb.
Definition permute (t : list Z) (b : list bool) : list bool := map (fun i => nth (Z.to_nat (i - 1)) b false) t.

(** ** The Data Encryption Standard (FIPS 46), with the numbering of its text *)

Module DES.
Definition IP : list Z :=
  [58; 50; 42; 34; 26; 18; 10; 2;
   60; 52; 44; 36; 28; 20; 12; 4;
   62; 54; 46; 38; 30; 22; 14; 6;
   64; 56; 48; 40; 32; 24; 16; 8;
   57; 49; 41; 33; 25; 17; 9; 1;
   59; 51; 43; 35; 27; 19; 11; 3;
   61; 53; 45; 37; 29; 21; 13; 5;
   63; 55; 47; 39; 31; 23; 15; 7].

Definition FP : list Z :=
  [40; 8; 48; 16; 56; 24; 64; 32;
   39; 7; 47; 15; 55; 23; 63; 31;
   38; 6; 46; 14; 54; 22; 62; 30;
   37; 5; 45; 13; 53; 21; 61; 29;
   36; 4; 44; 12; 52; 20; 60; 28;
   35; 3; 43; 11; 51; 19; 59; 27;
   34; 2; 42; 10; 50; 18; 58; 26;
   33; 1; 41; 9; 49; 17; 57; 25].

Definition E : list Z :=
  [32; 1; 2; 3; 4; 5; 4; 5; 6; 7; 8; 9;
   8; 9; 10; 11; 12; 13; 12; 13; 14; 15; 16; 17;
   16; 17; 18; 19; 20; 21; 20; 21; 22; 23; 24; 25;
   24; 25; 26; 27; 28; 29; 28; 29; 30; 31; 32; 1].

Definition P : list Z :=
  [16; 7; 20; 21; 29; 12; 28; 17; 1; 15; 23; 26; 5; 18; 31; 10;
   2; 8; 24; 14; 32; 27; 3; 9; 19; 13; 30; 6; 22; 11; 4; 25].

Definition PC1 : list Z :=
  [57; 49; 41; 33; 25; 17; 9; 1; 58; 50; 42; 34; 26; 18;
   10; 2; 59; 51; 43; 35; 27; 19; 11; 3; 60; 52; 44; 36;
   63; 55; 47; 39; 31; 23; 15; 7; 62; 54; 46; 38; 30; 22;
   14; 6; 61; 53; 45; 37; 29; 21; 13; 5; 28; 20; 12; 4].

Definition PC2 : list Z :=
  [14; 17; 11; 24; 1; 5; 3; 28; 15; 6; 21; 10;
   23; 19; 12; 4; 26; 8; 16; 7; 27; 20; 13; 2;
   41; 52; 31; 37; 47; 55; 30; 40; 51; 45; 33; 48;
   44; 49; 39; 56; 34; 53; 46; 42; 50; 36; 29; 32].

Definition shifts : list Z :=
  [1; 1; 2; 2; 2; 2; 2; 2; 1; 2; 2; 2; 2; 2; 2; 1].

Definition S1 : list Z :=
  [14; 4; 13; 1; 2; 15; 11; 8; 3; 10; 6; 12; 5; 9; 0; 7;
   0; 15; 7; 4; 14; 2; 13; 1; 10; 6; 12; 11; 9; 5; 3; 8;
   4; 1; 14; 8; 13; 6; 2; 11; 15; 12; 9; 7; 3; 10; 5; 0;
   15; 12; 8; 2; 4; 9; 1; 7; 5; 11; 3; 14; 10; 0; 6; 13].

Definition S2 : list Z :=
  [15; 1; 8; 14; 6; 11; 3; 4; 9; 7; 2; 13; 12; 0; 5; 10;
   3; 13; 4; 7; 15; 2; 8; 14; 12; 0; 1; 10; 6; 9; 11; 5;
   0; 14; 7; 11; 10; 4; 13; 1; 5; 8; 12; 6; 9; 3; 2; 15;
   13; 8; 10; 1; 3; 15; 4; 2; 11; 6; 7; 12; 0; 5; 14; 9].

Definition S3 : list Z :=
  [10; 0; 9; 14; 6; 3; 15; 5; 1; 13; 12; 7; 11; 4; 2; 8;
   13; 7; 0; 9; 3; 4; 6; 10; 2; 8; 5; 14; 12; 11; 15; 1;
   13; 6; 4; 9; 8; 15; 3; 0; 11; 1; 2; 12; 5; 10; 14; 7;
   1; 10; 13; 0; 6; 9; 8; 7; 4; 15; 14; 3; 11; 5; 2; 12].

Definition S4 : list Z :=
  [7; 13; 14; 3; 0; 6; 9; 10; 1; 2; 8; 5; 11; 12; 4; 15;
   13; 8; 11; 5; 6; 15; 0; 3; 4; 7; 2; 12; 1; 10; 14; 9;
   10; 6; 9; 0; 12; 11; 7; 13; 15; 1; 3; 14; 5; 2; 8; 4;
   3; 15; 0; 6; 10; 1; 13; 8; 9; 4; 5; 11; 12; 7; 2; 14].

Definition S5 : list Z :=
  [2; 12; 4; 1; 7; 10; 11; 6; 8; 5; 3; 15; 13; 0; 14; 9;
   14; 11; 2; 12; 4; 7; 13; 1; 5; 0; 15; 10; 3; 9; 8; 6;
   4; 2; 1; 11; 10; 13; 7; 8; 15; 9; 12; 5; 6; 3; 0; 14;
   11; 8; 12; 7; 1; 14; 2; 13; 6; 15; 0; 9; 10; 4; 5; 3].

Definition S6 : list Z :=
  [12; 1; 10; 15; 9; 2; 6; 8; 0; 13; 3; 4; 14; 7; 5; 11;
   10; 15; 4; 2; 7; 12; 9; 5; 6; 1; 13; 14; 0; 11; 3; 8;
   9; 14; 15; 5; 2; 8; 12; 3; 7; 0; 4; 10; 1; 13; 11; 6;
   4; 3; 2; 12; 9; 5; 15; 10; 11; 14; 1; 7; 6; 0; 8; 13].

Definition S7 : list Z :=
  [4; 11; 2; 14; 15; 0; 8; 13; 3; 12; 9; 7; 5; 10; 6; 1;
   13; 0; 11; 7; 4; 9; 1; 10; 14; 3; 5; 12; 2; 15; 8; 6;
   1; 4; 11; 13; 12; 3; 7; 14; 10; 15; 6; 8; 0; 5; 9; 2;
   6; 11; 13; 8; 1; 4; 10; 7; 9; 5; 0; 15; 14; 2; 3; 12].

Definition S8 : list Z :=
  [13; 2; 8; 4; 6; 15; 11; 1; 10; 9; 3; 14; 5; 0; 12; 7;
   1; 15; 13; 8; 10; 3; 7; 4; 12; 5; 6; 11; 0; 14; 9; 2;
   7; 11; 4; 1; 9; 12; 14; 2; 0; 6; 10; 13; 15; 3; 5; 8;
   2; 1; 14; 7; 4; 10; 8; 13; 15; 12; 9; 0; 3; 5; 6; 11].

Definition boxes : list (list Z) := [S1; S2; S3; S4; S5; S6; S7; S8].

(** The outer bits of six choose the row of a box, the inner ones the column. *)
Definition substitute (box : list Z) (c : list bool) : list bool :=
  bits 4 (nth_of box (num [nth 0 c false; nth 5 c false] * 16 + num (take 4 (drop 1 c)))).
Fixpoint substitutions (boxes : list (list Z)) (x : list bool) : list bool :=
  match boxes with [] => [] | box :: boxes => substitute box (take 6 x) ++ substitutions boxes (drop 6 x) end.
Definition f (R K : list bool) : list bool := permute P (substitutions boxes (xors (permute E R) K)).

Fixpoint schedule (shifts : list Z) (C D : list bool) : list (list bool) :=
  match shifts with
  | [] => []
  | s :: shifts =>
      let C := rotate (Z.to_nat s) C in
      let D := rotate (Z.to_nat s) D in
      permute PC2 (C ++ D) :: schedule shifts C D
  end.
Definition keys (key : Z) : list (list bool) :=
  let b := permute PC1 (bits 64 key) in schedule shifts (take 28 b) (drop 28 b).

Definition feistel (ks : list (list bool)) (LR : list bool * list bool) : list bool * list bool :=
  fold_left (fun '(L, R) K => (R, xors L (f R K))) ks LR.
Definition crypt (ks : list (list bool)) (block : Z) : Z :=
  let b := permute IP (bits 64 block) in
  let '(L, R) := feistel ks (take 32 b, drop 32 b) in
  num (permute FP (R ++ L)).
Definition encrypt (key block : Z) : Z := crypt (keys key) block.
Definition decrypt (key block : Z) : Z := crypt (rev (keys key)) block.

(** The example of the standard's literature. *)
Example encrypt_example : encrypt 0x133457799BBCDFF1 0x0123456789ABCDEF = 0x85E813540F0AB405.
Proof. vm_compute. reflexivity. Qed.
End DES.

(** ** Bit strings and numbers *)

Lemma length_bits n z : length (bits n z) = n.
Proof. induction n; simpl; auto. Qed.

Lemma length_permute t b : length (permute t b) = length t.
Proof. apply length_map. Qed.

Lemma num_range b : 0 <= num b < 2 ^ Z.of_nat (length b).
Proof.
  induction b as [|x b IH]; [simpl; lia|]. cbn [num length].
  rewrite Nat2Z.inj_succ, Z.pow_succ_r by lia. destruct x; simpl; lia.
Qed.

Lemma testbit_num b (i : nat) : Z.testbit (num b) (Z.of_nat i) = nth i (rev b) false.
Proof.
  revert i. induction b as [|x b IH]; intros i; [by rewrite Z.bits_0; destruct i|]. cbn [num rev].
  pose proof (num_range b) as Hb. set (k := length b) in *.
  rewrite <- lor_shiftl_add by lia.
  rewrite Z.lor_spec, Z.shiftl_spec, IH by lia.
  destruct (Nat.lt_total i k) as [Hi|[->|Hi]].
  - rewrite app_nth1 by (rewrite length_rev; lia). by rewrite Z.testbit_neg_r by lia.
  - rewrite app_nth2 by (rewrite length_rev; lia). rewrite length_rev, Nat.sub_diag, Z.sub_diag.
    rewrite (nth_overflow (rev b)) by (rewrite length_rev; lia). by destruct x.
  - rewrite app_nth2 by (rewrite length_rev; lia). rewrite (nth_overflow (rev b)) by (rewrite length_rev; lia).
    rewrite length_rev. destruct (i - length b)%nat as [|j] eqn:E; [lia|].
    destruct x; simpl; [|by rewrite Z.bits_0; destruct j].
    rewrite Z.bits_above_log2 by (simpl; lia). by destruct j.
Qed.

Lemma bits_num b n : length b = n -> bits n (num b) = b.
Proof.
  intros <-. enough (H : forall c b, bits (length b) (num (c ++ b)) = b) by apply (H []).
  intros c b'. revert c. induction b' as [|x b' IH]; intros c; [done|]. cbn [length bits]. f_equal.
  - rewrite testbit_num, rev_app_distr. simpl. rewrite <- app_assoc, app_nth2; rewrite length_rev; [|lia].
    by rewrite Nat.sub_diag.
  - specialize (IH (c ++ [x])). by rewrite <- app_assoc in IH.
Qed.

Lemma num_bits n z : 0 <= z < 2 ^ Z.of_nat n -> num (bits n z) = z.
Proof.
  intros Hz. apply Z.bits_inj'. intros i Hi. rewrite <- (Z2Nat.id i) by done. rewrite testbit_num.
  generalize (Z.to_nat i). clear i Hi. intros i. destruct (Nat.lt_ge_cases i n) as [Hi|Hi].
  - clear Hz. induction n as [|n IH]; [lia|]. cbn [bits rev].
    destruct (decide (i = n)) as [->|Hne].
    + rewrite app_nth2; rewrite length_rev, length_bits; [|lia]. by rewrite Nat.sub_diag.
    + rewrite app_nth1 by (rewrite length_rev, length_bits; lia). apply IH. lia.
  - rewrite nth_overflow by (rewrite length_rev, length_bits; lia).
    symmetry. apply (bits_above_pow2 z (Z.of_nat n)); lia.
Qed.

(** ** Exclusive or *)

Lemma length_xors a b : length a = length b -> length (xors a b) = length a.
Proof. intros H. unfold xors. rewrite length_zip_with. lia. Qed.

Lemma nth_xors i a b : length a = length b -> nth i (xors a b) false = xorb (nth i a false) (nth i b false).
Proof. revert i b. induction a as [|x a IH]; intros [|i] [|y b] H; simplify_eq/=; auto. Qed.

Lemma rev_xors a b : length a = length b -> rev (xors a b) = xors (rev a) (rev b).
Proof.
  revert b. induction a as [|x a IH]; intros [|y b] H; simplify_eq/=; [done|].
  unfold xors in *. rewrite IH by done. rewrite zip_with_app by (rewrite !length_rev; lia). done.
Qed.

Lemma num_xors a b : length a = length b -> num (xors a b) = num a .^ num b.
Proof.
  intros H. apply Z.bits_inj'. intros i Hi. rewrite Z.lxor_spec, <- (Z2Nat.id i), !testbit_num by done.
  rewrite rev_xors by done. apply nth_xors. by rewrite !length_rev.
Qed.

Lemma bits_xor n x y : bits n (x .^ y) = xors (bits n x) (bits n y).
Proof. induction n as [|n IH]; [done|]. cbn [bits]. rewrite Z.lxor_spec, IH. done. Qed.

Lemma permute_xors t a b : length a = length b -> permute t (xors a b) = xors (permute t a) (permute t b).
Proof.
  intros H. induction t as [|i t IH]; [done|]. cbn [permute map]. fold (permute t (xors a b)). rewrite IH, nth_xors by done.
  done.
Qed.

Lemma xors_cancel a b : length a = length b -> xors (xors a b) b = a.
Proof.
  revert b. induction a as [|x a IH]; intros [|y b] H; simplify_eq/=; [done|]. unfold xors in *. rewrite IH by done.
  by rewrite xorb_assoc, xorb_nilpotent, xorb_false_r.
Qed.

Lemma take_xors n a b : take n (xors a b) = xors (take n a) (take n b).
Proof. revert a b. induction n; intros [|x a] [|y b]; try done. unfold xors. simpl. f_equal. apply IHn. Qed.

Lemma drop_xors n a b : length a = length b -> drop n (xors a b) = xors (drop n a) (drop n b).
Proof. revert a b. induction n; intros [|x a] [|y b] H; simplify_eq/=; auto. Qed.

(** ** Linear functions of words are determined by the words with one bit *)

Definition linear (n : Z) (f : Z -> Z) : Prop :=
  forall x y, 0 <= x < 2 ^ n -> 0 <= y < 2 ^ n -> f (x .^ y) = f x .^ f y.

Lemma linear_ext (n : nat) f g : linear (Z.of_nat n) f -> linear (Z.of_nat n) g ->
  (forall i, (i < n)%nat -> f (2 ^ Z.of_nat i) = g (2 ^ Z.of_nat i)) -> forall x, 0 <= x < 2 ^ Z.of_nat n -> f x = g x.
Proof.
  intros Hf Hg H. assert (H0 : f 0 = g 0).
  { assert (E : forall h, linear (Z.of_nat n) h -> h 0 = 0).
    { intros h Hh. assert (0 < 2 ^ Z.of_nat n) by (apply Z.pow_pos_nonneg; lia).
      assert (E : h (0 .^ 0) = h 0 .^ h 0) by (apply Hh; lia). by rewrite !Z.lxor_nilpotent in E. }
    by rewrite !E. }
  enough (IH : forall k, (k <= n)%nat -> forall x, 0 <= x < 2 ^ Z.of_nat k -> f x = g x) by exact (IH n ltac:(lia)).
  induction k as [|k IH]; intros Hk x Hx; [simpl in Hx; by replace x with 0 by lia|].
  rewrite Nat2Z.inj_succ, Z.pow_succ_r in Hx by lia.
  assert (Hle : 2 ^ Z.of_nat k < 2 ^ Z.of_nat n) by (apply Z.pow_lt_mono_r; lia).
  destruct (Z.lt_ge_cases x (2 ^ Z.of_nat k)) as [Hlo|Hhi]; [by apply IH; lia|].
  replace x with (2 ^ Z.of_nat k .^ (x - 2 ^ Z.of_nat k)).
  - rewrite Hf, Hg, H, (IH ltac:(lia) (x - 2 ^ Z.of_nat k)) by lia. done.
  - rewrite <- Z.add_nocarry_lxor; [lia|]. apply Z.bits_inj'. intros i Hi.
    rewrite Z.land_spec, Z.pow2_bits_eqb, Z.bits_0 by lia. destruct (Z.eqb_spec (Z.of_nat k) i) as [<-|]; [|done].
    apply (bits_above_pow2 (x - 2 ^ Z.of_nat k) (Z.of_nat k)); lia.
Qed.

(** Checked on every word with one bit. *)
Lemma linear_check (n : nat) f g : linear (Z.of_nat n) f -> linear (Z.of_nat n) g ->
  forallb (fun i => f (2 ^ Z.of_nat i) =? g (2 ^ Z.of_nat i)) (seq 0 n) = true ->
  forall x, 0 <= x < 2 ^ Z.of_nat n -> f x = g x.
Proof.
  intros Hf Hg H. apply linear_ext; [done..|]. intros i Hi.
  apply Z.eqb_eq. rewrite forallb_forall in H. apply H, in_seq. lia.
Qed.

Lemma land_lxor x y m : (x .^ y) .& m = (x .& m) .^ (y .& m).
Proof. apply Z.bits_inj'. intros i Hi. rewrite !Z.land_spec, !Z.lxor_spec, !Z.land_spec. by destruct (Z.testbit x i), (Z.testbit y i), (Z.testbit m i). Qed.

Lemma rotr_rotl x n : 0 < n < 32 -> rotr x n = rotl x (32 - n).
Proof. intros Hn. unfold rotr, rotl. rewrite Z.lor_comm. do 3 f_equal. lia. Qed.

Lemma rotl_lxor x y n : 0 <= n < 32 -> is_u32 x -> is_u32 y -> rotl (x .^ y) n = rotl x n .^ rotl y n.
Proof.
  intros Hn Hx Hy. pose proof (is_u32_lxor x y Hx Hy) as Hxy. apply Z.bits_inj'. intros i Hi. rewrite Z.lxor_spec.
  destruct (Z.lt_ge_cases i 32).
  - rewrite !testbit_rotl by (done || lia). apply Z.lxor_spec.
  - assert (E : forall w, is_u32 w -> Z.testbit (rotl w n) i = false); [|by rewrite !E].
    intros w Hw. apply (bits_above_pow2 (rotl w n) 32); [lia| |lia]. apply (rotl_u32 w n Hw). lia.
Qed.

Lemma linear_num_permute n t : linear (Z.of_nat n) (fun z => num (permute t (bits n z))).
Proof.
  intros x y _ _. rewrite bits_xor, permute_xors, num_xors; rewrite ?length_permute, ?length_bits; done.
Qed.

(** ** The scrambling steps *)

Definition xor2 (p q : Z * Z) : Z * Z := (fst p .^ fst q, snd p .^ snd q).
Definition ok2 (p : Z * Z) : Prop := is_u32 (fst p) /\ is_u32 (snd p).
Record linear2 (f : Z * Z -> Z * Z) : Prop := {
  linear2_ok p : ok2 p -> ok2 (f p);
  linear2_xor p q : ok2 p -> ok2 q -> f (xor2 p q) = xor2 (f p) (f q)
}.

Lemma linear2_compose f g : linear2 f -> linear2 g -> linear2 (fun p => g (f p)).
Proof.
  intros [Hf Hf'] [Hg Hg']. split; [auto|]. intros p q Hp Hq. rewrite Hf', Hg' by auto. done.
Qed.

Definition exchange (m : Z) (p : Z * Z) : Z * Z :=
  let tmp := (fst p .^ snd p) .& m in (fst p .^ tmp, snd p .^ tmp).
Definition on_addr (g : Z -> Z) (p : Z * Z) : Z * Z := (g (fst p), snd p).
Definition on_val (g : Z -> Z) (p : Z * Z) : Z * Z := (fst p, g (snd p)).

Lemma lxor_swap a b c d : (a .^ b) .^ (c .^ d) = (a .^ c) .^ (b .^ d).
Proof. rewrite !Z.lxor_assoc. f_equal. rewrite <- !Z.lxor_assoc. f_equal. apply Z.lxor_comm. Qed.

Lemma exchange_linear m : is_u32 m -> linear2 (exchange m).
Proof.
  intros Hm. split.
  - intros [a v] [Ha Hv]. assert (is_u32 ((a .^ v) .& m)) by (apply is_u32_land, is_u32_lxor; done).
    by split; apply is_u32_lxor.
  - intros [a v] [a' v'] _ _. unfold exchange, xor2. simpl. rewrite (lxor_swap a a' v v'), land_lxor. f_equal; apply lxor_swap.
Qed.

Lemma on_addr_linear k : 0 <= k < 32 -> linear2 (on_addr (fun x => rotl x k)).
Proof.
  intros Hk. split.
  - intros [a v] [Ha Hv]. split; [|done]. apply (rotl_u32 a k Ha). lia.
  - intros [a v] [a' v'] [Ha Hv] [Ha' Hv']. unfold on_addr, xor2. simpl in *. by rewrite rotl_lxor.
Qed.
Lemma on_val_linear k : 0 <= k < 32 -> linear2 (on_val (fun x => rotl x k)).
Proof.
  intros Hk. split.
  - intros [a v] [Ha Hv]. split; [done|]. apply (rotl_u32 v k Hv). lia.
  - intros [a v] [a' v'] [Ha Hv] [Ha' Hv']. unfold on_val, xor2. simpl in *. by rewrite rotl_lxor.
Qed.

Lemma linear2_proper f g : (forall p, f p = g p) -> linear2 f -> linear2 g.
Proof. intros E [H1 H2]. split; intros; rewrite <- !E; auto. Qed.

Ltac linear2_steps :=
  repeat first [apply exchange_linear; vm_compute; split; [discriminate|reflexivity] | apply on_addr_linear; lia
               | apply on_val_linear; lia | apply linear2_compose].

Lemma Unscramble1_linear : linear2 Unscramble1.
Proof.
  apply (linear2_proper (fun p =>
    on_addr (fun x => rotl x 1) (exchange 0xAAAAAAAA (on_val (fun x => rotl x 9) (exchange 0x00FF00FF
      (on_val (fun x => rotl x (32 - 6)) (exchange 0x33333333 (on_val (fun x => rotl x (32 - 0x12))
        (exchange 0xFFFF0000 (on_val (fun x => rotl x (32 - 0x14)) (exchange 0xF0F0F0F0
          (on_val (fun x => rotl x 4) p)))))))))))).
  - intros [a v]. unfold Unscramble1, on_addr, on_val, exchange. cbn [fst snd]. rewrite !rotr_rotl by lia. reflexivity.
  - linear2_steps.
Qed.

Lemma Unscramble2_linear : linear2 Unscramble2.
Proof.
  apply (linear2_proper (fun p =>
    on_addr (fun x => rotl x (32 - 4)) (exchange 0xF0F0F0F0 (on_addr (fun x => rotl x 0x14) (exchange 0xFFFF0000
      (on_addr (fun x => rotl x 0x12) (exchange 0x33333333 (on_addr (fun x => rotl x 6) (exchange 0x00FF00FF
        (on_addr (fun x => rotl x (32 - 9)) (exchange 0xAAAAAAAA (on_val (fun x => rotl x (32 - 1)) p)))))))))))).
  - intros [a v]. unfold Unscramble2, on_addr, on_val, exchange. cbn [fst snd]. rewrite !rotr_rotl by lia. reflexivity.
  - linear2_steps.
Qed.

(** ** The two permutations *)

Definition split64 (z : Z) : Z * Z := (z .>> 32, u32 z).

Lemma u32_lxor x y : u32 (x .^ y) = u32 x .^ u32 y.
Proof.
  unfold u32. change 0x100000000 with (2 ^ 32). rewrite <- !Z.land_ones by lia. apply land_lxor.
Qed.
Lemma split64_xor x y : split64 (x .^ y) = xor2 (split64 x) (split64 y).
Proof. unfold split64, xor2. simpl. by rewrite Z.shiftr_lxor, u32_lxor. Qed.
Lemma split64_ok z : 0 <= z < 2 ^ 64 -> ok2 (split64 z).
Proof. intros Hz. split; simpl; [|apply is_u32_u32]. rewrite Z.shiftr_div_pow2 by lia. zlia. Qed.

Lemma linear_fst n h (g : Z * Z -> Z * Z) : linear2 g -> (forall x, 0 <= x < 2 ^ n -> ok2 (h x)) ->
  (forall x y, h (x .^ y) = xor2 (h x) (h y)) -> linear n (fun z => fst (g (h z))) /\ linear n (fun z => snd (g (h z))).
Proof. intros Hg Hok Hh. split; intros x y Hx Hy; rewrite Hh, (linear2_xor g Hg) by auto; done. Qed.

Lemma rotl_num_linear n t k : 0 <= k < 32 -> (length t <= 32)%nat ->
  linear (Z.of_nat n) (fun z => rotl (num (permute t (bits n z))) k).
Proof.
  intros Hk Ht x y Hx Hy. rewrite linear_num_permute by done.
  assert (E : forall b, (length b <= 32)%nat -> is_u32 (num b)).
  { intros b Hb. pose proof (num_range b) as Hn. pose proof (Z.pow_le_mono_r 2 (Z.of_nat (length b)) 32 ltac:(lia) ltac:(lia)).
    unfold is_u32. lia. }
  apply rotl_lxor; [done|apply E; by rewrite length_permute..].
Qed.

Lemma permute_take n t b : take n (permute t b) = permute (take n t) b.
Proof. apply firstn_map. Qed.
Lemma permute_drop n t b : drop n (permute t b) = permute (drop n t) b.
Proof. apply skipn_map. Qed.

Lemma initial_permutation z : 0 <= z < 2 ^ 64 ->
  Unscramble1 (split64 z) =
    (rotl (num (take 32 (permute DES.IP (bits 64 z)))) 1, rotl (num (drop 32 (permute DES.IP (bits 64 z)))) 1).
Proof.
  intros Hz. destruct (linear_fst 64 split64 _ Unscramble1_linear split64_ok split64_xor) as [H1 H2].
  rewrite permute_take, permute_drop.
  rewrite (surjective_pairing (Unscramble1 (split64 z))). f_equal.
  - apply (linear_check 64 (fun z => fst (Unscramble1 (split64 z))) (fun z => rotl (num (permute (take 32 DES.IP) (bits 64 z))) 1));
      [done|apply rotl_num_linear; [lia|vm_compute; lia]|vm_compute; reflexivity|done].
  - apply (linear_check 64 (fun z => snd (Unscramble1 (split64 z))) (fun z => rotl (num (permute (drop 32 DES.IP) (bits 64 z))) 1));
      [done|apply rotl_num_linear; [lia|vm_compute; lia]|vm_compute; reflexivity|done].
Qed.

(** The words of the last round, as the code holds them. *)
Definition halves (z : Z) : Z * Z := on_val (fun x => rotl x 1) (on_addr (fun x => rotl x 1) (split64 z)).
Lemma halves_ok z : 0 <= z < 2 ^ 64 -> ok2 (halves z).
Proof. intros Hz. apply (on_val_linear 1 ltac:(lia)), (on_addr_linear 1 ltac:(lia)), split64_ok, Hz. Qed.

Lemma joined_linear n t : linear n (fun z => num (permute t (bits 32 (u32 z) ++ bits 32 (z .>> 32)))).
Proof.
  intros x y _ _. rewrite u32_lxor, Z.shiftr_lxor, !bits_xor. unfold xors. rewrite <- zip_with_app by (by rewrite !length_bits).
  fold xors. rewrite permute_xors, num_xors; rewrite ?length_permute, ?length_app, ?length_bits; done.
Qed.

Lemma final_permutation z : 0 <= z < 2 ^ 64 ->
  Unscramble2 (halves z) =
    (num (drop 32 (permute DES.FP (bits 32 (u32 z) ++ bits 32 (z .>> 32)))),
     num (take 32 (permute DES.FP (bits 32 (u32 z) ++ bits 32 (z .>> 32))))).
Proof.
  intros Hz. rewrite permute_take, permute_drop.
  assert (H : forall x y, 0 <= x < 2 ^ 64 -> 0 <= y < 2 ^ 64 -> halves (x .^ y) = xor2 (halves x) (halves y)).
  { intros x y Hx Hy. unfold halves. rewrite split64_xor.
    rewrite (linear2_xor _ (on_addr_linear 1 ltac:(lia))) by (by apply split64_ok).
    apply (linear2_xor _ (on_val_linear 1 ltac:(lia))); by apply (on_addr_linear 1 ltac:(lia)), split64_ok. }
  assert (HL : linear 64 (fun z => fst (Unscramble2 (halves z))) /\ linear 64 (fun z => snd (Unscramble2 (halves z)))).
  { split; intros x y Hx Hy; rewrite H, (linear2_xor _ Unscramble2_linear) by (done || by apply halves_ok); done. }
  destruct HL as [H1 H2]. rewrite (surjective_pairing (Unscramble2 (halves z))). f_equal.
  - apply (linear_check 64 _ (fun z => num (permute (drop 32 DES.FP) (bits 32 (u32 z) ++ bits 32 (z .>> 32)))) H1
             (joined_linear _ _)); [vm_compute; reflexivity|done].
  - apply (linear_check 64 _ (fun z => num (permute (take 32 DES.FP) (bits 32 (u32 z) ++ bits 32 (z .>> 32)))) H2
             (joined_linear _ _)); [vm_compute; reflexivity|done].
Qed.

(** ** The substitutions *)

Definition chunk {A} (k : nat) (x : list A) : list A := take 6 (drop (6 * k) x).
(** The tables in the order of the boxes, and the positions of their indices in a word. *)
Definition table_of (k : nat) : list Z := nth k [ARDecrypt.table0; ARDecrypt.table1; ARDecrypt.table2; ARDecrypt.table3; ARDecrypt.table4; ARDecrypt.table5;
         ARDecrypt.table6; ARDecrypt.table7] [].
Definition box_of (k : nat) : list Z := nth k DES.boxes [].
Definition index_shift (k : nat) : Z := nth k [24; 24; 16; 16; 8; 8; 0; 0] 0.

Definition place (k : nat) (n : list bool) : list bool := replicate (4 * k) false ++ n ++ replicate (28 - 4 * k) false.

Lemma tables_check : forallb (fun k => forallb (fun i =>
    nth_of (table_of k) i =? rotl (num (permute DES.P (place k (DES.substitute (box_of k) (bits 6 i))))) 1)
    (seqZ 0 64)) (seq 0 8) = true.
Proof. vm_compute. reflexivity. Qed.

Lemma table_is_box k c : (k < 8)%nat -> length c = 6%nat ->
  nth_of (table_of k) (num c) = rotl (num (permute DES.P (place k (DES.substitute (box_of k) c)))) 1.
Proof.
  intros Hk Hc. pose proof tables_check as H. rewrite forallb_forall in H. specialize (H k ltac:(apply in_seq; lia)).
  rewrite forallb_forall in H. pose proof (num_range c) as Hn. rewrite Hc in Hn.
  specialize (H (num c)). rewrite (bits_num c 6 Hc) in H. apply Z.eqb_eq, H, list_elem_of_In, elem_of_seqZ. lia.
Qed.

Lemma index_linear n g s : (forall x y, 0 <= x < 2 ^ n -> 0 <= y < 2 ^ n -> g (x .^ y) = g x .^ g y) ->
  linear n (fun x => (g x .>> s) .& 0x3F).
Proof. intros Hg x y Hx Hy. by rewrite Hg, Z.shiftr_lxor, land_lxor by done. Qed.

(** The six bits of the word, rotated for the boxes with even index. *)
Definition index_of (k : nat) (val : Z) : Z := ((if Nat.even k then rotr val 4 else val) .>> index_shift k) .& 0x3F.

Lemma index_of_xor k x y : is_u32 x -> is_u32 y -> index_of k (x .^ y) = index_of k x .^ index_of k y.
Proof.
  intros Hx Hy. unfold index_of. destruct (Nat.even k); [|by rewrite Z.shiftr_lxor, land_lxor].
  by rewrite !rotr_rotl, rotl_lxor, Z.shiftr_lxor, land_lxor by (done || lia).
Qed.

Lemma expansion_chunk k r : (k < 8)%nat -> is_u32 r ->
  index_of k (rotl r 1) = num (permute (chunk k DES.E) (bits 32 r)).
Proof.
  intros Hk Hr. apply (linear_check 32 (fun r => index_of k (rotl r 1)) (fun r => num (permute (chunk k DES.E) (bits 32 r)))).
  - intros x y Hx Hy. rewrite rotl_lxor by (done || lia). apply index_of_xor; apply (rotl_u32 _ 1); done || lia.
  - apply linear_num_permute.
  - do 8 (destruct k as [|k]; [vm_compute; reflexivity|]). lia.
  - exact Hr.
Qed.

(** The key of a round, in the two words of a pair of seeds. *)
Definition key_in (seeds : list Z) (i : Z) (K : list bool) : bool :=
  bool_decide (length K = 48%nat) &&
  forallb (fun k => (nth_of seeds (if Nat.even k then i else i + 1) .>> index_shift k) .& 0x3F =? num (chunk k K)) (seq 0 8).

Lemma length_chunk {A} k (x : list A) : length x = 48%nat -> (k < 8)%nat -> length (chunk k x) = 6%nat.
Proof. intros Hx Hk. unfold chunk. rewrite length_take, length_drop. lia. Qed.

(** The index into a table during a round. *)
Lemma round_index seeds i K k R : key_in seeds i K = true -> (k < 8)%nat -> length R = 32%nat ->
  ((((if Nat.even k then rotr (rotl (num R) 1) 4 else rotl (num R) 1)
     .^ nth_of seeds (if Nat.even k then i else i + 1)) .>> index_shift k) .& 0x3F) =
  num (chunk k (xors (permute DES.E R) K)).
Proof.
  intros [HK HS]%andb_true_iff Hk HR. apply bool_decide_eq_true in HK. rewrite forallb_forall in HS.
  specialize (HS k ltac:(apply in_seq; lia)). apply Z.eqb_eq in HS.
  rewrite Z.shiftr_lxor, land_lxor, HS. fold (index_of k (rotl (num R) 1)).
  pose proof (num_range R) as Hn. rewrite HR in Hn.
  rewrite expansion_chunk by done. rewrite (bits_num R 32 HR).
  unfold chunk. rewrite drop_xors by (by rewrite length_permute, HK). rewrite take_xors, permute_drop, permute_take.
  apply eq_sym, num_xors. rewrite length_permute. rewrite !length_take, !length_drop, HK. done.
Qed.

Lemma length_substitute box c : length (DES.substitute box c) = 4%nat.
Proof. apply length_bits. Qed.

Lemma four_bits (n : list bool) : length n = 4%nat -> exists a b c d, n = [a; b; c; d].
Proof. destruct n as [|a [|b [|c [|d [|]]]]]; try done. intros _. by exists a, b, c, d. Qed.

Lemma concat_places n0 n1 n2 n3 n4 n5 n6 n7 : Forall (fun n => length n = 4%nat) [n0; n1; n2; n3; n4; n5; n6; n7] ->
  n0 ++ n1 ++ n2 ++ n3 ++ n4 ++ n5 ++ n6 ++ n7 ++ [] =
  xors (place 0 n0) (xors (place 1 n1) (xors (place 2 n2) (xors (place 3 n3)
    (xors (place 4 n4) (xors (place 5 n5) (xors (place 6 n6) (place 7 n7))))))).
Proof.
  intros H. repeat (apply Forall_cons in H as [(? & ? & ? & ? & ->)%four_bits H]).
  unfold xors, place. simpl. rewrite ?xorb_false_r. done.
Qed.

Lemma length_place k n : (k < 8)%nat -> length n = 4%nat -> length (place k n) = 32%nat.
Proof. intros Hk Hn. unfold place. rewrite !length_app, !length_replicate. lia. Qed.

(** ** A round *)

Lemma is_u32_num b : length b = 32%nat -> is_u32 (num b).
Proof. intros H. pose proof (num_range b) as Hn. by rewrite H in Hn. Qed.

Lemma substitutions_split x : length x = 48%nat ->
  DES.substitutions DES.boxes x =
    DES.substitute (box_of 0) (chunk 0 x) ++ DES.substitute (box_of 1) (chunk 1 x) ++
    DES.substitute (box_of 2) (chunk 2 x) ++ DES.substitute (box_of 3) (chunk 3 x) ++
    DES.substitute (box_of 4) (chunk 4 x) ++ DES.substitute (box_of 5) (chunk 5 x) ++
    DES.substitute (box_of 6) (chunk 6 x) ++ DES.substitute (box_of 7) (chunk 7 x) ++ [].
Proof.
  intros _. unfold chunk, DES.boxes, box_of. cbn [DES.substitutions nth]. rewrite !drop_drop. reflexivity.
Qed.

Lemma rotl_num_permute_xors a b : length a = length b ->
  rotl (num (permute DES.P (xors a b))) 1 = rotl (num (permute DES.P a)) 1 .^ rotl (num (permute DES.P b)) 1.
Proof.
  intros H. rewrite permute_xors, num_xors by (rewrite ?length_permute; done).
  apply rotl_lxor; [lia|apply is_u32_num; apply length_permute..].
Qed.

(** The mixing function of the code is the function of the standard, in rotated words. *)
Lemma mix_is_f seeds i R K : key_in seeds i K = true -> length R = 32%nat ->
  mix seeds i (rotl (num R) 1) = rotl (num (DES.f R K)) 1.
Proof.
  intros HK HR. pose proof (fun k Hk => round_index seeds i K k R HK Hk HR) as E.
  assert (Hx : length (xors (permute DES.E R) K) = 48%nat).
  { apply andb_true_iff in HK as [HK _]. apply bool_decide_eq_true in HK. by rewrite length_xors; rewrite length_permute. }
  unfold DES.f. rewrite (substitutions_split _ Hx).
  set (x := xors (permute DES.E R) K) in *.
  rewrite concat_places by (rewrite !Forall_cons; auto 10 using length_substitute).
  assert (HS : forall k, (k < 8)%nat -> rotl (num (permute DES.P (place k (DES.substitute (box_of k) (chunk k x))))) 1 =
                                        nth_of (table_of k) (num (chunk k x))).
  { intros k Hk. symmetry. apply table_is_box; [done|]. by apply length_chunk. }
  rewrite !rotl_num_permute_xors
    by (repeat rewrite length_xors; rewrite ?length_place by (lia || apply length_substitute); reflexivity).
  rewrite !HS by lia. unfold mix.
  rewrite <- (E 0%nat), <- (E 1%nat), <- (E 2%nat), <- (E 3%nat), <- (E 4%nat), <- (E 5%nat), <- (E 6%nat), <- (E 7%nat) by lia.
  cbn [Nat.even index_shift table_of nth]. rewrite !Z.shiftr_0_r.
  apply Z.bits_inj'. intros n _. rewrite !Z.lxor_spec. btauto.
Qed.

Lemma length_f R K : length (DES.f R K) = 32%nat.
Proof. apply length_permute. Qed.

(** Two rounds are a turn of the code's loop. *)
Lemma two_rounds seeds i K K' L R : length L = 32%nat -> length R = 32%nat ->
  key_in seeds i K = true -> key_in seeds (i + 2) K' = true ->
  exists L' R', DES.feistel [K; K'] (L, R) = (L', R') /\ length L' = 32%nat /\ length R' = 32%nat /\
    let addr := rotl (num L) 1 .^ mix seeds i (rotl (num R) 1) in
    let val := rotl (num R) 1 .^ mix seeds (i + 2) addr in
    (addr, val) = (rotl (num L') 1, rotl (num R') 1).
Proof.
  intros HL HR HK HK'. exists (xors L (DES.f R K)), (xors R (DES.f (xors L (DES.f R K)) K')).
  assert (HL' : length (xors L (DES.f R K)) = 32%nat) by (by rewrite length_xors; rewrite ?length_f).
  assert (HX : forall a b, length a = 32%nat -> length b = 32%nat -> rotl (num a) 1 .^ rotl (num b) 1 = rotl (num (xors a b)) 1).
  { intros a b Ha Hb. rewrite num_xors, rotl_lxor by (done || lia || by apply is_u32_num || congruence). done. }
  split; [done|]. split; [done|]. split; [rewrite length_xors; rewrite ?length_f; done|]. cbv zeta.
  rewrite (mix_is_f _ _ _ _ HK HR), HX by (done || apply length_f).
  by rewrite (mix_is_f _ _ _ _ HK' HL'), HX by (done || apply length_f).
Qed.

Fixpoint schedule_in (seeds : list Z) (turns : list Z) (ks : list (list bool)) : bool :=
  match turns, ks with
  | [], [] => true
  | i :: turns, K :: K' :: ks => key_in seeds i K && key_in seeds (i + 2) K' && schedule_in seeds turns ks
  | _, _ => false
  end.

Lemma all_rounds seeds turns ks L R : length L = 32%nat -> length R = 32%nat -> schedule_in seeds turns ks = true ->
  exists L' R', DES.feistel ks (L, R) = (L', R') /\ length L' = 32%nat /\ length R' = 32%nat /\
    fold_left (fun '(addr, val) i =>
      let addr := addr .^ mix seeds i val in
      let val := val .^ mix seeds (i + 2) addr in (addr, val)) turns (rotl (num L) 1, rotl (num R) 1) =
    (rotl (num L') 1, rotl (num R') 1).
Proof.
  revert ks L R. induction turns as [|i turns IH]; intros ks L R HL HR Hs.
  - destruct ks; [|done]. by exists L, R.
  - destruct ks as [|K [|K' ks]]; [done..|]. cbn [schedule_in] in Hs.
    apply andb_true_iff in Hs as [[HK HK']%andb_true_iff Hs].
    destruct (two_rounds seeds i K K' L R HL HR HK HK') as (L1 & R1 & E & HL1 & HR1 & Em).
    destruct (IH ks L1 R1 HL1 HR1 Hs) as (L' & R' & E' & HL' & HR' & Em').
    exists L', R'. split; [|split; [done|split; [done|]]].
    + change (DES.feistel (K :: K' :: ks) (L, R)) with (DES.feistel ks (DES.feistel [K; K'] (L, R))). by rewrite E.
    + cbn [fold_left]. cbv zeta in Em |- *. rewrite Em. exact Em'.
Qed.

(** ** The cipher *)

(** The key of all codes. *)
Definition AR_key : Z := 0x341C849EFDA4B67B.
(** The eight bytes of the two words as they lie in the memory of a little-endian host. *)
Definition block_of (code : Z * Z) : Z := (swap32 (fst code) .<< 32) .| swap32 (snd code).
Definition code_of (block : Z) : Z * Z := (swap32 (block .>> 32), swap32 (u32 block)).

Lemma genseeds_schedule : schedule_in genseeds [0; 4; 8; 12; 16; 20; 24; 28] (rev (DES.keys AR_key)) = true.
Proof. vm_compute. reflexivity. Qed.

Lemma swap32_u32 x : is_u32 (swap32 x).
Proof. apply (from_be_lt (rev (to_be 4 x))), Forall_rev, to_be_u8. Qed.

Lemma split_join h l : is_u32 h -> is_u32 l -> split64 ((h .<< 32) .| l) = (h, l).
Proof.
  intros Hh Hl. rewrite lor_shiftl_add by (unfold is_u32 in *; lia). unfold split64. rewrite Z.shiftr_div_pow2 by lia.
  change (2 ^ 32) with 0x100000000. f_equal; zlia.
Qed.
Lemma join_range h l : is_u32 h -> is_u32 l -> 0 <= (h .<< 32) .| l < 2 ^ 64.
Proof. intros Hh Hl. rewrite lor_shiftl_add by (unfold is_u32 in *; lia). change (2 ^ 32) with 0x100000000. zlia. Qed.

Lemma num_app a b : num (a ++ b) = (num a .<< Z.of_nat (length b)) .| num b.
Proof.
  pose proof (num_range b). rewrite lor_shiftl_add by lia. induction a as [|x a IH]; [done|]. cbn [num app].
  rewrite IH, length_app, Nat2Z.inj_add, Z.pow_add_r by lia. lia.
Qed.

Lemma split_num o : length o = 64%nat -> split64 (num o) = (num (take 32 o), num (drop 32 o)).
Proof.
  intros Ho. rewrite <- (take_drop 32 o) at 1. rewrite num_app, length_drop, Ho.
  apply split_join; apply is_u32_num; rewrite ?length_take, ?length_drop; lia.
Qed.

Lemma last_permutation L R : length L = 32%nat -> length R = 32%nat ->
  Unscramble2 (rotl (num L) 1, rotl (num R) 1) =
    (num (drop 32 (permute DES.FP (R ++ L))), num (take 32 (permute DES.FP (R ++ L)))).
Proof.
  intros HL HR. pose proof (is_u32_num L HL) as HL'. pose proof (is_u32_num R HR) as HR'.
  pose proof (final_permutation _ (join_range _ _ HL' HR')) as Ef. unfold halves in Ef.
  pose proof (split_join _ _ HL' HR') as E. rewrite E in Ef. unfold on_val, on_addr in Ef. cbn [fst snd] in Ef. rewrite Ef.
  apply (f_equal fst) in E as E1. apply (f_equal snd) in E as E2. unfold split64 in E1, E2. cbn [fst snd] in E1, E2.
  by rewrite E1, E2, !bits_num.
Qed.

Lemma DecryptCode_crypt code : DecryptCode genseeds code = code_of (DES.decrypt AR_key (block_of code)).
Proof.
  pose proof (split_join _ _ (swap32_u32 (fst code)) (swap32_u32 (snd code))) as Hsplit.
  change (split64 (block_of code) = GetCode code) in Hsplit.
  pose proof (join_range _ _ (swap32_u32 (fst code)) (swap32_u32 (snd code))) as Hz.
  change (0 <= block_of code < 2 ^ 64) in Hz.
  unfold DecryptCode, DES.decrypt, DES.crypt. rewrite <- Hsplit, initial_permutation by done.
  set (b := permute DES.IP (bits 64 (block_of code))).
  assert (Hb : length b = 64%nat) by apply length_permute.
  destruct (all_rounds genseeds _ _ (take 32 b) (drop 32 b) ltac:(rewrite length_take; lia) ltac:(rewrite length_drop; lia)
              genseeds_schedule) as (L & R & E & HL & HR & Em).
  change (rounds genseeds (rotl (num (take 32 b)) 1, rotl (num (drop 32 b)) 1) = (rotl (num L) 1, rotl (num R) 1)) in Em.
  rewrite E, Em, last_permutation by done.
  pose proof (split_num (permute DES.FP (R ++ L)) (length_permute _ _)) as Eo.
  unfold code_of. change (u32 ?z) with (snd (split64 z)). change (?z .>> 32) with (fst (split64 z)). by rewrite Eo.
Qed.

(** C7. Decrypting a pair of words is decrypting the block of its eight bytes with
    the Data Encryption Standard, under one fixed key. *)
Theorem DecryptCode_is_DES code : DecryptCode genseeds code = code_of (DES.decrypt AR_key (block_of code)).
Proof. exact (DecryptCode_crypt code). Qed.

(** ** Encryption *)

Lemma permute_IP_FP b : length b = 64%nat -> permute DES.IP (permute DES.FP b) = b.
Proof. intros Hb. do 64 (destruct b as [|? b]; [done|]). destruct b; [|done]. reflexivity. Qed.
Lemma permute_FP_IP b : length b = 64%nat -> permute DES.FP (permute DES.IP b) = b.
Proof. intros Hb. do 64 (destruct b as [|? b]; [done|]). destruct b; [|done]. reflexivity. Qed.

Lemma feistel_lengths ks L R : length L = 32%nat -> length R = 32%nat ->
  length (fst (DES.feistel ks (L, R))) = 32%nat /\ length (snd (DES.feistel ks (L, R))) = 32%nat.
Proof.
  revert L R. induction ks as [|K ks IH]; intros L R HL HR; [done|].
  apply (IH R (xors L (DES.f R K))); [done|]. by rewrite length_xors; rewrite ?length_f.
Qed.

(** The rounds undo themselves with the keys reversed and the halves exchanged. *)
Lemma feistel_rev ks L R : length L = 32%nat -> length R = 32%nat ->
  DES.feistel (rev ks) (snd (DES.feistel ks (L, R)), fst (DES.feistel ks (L, R))) = (R, L).
Proof.
  revert L R. induction ks as [|K ks IH]; intros L R HL HR; [done|].
  change (DES.feistel (K :: ks) (L, R)) with (DES.feistel ks (R, xors L (DES.f R K))).
  cbn [rev]. unfold DES.feistel at 1. rewrite fold_left_app. fold (DES.feistel (rev ks)).
  assert (HX : length (xors L (DES.f R K)) = 32%nat) by (by rewrite length_xors; rewrite ?length_f).
  change (fold_left _ (rev ks) ?p) with (DES.feistel (rev ks) p). rewrite IH by done.
  cbn [fold_left]. by rewrite xors_cancel by (by rewrite length_f).
Qed.

Lemma crypt_rev ks z : 0 <= z < 2 ^ 64 -> DES.crypt (rev ks) (DES.crypt ks z) = z.
Proof.
  intros Hz. unfold DES.crypt at 2. set (b := permute DES.IP (bits 64 z)).
  assert (Hb : length b = 64%nat) by apply length_permute.
  assert (H1 : length (take 32 b) = 32%nat) by (rewrite length_take; lia).
  assert (H2 : length (drop 32 b) = 32%nat) by (rewrite length_drop; lia).
  pose proof (feistel_rev ks _ _ H1 H2) as E. destruct (feistel_lengths ks _ _ H1 H2) as [HL HR].
  destruct (DES.feistel ks (take 32 b, drop 32 b)) as [L R]. cbn [fst snd] in *.
  unfold DES.crypt. rewrite bits_num by apply length_permute.
  rewrite permute_IP_FP by (rewrite length_app; lia). rewrite take_app_length', drop_app_length' by done.
  rewrite E, take_drop. unfold b. rewrite permute_FP_IP by apply length_bits. by apply num_bits.
Qed.

Lemma swap32_swap32 x : is_u32 x -> swap32 (swap32 x) = x.
Proof.
  intros Hx. unfold swap32. rewrite (to_be_from_be (rev (to_be 4 x)) 4);
    [|apply Forall_rev, to_be_u8|by rewrite length_rev, length_to_be].
  rewrite rev_involutive, from_to_be. by apply Z.mod_small.
Qed.

Definition EncryptCode (code : Z * Z) : Z * Z := code_of (DES.encrypt AR_key (block_of code)).

Lemma crypt_range ks z : 0 <= DES.crypt ks z < 2 ^ 64.
Proof. unfold DES.crypt. destruct (DES.feistel _ _) as [L R]. pose proof (num_range (permute DES.FP (R ++ L))) as H. by rewrite length_permute in H. Qed.

Lemma block_of_code z : 0 <= z < 2 ^ 64 -> block_of (code_of z) = z.
Proof.
  intros Hz. destruct (split64_ok z Hz) as [H1 H2]. unfold block_of, code_of. cbn [fst snd] in *.
  change (z .>> 32) with (fst (split64 z)). change (u32 z) with (snd (split64 z)). rewrite !swap32_swap32 by done.
  rewrite lor_shiftl_add by (try done; lia). unfold split64. cbn [fst snd]. rewrite Z.shiftr_div_pow2 by lia. zlia.
Qed.
Lemma code_of_block code : ok2 code -> code_of (block_of code) = code.
Proof.
  intros [H1 H2]. unfold code_of. change (u32 ?z) with (snd (split64 z)). change (?z .>> 32) with (fst (split64 z)).
  unfold block_of. rewrite split_join by apply swap32_u32. cbn [fst snd]. rewrite !swap32_swap32 by done. by destruct code.
Qed.

Lemma EncryptCode_ok code : ok2 (EncryptCode code).
Proof. split; apply swap32_u32. Qed.

Lemma decrypt_encrypt code : ok2 code -> DecryptCode genseeds (EncryptCode code) = code.
Proof.
  intros H. rewrite DecryptCode_crypt. unfold EncryptCode. rewrite block_of_code by apply crypt_range.
  unfold DES.decrypt, DES.encrypt. rewrite crypt_rev; [by apply code_of_block|].
  apply (join_range _ _ (swap32_u32 (fst code)) (swap32_u32 (snd code))).
Qed.

(** ** Lines of letters and digits *)

Definition parity (a b : Z) : Z := popcount (a .^ b) .& 1.
Definition digit_of (d : Z) : ascii := nth (Z.to_nat d) filter_text zero.
(** The 65 bits of two words and their parity, five to a digit. *)
Definition digits (a b : Z) : list Z :=
  map (fun i => (a * 2 ^ 33 + b * 2 + parity a b) / 32 ^ i mod 32) [12; 11; 10; 9; 8; 7; 6; 5; 4; 3; 2; 1; 0].
Definition line_of (code : Z * Z) : text := map digit_of (digits (fst code) (snd code)).

Lemma digits_check : forallb (fun d => bool_decide (GetVal (digit_of d) = Some d)) (seqZ 0 32) = true.
Proof. vm_compute. reflexivity. Qed.

Lemma GetVal_digit d : 0 <= d < 32 -> GetVal (digit_of d) = Some d.
Proof.
  intros Hd. pose proof digits_check as H. rewrite forallb_forall in H.
  specialize (H d). rewrite bool_decide_eq_true in H. apply H, list_elem_of_In, elem_of_seqZ. lia.
Qed.

Lemma GetVal_line ds : Forall (fun d => 0 <= d < 32) ds -> mapM GetVal (map digit_of ds) = Some ds.
Proof.
  induction 1 as [|d ds Hd _ IH]; [done|]. cbn [map mapM]. rewrite GetVal_digit by done. cbn [base.mbind option_bind].
  by rewrite IH.
Qed.

Lemma parity_range a b : 0 <= parity a b < 2.
Proof. unfold parity. rewrite (land_ones_mod 1) by done. apply Z.mod_pos_bound. lia. Qed.

Lemma lor_low_first a k x : 0 <= k -> 0 <= a < 2 ^ k -> a .| (x .<< k) = x * 2 ^ k + a.
Proof. intros Hk Ha. rewrite Z.lor_comm. by apply lor_shiftl_add. Qed.

Lemma lor_chain l x0 x1 x2 x3 x4 x5 :
  l .| x0 .| x1 .| x2 .| x3 .| x4 .| x5 = x0 .| (x1 .| (x2 .| (x3 .| (x4 .| (x5 .| l))))).
Proof. apply Z.bits_inj'. intros n _. rewrite !Z.lor_spec. btauto. Qed.

Lemma value_a_digits d0 d1 d2 d3 d4 d5 d6 d7 d8 d9 d10 d11 d12 :
  Forall (fun d => 0 <= d < 32) [d0; d1; d2; d3; d4; d5; d6; d7; d8; d9; d10; d11; d12] ->
  value_a [d0; d1; d2; d3; d4; d5; d6; d7; d8; d9; d10; d11; d12] =
    d0 * 2 ^ 27 + d1 * 2 ^ 22 + d2 * 2 ^ 17 + d3 * 2 ^ 12 + d4 * 2 ^ 7 + d5 * 2 ^ 2 + d6 / 8.
Proof.
  rewrite !Forall_cons. intros H.
  change (value_a _) with ((d6 .>> 3) .| u32 (d0 .<< 27) .| u32 (d1 .<< 22) .| u32 (d2 .<< 17) .| u32 (d3 .<< 12)
    .| u32 (d4 .<< 7) .| u32 (d5 .<< 2)).
  rewrite !u32_id by (unfold is_u32; rewrite Z.shiftl_mul_pow2 by lia; lia).
  rewrite Z.shiftr_div_pow2, lor_chain by lia. change (2 ^ 3) with 8.
  assert (0 <= d6 / 8 < 4) by zlia.
  rewrite (lor_shiftl_add 2), (lor_shiftl_add 7), (lor_shiftl_add 12), (lor_shiftl_add 17), (lor_shiftl_add 22),
    (lor_shiftl_add 27) by lia. lia.
Qed.

Lemma value_b_digits d0 d1 d2 d3 d4 d5 d6 d7 d8 d9 d10 d11 d12 :
  Forall (fun d => 0 <= d < 32) [d0; d1; d2; d3; d4; d5; d6; d7; d8; d9; d10; d11; d12] ->
  value_b [d0; d1; d2; d3; d4; d5; d6; d7; d8; d9; d10; d11; d12] =
    d6 mod 8 * 2 ^ 29 + d7 * 2 ^ 24 + d8 * 2 ^ 19 + d9 * 2 ^ 14 + d10 * 2 ^ 9 + d11 * 2 ^ 4 + d12 / 2.
Proof.
  rewrite !Forall_cons. intros H.
  change (value_b _) with ((d12 .>> 1) .| u32 (d6 .<< 29) .| u32 (d7 .<< 24) .| u32 (d8 .<< 19) .| u32 (d9 .<< 14)
    .| u32 (d10 .<< 9) .| u32 (d11 .<< 4)).
  assert (E : u32 (d6 .<< 29) = d6 mod 8 .<< 29) by (rewrite !Z.shiftl_mul_pow2 by lia; change (2 ^ 29) with 0x20000000; zlia).
  rewrite E, !(u32_id (_ .<< _)) by (unfold is_u32; rewrite Z.shiftl_mul_pow2 by lia; lia).
  rewrite Z.shiftr_div_pow2, lor_chain by lia. change (2 ^ 1) with 2.
  assert (0 <= d12 / 2 < 16) by zlia. assert (0 <= d6 mod 8 < 8) by zlia.
  rewrite (lor_shiftl_add 4), (lor_shiftl_add 9), (lor_shiftl_add 14), (lor_shiftl_add 19), (lor_shiftl_add 24),
    (lor_shiftl_add 29) by lia. lia.
Qed.

Lemma digit_step N k j : 0 <= k -> j = k + 1 -> N / 32 ^ k = 32 * (N / 32 ^ j) + N / 32 ^ k mod 32.
Proof.
  intros Hk ->. rewrite Z.pow_add_r, <- Z.div_div by lia. change (32 ^ 1) with 32. apply Z.div_mod. lia.
Qed.

(** The digits of a number of 65 bits. *)
Lemma digit_sum N : 0 <= N < 2 ^ 65 ->
  N = N / 32 ^ 12 mod 32 * 32 ^ 12 + N / 32 ^ 11 mod 32 * 32 ^ 11 + N / 32 ^ 10 mod 32 * 32 ^ 10 + N / 32 ^ 9 mod 32 * 32 ^ 9 +
    N / 32 ^ 8 mod 32 * 32 ^ 8 + N / 32 ^ 7 mod 32 * 32 ^ 7 + N / 32 ^ 6 mod 32 * 32 ^ 6 + N / 32 ^ 5 mod 32 * 32 ^ 5 +
    N / 32 ^ 4 mod 32 * 32 ^ 4 + N / 32 ^ 3 mod 32 * 32 ^ 3 + N / 32 ^ 2 mod 32 * 32 ^ 2 + N / 32 ^ 1 mod 32 * 32 +
    N / 32 ^ 0 mod 32.
Proof.
  intros HN. pose proof (digit_step N 0 1 ltac:(lia) eq_refl). pose proof (digit_step N 1 2 ltac:(lia) eq_refl).
  pose proof (digit_step N 2 3 ltac:(lia) eq_refl). pose proof (digit_step N 3 4 ltac:(lia) eq_refl).
  pose proof (digit_step N 4 5 ltac:(lia) eq_refl). pose proof (digit_step N 5 6 ltac:(lia) eq_refl).
  pose proof (digit_step N 6 7 ltac:(lia) eq_refl). pose proof (digit_step N 7 8 ltac:(lia) eq_refl).
  pose proof (digit_step N 8 9 ltac:(lia) eq_refl). pose proof (digit_step N 9 10 ltac:(lia) eq_refl).
  pose proof (digit_step N 10 11 ltac:(lia) eq_refl). pose proof (digit_step N 11 12 ltac:(lia) eq_refl).
  rewrite (Z.mod_small (N / 32 ^ 12)) by (split; [apply Z.div_pos|apply Z.div_lt_upper_bound]; lia).
  assert (E0 : N / 32 ^ 0 = N) by apply Z.div_1_r. lia.
Qed.

(** Two words and a bit are determined by what they add up to. *)
Lemma fields_unique a b p d0 d1 d2 d3 d4 d5 d6 d7 d8 d9 d10 d11 d12 : is_u32 a -> is_u32 b -> 0 <= p < 2 ->
  Forall (fun d => 0 <= d < 32) [d0; d1; d2; d3; d4; d5; d6; d7; d8; d9; d10; d11; d12] ->
  a * 2 ^ 33 + b * 2 + p = d0 * 32 ^ 12 + d1 * 32 ^ 11 + d2 * 32 ^ 10 + d3 * 32 ^ 9 + d4 * 32 ^ 8 + d5 * 32 ^ 7 +
    d6 * 32 ^ 6 + d7 * 32 ^ 5 + d8 * 32 ^ 4 + d9 * 32 ^ 3 + d10 * 32 ^ 2 + d11 * 32 + d12 ->
  d0 * 2 ^ 27 + d1 * 2 ^ 22 + d2 * 2 ^ 17 + d3 * 2 ^ 12 + d4 * 2 ^ 7 + d5 * 2 ^ 2 + d6 / 8 = a /\
  d6 mod 8 * 2 ^ 29 + d7 * 2 ^ 24 + d8 * 2 ^ 19 + d9 * 2 ^ 14 + d10 * 2 ^ 9 + d11 * 2 ^ 4 + d12 / 2 = b /\
  d12 mod 2 = p.
Proof. rewrite !Forall_cons. intros Ha Hb Hp H E. zlia. Qed.

(** The digits of the number are the fields the two words are put together from. *)
Lemma line_values a b : is_u32 a -> is_u32 b ->
  Forall (fun d => 0 <= d < 32) (digits a b) /\ length (digits a b) = 13%nat /\
  value_a (digits a b) = a /\ value_b (digits a b) = b /\ nth_of (digits a b) 12 .& 1 = parity a b.
Proof.
  intros Ha Hb. pose proof (parity_range a b) as Hp.
  assert (HF : Forall (fun d => 0 <= d < 32) (digits a b)).
  { apply Forall_map, Forall_forall. intros i _. apply Z.mod_pos_bound. lia. }
  split; [exact HF|]. split; [done|]. unfold digits in *. cbn [map] in *.
  rewrite value_a_digits, value_b_digits by exact HF. change (nth_of _ 12) with ((a * 2 ^ 33 + b * 2 + parity a b) / 32 ^ 0 mod 32).
  rewrite (land_ones_mod 1) by done. apply fields_unique; [done..|exact HF|].
  apply digit_sum. unfold is_u32 in *. lia.
Qed.

Lemma convert_line code lines result i : ok2 code ->
  convert_lines (line_of code :: lines) result i = convert_lines lines (result ++ [fst code; snd code]) (i + 1).
Proof.
  intros [Ha Hb]. destruct (line_values _ _ Ha Hb) as (HF & Hl & Ea & Eb & Ep). cbn [convert_lines].
  unfold line_of at 1. rewrite length_map, Hl. change (Z.of_nat 13 =? 13) with true. cbn [negb].
  unfold line_of. rewrite GetVal_line by done. cbn [base.mbind option_bind]. cbv zeta.
  rewrite Ea, Eb, Ep. unfold parity. rewrite Z.eqb_refl. done.
Qed.

Lemma convert_lines_of codes : Forall ok2 codes ->
  ConvertAlphaToBinary (map line_of codes) = Some (inl (words_of_pairs codes)).
Proof.
  intros H. enough (E : forall result i, convert_lines (map line_of codes) result i = Some (inl (result ++ words_of_pairs codes)))
    by apply (E []).
  induction H as [|code codes Hc _ IH]; intros result i; [cbn; by rewrite app_nil_r|].
  cbn [map]. rewrite convert_line by done. rewrite IH, <- app_assoc. by destruct code.
Qed.

(** ** The verification code *)

Lemma get_bits_run len ctrl tmp out : 0 <= out -> 0 <= ctrl1 ctrl < ctrl3 ctrl -> 0 <= ctrl2 ctrl ->
  ctrl2 ctrl + Z.of_nat len <= 32 -> (out + 1) * 2 ^ Z.of_nat len <= 2 ^ 32 -> 0 <= tmp ->
  get_bits len ctrl tmp out =
    (true, mkReader (ctrl0 ctrl) (ctrl1 ctrl) (ctrl2 ctrl + Z.of_nat len) (ctrl3 ctrl),
     out * 2 ^ Z.of_nat len + tmp / 2 ^ (32 - ctrl2 ctrl - Z.of_nat len) mod 2 ^ Z.of_nat len).
Proof.
  destruct ctrl as [c0 c1 c2 c3]. cbn [ctrl0 ctrl1 ctrl2 ctrl3]. intros Ho H1 H2 Hl Hs Ht.
  revert out c2 Ho H2 Hl Hs. induction len as [|len IH]; intros out c2 Ho H2 Hl Hs.
  { cbn [get_bits]. rewrite Z.mod_1_r. do 2 f_equal; [f_equal|]; lia. }
  cbn [get_bits ctrl0 ctrl1 ctrl2 ctrl3]. rewrite (proj2 (Z.ltb_ge 0x1F c2)) by lia. cbn [ctrl0 ctrl1 ctrl2 ctrl3].
  rewrite (proj2 (Z.leb_gt c3 c1)) by lia. rewrite Nat2Z.inj_succ, Z.pow_succ_r in * by lia.
  assert (Hp : 0 < 2 ^ Z.of_nat len) by (apply Z.pow_pos_nonneg; lia).
  assert (Hout : out < 2 ^ 31) by nia.
  set (bit := (tmp .>> (0x1F - c2)) .& 1).
  assert (Hbit : bit = tmp / 2 ^ (31 - c2) mod 2) by (unfold bit; by rewrite (land_ones_mod 1), Z.shiftr_div_pow2 by lia).
  assert (Eo : u32 (out .<< 1) .| bit = 2 * out + bit).
  { rewrite u32_id by (unfold is_u32; rewrite Z.shiftl_mul_pow2; lia). rewrite lor_shiftl_add; [lia|lia|].
    rewrite Hbit. apply Z.mod_pos_bound. lia. }
  rewrite Eo, u32_id by (unfold is_u32; lia).
  assert (Hb : 0 <= bit < 2) by (rewrite Hbit; apply Z.mod_pos_bound; lia).
  rewrite IH by (lia || nia). f_equal; [do 2 f_equal; lia|].
  replace (32 - c2 - Z.succ (Z.of_nat len)) with (32 - (c2 + 1) - Z.of_nat len) by lia.
  set (q := tmp / 2 ^ (32 - (c2 + 1) - Z.of_nat len)).
  assert (Eb : bit = q / 2 ^ Z.of_nat len mod 2).
  { rewrite Hbit. subst q. rewrite Z.div_div, <- Z.pow_add_r by (try apply Z.pow_nonzero; lia). do 3 f_equal. lia. }
  rewrite (Z.mul_comm 2 (2 ^ _)), Z.rem_mul_r, <- Eb by lia. ring.
Qed.

(** ** Whole codes *)

Definition pair_of (e : AREntry) : Z * Z := (cmd_addr e, value e).
Definition entry_ok (e : AREntry) : Prop := is_u32 (cmd_addr e) /\ is_u32 (value e).
(** The pairs of a code: the verification code with its check sum, and the entries. *)
Definition seal (header : Z * Z) (entries : list AREntry) : list (Z * Z) :=
  let words := words_of_pairs (header :: map pair_of entries) in
  ((VerifyCode words .<< 28) .| fst header, snd header) :: map pair_of entries.
Definition encrypt_lines (header : Z * Z) (entries : list AREntry) : list text :=
  map (fun code => line_of (EncryptCode code)) (seal header entries).

Lemma pairs_of_words ps : pairs_of (words_of_pairs ps) = ps.
Proof. induction ps as [|[a v] ps IH]; [done|].
  change (words_of_pairs ((a, v) :: ps)) with (a :: v :: words_of_pairs ps). cbn [pairs_of]. by rewrite IH. Qed.

Lemma entries_of_pairs entries : entries_of (words_of_pairs (map pair_of entries)) = entries.
Proof.
  unfold entries_of. rewrite pairs_of_words. induction entries as [|[] entries IH]; [done|]. cbn [map]. by rewrite IH.
Qed.

Lemma VerifyCode_range codes : 0 <= VerifyCode codes < 16.
Proof. unfold VerifyCode. rewrite (land_ones_mod 4) by done. apply Z.mod_pos_bound. lia. Qed.

Lemma seal_ok header entries : 0 <= fst header < 2 ^ 28 -> is_u32 (snd header) -> Forall entry_ok entries ->
  Forall ok2 (seal header entries).
Proof.
  intros H1 H2 He. constructor.
  - split; [|done]. cbn [fst]. pose proof (VerifyCode_range (words_of_pairs (header :: map pair_of entries))) as Hv.
    rewrite lor_shiftl_add by lia. unfold is_u32. lia.
  - apply Forall_map. by induction He; constructor.
Qed.

Lemma decrypt_seal header entries : 0 <= fst header < 2 ^ 28 -> is_u32 (snd header) -> Forall entry_ok entries ->
  map (DecryptCode genseeds) (map EncryptCode (seal header entries)) = seal header entries.
Proof.
  intros H1 H2 He. rewrite map_map. rewrite <- (map_id (seal header entries)) at 2.
  apply map_ext_in. intros code Hc. apply decrypt_encrypt.
  pose proof (seal_ok header entries H1 H2 He) as Hok. rewrite Forall_forall in Hok. by apply Hok, list_elem_of_In.
Qed.

Lemma GetBitString_within c0 c1 c2 c3 len : 0 <= c1 < c3 -> 0 <= c2 -> c2 + Z.of_nat len <= 32 ->
  GetBitString (mkReader c0 c1 c2 c3) len =
    (true, mkReader c0 c1 (c2 + Z.of_nat len) c3,
     u32 (c0 + u32 (c1 .<< 2)) / 2 ^ (32 - c2 - Z.of_nat len) mod 2 ^ Z.of_nat len).
Proof.
  intros H1 H2 Hl. unfold GetBitString. rewrite get_bits_run; [done| |done|done|done| |].
  - lia.
  - pose proof (Z.pow_le_mono_r 2 (Z.of_nat len) 32 ltac:(lia) ltac:(lia)). lia.
  - apply is_u32_u32.
Qed.
(** At the end of a word the reader goes on to the next. *)
Lemma GetBitString_next c0 c1 c3 len : GetBitString (mkReader c0 c1 32 c3) (S len) =
  GetBitString (mkReader c0 (u32 (c1 + 1)) 0 c3) (S len).
Proof. reflexivity. Qed.

(** What the five reads of a verification code give. *)
Lemma read_verification c0 size : 0 <= c0 < 2 ^ 28 -> 2 <= size ->
  let '(_, r1, game) := GetBitString (mkReader c0 0 4 size) 11 in
  let '(_, r2, _) := GetBitString r1 17 in
  let '(_, r3, _) := GetBitString r2 1 in
  let '(_, r4, _) := GetBitString r3 1 in
  let '(_, _, reg) := GetBitString r4 2 in
  game = c0 / 2 ^ 17 /\ reg = (c0 + 4) / 2 ^ 28.
Proof.
  intros Hc Hs. rewrite GetBitString_within by lia. change (4 + Z.of_nat 11) with 15.
  rewrite GetBitString_within by lia. change (15 + Z.of_nat 17) with 32.
  rewrite GetBitString_next. change (u32 (0 + 1)) with 1. rewrite GetBitString_within by lia. change (0 + Z.of_nat 1) with 1.
  rewrite GetBitString_within by lia. change (1 + Z.of_nat 1) with 2. rewrite GetBitString_within by lia.
  change (u32 (0 .<< 2)) with 0. change (u32 (1 .<< 2)) with 4. rewrite !u32_id by (unfold is_u32; lia). rewrite Z.add_0_r.
  change (32 - 4 - Z.of_nat 11) with 17. change (32 - 2 - Z.of_nat 2) with 28. change (2 ^ Z.of_nat 11) with 2048.
  change (2 ^ Z.of_nat 2) with 4. change (2 ^ 17) with 131072. change (2 ^ 28) with 268435456 in *. zlia.
Qed.

Lemma words_cons p ps : words_of_pairs (p :: ps) = fst p :: snd p :: words_of_pairs ps.
Proof. by destruct p. Qed.
Lemma nth_of_head a l : nth_of (a :: l) 0 = a.
Proof. done. Qed.

Lemma sealed_word v c : 0 <= v < 16 -> 0 <= c < 2 ^ 28 ->
  ((v .<< 28) .| c) .& 0x0FFFFFFF = c /\ ((v .<< 28) .| c) .>> 28 = v.
Proof.
  intros Hv Hc. rewrite lor_shiftl_add, (land_ones_mod 28), Z.shiftr_div_pow2 by (done || lia).
  change (2 ^ 28) with 268435456 in *. zlia.
Qed.

(** C16. Every code can be encrypted, and decrypting its lines gives the entries
    and the game it is for.  The region is not what was written: the bits it is
    read from are those of the first word plus four, not of the second word. *)
Theorem sealed_codes_decrypt header entries :
  0 <= fst header < 2 ^ 28 -> is_u32 (snd header) -> Forall entry_ok entries ->
  DecryptARCode (encrypt_lines header entries) =
    Some (Some (mkGameIDAndRegion (fst header / 2 ^ 17) ((fst header + 4) / 2 ^ 28)), entries).
Proof.
  intros H1 H2 He. unfold DecryptARCode, encrypt_lines. rewrite decide_False by done.
  rewrite <- (map_map EncryptCode line_of).
  rewrite convert_lines_of by (apply Forall_map, Forall_forall; intros; apply EncryptCode_ok).
  cbn [base.mbind option_bind]. unfold BatchDecrypt. rewrite pairs_of_words, decrypt_seal by done. unfold seal.
  rewrite words_cons. cbv zeta. rewrite nth_of_head. cbn [fst snd].
  set (v := VerifyCode (words_of_pairs (header :: map pair_of entries))).
  destruct (sealed_word v (fst header) (VerifyCode_range _) H1) as [Em Es]. rewrite Em, Es.
  change (<[0%nat:=fst header]> (_ :: snd header :: words_of_pairs (map pair_of entries)))
    with (fst header :: snd header :: words_of_pairs (map pair_of entries)).
  rewrite <- words_cons. fold v. rewrite Z.eqb_refl. cbn [negb]. rewrite words_cons, nth_of_head.
  pose proof (read_verification (fst header) (Z.of_nat (length (fst header :: snd header :: words_of_pairs (map pair_of entries)))) H1) as Hr.
  repeat (destruct (GetBitString _ _) as [[? ?] ?]). 
  destruct Hr as [-> ->]; [simpl; lia|]. rewrite skipn_cons, skipn_cons, skipn_O. by rewrite entries_of_pairs.
Qed.

(** The lines of a code for game 5 with two entries. *)
Definition sample_lines : list text := map text_of ["TYFWZ1313ZY0V"; "ZZHF4YM9NE8YA"; "E9FZA3QAYCERP"]%string.

Lemma sealed_codes_decrypt_witness : DecryptARCode sample_lines =
  Some (Some (mkGameIDAndRegion 5 0), [mkAREntry 0x04001000 1; mkAREntry 0 0x40000000]).
Proof.
  assert (E : sample_lines = encrypt_lines (5 * 2 ^ 17 + 9, 0x12345678) [mkAREntry 0x04001000 1; mkAREntry 0 0x40000000])
    by (vm_compute; reflexivity).
  rewrite E. apply (sealed_codes_decrypt (5 * 2 ^ 17 + 9, 0x12345678)).
  - cbn. lia.
  - cbn. unfold is_u32. lia.
  - repeat constructor; cbn; lia.
Defined.
