(* ===== verification/ActionReplay.v ===== *)
(** * Action Replay codes (Core/ActionReplay.cpp, Core/CheatCodes.h, Common/IniFile.cpp)

    The small machine that runs codes, over the memory the CPU sees; the lists of
    codes; reading codes from and writing them to the sections of a game's
    settings.  Log messages are left out.  The host's floating-point addition and
    the hexadecimal output of the formatting library are arguments. *)
From S2P Require Export ARDecrypt PPCCpu PPCBat.

Record ARCode := mkARCode {
  name : text;
  ops : list AREntry;
  enabled : bool;
  default_enabled : bool;
  user_defined : bool
}.
Definition empty_ARCode : ARCode := mkARCode [] [] false false false.
Definition set_enabled (b : bool) (c : ARCode) : ARCode :=
  mkARCode (name c) (ops c) b (default_enabled c) (user_defined c).
Definition set_ops (o : list AREntry) (c : ARCode) : ARCode :=
  mkARCode (name c) o (enabled c) (default_enabled c) (user_defined c).
Definition set_name (n : text) (user : bool) (c : ARCode) : ARCode :=
  mkARCode n (ops c) (enabled c) (default_enabled c) user.
Definition set_default_enabled (b : bool) (c : ARCode) : ARCode :=
  mkARCode (name c) (ops c) (enabled c) b (user_defined c).

(** ** Constants *)

Definition ZCODE_END : Z := 0x00.
Definition ZCODE_NORM : Z := 0x02.
Definition ZCODE_ROW : Z := 0x03.
Definition ZCODE_04 : Z := 0x04.
Definition CONDTIONAL_EQUAL : Z := 0x01.
Definition CONDTIONAL_NOT_EQUAL : Z := 0x02.
Definition CONDTIONAL_LESS_THAN_SIGNED : Z := 0x03.
Definition CONDTIONAL_GREATER_THAN_SIGNED : Z := 0x04.
Definition CONDTIONAL_LESS_THAN_UNSIGNED : Z := 0x05.
Definition CONDTIONAL_GREATER_THAN_UNSIGNED : Z := 0x06.
Definition CONDTIONAL_AND : Z := 0x07.
Definition CONDTIONAL_ONE_LINE : Z := 0x00.
Definition CONDTIONAL_TWO_LINES : Z := 0x01.
Definition CONDTIONAL_ALL_LINES_UNTIL : Z := 0x02.
Definition CONDTIONAL_ALL_LINES : Z := 0x03.
Definition DATATYPE_8BIT : Z := 0x00.
Definition DATATYPE_16BIT : Z := 0x01.
Definition DATATYPE_32BIT : Z := 0x02.
Definition DATATYPE_32BIT_FLOAT : Z := 0x03.
Definition SUB_RAM_WRITE : Z := 0x00.
Definition SUB_WRITE_POINTER : Z := 0x01.
Definition SUB_ADD_CODE : Z := 0x02.
Definition SUB_MASTER_CODE : Z := 0x03.

(** The fields of [ARAddr]. *)
Definition gcaddr (address : Z) : Z := address .& 0x1FFFFFF.
Definition ar_size (address : Z) : Z := (address .>> 25) .& 3.
Definition ar_type (address : Z) : Z := (address .>> 27) .& 7.
Definition subtype (address : Z) : Z := (address .>> 30) .& 3.
Definition GCAddress (address : Z) : Z := gcaddr address .| 0x80000000.

(** [for (u32 i = start; count times; ++i) body(i)] *)
Fixpoint repeat_from {S} (body : Z -> M S unit) (count : nat) (i : Z) : M S unit :=
  match count with O => mret tt | S count => body i ;;; repeat_from body count (i + 1) end.

Section ActionReplay.
Context {W : Type} {D : Devices W}.
(** [bit_cast<u32>(bit_cast<float>(read) + static_cast<float>(data))] *)
Context (float_add : Z -> Z -> Z).

(** ** Patching memory ([Core/Debugger/PPCDebugInterface.cpp]) *)

Definition HostRead (n : nat) (address : Z) : M (Machine W) Z := ReadFromHardware XCheckTLBFlag.NoException n address.
Definition HostWrite (n : nat) (var address : Z) : M (Machine W) unit :=
  WriteToHardware XCheckTLBFlag.NoException address var n.

(** The bytes already passed, as the call leaves them, are [done]. *)
Fixpoint patch_bytes (store_existing_value : bool) (address offset : Z) (done value : list Z) (should_invalidate_cache : bool) :
    M (Machine W) (list Z * bool) :=
  match value with
  | [] => mret (done, should_invalidate_cache)
  | v :: value =>
      let here := u32 (address + offset) in
      old_value <- HostRead 1 here ;;
      mwhen (negb (old_value =? v)) (HostWrite 1 v here) ;;;
      let should_invalidate_cache := should_invalidate_cache || negb (old_value =? v) in
      let kept := if negb (old_value =? v) && store_existing_value then old_value else v in
      let boundary := here mod 4 =? 3 in
      mwhen (boundary && should_invalidate_cache) (InvalidateCache (AlignDown here 4)) ;;;
      patch_bytes store_existing_value address (offset + 1) (done ++ [kept]) value (negb boundary && should_invalidate_cache)
  end.
(** The bytes, which are exchanged with those of memory if the old value is stored. *)
Definition ApplyMemoryPatch_bytes (value : list Z) (address : Z) (store_existing_value : bool) : M (Machine W) (list Z) :=
  if decide (value = []) then mret value
  else
    ok <- HostIsRAMAddress address Effective ;;
    if negb ok then mret value
    else
      r <- patch_bytes store_existing_value address 0 [] value false ;;
      mwhen (snd r) (InvalidateCache (AlignDown (u32 (address + Z.of_nat (length value) - 1)) 4)) ;;;
      mret (fst r).
(** [ApplyMemoryPatch<T>], for a [T] of [n] bytes. *)
Definition ApplyMemoryPatch (n : nat) (value address : Z) : M (Machine W) unit :=
  ApplyMemoryPatch_bytes (to_be n value) address true ;;; mret tt.

(** ** Normal codes.  The result is whether the code may go on. *)

Definition Subtype_RamWriteAndFill (addr data : Z) : M (Machine W) bool :=
  let new_addr := GCAddress addr in
  if ar_size addr =? DATATYPE_8BIT then
    let repeat := data .>> 8 in
    repeat_from (fun i => ApplyMemoryPatch 1 (u8 data) (u32 (new_addr + i))) (Z.to_nat (repeat + 1)) 0 ;;;
    mret true
  else if ar_size addr =? DATATYPE_16BIT then
    let repeat := data .>> 16 in
    repeat_from (fun i => ApplyMemoryPatch 2 (u16 data) (u32 (new_addr + i * 2))) (Z.to_nat (repeat + 1)) 0 ;;;
    mret true
  else if (ar_size addr =? DATATYPE_32BIT_FLOAT) || (ar_size addr =? DATATYPE_32BIT) then
    ApplyMemoryPatch 4 data new_addr ;;; mret true
  else mret false.

Definition Subtype_WriteToPointer (addr data : Z) : M (Machine W) bool :=
  let new_addr := GCAddress addr in
  ptr <- HostRead 4 new_addr ;;
  if ar_size addr =? DATATYPE_8BIT then
    let thebyte := u8 data in
    let offset := data .>> 8 in
    ApplyMemoryPatch 1 thebyte (u32 (ptr + offset)) ;;; mret true
  else if ar_size addr =? DATATYPE_16BIT then
    let theshort := u16 data in
    let offset := u32 ((data .>> 16) .<< 1) in
    ApplyMemoryPatch 2 theshort (u32 (ptr + offset)) ;;; mret true
  else if (ar_size addr =? DATATYPE_32BIT_FLOAT) || (ar_size addr =? DATATYPE_32BIT) then
    ApplyMemoryPatch 4 data ptr ;;; mret true
  else mret false.

(** Once the memory is patched the new value is read for the log. *)
Definition Subtype_AddCode (addr data : Z) : M (Machine W) bool :=
  let new_addr := GCAddress addr in
  if ar_size addr =? DATATYPE_8BIT then
    read <- HostRead 1 new_addr ;;
    ApplyMemoryPatch 1 (u8 (u32 (read + data))) new_addr ;;; HostRead 1 new_addr ;;; mret true
  else if ar_size addr =? DATATYPE_16BIT then
    read <- HostRead 2 new_addr ;;
    ApplyMemoryPatch 2 (u16 (u32 (read + data))) new_addr ;;; HostRead 2 new_addr ;;; mret true
  else if ar_size addr =? DATATYPE_32BIT then
    read <- HostRead 4 new_addr ;;
    ApplyMemoryPatch 4 (u32 (read + data)) new_addr ;;; HostRead 4 new_addr ;;; mret true
  else if ar_size addr =? DATATYPE_32BIT_FLOAT then
    read <- HostRead 4 new_addr ;;
    ApplyMemoryPatch 4 (float_add read data) new_addr ;;; mret true
  else mret false.

Definition Subtype_MasterCodeAndWriteToCCXXXXXX (addr data : Z) : M (Machine W) bool := mret false.

Definition NormalCode (addr data : Z) : M (Machine W) bool :=
  if subtype addr =? SUB_RAM_WRITE then Subtype_RamWriteAndFill addr data
  else if subtype addr =? SUB_WRITE_POINTER then Subtype_WriteToPointer addr data
  else if subtype addr =? SUB_ADD_CODE then Subtype_AddCode addr data
  else if subtype addr =? SUB_MASTER_CODE then Subtype_MasterCodeAndWriteToCCXXXXXX addr data
  else mret false.

(** ** Zero codes *)

(** One turn writes [val] and moves on by the increments. *)
Fixpoint slide (n : nat) (step val_incr : Z) (count : nat) (val curr_addr : Z) : M (Machine W) unit :=
  match count with
  | O => mret tt
  | S count =>
      ApplyMemoryPatch n (val mod 2 ^ (8 * Z.of_nat n)) curr_addr ;;;
      slide n step val_incr count (u32 (val + val_incr)) (u32 (curr_addr + step))
  end.
Definition ZeroCode_FillAndSlide (val_last addr data : Z) : M (Machine W) bool :=
  let new_addr := GCAddress val_last in
  let size := ar_size val_last in
  let addr_incr := s16 (data .& 0xFFFF) in
  let val_incr := s8 (data .>> 24) in
  let write_num := (data .& 0xFF0000) .>> 16 in
  if size =? DATATYPE_8BIT then slide 1 addr_incr val_incr (Z.to_nat write_num) addr new_addr ;;; mret true
  else if size =? DATATYPE_16BIT then slide 2 (addr_incr * 2) val_incr (Z.to_nat write_num) addr new_addr ;;; mret true
  else if size =? DATATYPE_32BIT then slide 4 (addr_incr * 4) val_incr (Z.to_nat write_num) addr new_addr ;;; mret true
  else mret false.

(** The byte is read again for the log. *)
Definition copy_bytes (src dest : Z) (num_bytes : Z) : M (Machine W) unit :=
  repeat_from (fun i =>
      b <- HostRead 1 (u32 (src + i)) ;;
      ApplyMemoryPatch 1 b (u32 (dest + i)) ;;;
      HostRead 1 (u32 (src + i)) ;;; mret tt)
    (Z.to_nat num_bytes) 0.
Definition ZeroCode_MemoryCopy (val_last addr data : Z) : M (Machine W) bool :=
  let addr_dest := val_last .& .~ 0x06000000 in
  let addr_src := GCAddress addr in
  let num_bytes := u8 (data .& 0x7FFF) in
  if data .& 0xFF0000 =? 0 then
    if negb (data .>> 24 =? 0x0) then
      ptr_dest <- HostRead 4 addr_dest ;;
      ptr_src <- HostRead 4 addr_src ;;
      copy_bytes ptr_src ptr_dest num_bytes ;;; mret true
    else copy_bytes addr_src addr_dest num_bytes ;;; mret true
  else mret false.

(** ** Conditions *)

Definition CompareValues (val1 val2 type : Z) : bool :=
  if type =? CONDTIONAL_EQUAL then val1 =? val2
  else if type =? CONDTIONAL_NOT_EQUAL then negb (val1 =? val2)
  else if type =? CONDTIONAL_LESS_THAN_SIGNED then s32 val1 <? s32 val2
  else if type =? CONDTIONAL_GREATER_THAN_SIGNED then s32 val2 <? s32 val1
  else if type =? CONDTIONAL_LESS_THAN_UNSIGNED then val1 <? val2
  else if type =? CONDTIONAL_GREATER_THAN_UNSIGNED then val2 <? val1
  else if type =? CONDTIONAL_AND then negb (val1 .& val2 =? 0)
  else false.

(** The value compared and its test; [None] is a bad size. *)
Definition condition_holds (addr data : Z) : M (Machine W) (option bool) :=
  let new_addr := GCAddress addr in
  if ar_size addr =? DATATYPE_8BIT then
    v <- HostRead 1 new_addr ;; mret (Some (CompareValues v (data .& 0xFF) (ar_type addr)))
  else if ar_size addr =? DATATYPE_16BIT then
    v <- HostRead 2 new_addr ;; mret (Some (CompareValues v (data .& 0xFFFF) (ar_type addr)))
  else if (ar_size addr =? DATATYPE_32BIT_FLOAT) || (ar_size addr =? DATATYPE_32BIT) then
    v <- HostRead 4 new_addr ;; mret (Some (CompareValues v data (ar_type addr)))
  else mret None.
(** [*pSkipCount] after the call, and the result. *)
Definition ConditionalCode (addr data skip_count : Z) : M (Machine W) (Z * bool) :=
  result <- condition_holds addr data ;;
  match result with
  | None => mret (skip_count, false)
  | Some true => mret (skip_count, true)
  | Some false =>
      if (subtype addr =? CONDTIONAL_ONE_LINE) || (subtype addr =? CONDTIONAL_TWO_LINES) then
        mret (subtype addr + 1, true)
      else if (subtype addr =? CONDTIONAL_ALL_LINES) || (subtype addr =? CONDTIONAL_ALL_LINES_UNTIL) then
        mret (- subtype addr, true)
      else mret (skip_count, false)
  end.

(** ** Running a code *)

(** The variables of [RunCodeLocked]'s loop. *)
Record RunState := mkRun { do_fill_and_slide : bool; do_memory_copy : bool; skip_count : Z; val_last : Z }.
Definition run_start : RunState := mkRun false false 0 0.

Fixpoint RunOps (r : RunState) (ops : list AREntry) : M (Machine W) bool :=
  match ops with
  | [] => mret true
  | entry :: ops =>
      let addr := cmd_addr entry in
      let data := value entry in
      if negb (skip_count r =? 0) then
        if 0 <? skip_count r then
          RunOps (mkRun (do_fill_and_slide r) (do_memory_copy r) (skip_count r - 1) (val_last r)) ops
        else if skip_count r =? - CONDTIONAL_ALL_LINES then mret true
        else if (skip_count r =? - CONDTIONAL_ALL_LINES_UNTIL) && ((addr =? 0) && (0x40000000 =? data)) then
          RunOps (mkRun (do_fill_and_slide r) (do_memory_copy r) 0 (val_last r)) ops
        else RunOps r ops
      else if do_fill_and_slide r then
        ok <- ZeroCode_FillAndSlide (val_last r) addr data ;;
        if negb ok then mret false
        else RunOps (mkRun false (do_memory_copy r) (skip_count r) (val_last r)) ops
      else if do_memory_copy r then
        ok <- ZeroCode_MemoryCopy (val_last r) addr data ;;
        if negb ok then mret false
        else RunOps (mkRun (do_fill_and_slide r) false (skip_count r) (val_last r)) ops
      else if (0x00002000 <=? addr) && (addr <? 0x00003000) then mret false
      else if 0x0 =? addr then
        let zcode := data .>> 29 in
        if zcode =? ZCODE_END then mret true
        else if zcode =? ZCODE_NORM then RunOps r ops
        else if zcode =? ZCODE_ROW then mret false
        else if zcode =? ZCODE_04 then
          if 0x3 =? (data .>> 25) .& 0x03 then
            RunOps (mkRun (do_fill_and_slide r) true (skip_count r) data) ops
          else RunOps (mkRun true (do_memory_copy r) (skip_count r) data) ops
        else mret false
      else if ar_type addr =? 0x00 then
        ok <- NormalCode addr data ;;
        if negb ok then mret false else RunOps r ops
      else
        res <- ConditionalCode addr data (skip_count r) ;;
        if negb (snd res) then mret false
        else RunOps (mkRun (do_fill_and_slide r) (do_memory_copy r) (fst res) (val_last r)) ops
  end.
Definition RunCodeLocked (arcode : ARCode) : M (Machine W) bool := RunOps run_start (ops arcode).

(** [std::erase_if] keeps the codes that succeeded. *)
Fixpoint erase_failed (codes : list ARCode) : M (Machine W) (list ARCode) :=
  match codes with
  | [] => mret []
  | code :: codes =>
      success <- RunCodeLocked code ;;
      rest <- erase_failed codes ;;
      mret (if success then code :: rest else rest)
  end.
(** [s_active_codes] before and after. *)
Definition RunAllActive (AreCheatsEnabled : bool) (s_active_codes : list ARCode) : M (Machine W) (list ARCode) :=
  if negb AreCheatsEnabled then mret s_active_codes else erase_failed s_active_codes.
End ActionReplay.

(** ** Strings ([Common/StringUtil.cpp]) *)

Definition is_whitespace (ch : ascii) : bool := existsb (Ascii.eqb ch) (text_of " " ++ ["009"; "013"; "010"])%char.
Fixpoint drop_while (p : ascii -> bool) (s : text) : text :=
  match s with ch :: s' => if p ch then drop_while p s' else s | [] => [] end.
Definition StripWhitespace (str : text) : text :=
  rev (drop_while is_whitespace (rev (drop_while is_whitespace str))).

Definition ToLower (ch : ascii) : ascii :=
  let n := N_of_ascii ch in
  if ((65 <=? n) && (n <=? 90))%N then ascii_of_N (n + 32) else ch.
Fixpoint CaseInsensitiveEquals (a b : text) : bool :=
  match a, b with
  | [], [] => true
  | ca :: a, cb :: b => Ascii.eqb (ToLower ca) (ToLower cb) && CaseInsensitiveEquals a b
  | _, _ => false
  end.

(** [getline] up to [delim]; the piece is kept unless the input ended before it. *)
Fixpoint split_from (piece str : text) (delim : ascii) : list text :=
  match str with
  | [] => if decide (piece = []) then [] else [piece]
  | ch :: str => if Ascii.eqb ch delim then piece :: split_from [] str delim else split_from (piece ++ [ch]) str delim
  end.
Definition SplitString (str : text) (delim : ascii) : list text := split_from [] str delim.

(** [strtoull] in base 16: the value and what is left. *)
Definition is_space (ch : ascii) : bool := let n := N_of_ascii ch in (n =? 32)%N || ((9 <=? n) && (n <=? 13))%N.
Definition hex_value (ch : ascii) : option Z :=
  let n := Z.of_N (N_of_ascii ch) in
  if (48 <=? n) && (n <=? 57) then Some (n - 48)
  else if (65 <=? n) && (n <=? 70) then Some (n - 55)
  else if (97 <=? n) && (n <=? 102) then Some (n - 87)
  else None.
Fixpoint hex_digits (acc : Z) (s : text) : Z * text :=
  match s with
  | ch :: s' => match hex_value ch with Some d => hex_digits (acc * 16 + d) s' | None => (acc, s) end
  | [] => (acc, s)
  end.
Definition starts_digit (s : text) : bool :=
  match s with ch :: _ => bool_decide (hex_value ch <> None) | [] => false end.
Definition skip_prefix (s : text) : text :=
  match s with
  | z :: x :: s' =>
      if Ascii.eqb z "0" && (Ascii.eqb x "x" || Ascii.eqb x "X") && starts_digit s' then s' else s
  | _ => s
  end%char.
(** Value, whether it is out of range, and the rest. *)
Definition strtoull16 (str : text) : Z * bool * text :=
  let s := drop_while is_space str in
  let '(negative, s) :=
    match s with
    | ch :: s' => if Ascii.eqb ch "-" then (true, s') else if Ascii.eqb ch "+" then (false, s') else (false, s)
    | [] => (false, s)
    end%char in
  let s := skip_prefix s in
  if starts_digit s then
    let '(v, rest) := hex_digits 0 s in
    if 2 ^ 64 <=? v then (2 ^ 64 - 1, true, rest) else (u64 (if negative : bool then - v else v), false, rest)
  else (0, false, str).
(** [str.c_str()], up to the first null character. *)
Definition c_str (str : text) : text := 
  (fix go s := match s with ch :: s' => if Ascii.eqb ch zero then [] else ch :: go s' | [] => [] end) str.
(** [TryParse<u32>(str, output, 16)] *)
Definition TryParse_u32_hex (str : text) : option Z :=
  let '(value, erange, rest) := strtoull16 (c_str str) in
  if negb (bool_decide (rest = [])) then None
  else if erange then None
  else if 0xFFFFFFFF <? value then None
  else Some value.

(** ** Settings ([Common/IniFile.cpp]): the sections with their lines.  The keys of
    a section are left out. *)

Record IniSection := mkSection { section_name : text; m_lines : list text }.
Definition IniFile : Type := list IniSection.

Definition GetSection (ini : IniFile) (n : text) : option IniSection :=
  List.find (fun sect => CaseInsensitiveEquals (section_name sect) n) ini.
(** Position of a character. *)
Fixpoint find_char (ch : ascii) (s : text) : option nat :=
  match s with
  | [] => None
  | c :: s => if Ascii.eqb c ch then Some O else S <$> find_char ch s
  end.
Definition without_comment (remove_comments : bool) (line : text) : option text :=
  let stripped_line := StripWhitespace line in
  if remove_comments then
    match find_char "#"%char stripped_line with
    | Some O => None
    | Some commentPos => Some (StripWhitespace (take commentPos stripped_line))
    | None => Some stripped_line
    end
  else Some stripped_line.
Definition Section_GetLines (sect : IniSection) (remove_comments : bool) : list text :=
  omap (without_comment remove_comments) (m_lines sect).
Definition IniFile_GetLines (ini : IniFile) (n : text) (remove_comments : bool) : list text :=
  match GetSection ini n with Some sect => Section_GetLines sect remove_comments | None => [] end.
(** [GetOrCreateSection] and [SetLines] on the section found. *)
Fixpoint IniFile_SetLines (ini : IniFile) (n : text) (lines : list text) : IniFile :=
  match ini with
  | [] => [mkSection n lines]
  | sect :: ini =>
      if CaseInsensitiveEquals (section_name sect) n then mkSection (section_name sect) lines :: ini
      else sect :: IniFile_SetLines ini n lines
  end.

(** ** Lines of codes *)

Inductive parsed_line := ParsedEntry (e : AREntry) | ParsedEncrypted (l : text) | ParsedNothing.
Definition DeserializeLine (line : text) : parsed_line :=
  let decrypted :=
    match SplitString line " "%char with
    | [p0; p1] =>
        if (length p0 =? 8)%nat && (length p1 =? 8)%nat then
          match TryParse_u32_hex p0, TryParse_u32_hex p1 with
          | Some a, Some v => Some (mkAREntry a v)
          | _, _ => None
          end
        else None
    | _ => None
    end in
  match decrypted with
  | Some op => ParsedEntry op
  | None =>
      match SplitString line "-"%char with
      | [p0; p1; p2] =>
          if (length p0 =? 4)%nat && (length p1 =? 4)%nat && (length p2 =? 5)%nat then ParsedEncrypted (p0 ++ p1 ++ p2)
          else ParsedNothing
      | _ => ParsedNothing
      end
  end.

(** ** Codes in the settings ([CheatCodes.h] and [LoadCodes], [SaveCodes]) *)

Definition section_AR : text := text_of "ActionReplay".
Definition ReadEnabledOrDisabled (ini : IniFile) (sect : text) (b : bool) (codes : list ARCode) : list ARCode :=
  fold_left (fun codes line =>
      match line with
      | "$"%char :: line_name => map (fun code => if decide (line_name = name code) then set_enabled b code else code) codes
      | _ => codes
      end)
    (IniFile_GetLines ini sect false) codes.
Definition ReadEnabledAndDisabled (ini : IniFile) (sect : text) (codes : list ARCode) : list ARCode :=
  ReadEnabledOrDisabled ini (sect ++ text_of "_Disabled") false
    (ReadEnabledOrDisabled ini (sect ++ text_of "_Enabled") true codes).

(** The variables of the loop over the lines. *)
Record LoadState := mkLoad { codes_ : list ARCode; encrypted_lines : list text; current_code : ARCode }.
(** The code read so far is complete: it is added, once with its plain entries and
    once with its decrypted ones.  [clear] tells whether the variables are emptied. *)
Definition finish_code (clear : bool) (st : LoadState) : option LoadState :=
  let st :=
    if decide (ops (current_code st) = []) then st
    else mkLoad (codes_ st ++ [current_code st]) (encrypted_lines st)
           (if clear then set_ops [] (current_code st) else current_code st) in
  if decide (encrypted_lines st = []) then Some st
  else
    '(_, result) ← DecryptARCode (encrypted_lines st);
    let decrypted := set_ops (ops (current_code st) ++ result) (current_code st) in
    Some (mkLoad (codes_ st ++ [decrypted]) (if clear then [] else encrypted_lines st)
            (if clear then set_ops [] decrypted else decrypted)).
Definition load_line (is_local : bool) (st : LoadState) (line : text) : option LoadState :=
  match line with
  | [] => Some st
  | "$"%char :: code_name =>
      st ← finish_code true st;
      Some (mkLoad (codes_ st) (encrypted_lines st) (set_name code_name is_local (current_code st)))
  | _ =>
      match DeserializeLine line with
      | ParsedEntry op =>
          Some (mkLoad (codes_ st) (encrypted_lines st) (set_ops (ops (current_code st) ++ [op]) (current_code st)))
      | ParsedEncrypted l => Some (mkLoad (codes_ st) (encrypted_lines st ++ [l]) (current_code st))
      | ParsedNothing => Some st
      end
  end.
Fixpoint load_lines (is_local : bool) (st : LoadState) (lines : list text) : option LoadState :=
  match lines with
  | [] => Some st
  | line :: lines => st ← load_line is_local st line; load_lines is_local st lines
  end.
Definition load_ini (is_local : bool) (ini : IniFile) (codes : list ARCode) : option (list ARCode) :=
  st ← load_lines is_local (mkLoad codes [] empty_ARCode) (IniFile_GetLines ini section_AR true);
  st ← finish_code false st;
  let codes := ReadEnabledAndDisabled ini section_AR (codes_ st) in
  Some (if is_local then codes else map (fun code => set_default_enabled (enabled code) code) codes).
(** [None]: a line made [DecryptARCode] do what C++ leaves undefined. *)
Definition LoadCodes (global_ini local_ini : IniFile) : option (list ARCode) :=
  codes ← load_ini false global_ini [];
  load_ini true local_ini codes.

Section Save.
(** [fmt::format] with [{:08X}] *)
Context (format_08X : Z -> text).

Definition SerializeLine (op : AREntry) : text := format_08X (cmd_addr op) ++ " "%char :: format_08X (value op).
Definition changed_lines (b : bool) (codes : list ARCode) : list text :=
  map (fun code => "$"%char :: name code)
    (List.filter (fun code => negb (Bool.eqb (enabled code) (default_enabled code)) && Bool.eqb (enabled code) b) codes).
Definition code_lines (code : ARCode) : list text :=
  if user_defined code then ("$"%char :: name code) :: map SerializeLine (ops code) else [].
Definition SaveCodes (local_ini : IniFile) (codes : list ARCode) : IniFile :=
  let local_ini := IniFile_SetLines local_ini (section_AR ++ text_of "_Enabled") (changed_lines true codes) in
  let local_ini := IniFile_SetLines local_ini (section_AR ++ text_of "_Disabled") (changed_lines false codes) in
  IniFile_SetLines local_ini section_AR (flat_map code_lines codes).
End Save.

(** ** The lists of codes *)

Record ARState := mkARState { s_active_codes : list ARCode; s_synced_codes : list ARCode }.

(** Which codes may be active is decided by the achievements. *)
Definition ApplyCodes (AreCheatsEnabled : bool) (ShouldARCodeBeActivated : ARCode -> bool) (codes : list ARCode)
    (st : ARState) : ARState :=
  if negb AreCheatsEnabled then st else mkARState (List.filter ShouldARCodeBeActivated codes) (s_synced_codes st).
Definition SetSyncedCodesAsActive (st : ARState) : ARState := mkARState (s_synced_codes st) (s_synced_codes st).
Definition UpdateSyncedCodes (codes : list ARCode) (st : ARState) : ARState :=
  mkARState (s_active_codes st) (List.filter enabled codes).
Definition ApplyAndReturnCodes (AreCheatsEnabled : bool) (codes : list ARCode) (st : ARState) : list ARCode * ARState :=
  let st := if AreCheatsEnabled then mkARState (List.filter enabled codes) (s_synced_codes st) else st in
  (s_active_codes st, st).
Definition AddCode (AreCheatsEnabled : bool) (code : ARCode) (st : ARState) : ARState :=
  if negb AreCheatsEnabled then st
  else if enabled code then mkARState (s_active_codes st ++ [code]) (s_synced_codes st) else st.
Definition CountEnabledCodes (AreCheatsEnabled : bool) (st : ARState) : Z :=
  if negb AreCheatsEnabled then 0 else Z.of_nat (length (s_active_codes st)).
Definition LoadAndApplyCodes (AreCheatsEnabled : bool) (ShouldARCodeBeActivated : ARCode -> bool)
    (global_ini local_ini : IniFile) (st : ARState) : option ARState :=
  codes ← LoadCodes global_ini local_ini;
  Some (ApplyCodes AreCheatsEnabled ShouldARCodeBeActivated codes st).
