(* ===== verification/ActionReplaySpec.v ===== *)
(** * What Action Replay codes promise

    A code written with conditions and blocks runs as its structure says; a fill
    writes an arithmetic progression; and the codes of a game are, after saving,
    read back as they were. *)
From S2P Require Export ActionReplay.
From S2P Require Import ARDecryptSpec ErrState.

(** Membership in a list of characters. *)
Ltac listed := apply (bool_decide_unpack _); vm_compute; exact I.

(** ** Strings *)

Lemma drop_while_head p ch s : p ch = false -> drop_while p (ch :: s) = ch :: s.
Proof. intros H. cbn. by rewrite H. Qed.

(** The last character, if there is one, is kept by stripping. *)
Definition ends_well (s : text) : Prop := match rev s with ch :: _ => is_whitespace ch = false | [] => True end.

Lemma ends_well_strip s : ends_well s -> drop_while is_whitespace (rev s) = rev s.
Proof. unfold ends_well. destruct (rev s); [done|]. apply drop_while_head. Qed.

Lemma strip_id ch s : is_whitespace ch = false -> ends_well (ch :: s) -> StripWhitespace (ch :: s) = ch :: s.
Proof.
  intros Hc Hs. unfold StripWhitespace. rewrite drop_while_head by done. rewrite ends_well_strip by done.
  apply rev_involutive.
Qed.

Lemma find_char_none ch s : ch ∉ s -> find_char ch s = None.
Proof.
  induction s as [|c s IH]; intros H; [done|]. apply not_elem_of_cons in H as [Hc Hs]. cbn [find_char].
  destruct (Ascii.eqb_spec c ch) as [->|]; [done|]. by rewrite IH.
Qed.

(** A line that comes back from the settings as it was. *)
Definition line_ok (l : text) : Prop :=
  match l with ch :: _ => is_whitespace ch = false | [] => False end /\ ends_well l /\ "#"%char ∉ l.

Lemma without_comment_ok b l : line_ok l -> without_comment b l = Some l.
Proof.
  intros (H1 & H2 & H3). destruct l as [|ch l]; [done|]. unfold without_comment. rewrite strip_id by done.
  destruct b; [|done]. by rewrite find_char_none.
Qed.

Lemma omap_lines_ok b ls : Forall line_ok ls -> omap (without_comment b) ls = ls.
Proof. induction 1 as [|l ls Hl _ IH]; [done|]. cbn. rewrite without_comment_ok by done. cbn. f_equal. exact IH. Qed.

Lemma CaseInsensitiveEquals_spec a b : CaseInsensitiveEquals a b = true <-> map ToLower a = map ToLower b.
Proof.
  revert b. induction a as [|x a IH]; intros [|y b]; cbn; [done..|]. rewrite andb_true_iff, IH.
  rewrite Ascii.eqb_eq. split; [by intros [-> ->]|by intros [= -> ->]].
Qed.

Lemma GetLines_SetLines ini n ls b : IniFile_GetLines (IniFile_SetLines ini n ls) n b = omap (without_comment b) ls.
Proof.
  unfold IniFile_GetLines, GetSection. induction ini as [|sect ini IH]; cbn [IniFile_SetLines].
  - cbn. by rewrite (proj2 (CaseInsensitiveEquals_spec n n)).
  - destruct (CaseInsensitiveEquals (section_name sect) n) eqn:E; cbn [List.find section_name]; rewrite E; [done|exact IH].
Qed.

Lemma GetLines_SetLines_ne ini n n' ls b : map ToLower n <> map ToLower n' ->
  IniFile_GetLines (IniFile_SetLines ini n ls) n' b = IniFile_GetLines ini n' b.
Proof.
  intros Hn. unfold IniFile_GetLines, GetSection. induction ini as [|sect ini IH]; cbn [IniFile_SetLines].
  - cbn. destruct (CaseInsensitiveEquals n n') eqn:E; [|done]. by apply CaseInsensitiveEquals_spec in E.
  - destruct (CaseInsensitiveEquals (section_name sect) n) eqn:E; cbn [List.find section_name].
    + destruct (CaseInsensitiveEquals (section_name sect) n') eqn:E'; [|done].
      apply CaseInsensitiveEquals_spec in E, E'. congruence.
    + destruct (CaseInsensitiveEquals (section_name sect) n'); [done|exact IH].
Qed.

(** ** Lines of entries *)

(** Eight hexadecimal digits, as the formatting library writes a word with [{:08X}]. *)
Definition hex_digit (d : Z) : ascii := nth (Z.to_nat d) (text_of "0123456789ABCDEF") zero.
Definition hex8 (x : Z) : text := map (fun s => hex_digit ((x .>> s) .& 0xF)) [28; 24; 20; 16; 12; 8; 4; 0].

Lemma hex_digit_check : forallb (fun d =>
    bool_decide (hex_value (hex_digit d) = Some d) && negb (is_whitespace (hex_digit d)) && negb (is_space (hex_digit d)) &&
    negb (existsb (Ascii.eqb (hex_digit d)) ["#"; "$"; " "; "-"; "+"; "x"; "X"; zero])%char) (seqZ 0 16) = true.
Proof. vm_compute. reflexivity. Qed.

Record plain_char (ch : ascii) (d : Z) : Prop := {
  plain_value : hex_value ch = Some d;
  plain_white : is_whitespace ch = false;
  plain_space : is_space ch = false;
  plain_not c : c ∈ ["#"; "$"; " "; "-"; "+"; "x"; "X"; zero]%char -> Ascii.eqb ch c = false
}.

Lemma hex_digit_plain d : 0 <= d < 16 -> plain_char (hex_digit d) d.
Proof.
  intros Hd. pose proof hex_digit_check as H. rewrite forallb_forall in H.
  specialize (H d ltac:(apply list_elem_of_In, elem_of_seqZ; lia)).
  rewrite !andb_true_iff, !negb_true_iff, bool_decide_eq_true in H. destruct H as [[[H1 H2] H3] H4]. split; [done..|].
  intros c Hc. destruct (Ascii.eqb _ c) eqn:E; [|done]. rewrite <- H4. symmetry. apply existsb_exists. exists c.
  split; [by apply list_elem_of_In|done].
Qed.

Lemma hex8_plain x : exists d0 d1 d2 d3 d4 d5 d6 d7,
  hex8 x = map hex_digit [d0; d1; d2; d3; d4; d5; d6; d7] /\ Forall (fun d => 0 <= d < 16) [d0; d1; d2; d3; d4; d5; d6; d7] /\
  (is_u32 x -> fold_left (fun acc d => acc * 16 + d) [d0; d1; d2; d3; d4; d5; d6; d7] 0 = x).
Proof.
  set (f := fun s => (x .>> s) .& 0xF). exists (f 28), (f 24), (f 20), (f 16), (f 12), (f 8), (f 4), (f 0).
  assert (E : forall s, 0 <= s -> f s = x / 2 ^ s mod 16).
  { intros s Hs. unfold f. by rewrite (land_ones_mod 4), Z.shiftr_div_pow2 by done. }
  split; [done|]. rewrite !E by lia. split.
  - rewrite !Forall_cons. repeat split; try constructor; apply Z.mod_pos_bound; lia.
  - intros Hx. cbn [fold_left]. change (2 ^ 28) with 0x10000000. change (2 ^ 24) with 0x1000000. change (2 ^ 20) with 0x100000.
    change (2 ^ 16) with 0x10000. change (2 ^ 12) with 0x1000. change (2 ^ 8) with 0x100. change (2 ^ 4) with 16.
    change (2 ^ 0) with 1. rewrite Z.div_1_r. zlia.
Qed.

Lemma hex_digits_all ds acc : Forall (fun d => 0 <= d < 16) ds ->
  hex_digits acc (map hex_digit ds) = (fold_left (fun acc d => acc * 16 + d) ds acc, []).
Proof.
  intros H. revert acc. induction H as [|d ds Hd _ IH]; intros acc; [done|]. cbn [map hex_digits].
  rewrite (plain_value _ _ (hex_digit_plain d Hd)). apply IH.
Qed.

(** Text of hexadecimal digits, and what the parsers make of it. *)
Definition plain_text (s : text) : Prop := exists ds, s = map hex_digit ds /\ Forall (fun d => 0 <= d < 16) ds.

Lemma plain_not_in s c : plain_text s -> c ∈ ["#"; "$"; " "; "-"; "+"; "x"; "X"; zero]%char -> c ∉ s.
Proof.
  intros (ds & -> & H) Hc. induction H as [|d ds Hd _ IH]; [apply not_elem_of_nil|]. cbn [map].
  apply not_elem_of_cons. split; [|exact IH]. intros ->.
  pose proof (plain_not _ _ (hex_digit_plain d Hd) _ Hc) as E. by rewrite Ascii.eqb_refl in E.
Qed.

Lemma c_str_id s : zero ∉ s -> c_str s = s.
Proof.
  unfold c_str. induction s as [|ch s IH]; intros H; [done|]. apply not_elem_of_cons in H as [Hc Hs].
  destruct (Ascii.eqb_spec ch zero) as [->|]; [done|]. by rewrite IH.
Qed.

Lemma skip_prefix_plain z x s : Ascii.eqb x "x" = false -> Ascii.eqb x "X" = false -> skip_prefix (z :: x :: s) = z :: x :: s.
Proof. intros H1 H2. cbn [skip_prefix]. by rewrite H1, H2, andb_false_r. Qed.

Lemma TryParse_hex8 x : is_u32 x -> TryParse_u32_hex (hex8 x) = Some x.
Proof.
  intros Hx. destruct (hex8_plain x) as (d0 & d1 & d2 & d3 & d4 & d5 & d6 & d7 & -> & HF & Hv). specialize (Hv Hx).
  assert (Hp : plain_text (map hex_digit [d0; d1; d2; d3; d4; d5; d6; d7])) by (by eexists).
  unfold TryParse_u32_hex. rewrite c_str_id by (apply plain_not_in; [done|listed]).
  remember [d2; d3; d4; d5; d6; d7] as rest eqn:Er in *. clear Er.
  assert (Hd0 : 0 <= d0 < 16) by (by apply Forall_cons in HF as [H _]).
  assert (Hd1 : 0 <= d1 < 16) by (by apply Forall_cons in HF as [_ [H _]%Forall_cons]).
  pose proof (hex_digit_plain d0 Hd0) as P0. pose proof (hex_digit_plain d1 Hd1) as P1.
  assert (Hs : strtoull16 (map hex_digit (d0 :: d1 :: rest)) = (x, false, [])).
  { unfold strtoull16. cbn [map]. rewrite (drop_while_head _ _ _ (plain_space _ _ P0)).
    rewrite !(plain_not _ _ P0) by listed. rewrite skip_prefix_plain by (apply (plain_not _ _ P1); listed).
    assert (Hd : starts_digit (hex_digit d0 :: hex_digit d1 :: map hex_digit rest) = true).
    { unfold starts_digit. rewrite (plain_value _ _ P0). by apply bool_decide_eq_true. }
    rewrite Hd. change (hex_digit d0 :: hex_digit d1 :: map hex_digit rest) with (map hex_digit (d0 :: d1 :: rest)).
    rewrite hex_digits_all by done. rewrite Hv.
    rewrite (proj2 (Z.leb_gt (2 ^ 64) x)) by (unfold is_u32 in Hx; lia). f_equal. f_equal. unfold is_u32 in Hx. zlia. }
  rewrite Hs. cbn. rewrite (proj2 (Z.ltb_ge 0xFFFFFFFF x)) by (unfold is_u32 in Hx; lia). done.
Qed.

Lemma length_hex8 x : length (hex8 x) = 8%nat.
Proof. done. Qed.
Lemma plain_hex8 x : plain_text (hex8 x).
Proof. destruct (hex8_plain x) as (d0 & d1 & d2 & d3 & d4 & d5 & d6 & d7 & E & HF & _). rewrite E. by eexists. Qed.

Lemma split_from_skip piece s rest delim : delim ∉ s -> split_from piece (s ++ rest) delim = split_from (piece ++ s) rest delim.
Proof.
  revert piece. induction s as [|ch s IH]; intros piece H; [by rewrite app_nil_r|]. apply not_elem_of_cons in H as [Hc Hs].
  cbn [app split_from]. destruct (Ascii.eqb_spec ch delim) as [->|]; [done|]. rewrite IH by done. by rewrite <- app_assoc.
Qed.

Lemma SplitString_two a b delim : delim ∉ a -> delim ∉ b -> b <> [] -> SplitString (a ++ delim :: b) delim = [a; b].
Proof.
  intros Ha Hb Hne. unfold SplitString. rewrite split_from_skip by done. cbn [app split_from]. rewrite Ascii.eqb_refl.
  rewrite <- (app_nil_r b) at 1. rewrite split_from_skip by done. cbn [app split_from]. by rewrite decide_False.
Qed.

Lemma hex_line_ok a b : line_ok (hex8 a ++ " "%char :: hex8 b).
Proof.
  pose proof (plain_hex8 a) as Pa. pose proof (plain_hex8 b) as Pb.
  destruct (hex8_plain a) as (d0 & d1 & d2 & d3 & d4 & d5 & d6 & d7 & Ea & HFa & _).
  destruct (hex8_plain b) as (e0 & e1 & e2 & e3 & e4 & e5 & e6 & e7 & Eb & HFb & _).
  split; [|split].
  - rewrite Ea. cbn. apply Forall_cons in HFa as [H _]. apply (plain_white _ _ (hex_digit_plain d0 H)).
  - unfold ends_well. rewrite rev_app_distr, Eb. cbn. rewrite !Forall_cons in HFb.
    apply (plain_white _ e7), hex_digit_plain. lia.
  - intros [H|[H|H]%elem_of_cons]%elem_of_app; [|done|]; revert H; apply plain_not_in; (done || listed).
Qed.

Lemma DeserializeLine_hex8 a b : is_u32 a -> is_u32 b ->
  DeserializeLine (hex8 a ++ " "%char :: hex8 b) = ParsedEntry (mkAREntry a b).
Proof.
  intros Ha Hb. unfold DeserializeLine.
  rewrite SplitString_two; [|apply plain_not_in; [apply plain_hex8|listed]..|done].
  rewrite !length_hex8, !TryParse_hex8 by done. done.
Qed.

(** ** Saving and loading codes *)

(** A name that the settings keep. *)
Definition name_ok (n : text) : Prop := ends_well ("$"%char :: n) /\ "#"%char ∉ n.
(** A code of the user: it has entries, and is off unless it is switched on. *)
Record user_code (c : ARCode) : Prop := {
  user_is : user_defined c = true;
  user_default : default_enabled c = false;
  user_entries : Forall entry_ok (ops c)
}.
Definition as_default (c : ARCode) : ARCode := set_enabled (default_enabled c) c.

Lemma name_line_ok n : name_ok n -> line_ok ("$"%char :: n).
Proof.
  intros [H1 H2]. split; [done|]. split; [done|]. apply not_elem_of_cons. done.
Qed.

(** Reading switches: every code named is switched. *)
Lemma ReadEnabledOrDisabled_names ini sect b codes names :
  IniFile_GetLines ini sect false = map (cons "$"%char) names ->
  ReadEnabledOrDisabled ini sect b codes =
    map (fun c => if decide (name c ∈ names) then set_enabled b c else c) codes.
Proof.
  intros E. unfold ReadEnabledOrDisabled. rewrite E. clear E. revert codes.
  induction names as [|n names IH]; intros codes; cbn [map fold_left].
  - rewrite <- (map_id codes) at 1. apply map_ext. intros c. by rewrite decide_False by apply not_elem_of_nil.
  - rewrite IH, map_map. apply map_ext. intros c. destruct (decide (n = name c)) as [->|Hne].
    + rewrite (decide_True (P := name c ∈ name c :: names)) by (apply elem_of_cons; by left).
      cbn [set_enabled name]. by case_decide.
    + destruct (decide (name c ∈ names)) as [Hc|Hc].
      * by rewrite decide_True by (apply elem_of_cons; by right).
      * rewrite decide_False; [done|]. intros [?|?]%elem_of_cons; congruence.
Qed.

Lemma load_line_other b st ch l : Ascii.eqb ch "$" = false ->
  load_line b st (ch :: l) =
    match DeserializeLine (ch :: l) with
    | ParsedEntry op =>
        Some (mkLoad (codes_ st) (encrypted_lines st) (set_ops (ops (current_code st) ++ [op]) (current_code st)))
    | ParsedEncrypted l => Some (mkLoad (codes_ st) (encrypted_lines st ++ [l]) (current_code st))
    | ParsedNothing => Some st
    end.
Proof. by destruct ch as [[] [] [] [] [] [] [] []]. Qed.

Section SaveLoad.
Context (format_08X : Z -> text) (Hformat : forall x, is_u32 x -> format_08X x = hex8 x).

Lemma SerializeLine_hex e : entry_ok e -> SerializeLine format_08X e = hex8 (cmd_addr e) ++ " "%char :: hex8 (value e).
Proof. intros [H1 H2]. unfold SerializeLine. by rewrite !Hformat. Qed.

Lemma load_entries es st : Forall entry_ok es -> encrypted_lines st = [] ->
  load_lines true st (map (SerializeLine format_08X) es) =
    Some (mkLoad (codes_ st) [] (set_ops (ops (current_code st) ++ es) (current_code st))).
Proof.
  intros H. revert st. induction H as [|e es He _ IH]; intros [cs enc cur] Henc; cbn in Henc; subst enc.
  { cbn. rewrite app_nil_r. by destruct cur. }
  cbn [map load_lines]. rewrite SerializeLine_hex by done. destruct He as [Ha Hv].
  assert (E : load_line true (mkLoad cs [] cur) (hex8 (cmd_addr e) ++ " "%char :: hex8 (value e)) =
    Some (mkLoad cs [] (set_ops (ops cur ++ [e]) cur))).
  { pose proof (DeserializeLine_hex8 _ _ Ha Hv) as E.
    destruct (hex8_plain (cmd_addr e)) as (d0 & d1 & d2 & d3 & d4 & d5 & d6 & d7 & E8 & HF & _).
    apply Forall_cons in HF as [Hd _]. rewrite E8 in *. cbn [map app] in *.
    rewrite load_line_other by (apply (plain_not _ _ (hex_digit_plain d0 Hd)); listed).
    rewrite E. by destruct e. }
  rewrite E. cbn [base.mbind option_bind].
  rewrite IH by done. cbn [codes_ current_code ops set_ops]. by rewrite <- app_assoc.
Qed.
(** The code being read, if it has entries. *)
Definition pending (c : ARCode) : list ARCode := if decide (ops c = []) then [] else [c].
Definition switched_off (c : ARCode) : Prop := enabled c = false /\ default_enabled c = false.

Lemma finish_plain b cs cur : finish_code b (mkLoad cs [] cur) =
  Some (mkLoad (cs ++ pending cur) [] (if b then set_ops [] cur else cur)).
Proof.
  unfold finish_code, pending. cbn [current_code codes_ encrypted_lines]. destruct (decide (ops cur = [])) as [E|E].
  - cbn [encrypted_lines]. rewrite decide_True, app_nil_r by done. destruct b, cur; cbn in *; by subst.
  - cbn [encrypted_lines]. by rewrite decide_True by done.
Qed.

Lemma load_code c cs cur : user_code c -> switched_off cur ->
  load_lines true (mkLoad cs [] cur) (code_lines format_08X c) = Some (mkLoad (cs ++ pending cur) [] (as_default c)).
Proof.
  intros [H1 H2 H3] [Ho Hd]. unfold code_lines. rewrite H1. cbn [load_lines load_line].
  rewrite finish_plain. cbn [base.mbind option_bind codes_ encrypted_lines current_code].
  rewrite load_entries by done. cbn [codes_ current_code]. do 2 f_equal.
  unfold as_default, set_enabled, set_ops, set_name. cbn [name ops enabled default_enabled user_defined].
  rewrite Ho, Hd, H1, H2. done.
Qed.

Lemma load_lines_app b l1 l2 st : load_lines b st (l1 ++ l2) = st ← load_lines b st l1; load_lines b st l2.
Proof.
  revert st. induction l1 as [|l l1 IH]; intros st; [done|]. cbn [app load_lines].
  destruct (load_line b st l) as [st'|]; [|done]. cbn [base.mbind option_bind]. apply IH.
Qed.

(** The codes that have entries; the settings hold only the names of the others. *)
Definition kept (us : list ARCode) : list ARCode := List.filter (fun c => negb (bool_decide (ops c = []))) us.
Lemma pending_user c : pending (as_default c) = map as_default (kept [c]).
Proof. unfold pending, kept. cbn [List.filter as_default ops set_enabled]. by case_decide as E; [rewrite (bool_decide_eq_true_2 _ E)|rewrite (bool_decide_eq_false_2 _ E)]. Qed.
Lemma kept_cons c us : kept (c :: us) = kept [c] ++ kept us.
Proof. unfold kept. cbn [List.filter]. by destruct (negb _). Qed.

Lemma load_user_codes us cs cur : Forall user_code us -> switched_off cur ->
  exists cur', load_lines true (mkLoad cs [] cur) (flat_map (code_lines format_08X) us) = Some cur' /\
    (st ← finish_code false cur'; Some (codes_ st)) = Some (cs ++ pending cur ++ map as_default (kept us)).
Proof.
  intros H. revert cs cur. induction H as [|u us Hu _ IH]; intros cs cur Hcur.
  - eexists. split; [done|]. rewrite finish_plain. cbn. by rewrite app_nil_r.
  - cbn [flat_map]. rewrite load_lines_app, load_code by done. cbn [base.mbind option_bind].
    destruct (IH (cs ++ pending cur) (as_default u)) as (st & E & Ef).
    { destruct Hu as [_ Hd _]. split; [cbn; done|done]. }
    exists st. split; [exact E|]. by rewrite Ef, pending_user, (kept_cons u us), map_app, <- app_assoc.
Qed.

Lemma no_user_lines gs : Forall (fun c => user_defined c = false) gs -> flat_map (code_lines format_08X) gs = [].
Proof. induction 1 as [|c gs Hc _ IH]; [done|]. cbn [flat_map]. unfold code_lines at 1. by rewrite Hc. Qed.

Lemma code_lines_ok us : Forall user_code us -> Forall (fun c => name_ok (name c)) us ->
  Forall line_ok (flat_map (code_lines format_08X) us).
Proof.
  induction 1 as [|u us Hu _ IH]; intros Hn; [done|]. apply Forall_cons in Hn as [Hn Hns]. cbn [flat_map].
  apply Forall_app. split; [|by apply IH]. unfold code_lines. rewrite (user_is _ Hu). constructor; [by apply name_line_ok|].
  apply Forall_map. eapply Forall_impl; [exact (user_entries _ Hu)|]. intros e He. cbn. rewrite SerializeLine_hex by done.
  apply hex_line_ok.
Qed.
End SaveLoad.

(** Codes of the global settings are not the user's. *)
Definition not_user (st : LoadState) : Prop :=
  Forall (fun c => user_defined c = false) (codes_ st) /\ user_defined (current_code st) = false.

Lemma finish_not_user b st st' : not_user st -> finish_code b st = Some st' -> not_user st'.
Proof.
  intros Hst. unfold finish_code.
  assert (Hsnoc : forall st c, not_user st -> user_defined c = false ->
    Forall (fun c => user_defined c = false) (codes_ st ++ [c])).
  { intros st1 c [H1 _] Hc. apply Forall_app. split; [done|]. by repeat constructor. }
  match goal with |- context [if decide (encrypted_lines ?s = []) then _ else _] => set (st1 := s) end.
  assert (H1 : not_user st1).
  { unfold st1. destruct (decide _); [done|]. split; [by apply Hsnoc, Hst|]. destruct b; apply Hst. }
  clearbody st1. destruct (decide (encrypted_lines st1 = [])); [intros [= <-]; exact H1|].
  destruct (DecryptARCode _) as [[g r]|]; [|done]. cbn [base.mbind option_bind]. intros [= <-].
  split; [by apply Hsnoc, H1|]. destruct b; apply H1.
Qed.

Lemma load_lines_not_user ls st st' : not_user st -> load_lines false st ls = Some st' -> not_user st'.
Proof.
  revert st. induction ls as [|l ls IH]; intros st Hst E; cbn [load_lines] in E; [by simplify_eq|].
  destruct (load_line false st l) as [st1|] eqn:E1; [|done]. refine (IH st1 _ E). clear IH E.
  destruct l as [|ch l]; [cbn in E1; by simplify_eq|]. destruct (Ascii.eqb ch "$") eqn:Ec.
  - apply Ascii.eqb_eq in Ec as ->. cbn [load_line] in E1.
    destruct (finish_code true st) as [st2|] eqn:E2; [|done]. cbn [base.mbind option_bind] in E1. simplify_eq.
    destruct (finish_not_user _ _ _ Hst E2). done.
  - rewrite load_line_other in E1 by done. destruct Hst. destruct (DeserializeLine (ch :: l)); by simplify_eq.
Qed.

Lemma names_default gs g : (forall c, name (g c) = name c) -> map name (map g gs) = map name gs.
Proof. intros H. rewrite map_map. by apply map_ext. Qed.

Lemma load_global_not_user ini l : load_ini false ini [] = Some l -> Forall (fun c => user_defined c = false) l.
Proof.
  unfold load_ini. intros E.
  destruct (load_lines false _ _) as [st|] eqn:E1; [|done]. cbn [base.mbind option_bind] in E.
  destruct (finish_code false st) as [st'|] eqn:E2; [|done]. cbn [base.mbind option_bind] in E. simplify_eq.
  assert (H0 : not_user (mkLoad [] [] empty_ARCode)) by (split; [constructor|done]).
  destruct (finish_not_user _ _ _ (load_lines_not_user _ _ _ H0 E1) E2) as [Hl _].
  apply Forall_map. cbn [user_defined set_default_enabled]. 
  assert (Hr : forall sect b l, Forall (fun c => user_defined c = false) l ->
    Forall (fun c => user_defined c = false) (ReadEnabledOrDisabled ini sect b l)).
  { intros sect b l. unfold ReadEnabledOrDisabled. generalize (IniFile_GetLines ini sect false). intros lines. revert l.
    induction lines as [|line lines IH]; intros l Hl'; [done|]. cbn [fold_left]. apply IH.
    destruct line as [|ch line]; [done|]. destruct (Ascii.eqb ch "$") eqn:Ec.
    - apply Ascii.eqb_eq in Ec as ->. apply Forall_map. eapply Forall_impl; [exact Hl'|]. intros c Hc. by case_decide.
    - by destruct ch as [[] [] [] [] [] [] [] []]. }
  by apply Hr, Hr.
Qed.

Lemma load_empty_local codes : load_ini true [] codes = Some codes.
Proof. done. Qed.

Definition changed_to (b : bool) (c : ARCode) : bool :=
  negb (Bool.eqb (enabled c) (default_enabled c)) && Bool.eqb (enabled c) b.

Lemma changed_names (p : ARCode -> bool) codes c : NoDup (map name codes) -> c ∈ codes ->
  name c ∈ map name (List.filter p codes) <-> p c = true.
Proof.
  intros Hnd Hc. rewrite list_elem_of_fmap. split.
  - intros (c' & En & Hc'). apply list_elem_of_In, filter_In in Hc' as [Hc' Hp]. apply list_elem_of_In in Hc'.
    apply list_elem_of_lookup in Hc as [i Hi], Hc' as [j Hj].
    assert (i = j) as ->; [|by simplify_eq].
    apply (NoDup_lookup _ _ _ (name c) Hnd); by rewrite list_lookup_fmap, ?Hi, ?Hj; cbn; rewrite <- ?En.
  - intros Hp. exists c. split; [done|]. by apply list_elem_of_In, filter_In; rewrite <- list_elem_of_In.
Qed.

Lemma switches_restored c : let x := as_default c in
  let x := if decide (changed_to true c = true) then set_enabled true x else x in
  (if decide (changed_to false c = true) then set_enabled false x else x) = c.
Proof. by destruct c as [n o [] [] u]. Qed.

Section Saved.
Context (format_08X : Z -> text) (Hformat : forall x, is_u32 x -> format_08X x = hex8 x).

(** What each of the three sections holds after saving. *)
Lemma saved_sections ini codes b :
  IniFile_GetLines (SaveCodes format_08X ini codes) section_AR b =
    omap (without_comment b) (flat_map (code_lines format_08X) codes) /\
  IniFile_GetLines (SaveCodes format_08X ini codes) (section_AR ++ text_of "_Enabled") b =
    omap (without_comment b) (changed_lines true codes) /\
  IniFile_GetLines (SaveCodes format_08X ini codes) (section_AR ++ text_of "_Disabled") b =
    omap (without_comment b) (changed_lines false codes).
Proof.
  unfold SaveCodes. split; [apply GetLines_SetLines|].
  split; rewrite !GetLines_SetLines_ne by (vm_compute; discriminate); apply GetLines_SetLines.
Qed.

Lemma changed_lines_ok b codes : Forall (fun c => name_ok (name c)) codes ->
  omap (without_comment false) (changed_lines b codes) = map (cons "$"%char) (map name (List.filter (changed_to b) codes)).
Proof.
  intros Hn. unfold changed_lines. rewrite map_map. apply omap_lines_ok, Forall_map, Forall_forall.
  intros c Hc. apply list_elem_of_In, filter_In in Hc as [Hc _]. apply name_line_ok.
  rewrite Forall_forall in Hn. by apply Hn, list_elem_of_In.
Qed.

Lemma switches_read ini codes loaded : NoDup (map name codes) -> Forall (fun c => name_ok (name c)) codes ->
  (forall c, c ∈ loaded -> c ∈ codes) ->
  ReadEnabledAndDisabled (SaveCodes format_08X ini codes) section_AR (map as_default loaded) = loaded.
Proof.
  intros Hnd Hn Hsub. destruct (saved_sections ini codes false) as (_ & He & Hd). rewrite changed_lines_ok in He, Hd by done.
  unfold ReadEnabledAndDisabled. rewrite (ReadEnabledOrDisabled_names _ _ true _ _ He).
  rewrite (ReadEnabledOrDisabled_names _ _ false _ _ Hd), !map_map.
  transitivity (map (fun c => c) loaded); [|apply map_id]. apply map_ext_in. intros c Hc. apply list_elem_of_In, Hsub in Hc.
  etransitivity; [|apply switches_restored]. cbv zeta.
  assert (E : forall b x, name x = name c ->
    (name x ∈ map name (List.filter (changed_to b) codes)) <-> changed_to b c = true).
  { intros b x ->. by apply changed_names. }
  assert (Hx : name (if decide (changed_to true c = true) then set_enabled true (as_default c) else as_default c) = name c)
    by (by case_decide).
  pose proof (E true (as_default c) eq_refl). pose proof (E false _ Hx). repeat case_decide; tauto || done.
Qed.
Lemma kept_saved gs us c : c ∈ gs ++ kept us -> c ∈ gs ++ us.
Proof.
  rewrite !elem_of_app. intros [H|H]; [by left|right]. apply list_elem_of_In, filter_In in H as [H _]. by apply list_elem_of_In.
Qed.

(** C17. Reading the settings back gives the codes of a game as they were saved, in order: the
    codes of the settings Dolphin ships with their switches as they were, and the user's codes
    with entries, with their names, entries and switches; exactly the user's codes without
    entries are lost. The names are distinct, without number signs and without blanks at
    their end, the user's codes are off by default, as those read from local settings are. *)
Theorem saved_codes_load global local gs us :
  LoadCodes global [] = Some (map as_default gs) -> Forall user_code us ->
  Forall (fun c => name_ok (name c)) (gs ++ us) -> NoDup (map name (gs ++ us)) ->
  LoadCodes global (SaveCodes format_08X local (gs ++ us)) =
    Some (gs ++ List.filter (fun c => negb (bool_decide (ops c = []))) us).
Proof.
  intros Hg Hu Hn Hnd. fold (kept us). unfold LoadCodes in Hg.
  destruct (load_ini false global []) as [g|] eqn:E; [|done]. cbn [base.mbind option_bind] in Hg.
  rewrite load_empty_local in Hg. injection Hg as ->. unfold LoadCodes. rewrite E. cbn [base.mbind option_bind].
  assert (Hgs : Forall (fun c => user_defined c = false) gs).
  { apply load_global_not_user in E. rewrite Forall_map in E. exact E. }
  unfold load_ini. destruct (saved_sections local (gs ++ us) true) as (Hl & _). rewrite Hl, flat_map_app, no_user_lines by done.
  cbn [app]. apply Forall_app in Hn as Hn'. destruct Hn' as [_ Hn'].
  rewrite omap_lines_ok by (by apply code_lines_ok).
  destruct (load_user_codes format_08X Hformat us (map as_default gs) empty_ARCode Hu ltac:(done)) as (st & E1 & E2).
  rewrite E1. cbn [base.mbind option_bind]. destruct (finish_code false st) as [st'|]; [|done].
  cbn [base.mbind option_bind] in *. injection E2 as ->. cbn [pending].
  change (pending empty_ARCode) with (@nil ARCode). cbn [app]. rewrite <- map_app. by rewrite switches_read by (done || apply kept_saved).
Qed.
End Saved.

(** ** Codes with a structure

    The lines of a code are those of a program with conditions and blocks, as the
    documentation of the code types describes them. *)

Inductive item :=
  | Line (e : AREntry)
  | Nop (data : Z)
  | Fill (data : Z) (e : AREntry)           (** fill and slide, memory copy *)
  | When (c : AREntry) (body : list item)   (** a condition on one or two lines *)
  | Block (c : AREntry) (body : list item)  (** a condition up to the end-if line *)
  | Rest (c : AREntry)                      (** a condition on all that follows *)
  | End_ (data : Z).

Definition endif : AREntry := mkAREntry 0 0x40000000.
Fixpoint lines_of (i : item) : list AREntry :=
  match i with
  | Line e => [e]
  | Nop data => [mkAREntry 0 data]
  | Fill data e => [mkAREntry 0 data; e]
  | When c body => c :: flat_map lines_of body
  | Block c body => c :: flat_map lines_of body ++ [endif]
  | Rest c => [c]
  | End_ data => [mkAREntry 0 data]
  end.

(** A line with an address that the interpreter does not refuse. *)
Definition addressed (e : AREntry) : bool :=
  negb (cmd_addr e =? 0) && negb ((0x00002000 <=? cmd_addr e) && (cmd_addr e <? 0x00003000)).
Definition conditional (e : AREntry) (sub : Z) : bool :=
  addressed e && negb (ar_type (cmd_addr e) =? 0) && (subtype (cmd_addr e) =? sub).
Fixpoint well_formed (i : item) : bool :=
  match i with
  | Line e => addressed e && (ar_type (cmd_addr e) =? 0)
  | Nop data => data .>> 29 =? ZCODE_NORM
  | Fill data _ => data .>> 29 =? ZCODE_04
  | When c body =>
      ((conditional c CONDTIONAL_ONE_LINE && (length (flat_map lines_of body) =? 1)%nat) ||
       (conditional c CONDTIONAL_TWO_LINES && (length (flat_map lines_of body) =? 2)%nat)) && forallb well_formed body
  | Block c body =>
      conditional c CONDTIONAL_ALL_LINES_UNTIL && bool_decide (endif ∉ flat_map lines_of body) && forallb well_formed body
  | Rest c => conditional c CONDTIONAL_ALL_LINES
  | End_ data => data .>> 29 =? ZCODE_END
  end.

Fixpoint item_nested_ind (P : item -> Prop) (HL : forall e, P (Line e)) (HN : forall d, P (Nop d))
    (HF : forall d e, P (Fill d e)) (HW : forall c body, Forall P body -> P (When c body))
    (HB : forall c body, Forall P body -> P (Block c body)) (HR : forall c, P (Rest c)) (HE : forall d, P (End_ d))
    (i : item) : P i :=
  let all := fix all (l : list item) : Forall P l :=
    match l with
    | [] => Forall_nil_2 P
    | i :: l => Forall_cons_2 P i l (item_nested_ind P HL HN HF HW HB HR HE i) (all l)
    end in
  match i with
  | Line e => HL e
  | Nop d => HN d
  | Fill d e => HF d e
  | When c body => HW c body (all body)
  | Block c body => HB c body (all body)
  | Rest c => HR c
  | End_ d => HE d
  end.

Section Structured.
Context {W : Type} {D : Devices W} (float_add : Z -> Z -> Z).
Notation Run := (@RunOps W D float_add).

(** What a code does next: [None] goes on, [Some b] has ended with the result [b]. *)
Definition exec_seq (exec : item -> M (Machine W) (option bool)) : list item -> M (Machine W) (option bool) :=
  fix go l := match l with
              | [] => mret None
              | i :: l => r <- exec i ;; match r with None => go l | Some b => mret (Some b) end
              end.
Definition goes_on (m : M (Machine W) bool) : M (Machine W) (option bool) :=
  ok <- m ;; mret (if ok then None else Some false).
Definition branch (c : AREntry) (taken not_taken : M (Machine W) (option bool)) : M (Machine W) (option bool) :=
  r <- condition_holds (cmd_addr c) (value c) ;;
  match r with Some true => taken | Some false => not_taken | None => mret (Some false) end.
Fixpoint exec (i : item) : M (Machine W) (option bool) :=
  match i with
  | Line e => goes_on (NormalCode float_add (cmd_addr e) (value e))
  | Nop _ => mret None
  | Fill data e =>
      goes_on (if 0x3 =? (data .>> 25) .& 0x03 then ZeroCode_MemoryCopy data (cmd_addr e) (value e)
               else ZeroCode_FillAndSlide data (cmd_addr e) (value e))
  | When c body | Block c body => branch c (exec_seq exec body) (mret None)
  | Rest c => branch c (mret None) (mret (Some true))
  | End_ _ => mret (Some true)
  end.
Definition exec_all : list item -> M (Machine W) (option bool) := exec_seq exec.

(** *** Skipping *)

Definition skipping (n : Z) : RunState := mkRun false false n 0.
Definition running : RunState := skipping 0.

(** The operand of a zero code is only looked at by the line that follows it. *)
Lemma RunOps_val_last s v v' ops : Run (mkRun false false s v) ops =M= Run (mkRun false false s v') ops.
Proof.
  revert s v v'. induction ops as [|e ops IH]; intros s v v'; [done|].
  cbn [RunOps skip_count do_fill_and_slide do_memory_copy val_last].
  repeat match goal with
         | |- (if ?b then _ else _) =M= (if ?b then _ else _) => destruct b
         | |- (?m =M= ?m) => reflexivity
         | |- Run _ _ =M= Run _ _ => apply IH
         | |- mbind _ _ =M= mbind _ _ => apply mbind_proper; [reflexivity|intros ?]
         end.
Qed.
Lemma RunOps_idle s v ops : Run (mkRun false false s v) ops =M= Run (skipping s) ops.
Proof. apply RunOps_val_last. Qed.

Lemma skip_lines l rest : Run (skipping (Z.of_nat (length l))) (l ++ rest) = Run running rest.
Proof.
  induction l as [|e l IH]; [done|]. rewrite <- IH. cbn [length app]. rewrite Nat2Z.inj_succ.
  set (n := Z.of_nat (length l)). assert (0 <= n) by lia. cbn [RunOps skipping skip_count do_fill_and_slide do_memory_copy val_last].
  rewrite (proj2 (Z.eqb_neq _ 0)), (proj2 (Z.ltb_lt 0 _)) by lia. cbn [negb]. by replace (Z.succ n - 1) with n by lia.
Qed.

Lemma skip_until l rest : endif ∉ l -> Run (skipping (- CONDTIONAL_ALL_LINES_UNTIL)) (l ++ endif :: rest) = Run running rest.
Proof.
  induction l as [|[a v] l IH]; intros H; [done|]. apply not_elem_of_cons in H as [He Hl]. cbn [app].
  rewrite <- (IH Hl). cbn [RunOps cmd_addr value]. change (0 <? _) with false. change (negb (_ =? 0)) with true.
  cbn [negb skip_count skipping]. change (_ =? - CONDTIONAL_ALL_LINES) with false.
  destruct (Z.eqb_spec a 0) as [->|]; [|by rewrite andb_false_r].
  destruct (Z.eqb_spec 0x40000000 v) as [<-|]; [done|by rewrite !andb_false_r].
Qed.

Lemma skip_rest l : Run (skipping (- CONDTIONAL_ALL_LINES)) l =M= mret true.
Proof. by destruct l. Qed.

(** *** One line *)

Lemma addressed_spec e : addressed e = true ->
  (0x00002000 <=? cmd_addr e) && (cmd_addr e <? 0x00003000) = false /\ (0x0 =? cmd_addr e) = false.
Proof.
  unfold addressed. intros [H1 H2]%andb_true_iff. rewrite negb_true_iff in H1, H2. rewrite Z.eqb_sym in H1. done.
Qed.

Definition and_then (m : M (Machine W) (option bool)) (k : M (Machine W) bool) : M (Machine W) bool :=
  x <- m ;; match x with Some b => mret b | None => k end.

Lemma and_then_goes_on m k : and_then (goes_on m) k =M= (ok <- m ;; if negb ok then mret false else k).
Proof.
  unfold and_then, goes_on. rewrite mbind_assoc. apply mbind_proper; [reflexivity|]. intros []; by rewrite mbind_ret_l.
Qed.

#[export] Instance and_then_proper : Proper (meq ==> meq ==> meq) and_then.
Proof. intros m m' Hm k k' Hk. unfold and_then. apply mbind_proper; [done|]. by intros []. Qed.

Lemma run_line e rest : addressed e && (ar_type (cmd_addr e) =? 0) = true ->
  Run running (e :: rest) =M= and_then (goes_on (NormalCode float_add (cmd_addr e) (value e))) (Run running rest).
Proof.
  intros [[H1 H2]%addressed_spec Ht]%andb_true_iff. rewrite and_then_goes_on. cbn [RunOps running skipping skip_count
    do_fill_and_slide do_memory_copy]. rewrite H1, H2, Ht. reflexivity.
Qed.

(** A condition: the lines that follow are run, or run after skipping. *)
Lemma run_condition e sub rest : conditional e sub = true -> 0 <= sub < 4 ->
  Run running (e :: rest) =M=
    (r <- condition_holds (cmd_addr e) (value e) ;;
     match r with
     | Some true => Run running rest
     | Some false => Run (skipping (if sub <? 2 then sub + 1 else - sub)) rest
     | None => mret false
     end).
Proof.
  intros [[[H1 H2]%addressed_spec Ht%negb_true_iff]%andb_true_iff Hs%Z.eqb_eq]%andb_true_iff Hr.
  cbn [RunOps running skipping skip_count do_fill_and_slide do_memory_copy]. rewrite H1, H2, Ht. cbn [negb Z.eqb].
  unfold ConditionalCode. rewrite mbind_assoc. apply mbind_proper; [reflexivity|]. rewrite Hs.
  intros [[]|]; [by rewrite mbind_ret_l; apply RunOps_idle| |by rewrite mbind_ret_l].
  assert (sub = 0 \/ sub = 1 \/ sub = 2 \/ sub = 3) as [->|[->|[->| ->]]] by lia; cbn -[RunOps];
    rewrite mbind_ret_l; apply RunOps_idle.
Qed.

Lemma run_fill data e rest : data .>> 29 = ZCODE_04 ->
  Run running (mkAREntry 0 data :: e :: rest) =M= and_then (exec (Fill data e)) (Run running rest).
Proof.
  intros Hz. cbn [exec]. rewrite and_then_goes_on.
  cbn [RunOps running skipping skip_count do_fill_and_slide do_memory_copy cmd_addr value val_last].
  cbn [negb Z.eqb Z.leb Z.ltb andb Z.compare]. rewrite Hz. change (ZCODE_04 =? ZCODE_END) with false.
  change (ZCODE_04 =? ZCODE_NORM) with false. change (ZCODE_04 =? ZCODE_ROW) with false. rewrite Z.eqb_refl.
  cbn [skip_count do_fill_and_slide do_memory_copy val_last negb Z.eqb].
  match goal with |- (if ?b then _ else _) =M= _ => destruct b end;
    (apply mbind_proper; [reflexivity|]); intros []; try reflexivity; apply RunOps_idle.
Qed.

Lemma run_zero data rest : Run running (mkAREntry 0 data :: rest) =M=
  (if data .>> 29 =? ZCODE_END then mret true else if data .>> 29 =? ZCODE_NORM then Run running rest
   else Run running (mkAREntry 0 data :: rest)).
Proof.
  destruct (data .>> 29 =? ZCODE_END) eqn:E1; [|destruct (data .>> 29 =? ZCODE_NORM) eqn:E2; [|reflexivity]];
    cbn [RunOps running skipping skip_count do_fill_and_slide do_memory_copy cmd_addr value]; cbn [negb Z.eqb Z.leb Z.ltb andb Z.compare];
    rewrite E1; [reflexivity|]. rewrite E2. reflexivity.
Qed.

(** *** Items *)

Definition runs_as (i : item) : Prop :=
  well_formed i = true -> forall rest, Run running (lines_of i ++ rest) =M= and_then (exec i) (Run running rest).

Lemma runs_as_all l : Forall runs_as l -> forallb well_formed l = true ->
  forall rest, Run running (flat_map lines_of l ++ rest) =M= and_then (exec_seq exec l) (Run running rest).
Proof.
  induction 1 as [|i l Hi _ IH]; intros Hw rest.
  - cbn. unfold and_then. by rewrite mbind_ret_l.
  - cbn [forallb] in Hw. apply andb_true_iff in Hw as [Hwi Hwl]. cbn [flat_map]. rewrite <- app_assoc.
    etrans; [by apply Hi|]. etrans; [apply and_then_proper; [reflexivity|by apply IH]|]. cbn [exec_seq]. unfold and_then. rewrite mbind_assoc. apply mbind_proper; [reflexivity|].
    intros [b|]; [by rewrite mbind_ret_l|reflexivity].
Qed.

Lemma branch_runs c taken not_taken kt kn k : and_then taken k =M= kt -> and_then not_taken k =M= kn ->
  (r <- condition_holds (cmd_addr c) (value c) ;;
   match r with Some true => kt | Some false => kn | None => mret false end) =M= and_then (branch c taken not_taken) k.
Proof.
  intros Ht Hn. unfold branch. unfold and_then at 1. rewrite mbind_assoc. apply mbind_proper; [reflexivity|].
  intros [[]|]; [by rewrite <- Ht|by rewrite <- Hn|by rewrite mbind_ret_l].
Qed.

Lemma and_then_ret x k : and_then (mret x) k =M= match x with Some b => mret b | None => k end.
Proof. unfold and_then. apply (mbind_ret_l x). Qed.

Lemma item_runs i : runs_as i.
Proof.
  induction i as [e|d|d e|c body IH|c body IH|c|d] using item_nested_ind; intros Hw rest; cbn [well_formed lines_of app] in *.
  - by apply run_line.
  - rewrite run_zero. apply Z.eqb_eq in Hw. rewrite Hw. cbn [exec]. rewrite and_then_ret. reflexivity.
  - apply Z.eqb_eq in Hw. by apply run_fill.
  - apply andb_true_iff in Hw as [Hw Hb]. pose proof (runs_as_all body IH Hb rest) as Hbody.
    assert (Hs : exists sub, conditional c sub = true /\ 0 <= sub < 2 /\ Z.of_nat (length (flat_map lines_of body)) = sub + 1).
    { apply orb_true_iff in Hw as [[Hc Hl%Nat.eqb_eq]%andb_true_iff|[Hc Hl%Nat.eqb_eq]%andb_true_iff]; rewrite Hl; by eexists. }
    destruct Hs as (sub & Hc & Hs & Hl). rewrite (run_condition c sub) by (done || lia). rewrite (proj2 (Z.ltb_lt sub 2)) by lia.
    apply branch_runs; [by rewrite Hbody|]. rewrite and_then_ret, <- Hl, skip_lines. reflexivity.
  - apply andb_true_iff in Hw as [[Hc He%bool_decide_eq_true]%andb_true_iff Hb].
    rewrite <- app_assoc. rewrite (run_condition c CONDTIONAL_ALL_LINES_UNTIL) by done.
    apply branch_runs.
    + rewrite (runs_as_all body IH Hb). cbn [app]. apply and_then_proper; [reflexivity|]. exact (run_zero 0x40000000 rest).
    + rewrite and_then_ret. cbn [app]. rewrite skip_until by done. reflexivity.
  - rewrite (run_condition c CONDTIONAL_ALL_LINES) by done. apply branch_runs; rewrite and_then_ret; [reflexivity|].
    by rewrite skip_rest.
  - rewrite run_zero. rewrite Hw. cbn [exec]. rewrite and_then_ret. reflexivity.
Qed.

(** C8. A code whose lines are those of a program with conditions, blocks and fills
    runs as the structure of the program says, whatever its conditions are. *)
Theorem structured_codes_run items arcode : forallb well_formed items = true -> ops arcode = flat_map lines_of items ->
  RunCodeLocked float_add arcode =M= (x <- exec_all items ;; mret (default true x)).
Proof.
  intros Hw Ho. unfold RunCodeLocked. rewrite Ho, <- (app_nil_r (flat_map _ _)). change run_start with running.
  rewrite runs_as_all by (done || apply Forall_forall; intros; apply item_runs).
  unfold and_then, exec_all. apply mbind_proper; [reflexivity|]. intros [b|]; reflexivity.
Qed.
End Structured.

(** ** Fills *)

Section Fills.
Context {W : Type} {D : Devices W}.

(** Values of [n] bytes, each patched at its address. *)
Fixpoint patch_all (n : nat) (l : list (Z * Z)) : M (Machine W) unit :=
  match l with [] => mret tt | (v, a) :: l => ApplyMemoryPatch n v a ;;; patch_all n l end.

Lemma slide_progression n step dv count val addr : 8 * Z.of_nat n <= 32 -> is_u32 addr ->
  slide n step dv count val addr =M=
    patch_all n (map (fun i => ((val + Z.of_nat i * dv) mod 2 ^ (8 * Z.of_nat n), u32 (addr + Z.of_nat i * step))) (seq 0 count)).
Proof.
  intros Hn. revert val addr. induction count as [|count IH]; intros val addr Ha; [done|]. cbn [slide seq map patch_all].
  rewrite !Z.mul_0_l, !Z.add_0_r, (u32_id addr Ha). apply mbind_proper; [reflexivity|]. intros _.
  etrans; [apply IH, is_u32_u32|]. rewrite <- seq_shift, map_map.
  replace (map _ (seq 0 count)) with (map (fun i => ((val + Z.of_nat (S i) * dv) mod 2 ^ (8 * Z.of_nat n),
    u32 (addr + Z.of_nat (S i) * step))) (seq 0 count)); [reflexivity|].
  apply map_ext. intros i. f_equal.
  - assert (Hd : (2 ^ (8 * Z.of_nat n) | 0x100000000)).
    { exists (2 ^ (32 - 8 * Z.of_nat n)). rewrite <- Z.pow_add_r by lia. change 0x100000000 with (2 ^ 32). f_equal. lia. }
    assert (Hp : 2 ^ (8 * Z.of_nat n) <> 0) by (apply Z.pow_nonzero; lia).
    unfold u32. rewrite <- (Z.add_mod_idemp_l ((val + dv) mod _)), Z.mod_mod_divide, Z.add_mod_idemp_l by done.
    f_equal. lia.
  - unfold u32. rewrite Z.add_mod_idemp_l by lia. f_equal. lia.
Qed.

Lemma GCAddress_u32 a : is_u32 (GCAddress a).
Proof. apply is_u32_lor; [apply PPCTypes.is_u32_land_r|]; vm_compute; split; (discriminate || reflexivity). Qed.

(** C39. A fill writes an arithmetic progression: as many values as the count says, the
    value and the address growing by their signed increments, modulo their widths;
    the size of floating-point values is refused. *)
Theorem fill_is_a_progression val_last addr data :
  ZeroCode_FillAndSlide val_last addr data =M=
    (let size := ar_size val_last in
     let n := Z.to_nat (2 ^ size) in
     let count := Z.to_nat ((data .& 0xFF0000) .>> 16) in
     if size =? DATATYPE_32BIT_FLOAT then mret false
     else
       patch_all n (map (fun i => ((addr + Z.of_nat i * s8 (data .>> 24)) mod 2 ^ (8 * 2 ^ size),
                                   u32 (GCAddress val_last + Z.of_nat i * (s16 data * 2 ^ size)))) (seq 0 count)) ;;;
       mret true).
Proof.
  unfold ZeroCode_FillAndSlide. cbv zeta. assert (Hs : 0 <= ar_size val_last < 4).
  { unfold ar_size. rewrite (land_ones_mod 2) by done. apply Z.mod_pos_bound. lia. }
  assert (E16 : s16 (data .& 0xFFFF) = s16 data) by (rewrite land_0xffff; apply (s16_u16 data)).
  rewrite E16. assert (ar_size val_last = 0 \/ ar_size val_last = 1 \/ ar_size val_last = 2 \/ ar_size val_last = 3)
    as [->|[->|[->| ->]]] by lia; cbn [Z.eqb DATATYPE_8BIT]; try reflexivity.
  - apply mbind_proper; [|reflexivity]. rewrite <- (Z.mul_1_r (s16 data)) at 1.
    apply (slide_progression 1 (s16 data * 1)); [lia|apply GCAddress_u32].
  - apply mbind_proper; [|reflexivity]. apply (slide_progression 2); [lia|apply GCAddress_u32].
  - apply mbind_proper; [|reflexivity]. apply (slide_progression 4); [lia|apply GCAddress_u32].
Qed.

(** ** What the code does otherwise than it says *)

(** The number of bytes of a copy is cut to eight bits: 256 bytes are none. *)
Lemma memory_copy_of_256 val_last addr : ZeroCode_MemoryCopy val_last addr 0x100 =M= mret true.
Proof. intros s. reflexivity. Qed.

(** Bytes and halfwords are compared without their sign by the signed conditions. *)
Lemma signed_condition_unsigned v d : is_u16 v -> is_u16 d ->
  CompareValues v d CONDTIONAL_LESS_THAN_SIGNED = CompareValues v d CONDTIONAL_LESS_THAN_UNSIGNED.
Proof. intros Hv Hd. cbn. rewrite !s32_id by (unfold is_s32, is_u16 in *; lia). done. Qed.
End Fills.

(** Any text of the right lengths is taken for an encrypted line, and undefined. *)
Lemma strange_line_is_undefined :
  LoadCodes [] [mkSection section_AR [text_of "$code"; text_of "????-????-?????"]] = None.
Proof. reflexivity. Qed.

(** A code without entries is lost. *)
Lemma empty_code_is_lost format_08X :
  LoadCodes [] (SaveCodes format_08X [] [mkARCode (text_of "code") [] false false true]) = Some [].
Proof. reflexivity. Qed.

(** ** Concrete codes *)

(** If the word at 0x80001000 is 5: store a halfword and fill four bytes; then a byte for ever. *)
Definition sample_items : list item :=
  [Block (mkAREntry 0x8C001000 5) [Line (mkAREntry 0x02001004 0x1234); Fill 0x80001008 (mkAREntry 1 0x02040001)];
   When (mkAREntry 0x0A001000 7) [Line (mkAREntry 0x00001010 0xFF)];
   Line (mkAREntry 0x00001020 0x7F)].
Definition sample_code : ARCode := mkARCode (text_of "sample") (flat_map lines_of sample_items) true false true.

Lemma structured_codes_run_witness :
  RunCodeLocked (W := unit) (D := quiet_devices false) (fun _ _ => 0) sample_code =M=
    (x <- exec_all (D := quiet_devices false) (fun _ _ => 0) sample_items ;; mret (default true x)).
Proof. apply (structured_codes_run (D := quiet_devices false)); vm_compute; reflexivity. Defined.

(** Two codes shipped, the first one switched on by the user, and one of the user's. *)
Definition shipped_settings : IniFile :=
  [mkSection section_AR [text_of "$One  # a comment"; text_of "04001000 00000001"; text_of "$Two"; text_of "04001004 00000002"];
   mkSection (text_of "ACTIONREPLAY_enabled") [text_of "$Two"]].
Definition shipped_codes : list ARCode :=
  [mkARCode (text_of "One") [mkAREntry 0x04001000 1] true false false;
   mkARCode (text_of "Two") [mkAREntry 0x04001004 2] true true false].
Definition users_codes : list ARCode := [mkARCode (text_of "Mine") [mkAREntry 0x04001008 0xFFFFFFFF] true false true].
Definition unfinished_code : ARCode := mkARCode (text_of "Later") [] false false true.

Lemma saved_codes_load_witness :
  LoadCodes shipped_settings (SaveCodes hex8 [] (shipped_codes ++ unfinished_code :: users_codes)) = Some (shipped_codes ++ users_codes).
Proof.
  apply (saved_codes_load hex8 (fun x _ => eq_refl) shipped_settings [] shipped_codes (unfinished_code :: users_codes)).
  - vm_compute. reflexivity.
  - constructor; [split; [reflexivity|reflexivity|constructor]|]. constructor; [|constructor]. split; [reflexivity|reflexivity|].
    constructor; [|constructor]. split; split; (discriminate || reflexivity).
  - repeat (constructor; [split; [reflexivity|by apply (bool_decide_unpack _)]|]). constructor.
  - by apply (bool_decide_unpack _).
Defined.
