(* ===== verification/DSPTypes.v ===== *)
(** * DSP: data types and constants

    The constants and records of [Core/DSP/DSPCore.h] and
    [Core/DSP/DSPAccelerator.h], and the interface to the host
    ([Core/DSP/DSPHost.h]). *)
From S2P Require Export ErrState.

(** ** Constants of DSPCore.h *)

Definition DSP_IRAM_BYTE_SIZE := 0x2000.
Definition DSP_IRAM_SIZE := 0x1000.
Definition DSP_IRAM_MASK := 0x0fff.
Definition DSP_IROM_SIZE := 0x1000.
Definition DSP_IROM_MASK := 0x0fff.
Definition DSP_DRAM_SIZE := 0x1000.
Definition DSP_DRAM_MASK := 0x0fff.
Definition DSP_COEF_SIZE := 0x800.
Definition DSP_COEF_MASK := 0x7ff.
Definition DSP_RESET_VECTOR := 0x8000.
Definition DSP_STACK_DEPTH := 0x20.
Definition DSP_STACK_MASK := 0x1f.
Definition DSP_CR_IMEM := 2.
Definition DSP_CR_DMEM := 0.
Definition DSP_CR_TO_CPU := 1.
Definition DSP_CR_FROM_CPU := 0.

Definition DSP_REG_AR0 := 0x00.
Definition DSP_REG_AR1 := 0x01.
Definition DSP_REG_AR2 := 0x02.
Definition DSP_REG_AR3 := 0x03.
Definition DSP_REG_IX0 := 0x04.
Definition DSP_REG_IX1 := 0x05.
Definition DSP_REG_IX2 := 0x06.
Definition DSP_REG_IX3 := 0x07.
Definition DSP_REG_WR0 := 0x08.
Definition DSP_REG_WR1 := 0x09.
Definition DSP_REG_WR2 := 0x0a.
Definition DSP_REG_WR3 := 0x0b.
Definition DSP_REG_ST0 := 0x0c.
Definition DSP_REG_ST1 := 0x0d.
Definition DSP_REG_ST2 := 0x0e.
Definition DSP_REG_ST3 := 0x0f.
Definition DSP_REG_CR := 0x12.
Definition DSP_REG_SR := 0x13.
Definition DSP_REG_PRODL := 0x14.
Definition DSP_REG_PRODM := 0x15.
Definition DSP_REG_PRODH := 0x16.
Definition DSP_REG_PRODM2 := 0x17.
Definition DSP_REG_AXL0 := 0x18.
Definition DSP_REG_AXL1 := 0x19.
Definition DSP_REG_AXH0 := 0x1a.
Definition DSP_REG_AXH1 := 0x1b.
Definition DSP_REG_ACL0 := 0x1c.
Definition DSP_REG_ACL1 := 0x1d.
Definition DSP_REG_ACM0 := 0x1e.
Definition DSP_REG_ACM1 := 0x1f.
Definition DSP_REG_ACH0 := 0x10.
Definition DSP_REG_ACH1 := 0x11.

Definition DSP_COEF_A1_0 := 0xa0.
Definition DSP_DSCR := 0xc9.
Definition DSP_DSPA := 0xcd.
Definition DSP_DSBL := 0xcb.
Definition DSP_DSMAH := 0xce.
Definition DSP_DSMAL := 0xcf.
Definition DSP_FORMAT := 0xd1.
Definition DSP_ACDRAW := 0xd3.
Definition DSP_ACSAH := 0xd4.
Definition DSP_ACSAL := 0xd5.
Definition DSP_ACEAH := 0xd6.
Definition DSP_ACEAL := 0xd7.
Definition DSP_ACCAH := 0xd8.
Definition DSP_ACCAL := 0xd9.
Definition DSP_PRED_SCALE := 0xda.
Definition DSP_YN1 := 0xdb.
Definition DSP_YN2 := 0xdc.
Definition DSP_ACDSAMP := 0xdd.
Definition DSP_GAIN := 0xde.
Definition DSP_ACIN := 0xdf.
Definition DSP_AMDM := 0xef.
Definition DSP_DIRQ := 0xfb.
Definition DSP_DMBH := 0xfc.
Definition DSP_DMBL := 0xfd.
Definition DSP_CMBH := 0xfe.
Definition DSP_CMBL := 0xff.

Inductive StackRegister := Call | Data | LoopAddress | LoopCounter.
(** [static_cast<size_t>(stack_reg)] *)
Definition stack_index (reg : StackRegister) : Z :=
  match reg with Call => 0 | Data => 1 | LoopAddress => 2 | LoopCounter => 3 end.

Definition CR_RESET := 0x0001.
Definition CR_EXTERNAL_INT := 0x0002.
Definition CR_HALT := 0x0004.
Definition CR_INIT_CODE := 0x0400.
Definition CR_INIT := 0x0800.

Definition SR_CARRY := 0x0001.
Definition SR_OVERFLOW := 0x0002.
Definition SR_ARITH_ZERO := 0x0004.
Definition SR_SIGN := 0x0008.
Definition SR_OVER_S32 := 0x0010.
Definition SR_TOP2BITS := 0x0020.
Definition SR_LOGIC_ZERO := 0x0040.
Definition SR_OVERFLOW_STICKY := 0x0080.
Definition SR_100 := 0x0100.
Definition SR_INT_ENABLE := 0x0200.
Definition SR_400 := 0x0400.
Definition SR_EXT_INT_ENABLE := 0x0800.
Definition SR_1000 := 0x1000.
Definition SR_MUL_MODIFY := 0x2000.
Definition SR_40_MODE_BIT := 0x4000.
Definition SR_MUL_UNSIGNED := 0x8000.
Definition SR_CMP_MASK := 0x003f.

Inductive ExceptionType :=
  | StackOverflow | EXP_2 | AcceleratorRawReadOverflow | AcceleratorRawWriteOverflow
  | AcceleratorSampleReadOverflow | EXP_6 | ExternalInterrupt.
Definition exception_index (e : ExceptionType) : Z :=
  match e with
  | StackOverflow => 1 | EXP_2 => 2 | AcceleratorRawReadOverflow => 3
  | AcceleratorRawWriteOverflow => 4 | AcceleratorSampleReadOverflow => 5
  | EXP_6 => 6 | ExternalInterrupt => 7
  end.

Inductive Mailbox := MailboxCPU | MailboxDSP.
Definition mailbox_index (m : Mailbox) : Z := match m with MailboxCPU => 0 | MailboxDSP => 1 end.

(** ** Registers

    The unions of [DSP_Regs] are kept as their parts: [l], [m], [h] (32 bits,
    so that [val] is sign-extended) of an accumulator, [l], [m], [h], [m2] of
    the product, [l], [h] of a secondary accumulator. *)

Record Acc := mkAcc {
  acc_l : Z;
  acc_m : Z;
  acc_h : Z
}.
Record Prod := mkProd {
  prod_l : Z;
  prod_m : Z;
  prod_h : Z;
  prod_m2 : Z
}.
Record Ax := mkAx {
  ax_l : Z;
  ax_h : Z
}.
Record DSP_Regs := mkRegs {
  r_ar : list Z;
  r_ix : list Z;
  r_wr : list Z;
  r_st : list Z;
  r_cr : Z;
  r_sr : Z;
  r_prod : Prod;
  r_ax : list Ax;
  r_ac : list Acc
}.

Definition set_acc_l (x : Z) (a : Acc) : Acc :=
  mkAcc x (acc_m a) (acc_h a).
Definition set_acc_m (x : Z) (a : Acc) : Acc :=
  mkAcc (acc_l a) x (acc_h a).
Definition set_acc_h (x : Z) (a : Acc) : Acc :=
  mkAcc (acc_l a) (acc_m a) x.
Definition set_prod_l (x : Z) (p : Prod) : Prod :=
  mkProd x (prod_m p) (prod_h p) (prod_m2 p).
Definition set_prod_m (x : Z) (p : Prod) : Prod :=
  mkProd (prod_l p) x (prod_h p) (prod_m2 p).
Definition set_prod_h (x : Z) (p : Prod) : Prod :=
  mkProd (prod_l p) (prod_m p) x (prod_m2 p).
Definition set_prod_m2 (x : Z) (p : Prod) : Prod :=
  mkProd (prod_l p) (prod_m p) (prod_h p) x.
Definition set_ax_l (x : Z) (a : Ax) : Ax :=
  mkAx x (ax_h a).
Definition set_ax_h (x : Z) (a : Ax) : Ax :=
  mkAx (ax_l a) x.
Definition set_r_ar (x : list Z) (q : DSP_Regs) : DSP_Regs :=
  mkRegs x (r_ix q) (r_wr q) (r_st q) (r_cr q) (r_sr q) (r_prod q) (r_ax q) (r_ac q).
Definition set_r_ix (x : list Z) (q : DSP_Regs) : DSP_Regs :=
  mkRegs (r_ar q) x (r_wr q) (r_st q) (r_cr q) (r_sr q) (r_prod q) (r_ax q) (r_ac q).
Definition set_r_wr (x : list Z) (q : DSP_Regs) : DSP_Regs :=
  mkRegs (r_ar q) (r_ix q) x (r_st q) (r_cr q) (r_sr q) (r_prod q) (r_ax q) (r_ac q).
Definition set_r_st (x : list Z) (q : DSP_Regs) : DSP_Regs :=
  mkRegs (r_ar q) (r_ix q) (r_wr q) x (r_cr q) (r_sr q) (r_prod q) (r_ax q) (r_ac q).
Definition set_r_cr (x : Z) (q : DSP_Regs) : DSP_Regs :=
  mkRegs (r_ar q) (r_ix q) (r_wr q) (r_st q) x (r_sr q) (r_prod q) (r_ax q) (r_ac q).
Definition set_r_sr (x : Z) (q : DSP_Regs) : DSP_Regs :=
  mkRegs (r_ar q) (r_ix q) (r_wr q) (r_st q) (r_cr q) x (r_prod q) (r_ax q) (r_ac q).
Definition set_r_prod (x : Prod) (q : DSP_Regs) : DSP_Regs :=
  mkRegs (r_ar q) (r_ix q) (r_wr q) (r_st q) (r_cr q) (r_sr q) x (r_ax q) (r_ac q).
Definition set_r_ax (x : list Ax) (q : DSP_Regs) : DSP_Regs :=
  mkRegs (r_ar q) (r_ix q) (r_wr q) (r_st q) (r_cr q) (r_sr q) (r_prod q) x (r_ac q).
Definition set_r_ac (x : list Acc) (q : DSP_Regs) : DSP_Regs :=
  mkRegs (r_ar q) (r_ix q) (r_wr q) (r_st q) (r_cr q) (r_sr q) (r_prod q) (r_ax q) x.

(** ** The accelerator's registers *)

Record Accelerator := mkAccelerator {
  m_start_address : Z;
  m_end_address : Z;
  m_current_address : Z;
  m_sample_format : Z;
  m_gain : Z;
  m_yn1 : Z;
  m_yn2 : Z;
  m_pred_scale : Z;
  m_input : Z;
  m_reads_stopped : bool
}.

Definition set_m_start_address (x : Z) (a : Accelerator) : Accelerator :=
  mkAccelerator x (m_end_address a) (m_current_address a) (m_sample_format a) (m_gain a)
    (m_yn1 a) (m_yn2 a) (m_pred_scale a) (m_input a) (m_reads_stopped a).
Definition set_m_end_address (x : Z) (a : Accelerator) : Accelerator :=
  mkAccelerator (m_start_address a) x (m_current_address a) (m_sample_format a) (m_gain a)
    (m_yn1 a) (m_yn2 a) (m_pred_scale a) (m_input a) (m_reads_stopped a).
Definition set_m_current_address (x : Z) (a : Accelerator) : Accelerator :=
  mkAccelerator (m_start_address a) (m_end_address a) x (m_sample_format a) (m_gain a) (m_yn1 a)
    (m_yn2 a) (m_pred_scale a) (m_input a) (m_reads_stopped a).
Definition set_m_sample_format (x : Z) (a : Accelerator) : Accelerator :=
  mkAccelerator (m_start_address a) (m_end_address a) (m_current_address a) x (m_gain a)
    (m_yn1 a) (m_yn2 a) (m_pred_scale a) (m_input a) (m_reads_stopped a).
Definition set_m_gain (x : Z) (a : Accelerator) : Accelerator :=
  mkAccelerator (m_start_address a) (m_end_address a) (m_current_address a) (m_sample_format a)
    x (m_yn1 a) (m_yn2 a) (m_pred_scale a) (m_input a) (m_reads_stopped a).
Definition set_m_yn1 (x : Z) (a : Accelerator) : Accelerator :=
  mkAccelerator (m_start_address a) (m_end_address a) (m_current_address a) (m_sample_format a)
    (m_gain a) x (m_yn2 a) (m_pred_scale a) (m_input a) (m_reads_stopped a).
Definition set_m_yn2 (x : Z) (a : Accelerator) : Accelerator :=
  mkAccelerator (m_start_address a) (m_end_address a) (m_current_address a) (m_sample_format a)
    (m_gain a) (m_yn1 a) x (m_pred_scale a) (m_input a) (m_reads_stopped a).
Definition set_m_pred_scale (x : Z) (a : Accelerator) : Accelerator :=
  mkAccelerator (m_start_address a) (m_end_address a) (m_current_address a) (m_sample_format a)
    (m_gain a) (m_yn1 a) (m_yn2 a) x (m_input a) (m_reads_stopped a).
Definition set_m_input (x : Z) (a : Accelerator) : Accelerator :=
  mkAccelerator (m_start_address a) (m_end_address a) (m_current_address a) (m_sample_format a)
    (m_gain a) (m_yn1 a) (m_yn2 a) (m_pred_scale a) x (m_reads_stopped a).
Definition set_m_reads_stopped (x : bool) (a : Accelerator) : Accelerator :=
  mkAccelerator (m_start_address a) (m_end_address a) (m_current_address a) (m_sample_format a)
    (m_gain a) (m_yn1 a) (m_yn2 a) (m_pred_scale a) (m_input a) x.

(** ** The host

    What the core asks of its user ([DSPHost.h]): ARAM accesses, copies from
    and to emulated memory, the interrupt line and the time base.  The laws
    are what the core relies on: bytes are bytes, and a copy of [size] bytes
    yields [size / 2] sixteen-bit words. *)

Class DSPHost (H : Type) := {
  ReadHostMemory : H -> Z -> Z;
  WriteHostMemory : H -> Z -> Z -> H;
  RangeValid : H -> Z -> Z -> bool;
  EmuBytes : H -> Z -> Z -> list Z;
  CopyFromEmuSwapped : H -> Z -> Z -> list Z;
  CopyToEmuSwapped : H -> Z -> list Z -> H;
  InterruptRequest : H -> H;
  GetFakeTimeBase : H -> Z;
  ForceExceptionCheck : H -> Z -> H;
  ReadHostMemory_u8 : forall h a, is_u8 (ReadHostMemory h a);
  CopyFromEmuSwapped_u16 : forall h a n, Forall is_u16 (CopyFromEmuSwapped h a n);
  CopyFromEmuSwapped_length : forall h a n,
    0 <= n -> Z.of_nat (length (CopyFromEmuSwapped h a n)) = n / 2;
  EmuBytes_u8 : forall h a n, Forall is_u8 (EmuBytes h a n)
}.

(** ** The machine state

    The fields of [SDSP], then the analyzer's code flags and the back log of
    the [Interpreter] object that runs on it, then the host. *)

Record SDSP {H : Type} := mkSDSP {
  r : DSP_Regs;
  pc : Z;
  control_reg : Z;
  control_reg_init_code_clear_time : Z;
  reg_stack_ptrs : list Z;
  exceptions : Z;
  external_interrupt_waiting : bool;
  reg_stacks : list (list Z);
  iram : Mem;
  dram : Mem;
  irom : Mem;
  coef : Mem;
  m_iram_crc : Z;
  m_step_counter : Z;
  m_ifx_regs : Mem;
  m_accelerator : Accelerator;
  m_mailbox : list Z;
  m_code_flags : gmap Z Z;
  m_write_back_log : list Z;
  m_write_back_log_idx : list Z;
  host : H
}.
Arguments SDSP _ : clear implicits.
Arguments mkSDSP {H}.

Section Setters.
  Context {H : Type}.

Definition set_r (x : DSP_Regs) (s : SDSP H) : SDSP H :=
  mkSDSP x (pc s) (control_reg s) (control_reg_init_code_clear_time s) (reg_stack_ptrs s)
    (exceptions s) (external_interrupt_waiting s) (reg_stacks s) (iram s) (dram s) (irom s)
    (coef s) (m_iram_crc s) (m_step_counter s) (m_ifx_regs s) (m_accelerator s) (m_mailbox s)
    (m_code_flags s) (m_write_back_log s) (m_write_back_log_idx s) (host s).
Definition set_pc (x : Z) (s : SDSP H) : SDSP H :=
  mkSDSP (r s) x (control_reg s) (control_reg_init_code_clear_time s) (reg_stack_ptrs s)
    (exceptions s) (external_interrupt_waiting s) (reg_stacks s) (iram s) (dram s) (irom s)
    (coef s) (m_iram_crc s) (m_step_counter s) (m_ifx_regs s) (m_accelerator s) (m_mailbox s)
    (m_code_flags s) (m_write_back_log s) (m_write_back_log_idx s) (host s).
Definition set_control_reg (x : Z) (s : SDSP H) : SDSP H :=
  mkSDSP (r s) (pc s) x (control_reg_init_code_clear_time s) (reg_stack_ptrs s) (exceptions s)
    (external_interrupt_waiting s) (reg_stacks s) (iram s) (dram s) (irom s) (coef s)
    (m_iram_crc s) (m_step_counter s) (m_ifx_regs s) (m_accelerator s) (m_mailbox s)
    (m_code_flags s) (m_write_back_log s) (m_write_back_log_idx s) (host s).
Definition set_control_reg_init_code_clear_time (x : Z) (s : SDSP H) : SDSP H :=
  mkSDSP (r s) (pc s) (control_reg s) x (reg_stack_ptrs s) (exceptions s)
    (external_interrupt_waiting s) (reg_stacks s) (iram s) (dram s) (irom s) (coef s)
    (m_iram_crc s) (m_step_counter s) (m_ifx_regs s) (m_accelerator s) (m_mailbox s)
    (m_code_flags s) (m_write_back_log s) (m_write_back_log_idx s) (host s).
Definition set_reg_stack_ptrs (x : list Z) (s : SDSP H) : SDSP H :=
  mkSDSP (r s) (pc s) (control_reg s) (control_reg_init_code_clear_time s) x (exceptions s)
    (external_interrupt_waiting s) (reg_stacks s) (iram s) (dram s) (irom s) (coef s)
    (m_iram_crc s) (m_step_counter s) (m_ifx_regs s) (m_accelerator s) (m_mailbox s)
    (m_code_flags s) (m_write_back_log s) (m_write_back_log_idx s) (host s).
Definition set_exceptions (x : Z) (s : SDSP H) : SDSP H :=
  mkSDSP (r s) (pc s) (control_reg s) (control_reg_init_code_clear_time s) (reg_stack_ptrs s) x
    (external_interrupt_waiting s) (reg_stacks s) (iram s) (dram s) (irom s) (coef s)
    (m_iram_crc s) (m_step_counter s) (m_ifx_regs s) (m_accelerator s) (m_mailbox s)
    (m_code_flags s) (m_write_back_log s) (m_write_back_log_idx s) (host s).
Definition set_external_interrupt_waiting (x : bool) (s : SDSP H) : SDSP H :=
  mkSDSP (r s) (pc s) (control_reg s) (control_reg_init_code_clear_time s) (reg_stack_ptrs s)
    (exceptions s) x (reg_stacks s) (iram s) (dram s) (irom s) (coef s) (m_iram_crc s)
    (m_step_counter s) (m_ifx_regs s) (m_accelerator s) (m_mailbox s) (m_code_flags s)
    (m_write_back_log s) (m_write_back_log_idx s) (host s).
Definition set_reg_stacks (x : list (list Z)) (s : SDSP H) : SDSP H :=
  mkSDSP (r s) (pc s) (control_reg s) (control_reg_init_code_clear_time s) (reg_stack_ptrs s)
    (exceptions s) (external_interrupt_waiting s) x (iram s) (dram s) (irom s) (coef s)
    (m_iram_crc s) (m_step_counter s) (m_ifx_regs s) (m_accelerator s) (m_mailbox s)
    (m_code_flags s) (m_write_back_log s) (m_write_back_log_idx s) (host s).
Definition set_iram (x : Mem) (s : SDSP H) : SDSP H :=
  mkSDSP (r s) (pc s) (control_reg s) (control_reg_init_code_clear_time s) (reg_stack_ptrs s)
    (exceptions s) (external_interrupt_waiting s) (reg_stacks s) x (dram s) (irom s) (coef s)
    (m_iram_crc s) (m_step_counter s) (m_ifx_regs s) (m_accelerator s) (m_mailbox s)
    (m_code_flags s) (m_write_back_log s) (m_write_back_log_idx s) (host s).
Definition set_dram (x : Mem) (s : SDSP H) : SDSP H :=
  mkSDSP (r s) (pc s) (control_reg s) (control_reg_init_code_clear_time s) (reg_stack_ptrs s)
    (exceptions s) (external_interrupt_waiting s) (reg_stacks s) (iram s) x (irom s) (coef s)
    (m_iram_crc s) (m_step_counter s) (m_ifx_regs s) (m_accelerator s) (m_mailbox s)
    (m_code_flags s) (m_write_back_log s) (m_write_back_log_idx s) (host s).
Definition set_irom (x : Mem) (s : SDSP H) : SDSP H :=
  mkSDSP (r s) (pc s) (control_reg s) (control_reg_init_code_clear_time s) (reg_stack_ptrs s)
    (exceptions s) (external_interrupt_waiting s) (reg_stacks s) (iram s) (dram s) x (coef s)
    (m_iram_crc s) (m_step_counter s) (m_ifx_regs s) (m_accelerator s) (m_mailbox s)
    (m_code_flags s) (m_write_back_log s) (m_write_back_log_idx s) (host s).
Definition set_coef (x : Mem) (s : SDSP H) : SDSP H :=
  mkSDSP (r s) (pc s) (control_reg s) (control_reg_init_code_clear_time s) (reg_stack_ptrs s)
    (exceptions s) (external_interrupt_waiting s) (reg_stacks s) (iram s) (dram s) (irom s) x
    (m_iram_crc s) (m_step_counter s) (m_ifx_regs s) (m_accelerator s) (m_mailbox s)
    (m_code_flags s) (m_write_back_log s) (m_write_back_log_idx s) (host s).
Definition set_m_iram_crc (x : Z) (s : SDSP H) : SDSP H :=
  mkSDSP (r s) (pc s) (control_reg s) (control_reg_init_code_clear_time s) (reg_stack_ptrs s)
    (exceptions s) (external_interrupt_waiting s) (reg_stacks s) (iram s) (dram s) (irom s)
    (coef s) x (m_step_counter s) (m_ifx_regs s) (m_accelerator s) (m_mailbox s)
    (m_code_flags s) (m_write_back_log s) (m_write_back_log_idx s) (host s).
Definition set_m_step_counter (x : Z) (s : SDSP H) : SDSP H :=
  mkSDSP (r s) (pc s) (control_reg s) (control_reg_init_code_clear_time s) (reg_stack_ptrs s)
    (exceptions s) (external_interrupt_waiting s) (reg_stacks s) (iram s) (dram s) (irom s)
    (coef s) (m_iram_crc s) x (m_ifx_regs s) (m_accelerator s) (m_mailbox s) (m_code_flags s)
    (m_write_back_log s) (m_write_back_log_idx s) (host s).
Definition set_m_ifx_regs (x : Mem) (s : SDSP H) : SDSP H :=
  mkSDSP (r s) (pc s) (control_reg s) (control_reg_init_code_clear_time s) (reg_stack_ptrs s)
    (exceptions s) (external_interrupt_waiting s) (reg_stacks s) (iram s) (dram s) (irom s)
    (coef s) (m_iram_crc s) (m_step_counter s) x (m_accelerator s) (m_mailbox s)
    (m_code_flags s) (m_write_back_log s) (m_write_back_log_idx s) (host s).
Definition set_m_accelerator (x : Accelerator) (s : SDSP H) : SDSP H :=
  mkSDSP (r s) (pc s) (control_reg s) (control_reg_init_code_clear_time s) (reg_stack_ptrs s)
    (exceptions s) (external_interrupt_waiting s) (reg_stacks s) (iram s) (dram s) (irom s)
    (coef s) (m_iram_crc s) (m_step_counter s) (m_ifx_regs s) x (m_mailbox s) (m_code_flags s)
    (m_write_back_log s) (m_write_back_log_idx s) (host s).
Definition set_m_mailbox (x : list Z) (s : SDSP H) : SDSP H :=
  mkSDSP (r s) (pc s) (control_reg s) (control_reg_init_code_clear_time s) (reg_stack_ptrs s)
    (exceptions s) (external_interrupt_waiting s) (reg_stacks s) (iram s) (dram s) (irom s)
    (coef s) (m_iram_crc s) (m_step_counter s) (m_ifx_regs s) (m_accelerator s) x
    (m_code_flags s) (m_write_back_log s) (m_write_back_log_idx s) (host s).
Definition set_m_code_flags (x : gmap Z Z) (s : SDSP H) : SDSP H :=
  mkSDSP (r s) (pc s) (control_reg s) (control_reg_init_code_clear_time s) (reg_stack_ptrs s)
    (exceptions s) (external_interrupt_waiting s) (reg_stacks s) (iram s) (dram s) (irom s)
    (coef s) (m_iram_crc s) (m_step_counter s) (m_ifx_regs s) (m_accelerator s) (m_mailbox s) x
    (m_write_back_log s) (m_write_back_log_idx s) (host s).
Definition set_m_write_back_log (x : list Z) (s : SDSP H) : SDSP H :=
  mkSDSP (r s) (pc s) (control_reg s) (control_reg_init_code_clear_time s) (reg_stack_ptrs s)
    (exceptions s) (external_interrupt_waiting s) (reg_stacks s) (iram s) (dram s) (irom s)
    (coef s) (m_iram_crc s) (m_step_counter s) (m_ifx_regs s) (m_accelerator s) (m_mailbox s)
    (m_code_flags s) x (m_write_back_log_idx s) (host s).
Definition set_m_write_back_log_idx (x : list Z) (s : SDSP H) : SDSP H :=
  mkSDSP (r s) (pc s) (control_reg s) (control_reg_init_code_clear_time s) (reg_stack_ptrs s)
    (exceptions s) (external_interrupt_waiting s) (reg_stacks s) (iram s) (dram s) (irom s)
    (coef s) (m_iram_crc s) (m_step_counter s) (m_ifx_regs s) (m_accelerator s) (m_mailbox s)
    (m_code_flags s) (m_write_back_log s) x (host s).
Definition set_host (x : H) (s : SDSP H) : SDSP H :=
  mkSDSP (r s) (pc s) (control_reg s) (control_reg_init_code_clear_time s) (reg_stack_ptrs s)
    (exceptions s) (external_interrupt_waiting s) (reg_stacks s) (iram s) (dram s) (irom s)
    (coef s) (m_iram_crc s) (m_step_counter s) (m_ifx_regs s) (m_accelerator s) (m_mailbox s)
    (m_code_flags s) (m_write_back_log s) (m_write_back_log_idx s) x.
End Setters.

(** * DSP: the state invariant

    [wf] is the type invariant of the machine state: every register holds a
    value of its C++ width, the accumulators are sign-extended 40-bit values,
    the arrays have their C++ lengths, the stack pointers stay inside the
    stacks and the back log keeps its terminating entry. *)

Definition wf_acc (a : Acc) : Prop :=
  is_u16 (acc_l a) /\ is_u16 (acc_m a) /\
  (0 <= acc_h a < 0x80 \/ 0xffffff80 <= acc_h a < 0x100000000).
Definition wf_prod (p : Prod) : Prop :=
  is_u16 (prod_l p) /\ is_u16 (prod_m p) /\ is_u8 (prod_h p) /\ is_u16 (prod_m2 p).
Definition wf_ax (a : Ax) : Prop := is_u16 (ax_l a) /\ is_u16 (ax_h a).

Record wf_regs (q : DSP_Regs) : Prop := {
  wf_ar : arr_wf 4 is_u16 (r_ar q);
  wf_ix : arr_wf 4 is_u16 (r_ix q);
  wf_wr : arr_wf 4 is_u16 (r_wr q);
  wf_st : arr_wf 4 is_u16 (r_st q);
  wf_cr : is_u8 (r_cr q);
  wf_sr : is_u16 (r_sr q);
  wf_prd : wf_prod (r_prod q);
  wf_axs : arr_wf 2 wf_ax (r_ax q);
  wf_acs : arr_wf 2 wf_acc (r_ac q)
}.

Definition wf_mem (n : Z) (m : Mem) : Prop :=
  mem_size m = n /\ is_u16 (mem_fill m) /\ map_Forall (fun _ v => is_u16 v) (mem_data m).

Record wf_accel (a : Accelerator) : Prop := {
  wf_start : is_u32 (m_start_address a);
  wf_end : is_u32 (m_end_address a);
  wf_current : is_u32 (m_current_address a);
  wf_format : is_u16 (m_sample_format a);
  wf_gain : is_s16 (m_gain a);
  wf_yn1 : is_s16 (m_yn1 a);
  wf_yn2 : is_s16 (m_yn2 a);
  wf_pred_scale : is_u8 (m_pred_scale a);
  wf_input : is_u16 (m_input a)
}.

Definition wf_stack (l : list Z) : Prop := arr_wf DSP_STACK_DEPTH is_u16 l.
Definition wf_ptr (p : Z) : Prop := 0 <= p < DSP_STACK_DEPTH.
Definition wf_idx (i : Z) : Prop := -1 <= i < 0x20.

Record wf {H} (s : SDSP H) : Prop := {
  wf_r : wf_regs (r s);
  wf_pc : is_u16 (pc s);
  wf_control : is_u16 (control_reg s);
  wf_ptrs : arr_wf 4 wf_ptr (reg_stack_ptrs s);
  wf_exceptions : is_u8 (exceptions s);
  wf_stacks : arr_wf 4 wf_stack (reg_stacks s);
  wf_iram : wf_mem DSP_IRAM_SIZE (iram s);
  wf_dram : wf_mem DSP_DRAM_SIZE (dram s);
  wf_irom : wf_mem DSP_IROM_SIZE (irom s);
  wf_coef : wf_mem DSP_COEF_SIZE (coef s);
  wf_ifx : wf_mem 256 (m_ifx_regs s);
  wf_accelerator : wf_accel (m_accelerator s);
  wf_mailbox : arr_wf 2 is_u32 (m_mailbox s);
  wf_log : arr_wf 5 is_u16 (m_write_back_log s);
  wf_log_idx : arr_wf 5 wf_idx (m_write_back_log_idx s);
  wf_log_end : m_write_back_log_idx s !! 4%nat = Some (-1)
}.

(** ** Array lemmas *)

Lemma mem_get_wf n m i : wf_mem n m -> 0 <= i < n -> exists v, mem_get m i = Some v /\ is_u16 v.
Proof.
  intros (Hn & Hf & Hd) Hi. unfold mem_get, mem_in.
  rewrite (proj2 (Z.leb_le 0 i)), (proj2 (Z.ltb_lt i _)) by lia.
  eexists. split; [done|]. destruct (mem_data m !! i) as [v|] eqn:E; simpl; [|done].
  by apply (Hd i).
Qed.

Lemma mem_set_wf n m i v :
  wf_mem n m -> 0 <= i < n -> is_u16 v -> exists m', mem_set m i v = Some m' /\ wf_mem n m'.
Proof.
  intros (Hn & Hf & Hd) Hi Hv. unfold mem_set, mem_in.
  rewrite (proj2 (Z.leb_le 0 i)), (proj2 (Z.ltb_lt i _)) by lia.
  eexists. split; [done|]. refine (conj Hn (conj Hf _)). by apply map_Forall_insert_2.
Qed.

Lemma mem_set_wf_some n m i v m' :
  wf_mem n m -> is_u16 v -> mem_set m i v = Some m' -> wf_mem n m'.
Proof.
  unfold mem_set. intros (Hn & Hf & Hd) Hv. destruct (mem_in m i); [|done]. intros [= <-].
  refine (conj Hn (conj Hf _)). by apply map_Forall_insert_2.
Qed.

(** Preservation of [wf] by a setter: the changed field's condition is left. *)
Ltac wf_set :=
  intros; match goal with Hwf : wf ?s |- wf _ => destruct s, Hwf; constructor; simpl in *; auto end.

Ltac wf_regs_set :=
  intros; match goal with Hwf : wf_regs ?q |- wf_regs _ => destruct q, Hwf; constructor; simpl in *; auto end.

Lemma wf_set_r {H} q (s : SDSP H) : wf s -> wf_regs q -> wf (set_r q s).
Proof. wf_set. Qed.
