(* ===== verification/DSPState.v ===== *)
(** * DSP: register access

    Accessors for the fields of [SDSP] ([state.r.ar[i]] and the like, with the
    bounds of their arrays), its status-register helpers, and the tactic that
    proves that a computation stays inside the state invariant. *)
From S2P Require Export DSPTypes.

(** [case lo: ... case hi:] of a register switch. *)
Definition reg_in (lo hi reg : Z) : bool := (lo <=? reg) && (reg <=? hi).

Section State.
Context {H : Type}.
Implicit Types (i v : Z).

(** ** Accessors: [state.r.ar[i]] and the like *)

Definition read_arr {A} (f : SDSP H -> list A) i : M (SDSP H) A :=
  l <- mget f ;; mopt ArrayBounds (zget l i).
Definition write_arr {A} (f : SDSP H -> list A) (set : list A -> SDSP H -> SDSP H) i (x : A) :
    M (SDSP H) unit :=
  l <- mget f ;; l' <- mopt ArrayBounds (zset l i x) ;; mmodify (set l').

Definition on_regs (f : DSP_Regs -> DSP_Regs) (s : SDSP H) : SDSP H := set_r (f (r s)) s.

Definition get_ar i : M (SDSP H) Z := read_arr (fun s => r_ar (r s)) i.
Definition put_ar i v : M (SDSP H) unit :=
  write_arr (fun s => r_ar (r s)) (fun l => on_regs (set_r_ar l)) i v.
Definition get_ix i : M (SDSP H) Z := read_arr (fun s => r_ix (r s)) i.
Definition put_ix i v : M (SDSP H) unit :=
  write_arr (fun s => r_ix (r s)) (fun l => on_regs (set_r_ix l)) i v.
Definition get_wr i : M (SDSP H) Z := read_arr (fun s => r_wr (r s)) i.
Definition put_wr i v : M (SDSP H) unit :=
  write_arr (fun s => r_wr (r s)) (fun l => on_regs (set_r_wr l)) i v.
Definition get_st i : M (SDSP H) Z := read_arr (fun s => r_st (r s)) i.
Definition put_st i v : M (SDSP H) unit :=
  write_arr (fun s => r_st (r s)) (fun l => on_regs (set_r_st l)) i v.
Definition get_ax i : M (SDSP H) Ax := read_arr (fun s => r_ax (r s)) i.
Definition put_ax i (x : Ax) : M (SDSP H) unit :=
  write_arr (fun s => r_ax (r s)) (fun l => on_regs (set_r_ax l)) i x.
Definition get_ac i : M (SDSP H) Acc := read_arr (fun s => r_ac (r s)) i.
Definition put_ac i (x : Acc) : M (SDSP H) unit :=
  write_arr (fun s => r_ac (r s)) (fun l => on_regs (set_r_ac l)) i x.
Definition get_cr : M (SDSP H) Z := mget (fun s => r_cr (r s)).
Definition put_cr v : M (SDSP H) unit := mmodify (on_regs (set_r_cr v)).
Definition get_sr : M (SDSP H) Z := mget (fun s => r_sr (r s)).
Definition put_sr v : M (SDSP H) unit := mmodify (on_regs (set_r_sr v)).
Definition get_prod : M (SDSP H) Prod := mget (fun s => r_prod (r s)).
Definition put_prod (p : Prod) : M (SDSP H) unit := mmodify (on_regs (set_r_prod p)).
Definition get_pc : M (SDSP H) Z := mget pc.
Definition put_pc v : M (SDSP H) unit := mmodify (set_pc v).

(** [state.r.ac[i].m = v] and the other partial writes of the unions. *)
Definition put_acl i v : M (SDSP H) unit := a <- get_ac i ;; put_ac i (set_acc_l v a).
Definition put_acm i v : M (SDSP H) unit := a <- get_ac i ;; put_ac i (set_acc_m v a).
Definition put_ach i v : M (SDSP H) unit := a <- get_ac i ;; put_ac i (set_acc_h v a).
Definition put_axl i v : M (SDSP H) unit := a <- get_ax i ;; put_ax i (set_ax_l v a).
Definition put_axh i v : M (SDSP H) unit := a <- get_ax i ;; put_ax i (set_ax_h v a).

(** ** Status register *)

Definition SetSRFlag (flag : Z) : M (SDSP H) unit := sr <- get_sr ;; put_sr (sr .| flag).
Definition IsSRFlagSet (flag : Z) : M (SDSP H) bool :=
  sr <- get_sr ;; mret (negb (sr .& flag =? 0)).
(** [state.r.sr &= ~flag] *)
Definition ClearSRFlag (flag : Z) : M (SDSP H) unit := sr <- get_sr ;; put_sr (sr .& .~ flag).

(** ** Safety of the accessors *)

(** The faults an instruction may end in: those of a DMA transfer. *)
Definition dma_fault (f : fault) : Prop := f = DmaBounds \/ f = NullPointer \/ f = ProcessExit.

Definition dsafe {A} (m : M (SDSP H) A) (R : A -> Prop) : Prop := safe wf dma_fault m R.
Definition any {A} (_ : A) : Prop := True.

Lemma dsafe_ret {A} (a : A) (R : A -> Prop) : R a -> dsafe (mret a) R.
Proof. apply safe_mret. Qed.

Lemma dsafe_bind {A B} (m : M (SDSP H) A) (k : A -> M (SDSP H) B) Q R :
  dsafe m Q -> (forall a, Q a -> dsafe (k a) R) -> dsafe (mbind m k) R.
Proof. apply safe_bind. Qed.

Lemma dsafe_weaken {A} (m : M (SDSP H) A) (Q R : A -> Prop) :
  dsafe m Q -> (forall a, Q a -> R a) -> dsafe m R.
Proof. apply safe_weaken. Qed.

Lemma dsafe_any {A} (m : M (SDSP H) A) (Q : A -> Prop) : dsafe m Q -> dsafe m any.
Proof. intros Hm. by apply (dsafe_weaken _ _ _ Hm). Qed.

Lemma dsafe_if {A} (b : bool) (m1 m2 : M (SDSP H) A) R :
  (b = true -> dsafe m1 R) -> (b = false -> dsafe m2 R) -> dsafe (if b then m1 else m2) R.
Proof. apply safe_if. Qed.

Lemma dsafe_when (b : bool) (m : M (SDSP H) unit) :
  (b = true -> dsafe m any) -> dsafe (mwhen b m) any.
Proof. destruct b; intros Hm; [by apply Hm|by apply dsafe_ret]. Qed.

Lemma dsafe_get {A} (f : SDSP H -> A) (R : A -> Prop) :
  (forall s, wf s -> R (f s)) -> dsafe (mget f) R.
Proof. apply safe_get. Qed.

Lemma dsafe_modify (f : SDSP H -> SDSP H) : (forall s, wf s -> wf (f s)) -> dsafe (mmodify f) any.
Proof. intros Hf s Hs. split; [auto|done]. Qed.

Lemma dsafe_read_arr {A} (f : SDSP H -> list A) n P i :
  (forall s, wf s -> arr_wf n P (f s)) -> 0 <= i < n -> dsafe (read_arr f i) P.
Proof.
  intros Hf Hi s Hs. unfold read_arr, mbind, mget.
  destruct (zget_arr n P (f s) i (Hf s Hs) Hi) as (a & -> & HP). by split.
Qed.

Lemma dsafe_write_arr {A} (f : SDSP H -> list A) set n P i x :
  (forall s, wf s -> arr_wf n P (f s)) ->
  (forall s l, wf s -> arr_wf n P l -> wf (set l s)) ->
  0 <= i < n -> P x -> dsafe (write_arr f set i x) any.
Proof.
  intros Hf Hset Hi Hx s Hs. unfold write_arr, mbind, mget.
  destruct (zset_arr n P (f s) i x (Hf s Hs) Hi Hx) as (l' & -> & Hl'). simpl.
  split; [by apply Hset|done].
Qed.

Lemma wf_on_regs f (s : SDSP H) : wf s -> (forall q, wf_regs q -> wf_regs (f q)) -> wf (on_regs f s).
Proof. intros Hs Hf. apply wf_set_r; [done|]. apply Hf, Hs. Qed.

Ltac reg_read := intros; eapply dsafe_read_arr; [intros s Hs; apply Hs|lia].
Ltac reg_write :=
  intros; eapply dsafe_write_arr;
  [ intros s Hs; apply Hs
  | intros s l Hs Hl; apply wf_on_regs; [done|wf_regs_set]
  | lia | done ].

Lemma safe_get_ar i : 0 <= i < 4 -> dsafe (get_ar i) is_u16.
Proof. reg_read. Qed.
Lemma safe_put_ar i v : 0 <= i < 4 -> is_u16 v -> dsafe (put_ar i v) any.
Proof. reg_write. Qed.
Lemma safe_get_ix i : 0 <= i < 4 -> dsafe (get_ix i) is_u16.
Proof. reg_read. Qed.
Lemma safe_put_ix i v : 0 <= i < 4 -> is_u16 v -> dsafe (put_ix i v) any.
Proof. reg_write. Qed.
Lemma safe_get_wr i : 0 <= i < 4 -> dsafe (get_wr i) is_u16.
Proof. reg_read. Qed.
Lemma safe_put_wr i v : 0 <= i < 4 -> is_u16 v -> dsafe (put_wr i v) any.
Proof. reg_write. Qed.
Lemma safe_get_st i : 0 <= i < 4 -> dsafe (get_st i) is_u16.
Proof. reg_read. Qed.
Lemma safe_put_st i v : 0 <= i < 4 -> is_u16 v -> dsafe (put_st i v) any.
Proof. reg_write. Qed.
Lemma safe_get_ax i : 0 <= i < 2 -> dsafe (get_ax i) wf_ax.
Proof. reg_read. Qed.
Lemma safe_put_ax i x : 0 <= i < 2 -> wf_ax x -> dsafe (put_ax i x) any.
Proof. reg_write. Qed.
Lemma safe_get_ac i : 0 <= i < 2 -> dsafe (get_ac i) wf_acc.
Proof. reg_read. Qed.
Lemma safe_put_ac i x : 0 <= i < 2 -> wf_acc x -> dsafe (put_ac i x) any.
Proof. reg_write. Qed.

Ltac reg_get := apply dsafe_get; intros s Hs; apply Hs.
Ltac reg_put := intros; apply dsafe_modify; intros s Hs; apply wf_on_regs; [done|wf_regs_set].

Lemma safe_get_cr : dsafe get_cr is_u8.
Proof. reg_get. Qed.
Lemma safe_put_cr v : is_u8 v -> dsafe (put_cr v) any.
Proof. reg_put. Qed.
Lemma safe_get_sr : dsafe get_sr is_u16.
Proof. reg_get. Qed.
Lemma safe_put_sr v : is_u16 v -> dsafe (put_sr v) any.
Proof. reg_put. Qed.
Lemma safe_get_prod : dsafe get_prod wf_prod.
Proof. reg_get. Qed.
Lemma safe_put_prod p : wf_prod p -> dsafe (put_prod p) any.
Proof. reg_put. Qed.
Lemma safe_get_pc : dsafe get_pc is_u16.
Proof. reg_get. Qed.
Lemma safe_put_pc v : is_u16 v -> dsafe (put_pc v) any.
Proof. intros. apply dsafe_modify. wf_set. Qed.
End State.

#[export] Hint Resolve safe_get_ar safe_put_ar safe_get_ix safe_put_ix safe_get_wr safe_put_wr
  safe_get_st safe_put_st safe_get_ax safe_put_ax safe_get_ac safe_put_ac safe_get_cr safe_put_cr
  safe_get_sr safe_put_sr safe_get_prod safe_put_prod safe_get_pc safe_put_pc : safe.

(** ** Ranges of the parts of the registers *)

Lemma wf_acc_l a : wf_acc a -> is_u16 (acc_l a).
Proof. by intros (?&?&?). Qed.
Lemma wf_acc_m a : wf_acc a -> is_u16 (acc_m a).
Proof. by intros (?&?&?). Qed.
Lemma wf_acc_h a : wf_acc a -> is_u32 (acc_h a).
Proof. intros (?&?&?). unfold is_u32. lia. Qed.
Lemma wf_ax_l a : wf_ax a -> is_u16 (ax_l a).
Proof. by intros (?&?). Qed.
Lemma wf_ax_h a : wf_ax a -> is_u16 (ax_h a).
Proof. by intros (?&?). Qed.
Lemma wf_prod_l p : wf_prod p -> is_u16 (prod_l p).
Proof. by intros (?&?&?&?). Qed.
Lemma wf_prod_m p : wf_prod p -> is_u16 (prod_m p).
Proof. by intros (?&?&?&?). Qed.
Lemma wf_prod_h p : wf_prod p -> is_u8 (prod_h p).
Proof. by intros (?&?&?&?). Qed.
Lemma wf_prod_h16 p : wf_prod p -> is_u16 (prod_h p).
Proof. intros (?&?&Hh&?). unfold is_u8, is_u16 in *. lia. Qed.
Lemma wf_prod_m2 p : wf_prod p -> is_u16 (prod_m2 p).
Proof. by intros (?&?&?&?). Qed.
Lemma wf_set_acc_l v a : wf_acc a -> is_u16 v -> wf_acc (set_acc_l v a).
Proof. by intros (?&?&?) ?. Qed.
Lemma wf_set_acc_m v a : wf_acc a -> is_u16 v -> wf_acc (set_acc_m v a).
Proof. by intros (?&?&?) ?. Qed.
Lemma wf_set_acc_h v a :
  wf_acc a -> (0 <= v < 0x80 \/ 0xffffff80 <= v < 0x100000000) -> wf_acc (set_acc_h v a).
Proof. by intros (?&?&?) ?. Qed.
Lemma wf_set_ax_l v a : wf_ax a -> is_u16 v -> wf_ax (set_ax_l v a).
Proof. by intros (?&?) ?. Qed.
Lemma wf_set_ax_h v a : wf_ax a -> is_u16 v -> wf_ax (set_ax_h v a).
Proof. by intros (?&?) ?. Qed.
Lemma wf_set_prod_l v p : wf_prod p -> is_u16 v -> wf_prod (set_prod_l v p).
Proof. by intros (?&?&?&?) ?. Qed.
Lemma wf_set_prod_m v p : wf_prod p -> is_u16 v -> wf_prod (set_prod_m v p).
Proof. by intros (?&?&?&?) ?. Qed.
Lemma wf_set_prod_h v p : wf_prod p -> is_u8 v -> wf_prod (set_prod_h v p).
Proof. by intros (?&?&?&?) ?. Qed.
Lemma wf_set_prod_m2 v p : wf_prod p -> is_u16 v -> wf_prod (set_prod_m2 v p).
Proof. by intros (?&?&?&?) ?. Qed.

#[export] Hint Resolve wf_acc_l wf_acc_m wf_acc_h wf_ax_l wf_ax_h wf_prod_l wf_prod_m wf_prod_h
  wf_prod_h16 wf_prod_m2 wf_set_acc_l wf_set_acc_m wf_set_acc_h wf_set_ax_l wf_set_ax_h
  wf_set_prod_l wf_set_prod_m wf_set_prod_h wf_set_prod_m2 : ints.

(** ** The safety tactic

    [safe_auto] walks through a computation: binds, returns and branches are
    taken apart, calls are closed by the lemmas of the [safe] database and
    their side conditions by [rng]. *)

Ltac reg_cases :=
  unfold reg_in in *;
  repeat match goal with
  | H : _ && _ = true |- _ => apply andb_prop in H; destruct H
  | H : (_ <=? _) = true |- _ => apply Z.leb_le in H
  | H : (_ <? _) = true |- _ => apply Z.ltb_lt in H
  | H : (_ =? _) = true |- _ => apply Z.eqb_eq in H
  | H : (_ <=? _) = false |- _ => apply Z.leb_gt in H
  | H : (_ <? _) = false |- _ => apply Z.ltb_ge in H
  | H : (_ =? _) = false |- _ => apply Z.eqb_neq in H
  end.

Ltac const_unfold :=
  cbv [DSP_REG_AR0 DSP_REG_AR1 DSP_REG_AR2 DSP_REG_AR3 DSP_REG_IX0 DSP_REG_IX1 DSP_REG_IX2
    DSP_REG_IX3 DSP_REG_WR0 DSP_REG_WR1 DSP_REG_WR2 DSP_REG_WR3 DSP_REG_ST0 DSP_REG_ST1
    DSP_REG_ST2 DSP_REG_ST3 DSP_REG_CR DSP_REG_SR DSP_REG_PRODL DSP_REG_PRODM DSP_REG_PRODH
    DSP_REG_PRODM2 DSP_REG_AXL0 DSP_REG_AXL1 DSP_REG_AXH0 DSP_REG_AXH1 DSP_REG_ACL0 DSP_REG_ACL1
    DSP_REG_ACM0 DSP_REG_ACM1 DSP_REG_ACH0 DSP_REG_ACH1 DSP_STACK_MASK DSP_STACK_DEPTH
    SR_CARRY SR_OVERFLOW SR_ARITH_ZERO SR_SIGN SR_OVER_S32 SR_TOP2BITS SR_LOGIC_ZERO
    SR_OVERFLOW_STICKY SR_100 SR_INT_ENABLE SR_EXT_INT_ENABLE SR_MUL_MODIFY SR_40_MODE_BIT
    SR_MUL_UNSIGNED SR_CMP_MASK CR_RESET CR_EXTERNAL_INT CR_HALT CR_INIT_CODE CR_INIT
    DSP_IRAM_MASK DSP_IRAM_SIZE DSP_IROM_MASK DSP_IROM_SIZE DSP_DRAM_MASK DSP_DRAM_SIZE
    DSP_COEF_MASK DSP_COEF_SIZE DSP_RESET_VECTOR wf_ptr wf_idx] in *.

Ltac side := first [assumption | exact I | solve [eauto 6 with ints] | rng | reg_cases; const_unfold; rng].

#[export] Hint Extern 1 (0 <= _ < _) => side : safe.
#[export] Hint Extern 1 (is_u8 _) => side : safe.
#[export] Hint Extern 1 (is_u16 _) => side : safe.
#[export] Hint Extern 1 (is_u32 _) => side : safe.
#[export] Hint Extern 1 (is_s16 _) => side : safe.
#[export] Hint Extern 1 (wf_acc _) => side : safe.
#[export] Hint Extern 1 (wf_ax _) => side : safe.
#[export] Hint Extern 1 (wf_prod _) => side : safe.
#[export] Hint Extern 1 (wf_idx _) => side : safe.

Ltac safe_call :=
  first
    [ solve [typeclasses eauto with safe nocore]
    | eapply dsafe_any; solve [typeclasses eauto with safe nocore]
    | eapply dsafe_weaken; [solve [typeclasses eauto with safe nocore]|intros; side] ].

Ltac safe_step :=
  lazymatch goal with
  | |- dsafe (mret _) _ => apply dsafe_ret; first [exact I | side | idtac]
  | |- dsafe (mbind (mbind _ _) _) _ =>
      eapply dsafe_bind; [safe_step|intros ? ?]
  | |- dsafe (mbind _ _) _ => eapply dsafe_bind; [safe_step|intros ? ?]
  | |- dsafe (if _ then _ else _) _ => apply dsafe_if; intros ?
  | |- dsafe (mwhen _ _) _ => apply dsafe_when; intros ?
  | |- dsafe (let _ := _ in _) _ => cbv zeta
  | |- dsafe (match ?x with _ => _ end) _ => destruct x
  | |- dsafe _ _ => safe_call
  end.
Ltac safe_auto := intros; repeat safe_step.

Section StateSafe.
Context {H : Type}.

Lemma safe_IsSRFlagSet f : dsafe (H:=H) (IsSRFlagSet f) any.
Proof. unfold IsSRFlagSet. safe_auto. Qed.
Lemma safe_SetSRFlag f : is_u16 f -> dsafe (H:=H) (SetSRFlag f) any.
Proof. unfold SetSRFlag. safe_auto. Qed.
Lemma safe_ClearSRFlag f : dsafe (H:=H) (ClearSRFlag f) any.
Proof. unfold ClearSRFlag. safe_auto. Qed.
End StateSafe.
#[export] Hint Resolve safe_IsSRFlagSet safe_SetSRFlag safe_ClearSRFlag : safe.
