(* ===== verification/DSPCore.v ===== *)
(** * DSP: stacks, exceptions and the debugger's register access

    The hardware stacks of [DSPStacks.cpp]; the exceptions, the reset and the
    register access of [DSPCore.cpp]. *)
From S2P Require Export DSPState.

Section Core.
Context {H : Type}.
Implicit Types (i v : Z).

(** ** Stacks (DSPStacks.cpp) *)

Definition StoreStack (stack_reg : StackRegister) (val : Z) : M (SDSP H) unit :=
  let reg_index := stack_index stack_reg in
  p <- read_arr reg_stack_ptrs reg_index ;;
  let p := u8 (u8 (p + 1) .& DSP_STACK_MASK) in
  write_arr reg_stack_ptrs set_reg_stack_ptrs reg_index p ;;;
  top <- get_st reg_index ;;
  stack <- read_arr reg_stacks reg_index ;;
  stack' <- mopt ArrayBounds (zset stack p top) ;;
  write_arr reg_stacks set_reg_stacks reg_index stack' ;;;
  put_st reg_index val.

Definition PopStack (stack_reg : StackRegister) : M (SDSP H) Z :=
  let reg_index := stack_index stack_reg in
  val <- get_st reg_index ;;
  p <- read_arr reg_stack_ptrs reg_index ;;
  stack <- read_arr reg_stacks reg_index ;;
  below <- mopt ArrayBounds (zget stack p) ;;
  put_st reg_index below ;;;
  write_arr reg_stack_ptrs set_reg_stack_ptrs reg_index (u8 (u8 (p - 1) .& DSP_STACK_MASK)) ;;;
  mret val.

(** ** Exceptions (DSPCore.cpp) *)

Definition raise_exception (exception : ExceptionType) (s : SDSP H) : SDSP H :=
  set_exceptions (u8 (exceptions s .| (1 .<< exception_index exception))) s.
Definition SetException (exception : ExceptionType) : M (SDSP H) unit :=
  mmodify (raise_exception exception).

Definition SetExternalInterrupt (val : bool) : M (SDSP H) unit :=
  mmodify (set_external_interrupt_waiting val).

Definition CheckExternalInterrupt : M (SDSP H) unit :=
  b <- IsSRFlagSet SR_EXT_INT_ENABLE ;;
  if negb b then mret tt else
  SetException ExternalInterrupt ;;;
  c <- mget control_reg ;; mmodify (set_control_reg (u16 (c .& .~ CR_EXTERNAL_INT))).

(** The body of [CheckExceptions]' loop over [i = 7 .. 1]. *)
Fixpoint CheckExceptions_loop (idxs : list Z) : M (SDSP H) bool :=
  match idxs with
  | [] => mret false
  | i :: idxs' =>
      e <- mget exceptions ;;
      ie <- IsSRFlagSet SR_INT_ENABLE ;;
      if negb (e .& (1 .<< i) =? 0) && (ie || (i =? exception_index ExternalInterrupt)) then
        pc <- get_pc ;;
        StoreStack Call pc ;;;
        sr <- get_sr ;;
        StoreStack Data sr ;;;
        put_pc (u16 (i * 2)) ;;;
        mmodify (set_exceptions (u8 (e .& .~ (1 .<< i)))) ;;;
        (if i =? 7 then ClearSRFlag SR_EXT_INT_ENABLE else ClearSRFlag SR_INT_ENABLE) ;;;
        mret true
      else CheckExceptions_loop idxs'
  end.

Definition CheckExceptions : M (SDSP H) bool :=
  e <- mget exceptions ;;
  if e =? 0 then mret false else CheckExceptions_loop [7; 6; 5; 4; 3; 2; 1].

(** ** Reset and the debugger's register access (DSPCore.cpp) *)

Definition Reset : M (SDSP H) unit :=
  put_pc DSP_RESET_VECTOR ;;;
  put_wr 0 0xffff ;;; put_wr 1 0xffff ;;; put_wr 2 0xffff ;;; put_wr 3 0xffff.

Definition ReadRegister (reg : Z) : M (SDSP H) Z :=
  if reg_in DSP_REG_AR0 DSP_REG_AR3 reg then get_ar (reg - DSP_REG_AR0)
  else if reg_in DSP_REG_IX0 DSP_REG_IX3 reg then get_ix (reg - DSP_REG_IX0)
  else if reg_in DSP_REG_WR0 DSP_REG_WR3 reg then get_wr (reg - DSP_REG_WR0)
  else if reg_in DSP_REG_ST0 DSP_REG_ST3 reg then get_st (reg - DSP_REG_ST0)
  else if reg_in DSP_REG_ACH0 DSP_REG_ACH1 reg then
    a <- get_ac (reg - DSP_REG_ACH0) ;; mret (u16 (acc_h a))
  else if reg =? DSP_REG_CR then get_cr
  else if reg =? DSP_REG_SR then get_sr
  else if reg =? DSP_REG_PRODL then p <- get_prod ;; mret (prod_l p)
  else if reg =? DSP_REG_PRODM then p <- get_prod ;; mret (prod_m p)
  else if reg =? DSP_REG_PRODH then p <- get_prod ;; mret (prod_h p)
  else if reg =? DSP_REG_PRODM2 then p <- get_prod ;; mret (prod_m2 p)
  else if reg_in DSP_REG_AXL0 DSP_REG_AXL1 reg then
    a <- get_ax (reg - DSP_REG_AXL0) ;; mret (ax_l a)
  else if reg_in DSP_REG_AXH0 DSP_REG_AXH1 reg then
    a <- get_ax (reg - DSP_REG_AXH0) ;; mret (ax_h a)
  else if reg_in DSP_REG_ACL0 DSP_REG_ACL1 reg then
    a <- get_ac (reg - DSP_REG_ACL0) ;; mret (acc_l a)
  else if reg_in DSP_REG_ACM0 DSP_REG_ACM1 reg then
    a <- get_ac (reg - DSP_REG_ACM0) ;; mret (acc_m a)
  else mret 0.

Definition WriteRegister (reg val : Z) : M (SDSP H) unit :=
  if reg_in DSP_REG_AR0 DSP_REG_AR3 reg then put_ar (reg - DSP_REG_AR0) val
  else if reg_in DSP_REG_IX0 DSP_REG_IX3 reg then put_ix (reg - DSP_REG_IX0) val
  else if reg_in DSP_REG_WR0 DSP_REG_WR3 reg then put_wr (reg - DSP_REG_WR0) val
  else if reg_in DSP_REG_ST0 DSP_REG_ST3 reg then put_st (reg - DSP_REG_ST0) val
  else if reg_in DSP_REG_ACH0 DSP_REG_ACH1 reg then put_ach (reg - DSP_REG_ACH0) val
  else if reg =? DSP_REG_CR then put_cr val
  else if reg =? DSP_REG_SR then put_sr val
  else if reg =? DSP_REG_PRODL then p <- get_prod ;; put_prod (set_prod_l val p)
  else if reg =? DSP_REG_PRODM then p <- get_prod ;; put_prod (set_prod_m val p)
  else if reg =? DSP_REG_PRODH then p <- get_prod ;; put_prod (set_prod_h val p)
  else if reg =? DSP_REG_PRODM2 then p <- get_prod ;; put_prod (set_prod_m2 val p)
  else if reg_in DSP_REG_AXL0 DSP_REG_AXL1 reg then put_axl (reg - DSP_REG_AXL0) val
  else if reg_in DSP_REG_AXH0 DSP_REG_AXH1 reg then put_axh (reg - DSP_REG_AXH0) val
  else if reg_in DSP_REG_ACL0 DSP_REG_ACL1 reg then put_acl (reg - DSP_REG_ACL0) val
  else if reg_in DSP_REG_ACM0 DSP_REG_ACM1 reg then put_acm (reg - DSP_REG_ACM0) val
  else mret tt.

End Core.

Section CoreSafe.
Context {H : Type}.

Lemma stack_index_range reg : 0 <= stack_index reg < 4.
Proof. destruct reg; simpl; lia. Qed.

Lemma safe_get_ptr i : 0 <= i < 4 -> dsafe (H:=H) (read_arr reg_stack_ptrs i) wf_ptr.
Proof. intros. eapply dsafe_read_arr; [intros s Hs; apply Hs|lia]. Qed.

Lemma safe_put_ptr i v :
  0 <= i < 4 -> wf_ptr v -> dsafe (H:=H) (write_arr reg_stack_ptrs set_reg_stack_ptrs i v) any.
Proof. intros. eapply dsafe_write_arr; [intros s Hs; apply Hs|wf_set|lia|done]. Qed.

Lemma safe_get_stack i : 0 <= i < 4 -> dsafe (H:=H) (read_arr reg_stacks i) wf_stack.
Proof. intros. eapply dsafe_read_arr; [intros s Hs; apply Hs|lia]. Qed.

Lemma safe_put_stack i v :
  0 <= i < 4 -> wf_stack v -> dsafe (H:=H) (write_arr reg_stacks set_reg_stacks i v) any.
Proof. intros. eapply dsafe_write_arr; [intros s Hs; apply Hs|wf_set|lia|done]. Qed.

(** A masked stack pointer is inside the stack. *)
Lemma wf_ptr_mask p : wf_ptr (u8 (u8 p .& DSP_STACK_MASK)).
Proof.
  unfold wf_ptr, DSP_STACK_DEPTH, DSP_STACK_MASK.
  pose proof (land_mask_range (u8 p) 0x1f ltac:(lia)). zlia.
Qed.

Lemma safe_stack_set st p v :
  wf_stack st -> wf_ptr p -> is_u16 v -> dsafe (H:=H) (mopt ArrayBounds (zset st p v)) wf_stack.
Proof. intros Hst Hp Hv. apply safe_opt. by apply zset_arr. Qed.

Lemma safe_stack_get st p :
  wf_stack st -> wf_ptr p -> dsafe (H:=H) (mopt ArrayBounds (zget st p)) is_u16.
Proof. intros Hst Hp. apply safe_opt. by eapply zget_arr. Qed.

#[local] Hint Resolve stack_index_range wf_ptr_mask safe_get_ptr safe_put_ptr safe_get_stack
  safe_put_stack safe_stack_set safe_stack_get : safe.
#[local] Hint Extern 1 (wf_stack _) => assumption : safe.
#[local] Hint Extern 1 (wf_ptr _) => assumption : safe.

Lemma safe_StoreStack reg v : is_u16 v -> dsafe (H:=H) (StoreStack reg v) any.
Proof. unfold StoreStack. safe_auto. Qed.

Lemma safe_PopStack reg : dsafe (H:=H) (PopStack reg) is_u16.
Proof. unfold PopStack. safe_auto. Qed.

Lemma safe_get_exceptions : dsafe (H:=H) (mget exceptions) is_u8.
Proof. apply dsafe_get. intros s Hs. apply Hs. Qed.
Lemma safe_put_exceptions v : is_u8 v -> dsafe (H:=H) (mmodify (set_exceptions v)) any.
Proof. intros. apply dsafe_modify. wf_set. Qed.
Lemma safe_get_control : dsafe (H:=H) (mget control_reg) is_u16.
Proof. apply dsafe_get. intros s Hs. apply Hs. Qed.
Lemma safe_put_control v : is_u16 v -> dsafe (H:=H) (mmodify (set_control_reg v)) any.
Proof. intros. apply dsafe_modify. wf_set. Qed.

#[local] Hint Resolve safe_StoreStack safe_PopStack safe_get_exceptions safe_put_exceptions
  safe_get_control safe_put_control : safe.

Lemma wf_raise_exception e (s : SDSP H) : wf s -> wf (raise_exception e s).
Proof. unfold raise_exception. wf_set. apply is_u8_u8. Qed.

Lemma safe_SetException e : dsafe (H:=H) (SetException e) any.
Proof. apply dsafe_modify. intros s. apply wf_raise_exception. Qed.
#[local] Hint Resolve safe_SetException : safe.

Lemma safe_CheckExternalInterrupt : dsafe (H:=H) CheckExternalInterrupt any.
Proof. unfold CheckExternalInterrupt. safe_auto. Qed.

Lemma safe_CheckExceptions_loop l : dsafe (H:=H) (CheckExceptions_loop l) any.
Proof. induction l as [|i l IH]; simpl; safe_auto. Qed.
#[local] Hint Resolve safe_CheckExceptions_loop : safe.

Lemma safe_CheckExceptions : dsafe (H:=H) CheckExceptions any.
Proof. unfold CheckExceptions. safe_auto. Qed.

Lemma safe_Reset : dsafe (H:=H) Reset any.
Proof. unfold Reset. safe_auto. Qed.

Lemma safe_ReadRegister reg : dsafe (H:=H) (ReadRegister reg) is_u16.
Proof. unfold ReadRegister. safe_auto. Qed.
End CoreSafe.

#[export] Hint Resolve safe_StoreStack safe_PopStack safe_get_exceptions safe_put_exceptions
  safe_get_control safe_put_control safe_SetException safe_CheckExternalInterrupt
  safe_CheckExceptions safe_Reset safe_ReadRegister : safe.
