(* ===== verification/DSPTables.v ===== *)
(** * DSP: opcode templates

    The opcode tables of [Core/DSP/DSPTables.h] and [DSPTables.cpp], entry by
    entry, and the first-match lookup over them. *)
From Stdlib Require Import String.
From S2P Require Export DSPTypes.
#[local] Open Scope string_scope.
#[local] Open Scope Z_scope.

(** ** Parameter types ([partype_t]) *)

Definition P_NONE := 0x0000.
Definition P_VAL := 0x0001.
Definition P_IMM := 0x0002.
Definition P_MEM := 0x0003.
Definition P_STR := 0x0004.
Definition P_ADDR_I := 0x0005.
Definition P_ADDR_D := 0x0006.
Definition P_REG := 0x8000.
Definition P_REG04 := P_REG .| (DSP_REG_IX0 .<< 8).
Definition P_REG08 := P_REG .| (DSP_REG_WR0 .<< 8).
Definition P_REG18 := P_REG .| (DSP_REG_AXL0 .<< 8).
Definition P_REGM18 := P_REG .| (DSP_REG_AXL0 .<< 8) .| 0x10.
Definition P_REG19 := P_REG .| (DSP_REG_AXL1 .<< 8).
Definition P_REGM19 := P_REG .| (DSP_REG_AXL1 .<< 8) .| 0x10.
Definition P_REG1A := P_REG .| (DSP_REG_AXH0 .<< 8) .| 0x80.
Definition P_ACCL := P_REG .| (DSP_REG_ACL0 .<< 8).
Definition P_REG1C := P_REG .| (DSP_REG_ACL0 .<< 8) .| 0x10.
Definition P_ACCM := P_REG .| (DSP_REG_ACM0 .<< 8).
Definition P_ACCM_D := P_REG .| (DSP_REG_ACM0 .<< 8) .| 0x80.
(** [DSP_REG_ACC0_FULL] and [DSP_REG_AX0_FULL] *)
Definition DSP_REG_ACC0_FULL := 0x20.
Definition DSP_REG_AX0_FULL := 0x22.
Definition P_ACC := P_REG .| (DSP_REG_ACC0_FULL .<< 8).
Definition P_ACCH := P_REG .| (DSP_REG_ACH0 .<< 8).
Definition P_ACC_D := P_REG .| (DSP_REG_ACC0_FULL .<< 8) .| 0x80.
Definition P_AX := P_REG .| (DSP_REG_AX0_FULL .<< 8).
Definition P_REF := P_REG .| 0x4000.
Definition P_PRG := P_REF .| P_REG.

Record param2_t := mkParam {
  param_type : Z; param_size : Z; param_loc : Z; param_lshift : Z; param_mask : Z
}.

Record DSPOPCTemplate := mkTemplate {
  op_name : string;
  opcode : Z;
  opcode_mask : Z;
  op_size : Z;
  op_param_count : Z;
  op_params : list param2_t;
  op_extended : bool;
  op_branch : bool;
  op_uncond_branch : bool;
  op_reads_pc : bool;
  op_updates_sr : bool
}.

(** [cw], the template of a word that encodes no instruction. *)
Definition cw : DSPOPCTemplate :=
  mkTemplate "CW" 0x0000 0x0000 1 1 [mkParam P_VAL 2 0 0 0xffff] false false false false false.

(** [s_opcodes], first the flow-control instructions and then the others. *)
Definition s_opcodes_flow : list DSPOPCTemplate := [
  mkTemplate "NOP" 0x0000 0xfffc 1 0 [] false false false false false;
  mkTemplate "DAR" 0x0004 0xfffc 1 1 [mkParam P_REG 1 0 0 0x0003] false false false false false;
  mkTemplate "IAR" 0x0008 0xfffc 1 1 [mkParam P_REG 1 0 0 0x0003] false false false false false;
  mkTemplate "SUBARN" 0x000c 0xfffc 1 1 [mkParam P_REG 1 0 0 0x0003] false false false false false;
  mkTemplate "ADDARN" 0x0010 0xfff0 1 2 [mkParam P_REG 1 0 0 0x0003; mkParam P_REG04 1 0 2 0x000c] false false false false false;
  mkTemplate "HALT" 0x0021 0xffff 1 0 [] false true true false false;
  mkTemplate "RETGE" 0x02d0 0xffff 1 0 [] false true false true false;
  mkTemplate "RETL" 0x02d1 0xffff 1 0 [] false true false true false;
  mkTemplate "RETG" 0x02d2 0xffff 1 0 [] false true false true false;
  mkTemplate "RETLE" 0x02d3 0xffff 1 0 [] false true false true false;
  mkTemplate "RETNZ" 0x02d4 0xffff 1 0 [] false true false true false;
  mkTemplate "RETZ" 0x02d5 0xffff 1 0 [] false true false true false;
  mkTemplate "RETNC" 0x02d6 0xffff 1 0 [] false true false true false;
  mkTemplate "RETC" 0x02d7 0xffff 1 0 [] false true false true false;
  mkTemplate "RETX8" 0x02d8 0xffff 1 0 [] false true false true false;
  mkTemplate "RETX9" 0x02d9 0xffff 1 0 [] false true false true false;
  mkTemplate "RETXA" 0x02da 0xffff 1 0 [] false true false true false;
  mkTemplate "RETXB" 0x02db 0xffff 1 0 [] false true false true false;
  mkTemplate "RETLNZ" 0x02dc 0xffff 1 0 [] false true false true false;
  mkTemplate "RETLZ" 0x02dd 0xffff 1 0 [] false true false true false;
  mkTemplate "RETO" 0x02de 0xffff 1 0 [] false true false true false;
  mkTemplate "RET" 0x02df 0xffff 1 0 [] false true true false false;
  mkTemplate "RTIGE" 0x02f0 0xffff 1 0 [] false true false true false;
  mkTemplate "RTIL" 0x02f1 0xffff 1 0 [] false true false true false;
  mkTemplate "RTIG" 0x02f2 0xffff 1 0 [] false true false true false;
  mkTemplate "RTILE" 0x02f3 0xffff 1 0 [] false true false true false;
  mkTemplate "RTINZ" 0x02f4 0xffff 1 0 [] false true false true false;
  mkTemplate "RTIZ" 0x02f5 0xffff 1 0 [] false true false true false;
  mkTemplate "RTINC" 0x02f6 0xffff 1 0 [] false true false true false;
  mkTemplate "RTIC" 0x02f7 0xffff 1 0 [] false true false true false;
  mkTemplate "RTIX8" 0x02f8 0xffff 1 0 [] false true false true false;
  mkTemplate "RTIX9" 0x02f9 0xffff 1 0 [] false true false true false;
  mkTemplate "RTIXA" 0x02fa 0xffff 1 0 [] false true false true false;
  mkTemplate "RTIXB" 0x02fb 0xffff 1 0 [] false true false true false;
  mkTemplate "RTILNZ" 0x02fc 0xffff 1 0 [] false true false true false;
  mkTemplate "RTILZ" 0x02fd 0xffff 1 0 [] false true false true false;
  mkTemplate "RTIO" 0x02fe 0xffff 1 0 [] false true false true false;
  mkTemplate "RTI" 0x02ff 0xffff 1 0 [] false true true false false;
  mkTemplate "CALLGE" 0x02b0 0xffff 2 1 [mkParam P_ADDR_I 2 1 0 0xffff] false true false true false;
  mkTemplate "CALLL" 0x02b1 0xffff 2 1 [mkParam P_ADDR_I 2 1 0 0xffff] false true false true false;
  mkTemplate "CALLG" 0x02b2 0xffff 2 1 [mkParam P_ADDR_I 2 1 0 0xffff] false true false true false;
  mkTemplate "CALLLE" 0x02b3 0xffff 2 1 [mkParam P_ADDR_I 2 1 0 0xffff] false true false true false;
  mkTemplate "CALLNZ" 0x02b4 0xffff 2 1 [mkParam P_ADDR_I 2 1 0 0xffff] false true false true false;
  mkTemplate "CALLZ" 0x02b5 0xffff 2 1 [mkParam P_ADDR_I 2 1 0 0xffff] false true false true false;
  mkTemplate "CALLNC" 0x02b6 0xffff 2 1 [mkParam P_ADDR_I 2 1 0 0xffff] false true false true false;
  mkTemplate "CALLC" 0x02b7 0xffff 2 1 [mkParam P_ADDR_I 2 1 0 0xffff] false true false true false;
  mkTemplate "CALLX8" 0x02b8 0xffff 2 1 [mkParam P_ADDR_I 2 1 0 0xffff] false true false true false;
  mkTemplate "CALLX9" 0x02b9 0xffff 2 1 [mkParam P_ADDR_I 2 1 0 0xffff] false true false true false;
  mkTemplate "CALLXA" 0x02ba 0xffff 2 1 [mkParam P_ADDR_I 2 1 0 0xffff] false true false true false;
  mkTemplate "CALLXB" 0x02bb 0xffff 2 1 [mkParam P_ADDR_I 2 1 0 0xffff] false true false true false;
  mkTemplate "CALLLNZ" 0x02bc 0xffff 2 1 [mkParam P_ADDR_I 2 1 0 0xffff] false true false true false;
  mkTemplate "CALLLZ" 0x02bd 0xffff 2 1 [mkParam P_ADDR_I 2 1 0 0xffff] false true false true false;
  mkTemplate "CALLO" 0x02be 0xffff 2 1 [mkParam P_ADDR_I 2 1 0 0xffff] false true false true false;
  mkTemplate "CALL" 0x02bf 0xffff 2 1 [mkParam P_ADDR_I 2 1 0 0xffff] false true true true false;
  mkTemplate "IFGE" 0x0270 0xffff 1 0 [] false true false true false;
  mkTemplate "IFL" 0x0271 0xffff 1 0 [] false true false true false;
  mkTemplate "IFG" 0x0272 0xffff 1 0 [] false true false true false;
  mkTemplate "IFLE" 0x0273 0xffff 1 0 [] false true false true false;
  mkTemplate "IFNZ" 0x0274 0xffff 1 0 [] false true false true false;
  mkTemplate "IFZ" 0x0275 0xffff 1 0 [] false true false true false;
  mkTemplate "IFNC" 0x0276 0xffff 1 0 [] false true false true false;
  mkTemplate "IFC" 0x0277 0xffff 1 0 [] false true false true false;
  mkTemplate "IFX8" 0x0278 0xffff 1 0 [] false true false true false;
  mkTemplate "IFX9" 0x0279 0xffff 1 0 [] false true false true false;
  mkTemplate "IFXA" 0x027a 0xffff 1 0 [] false true false true false;
  mkTemplate "IFXB" 0x027b 0xffff 1 0 [] false true false true false;
  mkTemplate "IFLNZ" 0x027c 0xffff 1 0 [] false true false true false;
  mkTemplate "IFLZ" 0x027d 0xffff 1 0 [] false true false true false;
  mkTemplate "IFO" 0x027e 0xffff 1 0 [] false true false true false;
  mkTemplate "IF" 0x027f 0xffff 1 0 [] false true true true false;
  mkTemplate "JGE" 0x0290 0xffff 2 1 [mkParam P_ADDR_I 2 1 0 0xffff] false true false true false;
  mkTemplate "JL" 0x0291 0xffff 2 1 [mkParam P_ADDR_I 2 1 0 0xffff] false true false true false;
  mkTemplate "JG" 0x0292 0xffff 2 1 [mkParam P_ADDR_I 2 1 0 0xffff] false true false true false;
  mkTemplate "JLE" 0x0293 0xffff 2 1 [mkParam P_ADDR_I 2 1 0 0xffff] false true false true false;
  mkTemplate "JNZ" 0x0294 0xffff 2 1 [mkParam P_ADDR_I 2 1 0 0xffff] false true false true false;
  mkTemplate "JZ" 0x0295 0xffff 2 1 [mkParam P_ADDR_I 2 1 0 0xffff] false true false true false;
  mkTemplate "JNC" 0x0296 0xffff 2 1 [mkParam P_ADDR_I 2 1 0 0xffff] false true false true false;
  mkTemplate "JC" 0x0297 0xffff 2 1 [mkParam P_ADDR_I 2 1 0 0xffff] false true false true false;
  mkTemplate "JMPX8" 0x0298 0xffff 2 1 [mkParam P_ADDR_I 2 1 0 0xffff] false true false true false;
  mkTemplate "JMPX9" 0x0299 0xffff 2 1 [mkParam P_ADDR_I 2 1 0 0xffff] false true false true false;
  mkTemplate "JMPXA" 0x029a 0xffff 2 1 [mkParam P_ADDR_I 2 1 0 0xffff] false true false true false;
  mkTemplate "JMPXB" 0x029b 0xffff 2 1 [mkParam P_ADDR_I 2 1 0 0xffff] false true false true false;
  mkTemplate "JLNZ" 0x029c 0xffff 2 1 [mkParam P_ADDR_I 2 1 0 0xffff] false true false true false;
  mkTemplate "JLZ" 0x029d 0xffff 2 1 [mkParam P_ADDR_I 2 1 0 0xffff] false true false true false;
  mkTemplate "JO" 0x029e 0xffff 2 1 [mkParam P_ADDR_I 2 1 0 0xffff] false true false true false;
  mkTemplate "JMP" 0x029f 0xffff 2 1 [mkParam P_ADDR_I 2 1 0 0xffff] false true true true false;
  mkTemplate "JRGE" 0x1700 0xff1f 1 1 [mkParam P_REG 1 0 5 0x00e0] false true false false false;
  mkTemplate "JRL" 0x1701 0xff1f 1 1 [mkParam P_REG 1 0 5 0x00e0] false true false false false;
  mkTemplate "JRG" 0x1702 0xff1f 1 1 [mkParam P_REG 1 0 5 0x00e0] false true false false false;
  mkTemplate "JRLE" 0x1703 0xff1f 1 1 [mkParam P_REG 1 0 5 0x00e0] false true false false false;
  mkTemplate "JRNZ" 0x1704 0xff1f 1 1 [mkParam P_REG 1 0 5 0x00e0] false true false false false;
  mkTemplate "JRZ" 0x1705 0xff1f 1 1 [mkParam P_REG 1 0 5 0x00e0] false true false false false;
  mkTemplate "JRNC" 0x1706 0xff1f 1 1 [mkParam P_REG 1 0 5 0x00e0] false true false false false;
  mkTemplate "JRC" 0x1707 0xff1f 1 1 [mkParam P_REG 1 0 5 0x00e0] false true false false false;
  mkTemplate "JMPRX8" 0x1708 0xff1f 1 1 [mkParam P_REG 1 0 5 0x00e0] false true false false false;
  mkTemplate "JMPRX9" 0x1709 0xff1f 1 1 [mkParam P_REG 1 0 5 0x00e0] false true false false false;
  mkTemplate "JMPRXA" 0x170a 0xff1f 1 1 [mkParam P_REG 1 0 5 0x00e0] false true false false false;
  mkTemplate "JMPRXB" 0x170b 0xff1f 1 1 [mkParam P_REG 1 0 5 0x00e0] false true false false false;
  mkTemplate "JRLNZ" 0x170c 0xff1f 1 1 [mkParam P_REG 1 0 5 0x00e0] false true false false false;
  mkTemplate "JRLZ" 0x170d 0xff1f 1 1 [mkParam P_REG 1 0 5 0x00e0] false true false false false;
  mkTemplate "JRO" 0x170e 0xff1f 1 1 [mkParam P_REG 1 0 5 0x00e0] false true false false false;
  mkTemplate "JMPR" 0x170f 0xff1f 1 1 [mkParam P_REG 1 0 5 0x00e0] false true true false false;
  mkTemplate "CALLRGE" 0x1710 0xff1f 1 1 [mkParam P_REG 1 0 5 0x00e0] false true false true false;
  mkTemplate "CALLRL" 0x1711 0xff1f 1 1 [mkParam P_REG 1 0 5 0x00e0] false true false true false;
  mkTemplate "CALLRG" 0x1712 0xff1f 1 1 [mkParam P_REG 1 0 5 0x00e0] false true false true false;
  mkTemplate "CALLRLE" 0x1713 0xff1f 1 1 [mkParam P_REG 1 0 5 0x00e0] false true false true false;
  mkTemplate "CALLRNZ" 0x1714 0xff1f 1 1 [mkParam P_REG 1 0 5 0x00e0] false true false true false;
  mkTemplate "CALLRZ" 0x1715 0xff1f 1 1 [mkParam P_REG 1 0 5 0x00e0] false true false true false;
  mkTemplate "CALLRNC" 0x1716 0xff1f 1 1 [mkParam P_REG 1 0 5 0x00e0] false true false true false;
  mkTemplate "CALLRC" 0x1717 0xff1f 1 1 [mkParam P_REG 1 0 5 0x00e0] false true false true false;
  mkTemplate "CALLRX8" 0x1718 0xff1f 1 1 [mkParam P_REG 1 0 5 0x00e0] false true false true false;
  mkTemplate "CALLRX9" 0x1719 0xff1f 1 1 [mkParam P_REG 1 0 5 0x00e0] false true false true false;
  mkTemplate "CALLRXA" 0x171a 0xff1f 1 1 [mkParam P_REG 1 0 5 0x00e0] false true false true false;
  mkTemplate "CALLRXB" 0x171b 0xff1f 1 1 [mkParam P_REG 1 0 5 0x00e0] false true false true false;
  mkTemplate "CALLRLNZ" 0x171c 0xff1f 1 1 [mkParam P_REG 1 0 5 0x00e0] false true false true false;
  mkTemplate "CALLRLZ" 0x171d 0xff1f 1 1 [mkParam P_REG 1 0 5 0x00e0] false true false true false;
  mkTemplate "CALLRO" 0x171e 0xff1f 1 1 [mkParam P_REG 1 0 5 0x00e0] false true false true false;
  mkTemplate "CALLR" 0x171f 0xff1f 1 1 [mkParam P_REG 1 0 5 0x00e0] false true true true false
].

Definition s_opcodes_data : list DSPOPCTemplate := [
  mkTemplate "SBCLR" 0x1200 0xff00 1 1 [mkParam P_IMM 1 0 0 0x0007] false false false false false;
  mkTemplate "SBSET" 0x1300 0xff00 1 1 [mkParam P_IMM 1 0 0 0x0007] false false false false false;
  mkTemplate "LSL" 0x1400 0xfec0 1 2 [mkParam P_ACC 1 0 8 0x0100; mkParam P_IMM 1 0 0 0x003f] false false false false true;
  mkTemplate "LSR" 0x1440 0xfec0 1 2 [mkParam P_ACC 1 0 8 0x0100; mkParam P_IMM 1 0 0 0x003f] false false false false true;
  mkTemplate "ASL" 0x1480 0xfec0 1 2 [mkParam P_ACC 1 0 8 0x0100; mkParam P_IMM 1 0 0 0x003f] false false false false true;
  mkTemplate "ASR" 0x14c0 0xfec0 1 2 [mkParam P_ACC 1 0 8 0x0100; mkParam P_IMM 1 0 0 0x003f] false false false false true;
  mkTemplate "LSRN" 0x02ca 0xffff 1 0 [] false false false false true;
  mkTemplate "ASRN" 0x02cb 0xffff 1 0 [] false false false false true;
  mkTemplate "LRI" 0x0080 0xffe0 2 2 [mkParam P_REG 1 0 0 0x001f; mkParam P_IMM 2 1 0 0xffff] false false false true false;
  mkTemplate "LR" 0x00c0 0xffe0 2 2 [mkParam P_REG 1 0 0 0x001f; mkParam P_MEM 2 1 0 0xffff] false false false true false;
  mkTemplate "SR" 0x00e0 0xffe0 2 2 [mkParam P_MEM 2 1 0 0xffff; mkParam P_REG 1 0 0 0x001f] false false false true false;
  mkTemplate "MRR" 0x1c00 0xfc00 1 2 [mkParam P_REG 1 0 5 0x03e0; mkParam P_REG 1 0 0 0x001f] false false false false false;
  mkTemplate "SI" 0x1600 0xff00 2 2 [mkParam P_MEM 1 0 0 0x00ff; mkParam P_IMM 2 1 0 0xffff] false false false true false;
  mkTemplate "ADDIS" 0x0400 0xfe00 1 2 [mkParam P_ACCM 1 0 8 0x0100; mkParam P_IMM 1 0 0 0x00ff] false false false false true;
  mkTemplate "CMPIS" 0x0600 0xfe00 1 2 [mkParam P_ACCM 1 0 8 0x0100; mkParam P_IMM 1 0 0 0x00ff] false false false false true;
  mkTemplate "LRIS" 0x0800 0xf800 1 2 [mkParam P_REG18 1 0 8 0x0700; mkParam P_IMM 1 0 0 0x00ff] false false false false true;
  mkTemplate "ADDI" 0x0200 0xfeff 2 2 [mkParam P_ACCM 1 0 8 0x0100; mkParam P_IMM 2 1 0 0xffff] false false false true true;
  mkTemplate "XORI" 0x0220 0xfeff 2 2 [mkParam P_ACCM 1 0 8 0x0100; mkParam P_IMM 2 1 0 0xffff] false false false true true;
  mkTemplate "ANDI" 0x0240 0xfeff 2 2 [mkParam P_ACCM 1 0 8 0x0100; mkParam P_IMM 2 1 0 0xffff] false false false true true;
  mkTemplate "ORI" 0x0260 0xfeff 2 2 [mkParam P_ACCM 1 0 8 0x0100; mkParam P_IMM 2 1 0 0xffff] false false false true true;
  mkTemplate "CMPI" 0x0280 0xfeff 2 2 [mkParam P_ACCM 1 0 8 0x0100; mkParam P_IMM 2 1 0 0xffff] false false false true true;
  mkTemplate "ANDF" 0x02a0 0xfeff 2 2 [mkParam P_ACCM 1 0 8 0x0100; mkParam P_IMM 2 1 0 0xffff] false false false true true;
  mkTemplate "ANDCF" 0x02c0 0xfeff 2 2 [mkParam P_ACCM 1 0 8 0x0100; mkParam P_IMM 2 1 0 0xffff] false false false true true;
  mkTemplate "ILRR" 0x0210 0xfefc 1 2 [mkParam P_ACCM 1 0 8 0x0100; mkParam P_PRG 1 0 0 0x0003] false false false false false;
  mkTemplate "ILRRD" 0x0214 0xfefc 1 2 [mkParam P_ACCM 1 0 8 0x0100; mkParam P_PRG 1 0 0 0x0003] false false false false false;
  mkTemplate "ILRRI" 0x0218 0xfefc 1 2 [mkParam P_ACCM 1 0 8 0x0100; mkParam P_PRG 1 0 0 0x0003] false false false false false;
  mkTemplate "ILRRN" 0x021c 0xfefc 1 2 [mkParam P_ACCM 1 0 8 0x0100; mkParam P_PRG 1 0 0 0x0003] false false false false false;
  mkTemplate "LOOP" 0x0040 0xffe0 1 1 [mkParam P_REG 1 0 0 0x001f] false true true true false;
  mkTemplate "BLOOP" 0x0060 0xffe0 2 2 [mkParam P_REG 1 0 0 0x001f; mkParam P_ADDR_I 2 1 0 0xffff] false true true true false;
  mkTemplate "LOOPI" 0x1000 0xff00 1 1 [mkParam P_IMM 1 0 0 0x00ff] false true true true false;
  mkTemplate "BLOOPI" 0x1100 0xff00 2 2 [mkParam P_IMM 1 0 0 0x00ff; mkParam P_ADDR_I 2 1 0 0xffff] false true true true false;
  mkTemplate "LRR" 0x1800 0xff80 1 2 [mkParam P_REG 1 0 0 0x001f; mkParam P_PRG 1 0 5 0x0060] false false false false false;
  mkTemplate "LRRD" 0x1880 0xff80 1 2 [mkParam P_REG 1 0 0 0x001f; mkParam P_PRG 1 0 5 0x0060] false false false false false;
  mkTemplate "LRRI" 0x1900 0xff80 1 2 [mkParam P_REG 1 0 0 0x001f; mkParam P_PRG 1 0 5 0x0060] false false false false false;
  mkTemplate "LRRN" 0x1980 0xff80 1 2 [mkParam P_REG 1 0 0 0x001f; mkParam P_PRG 1 0 5 0x0060] false false false false false;
  mkTemplate "SRR" 0x1a00 0xff80 1 2 [mkParam P_PRG 1 0 5 0x0060; mkParam P_REG 1 0 0 0x001f] false false false false false;
  mkTemplate "SRRD" 0x1a80 0xff80 1 2 [mkParam P_PRG 1 0 5 0x0060; mkParam P_REG 1 0 0 0x001f] false false false false false;
  mkTemplate "SRRI" 0x1b00 0xff80 1 2 [mkParam P_PRG 1 0 5 0x0060; mkParam P_REG 1 0 0 0x001f] false false false false false;
  mkTemplate "SRRN" 0x1b80 0xff80 1 2 [mkParam P_PRG 1 0 5 0x0060; mkParam P_REG 1 0 0 0x001f] false false false false false;
  mkTemplate "LRS" 0x2000 0xf800 1 2 [mkParam P_REG18 1 0 8 0x0700; mkParam P_MEM 1 0 0 0x00ff] false false false false false;
  mkTemplate "SRSH" 0x2800 0xfe00 1 2 [mkParam P_MEM 1 0 0 0x00ff; mkParam P_ACCH 1 0 8 0x0100] false false false false false;
  mkTemplate "SRS" 0x2c00 0xfc00 1 2 [mkParam P_MEM 1 0 0 0x00ff; mkParam P_REG1C 1 0 8 0x0300] false false false false false;
  mkTemplate "XORR" 0x3000 0xfc80 1 2 [mkParam P_ACCM 1 0 8 0x0100; mkParam P_REG1A 1 0 9 0x0200] true false false false true;
  mkTemplate "ANDR" 0x3400 0xfc80 1 2 [mkParam P_ACCM 1 0 8 0x0100; mkParam P_REG1A 1 0 9 0x0200] true false false false true;
  mkTemplate "ORR" 0x3800 0xfc80 1 2 [mkParam P_ACCM 1 0 8 0x0100; mkParam P_REG1A 1 0 9 0x0200] true false false false true;
  mkTemplate "ANDC" 0x3c00 0xfe80 1 2 [mkParam P_ACCM 1 0 8 0x0100; mkParam P_ACCM_D 1 0 8 0x0100] true false false false true;
  mkTemplate "ORC" 0x3e00 0xfe80 1 2 [mkParam P_ACCM 1 0 8 0x0100; mkParam P_ACCM_D 1 0 8 0x0100] true false false false true;
  mkTemplate "XORC" 0x3080 0xfe80 1 2 [mkParam P_ACCM 1 0 8 0x0100; mkParam P_ACCM_D 1 0 8 0x0100] true false false false true;
  mkTemplate "NOT" 0x3280 0xfe80 1 1 [mkParam P_ACCM 1 0 8 0x0100] true false false false true;
  mkTemplate "LSRNRX" 0x3480 0xfc80 1 2 [mkParam P_ACC 1 0 8 0x0100; mkParam P_REG1A 1 0 9 0x0200] true false false false true;
  mkTemplate "ASRNRX" 0x3880 0xfc80 1 2 [mkParam P_ACC 1 0 8 0x0100; mkParam P_REG1A 1 0 9 0x0200] true false false false true;
  mkTemplate "LSRNR" 0x3c80 0xfe80 1 2 [mkParam P_ACC 1 0 8 0x0100; mkParam P_ACCM_D 1 0 8 0x0100] true false false false true;
  mkTemplate "ASRNR" 0x3e80 0xfe80 1 2 [mkParam P_ACC 1 0 8 0x0100; mkParam P_ACCM_D 1 0 8 0x0100] true false false false true;
  mkTemplate "ADDR" 0x4000 0xf800 1 2 [mkParam P_ACC 1 0 8 0x0100; mkParam P_REG18 1 0 9 0x0600] true false false false true;
  mkTemplate "ADDAX" 0x4800 0xfc00 1 2 [mkParam P_ACC 1 0 8 0x0100; mkParam P_AX 1 0 9 0x0200] true false false false true;
  mkTemplate "ADD" 0x4c00 0xfe00 1 2 [mkParam P_ACC 1 0 8 0x0100; mkParam P_ACC_D 1 0 8 0x0100] true false false false true;
  mkTemplate "ADDP" 0x4e00 0xfe00 1 1 [mkParam P_ACC 1 0 8 0x0100] true false false false true;
  mkTemplate "SUBR" 0x5000 0xf800 1 2 [mkParam P_ACC 1 0 8 0x0100; mkParam P_REG18 1 0 9 0x0600] true false false false true;
  mkTemplate "SUBAX" 0x5800 0xfc00 1 2 [mkParam P_ACC 1 0 8 0x0100; mkParam P_AX 1 0 9 0x0200] true false false false true;
  mkTemplate "SUB" 0x5c00 0xfe00 1 2 [mkParam P_ACC 1 0 8 0x0100; mkParam P_ACC_D 1 0 8 0x0100] true false false false true;
  mkTemplate "SUBP" 0x5e00 0xfe00 1 1 [mkParam P_ACC 1 0 8 0x0100] true false false false true;
  mkTemplate "MOVR" 0x6000 0xf800 1 2 [mkParam P_ACC 1 0 8 0x0100; mkParam P_REG18 1 0 9 0x0600] true false false false true;
  mkTemplate "MOVAX" 0x6800 0xfc00 1 2 [mkParam P_ACC 1 0 8 0x0100; mkParam P_AX 1 0 9 0x0200] true false false false true;
  mkTemplate "MOV" 0x6c00 0xfe00 1 2 [mkParam P_ACC 1 0 8 0x0100; mkParam P_ACC_D 1 0 8 0x0100] true false false false true;
  mkTemplate "MOVP" 0x6e00 0xfe00 1 1 [mkParam P_ACC 1 0 8 0x0100] true false false false true;
  mkTemplate "ADDAXL" 0x7000 0xfc00 1 2 [mkParam P_ACC 1 0 8 0x0100; mkParam P_REG18 1 0 9 0x0200] true false false false true;
  mkTemplate "INCM" 0x7400 0xfe00 1 1 [mkParam P_ACCM 1 0 8 0x0100] true false false false true;
  mkTemplate "INC" 0x7600 0xfe00 1 1 [mkParam P_ACC 1 0 8 0x0100] true false false false true;
  mkTemplate "DECM" 0x7800 0xfe00 1 1 [mkParam P_ACCM 1 0 8 0x0100] true false false false true;
  mkTemplate "DEC" 0x7a00 0xfe00 1 1 [mkParam P_ACC 1 0 8 0x0100] true false false false true;
  mkTemplate "NEG" 0x7c00 0xfe00 1 1 [mkParam P_ACC 1 0 8 0x0100] true false false false true;
  mkTemplate "MOVNP" 0x7e00 0xfe00 1 1 [mkParam P_ACC 1 0 8 0x0100] true false false false true;
  mkTemplate "NX" 0x8000 0xf700 1 0 [] true false false false false;
  mkTemplate "CLR" 0x8100 0xf700 1 1 [mkParam P_ACC 1 0 11 0x0800] true false false false true;
  mkTemplate "CMP" 0x8200 0xff00 1 0 [] true false false false true;
  mkTemplate "MULAXH" 0x8300 0xff00 1 0 [] true false false false true;
  mkTemplate "CLRP" 0x8400 0xff00 1 0 [] true false false false true;
  mkTemplate "TSTPROD" 0x8500 0xff00 1 0 [] true false false false true;
  mkTemplate "TSTAXH" 0x8600 0xfe00 1 1 [mkParam P_REG1A 1 0 8 0x0100] true false false false true;
  mkTemplate "M2" 0x8a00 0xff00 1 0 [] true false false false false;
  mkTemplate "M0" 0x8b00 0xff00 1 0 [] true false false false false;
  mkTemplate "CLR15" 0x8c00 0xff00 1 0 [] true false false false false;
  mkTemplate "SET15" 0x8d00 0xff00 1 0 [] true false false false false;
  mkTemplate "SET16" 0x8e00 0xff00 1 0 [] true false false false false;
  mkTemplate "SET40" 0x8f00 0xff00 1 0 [] true false false false false;
  mkTemplate "MUL" 0x9000 0xf700 1 2 [mkParam P_REG18 1 0 11 0x0800; mkParam P_REG1A 1 0 11 0x0800] true false false false true;
  mkTemplate "ASR16" 0x9100 0xf700 1 1 [mkParam P_ACC 1 0 11 0x0800] true false false false true;
  mkTemplate "MULMVZ" 0x9200 0xf600 1 3 [mkParam P_REG18 1 0 11 0x0800; mkParam P_REG1A 1 0 11 0x0800; mkParam P_ACC 1 0 8 0x0100] true false false false true;
  mkTemplate "MULAC" 0x9400 0xf600 1 3 [mkParam P_REG18 1 0 11 0x0800; mkParam P_REG1A 1 0 11 0x0800; mkParam P_ACC 1 0 8 0x0100] true false false false true;
  mkTemplate "MULMV" 0x9600 0xf600 1 3 [mkParam P_REG18 1 0 11 0x0800; mkParam P_REG1A 1 0 11 0x0800; mkParam P_ACC 1 0 8 0x0100] true false false false true;
  mkTemplate "MULX" 0xa000 0xe700 1 2 [mkParam P_REGM18 1 0 11 0x1000; mkParam P_REGM19 1 0 10 0x0800] true false false false true;
  mkTemplate "ABS" 0xa100 0xf700 1 1 [mkParam P_ACC 1 0 11 0x0800] true false false false true;
  mkTemplate "MULXMVZ" 0xa200 0xe600 1 3 [mkParam P_REGM18 1 0 11 0x1000; mkParam P_REGM19 1 0 10 0x0800; mkParam P_ACC 1 0 8 0x0100] true false false false true;
  mkTemplate "MULXAC" 0xa400 0xe600 1 3 [mkParam P_REGM18 1 0 11 0x1000; mkParam P_REGM19 1 0 10 0x0800; mkParam P_ACC 1 0 8 0x0100] true false false false true;
  mkTemplate "MULXMV" 0xa600 0xe600 1 3 [mkParam P_REGM18 1 0 11 0x1000; mkParam P_REGM19 1 0 10 0x0800; mkParam P_ACC 1 0 8 0x0100] true false false false true;
  mkTemplate "TST" 0xb100 0xf700 1 1 [mkParam P_ACC 1 0 11 0x0800] true false false false true;
  mkTemplate "MULC" 0xc000 0xe700 1 2 [mkParam P_ACCM 1 0 12 0x1000; mkParam P_REG1A 1 0 11 0x0800] true false false false true;
  mkTemplate "CMPAXH" 0xc100 0xe700 1 2 [mkParam P_ACC 1 0 11 0x0800; mkParam P_REG1A 1 0 12 0x1000] true false false false true;
  mkTemplate "MULCMVZ" 0xc200 0xe600 1 3 [mkParam P_ACCM 1 0 12 0x1000; mkParam P_REG1A 1 0 11 0x0800; mkParam P_ACC 1 0 8 0x0100] true false false false true;
  mkTemplate "MULCAC" 0xc400 0xe600 1 3 [mkParam P_ACCM 1 0 12 0x1000; mkParam P_REG1A 1 0 11 0x0800; mkParam P_ACC 1 0 8 0x0100] true false false false true;
  mkTemplate "MULCMV" 0xc600 0xe600 1 3 [mkParam P_ACCM 1 0 12 0x1000; mkParam P_REG1A 1 0 11 0x0800; mkParam P_ACC 1 0 8 0x0100] true false false false true;
  mkTemplate "MADDX" 0xe000 0xfc00 1 2 [mkParam P_REGM18 1 0 8 0x0200; mkParam P_REGM19 1 0 7 0x0100] true false false false true;
  mkTemplate "MSUBX" 0xe400 0xfc00 1 2 [mkParam P_REGM18 1 0 8 0x0200; mkParam P_REGM19 1 0 7 0x0100] true false false false true;
  mkTemplate "MADDC" 0xe800 0xfc00 1 2 [mkParam P_ACCM 1 0 9 0x0200; mkParam P_REG19 1 0 7 0x0100] true false false false true;
  mkTemplate "MSUBC" 0xec00 0xfc00 1 2 [mkParam P_ACCM 1 0 9 0x0200; mkParam P_REG19 1 0 7 0x0100] true false false false true;
  mkTemplate "LSL16" 0xf000 0xfe00 1 1 [mkParam P_ACC 1 0 8 0x0100] true false false false true;
  mkTemplate "MADD" 0xf200 0xfe00 1 2 [mkParam P_REG18 1 0 8 0x0100; mkParam P_REG1A 1 0 8 0x0100] true false false false true;
  mkTemplate "LSR16" 0xf400 0xfe00 1 1 [mkParam P_ACC 1 0 8 0x0100] true false false false true;
  mkTemplate "MSUB" 0xf600 0xfe00 1 2 [mkParam P_REG18 1 0 8 0x0100; mkParam P_REG1A 1 0 8 0x0100] true false false false true;
  mkTemplate "ADDPAXZ" 0xf800 0xfc00 1 2 [mkParam P_ACC 1 0 9 0x0200; mkParam P_AX 1 0 8 0x0100] true false false false true;
  mkTemplate "CLRL" 0xfc00 0xfe00 1 1 [mkParam P_ACCL 1 0 11 0x0800] true false false false true;
  mkTemplate "MOVPZ" 0xfe00 0xfe00 1 1 [mkParam P_ACC 1 0 8 0x0100] true false false false true
].

Definition s_opcodes : list DSPOPCTemplate := s_opcodes_flow ++ s_opcodes_data.

Definition s_opcodes_ext : list DSPOPCTemplate := [
  mkTemplate "XXX" 0x0000 0x00fc 1 1 [mkParam P_VAL 1 0 0 0x00ff] false false false false false;
  mkTemplate "DR" 0x0004 0x00fc 1 1 [mkParam P_REG 1 0 0 0x0003] false false false false false;
  mkTemplate "IR" 0x0008 0x00fc 1 1 [mkParam P_REG 1 0 0 0x0003] false false false false false;
  mkTemplate "NR" 0x000c 0x00fc 1 1 [mkParam P_REG 1 0 0 0x0003] false false false false false;
  mkTemplate "MV" 0x0010 0x00f0 1 2 [mkParam P_REG18 1 0 2 0x000c; mkParam P_REG1C 1 0 0 0x0003] false false false false false;
  mkTemplate "S" 0x0020 0x00e4 1 2 [mkParam P_PRG 1 0 0 0x0003; mkParam P_REG1C 1 0 3 0x0018] false false false false false;
  mkTemplate "SN" 0x0024 0x00e4 1 2 [mkParam P_PRG 1 0 0 0x0003; mkParam P_REG1C 1 0 3 0x0018] false false false false false;
  mkTemplate "L" 0x0040 0x00c4 1 2 [mkParam P_REG18 1 0 3 0x0038; mkParam P_PRG 1 0 0 0x0003] false false false false false;
  mkTemplate "LN" 0x0044 0x00c4 1 2 [mkParam P_REG18 1 0 3 0x0038; mkParam P_PRG 1 0 0 0x0003] false false false false false;
  mkTemplate "LS" 0x0080 0x00ce 1 2 [mkParam P_REG18 1 0 4 0x0030; mkParam P_ACCM 1 0 0 0x0001] false false false false false;
  mkTemplate "SL" 0x0082 0x00ce 1 2 [mkParam P_ACCM 1 0 0 0x0001; mkParam P_REG18 1 0 4 0x0030] false false false false false;
  mkTemplate "LSN" 0x0084 0x00ce 1 2 [mkParam P_REG18 1 0 4 0x0030; mkParam P_ACCM 1 0 0 0x0001] false false false false false;
  mkTemplate "SLN" 0x0086 0x00ce 1 2 [mkParam P_ACCM 1 0 0 0x0001; mkParam P_REG18 1 0 4 0x0030] false false false false false;
  mkTemplate "LSM" 0x0088 0x00ce 1 2 [mkParam P_REG18 1 0 4 0x0030; mkParam P_ACCM 1 0 0 0x0001] false false false false false;
  mkTemplate "SLM" 0x008a 0x00ce 1 2 [mkParam P_ACCM 1 0 0 0x0001; mkParam P_REG18 1 0 4 0x0030] false false false false false;
  mkTemplate "LSNM" 0x008c 0x00ce 1 2 [mkParam P_REG18 1 0 4 0x0030; mkParam P_ACCM 1 0 0 0x0001] false false false false false;
  mkTemplate "SLNM" 0x008e 0x00ce 1 2 [mkParam P_ACCM 1 0 0 0x0001; mkParam P_REG18 1 0 4 0x0030] false false false false false;
  mkTemplate "LDAX" 0x00c3 0x00cf 1 2 [mkParam P_AX 1 0 4 0x0010; mkParam P_PRG 1 0 5 0x0020] false false false false false;
  mkTemplate "LDAXN" 0x00c7 0x00cf 1 2 [mkParam P_AX 1 0 4 0x0010; mkParam P_PRG 1 0 5 0x0020] false false false false false;
  mkTemplate "LDAXM" 0x00cb 0x00cf 1 2 [mkParam P_AX 1 0 4 0x0010; mkParam P_PRG 1 0 5 0x0020] false false false false false;
  mkTemplate "LDAXNM" 0x00cf 0x00cf 1 2 [mkParam P_AX 1 0 4 0x0010; mkParam P_PRG 1 0 5 0x0020] false false false false false;
  mkTemplate "LD" 0x00c0 0x00cc 1 3 [mkParam P_REGM18 1 0 4 0x0020; mkParam P_REGM19 1 0 3 0x0010; mkParam P_PRG 1 0 0 0x0003] false false false false false;
  mkTemplate "LDN" 0x00c4 0x00cc 1 3 [mkParam P_REGM18 1 0 4 0x0020; mkParam P_REGM19 1 0 3 0x0010; mkParam P_PRG 1 0 0 0x0003] false false false false false;
  mkTemplate "LDM" 0x00c8 0x00cc 1 3 [mkParam P_REGM18 1 0 4 0x0020; mkParam P_REGM19 1 0 3 0x0010; mkParam P_PRG 1 0 0 0x0003] false false false false false;
  mkTemplate "LDNM" 0x00cc 0x00cc 1 3 [mkParam P_REGM18 1 0 4 0x0020; mkParam P_REGM19 1 0 3 0x0010; mkParam P_PRG 1 0 0 0x0003] false false false false false
].

(** ** Lookup *)

(** [FindByOpcode]: the first entry of a table whose pattern the opcode matches. *)
Definition matches (opc op mask : Z) : bool := (opc .& mask) =? op.

Fixpoint FindByOpcode {T : Type} (get_opcode get_mask : T -> Z) (opc : Z) (data : list T) : option T :=
  match data with
  | [] => None
  | info :: data' =>
      if matches opc (get_opcode info) (get_mask info) then Some info
      else FindByOpcode get_opcode get_mask opc data'
  end.

Definition FindOpInfoByOpcode (opc : Z) : option DSPOPCTemplate :=
  FindByOpcode opcode opcode_mask opc s_opcodes.
Definition FindExtOpInfoByOpcode (opc : Z) : option DSPOPCTemplate :=
  FindByOpcode opcode opcode_mask opc s_opcodes_ext.

Fixpoint FindByName (n : string) (data : list DSPOPCTemplate) : option DSPOPCTemplate :=
  match data with
  | [] => None
  | info :: data' => if String.eqb (op_name info) n then Some info else FindByName n data'
  end.
Definition FindOpInfoByName (n : string) : option DSPOPCTemplate := FindByName n s_opcodes.
Definition FindExtOpInfoByName (n : string) : option DSPOPCTemplate := FindByName n s_opcodes_ext.

(** The entries [InitInstructionTable] stores for one opcode, read back. *)
Definition GetOpTemplate (inst : Z) : DSPOPCTemplate := default cw (FindOpInfoByOpcode inst).

(** The low bits of an opcode that select its extension. *)
Definition ext_bits (inst : Z) : Z := if (inst .>> 12) =? 0x3 then inst .& 0x7F else inst .& 0xFF.
Definition GetExtOpTemplate (inst : Z) : DSPOPCTemplate :=
  default cw (FindExtOpInfoByOpcode (ext_bits inst)).
