(* ===== verification/DSPAccelerator.v ===== *)
(** * DSP: the sample accelerator

    [Core/DSP/DSPAccelerator.cpp].  The accelerator is an abstract class: what
    it asks of its subclass (memory and the three end-of-buffer exceptions) is
    the class [AccelEnv], and every operation passes the accelerator's
    registers and that environment along.

    Arithmetic on [s32] is written with its wrap-around ([s32]); the operands
    for which the C++ expression would overflow are those for which the
    wrapped value differs from the mathematical one. *)
From S2P Require Export DSPTypes.

Class AccelEnv (E : Type) := {
  ReadMemory : E -> Z -> Z;
  WriteMemory : E -> Z -> Z -> E;
  OnRawReadEndException : E -> E;
  OnRawWriteEndException : E -> E;
  OnSampleReadEndException : E -> E
}.

(** ** The sample format ([union SampleFormat]) *)

Inductive FormatSize := Size4Bit | Size8Bit | Size16Bit | SizeInvalid.
Inductive FormatDecode := ADPCM | MMIOPCMNoInc | PCM | MMIOPCMInc.
Inductive FormatGainScale := GainScale2048 | GainScale1 | GainScale65536 | GainScaleInvalid.

#[global] Instance FormatDecode_eq_dec : EqDecision FormatDecode.
Proof. solve_decision. Defined.
#[global] Instance FormatSize_eq_dec : EqDecision FormatSize.
Proof. solve_decision. Defined.

Definition format_size (hex : Z) : FormatSize :=
  match hex .& 3 with 0 => Size4Bit | 1 => Size8Bit | 2 => Size16Bit | _ => SizeInvalid end.
Definition format_decode (hex : Z) : FormatDecode :=
  match (hex .>> 2) .& 3 with 0 => ADPCM | 1 => MMIOPCMNoInc | 2 => PCM | _ => MMIOPCMInc end.
Definition format_gain_scale (hex : Z) : FormatGainScale :=
  match (hex .>> 4) .& 3 with
  | 0 => GainScale2048 | 1 => GainScale1 | 2 => GainScale65536 | _ => GainScaleInvalid
  end.

(** ** Register writes *)

Definition START_END_ADDRESS_MASK := 0x3fffffff.
Definition CURRENT_ADDRESS_MASK := 0xbfffffff.

Definition SetStartAddress (address : Z) (a : Accelerator) : Accelerator :=
  set_m_start_address (address .& START_END_ADDRESS_MASK) a.
Definition SetEndAddress (address : Z) (a : Accelerator) : Accelerator :=
  set_m_end_address (address .& START_END_ADDRESS_MASK) a.
Definition SetCurrentAddress (address : Z) (a : Accelerator) : Accelerator :=
  set_m_current_address (address .& CURRENT_ADDRESS_MASK) a.
Definition SetSampleFormat (format : Z) (a : Accelerator) : Accelerator := set_m_sample_format format a.
Definition SetGain (gain : Z) (a : Accelerator) : Accelerator := set_m_gain (s16 gain) a.
Definition SetYn1 (yn1 : Z) (a : Accelerator) : Accelerator := set_m_yn1 (s16 yn1) a.
Definition SetYn2 (yn2 : Z) (a : Accelerator) : Accelerator :=
  set_m_reads_stopped false (set_m_yn2 (s16 yn2) a).
Definition SetPredScale (pred_scale : Z) (a : Accelerator) : Accelerator :=
  set_m_pred_scale (pred_scale .& 0x7f) a.
Definition SetInput (input : Z) (a : Accelerator) : Accelerator := set_m_input input a.

(** [MathUtil::SaturatingCast<s16>] of an [s32] *)
Definition SaturatingCast_s16 (value : Z) : Z :=
  if value <? -0x8000 then -0x8000 else if 0x7fff <? value then 0x7fff else value.

Section Accel.
Context {E : Type} {EE : AccelEnv E}.

Definition GetCurrentSample (a : Accelerator) (e : E) : Z :=
  let cur := m_current_address a in
  match format_size (m_sample_format a) with
  | Size4Bit =>
      let val := ReadMemory e (cur .>> 1) in
      if negb (cur .& 1 =? 0) then val .& 0xf else val .>> 4
  | Size8Bit => ReadMemory e cur
  | Size16Bit => u16 ((ReadMemory e (u32 (cur * 2)) .<< 8) .| ReadMemory e (u32 (cur * 2 + 1)))
  | SizeInvalid => 0
  end.

Definition ReadRaw (a : Accelerator) (e : E) : Z * Accelerator * E :=
  let val := GetCurrentSample a e in
  let cur := m_current_address a in
  let cur :=
    match format_size (m_sample_format a) with
    | SizeInvalid => u32 ((cur .& .~ 3) .| (u32 (cur + 1) .& 3))
    | _ => u32 (cur + 1)
    end in
  let '(cur, e) :=
    if u32 (cur - 1) =? m_end_address a then (m_start_address a, OnRawReadEndException e)
    else (cur, e) in
  (val, SetCurrentAddress cur a, e).

Definition WriteRaw (value : Z) (a : Accelerator) (e : E) : Accelerator * E :=
  let cur := m_current_address a in
  if negb (cur .& 0x80000000 =? 0) then
    let e := WriteMemory e (u32 (cur * 2)) (value .>> 8) in
    let e := WriteMemory e (u32 (cur * 2 + 1)) (value .& 0xFF) in
    (set_m_current_address (u32 (cur + 1)) a, OnRawWriteEndException e)
  else (a, e).

(** The rounded sum of the filter: [0x400 + coef1 * m_yn1 + coef2 * m_yn2]. *)
Definition adpcm_prediction (coef1 coef2 yn1 yn2 : Z) : Z := 0x400 + coef1 * yn1 + coef2 * yn2.

(** The ADPCM case of [ReadSample]: the sample, the next position and
    predictor scale, and the step. *)
Definition DecodeADPCM (coef1 coef2 raw_sample : Z) (a : Accelerator) (e : E) :
    Z * Accelerator * Z :=
  let raw := raw_sample .& 0xF in
  let scale := 1 .<< (m_pred_scale a .& 0xF) in
  let raw := if 8 <=? raw then raw - 16 else raw in
  let val32 :=
    s32 (scale * raw + (s32 (adpcm_prediction coef1 coef2 (m_yn1 a) (m_yn2 a)) .>> 11)) in
  let val := u16 (SaturatingCast_s16 val32) in
  let a := set_m_yn1 (s16 val) (set_m_yn2 (m_yn1 a) a) in
  let cur := u32 (m_current_address a + 1) in
  if (m_end_address a .& 0xf =? 0x0) && (cur =? m_end_address a) then
    (val, set_m_current_address (u32 (m_start_address a + 1)) a, 2)
  else if (m_end_address a .& 0xf =? 0x1) && (cur =? u32 (m_end_address a - 1)) then
    (val, set_m_current_address (m_start_address a) a, 2)
  else if cur .& 15 =? 0 then
    (val,
     set_m_current_address (u32 (cur + 2))
       (set_m_pred_scale (ReadMemory e (u32 (cur .& .~ 15) .>> 1)) a), 4)
  else (val, set_m_current_address cur a, 2).

Definition gain_shift (g : FormatGainScale) : Z :=
  match g with GainScale2048 => 11 | GainScale1 => 0 | GainScale65536 => 16 | GainScaleInvalid => 0 end.

(** The PCM cases of [ReadSample]. *)
Definition DecodePCM (coef1 coef2 raw_sample : Z) (a : Accelerator) : Z * Accelerator * Z :=
  let shift := gain_shift (format_gain_scale (m_sample_format a)) in
  let val32 :=
    s32 ((m_gain a * raw_sample .>> shift) +
         s32 ((coef1 * m_yn1 a .>> shift) + (coef2 * m_yn2 a .>> shift))) in
  let val := u16 (s16 val32) in
  let a := set_m_yn1 (s16 val) (set_m_yn2 (m_yn1 a) a) in
  let a :=
    match format_decode (m_sample_format a) with
    | MMIOPCMNoInc => a
    | _ => set_m_current_address (u32 (m_current_address a + 1)) a
    end in
  (val, a, 2).

(** [coefs i] is [coefs[i]], an [s16]. *)
Definition ReadSample (coefs : Z -> Z) (a : Accelerator) (e : E) : Z * Accelerator * E :=
  if m_reads_stopped a then (0, a, e) else
  let decode := format_decode (m_sample_format a) in
  let raw_sample :=
    match decode with
    | MMIOPCMNoInc | MMIOPCMInc => s16 (m_input a)
    | _ => s16 (GetCurrentSample a e)
    end in
  let coef_idx := (m_pred_scale a .>> 4) .& 0x7 in
  let coef1 := coefs (coef_idx * 2 + 0) in
  let coef2 := coefs (coef_idx * 2 + 1) in
  let '(val, a, step_size) :=
    match decode with
    | ADPCM => DecodeADPCM coef1 coef2 raw_sample a e
    | _ => DecodePCM coef1 coef2 raw_sample a
    end in
  let '(a, e) :=
    if m_current_address a =? u32 (m_end_address a + step_size - 1) then
      (set_m_reads_stopped true (set_m_current_address (m_start_address a) a),
       OnSampleReadEndException e)
    else (a, e) in
  (val, SetCurrentAddress (m_current_address a) a, e).
End Accel.

(** ** What the accelerator needs of its environment *)

Class AccelEnvLaws (E : Type) {EE : AccelEnv E} (I : E -> Prop) : Prop := {
  ReadMemory_range : forall e a, I e -> is_u8 (ReadMemory e a);
  WriteMemory_inv : forall e a v, I e -> I (WriteMemory e a v);
  OnRawReadEndException_inv : forall e, I e -> I (OnRawReadEndException e);
  OnRawWriteEndException_inv : forall e, I e -> I (OnRawWriteEndException e);
  OnSampleReadEndException_inv : forall e, I e -> I (OnSampleReadEndException e)
}.

Ltac wf_accel_set :=
  intros; match goal with Hwf : wf_accel ?a |- wf_accel _ => destruct a, Hwf; constructor; simpl in *; auto end.

Lemma wf_SetCurrentAddress v a : wf_accel a -> is_u32 v -> wf_accel (SetCurrentAddress v a).
Proof. unfold SetCurrentAddress. wf_accel_set. by apply is_u32_land. Qed.
Lemma wf_SetStartAddress v a : wf_accel a -> is_u32 v -> wf_accel (SetStartAddress v a).
Proof. unfold SetStartAddress. wf_accel_set. by apply is_u32_land. Qed.
Lemma wf_SetEndAddress v a : wf_accel a -> is_u32 v -> wf_accel (SetEndAddress v a).
Proof. unfold SetEndAddress. wf_accel_set. by apply is_u32_land. Qed.
Lemma wf_SetSampleFormat v a : wf_accel a -> is_u16 v -> wf_accel (SetSampleFormat v a).
Proof. unfold SetSampleFormat. wf_accel_set. Qed.
Lemma wf_SetGain v a : wf_accel a -> wf_accel (SetGain v a).
Proof. unfold SetGain. wf_accel_set. apply s16_range. Qed.
Lemma wf_SetYn1 v a : wf_accel a -> wf_accel (SetYn1 v a).
Proof. unfold SetYn1. wf_accel_set. apply s16_range. Qed.
Lemma wf_SetYn2 v a : wf_accel a -> wf_accel (SetYn2 v a).
Proof. unfold SetYn2. wf_accel_set. apply s16_range. Qed.
Lemma wf_SetPredScale v a : wf_accel a -> wf_accel (SetPredScale v a).
Proof. unfold SetPredScale. wf_accel_set. rng. Qed.
Lemma wf_SetInput v a : wf_accel a -> is_u16 v -> wf_accel (SetInput v a).
Proof. unfold SetInput. wf_accel_set. Qed.

Section AccelSafe.
Context {E : Type} {EE : AccelEnv E} (I : E -> Prop) {HE : AccelEnvLaws E I}.

Lemma GetCurrentSample_range a e : I e -> is_u16 (GetCurrentSample a e).
Proof.
  intros He. unfold GetCurrentSample. destruct (format_size _).
  - pose proof (ReadMemory_range e (m_current_address a .>> 1) He) as Hr.
    destruct (negb _); [mask_facts; zlia|].
    rewrite Z.shiftr_div_pow2 by lia. change (2 ^ 4) with 16. zlia.
  - pose proof (ReadMemory_range e (m_current_address a) He). zlia.
  - apply is_u16_u16.
  - zlia.
Qed.

Lemma ReadRaw_wf a e v a' e' :
  wf_accel a -> I e -> ReadRaw a e = (v, a', e') -> is_u16 v /\ wf_accel a' /\ I e'.
Proof.
  intros Ha He. unfold ReadRaw.
  set (cur := match format_size _ with SizeInvalid => _ | _ => _ end).
  assert (Hc : is_u32 cur) by (subst cur; destruct (format_size _); apply is_u32_u32).
  pose proof (GetCurrentSample_range a e He) as Hv.
  destruct (_ =? _); intros [= <- <- <-]; split; [done| |done|]; split; try done.
  - apply wf_SetCurrentAddress; [done|]. apply Ha.
  - by apply OnRawReadEndException_inv.
  - by apply wf_SetCurrentAddress.
Qed.

Lemma WriteRaw_wf v a e a' e' :
  wf_accel a -> I e -> WriteRaw v a e = (a', e') -> wf_accel a' /\ I e'.
Proof.
  intros Ha He. unfold WriteRaw. destruct (negb _); intros [= <- <-]; [|done]. split.
  - revert Ha. wf_accel_set. apply is_u32_u32.
  - by apply OnRawWriteEndException_inv, WriteMemory_inv, WriteMemory_inv.
Qed.

Lemma DecodeADPCM_wf c1 c2 raw a e v a' n :
  wf_accel a -> I e -> DecodeADPCM c1 c2 raw a e = (v, a', n) -> is_u16 v /\ wf_accel a'.
Proof.
  intros Ha He. unfold DecodeADPCM.
  set (val := u16 (SaturatingCast_s16 _)).
  assert (Hv : is_u16 val) by apply is_u16_u16.
  set (a1 := set_m_yn1 (s16 val) _).
  assert (Ha1 : wf_accel a1).
  { subst a1. clearbody val. revert Ha. wf_accel_set. apply s16_range. }
  clearbody val a1.
  assert (Hcur : forall x, is_u32 x -> wf_accel (set_m_current_address x a1))
    by (intros; revert Ha1; wf_accel_set).
  destruct (_ && _); [intros [= <- <- <-]; split; [done|]; apply Hcur, is_u32_u32|].
  destruct (_ && _); [intros [= <- <- <-]; split; [done|]; apply Hcur, Ha1|].
  destruct (_ =? 0); intros [= <- <- <-]; (split; [done|]); [|apply Hcur, is_u32_u32].
  pose proof (ReadMemory_range e (u32 (u32 (m_current_address a1 + 1) .& .~ 15) .>> 1) He).
  revert Ha1. wf_accel_set. apply is_u32_u32.
Qed.

Lemma DecodePCM_wf c1 c2 raw a v a' n :
  wf_accel a -> DecodePCM c1 c2 raw a = (v, a', n) -> is_u16 v /\ wf_accel a'.
Proof.
  intros Ha. unfold DecodePCM. set (val := u16 (s16 _)).
  assert (Hv : is_u16 val) by apply is_u16_u16. clearbody val.
  intros [= <- <- <-]. split; [done|].
  assert (Ha1 : wf_accel (set_m_yn1 (s16 val) (set_m_yn2 (m_yn1 a) a)))
    by (revert Ha; wf_accel_set; apply s16_range).
  destruct (format_decode _); try done; revert Ha1; wf_accel_set; apply is_u32_u32.
Qed.

Lemma ReadSample_wf coefs a e v a' e' :
  wf_accel a -> I e -> ReadSample coefs a e = (v, a', e') -> is_u16 v /\ wf_accel a' /\ I e'.
Proof.
  intros Ha He. unfold ReadSample. destruct (m_reads_stopped a); [intros [= <- <- <-]; by split_and!|].
  destruct (match format_decode _ with ADPCM => _ | _ => _ end) as [[v1 a1] n1] eqn:E1.
  assert (Hv1 : is_u16 v1 /\ wf_accel a1).
  { destruct (format_decode (m_sample_format a));
      first [by eapply DecodeADPCM_wf in E1 | by eapply DecodePCM_wf in E1]. }
  destruct Hv1 as [Hv1 Ha1].
  destruct (_ =? _); intros [= <- <- <-]; (split; [done|]); split; try done.
  - apply wf_SetCurrentAddress; [|apply Ha1]. revert Ha1. wf_accel_set.
  - by apply OnSampleReadEndException_inv.
  - apply wf_SetCurrentAddress; [done|apply Ha1].
Qed.
End AccelSafe.
