(* ===== verification/DSPAnalyzer.v ===== *)
(** * DSP: instruction memory and the static analyzer

    The instruction-memory half of [DSPMemoryMap.cpp] and [DSPAnalyzer.cpp]
    (compiled, as the header says, with [DISABLE_UPDATE_SR_ANALYSIS]). *)
From S2P Require Export DSPTables DSPCore.

Section InstructionMemory.
Context {H : Type}.

Definition mem_read (f : SDSP H -> Mem) (i : Z) : M (SDSP H) Z :=
  m <- mget f ;; mopt ArrayBounds (mem_get m i).

Definition ReadIMEM (address : Z) : M (SDSP H) Z :=
  if address .>> 12 =? 0 then mem_read iram (address .& DSP_IRAM_MASK)
  else if address .>> 12 =? 8 then mem_read irom (address .& DSP_IROM_MASK)
  else mret 0.

Definition PeekInstruction : M (SDSP H) Z := p <- get_pc ;; ReadIMEM p.
Definition FetchInstruction : M (SDSP H) Z :=
  opc <- PeekInstruction ;; p <- get_pc ;; put_pc (u16 (p + 1)) ;;; mret opc.
Definition SkipInstruction : M (SDSP H) unit :=
  opc <- PeekInstruction ;; p <- get_pc ;; put_pc (u16 (p + op_size (GetOpTemplate opc))).
End InstructionMemory.

(** ** Code flags *)

Definition CODE_START_OF_INST := 1.
Definition CODE_IDLE_SKIP := 2.
Definition CODE_LOOP_START := 4.
Definition CODE_LOOP_END := 8.
Definition CODE_CHECK_EXC := 32.

Definition GetCodeFlags (flags : gmap Z Z) (address : Z) : Z := default 0 (flags !! address).
Definition has_flag (flags : gmap Z Z) (address flag : Z) : bool :=
  negb (GetCodeFlags flags address .& flag =? 0).

Section Analyzer.
Context {H : Type}.

Definition IsStartOfInstruction (address : Z) : M (SDSP H) bool :=
  mget (fun s => has_flag (m_code_flags s) address CODE_START_OF_INST).
Definition IsIdleSkip (address : Z) : M (SDSP H) bool :=
  mget (fun s => has_flag (m_code_flags s) address CODE_IDLE_SKIP).
Definition IsLoopStart (address : Z) : M (SDSP H) bool :=
  mget (fun s => has_flag (m_code_flags s) address CODE_LOOP_START).
Definition IsLoopEnd (address : Z) : M (SDSP H) bool :=
  mget (fun s => has_flag (m_code_flags s) address CODE_LOOP_END).
Definition IsUpdateSR (address : Z) : M (SDSP H) bool := mret true.
Definition IsCheckExceptions (address : Z) : M (SDSP H) bool :=
  mget (fun s => has_flag (m_code_flags s) address CODE_CHECK_EXC).

(** [m_code_flags[address] |= flag] *)
Definition add_flag (address flag : Z) : M (SDSP H) unit :=
  mmodify (fun s =>
    set_m_code_flags
      (<[address := GetCodeFlags (m_code_flags s) address .| flag]> (m_code_flags s)) s).

Definition Analyzer_Reset : M (SDSP H) unit := mmodify (set_m_code_flags ∅).

(** The opcodes after which exceptions are checked. *)
Definition raises_exceptions (t : DSPOPCTemplate) : bool :=
  existsb (Z.eqb (opcode t))
    [0x00c0; 0x00e0; 0x1600; 0x1800; 0x1880; 0x1900; 0x1980; 0x1a00; 0x1a80; 0x1b00; 0x1b80;
     0x2000; 0x2800; 0x2c00] || op_extended t.

(** The body of [FindInstructionStarts] at [addr]: the size of the instruction there. *)
Definition AnalyzeInstruction (addr : Z) : M (SDSP H) Z :=
  inst <- ReadIMEM addr ;;
  let t := GetOpTemplate inst in
  add_flag addr CODE_START_OF_INST ;;;
  (if (inst .& 0xffe0 =? 0x0060) || (inst .& 0xff00 =? 0x1100) then
     loop_end <- ReadIMEM (u16 (addr + 1)) ;;
     add_flag addr CODE_LOOP_START ;;;
     add_flag loop_end CODE_LOOP_END
   else if (inst .& 0xffe0 =? 0x0040) || (inst .& 0xff00 =? 0x1000) then
     add_flag addr CODE_LOOP_START ;;;
     add_flag (u16 (addr + 1)) CODE_LOOP_END
   else mret tt) ;;;
  mwhen (raises_exceptions t) (add_flag (u16 (addr + op_size t)) CODE_CHECK_EXC) ;;;
  mret (op_size t).

Fixpoint FindInstructionStarts (fuel : nat) (addr end_addr : Z) : M (SDSP H) unit :=
  if negb (addr <? end_addr) then mret tt
  else match fuel with
       | O => mfail OutOfFuel
       | S fuel' =>
           sz <- AnalyzeInstruction addr ;;
           FindInstructionStarts fuel' (u16 (addr + sz)) end_addr
       end.

Definition idle_skip_sigs : list (list Z) := [
  [0x26fc; 0x02c0; 0x8000; 0x029d; 0xFFFF; 0; 0];
  [0x27fc; 0x03c0; 0x8000; 0x029d; 0xFFFF; 0; 0];
  [0x26fe; 0x02c0; 0x8000; 0x029c; 0xFFFF; 0; 0];
  [0x27fe; 0x03c0; 0x8000; 0x029c; 0xFFFF; 0; 0];
  [0x26fc; 0x02a0; 0x8000; 0x029c; 0xFFFF; 0; 0];
  [0x27fc; 0x03a0; 0x8000; 0x029c; 0xFFFF; 0; 0];
  [0x00de; 0xFFFE; 0x02c0; 0x8000; 0x029c; 0xFFFF; 0];
  [0x00da; 0x0352; 0x8600; 0x0295; 0xFFFF; 0; 0]
].

(** The inner loop of [FindIdleSkips]: one signature against the code at [addr]. *)
Fixpoint MatchIdleSig (sig : list Z) (addr : Z) (found : bool) : M (SDSP H) bool :=
  match sig with
  | [] => mret found
  | x :: sig' =>
      let found := found || (x =? 0) in
      if x =? 0xFFFF then MatchIdleSig sig' (addr + 1) found
      else
        w <- ReadIMEM (u16 addr) ;;
        if negb (x =? w) then mret found else MatchIdleSig sig' (addr + 1) found
  end.

(** The loop over the addresses, [n] of them from [addr]. *)
Fixpoint FindIdleSig (sig : list Z) (n : nat) (addr : Z) : M (SDSP H) unit :=
  match n with
  | O => mret tt
  | S n' =>
      found <- MatchIdleSig sig addr false ;;
      mwhen found (add_flag addr CODE_IDLE_SKIP) ;;;
      FindIdleSig sig n' (addr + 1)
  end.

Fixpoint FindIdleSkips (sigs : list (list Z)) (start_addr end_addr : Z) : M (SDSP H) unit :=
  match sigs with
  | [] => mret tt
  | sig :: sigs' =>
      FindIdleSig sig (Z.to_nat (end_addr - start_addr)) start_addr ;;;
      FindIdleSkips sigs' start_addr end_addr
  end.

Definition AnalyzeRange (start_addr end_addr : Z) : M (SDSP H) unit :=
  FindInstructionStarts (Z.to_nat (end_addr - start_addr)) start_addr end_addr ;;;
  FindIdleSkips idle_skip_sigs start_addr end_addr.

Definition Analyze : M (SDSP H) unit :=
  Analyzer_Reset ;;; AnalyzeRange 0x0000 0x1000 ;;; AnalyzeRange 0x8000 0x9000.

(** [DSPCore::Reset] *)
Definition DSPCore_Reset : M (SDSP H) unit := Reset ;;; Analyze.
End Analyzer.

(** ** Safety *)

Section AnalyzerSafe.
Context {H : Type}.

Lemma safe_mem_read (f : SDSP H -> Mem) n i :
  (forall s, wf s -> wf_mem n (f s)) -> 0 <= i < n -> dsafe (mem_read f i) is_u16.
Proof.
  intros Hf Hi s Hs. unfold mem_read, mbind, mget.
  destruct (mem_get_wf n (f s) i (Hf s Hs) Hi) as (v & -> & Hv). by split.
Qed.

Lemma safe_ReadIMEM a : dsafe (H:=H) (ReadIMEM a) is_u16.
Proof.
  unfold ReadIMEM. apply dsafe_if; intros _; [|apply dsafe_if; intros _].
  - apply (safe_mem_read _ DSP_IRAM_SIZE); [by intros s []|].
    unfold DSP_IRAM_MASK, DSP_IRAM_SIZE. mask_facts. lia.
  - apply (safe_mem_read _ DSP_IROM_SIZE); [by intros s []|].
    unfold DSP_IROM_MASK, DSP_IROM_SIZE. mask_facts. lia.
  - by apply dsafe_ret.
Qed.
#[local] Hint Resolve safe_ReadIMEM : safe.

Lemma safe_PeekInstruction : dsafe (H:=H) PeekInstruction is_u16.
Proof. unfold PeekInstruction. safe_auto. Qed.
#[local] Hint Resolve safe_PeekInstruction : safe.

Lemma safe_FetchInstruction : dsafe (H:=H) FetchInstruction is_u16.
Proof. unfold FetchInstruction. safe_auto. Qed.

Lemma safe_SkipInstruction : dsafe (H:=H) SkipInstruction any.
Proof. unfold SkipInstruction. safe_auto. Qed.

Lemma safe_get_any {A} (f : SDSP H -> A) : dsafe (mget f) any.
Proof. by apply dsafe_get. Qed.
Lemma safe_set_flags f : dsafe (H:=H) (mmodify (fun s => set_m_code_flags (f s) s)) any.
Proof. apply dsafe_modify. wf_set. Qed.
Lemma safe_add_flag a f : dsafe (H:=H) (add_flag a f) any.
Proof. apply safe_set_flags. Qed.
#[local] Hint Resolve safe_add_flag safe_get_any : safe.

Lemma safe_IsLoopEnd a : dsafe (H:=H) (IsLoopEnd a) any.
Proof. apply safe_get_any. Qed.
Lemma safe_IsIdleSkip a : dsafe (H:=H) (IsIdleSkip a) any.
Proof. apply safe_get_any. Qed.

(** Every template has size 1 or 2. *)
Definition op_size_ok (t : DSPOPCTemplate) : bool := (op_size t =? 1) || (op_size t =? 2).

Lemma FindByOpcode_some {T} (get_op get_mask : T -> Z) opc data info :
  FindByOpcode get_op get_mask opc data = Some info ->
  In info data /\ matches opc (get_op info) (get_mask info) = true.
Proof.
  induction data as [|d data IH]; simpl; [done|].
  destruct (matches opc (get_op d) (get_mask d)) eqn:E; intros Hf.
  - injection Hf as <-. auto.
  - destruct (IH Hf). auto.
Qed.

Lemma op_size_range opc : op_size (GetOpTemplate opc) = 1 \/ op_size (GetOpTemplate opc) = 2.
Proof.
  assert (Hall : forallb op_size_ok (cw :: s_opcodes) = true) by (vm_compute; reflexivity).
  rewrite forallb_forall in Hall.
  assert (Hin : In (GetOpTemplate opc) (cw :: s_opcodes)).
  { unfold GetOpTemplate, FindOpInfoByOpcode.
    destruct (FindByOpcode _ _ _ _) eqn:E; simpl; [right|by left].
    by apply FindByOpcode_some in E as [? _]. }
  specialize (Hall _ Hin). unfold op_size_ok in Hall.
  apply orb_prop in Hall as [?|?]; [left|right]; by apply Z.eqb_eq.
Qed.

Lemma safe_AnalyzeInstruction a :
  dsafe (H:=H) (AnalyzeInstruction a) (fun n => n = 1 \/ n = 2).
Proof. unfold AnalyzeInstruction. safe_auto. apply op_size_range. Qed.

(** The scan terminates: every step advances, and the fuel counts addresses. *)
Lemma safe_FindInstructionStarts fuel a e :
  0 <= a -> e < 0xffff -> e - a <= Z.of_nat fuel ->
  dsafe (H:=H) (FindInstructionStarts fuel a e) any.
Proof.
  revert a. induction fuel as [|fuel IH]; intros a Ha He Hf; simpl.
  - destruct (Z.ltb_spec a e); simpl; [exfalso; lia|]. by apply dsafe_ret.
  - destruct (Z.ltb_spec a e); simpl; [|by apply dsafe_ret].
    eapply dsafe_bind; [apply safe_AnalyzeInstruction|]. intros n Hn.
    apply IH; [zlia|done|].
    zlia.
Qed.

Lemma safe_MatchIdleSig sig a b : dsafe (H:=H) (MatchIdleSig sig a b) any.
Proof. revert a b. induction sig as [|x sig IH]; intros a b; simpl; safe_auto; auto. Qed.
#[local] Hint Resolve safe_MatchIdleSig : safe.

Lemma safe_FindIdleSig sig n a : dsafe (H:=H) (FindIdleSig sig n a) any.
Proof. revert a. induction n as [|n IH]; intros a; simpl; safe_auto; auto. Qed.
#[local] Hint Resolve safe_FindIdleSig : safe.

Lemma safe_FindIdleSkips sigs a e : dsafe (H:=H) (FindIdleSkips sigs a e) any.
Proof. induction sigs as [|x sigs IH]; simpl; safe_auto; auto. Qed.
#[local] Hint Resolve safe_FindIdleSkips : safe.

Lemma safe_Analyzer_Reset : dsafe (H:=H) Analyzer_Reset any.
Proof. apply dsafe_modify. wf_set. Qed.

Lemma safe_AnalyzeRange a e : 0 <= a -> e < 0xffff -> dsafe (H:=H) (AnalyzeRange a e) any.
Proof.
  intros Ha He. unfold AnalyzeRange. eapply dsafe_bind; [|safe_auto].
  apply safe_FindInstructionStarts; lia.
Qed.

Lemma safe_Analyze : dsafe (H:=H) Analyze any.
Proof.
  unfold Analyze. eapply dsafe_bind; [apply safe_Analyzer_Reset|intros _ _].
  eapply dsafe_bind; [by apply safe_AnalyzeRange|intros _ _]. by apply safe_AnalyzeRange.
Qed.
#[local] Hint Resolve safe_Analyze : safe.

Lemma safe_DSPCore_Reset : dsafe (H:=H) DSPCore_Reset any.
Proof. unfold DSPCore_Reset. safe_auto. Qed.
End AnalyzerSafe.

#[export] Hint Resolve safe_ReadIMEM safe_PeekInstruction safe_FetchInstruction safe_SkipInstruction
  safe_add_flag safe_IsLoopEnd safe_IsIdleSkip safe_Analyze safe_DSPCore_Reset : safe.
