(* ===== verification/DSPHWInterface.v ===== *)
(** * DSP: hardware registers, mailboxes and DMA

    [DSPHWInterface.cpp] and the data-memory half of [DSPMemoryMap.cpp], with
    the accelerator subclass of [DSPCore.cpp] and the two functions of
    [HW/DSPLLE/DSPHost.cpp] that act on the core itself ([DMAToDSP],
    [CodeLoaded]). *)
From S2P Require Export DSPAccelerator DSPAnalyzer.

(** [Common::HashEctor] *)
Definition HashEctor (data : list Z) : Z :=
  fold_left (fun crc d => let crc := crc .^ d in u32 (u32 (crc .<< 3) .| (crc .>> 29))) data 0.

(** Copies of consecutive cells, [None] when they leave the memory. *)
Fixpoint mem_write_words (m : Mem) (i : Z) (ws : list Z) : option Mem :=
  match ws with
  | [] => Some m
  | w :: ws' => match mem_set m i w with Some m' => mem_write_words m' (i + 1) ws' | None => None end
  end.
Fixpoint mem_read_words (m : Mem) (i : Z) (n : nat) : option (list Z) :=
  match n with
  | O => Some []
  | S n' =>
      match mem_get m i, mem_read_words m (i + 1) n' with
      | Some w, Some ws => Some (w :: ws)
      | _, _ => None
      end
  end.

(** ** The words the mailbox accesses store and return *)

Definition high_half (word : Z) : Z := u16 (word .>> 16).
Definition with_high (old_value value : Z) : Z :=
  ((old_value .& 0xffff) .| (value .<< 16)) .& .~ 0x80000000.
Definition with_low (old_value value : Z) : Z := ((old_value .& .~ 0xffff) .| value) .| 0x80000000.
Definition emptied (value : Z) : Z := value .& .~ 0x80000000.

(** ** [LLEAccelerator]: the accelerator inside the core *)

#[export] Instance LLEAccelerator {H} `{DSPHost H} : AccelEnv (SDSP H) := {
  ReadMemory s address := ReadHostMemory (host s) address;
  WriteMemory s address value := set_host (WriteHostMemory (host s) value address) s;
  OnRawReadEndException := raise_exception AcceleratorRawReadOverflow;
  OnRawWriteEndException := raise_exception AcceleratorRawWriteOverflow;
  OnSampleReadEndException := raise_exception AcceleratorSampleReadOverflow
}.

Section HWInterface.
Context {H : Type} {HH : DSPHost H}.

(** ** Mailboxes *)

Definition get_mailbox (m : Mailbox) : M (SDSP H) Z := read_arr m_mailbox (mailbox_index m).
Definition put_mailbox (m : Mailbox) (v : Z) : M (SDSP H) unit :=
  write_arr m_mailbox set_m_mailbox (mailbox_index m) v.

Definition PeekMailbox (m : Mailbox) : M (SDSP H) Z := get_mailbox m.
Definition ReadMailboxLow (m : Mailbox) : M (SDSP H) Z :=
  value <- get_mailbox m ;; put_mailbox m (emptied value) ;;; mret (u16 value).
Definition ReadMailboxHigh (m : Mailbox) : M (SDSP H) Z :=
  value <- PeekMailbox m ;; mret (high_half value).
Definition WriteMailboxLow (m : Mailbox) (value : Z) : M (SDSP H) unit :=
  old_value <- get_mailbox m ;; put_mailbox m (with_low old_value value).
Definition WriteMailboxHigh (m : Mailbox) (value : Z) : M (SDSP H) unit :=
  old_value <- get_mailbox m ;; put_mailbox m (with_high old_value value).

Definition InitializeIFX : M (SDSP H) unit :=
  mmodify (set_m_ifx_regs (mkMem 256 0 ∅)) ;;;
  put_mailbox MailboxCPU 0 ;;; put_mailbox MailboxDSP 0.

(** ** Hardware registers *)

Definition get_ifx (i : Z) : M (SDSP H) Z := mem_read m_ifx_regs i.
Definition put_ifx (i v : Z) : M (SDSP H) unit :=
  m <- mget m_ifx_regs ;; m' <- mopt ArrayBounds (mem_set m i v) ;; mmodify (set_m_ifx_regs m').

(** The core's half of [Host::CodeLoaded]. *)
Definition CodeLoaded (addr size : Z) : M (SDSP H) unit :=
  h <- mget host ;;
  if negb (RangeValid h addr size) && (0 <? size) then mfail NullPointer else
  let bytes := if RangeValid h addr size then EmuBytes h addr size else [] in
  mmodify (set_m_iram_crc (HashEctor bytes)) ;;;
  Analyze.

(** [Host::DMAToDSP] into one of the on-chip memories. *)
Definition DMAToDSP (f : SDSP H -> Mem) (set : Mem -> SDSP H -> SDSP H) (index addr size : Z) :
    M (SDSP H) unit :=
  h <- mget host ;;
  if RangeValid h addr size then
    m <- mget f ;;
    m' <- mopt DmaBounds (mem_write_words m index (CopyFromEmuSwapped h addr size)) ;;
    mmodify (set m')
  else mret tt.
(** [Host::DMAFromDSP] *)
Definition DMAFromDSP (f : SDSP H -> Mem) (index addr size : Z) : M (SDSP H) unit :=
  h <- mget host ;;
  if RangeValid h addr size then
    m <- mget f ;;
    ws <- mopt DmaBounds (mem_read_words m index (Z.to_nat (size / 2))) ;;
    mmodify (set_host (CopyToEmuSwapped h addr ws))
  else mret tt.

Definition IDMAIn (dsp_addr addr size : Z) : M (SDSP H) unit :=
  DMAToDSP iram set_iram (dsp_addr / 2) addr size ;;; CodeLoaded addr size.
Definition IDMAOut (dsp_addr addr size : Z) : M (SDSP H) unit := mret tt.
Definition DDMAIn (dsp_addr addr size : Z) : M (SDSP H) unit :=
  DMAToDSP dram set_dram (dsp_addr / 2) addr size.
Definition DDMAOut (dsp_addr addr size : Z) : M (SDSP H) unit :=
  DMAFromDSP dram (dsp_addr / 2) addr size.

Definition DoDMA : M (SDSP H) unit :=
  mah <- get_ifx DSP_DSMAH ;;
  mal <- get_ifx DSP_DSMAL ;;
  let addr := (mah .<< 16) .| mal in
  ctl <- get_ifx DSP_DSCR ;;
  spa <- get_ifx DSP_DSPA ;;
  let dsp_addr := u16 (spa * 2) in
  len <- get_ifx DSP_DSBL ;;
  if 0x4000 <? len then mfail ProcessExit
  else if ctl .& 0x3 =? DSP_CR_DMEM .| DSP_CR_TO_CPU then DDMAOut dsp_addr addr len
  else if ctl .& 0x3 =? DSP_CR_DMEM .| DSP_CR_FROM_CPU then DDMAIn dsp_addr addr len
  else if ctl .& 0x3 =? DSP_CR_IMEM .| DSP_CR_TO_CPU then IDMAOut dsp_addr addr len
  else IDMAIn dsp_addr addr len.

Definition get_accel : M (SDSP H) Accelerator := mget m_accelerator.
Definition put_accel (f : Accelerator -> Accelerator) : M (SDSP H) unit :=
  mmodify (fun s => set_m_accelerator (f (m_accelerator s)) s).
(** A call of an accelerator operation that reads or writes memory or raises exceptions. *)
Definition run_accel {A} (f : Accelerator -> SDSP H -> A * Accelerator * SDSP H) : M (SDSP H) A :=
  fun s => let '(v, a, s') := f (m_accelerator s) s in Done v (set_m_accelerator a s').

(** [reinterpret_cast<s16*>(&m_ifx_regs[DSP_COEF_A1_0])] *)
Definition ifx_coefs (s : SDSP H) (i : Z) : Z :=
  s16 (default 0 (mem_get (m_ifx_regs s) (DSP_COEF_A1_0 + i))).

Definition WriteIFX (address value : Z) : M (SDSP H) unit :=
  let a := address .& 0xff in
  if a =? DSP_DIRQ then
    mwhen (negb (value .& 1 =? 0)) (mmodify (fun s => set_host (InterruptRequest (host s)) s))
  else if a =? DSP_DMBH then WriteMailboxHigh MailboxDSP value
  else if a =? DSP_DMBL then WriteMailboxLow MailboxDSP value
  else if a =? DSP_CMBH then WriteMailboxHigh MailboxCPU value
  else if a =? DSP_CMBL then WriteMailboxLow MailboxCPU value
  else if a =? DSP_DSBL then
    put_ifx DSP_DSBL value ;;;
    c <- get_ifx DSP_DSCR ;; put_ifx DSP_DSCR (c .| 4) ;;;
    amdm <- get_ifx DSP_AMDM ;;
    mwhen (amdm =? 0) DoDMA ;;;
    c <- get_ifx DSP_DSCR ;; put_ifx DSP_DSCR (c .& .~ 4) ;;;
    put_ifx DSP_DSBL 0
  else if (a =? DSP_DSPA) || (a =? DSP_DSMAH) || (a =? DSP_DSMAL) || (a =? DSP_DSCR) then
    put_ifx a value
  else if a =? DSP_ACSAH then
    put_accel (fun x => SetStartAddress ((value .<< 16) .| u16 (m_start_address x)) x)
  else if a =? DSP_ACSAL then
    put_accel (fun x => SetStartAddress ((u16 (m_start_address x .>> 16) .<< 16) .| value) x)
  else if a =? DSP_ACEAH then
    put_accel (fun x => SetEndAddress ((value .<< 16) .| u16 (m_end_address x)) x)
  else if a =? DSP_ACEAL then
    put_accel (fun x => SetEndAddress ((u16 (m_end_address x .>> 16) .<< 16) .| value) x)
  else if a =? DSP_ACCAH then
    put_accel (fun x => SetCurrentAddress ((value .<< 16) .| u16 (m_current_address x)) x)
  else if a =? DSP_ACCAL then
    put_accel (fun x => SetCurrentAddress ((u16 (m_current_address x .>> 16) .<< 16) .| value) x)
  else if a =? DSP_FORMAT then put_accel (SetSampleFormat value)
  else if a =? DSP_GAIN then put_accel (SetGain value)
  else if a =? DSP_YN1 then put_accel (SetYn1 value)
  else if a =? DSP_YN2 then put_accel (SetYn2 value)
  else if a =? DSP_PRED_SCALE then put_accel (SetPredScale value)
  else if a =? DSP_ACDRAW then
    run_accel (fun x s => let '(x', s') := WriteRaw value x s in (tt, x', s'))
  else if a =? DSP_ACIN then put_accel (SetInput value)
  else put_ifx a value.

Definition ReadIFX (address : Z) : M (SDSP H) Z :=
  let a := address .& 0xff in
  if a =? DSP_DMBH then ReadMailboxHigh MailboxDSP
  else if a =? DSP_DMBL then ReadMailboxLow MailboxDSP
  else if a =? DSP_CMBH then ReadMailboxHigh MailboxCPU
  else if a =? DSP_CMBL then ReadMailboxLow MailboxCPU
  else if a =? DSP_DSCR then get_ifx a
  else if a =? DSP_ACSAH then x <- get_accel ;; mret (u16 (m_start_address x .>> 16))
  else if a =? DSP_ACSAL then x <- get_accel ;; mret (u16 (m_start_address x))
  else if a =? DSP_ACEAH then x <- get_accel ;; mret (u16 (m_end_address x .>> 16))
  else if a =? DSP_ACEAL then x <- get_accel ;; mret (u16 (m_end_address x))
  else if a =? DSP_ACCAH then x <- get_accel ;; mret (u16 (m_current_address x .>> 16))
  else if a =? DSP_ACCAL then x <- get_accel ;; mret (u16 (m_current_address x))
  else if a =? DSP_FORMAT then x <- get_accel ;; mret (m_sample_format x)
  else if a =? DSP_GAIN then x <- get_accel ;; mret (u16 (m_gain x))
  else if a =? DSP_YN1 then x <- get_accel ;; mret (u16 (m_yn1 x))
  else if a =? DSP_YN2 then x <- get_accel ;; mret (u16 (m_yn2 x))
  else if a =? DSP_PRED_SCALE then x <- get_accel ;; mret (m_pred_scale x)
  else if a =? DSP_ACDSAMP then run_accel (fun x s => ReadSample (ifx_coefs s) x s)
  else if a =? DSP_ACDRAW then run_accel ReadRaw
  else if a =? DSP_ACIN then x <- get_accel ;; mret (m_input x)
  else get_ifx a.

(** ** Data memory (DSPMemoryMap.cpp) *)

Definition ReadDMEM (address : Z) : M (SDSP H) Z :=
  if address .>> 12 =? 0x0 then mem_read dram (address .& DSP_DRAM_MASK)
  else if address .>> 12 =? 0x1 then mem_read coef (address .& DSP_COEF_MASK)
  else if address .>> 12 =? 0xf then ReadIFX address
  else mret 0.

Definition put_dram (i v : Z) : M (SDSP H) unit :=
  m <- mget dram ;; m' <- mopt ArrayBounds (mem_set m i v) ;; mmodify (set_dram m').

Definition WriteDMEM (address value : Z) : M (SDSP H) unit :=
  if address .>> 12 =? 0x0 then put_dram (address .& DSP_DRAM_MASK) value
  else if address .>> 12 =? 0xf then WriteIFX address value
  else mret tt.

(** ** The state [SDSP::Initialize] leaves, for given ROM contents *)

Definition zero_regs : DSP_Regs :=
  mkRegs [0; 0; 0; 0] [0; 0; 0; 0] [0; 0; 0; 0] [0; 0; 0; 0] 0 0 (mkProd 0 0 0 0)
    [mkAx 0 0; mkAx 0 0] [mkAcc 0 0 0; mkAcc 0 0 0].

Definition initial_regs : DSP_Regs :=
  set_r_sr (SR_INT_ENABLE .| SR_EXT_INT_ENABLE) (set_r_wr [0xffff; 0xffff; 0xffff; 0xffff] zero_regs).

Definition Initialize (irom_contents coef_contents : gmap Z Z) (h : H) : SDSP H :=
  mkSDSP initial_regs 0 (CR_INIT .| CR_HALT) 0 [0; 0; 0; 0] 0 false
    (replicate 4 (replicate 32 0))
    (mkMem DSP_IRAM_SIZE 0x0021 ∅) (mkMem DSP_DRAM_SIZE 0 ∅)
    (mkMem DSP_IROM_SIZE 0 irom_contents) (mkMem DSP_COEF_SIZE 0 coef_contents)
    0 0 (mkMem 256 0 ∅) (mkAccelerator 0 0 0 0 0 0 0 0 0 false) [0; 0] ∅
    [0; 0; 0; 0; 0] [-1; -1; -1; -1; -1] h.
End HWInterface.

(** ** Safety *)

#[export] Instance LLEAccelerator_laws {H} {HH : DSPHost H} : AccelEnvLaws (SDSP H) wf.
Proof.
  split; simpl.
  - intros s a _. apply ReadHostMemory_u8.
  - intros s a v. wf_set.
  - intros s. apply wf_raise_exception.
  - intros s. apply wf_raise_exception.
  - intros s. apply wf_raise_exception.
Qed.

Lemma mem_write_words_wf n ws m i m' :
  wf_mem n m -> Forall is_u16 ws -> mem_write_words m i ws = Some m' -> wf_mem n m'.
Proof.
  revert m i. induction ws as [|w ws IH]; simpl; intros m i Hm Hws E.
  - by injection E as <-.
  - inversion Hws; subst. destruct (mem_set m i w) as [m1|] eqn:E1; [|done].
    eapply IH; [|done|done]. by eapply mem_set_wf_some.
Qed.

Section HWSafe.
Context {H : Type} {HH : DSPHost H}.

Lemma safe_get_mailbox m : dsafe (H:=H) (get_mailbox m) is_u32.
Proof. eapply dsafe_read_arr; [intros s Hs; apply Hs|destruct m; simpl; lia]. Qed.
Lemma safe_put_mailbox m v : is_u32 v -> dsafe (H:=H) (put_mailbox m v) any.
Proof. intros. eapply dsafe_write_arr; [intros s Hs; apply Hs|wf_set|destruct m; simpl; lia|done]. Qed.
#[local] Hint Resolve safe_get_mailbox safe_put_mailbox : safe.

Lemma is_u32_u16 v : is_u16 v -> is_u32 v.
Proof. unfold is_u16, is_u32. lia. Qed.
Lemma is_u32_shift16 v : is_u16 v -> is_u32 (v .<< 16).
Proof. intros. rewrite Z.shiftl_mul_pow2 by lia. change (2 ^ 16) with 65536. zlia. Qed.
Hint Resolve is_u32_u16 is_u32_shift16 : ints.

Lemma safe_ReadMailboxLow m : dsafe (H:=H) (ReadMailboxLow m) is_u16.
Proof. unfold ReadMailboxLow, emptied. safe_auto. Qed.
Lemma safe_ReadMailboxHigh m : dsafe (H:=H) (ReadMailboxHigh m) is_u16.
Proof. unfold ReadMailboxHigh, PeekMailbox, high_half. safe_auto. Qed.
Lemma safe_WriteMailboxLow m v : is_u16 v -> dsafe (H:=H) (WriteMailboxLow m v) any.
Proof.
  intros Hv. unfold WriteMailboxLow, with_low. eapply dsafe_bind; [safe_auto|intros old Hold].
  apply safe_put_mailbox. apply is_u32_lor; [auto with ints|unfold is_u32; lia].
Qed.
Lemma safe_WriteMailboxHigh m v : is_u16 v -> dsafe (H:=H) (WriteMailboxHigh m v) any.
Proof. intros Hv. unfold WriteMailboxHigh, with_high. safe_auto. Qed.

Lemma safe_get_ifx i : 0 <= i < 256 -> dsafe (H:=H) (get_ifx i) is_u16.
Proof. intros. eapply safe_mem_read; [intros s Hs; apply Hs|done]. Qed.

(** A bounds-checked store into one of the memories. *)
Lemma safe_mem_store (f : SDSP H -> Mem) (set : Mem -> SDSP H -> SDSP H) n i v :
  (forall s, wf s -> wf_mem n (f s)) -> (forall s m, wf s -> wf_mem n m -> wf (set m s)) ->
  0 <= i < n -> is_u16 v ->
  dsafe (m <- mget f ;; m' <- mopt ArrayBounds (mem_set m i v) ;; mmodify (set m')) any.
Proof.
  intros Hf Hset Hi Hv s Hs. unfold mbind, mget.
  destruct (mem_set_wf n (f s) i v (Hf s Hs) Hi Hv) as (m' & -> & Hm'). simpl.
  split; [by apply Hset|done].
Qed.

Lemma safe_put_ifx i v : 0 <= i < 256 -> is_u16 v -> dsafe (H:=H) (put_ifx i v) any.
Proof. intros. eapply safe_mem_store; [intros s Hs; apply Hs|wf_set|done|done]. Qed.
Lemma safe_put_dram i v : 0 <= i < DSP_DRAM_SIZE -> is_u16 v -> dsafe (H:=H) (put_dram i v) any.
Proof. intros. eapply safe_mem_store; [intros s Hs; apply Hs|wf_set|done|done]. Qed.
#[local] Hint Resolve safe_ReadMailboxLow safe_ReadMailboxHigh safe_WriteMailboxLow
  safe_WriteMailboxHigh safe_get_ifx safe_put_ifx safe_put_dram : safe.
(** The hardware registers' names are indices of [m_ifx_regs]. *)
#[local] Hint Extern 2 (0 <= _ < 256) => (split; [discriminate|reflexivity]) : safe.

Lemma safe_dma_fail {A} f (R : A -> Prop) : dma_fault f -> dsafe (H:=H) (mfail f) R.
Proof. apply safe_fail. Qed.

Lemma safe_set_crc v : dsafe (H:=H) (mmodify (set_m_iram_crc v)) any.
Proof. apply dsafe_modify. wf_set. Qed.
#[local] Hint Resolve safe_set_crc : safe.

Lemma safe_CodeLoaded addr size : dsafe (H:=H) (CodeLoaded addr size) any.
Proof.
  unfold CodeLoaded. eapply dsafe_bind; [by apply (dsafe_get host any)|intros h _].
  apply dsafe_if; intros _; [apply safe_dma_fail; unfold dma_fault; auto|]. safe_auto.
Qed.

Lemma safe_DMAToDSP f (set : Mem -> SDSP H -> SDSP H) n index addr size :
  (forall s, wf s -> wf_mem n (f s)) -> (forall s m, wf s -> wf_mem n m -> wf (set m s)) ->
  dsafe (H:=H) (DMAToDSP f set index addr size) any.
Proof.
  intros Hf Hset s Hs. unfold DMAToDSP, mbind, mget. destruct (RangeValid _ _ _); [|done].
  destruct (mem_write_words _ _ _) as [m'|] eqn:E; simpl; [|by left].
  split; [|done]. apply Hset; [done|].
  eapply mem_write_words_wf; [by apply Hf|apply CopyFromEmuSwapped_u16|done].
Qed.

Lemma safe_DMAFromDSP f index addr size : dsafe (H:=H) (DMAFromDSP f index addr size) any.
Proof.
  intros s Hs. unfold DMAFromDSP, mbind, mget. destruct (RangeValid _ _ _); [|done].
  destruct (mem_read_words _ _ _) as [ws|] eqn:E; simpl; [|by left].
  split; [|done]. revert Hs. wf_set.
Qed.

Lemma safe_IDMAIn a b c : dsafe (H:=H) (IDMAIn a b c) any.
Proof.
  unfold IDMAIn. eapply dsafe_bind; [|intros _ _; apply safe_CodeLoaded].
  eapply safe_DMAToDSP; [intros s Hs; apply Hs|wf_set].
Qed.
Lemma safe_IDMAOut a b c : dsafe (H:=H) (IDMAOut a b c) any.
Proof. by apply dsafe_ret. Qed.
Lemma safe_DDMAIn a b c : dsafe (H:=H) (DDMAIn a b c) any.
Proof. eapply safe_DMAToDSP; [intros s Hs; apply Hs|wf_set]. Qed.
Lemma safe_DDMAOut a b c : dsafe (H:=H) (DDMAOut a b c) any.
Proof. apply safe_DMAFromDSP. Qed.
#[local] Hint Resolve safe_IDMAIn safe_IDMAOut safe_DDMAIn safe_DDMAOut : safe.

Lemma safe_DoDMA : dsafe (H:=H) DoDMA any.
Proof.
  unfold DoDMA. do 5 (eapply dsafe_bind; [apply safe_get_ifx; done|intros]).
  apply dsafe_if; intros _; [apply safe_dma_fail; unfold dma_fault; auto|]. safe_auto.
Qed.

Lemma safe_put_accel f :
  (forall a, wf_accel a -> wf_accel (f a)) -> dsafe (H:=H) (put_accel f) any.
Proof. intros Hf. apply dsafe_modify. wf_set. Qed.

Lemma safe_get_accel : dsafe (H:=H) get_accel wf_accel.
Proof. apply dsafe_get. intros s Hs. apply Hs. Qed.

Lemma safe_run_accel {A} (f : Accelerator -> SDSP H -> A * Accelerator * SDSP H) (R : A -> Prop) :
  (forall a s v a' s', wf_accel a -> wf s -> f a s = (v, a', s') -> R v /\ wf_accel a' /\ wf s') ->
  dsafe (run_accel f) R.
Proof.
  intros Hf s Hs. unfold run_accel. destruct (f (m_accelerator s) s) as [[v a'] s'] eqn:E.
  destruct (Hf _ _ _ _ _ (wf_accelerator s Hs) Hs E) as (Hv & Ha & Hs').
  split; [|done]. clear E Hs Hf. revert Hs'. wf_set.
Qed.

Lemma safe_accel_write v :
  dsafe (H:=H) (run_accel (fun x s => let '(x', s') := WriteRaw v x s in (tt, x', s'))) any.
Proof.
  apply safe_run_accel. intros a s u a' s' Ha Hs. destruct (WriteRaw v a s) as [x' s1] eqn:E.
  intros [= <- <- <-]. split; [done|]. by eapply (WriteRaw_wf wf).
Qed.
Lemma safe_accel_sample : dsafe (H:=H) (run_accel (fun x s => ReadSample (ifx_coefs s) x s)) is_u16.
Proof. apply safe_run_accel. intros a s u a' s' Ha Hs E. by eapply (ReadSample_wf wf). Qed.
Lemma safe_accel_raw : dsafe (H:=H) (run_accel ReadRaw) is_u16.
Proof. apply safe_run_accel. intros a s u a' s' Ha Hs E. by eapply (ReadRaw_wf wf). Qed.

Lemma safe_interrupt :
  dsafe (H:=H) (mmodify (fun s => set_host (InterruptRequest (host s)) s)) any.
Proof. apply dsafe_modify. wf_set. Qed.
#[local] Hint Resolve safe_DoDMA safe_get_accel safe_accel_write safe_accel_sample safe_accel_raw
  safe_interrupt : safe.

Ltac accel_side :=
  apply safe_put_accel; intros;
  first [apply wf_SetStartAddress|apply wf_SetEndAddress|apply wf_SetCurrentAddress
        |apply wf_SetSampleFormat|apply wf_SetGain|apply wf_SetYn1|apply wf_SetYn2
        |apply wf_SetPredScale|apply wf_SetInput]; try done;
  apply is_u32_lor; auto with ints; apply is_u32_shift16; apply is_u16_u16.

Lemma safe_WriteIFX addr v : is_u16 v -> dsafe (H:=H) (WriteIFX addr v) any.
Proof.
  intros Hv. unfold WriteIFX. cbv zeta.
  repeat (apply dsafe_if; intros _); try accel_side; try safe_auto.
Qed.

Lemma safe_ReadIFX addr : dsafe (H:=H) (ReadIFX addr) is_u16.
Proof.
  unfold ReadIFX. cbv zeta. repeat (apply dsafe_if; intros _); safe_auto;
    match goal with W : wf_accel _ |- _ => destruct W end; unfold is_u8, is_u16 in *; lia.
Qed.
#[local] Hint Resolve safe_WriteIFX safe_ReadIFX : safe.

Lemma safe_ReadDMEM a : dsafe (H:=H) (ReadDMEM a) is_u16.
Proof.
  unfold ReadDMEM. apply dsafe_if; intros _; [|apply dsafe_if; intros _; [|safe_auto]].
  - eapply safe_mem_read; [intros s Hs; apply Hs|].
    pose proof (land_mask_range a DSP_DRAM_MASK ltac:(done)). const_unfold. lia.
  - eapply safe_mem_read; [intros s Hs; apply Hs|].
    pose proof (land_mask_range a DSP_COEF_MASK ltac:(done)). const_unfold. lia.
Qed.

Lemma safe_WriteDMEM a v : is_u16 v -> dsafe (H:=H) (WriteDMEM a v) any.
Proof.
  intros. unfold WriteDMEM. apply dsafe_if; intros _; [|safe_auto].
  apply safe_put_dram; [|done].
  pose proof (land_mask_range a DSP_DRAM_MASK ltac:(done)). const_unfold. lia.
Qed.
End HWSafe.

#[export] Hint Resolve safe_ReadMailboxLow safe_ReadMailboxHigh safe_WriteMailboxLow
  safe_WriteMailboxHigh safe_ReadDMEM safe_WriteDMEM safe_CodeLoaded safe_DoDMA : safe.
#[export] Hint Resolve is_u32_u16 is_u32_shift16 : ints.
