(* ===== verification/DSPInterpreter.v ===== *)
(** * DSP: the interpreter's register helpers

    [DSPInterpreter.cpp] without the run loops, with the inline helpers of
    [DSPIntCCUtil.h] and [DSPIntUtil.h]: condition codes, circular addressing,
    the 40-bit accumulators and the product register, multiplication, status
    flags, register reads and writes, the back log of the extended opcodes and
    the control register. *)
From S2P Require Export DSPHWInterface.

(** ** Inline helpers (DSPIntCCUtil.h, DSPIntUtil.h) *)

Definition isCarryAdd (val result : Z) : bool := u64 result <? u64 val.
Definition isCarrySubtract (val result : Z) : bool := u64 result <=? u64 val.
Definition isOverflow (val1 val2 res : Z) : bool := ((val1 .^ res) .& (val2 .^ res)) <? 0.
Definition isOverS32 (acc : Z) : bool := negb (acc =? s32 acc).

Definition dsp_convert_long_acc (val : Z) : Z := s64 (val .<< 24) .>> 24.
Definition dsp_round_long_acc (val : Z) : Z :=
  if negb (val .& 0x10000 =? 0) then (val + 0x8000) .& .~ 0xffff else (val + 0x7fff) .& .~ 0xffff.

(** The [val] member of the accumulator and product unions. *)
Definition acc_val (a : Acc) : Z := s64 ((acc_h a .<< 32) .| ((acc_m a .<< 16) .| acc_l a)).
Definition acc_of_val (v : Z) : Acc :=
  let v := u64 v in mkAcc (v .& 0xffff) ((v .>> 16) .& 0xffff) (v .>> 32).
Definition prod_of_val (v : Z) : Prod :=
  mkProd (v .& 0xffff) ((v .>> 16) .& 0xffff) ((v .>> 32) .& 0xffff) (v .>> 48).

(** ** Condition codes *)

Definition check_condition (sr condition : Z) : bool :=
  let IsSRFlagSet flag := negb (sr .& flag =? 0) in
  let IsCarry := IsSRFlagSet SR_CARRY in
  let IsOverflow := IsSRFlagSet SR_OVERFLOW in
  let IsOverS32 := IsSRFlagSet SR_OVER_S32 in
  let IsLess := xorb (IsSRFlagSet SR_OVERFLOW) (IsSRFlagSet SR_SIGN) in
  let IsZero := IsSRFlagSet SR_ARITH_ZERO in
  let IsLogicZero := IsSRFlagSet SR_LOGIC_ZERO in
  let IsConditionB :=
    negb (IsSRFlagSet SR_OVER_S32 || IsSRFlagSet SR_TOP2BITS) || IsSRFlagSet SR_ARITH_ZERO in
  match condition .& 0xf with
  | 0xf => true
  | 0x0 => negb IsLess
  | 0x1 => IsLess
  | 0x2 => negb IsLess && negb IsZero
  | 0x3 => IsLess || IsZero
  | 0x4 => negb IsZero
  | 0x5 => IsZero
  | 0x6 => negb IsCarry
  | 0x7 => IsCarry
  | 0x8 => negb IsOverS32
  | 0x9 => IsOverS32
  | 0xa => negb IsConditionB
  | 0xb => IsConditionB
  | 0xc => negb IsLogicZero
  | 0xd => IsLogicZero
  | 0xe => IsOverflow
  | _ => true
  end.

(** ** Circular addressing: the next value of an address register *)

Definition increment_ar (ar wr : Z) : Z :=
  let nar := u32 (ar + 1) in
  let nar := if (wr .| 1) .<< 1 <? nar .^ ar then u32 (nar - u32 (wr + 1)) else nar in
  u16 nar.

Definition decrement_ar (ar wr : Z) : Z :=
  let nar := u32 (ar + wr) in
  let nar := if wr <? (nar .^ ar) .& ((wr .| 1) .<< 1) then u32 (nar - u32 (wr + 1)) else nar in
  u16 nar.

Definition increase_ar (ar wr ix : Z) : Z :=
  let mx := (wr .| 1) .<< 1 in
  let nar := u32 (ar + u32 ix) in
  let dar := (nar .^ ar .^ u32 ix) .& mx in
  let nar :=
    if 0 <=? ix then
      if wr <? dar then u32 (nar - u32 (wr + 1)) else nar
    else if (u32 (nar + wr + 1) .^ nar) .& dar <=? wr then u32 (nar + u32 (wr + 1)) else nar in
  u16 nar.

Definition decrease_ar (ar wr ix : Z) : Z :=
  let mx := (wr .| 1) .<< 1 in
  let nar := u32 (ar - u32 ix) in
  let dar := (nar .^ ar .^ u32 (.~ ix)) .& mx in
  let nar :=
    if 0xFFFF8000 <? u32 ix then
      if wr <? dar then u32 (nar - u32 (wr + 1)) else nar
    else if (u32 (nar + wr + 1) .^ nar) .& dar <=? wr then u32 (nar + u32 (wr + 1)) else nar in
  u16 nar.

(** ** Multiplication *)

(** [GetMultiplyProduct] for given values of the two mode bits it reads. *)
Definition multiply_product (mul_unsigned mul_modify : bool) (a b sign : Z) : Z :=
  let prod :=
    if (sign =? 1) && mul_unsigned then u32 (a * b)
    else if (sign =? 2) && mul_unsigned then a * s16 b
    else s16 a * s16 b in
  if negb mul_modify then prod .<< 1 else prod.

Definition prod_long (p : Prod) : Z :=
  let val := s8 (u8 (prod_h p)) .<< 32 in
  let low_prod := ((prod_m p + prod_m2 p) .<< 16) .| prod_l p in
  val + low_prod.

(** ** Status flags after a 16-bit or a 64-bit result *)

Definition sr_when (b : bool) (flags sr : Z) : Z := if b then sr .| flags else sr.

Definition update_sr16 (value : Z) (carry overflow over_s32 : bool) (sr : Z) : Z :=
  let sr := sr .& .~ SR_CMP_MASK in
  let sr := sr_when carry SR_CARRY sr in
  let sr := sr_when overflow SR_OVERFLOW_STICKY (sr_when overflow SR_OVERFLOW sr) in
  let sr := sr_when (value =? 0) SR_ARITH_ZERO sr in
  let sr := sr_when (value <? 0) SR_SIGN sr in
  let sr := sr_when over_s32 SR_OVER_S32 sr in
  sr_when ((u16 value .>> 14 =? 0) || (u16 value .>> 14 =? 3)) SR_TOP2BITS sr.

Definition IsProperlySignExtended (val : Z) : bool :=
  let topbits := u64 val .& 0xffffff8000000000 in
  (topbits =? 0) || (0xffffff8000000000 =? topbits).

Definition update_sr64 (value : Z) (carry overflow : bool) (sr : Z) : Z :=
  let sr := sr .& .~ SR_CMP_MASK in
  let sr := sr_when carry SR_CARRY sr in
  let sr := sr_when overflow SR_OVERFLOW_STICKY (sr_when overflow SR_OVERFLOW sr) in
  let sr := sr_when (value =? 0) SR_ARITH_ZERO sr in
  let sr := sr_when (value <? 0) SR_SIGN sr in
  let sr := sr_when (isOverS32 value) SR_OVER_S32 sr in
  sr_when ((value .& 0xc0000000 =? 0) || (value .& 0xc0000000 =? 0xc0000000)) SR_TOP2BITS sr.

Section Interpreter.
Context {H : Type} {HH : DSPHost H}.

Definition CheckCondition (condition : Z) : M (SDSP H) bool :=
  sr <- get_sr ;; mret (check_condition sr condition).

Definition IncrementAddressRegister (reg : Z) : M (SDSP H) Z :=
  ar <- get_ar reg ;; wr <- get_wr reg ;; mret (increment_ar ar wr).
Definition DecrementAddressRegister (reg : Z) : M (SDSP H) Z :=
  ar <- get_ar reg ;; wr <- get_wr reg ;; mret (decrement_ar ar wr).
Definition IncreaseAddressRegister (reg ix : Z) : M (SDSP H) Z :=
  ar <- get_ar reg ;; wr <- get_wr reg ;; mret (increase_ar ar wr ix).
Definition DecreaseAddressRegister (reg ix : Z) : M (SDSP H) Z :=
  ar <- get_ar reg ;; wr <- get_wr reg ;; mret (decrease_ar ar wr ix).

(** ** Accumulators and the auxiliary accumulators *)

Definition GetLongACX (reg : Z) : M (SDSP H) Z :=
  a <- get_ax reg ;; mret (s32 ((ax_h a .<< 16) .| ax_l a)).
Definition GetAXLow (reg : Z) : M (SDSP H) Z := a <- get_ax reg ;; mret (s16 (ax_l a)).
Definition GetAXHigh (reg : Z) : M (SDSP H) Z := a <- get_ax reg ;; mret (s16 (ax_h a)).
Definition GetLongAcc (reg : Z) : M (SDSP H) Z := a <- get_ac reg ;; mret (acc_val a).
Definition SetLongAcc (reg value : Z) : M (SDSP H) unit :=
  put_ac reg (acc_of_val (s64 (value .<< (64 - 40)) .>> (64 - 40))).
Definition GetAccLow (reg : Z) : M (SDSP H) Z := a <- get_ac reg ;; mret (s16 (acc_l a)).
Definition GetAccMid (reg : Z) : M (SDSP H) Z := a <- get_ac reg ;; mret (s16 (acc_m a)).
Definition GetAccHigh (reg : Z) : M (SDSP H) Z := a <- get_ac reg ;; mret (s16 (acc_h a)).

(** ** The product register *)

Definition GetLongProduct : M (SDSP H) Z := p <- get_prod ;; mret (prod_long p).
Definition GetLongProductRounded : M (SDSP H) Z :=
  prod <- GetLongProduct ;;
  mret (if negb (prod .& 0x10000 =? 0) then (prod + 0x8000) .& .~ 0xffff
        else (prod + 0x7fff) .& .~ 0xffff).
Definition SetLongProduct (value : Z) : M (SDSP H) unit :=
  put_prod (prod_of_val (u64 (value .& 0x000000FFFFFFFFFF))).

Definition GetMultiplyProduct (a b sign : Z) : M (SDSP H) Z :=
  mul_unsigned <- IsSRFlagSet SR_MUL_UNSIGNED ;;
  mul_modify <- IsSRFlagSet SR_MUL_MODIFY ;;
  mret (multiply_product mul_unsigned mul_modify a b sign).
Definition Multiply (a b sign : Z) : M (SDSP H) Z := GetMultiplyProduct a b sign.
Definition MultiplyAdd (a b sign : Z) : M (SDSP H) Z :=
  p <- GetLongProduct ;; m <- GetMultiplyProduct a b sign ;; mret (p + m).
Definition MultiplySub (a b sign : Z) : M (SDSP H) Z :=
  p <- GetLongProduct ;; m <- GetMultiplyProduct a b sign ;; mret (p - m).
Definition MultiplyMulX (axh0 axh1 val1 val2 : Z) : M (SDSP H) Z :=
  if (axh0 =? 0) && (axh1 =? 0) then Multiply val1 val2 1
  else if (axh0 =? 0) && (axh1 =? 1) then Multiply val1 val2 2
  else if (axh0 =? 1) && (axh1 =? 0) then Multiply val2 val1 2
  else Multiply val1 val2 0.

(** ** Status register updates *)

Definition UpdateSR16 (value : Z) (carry overflow over_s32 : bool) : M (SDSP H) unit :=
  sr <- get_sr ;; put_sr (update_sr16 value carry overflow over_s32 sr).
Definition UpdateSR64 (value : Z) (carry overflow : bool) : M (SDSP H) unit :=
  sr <- get_sr ;; put_sr (update_sr64 value carry overflow sr).
Definition UpdateSR64Add (val1 val2 result : Z) : M (SDSP H) unit :=
  UpdateSR64 result (isCarryAdd val1 result) (isOverflow val1 val2 result).
Definition UpdateSR64Sub (val1 val2 result : Z) : M (SDSP H) unit :=
  UpdateSR64 result (isCarrySubtract val1 result) (isOverflow val1 (- val2) result).
Definition UpdateSRLogicZero (value : bool) : M (SDSP H) unit :=
  if value then SetSRFlag SR_LOGIC_ZERO else ClearSRFlag SR_LOGIC_ZERO.

(** ** Register reads and writes *)

Definition OpReadRegister (reg_ : Z) : M (SDSP H) Z :=
  let reg := reg_ .& 0x1f in
  if reg =? DSP_REG_ST0 then PopStack Call
  else if reg =? DSP_REG_ST1 then PopStack Data
  else if reg =? DSP_REG_ST2 then PopStack LoopAddress
  else if reg =? DSP_REG_ST3 then PopStack LoopCounter
  else if reg_in DSP_REG_AR0 DSP_REG_AR3 reg then get_ar (reg - DSP_REG_AR0)
  else if reg_in DSP_REG_IX0 DSP_REG_IX3 reg then get_ix (reg - DSP_REG_IX0)
  else if reg_in DSP_REG_WR0 DSP_REG_WR3 reg then get_wr (reg - DSP_REG_WR0)
  else if reg_in DSP_REG_ACH0 DSP_REG_ACH1 reg then
    a <- get_ac (reg - DSP_REG_ACH0) ;; mret (u16 (acc_h a))
  else if reg =? DSP_REG_CR then get_cr
  else if reg =? DSP_REG_SR then get_sr
  else if reg =? DSP_REG_PRODL then p <- get_prod ;; mret (prod_l p)
  else if reg =? DSP_REG_PRODM then p <- get_prod ;; mret (prod_m p)
  else if reg =? DSP_REG_PRODH then p <- get_prod ;; mret (prod_h p)
  else if reg =? DSP_REG_PRODM2 then p <- get_prod ;; mret (prod_m2 p)
  else if reg_in DSP_REG_AXL0 DSP_REG_AXL1 reg then
    a <- get_ax (reg - DSP_REG_AXL0) ;; mret (ax_l a)
  else if reg_in DSP_REG_AXH0 DSP_REG_AXH1 reg then
    a <- get_ax (reg - DSP_REG_AXH0) ;; mret (ax_h a)
  else if reg_in DSP_REG_ACL0 DSP_REG_ACL1 reg then
    a <- get_ac (reg - DSP_REG_ACL0) ;; mret (acc_l a)
  else if reg_in DSP_REG_ACM0 DSP_REG_ACM1 reg then
    b <- IsSRFlagSet SR_40_MODE_BIT ;;
    acc <- GetLongAcc (reg - DSP_REG_ACM0) ;;
    a <- get_ac (reg - DSP_REG_ACM0) ;;
    if b && negb (acc =? s32 acc) then mret (if 0 <? acc then 0x7fff else 0x8000)
    else mret (acc_m a)
  else mret 0.

Definition OpWriteRegister (reg_ val : Z) : M (SDSP H) unit :=
  let reg := reg_ .& 0x1f in
  if reg_in DSP_REG_ACH0 DSP_REG_ACH1 reg then put_ach (reg - DSP_REG_ACH0) (u32 (s8 val))
  else if reg =? DSP_REG_ST0 then StoreStack Call val
  else if reg =? DSP_REG_ST1 then StoreStack Data val
  else if reg =? DSP_REG_ST2 then StoreStack LoopAddress val
  else if reg =? DSP_REG_ST3 then StoreStack LoopCounter val
  else if reg_in DSP_REG_AR0 DSP_REG_AR3 reg then put_ar (reg - DSP_REG_AR0) val
  else if reg_in DSP_REG_IX0 DSP_REG_IX3 reg then put_ix (reg - DSP_REG_IX0) val
  else if reg_in DSP_REG_WR0 DSP_REG_WR3 reg then put_wr (reg - DSP_REG_WR0) val
  else if reg =? DSP_REG_CR then put_cr (val .& 0x00ff)
  else if reg =? DSP_REG_SR then put_sr (val .& .~ SR_100)
  else if reg =? DSP_REG_PRODL then p <- get_prod ;; put_prod (set_prod_l val p)
  else if reg =? DSP_REG_PRODM then p <- get_prod ;; put_prod (set_prod_m val p)
  else if reg =? DSP_REG_PRODH then p <- get_prod ;; put_prod (set_prod_h (val .& 0x00ff) p)
  else if reg =? DSP_REG_PRODM2 then p <- get_prod ;; put_prod (set_prod_m2 val p)
  else if reg_in DSP_REG_AXL0 DSP_REG_AXL1 reg then put_axl (reg - DSP_REG_AXL0) val
  else if reg_in DSP_REG_AXH0 DSP_REG_AXH1 reg then put_axh (reg - DSP_REG_AXH0) val
  else if reg_in DSP_REG_ACL0 DSP_REG_ACL1 reg then put_acl (reg - DSP_REG_ACL0) val
  else if reg_in DSP_REG_ACM0 DSP_REG_ACM1 reg then put_acm (reg - DSP_REG_ACM0) val
  else mret tt.

Definition ConditionalExtendAccum (reg : Z) : M (SDSP H) unit :=
  if negb (reg =? DSP_REG_ACM0) && negb (reg =? DSP_REG_ACM1) then mret tt else
  b <- IsSRFlagSet SR_40_MODE_BIT ;;
  if negb b then mret tt else
  a <- get_ac (reg - DSP_REG_ACM0) ;;
  put_ach (reg - DSP_REG_ACM0) (if negb (acc_m a .& 0x8000 =? 0) then 0xFFFFFFFF else 0x0000) ;;;
  put_acl (reg - DSP_REG_ACM0) 0.

(** ** The back log of the extended opcodes *)

Fixpoint ApplyWriteBackLog_loop (fuel : nat) (i : Z) : M (SDSP H) unit :=
  match fuel with
  | O => mfail OutOfFuel
  | S fuel' =>
      idx <- read_arr m_write_back_log_idx i ;;
      if idx =? -1 then mret tt else
      value <- read_arr m_write_back_log i ;;
      OpWriteRegister idx value ;;;
      write_arr m_write_back_log_idx set_m_write_back_log_idx i (-1) ;;;
      ApplyWriteBackLog_loop fuel' (i + 1)
  end.
(** The log has five entries, the last of them always -1. *)
Definition ApplyWriteBackLog : M (SDSP H) unit := ApplyWriteBackLog_loop 5 0.

Definition WriteToBackLog (i idx value : Z) : M (SDSP H) unit :=
  write_arr m_write_back_log set_m_write_back_log i value ;;;
  write_arr m_write_back_log_idx set_m_write_back_log_idx i idx.

(** Both are empty: PRECISE_BACKLOG is not defined. *)
Definition ZeroWriteBackLog : M (SDSP H) unit := mret tt.
Definition ZeroWriteBackLogPreserveAcc (acc : Z) : M (SDSP H) unit := mret tt.

Definition nop (opc : Z) : M (SDSP H) unit := mret tt.

(** ** The control register *)

Definition WriteControlRegister (val : Z) : M (SDSP H) unit :=
  val <- (if negb (val .& CR_RESET =? 0) then Reset ;;; mret (val .& .~ CR_RESET) else mret val) ;;
  c <- mget control_reg ;;
  val <- (if negb (c .& CR_INIT =? 0) && (val .& CR_INIT =? 0) then
            put_pc 0 ;;;
            DMAToDSP iram set_iram 0 0x81000000 0x1000 ;;;
            CodeLoaded 0x81000000 0x1000 ;;;
            h <- mget host ;;
            mmodify (set_control_reg_init_code_clear_time (u64 (GetFakeTimeBase h + 130))) ;;;
            mret ((val .& .~ CR_INIT) .| CR_INIT_CODE)
          else mret val) ;;
  mmodify (set_control_reg val).

Definition ReadControlRegister : M (SDSP H) Z :=
  c <- mget control_reg ;;
  (if negb (c .& CR_INIT_CODE =? 0) then
     h <- mget host ;; t <- mget control_reg_init_code_clear_time ;;
     if t <=? GetFakeTimeBase h then mmodify (set_control_reg (c .& .~ CR_INIT_CODE))
     else mmodify (fun s => set_host (ForceExceptionCheck (host s) 50) s)
   else mret tt) ;;;
  mget control_reg.
End Interpreter.

(** ** The 40-bit accumulators as numbers *)

(** Sign extension from 40 bits. *)
Definition sext40 (v : Z) : Z := (v + 0x8000000000) mod 0x10000000000 - 0x8000000000.

Lemma sext40_range v : is_s40 (sext40 v).
Proof. unfold sext40. zlia. Qed.
Lemma sext40_id v : is_s40 v -> sext40 v = v.
Proof. intros. unfold sext40. zlia. Qed.

(** The shift pair [(v << 24) >> 24] of the code is that sign extension. *)
Lemma shift_pair_sext40 v : s64 (v .<< 24) .>> 24 = sext40 v.
Proof.
  rewrite Z.shiftl_mul_pow2, Z.shiftr_div_pow2 by lia. change (2 ^ 24) with 0x1000000.
  unfold s64, sext40.
  replace (v * 0x1000000 + 0x8000000000000000) with ((v + 0x8000000000) * 0x1000000) by lia.
  replace 0x10000000000000000 with (0x10000000000 * 0x1000000) by lia.
  rewrite Z.mul_mod_distr_r by lia. zlia.
Qed.

Lemma dsp_convert_long_acc_sext v : dsp_convert_long_acc v = sext40 v.
Proof. unfold dsp_convert_long_acc. apply shift_pair_sext40. Qed.

Lemma acc_val_eq a :
  wf_acc a -> acc_val a = s32 (acc_h a) * 0x100000000 + acc_m a * 0x10000 + acc_l a.
Proof.
  intros (Hl & Hm & Hh). unfold acc_val.
  rewrite (lor_shiftl_add 16 (acc_m a) (acc_l a)) by (unfold_ints; lia).
  rewrite (lor_shiftl_add 32 (acc_h a)) by (unfold_ints; lia).
  change (2 ^ 16) with 0x10000. change (2 ^ 32) with 0x100000000. zlia.
Qed.

Lemma acc_val_range a : wf_acc a -> is_s40 (acc_val a).
Proof. intros Ha. rewrite acc_val_eq by done. destruct Ha as (? & ? & ?). zlia. Qed.

Lemma acc_of_val_eq v :
  acc_of_val v = mkAcc (v mod 0x10000) (v / 0x10000 mod 0x10000) (u32 (v / 0x100000000)).
Proof.
  unfold acc_of_val. rewrite !land_0xffff, !Z.shiftr_div_pow2 by lia.
  change (2 ^ 16) with 0x10000. change (2 ^ 32) with 0x100000000. f_equal; zlia.
Qed.

Lemma acc_of_val_wf v : is_s40 v -> wf_acc (acc_of_val v).
Proof. intros. rewrite acc_of_val_eq. unfold wf_acc; simpl. repeat split; try zlia. Qed.

Lemma acc_val_of_val v : is_s40 v -> acc_val (acc_of_val v) = v.
Proof.
  intros Hv. rewrite acc_val_eq by by apply acc_of_val_wf. rewrite acc_of_val_eq; simpl.
  zlia.
Qed.

Lemma acc_of_val_val a : wf_acc a -> acc_of_val (acc_val a) = a.
Proof.
  intros Ha. rewrite acc_of_val_eq, acc_val_eq by done. destruct a as [l m h], Ha as (? & ? & ?).
  simpl in *. f_equal; zlia.
Qed.

Lemma prod_long_eq p : wf_prod p ->
  prod_long p = s8 (prod_h p) * 0x100000000 + (prod_m p + prod_m2 p) * 0x10000 + prod_l p.
Proof.
  intros (Hl & Hm & Hh & Hm2). unfold prod_long.
  rewrite (lor_shiftl_add 16 _ (prod_l p)), (Z.shiftl_mul_pow2 _ 32) by (unfold_ints; lia).
  change (2 ^ 16) with 0x10000. change (2 ^ 32) with 0x100000000. zlia.
Qed.

Lemma prod_of_val_eq v : 0 <= v < 0x10000000000 ->
  prod_of_val v = mkProd (v mod 0x10000) (v / 0x10000 mod 0x10000) (v / 0x100000000) 0.
Proof.
  intros. unfold prod_of_val. rewrite !land_0xffff, !Z.shiftr_div_pow2 by lia.
  change (2 ^ 16) with 0x10000. change (2 ^ 32) with 0x100000000.
  change (2 ^ 48) with 0x1000000000000. f_equal; zlia.
Qed.

Definition set_product (value : Z) : Prod := prod_of_val (u64 (value .& 0x000000FFFFFFFFFF)).

Lemma set_product_eq v :
  set_product v = mkProd (v mod 0x10000) (v / 0x10000 mod 0x10000) (v / 0x100000000 mod 0x100) 0.
Proof.
  unfold set_product. rewrite (land_ones_mod 40) by (lia || done). change (2 ^ 40) with 0x10000000000.
  rewrite prod_of_val_eq by zlia. f_equal; zlia.
Qed.
Lemma set_product_wf v : wf_prod (set_product v).
Proof. rewrite set_product_eq. unfold wf_prod; simpl. repeat split; zlia. Qed.

(** A product written and read back is its 40-bit truncation. *)
Lemma prod_long_set v : prod_long (set_product v) = sext40 v.
Proof. rewrite prod_long_eq by apply set_product_wf. rewrite set_product_eq; simpl. unfold sext40. zlia. Qed.

(** ** Safety *)

Lemma increment_ar_u16 ar wr : is_u16 (increment_ar ar wr).
Proof. apply is_u16_u16. Qed.
Lemma decrement_ar_u16 ar wr : is_u16 (decrement_ar ar wr).
Proof. apply is_u16_u16. Qed.
Lemma increase_ar_u16 ar wr ix : is_u16 (increase_ar ar wr ix).
Proof. apply is_u16_u16. Qed.
Lemma decrease_ar_u16 ar wr ix : is_u16 (decrease_ar ar wr ix).
Proof. apply is_u16_u16. Qed.
Lemma sr_when_u16 b f sr : is_u16 sr -> is_u16 f -> is_u16 (sr_when b f sr).
Proof. destruct b; simpl; auto with ints. Qed.
#[export] Hint Resolve increment_ar_u16 decrement_ar_u16 increase_ar_u16 decrease_ar_u16
  sr_when_u16 set_product_wf : ints.

Lemma update_sr16_u16 v c o o32 sr : is_u16 sr -> is_u16 (update_sr16 v c o o32 sr).
Proof. intros. unfold update_sr16. repeat (apply sr_when_u16; [|done]). auto with ints. Qed.
Lemma update_sr64_u16 v c o sr : is_u16 sr -> is_u16 (update_sr64 v c o sr).
Proof. intros. unfold update_sr64. repeat (apply sr_when_u16; [|done]). auto with ints. Qed.
#[export] Hint Resolve update_sr16_u16 update_sr64_u16 : ints.

(** Sign-extended bytes, the values of the accumulators' high parts. *)
Lemma s8_h v : 0 <= u32 (s8 v) < 0x80 \/ 0xffffff80 <= u32 (s8 v) < 0x100000000.
Proof. zlia. Qed.

Lemma land_0x1f_range v : 0 <= v .& 0x1f < 0x20.
Proof. pose proof (land_mask_range v 0x1f). lia. Qed.

Section InterpreterSafe.
Context {H : Type} {HH : DSPHost H}.

Lemma safe_CheckCondition c : dsafe (H:=H) (CheckCondition c) any.
Proof. unfold CheckCondition. safe_auto. Qed.

Ltac address_register := intros; repeat (eapply dsafe_bind; [safe_call|intros]); by apply dsafe_ret, is_u16_u16.
Lemma safe_IncrementAddressRegister i : 0 <= i < 4 -> dsafe (H:=H) (IncrementAddressRegister i) is_u16.
Proof. unfold IncrementAddressRegister. address_register. Qed.
Lemma safe_DecrementAddressRegister i : 0 <= i < 4 -> dsafe (H:=H) (DecrementAddressRegister i) is_u16.
Proof. unfold DecrementAddressRegister. address_register. Qed.
Lemma safe_IncreaseAddressRegister i x :
  0 <= i < 4 -> dsafe (H:=H) (IncreaseAddressRegister i x) is_u16.
Proof. unfold IncreaseAddressRegister. address_register. Qed.
Lemma safe_DecreaseAddressRegister i x :
  0 <= i < 4 -> dsafe (H:=H) (DecreaseAddressRegister i x) is_u16.
Proof. unfold DecreaseAddressRegister. address_register. Qed.

Lemma safe_GetLongACX i : 0 <= i < 2 -> dsafe (H:=H) (GetLongACX i) any.
Proof. unfold GetLongACX. safe_auto. Qed.
Lemma safe_GetAXLow i : 0 <= i < 2 -> dsafe (H:=H) (GetAXLow i) any.
Proof. unfold GetAXLow. safe_auto. Qed.
Lemma safe_GetAXHigh i : 0 <= i < 2 -> dsafe (H:=H) (GetAXHigh i) any.
Proof. unfold GetAXHigh. safe_auto. Qed.
Lemma safe_GetLongAcc i : 0 <= i < 2 -> dsafe (H:=H) (GetLongAcc i) any.
Proof. unfold GetLongAcc. safe_auto. Qed.
Lemma safe_GetAccLow i : 0 <= i < 2 -> dsafe (H:=H) (GetAccLow i) any.
Proof. unfold GetAccLow. safe_auto. Qed.
Lemma safe_GetAccMid i : 0 <= i < 2 -> dsafe (H:=H) (GetAccMid i) any.
Proof. unfold GetAccMid. safe_auto. Qed.
Lemma safe_GetAccHigh i : 0 <= i < 2 -> dsafe (H:=H) (GetAccHigh i) any.
Proof. unfold GetAccHigh. safe_auto. Qed.

Lemma safe_SetLongAcc i v : 0 <= i < 2 -> dsafe (H:=H) (SetLongAcc i v) any.
Proof.
  intros. unfold SetLongAcc. change (64 - 40) with 24. rewrite shift_pair_sext40.
  apply safe_put_ac; [done|]. apply acc_of_val_wf, sext40_range.
Qed.

Lemma safe_GetLongProduct : dsafe (H:=H) GetLongProduct any.
Proof. unfold GetLongProduct. safe_auto. Qed.
#[local] Hint Resolve safe_GetLongProduct : safe.
Lemma safe_GetLongProductRounded : dsafe (H:=H) GetLongProductRounded any.
Proof. unfold GetLongProductRounded. safe_auto. Qed.
Lemma safe_SetLongProduct v : dsafe (H:=H) (SetLongProduct v) any.
Proof. unfold SetLongProduct. apply safe_put_prod, set_product_wf. Qed.
Lemma safe_GetMultiplyProduct a b s : dsafe (H:=H) (GetMultiplyProduct a b s) any.
Proof. unfold GetMultiplyProduct. safe_auto. Qed.
#[local] Hint Resolve safe_GetMultiplyProduct : safe.
Lemma safe_Multiply a b s : dsafe (H:=H) (Multiply a b s) any.
Proof. unfold Multiply. safe_auto. Qed.
Lemma safe_MultiplyAdd a b s : dsafe (H:=H) (MultiplyAdd a b s) any.
Proof. unfold MultiplyAdd. safe_auto. Qed.
Lemma safe_MultiplySub a b s : dsafe (H:=H) (MultiplySub a b s) any.
Proof. unfold MultiplySub. safe_auto. Qed.
#[local] Hint Resolve safe_Multiply : safe.
Lemma safe_MultiplyMulX x y a b : dsafe (H:=H) (MultiplyMulX x y a b) any.
Proof. unfold MultiplyMulX. safe_auto. Qed.

Lemma safe_ZeroWriteBackLog : dsafe (H:=H) ZeroWriteBackLog any.
Proof. by apply dsafe_ret. Qed.
Lemma safe_ZeroWriteBackLogPreserveAcc n : dsafe (H:=H) (ZeroWriteBackLogPreserveAcc n) any.
Proof. by apply dsafe_ret. Qed.
Lemma safe_nop opc : dsafe (H:=H) (nop opc) any.
Proof. by apply dsafe_ret. Qed.
Lemma safe_UpdateSR16 v c o o32 : dsafe (H:=H) (UpdateSR16 v c o o32) any.
Proof. unfold UpdateSR16. safe_auto. Qed.
Lemma safe_UpdateSR64 v c o : dsafe (H:=H) (UpdateSR64 v c o) any.
Proof. unfold UpdateSR64. safe_auto. Qed.
Lemma safe_UpdateSR64Add a b v : dsafe (H:=H) (UpdateSR64Add a b v) any.
Proof. apply safe_UpdateSR64. Qed.
Lemma safe_UpdateSR64Sub a b v : dsafe (H:=H) (UpdateSR64Sub a b v) any.
Proof. apply safe_UpdateSR64. Qed.
Lemma safe_UpdateSRLogicZero b : dsafe (H:=H) (UpdateSRLogicZero b) any.
Proof. unfold UpdateSRLogicZero. safe_auto. Qed.

Lemma safe_put_acl i v : 0 <= i < 2 -> is_u16 v -> dsafe (H:=H) (put_acl i v) any.
Proof. unfold put_acl. safe_auto. Qed.
Lemma safe_put_acm i v : 0 <= i < 2 -> is_u16 v -> dsafe (H:=H) (put_acm i v) any.
Proof. unfold put_acm. safe_auto. Qed.
Lemma safe_put_axl i v : 0 <= i < 2 -> is_u16 v -> dsafe (H:=H) (put_axl i v) any.
Proof. unfold put_axl. safe_auto. Qed.
Lemma safe_put_axh i v : 0 <= i < 2 -> is_u16 v -> dsafe (H:=H) (put_axh i v) any.
Proof. unfold put_axh. safe_auto. Qed.
Lemma safe_put_ach i v :
  0 <= i < 2 -> (0 <= v < 0x80 \/ 0xffffff80 <= v < 0x100000000) ->
  dsafe (H:=H) (put_ach i v) any.
Proof.
  intros Hi Hv. unfold put_ach. eapply dsafe_bind; [safe_call|intros a Ha].
  apply safe_put_ac; [done|]. by apply wf_set_acc_h.
Qed.
#[local] Hint Resolve safe_GetLongAcc safe_put_acl safe_put_acm safe_put_axl safe_put_axh : safe.

Lemma safe_OpReadRegister reg : dsafe (H:=H) (OpReadRegister reg) is_u16.
Proof.
  unfold OpReadRegister. cbv zeta. pose proof (land_0x1f_range reg) as Hr.
  set (n := reg .& 0x1f) in *. clearbody n. safe_auto; destruct (0 <? _); done.
Qed.

Lemma safe_OpWriteRegister reg v : is_u16 v -> dsafe (H:=H) (OpWriteRegister reg v) any.
Proof.
  intros Hv. unfold OpWriteRegister. cbv zeta. pose proof (land_0x1f_range reg) as Hr.
  set (n := reg .& 0x1f) in *. clearbody n.
  apply dsafe_if; intros ?; [apply safe_put_ach; [side|apply s8_h]|safe_auto].
Qed.

Lemma safe_ConditionalExtendAccum reg : dsafe (H:=H) (ConditionalExtendAccum reg) any.
Proof.
  unfold ConditionalExtendAccum. apply dsafe_if; intros E; [safe_auto|].
  assert (0 <= reg - DSP_REG_ACM0 < 2).
  { apply andb_false_iff in E. rewrite !negb_false_iff, !Z.eqb_eq in E. const_unfold. lia. }
  eapply dsafe_bind; [safe_call|intros b _]. apply dsafe_if; intros _; [safe_auto|].
  eapply dsafe_bind; [safe_call|intros a Ha].
  eapply dsafe_bind; [apply safe_put_ach; [done|]|intros _ _; apply safe_put_acl; done].
  clear E. destruct (negb _); lia.
Qed.
#[local] Hint Resolve safe_OpWriteRegister : safe.

(** The back log's last index is always the terminator. *)
Lemma safe_get_log_idx i :
  0 <= i < 5 ->
  dsafe (H:=H) (read_arr m_write_back_log_idx i) (fun n => wf_idx n /\ (i = 4 -> n = -1)).
Proof.
  intros Hi s Hs. unfold read_arr, mbind, mget.
  destruct (zget_arr _ _ _ i (wf_log_idx s Hs) Hi) as (n & En & Hn). rewrite En.
  split; [done|]. split; [done|]. intros ->. pose proof (wf_log_end s Hs) as E4.
  change (m_write_back_log_idx s !! 4%nat = Some n) in En. congruence.
Qed.

Lemma safe_put_log_idx i n :
  0 <= i < 5 -> wf_idx n -> (i = 4 -> n = -1) ->
  dsafe (H:=H) (write_arr m_write_back_log_idx set_m_write_back_log_idx i n) any.
Proof.
  intros Hi Hn H4 s Hs. unfold write_arr, mbind, mget.
  destruct (zset_arr _ _ _ i n (wf_log_idx s Hs) Hi Hn) as (l' & E & Hl'). rewrite E. simpl.
  split; [|done]. assert (l' !! 4%nat = Some (-1)) as H4'.
  { destruct (Z.eq_dec i 4) as [->|Hne].
    - apply zget_zset_eq in E. rewrite H4 in E by done. done.
    - apply (zget_zset_ne _ _ _ 4) in E; [|lia].
      change (l' !! 4%nat = m_write_back_log_idx s !! 4%nat) in E. rewrite E. apply Hs. }
  clear E H4. revert Hs. wf_set.
Qed.

Lemma safe_get_log i : 0 <= i < 5 -> dsafe (H:=H) (read_arr m_write_back_log i) is_u16.
Proof. intros. eapply dsafe_read_arr; [intros s Hs; apply Hs|lia]. Qed.
Lemma safe_put_log i v :
  0 <= i < 5 -> is_u16 v -> dsafe (H:=H) (write_arr m_write_back_log set_m_write_back_log i v) any.
Proof. intros. eapply dsafe_write_arr; [intros s Hs; apply Hs|wf_set|lia|done]. Qed.

Lemma safe_ApplyWriteBackLog_loop fuel i :
  0 <= i -> Z.of_nat fuel = 5 - i -> i < 5 -> dsafe (H:=H) (ApplyWriteBackLog_loop fuel i) any.
Proof.
  revert i. induction fuel as [|fuel IH]; intros i Hi Hf Hi5; [lia|]. cbn [ApplyWriteBackLog_loop].
  eapply dsafe_bind; [by apply safe_get_log_idx|intros n [Hn H4]].
  apply dsafe_if; intros E; [by apply dsafe_ret|]. apply Z.eqb_neq in E.
  eapply dsafe_bind; [by apply safe_get_log|intros v Hv].
  eapply dsafe_bind; [by apply safe_OpWriteRegister|intros _ _].
  eapply dsafe_bind; [by apply safe_put_log_idx|intros _ _].
  apply IH; [lia..|]. destruct (Z.eq_dec i 4); [|lia]. by destruct E; apply H4.
Qed.

Lemma safe_ApplyWriteBackLog : dsafe (H:=H) ApplyWriteBackLog any.
Proof. by apply safe_ApplyWriteBackLog_loop. Qed.

Lemma safe_WriteToBackLog i n v :
  0 <= i < 4 -> wf_idx n -> is_u16 v -> dsafe (H:=H) (WriteToBackLog i n v) any.
Proof.
  intros. eapply dsafe_bind; [apply safe_put_log; [lia|done]|intros _ _].
  apply safe_put_log_idx; [lia|done|lia].
Qed.

Lemma safe_put_clear_time v :
  dsafe (H:=H) (mmodify (set_control_reg_init_code_clear_time v)) any.
Proof. apply dsafe_modify. wf_set. Qed.
Lemma safe_get_host : dsafe (H:=H) (mget host) any.
Proof. by apply dsafe_get. Qed.
Lemma safe_put_host f : dsafe (H:=H) (mmodify (fun s => set_host (f s) s)) any.
Proof. apply dsafe_modify. wf_set. Qed.
Lemma safe_get_clear_time : dsafe (H:=H) (mget control_reg_init_code_clear_time) any.
Proof. by apply dsafe_get. Qed.
Lemma safe_boot_dma a n : dsafe (H:=H) (DMAToDSP iram set_iram 0 a n) any.
Proof. eapply safe_DMAToDSP; [intros s Hs; apply Hs|wf_set]. Qed.
#[local] Hint Resolve safe_put_clear_time safe_get_host safe_get_clear_time safe_boot_dma : safe.

Lemma safe_WriteControlRegister v : is_u16 v -> dsafe (H:=H) (WriteControlRegister v) any.
Proof.
  intros Hv. unfold WriteControlRegister.
  eapply dsafe_bind with (Q := is_u16); [|intros v1 Hv1]; [safe_auto|].
  eapply dsafe_bind; [safe_call|intros c Hc].
  eapply dsafe_bind with (Q := is_u16); [|intros v2 Hv2]; [safe_auto|safe_auto].
Qed.

Lemma safe_ReadControlRegister : dsafe (H:=H) ReadControlRegister is_u16.
Proof.
  unfold ReadControlRegister. eapply dsafe_bind; [safe_call|intros c Hc].
  eapply dsafe_bind with (Q := any); [|intros _ _; safe_call].
  apply dsafe_if; intros _; [|safe_auto].
  do 2 (eapply dsafe_bind; [safe_call|intros ? _]).
  apply dsafe_if; intros _; [safe_call|apply safe_put_host].
Qed.
End InterpreterSafe.

#[export] Hint Resolve safe_CheckCondition safe_IncrementAddressRegister
  safe_DecrementAddressRegister safe_IncreaseAddressRegister safe_DecreaseAddressRegister
  safe_GetLongACX safe_GetAXLow safe_GetAXHigh safe_GetLongAcc safe_GetAccLow safe_GetAccMid
  safe_GetAccHigh safe_SetLongAcc safe_GetLongProduct safe_GetLongProductRounded
  safe_SetLongProduct safe_GetMultiplyProduct safe_Multiply safe_MultiplyAdd safe_MultiplySub
  safe_MultiplyMulX safe_ZeroWriteBackLog safe_ZeroWriteBackLogPreserveAcc safe_nop
  safe_UpdateSR16 safe_UpdateSR64 safe_UpdateSR64Add safe_UpdateSR64Sub
  safe_UpdateSRLogicZero safe_put_acl safe_put_acm safe_put_axl safe_put_axh safe_OpReadRegister
  safe_OpWriteRegister safe_ConditionalExtendAccum safe_ApplyWriteBackLog safe_WriteToBackLog
  safe_WriteControlRegister safe_ReadControlRegister : safe.
