(* ===== verification/DSPIntArithmetic.v ===== *)
(** * DSP: the arithmetic and logic opcodes (DSPIntArithmetic.cpp) *)
From S2P Require Export DSPInterpreter.

Section Arithmetic.
Context {H : Type} {HH : DSPHost H}.
Implicit Types opc : Z.

(** ** Clear, test and compare *)

Definition clr opc : M (SDSP H) unit :=
  let reg := (opc .>> 11) .& 0x1 in
  SetLongAcc reg 0 ;;; UpdateSR64 0 false false ;;; ZeroWriteBackLog.

Definition clrl opc : M (SDSP H) unit :=
  let reg := (opc .>> 8) .& 0x1 in
  acc <- GetLongAcc reg ;;
  let acc := dsp_round_long_acc acc in
  ZeroWriteBackLog ;;;
  SetLongAcc reg acc ;;; UpdateSR64 acc false false.

Definition andcf opc : M (SDSP H) unit :=
  let reg := (opc .>> 8) .& 0x1 in
  imm <- FetchInstruction ;;
  m <- GetAccMid reg ;;
  let val := u16 m in
  UpdateSRLogicZero (val .& imm =? imm).

Definition andf opc : M (SDSP H) unit :=
  let reg := (opc .>> 8) .& 0x1 in
  imm <- FetchInstruction ;;
  m <- GetAccMid reg ;;
  let val := u16 m in
  UpdateSRLogicZero (val .& imm =? 0).

Definition tst opc : M (SDSP H) unit :=
  let reg := (opc .>> 11) .& 0x1 in
  acc <- GetLongAcc reg ;;
  UpdateSR64 acc false false ;;; ZeroWriteBackLog.

Definition tstaxh opc : M (SDSP H) unit :=
  let reg := (opc .>> 8) .& 0x1 in
  val <- GetAXHigh reg ;;
  UpdateSR16 val false false false ;;; ZeroWriteBackLog.

Definition cmp opc : M (SDSP H) unit :=
  acc0 <- GetLongAcc 0 ;;
  acc1 <- GetLongAcc 1 ;;
  let res := dsp_convert_long_acc (acc0 - acc1) in
  UpdateSR64Sub acc0 acc1 res ;;; ZeroWriteBackLog.

Definition cmpaxh opc : M (SDSP H) unit :=
  let rreg := (opc .>> 12) .& 0x1 in
  let sreg := (opc .>> 11) .& 0x1 in
  acc <- GetLongAcc sreg ;;
  ax <- GetAXHigh rreg ;;
  let ax := ax .<< 16 in
  let res := dsp_convert_long_acc (acc - ax) in
  UpdateSR64Sub acc ax res ;;; ZeroWriteBackLog.

Definition cmpi opc : M (SDSP H) unit :=
  let reg := (opc .>> 8) .& 0x1 in
  val <- GetLongAcc reg ;;
  imm <- FetchInstruction ;;
  let imm := s16 imm .<< 16 in
  let res := dsp_convert_long_acc (val - imm) in
  UpdateSR64Sub val imm res.

Definition cmpis opc : M (SDSP H) unit :=
  let areg := (opc .>> 8) .& 0x1 in
  acc <- GetLongAcc areg ;;
  let imm := s8 opc .<< 16 in
  let res := dsp_convert_long_acc (acc - imm) in
  UpdateSR64Sub acc imm res.

(** ** Logic on the middle parts *)

(** [state.r.ac[dreg].m = accm] and the flags of the logic opcodes. *)
Definition logic_result (dreg accm : Z) : M (SDSP H) unit :=
  put_acm dreg accm ;;;
  acc <- GetLongAcc dreg ;;
  UpdateSR16 (s16 accm) false false (isOverS32 acc).

Definition xorr opc : M (SDSP H) unit :=
  let dreg := (opc .>> 8) .& 0x1 in
  let sreg := (opc .>> 9) .& 0x1 in
  ac <- get_ac dreg ;; ax <- get_ax sreg ;;
  let accm := acc_m ac .^ ax_h ax in
  ZeroWriteBackLogPreserveAcc dreg ;;;
  logic_result dreg accm.

Definition andr opc : M (SDSP H) unit :=
  let dreg := (opc .>> 8) .& 0x1 in
  let sreg := (opc .>> 9) .& 0x1 in
  ac <- get_ac dreg ;; ax <- get_ax sreg ;;
  let accm := acc_m ac .& ax_h ax in
  ZeroWriteBackLogPreserveAcc dreg ;;;
  logic_result dreg accm.

Definition orr opc : M (SDSP H) unit :=
  let dreg := (opc .>> 8) .& 0x1 in
  let sreg := (opc .>> 9) .& 0x1 in
  ac <- get_ac dreg ;; ax <- get_ax sreg ;;
  let accm := acc_m ac .| ax_h ax in
  ZeroWriteBackLogPreserveAcc dreg ;;;
  logic_result dreg accm.

Definition andc opc : M (SDSP H) unit :=
  let dreg := (opc .>> 8) .& 0x1 in
  ac <- get_ac dreg ;; other <- get_ac (1 - dreg) ;;
  let accm := acc_m ac .& acc_m other in
  ZeroWriteBackLogPreserveAcc dreg ;;;
  logic_result dreg accm.

Definition orc opc : M (SDSP H) unit :=
  let dreg := (opc .>> 8) .& 0x1 in
  ac <- get_ac dreg ;; other <- get_ac (1 - dreg) ;;
  let accm := acc_m ac .| acc_m other in
  ZeroWriteBackLogPreserveAcc dreg ;;;
  logic_result dreg accm.

Definition xorc opc : M (SDSP H) unit :=
  let dreg := (opc .>> 8) .& 0x1 in
  ac <- get_ac dreg ;; other <- get_ac (1 - dreg) ;;
  let accm := acc_m ac .^ acc_m other in
  ZeroWriteBackLogPreserveAcc dreg ;;;
  logic_result dreg accm.

Definition notc opc : M (SDSP H) unit :=
  let dreg := (opc .>> 8) .& 0x1 in
  ac <- get_ac dreg ;;
  let accm := acc_m ac .^ 0xffff in
  ZeroWriteBackLogPreserveAcc dreg ;;;
  logic_result dreg accm.

Definition xori opc : M (SDSP H) unit :=
  let reg := (opc .>> 8) .& 0x1 in
  imm <- FetchInstruction ;;
  ac <- get_ac reg ;;
  logic_result reg (acc_m ac .^ imm).

Definition andi opc : M (SDSP H) unit :=
  let reg := (opc .>> 8) .& 0x1 in
  imm <- FetchInstruction ;;
  ac <- get_ac reg ;;
  logic_result reg (acc_m ac .& imm).

Definition ori opc : M (SDSP H) unit :=
  let reg := (opc .>> 8) .& 0x1 in
  imm <- FetchInstruction ;;
  ac <- get_ac reg ;;
  logic_result reg (acc_m ac .| imm).

(** ** Addition *)

(** The [switch (sreg)] over the parts of the secondary accumulators. *)
Definition ax_part (sreg : Z) : M (SDSP H) Z :=
  if reg_in DSP_REG_AXL0 DSP_REG_AXL1 sreg then
    a <- get_ax (sreg - DSP_REG_AXL0) ;; mret (s16 (ax_l a))
  else if reg_in DSP_REG_AXH0 DSP_REG_AXH1 sreg then
    a <- get_ax (sreg - DSP_REG_AXH0) ;; mret (s16 (ax_h a))
  else mret 0.

(** The common end of the additions: write [acc + val] to the accumulator and
    set the flags from what was written. *)
Definition add_result (dreg acc val : Z) : M (SDSP H) unit :=
  let res := acc + val in
  ZeroWriteBackLog ;;;
  SetLongAcc dreg res ;;;
  written <- GetLongAcc dreg ;;
  UpdateSR64Add acc val written.

Definition addr opc : M (SDSP H) unit :=
  let dreg := (opc .>> 8) .& 0x1 in
  let sreg := ((opc .>> 9) .& 0x3) + DSP_REG_AXL0 in
  acc <- GetLongAcc dreg ;;
  ax <- ax_part sreg ;;
  let ax := ax .<< 16 in
  add_result dreg acc ax.

Definition addax opc : M (SDSP H) unit :=
  let dreg := (opc .>> 8) .& 0x1 in
  let sreg := (opc .>> 9) .& 0x1 in
  acc <- GetLongAcc dreg ;;
  ax <- GetLongACX sreg ;;
  add_result dreg acc ax.

Definition add opc : M (SDSP H) unit :=
  let dreg := (opc .>> 8) .& 0x1 in
  acc0 <- GetLongAcc dreg ;;
  acc1 <- GetLongAcc (1 - dreg) ;;
  add_result dreg acc0 acc1.

Definition addp opc : M (SDSP H) unit :=
  let dreg := (opc .>> 8) .& 0x1 in
  acc <- GetLongAcc dreg ;;
  prod <- GetLongProduct ;;
  add_result dreg acc prod.

Definition addaxl opc : M (SDSP H) unit :=
  let sreg := (opc .>> 9) .& 0x1 in
  let dreg := (opc .>> 8) .& 0x1 in
  acc <- GetLongAcc dreg ;;
  let acc := u64 acc in
  acx <- GetAXLow sreg ;;
  let acx := u16 acx in
  let res := u64 (acc + acx) in
  ZeroWriteBackLog ;;;
  SetLongAcc dreg (s64 res) ;;;
  written <- GetLongAcc dreg ;;
  UpdateSR64Add (s64 acc) acx written.

Definition addi opc : M (SDSP H) unit :=
  let areg := (opc .>> 8) .& 0x1 in
  acc <- GetLongAcc areg ;;
  imm <- FetchInstruction ;;
  let imm := s16 imm .<< 16 in
  add_result areg acc imm.

Definition addis opc : M (SDSP H) unit :=
  let dreg := (opc .>> 8) .& 0x1 in
  acc <- GetLongAcc dreg ;;
  let imm := s8 opc .<< 16 in
  add_result dreg acc imm.

Definition incm opc : M (SDSP H) unit :=
  let dreg := (opc .>> 8) .& 0x1 in
  acc <- GetLongAcc dreg ;;
  add_result dreg acc 0x10000.

Definition inc opc : M (SDSP H) unit :=
  let dreg := (opc .>> 8) .& 0x1 in
  acc <- GetLongAcc dreg ;;
  add_result dreg acc 1.

(** ** Subtraction *)

(** The common end of the subtractions. *)
Definition sub_result (dreg acc val : Z) : M (SDSP H) unit :=
  let res := acc - val in
  ZeroWriteBackLog ;;;
  SetLongAcc dreg res ;;;
  written <- GetLongAcc dreg ;;
  UpdateSR64Sub acc val written.

Definition subr opc : M (SDSP H) unit :=
  let dreg := (opc .>> 8) .& 0x1 in
  let sreg := ((opc .>> 9) .& 0x3) + DSP_REG_AXL0 in
  acc <- GetLongAcc dreg ;;
  ax <- ax_part sreg ;;
  let ax := ax .<< 16 in
  sub_result dreg acc ax.

Definition subax opc : M (SDSP H) unit :=
  let dreg := (opc .>> 8) .& 0x1 in
  let sreg := (opc .>> 9) .& 0x1 in
  acc <- GetLongAcc dreg ;;
  acx <- GetLongACX sreg ;;
  sub_result dreg acc acx.

Definition sub opc : M (SDSP H) unit :=
  let dreg := (opc .>> 8) .& 0x1 in
  acc1 <- GetLongAcc dreg ;;
  acc2 <- GetLongAcc (1 - dreg) ;;
  sub_result dreg acc1 acc2.

Definition subp opc : M (SDSP H) unit :=
  let dreg := (opc .>> 8) .& 0x1 in
  acc <- GetLongAcc dreg ;;
  prod <- GetLongProduct ;;
  sub_result dreg acc prod.

Definition decm opc : M (SDSP H) unit :=
  let dreg := (opc .>> 8) .& 0x01 in
  acc <- GetLongAcc dreg ;;
  sub_result dreg acc 0x10000.

Definition dec opc : M (SDSP H) unit :=
  let dreg := (opc .>> 8) .& 0x01 in
  acc <- GetLongAcc dreg ;;
  sub_result dreg acc 1.

Definition neg opc : M (SDSP H) unit :=
  let dreg := (opc .>> 8) .& 0x1 in
  acc <- GetLongAcc dreg ;;
  sub_result dreg 0 acc.

(** Write an accumulator and set the flags from what was written. *)
Definition acc_result (dreg value : Z) : M (SDSP H) unit :=
  ZeroWriteBackLog ;;;
  SetLongAcc dreg value ;;;
  written <- GetLongAcc dreg ;;
  UpdateSR64 written false false.

Definition abs opc : M (SDSP H) unit :=
  let dreg := (opc .>> 11) .& 0x1 in
  acc <- GetLongAcc dreg ;;
  let acc := if acc <? 0 then 0 - acc else acc in
  acc_result dreg acc.

(** ** Moves *)

Definition movr opc : M (SDSP H) unit :=
  let areg := (opc .>> 8) .& 0x1 in
  let sreg := ((opc .>> 9) .& 0x3) + DSP_REG_AXL0 in
  ax <- ax_part sreg ;;
  let ax := ax .<< 16 in
  ZeroWriteBackLog ;;;
  SetLongAcc areg ax ;;; UpdateSR64 ax false false.

Definition movax opc : M (SDSP H) unit :=
  let dreg := (opc .>> 8) .& 0x1 in
  let sreg := (opc .>> 9) .& 0x1 in
  acx <- GetLongACX sreg ;;
  ZeroWriteBackLog ;;;
  SetLongAcc dreg acx ;;; UpdateSR64 acx false false.

Definition mov opc : M (SDSP H) unit :=
  let dreg := (opc .>> 8) .& 0x1 in
  acc <- GetLongAcc (1 - dreg) ;;
  let acc := u64 acc in
  ZeroWriteBackLog ;;;
  SetLongAcc dreg (s64 acc) ;;; UpdateSR64 (s64 acc) false false.

(** ** Shifts *)

Definition lsl16 opc : M (SDSP H) unit :=
  let areg := (opc .>> 8) .& 0x1 in
  acc <- GetLongAcc areg ;;
  acc_result areg (s64 (acc .<< 16)).

Definition lsr16 opc : M (SDSP H) unit :=
  let areg := (opc .>> 8) .& 0x1 in
  acc <- GetLongAcc areg ;;
  let acc := u64 acc .& 0x000000FFFFFFFFFF in
  acc_result areg (s64 (acc .>> 16)).

Definition asr16 opc : M (SDSP H) unit :=
  let areg := (opc .>> 11) .& 0x1 in
  acc <- GetLongAcc areg ;;
  acc_result areg (acc .>> 16).

Definition lsl opc : M (SDSP H) unit :=
  let rreg := (opc .>> 8) .& 0x01 in
  let shift := opc .& 0x3f in
  acc <- GetLongAcc rreg ;;
  acc_result rreg (s64 (u64 (u64 acc .<< shift))).

Definition lsr opc : M (SDSP H) unit :=
  let rreg := (opc .>> 8) .& 0x01 in
  acc <- GetLongAcc rreg ;;
  let acc := u64 acc .& 0x000000FFFFFFFFFF in
  let shift := if opc .& 0x3f =? 0 then 0 else 0x40 - (opc .& 0x3f) in
  acc_result rreg (s64 (acc .>> shift)).

Definition asl opc : M (SDSP H) unit :=
  let rreg := (opc .>> 8) .& 0x01 in
  let shift := opc .& 0x3f in
  acc <- GetLongAcc rreg ;;
  acc_result rreg (s64 (u64 (u64 acc .<< shift))).

Definition asr opc : M (SDSP H) unit :=
  let dreg := (opc .>> 8) .& 0x01 in
  let shift := if opc .& 0x3f =? 0 then 0 else 0x40 - (opc .& 0x3f) in
  acc <- GetLongAcc dreg ;;
  acc_result dreg (acc .>> shift).

(** The shift amount of the register-controlled shifts: 7 bits, signed. *)
Definition reg_shift (amount : Z) : Z :=
  if amount .& 0x3f =? 0 then 0
  else if negb (amount .& 0x40 =? 0) then -0x40 + (amount .& 0x3f)
  else amount .& 0x3f.

(** The three-way [if (shift > 0) ... else if (shift < 0) ...], logical on a
    [u64] and arithmetic on an [s64]. *)
Definition lshift_left (acc shift : Z) : Z :=
  if 0 <? shift then u64 (acc .<< shift) else if shift <? 0 then acc .>> (- shift) else acc.
Definition lshift_right (acc shift : Z) : Z :=
  if 0 <? shift then acc .>> shift else if shift <? 0 then u64 (acc .<< (- shift)) else acc.
Definition ashift_left (acc shift : Z) : Z :=
  if 0 <? shift then s64 (acc .<< shift) else if shift <? 0 then acc .>> (- shift) else acc.
Definition ashift_right (acc shift : Z) : Z :=
  if 0 <? shift then acc .>> shift else if shift <? 0 then s64 (acc .<< (- shift)) else acc.

Definition lsrn opc : M (SDSP H) unit :=
  m <- GetAccMid 1 ;;
  let accm := u16 m in
  acc <- GetLongAcc 0 ;;
  let acc := u64 acc .& 0x000000FFFFFFFFFF in
  acc_result 0 (s64 (lshift_right acc (reg_shift accm))).

Definition asrn opc : M (SDSP H) unit :=
  m <- GetAccMid 1 ;;
  let accm := u16 m in
  acc <- GetLongAcc 0 ;;
  acc_result 0 (ashift_right acc (reg_shift accm)).

Definition lsrnrx opc : M (SDSP H) unit :=
  let dreg := (opc .>> 8) .& 0x1 in
  let sreg := (opc .>> 9) .& 0x1 in
  ax <- get_ax sreg ;;
  acc <- GetLongAcc dreg ;;
  let acc := u64 acc .& 0x000000FFFFFFFFFF in
  acc_result dreg (s64 (lshift_left acc (reg_shift (ax_h ax)))).

Definition asrnrx opc : M (SDSP H) unit :=
  let dreg := (opc .>> 8) .& 0x1 in
  let sreg := (opc .>> 9) .& 0x1 in
  ax <- get_ax sreg ;;
  acc <- GetLongAcc dreg ;;
  acc_result dreg (ashift_left acc (reg_shift (ax_h ax))).

Definition lsrnr opc : M (SDSP H) unit :=
  let dreg := (opc .>> 8) .& 0x1 in
  m <- GetAccMid (1 - dreg) ;;
  let accm := u16 m in
  acc <- GetLongAcc dreg ;;
  let acc := u64 acc .& 0x000000FFFFFFFFFF in
  acc_result dreg (s64 (lshift_left acc (reg_shift accm))).

Definition asrnr opc : M (SDSP H) unit :=
  let dreg := (opc .>> 8) .& 0x1 in
  m <- GetAccMid (1 - dreg) ;;
  let accm := u16 m in
  acc <- GetLongAcc dreg ;;
  acc_result dreg (ashift_left acc (reg_shift accm)).
End Arithmetic.

(** ** Safety *)

Section ArithmeticSafe.
Context {H : Type} {HH : DSPHost H}.

Lemma safe_logic_result d m : 0 <= d < 2 -> is_u16 m -> dsafe (H:=H) (logic_result d m) any.
Proof. unfold logic_result. safe_auto. Qed.
Lemma safe_ax_part n : 0x18 <= n < 0x1c -> dsafe (H:=H) (ax_part n) any.
Proof. unfold ax_part. safe_auto. Qed.
Lemma safe_add_result d a v : 0 <= d < 2 -> dsafe (H:=H) (add_result d a v) any.
Proof. unfold add_result. safe_auto. Qed.
Lemma safe_sub_result d a v : 0 <= d < 2 -> dsafe (H:=H) (sub_result d a v) any.
Proof. unfold sub_result. safe_auto. Qed.
Lemma safe_acc_result d v : 0 <= d < 2 -> dsafe (H:=H) (acc_result d v) any.
Proof. unfold acc_result. safe_auto. Qed.
Lemma axl_index opc n : 0x18 <= (opc .>> n) .& 0x3 + DSP_REG_AXL0 < 0x1c.
Proof. const_unfold. pose proof (land_mask_range (opc .>> n) 0x3). lia. Qed.
#[local] Hint Resolve safe_logic_result safe_ax_part safe_add_result safe_sub_result
  safe_acc_result axl_index : safe.


Lemma safe_clr opc : dsafe (H:=H) (clr opc) any.
Proof. unfold clr. safe_auto. Qed.
Lemma safe_clrl opc : dsafe (H:=H) (clrl opc) any.
Proof. unfold clrl. safe_auto. Qed.
Lemma safe_andcf opc : dsafe (H:=H) (andcf opc) any.
Proof. unfold andcf. safe_auto. Qed.
Lemma safe_andf opc : dsafe (H:=H) (andf opc) any.
Proof. unfold andf. safe_auto. Qed.
Lemma safe_tst opc : dsafe (H:=H) (tst opc) any.
Proof. unfold tst. safe_auto. Qed.
Lemma safe_tstaxh opc : dsafe (H:=H) (tstaxh opc) any.
Proof. unfold tstaxh. safe_auto. Qed.
Lemma safe_cmp opc : dsafe (H:=H) (cmp opc) any.
Proof. unfold cmp. safe_auto. Qed.
Lemma safe_cmpaxh opc : dsafe (H:=H) (cmpaxh opc) any.
Proof. unfold cmpaxh. safe_auto. Qed.
Lemma safe_cmpi opc : dsafe (H:=H) (cmpi opc) any.
Proof. unfold cmpi. safe_auto. Qed.
Lemma safe_cmpis opc : dsafe (H:=H) (cmpis opc) any.
Proof. unfold cmpis. safe_auto. Qed.
Lemma safe_xorr opc : dsafe (H:=H) (xorr opc) any.
Proof. unfold xorr. safe_auto. Qed.
Lemma safe_andr opc : dsafe (H:=H) (andr opc) any.
Proof. unfold andr. safe_auto. Qed.
Lemma safe_orr opc : dsafe (H:=H) (orr opc) any.
Proof. unfold orr. safe_auto. Qed.
Lemma safe_andc opc : dsafe (H:=H) (andc opc) any.
Proof. unfold andc. safe_auto. Qed.
Lemma safe_orc opc : dsafe (H:=H) (orc opc) any.
Proof. unfold orc. safe_auto. Qed.
Lemma safe_xorc opc : dsafe (H:=H) (xorc opc) any.
Proof. unfold xorc. safe_auto. Qed.
Lemma safe_notc opc : dsafe (H:=H) (notc opc) any.
Proof. unfold notc. safe_auto. Qed.
Lemma safe_xori opc : dsafe (H:=H) (xori opc) any.
Proof. unfold xori. safe_auto. Qed.
Lemma safe_andi opc : dsafe (H:=H) (andi opc) any.
Proof. unfold andi. safe_auto. Qed.
Lemma safe_ori opc : dsafe (H:=H) (ori opc) any.
Proof. unfold ori. safe_auto. Qed.
Lemma safe_addr opc : dsafe (H:=H) (addr opc) any.
Proof. unfold addr. safe_auto. Qed.
Lemma safe_addax opc : dsafe (H:=H) (addax opc) any.
Proof. unfold addax. safe_auto. Qed.
Lemma safe_add opc : dsafe (H:=H) (add opc) any.
Proof. unfold add. safe_auto. Qed.
Lemma safe_addp opc : dsafe (H:=H) (addp opc) any.
Proof. unfold addp. safe_auto. Qed.
Lemma safe_addaxl opc : dsafe (H:=H) (addaxl opc) any.
Proof. unfold addaxl. safe_auto. Qed.
Lemma safe_addi opc : dsafe (H:=H) (addi opc) any.
Proof. unfold addi. safe_auto. Qed.
Lemma safe_addis opc : dsafe (H:=H) (addis opc) any.
Proof. unfold addis. safe_auto. Qed.
Lemma safe_incm opc : dsafe (H:=H) (incm opc) any.
Proof. unfold incm. safe_auto. Qed.
Lemma safe_inc opc : dsafe (H:=H) (inc opc) any.
Proof. unfold inc. safe_auto. Qed.
Lemma safe_subr opc : dsafe (H:=H) (subr opc) any.
Proof. unfold subr. safe_auto. Qed.
Lemma safe_subax opc : dsafe (H:=H) (subax opc) any.
Proof. unfold subax. safe_auto. Qed.
Lemma safe_sub opc : dsafe (H:=H) (sub opc) any.
Proof. unfold sub. safe_auto. Qed.
Lemma safe_subp opc : dsafe (H:=H) (subp opc) any.
Proof. unfold subp. safe_auto. Qed.
Lemma safe_decm opc : dsafe (H:=H) (decm opc) any.
Proof. unfold decm. safe_auto. Qed.
Lemma safe_dec opc : dsafe (H:=H) (dec opc) any.
Proof. unfold dec. safe_auto. Qed.
Lemma safe_neg opc : dsafe (H:=H) (neg opc) any.
Proof. unfold neg. safe_auto. Qed.
Lemma safe_abs opc : dsafe (H:=H) (abs opc) any.
Proof. unfold abs. safe_auto. Qed.
Lemma safe_movr opc : dsafe (H:=H) (movr opc) any.
Proof. unfold movr. safe_auto. Qed.
Lemma safe_movax opc : dsafe (H:=H) (movax opc) any.
Proof. unfold movax. safe_auto. Qed.
Lemma safe_mov opc : dsafe (H:=H) (mov opc) any.
Proof. unfold mov. safe_auto. Qed.
Lemma safe_lsl16 opc : dsafe (H:=H) (lsl16 opc) any.
Proof. unfold lsl16. safe_auto. Qed.
Lemma safe_lsr16 opc : dsafe (H:=H) (lsr16 opc) any.
Proof. unfold lsr16. safe_auto. Qed.
Lemma safe_asr16 opc : dsafe (H:=H) (asr16 opc) any.
Proof. unfold asr16. safe_auto. Qed.
Lemma safe_lsl opc : dsafe (H:=H) (lsl opc) any.
Proof. unfold lsl. safe_auto. Qed.
Lemma safe_lsr opc : dsafe (H:=H) (lsr opc) any.
Proof. unfold lsr. safe_auto. Qed.
Lemma safe_asl opc : dsafe (H:=H) (asl opc) any.
Proof. unfold asl. safe_auto. Qed.
Lemma safe_asr opc : dsafe (H:=H) (asr opc) any.
Proof. unfold asr. safe_auto. Qed.
Lemma safe_lsrn opc : dsafe (H:=H) (lsrn opc) any.
Proof. unfold lsrn. safe_auto. Qed.
Lemma safe_asrn opc : dsafe (H:=H) (asrn opc) any.
Proof. unfold asrn. safe_auto. Qed.
Lemma safe_lsrnrx opc : dsafe (H:=H) (lsrnrx opc) any.
Proof. unfold lsrnrx. safe_auto. Qed.
Lemma safe_asrnrx opc : dsafe (H:=H) (asrnrx opc) any.
Proof. unfold asrnrx. safe_auto. Qed.
Lemma safe_lsrnr opc : dsafe (H:=H) (lsrnr opc) any.
Proof. unfold lsrnr. safe_auto. Qed.
Lemma safe_asrnr opc : dsafe (H:=H) (asrnr opc) any.
Proof. unfold asrnr. safe_auto. Qed.
End ArithmeticSafe.

(** Global: the opcode modules are not imported by the files that use them. *)
#[global] Hint Resolve safe_clr safe_clrl safe_andcf safe_andf safe_tst safe_tstaxh safe_cmp
  safe_cmpaxh safe_cmpi safe_cmpis safe_xorr safe_andr safe_orr safe_andc safe_orc safe_xorc
  safe_notc safe_xori safe_andi safe_ori safe_addr safe_addax safe_add safe_addp safe_addaxl
  safe_addi safe_addis safe_incm safe_inc safe_subr safe_subax safe_sub safe_subp safe_decm
  safe_dec safe_neg safe_abs safe_movr safe_movax safe_mov safe_lsl16 safe_lsr16 safe_asr16
  safe_lsl safe_lsr safe_asl safe_asr safe_lsrn safe_asrn safe_lsrnrx safe_asrnrx safe_lsrnr
  safe_asrnr : safe.
