(* ===== verification/DSPIntMultiplier.v ===== *)
(** * DSP: the multiplier opcodes (DSPIntMultiplier.cpp) *)
From S2P Require Export DSPInterpreter.

Section Multiplier.
Context {H : Type} {HH : DSPHost H}.
Implicit Types opc : Z.

Definition clrp opc : M (SDSP H) unit :=
  ZeroWriteBackLog ;;;
  put_prod (mkProd 0x0000 0xfff0 0x00ff 0x0010).

Definition tstprod opc : M (SDSP H) unit :=
  prod <- GetLongProduct ;;
  UpdateSR64 prod false false ;;; ZeroWriteBackLog.

Definition movp opc : M (SDSP H) unit :=
  let dreg := (opc .>> 8) .& 0x1 in
  acc <- GetLongProduct ;;
  ZeroWriteBackLog ;;;
  SetLongAcc dreg acc ;;; UpdateSR64 acc false false.

Definition movnp opc : M (SDSP H) unit :=
  let dreg := (opc .>> 8) .& 0x1 in
  prod <- GetLongProduct ;;
  let acc := - prod in
  ZeroWriteBackLog ;;;
  SetLongAcc dreg acc ;;; UpdateSR64 acc false false.

Definition movpz opc : M (SDSP H) unit :=
  let dreg := (opc .>> 8) .& 0x01 in
  acc <- GetLongProductRounded ;;
  ZeroWriteBackLog ;;;
  SetLongAcc dreg acc ;;; UpdateSR64 acc false false.

Definition addpaxz opc : M (SDSP H) unit :=
  let dreg := (opc .>> 8) .& 0x1 in
  let sreg := (opc .>> 9) .& 0x1 in
  oldprod <- GetLongProduct ;;
  prod <- GetLongProductRounded ;;
  ax <- GetLongACX sreg ;;
  let res := prod + (ax .& .~ 0xffff) in
  ZeroWriteBackLog ;;;
  SetLongAcc dreg res ;;;
  res <- GetLongAcc dreg ;;
  UpdateSR64 res (isCarryAdd oldprod res) false.

(** [const u16 axl = GetAXLow(sreg)] and the like. *)
Definition ax_low_u16 (sreg : Z) : M (SDSP H) Z := v <- GetAXLow sreg ;; mret (u16 v).
Definition ax_high_u16 (sreg : Z) : M (SDSP H) Z := v <- GetAXHigh sreg ;; mret (u16 v).
Definition acc_mid_u16 (sreg : Z) : M (SDSP H) Z := v <- GetAccMid sreg ;; mret (u16 v).
(** [(part == 0) ? GetAXLow(reg) : GetAXHigh(reg)] *)
Definition mulx_operand (part reg : Z) : M (SDSP H) Z :=
  if part =? 0 then ax_low_u16 reg else ax_high_u16 reg.

Definition mulaxh opc : M (SDSP H) unit :=
  value <- ax_high_u16 0 ;;
  prod <- Multiply value value 0 ;;
  ZeroWriteBackLog ;;; SetLongProduct prod.

Definition mul opc : M (SDSP H) unit :=
  let sreg := (opc .>> 11) .& 0x1 in
  axl <- ax_low_u16 sreg ;; axh <- ax_high_u16 sreg ;;
  prod <- Multiply axh axl 0 ;;
  ZeroWriteBackLog ;;; SetLongProduct prod.

(** The common end of the multiplications that also write an accumulator. *)
Definition mul_result (rreg prod acc : Z) : M (SDSP H) unit :=
  ZeroWriteBackLog ;;;
  SetLongProduct prod ;;;
  SetLongAcc rreg acc ;;;
  written <- GetLongAcc rreg ;;
  UpdateSR64 written false false.

Definition mulac opc : M (SDSP H) unit :=
  let rreg := (opc .>> 8) .& 0x1 in
  let sreg := (opc .>> 11) .& 0x1 in
  a <- GetLongAcc rreg ;; p <- GetLongProduct ;;
  let acc := a + p in
  axl <- ax_low_u16 sreg ;; axh <- ax_high_u16 sreg ;;
  prod <- Multiply axl axh 0 ;;
  mul_result rreg prod acc.

Definition mulmv opc : M (SDSP H) unit :=
  let rreg := (opc .>> 8) .& 0x1 in
  let sreg := (opc .>> 11) .& 0x1 in
  acc <- GetLongProduct ;;
  axl <- ax_low_u16 sreg ;; axh <- ax_high_u16 sreg ;;
  prod <- Multiply axl axh 0 ;;
  mul_result rreg prod acc.

Definition mulmvz opc : M (SDSP H) unit :=
  let rreg := (opc .>> 8) .& 0x1 in
  let sreg := (opc .>> 11) .& 0x1 in
  acc <- GetLongProductRounded ;;
  axl <- ax_low_u16 sreg ;; axh <- ax_high_u16 sreg ;;
  prod <- Multiply axl axh 0 ;;
  mul_result rreg prod acc.

Definition mulx opc : M (SDSP H) unit :=
  let treg := (opc .>> 11) .& 0x1 in
  let sreg := (opc .>> 12) .& 0x1 in
  val1 <- mulx_operand sreg 0 ;; val2 <- mulx_operand treg 1 ;;
  prod <- MultiplyMulX sreg treg val1 val2 ;;
  ZeroWriteBackLog ;;; SetLongProduct prod.

Definition mulxac opc : M (SDSP H) unit :=
  let rreg := (opc .>> 8) .& 0x1 in
  let treg := (opc .>> 11) .& 0x1 in
  let sreg := (opc .>> 12) .& 0x1 in
  a <- GetLongAcc rreg ;; p <- GetLongProduct ;;
  let acc := a + p in
  val1 <- mulx_operand sreg 0 ;; val2 <- mulx_operand treg 1 ;;
  prod <- MultiplyMulX sreg treg val1 val2 ;;
  mul_result rreg prod acc.

Definition mulxmv opc : M (SDSP H) unit :=
  let rreg := (opc .>> 8) .& 0x1 in
  let treg := (opc .>> 11) .& 0x1 in
  let sreg := (opc .>> 12) .& 0x1 in
  acc <- GetLongProduct ;;
  val1 <- mulx_operand sreg 0 ;; val2 <- mulx_operand treg 1 ;;
  prod <- MultiplyMulX sreg treg val1 val2 ;;
  mul_result rreg prod acc.

Definition mulxmvz opc : M (SDSP H) unit :=
  let rreg := (opc .>> 8) .& 0x1 in
  let treg := (opc .>> 11) .& 0x1 in
  let sreg := (opc .>> 12) .& 0x1 in
  acc <- GetLongProductRounded ;;
  val1 <- mulx_operand sreg 0 ;; val2 <- mulx_operand treg 1 ;;
  prod <- MultiplyMulX sreg treg val1 val2 ;;
  mul_result rreg prod acc.

Definition mulc opc : M (SDSP H) unit :=
  let treg := (opc .>> 11) .& 0x1 in
  let sreg := (opc .>> 12) .& 0x1 in
  accm <- acc_mid_u16 sreg ;; axh <- ax_high_u16 treg ;;
  prod <- Multiply accm axh 0 ;;
  ZeroWriteBackLog ;;; SetLongProduct prod.

Definition mulcac opc : M (SDSP H) unit :=
  let rreg := (opc .>> 8) .& 0x1 in
  let treg := (opc .>> 11) .& 0x1 in
  let sreg := (opc .>> 12) .& 0x1 in
  a <- GetLongAcc rreg ;; p <- GetLongProduct ;;
  let acc := a + p in
  accm <- acc_mid_u16 sreg ;; axh <- ax_high_u16 treg ;;
  prod <- Multiply accm axh 0 ;;
  mul_result rreg prod acc.

Definition mulcmv opc : M (SDSP H) unit :=
  let rreg := (opc .>> 8) .& 0x1 in
  let treg := (opc .>> 11) .& 0x1 in
  let sreg := (opc .>> 12) .& 0x1 in
  acc <- GetLongProduct ;;
  accm <- acc_mid_u16 sreg ;; axh <- ax_high_u16 treg ;;
  prod <- Multiply accm axh 0 ;;
  mul_result rreg prod acc.

Definition mulcmvz opc : M (SDSP H) unit :=
  let rreg := (opc .>> 8) .& 0x1 in
  let treg := (opc .>> 11) .& 0x1 in
  let sreg := (opc .>> 12) .& 0x1 in
  acc <- GetLongProductRounded ;;
  accm <- acc_mid_u16 sreg ;; axh <- ax_high_u16 treg ;;
  prod <- Multiply accm axh 0 ;;
  mul_result rreg prod acc.

Definition maddx opc : M (SDSP H) unit :=
  let treg := (opc .>> 8) .& 0x1 in
  let sreg := (opc .>> 9) .& 0x1 in
  val1 <- mulx_operand sreg 0 ;; val2 <- mulx_operand treg 1 ;;
  prod <- MultiplyAdd val1 val2 0 ;;
  ZeroWriteBackLog ;;; SetLongProduct prod.

Definition msubx opc : M (SDSP H) unit :=
  let treg := (opc .>> 8) .& 0x1 in
  let sreg := (opc .>> 9) .& 0x1 in
  val1 <- mulx_operand sreg 0 ;; val2 <- mulx_operand treg 1 ;;
  prod <- MultiplySub val1 val2 0 ;;
  ZeroWriteBackLog ;;; SetLongProduct prod.

Definition maddc opc : M (SDSP H) unit :=
  let treg := (opc .>> 8) .& 0x1 in
  let sreg := (opc .>> 9) .& 0x1 in
  accm <- acc_mid_u16 sreg ;; axh <- ax_high_u16 treg ;;
  prod <- MultiplyAdd accm axh 0 ;;
  ZeroWriteBackLog ;;; SetLongProduct prod.

Definition msubc opc : M (SDSP H) unit :=
  let treg := (opc .>> 8) .& 0x1 in
  let sreg := (opc .>> 9) .& 0x1 in
  accm <- acc_mid_u16 sreg ;; axh <- ax_high_u16 treg ;;
  prod <- MultiplySub accm axh 0 ;;
  ZeroWriteBackLog ;;; SetLongProduct prod.

Definition madd opc : M (SDSP H) unit :=
  let sreg := (opc .>> 8) .& 0x1 in
  axl <- ax_low_u16 sreg ;; axh <- ax_high_u16 sreg ;;
  prod <- MultiplyAdd axl axh 0 ;;
  ZeroWriteBackLog ;;; SetLongProduct prod.

Definition msub opc : M (SDSP H) unit :=
  let sreg := (opc .>> 8) .& 0x1 in
  axl <- ax_low_u16 sreg ;; axh <- ax_high_u16 sreg ;;
  prod <- MultiplySub axl axh 0 ;;
  ZeroWriteBackLog ;;; SetLongProduct prod.
End Multiplier.

(** ** Safety *)

Section MultiplierSafe.
Context {H : Type} {HH : DSPHost H}.

Lemma safe_ax_low_u16 i : 0 <= i < 2 -> dsafe (H:=H) (ax_low_u16 i) any.
Proof. unfold ax_low_u16. safe_auto. Qed.
Lemma safe_ax_high_u16 i : 0 <= i < 2 -> dsafe (H:=H) (ax_high_u16 i) any.
Proof. unfold ax_high_u16. safe_auto. Qed.
Lemma safe_acc_mid_u16 i : 0 <= i < 2 -> dsafe (H:=H) (acc_mid_u16 i) any.
Proof. unfold acc_mid_u16. safe_auto. Qed.
#[local] Hint Resolve safe_ax_low_u16 safe_ax_high_u16 safe_acc_mid_u16 : safe.
Lemma safe_mulx_operand p i : 0 <= i < 2 -> dsafe (H:=H) (mulx_operand p i) any.
Proof. unfold mulx_operand. safe_auto. Qed.
Lemma safe_mul_result d p a : 0 <= d < 2 -> dsafe (H:=H) (mul_result d p a) any.
Proof. unfold mul_result. safe_auto. Qed.
#[local] Hint Resolve safe_mulx_operand safe_mul_result : safe.
Lemma wf_clear_product : wf_prod (mkProd 0x0000 0xfff0 0x00ff 0x0010).
Proof. unfold wf_prod; simpl. repeat split; done. Qed.
#[local] Hint Resolve wf_clear_product : ints.


Lemma safe_clrp opc : dsafe (H:=H) (clrp opc) any.
Proof. unfold clrp. safe_auto. Qed.
Lemma safe_tstprod opc : dsafe (H:=H) (tstprod opc) any.
Proof. unfold tstprod. safe_auto. Qed.
Lemma safe_movp opc : dsafe (H:=H) (movp opc) any.
Proof. unfold movp. safe_auto. Qed.
Lemma safe_movnp opc : dsafe (H:=H) (movnp opc) any.
Proof. unfold movnp. safe_auto. Qed.
Lemma safe_movpz opc : dsafe (H:=H) (movpz opc) any.
Proof. unfold movpz. safe_auto. Qed.
Lemma safe_addpaxz opc : dsafe (H:=H) (addpaxz opc) any.
Proof. unfold addpaxz. safe_auto. Qed.
Lemma safe_mulaxh opc : dsafe (H:=H) (mulaxh opc) any.
Proof. unfold mulaxh. safe_auto. Qed.
Lemma safe_mul opc : dsafe (H:=H) (mul opc) any.
Proof. unfold mul. safe_auto. Qed.
Lemma safe_mulac opc : dsafe (H:=H) (mulac opc) any.
Proof. unfold mulac. safe_auto. Qed.
Lemma safe_mulmv opc : dsafe (H:=H) (mulmv opc) any.
Proof. unfold mulmv. safe_auto. Qed.
Lemma safe_mulmvz opc : dsafe (H:=H) (mulmvz opc) any.
Proof. unfold mulmvz. safe_auto. Qed.
Lemma safe_mulx opc : dsafe (H:=H) (mulx opc) any.
Proof. unfold mulx. safe_auto. Qed.
Lemma safe_mulxac opc : dsafe (H:=H) (mulxac opc) any.
Proof. unfold mulxac. safe_auto. Qed.
Lemma safe_mulxmv opc : dsafe (H:=H) (mulxmv opc) any.
Proof. unfold mulxmv. safe_auto. Qed.
Lemma safe_mulxmvz opc : dsafe (H:=H) (mulxmvz opc) any.
Proof. unfold mulxmvz. safe_auto. Qed.
Lemma safe_mulc opc : dsafe (H:=H) (mulc opc) any.
Proof. unfold mulc. safe_auto. Qed.
Lemma safe_mulcac opc : dsafe (H:=H) (mulcac opc) any.
Proof. unfold mulcac. safe_auto. Qed.
Lemma safe_mulcmv opc : dsafe (H:=H) (mulcmv opc) any.
Proof. unfold mulcmv. safe_auto. Qed.
Lemma safe_mulcmvz opc : dsafe (H:=H) (mulcmvz opc) any.
Proof. unfold mulcmvz. safe_auto. Qed.
Lemma safe_maddx opc : dsafe (H:=H) (maddx opc) any.
Proof. unfold maddx. safe_auto. Qed.
Lemma safe_msubx opc : dsafe (H:=H) (msubx opc) any.
Proof. unfold msubx. safe_auto. Qed.
Lemma safe_maddc opc : dsafe (H:=H) (maddc opc) any.
Proof. unfold maddc. safe_auto. Qed.
Lemma safe_msubc opc : dsafe (H:=H) (msubc opc) any.
Proof. unfold msubc. safe_auto. Qed.
Lemma safe_madd opc : dsafe (H:=H) (madd opc) any.
Proof. unfold madd. safe_auto. Qed.
Lemma safe_msub opc : dsafe (H:=H) (msub opc) any.
Proof. unfold msub. safe_auto. Qed.
End MultiplierSafe.

(** Global: the opcode modules are not imported by the files that use them. *)
#[global] Hint Resolve safe_clrp safe_tstprod safe_movp safe_movnp safe_movpz safe_addpaxz
  safe_mulaxh safe_mul safe_mulac safe_mulmv safe_mulmvz safe_mulx safe_mulxac safe_mulxmv
  safe_mulxmvz safe_mulc safe_mulcac safe_mulcmv safe_mulcmvz safe_maddx safe_msubx safe_maddc
  safe_msubc safe_madd safe_msub : safe.
