(* ===== verification/DSPIntLoadStore.v ===== *)
(** * DSP: the load and store opcodes (DSPIntLoadStore.cpp) *)
From S2P Require Export DSPInterpreter.

Section LoadStore.
Context {H : Type} {HH : DSPHost H}.
Implicit Types opc : Z.

Definition srsh opc : M (SDSP H) unit :=
  let reg := u8 (((opc .>> 8) .& 0x1) + DSP_REG_ACH0) in
  cr <- get_cr ;;
  let addr := u16 ((cr .<< 8) .| (opc .& 0xFF)) in
  v <- OpReadRegister reg ;;
  WriteDMEM addr v.

Definition srs opc : M (SDSP H) unit :=
  let reg := u8 (((opc .>> 8) .& 0x3) + DSP_REG_ACL0) in
  cr <- get_cr ;;
  let addr := u16 ((cr .<< 8) .| (opc .& 0xFF)) in
  v <- OpReadRegister reg ;;
  WriteDMEM addr v.

Definition lrs opc : M (SDSP H) unit :=
  let reg := u8 (((opc .>> 8) .& 0x7) + 0x18) in
  cr <- get_cr ;;
  let addr := u16 ((cr .<< 8) .| (opc .& 0xFF)) in
  val <- ReadDMEM addr ;;
  OpWriteRegister reg val ;;;
  ConditionalExtendAccum reg.

Definition lr opc : M (SDSP H) unit :=
  let reg := opc .& 0x1F in
  addr <- FetchInstruction ;;
  val <- ReadDMEM addr ;;
  OpWriteRegister reg val ;;;
  ConditionalExtendAccum reg.

Definition sr opc : M (SDSP H) unit :=
  let reg := opc .& 0x1F in
  addr <- FetchInstruction ;;
  v <- OpReadRegister reg ;;
  WriteDMEM addr v.

Definition si opc : M (SDSP H) unit :=
  let addr := u16 (s8 opc) in
  imm <- FetchInstruction ;;
  WriteDMEM addr imm.

Definition lrr opc : M (SDSP H) unit :=
  let sreg := (opc .>> 5) .& 0x3 in
  let dreg := opc .& 0x1f in
  addr <- OpReadRegister sreg ;;
  val <- ReadDMEM addr ;;
  OpWriteRegister dreg val ;;;
  ConditionalExtendAccum dreg.

Definition lrrd opc : M (SDSP H) unit :=
  let sreg := (opc .>> 5) .& 0x3 in
  let dreg := opc .& 0x1f in
  addr <- OpReadRegister sreg ;;
  val <- ReadDMEM addr ;;
  OpWriteRegister dreg val ;;;
  ConditionalExtendAccum dreg ;;;
  ar <- DecrementAddressRegister sreg ;; put_ar sreg ar.

Definition lrri opc : M (SDSP H) unit :=
  let sreg := (opc .>> 5) .& 0x3 in
  let dreg := opc .& 0x1f in
  addr <- OpReadRegister sreg ;;
  val <- ReadDMEM addr ;;
  OpWriteRegister dreg val ;;;
  ConditionalExtendAccum dreg ;;;
  ar <- IncrementAddressRegister sreg ;; put_ar sreg ar.

Definition lrrn opc : M (SDSP H) unit :=
  let sreg := (opc .>> 5) .& 0x3 in
  let dreg := opc .& 0x1f in
  addr <- OpReadRegister sreg ;;
  val <- ReadDMEM addr ;;
  OpWriteRegister dreg val ;;;
  ConditionalExtendAccum dreg ;;;
  ix <- get_ix sreg ;;
  ar <- IncreaseAddressRegister sreg (s16 ix) ;; put_ar sreg ar.

Definition srr opc : M (SDSP H) unit :=
  let dreg := (opc .>> 5) .& 0x3 in
  let sreg := opc .& 0x1f in
  addr <- get_ar dreg ;;
  v <- OpReadRegister sreg ;;
  WriteDMEM addr v.

Definition srrd opc : M (SDSP H) unit :=
  let dreg := (opc .>> 5) .& 0x3 in
  let sreg := opc .& 0x1f in
  addr <- get_ar dreg ;;
  v <- OpReadRegister sreg ;;
  WriteDMEM addr v ;;;
  ar <- DecrementAddressRegister dreg ;; put_ar dreg ar.

Definition srri opc : M (SDSP H) unit :=
  let dreg := (opc .>> 5) .& 0x3 in
  let sreg := opc .& 0x1f in
  addr <- get_ar dreg ;;
  v <- OpReadRegister sreg ;;
  WriteDMEM addr v ;;;
  ar <- IncrementAddressRegister dreg ;; put_ar dreg ar.

Definition srrn opc : M (SDSP H) unit :=
  let dreg := (opc .>> 5) .& 0x3 in
  let sreg := opc .& 0x1f in
  addr <- get_ar dreg ;;
  v <- OpReadRegister sreg ;;
  WriteDMEM addr v ;;;
  ix <- get_ix dreg ;;
  ar <- IncreaseAddressRegister dreg (s16 ix) ;; put_ar dreg ar.

Definition ilrr opc : M (SDSP H) unit :=
  let reg := opc .& 0x3 in
  let dreg := DSP_REG_ACM0 + ((opc .>> 8) .& 1) in
  ar <- get_ar reg ;;
  v <- ReadIMEM ar ;;
  put_acm (dreg - DSP_REG_ACM0) v ;;;
  ConditionalExtendAccum dreg.

Definition ilrrd opc : M (SDSP H) unit :=
  let reg := opc .& 0x3 in
  let dreg := DSP_REG_ACM0 + ((opc .>> 8) .& 1) in
  ar <- get_ar reg ;;
  v <- ReadIMEM ar ;;
  put_acm (dreg - DSP_REG_ACM0) v ;;;
  ConditionalExtendAccum dreg ;;;
  ar <- DecrementAddressRegister reg ;; put_ar reg ar.

Definition ilrri opc : M (SDSP H) unit :=
  let reg := opc .& 0x3 in
  let dreg := DSP_REG_ACM0 + ((opc .>> 8) .& 1) in
  ar <- get_ar reg ;;
  v <- ReadIMEM ar ;;
  put_acm (dreg - DSP_REG_ACM0) v ;;;
  ConditionalExtendAccum dreg ;;;
  ar <- IncrementAddressRegister reg ;; put_ar reg ar.

Definition ilrrn opc : M (SDSP H) unit :=
  let reg := opc .& 0x3 in
  let dreg := DSP_REG_ACM0 + ((opc .>> 8) .& 1) in
  ar <- get_ar reg ;;
  v <- ReadIMEM ar ;;
  put_acm (dreg - DSP_REG_ACM0) v ;;;
  ConditionalExtendAccum dreg ;;;
  ix <- get_ix reg ;;
  ar <- IncreaseAddressRegister reg (s16 ix) ;; put_ar reg ar.
End LoadStore.

(** ** Safety *)

Section LoadStoreSafe.
Context {H : Type} {HH : DSPHost H}.


Lemma safe_srsh opc : dsafe (H:=H) (srsh opc) any.
Proof. unfold srsh. safe_auto. Qed.
Lemma safe_srs opc : dsafe (H:=H) (srs opc) any.
Proof. unfold srs. safe_auto. Qed.
Lemma safe_lrs opc : dsafe (H:=H) (lrs opc) any.
Proof. unfold lrs. safe_auto. Qed.
Lemma safe_lr opc : dsafe (H:=H) (lr opc) any.
Proof. unfold lr. safe_auto. Qed.
Lemma safe_sr opc : dsafe (H:=H) (sr opc) any.
Proof. unfold sr. safe_auto. Qed.
Lemma safe_si opc : dsafe (H:=H) (si opc) any.
Proof. unfold si. safe_auto. Qed.
Lemma safe_lrr opc : dsafe (H:=H) (lrr opc) any.
Proof. unfold lrr. safe_auto. Qed.
Lemma safe_lrrd opc : dsafe (H:=H) (lrrd opc) any.
Proof. unfold lrrd. safe_auto. Qed.
Lemma safe_lrri opc : dsafe (H:=H) (lrri opc) any.
Proof. unfold lrri. safe_auto. Qed.
Lemma safe_lrrn opc : dsafe (H:=H) (lrrn opc) any.
Proof. unfold lrrn. safe_auto. Qed.
Lemma safe_srr opc : dsafe (H:=H) (srr opc) any.
Proof. unfold srr. safe_auto. Qed.
Lemma safe_srrd opc : dsafe (H:=H) (srrd opc) any.
Proof. unfold srrd. safe_auto. Qed.
Lemma safe_srri opc : dsafe (H:=H) (srri opc) any.
Proof. unfold srri. safe_auto. Qed.
Lemma safe_srrn opc : dsafe (H:=H) (srrn opc) any.
Proof. unfold srrn. safe_auto. Qed.
Lemma safe_ilrr opc : dsafe (H:=H) (ilrr opc) any.
Proof. unfold ilrr. safe_auto. Qed.
Lemma safe_ilrrd opc : dsafe (H:=H) (ilrrd opc) any.
Proof. unfold ilrrd. safe_auto. Qed.
Lemma safe_ilrri opc : dsafe (H:=H) (ilrri opc) any.
Proof. unfold ilrri. safe_auto. Qed.
Lemma safe_ilrrn opc : dsafe (H:=H) (ilrrn opc) any.
Proof. unfold ilrrn. safe_auto. Qed.
End LoadStoreSafe.

(** Global: the opcode modules are not imported by the files that use them. *)
#[global] Hint Resolve safe_srsh safe_srs safe_lrs safe_lr safe_sr safe_si safe_lrr safe_lrrd
  safe_lrri safe_lrrn safe_srr safe_srrd safe_srri safe_srrn safe_ilrr safe_ilrrd safe_ilrri
  safe_ilrrn : safe.
