(* ===== verification/DSPIntMisc.v ===== *)
(** * DSP: register moves, address arithmetic and status bits (DSPIntMisc.cpp) *)
From S2P Require Export DSPInterpreter.

Section Misc.
Context {H : Type} {HH : DSPHost H}.
Implicit Types opc : Z.

Definition mrr opc : M (SDSP H) unit :=
  let sreg := opc .& 0x1f in
  let dreg := (opc .>> 5) .& 0x1f in
  v <- OpReadRegister sreg ;;
  OpWriteRegister dreg v ;;;
  ConditionalExtendAccum dreg.

Definition lri opc : M (SDSP H) unit :=
  let reg := opc .& 0x1F in
  imm <- FetchInstruction ;;
  OpWriteRegister reg imm ;;;
  ConditionalExtendAccum reg.

Definition lris opc : M (SDSP H) unit :=
  let reg := ((opc .>> 8) .& 0x7) + DSP_REG_AXL0 in
  let imm := u16 (s8 opc) in
  OpWriteRegister reg imm ;;;
  ConditionalExtendAccum reg.

Definition nx opc : M (SDSP H) unit := ZeroWriteBackLog.

Definition dar opc : M (SDSP H) unit :=
  let index := opc .& 3 in
  ar <- DecrementAddressRegister index ;; put_ar index ar.

Definition iar opc : M (SDSP H) unit :=
  let index := opc .& 3 in
  ar <- IncrementAddressRegister index ;; put_ar index ar.

Definition subarn opc : M (SDSP H) unit :=
  let dreg := opc .& 0x3 in
  ix <- get_ix dreg ;;
  ar <- DecreaseAddressRegister dreg (s16 ix) ;; put_ar dreg ar.

Definition addarn opc : M (SDSP H) unit :=
  let dreg := opc .& 0x3 in
  let sreg := (opc .>> 2) .& 0x3 in
  ix <- get_ix sreg ;;
  ar <- IncreaseAddressRegister dreg (s16 ix) ;; put_ar dreg ar.

Definition sbclr opc : M (SDSP H) unit :=
  let bit := (opc .& 0x7) + 6 in
  sr <- get_sr ;; put_sr (sr .& .~ (1 .<< bit)).

Definition sbset opc : M (SDSP H) unit :=
  let bit := (opc .& 0x7) + 6 in
  sr <- get_sr ;; put_sr (sr .| (1 .<< bit)).

Definition srbith opc : M (SDSP H) unit :=
  ZeroWriteBackLog ;;;
  match (opc .>> 8) .& 0x7 with
  | 2 => ClearSRFlag SR_MUL_MODIFY
  | 3 => SetSRFlag SR_MUL_MODIFY
  | 4 => ClearSRFlag SR_MUL_UNSIGNED
  | 5 => SetSRFlag SR_MUL_UNSIGNED
  | 6 => ClearSRFlag SR_40_MODE_BIT
  | 7 => SetSRFlag SR_40_MODE_BIT
  | _ => mret tt
  end.
End Misc.

(** ** Safety *)

Section MiscSafe.
Context {H : Type} {HH : DSPHost H}.

Lemma is_u16_sr_bit opc : is_u16 (1 .<< ((opc .& 0x7) + 6)).
Proof.
  pose proof (land_mask_range opc 0x7 ltac:(lia)). rewrite Z.shiftl_1_l. split; [lia|].
  apply Z.le_lt_trans with (2 ^ 13); [|done]. apply Z.pow_le_mono_r; lia.
Qed.
#[local] Hint Resolve is_u16_sr_bit : ints.


Lemma safe_mrr opc : dsafe (H:=H) (mrr opc) any.
Proof. unfold mrr. safe_auto. Qed.
Lemma safe_lri opc : dsafe (H:=H) (lri opc) any.
Proof. unfold lri. safe_auto. Qed.
Lemma safe_lris opc : dsafe (H:=H) (lris opc) any.
Proof. unfold lris. safe_auto. Qed.
Lemma safe_nx opc : dsafe (H:=H) (nx opc) any.
Proof. unfold nx. safe_auto. Qed.
Lemma safe_dar opc : dsafe (H:=H) (dar opc) any.
Proof. unfold dar. safe_auto. Qed.
Lemma safe_iar opc : dsafe (H:=H) (iar opc) any.
Proof. unfold iar. safe_auto. Qed.
Lemma safe_subarn opc : dsafe (H:=H) (subarn opc) any.
Proof. unfold subarn. safe_auto. Qed.
Lemma safe_addarn opc : dsafe (H:=H) (addarn opc) any.
Proof. unfold addarn. safe_auto. Qed.
Lemma safe_sbclr opc : dsafe (H:=H) (sbclr opc) any.
Proof. unfold sbclr. safe_auto. Qed.
Lemma safe_sbset opc : dsafe (H:=H) (sbset opc) any.
Proof. unfold sbset. safe_auto. Qed.
Lemma safe_srbith opc : dsafe (H:=H) (srbith opc) any.
Proof. unfold srbith. safe_auto. Qed.
End MiscSafe.

(** Global: the opcode modules are not imported by the files that use them. *)
#[global] Hint Resolve safe_mrr safe_lri safe_lris safe_nx safe_dar safe_iar safe_subarn
  safe_addarn safe_sbclr safe_sbset safe_srbith : safe.
