(* ===== verification/DSPIntBranch.v ===== *)
(** * DSP: branches, loops and returns (DSPIntBranch.cpp) *)
From S2P Require Export DSPInterpreter.

Section Branch.
Context {H : Type} {HH : DSPHost H}.
Implicit Types opc : Z.

Definition call opc : M (SDSP H) unit :=
  dest <- FetchInstruction ;;
  c <- CheckCondition (opc .& 0xf) ;;
  if c then
    pc <- get_pc ;;
    StoreStack Call pc ;;;
    put_pc dest
  else mret tt.

Definition callr opc : M (SDSP H) unit :=
  c <- CheckCondition (opc .& 0xf) ;;
  if negb c then mret tt else
  let reg := (opc .>> 5) .& 0x7 in
  addr <- OpReadRegister reg ;;
  pc <- get_pc ;;
  StoreStack Call pc ;;;
  put_pc addr.

Definition ifcc opc : M (SDSP H) unit :=
  c <- CheckCondition (opc .& 0xf) ;;
  if c then mret tt else SkipInstruction.

Definition jcc opc : M (SDSP H) unit :=
  dest <- FetchInstruction ;;
  c <- CheckCondition (opc .& 0xf) ;;
  if c then put_pc dest else mret tt.

Definition jmprcc opc : M (SDSP H) unit :=
  c <- CheckCondition (opc .& 0xf) ;;
  if negb c then mret tt else
  let reg := (opc .>> 5) .& 0x7 in
  addr <- OpReadRegister reg ;;
  put_pc addr.

Definition ret opc : M (SDSP H) unit :=
  c <- CheckCondition (opc .& 0xf) ;;
  if negb c then mret tt else
  addr <- PopStack Call ;; put_pc addr.

Definition rti opc : M (SDSP H) unit :=
  c <- CheckCondition (opc .& 0xf) ;;
  if negb c then mret tt else
  sr <- PopStack Data ;; put_sr sr ;;;
  addr <- PopStack Call ;; put_pc addr.

Definition halt opc : M (SDSP H) unit :=
  c <- mget control_reg ;;
  mmodify (set_control_reg (c .| CR_HALT)) ;;;
  pc <- get_pc ;; put_pc (u16 (pc - 1)).

Definition HandleLoop : M (SDSP H) unit :=
  rCallAddress <- get_st 0 ;;
  rLoopAddress <- get_st 2 ;;
  rLoopCounter <- get_st 3 ;;
  if (0 <? rLoopAddress) && (0 <? rLoopCounter) then
    pc <- get_pc ;;
    if pc - 1 =? rLoopAddress then
      let rLoopCounter := u16 (rLoopCounter - 1) in
      put_st 3 rLoopCounter ;;;
      if 0 <? rLoopCounter then put_pc rCallAddress
      else PopStack Call ;;; PopStack LoopAddress ;;; PopStack LoopCounter ;;; mret tt
    else mret tt
  else mret tt.

(** The three pushes of the loop instructions. *)
Definition push_loop (loop_pc cnt : Z) : M (SDSP H) unit :=
  pc <- get_pc ;;
  StoreStack Call pc ;;;
  StoreStack LoopAddress loop_pc ;;;
  StoreStack LoopCounter cnt.

Definition loop opc : M (SDSP H) unit :=
  let reg := opc .& 0x1f in
  cnt <- OpReadRegister reg ;;
  loop_pc <- get_pc ;;
  if negb (cnt =? 0) then push_loop loop_pc cnt else SkipInstruction.

Definition loopi opc : M (SDSP H) unit :=
  let cnt := opc .& 0xff in
  loop_pc <- get_pc ;;
  if negb (cnt =? 0) then push_loop loop_pc cnt else SkipInstruction.

Definition bloop opc : M (SDSP H) unit :=
  let reg := opc .& 0x1f in
  cnt <- OpReadRegister reg ;;
  loop_pc <- FetchInstruction ;;
  if negb (cnt =? 0) then push_loop loop_pc cnt else put_pc loop_pc ;;; SkipInstruction.

Definition bloopi opc : M (SDSP H) unit :=
  let cnt := opc .& 0xff in
  loop_pc <- FetchInstruction ;;
  if negb (cnt =? 0) then push_loop loop_pc cnt else put_pc loop_pc ;;; SkipInstruction.
End Branch.

(** ** Safety *)

Section BranchSafe.
Context {H : Type} {HH : DSPHost H}.

Lemma safe_HandleLoop : dsafe (H:=H) HandleLoop any.
Proof. unfold HandleLoop. safe_auto. Qed.
Lemma safe_push_loop a n : is_u16 a -> is_u16 n -> dsafe (H:=H) (push_loop a n) any.
Proof. unfold push_loop. safe_auto. Qed.
#[local] Hint Resolve safe_push_loop : safe.


Lemma safe_call opc : dsafe (H:=H) (call opc) any.
Proof. unfold call. safe_auto. Qed.
Lemma safe_callr opc : dsafe (H:=H) (callr opc) any.
Proof. unfold callr. safe_auto. Qed.
Lemma safe_ifcc opc : dsafe (H:=H) (ifcc opc) any.
Proof. unfold ifcc. safe_auto. Qed.
Lemma safe_jcc opc : dsafe (H:=H) (jcc opc) any.
Proof. unfold jcc. safe_auto. Qed.
Lemma safe_jmprcc opc : dsafe (H:=H) (jmprcc opc) any.
Proof. unfold jmprcc. safe_auto. Qed.
Lemma safe_ret opc : dsafe (H:=H) (ret opc) any.
Proof. unfold ret. safe_auto. Qed.
Lemma safe_rti opc : dsafe (H:=H) (rti opc) any.
Proof. unfold rti. safe_auto. Qed.
Lemma safe_halt opc : dsafe (H:=H) (halt opc) any.
Proof. unfold halt. safe_auto. Qed.
Lemma safe_loop opc : dsafe (H:=H) (loop opc) any.
Proof. unfold loop. safe_auto. Qed.
Lemma safe_loopi opc : dsafe (H:=H) (loopi opc) any.
Proof. unfold loopi. safe_auto. Qed.
Lemma safe_bloop opc : dsafe (H:=H) (bloop opc) any.
Proof. unfold bloop. safe_auto. Qed.
Lemma safe_bloopi opc : dsafe (H:=H) (bloopi opc) any.
Proof. unfold bloopi. safe_auto. Qed.
End BranchSafe.

(** Global: the opcode modules are not imported by the files that use them. *)
#[global] Hint Resolve safe_HandleLoop safe_call safe_callr safe_ifcc safe_jcc safe_jmprcc safe_ret safe_rti
  safe_halt safe_loop safe_loopi safe_bloop safe_bloopi : safe.
