(* ===== verification/DSPIntExtOps.v ===== *)
(** * DSP: the extended opcodes (DSPIntExtOps.cpp)

    They run before the main opcode of the same instruction and record their
    register writes in the back log. *)
From S2P Require Export DSPInterpreter.

Definition IsSameMemArea (a b : Z) : bool := (a .>> 10) =? (b .>> 10).

Section ExtOps.
Context {H : Type} {HH : DSPHost H}.
Implicit Types opc : Z.

(** [state.ReadDMEM(state.r.ar[i])] *)
Definition read_at (i : Z) : M (SDSP H) Z := addr <- get_ar i ;; ReadDMEM addr.
(** [state.WriteDMEM(state.r.ar[i], OpReadRegister(reg))] *)
Definition store_at (i reg : Z) : M (SDSP H) unit :=
  addr <- get_ar i ;; v <- OpReadRegister reg ;; WriteDMEM addr v.
(** [IncreaseAddressRegister(i, static_cast<s16>(state.r.ix[i]))] *)
Definition add_index (i : Z) : M (SDSP H) Z :=
  ix <- get_ix i ;; IncreaseAddressRegister i (s16 ix).

Definition dr opc : M (SDSP H) unit :=
  ar <- DecrementAddressRegister (opc .& 0x3) ;; WriteToBackLog 0 (opc .& 0x3) ar.

Definition ir opc : M (SDSP H) unit :=
  ar <- IncrementAddressRegister (opc .& 0x3) ;; WriteToBackLog 0 (opc .& 0x3) ar.

Definition nr opc : M (SDSP H) unit :=
  let reg := opc .& 0x3 in
  ar <- add_index reg ;; WriteToBackLog 0 reg ar.

Definition mv opc : M (SDSP H) unit :=
  let sreg := (opc .& 0x3) + DSP_REG_ACL0 in
  let dreg := (opc .>> 2) .& 0x3 in
  v <- OpReadRegister sreg ;; WriteToBackLog 0 (dreg + DSP_REG_AXL0) v.

Definition s opc : M (SDSP H) unit :=
  let dreg := opc .& 0x3 in
  let sreg := ((opc .>> 3) .& 0x3) + DSP_REG_ACL0 in
  store_at dreg sreg ;;;
  ar <- IncrementAddressRegister dreg ;; WriteToBackLog 0 dreg ar.

Definition sn opc : M (SDSP H) unit :=
  let dreg := opc .& 0x3 in
  let sreg := ((opc .>> 3) .& 0x3) + DSP_REG_ACL0 in
  store_at dreg sreg ;;;
  ar <- add_index dreg ;; WriteToBackLog 0 dreg ar.

Definition l opc : M (SDSP H) unit :=
  let sreg := opc .& 0x3 in
  let dreg := ((opc .>> 3) .& 0x7) + DSP_REG_AXL0 in
  b <- IsSRFlagSet SR_40_MODE_BIT ;;
  if (DSP_REG_ACM0 <=? dreg) && b then
    val <- read_at sreg ;;
    WriteToBackLog 0 (dreg - DSP_REG_ACM0 + DSP_REG_ACH0)
      (if negb (val .& 0x8000 =? 0) then 0xFFFF else 0x0000) ;;;
    WriteToBackLog 1 dreg val ;;;
    WriteToBackLog 2 (dreg - DSP_REG_ACM0 + DSP_REG_ACL0) 0 ;;;
    ar <- IncrementAddressRegister sreg ;; WriteToBackLog 3 sreg ar
  else
    val <- read_at sreg ;;
    WriteToBackLog 0 dreg val ;;;
    ar <- IncrementAddressRegister sreg ;; WriteToBackLog 1 sreg ar.

Definition ln opc : M (SDSP H) unit :=
  let sreg := opc .& 0x3 in
  let dreg := ((opc .>> 3) .& 0x7) + DSP_REG_AXL0 in
  b <- IsSRFlagSet SR_40_MODE_BIT ;;
  if (DSP_REG_ACM0 <=? dreg) && b then
    val <- read_at sreg ;;
    WriteToBackLog 0 (dreg - DSP_REG_ACM0 + DSP_REG_ACH0)
      (if negb (val .& 0x8000 =? 0) then 0xFFFF else 0x0000) ;;;
    WriteToBackLog 1 dreg val ;;;
    WriteToBackLog 2 (dreg - DSP_REG_ACM0 + DSP_REG_ACL0) 0 ;;;
    ar <- add_index sreg ;; WriteToBackLog 3 sreg ar
  else
    val <- read_at sreg ;;
    WriteToBackLog 0 dreg val ;;;
    ar <- add_index sreg ;; WriteToBackLog 1 sreg ar.

Definition ls opc : M (SDSP H) unit :=
  let sreg := (opc .& 0x1) + DSP_REG_ACM0 in
  let dreg := ((opc .>> 4) .& 0x3) + DSP_REG_AXL0 in
  store_at 3 sreg ;;;
  val <- read_at 0 ;; WriteToBackLog 0 dreg val ;;;
  ar3 <- IncrementAddressRegister DSP_REG_AR3 ;; WriteToBackLog 1 DSP_REG_AR3 ar3 ;;;
  ar0 <- IncrementAddressRegister DSP_REG_AR0 ;; WriteToBackLog 2 DSP_REG_AR0 ar0.

Definition lsn opc : M (SDSP H) unit :=
  let sreg := (opc .& 0x1) + DSP_REG_ACM0 in
  let dreg := ((opc .>> 4) .& 0x3) + DSP_REG_AXL0 in
  store_at 3 sreg ;;;
  val <- read_at 0 ;; WriteToBackLog 0 dreg val ;;;
  ar3 <- IncrementAddressRegister DSP_REG_AR3 ;; WriteToBackLog 1 DSP_REG_AR3 ar3 ;;;
  ar0 <- add_index DSP_REG_AR0 ;; WriteToBackLog 2 DSP_REG_AR0 ar0.

Definition lsm opc : M (SDSP H) unit :=
  let sreg := (opc .& 0x1) + DSP_REG_ACM0 in
  let dreg := ((opc .>> 4) .& 0x3) + DSP_REG_AXL0 in
  store_at 3 sreg ;;;
  val <- read_at 0 ;; WriteToBackLog 0 dreg val ;;;
  ar3 <- add_index DSP_REG_AR3 ;; WriteToBackLog 1 DSP_REG_AR3 ar3 ;;;
  ar0 <- IncrementAddressRegister DSP_REG_AR0 ;; WriteToBackLog 2 DSP_REG_AR0 ar0.

Definition lsnm opc : M (SDSP H) unit :=
  let sreg := (opc .& 0x1) + DSP_REG_ACM0 in
  let dreg := ((opc .>> 4) .& 0x3) + DSP_REG_AXL0 in
  store_at 3 sreg ;;;
  val <- read_at 0 ;; WriteToBackLog 0 dreg val ;;;
  ar3 <- add_index DSP_REG_AR3 ;; WriteToBackLog 1 DSP_REG_AR3 ar3 ;;;
  ar0 <- add_index DSP_REG_AR0 ;; WriteToBackLog 2 DSP_REG_AR0 ar0.

Definition sl opc : M (SDSP H) unit :=
  let sreg := (opc .& 0x1) + DSP_REG_ACM0 in
  let dreg := ((opc .>> 4) .& 0x3) + DSP_REG_AXL0 in
  store_at 0 sreg ;;;
  val <- read_at 3 ;; WriteToBackLog 0 dreg val ;;;
  ar3 <- IncrementAddressRegister DSP_REG_AR3 ;; WriteToBackLog 1 DSP_REG_AR3 ar3 ;;;
  ar0 <- IncrementAddressRegister DSP_REG_AR0 ;; WriteToBackLog 2 DSP_REG_AR0 ar0.

Definition sln opc : M (SDSP H) unit :=
  let sreg := (opc .& 0x1) + DSP_REG_ACM0 in
  let dreg := ((opc .>> 4) .& 0x3) + DSP_REG_AXL0 in
  store_at 0 sreg ;;;
  val <- read_at 3 ;; WriteToBackLog 0 dreg val ;;;
  ar3 <- IncrementAddressRegister DSP_REG_AR3 ;; WriteToBackLog 1 DSP_REG_AR3 ar3 ;;;
  ar0 <- add_index DSP_REG_AR0 ;; WriteToBackLog 2 DSP_REG_AR0 ar0.

Definition slm opc : M (SDSP H) unit :=
  let sreg := (opc .& 0x1) + DSP_REG_ACM0 in
  let dreg := ((opc .>> 4) .& 0x3) + DSP_REG_AXL0 in
  store_at 0 sreg ;;;
  val <- read_at 3 ;; WriteToBackLog 0 dreg val ;;;
  ar3 <- add_index DSP_REG_AR3 ;; WriteToBackLog 1 DSP_REG_AR3 ar3 ;;;
  ar0 <- IncrementAddressRegister DSP_REG_AR0 ;; WriteToBackLog 2 DSP_REG_AR0 ar0.

Definition slnm opc : M (SDSP H) unit :=
  let sreg := (opc .& 0x1) + DSP_REG_ACM0 in
  let dreg := ((opc .>> 4) .& 0x3) + DSP_REG_AXL0 in
  store_at 0 sreg ;;;
  val <- read_at 3 ;; WriteToBackLog 0 dreg val ;;;
  ar3 <- add_index DSP_REG_AR3 ;; WriteToBackLog 1 DSP_REG_AR3 ar3 ;;;
  ar0 <- add_index DSP_REG_AR0 ;; WriteToBackLog 2 DSP_REG_AR0 ar0.

(** The second load of the LD family: [$ar3]'s word, or the first one again when
    both addresses are in the same memory area. *)
Definition second_load (sreg : Z) : M (SDSP H) Z :=
  ar <- get_ar sreg ;; ar3 <- get_ar 3 ;;
  if IsSameMemArea ar ar3 then read_at sreg else read_at 3.

Definition ld opc : M (SDSP H) unit :=
  let dreg := (opc .>> 5) .& 0x1 in
  let rreg := (opc .>> 4) .& 0x1 in
  let sreg := opc .& 0x3 in
  val <- read_at sreg ;; WriteToBackLog 0 ((dreg .<< 1) + DSP_REG_AXL0) val ;;;
  val <- second_load sreg ;; WriteToBackLog 1 ((rreg .<< 1) + DSP_REG_AXL1) val ;;;
  ar <- IncrementAddressRegister sreg ;; WriteToBackLog 2 sreg ar ;;;
  ar3 <- IncrementAddressRegister DSP_REG_AR3 ;; WriteToBackLog 3 DSP_REG_AR3 ar3.

Definition ldax opc : M (SDSP H) unit :=
  let sreg := (opc .>> 5) .& 0x1 in
  let rreg := (opc .>> 4) .& 0x1 in
  val <- read_at sreg ;; WriteToBackLog 0 (rreg + DSP_REG_AXH0) val ;;;
  val <- second_load sreg ;; WriteToBackLog 1 (rreg + DSP_REG_AXL0) val ;;;
  ar <- IncrementAddressRegister sreg ;; WriteToBackLog 2 sreg ar ;;;
  ar3 <- IncrementAddressRegister DSP_REG_AR3 ;; WriteToBackLog 3 DSP_REG_AR3 ar3.

Definition ldn opc : M (SDSP H) unit :=
  let dreg := (opc .>> 5) .& 0x1 in
  let rreg := (opc .>> 4) .& 0x1 in
  let sreg := opc .& 0x3 in
  val <- read_at sreg ;; WriteToBackLog 0 ((dreg .<< 1) + DSP_REG_AXL0) val ;;;
  val <- second_load sreg ;; WriteToBackLog 1 ((rreg .<< 1) + DSP_REG_AXL1) val ;;;
  ar <- add_index sreg ;; WriteToBackLog 2 sreg ar ;;;
  ar3 <- IncrementAddressRegister DSP_REG_AR3 ;; WriteToBackLog 3 DSP_REG_AR3 ar3.

Definition ldaxn opc : M (SDSP H) unit :=
  let sreg := (opc .>> 5) .& 0x1 in
  let rreg := (opc .>> 4) .& 0x1 in
  val <- read_at sreg ;; WriteToBackLog 0 (rreg + DSP_REG_AXH0) val ;;;
  val <- second_load sreg ;; WriteToBackLog 1 (rreg + DSP_REG_AXL0) val ;;;
  ar <- add_index sreg ;; WriteToBackLog 2 sreg ar ;;;
  ar3 <- IncrementAddressRegister DSP_REG_AR3 ;; WriteToBackLog 3 DSP_REG_AR3 ar3.

Definition ldm opc : M (SDSP H) unit :=
  let dreg := (opc .>> 5) .& 0x1 in
  let rreg := (opc .>> 4) .& 0x1 in
  let sreg := opc .& 0x3 in
  val <- read_at sreg ;; WriteToBackLog 0 ((dreg .<< 1) + DSP_REG_AXL0) val ;;;
  val <- second_load sreg ;; WriteToBackLog 1 ((rreg .<< 1) + DSP_REG_AXL1) val ;;;
  ar <- IncrementAddressRegister sreg ;; WriteToBackLog 2 sreg ar ;;;
  ar3 <- add_index DSP_REG_AR3 ;; WriteToBackLog 3 DSP_REG_AR3 ar3.

Definition ldaxm opc : M (SDSP H) unit :=
  let sreg := (opc .>> 5) .& 0x1 in
  let rreg := (opc .>> 4) .& 0x1 in
  val <- read_at sreg ;; WriteToBackLog 0 (rreg + DSP_REG_AXH0) val ;;;
  val <- second_load sreg ;; WriteToBackLog 1 (rreg + DSP_REG_AXL0) val ;;;
  ar <- IncrementAddressRegister sreg ;; WriteToBackLog 2 sreg ar ;;;
  ar3 <- add_index DSP_REG_AR3 ;; WriteToBackLog 3 DSP_REG_AR3 ar3.

Definition ldnm opc : M (SDSP H) unit :=
  let dreg := (opc .>> 5) .& 0x1 in
  let rreg := (opc .>> 4) .& 0x1 in
  let sreg := opc .& 0x3 in
  val <- read_at sreg ;; WriteToBackLog 0 ((dreg .<< 1) + DSP_REG_AXL0) val ;;;
  val <- second_load sreg ;; WriteToBackLog 1 ((rreg .<< 1) + DSP_REG_AXL1) val ;;;
  ar <- add_index sreg ;; WriteToBackLog 2 sreg ar ;;;
  ar3 <- add_index DSP_REG_AR3 ;; WriteToBackLog 3 DSP_REG_AR3 ar3.

Definition ldaxnm opc : M (SDSP H) unit :=
  let sreg := (opc .>> 5) .& 0x1 in
  let rreg := (opc .>> 4) .& 0x1 in
  val <- read_at sreg ;; WriteToBackLog 0 (rreg + DSP_REG_AXH0) val ;;;
  val <- second_load sreg ;; WriteToBackLog 1 (rreg + DSP_REG_AXL0) val ;;;
  ar <- add_index sreg ;; WriteToBackLog 2 sreg ar ;;;
  ar3 <- add_index DSP_REG_AR3 ;; WriteToBackLog 3 DSP_REG_AR3 ar3.

Definition nop_ext opc : M (SDSP H) unit := mret tt.
End ExtOps.

(** ** Safety *)

Section ExtOpsSafe.
Context {H : Type} {HH : DSPHost H}.

Lemma safe_read_at i : 0 <= i < 4 -> dsafe (H:=H) (read_at i) is_u16.
Proof. unfold read_at. safe_auto. Qed.
Lemma safe_store_at i reg : 0 <= i < 4 -> dsafe (H:=H) (store_at i reg) any.
Proof. unfold store_at. safe_auto. Qed.
Lemma safe_add_index i : 0 <= i < 4 -> dsafe (H:=H) (add_index i) is_u16.
Proof. unfold add_index. safe_auto. Qed.
#[local] Hint Resolve safe_read_at safe_store_at safe_add_index : safe.
Lemma safe_second_load i : 0 <= i < 4 -> dsafe (H:=H) (second_load i) is_u16.
Proof. unfold second_load. safe_auto. Qed.
#[local] Hint Resolve safe_second_load : safe.

Lemma wf_idx_pair opc n k : 0 <= k < 0x1e -> wf_idx ((((opc .>> n) .& 0x1) .<< 1) + k).
Proof.
  intros. pose proof (land_mask_range (opc .>> n) 0x1). rewrite Z.shiftl_mul_pow2 by lia.
  unfold wf_idx. lia.
Qed.
#[local] Hint Extern 1 (wf_idx ((_ .<< 1) + _)) => (apply wf_idx_pair; const_unfold; lia) : safe.


Lemma safe_dr opc : dsafe (H:=H) (dr opc) any.
Proof. unfold dr. safe_auto. Qed.
Lemma safe_ir opc : dsafe (H:=H) (ir opc) any.
Proof. unfold ir. safe_auto. Qed.
Lemma safe_nr opc : dsafe (H:=H) (nr opc) any.
Proof. unfold nr. safe_auto. Qed.
Lemma safe_mv opc : dsafe (H:=H) (mv opc) any.
Proof. unfold mv. safe_auto. Qed.
Lemma safe_s opc : dsafe (H:=H) (s opc) any.
Proof. unfold s. safe_auto. Qed.
Lemma safe_sn opc : dsafe (H:=H) (sn opc) any.
Proof. unfold sn. safe_auto. Qed.
Lemma safe_l opc : dsafe (H:=H) (l opc) any.
Proof. unfold l. safe_auto. Qed.
Lemma safe_ln opc : dsafe (H:=H) (ln opc) any.
Proof. unfold ln. safe_auto. Qed.
Lemma safe_ls opc : dsafe (H:=H) (ls opc) any.
Proof. unfold ls. safe_auto. Qed.
Lemma safe_lsn opc : dsafe (H:=H) (lsn opc) any.
Proof. unfold lsn. safe_auto. Qed.
Lemma safe_lsm opc : dsafe (H:=H) (lsm opc) any.
Proof. unfold lsm. safe_auto. Qed.
Lemma safe_lsnm opc : dsafe (H:=H) (lsnm opc) any.
Proof. unfold lsnm. safe_auto. Qed.
Lemma safe_sl opc : dsafe (H:=H) (sl opc) any.
Proof. unfold sl. safe_auto. Qed.
Lemma safe_sln opc : dsafe (H:=H) (sln opc) any.
Proof. unfold sln. safe_auto. Qed.
Lemma safe_slm opc : dsafe (H:=H) (slm opc) any.
Proof. unfold slm. safe_auto. Qed.
Lemma safe_slnm opc : dsafe (H:=H) (slnm opc) any.
Proof. unfold slnm. safe_auto. Qed.
Lemma safe_ld opc : dsafe (H:=H) (ld opc) any.
Proof. unfold ld. safe_auto. Qed.
Lemma safe_ldax opc : dsafe (H:=H) (ldax opc) any.
Proof. unfold ldax. safe_auto. Qed.
Lemma safe_ldn opc : dsafe (H:=H) (ldn opc) any.
Proof. unfold ldn. safe_auto. Qed.
Lemma safe_ldaxn opc : dsafe (H:=H) (ldaxn opc) any.
Proof. unfold ldaxn. safe_auto. Qed.
Lemma safe_ldm opc : dsafe (H:=H) (ldm opc) any.
Proof. unfold ldm. safe_auto. Qed.
Lemma safe_ldaxm opc : dsafe (H:=H) (ldaxm opc) any.
Proof. unfold ldaxm. safe_auto. Qed.
Lemma safe_ldnm opc : dsafe (H:=H) (ldnm opc) any.
Proof. unfold ldnm. safe_auto. Qed.
Lemma safe_ldaxnm opc : dsafe (H:=H) (ldaxnm opc) any.
Proof. unfold ldaxnm. safe_auto. Qed.
Lemma safe_nop_ext opc : dsafe (H:=H) (nop_ext opc) any.
Proof. unfold nop_ext. safe_auto. Qed.
End ExtOpsSafe.

(** Global: the opcode modules are not imported by the files that use them. *)
#[global] Hint Resolve safe_dr safe_ir safe_nr safe_mv safe_s safe_sn safe_l safe_ln safe_ls
  safe_lsn safe_lsm safe_lsnm safe_sl safe_sln safe_slm safe_slnm safe_ld safe_ldax safe_ldn
  safe_ldaxn safe_ldm safe_ldaxm safe_ldnm safe_ldaxnm safe_nop_ext : safe.
