(* ===== verification/DSPIntTables.v ===== *)
(** * DSP: the interpreter's dispatch tables (DSPIntTables.cpp) *)
From S2P Require Export DSPInterpreter.
From S2P Require DSPIntArithmetic DSPIntMultiplier DSPIntLoadStore DSPIntMisc DSPIntBranch DSPIntExtOps.

Section Tables.
Context {H : Type} {HH : DSPHost H}.

Record InterpreterOpInfo := mkOpInfo {
  io_opcode : Z;
  io_mask : Z;
  io_function : Z -> M (SDSP H) unit
}.

(** [s_opcodes], first the opcodes that cannot be extended and then the others. *)
Definition int_opcodes_plain : list InterpreterOpInfo := [
  mkOpInfo 0x0000 0xfffc nop;
  mkOpInfo 0x0004 0xfffc DSPIntMisc.dar;
  mkOpInfo 0x0008 0xfffc DSPIntMisc.iar;
  mkOpInfo 0x000c 0xfffc DSPIntMisc.subarn;
  mkOpInfo 0x0010 0xfff0 DSPIntMisc.addarn;
  mkOpInfo 0x0021 0xffff DSPIntBranch.halt;
  mkOpInfo 0x02d0 0xfff0 DSPIntBranch.ret;
  mkOpInfo 0x02f0 0xfff0 DSPIntBranch.rti;
  mkOpInfo 0x02b0 0xfff0 DSPIntBranch.call;
  mkOpInfo 0x0270 0xfff0 DSPIntBranch.ifcc;
  mkOpInfo 0x0290 0xfff0 DSPIntBranch.jcc;
  mkOpInfo 0x1700 0xff10 DSPIntBranch.jmprcc;
  mkOpInfo 0x1710 0xff10 DSPIntBranch.callr;
  mkOpInfo 0x1200 0xff00 DSPIntMisc.sbclr;
  mkOpInfo 0x1300 0xff00 DSPIntMisc.sbset;
  mkOpInfo 0x1400 0xfec0 DSPIntArithmetic.lsl;
  mkOpInfo 0x1440 0xfec0 DSPIntArithmetic.lsr;
  mkOpInfo 0x1480 0xfec0 DSPIntArithmetic.asl;
  mkOpInfo 0x14c0 0xfec0 DSPIntArithmetic.asr;
  mkOpInfo 0x02ca 0xffff DSPIntArithmetic.lsrn;
  mkOpInfo 0x02cb 0xffff DSPIntArithmetic.asrn;
  mkOpInfo 0x0080 0xffe0 DSPIntMisc.lri;
  mkOpInfo 0x00c0 0xffe0 DSPIntLoadStore.lr;
  mkOpInfo 0x00e0 0xffe0 DSPIntLoadStore.sr;
  mkOpInfo 0x1c00 0xfc00 DSPIntMisc.mrr;
  mkOpInfo 0x1600 0xff00 DSPIntLoadStore.si;
  mkOpInfo 0x0400 0xfe00 DSPIntArithmetic.addis;
  mkOpInfo 0x0600 0xfe00 DSPIntArithmetic.cmpis;
  mkOpInfo 0x0800 0xf800 DSPIntMisc.lris;
  mkOpInfo 0x0200 0xfeff DSPIntArithmetic.addi;
  mkOpInfo 0x0220 0xfeff DSPIntArithmetic.xori;
  mkOpInfo 0x0240 0xfeff DSPIntArithmetic.andi;
  mkOpInfo 0x0260 0xfeff DSPIntArithmetic.ori;
  mkOpInfo 0x0280 0xfeff DSPIntArithmetic.cmpi;
  mkOpInfo 0x02a0 0xfeff DSPIntArithmetic.andf;
  mkOpInfo 0x02c0 0xfeff DSPIntArithmetic.andcf;
  mkOpInfo 0x0210 0xfefc DSPIntLoadStore.ilrr;
  mkOpInfo 0x0214 0xfefc DSPIntLoadStore.ilrrd;
  mkOpInfo 0x0218 0xfefc DSPIntLoadStore.ilrri;
  mkOpInfo 0x021c 0xfefc DSPIntLoadStore.ilrrn;
  mkOpInfo 0x0040 0xffe0 DSPIntBranch.loop;
  mkOpInfo 0x0060 0xffe0 DSPIntBranch.bloop;
  mkOpInfo 0x1000 0xff00 DSPIntBranch.loopi;
  mkOpInfo 0x1100 0xff00 DSPIntBranch.bloopi;
  mkOpInfo 0x1800 0xff80 DSPIntLoadStore.lrr;
  mkOpInfo 0x1880 0xff80 DSPIntLoadStore.lrrd;
  mkOpInfo 0x1900 0xff80 DSPIntLoadStore.lrri;
  mkOpInfo 0x1980 0xff80 DSPIntLoadStore.lrrn;
  mkOpInfo 0x1a00 0xff80 DSPIntLoadStore.srr;
  mkOpInfo 0x1a80 0xff80 DSPIntLoadStore.srrd;
  mkOpInfo 0x1b00 0xff80 DSPIntLoadStore.srri;
  mkOpInfo 0x1b80 0xff80 DSPIntLoadStore.srrn;
  mkOpInfo 0x2000 0xf800 DSPIntLoadStore.lrs;
  mkOpInfo 0x2800 0xfe00 DSPIntLoadStore.srsh;
  mkOpInfo 0x2c00 0xfc00 DSPIntLoadStore.srs
].

Definition int_opcodes_extended : list InterpreterOpInfo := [
  mkOpInfo 0x3000 0xfc80 DSPIntArithmetic.xorr;
  mkOpInfo 0x3400 0xfc80 DSPIntArithmetic.andr;
  mkOpInfo 0x3800 0xfc80 DSPIntArithmetic.orr;
  mkOpInfo 0x3c00 0xfe80 DSPIntArithmetic.andc;
  mkOpInfo 0x3e00 0xfe80 DSPIntArithmetic.orc;
  mkOpInfo 0x3080 0xfe80 DSPIntArithmetic.xorc;
  mkOpInfo 0x3280 0xfe80 DSPIntArithmetic.notc;
  mkOpInfo 0x3480 0xfc80 DSPIntArithmetic.lsrnrx;
  mkOpInfo 0x3880 0xfc80 DSPIntArithmetic.asrnrx;
  mkOpInfo 0x3c80 0xfe80 DSPIntArithmetic.lsrnr;
  mkOpInfo 0x3e80 0xfe80 DSPIntArithmetic.asrnr;
  mkOpInfo 0x4000 0xf800 DSPIntArithmetic.addr;
  mkOpInfo 0x4800 0xfc00 DSPIntArithmetic.addax;
  mkOpInfo 0x4c00 0xfe00 DSPIntArithmetic.add;
  mkOpInfo 0x4e00 0xfe00 DSPIntArithmetic.addp;
  mkOpInfo 0x5000 0xf800 DSPIntArithmetic.subr;
  mkOpInfo 0x5800 0xfc00 DSPIntArithmetic.subax;
  mkOpInfo 0x5c00 0xfe00 DSPIntArithmetic.sub;
  mkOpInfo 0x5e00 0xfe00 DSPIntArithmetic.subp;
  mkOpInfo 0x6000 0xf800 DSPIntArithmetic.movr;
  mkOpInfo 0x6800 0xfc00 DSPIntArithmetic.movax;
  mkOpInfo 0x6c00 0xfe00 DSPIntArithmetic.mov;
  mkOpInfo 0x6e00 0xfe00 DSPIntMultiplier.movp;
  mkOpInfo 0x7000 0xfc00 DSPIntArithmetic.addaxl;
  mkOpInfo 0x7400 0xfe00 DSPIntArithmetic.incm;
  mkOpInfo 0x7600 0xfe00 DSPIntArithmetic.inc;
  mkOpInfo 0x7800 0xfe00 DSPIntArithmetic.decm;
  mkOpInfo 0x7a00 0xfe00 DSPIntArithmetic.dec;
  mkOpInfo 0x7c00 0xfe00 DSPIntArithmetic.neg;
  mkOpInfo 0x7e00 0xfe00 DSPIntMultiplier.movnp;
  mkOpInfo 0x8000 0xf700 DSPIntMisc.nx;
  mkOpInfo 0x8100 0xf700 DSPIntArithmetic.clr;
  mkOpInfo 0x8200 0xff00 DSPIntArithmetic.cmp;
  mkOpInfo 0x8300 0xff00 DSPIntMultiplier.mulaxh;
  mkOpInfo 0x8400 0xff00 DSPIntMultiplier.clrp;
  mkOpInfo 0x8500 0xff00 DSPIntMultiplier.tstprod;
  mkOpInfo 0x8600 0xfe00 DSPIntArithmetic.tstaxh;
  mkOpInfo 0x8a00 0xff00 DSPIntMisc.srbith;
  mkOpInfo 0x8b00 0xff00 DSPIntMisc.srbith;
  mkOpInfo 0x8c00 0xff00 DSPIntMisc.srbith;
  mkOpInfo 0x8d00 0xff00 DSPIntMisc.srbith;
  mkOpInfo 0x8e00 0xff00 DSPIntMisc.srbith;
  mkOpInfo 0x8f00 0xff00 DSPIntMisc.srbith;
  mkOpInfo 0x9000 0xf700 DSPIntMultiplier.mul;
  mkOpInfo 0x9100 0xf700 DSPIntArithmetic.asr16;
  mkOpInfo 0x9200 0xf600 DSPIntMultiplier.mulmvz;
  mkOpInfo 0x9400 0xf600 DSPIntMultiplier.mulac;
  mkOpInfo 0x9600 0xf600 DSPIntMultiplier.mulmv;
  mkOpInfo 0xa000 0xe700 DSPIntMultiplier.mulx;
  mkOpInfo 0xa100 0xf700 DSPIntArithmetic.abs;
  mkOpInfo 0xa200 0xe600 DSPIntMultiplier.mulxmvz;
  mkOpInfo 0xa400 0xe600 DSPIntMultiplier.mulxac;
  mkOpInfo 0xa600 0xe600 DSPIntMultiplier.mulxmv;
  mkOpInfo 0xb100 0xf700 DSPIntArithmetic.tst;
  mkOpInfo 0xc000 0xe700 DSPIntMultiplier.mulc;
  mkOpInfo 0xc100 0xe700 DSPIntArithmetic.cmpaxh;
  mkOpInfo 0xc200 0xe600 DSPIntMultiplier.mulcmvz;
  mkOpInfo 0xc400 0xe600 DSPIntMultiplier.mulcac;
  mkOpInfo 0xc600 0xe600 DSPIntMultiplier.mulcmv;
  mkOpInfo 0xe000 0xfc00 DSPIntMultiplier.maddx;
  mkOpInfo 0xe400 0xfc00 DSPIntMultiplier.msubx;
  mkOpInfo 0xe800 0xfc00 DSPIntMultiplier.maddc;
  mkOpInfo 0xec00 0xfc00 DSPIntMultiplier.msubc;
  mkOpInfo 0xf000 0xfe00 DSPIntArithmetic.lsl16;
  mkOpInfo 0xf200 0xfe00 DSPIntMultiplier.madd;
  mkOpInfo 0xf400 0xfe00 DSPIntArithmetic.lsr16;
  mkOpInfo 0xf600 0xfe00 DSPIntMultiplier.msub;
  mkOpInfo 0xf800 0xfc00 DSPIntMultiplier.addpaxz;
  mkOpInfo 0xfc00 0xfe00 DSPIntArithmetic.clrl;
  mkOpInfo 0xfe00 0xfe00 DSPIntMultiplier.movpz
].

Definition int_opcodes : list InterpreterOpInfo := int_opcodes_plain ++ int_opcodes_extended.

(** [s_opcodes_ext] *)
Definition int_opcodes_ext : list InterpreterOpInfo := [
  mkOpInfo 0x0000 0x00fc DSPIntExtOps.nop_ext;
  mkOpInfo 0x0004 0x00fc DSPIntExtOps.dr;
  mkOpInfo 0x0008 0x00fc DSPIntExtOps.ir;
  mkOpInfo 0x000c 0x00fc DSPIntExtOps.nr;
  mkOpInfo 0x0010 0x00f0 DSPIntExtOps.mv;
  mkOpInfo 0x0020 0x00e4 DSPIntExtOps.s;
  mkOpInfo 0x0024 0x00e4 DSPIntExtOps.sn;
  mkOpInfo 0x0040 0x00c4 DSPIntExtOps.l;
  mkOpInfo 0x0044 0x00c4 DSPIntExtOps.ln;
  mkOpInfo 0x0080 0x00ce DSPIntExtOps.ls;
  mkOpInfo 0x0082 0x00ce DSPIntExtOps.sl;
  mkOpInfo 0x0084 0x00ce DSPIntExtOps.lsn;
  mkOpInfo 0x0086 0x00ce DSPIntExtOps.sln;
  mkOpInfo 0x0088 0x00ce DSPIntExtOps.lsm;
  mkOpInfo 0x008a 0x00ce DSPIntExtOps.slm;
  mkOpInfo 0x008c 0x00ce DSPIntExtOps.lsnm;
  mkOpInfo 0x008e 0x00ce DSPIntExtOps.slnm;
  mkOpInfo 0x00c3 0x00cf DSPIntExtOps.ldax;
  mkOpInfo 0x00c7 0x00cf DSPIntExtOps.ldaxn;
  mkOpInfo 0x00cb 0x00cf DSPIntExtOps.ldaxm;
  mkOpInfo 0x00cf 0x00cf DSPIntExtOps.ldaxnm;
  mkOpInfo 0x00c0 0x00cc DSPIntExtOps.ld;
  mkOpInfo 0x00c4 0x00cc DSPIntExtOps.ldn;
  mkOpInfo 0x00c8 0x00cc DSPIntExtOps.ldm;
  mkOpInfo 0x00cc 0x00cc DSPIntExtOps.ldnm
].

(** The entries [InitInstructionTables] stores for one opcode, read back. *)
Definition GetOp (inst : Z) : Z -> M (SDSP H) unit :=
  match FindByOpcode io_opcode io_mask inst int_opcodes with
  | Some info => io_function info
  | None => nop
  end.
Definition GetExtOp (inst : Z) : Z -> M (SDSP H) unit :=
  match FindByOpcode io_opcode io_mask (ext_bits inst) int_opcodes_ext with
  | Some info => io_function info
  | None => nop
  end.

(** ** Every opcode function is safe *)

Definition op_safe (f : Z -> M (SDSP H) unit) : Prop := forall opc, dsafe (f opc) any.

Ltac op_safe_entry := intros opc; cbn [io_function]; solve [eauto with safe nocore].

Lemma int_opcodes_plain_safe : Forall (fun e => op_safe (io_function e)) int_opcodes_plain.
Proof. repeat (constructor; [op_safe_entry|]). constructor. Qed.
Lemma int_opcodes_extended_safe : Forall (fun e => op_safe (io_function e)) int_opcodes_extended.
Proof. repeat (constructor; [op_safe_entry|]). constructor. Qed.
Lemma int_opcodes_ext_safe : Forall (fun e => op_safe (io_function e)) int_opcodes_ext.
Proof. repeat (constructor; [op_safe_entry|]). constructor. Qed.

Lemma find_op_safe inst data :
  Forall (fun e => op_safe (io_function e)) data ->
  op_safe (match FindByOpcode io_opcode io_mask inst data with
           | Some info => io_function info | None => nop end).
Proof.
  intros Hd. destruct (FindByOpcode _ _ _ _) eqn:E; [|intros opc; apply safe_nop].
  apply FindByOpcode_some in E as [Hin _]. rewrite List.Forall_forall in Hd. by apply Hd.
Qed.

Lemma safe_GetOp inst opc : dsafe (GetOp inst opc) any.
Proof.
  apply find_op_safe, Forall_app; split;
    [apply int_opcodes_plain_safe|apply int_opcodes_extended_safe].
Qed.
Lemma safe_GetExtOp inst opc : dsafe (GetExtOp inst opc) any.
Proof. apply find_op_safe, int_opcodes_ext_safe. Qed.
End Tables.
#[export] Hint Resolve safe_GetOp safe_GetExtOp : safe.
