(* ===== verification/DSPBreakpoints.v ===== *)
(** * DSP: breakpoints (DSPBreakpoints.h)

    One byte per address: 0, 1 for a breakpoint, 2 for a temporary one. *)
From S2P Require Export DSPTypes.

Definition DSPBreakpoints := Mem.

Definition Clear : DSPBreakpoints := mkMem 65536 0 ∅.
Definition IsAddressBreakPoint (b : DSPBreakpoints) (addr : Z) : option bool :=
  match mem_get b addr with Some v => Some (negb (v =? 0)) | None => None end.
Definition Add (b : DSPBreakpoints) (addr : Z) (temp : bool) : option (bool * DSPBreakpoints) :=
  match IsAddressBreakPoint b addr with
  | Some true => Some (false, b)
  | Some false =>
      match mem_set b addr (if temp then 2 else 1) with Some b' => Some (true, b') | None => None end
  | None => None
  end.
Definition Remove (b : DSPBreakpoints) (addr : Z) : option (bool * DSPBreakpoints) :=
  match IsAddressBreakPoint b addr, mem_set b addr 0 with
  | Some was_one, Some b' => Some (was_one, b')
  | _, _ => None
  end.
Definition DeleteByAddress (b : DSPBreakpoints) (addr : Z) : option DSPBreakpoints :=
  mem_set b addr 0.

(** The addresses with a breakpoint. *)
Definition bp_at (b : DSPBreakpoints) (a : Z) : Prop := IsAddressBreakPoint b a = Some true.
Definition bp_wf (b : DSPBreakpoints) : Prop := mem_size b = 65536.

Lemma mem_get_in m a : mem_in m a = true -> exists v, mem_get m a = Some v.
Proof. unfold mem_get. intros ->. eauto. Qed.

Lemma mem_set_in m a v : mem_in m a = true -> exists m', mem_set m a v = Some m' /\ mem_size m' = mem_size m.
Proof. unfold mem_set. intros ->. eauto. Qed.

Lemma bp_in b a : bp_wf b -> is_u16 a -> mem_in b a = true.
Proof.
  unfold bp_wf, mem_in, is_u16. intros -> Ha.
  rewrite (proj2 (Z.leb_le _ _)), (proj2 (Z.ltb_lt _ _)) by lia. done.
Qed.

(** The breakpoint table is a set of addresses: [Add] succeeds exactly for an
    address without a breakpoint and then adds that address only, [Remove]
    reports whether the address had one and takes away that address only. *)
Theorem breakpoints_are_a_set b a temp :
  bp_wf b -> is_u16 a ->
  exists added removed b1 b2,
    Add b a temp = Some (added, b1) /\ Remove b a = Some (removed, b2) /\ bp_wf b1 /\ bp_wf b2 /\
    (added = true <-> ~ bp_at b a) /\ (removed = true <-> bp_at b a) /\
    forall x, (bp_at b1 x <-> x = a \/ bp_at b x) /\ (bp_at b2 x <-> x <> a /\ bp_at b x).
Proof.
  intros Hb Ha. pose proof (bp_in b a Hb Ha) as Hin.
  destruct (mem_get_in b a Hin) as [v Hv].
  destruct (mem_set_in b a (if temp then 2 else 1) Hin) as (b1 & E1 & S1).
  destruct (mem_set_in b a 0 Hin) as (b2 & E2 & S2).
  assert (H2 : forall x, bp_at b2 x <-> x <> a /\ bp_at b x).
  { intros x. unfold bp_at, IsAddressBreakPoint. destruct (Z.eq_dec x a) as [->|Hne].
    - rewrite (mem_get_set_eq _ _ _ _ E2). simpl. split; [done|by intros []].
    - rewrite (mem_get_set_ne _ _ _ x _ E2) by auto. tauto. }
  assert (H1 : forall x, bp_at b1 x <-> x = a \/ bp_at b x).
  { intros x. unfold bp_at, IsAddressBreakPoint. destruct (Z.eq_dec x a) as [->|Hne].
    - rewrite (mem_get_set_eq _ _ _ _ E1). split; [by left|by destruct temp].
    - rewrite (mem_get_set_ne _ _ _ x _ E1) by auto. split; [by right|by intros [|]]. }
  assert (Hat : bp_at b a <-> negb (v =? 0) = true).
  { unfold bp_at, IsAddressBreakPoint. rewrite Hv. split; congruence. }
  unfold Add, Remove. unfold IsAddressBreakPoint at 1 2. rewrite Hv, E1, E2. unfold bp_wf in *.
  destruct (negb (v =? 0)).
  - exists false, true, b, b2. split; [done|]. split; [done|]. split; [done|]. split; [congruence|].
    split; [by rewrite Hat|]. split; [by rewrite Hat|]. intros x. split; [|apply H2].
    split; [by right|intros [->|]; [by apply Hat|done]].
  - exists true, false, b1, b2. split; [done|]. split; [done|]. split; [congruence|]. split; [congruence|].
    split; [by rewrite Hat|]. split; [by rewrite Hat|]. intros x. split; [apply H1|apply H2].
Qed.

Theorem breakpoints_are_a_set_witness :
  exists b1, Add Clear 0x42 false = Some (true, b1) /\ bp_at b1 0x42 /\ ~ bp_at b1 0x43.
Proof.
  destruct (breakpoints_are_a_set Clear 0x42 false) as (added & removed & b1 & b2 & E & _ & _ & _ & Ha & _ & Hx);
    [done|done|].
  assert (Hn : forall x, is_u16 x -> ~ bp_at Clear x).
  { intros x Hu. unfold bp_at, IsAddressBreakPoint.
    destruct (mem_get Clear x) as [v|] eqn:Ev; [|done]. unfold mem_get in Ev.
    rewrite (bp_in Clear x eq_refl Hu) in Ev. simpl in Ev. rewrite lookup_empty in Ev. by injection Ev as <-. }
  exists b1. destruct added; [|by destruct (proj2 Ha (Hn 0x42 ltac:(done)))].
  split; [exact E|]. split; [apply Hx; by left|].
  intros H43. apply Hx in H43 as [[=]|H43]. by apply (Hn 0x43).
Defined.
