(* ===== verification/DSPStep.v ===== *)
(** * DSP: the execution of instructions and the run loops

    [ExecuteInstruction], [Step] and the three run loops of
    [DSPInterpreter.cpp].  A loop that runs until its cycle budget is used up
    takes fuel; [RunCycles_fuel] below is enough for every state. *)
From S2P Require Export DSPIntTables.
From S2P Require DSPIntBranch DSPBreakpoints.

Section Step.
Context {H : Type} {HH : DSPHost H}.

Definition ExecuteInstruction (inst : Z) : M (SDSP H) unit :=
  let opcode_template := GetOpTemplate inst in
  mwhen (op_extended opcode_template) (GetExtOp inst inst) ;;;
  GetOp inst inst ;;;
  mwhen (op_extended opcode_template) ApplyWriteBackLog.

Definition AdvanceStepCounter : M (SDSP H) unit :=
  n <- mget m_step_counter ;; mmodify (set_m_step_counter (u64 (n + 1))).

Definition Step : M (SDSP H) unit :=
  CheckExceptions ;;;
  AdvanceStepCounter ;;;
  opc <- FetchInstruction ;;
  ExecuteInstruction opc ;;;
  pc <- get_pc ;;
  loop_end <- IsLoopEnd (u16 (pc - 1)) ;;
  mwhen loop_end DSPIntBranch.HandleLoop.

(** ** Run loops *)

(** What a [for] loop of a run loop comes to: the function returned, it hit a
    breakpoint (and asked for the stepping state), or it goes on. *)
Inductive batch :=
  | Returned (cycles : Z)
  | BreakHit (cycles : Z)
  | Running (cycles : Z).

(** [n] rounds of the body the loops share, with the checks that loop makes. *)
Fixpoint run_batch (check_halt check_idle : bool) (breakpoints : option DSPBreakpoints.DSPBreakpoints)
    (n : nat) (cycles : Z) : M (SDSP H) batch :=
  match n with
  | O => mret (Running cycles)
  | S n' =>
      c <- mget control_reg ;;
      if check_halt && negb (c .& CR_HALT =? 0) then mret (Returned 0) else
      pc <- get_pc ;;
      hit <- match breakpoints with
             | Some b => mopt ArrayBounds (DSPBreakpoints.IsAddressBreakPoint b pc)
             | None => mret false
             end ;;
      if (hit : bool) then mret (BreakHit cycles) else
      idle <- IsIdleSkip pc ;;
      if check_idle && idle then mret (Returned 0) else
      Step ;;;
      let cycles := cycles - 1 in
      if cycles <=? 0 then mret (Returned 0)
      else run_batch check_halt check_idle breakpoints n' cycles
  end.

(** The [while (true)] of [RunCycles] ([halt_200] false) and [RunCyclesDebug]. *)
Fixpoint run_forever (breakpoints : option DSPBreakpoints.DSPBreakpoints) (fuel : nat) (cycles : Z) :
    M (SDSP H) batch :=
  match fuel with
  | O => mfail OutOfFuel
  | S fuel' =>
      r <- run_batch true true breakpoints 8 cycles ;;
      match r with
      | Running cycles =>
          r <- run_batch false false breakpoints 200 cycles ;;
          match r with
          | Running cycles => run_forever breakpoints fuel' cycles
          | _ => mret r
          end
      | _ => mret r
      end
  end.

Definition run_cycles (breakpoints : option DSPBreakpoints.DSPBreakpoints) (fuel : nat) (cycles : Z) :
    M (SDSP H) batch :=
  r <- run_batch true false breakpoints 8 cycles ;;
  match r with
  | Running cycles => run_forever breakpoints fuel cycles
  | _ => mret r
  end.

(** Every turn of [run_forever] uses up 208 of the cycles. *)
Definition RunCycles_fuel (cycles : Z) : nat := S (Z.to_nat cycles).

(** [RunCycles]: the cycles it returns. *)
Definition RunCycles (cycles : Z) : M (SDSP H) Z :=
  r <- run_cycles None (RunCycles_fuel cycles) cycles ;;
  match r with
  | Returned c | BreakHit c | Running c => mret c
  end.

(** [RunCyclesDebug]: the cycles it returns and whether it asked for the stepping state. *)
Definition RunCyclesDebug (b : DSPBreakpoints.DSPBreakpoints) (cycles : Z) : M (SDSP H) (Z * bool) :=
  r <- run_cycles (Some b) (RunCycles_fuel cycles) cycles ;;
  match r with
  | BreakHit c => mret (c, true)
  | Returned c | Running c => mret (c, false)
  end.

(** [RunCyclesThread] *)
Fixpoint RunCyclesThread_loop (fuel : nat) (cycles : Z) : M (SDSP H) Z :=
  match fuel with
  | O => mfail OutOfFuel
  | S fuel' =>
      c <- mget control_reg ;;
      if negb (c .& CR_HALT =? 0) then mret 0 else
      w <- mget external_interrupt_waiting ;;
      mmodify (set_external_interrupt_waiting false) ;;;
      mwhen w CheckExternalInterrupt ;;;
      Step ;;;
      let cycles := cycles - 1 in
      if cycles <=? 0 then mret 0 else RunCyclesThread_loop fuel' cycles
  end.
Definition RunCyclesThread (cycles : Z) : M (SDSP H) Z :=
  RunCyclesThread_loop (RunCycles_fuel cycles) cycles.

(** ** Safety *)

Lemma safe_ExecuteInstruction inst : dsafe (H:=H) (ExecuteInstruction inst) any.
Proof. unfold ExecuteInstruction. safe_auto. Qed.
Lemma safe_AdvanceStepCounter : dsafe (H:=H) AdvanceStepCounter any.
Proof.
  unfold AdvanceStepCounter. eapply dsafe_bind; [by apply (dsafe_get m_step_counter any)|].
  intros n _. apply dsafe_modify. wf_set.
Qed.
#[local] Hint Resolve safe_ExecuteInstruction safe_AdvanceStepCounter : safe.

(** One step from a well-formed state ends in a well-formed state; the only
    faults it can end in are those of a DMA the program starts. *)
Lemma safe_Step : dsafe (H:=H) Step any.
Proof. unfold Step. safe_auto. Qed.
End Step.
#[export] Hint Resolve safe_Step safe_ExecuteInstruction : safe.
