(* ===== verification/DSPLLE.v ===== *)
(** * DSP: the CPU's side (HW/DSPLLE/DSPLLE.cpp) and the machine as a whole

    The operations the emulated CPU has on the DSP, with the DSP running on
    the CPU's thread (which [DSPLLE::Initialize] makes the case whenever the
    interpreter is the core), the interleavings of those operations with the
    DSP's own instructions, and the invariant of all of them. *)
From S2P Require Export DSPStep.
From S2P Require DSPIntArithmetic DSPIntMultiplier DSPIntLoadStore DSPIntMisc DSPIntBranch DSPIntExtOps.

Section LLE.
Context {H : Type} {HH : DSPHost H}.

(** ** Operations of the CPU *)

Definition DSP_ReadControlRegister : M (SDSP H) Z := ReadControlRegister.

Definition DSP_WriteControlRegister (value : Z) : M (SDSP H) Z :=
  WriteControlRegister value ;;;
  mwhen (negb (value .& CR_EXTERNAL_INT =? 0))
    (CheckExternalInterrupt ;;; CheckExceptions ;;; mret tt) ;;;
  DSP_ReadControlRegister.

Definition DSP_ReadMailBoxHigh (cpu_mailbox : bool) : M (SDSP H) Z :=
  ReadMailboxHigh (if cpu_mailbox then MailboxCPU else MailboxDSP).
Definition DSP_ReadMailBoxLow (cpu_mailbox : bool) : M (SDSP H) Z :=
  ReadMailboxLow (if cpu_mailbox then MailboxCPU else MailboxDSP).
Definition DSP_WriteMailBoxHigh (cpu_mailbox : bool) (value : Z) : M (SDSP H) unit :=
  if cpu_mailbox then WriteMailboxHigh MailboxCPU value else mret tt.
Definition DSP_WriteMailBoxLow (cpu_mailbox : bool) (value : Z) : M (SDSP H) unit :=
  if cpu_mailbox then WriteMailboxLow MailboxCPU value else mret tt.

(** [DSPCore::RunCycles] in the running state: [RunCycles] until no cycles are left. *)
Fixpoint DSPCore_RunCycles (fuel : nat) (cycles : Z) : M (SDSP H) Z :=
  if 0 <? cycles then
    match fuel with
    | O => mfail OutOfFuel
    | S fuel' => c <- RunCycles cycles ;; DSPCore_RunCycles fuel' c
    end
  else mret cycles.

Definition DSP_Update (cycles : Z) : M (SDSP H) unit :=
  let dsp_cycles := cycles ÷ 6 in
  if dsp_cycles <=? 0 then mret tt
  else DSPCore_RunCycles 1 dsp_cycles ;;; mret tt.

(** ** The machine: any interleaving of the two sides *)

Inductive dsp_event :=
  | EvStep                                     (** the DSP executes an instruction *)
  | EvUpdate (cycles : Z)                      (** the CPU gives the DSP a time slice *)
  | EvWriteControl (value : Z)
  | EvReadControl
  | EvReadMailHigh (cpu_mailbox : bool)
  | EvReadMailLow (cpu_mailbox : bool)
  | EvWriteMailHigh (value : Z)
  | EvWriteMailLow (value : Z)
  | EvExternalInterrupt (b : bool)
  | EvHost (h : H).                            (** the rest of the machine moves on *)

Definition event_ok (e : dsp_event) : Prop :=
  match e with
  | EvWriteControl v | EvWriteMailHigh v | EvWriteMailLow v => is_u16 v
  | _ => True
  end.

Definition run_event (e : dsp_event) : M (SDSP H) unit :=
  match e with
  | EvStep => Step
  | EvUpdate cycles => DSP_Update cycles
  | EvWriteControl v => DSP_WriteControlRegister v ;;; mret tt
  | EvReadControl => DSP_ReadControlRegister ;;; mret tt
  | EvReadMailHigh b => DSP_ReadMailBoxHigh b ;;; mret tt
  | EvReadMailLow b => DSP_ReadMailBoxLow b ;;; mret tt
  | EvWriteMailHigh v => DSP_WriteMailBoxHigh true v
  | EvWriteMailLow v => DSP_WriteMailBoxLow true v
  | EvExternalInterrupt b => SetExternalInterrupt b
  | EvHost h => mmodify (set_host h)
  end.

Fixpoint run_events (evs : list dsp_event) : M (SDSP H) unit :=
  match evs with
  | [] => mret tt
  | e :: evs' => run_event e ;;; run_events evs'
  end.
End LLE.

(** ** The invariant *)

Section RunSafe.
Context {H : Type} {HH : DSPHost H}.

(** The result of a batch: how many cycles the loop still has. *)
Definition batch_left (n cycles : Z) (b : batch) : Prop :=
  match b with Running c => c = cycles - n /\ 0 < c | _ => True end.

Lemma safe_breakpoint (bp : option DSPBreakpoints.DSPBreakpoints) pc :
  (forall b, bp = Some b -> DSPBreakpoints.bp_wf b) -> is_u16 pc ->
  dsafe (H:=H)
    (match bp with
     | Some b => mopt ArrayBounds (DSPBreakpoints.IsAddressBreakPoint b pc)
     | None => mret false
     end) any.
Proof.
  intros Hb Hpc. destruct bp as [b|]; [|by apply dsafe_ret].
  apply safe_opt. unfold DSPBreakpoints.IsAddressBreakPoint.
  destruct (DSPBreakpoints.mem_get_in b pc) as [v ->].
  - apply DSPBreakpoints.bp_in; [by apply Hb|done].
  - eexists. split; [done|exact I].
Qed.

Lemma safe_run_batch ch ci bp n cycles :
  (forall b, bp = Some b -> DSPBreakpoints.bp_wf b) ->
  (n <> O -> True) -> (n = O -> 0 < cycles) ->
  dsafe (H:=H) (run_batch ch ci bp n cycles) (batch_left (Z.of_nat n) cycles).
Proof.
  intros Hb _. revert cycles. induction n as [|n IH]; intros cycles H0; cbn [run_batch].
  - apply dsafe_ret. simpl. specialize (H0 eq_refl). lia.
  - eapply dsafe_bind; [apply safe_get_control|intros c Hc].
    apply dsafe_if; intros _; [by apply dsafe_ret|].
    eapply dsafe_bind; [apply safe_get_pc|intros pc Hpc].
    eapply dsafe_bind; [by apply safe_breakpoint|intros hit _].
    apply dsafe_if; intros _; [by apply dsafe_ret|].
    eapply dsafe_bind; [apply safe_IsIdleSkip|intros idle _].
    apply dsafe_if; intros _; [by apply dsafe_ret|].
    eapply dsafe_bind; [apply safe_Step|intros _ _]. cbv zeta.
    apply dsafe_if; intros Hle; [by apply dsafe_ret|]. apply Z.leb_gt in Hle.
    eapply dsafe_weaken; [apply IH; intros; lia|].
    intros [c'|c'|c']; unfold batch_left; auto. intros [-> ?]. lia.
Qed.

Lemma safe_run_forever bp fuel cycles :
  (forall b, bp = Some b -> DSPBreakpoints.bp_wf b) ->
  Z.of_nat fuel > cycles -> 0 < cycles ->
  dsafe (H:=H) (run_forever bp fuel cycles) (fun b => forall c, b <> Running c).
Proof.
  intros Hb. revert cycles. induction fuel as [|fuel IH]; intros cycles Hf Hc; [lia|].
  cbn [run_forever]. eapply dsafe_bind; [by apply safe_run_batch|intros [c1|c1|c1] H1];
    [by apply dsafe_ret..|]. destruct H1 as [-> ?].
  eapply dsafe_bind; [by apply safe_run_batch|intros [c2|c2|c2] H2]; [by apply dsafe_ret..|].
  destruct H2 as [-> ?]. apply IH; lia.
Qed.

Lemma safe_run_cycles bp cycles :
  (forall b, bp = Some b -> DSPBreakpoints.bp_wf b) ->
  dsafe (H:=H) (run_cycles bp (RunCycles_fuel cycles) cycles) (fun b => forall c, b <> Running c).
Proof.
  intros Hb. unfold run_cycles, RunCycles_fuel.
  eapply dsafe_bind; [by apply safe_run_batch|intros [c1|c1|c1] H1]; [by apply dsafe_ret..|].
  destruct H1 as [-> ?]. apply safe_run_forever; [done|lia..].
Qed.

(** A batch without breakpoints never reports one, and returns no cycles. *)
Definition no_break (b : batch) : Prop :=
  match b with Returned c => c = 0 | BreakHit _ => False | Running _ => True end.

Lemma run_batch_no_break ch ci n cycles (s : SDSP H) b s' :
  run_batch ch ci None n cycles s = Done b s' -> no_break b.
Proof.
  revert cycles s. induction n as [|n IH]; intros cycles s; cbn [run_batch].
  - by intros [= <- <-].
  - intros E. apply mbind_inv in E as (c & s1 & _ & E).
    destruct (_ && _) in E; [by injection E as <- <-|].
    apply mbind_inv in E as (pc & s2 & _ & E). apply mbind_inv in E as (hit & s3 & Eh & E).
    injection Eh as <- <-. apply mbind_inv in E as (idle & s4 & _ & E).
    destruct (_ && _) in E; [by injection E as <- <-|].
    apply mbind_inv in E as ([] & s5 & _ & E). cbv zeta in E.
    destruct (_ <=? _) in E; [by injection E as <- <-|]. by apply IH in E.
Qed.

Lemma run_forever_no_break fuel cycles (s : SDSP H) b s' :
  run_forever None fuel cycles s = Done b s' -> no_break b.
Proof.
  revert cycles s. induction fuel as [|fuel IH]; intros cycles s; [done|]. cbn [run_forever].
  intros E. apply mbind_inv in E as (b1 & s1 & E1 & E). apply run_batch_no_break in E1.
  destruct b1; [by injection E as <- <-|done|].
  apply mbind_inv in E as (b2 & s2 & E2 & E). apply run_batch_no_break in E2.
  destruct b2; [by injection E as <- <-|done|]. by apply IH in E.
Qed.

Lemma run_cycles_no_break fuel cycles (s : SDSP H) b s' :
  run_cycles None fuel cycles s = Done b s' -> no_break b.
Proof.
  unfold run_cycles. intros E. apply mbind_inv in E as (b1 & s1 & E1 & E).
  apply run_batch_no_break in E1. destruct b1; [by injection E as <- <-|done|].
  by apply run_forever_no_break in E.
Qed.

Lemma safe_RunCycles cycles : dsafe (H:=H) (RunCycles cycles) (fun c => c = 0).
Proof.
  intros s Hs. unfold RunCycles, mbind.
  pose proof (safe_run_cycles None cycles ltac:(done) s Hs) as Hr.
  destruct (run_cycles _ _ _ _) as [b s'|f] eqn:E; [|done]. destruct Hr as [Hs' Hn].
  apply run_cycles_no_break in E. destruct b as [c|c|c]; [by split|done|]. by destruct (Hn c).
Qed.

Lemma safe_DSP_Update cycles : dsafe (H:=H) (DSP_Update cycles) any.
Proof.
  unfold DSP_Update. cbv zeta. apply dsafe_if; intros E; [by apply dsafe_ret|].
  eapply dsafe_bind with (Q := any); [|intros; by apply dsafe_ret]. cbn [DSPCore_RunCycles].
  apply dsafe_if; intros _; [|by apply dsafe_ret].
  eapply dsafe_bind; [apply safe_RunCycles|]. intros c ->. by apply dsafe_ret.
Qed.

Lemma safe_DSP_WriteControlRegister v : is_u16 v -> dsafe (H:=H) (DSP_WriteControlRegister v) is_u16.
Proof.
  intros. unfold DSP_WriteControlRegister, DSP_ReadControlRegister.
  eapply dsafe_bind; [safe_call|intros _ _].
  eapply dsafe_bind; [|intros _ _; safe_call]. apply dsafe_when. intros _. safe_auto.
Qed.

Lemma safe_run_event e : event_ok e -> dsafe (H:=H) (run_event e) any.
Proof.
  destruct e as [|n|v| |b|b|v|v|b|h]; simpl; intros Hok.
  - apply safe_Step.
  - apply safe_DSP_Update.
  - eapply dsafe_bind; [by apply safe_DSP_WriteControlRegister|intros; by apply dsafe_ret].
  - eapply dsafe_bind; [apply safe_ReadControlRegister|intros; by apply dsafe_ret].
  - eapply dsafe_bind; [apply safe_ReadMailboxHigh|intros; by apply dsafe_ret].
  - eapply dsafe_bind; [apply safe_ReadMailboxLow|intros; by apply dsafe_ret].
  - by apply safe_WriteMailboxHigh.
  - by apply safe_WriteMailboxLow.
  - apply dsafe_modify. wf_set.
  - apply dsafe_modify. wf_set.
Qed.

Lemma safe_run_events evs : Forall event_ok evs -> dsafe (H:=H) (run_events evs) any.
Proof.
  induction 1 as [|e evs He Hevs IH]; simpl; [by apply dsafe_ret|].
  eapply dsafe_bind; [by apply safe_run_event|]. intros _ _. apply IH.
Qed.

Lemma arr_wf_const {A} (P : A -> Prop) n x : P x -> arr_wf (Z.of_nat n) P (replicate n x).
Proof. intros. split; [by rewrite length_replicate|]. by apply Forall_replicate. Qed.

Lemma arr_wf_4 {A} (P : A -> Prop) x : P x -> arr_wf 4 P [x; x; x; x].
Proof. apply (arr_wf_const P 4). Qed.

Lemma initial_regs_wf : wf_regs initial_regs.
Proof.
  constructor; simpl; try apply arr_wf_4; try done; try (by split; [|split]).
  - split; [done|]. do 2 (constructor; [done|]). constructor.
  - split; [done|]. do 2 (constructor; [split; [done|split; [done|left; done]]|]). constructor.
Qed.

Lemma accelerator_reset_wf : wf_accel (mkAccelerator 0 0 0 0 0 0 0 0 0 false).
Proof. constructor; done. Qed.

Lemma mem_wf_intro n fill data :
  is_u16 fill -> map_Forall (fun _ v => is_u16 v) data -> wf_mem n (mkMem n fill data).
Proof. done. Qed.

(** The state [Initialize] leaves is well formed, for ROM images of words. *)
Lemma Initialize_wf irom_contents coef_contents (h : H) :
  map_Forall (fun _ v => is_u16 v) irom_contents ->
  map_Forall (fun _ v => is_u16 v) coef_contents ->
  wf (Initialize irom_contents coef_contents h).
Proof.
  intros Hi Hc. pose proof (map_Forall_empty (fun (_ v : Z) => is_u16 v)) as He.
  constructor; simpl;
    first [ done | apply initial_regs_wf | apply accelerator_reset_wf | by apply (arr_wf_const _ 2)
          | by apply (arr_wf_const _ 5) | by apply arr_wf_4
          | apply arr_wf_4; by apply (arr_wf_const _ 32) ].
Qed.
End RunSafe.

(** * DSP: what an operation leaves alone

    [keeps obs m]: the computation [m] does not change what [obs] observes.
    [Frame obs] lists the fields [obs] must not depend on for every operation
    below the level of the program counter to keep it; [moves k] counts the
    words an operation takes from the instruction stream. *)

Section Keeps.
Context {H : Type}.

Definition keeps {B A} (obs : SDSP H -> B) (m : M (SDSP H) A) : Prop :=
  forall s, match m s with Done _ s' => obs s' = obs s | Fault _ => True end.

(** An observation of none of the fields that instructions write freely. *)
Class Frame {B} (obs : SDSP H -> B) : Prop := {
  fr_r x s : obs (set_r x s) = obs s;
  fr_control x s : obs (set_control_reg x s) = obs s;
  fr_time x s : obs (set_control_reg_init_code_clear_time x s) = obs s;
  fr_ptrs x s : obs (set_reg_stack_ptrs x s) = obs s;
  fr_exceptions x s : obs (set_exceptions x s) = obs s;
  fr_waiting x s : obs (set_external_interrupt_waiting x s) = obs s;
  fr_stacks x s : obs (set_reg_stacks x s) = obs s;
  fr_iram x s : obs (set_iram x s) = obs s;
  fr_dram x s : obs (set_dram x s) = obs s;
  fr_crc x s : obs (set_m_iram_crc x s) = obs s;
  fr_ifx x s : obs (set_m_ifx_regs x s) = obs s;
  fr_accel x s : obs (set_m_accelerator x s) = obs s;
  fr_mailbox x s : obs (set_m_mailbox x s) = obs s;
  fr_flags x s : obs (set_m_code_flags x s) = obs s;
  fr_log x s : obs (set_m_write_back_log x s) = obs s;
  fr_log_idx x s : obs (set_m_write_back_log_idx x s) = obs s;
  fr_host x s : obs (set_host x s) = obs s
}.
(** ... and not of the program counter either. *)
Class PcFrame {B} (obs : SDSP H -> B) : Prop := {
  pcf_frame :: Frame obs;
  fr_pc x s : obs (set_pc x s) = obs s
}.

Lemma keeps_ret {B A} (obs : SDSP H -> B) (a : A) : keeps obs (mret a).
Proof. by intros s. Qed.
Lemma keeps_bind {B A C} (obs : SDSP H -> B) (m : M (SDSP H) A) (k : A -> M (SDSP H) C) :
  keeps obs m -> (forall a, keeps obs (k a)) -> keeps obs (mbind m k).
Proof.
  intros Hm Hk s. unfold mbind. specialize (Hm s). destruct (m s) as [a s'|]; [|done].
  specialize (Hk a s'). destruct (k a s'); [congruence|done].
Qed.
Lemma keeps_get {B A} (obs : SDSP H -> B) (f : SDSP H -> A) : keeps obs (mget f).
Proof. by intros s. Qed.
Lemma keeps_modify {B} (obs : SDSP H -> B) f : (forall s, obs (f s) = obs s) -> keeps obs (mmodify f).
Proof. intros Hf s. apply Hf. Qed.
Lemma keeps_opt {B A} (obs : SDSP H -> B) f (o : option A) : keeps obs (mopt f o).
Proof. by destruct o. Qed.
Lemma keeps_fail {B A} (obs : SDSP H -> B) f : keeps obs (mfail (A := A) f).
Proof. by intros s. Qed.
Lemma keeps_if {B A} (obs : SDSP H -> B) (b : bool) (m1 m2 : M (SDSP H) A) :
  keeps obs m1 -> keeps obs m2 -> keeps obs (if b then m1 else m2).
Proof. by destruct b. Qed.
Lemma keeps_when {B} (obs : SDSP H -> B) (b : bool) m : keeps obs m -> keeps obs (mwhen b m).
Proof. destruct b; [done|intros _; apply keeps_ret]. Qed.
End Keeps.

Create HintDb frame discriminated.
#[export] Hint Constants Opaque : frame.
#[export] Hint Variables Opaque : frame.

Ltac head_of t := lazymatch t with ?f _ => head_of f | _ => t end.

(** [frame_auto] walks a computation; a call without a lemma is unfolded. *)
Ltac frame_setter :=
  first [apply fr_r | apply fr_control | apply fr_time | apply fr_ptrs | apply fr_exceptions
        | apply fr_waiting | apply fr_stacks | apply fr_iram | apply fr_dram | apply fr_crc
        | apply fr_ifx | apply fr_accel | apply fr_mailbox | apply fr_flags | apply fr_log
        | apply fr_log_idx | apply fr_host | apply fr_pc].

Ltac frame_step :=
  lazymatch goal with
  | |- keeps _ (mret _) => apply keeps_ret
  | |- keeps _ (mbind _ _) => apply keeps_bind; [|intros ?]
  | |- keeps _ (if _ then _ else _) => apply keeps_if
  | |- keeps _ (mwhen _ _) => apply keeps_when
  | |- keeps _ (mget _) => apply keeps_get
  | |- keeps _ (mopt _ _) => apply keeps_opt
  | |- keeps _ (mfail _) => apply keeps_fail
  | |- keeps _ (mmodify _) => apply keeps_modify; intros ?; solve [frame_setter]
  | |- keeps _ (let _ := _ in _) => cbv zeta
  | |- keeps _ (match ?x with _ => _ end) => destruct x
  | |- keeps _ ?m =>
      first [ solve [typeclasses eauto with frame nocore typeclass_instances]
            | let h := head_of m in unfold h; cbv beta zeta ]
  end.
Ltac frame_auto := intros; repeat frame_step.

Section Frames.
Context {H : Type} {HH : DSPHost H}.
Context {B : Type} (obs : SDSP H -> B) {HF : Frame obs}.

Lemma keeps_on_regs f : keeps obs (mmodify (on_regs f)).
Proof. apply keeps_modify. intros s. apply fr_r. Qed.
#[local] Hint Resolve keeps_on_regs : frame.


(** ** The accelerator *)

Lemma keeps_run_accel {A} (f : Accelerator -> SDSP H -> A * Accelerator * SDSP H) :
  (forall a s, obs (snd (f a s)) = obs s) -> keeps obs (run_accel f).
Proof.
  intros Hf s. unfold run_accel. specialize (Hf (m_accelerator s) s).
  destruct (f (m_accelerator s) s) as [[v a] s']. simpl in Hf. by rewrite fr_accel.
Qed.

Lemma raise_keeps e s : obs (raise_exception e s) = obs s.
Proof. apply fr_exceptions. Qed.

Lemma ReadRaw_keeps a s : obs (snd (ReadRaw a s)) = obs s.
Proof. unfold ReadRaw. cbv zeta. destruct (_ =? _); simpl; [apply raise_keeps|done]. Qed.
Lemma WriteRaw_keeps v a s : obs (snd (WriteRaw v a s)) = obs s.
Proof.
  unfold WriteRaw. cbv zeta. destruct (negb _); simpl; [|done].
  rewrite raise_keeps. by rewrite !fr_host.
Qed.
Lemma ReadSample_keeps c a s : obs (snd (ReadSample c a s)) = obs s.
Proof.
  unfold ReadSample. cbv zeta.
  repeat first [done | apply raise_keeps | case_match; simpl; simplify_eq].
Qed.

Lemma keeps_accel_raw : keeps obs (run_accel ReadRaw).
Proof. apply keeps_run_accel, ReadRaw_keeps. Qed.
Lemma keeps_accel_sample : keeps obs (run_accel (fun x s => ReadSample (ifx_coefs s) x s)).
Proof. apply keeps_run_accel. intros. apply ReadSample_keeps. Qed.
Lemma keeps_accel_write v :
  keeps obs (run_accel (fun x s => let '(x', s') := WriteRaw v x s in (tt, x', s'))).
Proof.
  apply keeps_run_accel. intros a s. pose proof (WriteRaw_keeps v a s).
  by destruct (WriteRaw v a s).
Qed.
#[local] Hint Resolve keeps_accel_raw keeps_accel_sample keeps_accel_write : frame.

(** ** The analyzer *)

Lemma keeps_add_flag a f : keeps obs (add_flag a f).
Proof. frame_auto. Qed.
#[local] Hint Resolve keeps_add_flag : frame.
Lemma keeps_FindInstructionStarts fuel a e : keeps obs (FindInstructionStarts fuel a e).
Proof. revert a. induction fuel as [|fuel IH]; intros a; simpl; frame_auto. Qed.
Lemma keeps_MatchIdleSig sig a b : keeps obs (MatchIdleSig sig a b).
Proof. revert a b. induction sig as [|x sig IH]; intros a b; simpl; frame_auto. Qed.
#[local] Hint Resolve keeps_FindInstructionStarts keeps_MatchIdleSig : frame.
Lemma keeps_FindIdleSig sig n a : keeps obs (FindIdleSig sig n a).
Proof. revert a. induction n as [|n IH]; intros a; simpl; frame_auto. Qed.
#[local] Hint Resolve keeps_FindIdleSig : frame.
Lemma keeps_FindIdleSkips sigs a e : keeps obs (FindIdleSkips sigs a e).
Proof. induction sigs as [|sig sigs IH]; simpl; frame_auto. Qed.
#[local] Hint Resolve keeps_FindIdleSkips : frame.
Lemma keeps_Analyze : keeps obs Analyze.
Proof. frame_auto. Qed.
#[local] Hint Resolve keeps_Analyze : frame.

(** ** Memory and registers *)

Lemma keeps_DoDMA : keeps obs DoDMA.
Proof. frame_auto. Qed.
#[local] Hint Resolve keeps_DoDMA : frame.
Lemma keeps_WriteDMEM a v : keeps obs (WriteDMEM a v).
Proof. frame_auto. Qed.
Lemma keeps_ReadDMEM a : keeps obs (ReadDMEM a).
Proof. frame_auto. Qed.
Lemma keeps_StoreStack reg v : keeps obs (StoreStack reg v).
Proof. frame_auto. Qed.
Lemma keeps_PopStack reg : keeps obs (PopStack reg).
Proof. frame_auto. Qed.
#[local] Hint Resolve keeps_StoreStack keeps_PopStack : frame.
Lemma keeps_OpReadRegister reg : keeps obs (OpReadRegister reg).
Proof. frame_auto. Qed.
Lemma keeps_OpWriteRegister reg v : keeps obs (OpWriteRegister reg v).
Proof. frame_auto. Qed.
#[local] Hint Resolve keeps_OpWriteRegister : frame.
Lemma keeps_ApplyWriteBackLog_loop fuel i : keeps obs (ApplyWriteBackLog_loop fuel i).
Proof. revert i. induction fuel as [|fuel IH]; intros i; simpl; frame_auto. Qed.
End Frames.

#[export] Hint Resolve keeps_on_regs keeps_accel_raw keeps_accel_sample keeps_accel_write
  keeps_Analyze keeps_DoDMA keeps_WriteDMEM keeps_ReadDMEM keeps_StoreStack keeps_PopStack
  keeps_OpReadRegister keeps_OpWriteRegister keeps_ApplyWriteBackLog_loop : frame.

(** ** The program counter included *)

Section PcFrames.
Context {H : Type} {HH : DSPHost H}.
Context {B : Type} (obs : SDSP H -> B) {HF : PcFrame obs}.

Lemma keeps_CheckExceptions_loop l : keeps obs (CheckExceptions_loop l).
Proof. induction l as [|i l IH]; simpl; frame_auto. Qed.
#[local] Hint Resolve keeps_CheckExceptions_loop : frame.
Lemma keeps_CheckExceptions : keeps obs CheckExceptions.
Proof. frame_auto. Qed.
Lemma keeps_HandleLoop : keeps obs DSPIntBranch.HandleLoop.
Proof. frame_auto. Qed.
Lemma keeps_FetchInstruction : keeps obs FetchInstruction.
Proof. frame_auto. Qed.
#[local] Hint Resolve keeps_CheckExceptions keeps_HandleLoop keeps_FetchInstruction : frame.

Definition op_keeps (f : Z -> M (SDSP H) unit) : Prop := forall opc, keeps obs (f opc).
Ltac op_keeps_entry := intros opc; cbn [io_function]; solve [frame_auto].

Lemma int_opcodes_plain_keeps : Forall (fun e => op_keeps (io_function e)) int_opcodes_plain.
Proof. repeat (constructor; [op_keeps_entry|]). constructor. Qed.
Lemma int_opcodes_extended_keeps : Forall (fun e => op_keeps (io_function e)) int_opcodes_extended.
Proof. repeat (constructor; [op_keeps_entry|]). constructor. Qed.
Lemma int_opcodes_ext_keeps : Forall (fun e => op_keeps (io_function e)) int_opcodes_ext.
Proof. repeat (constructor; [op_keeps_entry|]). constructor. Qed.

Lemma find_op_keeps inst opc data :
  Forall (fun e => op_keeps (io_function e)) data ->
  keeps obs (match FindByOpcode io_opcode io_mask inst data with
             | Some info => io_function info | None => nop end opc).
Proof.
  intros Hd. destruct (FindByOpcode _ _ _ _) eqn:E; [|apply keeps_ret].
  apply FindByOpcode_some in E as [Hin _]. rewrite List.Forall_forall in Hd. by apply Hd.
Qed.

Lemma keeps_GetOp inst opc : keeps obs (GetOp inst opc).
Proof.
  apply find_op_keeps, Forall_app; split; [apply int_opcodes_plain_keeps|apply int_opcodes_extended_keeps].
Qed.
Lemma keeps_GetExtOp_pc inst opc : keeps obs (GetExtOp inst opc).
Proof. apply find_op_keeps, int_opcodes_ext_keeps. Qed.
#[local] Hint Resolve keeps_GetOp keeps_GetExtOp_pc : frame.
Lemma keeps_ExecuteInstruction inst : keeps obs (ExecuteInstruction inst).
Proof. unfold ExecuteInstruction. frame_auto. Qed.
#[local] Hint Resolve keeps_ExecuteInstruction : frame.

(** A step keeps what depends on neither the program counter nor the step counter. *)
Lemma keeps_Step : (forall x s, obs (set_m_step_counter x s) = obs s) -> keeps obs Step.
Proof.
  intros Hc. assert (Ha : keeps obs AdvanceStepCounter).
  { apply keeps_bind; [apply keeps_get|intros n]. apply keeps_modify. intros s. apply Hc. }
  unfold Step. frame_auto.
Qed.
End PcFrames.

#[export] Hint Resolve keeps_CheckExceptions keeps_HandleLoop keeps_FetchInstruction
  keeps_ExecuteInstruction : frame.

Section ExtFrames.
Context {H : Type} {HH : DSPHost H} {B : Type} (obs : SDSP H -> B) {HF : Frame obs}.

(** The extensions keep the program counter as well. *)
Lemma keeps_GetExtOp inst opc : keeps obs (GetExtOp inst opc).
Proof.
  assert (Hd : Forall (fun e => forall opc, keeps obs (io_function e opc)) (int_opcodes_ext (H := H))).
  { repeat (constructor; [cbv beta; intros x; cbn [io_function]; solve [frame_auto]|]). constructor. }
  unfold GetExtOp. destruct (FindByOpcode _ _ _ _) eqn:E; [|apply keeps_ret].
  apply FindByOpcode_some in E as [Hin _]. rewrite List.Forall_forall in Hd. by apply Hd.
Qed.
End ExtFrames.
#[export] Hint Resolve keeps_GetExtOp : frame.

(** ** What no event changes *)

Section Events.
Context {H : Type} {HH : DSPHost H}.

Definition roms (s : SDSP H) : Mem * Mem := (irom s, coef s).
#[local] Instance roms_frame : PcFrame roms.
Proof. split; [split|]; intros; by destruct s. Qed.

Lemma keeps_roms_Step : keeps roms Step.
Proof. by apply (keeps_Step roms). Qed.
#[local] Hint Resolve keeps_roms_Step : frame.

Lemma keeps_roms_run_batch ch ci bp n cycles : keeps roms (run_batch ch ci bp n cycles).
Proof. revert cycles. induction n as [|n IH]; intros cycles; simpl; frame_auto. Qed.
#[local] Hint Resolve keeps_roms_run_batch : frame.
Lemma keeps_roms_run_forever bp fuel cycles : keeps roms (run_forever bp fuel cycles).
Proof. revert cycles. induction fuel as [|fuel IH]; intros cycles; cbn [run_forever]; frame_auto. Qed.
#[local] Hint Resolve keeps_roms_run_forever : frame.
Lemma keeps_roms_RunCycles cycles : keeps roms (RunCycles cycles).
Proof. unfold RunCycles, run_cycles. frame_auto. Qed.
#[local] Hint Resolve keeps_roms_RunCycles : frame.
Lemma keeps_roms_DSPCore_RunCycles fuel cycles : keeps roms (DSPCore_RunCycles fuel cycles).
Proof. revert cycles. induction fuel as [|fuel IH]; intros cycles; cbn [DSPCore_RunCycles]; frame_auto. Qed.
#[local] Hint Resolve keeps_roms_DSPCore_RunCycles : frame.
Lemma keeps_roms_event e : keeps roms (run_event e).
Proof. destruct e; cbn [run_event]; frame_auto. Qed.
#[local] Hint Resolve keeps_roms_event : frame.

Lemma keeps_roms_events evs : keeps roms (run_events evs).
Proof. induction evs as [|e evs IH]; cbn [run_events]; frame_auto. Qed.

(** The instruction ROM and the coefficient ROM are read-only: no instruction,
    no DMA, no CPU access and no time slice changes them. *)
Theorem roms_are_read_only evs (s : SDSP H) :
  match run_events evs s with
  | Done _ s' => irom s' = irom s /\ coef s' = coef s
  | Fault _ => True
  end.
Proof.
  pose proof (keeps_roms_events evs s) as Hk. destruct (run_events evs s) as [a s'|]; [|done].
  unfold roms in Hk. by injection Hk.
Qed.
End Events.
