(* ===== verification/GameCubeHost.v ===== *)
(** * The host of the DSP core on a GameCube

    What [HW/DSPLLE/DSPHost.cpp] makes of the emulated machine when it is a
    GameCube: main memory as [Memmap] models it and the auxiliary memory of
    [HW/DSP.cpp].  It is an instance of [DSPHost], so the theorems about the DSP
    core apply to it. *)
From S2P Require Export DSPLLE.
From S2P Require Memmap.

Definition ARAM_SIZE : Z := 0x01000000.
Definition ARAM_MASK : Z := 0x00FFFFFF.

(** The interrupts requested so far and the exception checks asked for are counted. *)
Record GCHost := mkGCHost {
  gc_memory : Memmap.MemoryManager;
  m_aram : gmap Z Z;
  gc_interrupts : Z;
  gc_time_base : Z;
  gc_checks : Z
}.

Definition ReadARAM (h : GCHost) (address : Z) : Z := Memmap.byte_at (m_aram h) (address .& ARAM_MASK).
Definition WriteARAM (h : GCHost) (value address : Z) : GCHost :=
  mkGCHost (gc_memory h) (<[address .& ARAM_MASK := value]> (m_aram h)) (gc_interrupts h)
    (gc_time_base h) (gc_checks h).
Definition set_gc_memory (m : Memmap.MemoryManager) (h : GCHost) : GCHost :=
  mkGCHost m (m_aram h) (gc_interrupts h) (gc_time_base h) (gc_checks h).

Definition gc_range_valid (h : GCHost) (address size : Z) : bool :=
  match Memmap.GetPointerForRange (gc_memory h) address size with Some _ => true | None => false end.
Definition gc_bytes (h : GCHost) (address size : Z) : list Z :=
  match Memmap.GetPointerForRange (gc_memory h) address size with
  | Some p => Memmap.load (gc_memory h) p (Z.to_nat size)
  | None => []
  end.

#[export] Program Instance GameCubeHost : DSPHost GCHost := {
  ReadHostMemory := ReadARAM;
  WriteHostMemory := WriteARAM;
  RangeValid := gc_range_valid;
  EmuBytes := gc_bytes;
  CopyFromEmuSwapped h address size :=
    Memmap.CopyFromEmuSwapped (gc_memory h) (replicate (Z.to_nat (size / 2)) 0) address size;
  CopyToEmuSwapped h address ws :=
    set_gc_memory (Memmap.CopyToEmuSwapped (gc_memory h) address ws (2 * Z.of_nat (length ws))) h;
  InterruptRequest h :=
    mkGCHost (gc_memory h) (m_aram h) (gc_interrupts h + 1) (gc_time_base h) (gc_checks h);
  GetFakeTimeBase := gc_time_base;
  ForceExceptionCheck h cycles :=
    mkGCHost (gc_memory h) (m_aram h) (gc_interrupts h) (gc_time_base h) (gc_checks h + 1)
}.
Next Obligation. intros. apply Memmap.byte_at_u8. Qed.
Next Obligation. intros. by apply Memmap.CopyFromEmuSwapped_words, Forall_replicate. Qed.
Next Obligation.
  intros; simpl. rewrite Memmap.length_CopyFromEmuSwapped by apply length_replicate.
  assert (0 <= n / 2) by (apply Z.div_pos; lia). lia.
Qed.
Next Obligation. intros. unfold gc_bytes. case_match; [apply Memmap.load_u8|constructor]. Qed.

(** The host of a machine just switched on. *)
Definition gc_reset : GCHost :=
  mkGCHost (Memmap.Init Memmap.MEM1_SIZE_RETAIL Memmap.MEM2_SIZE_RETAIL false) ∅ 0 0 0.

(** * DSP: sample machines

    The machine of a GameCube just switched on, with chosen registers: the
    concrete inputs of the examples. *)

(** Power-on, with empty ROMs. *)
Definition gc_init : SDSP GCHost := Initialize ∅ ∅ gc_reset.

Lemma gc_init_wf : wf gc_init.
Proof. by apply Initialize_wf; apply map_Forall_empty. Qed.

(** Given accumulators and auxiliary accumulators. *)
Definition sample (a0 a1 : Z) (x0 x1 : Ax) : SDSP GCHost :=
  on_regs (fun q => set_r_ax [x0; x1] (set_r_ac [acc_of_val a0; acc_of_val a1] q)) gc_init.

Lemma arr_wf_2 {A} (P : A -> Prop) x y : P x -> P y -> arr_wf 2 P [x; y].
Proof. intros. split; [done|]. by repeat constructor. Qed.

Lemma sample_wf a0 a1 x0 x1 :
  is_s40 a0 -> is_s40 a1 -> wf_ax x0 -> wf_ax x1 -> wf (sample a0 a1 x0 x1).
Proof.
  intros. apply wf_on_regs; [apply gc_init_wf|]. intros q Hq. wf_regs_set.
  - by apply arr_wf_2.
  - by apply arr_wf_2; apply acc_of_val_wf.
Qed.

(** The side conditions of [sample_wf] at constants. *)
Ltac sample_side := apply sample_wf; repeat split; vm_compute; congruence.

(** The machine with accumulators only. *)
Definition accs (a0 a1 : Z) : SDSP GCHost := sample a0 a1 (mkAx 0 0) (mkAx 0 0).

Lemma accs_wf a0 a1 : is_s40 a0 -> is_s40 a1 -> wf (accs a0 a1).
Proof. intros. by apply sample_wf. Qed.

(** Whether a run ended normally. *)
Definition is_done {S A} (o : outcome S A) : bool := match o with Done _ _ => true | Fault _ => false end.
