(* ===== verification/DSPAddressing.v ===== *)
(** * DSP: circular addressing

    The address registers step through a ring buffer: register [wr] holds its
    length minus one, and the buffer ends at the end of an aligned block of
    [wrap_block wr] words.  The code finds the wrap-around from the carry
    chain of a 32-bit addition; the theorems show that, inside the buffer, it
    is arithmetic modulo the length of the buffer. *)
From S2P Require Export GameCubeHost.

(** The smallest power of two above [wr], and at least 2. *)
Definition wrap_block (wr : Z) : Z := 2 ^ (Z.log2 (wr .| 1) + 1).
(** The first word of the ring buffer of [ar]. *)
Definition ring_start (ar wr : Z) : Z := ar - ar mod wrap_block wr + (wrap_block wr - 1 - wr).
(** The address [n] words after [ar] in its ring buffer. *)
Definition ring_next (ar wr n : Z) : Z :=
  ring_start ar wr + (ar - ring_start ar wr + n) mod (wr + 1).

(** A step of any size from any address: the sum, taken back by the length of the
    buffer when the offset in the block overflows, or put forward by it when the
    offset borrows or the sum lies before the buffer of its block. *)
Definition increased (ar wr ix : Z) : Z :=
  let P := wrap_block wr in
  if 0 <=? ix then ar + ix - (if P <=? ar mod P + ix mod P then wr + 1 else 0)
  else ar + ix + (if (0 <? (- ix) mod P) && ((- ix) mod P <=? ar mod P) && (P - 1 - wr <=? (ar + ix) mod P) then 0 else wr + 1).
(** -0x8000 has no negation in 16 bits and counts as a step back. *)
Definition decreased (ar wr ix : Z) : Z :=
  let P := wrap_block wr in
  if (-0x8000 <? ix) && (ix <? 0) then
    ar - ix - (if ((- ix) mod P =? 0) || (P <=? ar mod P + (- ix) mod P) then wr + 1 else 0)
  else ar - ix + (if (ix mod P <=? ar mod P) && (P - 1 - wr <=? (ar - ix) mod P) then 0 else wr + 1).

(** ** The carry chain *)

(** [carry_into_bit] with a carry in. *)
Lemma carry_into_bit_in a b c n :
  0 <= n -> 0 <= c <= 1 ->
  Z.testbit ((a + b + c) .^ a .^ b) n = (2 ^ n <=? a mod 2 ^ n + b mod 2 ^ n + c).
Proof.
  intros Hn Hc. rewrite !Z.lxor_spec, !testbit_odd_div by done.
  assert (Hp : 0 < 2 ^ n) by (apply Z.pow_pos_nonneg; lia).
  pose proof (Z.div_mod a (2 ^ n) ltac:(lia)) as Ea.
  pose proof (Z.div_mod b (2 ^ n) ltac:(lia)) as Eb.
  pose proof (Z.mod_pos_bound a (2 ^ n) Hp) as Ba.
  pose proof (Z.mod_pos_bound b (2 ^ n) Hp) as Bb.
  set (P := 2 ^ n) in *. set (qa := a / P) in *. set (qb := b / P) in *.
  set (ra := a mod P) in *. set (rb := b mod P) in *.
  destruct (Z.leb_spec P (ra + rb + c)).
  - replace ((a + b + c) / P) with (qa + qb + 1)
      by (apply Z.div_unique with (ra + rb + c - P); lia).
    rewrite !Z.odd_add. by destruct (Z.odd qa), (Z.odd qb).
  - replace ((a + b + c) / P) with (qa + qb) by (apply Z.div_unique with (ra + rb + c); lia).
    rewrite !Z.odd_add. by destruct (Z.odd qa), (Z.odd qb).
Qed.

(** Bits below 32 do not see the truncation to 32 bits. *)
Section Ring.
Context (wr : Z) (Hwr : is_u16 wr).
Let w := wr .| 1.
Let k := Z.log2 w.
Let P := wrap_block wr.

Lemma w_bounds : wr <= w <= wr + 1 /\ 1 <= w < 0x10000.
Proof.
  unfold w. assert (E : wr .| 1 = wr + 1 - wr mod 2).
  { destruct (Z.even wr) eqn:Ev; pose proof (Zmod_even wr) as Em; rewrite Ev in Em.
    - rewrite lor_disjoint_add; [lia|].
      rewrite (land_ones_mod 1) by (lia || done). done.
    - assert (wr = wr .| 1) as <-; [|lia]. symmetry. apply Z.bits_inj'. intros n Hn.
      rewrite Z.lor_spec. destruct (Z.eq_dec n 0) as [->|Hne].
      + rewrite Z.bit0_odd, <- Z.negb_even, Ev. done.
      + change 1 with (2 ^ 0). rewrite Z.pow2_bits_false by lia. by rewrite orb_false_r. }
  rewrite E. unfold is_u16 in Hwr. Z.div_mod_to_equations. lia.
Qed.

Lemma k_bounds : 0 <= k <= 15.
Proof.
  pose proof w_bounds as [_ ?]. split; [apply Z.log2_nonneg|].
  assert (k < 16) by (apply Z.log2_lt_pow2; lia). lia.
Qed.

Lemma P_eq : P = 2 ^ (k + 1) /\ P = 2 * 2 ^ k.
Proof. pose proof k_bounds. unfold P, wrap_block. fold w k. rewrite Z.pow_add_r by lia. lia. Qed.

Lemma P_bounds : 2 <= P <= 0x10000 /\ wr < P /\ w < P /\ 2 ^ k <= w.
Proof.
  pose proof k_bounds. pose proof w_bounds. destruct P_eq as [E1 E2].
  destruct (Z.log2_spec w ltac:(lia)) as [L1 L2]. fold k in L1, L2.
  assert (2 ^ (k + 1) <= 2 ^ 16) by (apply Z.pow_le_mono_r; lia).
  assert (2 ^ 0 <= 2 ^ k) by (apply Z.pow_le_mono_r; lia).
  rewrite <- Z.add_1_r in L2. lia.
Qed.

(** The comparison [> wr] of a value masked with [(wr | 1) << 1] tests the
    mask's top bit. *)
Lemma masked_gt_wr x : (wr <? x .& (w .<< 1)) = Z.testbit x (k + 1).
Proof.
  pose proof k_bounds as Hk. pose proof w_bounds as Hw. pose proof P_bounds as HP.
  destruct P_eq as [E1 E2]. rewrite Z.shiftl_mul_pow2 by lia. change (2 ^ 1) with 2.
  assert (Htop : Z.testbit (w * 2) (k + 1) = true).
  { rewrite testbit_odd_div by lia. rewrite <- E1. replace (w * 2 / P) with 1; [done|]. apply Z.div_unique with (w * 2 - P); lia. }
  destruct (Z.testbit x (k + 1)) eqn:Ex.
  - apply Z.ltb_lt. assert (P <= x .& (w * 2)); [|lia].
    assert (Hb : Z.testbit (x .& (w * 2)) (k + 1) = true) by (by rewrite Z.land_spec, Ex, Htop).
    assert (0 <= x .& (w * 2)) by (apply Z.land_nonneg; lia).
    destruct (Z.lt_ge_cases (x .& (w * 2)) P) as [Hlt|]; [|lia].
    assert (Hr : 0 <= x .& (w * 2) < 2 ^ (k + 1)) by lia.
    apply (bits_above_pow2 _ (k + 1)) in Hr as [_ Hr]; [|lia].
    rewrite Hr in Hb by lia. done.
  - apply Z.ltb_ge. assert (E : x .& (w * 2) = x .& (w * 2 - P)).
    { assert (w * 2 - P = Z.ldiff (w * 2) P) as ->.
      { rewrite <- Z.sub_nocarry_ldiff; [done|]. rewrite E1. apply Z.bits_inj'. intros n Hn.
        rewrite Z.ldiff_spec, Z.bits_0, Z.pow2_bits_eqb by lia.
        destruct (Z.eqb_spec (k + 1) n) as [<-|]; [by rewrite Htop|done]. }
      apply Z.bits_inj'. intros n Hn. rewrite !Z.land_spec, Z.ldiff_spec, E1, Z.pow2_bits_eqb by lia.
      destruct (Z.eqb_spec (k + 1) n) as [<-|]; [by rewrite Ex|by rewrite andb_true_r]. }
    rewrite E. pose proof (land_mask_range x (w * 2 - P) ltac:(lia)). lia.
Qed.

Lemma masked_le_wr x : (x .& (w .<< 1) <=? wr) = negb (Z.testbit x (k + 1)).
Proof. rewrite <- masked_gt_wr. by rewrite Z.leb_antisym. Qed.

(** The block's arithmetic: [a] is the offset of [ar] in its block. *)
Context (ar : Z) (Har : is_u16 ar).
Let a := ar mod P.

Lemma u32_mod_P x : u32 x mod P = x mod P.
Proof.
  pose proof k_bounds. destruct P_eq as [E _]. unfold u32.
  replace 0x100000000 with (2 ^ (k + 1) * 2 ^ (31 - k)).
  - rewrite E. apply Z.mod_mod_divide. exists (2 ^ (31 - k)). lia.
  - rewrite <- Z.pow_add_r by lia. replace (k + 1 + (31 - k)) with 32 by lia. done.
Qed.

Lemma carry_u32 x y c :
  0 <= c <= 1 ->
  Z.testbit (u32 (x + y + c) .^ x .^ y) (k + 1) = (P <=? x mod P + y mod P + c).
Proof.
  intros Hc. pose proof k_bounds. destruct P_eq as [E _].
  rewrite E, <- carry_into_bit_in by lia.
  rewrite !Z.lxor_spec, testbit_u32 by lia. done.
Qed.

(** The second test of the code: adding the length of the buffer to [nar]
    leaves [nar]'s block. *)
Lemma length_carry nar :
  Z.testbit (u32 (nar + wr + 1) .^ nar) (k + 1) = (P <=? nar mod P + wr + 1).
Proof.
  pose proof k_bounds. pose proof P_bounds as HP. destruct P_eq as [E _].
  assert (Hp : 0 < P) by lia. pose proof (Z.mod_pos_bound nar P Hp) as Hn.
  unfold is_u16 in Hwr.
  pose proof (carry_u32 nar (wr + 1) 0 ltac:(lia)) as Hc. rewrite !Z.add_0_r, Z.add_assoc in Hc.
  rewrite Z.lxor_spec in Hc. replace (nar + (wr + 1)) with (nar + wr + 1) in Hc by lia.
  assert (Hb : Z.testbit (wr + 1) (k + 1) = (P <=? wr + 1)).
  { rewrite testbit_odd_div, <- E by lia. destruct (Z.leb_spec P (wr + 1)).
    - replace ((wr + 1) / P) with 1; [done|]. apply Z.div_unique with (wr + 1 - P); lia.
    - rewrite Z.div_small by lia. done. }
  rewrite Hb in Hc. destruct (Z.leb_spec P (wr + 1)) as [Hle|Hlt].
  - assert (wr + 1 = P) by lia. rewrite (proj2 (Z.leb_le _ _)) by lia.
    replace ((wr + 1) mod P) with 0 in Hc by (replace (wr + 1) with P by lia; by rewrite Z.mod_same by lia).
    rewrite (proj2 (Z.leb_gt _ _)) in Hc by lia. by destruct (Z.testbit _ _).
  - rewrite (Z.mod_small (wr + 1)) in Hc by lia. rewrite xorb_false_r in Hc. rewrite Hc. f_equal; lia.
Qed.

Lemma block_bounds : 0 <= a < P /\ 0 <= ar - a /\ ar - a + P <= 0x10000.
Proof.
  pose proof k_bounds. pose proof P_bounds as HP. destruct P_eq as [E _]. unfold is_u16 in Har.
  assert (0 <= a < P) by (apply Z.mod_pos_bound; lia).
  assert (ar = P * (ar / P) + a) by (apply Z.div_mod; lia).
  pose proof (Z.div_pos ar P ltac:(lia) ltac:(lia)).
  assert (E16 : 0x10000 = P * 2 ^ (15 - k)).
  { rewrite E, <- Z.pow_add_r by lia. replace (k + 1 + (15 - k)) with 16 by lia. done. }
  assert (ar / P < 2 ^ (15 - k)) by (apply Z.div_lt_upper_bound; lia). nia.
Qed.

Lemma mod_P_near v c : 0 <= v + c * P < P -> v mod P = v + c * P.
Proof. intros. symmetry. apply Z.mod_unique with (- c); lia. Qed.

Lemma ar_plus_mod n : (ar + n) mod P = (a + n) mod P.
Proof. unfold a. pose proof P_bounds. by rewrite Z.add_mod_idemp_l by lia. Qed.

Lemma u32_sub_u32 x y : u32 (u32 x - u32 y) = u32 (x - y).
Proof. zlia. Qed.
Lemma u32_add_u32_l x y : u32 (u32 x + y) = u32 (x + y).
Proof. zlia. Qed.
Lemma u32_add_u32_r x y : u32 (x + u32 y) = u32 (x + y).
Proof. zlia. Qed.
Lemma u16_of_u32 x : u16 (u32 x) = u16 x.
Proof. zlia. Qed.

(** Without any condition on the address or on the size of the step. *)
Lemma increase_total ix : is_s16 ix -> increase_ar ar wr ix = u16 (increased ar wr ix).
Proof.
  intros Hs. pose proof P_bounds as HP. pose proof block_bounds as (Ha & _).
  unfold is_u16, is_s16 in *. unfold increase_ar, increased. fold w P a. cbv zeta.
  rewrite Z.land_assoc, masked_gt_wr, masked_le_wr, Z.land_spec by done. fold w k.
  pose proof (carry_u32 ar (u32 ix) 0 ltac:(lia)) as Hc. rewrite !Z.add_0_r, u32_mod_P in Hc.
  fold a in Hc. rewrite Hc, length_carry, !u32_add_u32_r, u32_mod_P.
  destruct (Z.leb_spec 0 ix) as [H0|H0].
  - destruct (Z.leb_spec P (a + ix mod P)); [rewrite u32_sub_u32|]; rewrite u16_of_u32; f_equal; lia.
  - assert (E : (P <=? a + ix mod P) = (0 <? (- ix) mod P) && ((- ix) mod P <=? a)).
    { pose proof (Z.mod_pos_bound ix P ltac:(lia)).
      destruct (Z.eq_dec (ix mod P) 0) as [E|E].
      - rewrite E, Z.mod_opp_l_z by lia. apply Z.leb_gt. lia.
      - rewrite Z.mod_opp_l_nz by lia. rewrite (proj2 (Z.ltb_lt 0 _)) by lia.
        destruct (Z.leb_spec P (a + ix mod P)), (Z.leb_spec (P - ix mod P) a); lia. }
    assert (E2 : (P <=? (ar + ix) mod P + wr + 1) = (P - 1 - wr <=? (ar + ix) mod P)).
    { destruct (Z.leb_spec P ((ar + ix) mod P + wr + 1)), (Z.leb_spec (P - 1 - wr) ((ar + ix) mod P)); lia. }
    rewrite E, E2, (andb_comm (P - 1 - wr <=? _)), u32_add_u32_l.
    destruct ((0 <? _) && _), (P - 1 - wr <=? _); simpl; rewrite u16_of_u32; f_equal; lia.
Qed.
Lemma decrease_total ix : is_s16 ix -> decrease_ar ar wr ix = u16 (decreased ar wr ix).
Proof.
  intros Hs. pose proof P_bounds as HP. pose proof block_bounds as (Ha & _).
  unfold is_u16, is_s16 in *. unfold decrease_ar, decreased. fold w P a. cbv zeta.
  rewrite Z.land_assoc, masked_gt_wr, masked_le_wr, Z.land_spec by done. fold w k.
  assert (Hn : u32 (ar - u32 ix) = u32 (ar + u32 (.~ ix) + 1)) by (unfold Z.lnot; rewrite <- Z.sub_1_r; zlia).
  pose proof (carry_u32 ar (u32 (.~ ix)) 1 ltac:(lia)) as Hc. rewrite u32_mod_P in Hc. fold a in Hc.
  rewrite Hn, Hc, length_carry, u32_mod_P, <- Hn. clear Hc.
  replace ((ar + u32 (.~ ix) + 1) mod P) with ((ar - ix) mod P)
    by (rewrite <- (u32_mod_P (ar + u32 (.~ ix) + 1)), <- Hn, u32_mod_P, <- (u32_mod_P (ar - ix)), <- (u32_mod_P (ar - u32 ix)); f_equal; zlia).
  clear Hn. assert (Hx : (.~ ix) mod P = P - 1 - ix mod P).
  { replace (.~ ix) with (- ix - 1) by (unfold Z.lnot; lia). pose proof (Z.div_mod ix P ltac:(lia)).
    pose proof (Z.mod_pos_bound ix P ltac:(lia)). symmetry. apply Z.mod_unique with (- (ix / P) - 1); lia. }
  rewrite Hx. replace (u32 (ar - u32 ix)) with (u32 (ar - ix)) by zlia.
  assert (Hb : (0xFFFF8000 <? u32 ix) = (-0x8000 <? ix) && (ix <? 0)).
  { destruct (Z.ltb_spec ix 0).
    - replace (u32 ix) with (ix + 0x100000000) by zlia. rewrite andb_true_r.
      destruct (Z.ltb_spec 0xFFFF8000 (ix + 0x100000000)), (Z.ltb_spec (-0x8000) ix); lia.
    - replace (u32 ix) with ix by zlia. rewrite andb_false_r. apply Z.ltb_ge. lia. }
  rewrite Hb. pose proof (Z.mod_pos_bound ix P ltac:(lia)). destruct ((-0x8000 <? ix) && (ix <? 0)).
  - assert (E : (P <=? a + (P - 1 - ix mod P) + 1) = ((- ix) mod P =? 0) || (P <=? a + (- ix) mod P)).
    { destruct (Z.eq_dec (ix mod P) 0) as [E|E].
      - rewrite E, Z.mod_opp_l_z by lia. apply Z.leb_le. lia.
      - rewrite Z.mod_opp_l_nz by lia. rewrite (proj2 (Z.eqb_neq _ 0)) by lia.
        destruct (Z.leb_spec P (a + (P - 1 - ix mod P) + 1)), (Z.leb_spec P (a + (P - ix mod P))); lia. }
    rewrite E. destruct (_ || _); [rewrite u32_sub_u32|]; rewrite u16_of_u32; f_equal; lia.
  - assert (E : (P <=? a + (P - 1 - ix mod P) + 1) = (ix mod P <=? a)).
    { destruct (Z.leb_spec P (a + (P - 1 - ix mod P) + 1)), (Z.leb_spec (ix mod P) a); lia. }
    assert (E2 : (P <=? (ar - ix) mod P + wr + 1) = (P - 1 - wr <=? (ar - ix) mod P)).
    { destruct (Z.leb_spec P ((ar - ix) mod P + wr + 1)), (Z.leb_spec (P - 1 - wr) ((ar - ix) mod P)); lia. }
    rewrite E, E2, (andb_comm (P - 1 - wr <=? _)), u32_add_u32_l, u32_add_u32_r.
    destruct (ix mod P <=? _), (P - 1 - wr <=? _); simpl; rewrite u16_of_u32; f_equal; lia.
Qed.

Context (Hring : ring_start ar wr <= ar).

Lemma ring_offset : P - 1 - wr <= a.
Proof. unfold ring_start in Hring. fold P a in Hring. lia. Qed.

(** The offset in the block after a step that leaves the buffer by less than its length. *)
Definition wrap_offset v :=
  if v <? P - 1 - wr then v + (wr + 1) else if P <=? v then v - (wr + 1) else v.

Lemma ring_next_offset n :
  - (wr + 1) <= n <= wr + 1 ->
  ring_next ar wr n = ar - a + wrap_offset (a + n) /\ P - 1 - wr <= wrap_offset (a + n) < P.
Proof.
  intros Hn. pose proof P_bounds. pose proof ring_offset. pose proof block_bounds as [? _].
  unfold is_u16 in Hwr. unfold ring_next, ring_start, wrap_offset. fold P a.
  replace (ar - (ar - a + (P - 1 - wr)) + n) with (a + n - (P - 1 - wr)) by lia.
  destruct (Z.ltb_spec (a + n) (P - 1 - wr)); [|destruct (Z.leb_spec P (a + n))].
  - rewrite <- (Z.mod_unique _ (wr + 1) (-1) (a + n - (P - 1 - wr) + (wr + 1))); lia.
  - rewrite <- (Z.mod_unique _ (wr + 1) 1 (a + n - (P - 1 - wr) - (wr + 1))); lia.
  - rewrite Z.mod_small; lia.
Qed.

(** The result of an address step is the [u16] of a number whose block offset is known. *)
Lemma ring_result n v :
  - (wr + 1) <= n <= wr + 1 -> u32 v = u32 (ar - a + wrap_offset (a + n)) -> u16 (u32 v) = ring_next ar wr n.
Proof.
  intros Hn ->. destruct (ring_next_offset n Hn) as [-> Hb].
  pose proof block_bounds. pose proof P_bounds. unfold is_u16 in Hwr. rewrite u32_id, u16_id; unfold is_u16, is_u32; lia.
Qed.

Lemma increase_ring_next ix :
  is_s16 ix -> - (wr + 1) <= ix <= wr -> increase_ar ar wr ix = ring_next ar wr ix.
Proof.
  intros Hs Hix. pose proof P_bounds as HP. pose proof ring_offset. pose proof block_bounds as (Ha & _).
  unfold is_u16, is_s16 in *. unfold increase_ar. fold w.
  rewrite Z.land_assoc, masked_gt_wr, masked_le_wr, Z.land_spec by done. fold w k.
  pose proof (carry_u32 ar (u32 ix) 0 ltac:(lia)) as Hc. rewrite !Z.add_0_r, u32_mod_P in Hc.
  fold a in Hc. rewrite Hc, length_carry, !u32_add_u32_r, u32_mod_P, ar_plus_mod.
  destruct (Z.leb_spec 0 ix) as [H0|H0].
  - rewrite (Z.mod_small ix) by lia. destruct (Z.leb_spec P (a + ix)).
    + rewrite u32_sub_u32. apply ring_result; [lia|]. f_equal. unfold wrap_offset.
      rewrite (proj2 (Z.ltb_ge _ _)), (proj2 (Z.leb_le _ _)) by lia. lia.
    + apply ring_result; [lia|]. f_equal. unfold wrap_offset.
      rewrite (proj2 (Z.ltb_ge _ _)), (proj2 (Z.leb_gt _ _)) by lia. lia.
  - assert (Hm : (P <=? a + ix mod P) = (0 <=? a + ix) && negb (ix =? - P)).
    { destruct (Z.eqb_spec ix (- P)) as [->|Hne].
      - rewrite Z.mod_opp_l_z, andb_false_r by (try rewrite Z.mod_same; lia). apply Z.leb_gt. lia.
      - rewrite (mod_P_near ix 1), andb_true_r by lia.
        destruct (Z.leb_spec P (a + (ix + 1 * P))), (Z.leb_spec 0 (a + ix)); lia. }
    rewrite Hm. destruct (Z.leb_spec 0 (a + ix)) as [Hge|Hlt]; simpl.
    + rewrite (Z.mod_small (a + ix)) by lia. rewrite (proj2 (Z.eqb_neq _ _)) by lia.
      rewrite andb_true_r. destruct (Z.leb_spec P (a + ix + wr + 1)); simpl.
      * apply ring_result; [lia|]. f_equal. unfold wrap_offset.
        rewrite (proj2 (Z.ltb_ge _ _)), (proj2 (Z.leb_gt _ _)) by lia. lia.
      * rewrite u32_add_u32_l. apply ring_result; [lia|]. f_equal. unfold wrap_offset.
        rewrite (proj2 (Z.ltb_lt _ _)) by lia. lia.
    + rewrite andb_false_r. simpl. rewrite u32_add_u32_l. apply ring_result; [lia|]. f_equal.
      unfold wrap_offset. rewrite (proj2 (Z.ltb_lt _ _)) by lia. lia.
Qed.

Lemma decrease_ring_next ix :
  is_s16 ix -> ix <> -0x8000 -> - (wr + 1) <= ix <= wr -> decrease_ar ar wr ix = ring_next ar wr (- ix).
Proof.
  intros Hs Hne Hix. pose proof P_bounds as HP. pose proof ring_offset. pose proof block_bounds as (Ha & _).
  unfold is_u16, is_s16 in *. unfold decrease_ar. fold w.
  rewrite Z.land_assoc, masked_gt_wr, masked_le_wr, Z.land_spec by done. fold w k.
  assert (Hn : u32 (ar - u32 ix) = u32 (ar + u32 (.~ ix) + 1)).
  { unfold Z.lnot. rewrite <- Z.sub_1_r. zlia. }
  pose proof (carry_u32 ar (u32 (.~ ix)) 1 ltac:(lia)) as Hc. rewrite u32_mod_P in Hc.
  fold a in Hc. rewrite Hn, Hc, length_carry, u32_mod_P, <- Hn. clear Hn Hc.
  assert (Hl : .~ ix = - ix - 1) by (unfold Z.lnot; lia). rewrite Hl.
  assert (Hm : (ar + u32 (- ix - 1) + 1) mod P = (a - ix) mod P).
  { rewrite <- (u32_mod_P (ar + u32 (- ix - 1) + 1)).
    replace (u32 (ar + u32 (- ix - 1) + 1)) with (u32 (ar - ix)) by zlia.
    rewrite u32_mod_P. apply (ar_plus_mod (- ix)). }
  rewrite Hm. replace (u32 (ar - u32 ix)) with (u32 (ar - ix)) by zlia.
  assert (Hb : (0xFFFF8000 <? u32 ix) = (ix <? 0)).
  { destruct (Z.ltb_spec ix 0).
    - replace (u32 ix) with (ix + 0x100000000) by zlia. apply Z.ltb_lt. lia.
    - replace (u32 ix) with ix by zlia. apply Z.ltb_ge. lia. }
  rewrite Hb. destruct (Z.ltb_spec ix 0) as [H0|H0].
  - rewrite (Z.mod_small (- ix - 1)) by lia. destruct (Z.leb_spec P (a + (- ix - 1) + 1)).
    + rewrite u32_sub_u32. apply ring_result; [lia|]. f_equal. unfold wrap_offset.
      rewrite (proj2 (Z.ltb_ge _ _)), (proj2 (Z.leb_le _ _)) by lia. lia.
    + apply ring_result; [lia|]. f_equal. unfold wrap_offset.
      rewrite (proj2 (Z.ltb_ge _ _)), (proj2 (Z.leb_gt _ _)) by lia. lia.
  - rewrite (mod_P_near (- ix - 1) 1) by lia.
    destruct (Z.leb_spec P (a + (- ix - 1 + 1 * P) + 1)); simpl.
    + rewrite (Z.mod_small (a - ix)), andb_true_r by lia.
      destruct (Z.leb_spec P (a - ix + wr + 1)); simpl.
      * apply ring_result; [lia|]. f_equal. unfold wrap_offset.
        rewrite (proj2 (Z.ltb_ge _ _)), (proj2 (Z.leb_gt _ _)) by lia. lia.
      * rewrite u32_add_u32_l, u32_add_u32_r. apply ring_result; [lia|]. f_equal. unfold wrap_offset.
        rewrite (proj2 (Z.ltb_lt _ _)) by lia. lia.
    + rewrite andb_false_r. simpl. rewrite u32_add_u32_l, u32_add_u32_r. apply ring_result; [lia|]. f_equal.
      unfold wrap_offset. rewrite (proj2 (Z.ltb_lt _ _)) by lia. lia.
Qed.

Lemma decrement_ring_next : decrement_ar ar wr = ring_next ar wr (-1).
Proof.
  pose proof P_bounds as HP. pose proof ring_offset. pose proof block_bounds as (Ha & _).
  unfold is_u16 in *. unfold decrement_ar. fold w. rewrite masked_gt_wr by done. fold w k.
  assert (Hb : Z.testbit (u32 (ar + wr) .^ ar) (k + 1) = (P <=? a + wr)).
  { pose proof (carry_u32 ar wr 0 ltac:(lia)) as Hc. rewrite !Z.add_0_r in Hc. fold a in Hc.
    rewrite (Z.mod_small wr) in Hc by lia. rewrite <- Hc. rewrite (Z.lxor_spec _ wr).
    pose proof k_bounds. destruct P_eq as [E _].
    assert (Hw : 0 <= wr < 2 ^ (k + 1)) by lia. apply (bits_above_pow2 wr (k + 1)) in Hw as [_ ->]; [|lia..].
    by rewrite xorb_false_r. }
  rewrite Hb. destruct (Z.leb_spec P (a + wr)).
  - rewrite u32_sub_u32. apply ring_result; [lia|]. f_equal. unfold wrap_offset.
    rewrite (proj2 (Z.ltb_ge _ _)), (proj2 (Z.leb_gt _ _)) by lia. lia.
  - apply ring_result; [lia|]. f_equal. unfold wrap_offset.
    rewrite (proj2 (Z.ltb_lt _ _)) by lia. lia.
Qed.

(** The exclusive or of neighbours in one block stays below the block's size;
    across the end of a block it covers every bit up to the block's. *)
Lemma neighbours_xor : ((w .<< 1) <? u32 (ar + 1) .^ ar) = (a =? P - 1).
Proof.
  pose proof k_bounds as Hk. pose proof P_bounds as HP. destruct P_eq as [E1 E2].
  pose proof block_bounds as (Ha & _). unfold is_u16 in Har.
  rewrite u32_id by (unfold is_u32; lia). rewrite Z.shiftl_mul_pow2 by lia. change (2 ^ 1) with 2.
  assert (Hd : ar = P * (ar / P) + a) by (apply Z.div_mod; lia).
  destruct (Z.eqb_spec a (P - 1)) as [Hend|Hne].
  - apply Z.ltb_lt. apply Z.lt_le_trans with (Z.ones (k + 2)).
    { rewrite Z.ones_equiv. replace (k + 2) with (1 + (k + 1)) by lia. rewrite Z.pow_add_r by lia. lia. }
    assert (Hall : ((ar + 1) .^ ar) .& Z.ones (k + 2) = Z.ones (k + 2)).
    { apply Z.bits_inj'. intros i Hi. rewrite Z.land_spec, Z.lxor_spec.
      destruct (Z.lt_ge_cases i (k + 2)) as [Hlt|]; [|rewrite Z.ones_spec_high, andb_false_r; lia || done].
      rewrite Z.ones_spec_low, andb_true_r by lia.
      destruct (Z.eq_dec i (k + 1)) as [->|Hik].
      - rewrite !testbit_odd_div, <- E1 by lia.
        replace ((ar + 1) / P) with (ar / P + 1) by (apply Z.div_unique with 0; lia).
        rewrite Z.odd_add. by destruct (Z.odd (ar / P)).
      - rewrite <- (Z.mod_pow2_bits_low (ar + 1) (k + 1)), <- (Z.mod_pow2_bits_low ar (k + 1)), <- E1 by lia.
        fold a. rewrite Hend.
        replace ((ar + 1) mod P) with 0 by (apply Z.mod_unique with (ar / P + 1); lia).
        rewrite Z.bits_0, E1. replace (2 ^ (k + 1) - 1) with (Z.ones (k + 1)) by (rewrite Z.ones_equiv; lia).
        by rewrite Z.ones_spec_low by lia. }
    assert (0 <= (ar + 1) .^ ar) by (apply Z.lxor_nonneg; lia).
    rewrite Z.land_comm in Hall. pose proof (land_mask_range (Z.ones (k + 2)) ((ar + 1) .^ ar)). lia.
  - apply Z.ltb_ge. assert (0 <= (ar + 1) .^ ar < 2 ^ (k + 1)); [|lia].
    apply (bits_above_pow2 _ (k + 1)); [lia|]. split; [apply Z.lxor_nonneg; lia|].
    intros i Hi. rewrite Z.lxor_spec, !testbit_odd_div by lia.
    assert (Hdiv : forall x, x / 2 ^ i = x / P / 2 ^ (i - (k + 1))).
    { intros x. rewrite Z.div_div, E1, <- Z.pow_add_r by (try apply Z.pow_pos_nonneg; lia).
      f_equal. f_equal. lia. }
    rewrite !Hdiv. replace ((ar + 1) / P) with (ar / P) by (apply Z.div_unique with (a + 1); lia).
    apply xorb_nilpotent.
Qed.

Lemma increment_ring_next : increment_ar ar wr = ring_next ar wr 1.
Proof.
  pose proof P_bounds as HP. pose proof ring_offset. pose proof block_bounds as (Ha & _).
  unfold is_u16 in *. unfold increment_ar. fold w. rewrite neighbours_xor.
  destruct (Z.eqb_spec a (P - 1)).
  - rewrite u32_sub_u32. apply ring_result; [lia|]. f_equal. unfold wrap_offset.
    rewrite (proj2 (Z.ltb_ge _ _)), (proj2 (Z.leb_le _ _)) by lia. lia.
  - apply ring_result; [lia|]. f_equal. unfold wrap_offset.
    rewrite (proj2 (Z.ltb_ge _ _)), (proj2 (Z.leb_gt _ _)) by lia. lia.
Qed.

(** A step inside the buffer stays inside the same buffer. *)
Lemma ring_next_closed n :
  - (wr + 1) <= n <= wr + 1 ->
  is_u16 (ring_next ar wr n) /\ ring_start (ring_next ar wr n) wr = ring_start ar wr /\
  ring_start ar wr <= ring_next ar wr n <= ring_start ar wr + wr.
Proof.
  intros Hn. pose proof P_bounds. pose proof block_bounds. unfold is_u16 in Hwr, Har.
  destruct (ring_next_offset n Hn) as [-> Hb]. unfold ring_start. fold P a.
  assert (Hm : (ar - a + wrap_offset (a + n)) mod P = wrap_offset (a + n)).
  { symmetry. apply Z.mod_unique with (ar / P); [lia|].
    assert (ar = P * (ar / P) + a) by (apply Z.div_mod; lia). lia. }
  rewrite Hm. unfold is_u16. lia.
Qed.
End Ring.

(** Steps compose: two steps are one step by the sum. *)
Lemma ring_next_add ar wr n m :
  is_u16 wr -> ring_start (ring_next ar wr n) wr = ring_start ar wr ->
  ring_next (ring_next ar wr n) wr m = ring_next ar wr (n + m).
Proof.
  unfold is_u16. intros Hwr Hs. unfold ring_next at 1. rewrite Hs. unfold ring_next.
  rewrite Z.add_simpl_l, Zplus_mod_idemp_l. do 2 f_equal. lia.
Qed.

(** ** On the machine *)

Section Registers.
Context {H : Type} {HH : DSPHost H}.
Implicit Types s : SDSP H.

Definition ar_at s i : Z := default 0 (zget (r_ar (r s)) i).
Definition wr_at s i : Z := default 0 (zget (r_wr (r s)) i).
(** The address register points into its circular buffer. *)
Definition in_ring s i : Prop := ring_start (ar_at s i) (wr_at s i) <= ar_at s i.

Lemma ar_wr_eval s i : wf s -> 0 <= i < 4 ->
  (get_ar i s = Done (ar_at s i) s /\ is_u16 (ar_at s i)) /\
  (get_wr i s = Done (wr_at s i) s /\ is_u16 (wr_at s i)).
Proof.
  intros Hs Hi. unfold get_ar, get_wr, read_arr, mbind, mget, ar_at, wr_at.
  destruct (zget_arr _ _ _ i (wf_ar _ (wf_r s Hs)) Hi) as (a & -> & Ha).
  destruct (zget_arr _ _ _ i (wf_wr _ (wf_r s Hs)) Hi) as (w & -> & Hw). done.
Qed.

Lemma address_register_eval (f : Z -> Z -> Z) s i : wf s -> 0 <= i < 4 ->
  (ar <- get_ar i ;; wr <- get_wr i ;; mret (f ar wr)) s = Done (f (ar_at s i) (wr_at s i)) s.
Proof.
  intros Hs Hi. destruct (ar_wr_eval s i Hs Hi) as [[Ea _] [Ew _]].
  by rewrite (mbind_done _ _ _ _ _ Ea), (mbind_done _ _ _ _ _ Ew).
Qed.


(** A walk with an index register: step by step through the buffer. *)
Fixpoint walk (reg : Z) (ixs : list Z) : M (SDSP H) unit :=
  match ixs with
  | [] => mret tt
  | ix :: ixs' => ar <- IncreaseAddressRegister reg ix ;; put_ar reg ar ;;; walk reg ixs'
  end.

Lemma put_ar_eval s i v : wf s -> 0 <= i < 4 ->
  put_ar i v s = Done tt (on_regs (fun q => set_r_ar (<[Z.to_nat i := v]> (r_ar q)) q) s).
Proof.
  intros Hs Hi. unfold put_ar, write_arr, mbind, mget. destruct (wf_ar _ (wf_r s Hs)) as [Hl _].
  unfold zset. by rewrite (proj2 (Z.leb_le 0 i)), (proj2 (Z.ltb_lt _ _)) by lia.
Qed.

Lemma ar_at_put s i v : wf s -> 0 <= i < 4 ->
  ar_at (on_regs (fun q => set_r_ar (<[Z.to_nat i := v]> (r_ar q)) q) s) i = v.
Proof.
  intros Hs Hi. destruct (wf_ar _ (wf_r s Hs)) as [Hl _]. unfold ar_at, zget. simpl.
  rewrite (proj2 (Z.leb_le 0 i)) by lia. by rewrite list_lookup_insert_eq by lia.
Qed.

(** A walk through a circular buffer by any steps of up to the buffer's
    length ends where one step by their sum would, however often it wraps
    around, and never leaves the buffer. *)
Theorem walk_sums_modulo_length s reg ixs :
  wf s -> 0 <= reg < 4 -> in_ring s reg ->
  Forall (fun ix => is_s16 ix /\ - (wr_at s reg + 1) <= ix <= wr_at s reg) ixs ->
  exists s', walk reg ixs s = Done tt s' /\ wf s' /\ in_ring s' reg /\
    wr_at s' reg = wr_at s reg /\
    ar_at s' reg = ring_next (ar_at s reg) (wr_at s reg) (fold_right Z.add 0 ixs) /\
    ring_start (ar_at s reg) (wr_at s reg) <= ar_at s' reg
      <= ring_start (ar_at s reg) (wr_at s reg) + wr_at s reg.
Proof.
  intros Hs Hr. revert s Hs. induction ixs as [|ix ixs IH]; intros s Hs Hin Hall; simpl.
  - destruct (ar_wr_eval s reg Hs Hr) as [[_ Har] [_ Hwr]].
    eexists. split; [done|]. split; [done|]. split; [done|]. split; [done|].
    pose proof (ring_offset _ _ Hin).
    pose proof (block_bounds (wr_at s reg) Hwr (ar_at s reg) Har).
    unfold in_ring, ring_next, ring_start in *.
    rewrite (Z.mod_small (_ - _ + 0)) by (split; lia). lia.
  - destruct (ar_wr_eval s reg Hs Hr) as [[_ Har] [_ Hwr]].
    inversion Hall as [|? ? [H16 Hix] Hall']; subst.
    pose proof (ring_next_closed _ Hwr _ Har Hin ix ltac:(lia)) as (Hu & Hst & Hb).
    set (ar1 := ring_next (ar_at s reg) (wr_at s reg) ix) in *.
    unfold IncreaseAddressRegister.
    rewrite (mbind_done _ _ _ _ _ (address_register_eval (fun ar wr => increase_ar ar wr ix) s reg Hs Hr)).
    rewrite increase_ring_next by done. fold ar1.
    pose proof (safe_put_ar (H:=H) reg ar1 Hr Hu s Hs) as Hp.
    rewrite (put_ar_eval s reg ar1 Hs Hr) in Hp. destruct Hp as [Hs1 _].
    rewrite (mbind_done _ _ _ _ _ (put_ar_eval s reg ar1 Hs Hr)).
    set (s1 := on_regs _ s) in *. assert (Ea : ar_at s1 reg = ar1) by (by apply ar_at_put).
    assert (Ew : wr_at s1 reg = wr_at s reg) by done.
    destruct (IH s1 Hs1) as (s' & E & Hs' & Hin' & Hw' & Ha' & Hb').
    { unfold in_ring. rewrite Ea, Ew. lia. }
    { by rewrite Ew. }
    exists s'. split; [exact E|]. split; [done|]. split; [done|]. split; [congruence|].
    rewrite Ea, Ew in *. split; [rewrite Ha'; by apply ring_next_add|]. rewrite Hst in Hb'. lia.
Qed.
End Registers.

(** ** A five-word buffer at 0x13..0x17 *)

Definition ring_machine : SDSP GCHost :=
  on_regs (fun q => set_r_wr [4; 0; 0; 0] (set_r_ar [0x17; 0; 0; 0] q)) gc_init.

Lemma ring_machine_wf : wf ring_machine.
Proof.
  apply wf_on_regs; [apply gc_init_wf|]. intros q Hq. wf_regs_set; (split; [done|by repeat constructor]).
Qed.


Theorem walk_sums_modulo_length_witness :
  exists s', walk 0 [3; 4; -2; 4] ring_machine = Done tt s' /\ ar_at s' 0 = 0x16.
Proof.
  destruct (walk_sums_modulo_length ring_machine 0 [3; 4; -2; 4] ring_machine_wf)
    as (s' & E & _ & _ & _ & Ha & _).
  - lia.
  - vm_compute. discriminate.
  - repeat constructor; by vm_compute.
  - exists s'. split; [exact E|]. rewrite Ha. reflexivity.
Defined.
