(* ===== verification/DSPAlu.v ===== *)
(** * DSP: what the arithmetic means

    The status flags as the flags of a 40-bit adder, the comparisons that
    follow a CMP, and the exact values the arithmetic opcodes leave. *)
From S2P Require Export GameCubeHost.
From S2P Require DSPIntArithmetic DSPIntMultiplier.

(** ** Reading a bit of the status register after an update *)

Lemma testbit_sr_when b f sr i :
  0 <= i -> Z.testbit (sr_when b f sr) i = Z.testbit sr i || (b && Z.testbit f i).
Proof. intros. destruct b; simpl; [apply Z.lor_spec|by rewrite orb_false_r]. Qed.

Lemma testbit_clear sr m i :
  0 <= i -> Z.testbit (sr .& .~ m) i = Z.testbit sr i && negb (Z.testbit m i).
Proof. intros. by rewrite Z.land_spec, Z.lnot_spec. Qed.

(** The bits of [(b31, b30)] are equal: the TOP2BITS flag. *)
Definition top2bits (v : Z) : bool := eqb (Z.testbit v 31) (Z.testbit v 30).

(** The status register that a 64-bit update leaves, bit by bit. *)
Record sr64_spec (v : Z) (carry overflow : bool) (sr sr' : Z) : Prop := {
  sp_carry : Z.testbit sr' 0 = carry;
  sp_overflow : Z.testbit sr' 1 = overflow;
  sp_zero : Z.testbit sr' 2 = (v =? 0);
  sp_sign : Z.testbit sr' 3 = (v <? 0);
  sp_over_s32 : Z.testbit sr' 4 = negb ((-0x80000000 <=? v) && (v <? 0x80000000));
  sp_top2 : Z.testbit sr' 5 = top2bits v;
  sp_sticky : Z.testbit sr' 7 = Z.testbit sr 7 || overflow;
  sp_frame : forall i, i = 6 \/ 8 <= i -> Z.testbit sr' i = Z.testbit sr i
}.

Lemma isOverS32_spec v : isOverS32 v = negb ((-0x80000000 <=? v) && (v <? 0x80000000)).
Proof.
  unfold isOverS32. f_equal. destruct (Z.eqb_spec v (s32 v)) as [E|E].
  - symmetry. apply andb_true_intro. split; [apply Z.leb_le|apply Z.ltb_lt]; rewrite E; zlia.
  - symmetry. apply andb_false_iff.
    destruct (Z.leb_spec (-0x80000000) v), (Z.ltb_spec v 0x80000000); auto.
    destruct E. zlia.
Qed.

Lemma top2bits_spec v :
  ((v .& 0xc0000000 =? 0) || (v .& 0xc0000000 =? 0xc0000000)) = top2bits v.
Proof.
  unfold top2bits.
  assert (E : v .& 0xc0000000 = Z.b2z (Z.testbit v 31) * 2 ^ 31 + Z.b2z (Z.testbit v 30) * 2 ^ 30).
  { change 0xc0000000 with (2 ^ 31 .| 2 ^ 30). rewrite Z.land_lor_distr_r.
    assert (Hone : forall i, 0 <= i -> v .& 2 ^ i = Z.b2z (Z.testbit v i) * 2 ^ i).
    { intros i Hi. pose proof (flag_testbit v i Hi) as Hf. destruct (Z.testbit v i) eqn:Ei; simpl.
      - apply Z.bits_inj'. intros n Hn. rewrite Z.mul_1_l, Z.land_spec, Z.pow2_bits_eqb by done.
        destruct (Z.eqb_spec i n) as [<-|]; [by rewrite Ei|by rewrite andb_false_r].
      - apply negb_false_iff, Z.eqb_eq in Hf. done. }
    rewrite !Hone by lia. rewrite lor_disjoint_add; [done|].
    by destruct (Z.testbit v 31), (Z.testbit v 30). }
  rewrite E. by destruct (Z.testbit v 31), (Z.testbit v 30).
Qed.

(** Reads every bit of an updated status register. *)
Ltac sr_bits := rewrite ?testbit_sr_when, ?testbit_clear by lia.

Lemma update_sr64_spec v carry overflow sr :
  sr64_spec v carry overflow sr (update_sr64 v carry overflow sr).
Proof.
  unfold update_sr64. rewrite isOverS32_spec, top2bits_spec.
  split; [sr_bits; cbn; rewrite ?andb_false_r, ?andb_true_r, ?orb_false_r; done..|].
  intros i Hi. sr_bits.
  assert (Hc : forall m, 0 <= m < 2 ^ 6 -> Z.testbit m i = false).
  { intros m Hm. apply (bits_above_pow2 m 6) in Hm as [_ Hm]; [|lia]. apply Hm. lia. }
  rewrite (Hc SR_CMP_MASK), (Hc SR_CARRY), (Hc SR_OVERFLOW), (Hc SR_ARITH_ZERO), (Hc SR_SIGN),
    (Hc SR_OVER_S32), (Hc SR_TOP2BITS) by (split; [discriminate|reflexivity]).
  assert (Hs : Z.testbit SR_OVERFLOW_STICKY i = false).
  { unfold SR_OVERFLOW_STICKY. change 0x80 with (2 ^ 7). apply Z.pow2_bits_false. lia. }
  rewrite Hs, !andb_false_r, !orb_false_r, andb_true_r. done.
Qed.

(** ** The 40-bit adder *)

Definition u40 (v : Z) : Z := v mod 0x10000000000.

Lemma isCarryAdd_spec a b :
  is_s40 a -> is_s40 b -> isCarryAdd a (sext40 (a + b)) = (0x10000000000 <=? u40 a + u40 b).
Proof.
  intros Ha Hb. unfold isCarryAdd, sext40, u40, is_s40 in *.
  destruct (Z.leb_spec 0x10000000000 (a mod 0x10000000000 + b mod 0x10000000000));
    [apply Z.ltb_lt|apply Z.ltb_ge]; unfold u64; Z.div_mod_to_equations; lia.
Qed.

Lemma isCarrySubtract_spec a b :
  is_s40 a -> is_s40 b -> isCarrySubtract a (sext40 (a - b)) = (u40 b <=? u40 a).
Proof.
  intros Ha Hb. unfold isCarrySubtract, sext40, u40, is_s40 in *.
  destruct (Z.leb_spec (b mod 0x10000000000) (a mod 0x10000000000));
    [apply Z.leb_le|apply Z.leb_gt]; unfold u64; Z.div_mod_to_equations; lia.
Qed.

Lemma lxor_neg a b : (a .^ b <? 0) = xorb (a <? 0) (b <? 0).
Proof.
  pose proof (Z.lxor_nonneg a b) as Hn.
  destruct (Z.ltb_spec (a .^ b) 0), (Z.ltb_spec a 0), (Z.ltb_spec b 0); simpl; try done; lia.
Qed.

Lemma land_neg a b : (a .& b <? 0) = (a <? 0) && (b <? 0).
Proof.
  pose proof (Z.land_neg a b) as Hn.
  destruct (Z.ltb_spec (a .& b) 0), (Z.ltb_spec a 0), (Z.ltb_spec b 0); simpl; try done; lia.
Qed.

Lemma isOverflow_sign a b r :
  isOverflow a b r = xorb (a <? 0) (r <? 0) && xorb (b <? 0) (r <? 0).
Proof. unfold isOverflow. by rewrite land_neg, !lxor_neg. Qed.

Definition fits40 (v : Z) : bool := (-0x8000000000 <=? v) && (v <? 0x8000000000).

Lemma isOverflow_add a b :
  is_s40 a -> is_s40 b -> isOverflow a b (sext40 (a + b)) = negb (fits40 (a + b)).
Proof.
  intros Ha Hb. rewrite isOverflow_sign. unfold fits40, sext40, is_s40 in *.
  destruct (Z.ltb_spec a 0), (Z.ltb_spec b 0),
    (Z.ltb_spec ((a + b + 0x8000000000) mod 0x10000000000 - 0x8000000000) 0),
    (Z.leb_spec (-0x8000000000) (a + b)), (Z.ltb_spec (a + b) 0x8000000000); simpl; try done;
    exfalso; Z.div_mod_to_equations; lia.
Qed.

Lemma isOverflow_sub a b :
  is_s40 a -> is_s40 b -> isOverflow a (- b) (sext40 (a - b)) = negb (fits40 (a - b)).
Proof.
  intros Ha Hb. rewrite isOverflow_sign. unfold fits40, sext40, is_s40 in *.
  destruct (Z.ltb_spec a 0), (Z.ltb_spec (- b) 0),
    (Z.ltb_spec ((a - b + 0x8000000000) mod 0x10000000000 - 0x8000000000) 0),
    (Z.leb_spec (-0x8000000000) (a - b)), (Z.ltb_spec (a - b) 0x8000000000); simpl; try done;
    exfalso; Z.div_mod_to_equations; lia.
Qed.

(** ** Evaluating the accessors *)

Section Eval.
Context {H : Type} {HH : DSPHost H}.
Implicit Types (s : SDSP H) (i d : Z).

(** The number an accumulator holds. *)
Definition acc_at s i : Z := match zget (r_ac (r s)) i with Some a => acc_val a | None => 0 end.
Definition sr_of s : Z := r_sr (r s).
Definition prod_at s : Z := prod_long (r_prod (r s)).

(** The state with one accumulator and the status register replaced. *)
Definition with_acc_sr i v sr' s : SDSP H :=
  on_regs (fun q => set_r_sr sr' (set_r_ac (<[Z.to_nat i := acc_of_val v]> (r_ac q)) q)) s.

Lemma wf_acc_at s i : wf s -> 0 <= i < 2 -> exists a, zget (r_ac (r s)) i = Some a /\ wf_acc a.
Proof. intros Hs Hi. apply (zget_arr 2 wf_acc); [apply Hs|done]. Qed.

Lemma acc_at_s40 s i : wf s -> 0 <= i < 2 -> is_s40 (acc_at s i).
Proof.
  intros Hs Hi. unfold acc_at. destruct (wf_acc_at s i Hs Hi) as (a & -> & Ha).
  by apply acc_val_range.
Qed.

Lemma GetLongAcc_eval s i : wf s -> 0 <= i < 2 -> GetLongAcc i s = Done (acc_at s i) s.
Proof.
  intros Hs Hi. unfold GetLongAcc, get_ac, read_arr, acc_at, mbind, mget.
  destruct (wf_acc_at s i Hs Hi) as (a & -> & _). done.
Qed.

Lemma zset_in {A} (l : list A) i x :
  0 <= i < Z.of_nat (length l) -> zset l i x = Some (<[Z.to_nat i := x]> l).
Proof.
  intros Hi. unfold zset. by rewrite (proj2 (Z.leb_le 0 i)), (proj2 (Z.ltb_lt _ _)) by lia.
Qed.

Lemma zget_insert_eq {A} (l : list A) i x :
  0 <= i < Z.of_nat (length l) -> zget (<[Z.to_nat i := x]> l) i = Some x.
Proof. intros Hi. apply (zget_zset_eq l). by apply zset_in. Qed.

Lemma zget_insert_ne {A} (l : list A) i j x :
  0 <= i < Z.of_nat (length l) -> i <> j -> zget (<[Z.to_nat i := x]> l) j = zget l j.
Proof. intros Hi Hij. apply (zget_zset_ne l _ i j x); [by apply zset_in|done]. Qed.

Lemma SetLongAcc_eval s i v : wf s -> 0 <= i < 2 ->
  SetLongAcc i v s =
    Done tt (on_regs (fun q => set_r_ac (<[Z.to_nat i := acc_of_val (sext40 v)]> (r_ac q)) q) s).
Proof.
  intros Hs Hi. unfold SetLongAcc, put_ac, write_arr, mbind, mget. change (64 - 40) with 24.
  rewrite shift_pair_sext40, zset_in; [done|]. destruct (wf_acs _ (wf_r s Hs)) as [Hl _]. lia.
Qed.

Lemma acc_at_with_eq s i v sr' : wf s -> 0 <= i < 2 -> is_s40 v -> acc_at (with_acc_sr i v sr' s) i = v.
Proof.
  intros Hs Hi Hv. unfold acc_at, with_acc_sr. simpl.
  destruct (wf_acs _ (wf_r s Hs)) as [Hl _].
  rewrite zget_insert_eq by lia. by apply acc_val_of_val.
Qed.

Lemma acc_at_with_ne s i j v sr' :
  wf s -> 0 <= i < 2 -> i <> j -> acc_at (with_acc_sr i v sr' s) j = acc_at s j.
Proof.
  intros Hs Hi Hij. unfold acc_at, with_acc_sr. simpl.
  destruct (wf_acs _ (wf_r s Hs)) as [Hl _]. by rewrite zget_insert_ne by lia.
Qed.

Lemma sr_of_with s i v sr' : sr_of (with_acc_sr i v sr' s) = sr'.
Proof. done. Qed.

(** Write, read back, set the flags: the common end of the arithmetic opcodes. *)
Lemma write_and_flag s d v (k : Z -> M (SDSP H) unit) (upd : Z -> Z -> Z) :
  wf s -> 0 <= d < 2 ->
  (forall w s1, k w s1 = Done tt (on_regs (set_r_sr (upd w (sr_of s1))) s1)) ->
  (SetLongAcc d v ;;; w <- GetLongAcc d ;; k w) s =
    Done tt (with_acc_sr d (sext40 v) (upd (sext40 v) (sr_of s)) s).
Proof.
  intros Hs Hd Hk.
  pose proof (safe_SetLongAcc d v Hd s Hs) as Hw. rewrite SetLongAcc_eval in Hw by done.
  destruct Hw as [Hw _].
  rewrite (mbind_done _ _ _ _ _ (SetLongAcc_eval s d v Hs Hd)).
  rewrite (mbind_done _ _ _ _ _ (GetLongAcc_eval _ d Hw Hd)). rewrite Hk.
  assert (E : acc_at (on_regs (fun q => set_r_ac (<[Z.to_nat d := acc_of_val (sext40 v)]> (r_ac q)) q) s) d
              = sext40 v).
  { unfold acc_at; simpl. destruct (wf_acs _ (wf_r s Hs)) as [Hl _].
    rewrite zget_insert_eq by lia. apply acc_val_of_val, sext40_range. }
  rewrite E. done.
Qed.

Lemma add_result_eval s d a v : wf s -> 0 <= d < 2 ->
  DSPIntArithmetic.add_result d a v s =
    Done tt (with_acc_sr d (sext40 (a + v))
      (update_sr64 (sext40 (a + v)) (isCarryAdd a (sext40 (a + v)))
         (isOverflow a v (sext40 (a + v))) (sr_of s)) s).
Proof.
  intros Hs Hd.
  apply (write_and_flag s d (a + v) (fun w => UpdateSR64Add a v w)
           (fun w => update_sr64 w (isCarryAdd a w) (isOverflow a v w))); done.
Qed.

Lemma sub_result_eval s d a v : wf s -> 0 <= d < 2 ->
  DSPIntArithmetic.sub_result d a v s =
    Done tt (with_acc_sr d (sext40 (a - v))
      (update_sr64 (sext40 (a - v)) (isCarrySubtract a (sext40 (a - v)))
         (isOverflow a (- v) (sext40 (a - v))) (sr_of s)) s).
Proof.
  intros Hs Hd.
  apply (write_and_flag s d (a - v) (fun w => UpdateSR64Sub a v w)
           (fun w => update_sr64 w (isCarrySubtract a w) (isOverflow a (- v) w))); done.
Qed.

Lemma acc_result_eval s d v : wf s -> 0 <= d < 2 ->
  DSPIntArithmetic.acc_result d v s =
    Done tt (with_acc_sr d (sext40 v) (update_sr64 (sext40 v) false false (sr_of s)) s).
Proof.
  intros Hs Hd.
  apply (write_and_flag s d v (fun w => UpdateSR64 w false false)
           (fun w => update_sr64 w false false)); done.
Qed.

Lemma bit_range opc n : 0 <= (opc .>> n) .& 0x1 < 2.
Proof. pose proof (land_mask_range (opc .>> n) 0x1). lia. Qed.

(** ADD: the destination accumulator holds the 40-bit sum of the two
    accumulators, the status flags are those of a 40-bit adder (carry out,
    signed overflow with its sticky copy, zero, sign, out of 32 bits, equal top
    bits), and nothing else changes. *)
Theorem add_correct s opc :
  wf s ->
  let d := (opc .>> 8) .& 0x1 in
  let a := acc_at s d in
  let b := acc_at s (1 - d) in
  exists s',
    DSPIntArithmetic.add opc s = Done tt s' /\
    acc_at s' d = sext40 (a + b) /\ acc_at s' (1 - d) = b /\
    sr64_spec (sext40 (a + b)) (0x10000000000 <=? u40 a + u40 b) (negb (fits40 (a + b)))
      (sr_of s) (sr_of s') /\
    s' = with_acc_sr d (sext40 (a + b)) (sr_of s') s.
Proof.
  intros Hs d a b. pose proof (bit_range opc 8) as Hd. fold d in Hd.
  assert (Ha : is_s40 a) by (by apply acc_at_s40).
  assert (Hb : is_s40 b) by (apply acc_at_s40; [done|lia]).
  unfold DSPIntArithmetic.add. fold d.
  rewrite (mbind_done _ _ _ _ _ (GetLongAcc_eval s d Hs Hd)).
  rewrite (mbind_done _ _ _ _ _ (GetLongAcc_eval s (1 - d) Hs ltac:(lia))).
  fold a b. rewrite add_result_eval, isCarryAdd_spec, isOverflow_add by done.
  eexists. split; [done|]. split; [apply acc_at_with_eq; [done..|apply sext40_range]|].
  split; [by apply acc_at_with_ne; [..|lia]|]. split; [apply update_sr64_spec|done].
Qed.

(** SUB: likewise for the difference; the carry flag is "no borrow". *)
Theorem sub_correct s opc :
  wf s ->
  let d := (opc .>> 8) .& 0x1 in
  let a := acc_at s d in
  let b := acc_at s (1 - d) in
  exists s',
    DSPIntArithmetic.sub opc s = Done tt s' /\
    acc_at s' d = sext40 (a - b) /\ acc_at s' (1 - d) = b /\
    sr64_spec (sext40 (a - b)) (u40 b <=? u40 a) (negb (fits40 (a - b))) (sr_of s) (sr_of s') /\
    s' = with_acc_sr d (sext40 (a - b)) (sr_of s') s.
Proof.
  intros Hs d a b. pose proof (bit_range opc 8) as Hd. fold d in Hd.
  assert (Ha : is_s40 a) by (by apply acc_at_s40).
  assert (Hb : is_s40 b) by (apply acc_at_s40; [done|lia]).
  unfold DSPIntArithmetic.sub. fold d.
  rewrite (mbind_done _ _ _ _ _ (GetLongAcc_eval s d Hs Hd)).
  rewrite (mbind_done _ _ _ _ _ (GetLongAcc_eval s (1 - d) Hs ltac:(lia))).
  fold a b. rewrite sub_result_eval, isCarrySubtract_spec, isOverflow_sub by done.
  eexists. split; [done|]. split; [apply acc_at_with_eq; [done..|apply sext40_range]|].
  split; [by apply acc_at_with_ne; [..|lia]|]. split; [apply update_sr64_spec|done].
Qed.

(** NEG: the negation, with the carry flag set only for zero and the
    overflow flag only for the least value; in both cases the accumulator is
    unchanged. *)
Theorem neg_correct s opc :
  wf s ->
  let d := (opc .>> 8) .& 0x1 in
  let a := acc_at s d in
  exists s',
    DSPIntArithmetic.neg opc s = Done tt s' /\
    acc_at s' d = sext40 (- a) /\
    Z.testbit (sr_of s') 0 = (a =? 0) /\
    Z.testbit (sr_of s') 1 = (a =? -0x8000000000) /\
    (a = 0 \/ a = -0x8000000000 <-> acc_at s' d = a).
Proof.
  intros Hs d a. pose proof (bit_range opc 8) as Hd. fold d in Hd.
  assert (Ha : is_s40 a) by (by apply acc_at_s40).
  unfold DSPIntArithmetic.neg. fold d.
  rewrite (mbind_done _ _ _ _ _ (GetLongAcc_eval s d Hs Hd)). fold a.
  rewrite sub_result_eval, isCarrySubtract_spec, isOverflow_sub by done.
  pose proof (update_sr64_spec (sext40 (0 - a)) (u40 a <=? u40 0) (negb (fits40 (0 - a))) (sr_of s)) as Hsp.
  eexists. split; [done|]. rewrite acc_at_with_eq by (done || apply sext40_range).
  rewrite !sr_of_with, (sp_carry _ _ _ _ _ Hsp), (sp_overflow _ _ _ _ _ Hsp).
  unfold u40, fits40, sext40, is_s40 in *. split; [f_equal; lia|].
  split; [destruct (Z.eqb_spec a 0); first [apply Z.leb_le|apply Z.leb_gt]; Z.div_mod_to_equations; lia|].
  split; [|Z.div_mod_to_equations; lia].
  destruct (Z.eqb_spec a (-0x8000000000)), (Z.leb_spec (-0x8000000000) (0 - a)),
    (Z.ltb_spec (0 - a) 0x8000000000); simpl; try done; lia.
Qed.

(** ** Comparison *)

(** The conditions that have a meaning after a comparison of [a] with [b]. *)
Definition compare_outcome (a b cond : Z) : option bool :=
  match cond .& 0xf with
  | 0x0 => Some (b <=? a)
  | 0x1 => Some (a <? b)
  | 0x2 => Some (b <? a)
  | 0x3 => Some (a <=? b)
  | 0x4 => Some (negb (a =? b))
  | 0x5 => Some (a =? b)
  | 0x6 => Some (u40 a <? u40 b)
  | 0x7 => Some (u40 b <=? u40 a)
  | 0xe => Some (negb (fits40 (a - b)))
  | 0xf => Some true
  | _ => None
  end.

Lemma signed_less a b :
  is_s40 a -> is_s40 b -> xorb (negb (fits40 (a - b))) (sext40 (a - b) <? 0) = (a <? b).
Proof.
  intros Ha Hb. unfold fits40, sext40, is_s40 in *.
  destruct (Z.leb_spec (-0x8000000000) (a - b)), (Z.ltb_spec (a - b) 0x8000000000),
    (Z.ltb_spec ((a - b + 0x8000000000) mod 0x10000000000 - 0x8000000000) 0),
    (Z.ltb_spec a b); simpl; try done; exfalso; Z.div_mod_to_equations; lia.
Qed.

Lemma difference_zero a b : is_s40 a -> is_s40 b -> (sext40 (a - b) =? 0) = (a =? b).
Proof.
  intros Ha Hb. unfold sext40, is_s40 in *.
  destruct (Z.eqb_spec a b), (Z.eqb_spec ((a - b + 0x8000000000) mod 0x10000000000 - 0x8000000000) 0);
    try done; exfalso; Z.div_mod_to_equations; lia.
Qed.

(** The condition codes read off a status register the subtraction flags describe. *)
Lemma conditions_after_sub a b sr sr' cond c :
  is_s40 a -> is_s40 b ->
  sr64_spec (sext40 (a - b)) (u40 b <=? u40 a) (negb (fits40 (a - b))) sr sr' ->
  compare_outcome a b cond = Some c -> check_condition sr' cond = c.
Proof.
  intros Ha Hb Hsp. unfold compare_outcome, check_condition. cbv zeta.
  change SR_CARRY with (2 ^ 0). change SR_OVERFLOW with (2 ^ 1). change SR_ARITH_ZERO with (2 ^ 2).
  change SR_SIGN with (2 ^ 3). rewrite !flag_testbit by lia.
  rewrite (sp_carry _ _ _ _ _ Hsp), (sp_overflow _ _ _ _ _ Hsp), (sp_zero _ _ _ _ _ Hsp),
    (sp_sign _ _ _ _ _ Hsp), signed_less, difference_zero by done.
  destruct (cond .& 0xf) as [|p|p]; [intros [= <-]; by rewrite Z.leb_antisym| |done].
  do 4 (try (destruct p as [p|p|]; try done)); intros [= <-]; try done;
    rewrite ?(Z.leb_antisym b a), ?(Z.leb_antisym a b), ?(Z.leb_antisym (u40 b)), ?negb_involutive; try done;
    destruct (Z.ltb_spec a b), (Z.eqb_spec a b), (Z.ltb_spec b a); simpl; done || lia.
Qed.

(** C35. After CMP the conditional instructions decide the comparison of the two
    accumulators: GE, L, G, LE, NZ, Z as signed numbers, NC and C as unsigned
    ones, O the overflow of the difference; the comparison changes the status
    register only. *)
Theorem cmp_decides_comparison s opc :
  wf s ->
  let a := acc_at s 0 in
  let b := acc_at s 1 in
  exists s',
    DSPIntArithmetic.cmp opc s = Done tt s' /\
    s' = on_regs (set_r_sr (sr_of s')) s /\
    forall cond c, compare_outcome a b cond = Some c -> CheckCondition cond s' = Done c s'.
Proof.
  intros Hs a b.
  assert (Ha : is_s40 a) by (by apply acc_at_s40).
  assert (Hb : is_s40 b) by (by apply acc_at_s40).
  unfold DSPIntArithmetic.cmp.
  rewrite (mbind_done _ _ _ _ _ (GetLongAcc_eval s 0 Hs ltac:(lia))).
  rewrite (mbind_done _ _ _ _ _ (GetLongAcc_eval s 1 Hs ltac:(lia))).
  fold a b. cbv zeta. rewrite dsp_convert_long_acc_sext.
  eexists. split; [reflexivity|]. split; [done|]. intros cond c Hc.
  unfold CheckCondition, mbind, get_sr, mget, mret. f_equal.
  eapply conditions_after_sub; [exact Ha|exact Hb| |exact Hc].
  rewrite <- isCarrySubtract_spec, <- isOverflow_sub by done. apply update_sr64_spec.
Qed.

(** ** Rounding and saturation *)

Lemma land_lnot_0xffff v : v .& .~ 0xffff = 0x10000 * (v / 0x10000).
Proof.
  change 0xffff with (Z.ones 16). rewrite <- Z.ldiff_land, Z.ldiff_ones_r by lia.
  rewrite Z.shiftl_mul_pow2, Z.shiftr_div_pow2 by lia. change (2 ^ 16) with 0x10000. lia.
Qed.

Lemma bit16_parity v : negb (v .& 0x10000 =? 0) = Z.odd (v / 0x10000).
Proof. change 0x10000 with (2 ^ 16) at 1. rewrite flag_testbit, testbit_odd_div by lia. done. Qed.

(** The rounding of CLRL, ADDPAXZ, MOVPZ and the MUL..Z opcodes: to the
    nearest multiple of 2^16, and a value half-way between two goes to the one
    with an even quotient. *)
Theorem round_half_even v :
  let q := dsp_round_long_acc v / 0x10000 in
  dsp_round_long_acc v = 0x10000 * q /\
  Z.abs (dsp_round_long_acc v - v) <= 0x8000 /\
  (Z.abs (dsp_round_long_acc v - v) = 0x8000 -> Z.even q = true).
Proof.
  cbv zeta. unfold dsp_round_long_acc. rewrite bit16_parity, !land_lnot_0xffff.
  destruct (Z.odd (v / 0x10000)) eqn:Eo.
  - rewrite Z.mul_comm, Z.div_mul by lia. split; [lia|]. split; [Z.div_mod_to_equations; lia|].
    intros Htie. replace ((v + 0x8000) / 0x10000) with (v / 0x10000 + 1) by (Z.div_mod_to_equations; lia).
    rewrite Z.even_add, <- Z.negb_odd, Eo. done.
  - rewrite Z.mul_comm, Z.div_mul by lia. split; [lia|]. split; [Z.div_mod_to_equations; lia|].
    intros Htie. replace ((v + 0x7fff) / 0x10000) with (v / 0x10000) by (Z.div_mod_to_equations; lia).
    rewrite <- Z.negb_odd, Eo. done.
Qed.

Definition clamp32 (v : Z) : Z :=
  if v <? -0x80000000 then -0x80000000 else if 0x7fffffff <? v then 0x7fffffff else v.

Lemma acc_m_val a : wf_acc a -> acc_m a = u16 (acc_val a / 0x10000).
Proof.
  intros Ha. rewrite acc_val_eq by done. destruct a as [l m h], Ha as (? & ? & ?). simpl in *. zlia.
Qed.

(** Reading the middle part of an accumulator in 40-bit mode gives bits 16
    to 31 of the accumulator saturated to 32 bits. *)
Theorem acm_read_saturates s i :
  wf s -> 0 <= i < 2 -> Z.testbit (sr_of s) 14 = true ->
  OpReadRegister (DSP_REG_ACM0 + i) s = Done (u16 (clamp32 (acc_at s i) / 0x10000)) s.
Proof.
  intros Hs Hi Hm. pose proof (acc_at_s40 s i Hs Hi) as Hr.
  destruct (wf_acc_at s i Hs Hi) as (a & Ea & Ha).
  assert (E : OpReadRegister (DSP_REG_ACM0 + i) s
    = if true && negb (acc_at s i =? s32 (acc_at s i))
      then Done (if 0 <? acc_at s i then 0x7fff else 0x8000) s else Done (acc_m a) s).
  { assert (i = 0 \/ i = 1) as [-> | ->] by lia;
      unfold OpReadRegister, GetLongAcc, get_ac, read_arr, IsSRFlagSet, get_sr, mbind, mget, acc_at;
      simpl; rewrite Ea; simpl; change SR_40_MODE_BIT with (2 ^ 14);
      rewrite flag_testbit by lia; unfold sr_of in Hm; rewrite Hm; simpl.
    - change ((DSP_REG_ACM0 + 0) .& 31 - DSP_REG_ACM0) with 0. rewrite Ea. simpl. rewrite Ea. simpl.
      by destruct (negb _).
    - change ((DSP_REG_ACM0 + 1) .& 31 - DSP_REG_ACM0) with 1. rewrite Ea. simpl. rewrite Ea. simpl.
      by destruct (negb _). }
  rewrite E, andb_true_l. change (negb (acc_at s i =? s32 (acc_at s i))) with (isOverS32 (acc_at s i)).
  rewrite isOverS32_spec. unfold clamp32.
  assert (Em : acc_m a = u16 (acc_at s i / 0x10000)) by (unfold acc_at; rewrite Ea; by apply acc_m_val).
  destruct (Z.leb_spec (-0x80000000) (acc_at s i)), (Z.ltb_spec (acc_at s i) 0x80000000); simpl.
  all: rewrite ?Em; repeat (match goal with |- context [?x <? ?y] => destruct (Z.ltb_spec x y) end);
    done || lia.
Qed.

(** ** Shifts *)

Lemma shift_amount opc : 0 <= opc .& 0x3f <= 0x3f.
Proof. apply land_mask_range. lia. Qed.

(** The right-shift count of LSR and ASR: the six bits, negated. *)
Definition right_count (opc : Z) : Z := (- (opc .& 0x3f)) mod 0x40.

Lemma right_count_spec opc : (if opc .& 0x3f =? 0 then 0 else 0x40 - (opc .& 0x3f)) = right_count opc.
Proof.
  pose proof (shift_amount opc). unfold right_count.
  destruct (Z.eqb_spec (opc .& 0x3f) 0) as [->|]; [done|Z.div_mod_to_equations; lia].
Qed.

Lemma sext40_s64_u64 v : sext40 (s64 (u64 v)) = sext40 v.
Proof. unfold sext40. zlia. Qed.

Lemma sext40_shiftl_u64 v n : 0 <= n -> sext40 (s64 (u64 (u64 v .<< n))) = sext40 (v * 2 ^ n).
Proof.
  intros Hn. rewrite sext40_s64_u64, Z.shiftl_mul_pow2 by done. unfold sext40, u64. f_equal.
  rewrite <- (Zplus_mod_idemp_l _ 0x8000000000 0x10000000000).
  rewrite <- (Zplus_mod_idemp_l (v * 2 ^ n) 0x8000000000 0x10000000000).
  f_equal. f_equal. rewrite <- (Zmult_mod_idemp_l _ (2 ^ n) 0x10000000000),
    <- (Zmult_mod_idemp_l v (2 ^ n) 0x10000000000).
  f_equal. f_equal. Z.div_mod_to_equations. lia.
Qed.

(** The immediate shifts: LSL and ASL multiply by a power of two modulo
    2^40, ASR divides the signed accumulator and LSR the unsigned 40-bit value
    by a power of two, rounding down; the count of a right shift is the negated
    six-bit field. *)
Theorem immediate_shifts s opc :
  wf s ->
  let d := (opc .>> 8) .& 0x01 in
  let a := acc_at s d in
  let n := opc .& 0x3f in
  let m := right_count opc in
  let result v := Done tt (with_acc_sr d v (update_sr64 v false false (sr_of s)) s) in
  DSPIntArithmetic.lsl opc s = result (sext40 (a * 2 ^ n)) /\
  DSPIntArithmetic.asl opc s = result (sext40 (a * 2 ^ n)) /\
  DSPIntArithmetic.asr opc s = result (a / 2 ^ m) /\
  DSPIntArithmetic.lsr opc s = result (sext40 (u40 a / 2 ^ m)).
Proof.
  intros Hs d a n m result. pose proof (bit_range opc 8) as Hd. fold d in Hd.
  pose proof (acc_at_s40 s d Hs Hd) as Ha. fold a in Ha.
  pose proof (shift_amount opc) as Hn. fold n in Hn.
  assert (Hm : 0 <= m < 0x40) by (apply Z.mod_pos_bound; lia).
  assert (Hp : 1 <= 2 ^ m) by (change 1 with (2 ^ 0); apply Z.pow_le_mono_r; lia).
  unfold DSPIntArithmetic.lsl, DSPIntArithmetic.asl, DSPIntArithmetic.asr, DSPIntArithmetic.lsr.
  rewrite right_count_spec. fold d n m.
  rewrite !(mbind_done _ _ _ _ _ (GetLongAcc_eval s d Hs Hd)). fold a.
  rewrite !acc_result_eval by done. rewrite sext40_shiftl_u64, !Z.shiftr_div_pow2 by lia.
  assert (Hdiv : sext40 (a / 2 ^ m) = a / 2 ^ m).
  { apply sext40_id. unfold is_s40 in *. split.
    - apply Z.div_le_lower_bound; nia.
    - apply Z.div_lt_upper_bound; nia. }
  assert (Hlsr : sext40 (s64 ((u64 a .& 0x000000FFFFFFFFFF) / 2 ^ m)) = sext40 (u40 a / 2 ^ m)).
  { rewrite (land_ones_mod 40) by (lia || done). change (2 ^ 40) with 0x10000000000.
    replace (u64 a mod 0x10000000000) with (u40 a) by (unfold u40; zlia).
    assert (0 <= u40 a / 2 ^ m < 0x10000000000).
    { assert (0 <= u40 a < 0x10000000000) by (apply Z.mod_pos_bound; lia). split.
      - apply Z.div_pos; lia.
      - apply Z.div_lt_upper_bound; nia. }
    f_equal. zlia. }
  rewrite Hdiv, Hlsr. done.
Qed.
End Eval.

(** ** The theorems at concrete machines *)

Theorem add_correct_witness :
  exists s', DSPIntArithmetic.add 0x4c00 (accs 0x7fffffffff 1) = Done tt s' /\
    acc_at s' 0 = -0x8000000000 /\ Z.testbit (sr_of s') 1 = true /\ Z.testbit (sr_of s') 0 = false.
Proof.
  destruct (add_correct (accs 0x7fffffffff 1) 0x4c00 ltac:(by apply accs_wf)) as (s' & E & Ha & _ & Hsp & _).
  exists s'. split; [exact E|]. split; [exact Ha|].
  split; [exact (sp_overflow _ _ _ _ _ Hsp)|exact (sp_carry _ _ _ _ _ Hsp)].
Defined.

Theorem sub_correct_witness :
  exists s', DSPIntArithmetic.sub 0x5c00 (accs 3 5) = Done tt s' /\
    acc_at s' 0 = -2 /\ Z.testbit (sr_of s') 0 = false.
Proof.
  destruct (sub_correct (accs 3 5) 0x5c00 ltac:(by apply accs_wf)) as (s' & E & Ha & _ & Hsp & _).
  exists s'. split; [exact E|]. split; [exact Ha|exact (sp_carry _ _ _ _ _ Hsp)].
Defined.

Theorem neg_correct_witness :
  exists s', DSPIntArithmetic.neg 0x7c00 (accs (-0x8000000000) 0) = Done tt s' /\
    acc_at s' 0 = -0x8000000000 /\ Z.testbit (sr_of s') 1 = true.
Proof.
  destruct (neg_correct (accs (-0x8000000000) 0) 0x7c00 ltac:(by apply accs_wf))
    as (s' & E & Ha & _ & Ho & _).
  exists s'. split; [exact E|]. split; [exact Ha|exact Ho].
Defined.

Theorem cmp_decides_comparison_witness :
  exists s', DSPIntArithmetic.cmp 0x8200 (accs (-7) 4) = Done tt s' /\
    CheckCondition 0x1 s' = Done true s' /\ CheckCondition 0x7 s' = Done true s'.
Proof.
  destruct (cmp_decides_comparison (accs (-7) 4) 0x8200 ltac:(by apply accs_wf)) as (s' & E & _ & Hc).
  exists s'. split; [exact E|]. split; by apply Hc.
Defined.

Theorem acm_read_saturates_witness :
  let s := on_regs (set_r_sr SR_40_MODE_BIT) (accs 0x123456789 0) in
  OpReadRegister (DSP_REG_ACM0 + 0) s = Done 0x7fff s.
Proof.
  apply (acm_read_saturates (on_regs (set_r_sr SR_40_MODE_BIT) (accs 0x123456789 0)) 0);
    [|done|reflexivity].
  apply wf_on_regs; [by apply accs_wf|]. intros q Hq. by wf_regs_set.
Defined.

Theorem immediate_shifts_witness :
  exists s', DSPIntArithmetic.asr 0x14fc (accs (-17) 0) = Done tt s' /\ acc_at s' 0 = -2.
Proof.
  destruct (immediate_shifts (accs (-17) 0) 0x14fc ltac:(by apply accs_wf)) as (_ & _ & E & _).
  change ((0x14fc .>> 8) .& 0x01) with 0 in E.
  assert (Ev : acc_at (accs (-17) 0) 0 / 2 ^ right_count 0x14fc = -2) by reflexivity.
  rewrite Ev in E. eexists. split; [exact E|]. clear E Ev.
  apply acc_at_with_eq; [by apply accs_wf|done|done].
Defined.

(** * DSP: what the multiplications mean

    The multiplier opcodes as exact arithmetic: the product of the chosen
    operand parts under the two mode bits of the status register, the
    accumulation modulo 2^40, and the pipelined multiply-and-accumulate forms. *)

Section Products.
Context {H : Type} {HH : DSPHost H}.
Implicit Types s : SDSP H.

(** SR_MUL_MODIFY: products are doubled unless it is set. *)
Definition mul_scale (sr : Z) : Z := if Z.testbit sr 13 then 1 else 2.

Definition ax_at s i : Ax := default (mkAx 0 0) (zget (r_ax (r s)) i).
Definition axl_at s i : Z := s16 (ax_l (ax_at s i)).
Definition axh_at s i : Z := s16 (ax_h (ax_at s i)).

Definition with_prod (v : Z) s : SDSP H := on_regs (set_r_prod (set_product v)) s.

Lemma ax_at_wf s i : wf s -> 0 <= i < 2 -> zget (r_ax (r s)) i = Some (ax_at s i) /\ wf_ax (ax_at s i).
Proof.
  intros Hs Hi. destruct (zget_arr 2 wf_ax _ i (wf_axs _ (wf_r s Hs)) Hi) as (a & E & Ha).
  unfold ax_at. rewrite E. done.
Qed.

Lemma ax_low_eval s i : wf s -> 0 <= i < 2 ->
  DSPIntMultiplier.ax_low_u16 i s = Done (ax_l (ax_at s i)) s.
Proof.
  intros Hs Hi. destruct (ax_at_wf s i Hs Hi) as [E [Hl _]].
  unfold DSPIntMultiplier.ax_low_u16, GetAXLow, get_ax, read_arr, mbind, mget. rewrite E. simpl.
  unfold mret. by rewrite u16_s16, u16_id.
Qed.

Lemma ax_high_eval s i : wf s -> 0 <= i < 2 ->
  DSPIntMultiplier.ax_high_u16 i s = Done (ax_h (ax_at s i)) s.
Proof.
  intros Hs Hi. destruct (ax_at_wf s i Hs Hi) as [E [_ Hh]].
  unfold DSPIntMultiplier.ax_high_u16, GetAXHigh, get_ax, read_arr, mbind, mget. rewrite E. simpl.
  unfold mret. by rewrite u16_s16, u16_id.
Qed.

Lemma prod_at_with v s : prod_at (with_prod v s) = sext40 v.
Proof. apply prod_long_set. Qed.

(** The product [GetMultiplyProduct] returns, without the shift. *)
Definition raw_product (mul_unsigned : bool) (a b sign : Z) : Z :=
  if (sign =? 1) && mul_unsigned then u32 (a * b)
  else if (sign =? 2) && mul_unsigned then a * s16 b
  else s16 a * s16 b.

Lemma GetMultiplyProduct_eval s a b sign :
  GetMultiplyProduct a b sign s =
    Done (mul_scale (sr_of s) * raw_product (Z.testbit (sr_of s) 15) a b sign) s.
Proof.
  unfold GetMultiplyProduct, IsSRFlagSet, get_sr, mbind, mget, mret. f_equal.
  change SR_MUL_UNSIGNED with (2 ^ 15). change SR_MUL_MODIFY with (2 ^ 13).
  rewrite !flag_testbit by lia. unfold multiply_product, mul_scale, sr_of, raw_product.
  destruct (Z.testbit _ 13); simpl; rewrite ?Z.shiftl_mul_pow2 by lia; lia.
Qed.

Lemma Multiply_eval s a b sign :
  Multiply a b sign s =
    Done (mul_scale (sr_of s) * raw_product (Z.testbit (sr_of s) 15) a b sign) s.
Proof. apply GetMultiplyProduct_eval. Qed.

Lemma raw_product_signed u a b : raw_product u a b 0 = s16 a * s16 b.
Proof. done. Qed.

Lemma s16_product_bound a b : Z.abs (s16 a * s16 b) <= 0x40000000.
Proof. pose proof (s16_range a). pose proof (s16_range b). unfold is_s16 in *. nia. Qed.

Lemma mul_scale_bound sr v : Z.abs v <= 0x100000000 -> is_s40 (mul_scale sr * v).
Proof. unfold mul_scale, is_s40. destruct (Z.testbit sr 13); lia. Qed.

Lemma mul_eval s opc : wf s ->
  let i := (opc .>> 11) .& 0x1 in
  DSPIntMultiplier.mul opc s =
    Done tt (with_prod (mul_scale (sr_of s) * (axh_at s i * axl_at s i)) s).
Proof.
  intros Hs i. pose proof (bit_range opc 11) as Hi. fold i in Hi.
  unfold DSPIntMultiplier.mul. fold i.
  rewrite (mbind_done _ _ _ _ _ (ax_low_eval s i Hs Hi)).
  rewrite (mbind_done _ _ _ _ _ (ax_high_eval s i Hs Hi)).
  rewrite (mbind_done _ _ _ _ _ (Multiply_eval s _ _ 0)), raw_product_signed. done.
Qed.

(** MUL: the product register holds the exact signed product of the two
    halves of an auxiliary accumulator, doubled unless the status register's
    MUL_MODIFY bit is set; nothing else changes. *)
Theorem mul_exact s opc :
  wf s ->
  let i := (opc .>> 11) .& 0x1 in
  exists s',
    DSPIntMultiplier.mul opc s = Done tt s' /\
    prod_at s' = mul_scale (sr_of s) * (axl_at s i * axh_at s i) /\
    s' = on_regs (set_r_prod (r_prod (r s'))) s.
Proof.
  intros Hs i. rewrite mul_eval by done. eexists. split; [reflexivity|]. split; [|done].
  rewrite prod_at_with, sext40_id; [unfold i; ring|].
  pose proof (s16_product_bound (ax_h (ax_at s i)) (ax_l (ax_at s i))).
  apply mul_scale_bound. unfold axh_at, axl_at. fold i. lia.
Qed.

(** ** Multiply and accumulate *)

Lemma madd_eval s opc : wf s ->
  let i := (opc .>> 8) .& 0x1 in
  DSPIntMultiplier.madd opc s =
    Done tt (with_prod (prod_at s + mul_scale (sr_of s) * (axl_at s i * axh_at s i)) s).
Proof.
  intros Hs i. pose proof (bit_range opc 8) as Hi. fold i in Hi.
  unfold DSPIntMultiplier.madd. fold i.
  rewrite (mbind_done _ _ _ _ _ (ax_low_eval s i Hs Hi)).
  rewrite (mbind_done _ _ _ _ _ (ax_high_eval s i Hs Hi)).
  unfold MultiplyAdd, mbind at 1 2. unfold GetLongProduct at 1, mbind at 1, get_prod, mget, mret at 1.
  rewrite (mbind_done _ _ _ _ _ (GetMultiplyProduct_eval s _ _ 0)), raw_product_signed. done.
Qed.

(** One step of a filter: a new operand pair in [ax0], then MADD. *)
Definition load_and_madd (xy : Z * Z) : M (SDSP H) unit :=
  put_ax 0 (mkAx (u16 (fst xy)) (u16 (snd xy))) ;;; DSPIntMultiplier.madd 0x4200.
Fixpoint dot_loop (xs : list (Z * Z)) : M (SDSP H) unit :=
  match xs with
  | [] => mret tt
  | xy :: xs' => load_and_madd xy ;;; dot_loop xs'
  end.
Definition dot (xs : list (Z * Z)) : Z := fold_right (fun xy a => fst xy * snd xy + a) 0 xs.

Lemma put_ax_eval s i x : wf s -> 0 <= i < 2 ->
  put_ax i x s = Done tt (on_regs (fun q => set_r_ax (<[Z.to_nat i := x]> (r_ax q)) q) s).
Proof.
  intros Hs Hi. unfold put_ax, write_arr, mbind, mget. rewrite zset_in; [done|].
  destruct (wf_axs _ (wf_r s Hs)) as [Hl _]. lia.
Qed.

Lemma load_and_madd_eval s x y : wf s -> is_s16 x -> is_s16 y ->
  exists s', load_and_madd (x, y) s = Done tt s' /\ wf s' /\ sr_of s' = sr_of s /\
    prod_at s' = sext40 (prod_at s + mul_scale (sr_of s) * (x * y)).
Proof.
  intros Hs Hx Hy. unfold load_and_madd. simpl fst. simpl snd.
  set (a := mkAx (u16 x) (u16 y)). assert (Hw : wf_ax a) by (split; apply is_u16_u16).
  pose proof (safe_put_ax (H:=H) 0 a ltac:(lia) Hw s Hs) as Hp.
  rewrite (put_ax_eval s 0 a Hs ltac:(lia)) in Hp. destruct Hp as [Hs1 _].
  rewrite (mbind_done _ _ _ _ _ (put_ax_eval s 0 a Hs ltac:(lia))).
  rewrite madd_eval by done. eexists. split; [reflexivity|].
  split; [apply wf_on_regs; [done|intros; wf_regs_set; apply set_product_wf]|]. split; [done|].
  rewrite prod_at_with. change ((0x4200 .>> 8) .& 0x1) with 0. f_equal.
  destruct (wf_axs _ (wf_r s Hs)) as [Hl _].
  unfold axl_at, axh_at, ax_at. simpl. rewrite zget_insert_eq by lia. unfold prod_at, sr_of; simpl.
  replace (s16 (u16 x)) with x by zlia. replace (s16 (u16 y)) with y by zlia. done.
Qed.

Lemma sext40_add a b : sext40 (sext40 a + b) = sext40 (a + b).
Proof. unfold sext40. zlia. Qed.

(** A run of MADDs over operand pairs accumulates their dot product
    modulo 2^40 in the product register, exactly when it fits in 40 bits. *)
Theorem madd_dot_product s xs :
  wf s -> Forall (fun xy => is_s16 (fst xy) /\ is_s16 (snd xy)) xs ->
  exists s',
    dot_loop xs s = Done tt s' /\ wf s' /\
    sext40 (prod_at s') = sext40 (prod_at s + mul_scale (sr_of s) * dot xs).
Proof.
  intros Hs Hxs. revert s Hs. induction Hxs as [|[x y] xs [Hx Hy] _ IH]; intros s Hs; simpl.
  - eexists. split; [done|]. split; [done|]. f_equal. lia.
  - destruct (load_and_madd_eval s x y Hs Hx Hy) as (s1 & E1 & Hs1 & Hsr & Hp).
    destruct (IH s1 Hs1) as (s' & E' & Hs' & Hp').
    rewrite (mbind_done _ _ _ _ _ E1). eexists. split; [exact E'|]. split; [done|].
    rewrite Hp', Hp, sext40_add, Hsr. f_equal. simpl. lia.
Qed.

(** ** The MULX forms: any half of [ax0] with any half of [ax1] *)

(** A low half is unsigned under SR_MUL_UNSIGNED; a high half is always signed. *)
Definition mulx_value (mul_unsigned : bool) (part : Z) (x : Ax) : Z :=
  if part =? 0 then if mul_unsigned then ax_l x else s16 (ax_l x) else s16 (ax_h x).

Definition mulx_product s (part0 part1 : Z) : Z :=
  let u := Z.testbit (sr_of s) 15 in
  mul_scale (sr_of s) * (mulx_value u part0 (ax_at s 0) * mulx_value u part1 (ax_at s 1)).

Lemma mulx_operand_eval s part i : wf s -> 0 <= i < 2 ->
  DSPIntMultiplier.mulx_operand part i s =
    Done (if part =? 0 then ax_l (ax_at s i) else ax_h (ax_at s i)) s.
Proof.
  intros. unfold DSPIntMultiplier.mulx_operand.
  destruct (part =? 0); [by apply ax_low_eval|by apply ax_high_eval].
Qed.

Lemma MultiplyMulX_eval s p0 p1 : wf s -> 0 <= p0 < 2 -> 0 <= p1 < 2 ->
  MultiplyMulX p0 p1 (if p0 =? 0 then ax_l (ax_at s 0) else ax_h (ax_at s 0))
    (if p1 =? 0 then ax_l (ax_at s 1) else ax_h (ax_at s 1)) s = Done (mulx_product s p0 p1) s.
Proof.
  intros Hs H0 H1. destruct (ax_at_wf s 0 Hs ltac:(lia)) as [_ [L0 _]].
  destruct (ax_at_wf s 1 Hs ltac:(lia)) as [_ [L1 _]].
  unfold MultiplyMulX, mulx_product, mulx_value. set (u := Z.testbit (sr_of s) 15).
  assert (p0 = 0 \/ p0 = 1) as [-> | ->] by lia; assert (p1 = 0 \/ p1 = 1) as [-> | ->] by lia; simpl;
    rewrite Multiply_eval; fold u; clearbody u; unfold raw_product; simpl; f_equal; f_equal;
    destruct u; try lia.
  unfold is_u16 in *. apply Z.mod_small. nia.
Qed.

Lemma mulx_product_exact s p0 p1 : wf s -> is_s40 (mulx_product s p0 p1).
Proof.
  intros Hs. destruct (ax_at_wf s 0 Hs ltac:(lia)) as [_ [L0 _]].
  destruct (ax_at_wf s 1 Hs ltac:(lia)) as [_ [L1 _]].
  unfold mulx_product. cbv zeta. apply mul_scale_bound.
  assert (Hv : forall u p x, wf_ax x -> Z.abs (mulx_value u p x) <= 0x10000).
  { intros u p x [Hl Hh]. unfold mulx_value. pose proof (s16_range (ax_l x)).
    pose proof (s16_range (ax_h x)). unfold is_s16, is_u16 in *. destruct (p =? 0), u; lia. }
  pose proof (Hv (Z.testbit (sr_of s) 15) p0 _ (proj2 (ax_at_wf s 0 Hs ltac:(lia)))).
  pose proof (Hv (Z.testbit (sr_of s) 15) p1 _ (proj2 (ax_at_wf s 1 Hs ltac:(lia)))).
  rewrite Z.abs_mul. nia.
Qed.

Lemma wf_with_prod v s : wf s -> wf (with_prod v s).
Proof. intros. apply wf_on_regs; [done|intros; wf_regs_set; apply set_product_wf]. Qed.

Lemma mul_result_eval s d v a : wf s -> 0 <= d < 2 ->
  DSPIntMultiplier.mul_result d v a s =
    Done tt (with_acc_sr d (sext40 a) (update_sr64 (sext40 a) false false (sr_of s)) (with_prod v s)).
Proof.
  intros Hs Hd. unfold DSPIntMultiplier.mul_result, ZeroWriteBackLog.
  rewrite (mbind_done _ _ _ _ _ (eq_refl : mret tt s = Done tt s)).
  unfold SetLongProduct, put_prod, mmodify. unfold mbind at 1.
  apply (write_and_flag (with_prod v s) d a (fun w => UpdateSR64 w false false)
           (fun w => update_sr64 w false false)); [by apply wf_with_prod|done|done].
Qed.

(** MULXAC: while the new product of the chosen halves is formed, the old
    product is added to the accumulator modulo 2^40; the product is exact, with
    low halves unsigned exactly when SR_MUL_UNSIGNED is set; the flags describe
    the accumulator, never with carry or overflow. *)
Theorem mulxac_pipelined s opc :
  wf s ->
  let d := (opc .>> 8) .& 0x1 in
  let p1 := (opc .>> 11) .& 0x1 in
  let p0 := (opc .>> 12) .& 0x1 in
  exists s',
    DSPIntMultiplier.mulxac opc s = Done tt s' /\
    acc_at s' d = sext40 (acc_at s d + prod_at s) /\
    acc_at s' (1 - d) = acc_at s (1 - d) /\
    prod_at s' = mulx_product s p0 p1 /\
    sr64_spec (sext40 (acc_at s d + prod_at s)) false false (sr_of s) (sr_of s').
Proof.
  intros Hs d p1 p0. pose proof (bit_range opc 8) as Hd. fold d in Hd.
  pose proof (bit_range opc 11) as H1. fold p1 in H1. pose proof (bit_range opc 12) as H0. fold p0 in H0.
  unfold DSPIntMultiplier.mulxac. fold d p1 p0.
  rewrite (mbind_done _ _ _ _ _ (GetLongAcc_eval s d Hs Hd)).
  rewrite (mbind_done _ _ _ _ _ (eq_refl : GetLongProduct s = Done (prod_at s) s)). cbv zeta.
  rewrite (mbind_done _ _ _ _ _ (mulx_operand_eval s p0 0 Hs ltac:(lia))).
  rewrite (mbind_done _ _ _ _ _ (mulx_operand_eval s p1 1 Hs ltac:(lia))).
  rewrite (mbind_done _ _ _ _ _ (MultiplyMulX_eval s p0 p1 Hs H0 H1)).
  rewrite mul_result_eval by done. pose proof (wf_with_prod (mulx_product s p0 p1) s Hs) as Hw.
  eexists. split; [reflexivity|].
  split; [apply acc_at_with_eq; [done..|apply sext40_range]|].
  split; [rewrite acc_at_with_ne; [done|done|done|lia]|].
  split; [|apply update_sr64_spec].
  transitivity (sext40 (mulx_product s p0 p1)); [apply prod_long_set|].
  by apply sext40_id, mulx_product_exact.
Qed.

(** CLRP leaves the pattern of the hardware, whose four words denote zero. *)
Theorem clrp_is_zero s opc :
  exists s', DSPIntMultiplier.clrp opc s = Done tt s' /\ prod_at s' = 0 /\
    s' = on_regs (set_r_prod (mkProd 0 0xfff0 0xff 0x10)) s.
Proof. eexists. split; [reflexivity|]. split; reflexivity. Qed.

(** CLRL: the accumulator and the flags it leaves. *)
Lemma clrl_eval s opc : wf s ->
  let d := (opc .>> 8) .& 0x1 in
  let v := dsp_round_long_acc (acc_at s d) in
  DSPIntArithmetic.clrl opc s =
    Done tt (with_acc_sr d (sext40 v) (update_sr64 v false false (sr_of s)) s).
Proof.
  intros Hs d v. pose proof (bit_range opc 8) as Hd. fold d in Hd.
  unfold DSPIntArithmetic.clrl. fold d. rewrite (mbind_done _ _ _ _ _ (GetLongAcc_eval s d Hs Hd)).
  fold v. cbv zeta. unfold ZeroWriteBackLog.
  rewrite (mbind_done _ _ _ _ _ (eq_refl : mret tt s = Done tt s)).
  rewrite (mbind_done _ _ _ _ _ (SetLongAcc_eval s d v Hs Hd)). done.
Qed.
End Products.

(** ** Flags of a value that is not sign-extended *)

(** CLRL hands [UpdateSR64] the rounded value before it is truncated to 40
    bits: near the upper limit that value is not a sign-extended 40-bit number,
    and the sign flag says positive while the accumulator ends up negative. *)
Theorem clrl_flags_disagree :
  let s := accs 0x7fffff8000 0 in
  IsProperlySignExtended (dsp_round_long_acc (acc_at s 0)) = false /\
  exists s', DSPIntArithmetic.clrl 0xfc00 s = Done tt s' /\
    acc_at s' 0 = -0x8000000000 /\ Z.testbit (sr_of s') 3 = false.
Proof.
  split; [reflexivity|]. rewrite clrl_eval by by apply accs_wf.
  eexists. split; [reflexivity|]. split; reflexivity.
Qed.

(** ** The theorems at concrete machines *)

Theorem mul_exact_witness :
  exists s', DSPIntMultiplier.mul 0x9000 (sample 0 0 (mkAx 0xfffe 7) (mkAx 0 0)) = Done tt s' /\
    prod_at s' = -28.
Proof.
  destruct (mul_exact (sample 0 0 (mkAx 0xfffe 7) (mkAx 0 0)) 0x9000 ltac:(sample_side))
    as (s' & E & Hp & _).
  exists s'. split; [exact E|exact Hp].
Defined.

Theorem madd_dot_product_witness :
  exists s', dot_loop [(2, 3); (-4, 5)] gc_init = Done tt s' /\ sext40 (prod_at s') = -28.
Proof.
  destruct (madd_dot_product gc_init [(2, 3); (-4, 5)] gc_init_wf) as (s' & E & _ & Hp).
  - repeat constructor; discriminate.
  - exists s'. split; [exact E|exact Hp].
Defined.

Theorem mulxac_pipelined_witness :
  exists s', DSPIntMultiplier.mulxac 0xa400 (sample 9 0 (mkAx 6 0) (mkAx 0 7)) = Done tt s' /\
    acc_at s' 0 = 9 /\ prod_at s' = 2 * (6 * 0).
Proof.
  destruct (mulxac_pipelined (sample 9 0 (mkAx 6 0) (mkAx 0 7)) 0xa400 ltac:(sample_side))
    as (s' & E & Ha & _ & Hp & _).
  exists s'. split; [exact E|]. split; [exact Ha|exact Hp].
Defined.
