(* ===== verification/DSPControlFlow.v ===== *)
(** * DSP: what the control flow means

    The ring-buffer stacks of [DSPStacks.cpp] as lists, exception entry and
    return, and the hardware loops. *)
From S2P Require Export DSPAlu.
From S2P Require DSPIntBranch.

Section Stacks.
Context {H : Type} {HH : DSPHost H}.
Implicit Types s : SDSP H.

(** ** A stack as the list of its 33 cells, the top first

    The top is the register [st]; below it are the 32 cells of the ring buffer,
    going down from the stack pointer. *)

Definition st_at s i : Z := default 0 (zget (r_st (r s)) i).
Definition ptr_at s i : Z := default 0 (zget (reg_stack_ptrs s) i).
Definition ring_at s i : list Z := default [] (zget (reg_stacks s) i).

Definition ring_cell (ring : list Z) (p : Z) (k : nat) : Z :=
  default 0 (zget ring ((p - Z.of_nat k) mod 32)).
Definition ring_cells (ring : list Z) (p : Z) : list Z := map (ring_cell ring p) (seq 0 32).
Definition contents s i : list Z := st_at s i :: ring_cells (ring_at s i) (ptr_at s i).

(** Everything but the stacks stays. *)
Definition with_stacks st ptrs stacks s : SDSP H :=
  set_reg_stacks stacks (set_reg_stack_ptrs ptrs (on_regs (set_r_st st) s)).
Definition only_stacks s s' : Prop := exists st ptrs stacks, s' = with_stacks st ptrs stacks s.

Lemma only_stacks_refl s : only_stacks s s.
Proof. exists (r_st (r s)), (reg_stack_ptrs s), (reg_stacks s). by destruct s as [[]]. Qed.

Lemma only_stacks_with s st ptrs stacks : only_stacks s (with_stacks st ptrs stacks s).
Proof. by exists st, ptrs, stacks. Qed.

Lemma only_stacks_sr s s' : only_stacks s s' -> sr_of s' = sr_of s.
Proof. by intros (? & ? & ? & ->). Qed.

Lemma only_stacks_trans s1 s2 s3 : only_stacks s1 s2 -> only_stacks s2 s3 -> only_stacks s1 s3.
Proof. intros (? & ? & ? & ->) (st & ptrs & stacks & ->). by exists st, ptrs, stacks. Qed.

Lemma ptr_step d p : 0 <= p < 32 -> (d = 1 \/ d = -1) -> u8 (u8 (p + d) .& DSP_STACK_MASK) = (p + d) mod 32.
Proof.
  intros Hp Hd. unfold DSP_STACK_MASK. rewrite (land_ones_mod 5) by (lia || done).
  change (2 ^ 5) with 32. zlia.
Qed.

(** Pushing on the ring puts the cell in front of the others and drops the last. *)
Lemma ring_cells_push ring p v : length ring = 32%nat -> 0 <= p < 32 ->
  ring_cells (<[Z.to_nat ((p + 1) mod 32) := v]> ring) ((p + 1) mod 32)
  = v :: take 31 (ring_cells ring p).
Proof.
  intros Hl Hp. assert (Hq : 0 <= (p + 1) mod 32 < 32) by (apply Z.mod_pos_bound; lia).
  unfold ring_cells. change (seq 0 32) with (0%nat :: seq 1 31) at 1. rewrite <- seq_shift, map_cons, map_map.
  change (take 31 (map (ring_cell ring p) (seq 0 32))) with (map (ring_cell ring p) (seq 0 31)).
  f_equal.
  - unfold ring_cell. rewrite Z.sub_0_r, Z.mod_mod, zget_insert_eq by lia. done.
  - apply map_ext_in. intros k Hk. apply in_seq in Hk. unfold ring_cell.
    assert (E : ((p + 1) mod 32 - Z.of_nat (S k)) mod 32 = (p - Z.of_nat k) mod 32).
    { rewrite Zminus_mod_idemp_l. f_equal. lia. }
    rewrite E, zget_insert_ne; [done|lia|]. rewrite <- E. Z.div_mod_to_equations. lia.
Qed.

(** Popping rotates the ring: the cell taken comes back at the far end. *)
Lemma ring_cells_pop ring p : 0 <= p < 32 ->
  ring_cells ring p
  = ring_cell ring p 0 :: take 31 (ring_cells ring ((p - 1) mod 32)) /\
  ring_cells ring ((p - 1) mod 32) = take 31 (ring_cells ring ((p - 1) mod 32)) ++ [ring_cell ring p 0].
Proof.
  intros Hp. unfold ring_cells.
  change (take 31 (map (ring_cell ring ((p - 1) mod 32)) (seq 0 32)))
    with (map (ring_cell ring ((p - 1) mod 32)) (seq 0 31)).
  split.
  - change (seq 0 32) with (0%nat :: seq 1 31). rewrite <- seq_shift, map_cons, map_map. f_equal.
    apply map_ext. intros k. unfold ring_cell. do 2 f_equal. rewrite Zminus_mod_idemp_l. f_equal. lia.
  - change (seq 0 32) with (seq 0 31 ++ [31%nat]). rewrite map_app. f_equal. simpl. f_equal.
    unfold ring_cell. do 2 f_equal. rewrite Zminus_mod_idemp_l. Z.div_mod_to_equations. lia.
Qed.

Lemma stack_parts s reg : wf s ->
  let i := stack_index reg in
  (zget (r_st (r s)) i = Some (st_at s i) /\ is_u16 (st_at s i)) /\
  (zget (reg_stack_ptrs s) i = Some (ptr_at s i) /\ 0 <= ptr_at s i < 32) /\
  (zget (reg_stacks s) i = Some (ring_at s i) /\ wf_stack (ring_at s i)).
Proof.
  intros Hs i. pose proof (stack_index_range reg) as Hi. fold i in Hi. unfold st_at, ptr_at, ring_at.
  destruct (zget_arr _ _ _ i (wf_st _ (wf_r s Hs)) Hi) as (a & -> & ?).
  destruct (zget_arr _ _ _ i (wf_ptrs s Hs) Hi) as (p & -> & ?).
  destruct (zget_arr _ _ _ i (wf_stacks s Hs) Hi) as (l & -> & ?). done.
Qed.

Lemma ring_cell_in s reg k : wf s ->
  let i := stack_index reg in
  zget (ring_at s i) ((ptr_at s i - Z.of_nat k) mod 32)
  = Some (ring_cell (ring_at s i) (ptr_at s i) k).
Proof.
  intros Hs i. destruct (stack_parts s reg Hs) as (_ & _ & _ & Hw). fold i in Hw.
  unfold ring_cell. edestruct (zget_arr _ _ _ ((ptr_at s i - Z.of_nat k) mod 32) Hw) as (v & -> & _);
    [apply Z.mod_pos_bound; done|done].
Qed.

Lemma stack_lengths s : wf s ->
  Z.of_nat (length (r_st (r s))) = 4 /\ Z.of_nat (length (reg_stack_ptrs s)) = 4 /\
  Z.of_nat (length (reg_stacks s)) = 4.
Proof. intros Hs. split; [apply (wf_st _ (wf_r s Hs))|]. split; [apply (wf_ptrs s Hs)|apply (wf_stacks s Hs)]. Qed.

Definition set_at {A} (i : Z) (x : A) (l : list A) : list A := <[Z.to_nat i := x]> l.

Lemma StoreStack_eval s reg v : wf s ->
  let i := stack_index reg in
  let p := (ptr_at s i + 1) mod 32 in
  StoreStack reg v s =
    Done tt (with_stacks (set_at i v (r_st (r s))) (set_at i p (reg_stack_ptrs s))
      (set_at i (<[Z.to_nat p := st_at s i]> (ring_at s i)) (reg_stacks s)) s).
Proof.
  intros Hs i p. destruct (stack_parts s reg Hs) as ([Est _] & [Ep Hp] & [Er Hr]).
  fold i in Est, Ep, Hp, Er, Hr. destruct (stack_lengths s Hs) as (L1 & L2 & L3).
  pose proof (stack_index_range reg) as Hi. fold i in Hi.
  assert (Hq : 0 <= p < 32) by (apply Z.mod_pos_bound; lia).
  unfold StoreStack, read_arr, write_arr, get_st, put_st, mbind, mget, mmodify. fold i.
  rewrite Ep. simpl. rewrite ptr_step by auto. fold p. rewrite zset_in by lia. simpl.
  unfold read_arr, mbind, mget. simpl. rewrite Est. simpl. rewrite Er. simpl.
  rewrite zset_in by (destruct Hr as [-> _]; done). simpl. rewrite zset_in by lia. simpl.
  unfold write_arr, mbind, mget. simpl. rewrite zset_in by lia. done.
Qed.

Lemma PopStack_eval s reg : wf s ->
  let i := stack_index reg in
  PopStack reg s =
    Done (st_at s i)
      (with_stacks (set_at i (ring_cell (ring_at s i) (ptr_at s i) 0) (r_st (r s)))
        (set_at i ((ptr_at s i - 1) mod 32) (reg_stack_ptrs s)) (reg_stacks s) s).
Proof.
  intros Hs i. destruct (stack_parts s reg Hs) as ([Est _] & [Ep Hp] & [Er Hr]).
  fold i in Est, Ep, Hp, Er, Hr. destruct (stack_lengths s Hs) as (L1 & L2 & L3).
  pose proof (stack_index_range reg) as Hi. fold i in Hi.
  pose proof (ring_cell_in s reg 0 Hs) as Ec. cbv zeta in Ec. fold i in Ec. change (Z.of_nat 0) with 0 in Ec. rewrite Z.sub_0_r, Z.mod_small in Ec by lia.
  unfold PopStack, read_arr, write_arr, get_st, put_st, read_arr, write_arr, mbind, mget, mmodify. fold i.
  rewrite Est. simpl. rewrite Ep. simpl. rewrite Er. simpl. rewrite Ec. simpl.
  rewrite zset_in by lia. simpl. rewrite zset_in by lia. simpl.
  change (ptr_at s i - 1) with (ptr_at s i + -1). rewrite ptr_step by auto. done.
Qed.

Lemma zget_set_at {A} (d : A) i x (l : list A) :
  0 <= i < Z.of_nat (length l) -> default d (zget (set_at i x l) i) = x.
Proof. intros. unfold set_at. by rewrite zget_insert_eq. Qed.
Lemma zget_set_at_ne {A} (d : A) i j x (l : list A) :
  0 <= i < Z.of_nat (length l) -> i <> j -> default d (zget (set_at i x l) j) = default d (zget l j).
Proof. intros. unfold set_at. by rewrite zget_insert_ne. Qed.

Lemma stack_index_inj r1 r2 : stack_index r1 = stack_index r2 -> r1 = r2.
Proof. by destruct r1, r2. Qed.

Lemma contents_with st ptrs stacks s i :
  contents (with_stacks st ptrs stacks s) i
  = default 0 (zget st i) :: ring_cells (default [] (zget stacks i)) (default 0 (zget ptrs i)).
Proof. done. Qed.

Lemma take_32_contents s i : take 32 (contents s i) = st_at s i :: take 31 (ring_cells (ring_at s i) (ptr_at s i)).
Proof. done. Qed.

Lemma push_list s reg v :
  wf s -> is_u16 v ->
  exists s', StoreStack reg v s = Done tt s' /\ wf s' /\ only_stacks s s' /\
    contents s' (stack_index reg) = v :: take 32 (contents s (stack_index reg)) /\
    (forall reg', reg' <> reg -> contents s' (stack_index reg') = contents s (stack_index reg')).
Proof.
  intros Hs Hv. pose proof (safe_StoreStack reg v Hv s Hs) as Hsafe.
  rewrite StoreStack_eval in Hsafe |- * by done. destruct Hsafe as [Hs' _].
  eexists. split; [reflexivity|]. split; [exact Hs'|]. split; [apply only_stacks_with|].
  destruct (stack_parts s reg Hs) as (_ & [_ Hp] & _ & [Hl _]).
  destruct (stack_lengths s Hs) as (L1 & L2 & L3). pose proof (stack_index_range reg) as Hi.
  split.
  - rewrite contents_with, take_32_contents, !zget_set_at by lia. f_equal.
    apply ring_cells_push; [|done]. unfold DSP_STACK_DEPTH in Hl. lia.
  - intros reg' Hne. assert (Hi' : stack_index reg <> stack_index reg').
    { intros E. by apply Hne, stack_index_inj. }
    rewrite contents_with, !zget_set_at_ne by lia. done.
Qed.

Lemma pop_list s reg :
  wf s ->
  exists s', PopStack reg s = Done (hd 0 (contents s (stack_index reg))) s' /\ wf s' /\ only_stacks s s' /\
    take 32 (contents s' (stack_index reg)) = tl (contents s (stack_index reg)) /\
    (forall reg', reg' <> reg -> contents s' (stack_index reg') = contents s (stack_index reg')).
Proof.
  intros Hs. pose proof (safe_PopStack reg s Hs) as Hsafe.
  rewrite PopStack_eval in Hsafe |- * by done. destruct Hsafe as [Hs' _].
  eexists. split; [reflexivity|]. split; [exact Hs'|]. split; [apply only_stacks_with|].
  destruct (stack_parts s reg Hs) as (_ & [_ Hp] & _ & [Hl _]).
  destruct (stack_lengths s Hs) as (L1 & L2 & L3). pose proof (stack_index_range reg) as Hi.
  split.
  - rewrite contents_with, !zget_set_at by lia. symmetry. by apply ring_cells_pop.
  - intros reg' Hne. assert (Hi' : stack_index reg <> stack_index reg').
    { intros E. by apply Hne, stack_index_inj. }
    rewrite contents_with, !zget_set_at_ne by lia. done.
Qed.

(** ** Nested pushes and pops *)

Fixpoint push_all reg (vs : list Z) : M (SDSP H) unit :=
  match vs with [] => mret tt | v :: vs' => StoreStack reg v ;;; push_all reg vs' end.
Fixpoint pop_all reg (n : nat) : M (SDSP H) (list Z) :=
  match n with O => mret [] | S n' => v <- PopStack reg ;; vs <- pop_all reg n' ;; mret (v :: vs) end.

Lemma take_33 (ws : list Z) v c : take 33 (ws ++ v :: take 32 c) = take 33 (ws ++ v :: c).
Proof.
  rewrite !firstn_app. f_equal. destruct (33 - length ws)%nat as [|n] eqn:En; [done|].
  rewrite !firstn_cons, firstn_firstn. do 2 f_equal. lia.
Qed.

Lemma push_all_list reg vs s : wf s -> Forall is_u16 vs ->
  exists s', push_all reg vs s = Done tt s' /\ wf s' /\ only_stacks s s' /\
    contents s' (stack_index reg) = take 33 (rev vs ++ contents s (stack_index reg)).
Proof.
  intros Hs Hvs. revert s Hs. induction Hvs as [|v vs Hv Hvs IH]; intros s Hs; simpl.
  - exists s. split; [done|]. split; [done|]. split; [apply only_stacks_refl|].
    unfold contents, ring_cells. simpl. done.
  - destruct (push_list s reg v Hs Hv) as (s1 & E1 & Hs1 & Ho1 & Hc1 & _).
    destruct (IH s1 Hs1) as (s' & E' & Hs' & Ho' & Hc'). rewrite (mbind_done _ _ _ _ _ E1).
    exists s'. split; [exact E'|]. split; [done|]. split; [by eapply only_stacks_trans|].
    rewrite Hc', Hc1, <- app_assoc. apply take_33.
Qed.

Lemma contents_length s i : length (contents s i) = 33%nat.
Proof. reflexivity. Qed.

Lemma pop_all_list reg n s : wf s -> (n <= 33)%nat ->
  exists s', pop_all reg n s = Done (take n (contents s (stack_index reg))) s' /\ wf s' /\
    only_stacks s s' /\
    take (33 - n) (contents s' (stack_index reg)) = drop n (contents s (stack_index reg)).
Proof.
  revert s. induction n as [|n IH]; intros s Hs Hn; cbn [pop_all].
  - exists s. split; [done|]. split; [done|]. split; [apply only_stacks_refl|].
    by rewrite firstn_all2 by (rewrite contents_length; lia).
  - destruct (pop_list s reg Hs) as (s1 & E1 & Hs1 & Ho1 & Hc1 & _).
    destruct (IH s1 Hs1 ltac:(lia)) as (s' & E' & Hs' & Ho' & Hc').
    rewrite (mbind_done _ _ _ _ _ E1), (mbind_done _ _ _ _ _ E').
    pose proof (contents_length s (stack_index reg)) as Hl.
    set (c := contents s (stack_index reg)) in *. set (c1 := contents s1 (stack_index reg)) in *.
    destruct c as [|x c]; [done|]. cbn [tl] in Hc1. clearbody c1.
    exists s'. split; [|split; [done|split; [by eapply only_stacks_trans|]]].
    + unfold mret. f_equal. simpl. f_equal. rewrite <- Hc1, firstn_firstn. f_equal. lia.
    + rewrite skipn_cons, <- Hc1, skipn_firstn_comm, <- Hc', firstn_firstn. f_equal. lia.
Qed.

(** The ring buffer and its top register implement a last-in first-out stack
    of 33 cells: up to 32 values pushed come back in reverse order, the values
    that were there before are on top again, and nothing else has changed. *)
Theorem stack_is_lifo s reg vs :
  wf s -> Forall is_u16 vs -> (length vs <= 32)%nat ->
  exists s', (push_all reg vs ;;; pop_all reg (length vs)) s = Done (rev vs) s' /\
    wf s' /\ only_stacks s s' /\
    take (33 - length vs) (contents s' (stack_index reg))
    = take (33 - length vs) (contents s (stack_index reg)).
Proof.
  intros Hs Hvs Hn. destruct (push_all_list reg vs s Hs Hvs) as (s1 & E1 & Hs1 & Ho1 & Hc1).
  destruct (pop_all_list reg (length vs) s1 Hs1 ltac:(lia)) as (s' & E' & Hs' & Ho' & Hc').
  rewrite (mbind_done _ _ _ _ _ E1). exists s'. rewrite firstn_app, length_rev in Hc1.
  rewrite (firstn_all2 (rev vs)) in Hc1 by (rewrite length_rev; lia).
  split; [|split; [done|split; [by eapply only_stacks_trans|]]].
  - rewrite E'. f_equal. rewrite Hc1, firstn_app, length_rev, Nat.sub_diag. simpl.
    by rewrite app_nil_r, firstn_all2 by (by rewrite length_rev).
  - rewrite Hc', Hc1, skipn_app, length_rev, Nat.sub_diag. simpl.
    by rewrite skipn_all2 by (by rewrite length_rev).
Qed.
End Stacks.

(** ** Exceptions *)

Section Exceptions.
Context {H : Type} {HH : DSPHost H}.
Implicit Types s : SDSP H.

(** Exception [i] is pending and not masked; the external interrupt has an
    enable bit of its own, which [CheckExternalInterrupt] tests. *)
Definition takes (e sr i : Z) : bool :=
  Z.testbit e i && (Z.testbit sr 9 || (i =? exception_index ExternalInterrupt)).
(** From the highest priority to the lowest. *)
Definition priorities : list Z := [7; 6; 5; 4; 3; 2; 1].

Definition enter_exception (i : Z) : M (SDSP H) bool :=
  e <- mget exceptions ;;
  pc <- get_pc ;;
  StoreStack Call pc ;;;
  sr <- get_sr ;;
  StoreStack Data sr ;;;
  put_pc (u16 (i * 2)) ;;;
  mmodify (set_exceptions (u8 (e .& .~ (1 .<< i)))) ;;;
  (if i =? 7 then ClearSRFlag SR_EXT_INT_ENABLE else ClearSRFlag SR_INT_ENABLE) ;;;
  mret true.

Lemma CheckExceptions_loop_eval idxs s :
  Forall (fun i => 0 <= i) idxs ->
  CheckExceptions_loop idxs s =
    match find (takes (exceptions s) (sr_of s)) idxs with
    | None => Done false s
    | Some i => enter_exception i s
    end.
Proof.
  induction 1 as [|i idxs Hi _ IH]; [done|]. cbn [CheckExceptions_loop find].
  unfold mbind at 1, mget. unfold IsSRFlagSet at 1. unfold mbind at 1. unfold mbind at 1.
  unfold get_sr at 1, mget, mret at 1.
  rewrite Z.shiftl_1_l. change SR_INT_ENABLE with (2 ^ 9) at 1. rewrite !flag_testbit by lia.
  fold (sr_of s). fold (takes (exceptions s) (sr_of s) i).
  destruct (takes _ _ i); [|exact IH]. unfold enter_exception. rewrite <- Z.shiftl_1_l. done.
Qed.

Lemma find_none_zero sr idxs : find (takes 0 sr) idxs = None.
Proof. induction idxs as [|i idxs IH]; [done|]. simpl. unfold takes at 1. by rewrite Z.bits_0. Qed.

Lemma CheckExceptions_eval s :
  CheckExceptions s =
    match find (takes (exceptions s) (sr_of s)) priorities with
    | None => Done false s
    | Some i => enter_exception i s
    end.
Proof.
  unfold CheckExceptions, mbind at 1, mget. destruct (Z.eqb_spec (exceptions s) 0) as [E|_].
  - by rewrite E, find_none_zero.
  - apply CheckExceptions_loop_eval. repeat constructor; lia.
Qed.

(** The state right after the entry of exception [i]. *)
Record entered (i : Z) s s' : Prop := {
  en_pc : pc s' = 2 * i;
  en_sr : sr_of s' = sr_of s .& .~ (if i =? 7 then SR_EXT_INT_ENABLE else SR_INT_ENABLE);
  en_call : contents s' (stack_index Call) = pc s :: take 32 (contents s (stack_index Call));
  en_data : contents s' (stack_index Data) = sr_of s :: take 32 (contents s (stack_index Data));
  en_loops : forall reg, reg = LoopAddress \/ reg = LoopCounter ->
    contents s' (stack_index reg) = contents s (stack_index reg);
  en_pending : forall n, 0 <= n < 8 -> Z.testbit (exceptions s') n = Z.testbit (exceptions s) n && negb (n =? i);
  en_frame : exists s1, only_stacks s s1 /\
    s' = on_regs (set_r_sr (sr_of s')) (set_exceptions (exceptions s') (set_pc (pc s') s1))
}.

Lemma testbit_u8 v n : 0 <= n < 8 -> Z.testbit (u8 v) n = Z.testbit v n.
Proof. intros. unfold u8. change 0x100 with (2 ^ 8). by rewrite Z.mod_pow2_bits_low by lia. Qed.

Lemma contents_other s f i : (forall q, r_st (f q) = r_st q) -> contents (on_regs f s) i = contents s i.
Proof. intros Hf. unfold contents, st_at. simpl. by rewrite Hf. Qed.

Lemma enter_exception_eval s i : wf s -> 1 <= i <= 7 ->
  exists s', enter_exception i s = Done true s' /\ wf s' /\ entered i s s'.
Proof.
  intros Hs Hi.
  assert (Hu8 : is_u8 (u8 (exceptions s .& .~ (1 .<< i)))) by apply is_u8_u8.
  destruct (push_list s Call (pc s) Hs (wf_pc s Hs)) as (s1 & E1 & Hs1 & Ho1 & Hc1 & Hf1).
  assert (Hsr1 : sr_of s1 = sr_of s) by (by apply only_stacks_sr).
  destruct (push_list s1 Data (sr_of s1) Hs1 (wf_sr _ (wf_r s1 Hs1))) as (s2 & E2 & Hs2 & Ho2 & Hc2 & Hf2).
  assert (Hsr2 : sr_of s2 = sr_of s) by (rewrite <- Hsr1; by apply only_stacks_sr).
  set (flag := if i =? 7 then SR_EXT_INT_ENABLE else SR_INT_ENABLE).
  set (s3 := set_exceptions (u8 (exceptions s .& .~ (1 .<< i))) (set_pc (u16 (i * 2)) s2)).
  assert (Hs3 : wf s3).
  { subst s3. clear -Hs2 Hu8 Hi. destruct s2, Hs2; constructor; simpl in *; auto. zlia. }
  exists (on_regs (set_r_sr (sr_of s .& .~ flag)) s3). split; [|split].
  - unfold enter_exception. unfold mbind at 1, mget. rewrite (mbind_done _ _ _ _ _ (eq_refl : get_pc s = Done (pc s) s)).
    rewrite (mbind_done _ _ _ _ _ E1), (mbind_done _ _ _ _ _ (eq_refl : get_sr s1 = Done (sr_of s1) s1)).
    rewrite (mbind_done _ _ _ _ _ E2). unfold put_pc, mbind at 1, mmodify at 1. fold s3.
    unfold mbind at 1, mmodify at 1. fold s3. rewrite <- Hsr2. change (sr_of s2) with (sr_of s3).
    subst flag. by destruct (i =? 7).
  - apply wf_on_regs; [done|]. intros q Hq.
    pose proof (is_u16_land _ (.~ flag) (wf_sr _ (wf_r s Hs))) as Hu. clear -Hq Hu. by wf_regs_set.
  - constructor.
    + change (u16 (i * 2) = 2 * i). zlia.
    + done.
    + rewrite contents_other by done. change (contents s3) with (contents s2).
      by rewrite (Hf2 Call), Hc1.
    + rewrite contents_other by done. change (contents s3) with (contents s2).
      by rewrite Hc2, (Hf1 Data), Hsr1.
    + intros reg Hreg. rewrite contents_other by done. change (contents s3) with (contents s2).
      rewrite Hf2, Hf1 by (by destruct Hreg as [-> | ->]). done.
    + intros n Hn. cbn [exceptions on_regs set_r s3 set_exceptions]. rewrite testbit_u8, Z.land_spec, Z.lnot_spec, Z.shiftl_1_l, Z.pow2_bits_eqb by lia.
      by rewrite (Z.eqb_sym i n).
    + exists s2. split; [by eapply only_stacks_trans|done].
Qed.

Lemma find_priority e sr i : find (takes e sr) priorities = Some i -> 1 <= i <= 7.
Proof. intros E. apply find_some in E as [Hin _]. simpl in Hin. lia. Qed.

(** C24. Exception entry: the pending exception of the highest number that is not
    masked is taken (only the external interrupt ignores SR_INT_ENABLE), its
    pending bit and its enable flag are cleared, the program counter and the
    status register are pushed, execution goes on at its vector; without such an
    exception nothing happens. *)
Theorem exception_entry s :
  wf s ->
  match find (takes (exceptions s) (sr_of s)) priorities with
  | None => CheckExceptions s = Done false s
  | Some i => exists s', CheckExceptions s = Done true s' /\ wf s' /\ entered i s s'
  end.
Proof.
  intros Hs. rewrite CheckExceptions_eval. destruct (find _ _) as [i|] eqn:E; [|done].
  apply enter_exception_eval; [done|]. by eapply find_priority.
Qed.

(** A handler that returns at once. *)
Lemma rti_eval s opc : wf s -> opc .& 0xf = 0xf ->
  exists s', DSPIntBranch.rti opc s = Done tt s' /\ wf s' /\
    sr_of s' = hd 0 (contents s (stack_index Data)) /\ pc s' = hd 0 (contents s (stack_index Call)) /\
    take 32 (contents s' (stack_index Call)) = tl (contents s (stack_index Call)) /\
    take 32 (contents s' (stack_index Data)) = tl (contents s (stack_index Data)) /\
    (forall reg, reg = LoopAddress \/ reg = LoopCounter ->
      contents s' (stack_index reg) = contents s (stack_index reg)) /\
    exists s1, only_stacks s s1 /\ s' = set_pc (pc s') (on_regs (set_r_sr (sr_of s')) s1).
Proof.
  intros Hs Hf. pose proof (DSPIntBranch.safe_rti opc s Hs) as Hsafe.
  assert (Hc : CheckCondition (opc .& 0xf) s = Done true s) by (rewrite Hf; done).
  destruct (pop_list s Data Hs) as (s1 & E1 & Hs1 & Ho1 & Hc1 & Hf1).
  set (sr := hd 0 (contents s (stack_index Data))) in *.
  assert (Hsr : is_u16 sr) by apply (proj1 (stack_parts s Data Hs)).
  set (s2 := on_regs (set_r_sr sr) s1).
  assert (Hs2 : wf s2).
  { apply wf_on_regs; [done|]. intros q Hq. clear -Hq Hsr. by wf_regs_set. }
  destruct (pop_list s2 Call Hs2) as (s3 & E3 & Hs3 & Ho3 & Hc3 & Hf3).
  change (contents s2) with (contents s1) in *. rewrite (Hf1 Call) in E3, Hc3 by done.
  assert (E : DSPIntBranch.rti opc s = Done tt (set_pc (hd 0 (contents s (stack_index Call))) s3)).
  { unfold DSPIntBranch.rti. rewrite (mbind_done _ _ _ _ _ Hc). cbn [negb].
    rewrite (mbind_done _ _ _ _ _ E1), (mbind_done _ _ _ _ _ (eq_refl : put_sr sr s1 = Done tt s2)).
    rewrite (mbind_done _ _ _ _ _ E3). done. }
  rewrite E in Hsafe |- *. destruct Hsafe as [Hs' _]. eexists. split; [reflexivity|]. split; [done|].
  set (s' := set_pc _ s3) in *. change (contents s') with (contents s3).
  split; [exact (only_stacks_sr _ _ Ho3)|]. split; [done|]. split; [done|].
  split; [by rewrite (Hf3 Data)|]. split.
  - intros reg Hreg. rewrite Hf3, Hf1 by (by destruct Hreg as [-> | ->]). done.
  - destruct Ho3 as (st & ptrs & stacks & E3'). exists (with_stacks st ptrs stacks s1).
    split; [eapply only_stacks_trans; [done|apply only_stacks_with]|]. subst s'. by rewrite E3'.
Qed.

(** A handler of the form RTI gives the interrupted program its program
    counter and status register back, with all four stacks as deep as before;
    the only trace of the exception is its cleared pending bit. *)
Theorem exception_round_trip s opc i :
  wf s -> find (takes (exceptions s) (sr_of s)) priorities = Some i -> opc .& 0xf = 0xf ->
  exists s', (CheckExceptions ;;; DSPIntBranch.rti opc) s = Done tt s' /\ wf s' /\
    pc s' = pc s /\ sr_of s' = sr_of s /\
    (forall reg, take 32 (contents s' (stack_index reg)) = take 32 (contents s (stack_index reg))) /\
    exists s1, only_stacks s s1 /\ s' = set_exceptions (exceptions s') s1.
Proof.
  intros Hs Hi Hopc. destruct (enter_exception_eval s i Hs (find_priority _ _ _ Hi)) as (s1 & E1 & Hs1 & En).
  destruct (rti_eval s1 opc Hs1 Hopc) as (s2 & E2 & Hs2 & Hsr & Hpc & Hc & Hd & Hl & s3 & Ho3 & Hf3).
  assert (Ec : CheckExceptions s = Done true s1) by (by rewrite CheckExceptions_eval, Hi).
  rewrite (mbind_done _ _ _ _ _ Ec). exists s2. split; [exact E2|]. split; [done|].
  rewrite (en_call _ _ _ En) in Hpc, Hc. rewrite (en_data _ _ _ En) in Hsr, Hd. cbn [hd tl] in *.
  split; [done|]. split; [done|]. split.
  - intros []; [done|done|..]; by rewrite Hl, (en_loops _ _ _ En) by auto.
  - destruct (en_frame _ _ _ En) as (s4 & Ho4 & Hf4).
    destruct Ho4 as (st & ptrs & stacks & ->), Ho3 as (st' & ptrs' & stacks' & ->).
    exists (with_stacks st' ptrs' stacks' s). split; [apply only_stacks_with|].
    rewrite Hf3, Hpc, Hsr, Hf4. by destruct s as [[]].
Qed.
End Exceptions.

(** ** Hardware loops *)

Section Loops.
Context {H : Type} {HH : DSPHost H}.
Implicit Types s : SDSP H.

Definition top s reg : Z := hd 0 (contents s (stack_index reg)).

Lemma get_st_eval s reg : wf s -> get_st (stack_index reg) s = Done (top s reg) s.
Proof.
  intros Hs. destruct (stack_parts s reg Hs) as ([E _] & _).
  unfold get_st, read_arr, mbind, mget. by rewrite E.
Qed.

Lemma put_st_eval s reg v : wf s -> is_u16 v ->
  exists s', put_st (stack_index reg) v s = Done tt s' /\ wf s' /\ only_stacks s s' /\
    contents s' (stack_index reg) = v :: tl (contents s (stack_index reg)) /\
    (forall reg', reg' <> reg -> contents s' (stack_index reg') = contents s (stack_index reg')).
Proof.
  intros Hs Hv. pose proof (safe_put_st (stack_index reg) v (stack_index_range reg) Hv s Hs) as Hsafe.
  destruct (stack_lengths s Hs) as (L1 & _). pose proof (stack_index_range reg) as Hi.
  unfold put_st, write_arr, mbind, mget in *. rewrite zset_in in Hsafe |- * by lia.
  destruct Hsafe as [Hs' _]. eexists. split; [reflexivity|]. split; [exact Hs'|].
  split; [exists (set_at (stack_index reg) v (r_st (r s))), (reg_stack_ptrs s), (reg_stacks s); by destruct s|].
  split.
  - unfold contents, st_at. simpl r. cbn [r_st set_r_st tl]. fold (set_at (stack_index reg) v (r_st (r s))).
    by rewrite zget_set_at by lia.
  - intros reg' Hne. unfold contents, st_at. simpl r. cbn [r_st set_r_st].
    fold (set_at (stack_index reg) v (r_st (r s))). rewrite zget_set_at_ne; [done|lia|].
    intros E. by apply Hne, stack_index_inj.
Qed.

Definition loop_stack reg : Prop := reg = Call \/ reg = LoopAddress \/ reg = LoopCounter.

(** The end of a round that is not the last: back to the start. *)
Lemma HandleLoop_again s : wf s -> 0 < top s LoopAddress -> 1 < top s LoopCounter ->
  pc s = top s LoopAddress + 1 ->
  exists s', DSPIntBranch.HandleLoop s = Done tt s' /\ wf s' /\ pc s' = top s Call /\
    contents s' (stack_index LoopCounter) = (top s LoopCounter - 1) :: tl (contents s (stack_index LoopCounter)) /\
    (forall reg, reg <> LoopCounter -> contents s' (stack_index reg) = contents s (stack_index reg)).
Proof.
  intros Hs Ha Hc Hpc.
  assert (Hn : u16 (top s LoopCounter - 1) = top s LoopCounter - 1).
  { destruct (stack_parts s LoopCounter Hs) as ([_ Hu] & _). apply u16_id.
    unfold is_u16 in *. change (top s LoopCounter) with (st_at s (stack_index LoopCounter)) in *. lia. }
  assert (Hu : is_u16 (top s LoopCounter - 1)) by (rewrite <- Hn; apply is_u16_u16).
  destruct (put_st_eval s LoopCounter _ Hs Hu) as (s1 & E1 & Hs1 & Ho1 & Hc1 & Hf1).
  exists (set_pc (top s Call) s1). split; [|split; [|split; [done|split; [exact Hc1|exact Hf1]]]].
  - unfold DSPIntBranch.HandleLoop.
    rewrite (mbind_done _ _ _ _ _ (get_st_eval s Call Hs)), (mbind_done _ _ _ _ _ (get_st_eval s LoopAddress Hs)),
      (mbind_done _ _ _ _ _ (get_st_eval s LoopCounter Hs)).
    cbv beta.
    rewrite !(proj2 (Z.ltb_lt 0 _)) by lia. cbn [andb].
    rewrite (mbind_done _ _ _ _ _ (eq_refl : get_pc s = Done (pc s) s)), Hpc, Z.add_simpl_r, Z.eqb_refl.
    cbv zeta. rewrite Hn. by rewrite (mbind_done _ _ _ _ _ E1).
  - destruct (stack_parts s Call Hs) as ([_ Hu0] & _).
    change (is_u16 (top s Call)) in Hu0. clear -Hs1 Hu0. destruct s1, Hs1; constructor; simpl in *; auto.
Qed.

(** The end of the last round: the loop's entries are popped. *)
Lemma HandleLoop_last s : wf s -> 0 < top s LoopAddress -> top s LoopCounter = 1 ->
  pc s = top s LoopAddress + 1 ->
  exists s', DSPIntBranch.HandleLoop s = Done tt s' /\ wf s' /\ pc s' = pc s /\
    forall reg, loop_stack reg ->
      take 32 (contents s' (stack_index reg)) = tl (contents s (stack_index reg)).
Proof.
  intros Hs Ha Hc Hpc.
  destruct (put_st_eval s LoopCounter 0 Hs ltac:(done)) as (s1 & E1 & Hs1 & Ho1 & Hc1 & Hf1).
  destruct (pop_list s1 Call Hs1) as (s2 & E2 & Hs2 & Ho2 & Hc2 & Hf2).
  destruct (pop_list s2 LoopAddress Hs2) as (s3 & E3 & Hs3 & Ho3 & Hc3 & Hf3).
  destruct (pop_list s3 LoopCounter Hs3) as (s4 & E4 & Hs4 & Ho4 & Hc4 & Hf4).
  exists s4. split; [|split; [done|split]].
  - unfold DSPIntBranch.HandleLoop.
    rewrite (mbind_done _ _ _ _ _ (get_st_eval s Call Hs)), (mbind_done _ _ _ _ _ (get_st_eval s LoopAddress Hs)),
      (mbind_done _ _ _ _ _ (get_st_eval s LoopCounter Hs)).
    cbv beta.
    rewrite Hc, (proj2 (Z.ltb_lt 0 (top s LoopAddress))) by lia. cbn [andb Z.ltb Z.compare].
    rewrite (mbind_done _ _ _ _ _ (eq_refl : get_pc s = Done (pc s) s)), Hpc, Z.add_simpl_r, Z.eqb_refl.
    change (u16 (1 - 1)) with 0. cbn [Z.ltb Z.compare].
    rewrite (mbind_done _ _ _ _ _ E1), (mbind_done _ _ _ _ _ E2), (mbind_done _ _ _ _ _ E3).
    by rewrite (mbind_done _ _ _ _ _ E4).
  - assert (Hp : only_stacks s s4).
    { eapply only_stacks_trans; [exact Ho1|]. eapply only_stacks_trans; [exact Ho2|].
      by eapply only_stacks_trans. }
    by destruct Hp as (? & ? & ? & ->).
  - intros reg [-> |[-> | ->]].
    + by rewrite (Hf4 Call), (Hf3 Call), Hc2, (Hf1 Call).
    + by rewrite (Hf4 LoopAddress), Hc3, (Hf2 LoopAddress), (Hf1 LoopAddress).
    + by rewrite Hc4, (Hf3 LoopCounter), (Hf2 LoopCounter), Hc1.
Qed.

(** [n] rounds: the body, then the check the run loop makes at a loop end. *)
Fixpoint rounds (body : M (SDSP H) unit) (n : nat) : M (SDSP H) unit :=
  match n with O => mret tt | S n' => body ;;; DSPIntBranch.HandleLoop ;;; rounds body n' end.

(** A body that runs from [start] to [last] and leaves the loop stacks alone. *)
Definition loop_body (body : M (SDSP H) unit) (start last : Z) : Prop :=
  forall s, wf s -> pc s = start ->
  exists s', body s = Done tt s' /\ wf s' /\ pc s' = last + 1 /\
    forall reg, loop_stack reg -> contents s' (stack_index reg) = contents s (stack_index reg).

(** Inside the loop: the three entries on top of what was there before. *)
Record in_loop (s0 s : SDSP H) (start last count : Z) : Prop := {
  il_call : contents s (stack_index Call) = start :: take 32 (contents s0 (stack_index Call));
  il_end : contents s (stack_index LoopAddress) = last :: take 32 (contents s0 (stack_index LoopAddress));
  il_count : contents s (stack_index LoopCounter) = count :: take 32 (contents s0 (stack_index LoopCounter))
}.

Lemma push_loop_eval s last count :
  wf s -> is_u16 last -> is_u16 count ->
  exists s', DSPIntBranch.push_loop last count s = Done tt s' /\ wf s' /\ pc s' = pc s /\
    in_loop s s' (pc s) last count.
Proof.
  intros Hs Hl Hc. destruct (push_list s Call (pc s) Hs (wf_pc s Hs)) as (s1 & E1 & Hs1 & Ho1 & Hc1 & Hf1).
  destruct (push_list s1 LoopAddress last Hs1 Hl) as (s2 & E2 & Hs2 & Ho2 & Hc2 & Hf2).
  destruct (push_list s2 LoopCounter count Hs2 Hc) as (s3 & E3 & Hs3 & Ho3 & Hc3 & Hf3).
  exists s3. split; [|split; [done|split]].
  - unfold DSPIntBranch.push_loop. rewrite (mbind_done _ _ _ _ _ (eq_refl : get_pc s = Done (pc s) s)).
    by rewrite (mbind_done _ _ _ _ _ E1), (mbind_done _ _ _ _ _ E2).
  - pose proof (only_stacks_trans _ _ _ Ho1 (only_stacks_trans _ _ _ Ho2 Ho3)) as (? & ? & ? & ->). done.
  - split.
    + by rewrite (Hf3 Call), (Hf2 Call), Hc1.
    + by rewrite (Hf3 LoopAddress), Hc2, (Hf1 LoopAddress).
    + by rewrite Hc3, (Hf2 LoopCounter), (Hf1 LoopCounter).
Qed.

(** [m] rounds of a loop of [count] rounds. *)
Lemma rounds_eval body start last s0 m count s :
  loop_body body start last -> 0 < last -> wf s -> pc s = start ->
  in_loop s0 s start last count -> 0 < Z.of_nat m <= count ->
  exists s', rounds body m s = Done tt s' /\ wf s' /\
    if Z.of_nat m =? count then
      pc s' = last + 1 /\
      forall reg, loop_stack reg ->
        take 32 (contents s' (stack_index reg)) = take 32 (contents s0 (stack_index reg))
    else pc s' = start /\ in_loop s0 s' start last (count - Z.of_nat m).
Proof.
  intros Hbody Hlast. revert s count. induction m as [|m IH]; intros s count Hs Hpc Hin Hm; [lia|].
  cbn [rounds]. destruct (Hbody s Hs Hpc) as (s1 & E1 & Hs1 & Hpc1 & Hk1).
  rewrite (mbind_done _ _ _ _ _ E1). destruct Hin as [Hi1 Hi2 Hi3].
  rewrite <- (Hk1 Call) in Hi1 by (by left). rewrite <- (Hk1 LoopAddress) in Hi2 by (by right; left).
  rewrite <- (Hk1 LoopCounter) in Hi3 by (by right; right).
  assert (Ha : top s1 LoopAddress = last) by (unfold top; by rewrite Hi2).
  assert (Hc : top s1 LoopCounter = count) by (unfold top; by rewrite Hi3).
  destruct (Z.eq_dec count 1) as [->|Hne].
  - destruct (HandleLoop_last s1 Hs1 ltac:(lia) Hc ltac:(lia)) as (s2 & E2 & Hs2 & Hpc2 & Hk2).
    rewrite (mbind_done _ _ _ _ _ E2). assert (m = 0%nat) as -> by lia. exists s2.
    split; [done|]. split; [done|]. split; [lia|].
    intros reg [-> |[-> | ->]]; [rewrite (Hk2 Call), Hi1|rewrite (Hk2 LoopAddress), Hi2|rewrite (Hk2 LoopCounter), Hi3];
      unfold loop_stack; auto.
  - destruct (HandleLoop_again s1 Hs1 ltac:(lia) ltac:(lia) ltac:(lia)) as (s2 & E2 & Hs2 & Hpc2 & Hc2 & Hk2).
    rewrite (mbind_done _ _ _ _ _ E2).
    assert (Hin2 : in_loop s0 s2 start last (count - 1)).
    { split; [by rewrite Hk2|by rewrite Hk2|by rewrite Hc2, Hc, Hi3]. }
    assert (Hpc2' : pc s2 = start) by (rewrite Hpc2; unfold top; by rewrite Hi1).
    destruct (Nat.eq_dec m 0%nat) as [->|Hm0].
    + exists s2. split; [done|]. split; [done|]. rewrite (proj2 (Z.eqb_neq _ _)) by lia. done.
    + destruct (IH s2 (count - 1) Hs2 Hpc2' Hin2 ltac:(lia)) as (s' & E' & Hs' & Hr).
      exists s'. split; [done|]. split; [done|].
      replace (Z.of_nat (S m) =? count) with (Z.of_nat m =? count - 1)
        by (destruct (Z.eqb_spec (Z.of_nat m) (count - 1)), (Z.eqb_spec (Z.of_nat (S m)) count); lia).
      destruct (_ =? _); [done|]. replace (count - Z.of_nat (S m)) with (count - 1 - Z.of_nat m) by lia. done.
Qed.

(** C29. A hardware loop of [count] rounds (LOOP, LOOPI, BLOOP, BLOOPI push the same
    three entries) runs its body exactly [count] times: after fewer rounds the
    program counter is back at the start with the remaining count on the stack,
    after the last one it is behind the loop with the three stacks as before. *)
Theorem loop_runs_count_times body s last count m :
  wf s -> is_u16 last -> 0 < last -> is_u16 count -> 0 < Z.of_nat m <= count ->
  loop_body body (pc s) last ->
  exists s', (DSPIntBranch.push_loop last count ;;; rounds body m) s = Done tt s' /\ wf s' /\
    if Z.of_nat m =? count then
      pc s' = last + 1 /\
      forall reg, loop_stack reg ->
        take 32 (contents s' (stack_index reg)) = take 32 (contents s (stack_index reg))
    else pc s' = pc s /\ in_loop s s' (pc s) last (count - Z.of_nat m).
Proof.
  intros Hs Hl Hl0 Hc Hm Hbody. destruct (push_loop_eval s last count Hs Hl Hc) as (s1 & E1 & Hs1 & Hpc1 & Hin1).
  rewrite (mbind_done _ _ _ _ _ E1). by apply (rounds_eval body (pc s) last s m count s1).
Qed.
End Loops.

(** ** The theorems at concrete machines *)

Theorem stack_is_lifo_witness :
  exists s', (push_all Call [1; 2; 3] ;;; pop_all Call 3) gc_init = Done [3; 2; 1] s'.
Proof.
  destruct (stack_is_lifo gc_init Call [1; 2; 3] gc_init_wf) as (s' & E & _).
  - by repeat constructor.
  - simpl. lia.
  - exists s'. exact E.
Defined.

Definition interrupted : SDSP GCHost := set_pc 0x123 (set_exceptions 0x88 gc_init).
Lemma interrupted_wf : wf interrupted.
Proof. pose proof gc_init_wf as Hw. unfold interrupted. revert Hw. generalize gc_init. by wf_set. Qed.

Theorem exception_entry_witness :
  exists s', CheckExceptions interrupted = Done true s' /\ pc s' = 14.
Proof.
  pose proof (exception_entry interrupted interrupted_wf) as Hx.
  change (find _ priorities) with (Some 7) in Hx. destruct Hx as (s' & E & _ & En).
  exists s'. split; [exact E|exact (en_pc _ _ _ En)].
Defined.

Theorem exception_round_trip_witness :
  exists s', (CheckExceptions ;;; DSPIntBranch.rti 0x02ff) interrupted = Done tt s' /\
    pc s' = 0x123 /\ sr_of s' = sr_of interrupted.
Proof.
  destruct (exception_round_trip interrupted 0x02ff 7 interrupted_wf eq_refl eq_refl)
    as (s' & E & _ & Hpc & Hsr & _).
  exists s'. split; [exact E|]. split; [exact Hpc|exact Hsr].
Defined.

Lemma jump_body_ok start last : is_u16 (last + 1) -> loop_body (H := GCHost) (put_pc (last + 1)) start last.
Proof.
  intros Hu s Hs _. exists (set_pc (last + 1) s). split; [done|]. split; [|done].
  destruct s, Hs; constructor; simpl in *; auto.
Qed.

Theorem loop_runs_count_times_witness :
  exists s', (DSPIntBranch.push_loop 0x127 3 ;;; rounds (put_pc 0x128) 3) interrupted = Done tt s' /\
    pc s' = 0x128.
Proof.
  destruct (loop_runs_count_times (put_pc 0x128) interrupted 0x127 3 3 interrupted_wf)
    as (s' & E & _ & Hpc & _); try done.
  - by apply (jump_body_ok (pc interrupted) 0x127).
  - exists s'. split; [exact E|exact Hpc].
Defined.

(** * DSP: reading and writing registers

    What an instruction writes to a register is what is read back, under the
    register's width, and no other register moves; the stack registers push and
    pop; the debugger's register write is weaker. *)

(** The value a register keeps of a 16-bit word written to it. *)
Definition kept (reg val : Z) : Z :=
  if reg_in DSP_REG_ACH0 DSP_REG_ACH1 reg then u16 (s8 val)
  else if reg =? DSP_REG_CR then val .& 0x00ff
  else if reg =? DSP_REG_SR then val .& .~ SR_100
  else if reg =? DSP_REG_PRODH then val .& 0x00ff
  else val.

Definition is_stack_reg (reg : Z) : bool := reg_in DSP_REG_ST0 DSP_REG_ST3 reg.

Lemma list_4 {A} (l : list A) : Z.of_nat (length l) = 4 -> exists a b c d, l = [a; b; c; d].
Proof. destruct l as [|a [|b [|c [|d [|e l]]]]]; simpl; intros; try lia. by exists a, b, c, d. Qed.
Lemma list_2 {A} (l : list A) : Z.of_nat (length l) = 2 -> exists a b, l = [a; b].
Proof. destruct l as [|a [|b [|c l]]]; simpl; intros; try lia. by exists a, b. Qed.

Lemma u16_u32 v : u16 (u32 v) = u16 v.
Proof. zlia. Qed.

(** The 32 register numbers. *)
Lemma reg_number_cases (P : Z -> Prop) :
  Forall P (map Z.of_nat (seq 0 32)) -> forall reg, 0 <= reg < 32 -> P reg.
Proof.
  intros HP reg Hreg. eapply (Forall_forall P _); [exact HP|].
  apply list_elem_of_In, in_map_iff. exists (Z.to_nat reg). split; [lia|]. apply in_seq. lia.
Qed.

Ltac each_register := refine (reg_number_cases _ _); cbn [map seq Z.of_nat Pos.of_succ_nat Pos.succ];
  repeat (apply List.Forall_cons; [cbv beta|]); [..|apply List.Forall_nil].

Section Registers.
Context {H : Type} {HH : DSPHost H}.
Implicit Types s : SDSP H.

(** What the debugger reads. *)
Definition reg_value (reg : Z) s : option Z :=
  match ReadRegister reg s with Done v _ => Some v | Fault _ => None end.

(** A word written to a register by an instruction is read back as the
    register's width keeps it (sign-extended bytes for the accumulators' high
    parts, the low byte for CR and the product's high part, SR without bit 8),
    and every other register keeps its value. *)
Theorem write_read_register s reg v :
  wf s -> 0 <= reg < 32 -> is_stack_reg reg = false ->
  exists s', OpWriteRegister reg v s = Done tt s' /\
    reg_value reg s' = Some (kept reg v) /\
    forall reg', 0 <= reg' < 32 -> reg' <> reg -> reg_value reg' s' = reg_value reg' s.
Proof.
  intros Hs. destruct s as [q]. pose proof (wf_r _ Hs) as Hq. destruct q; simpl in Hq.
  destruct Hq as [[L1 _] [L2 _] [L3 _] [L4 _] _ _ _ [L5 _] [L6 _]]; simpl in *.
  apply list_4 in L1 as (?&?&?&?&->), L2 as (?&?&?&?&->), L3 as (?&?&?&?&->), L4 as (?&?&?&?&->).
  apply list_2 in L5 as (?&?&->), L6 as (?&?&->). clear Hs. revert reg.
  each_register; intros Hst; try discriminate Hst;
    (eexists; split; [reflexivity|]; split; [try reflexivity; cbv -[u16 u32 s8]; by rewrite u16_u32|]).
  all: each_register; intros Hne; done.
Qed.
End Registers.

(** The debugger's write of an accumulator's high part stores the 16-bit word
    without the sign extension the instructions' write makes: the accumulator
    then holds a number that is not a 40-bit one. *)
Theorem WriteRegister_breaks_accumulator :
  wf gc_init /\
  exists s', WriteRegister DSP_REG_ACH0 0xff80 gc_init = Done tt s' /\
    GetLongAcc 0 s' = Done 0xff8000000000 s' /\ ~ is_s40 0xff8000000000.
Proof.
  split; [apply gc_init_wf|]. eexists. split; [reflexivity|]. split; [reflexivity|].
  unfold is_s40. lia.
Qed.

Theorem write_read_register_witness :
  exists s', OpWriteRegister DSP_REG_ACH1 0x12f0 gc_init = Done tt s' /\
    reg_value DSP_REG_ACH1 s' = Some 0xfff0 /\ reg_value DSP_REG_ACM1 s' = Some 0.
Proof.
  destruct (write_read_register gc_init DSP_REG_ACH1 0x12f0 gc_init_wf) as (s' & E & Hr & Hf);
    [done|done|].
  exists s'. split; [exact E|]. split; [exact Hr|]. by apply (Hf DSP_REG_ACM1).
Defined.
