(* ===== verification/DSPDecode.v ===== *)
(** * DSP: the opcode tables are consistent

    No word matches two entries of a main opcode table, so the order of the
    entries and the way the 65536-entry tables are filled do not matter; and the
    interpreter's table has an entry for exactly the words that have a template,
    which is the entry of that instruction. *)
From S2P Require Export DSPLLE DSPIntTables GameCubeHost.

(** ** Patterns *)

Definition pattern : Type := Z * Z.
Definition pmatch (inst : Z) (p : pattern) : bool := matches inst (fst p) (snd p).
(** Whether some word matches both patterns. *)
Definition overlap (p q : pattern) : bool := (fst p .^ fst q) .& (snd p .& snd q) =? 0.

Lemma overlap_spec inst p q : pmatch inst p = true -> pmatch inst q = true -> overlap p q = true.
Proof.
  destruct p as [a m], q as [b n]. unfold pmatch, matches, overlap; simpl.
  rewrite !Z.eqb_eq. intros <- <-. apply Z.bits_inj'. intros i Hi.
  rewrite !Z.land_spec, Z.lxor_spec, !Z.land_spec, Z.bits_0.
  by destruct (Z.testbit inst i), (Z.testbit m i), (Z.testbit n i).
Qed.

Fixpoint disjoint_from (p : pattern) (l : list pattern) : bool :=
  match l with [] => true | q :: l' => negb (overlap p q) && disjoint_from p l' end.
Fixpoint pairwise_disjoint (l : list pattern) : bool :=
  match l with [] => true | p :: l' => disjoint_from p l' && pairwise_disjoint l' end.

Lemma disjoint_from_spec p l q inst :
  disjoint_from p l = true -> In q l -> pmatch inst p = true -> pmatch inst q = true -> False.
Proof.
  induction l as [|q' l IH]; simpl; [done|]. intros Hd Hin Hp Hq.
  apply andb_prop in Hd as [Hn Hd]. destruct Hin as [-> |Hin]; [|by apply IH].
  by rewrite (overlap_spec inst p q Hp Hq) in Hn.
Qed.

(** In a table of disjoint patterns the lookup finds any entry that matches. *)
Lemma find_disjoint {T} (get_op get_mask : T -> Z) inst (data : list T) e :
  pairwise_disjoint (map (fun e => (get_op e, get_mask e)) data) = true ->
  In e data -> matches inst (get_op e) (get_mask e) = true ->
  FindByOpcode get_op get_mask inst data = Some e.
Proof.
  induction data as [|d data IH]; simpl; [done|]. intros Hd Hin Hm.
  apply andb_prop in Hd as [Hd Hrest]. destruct Hin as [-> |Hin]; [by rewrite Hm|].
  destruct (matches inst (get_op d) (get_mask d)) eqn:E; [|by apply IH].
  exfalso. eapply (disjoint_from_spec _ _ (get_op e, get_mask e) inst Hd); [|done|done].
  by apply (in_map (fun e => (get_op e, get_mask e))).
Qed.

Lemma find_none {T} (get_op get_mask : T -> Z) inst (data : list T) :
  FindByOpcode get_op get_mask inst data = None <->
  forall e, In e data -> matches inst (get_op e) (get_mask e) = false.
Proof.
  induction data as [|d data IH]; simpl; [by split|].
  destruct (matches inst (get_op d) (get_mask d)) eqn:E.
  - split; [done|]. intros Hall. specialize (Hall d). rewrite E in Hall. by discriminate Hall; left.
  - rewrite IH. split; [intros Hall e [<-|He]; auto|auto].
Qed.

Lemma templates_disjoint :
  pairwise_disjoint (map (fun e => (opcode e, opcode_mask e)) s_opcodes) = true.
Proof. vm_compute. reflexivity. Qed.

Section Decode.
Context {H : Type} {HH : DSPHost H}.

Lemma int_opcodes_disjoint :
  pairwise_disjoint (map (fun e => (io_opcode e, io_mask e)) (int_opcodes (H := H))) = true.
Proof. vm_compute. reflexivity. Qed.

(** The main opcode tables are unambiguous: whatever the order of their
    entries, a word that matches an entry is decoded to that entry, both in the
    table of templates and in the interpreter's table. *)
Theorem decode_unambiguous inst :
  (forall t, In t s_opcodes -> matches inst (opcode t) (opcode_mask t) = true -> GetOpTemplate inst = t) /\
  (forall e, In e (int_opcodes (H := H)) -> matches inst (io_opcode e) (io_mask e) = true ->
     GetOp (H := H) inst = io_function e).
Proof.
  split.
  - intros t Hin Hm. unfold GetOpTemplate, FindOpInfoByOpcode.
    by rewrite (find_disjoint opcode opcode_mask inst s_opcodes t templates_disjoint Hin Hm).
  - intros e Hin Hm. unfold GetOp.
    by rewrite (find_disjoint io_opcode io_mask inst int_opcodes e int_opcodes_disjoint Hin Hm).
Qed.
End Decode.

(** ** The interpreter's table and the templates *)

(** Every word that matches [q] matches [p]. *)
Definition includes (p q : pattern) : bool := (snd p .& snd q =? snd p) && (fst q .& snd p =? fst p).

Lemma includes_spec inst p q : includes p q = true -> pmatch inst q = true -> pmatch inst p = true.
Proof.
  destruct p as [a m], q as [b n]. unfold includes, pmatch, matches; simpl.
  rewrite andb_true_iff, !Z.eqb_eq. intros [Hm <-] <-.
  rewrite <- Hm at 1. rewrite (Z.land_comm m n), Z.land_assoc. done.
Qed.

(** The words that match [p], split by the bits [x]. *)
Definition split_on (x : Z) (vs : list Z) (p : pattern) : list pattern :=
  map (fun v => (fst p .| v, snd p .| x)) vs.

Definition low_values (n : nat) : list Z := map Z.of_nat (seq 0 (2 ^ n)).

Lemma split_on_spec inst n p :
  snd p .& Z.ones (Z.of_nat n) = 0 -> pmatch inst p = true ->
  exists q, In q (split_on (Z.ones (Z.of_nat n)) (low_values n) p) /\ pmatch inst q = true.
Proof.
  destruct p as [a m]. unfold pmatch, matches; simpl. intros Hd Hm. apply Z.eqb_eq in Hm.
  set (x := Z.ones (Z.of_nat n)) in *. exists (a .| (inst .& x), m .| x). split.
  - apply (in_map (fun v => (a .| v, m .| x))).
    assert (Hb : 0 <= inst .& x < 2 ^ Z.of_nat n).
    { subst x. rewrite Z.land_ones by lia. apply Z.mod_pos_bound, Z.pow_pos_nonneg; lia. }
    unfold low_values. apply in_map_iff. exists (Z.to_nat (inst .& x)). split; [lia|].
    apply in_seq. simpl. split; [lia|]. apply Nat2Z.inj_lt. rewrite Nat2Z.inj_pow. lia.
  - simpl. apply Z.eqb_eq. by rewrite Z.land_lor_distr_r, Hm.
Qed.

(** Every word that matches [p] matches one of [qs]; its last [n] bits decide. *)
Definition covered_by (n : nat) (qs : list pattern) (p : pattern) : bool :=
  (snd p .& Z.ones (Z.of_nat n) =? 0) &&
  forallb (fun q' => existsb (fun q => includes q q') qs) (split_on (Z.ones (Z.of_nat n)) (low_values n) p).

Lemma covered_by_spec inst n qs p :
  covered_by n qs p = true -> pmatch inst p = true -> exists q, In q qs /\ pmatch inst q = true.
Proof.
  unfold covered_by. rewrite andb_true_iff, Z.eqb_eq. intros [Hd Hall] Hm.
  destruct (split_on_spec inst n p Hd Hm) as (q' & Hin & Hq'). rewrite forallb_forall in Hall.
  specialize (Hall q' Hin). apply existsb_exists in Hall as (q & Hq & Hi).
  exists q. split; [done|]. by eapply includes_spec.
Qed.

Definition template_pattern (t : DSPOPCTemplate) : pattern := (opcode t, opcode_mask t).
Definition template_patterns : list pattern := map template_pattern s_opcodes.
Definition int_patterns : list pattern :=
  map (fun e => (io_opcode e, io_mask e)) (int_opcodes (H := GCHost)).

Lemma int_patterns_covered :
  forallb (fun p => covered_by 0 template_patterns p || covered_by 4 template_patterns p) int_patterns = true.
Proof. vm_compute. reflexivity. Qed.
Lemma template_patterns_included :
  forallb (fun q => existsb (fun p => includes p q) int_patterns) template_patterns = true.
Proof. vm_compute. reflexivity. Qed.

(** What the run loop and the analyzer take from a template. *)
Definition same_shape (t u : DSPOPCTemplate) : bool :=
  (op_size t =? op_size u) && eqb (op_branch t) (op_branch u) && eqb (op_extended t) (op_extended u).

(** The template a pattern of the interpreter stands for. *)
Definition entry_template (p : pattern) : DSPOPCTemplate := GetOpTemplate (fst p).

Lemma overlapping_templates_agree :
  forallb (fun p => forallb (fun t => negb (overlap p (template_pattern t)) || same_shape t (entry_template p))
    s_opcodes) int_patterns = true.
Proof. vm_compute. reflexivity. Qed.

Lemma find_some_iff {T} (get_op get_mask : T -> Z) inst (data : list T) :
  (exists p, In p (map (fun e => (get_op e, get_mask e)) data) /\ pmatch inst p = true) <->
  exists e, FindByOpcode get_op get_mask inst data = Some e.
Proof.
  split.
  - intros (p & Hin & Hm). apply in_map_iff in Hin as (e & <- & Hin).
    destruct (FindByOpcode _ _ _ _) eqn:E; [by eexists|].
    rewrite find_none in E. specialize (E e Hin). unfold pmatch in Hm. simpl in Hm. congruence.
  - intros [e E]. apply FindByOpcode_some in E as [Hin Hm]. exists (get_op e, get_mask e). split; [|done].
    by apply (in_map (fun e => (get_op e, get_mask e))).
Qed.

Section Agreement.
Context {H : Type} {HH : DSPHost H}.

Lemma int_patterns_any :
  map (fun e => (io_opcode e, io_mask e)) (int_opcodes (H := H)) = int_patterns.
Proof. reflexivity. Qed.

Lemma tables_shape inst :
  match FindByOpcode io_opcode io_mask inst (int_opcodes (H := H)), FindOpInfoByOpcode inst with
  | Some e, Some t => same_shape t (GetOpTemplate (io_opcode e)) = true
  | None, None => True
  | _, _ => False
  end.
Proof.
  assert (Hiff : (exists e, FindByOpcode io_opcode io_mask inst (int_opcodes (H := H)) = Some e) <->
                 exists t, FindOpInfoByOpcode inst = Some t).
  { unfold FindOpInfoByOpcode. rewrite <- !find_some_iff, int_patterns_any.
    change (map _ s_opcodes) with template_patterns. split; intros (p & Hin & Hm).
    - pose proof int_patterns_covered as Hc. rewrite forallb_forall in Hc. specialize (Hc p Hin).
      apply orb_prop in Hc as [Hc|Hc]; by apply (covered_by_spec inst _ _ _ Hc).
    - pose proof template_patterns_included as Hc. rewrite forallb_forall in Hc. specialize (Hc p Hin).
      apply existsb_exists in Hc as (q & Hq & Hi). exists q. split; [done|]. by eapply includes_spec. }
  destruct (FindByOpcode _ _ _ _) as [e|] eqn:Ee, (FindOpInfoByOpcode inst) as [t|] eqn:Et.
  - apply FindByOpcode_some in Ee as [He Hme], Et as [Ht Hmt].
    pose proof overlapping_templates_agree as Ha. rewrite forallb_forall in Ha.
    specialize (Ha (io_opcode e, io_mask e)). rewrite <- int_patterns_any in Ha.
    specialize (Ha (in_map (fun e => (io_opcode e, io_mask e)) _ _ He)).
    rewrite forallb_forall in Ha. specialize (Ha t Ht).
    rewrite (overlap_spec inst (io_opcode e, io_mask e) (template_pattern t) Hme Hmt) in Ha. exact Ha.
  - destruct (proj1 Hiff (ex_intro _ e eq_refl)) as [t [=]].
  - destruct (proj2 Hiff (ex_intro _ t eq_refl)) as [e [=]].
  - done.
Qed.

(** The interpreter has a function for exactly the words the template table
    knows, and what the run loop and the analyzer take from the template (the
    size, whether it branches, whether it is extended) is the same for every
    word that decodes to the same function. *)
Theorem tables_agree inst :
  match FindByOpcode io_opcode io_mask inst (int_opcodes (H := H)), FindOpInfoByOpcode inst with
  | Some e, Some t => same_shape t (GetOpTemplate (io_opcode e)) = true
  | None, None => True
  | _, _ => False
  end.
Proof. apply tables_shape. Qed.
End Agreement.

Theorem decode_unambiguous_witness :
  GetOpTemplate 0x0021 = nth 5 s_opcodes_flow cw /\ GetOp (H := GCHost) 0x0021 = DSPIntBranch.halt.
Proof.
  destruct (decode_unambiguous (H := GCHost) 0x0021) as [Ht He]. split.
  - apply Ht; [|reflexivity]. simpl. tauto.
  - apply (He (mkOpInfo 0x0021 0xffff DSPIntBranch.halt)); [|reflexivity]. simpl. tauto.
Defined.

(** * DSP: straight-line execution

    How far every instruction moves the program counter: an instruction that
    does not branch takes exactly the words its template says, so the analyzer,
    which steps by the templates, finds the instructions the interpreter runs. *)

Section Moves.
Context {H : Type}.

(** [m] takes [k] words from the instruction stream. *)
Definition moves {A} (k : Z) (m : M (SDSP H) A) : Prop :=
  forall s, is_u16 (pc s) -> match m s with Done _ s' => pc s' = u16 (pc s + k) | Fault _ => True end.

Lemma moves_keeps {A} (m : M (SDSP H) A) : keeps pc m -> moves 0 m.
Proof.
  intros Hm s Hs. specialize (Hm s). destruct (m s); [|done].
  by rewrite Hm, Z.add_0_r, u16_id.
Qed.

Lemma moves_bind {A C} k1 k2 k (m : M (SDSP H) A) (f : A -> M (SDSP H) C) :
  moves k1 m -> (forall a, moves k2 (f a)) -> k = k1 + k2 -> moves k (mbind m f).
Proof.
  intros Hm Hf -> s Hs. unfold mbind. specialize (Hm s Hs). destruct (m s) as [a s1|]; [|done].
  assert (Hu : is_u16 (pc s1)) by (rewrite Hm; apply is_u16_u16).
  specialize (Hf a s1 Hu). destruct (f a s1) as [c s2|]; [|done]. rewrite Hf, Hm. zlia.
Qed.

Lemma moves_FetchInstruction : moves 1 FetchInstruction.
Proof.
  intros s Hs. unfold FetchInstruction, PeekInstruction, ReadIMEM, mem_read, mbind, get_pc, mget.
  destruct (_ =? 0); [destruct (mem_get _ _); [done|exact I]|].
  destruct (_ =? 8); [destruct (mem_get _ _); [done|exact I]|done].
Qed.

#[export] Instance pc_frame : Frame (pc : SDSP H -> Z).
Proof. split; intros; by destruct s. Qed.
End Moves.

(** A straight-line instruction: the fetch of its operand, if it has one,
    between operations that keep the program counter. *)
Ltac moves_walk :=
  lazymatch goal with
  | |- moves 0 _ => apply moves_keeps; solve [frame_auto]
  | |- moves 1 (mbind FetchInstruction _) =>
      eapply (moves_bind 1 0); [apply moves_FetchInstruction|intros ?; moves_walk|reflexivity]
  | |- moves 1 (mbind _ _) =>
      eapply (moves_bind 0 1); [apply moves_keeps; solve [frame_auto]|intros ?; moves_walk|reflexivity]
  | |- moves _ ?m => let h := head_of m in unfold h; cbv zeta; moves_walk
  end.

Section Sizes.
Context {H : Type} {HH : DSPHost H}.

Definition entry_moves (e : InterpreterOpInfo (H := H)) : Prop :=
  let t := GetOpTemplate (io_opcode e) in
  op_branch t = true \/ forall opc, moves (op_size t - 1) (io_function e opc).

Ltac entry_moves_tac :=
  cbv beta iota delta [entry_moves io_opcode io_function];
  match goal with |- let t := GetOpTemplate ?o in _ =>
    let b := eval vm_compute in (op_branch (GetOpTemplate o)) in
    lazymatch b with
    | true => left; vm_compute; reflexivity
    | false =>
        let n := eval vm_compute in (op_size (GetOpTemplate o) - 1) in
        right; intros opc; replace (op_size (GetOpTemplate o) - 1) with n by (vm_compute; reflexivity);
        moves_walk
    end
  end.

Lemma int_opcodes_plain_move : Forall entry_moves int_opcodes_plain.
Proof. repeat (constructor; [entry_moves_tac|]). constructor. Qed.
Lemma int_opcodes_extended_move : Forall entry_moves int_opcodes_extended.
Proof. repeat (constructor; [entry_moves_tac|]). constructor. Qed.

Lemma same_shape_spec t u : same_shape t u = true -> op_size t = op_size u /\ op_branch t = op_branch u.
Proof.
  unfold same_shape. rewrite !andb_true_iff. intros [[Hs Hb] _].
  apply Z.eqb_eq in Hs. apply eqb_prop in Hb. done.
Qed.

Lemma GetOp_moves inst :
  op_branch (GetOpTemplate inst) = false ->
  moves (op_size (GetOpTemplate inst) - 1) (GetOp inst inst).
Proof.
  pose proof (tables_shape (H := H) inst) as Ht. unfold GetOp, GetOpTemplate at 1 2.
  destruct (FindByOpcode _ _ _ _) as [e|] eqn:Ee, (FindOpInfoByOpcode inst) as [t|]; try done; simpl.
  - apply same_shape_spec in Ht as [-> ->]. intros Hb.
    apply FindByOpcode_some in Ee as [Hin _].
    assert (Hall : Forall entry_moves int_opcodes)
      by (apply Forall_app; split; [apply int_opcodes_plain_move|apply int_opcodes_extended_move]).
    rewrite List.Forall_forall in Hall. destruct (Hall e Hin) as [Hb'|Hm]; [congruence|apply Hm].
  - intros _. apply moves_keeps, keeps_ret.
Qed.

Lemma ExecuteInstruction_moves inst :
  op_branch (GetOpTemplate inst) = false ->
  moves (op_size (GetOpTemplate inst) - 1) (ExecuteInstruction inst).
Proof.
  intros Hb. unfold ExecuteInstruction. cbv zeta.
  eapply (moves_bind 0); [apply moves_keeps; solve [frame_auto]|intros _|reflexivity].
  eapply (moves_bind _ 0); [by apply GetOp_moves|intros _|symmetry; apply Z.add_0_r].
  apply moves_keeps. frame_auto.
Qed.

(** The analyzer's instruction boundaries are the interpreter's: from the
    address of an instruction that does not branch, fetching and executing it
    moves the program counter by exactly the size by which the analyzer moves on. *)
Theorem straight_line_agrees_with_analyzer s w s1 size s2 s3 :
  wf s ->
  FetchInstruction s = Done w s1 -> op_branch (GetOpTemplate w) = false ->
  AnalyzeInstruction (pc s) s = Done size s2 ->
  ExecuteInstruction w s1 = Done tt s3 ->
  pc s3 = u16 (pc s + size).
Proof.
  intros Hs Hf Hb Ha He. pose proof (moves_FetchInstruction s (wf_pc s Hs)) as Hpc. rewrite Hf in Hpc.
  pose proof (ExecuteInstruction_moves w Hb s1 ltac:(rewrite Hpc; apply is_u16_u16)) as Hm.
  rewrite He in Hm. assert (size = op_size (GetOpTemplate w)) as ->; [|rewrite Hm, Hpc; zlia].
  unfold FetchInstruction, PeekInstruction in Hf.
  apply mbind_inv in Hf as (w' & sx & Hr & Hf). apply mbind_inv in Hr as (p & sy & Hp & Hr).
  injection Hp as <- <-. apply mbind_inv in Hf as (p & sz & _ & Hf).
  apply mbind_inv in Hf as (u & sv & _ & Hf). injection Hf as -> _.
  unfold AnalyzeInstruction in Ha. apply mbind_inv in Ha as (w'' & sa & Hr' & Ha).
  rewrite Hr in Hr'. injection Hr' as <- <-. cbv zeta in Ha.
  apply mbind_inv in Ha as (? & ? & _ & Ha). apply mbind_inv in Ha as (? & ? & _ & Ha).
  apply mbind_inv in Ha as (? & ? & _ & Ha). by injection Ha.
Qed.
End Sizes.

Definition si_machine : SDSP GCHost :=
  set_iram (mkMem DSP_IRAM_SIZE 0x0021 (<[0 := 0x16fc]> (<[1 := 7]> ∅))) gc_init.
Lemma si_machine_wf : wf si_machine.
Proof.
  assert (Hm : wf_mem DSP_IRAM_SIZE (mkMem DSP_IRAM_SIZE 0x0021 (<[0 := 0x16fc]> (<[1 := 7]> ∅)))).
  { split; [done|split; [done|]]. repeat (apply map_Forall_insert_2; [done|]). apply map_Forall_empty. }
  pose proof gc_init_wf as Hw. unfold si_machine. revert Hw. generalize gc_init. by wf_set.
Qed.

Theorem straight_line_agrees_with_analyzer_witness :
  exists s1 s3, FetchInstruction si_machine = Done 0x16fc s1 /\ ExecuteInstruction 0x16fc s1 = Done tt s3 /\
    pc s3 = u16 (0 + 2).
Proof.
  eexists. eexists. split; [reflexivity|]. split; [vm_compute; reflexivity|].
  eapply (straight_line_agrees_with_analyzer si_machine 0x16fc _ 2 _ _ si_machine_wf);
    [reflexivity|reflexivity|vm_compute; reflexivity|vm_compute; reflexivity].
Defined.
