(* ===== verification/DSPMachine.v ===== *)
(** * DSP: what the whole machine guarantees

    The state invariant over every interleaving of the CPU and the DSP from
    power-on, the run loops as bounded runs of [Step], and a program that leaves
    the on-chip memory through a DMA. *)
From S2P Require Export GameCubeHost DSPLLE.
From S2P Require DSPBreakpoints.

Section Machine.
Context {H : Type} {HH : DSPHost H}.
Implicit Types s : SDSP H.

(** C2. From power-on, under any sequence of CPU accesses, DSP instructions and
    time slices, every register, memory cell, stack pointer and log entry keeps
    its C++ type; no array is indexed out of range and no loop of the emulator
    runs away: a run can end early only in a DMA that the DSP program asked for. *)
Theorem machine_invariant irom_contents coef_contents (h : H) evs :
  map_Forall (fun _ v => is_u16 v) irom_contents ->
  map_Forall (fun _ v => is_u16 v) coef_contents ->
  Forall event_ok evs ->
  match run_events evs (Initialize irom_contents coef_contents h) with
  | Done _ s => wf s
  | Fault f => dma_fault f
  end.
Proof.
  intros Hi Hc He.
  pose proof (safe_run_events evs He _ (Initialize_wf _ _ h Hi Hc)) as Hr.
  destruct (run_events _ _); [apply Hr|done].
Qed.

(** ** The run loops as runs of [Step] *)

Fixpoint steps (n : nat) : M (SDSP H) unit :=
  match n with O => mret tt | S n' => Step ;;; steps n' end.

Definition halted s : Prop := control_reg s .& CR_HALT <> 0.
Definition idle s : Prop := IsIdleSkip (pc s) s = Done true s.
Definition at_breakpoint (bp : option DSPBreakpoints.DSPBreakpoints) s : Prop :=
  exists b, bp = Some b /\ DSPBreakpoints.IsAddressBreakPoint b (pc s) = Some true.

(** Why a run of [k] steps on a budget of [cycles] stopped in [s']. *)
Definition stop_reason bp (cycles : Z) (k : nat) (b : batch) s' : Prop :=
  match b with
  | Returned c => c = 0 /\ (Z.of_nat k = Z.max 1 cycles \/ halted s' \/ idle s')
  | BreakHit c => at_breakpoint bp s' /\ c = cycles - Z.of_nat k
  | Running c => 0 < c /\ c = cycles - Z.of_nat k
  end.

(** [m] is a run of at most [max 1 cycles] steps that stops for a reason. *)
Definition bounded_run bp (cycles : Z) (m : M (SDSP H) batch) s : Prop :=
  match m s with
  | Done b s' => exists k, Z.of_nat k <= Z.max 1 cycles /\ steps k s = Done tt s' /\
      stop_reason bp cycles k b s'
  | Fault f => f = ArrayBounds \/ f = OutOfFuel \/
      exists k, Z.of_nat k <= Z.max 1 cycles /\ steps k s = Fault f
  end.

Lemma steps_add n k s s' : steps n s = Done tt s' -> steps (n + k) s = steps k s'.
Proof.
  revert s. induction n as [|n IH]; simpl; intros s.
  - by intros [= <-].
  - intros E. apply mbind_inv in E as ([] & s1 & E1 & E). unfold mbind. rewrite E1. by apply IH.
Qed.

(** A bounded run goes on with another one on the cycles that are left. *)
Lemma bounded_run_then bp cycles k c s s1 (m m' : M (SDSP H) batch) :
  steps k s = Done tt s1 -> 0 < c -> c = cycles - Z.of_nat k -> m s = m' s1 ->
  bounded_run bp c m' s1 -> bounded_run bp cycles m s.
Proof.
  intros Hk Hc Ec Em Hb. unfold bounded_run in *. rewrite Em. destruct (m' s1) as [b s'|f].
  - destruct Hb as (k' & Hle & Hk' & Hr). exists (k + k')%nat.
    split; [lia|]. split; [by rewrite (steps_add _ _ _ _ Hk)|].
    destruct b; simpl in *; intuition lia.
  - destruct Hb as [?|[?|(k' & Hle & Hk')]]; [by left|by right; left|right; right].
    exists (k + k')%nat. split; [lia|]. by rewrite (steps_add _ _ _ _ Hk).
Qed.

Lemma bounded_run_bind bp cycles s (m : M (SDSP H) batch) (m2 : Z -> M (SDSP H) batch) :
  bounded_run bp cycles m s -> (forall c s', 0 < c -> bounded_run bp c (m2 c) s') ->
  bounded_run bp cycles (r <- m ;; match r with Running c => m2 c | _ => mret r end) s.
Proof.
  intros Hm Hm2. destruct (m s) as [b s1|f] eqn:E.
  - unfold bounded_run in Hm. rewrite E in Hm. destruct Hm as (k & Hle & Hk & Hr).
    destruct b as [c|c|c].
    1, 2: unfold bounded_run, mbind; rewrite E; simpl; eauto.
    destruct Hr as [Hc ->]. eapply (bounded_run_then bp cycles k _ s s1 _ _ Hk Hc eq_refl);
      [|by apply Hm2]. unfold mbind. by rewrite E.
  - unfold bounded_run, mbind in *. by rewrite E in *.
Qed.

Lemma bounded_run_stop bp cycles s b :
  stop_reason bp cycles 0 b s -> bounded_run bp cycles (mret b) s.
Proof. intros Hr. exists 0%nat. split; [lia|]. by split. Qed.

Lemma run_batch_bounded ch ci bp n cycles s :
  (n = O -> 0 < cycles) -> bounded_run bp cycles (run_batch ch ci bp n cycles) s.
Proof.
  revert cycles s. induction n as [|n IH]; intros cycles s H0.
  { apply bounded_run_stop. simpl. split; [auto|lia]. }
  cbn [run_batch]. unfold bounded_run. unfold mbind at 1, mget.
  destruct (ch && negb (control_reg s .& CR_HALT =? 0)) eqn:Eh.
  { apply bounded_run_stop. split; [done|]. right; left. apply andb_prop in Eh as [_ Eh].
    by apply negb_true_iff, Z.eqb_neq in Eh. }
  unfold mbind at 1, get_pc, mget.
  destruct (match bp with Some b => mopt ArrayBounds (DSPBreakpoints.IsAddressBreakPoint b (pc s))
            | None => mret false end s) as [hit s0|f] eqn:Ehit.
  2: { unfold mbind at 1. rewrite Ehit. left. destruct bp as [b|]; [|done].
       destruct (DSPBreakpoints.IsAddressBreakPoint b (pc s)); [done|by injection Ehit]. }
  assert (s0 = s /\ (hit = true -> at_breakpoint bp s)) as [-> Hhit].
  { destruct bp as [b|]; [|by injection Ehit as <- <-]. unfold at_breakpoint.
    destruct (DSPBreakpoints.IsAddressBreakPoint b (pc s)) as [v|] eqn:Eb; [|done].
    injection Ehit as <- <-. split; [done|]. intros ->. eauto. }
  rewrite (mbind_done _ _ _ _ _ Ehit). destruct hit.
  { apply bounded_run_stop. split; [by apply Hhit|lia]. }
  unfold mbind at 1, IsIdleSkip at 1, mget.
  destruct (ci && has_flag (m_code_flags s) (pc s) CODE_IDLE_SKIP) eqn:Ei.
  { apply bounded_run_stop. split; [done|]. right; right. apply andb_prop in Ei as [_ Ei].
    unfold idle, IsIdleSkip, mget. by rewrite Ei. }
  destruct (Step s) as [[] s1|f] eqn:Est.
  2: { unfold mbind at 1. rewrite Est. right; right. exists 1%nat. split; [lia|].
       simpl. unfold mbind. by rewrite Est. }
  rewrite (mbind_done _ _ _ _ _ Est). cbv zeta.
  assert (H1 : steps 1 s = Done tt s1) by (simpl; unfold mbind; by rewrite Est).
  destruct (Z.leb_spec (cycles - 1) 0).
  - exists 1%nat. split; [lia|]. split; [done|]. split; [done|]. left. lia.
  - change (bounded_run bp cycles (fun _ => run_batch ch ci bp n (cycles - 1) s1) s).
    apply (bounded_run_then bp cycles 1 (cycles - 1) s s1 _ (run_batch ch ci bp n (cycles - 1)));
      [exact H1|lia|lia|reflexivity|]. apply IH. lia.
Qed.

Lemma run_forever_bounded bp fuel cycles s : 0 < cycles -> bounded_run bp cycles (run_forever bp fuel cycles) s.
Proof.
  revert cycles s. induction fuel as [|fuel IH]; intros cycles s Hc; [by right; left|].
  cbn [run_forever]. apply bounded_run_bind; [by apply run_batch_bounded|]. intros c s' Hc'.
  apply bounded_run_bind; [by apply run_batch_bounded|]. auto.
Qed.

Lemma run_cycles_bounded bp fuel cycles s : bounded_run bp cycles (run_cycles bp fuel cycles) s.
Proof.
  unfold run_cycles. apply bounded_run_bind; [by apply run_batch_bounded|].
  intros c s' Hc. by apply run_forever_bounded.
Qed.

(** The guarantee of both run loops, with the faults narrowed down by [wf]. *)
Lemma run_cycles_reason bp cycles s :
  (forall b, bp = Some b -> DSPBreakpoints.bp_wf b) -> wf s ->
  match run_cycles bp (RunCycles_fuel cycles) cycles s with
  | Done b s' => wf s' /\ (forall c, b <> Running c) /\
      exists k, Z.of_nat k <= Z.max 1 cycles /\ steps k s = Done tt s' /\ stop_reason bp cycles k b s'
  | Fault f => exists k, Z.of_nat k <= Z.max 1 cycles /\ steps k s = Fault f
  end.
Proof.
  intros Hb Hs. pose proof (safe_run_cycles bp cycles Hb s Hs) as Hsafe.
  pose proof (run_cycles_bounded bp (RunCycles_fuel cycles) cycles s) as Hk.
  unfold bounded_run in Hk. destruct (run_cycles _ _ _ _) as [b s'|f].
  - destruct Hsafe. auto.
  - unfold dma_fault in Hsafe. destruct Hk as [->|[->|Hk]]; [by destruct Hsafe as [?|[?|?]]..|done].
Qed.

#[local] Instance step_counter_frame : PcFrame (m_step_counter (H := H)).
Proof. split; [split|]; intros; by destruct s. Qed.

Lemma Step_counted s :
  match Step s with Done _ s' => m_step_counter s' = u64 (m_step_counter s + 1) | Fault _ => True end.
Proof.
  unfold Step. pose proof (keeps_CheckExceptions m_step_counter s) as H1. unfold mbind at 1.
  destruct (CheckExceptions s) as [b s1|]; [|done].
  unfold mbind at 1. unfold AdvanceStepCounter, mbind at 1, mget, mmodify.
  set (s2 := set_m_step_counter (u64 (m_step_counter s1 + 1)) s1).
  assert (Hk : keeps m_step_counter
    (opc <- FetchInstruction ;; ExecuteInstruction opc ;;; pc <- get_pc ;;
     loop_end <- IsLoopEnd (u16 (pc - 1)) ;; mwhen loop_end DSPIntBranch.HandleLoop)) by frame_auto.
  specialize (Hk s2). destruct (mbind FetchInstruction _ s2) as [a s3|]; [|done].
  rewrite Hk, <- H1. done.
Qed.

(** The step counter counts the instructions executed, modulo 2^64. *)
Theorem steps_are_counted n s :
  is_u64 (m_step_counter s) ->
  match steps n s with
  | Done _ s' => m_step_counter s' = u64 (m_step_counter s + Z.of_nat n)
  | Fault _ => True
  end.
Proof.
  revert s. induction n as [|n IH]; intros s Hs; cbn [steps].
  - simpl. zlia.
  - pose proof (Step_counted s) as H1. unfold mbind. destruct (Step s) as [a s1|]; [|done].
    assert (Hu : is_u64 (m_step_counter s1)) by (rewrite H1; zlia).
    specialize (IH s1 Hu). destruct (steps n s1) as [b s2|]; [|done]. rewrite IH, H1. zlia.
Qed.

(** C12. [RunCycles] is a bounded run of single steps: it always ends, has used
    at most its budget (and at least one step), reports no cycles left, and
    stopped because the budget was used up, the DSP had halted, or it stood at
    an instruction the analyzer marked as idle; the batching of 8 and 200
    instructions never shows. *)
Theorem RunCycles_refines_steps cycles s :
  wf s ->
  match RunCycles cycles s with
  | Done rest s' => rest = 0 /\ wf s' /\
      exists k, Z.of_nat k <= Z.max 1 cycles /\ steps k s = Done tt s' /\
        (Z.of_nat k = Z.max 1 cycles \/ halted s' \/ idle s')
  | Fault f => exists k, Z.of_nat k <= Z.max 1 cycles /\ steps k s = Fault f
  end.
Proof.
  intros Hs. unfold RunCycles, mbind. pose proof (run_cycles_reason None cycles s ltac:(done) Hs) as Hr.
  destruct (run_cycles _ _ _ _) as [b s'|f]; [|done]. destruct Hr as (Hs' & Hn & k & Hle & Hk & Hst).
  destruct b as [c|c|c]; simpl in *.
  - destruct Hst as [-> Hst]. split; [done|]. split; [done|]. by exists k.
  - by destruct Hst as [(b & ? & _) _].
  - by destruct (Hn c).
Qed.

(** [RunCyclesDebug] also stops in front of every breakpoint: when it asks
    for the stepping state the program counter is at a breakpoint and the cycles
    it returns are those not used. *)
Theorem RunCyclesDebug_stops_at_breakpoint b cycles s :
  DSPBreakpoints.bp_wf b -> wf s ->
  match RunCyclesDebug b cycles s with
  | Done (rest, stepping) s' => wf s' /\
      exists k, Z.of_nat k <= Z.max 1 cycles /\ steps k s = Done tt s' /\
        if stepping : bool then DSPBreakpoints.bp_at b (pc s') /\ rest = cycles - Z.of_nat k
        else rest = 0 /\ (Z.of_nat k = Z.max 1 cycles \/ halted s' \/ idle s')
  | Fault f => exists k, Z.of_nat k <= Z.max 1 cycles /\ steps k s = Fault f
  end.
Proof.
  intros Hb Hs. unfold RunCyclesDebug, mbind.
  pose proof (run_cycles_reason (Some b) cycles s ltac:(naive_solver) Hs) as Hr.
  destruct (run_cycles _ _ _ _) as [x s'|f]; [|done]. destruct Hr as (Hs' & Hn & k & Hle & Hk & Hst).
  destruct x as [c|c|c]; simpl in *; [split; [done|]; by exists k|..].
  - destruct Hst as [(b' & [= <-] & ?) ->]. split; [done|]. by exists k.
  - by destruct (Hn c).
Qed.
End Machine.

(** ** Concrete machines *)

(** Main memory with a DSP program where the boot DMA reads it. *)
Definition boot_ram (program : list Z) : GCHost :=
  CopyToEmuSwapped gc_reset 0x01000000 program.

(** SI @DSPA, #0x1000; SI @DSBL, #2: a DMA of one word to the address just past
    the end of DRAM. *)
Definition overrun_program : list Z := [0x16cd; 0x1000; 0x16cb; 0x0002].

(** The guarantee above cannot be strengthened to "no fault": clearing
    CR_INIT loads a two-instruction program whose second instruction starts a
    DMA that writes outside the DSP's data memory. *)
Theorem dma_leaves_dram :
  run_events [EvWriteControl 0; EvStep; EvStep] (Initialize ∅ ∅ (boot_ram overrun_program))
  = Fault DmaBounds.
Proof. vm_compute. reflexivity. Qed.

Definition sample_events : list (dsp_event (H := GCHost)) :=
  [EvWriteControl 0; EvUpdate 600; EvWriteMailHigh 0x8000; EvWriteMailLow 1; EvReadMailLow true;
   EvWriteControl 2; EvStep; EvReadControl].

Lemma done_wf (o : outcome (SDSP GCHost) unit) :
  is_done o = true -> match o with Done _ s => wf s | Fault f => dma_fault f end ->
  exists s, o = Done tt s /\ wf s.
Proof. destruct o as [[] s|f]; simpl; [by exists s|done]. Qed.

Theorem machine_invariant_witness :
  exists s : SDSP GCHost, run_events sample_events (Initialize ∅ ∅ gc_reset) = Done tt s /\ wf s.
Proof.
  apply done_wf; [vm_compute; reflexivity|].
  apply (machine_invariant ∅ ∅ gc_reset sample_events (map_Forall_empty _) (map_Forall_empty _)).
  repeat constructor; discriminate.
Defined.

Theorem RunCycles_refines_steps_witness :
  exists k, Z.of_nat k <= 10 /\
    match RunCycles 10 gc_init with Done _ s' => steps k gc_init = Done tt s' | Fault f => steps k gc_init = Fault f end.
Proof.
  pose proof (RunCycles_refines_steps 10 gc_init gc_init_wf) as Hr.
  destruct (RunCycles 10 gc_init) as [c s'|f].
  - destruct Hr as (_ & _ & k & Hle & Hk & _). by exists k.
  - destruct Hr as (k & Hle & Hk). by exists k.
Defined.

(** A running machine in front of a breakpoint. *)
Definition stopped_machine : SDSP GCHost := set_control_reg 0 gc_init.
Definition one_breakpoint : DSPBreakpoints.DSPBreakpoints := mkMem 65536 0 (<[0 := 1]> ∅).

Lemma stopped_machine_wf : wf stopped_machine.
Proof. pose proof gc_init_wf as Hw. unfold stopped_machine. revert Hw. generalize gc_init. by wf_set. Qed.

Theorem RunCyclesDebug_stops_at_breakpoint_witness :
  exists s', RunCyclesDebug one_breakpoint 10 stopped_machine = Done (10, true) s' /\
    DSPBreakpoints.bp_at one_breakpoint (pc s').
Proof.
  pose proof (RunCyclesDebug_stops_at_breakpoint one_breakpoint 10 stopped_machine eq_refl stopped_machine_wf) as Hr.
  exists stopped_machine.
  assert (E : RunCyclesDebug one_breakpoint 10 stopped_machine = Done (10, true) stopped_machine)
    by (vm_compute; reflexivity).
  rewrite E in Hr. destruct Hr as (_ & k & _ & _ & Hb & _). split; [exact E|exact Hb].
Defined.

Theorem steps_are_counted_witness :
  match steps 3 gc_init with Done _ s' => m_step_counter s' = 3 | Fault _ => False end.
Proof.
  assert (Hd : is_done (steps 3 gc_init) = true) by (vm_compute; reflexivity).
  pose proof (steps_are_counted 3 gc_init ltac:(done)) as Hc.
  destruct (steps 3 gc_init); [exact Hc|discriminate Hd].
Defined.
