(* ===== verification/DSPAnalysis.v ===== *)
(** * DSP: what the analyzer finds

    The flags [Analyze] leaves: the instruction starts are closed under "next
    instruction" inside the two code memories, and the last instruction of
    every hardware loop that starts at one of them is flagged as a loop end. *)
From S2P Require Export DSPDecode.

(** Flags of an address, bit by bit. *)
Definition or_flag (flags : gmap Z Z) (a f : Z) : gmap Z Z := <[a := GetCodeFlags flags a .| f]> flags.

Lemma testbit_or_flag flags a f x i :
  0 <= i ->
  Z.testbit (GetCodeFlags (or_flag flags a f) x) i
  = Z.testbit (GetCodeFlags flags x) i || ((x =? a) && Z.testbit f i).
Proof.
  intros Hi. unfold or_flag. unfold GetCodeFlags at 1. destruct (Z.eqb_spec x a) as [->|Hne].
  - rewrite lookup_insert_eq. simpl. apply Z.lor_spec.
  - rewrite lookup_insert_ne by auto. simpl. by rewrite orb_false_r.
Qed.

Section Analysis.
Context {H : Type}.
Implicit Types s : SDSP H.

(** The word of instruction memory at an address. *)
Definition imem s (a : Z) : Z :=
  if a .>> 12 =? 0 then default 0 (mem_get (iram s) (a .& DSP_IRAM_MASK))
  else if a .>> 12 =? 8 then default 0 (mem_get (irom s) (a .& DSP_IROM_MASK))
  else 0.

Lemma ReadIMEM_inv a s v s' : ReadIMEM a s = Done v s' -> s' = s /\ v = imem s a.
Proof.
  unfold ReadIMEM, imem, mem_read, mbind, mget. destruct (_ =? 0); [|destruct (_ =? 8)].
  - by destruct (mem_get _ _); intros [= <- <-].
  - by destruct (mem_get _ _); intros [= <- <-].
  - by intros [= <- <-].
Qed.

Definition flag s (i a : Z) : bool := Z.testbit (GetCodeFlags (m_code_flags s) a) i.
Definition is_start s a : bool := flag s 0 a.
Definition is_loop_end s a : bool := flag s 3 a.

Lemma has_flag_testbit s a i : 0 <= i -> has_flag (m_code_flags s) a (2 ^ i) = flag s i a.
Proof. intros. unfold has_flag. by apply flag_testbit. Qed.

(** ** Adding flags *)

Definition reflag (F : gmap Z Z) s : SDSP H := set_m_code_flags F s.

(** [new i x]: bit [i] of the flags of [x] is added. *)
Definition adds (new : Z -> Z -> bool) s s' : Prop :=
  (exists F, s' = reflag F s) /\ forall i x, 0 <= i -> flag s' i x = flag s i x || new i x.
(** A computation that adds flags and returns [a]. *)
Definition marking {A} (m : M (SDSP H) A) (a : A) (new : Z -> Z -> bool) s : Prop :=
  forall b s', m s = Done b s' -> b = a /\ adds new s s'.

Lemma adds_trans n1 n2 s1 s2 s3 :
  adds n1 s1 s2 -> adds n2 s2 s3 -> adds (fun i x => n1 i x || n2 i x) s1 s3.
Proof.
  intros [[F1 ->] H1] [[F2 ->] H2]. split; [by exists F2|]. intros i x Hi.
  by rewrite H2, H1, orb_assoc.
Qed.
Lemma adds_none s : adds (fun _ _ => false) s s.
Proof.
  split; [exists (m_code_flags s); by destruct s|]. intros. by rewrite orb_false_r.
Qed.
Lemma adds_ext n1 n2 s s' : (forall i x, 0 <= i -> n1 i x = n2 i x) -> adds n1 s s' -> adds n2 s s'.
Proof. intros Hn [Hs Ha]. split; [done|]. intros i x Hi. by rewrite Ha, Hn. Qed.

(** Flags say nothing about the code. *)
Lemma adds_imem n s s' : adds n s s' -> imem s' = imem s.
Proof. by intros [[F ->] _]. Qed.

Lemma add_flag_adds a k s s' u : 0 <= k ->
  add_flag a (2 ^ k) s = Done u s' -> adds (fun i x => (x =? a) && (i =? k)) s s'.
Proof.
  intros Hk [= <- <-]. split; [by eexists|]. intros i x Hi. unfold flag. cbn [m_code_flags set_m_code_flags].
  fold (or_flag (m_code_flags s) a (2 ^ k)). rewrite testbit_or_flag by done.
  by rewrite Z.pow2_bits_eqb, (Z.eqb_sym k i) by lia.
Qed.

(** ** One instruction *)

(** BLOOP and BLOOPI, LOOP and LOOPI *)
Definition is_bloop (inst : Z) : bool := (inst .& 0xffe0 =? 0x0060) || (inst .& 0xff00 =? 0x1100).
Definition is_loop (inst : Z) : bool := (inst .& 0xffe0 =? 0x0040) || (inst .& 0xff00 =? 0x1000).

(** The last instruction of the loop that starts at [a]. *)
Definition loop_last s (a : Z) : option Z :=
  if is_bloop (imem s a) then Some (imem s (u16 (a + 1)))
  else if is_loop (imem s a) then Some (u16 (a + 1))
  else None.
Definition size_at s a : Z := op_size (GetOpTemplate (imem s a)).
Definition next_at s a : Z := u16 (a + size_at s a).

(** The flags the instruction at [a] gives rise to. *)
Definition marks s a (i x : Z) : bool :=
  ((x =? a) && (i =? 0)) ||
  match loop_last s a with
  | Some e => ((x =? a) && (i =? 2)) || ((x =? e) && (i =? 3))
  | None => false
  end ||
  (raises_exceptions (GetOpTemplate (imem s a)) && ((x =? next_at s a) && (i =? 5))).

Lemma AnalyzeInstruction_marks a s : marking (AnalyzeInstruction a) (size_at s a) (marks s a) s.
Proof.
  intros b s' E. unfold AnalyzeInstruction in E. apply mbind_inv in E as (w & s1 & Hr & E).
  apply ReadIMEM_inv in Hr as [-> ->]. cbv zeta in E.
  apply mbind_inv in E as (u2 & s2 & E2 & E). apply (add_flag_adds a 0) in E2; [|lia].
  apply mbind_inv in E as (u3 & s3 & E3 & E). apply mbind_inv in E as (u4 & s4 & E4 & E).
  injection E as <- <-. split; [done|]. fold (is_bloop (imem s a)) (is_loop (imem s a)) in E3.
  unfold marks. eapply adds_trans; [eapply adds_trans; [exact E2|]|].
  - instantiate (1 := s3). unfold loop_last.
    destruct (is_bloop (imem s a)); [|destruct (is_loop (imem s a))].
    + apply mbind_inv in E3 as (le & sx & Hr & E3). apply ReadIMEM_inv in Hr as [-> ->].
      rewrite (adds_imem _ _ _ E2) in E3. apply mbind_inv in E3 as (u5 & s5 & E5 & E3).
      eapply adds_trans; [by eapply (add_flag_adds a 2)|by eapply (add_flag_adds _ 3)].
    + apply mbind_inv in E3 as (u5 & s5 & E5 & E3).
      eapply adds_trans; [by eapply (add_flag_adds a 2)|by eapply (add_flag_adds _ 3)].
    + injection E3 as <- <-. apply adds_none.
  - destruct (raises_exceptions _); simpl in E4 |- *.
    + by eapply (add_flag_adds _ 5).
    + injection E4 as <- <-. apply adds_none.
Qed.

Lemma marks_imem s1 s2 a i x : imem s1 = imem s2 -> marks s1 a i x = marks s2 a i x.
Proof. intros E. unfold marks, loop_last, next_at, size_at. by rewrite E. Qed.

(** ** A range of instructions *)

(** The instruction starts the scan visits. *)
Fixpoint chain s (fuel : nat) (a e : Z) : list Z :=
  if negb (a <? e) then [] else
  match fuel with O => [] | S fuel' => a :: chain s fuel' (next_at s a) e end.

Lemma chain_imem s1 s2 fuel a e : imem s1 = imem s2 -> chain s1 fuel a e = chain s2 fuel a e.
Proof.
  intros E. revert a. induction fuel as [|fuel IH]; intros a; simpl; [done|].
  destruct (negb _); [reflexivity|]. assert (En : next_at s1 a = next_at s2 a).
  { unfold next_at, size_at. rewrite E. reflexivity. }
  rewrite En, IH. reflexivity.
Qed.

Definition marks_of s (l : list Z) (i x : Z) : bool := existsb (fun b => marks s b i x) l.

Lemma marks_of_imem s1 s2 l i x : imem s1 = imem s2 -> marks_of s1 l i x = marks_of s2 l i x.
Proof.
  intros E. unfold marks_of. induction l as [|b l IH]; cbn [existsb]; [reflexivity|].
  rewrite IH, (marks_imem s1 s2 b i x E). reflexivity.
Qed.

Lemma existsb_marks_imem s1 s2 l i x : imem s1 = imem s2 ->
  existsb (fun b => marks s1 b i x) l = existsb (fun b => marks s2 b i x) l.
Proof. exact (marks_of_imem s1 s2 l i x). Qed.

Lemma marks_of_nil s : adds (marks_of s []) s s.
Proof. eapply (adds_ext (fun _ _ => false)); [by intros|apply adds_none]. Qed.

Lemma FindInstructionStarts_marks fuel a e s u s' :
  FindInstructionStarts fuel a e s = Done u s' -> adds (marks_of s (chain s fuel a e)) s s'.
Proof.
  revert a s. induction fuel as [|fuel IH]; intros a s E; simpl in E |- *.
  - destruct (negb _); [|done]. injection E as <- <-. exact (marks_of_nil s).
  - destruct (negb _); [injection E as <- <-; exact (marks_of_nil s)|].
    apply mbind_inv in E as (sz & s1 & E1 & E). apply AnalyzeInstruction_marks in E1 as [-> H1].
    apply IH in E. pose proof (adds_imem _ _ _ H1) as Ei.
    rewrite (chain_imem _ _ _ _ _ Ei) in E.
    eapply adds_ext; [|eapply adds_trans; [exact H1|exact E]]. intros i x Hi. cbv beta.
    rewrite (marks_of_imem s1 s _ i x Ei). reflexivity.
Qed.

(** The search for idle loops only adds the idle flag. *)
Definition adds_idle s s' : Prop := exists new, adds new s s' /\ forall i x, new i x = true -> i = 1.

Lemma adds_idle_refl s : adds_idle s s.
Proof. exists (fun _ _ => false). split; [apply adds_none|done]. Qed.
Lemma adds_idle_trans s1 s2 s3 : adds_idle s1 s2 -> adds_idle s2 s3 -> adds_idle s1 s3.
Proof.
  intros (n1 & A1 & H1) (n2 & A2 & H2). eexists. split; [by eapply adds_trans|].
  intros i x E. apply orb_prop in E as [E|E]; eauto.
Qed.

Lemma MatchIdleSig_pure sig a b s r s' : MatchIdleSig sig a b s = Done r s' -> s' = s.
Proof.
  revert a b. induction sig as [|x sig IH]; intros a b E; simpl in E; [by injection E|].
  destruct (x =? 0xFFFF); [by apply IH in E|]. apply mbind_inv in E as (w & s1 & Hr & E).
  apply ReadIMEM_inv in Hr as [-> _]. destruct (negb _); [by injection E|by apply IH in E].
Qed.

Lemma FindIdleSig_idle sig n a s u s' : FindIdleSig sig n a s = Done u s' -> adds_idle s s'.
Proof.
  revert a s. induction n as [|n IH]; intros a s E; simpl in E.
  - injection E as <- <-. apply adds_idle_refl.
  - apply mbind_inv in E as (f & s1 & E1 & E). apply MatchIdleSig_pure in E1 as ->.
    apply mbind_inv in E as (v & s2 & E2 & E). apply IH in E. eapply adds_idle_trans; [|exact E].
    destruct f; simpl in E2; [|injection E2 as <- <-; apply adds_idle_refl].
    apply (add_flag_adds a 1) in E2; [|lia]. eexists. split; [exact E2|].
    intros i x Hb. apply andb_prop in Hb as [_ Hb]. lia.
Qed.

Lemma FindIdleSkips_idle sigs a e s u s' : FindIdleSkips sigs a e s = Done u s' -> adds_idle s s'.
Proof.
  revert s. induction sigs as [|sig sigs IH]; intros s E; simpl in E.
  - injection E as <- <-. apply adds_idle_refl.
  - apply mbind_inv in E as (v & s1 & E1 & E). apply FindIdleSig_idle in E1. apply IH in E.
    by eapply adds_idle_trans.
Qed.

Definition range_chain s (a e : Z) : list Z := chain s (Z.to_nat (e - a)) a e.

Lemma AnalyzeRange_flags a e s u s' :
  AnalyzeRange a e s = Done u s' ->
  imem s' = imem s /\
  forall i x, 0 <= i -> i <> 1 -> flag s' i x = flag s i x || marks_of s (range_chain s a e) i x.
Proof.
  unfold AnalyzeRange. intros E. apply mbind_inv in E as (v & s1 & E1 & E).
  apply FindInstructionStarts_marks in E1. apply FindIdleSkips_idle in E as (new & A & Hn).
  split; [by rewrite (adds_imem _ _ _ A), (adds_imem _ _ _ E1)|]. intros i x Hi Hne.
  rewrite (proj2 A i x Hi), (proj2 E1 i x Hi). destruct (new i x) eqn:En; [|by rewrite orb_false_r].
  by apply Hn in En.
Qed.

(** The two code memories, scanned in full. *)
Definition code_chain s : list Z := range_chain s 0x0000 0x1000 ++ range_chain s 0x8000 0x9000.

Lemma range_chain_imem s1 s2 a e : imem s1 = imem s2 -> range_chain s1 a e = range_chain s2 a e.
Proof. exact (chain_imem s1 s2 _ a e). Qed.

Lemma marks_of_app s l1 l2 i x : marks_of s (l1 ++ l2) i x = marks_of s l1 i x || marks_of s l2 i x.
Proof. unfold marks_of. by rewrite existsb_app. Qed.

Lemma Analyze_flags s u s' :
  Analyze s = Done u s' ->
  imem s' = imem s /\ forall i x, 0 <= i -> i <> 1 -> flag s' i x = marks_of s (code_chain s) i x.
Proof.
  unfold Analyze. intros E. apply mbind_inv in E as (v & sr & E0 & E). injection E0 as <- <-.
  set (s0 := set_m_code_flags ∅ s) in *. assert (I0 : imem s0 = imem s) by reflexivity.
  assert (E0 : forall i x, flag s0 i x = false) by (intros i x; exact (Z.bits_0 i)). clearbody s0.
  apply mbind_inv in E as (v1 & s1 & E1 & E). apply AnalyzeRange_flags in E1 as [I1 F1].
  apply AnalyzeRange_flags in E as [I2 F2]. split; [congruence|]. intros i x Hi Hne.
  rewrite F2, F1, E0, orb_false_l by assumption. unfold code_chain.
  rewrite marks_of_app, (marks_of_imem s0 s _ i x I0), (range_chain_imem s0 s _ _ I0).
  assert (I1' : imem s1 = imem s) by congruence.
  rewrite (marks_of_imem s1 s _ i x I1'), (range_chain_imem s1 s _ _ I1'). reflexivity.
Qed.

Lemma marks_0 s a x : marks s a 0 x = (x =? a).
Proof.
  unfold marks. change (0 =? 0) with true. change (0 =? 2) with false. change (0 =? 3) with false.
  change (0 =? 5) with false. destruct (loop_last s a); by rewrite ?andb_false_r, ?orb_false_r, andb_true_r.
Qed.

Lemma marks_start s l x : marks_of s l 0 x = true <-> In x l.
Proof.
  unfold marks_of. rewrite existsb_exists. split.
  - intros (b & Hb & E). rewrite marks_0 in E. apply Z.eqb_eq in E. by subst.
  - intros Hx. exists x. split; [exact Hx|]. by rewrite marks_0, Z.eqb_refl.
Qed.

Lemma marks_loop_end s l a e : In a l -> loop_last s a = Some e -> marks_of s l 3 e = true.
Proof.
  intros Ha He. apply existsb_exists. exists a. split; [done|]. unfold marks. rewrite He, !Z.eqb_refl.
  by rewrite !orb_true_r.
Qed.

Lemma size_at_range s a : size_at s a = 1 \/ size_at s a = 2.
Proof. apply op_size_range. Qed.

(** The scan goes from each start to the next until it leaves the range. *)
Lemma chain_next s fuel a e b :
  0 <= a -> e < 0xffff -> e - a <= Z.of_nat fuel -> In b (chain s fuel a e) ->
  a <= b < e /\ (In (next_at s b) (chain s fuel a e) \/ e <= next_at s b < e + 2).
Proof.
  revert a. induction fuel as [|fuel IH]; intros a Ha He Hf Hb; simpl in Hb |- *.
  - destruct (negb _); done.
  - destruct (Z.ltb_spec a e) as [Hlt|]; simpl in Hb |- *; [|done].
    assert (Hn : next_at s a = a + size_at s a).
    { unfold next_at. apply u16_id. unfold is_u16. destruct (size_at_range s a); lia. }
    pose proof (size_at_range s a) as Hsz. destruct Hb as [<-|Hb].
    + split; [lia|]. destruct (Z.ltb_spec (next_at s a) e); [|right; lia]. left. right.
      destruct fuel; simpl; rewrite (proj2 (Z.ltb_lt _ _)) by lia; simpl; [lia|by left].
    + destruct (IH (next_at s a) ltac:(lia) He ltac:(lia) Hb) as [Hr [Hi|Hi]];
        (split; [lia|]); [left; by right|by right].
Qed.

Lemma range_chain_next s a e b :
  0 <= a -> e < 0xffff -> In b (range_chain s a e) ->
  a <= b < e /\ (In (next_at s b) (range_chain s a e) \/ e <= next_at s b < e + 2).
Proof. intros Ha He. apply chain_next; lia. Qed.

Lemma range_chain_head s a e : a < e -> In a (range_chain s a e).
Proof.
  intros Hlt. unfold range_chain. destruct (Z.to_nat (e - a)) eqn:En; [lia|]. simpl.
  rewrite (proj2 (Z.ltb_lt a e)) by lia. by left.
Qed.

Definition in_code (a : Z) : Prop := 0 <= a < 0x1000 \/ 0x8000 <= a < 0x9000.

(** After [Analyze] the flagged instruction starts lie in the two code
    memories, include the first word of each, and are closed under "the next
    instruction" until the memory ends; the last instruction of every hardware
    loop that starts at one of them is flagged as a loop end. *)
Theorem analysis_finds_instructions s u s' :
  Analyze s = Done u s' ->
  is_start s' 0x0000 = true /\ is_start s' 0x8000 = true /\
  forall a, is_start s' a = true ->
    in_code a /\
    (is_start s' (next_at s a) = true \/ ~ in_code (next_at s a)) /\
    (forall e, loop_last s a = Some e -> is_loop_end s' e = true).
Proof.
  intros E. apply Analyze_flags in E as [_ F].
  assert (Hst : forall x, is_start s' x = true <-> In x (code_chain s)).
  { intros x. unfold is_start. rewrite F by lia. apply marks_start. }
  split; [|split].
  - apply Hst, in_or_app. left. apply range_chain_head. lia.
  - apply Hst, in_or_app. right. apply range_chain_head. lia.
  - intros a Ha. apply Hst in Ha. split; [|split].
    + apply in_app_or in Ha as [Ha|Ha]; apply range_chain_next in Ha as [? _]; unfold in_code; lia.
    + rewrite Hst. unfold code_chain in *. rewrite in_app_iff. unfold in_code.
      apply in_app_or in Ha as [Ha|Ha]; (apply range_chain_next in Ha as [_ [Hn|Hn]]; [| |lia|lia]);
        [left; left; exact Hn|right; lia|left; right; exact Hn|right; lia].
    + intros e He. unfold is_loop_end. rewrite F by lia. by eapply marks_loop_end.
Qed.
End Analysis.

(** A program with a loop: BLOOPI #3, 0x0003. *)
Definition bloop_machine : SDSP GCHost :=
  set_iram (mkMem DSP_IRAM_SIZE 0x0021 (<[0 := 0x1103]> (<[1 := 3]> ∅))) gc_init.

Theorem analysis_finds_instructions_witness :
  exists s', Analyze bloop_machine = Done tt s' /\ is_start s' 0 = true /\ is_loop_end s' 3 = true.
Proof.
  destruct (Analyze bloop_machine) as [u s'|f] eqn:E.
  - destruct (analysis_finds_instructions bloop_machine u s' E) as (H0 & _ & Ha).
    destruct u. exists s'. split; [reflexivity|]. split; [exact H0|].
    destruct (Ha 0 H0) as (_ & _ & Hl). apply Hl. reflexivity.
  - exfalso. assert (Hd : is_done (Analyze bloop_machine) = true) by (vm_compute; reflexivity).
    rewrite E in Hd. discriminate Hd.
Defined.
