(* ===== verification/DSPMailbox.v ===== *)
(** * DSP: the mailbox protocol

    A mailbox is one 32-bit word with a full flag in bit 31; the two halves are
    written and read separately, each access a load and a store of the word.
    The sender polls the flag, writes the high and then the low half; the
    receiver polls the high half and then reads the low half.  Every
    interleaving of the loads and stores of the two sides delivers the messages
    in order, none lost and none twice. *)
From S2P Require Export GameCubeHost.
From S2P Require DSPAlu.

(** ** The words the accesses store *)

Definition full (word : Z) : bool := Z.testbit word 31.

Lemma testbit_u16 v i : is_u16 v -> 16 <= i -> Z.testbit v i = false.
Proof.
  intros Hv Hi. destruct (bits_above_pow2 v 16 ltac:(lia)) as [Hb _]. destruct Hb as [_ Hb]; [exact Hv|].
  by apply Hb.
Qed.

Lemma testbit_u16_of v i : 0 <= i -> Z.testbit (u16 v) i = Z.testbit v i && (i <? 16).
Proof.
  intros Hi. unfold u16. change 0x10000 with (2 ^ 16). destruct (Z.ltb_spec i 16).
  - by rewrite Z.mod_pow2_bits_low, andb_true_r by lia.
  - by rewrite Z.mod_pow2_bits_high, andb_false_r by lia.
Qed.

Lemma testbit_0xffff i : 0 <= i -> Z.testbit 0xffff i = (i <? 16).
Proof.
  intros Hi. change 0xffff with (Z.ones 16). rewrite Z.testbit_ones by lia.
  by rewrite (proj2 (Z.leb_le 0 i)) by lia.
Qed.

Lemma testbit_31 i : Z.testbit 0x80000000 i = (31 =? i).
Proof. change 0x80000000 with (2 ^ 31). apply Z.pow2_bits_eqb. lia. Qed.

Ltac word_bits :=
  repeat first [rewrite Z.land_spec | rewrite Z.lor_spec | rewrite Z.lnot_spec by lia
               | rewrite testbit_31 | rewrite testbit_0xffff by lia
               | rewrite Z.shiftl_spec by lia | rewrite Z.shiftr_spec by lia
               | rewrite testbit_u16_of by lia].

Lemma with_high_empty old v : full (with_high old v) = false.
Proof. unfold full, with_high. word_bits. simpl. by rewrite andb_false_r. Qed.
Lemma emptied_empty v : full (emptied v) = false.
Proof. unfold full, emptied. word_bits. simpl. by rewrite andb_false_r. Qed.
Lemma with_low_full old v : full (with_low old v) = true.
Proof. unfold full, with_low. word_bits. simpl. by rewrite orb_true_r. Qed.

(** The low half read back, and the high half, with the full flag on top. *)
Lemma with_low_low old v : is_u16 v -> u16 (with_low old v) = v.
Proof.
  intros Hv. apply Z.bits_inj'. intros i Hi. unfold with_low. word_bits.
  destruct (Z.ltb_spec i 16); cbn [negb].
  - rewrite (proj2 (Z.eqb_neq 31 i)) by lia. by rewrite andb_false_r, orb_false_r, andb_true_r.
  - by rewrite andb_false_r, testbit_u16.
Qed.

Lemma with_low_high old hi lo :
  is_u16 hi -> is_u16 lo -> high_half (with_low (with_high old hi) lo) = hi .| 0x8000.
Proof.
  intros Hhi Hlo. apply Z.bits_inj'. intros i Hi. unfold high_half, with_low, with_high. word_bits.
  change 0x8000 with (2 ^ 15). rewrite Z.pow2_bits_eqb by lia.
  rewrite (testbit_u16 lo (i + 16)) by (assumption || lia). rewrite (proj2 (Z.ltb_ge (i + 16) 16)) by lia.
  replace (i + 16 - 16) with i by lia. replace (31 =? i + 16) with (15 =? i)
    by (destruct (Z.eqb_spec 15 i), (Z.eqb_spec 31 (i + 16)); lia).
  destruct (Z.ltb_spec i 16); cbn [negb].
  - rewrite !andb_false_r. destruct (15 =? i), (Z.testbit hi i), (Z.testbit old (i + 16)); done.
  - rewrite !andb_false_r, testbit_u16 by done. rewrite (proj2 (Z.eqb_neq 15 i)) by lia. done.
Qed.

(** ** The two sides *)

Definition message : Type := Z * Z.
Definition message_ok (m : message) : Prop := is_u16 (fst m) /\ is_u16 (snd m).
(** What the receiver gets: the high half always has its top bit set. *)
Definition delivered (m : message) : message := (fst m .| 0x8000, snd m).

(** Where the sender is: about to poll, or about to load or store for a half. *)
Inductive sender := SPoll | SHighLoad | SHighStore (old : Z) | SLowLoad | SLowStore (old : Z).
(** Where the receiver is: about to poll, or reading the low half. *)
Inductive receiver := RPoll | RLowLoad (high : Z) | RLowStore (high value : Z).

Record mail := mkMail {
  word : Z;
  todo : list message;       (** the messages not yet in the mailbox *)
  snd_at : sender;
  rcv_at : receiver;
  got : list message         (** the messages received *)
}.

(** One load or store of one side: the loads and stores [WriteMailboxHigh],
    [WriteMailboxLow], [ReadMailboxHigh] and [ReadMailboxLow] are made of. *)
Inductive mail_step : mail -> mail -> Prop :=
  | step_poll_full w m ms R g : full w = true ->
      mail_step (mkMail w (m :: ms) SPoll R g) (mkMail w (m :: ms) SPoll R g)
  | step_poll_empty w m ms R g : full w = false ->
      mail_step (mkMail w (m :: ms) SPoll R g) (mkMail w (m :: ms) SHighLoad R g)
  | step_high_load w ms R g :
      mail_step (mkMail w ms SHighLoad R g) (mkMail w ms (SHighStore w) R g)
  | step_high_store w old m ms R g :
      mail_step (mkMail w (m :: ms) (SHighStore old) R g)
                (mkMail (with_high old (fst m)) (m :: ms) SLowLoad R g)
  | step_low_load w ms R g :
      mail_step (mkMail w ms SLowLoad R g) (mkMail w ms (SLowStore w) R g)
  | step_low_store w old m ms R g :
      mail_step (mkMail w (m :: ms) (SLowStore old) R g) (mkMail (with_low old (snd m)) ms SPoll R g)
  | step_read_empty w ms S g : full w = false ->
      mail_step (mkMail w ms S RPoll g) (mkMail w ms S RPoll g)
  | step_read_high w ms S g : full w = true ->
      mail_step (mkMail w ms S RPoll g) (mkMail w ms S (RLowLoad (high_half w)) g)
  | step_read_low_load w ms S high g :
      mail_step (mkMail w ms S (RLowLoad high) g) (mkMail w ms S (RLowStore high w) g)
  | step_read_low_store w ms S high value g :
      mail_step (mkMail w ms S (RLowStore high value) g)
                (mkMail (emptied value) ms S RPoll (g ++ [(high, u16 value)])).

Definition mail_steps : mail -> mail -> Prop := rtc mail_step.
Definition mail_start (w : Z) (msgs : list message) : mail := mkMail w msgs SPoll RPoll [].

(** The sender's loads agree with the word as it is. *)
Inductive sending (m : message) : Z -> sender -> Prop :=
  | sending_high_load w : full w = false -> sending m w SHighLoad
  | sending_high_store w : full w = false -> sending m w (SHighStore w)
  | sending_low_load old : sending m (with_high old (fst m)) SLowLoad
  | sending_low_store old : sending m (with_high old (fst m)) (SLowStore (with_high old (fst m))).

Inductive receiving (m : message) : Z -> receiver -> Prop :=
  | receiving_poll w : receiving m w RPoll
  | receiving_low_load w : receiving m w (RLowLoad (fst m .| 0x8000))
  | receiving_low_store w : receiving m w (RLowStore (fst m .| 0x8000) w).

(** A word that holds a message. *)
Definition holds (m : message) (w : Z) : Prop :=
  full w = true /\ high_half w = fst m .| 0x8000 /\ u16 w = snd m.

Inductive mail_inv (msgs : list message) : mail -> Prop :=
  | inv_empty past ms w : msgs = past ++ ms -> full w = false ->
      mail_inv msgs (mkMail w ms SPoll RPoll (map delivered past))
  | inv_sending past m ms w S : msgs = past ++ m :: ms -> sending m w S ->
      mail_inv msgs (mkMail w (m :: ms) S RPoll (map delivered past))
  | inv_full past m ms w R : msgs = past ++ m :: ms -> holds m w -> receiving m w R ->
      mail_inv msgs (mkMail w ms SPoll R (map delivered past)).

Lemma sending_empty m w S : sending m w S -> full w = false.
Proof. destruct 1; [done|done|apply with_high_empty..]. Qed.

Lemma mail_inv_step msgs a b :
  Forall message_ok msgs -> mail_inv msgs a -> mail_step a b -> mail_inv msgs b.
Proof.
  intros Hok Hinv Hstep.
  assert (Hin : forall past m ms, msgs = past ++ m :: ms -> message_ok m).
  { intros past m ms ->. apply Forall_app in Hok as [_ Hok]. by inversion Hok. }
  inversion Hinv as [past ms w Em Hf|past m ms w S Em Hs|past m ms w R Em Hh Hr]; subst a;
    inversion Hstep; subst;
    repeat match goal with
    | Hs : sending _ _ _ |- _ => inversion Hs; clear Hs; subst
    | Hr : receiving _ _ _ |- _ => inversion Hr; clear Hr; subst
    end;
    try (destruct Hh as (Hfull & Hhigh & Hlow)); rewrite ?with_high_empty in *; try congruence;
    try (by apply inv_empty); try (by eapply inv_sending; [|constructor]).
  - destruct (Hin past m ms eq_refl). eapply inv_full; [reflexivity| |constructor].
    split; [apply with_low_full|split; [by apply with_low_high|by apply with_low_low]].
  - rewrite Hhigh. by apply (inv_full _ past m ms); [|split|constructor].
  - by apply (inv_full _ past m ms); [|split|constructor].
  - assert (E : map delivered past ++ [(fst m .| 0x8000, u16 value)] = map delivered (past ++ [m])).
    { rewrite map_app. simpl. unfold delivered at 3. by rewrite Hlow. }
    rewrite E. apply inv_empty; [by rewrite <- app_assoc|apply emptied_empty].
Qed.

Lemma mail_inv_steps msgs w b :
  Forall message_ok msgs -> full w = false -> mail_steps (mail_start w msgs) b -> mail_inv msgs b.
Proof.
  intros Hok Hw Hst. assert (Hi : mail_inv msgs (mail_start w msgs)) by by apply (inv_empty msgs []).
  revert Hi. unfold mail_steps in Hst. induction Hst as [|a b c Hab _ IH]; [done|].
  intros Hi. apply IH. by eapply mail_inv_step.
Qed.

(** C19. Whatever the interleaving of the loads and stores of the two sides, the
    receiver has at any time received a prefix of the messages, each once and
    unmixed, and at most one more has been handed over. *)
Theorem mailbox_in_order w msgs b :
  Forall message_ok msgs -> full w = false -> mail_steps (mail_start w msgs) b ->
  exists past rest, msgs = past ++ rest /\ got b = map delivered past /\
    (rest = todo b \/ exists m, rest = m :: todo b /\ holds m (word b)).
Proof.
  intros Hok Hw Hst. destruct (mail_inv_steps msgs w b Hok Hw Hst) as [past ms v E _|past m ms v S E _|past m ms v R E Hh _].
  - exists past, ms. auto.
  - exists past, (m :: ms). auto.
  - exists past, (m :: ms). split; [done|]. split; [done|]. right. by exists m.
Qed.

(** ** Progress *)

Lemma receive_run m w ms R g : holds m w -> receiving m w R ->
  mail_steps (mkMail w ms SPoll R g) (mkMail (emptied w) ms SPoll RPoll (g ++ [delivered m])).
Proof.
  intros (Hf & Hh & Hl) Hr. unfold delivered. rewrite <- Hl, <- Hh.
  destruct Hr; rewrite <- ?Hh; unfold mail_steps.
  - eapply rtc_l; [by apply step_read_high|]. eapply rtc_l; [by apply step_read_low_load|].
    apply rtc_once, step_read_low_store.
  - eapply rtc_l; [by apply step_read_low_load|]. apply rtc_once, step_read_low_store.
  - apply rtc_once, step_read_low_store.
Qed.

Lemma send_run m w ms S R g : message_ok m -> sending m w S ->
  exists w', holds m w' /\ mail_steps (mkMail w (m :: ms) S R g) (mkMail w' ms SPoll R g).
Proof.
  intros [Hhi Hlo] Hs.
  assert (Hh : forall old, holds m (with_low (with_high old (fst m)) (snd m))).
  { intros old. split; [apply with_low_full|split; [by apply with_low_high|by apply with_low_low]]. }
  destruct Hs as [w Hf|w Hf|old|old]; eexists; (split; [apply Hh|]); unfold mail_steps.
  - eapply rtc_l; [apply step_high_load|]. eapply rtc_l; [apply step_high_store|].
    eapply rtc_l; [apply step_low_load|]. apply rtc_once, step_low_store.
  - eapply rtc_l; [apply step_high_store|]. eapply rtc_l; [apply step_low_load|].
    apply rtc_once, step_low_store.
  - eapply rtc_l; [apply step_low_load|]. apply rtc_once, step_low_store.
  - apply rtc_once, step_low_store.
Qed.

(** From between two messages the rest can be delivered. *)
Lemma deliver_rest ms w g : Forall message_ok ms -> full w = false ->
  exists w', mail_steps (mkMail w ms SPoll RPoll g) (mkMail w' [] SPoll RPoll (g ++ map delivered ms)).
Proof.
  intros Hok. revert w g. induction Hok as [|m ms Hm _ IH]; intros w g Hw; simpl.
  - exists w. rewrite app_nil_r. apply rtc_refl.
  - destruct (send_run m w ms SHighLoad RPoll g Hm ltac:(by constructor)) as (w1 & Hh & H1).
    destruct (IH (emptied w1) (g ++ [delivered m]) (emptied_empty w1)) as (w' & H2).
    exists w'. rewrite <- app_assoc in H2. unfold mail_steps in *.
    eapply rtc_l; [by apply step_poll_empty|]. etrans; [exact H1|].
    etrans; [by apply (receive_run m); [|constructor]|exact H2].
Qed.

(** C36. The protocol cannot get stuck: from every reachable state the two sides
    have a run that delivers all messages. *)
Theorem mailbox_can_finish w msgs b :
  Forall message_ok msgs -> full w = false -> mail_steps (mail_start w msgs) b ->
  exists c, mail_steps b c /\ todo c = [] /\ got c = map delivered msgs.
Proof.
  intros Hok Hw Hst.
  destruct (mail_inv_steps msgs w b Hok Hw Hst) as [past ms v -> Hv|past m ms v S -> Hs|past m ms v R -> Hh Hr];
    apply Forall_app in Hok as [_ Hok].
  - destruct (deliver_rest ms v (map delivered past) Hok Hv) as (w' & Hr).
    eexists. split; [exact Hr|]. by rewrite map_app.
  - inversion Hok as [|? ? Hm Hms]; subst.
    destruct (send_run m v ms S RPoll (map delivered past) Hm Hs) as (w1 & Hh & H1).
    destruct (deliver_rest ms (emptied w1) (map delivered past ++ [delivered m]) Hms (emptied_empty w1)) as (w' & H2).
    exists (mkMail w' [] SPoll RPoll ((map delivered past ++ [delivered m]) ++ map delivered ms)).
    split; [|split; [reflexivity|]].
    + unfold mail_steps in *. etrans; [exact H1|]. etrans; [by apply (receive_run m); [|constructor]|exact H2].
    + simpl. by rewrite map_app, <- app_assoc.
  - inversion Hok as [|? ? Hm Hms]; subst.
    destruct (deliver_rest ms (emptied v) (map delivered past ++ [delivered m]) Hms (emptied_empty v)) as (w' & H2).
    exists (mkMail w' [] SPoll RPoll ((map delivered past ++ [delivered m]) ++ map delivered ms)).
    split; [|split; [reflexivity|]].
    + unfold mail_steps in *. etrans; [by apply (receive_run m)|exact H2].
    + simpl. by rewrite map_app, <- app_assoc.
Qed.

(** ** At a concrete exchange *)

Theorem mailbox_in_order_witness :
  exists past rest, [(1, 2); (3, 4)] = past ++ rest /\
    got (mkMail (with_low (with_high 0 1) 2) [(3, 4)] SPoll RPoll []) = map delivered past.
Proof.
  destruct (mailbox_in_order 0 [(1, 2); (3, 4)] (mkMail (with_low (with_high 0 1) 2) [(3, 4)] SPoll RPoll []))
    as (past & rest & E & Hg & _).
  - by repeat constructor.
  - reflexivity.
  - unfold mail_steps. eapply rtc_l; [by apply step_poll_empty|]. eapply rtc_l; [apply step_high_load|].
    eapply rtc_l; [apply step_high_store|]. eapply rtc_l; [apply step_low_load|].
    apply rtc_once. exact (step_low_store _ _ (1, 2) _ _ _).
  - by exists past, rest.
Defined.

Theorem mailbox_can_finish_witness :
  exists c, mail_steps (mail_start 0 [(1, 2); (3, 4)]) c /\ got c = [(0x8001, 2); (0x8003, 4)].
Proof.
  destruct (mailbox_can_finish 0 [(1, 2); (3, 4)] (mail_start 0 [(1, 2); (3, 4)])) as (c & Hs & _ & Hg).
  - by repeat constructor.
  - reflexivity.
  - apply rtc_refl.
  - exists c. split; [exact Hs|exact Hg].
Defined.
