(* ===== verification/DSPSamples.v ===== *)
(** * DSP: what the accelerator reads

    Whole passes over a sample buffer, the exact arithmetic of the ADPCM
    filter and the one operand for which it overflows. *)
From S2P Require Export GameCubeHost.

Section Samples.
Context {E : Type} {EE : AccelEnv E}.
Implicit Types (a : Accelerator) (e : E).

(** ** Raw reads *)

Fixpoint read_raw (n : nat) a e : list Z * Accelerator * E :=
  match n with
  | O => ([], a, e)
  | S n' =>
      let '(v, a, e) := ReadRaw a e in
      let '(vs, a, e) := read_raw n' a e in (v :: vs, a, e)
  end.

(** The sample at an address. *)
Definition sample_at a e (x : Z) : Z := GetCurrentSample (set_m_current_address x a) e.
Definition samples_from a e (x : Z) (n : nat) : list Z :=
  map (fun k => sample_at a e (x + Z.of_nat k)) (seq 0 n).

(** An address of the buffer, as the masked registers hold them. *)
Definition in_buffer (x : Z) : Prop := 0 <= x < 0x40000000.

Definition valid_size a : Prop := format_size (m_sample_format a) <> SizeInvalid.

Lemma current_mask x : 0 <= x <= 0x40000000 -> x < 0x40000000 -> x .& CURRENT_ADDRESS_MASK = x.
Proof.
  intros Hx Hlt. apply Z.bits_inj'. intros i Hi. rewrite Z.land_spec. unfold CURRENT_ADDRESS_MASK.
  change 0xbfffffff with (Z.ones 30 .| 2 ^ 31). rewrite Z.lor_spec, Z.testbit_ones, Z.pow2_bits_eqb by lia.
  rewrite (proj2 (Z.leb_le 0 i)) by lia. destruct (Z.ltb_spec i 30); [by rewrite andb_true_r|].
  destruct (bits_above_pow2 x 30 ltac:(lia)) as [Hb _]. destruct Hb as [_ Hb]; [lia|].
  by rewrite Hb by lia.
Qed.

(** One read inside the buffer, and the read of the last sample. *)
Lemma ReadRaw_inside a e :
  valid_size a -> in_buffer (m_current_address a) -> in_buffer (m_end_address a) ->
  in_buffer (m_start_address a) -> m_current_address a <= m_end_address a ->
  ReadRaw a e =
    (GetCurrentSample a e,
     set_m_current_address (if m_current_address a =? m_end_address a then m_start_address a
                            else m_current_address a + 1) a,
     if m_current_address a =? m_end_address a then OnRawReadEndException e else e).
Proof.
  intros Hv Hc He Hs Hle. unfold ReadRaw, valid_size, in_buffer in *. cbv zeta.
  assert (Hn : match format_size (m_sample_format a) with
    | SizeInvalid => u32 ((m_current_address a .& .~ 3) .| (u32 (m_current_address a + 1) .& 3))
    | _ => u32 (m_current_address a + 1) end = m_current_address a + 1).
  { destruct (format_size _); try done; zlia. }
  rewrite Hn. replace (u32 (m_current_address a + 1 - 1)) with (m_current_address a) by zlia.
  unfold SetCurrentAddress. destruct (Z.eqb_spec (m_current_address a) (m_end_address a)) as [Heq|Hne].
  - by rewrite current_mask by lia.
  - by rewrite current_mask by lia.
Qed.

(** A pass of raw reads over a buffer returns its samples in order; the read
    of the last one, and no other, raises the end exception and goes back to the
    start. *)
Theorem raw_pass a e n :
  valid_size a -> in_buffer (m_start_address a) -> in_buffer (m_end_address a) ->
  0 <= m_current_address a -> m_current_address a + Z.of_nat n <= m_end_address a + 1 ->
  read_raw n a e =
    (samples_from a e (m_current_address a) n,
     set_m_current_address
       (if (0 <? Z.of_nat n) && (m_current_address a + Z.of_nat n =? m_end_address a + 1)
        then m_start_address a else m_current_address a + Z.of_nat n) a,
     if (0 <? Z.of_nat n) && (m_current_address a + Z.of_nat n =? m_end_address a + 1)
     then OnRawReadEndException e else e).
Proof.
  intros Hv Hs He. revert a Hv Hs He. induction n as [|n IH]; intros a Hv Hs He H0 Hn.
  - simpl. rewrite Z.add_0_r. by destruct a.
  - cbn [read_raw]. unfold in_buffer in *.
    rewrite ReadRaw_inside by (unfold in_buffer; lia || done).
    set (cur := m_current_address a) in *. set (stop := m_end_address a) in *.
    assert (Hh : GetCurrentSample a e = sample_at a e cur) by (unfold sample_at; by destruct a).
    destruct (Z.eqb_spec cur stop) as [Heq|Hne].
    + assert (n = 0%nat) as -> by lia. simpl. rewrite Hh, (proj2 (Z.eqb_eq _ _)) by lia.
      unfold samples_from. simpl. by rewrite Z.add_0_r.
    + set (a1 := set_m_current_address (cur + 1) a).
      rewrite (IH a1); simpl m_current_address; simpl m_start_address; simpl m_end_address;
        fold stop; try done; try lia.
      assert (Ht : forall x, set_m_current_address x a1 = set_m_current_address x a) by done.
      rewrite Ht. rewrite (proj2 (Z.ltb_lt 0 (Z.of_nat (S n)))) by lia.
      replace (cur + 1 + Z.of_nat n) with (cur + Z.of_nat (S n)) by lia.
      assert (Hb : (0 <? Z.of_nat n) && (cur + Z.of_nat (S n) =? stop + 1) = (cur + Z.of_nat (S n) =? stop + 1)).
      { destruct n; simpl Z.of_nat; [|done]. simpl. symmetry. apply Z.eqb_neq. lia. }
      rewrite Hb. cbn [andb]. f_equal. f_equal. unfold samples_from.
      change (seq 0 (S n)) with (0%nat :: seq 1 n). rewrite <- seq_shift, map_cons, map_map. f_equal.
      * by rewrite Hh, Z.add_0_r.
      * apply map_ext. intros k. unfold sample_at. rewrite Ht. do 2 f_equal. lia.
Qed.
End Samples.

(** ** The ADPCM filter *)

Lemma s16_mul_bound x y : is_s16 x -> is_s16 y ->
  - 0x40000000 + 0x8000 <= x * y <= 0x40000000 /\
  (x * y <= 0x40000000 - 0x8000 \/ (x = -0x8000 /\ y = -0x8000)).
Proof.
  unfold is_s16. intros Hx Hy. split; [nia|].
  destruct (Z.eq_dec x (-0x8000)) as [->|Hx']; [destruct (Z.eq_dec y (-0x8000)) as [->|]; [by right|]|];
    left; nia.
Qed.

(** The [s32] sum of the ADPCM filter overflows for exactly one operand: both
    coefficients and both history samples at their least value. *)
Theorem adpcm_overflow_iff coef1 coef2 yn1 yn2 :
  is_s16 coef1 -> is_s16 coef2 -> is_s16 yn1 -> is_s16 yn2 ->
  (is_s32 (adpcm_prediction coef1 coef2 yn1 yn2) <->
   ~ (coef1 = -0x8000 /\ coef2 = -0x8000 /\ yn1 = -0x8000 /\ yn2 = -0x8000)).
Proof.
  intros H1 H2 H3 H4. destruct (s16_mul_bound coef1 yn1 H1 H3) as [B1 C1].
  destruct (s16_mul_bound coef2 yn2 H2 H4) as [B2 C2]. unfold is_s32, adpcm_prediction. split.
  - intros Hr (-> & -> & -> & ->). lia.
  - intros Hne. destruct C1 as [C1|[-> ->]], C2 as [C2|[-> ->]]; [lia..|]. by destruct Hne.
Qed.

Section Decode.
Context {E : Type} {EE : AccelEnv E}.
Implicit Types (a : Accelerator) (e : E).

(** A 4-bit two's complement number. *)
Definition s4 (v : Z) : Z := let n := v mod 16 in if 8 <=? n then n - 16 else n.

Lemma SaturatingCast_range v : is_s16 (SaturatingCast_s16 v).
Proof.
  unfold SaturatingCast_s16, is_s16. destruct (Z.ltb_spec v (-0x8000)), (Z.ltb_spec 0x7fff v); lia.
Qed.

Definition adpcm_exact coef1 coef2 raw a : Z :=
  2 ^ (m_pred_scale a mod 16) * s4 raw +
  adpcm_prediction coef1 coef2 (m_yn1 a) (m_yn2 a) / 2 ^ 11.

Lemma adpcm_value coef1 coef2 raw a e :
  is_s32 (adpcm_prediction coef1 coef2 (m_yn1 a) (m_yn2 a)) ->
  fst (fst (DecodeADPCM coef1 coef2 raw a e)) = u16 (SaturatingCast_s16 (adpcm_exact coef1 coef2 raw a)) /\
  m_yn1 (snd (fst (DecodeADPCM coef1 coef2 raw a e))) = SaturatingCast_s16 (adpcm_exact coef1 coef2 raw a) /\
  m_yn2 (snd (fst (DecodeADPCM coef1 coef2 raw a e))) = m_yn1 a.
Proof.
  intros Hp. set (p := adpcm_prediction _ _ _ _) in *.
  assert (Hs4 : (let r := raw .& 0xF in if 8 <=? r then r - 16 else r) = s4 raw).
  { unfold s4. by rewrite (land_ones_mod 4 raw 0xF ltac:(lia) eq_refl). }
  assert (Hv : s32 ((1 .<< (m_pred_scale a .& 0xF)) *
      (if 8 <=? raw .& 0xF then (raw .& 0xF) - 16 else raw .& 0xF) + (s32 p .>> 11)) = adpcm_exact coef1 coef2 raw a).
  { cbv zeta in Hs4. rewrite Hs4, Z.shiftl_1_l, (land_ones_mod 4 _ 0xF ltac:(lia) eq_refl).
    change (2 ^ 4) with 16. unfold adpcm_exact. fold p.
    replace (s32 p) with p by zlia. rewrite Z.shiftr_div_pow2 by lia.
    assert (Hk : 0 <= m_pred_scale a mod 16 < 16) by (apply Z.mod_pos_bound; lia).
    assert (1 <= 2 ^ (m_pred_scale a mod 16) <= 2 ^ 15).
    { split; [change 1 with (2 ^ 0)|]; apply Z.pow_le_mono_r; lia. }
    assert (Hr : -8 <= s4 raw <= 7).
    { unfold s4. pose proof (Z.mod_pos_bound raw 16 ltac:(lia)).
      destruct (Z.leb_spec 8 (raw mod 16)); lia. }
    assert (Hd : -0x100000 <= p / 2 ^ 11 < 0x100000).
    { unfold is_s32 in Hp. change (2 ^ 11) with 2048. Z.div_mod_to_equations. lia. }
    change (2 ^ 15) with 0x8000 in *. unfold s32. rewrite Z.mod_small by nia. lia. }
  assert (Hu : s16 (u16 (SaturatingCast_s16 (adpcm_exact coef1 coef2 raw a)))
               = SaturatingCast_s16 (adpcm_exact coef1 coef2 raw a)).
  { pose proof (SaturatingCast_range (adpcm_exact coef1 coef2 raw a)). zlia. }
  unfold DecodeADPCM. cbv zeta. fold p. rewrite Hv.
  destruct (_ && _); [|destruct (_ && _); [|destruct (_ =? 0)]]; simpl; rewrite ?Hu; auto.
Qed.


(** ** Decoded reads to the end of a buffer *)

Fixpoint read_samples (coefs : Z -> Z) (n : nat) a e : Accelerator * E :=
  match n with
  | O => (a, e)
  | S n' => let '(_, a, e) := ReadSample coefs a e in read_samples coefs n' a e
  end.

(** The PCM format that moves on by one address per sample. *)
Definition pcm_playing (start stop : Z) a : Prop :=
  format_decode (m_sample_format a) = PCM /\ m_start_address a = start /\ m_end_address a = stop /\
  m_reads_stopped a = false.

Lemma DecodePCM_frame coef1 coef2 raw a val a' st :
  format_decode (m_sample_format a) = PCM -> DecodePCM coef1 coef2 raw a = (val, a', st) ->
  st = 2 /\ m_current_address a' = u32 (m_current_address a + 1) /\
  m_sample_format a' = m_sample_format a /\ m_start_address a' = m_start_address a /\
  m_end_address a' = m_end_address a /\ m_reads_stopped a' = m_reads_stopped a.
Proof. intros Hf. unfold DecodePCM. cbv zeta. cbn [m_sample_format set_m_yn1 set_m_yn2]. rewrite Hf. intros [= <- <- <-]. done. Qed.

Lemma ReadSample_pcm coefs a e start stop :
  pcm_playing start stop a -> in_buffer start -> 0 <= stop < 0x3fffffff ->
  0 <= m_current_address a <= stop ->
  exists val a',
    ReadSample coefs a e = (val, a', if m_current_address a =? stop then OnSampleReadEndException e else e) /\
    if m_current_address a =? stop
    then m_reads_stopped a' = true /\ m_current_address a' = start
    else pcm_playing start stop a' /\ m_current_address a' = m_current_address a + 1.
Proof.
  intros (Hf & Hs & He & Hr) Hst Hsp Hc. unfold ReadSample. rewrite Hr, Hf. cbv zeta.
  destruct (DecodePCM _ _ _ a) as [[val a1] st] eqn:Ed.
  apply DecodePCM_frame in Ed as (-> & Hc1 & Hf1 & Hs1 & He1 & Hr1); [|done].
  replace (u32 (m_current_address a + 1)) with (m_current_address a + 1) in Hc1 by zlia.
  rewrite Hc1, He1, He. replace (u32 (stop + 2 - 1)) with (stop + 1) by zlia.
  unfold in_buffer in *. destruct (Z.eqb_spec (m_current_address a) stop) as [Heq|Hne].
  - rewrite (proj2 (Z.eqb_eq _ _)) by lia. eexists _, _. split; [reflexivity|]. split; [done|].
    simpl. rewrite Hs1, Hs. by apply current_mask; lia.
  - rewrite (proj2 (Z.eqb_neq _ _)) by lia. eexists _, _. split; [reflexivity|].
    unfold pcm_playing, SetCurrentAddress. simpl. rewrite Hf1, Hs1, He1, Hr1, Hc1.
    split; [done|]. apply current_mask; lia.
Qed.

Lemma ReadSample_stopped coefs n a e : m_reads_stopped a = true -> read_samples coefs n a e = (a, e).
Proof. intros Hr. induction n as [|n IH]; simpl; [done|]. unfold ReadSample. by rewrite Hr. Qed.

(** PCM playback of a buffer: the position moves on one sample per read up to
    the end; the read of the last sample raises the end exception, goes back to
    the start and stops the reads: however many more follow, nothing is read,
    nothing moves and no exception is raised again. *)
Theorem pcm_playback_stops coefs n a e start stop :
  pcm_playing start stop a -> in_buffer start -> 0 <= stop < 0x3fffffff ->
  0 <= m_current_address a <= stop ->
  exists a',
    read_samples coefs n a e =
      (a', if stop <? m_current_address a + Z.of_nat n then OnSampleReadEndException e else e) /\
    if stop <? m_current_address a + Z.of_nat n
    then m_reads_stopped a' = true /\ m_current_address a' = start
    else pcm_playing start stop a' /\ m_current_address a' = m_current_address a + Z.of_nat n.
Proof.
  intros Hp Hst Hsp. revert a Hp. induction n as [|n IH]; intros a Hp Hc.
  - rewrite Z.add_0_r, (proj2 (Z.ltb_ge _ _)) by lia. by exists a.
  - cbn [read_samples]. destruct (ReadSample_pcm coefs a e start stop Hp Hst Hsp Hc) as (val & a1 & Er & Ha1).
    rewrite Er. destruct (Z.eqb_spec (m_current_address a) stop) as [Heq|Hne].
    + destruct Ha1 as [Hr1 Hc1]. rewrite ReadSample_stopped by done.
      rewrite (proj2 (Z.ltb_lt _ _)) by lia. by exists a1.
    + destruct Ha1 as [Hp1 Hc1]. destruct (IH a1 Hp1 ltac:(lia)) as (a' & E' & Ha').
      rewrite Hc1 in E', Ha'. replace (m_current_address a + 1 + Z.of_nat n)
        with (m_current_address a + Z.of_nat (S n)) in E', Ha' by lia. by exists a'.
Qed.
End Decode.

(** ** A concrete environment: a memory of bytes and a count of exceptions *)

#[local] Instance sample_env : AccelEnv ((Z -> Z) * Z) := {
  ReadMemory e address := u8 (fst e address);
  WriteMemory e address value := (fun x => if x =? address then value else fst e x, snd e);
  OnRawReadEndException e := (fst e, snd e + 1);
  OnRawWriteEndException e := (fst e, snd e + 1);
  OnSampleReadEndException e := (fst e, snd e + 1)
}.

(** A buffer at 4..7, read from 5 on: 8-bit raw samples, PCM decoding. *)
Definition sample_accel : Accelerator := mkAccelerator 4 7 5 0x9 1 0 0 0 0 false.
Definition sample_memory : (Z -> Z) * Z := (fun x => 10 * x, 0).

Theorem raw_pass_witness :
  read_raw 3 sample_accel sample_memory =
    ([50; 60; 70], set_m_current_address 4 sample_accel, OnRawReadEndException sample_memory).
Proof.
  rewrite (raw_pass sample_accel sample_memory 3); [reflexivity|discriminate|by split|by split|discriminate|discriminate].
Defined.

Theorem adpcm_overflow_iff_witness :
  ~ is_s32 (adpcm_prediction (-0x8000) (-0x8000) (-0x8000) (-0x8000)) /\
  is_s32 (adpcm_prediction (-0x8000) (-0x8000) (-0x8000) 0x7fff).
Proof.
  split.
  - intros Hs. apply (adpcm_overflow_iff (-0x8000) (-0x8000) (-0x8000) (-0x8000)) in Hs; [by apply Hs|done..].
  - apply (adpcm_overflow_iff (-0x8000) (-0x8000) (-0x8000) 0x7fff); try done. intros (_ & _ & _ & [=]).
Defined.


Theorem pcm_playback_stops_witness :
  exists a', read_samples (fun _ => 0) 9 sample_accel sample_memory =
    (a', OnSampleReadEndException sample_memory) /\ m_reads_stopped a' = true /\ m_current_address a' = 4.
Proof.
  destruct (pcm_playback_stops (fun _ => 0) 9 sample_accel sample_memory 4 7) as (a' & E & Hr & Hc);
    [by split|by split|by split|by split|].
  exists a'. split; [exact E|]. split; [exact Hr|exact Hc].
Defined.

(** Every assignment of the current address masks it except the one in
    [WriteRaw], after which a reserved bit of the register can be set. *)
Theorem WriteRaw_leaves_mask :
  let a := set_m_current_address 0xbfffffff sample_accel in
  m_current_address a .& .~ CURRENT_ADDRESS_MASK = 0 /\
  m_current_address (fst (WriteRaw 0 a sample_memory)) .& .~ CURRENT_ADDRESS_MASK <> 0.
Proof. split; [reflexivity|discriminate]. Qed.
