(* ===== verification/DSPDma.v ===== *)
(** * DSP: what the DMA transfers and the boot write do

    Blocks of words copied between main memory and the on-chip memories: when a
    transfer stays inside, what it leaves, and that copying out and back is the
    identity; the write to the control register that boots the DSP. *)
From S2P Require Export DSPAnalysis.

(** ** Blocks of a memory *)

Definition mem_block_in (m : Mem) (i : Z) (n : nat) : Prop := 0 <= i /\ i + Z.of_nat n <= mem_size m.

Lemma mem_set_some m i v : 0 <= i < mem_size m -> exists m', mem_set m i v = Some m' /\ mem_size m' = mem_size m.
Proof.
  intros Hi. unfold mem_set, mem_in. rewrite (proj2 (Z.leb_le 0 i)), (proj2 (Z.ltb_lt i _)) by lia. eauto.
Qed.
Lemma mem_set_none m i v : ~ 0 <= i < mem_size m -> mem_set m i v = None.
Proof.
  intros Hi. unfold mem_set, mem_in. destruct (Z.leb_spec 0 i), (Z.ltb_spec i (mem_size m)); try done. lia.
Qed.

(** A block write succeeds exactly inside the memory ... *)
Lemma mem_write_words_some ws m i :
  mem_block_in m i (length ws) -> exists m', mem_write_words m i ws = Some m' /\ mem_size m' = mem_size m.
Proof.
  unfold mem_block_in. revert m i. induction ws as [|w ws IH]; simpl; intros m i [Hi Hn]; [by exists m|].
  destruct (mem_set_some m i w ltac:(lia)) as (m1 & -> & Hs).
  destruct (IH m1 (i + 1) ltac:(lia)) as (m' & -> & Hs'). exists m'. split; [done|congruence].
Qed.
Lemma mem_write_words_none ws m i :
  0 <= i -> ws <> [] -> mem_size m < i + Z.of_nat (length ws) -> mem_write_words m i ws = None.
Proof.
  revert m i. induction ws as [|w ws IH]; simpl; intros m i Hi Hne Hn; [done|].
  destruct (Z.lt_ge_cases i (mem_size m)) as [Hlt|Hge]; [|by rewrite mem_set_none by lia].
  destruct (mem_set_some m i w ltac:(lia)) as (m1 & -> & Hs). apply IH; [lia| |lia].
  intros ->. simpl in Hn. lia.
Qed.

(** ... keeps what is outside the block, and is read back. *)
Lemma mem_write_words_ne ws m i m' j :
  mem_write_words m i ws = Some m' -> j < i \/ i + Z.of_nat (length ws) <= j -> mem_get m' j = mem_get m j.
Proof.
  revert m i. induction ws as [|w ws IH]; simpl; intros m i E Hj; [by injection E as ->|].
  destruct (mem_set m i w) as [m1|] eqn:E1; [|done]. rewrite (IH m1 (i + 1) E) by lia.
  by rewrite (mem_get_set_ne _ _ _ j _ E1) by lia.
Qed.
Lemma mem_write_read ws m i m' :
  mem_write_words m i ws = Some m' -> mem_read_words m' i (length ws) = Some ws.
Proof.
  revert m i. induction ws as [|w ws IH]; simpl; intros m i E; [done|].
  destruct (mem_set m i w) as [m1|] eqn:E1; [|done]. rewrite (IH m1 (i + 1) E).
  rewrite (mem_write_words_ne ws m1 (i + 1) m' i E) by lia. by rewrite (mem_get_set_eq _ _ _ _ E1).
Qed.

Section Transfers.
Context {H : Type} {HH : DSPHost H}.
Implicit Types s : SDSP H.

(** A DMA from main memory into the data memory, for a valid range: inside
    the memory it replaces exactly the addressed words by those of main memory
    and changes nothing else; one word too long and it leaves the memory. *)
Theorem ddma_in_effect s dsp_addr addr size :
  wf s -> 0 <= dsp_addr -> RangeValid (host s) addr size = true ->
  let ws := CopyFromEmuSwapped (host s) addr size in
  let i := dsp_addr / 2 in
  (i + Z.of_nat (length ws) <= DSP_DRAM_SIZE ->
   exists m', DDMAIn dsp_addr addr size s = Done tt (set_dram m' s) /\
     mem_read_words m' i (length ws) = Some ws /\
     forall j, j < i \/ i + Z.of_nat (length ws) <= j -> mem_get m' j = mem_get (dram s) j) /\
  (ws <> [] -> DSP_DRAM_SIZE < i + Z.of_nat (length ws) ->
   DDMAIn dsp_addr addr size s = Fault DmaBounds).
Proof.
  intros Hs Ha Hv ws i. assert (Hi : 0 <= i) by (apply Z.div_pos; lia).
  destruct (wf_dram s Hs) as [Hsz _]. unfold DDMAIn, DMAToDSP, mbind, mget. rewrite Hv. fold ws i. split.
  - intros Hle. destruct (mem_write_words_some ws (dram s) i) as (m' & E & _); [split; lia|].
    rewrite E. exists m'. split; [done|]. split; [by eapply mem_write_read|].
    intros j Hj. by eapply mem_write_words_ne.
  - intros Hne Hlt. rewrite mem_write_words_none by (done || lia). done.
Qed.

(** ** The boot write *)

(** A computation whose faults are none of a DMA's. *)
Definition no_dma {A} (m : M (SDSP H) A) : Prop :=
  forall s, match m s with Fault f => ~ dma_fault f | Done _ _ => True end.

Lemma no_dma_bind {A B} (m : M (SDSP H) A) (k : A -> M (SDSP H) B) :
  no_dma m -> (forall a, no_dma (k a)) -> no_dma (mbind m k).
Proof. intros Hm Hk s. unfold mbind. specialize (Hm s). destruct (m s); [apply Hk|done]. Qed.
Lemma no_dma_if {A} (b : bool) (m1 m2 : M (SDSP H) A) : no_dma m1 -> no_dma m2 -> no_dma (if b then m1 else m2).
Proof. by destruct b. Qed.
Lemma no_dma_ret {A} (a : A) : no_dma (mret a).
Proof. by intros s. Qed.
Lemma no_dma_fuel {A} : no_dma (mfail (A := A) OutOfFuel).
Proof. intros s [[=]|[[=]|[=]]]. Qed.
Lemma no_dma_ReadIMEM a : no_dma (ReadIMEM a).
Proof.
  intros s. unfold ReadIMEM, mem_read, mbind, mget.
  destruct (_ =? 0); [destruct (mem_get _ _); [done|by intros [[=]|[[=]|[=]]]]|].
  destruct (_ =? 8); [destruct (mem_get _ _); [done|by intros [[=]|[[=]|[=]]]]|done].
Qed.
Lemma no_dma_flag a f : no_dma (add_flag a f).
Proof. by intros s. Qed.
Lemma no_dma_when b m : no_dma m -> no_dma (mwhen b m).
Proof. by destruct b. Qed.

Ltac no_dma_auto :=
  intros; repeat first
    [ assumption | apply no_dma_ret | apply no_dma_fuel | apply no_dma_ReadIMEM | apply no_dma_flag
    | apply no_dma_bind; [|intros ?] | apply no_dma_if | apply no_dma_when | progress cbv zeta
    | match goal with IH : context [no_dma] |- _ => apply IH end ].

Lemma no_dma_AnalyzeInstruction a : no_dma (AnalyzeInstruction a).
Proof. unfold AnalyzeInstruction. no_dma_auto. Qed.
Lemma no_dma_starts fuel a e : no_dma (FindInstructionStarts fuel a e).
Proof.
  revert a. induction fuel as [|fuel IH]; intros a; simpl; pose proof no_dma_AnalyzeInstruction; no_dma_auto.
Qed.
Lemma no_dma_match sig a b : no_dma (MatchIdleSig sig a b).
Proof. revert a b. induction sig as [|x sig IH]; intros a b; simpl; no_dma_auto. Qed.
Lemma no_dma_sig sig n a : no_dma (FindIdleSig sig n a).
Proof. revert a. induction n as [|n IH]; intros a; simpl; pose proof no_dma_match; no_dma_auto. Qed.
Lemma no_dma_skips sigs a e : no_dma (FindIdleSkips sigs a e).
Proof. induction sigs as [|x sigs IH]; simpl; pose proof no_dma_sig; no_dma_auto. Qed.

(** The analysis always ends, and changes the flags only. *)
Lemma no_dma_AnalyzeRange a e : no_dma (AnalyzeRange (H := H) a e).
Proof. apply no_dma_bind; [apply no_dma_starts|intros _; apply no_dma_skips]. Qed.
Lemma AnalyzeRange_reflags a e s s' : AnalyzeRange a e s = Done tt s' -> exists F, s' = reflag F s.
Proof.
  unfold AnalyzeRange. intros E. apply mbind_inv in E as (? & s1 & E1 & E).
  apply FindInstructionStarts_marks in E1 as [[F1 ->] _].
  apply FindIdleSkips_idle in E as (? & [[F ->] _] & _). by exists F.
Qed.
Lemma no_dma_Reset : no_dma (Analyzer_Reset (H := H)).
Proof. by intros s. Qed.
Lemma no_dma_Analyze : no_dma (Analyze (H := H)).
Proof.
  unfold Analyze. apply no_dma_bind; [exact no_dma_Reset|intros _].
  apply no_dma_bind; [apply no_dma_AnalyzeRange|intros _; apply no_dma_AnalyzeRange].
Qed.
Lemma Reset_flags s u s' : Analyzer_Reset s = Done u s' -> exists F, s' = reflag F s.
Proof. intros [= <- <-]. by exists ∅. Qed.
Lemma Analyze_reflags s s' : Analyze s = Done tt s' -> exists F, s' = reflag F s.
Proof.
  unfold Analyze. intros (? & s1 & [F1 ->]%Reset_flags & E)%mbind_inv.
  apply mbind_inv in E as ([] & s2 & [F2 ->]%AnalyzeRange_reflags & [F ->]%AnalyzeRange_reflags). by exists F.
Qed.
Lemma Analyze_total s : wf s -> exists F, Analyze s = Done tt (reflag F s).
Proof.
  intros Hs. pose proof (safe_Analyze s Hs) as Hsafe. pose proof (no_dma_Analyze s) as Hn.
  destruct (Analyze s) as [[] s'|f] eqn:E; [|done].
  apply Analyze_reflags in E as [F ->]. by exists F.
Qed.

(** Clearing CR_INIT boots the DSP: 0x800 words of main memory become the
    start of the instruction memory, their bytes give the code's checksum, the
    program counter is 0, the code flags are those that the analysis of the new
    code computes, and CR_INIT_CODE is set together with the time at which it is
    to be cleared. *)
Theorem boot_write_loads_code s val :
  wf s -> is_u16 val -> RangeValid (host s) 0x81000000 0x1000 = true ->
  Z.testbit (control_reg s) 11 = true -> Z.testbit val 11 = false -> Z.testbit val 0 = false ->
  exists s', WriteControlRegister val s = Done tt s' /\
    mem_read_words (iram s') 0 (Z.to_nat 0x800) = Some (CopyFromEmuSwapped (host s) 0x81000000 0x1000) /\
    m_iram_crc s' = HashEctor (EmuBytes (host s) 0x81000000 0x1000) /\
    pc s' = 0 /\
    (exists s0, imem s0 = imem s' /\ Analyze s0 = Done tt (reflag (m_code_flags s') s0)) /\
    control_reg s' = val .| CR_INIT_CODE /\
    control_reg_init_code_clear_time s' = u64 (GetFakeTimeBase (host s) + 130).
Proof.
  intros Hs Hval Hv Hc11 Hv11 Hv0.
  set (ws := CopyFromEmuSwapped (host s) 0x81000000 0x1000).
  pose proof (CopyFromEmuSwapped_length (host s) 0x81000000 0x1000 ltac:(lia)) as Hl. fold ws in Hl.
  assert (Hl' : length ws = Z.to_nat 0x800) by (change (0x1000 / 2) with 0x800 in Hl; lia).
  destruct (wf_iram s Hs) as [Hsz _].
  destruct (mem_write_words_some ws (iram s) 0) as (m' & Em & _).
  { split; [lia|]. rewrite Hsz, Hl. done. }
  set (s2 := set_iram m' (set_pc 0 s)).
  set (s3 := set_m_iram_crc (HashEctor (EmuBytes (host s) 0x81000000 0x1000)) s2).
  assert (Hs3 : wf s3).
  { assert (Hm : wf_mem DSP_IRAM_SIZE m').
    { eapply mem_write_words_wf; [apply (wf_iram s Hs)|apply CopyFromEmuSwapped_u16|exact Em]. }
    clear -Hs Hm. subst s3 s2. destruct s, Hs; constructor; simpl in *; auto. done. }
  destruct (Analyze_total s3 Hs3) as [F EF].
  assert (Eb0 : negb (val .& CR_RESET =? 0) = false).
  { change CR_RESET with (2 ^ 0). by rewrite flag_testbit. }
  assert (Eb1 : negb (control_reg s .& CR_INIT =? 0) && (val .& CR_INIT =? 0) = true).
  { change CR_INIT with (2 ^ 11). rewrite flag_testbit, Hc11 by lia. simpl.
    rewrite <- (negb_involutive (_ =? 0)), flag_testbit, Hv11 by lia. done. }
  assert (Eld : CodeLoaded 0x81000000 0x1000 s2 = Done tt (reflag F s3)).
  { unfold CodeLoaded, mbind, mget, mmodify. change (host s2) with (host s). rewrite Hv. exact EF. }
  assert (Edm : DMAToDSP iram set_iram 0 0x81000000 0x1000 (set_pc 0 s) = Done tt s2).
  { unfold DMAToDSP, mbind, mget, mmodify. change (host (set_pc 0 s)) with (host s). rewrite Hv.
    change (iram (set_pc 0 s)) with (iram s). fold ws. rewrite Em. done. }
  exists (set_control_reg (val .| CR_INIT_CODE)
    (set_control_reg_init_code_clear_time (u64 (GetFakeTimeBase (host s) + 130)) (reflag F s3))).
  split; [|split; [|split; [done|split; [done|split; [|split; done]]]]].
  - unfold WriteControlRegister. rewrite Eb0. unfold mbind at 1, mret at 1. unfold mbind at 1, mget at 1.
    rewrite Eb1. unfold mbind at 1. unfold mbind at 1, put_pc, mmodify at 1.
    rewrite (mbind_done _ _ _ _ _ Edm), (mbind_done _ _ _ _ _ Eld).
    assert (Ec : val .& .~ CR_INIT = val); [|unfold mbind, mget, mmodify, mret; by rewrite Ec].
    apply Z.bits_inj'. intros i Hi. change CR_INIT with (2 ^ 11).
    rewrite Z.land_spec, Z.lnot_spec, Z.pow2_bits_eqb by lia.
    destruct (Z.eqb_spec 11 i) as [<-|]; [by rewrite Hv11|by rewrite andb_true_r].
  - rewrite <- Hl'. exact (mem_write_read ws (iram s) 0 m' Em).
  - exists s3. done.
Qed.
End Transfers.

(** ** Main memory of a GameCube *)

(** Main memory holding [ws] at [a]. *)
Definition with_words (a : Z) (ws : list Z) (s : SDSP GCHost) : SDSP GCHost :=
  set_host (CopyToEmuSwapped (host s) a ws) s.

Lemma with_words_wf a ws s : wf s -> wf (with_words a ws s).
Proof. intros Hs. destruct s, Hs. by constructor. Qed.

Lemma gc_range_valid_copy h a ws b n : gc_range_valid (CopyToEmuSwapped h a ws) b n = gc_range_valid h b n.
Proof.
  unfold gc_range_valid, Memmap.GetPointerForRange. simpl. unfold Memmap.CopyToEmuSwapped.
  destruct (Memmap.GetPointerForRange _ _ _); [by rewrite Memmap.GetSpanForAddress_store|done].
Qed.

Lemma mem_read_words_some n m i :
  mem_block_in m i n -> exists ws, mem_read_words m i n = Some ws /\ length ws = n.
Proof.
  unfold mem_block_in. revert i. induction n as [|n IH]; simpl; intros i [Hi Hn]; [by exists []|].
  unfold mem_get at 1, mem_in. rewrite (proj2 (Z.leb_le 0 i)), (proj2 (Z.ltb_lt i _)) by lia. simpl.
  destruct (IH (i + 1) ltac:(lia)) as (ws & -> & <-). by eexists.
Qed.
Lemma mem_get_u16 k m i v : wf_mem k m -> mem_get m i = Some v -> is_u16 v.
Proof.
  intros Hm E. assert (Hi : 0 <= i < k).
  { destruct Hm as [<- _]. revert E. unfold mem_get, mem_in.
    destruct (Z.leb_spec 0 i), (Z.ltb_spec i (mem_size m)); try done. }
  destruct (mem_get_wf k m i Hm Hi) as (v' & E' & Hv). congruence.
Qed.
Lemma mem_read_words_u16 n k m i ws : wf_mem k m -> mem_read_words m i n = Some ws -> Forall is_u16 ws.
Proof.
  intros Hm. revert i ws. induction n as [|n IH]; simpl; intros i ws E; [by injection E as <-|].
  destruct (mem_get m i) as [v|] eqn:E1; [|done]. destruct (mem_read_words _ _ _) as [ws'|] eqn:E2; [|done].
  injection E as <-. constructor; [by eapply mem_get_u16|by eapply IH].
Qed.

(** Data memory saved to main memory by a DMA comes back: after the DSP ran
    on, or was replaced by another state with the same main memory, the DMA in
    the other direction restores exactly the saved words. *)
Theorem dma_saves_and_restores (s : SDSP GCHost) dsp_addr addr size :
  wf s -> 0 <= dsp_addr -> 0 <= size -> RangeValid (host s) addr size = true ->
  let n := Z.to_nat (size / 2) in
  dsp_addr / 2 + Z.of_nat n <= DSP_DRAM_SIZE ->
  exists ws s1, mem_read_words (dram s) (dsp_addr / 2) n = Some ws /\
    DDMAOut dsp_addr addr size s = Done tt s1 /\ dram s1 = dram s /\
    forall s2, wf s2 -> host s2 = host s1 ->
      exists m', DDMAIn dsp_addr addr size s2 = Done tt (set_dram m' s2) /\
        mem_read_words m' (dsp_addr / 2) n = Some ws.
Proof.
  intros Hs Ha Hz Hv n Hn. assert (Hi : 0 <= dsp_addr / 2) by (apply Z.div_pos; lia).
  destruct (mem_read_words_some n (dram s) (dsp_addr / 2)) as (ws & Er & Hl).
  { split; [done|]. by rewrite (proj1 (wf_dram s Hs)). }
  pose proof (mem_read_words_u16 _ _ _ _ _ (wf_dram s Hs) Er) as Hws.
  exists ws, (set_host (CopyToEmuSwapped (host s) addr ws) s). split; [done|]. split; [|split; [done|]].
  { unfold DDMAOut, DMAFromDSP, mbind, mget. rewrite Hv. fold n. by rewrite Er. }
  intros s2 Hs2 Eh. change (host (set_host _ _)) with (CopyToEmuSwapped (host s) addr ws) in Eh.
  assert (Ew : CopyFromEmuSwapped (host s2) addr size = ws).
  { rewrite Eh. apply Memmap.CopyFromEmuSwapped_after; [done..|]. revert Hv. simpl. unfold gc_range_valid. by case_match. }
  assert (Hv2 : RangeValid (host s2) addr size = true) by (rewrite Eh; exact (eq_trans (gc_range_valid_copy _ _ _ _ _) Hv)).
  unfold DDMAIn, DMAToDSP, mbind, mget. rewrite Hv2, Ew.
  destruct (mem_write_words_some ws (dram s2) (dsp_addr / 2)) as (m' & E & _).
  { split; [done|]. by rewrite (proj1 (wf_dram s2 Hs2)), Hl. }
  rewrite E. exists m'. split; [done|]. rewrite <- Hl. by eapply mem_write_read.
Qed.

(** ** Examples *)

(** A small block of main memory into the data memory. *)
Lemma ddma_in_effect_witness :
  exists m', DDMAIn 0x20 0x80000100 4 (with_words 0x100 [0x1234; 0xabcd] gc_init) =
    Done tt (set_dram m' (with_words 0x100 [0x1234; 0xabcd] gc_init)) /\
  mem_read_words m' 0x10 2 = Some [0x1234; 0xabcd].
Proof.
  destruct (ddma_in_effect (with_words 0x100 [0x1234; 0xabcd] gc_init) 0x20 0x80000100 4) as [H _].
  - apply with_words_wf, gc_init_wf.
  - lia.
  - reflexivity.
  - destruct H as (m' & E & Hr & _); [by vm_compute|]. exists m'. split; [exact E|exact Hr].
Defined.

Lemma boot_write_loads_code_witness :
  exists s', WriteControlRegister 0 gc_init = Done tt s' /\ pc s' = 0 /\
    control_reg s' = CR_INIT_CODE /\ control_reg_init_code_clear_time s' = 130.
Proof.
  destruct (boot_write_loads_code gc_init 0) as (s' & E & _ & _ & Hpc & _ & Hc & Ht).
  - exact gc_init_wf.
  - done.
  - reflexivity.
  - reflexivity.
  - reflexivity.
  - reflexivity.
  - exists s'. split; [exact E|]. split; [exact Hpc|]. split; [exact Hc|exact Ht].
Defined.

(** Two words saved from a machine and restored in one just switched on. *)
Lemma dma_saves_and_restores_witness :
  exists s1, DDMAOut 0x20 0x80000100 4 gc_init = Done tt s1 /\
    exists m', DDMAIn 0x20 0x80000100 4 s1 = Done tt (set_dram m' s1).
Proof.
  destruct (dma_saves_and_restores gc_init 0x20 0x80000100 4) as (ws & s1 & _ & E & _ & Hin).
  - exact gc_init_wf.
  - done.
  - done.
  - reflexivity.
  - by vm_compute.
  - exists s1. split; [exact E|]. destruct (Hin s1) as (m' & E' & _).
    + pose proof (safe_DDMAOut (H := GCHost) 0x20 0x80000100 4 gc_init gc_init_wf) as Hw. rewrite E in Hw. apply Hw.
    + reflexivity.
    + exists m'. exact E'.
Defined.
